(* ===== verification/_CoqProject ===== *)
-Q . S2P
Prelude.v
Crates.v
Float64.v
Protocol.v
Reason.v
Consensus.v
Mempool.v
Policy.v
Codec.v
Difficulty.v
Jobs.v
Channels.v
Shares.v
Handler.v
Wal.v
Transport.v
TemplateBlock.v
Manager.v
Upstream.v
Accounting.v
Limits.v
Gateway.v
VerifierStream.v
Session.v
IdleStream.v
VerdictLog.v
Ingress.v
Exchange.v
License.v
Desktop.v
AuthDb.v
Auth.v
AuthTrace.v
Middleware.v
PolicyFile.v
ConfigIo.v
Admin.v
VerdictCsv.v
NetAddr.v
GatewayConf.v
GatewayAdmin.v
BitcoindRpc.v
IpText.v
DashboardLimit.v
Dashboard.v
ManagerConfig.v
Feed.v
CommonConfig.v
Bridge.v
MempoolClient.v
