(* ===== verification/Prelude.v ===== *)
(** * ReserveGrid OS: verification development

    ReserveGrid OS is a Bitcoin mining stack. The template manager ([services/template-manager])
    polls a node and builds block templates; the SV2 gateway ([services/sv2-gateway]) proposes each
    to the pool verifier ([services/pool-verifier]), which judges it against a policy, re-derives
    what it can from the block bytes ([services/rg-consensus], the Invariant Shield) and compares
    the transactions with its view of the mempool. The gateway hands verified jobs to miners over
    Stratum V2, validates the shares they return, accounts for them durably and relays them
    upstream. Around this, [services/reservegrid-gateway] is the middleware of the HTTP interfaces,
    [services/rg-auth] keeps accounts and issues license keys, [services/rg-desktop] and
    [services/rg-feed-server] verify them, [services/rg-dashboard] stands in front of the services for
    a browser, and [services/rg-feed-server] and [services/rg-feed-adapter] bring the templates of a
    distant node to a template manager. [services/reservegrid-common] and [services/rg-protocol] hold
    what all parts share.

    ** Files and what they model

    Shared:
    - [Prelude]: results and the [?] operator, machine integers written out at their width,
      bytes and little-endian integers, list facts, the closure of a step relation, tactics.
    - [Crates]: functions of crates outside the repository (hex, SHA-256, HMAC) as operations of
      type classes, their documented facts as law classes, and concrete instances for examples.
    - [Float64]: the [f64] operations the sources use, on the executable IEEE-754 specification;
      exactness of integers below 2^53.
    - [Protocol]: [rg-protocol/src/lib.rs] and [gateway.rs]: proposals, verdicts, reasons, modes.
    - [Reason]: [reservegrid-common/src/reason.rs]: gateway reasons, unified reason codes, wire
      mappings; a panicking mapping is [None].
    - [Limits]: rate limiter, per-address tracker and modes of [reservegrid-common], connection
      limiter and readiness of the gateway, and the admission of connections that composes them.

    The verifier:
    - [Consensus]: [rg-consensus/src/lib.rs]: the re-derivations and checks over a parsed block,
      BIP-34 heights, sigops, witness commitments, the assembly of a template block. The block
      parser and merkle functions of the [bitcoin] crate are operations of a class with laws.
    - [Mempool]: [mempool_view.rs] and [second_chance.rs]: the served mempool view as a state
      machine, Class M, the block walk, probes and adjudication over an arbitrary node.
    - [Policy]: [policy.rs] and the decision path of [ingress.rs]: policy stages, Invariant Shield,
      evaluation, second chance and verdict.
    - [IdleStream]: [idle_stream.rs]: the no-progress deadline and the learned heartbeat threshold.
    - [VerdictLog]: [verdicts.rs]: the record of a verdict, the log in memory and on disk, rotation,
      loading, and its readers in [handlers.rs].
    - [Ingress]: the rest of [ingress.rs]: admission, bounded reading, the message loop.
    - [PolicyFile]: [state.rs], the serde side of [policy.rs] and the setup wizard: policy documents
      read and written, unread keys, the permissive fallback.
    - [ConfigIo]: [reservegrid-common/src/config_io.rs]: a save as system calls on names and inodes.
    - [Admin]: [handlers.rs], the routes of [http.rs] and the start in [main.rs]: policy and settings
      changes, their throttle and authorisation, readiness.
    - [VerdictCsv]: the CSV export of [handlers.rs].
    - [BitcoindRpc]: [bitcoind_rpc.rs]: the client of the node, single calls and batches, on which the
      second chance of [Mempool] runs.
    - [MempoolClient]: [mempool_client.rs]: the size of the mempool, joined to the endpoint of the
      template manager that answers it and to the fee tier it decides.

    The gateway:
    - [Codec]: [sv2_codec.rs]: reader and writer with panics as an outcome, field types, the
      seventeen messages, as instances of a message interface.
    - [Transport]: [transport.rs]: frames and Noise frames over a socket that cuts the bytes at will,
      handshake and authority key.
    - [Difficulty], [Shares]: [shares.rs]: the 256-bit difficulty arithmetic; identities, signing,
      proof of work, version bits, ntime, replay detection, events.
    - [Jobs]: [jobs.rs]: id allocation, sequential and as interleaved atomic steps, job table,
      merkle roots, template dedup cache.
    - [Channels]: [channels.rs]: extranonce prefixes, rate limiter, vardiff, channel table,
      hashrate window, registry.
    - [Handler], [Session]: [handler.rs]: the handlers of one connection in a state monad with early
      exit and panic, and the session around them, interleaved with the other connections.
    - [Wal], [Accounting]: [wal.rs] and [accounting.rs]: the write-ahead log of accepted shares with
      failed and torn writes, and the two lines of a share as effects a crash can separate.
    - [Upstream]: [upstream.rs]: template polling, forwarding with retries, the relay as steps of
      concurrent tasks.
    - [VerifierStream]: [verifier_stream.rs]: the cancel-safe line reader, the I/O loop, reconnects.
    - [Gateway]: the arms of the main loop of [main.rs]: pending templates, verdicts, degraded mode.
    - [NetAddr], [GatewayConf]: [config.rs]: address parsing, the configuration structs, their defaults
      and validation.
    - [GatewayAdmin]: the settings endpoints, the start and the key reload of [main.rs].
    - [Exchange]: [VerifierStream] and [Ingress] joined: proposals out, verdicts back.

    The template manager:
    - [TemplateBlock], [Manager]: [template-manager/src/main.rs]: fingerprints, coinbase halves,
      merkle branch and raw block; polling, serving and share ingest.
    - [ManagerConfig]: [template-manager/src/config.rs] and the settings and start of [main.rs]: the
      configuration, a save in its phases, concurrent saves.
    - [Bridge]: [sv2-bridge/src]: the stream of synthetic proposals a template manager can run on.

    HTTP, accounts and licenses:
    - [Middleware]: [reservegrid-gateway/src]: authentication, nonces, token buckets, input bounds,
      headers and their order.
    - [CommonConfig]: [reservegrid-common/src/config.rs] and [redacted.rs]: the configuration of the
      middleware, its secrets, the scan of a document for secrets.
    - [AuthDb], [Auth], [AuthTrace]: [rg-auth/src]: the tables and statements, every endpoint, and
      what holds over runs of them.
    - [License], [Desktop]: license keys as [rg-auth] signs them and the three verifiers read them;
      the configuration file of [rg-desktop].
    - [IpText], [DashboardLimit], [Dashboard]: [rg-dashboard/src]: addresses as text and their canonical
      form; the budgets per client with the resolution of forwarded addresses; configuration, proxies,
      health and start, joined to the reading of the address in [Auth].
    - [Feed]: [rg-feed-server/src] and [rg-feed-adapter/src]: poller, broadcast channel, accept loop,
      upgrade and relay on one side, reader, buffer, JSON-RPC endpoint and limit on the other, and the
      two joined as steps.

    Effects are explicit: state is a record passed through, errors are values, panics an outcome;
    each reading of a clock is an argument, each outcome of a write or of a storage statement an
    argument or part of the state, and the unspecified iteration order of a hash map an argument
    where it matters. A [HashMap] is a [gmap], a [HashSet] a [gset], a [BTreeMap] a sorted list, an
    [Instant] an integer of nanoseconds. Log lines are left out; error texts are kept where the code
    compares, bounds or answers with them and reduced to their kind elsewhere. Code outside the
    repository (the [bitcoin], [hex], [sha2], [hmac], [base64], [ed25519-dalek], [argon2], [toml]
    and [serde_json] crates, the Noise codec, the node) is an operation of a type class; what is
    needed of it is a class of laws, and every class has an instance in a sample module, where the
    theorems that use it are applied.

    ** What the theorems show

    - Verdicts: the shield agrees with a template exactly when its declared fields are those of
      the block; a template is accepted exactly when it satisfies every rule; the second chance
      withdraws or upholds a rejection only on the count of what the node showed, the unanswered
      transactions counting against the template, also when its replies come in any order or not at all;
      the verdict sent is consistent with
      its reason; no job is made of a template without an accepting verdict while enforcement is on.
    - Between services: every proposal gets its verdict and its record however the network cuts the
      bytes; a node's template becomes a job with the right merkle root; a share signed by the
      gateway is ingested by the template manager; a license key issued by one service is honoured
      by the others until it expires, and without a forged signature nothing else is; what the feed adapter serves is what the
      node of the feed server answered last; the account service counts a request against the client
      the dashboard saw; the fee tier is that of the size the node gave last; the template served is
      the last one that changed and could be built.
    - Wire: decoders are total on arbitrary bytes and invert the encoders; frames survive the
      encrypted transport; lines are heard once and in order.
    - Shares: difficulty arithmetic is exact division; proof of work is the integer comparison;
      replay detection is a sliding window.
    - Connection: every decoded share gets one answer, is queued exactly when it is acknowledged
      and accounted for as answered; the frames that make the handler panic are characterised;
      the channel table does what its contract says, operation by operation; a session that ends leaves no
      channel behind, and one that panics, which only a share submission that does not decode makes it
      do, keeps its channels; connection limits hold and their counters are exact; a gateway that keeps its
      rhythm is not shed, and how late it may be accepted is stated.
    - Durability: through batches in any order, compactions, crashes and restarts the share log
      replays to the index in memory and no accepted share loses its result while every file the gateway
      goes on with ends in a whole line, and the run that loses one otherwise is shown; the verdict log
      drops nothing before six files are full and its ids grow.
    - Progress: a silent verifier is found out although it keeps its link, and what waited for it is
      broadcast; the relay ends and delivers every share.
    - Concurrency: id allocation is unique in every interleaving up to exhaustion.
    - Administration: the policy in force passed validation through any interleaving of changes, and its
      text is a document of it but for two notes whose occasions are stated;
      the configurations of the gateway that pass are characterised, one whose gateway starts without a
      panic keeps starting through any saves and crashes, and what runs is what was checked;
      the configuration of the template manager keeps loading through saves one after the other;
      no key of a policy document is ignored in silence; what the wizard writes is loaded; a save of
      a configuration file is all or nothing; the CSV export is read back.
    - Accounts: the tables stay consistent through any requests and storage failures; mail links
      work once; sessions come from logins and end with a logout or with a password reset whose
      statements the storage performed; answers hide which addresses are registered; signed
      requests are accepted once; a client of the dashboard has one budget whatever it writes in the
      forwarding headers; the keys of the middleware are long enough, and they alone pass its check.

    ** Bounds and fuel

    Most loops are structural recursions: over the bits of a 256-bit quotient, the bounded block
    walk, the queue being drained, the chunks of a message. Where the data are not consumed
    structurally a fuel bounds the walk, and the theorems state how much is enough: the line reader
    ([VerifierStream.read_turns]) needs more than its refills and pending bytes together, the
    connection of the ingress more than its lines, a read of a frame the outstanding bytes, a poll of
    the idle timer the idle budget over half a second and four more passes.

    ** Not modelled

    TLS set-up, socket options and the parsers of command lines; metrics pages and logs; endpoints
    that only show state; the page of the verifier's dashboard; the window of the desktop client around
    the license check and the feed of generated data; the load generator and the test miner, which only
    drive the system in tests. A save of a file is its system calls: a crash is that of the process, and
    what a loss of power does to pages not yet on disk is outside. The tasks of the relay run as long as the
    loop that takes their results. A connection of the verifier is followed by itself; the records other
    connections put between its own are not. The JSON of the feed is read back as it was written, floats
    included. *)

From stdpp Require Export base numbers option list list_numbers strings gmap fin_maps.
From Stdlib Require Export ZArith Lia Strings.Byte.

#[global] Open Scope Z_scope.

(** ** Automation *)

Create HintDb rg.

(** Case analysis on the scrutinee of a boolean test or of a match, in the goal or in a
    hypothesis, with the equation kept and comparisons turned into propositions. *)
Ltac case_if :=
  match goal with
  | |- context [if ?b then _ else _] => let E := fresh "E" in destruct b eqn:E
  | H : context [if ?b then _ else _] |- _ => let E := fresh "E" in destruct b eqn:E
  end.

(** Turn boolean comparisons on [Z] in the context into propositions. *)
Ltac z_bool :=
  repeat match goal with
  | H : (_ <? _) = true |- _ => apply Z.ltb_lt in H
  | H : (_ <? _) = false |- _ => apply Z.ltb_ge in H
  | H : (_ <=? _) = true |- _ => apply Z.leb_le in H
  | H : (_ <=? _) = false |- _ => apply Z.leb_gt in H
  | H : (_ =? _) = true |- _ => apply Z.eqb_eq in H
  | H : (_ =? _) = false |- _ => apply Z.eqb_neq in H
  | H : (_ >? _) = true |- _ => rewrite Z.gtb_lt in H
  | H : (_ >? _) = false |- _ => rewrite Z.gtb_ltb in H; apply Z.ltb_ge in H
  | H : (_ >=? _) = true |- _ => rewrite Z.geb_le in H
  | H : (_ >=? _) = false |- _ => rewrite Z.geb_leb in H; apply Z.leb_gt in H
  | H : _ && _ = true |- _ => apply andb_true_iff in H; destruct H
  | H : _ || _ = false |- _ => apply orb_false_iff in H; destruct H
  | H : negb _ = true |- _ => apply negb_true_iff in H
  | H : negb _ = false |- _ => apply negb_false_iff in H
  end.

(** ** Results: [Result<T, E>] and the [?] operator *)

Inductive result (T E : Type) : Type :=
| Ok (t : T)
| Err (e : E).
Arguments Ok {T E} _.
Arguments Err {T E} _.

Declare Scope rust_scope.
Delimit Scope rust_scope with rust.
#[global] Open Scope rust_scope.

Definition result_bind {T U E} (r : result T E) (k : T -> result U E) : result U E :=
  match r with Ok t => k t | Err e => Err e end.

Notation "'let?' x ':=' r 'in' k" := (result_bind r (fun x => k))
  (at level 10, x name, r at level 100, k at level 200) : rust_scope.

(** [Option::ok_or]. *)
Definition ok_or {T E} (o : option T) (e : E) : result T E :=
  match o with Some t => Ok t | None => Err e end.

(** [Result::is_ok]. *)
Definition is_ok {T E} (r : result T E) : bool :=
  match r with Ok _ => true | Err _ => false end.

(** [Result::map_err]. *)
Definition map_err {T E F} (f : E -> F) (r : result T E) : result T F :=
  match r with Ok t => Ok t | Err e => Err (f e) end.

Definition unwrap_or {T} (o : option T) (d : T) : T :=
  match o with Some t => t | None => d end.

Lemma result_bind_ok {T U E} (r : result T E) (k : T -> result U E) u :
  result_bind r k = Ok u <-> exists t, r = Ok t /\ k t = Ok u.
Proof. destruct r; simpl; split; [eauto | intros (?&[= ->]&?); done | done | intros (?&?&?); done]. Qed.

Lemma ok_or_ok {T E} (o : option T) (e : E) t : ok_or o e = Ok t <-> o = Some t.
Proof. destruct o; simpl; split; congruence. Qed.

(** Open the [Ok] cases of chains of [let?] in the context. *)
Ltac inv_ok :=
  repeat match goal with
  | H : result_bind _ _ = Ok _ |- _ => apply result_bind_ok in H as (? & ? & H)
  | H : ok_or _ _ = Ok _ |- _ => apply ok_or_ok in H
  | H : Ok _ = Ok _ |- _ => injection H as H; try subst
  | H : Ok _ = Err _ |- _ => discriminate H
  | H : Err _ = Ok _ |- _ => discriminate H
  end.

(** ** Machine integers

    A [w]-bit unsigned integer is a [Z] in [[0, 2^w)]; the width is written out at every
    operation whose behaviour depends on it. *)

Definition u_max (w : Z) : Z := 2 ^ w - 1.
Definition u8_max : Z := 255.
Definition u16_max : Z := 65535.
Definition u32_max : Z := 4294967295.
Definition u64_max : Z := 18446744073709551615.
Definition u128_max : Z := 340282366920938463463374607431768211455.

(** The values of a [w]-bit unsigned integer type. *)
Definition in_u (w : Z) (z : Z) : Prop := 0 <= z < 2 ^ w.

#[global] Instance in_u_dec w z : Decision (in_u w z).
Proof. unfold in_u. apply _. Defined.

Definition saturating_add (w a b : Z) : Z := Z.min (a + b) (2 ^ w - 1).
Definition saturating_sub (a b : Z) : Z := Z.max 0 (a - b).
Definition saturating_mul (w a b : Z) : Z := Z.min (a * b) (2 ^ w - 1).
Definition checked_add (w a b : Z) : option Z :=
  if a + b <=? 2 ^ w - 1 then Some (a + b) else None.
Definition wrapping_add (w a b : Z) : Z := (a + b) mod 2 ^ w.
Definition wrapping_sub (w a b : Z) : Z := (a - b) mod 2 ^ w.

(** [u<w>::try_from(z).unwrap_or(u<w>::MAX)], for [z] non-negative. *)
Definition clamp_u (w z : Z) : Z := if z <=? 2 ^ w - 1 then z else 2 ^ w - 1.

Lemma clamp_u_min w z : clamp_u w z = Z.min z (2 ^ w - 1).
Proof. unfold clamp_u. case_if; z_bool; lia. Qed.

Lemma in_u_saturating_add w a b :
  0 <= w -> in_u w a -> 0 <= b -> in_u w (saturating_add w a b).
Proof. unfold in_u, saturating_add. lia. Qed.

Lemma in_u_clamp w z : 0 <= w -> 0 <= z -> in_u w (clamp_u w z).
Proof. unfold in_u. rewrite clamp_u_min. intros. assert (0 < 2 ^ w) by lia. lia. Qed.

#[export] Hint Resolve in_u_saturating_add in_u_clamp : rg.

(** ** Bytes and little-endian integers *)

Abbreviation bytes := (list Byte.byte).

#[global] Instance byte_eq_decision : EqDecision Byte.byte := Byte.byte_eq_dec.

Definition byte_to_Z (b : Byte.byte) : Z := Z.of_N (Byte.to_N b).

(** [z as u8]. *)
Definition Z_to_byte (z : Z) : Byte.byte :=
  match Byte.of_N (Z.to_N (z mod 256)) with Some b => b | None => x00 end.

#[global] Instance byte_countable : Countable Byte.byte.
Proof.
  refine (inj_countable Byte.to_N Byte.of_N _). exact Byte.of_to_N.
Defined.

Lemma byte_to_Z_range b : 0 <= byte_to_Z b < 256.
Proof. unfold byte_to_Z. pose proof (Byte.to_N_bounded b). lia. Qed.

Lemma Z_to_byte_to_Z b : Z_to_byte (byte_to_Z b) = b.
Proof.
  unfold Z_to_byte. rewrite Z.mod_small by apply byte_to_Z_range.
  unfold byte_to_Z. by rewrite N2Z.id, Byte.of_to_N.
Qed.

Lemma byte_to_Z_to_byte z : byte_to_Z (Z_to_byte z) = z mod 256.
Proof.
  pose proof (Z.mod_pos_bound z 256 ltac:(lia)). unfold Z_to_byte, byte_to_Z.
  destruct (Byte.of_N _) eqn:E.
  - apply Byte.to_of_N in E. rewrite E. lia.
  - apply Byte.of_N_None_iff in E. lia.
Qed.

Lemma byte_to_Z_inj a b : byte_to_Z a = byte_to_Z b -> a = b.
Proof. intros H. by rewrite <-(Z_to_byte_to_Z a), H, Z_to_byte_to_Z. Qed.

(** [u<8n>::to_le_bytes]. *)
Fixpoint le_bytes (n : nat) (z : Z) : bytes :=
  match n with
  | O => []
  | S n => Z_to_byte z :: le_bytes n (z / 256)
  end.

(** [u<8n>::from_le_bytes]. *)
Fixpoint from_le_bytes (l : bytes) : Z :=
  match l with
  | [] => 0
  | b :: l => byte_to_Z b + 256 * from_le_bytes l
  end.

Lemma length_le_bytes n z : length (le_bytes n z) = n.
Proof. revert z. induction n; simpl; auto. Qed.

Lemma from_le_bytes_range l : 0 <= from_le_bytes l < 256 ^ Z.of_nat (length l).
Proof.
  induction l as [|b l IH]; [simpl; lia|].
  cbn [from_le_bytes length]. rewrite Nat2Z.inj_succ, Z.pow_succ_r by lia.
  pose proof (byte_to_Z_range b). lia.
Qed.

Lemma from_to_le_bytes n z : from_le_bytes (le_bytes n z) = z mod 256 ^ Z.of_nat n.
Proof.
  revert z. induction n as [|n IH]; intros z; [simpl; by rewrite Z.mod_1_r|].
  cbn [from_le_bytes le_bytes]. rewrite IH, byte_to_Z_to_byte, Nat2Z.inj_succ, Z.pow_succ_r by lia.
  rewrite Z.rem_mul_r by lia. lia.
Qed.

Lemma to_from_le_bytes l : le_bytes (length l) (from_le_bytes l) = l.
Proof.
  induction l as [|b l IH]; [done|]. cbn [length le_bytes from_le_bytes].
  pose proof (byte_to_Z_range b). f_equal.
  - rewrite <-(Z_to_byte_to_Z b) at 2. apply byte_to_Z_inj.
    rewrite !byte_to_Z_to_byte. rewrite (Z.mul_comm 256), Z.mod_add by lia. done.
  - rewrite (Z.mul_comm 256), Z.div_add, Z.div_small by lia. done.
Qed.

Lemma from_le_bytes_inj a b :
  length a = length b -> from_le_bytes a = from_le_bytes b -> a = b.
Proof. intros Hl He. by rewrite <-(to_from_le_bytes a), Hl, He, to_from_le_bytes. Qed.

Lemma from_le_bytes_app a b :
  from_le_bytes (a ++ b) = from_le_bytes a + 256 ^ Z.of_nat (length a) * from_le_bytes b.
Proof.
  induction a as [|x a IH]; [cbn [from_le_bytes app length]; lia|].
  cbn [from_le_bytes app length]. rewrite IH, Nat2Z.inj_succ, Z.pow_succ_r by lia. lia.
Qed.

(** ** Bits *)

(** Or-ing a shifted value into bits that are clear is addition. *)
Lemma lor_shiftl_add a b n : 0 <= n -> 0 <= a < 2 ^ n -> Z.lor a (Z.shiftl b n) = a + b * 2 ^ n.
Proof.
  intros Hn Ha. rewrite <-Z.shiftl_mul_pow2, <-Z.add_lor_land by lia.
  enough (Z.land a (Z.shiftl b n) = 0) by lia.
  apply Z.bits_inj'. intros i Hi. rewrite Z.land_spec, Z.bits_0, Z.shiftl_spec by lia.
  destruct (Z.lt_ge_cases i n).
  - rewrite (Z.testbit_neg_r b (i - n)) by lia. apply andb_false_r.
  - rewrite <-(Z.mod_small a (2 ^ n)), Z.mod_pow2_bits_high by lia. done.
Qed.

(** The sign-bit test on a byte. *)
Lemma byte_high_bit b : (Z.land (byte_to_Z b) 0x80 =? 0) = (byte_to_Z b <? 128).
Proof. by destruct b. Qed.

Lemma byte_land_255 b : Z.land (byte_to_Z b) 0xff = byte_to_Z b.
Proof. by destruct b. Qed.

Lemma byte_land_127 b : byte_to_Z b < 128 -> Z.land (byte_to_Z b) 0x7f = byte_to_Z b.
Proof. destruct b; done || (vm_compute; discriminate). Qed.

(** Add the range of every byte in the context. *)
Ltac byte_ranges :=
  repeat match goal with x : Byte.byte |- _ =>
    lazymatch goal with
    | _ : 0 <= byte_to_Z x < 256 |- _ => fail
    | _ => pose proof (byte_to_Z_range x)
    end
  end.

(** ** Lists *)

Lemma existsb_false_Forall {A} (f : A -> bool) l :
  existsb f l = false <-> Forall (fun x => f x = false) l.
Proof.
  induction l as [|x l IH]; simpl.
  - split; [constructor|done].
  - rewrite orb_false_iff, IH, Forall_cons. done.
Qed.

Lemma Forall_list_filter {A} (P Q : A -> Prop) `{!forall x, Decision (Q x)} l :
  Forall P l -> Forall P (filter Q l).
Proof. rewrite !Forall_forall. intros Hl x [_ Hx]%list_elem_of_filter. auto. Qed.

Lemma list_filter_all {A} (P : A -> Prop) `{!forall x, Decision (P x)} l :
  Forall P l -> filter P l = l.
Proof. induction 1; [done|]. rewrite filter_cons, decide_True by done. by f_equal. Qed.

(** Sum of a list of integers. *)
(** [slice::chunks], with the length of the list as fuel: every chunk is non-empty. *)
Fixpoint chunks_fuel {A} (fuel n : nat) (l : list A) : list (list A) :=
  match fuel, l with
  | O, _ | _, [] => []
  | S fuel, _ => take n l :: chunks_fuel fuel n (drop n l)
  end.
Definition chunks {A} (n : nat) (l : list A) : list (list A) := chunks_fuel (length l) n l.

Lemma concat_chunks {A} n (l : list A) : (1 <= n)%nat -> concat (chunks n l) = l.
Proof.
  intros Hn. unfold chunks. assert (forall fuel (l : list A), (length l <= fuel)%nat ->
    concat (chunks_fuel fuel n l) = l) as Hc; [|by apply Hc].
  clear l. induction fuel as [|fuel IH]; intros [|x l] Hl; cbn [length] in Hl; try done; [lia|].
  cbn [chunks_fuel concat]. rewrite IH, take_drop; [done|]. rewrite length_drop. cbn. lia.
Qed.

Lemma chunks_bounded {A} n (l : list A) : (1 <= n)%nat ->
  Forall (fun c => 1 <= length c <= n)%nat (chunks n l).
Proof.
  intros Hn. unfold chunks. generalize (length l) as fuel. intros fuel. revert l.
  induction fuel as [|fuel IH]; intros [|x l]; cbn [chunks_fuel]; constructor; [|apply IH].
  rewrite length_take. cbn [length]. lia.
Qed.

Definition sumZ (l : list Z) : Z := foldr Z.add 0 l.

Lemma sumZ_app a b : sumZ (a ++ b) = sumZ a + sumZ b.
Proof. unfold sumZ. induction a; simpl in *; lia. Qed.

Lemma sumZ_nonneg l : Forall (fun z => 0 <= z) l -> 0 <= sumZ l.
Proof. unfold sumZ. induction 1; simpl; lia. Qed.

(** The length of a list as an integer ([len()] as a [usize]). *)
Definition lenZ {A} (l : list A) : Z := Z.of_nat (length l).

Lemma lenZ_nonneg {A} (l : list A) : 0 <= lenZ l.
Proof. unfold lenZ. lia. Qed.

Lemma lenZ_app {A} (a b : list A) : lenZ (a ++ b) = lenZ a + lenZ b.
Proof. unfold lenZ. rewrite length_app. lia. Qed.

#[export] Hint Resolve lenZ_nonneg sumZ_nonneg : rg.

(** A function with pairwise distinct values on an exhaustive enumeration is injective: how the
    source's [ALL] tables give the injectivity of the code strings. *)
Lemma enum_inj {A B} (l : list A) (f : A -> B) :
  (forall a, a ∈ l) -> NoDup (f <$> l) -> Inj (=) (=) f.
Proof.
  intros Hall Hnd a b Hab.
  destruct (proj1 (list_elem_of_lookup _ _) (Hall a)) as [i Hi].
  destruct (proj1 (list_elem_of_lookup _ _) (Hall b)) as [j Hj].
  assert (i = j) as <-; [|congruence].
  eapply (NoDup_lookup _ _ _ (f a) Hnd).
  - by rewrite list_lookup_fmap, Hi.
  - by rewrite list_lookup_fmap, Hj, Hab.
Qed.

(** Equality is decidable through an injection. *)
Definition inj_eq_dec {A B} `{EqDecision B} (f : A -> B) (Hf : Inj (=) (=) f) : EqDecision A :=
  fun a b => match decide (f a = f b) with
             | left H => left (Hf a b H)
             | right H => right (fun E => H (f_equal f E))
             end.

(** Membership in an explicit list of constructors. *)
Ltac solve_enum := intros []; repeat (apply list_elem_of_here || apply list_elem_of_further).

(** ** Reflexive transitive closure of a step relation *)

Inductive star {S : Type} (R : S -> S -> Prop) : S -> S -> Prop :=
| star_refl s : star R s s
| star_step s t u : R s t -> star R t u -> star R s u.

Lemma star_invariant {S} (R : S -> S -> Prop) (I : S -> Prop) :
  (forall s t, I s -> R s t -> I t) -> forall s t, star R s t -> I s -> I t.
Proof. intros HR s t H. induction H; eauto. Qed.

Lemma star_trans {S} (R : S -> S -> Prop) s t u : star R s t -> star R t u -> star R s u.
Proof. induction 1; eauto using star. Qed.

Lemma rtc_invariant {S} (R : S -> S -> Prop) (I : S -> Prop) :
  (forall s t, R s t -> I s -> I t) -> forall s t, rtc R s t -> I s -> I t.
Proof. intros HR s t H. induction H; eauto. Qed.

(** ** Sliding windows

    A deque of times that holds at most [max] of them and drops the expired ones from its front:
    among everything it ever let in ([past], oldest first), an entry is expired when the [max]-th
    after it comes. *)
Section SlidingWindow.
Context (expired : Z -> Z -> Prop) (max : Z).
Context (expired_mono : forall now now' t t', now <= now' -> t' <= t -> expired now t -> expired now' t').

Definition spaced (past : list Z) : Prop :=
  forall i a b, past !! i = Some a -> past !! (i + Z.to_nat max)%nat = Some b -> expired b a.

Record window_inv (clock : Z) (past ts : list Z) : Prop := {
  wi_split : exists old, past = old ++ ts /\ Forall (expired clock) old;
  wi_len : lenZ ts <= Z.max 0 max;
  wi_spaced : spaced past;
  wi_clock : Forall (fun t => t <= clock) past;
  wi_sorted : forall i j a b, (i <= j)%nat -> past !! i = Some a -> past !! j = Some b -> a <= b
}.

Lemma window_empty clock : window_inv clock [] [].
Proof. split; [by exists []|unfold lenZ; cbn; lia|done|constructor|done]. Qed.

Lemma window_later clock now past ts : clock <= now -> window_inv clock past ts -> window_inv now past ts.
Proof.
  intros Hle [(old & Hs & Ho) Hl Hsp Hc Hso]. split; [|done|done| |done].
  - exists old. split; [done|]. eapply Forall_impl; [exact Ho|]. intros t. by apply expired_mono.
  - eapply Forall_impl; [exact Hc|]. cbn. lia.
Qed.

(** Expired entries leave the front. *)
Lemma window_prune clock past old ts : window_inv clock past (old ++ ts) ->
  Forall (expired clock) old -> window_inv clock past ts.
Proof.
  intros [(old' & Hs & Ho) Hl Hsp Hc Hso] Hold. split; [|rewrite lenZ_app in Hl; pose proof (lenZ_nonneg old); lia|done..].
  exists (old' ++ old). split; [by rewrite <-app_assoc|]. by apply Forall_app.
Qed.

(** The whole deque leaves when its last entry is expired. *)
Lemma window_clear clock past ts t : window_inv clock past ts -> last ts = Some t -> expired clock t ->
  window_inv clock past [].
Proof.
  intros Hw Hl He. apply (window_prune clock past ts []); [by rewrite app_nil_r|].
  destruct Hw as [(old & Hs & Ho) _ _ _ Hso]. apply Forall_lookup. intros i a Ha.
  apply (expired_mono clock clock t a); [lia| |done].
  rewrite last_lookup in Hl. apply (Hso (length old + i)%nat (length old + pred (length ts))%nat).
  - apply lookup_lt_Some in Ha. lia.
  - rewrite Hs, lookup_app_r by lia. by rewrite Nat.add_comm, Nat.add_sub.
  - rewrite Hs, lookup_app_r by lia. by rewrite Nat.add_comm, Nat.add_sub.
Qed.

Lemma window_push now past ts : window_inv now past ts -> lenZ ts < max ->
  window_inv now (past ++ [now]) (ts ++ [now]).
Proof.
  intros [(old & Hs & Ho) Hl Hsp Hc Hso] Hlt. split.
  - exists old. by rewrite Hs, <-app_assoc.
  - rewrite lenZ_app. change (lenZ [now]) with 1. lia.
  - intros i a b Ha Hb. destruct (decide (i + Z.to_nat max < length past)%nat).
    { rewrite lookup_app_l in Ha, Hb by lia. eauto. }
    rewrite lookup_app_r in Hb by lia. apply list_lookup_singleton_Some in Hb as [Hi <-].
    assert (length past = length old + length ts)%nat by (by rewrite Hs, length_app).
    unfold lenZ in Hlt. rewrite lookup_app_l in Ha by lia. rewrite Hs, lookup_app_l in Ha by lia.
    by eapply (proj1 (Forall_lookup _ _) Ho).
  - apply Forall_app. split; [done|]. constructor; [lia|constructor].
  - intros i j a b Hij Ha Hb. destruct (decide (j < length past)%nat).
    { rewrite lookup_app_l in Ha, Hb by lia. eauto. }
    rewrite lookup_app_r in Hb by lia. apply list_lookup_singleton_Some in Hb as [Hj <-].
    destruct (decide (i < length past)%nat).
    + rewrite lookup_app_l in Ha by lia. by eapply (proj1 (Forall_lookup _ _) Hc).
    + rewrite lookup_app_r in Ha by lia. apply list_lookup_singleton_Some in Ha as [_ <-]. lia.
Qed.
End SlidingWindow.
