(* ===== verification/Crates.v ===== *)
(** * Third-party functions

    Functions of crates that are not part of the repository, as operations of type classes the
    models take as arguments, with the documented facts the theorems use in separate law
    classes. Each class comes with one concrete instance, used only to run examples. *)

From S2P Require Import Prelude.

(** ** The [hex] crate *)

Class HexCrate : Type := {
  hex_encode : bytes -> string;
  hex_decode : string -> result bytes string
}.

Class HexLaws `{HexCrate} : Prop := {
  (** Two characters per byte. *)
  hex_encode_length : forall b, String.length (hex_encode b) = (2 * length b)%nat;
  (** Decoding inverts encoding. *)
  hex_decode_encode : forall b, hex_decode (hex_encode b) = Ok b
}.

(** ** The [sha2] crate *)

Class Sha256Crate : Type := { sha256 : bytes -> bytes }.

Class Sha256Laws `{Sha256Crate} : Prop := {
  sha256_length : forall b, length (sha256 b) = 32%nat
}.

(** ** The [hmac] crate: HMAC-SHA256, [None] when the key is rejected *)

Class HmacCrate : Type := { hmac_sha256 : bytes -> bytes -> option bytes }.

Class HmacLaws `{HmacCrate} : Prop := {
  hmac_length : forall key msg mac, hmac_sha256 key msg = Some mac -> length mac = 32%nat
}.

(** ** A concrete instance of [HexCrate] *)

Module HexSample.

Definition digit (n : Z) : Ascii.ascii :=
  match String.get (Z.to_nat n) "0123456789abcdef" with
  | Some c => c | None => Ascii.zero end.

Definition undigit (c : Ascii.ascii) : option Z :=
  let n := Z.of_N (Ascii.N_of_ascii c) in
  if (48 <=? n) && (n <=? 57) then Some (n - 48)
  else if (97 <=? n) && (n <=? 102) then Some (n - 87)
  else if (65 <=? n) && (n <=? 70) then Some (n - 55)
  else None.

Fixpoint encode (b : bytes) : string :=
  match b with
  | [] => ""
  | x :: b => String.String (digit (byte_to_Z x / 16))
                (String.String (digit (byte_to_Z x mod 16)) (encode b))
  end.

Fixpoint decode (s : string) : result bytes string :=
  match s with
  | String.EmptyString => Ok []
  | String.String _ String.EmptyString => Err "Odd number of digits"%string
  | String.String h (String.String l s) =>
      match undigit h, undigit l with
      | Some a, Some b => let? r := decode s in Ok (Z_to_byte (16 * a + b) :: r)
      | _, _ => Err "Invalid character"%string
      end
  end.

Definition crate : HexCrate := {| hex_encode := encode; hex_decode := decode |}.

Lemma undigit_digit b :
  undigit (digit (byte_to_Z b / 16)) = Some (byte_to_Z b / 16) /\
  undigit (digit (byte_to_Z b mod 16)) = Some (byte_to_Z b mod 16).
Proof. destruct b; split; reflexivity. Qed.

Lemma hex_laws : @HexLaws crate.
Proof.
  split; intros b; cbn [hex_encode hex_decode crate].
  - induction b as [|x b IH]; [done|]. cbn [encode String.length length]. rewrite IH. lia.
  - induction b as [|x b IH]; [done|]. cbn [encode decode].
    destruct (undigit_digit x) as [-> ->]. rewrite IH, <-Z.div_mod by lia.
    cbn [result_bind]. by rewrite Z_to_byte_to_Z.
Qed.

End HexSample.

(** ** A concrete instance of [Sha256Crate]: not a hash, only 32 bytes of its input *)

Module Sha256Sample.

Definition crate : Sha256Crate := {| sha256 b := take 32 (b ++ replicate 32 x00) |}.

Lemma sha256_laws : @Sha256Laws crate.
Proof.
  split. intros b. cbn [sha256 crate].
  rewrite length_take, length_app, length_replicate. lia.
Qed.

End Sha256Sample.

(** ** A concrete instance of [HmacCrate]: not a MAC, only 32 bytes of key and message *)

Module HmacSample.

Definition crate : HmacCrate :=
  {| hmac_sha256 key msg := Some (take 32 (key ++ msg ++ replicate 32 x00)) |}.

Lemma hmac_laws : @HmacLaws crate.
Proof.
  split. intros key msg mac Hm. cbn [hmac_sha256 crate] in Hm. apply (inj Some) in Hm as <-.
  rewrite length_take, !length_app, length_replicate. lia.
Qed.

End HmacSample.
