(* ===== verification/Float64.v ===== *)
(** * IEEE-754 double precision arithmetic, as the sources use [f64]

    Binary64 on the executable specification of floating point shipped with Rocq
    ([SpecFloat]): round-to-nearest-even, signed zeros, infinities, one NaN. Only what the Rust
    code calls is defined: integer casts, [+ - * /], comparisons, [max]/[min], [abs], the
    saturating [as u64] cast and [Duration::as_secs_f64]. *)

From S2P Require Import Prelude.
From Stdlib Require Import Floats.SpecFloat.

Definition f64 : Type := spec_float.
Definition prec64 : Z := 53.
Definition emax64 : Z := 1024.

(** [n as f64] for an integer type. *)
Definition f64_of_Z (z : Z) : f64 := binary_normalize prec64 emax64 z 0 false.

Definition f64_add : f64 -> f64 -> f64 := SFadd prec64 emax64.
Definition f64_sub : f64 -> f64 -> f64 := SFsub prec64 emax64.
Definition f64_mul : f64 -> f64 -> f64 := SFmul prec64 emax64.
Definition f64_div : f64 -> f64 -> f64 := SFdiv prec64 emax64.
Definition f64_abs : f64 -> f64 := SFabs.

(** The literal [n / d] in decimal source form: the nearest double of a quotient of two exactly
    representable integers. *)
Definition f64_lit (n d : Z) : f64 := f64_div (f64_of_Z n) (f64_of_Z d).

(** [a > b], [a >= b], [a < b], [a <= b]: all false when an operand is NaN. *)
Definition f64_gt (a b : f64) : bool :=
  match SFcompare a b with Some Gt => true | _ => false end.
Definition f64_ge (a b : f64) : bool :=
  match SFcompare a b with Some Gt | Some Eq => true | _ => false end.
Definition f64_lt (a b : f64) : bool :=
  match SFcompare a b with Some Lt => true | _ => false end.
Definition f64_le (a b : f64) : bool :=
  match SFcompare a b with Some Lt | Some Eq => true | _ => false end.

Definition f64_is_nan (a : f64) : bool :=
  match a with S754_nan => true | _ => false end.

Definition f64_is_finite (a : f64) : bool :=
  match a with S754_zero _ | S754_finite _ _ _ => true | _ => false end.

(** [f64::max] and [f64::min]: a NaN operand is ignored. *)
Definition f64_max (a b : f64) : f64 :=
  if f64_is_nan a then b else if f64_is_nan b then a else if f64_lt a b then b else a.
Definition f64_min (a b : f64) : f64 :=
  if f64_is_nan a then b else if f64_is_nan b then a else if f64_gt a b then b else a.

(** [x as u64]: truncation toward zero, saturating, NaN to zero. *)
Definition f64_to_u64 (a : f64) : Z :=
  match a with
  | S754_zero _ | S754_nan => 0
  | S754_infinity s => if s then 0 else u64_max
  | S754_finite true _ _ => 0
  | S754_finite false m e => Z.min (Z.shiftl (Zpos m) e) u64_max
  end.

(** [Duration::as_secs_f64] of a duration in nanoseconds:
    [(secs as f64) + (nanos as f64) / (NANOS_PER_SEC as f64)]. *)
Definition as_secs_f64 (nanos : Z) : f64 :=
  f64_add (f64_of_Z (nanos / 1000000000))
    (f64_div (f64_of_Z (nanos mod 1000000000)) (f64_of_Z 1000000000)).

Definition f64_zero : f64 := S754_zero false.
Definition f64_one : f64 := f64_of_Z 1.

(** ** Facts used by the components *)

Lemma f64_to_u64_range a : 0 <= f64_to_u64 a <= u64_max.
Proof.
  assert (forall m e, 0 <= Z.shiftl (Zpos m) e) by (intros; apply Z.shiftl_nonneg; lia).
  unfold u64_max. destruct a as [s|s| |[|] m e]; cbn [f64_to_u64]; unfold u64_max; try lia.
  - destruct s; lia.
  - specialize (H m e). lia.
Qed.

(** A comparison with a NaN threshold never fires. *)
Lemma f64_gt_nan_r a : f64_gt a S754_nan = false.
Proof. by destruct a. Qed.

Lemma SFcompare_refl_ordered a : f64_is_nan a = false -> SFcompare a a = Some Eq.
Proof.
  destruct a as [s|s| |s m e]; try done; intros _; destruct s; try done;
    cbn [SFcompare]; rewrite Z.compare_refl; f_equal.
  - by rewrite Pos.compare_cont_refl.
  - by rewrite Pos.compare_cont_refl.
Qed.

(** Nothing is greater than itself. *)
Lemma f64_gt_irrefl a : f64_gt a a = false.
Proof.
  unfold f64_gt. destruct (f64_is_nan a) eqn:E; [by destruct a|].
  by rewrite SFcompare_refl_ordered.
Qed.

Lemma f64_gt_le a b : f64_gt a b = true -> f64_le a b = false.
Proof. unfold f64_gt, f64_le. destruct (SFcompare a b) as [[]|]; done. Qed.

(** [min] returns one of its arguments, and never one above the cap. *)
Lemma f64_min_cap a cap : f64_is_nan cap = false -> f64_gt (f64_min a cap) cap = false.
Proof.
  intros Hc. unfold f64_min. rewrite Hc. destruct (f64_is_nan a); [apply f64_gt_irrefl|].
  destruct (f64_gt a cap) eqn:E; [apply f64_gt_irrefl|done].
Qed.

Example f64_literal_0_999 : f64_lit 999 1000 = S754_finite false 8998192055486251 (-53).
Proof. reflexivity. Qed.

(** ** Integers below [2^53] are exact

    [f64_of_Z] of such an integer is its canonical representation; comparison agrees with that
    of the integers and subtracting loses nothing. *)

Lemma digits2_log2 p : Zpos (digits2_pos p) = Z.log2 (Zpos p) + 1.
Proof.
  induction p as [p IH|p IH|]; cbn [digits2_pos]; [| |done]; rewrite Pos2Z.inj_succ, IH.
  - rewrite Pos2Z.inj_xI, Z.log2_succ_double by lia. lia.
  - rewrite Pos2Z.inj_xO, Z.log2_double by lia. lia.
Qed.

Lemma iter_xO p n : Zpos (Pos.iter xO p n) = Zpos p * 2 ^ Zpos n.
Proof.
  induction n as [|n IH] using Pos.peano_ind; [cbn; lia|].
  rewrite Pos.iter_succ, Pos2Z.inj_xO, IH, Pos2Z.inj_succ, Z.pow_succ_r by lia. lia.
Qed.

Lemma iter_pos_comm {A} (f : A -> A) n : forall x, iter_pos f n (f x) = f (iter_pos f n x).
Proof.
  induction n as [n IH|n IH|]; intros x; cbn [iter_pos]; [| |done]; by rewrite !IH.
Qed.

Lemma iter_pos_succ {A} (f : A -> A) n : forall x, iter_pos f (Pos.succ n) x = f (iter_pos f n x).
Proof.
  induction n as [n IH|n IH|]; intros x; [| |done]; simpl.
  - by rewrite !IH, !iter_pos_comm.
  - by rewrite !iter_pos_comm.
Qed.

(** Shifting out zero bits is exact. *)
Lemma iter_shr_exact n q : 0 < q ->
  iter_pos shr_1 n (Build_shr_record (q * 2 ^ Zpos n) false false)
  = Build_shr_record q false false.
Proof.
  revert q. induction n as [|n IH] using Pos.peano_ind; intros q Hq.
  - cbn [iter_pos]. destruct q as [|p|]; try lia. rewrite Z.mul_comm. done.
  - rewrite iter_pos_succ, Pos2Z.inj_succ, Z.pow_succ_r, Z.mul_assoc by lia.
    rewrite IH by lia. destruct q as [|p|]; try lia. rewrite Z.mul_comm. done.
Qed.

(** The canonical representation of an integer in [(0, 2^53)]. *)
Definition f64_int (j : Z) : f64 :=
  S754_finite false (Z.to_pos (j * 2 ^ (52 - Z.log2 j))) (Z.log2 j - 52).

Lemma shr_fexp_exact m e q n :
  0 <= n -> 0 < q -> m = q * 2 ^ n -> fexp prec64 emax64 (Z.log2 m + 1 + e) - e = n ->
  shr_fexp prec64 emax64 m e loc_Exact = (Build_shr_record q false false, e + n).
Proof.
  intros Hn Hq Hm Hf. unfold shr_fexp.
  assert (0 < m) by (subst; lia). destruct m as [|p|]; try lia.
  cbn [Zdigits2 shr_record_of_loc]. rewrite digits2_log2, Hf, Hm.
  destruct n as [|n|]; try lia; cbn [shr].
  - f_equal; [|lia]. by rewrite Z.mul_1_r.
  - by rewrite iter_shr_exact.
Qed.

Lemma log2_mul_pow2 j i : 0 < j -> 0 <= i -> Z.log2 (j * 2 ^ i) = Z.log2 j + i.
Proof. intros. rewrite Z.log2_mul_pow2 by lia. lia. Qed.

Lemma round_aux_exact m e j n :
  0 < j < 2 ^ 53 -> 0 <= n -> m = j * 2 ^ (52 - Z.log2 j) * 2 ^ n -> e + n = Z.log2 j - 52 ->
  binary_round_aux prec64 emax64 false m e loc_Exact = f64_int j.
Proof.
  intros Hj Hn Hm He. pose proof (Z.log2_nonneg j).
  assert (Z.log2 j <= 52) as Hl by (apply (Z.log2_le_mono j (2 ^ 53 - 1)); lia).
  set (q := j * 2 ^ (52 - Z.log2 j)) in *. assert (0 < q) as Hq by (unfold q; lia).
  assert (Z.log2 q = 52) as Hlq by (unfold q; rewrite log2_mul_pow2 by lia; lia).
  unfold binary_round_aux. rewrite (shr_fexp_exact m e q n); try done.
  2:{ subst m. rewrite log2_mul_pow2, Hlq by lia. unfold fexp, emin, prec64, emax64. lia. }
  cbn [shr_m loc_of_shr_record round_nearest_even]. rewrite He.
  rewrite (shr_fexp_exact q (Z.log2 j - 52) q 0); [|done..|lia|].
  2:{ rewrite Hlq. unfold fexp, emin, prec64, emax64. lia. }
  cbn [shr_m]. unfold f64_int. fold q. rewrite Z.add_0_r.
  destruct q as [|p|] eqn:E; try lia.
  rewrite (proj2 (Z.leb_le _ _)) by (unfold emax64, prec64; lia). done.
Qed.

Lemma normalize_exact j i : 0 < j < 2 ^ 53 -> 0 <= i <= 52 ->
  binary_normalize prec64 emax64 (j * 2 ^ i) (- i) false = f64_int j.
Proof.
  intros Hj Hi. pose proof (Z.log2_nonneg j).
  assert (Z.log2 j <= 52) as Hl by (apply (Z.log2_le_mono j (2 ^ 53 - 1)); lia).
  unfold binary_normalize. destruct (j * 2 ^ i) as [|p|p] eqn:E; [lia| |lia].
  unfold binary_round, shl_align. rewrite digits2_log2, <-E, log2_mul_pow2 by lia.
  replace (fexp prec64 emax64 _) with (Z.log2 j - 52)
    by (unfold fexp, emin, prec64, emax64; lia).
  destruct (_ - - i) as [|d|d] eqn:D.
  - apply (round_aux_exact _ _ j 0); [lia..| |lia]. rewrite <-E, Z.mul_1_r. do 2 f_equal. lia.
  - apply (round_aux_exact _ _ j (Zpos d)); [lia..| |lia].
    rewrite <-E, <-Z.mul_assoc, <-Z.pow_add_r by lia. do 2 f_equal. lia.
  - apply (round_aux_exact _ _ j 0); [lia..| |lia].
    rewrite iter_xO, <-E, Z.mul_1_r, <-Z.mul_assoc, <-Z.pow_add_r by lia. do 2 f_equal. lia.
Qed.

Lemma f64_of_Z_exact j : 0 < j < 2 ^ 53 -> f64_of_Z j = f64_int j.
Proof. intros Hj. rewrite <-(normalize_exact j 0) by lia. by rewrite Z.mul_1_r. Qed.

Lemma log2_lt_53 j : 0 < j < 2 ^ 53 -> 0 <= Z.log2 j <= 52.
Proof.
  intros. split; [apply Z.log2_nonneg|]. apply (Z.log2_le_mono j (2 ^ 53 - 1)). lia.
Qed.

Lemma f64_compare_int a b : 0 <= a < 2 ^ 53 -> 0 <= b < 2 ^ 53 ->
  SFcompare (f64_of_Z a) (f64_of_Z b) = Some (a ?= b).
Proof.
  intros Ha Hb.
  destruct (decide (a = 0)) as [->|Na]; destruct (decide (b = 0)) as [->|Nb]; [done|..].
  - rewrite (f64_of_Z_exact b) by lia. cbn. destruct b; done || lia.
  - rewrite (f64_of_Z_exact a) by lia. cbn. destruct a; done || lia.
  - rewrite !f64_of_Z_exact by lia. pose proof (log2_lt_53 a ltac:(lia)).
    pose proof (log2_lt_53 b ltac:(lia)). cbn [SFcompare f64_int]. f_equal.
    destruct (Z.compare_spec (Z.log2 a - 52) (Z.log2 b - 52)) as [E|E|E].
    + assert (Z.log2 a = Z.log2 b) as -> by lia.
      change (Pos.compare_cont Eq ?x ?y) with (Pos.compare x y).
      assert (0 < 2 ^ (52 - Z.log2 b)) by lia.
      rewrite Pos2Z.inj_compare, !Z2Pos.id by nia. by rewrite <-Zmult_compare_compat_r by lia.
    + symmetry. apply Z.compare_lt_iff. apply Z.log2_lt_cancel. lia.
    + symmetry. apply Z.compare_gt_iff. apply Z.log2_lt_cancel. lia.
Qed.

(** Raising the mantissa of an integer to the exponent [-52]. *)
Lemma shl_align_int j : 0 < j < 2 ^ 53 ->
  Zpos (fst (shl_align (Z.to_pos (j * 2 ^ (52 - Z.log2 j))) (Z.log2 j - 52) (-52))) = j * 2 ^ 52.
Proof.
  intros Hj. pose proof (log2_lt_53 j Hj). unfold shl_align.
  assert (0 < j * 2 ^ (52 - Z.log2 j)) by (apply Z.mul_pos_pos; lia).
  destruct (-52 - (Z.log2 j - 52)) as [|d|d] eqn:E; [|lia|]; cbn [fst].
  - rewrite Z2Pos.id by lia. do 2 f_equal. lia.
  - rewrite iter_xO, Z2Pos.id, <-Z.mul_assoc, <-Z.pow_add_r by lia. do 2 f_equal. lia.
Qed.

Lemma f64_sub_one k : 1 <= k < 2 ^ 53 -> f64_sub (f64_of_Z k) f64_one = f64_of_Z (k - 1).
Proof.
  intros Hk. unfold f64_one. pose proof (log2_lt_53 k ltac:(lia)).
  rewrite (f64_of_Z_exact k), (f64_of_Z_exact 1) by lia. unfold f64_sub.
  pose proof (shl_align_int k ltac:(lia)) as Hs. pose proof (shl_align_int 1 ltac:(lia)) as H1.
  unfold f64_int, SFsub. change (Z.log2 1) with 0 in *.
  replace (Z.min (Z.log2 k - 52) (0 - 52)) with (-52) by lia.
  cbn [cond_Zopp]. rewrite Hs, H1, <-Z.mul_sub_distr_r.
  destruct (decide (k = 1)) as [->|]; [done|].
  rewrite (f64_of_Z_exact (k - 1)) by lia. change (-52) with (- (52)).
  apply normalize_exact; lia.
Qed.

Lemma f64_of_Z_finite k : 0 <= k < 2 ^ 53 -> f64_is_finite (f64_of_Z k) = true.
Proof. intros. destruct (decide (k = 0)) as [->|]; [done|]. by rewrite f64_of_Z_exact by lia. Qed.
