(* ===== verification/Protocol.v ===== *)
(** * rg-protocol: the wire types shared by every service

    Models [services/rg-protocol/src/lib.rs] (template proposals, verdicts and the canonical
    reason codes) and [services/rg-protocol/src/gateway.rs] (deployment modes, BIP 320 masks,
    consensus constants, validation levels). *)

From S2P Require Import Prelude.

Definition PROTOCOL_VERSION : Z := 2.

(** ** Canonical reason codes *)

Inductive VerdictReason : Type :=
| ProtocolVersionMismatch
| InvalidPrevHash
| PrevHashLenMismatch
| CoinbaseValueZeroRejected
| EmptyTemplateRejected
| TxCountExceeded
| TotalFeesBelowMinimum
| AvgFeeBelowMinimum
| PolicyLoadError
| MempoolBackendUnavailable
| InternalError
| WeightRatioExceeded
| TemplateStale
| SigopsBudgetWarning
| CoinbaseSigopsAbnormal
| V2InvariantCoinbaseValueMismatch
| V2InvariantTemplateWeightMismatch
| V2InvariantMerkleRootMismatch
| V2InvariantWitnessCommitmentMissing
| V2InvariantWitnessCommitmentMismatch
| V2InvariantSigopsMismatch
| V2InvariantCoinbaseSigopsMismatch
| V2InvariantTxCountMismatch
| V2InvariantCoinbaseScriptLength
| V2InvariantCoinbaseOutputCount
| V2InvariantCoinbaseBip34Missing
| V2InvariantCoinbaseHeightMismatch
| V2InvariantWeightExceedsMax
| V2InvariantSigopsExceedMax
| V2InvariantCoinbaseValueExceedsMax
| V2InvariantNontcbNullPrevout
| V2InvariantCoinbasePrevoutNotNull
| V2InvariantHeaderVersionLow
| V2InvariantDuplicateTx
| V2InvariantDecodeFailed
| V2InvariantMempoolTxUnknown
| V2InvariantMempoolToleranceExceeded
| V2InvariantMempoolUnavailable
| V2InvariantMempoolViewStale.

(** [VerdictReason::ALL]. *)
Definition VerdictReason_ALL : list VerdictReason :=
  [ ProtocolVersionMismatch;
    InvalidPrevHash;
    PrevHashLenMismatch;
    CoinbaseValueZeroRejected;
    EmptyTemplateRejected;
    TxCountExceeded;
    TotalFeesBelowMinimum;
    AvgFeeBelowMinimum;
    PolicyLoadError;
    MempoolBackendUnavailable;
    InternalError;
    WeightRatioExceeded;
    TemplateStale;
    SigopsBudgetWarning;
    CoinbaseSigopsAbnormal;
    V2InvariantCoinbaseValueMismatch;
    V2InvariantTemplateWeightMismatch;
    V2InvariantMerkleRootMismatch;
    V2InvariantWitnessCommitmentMissing;
    V2InvariantWitnessCommitmentMismatch;
    V2InvariantSigopsMismatch;
    V2InvariantCoinbaseSigopsMismatch;
    V2InvariantTxCountMismatch;
    V2InvariantCoinbaseScriptLength;
    V2InvariantCoinbaseOutputCount;
    V2InvariantCoinbaseBip34Missing;
    V2InvariantCoinbaseHeightMismatch;
    V2InvariantWeightExceedsMax;
    V2InvariantSigopsExceedMax;
    V2InvariantCoinbaseValueExceedsMax;
    V2InvariantNontcbNullPrevout;
    V2InvariantCoinbasePrevoutNotNull;
    V2InvariantHeaderVersionLow;
    V2InvariantDuplicateTx;
    V2InvariantDecodeFailed;
    V2InvariantMempoolTxUnknown;
    V2InvariantMempoolToleranceExceeded;
    V2InvariantMempoolUnavailable;
    V2InvariantMempoolViewStale ].

(** [VerdictReason::ALL_CODES]. *)
Definition VerdictReason_ALL_CODES : list string :=
  [ "protocol_version_mismatch";
    "invalid_prev_hash";
    "prev_hash_len_mismatch";
    "coinbase_value_zero_rejected";
    "empty_template_rejected";
    "tx_count_exceeded";
    "total_fees_below_minimum";
    "avg_fee_below_minimum";
    "policy_load_error";
    "mempool_backend_unavailable";
    "internal_error";
    "weight_ratio_exceeded";
    "template_stale";
    "sigops_budget_warning";
    "coinbase_sigops_abnormal";
    "v2_invariant_coinbase_value_mismatch";
    "v2_invariant_template_weight_mismatch";
    "v2_invariant_merkle_root_mismatch";
    "v2_invariant_witness_commitment_missing";
    "v2_invariant_witness_commitment_mismatch";
    "v2_invariant_sigops_mismatch";
    "v2_invariant_coinbase_sigops_mismatch";
    "v2_invariant_tx_count_mismatch";
    "v2_invariant_coinbase_script_length";
    "v2_invariant_coinbase_output_count";
    "v2_invariant_coinbase_bip34_missing";
    "v2_invariant_coinbase_height_mismatch";
    "v2_invariant_weight_exceeds_max";
    "v2_invariant_sigops_exceed_max";
    "v2_invariant_coinbase_value_exceeds_max";
    "v2_invariant_nontcb_null_prevout";
    "v2_invariant_coinbase_prevout_not_null";
    "v2_invariant_header_version_low";
    "v2_invariant_duplicate_tx";
    "v2_invariant_decode_failed";
    "v2_invariant_mempool_tx_unknown";
    "v2_invariant_mempool_tolerance_exceeded";
    "v2_invariant_mempool_unavailable";
    "v2_invariant_mempool_view_stale" ]%string.

(** [VerdictReason::as_str]. *)
Definition VerdictReason_as_str (r : VerdictReason) : string :=
  match r with
  | ProtocolVersionMismatch => "protocol_version_mismatch"
  | InvalidPrevHash => "invalid_prev_hash"
  | PrevHashLenMismatch => "prev_hash_len_mismatch"
  | CoinbaseValueZeroRejected => "coinbase_value_zero_rejected"
  | EmptyTemplateRejected => "empty_template_rejected"
  | TxCountExceeded => "tx_count_exceeded"
  | TotalFeesBelowMinimum => "total_fees_below_minimum"
  | AvgFeeBelowMinimum => "avg_fee_below_minimum"
  | PolicyLoadError => "policy_load_error"
  | MempoolBackendUnavailable => "mempool_backend_unavailable"
  | InternalError => "internal_error"
  | WeightRatioExceeded => "weight_ratio_exceeded"
  | TemplateStale => "template_stale"
  | SigopsBudgetWarning => "sigops_budget_warning"
  | CoinbaseSigopsAbnormal => "coinbase_sigops_abnormal"
  | V2InvariantCoinbaseValueMismatch => "v2_invariant_coinbase_value_mismatch"
  | V2InvariantTemplateWeightMismatch => "v2_invariant_template_weight_mismatch"
  | V2InvariantMerkleRootMismatch => "v2_invariant_merkle_root_mismatch"
  | V2InvariantWitnessCommitmentMissing => "v2_invariant_witness_commitment_missing"
  | V2InvariantWitnessCommitmentMismatch => "v2_invariant_witness_commitment_mismatch"
  | V2InvariantSigopsMismatch => "v2_invariant_sigops_mismatch"
  | V2InvariantCoinbaseSigopsMismatch => "v2_invariant_coinbase_sigops_mismatch"
  | V2InvariantTxCountMismatch => "v2_invariant_tx_count_mismatch"
  | V2InvariantCoinbaseScriptLength => "v2_invariant_coinbase_script_length"
  | V2InvariantCoinbaseOutputCount => "v2_invariant_coinbase_output_count"
  | V2InvariantCoinbaseBip34Missing => "v2_invariant_coinbase_bip34_missing"
  | V2InvariantCoinbaseHeightMismatch => "v2_invariant_coinbase_height_mismatch"
  | V2InvariantWeightExceedsMax => "v2_invariant_weight_exceeds_max"
  | V2InvariantSigopsExceedMax => "v2_invariant_sigops_exceed_max"
  | V2InvariantCoinbaseValueExceedsMax => "v2_invariant_coinbase_value_exceeds_max"
  | V2InvariantNontcbNullPrevout => "v2_invariant_nontcb_null_prevout"
  | V2InvariantCoinbasePrevoutNotNull => "v2_invariant_coinbase_prevout_not_null"
  | V2InvariantHeaderVersionLow => "v2_invariant_header_version_low"
  | V2InvariantDuplicateTx => "v2_invariant_duplicate_tx"
  | V2InvariantDecodeFailed => "v2_invariant_decode_failed"
  | V2InvariantMempoolTxUnknown => "v2_invariant_mempool_tx_unknown"
  | V2InvariantMempoolToleranceExceeded => "v2_invariant_mempool_tolerance_exceeded"
  | V2InvariantMempoolUnavailable => "v2_invariant_mempool_unavailable"
  | V2InvariantMempoolViewStale => "v2_invariant_mempool_view_stale"
  end%string.

(** The serde name of each variant: the explicit [#[serde(rename = ...)]] where there is one,
    the [rename_all = "snake_case"] spelling of the variant otherwise. *)
Definition VerdictReason_serde_name (r : VerdictReason) : string :=
  match r with
  | ProtocolVersionMismatch => "protocol_version_mismatch"
  | InvalidPrevHash => "invalid_prev_hash"
  | PrevHashLenMismatch => "prev_hash_len_mismatch"
  | CoinbaseValueZeroRejected => "coinbase_value_zero_rejected"
  | EmptyTemplateRejected => "empty_template_rejected"
  | TxCountExceeded => "tx_count_exceeded"
  | TotalFeesBelowMinimum => "total_fees_below_minimum"
  | AvgFeeBelowMinimum => "avg_fee_below_minimum"
  | PolicyLoadError => "policy_load_error"
  | MempoolBackendUnavailable => "mempool_backend_unavailable"
  | InternalError => "internal_error"
  | WeightRatioExceeded => "weight_ratio_exceeded"
  | TemplateStale => "template_stale"
  | SigopsBudgetWarning => "sigops_budget_warning"
  | CoinbaseSigopsAbnormal => "coinbase_sigops_abnormal"
  | V2InvariantCoinbaseValueMismatch => "v2_invariant_coinbase_value_mismatch"
  | V2InvariantTemplateWeightMismatch => "v2_invariant_template_weight_mismatch"
  | V2InvariantMerkleRootMismatch => "v2_invariant_merkle_root_mismatch"
  | V2InvariantWitnessCommitmentMissing => "v2_invariant_witness_commitment_missing"
  | V2InvariantWitnessCommitmentMismatch => "v2_invariant_witness_commitment_mismatch"
  | V2InvariantSigopsMismatch => "v2_invariant_sigops_mismatch"
  | V2InvariantCoinbaseSigopsMismatch => "v2_invariant_coinbase_sigops_mismatch"
  | V2InvariantTxCountMismatch => "v2_invariant_tx_count_mismatch"
  | V2InvariantCoinbaseScriptLength => "v2_invariant_coinbase_script_length"
  | V2InvariantCoinbaseOutputCount => "v2_invariant_coinbase_output_count"
  | V2InvariantCoinbaseBip34Missing => "v2_invariant_coinbase_bip34_missing"
  | V2InvariantCoinbaseHeightMismatch => "v2_invariant_coinbase_height_mismatch"
  | V2InvariantWeightExceedsMax => "v2_invariant_weight_exceeds_max"
  | V2InvariantSigopsExceedMax => "v2_invariant_sigops_exceed_max"
  | V2InvariantCoinbaseValueExceedsMax => "v2_invariant_coinbase_value_exceeds_max"
  | V2InvariantNontcbNullPrevout => "v2_invariant_nontcb_null_prevout"
  | V2InvariantCoinbasePrevoutNotNull => "v2_invariant_coinbase_prevout_not_null"
  | V2InvariantHeaderVersionLow => "v2_invariant_header_version_low"
  | V2InvariantDuplicateTx => "v2_invariant_duplicate_tx"
  | V2InvariantDecodeFailed => "v2_invariant_decode_failed"
  | V2InvariantMempoolTxUnknown => "v2_invariant_mempool_tx_unknown"
  | V2InvariantMempoolToleranceExceeded => "v2_invariant_mempool_tolerance_exceeded"
  | V2InvariantMempoolUnavailable => "v2_invariant_mempool_unavailable"
  | V2InvariantMempoolViewStale => "v2_invariant_mempool_view_stale"
  end%string.

(** ** Template proposals and verdicts *)

Module TemplatePropose.
Record t : Type := mk {
  version : Z;
  id : Z;
  block_height : Z;
  prev_hash : string;
  coinbase_value : Z;
  tx_count : Z;
  total_fees : Z;
  observed_weight : option Z;
  created_at_unix_ms : option Z;
  total_sigops : option Z;
  coinbase_sigops : option Z;
  template_weight : option Z;
  gateway_instance_id : option string;
  raw_block_hex : option string
}.

(** The ranges of the integer fields. *)
Definition wf (t : t) : Prop :=
  in_u 16 (version t) /\ in_u 64 (id t) /\ in_u 32 (block_height t) /\
  in_u 64 (coinbase_value t) /\ in_u 32 (tx_count t) /\ in_u 64 (total_fees t) /\
  (forall w, observed_weight t = Some w -> in_u 64 w) /\
  (forall w, created_at_unix_ms t = Some w -> in_u 64 w) /\
  (forall w, total_sigops t = Some w -> in_u 32 w) /\
  (forall w, coinbase_sigops t = Some w -> in_u 32 w) /\
  (forall w, template_weight t = Some w -> in_u 64 w).
End TemplatePropose.

(** ** Gateway types (gateway.rs) *)

Inductive GatewayMode : Type := Inline | Observe | Shadow.

Definition GatewayMode_as_str (m : GatewayMode) : string :=
  match m with Inline => "inline" | Observe => "observe" | Shadow => "shadow" end%string.

Definition accepts_miners (m : GatewayMode) : bool :=
  match m with Inline | Observe => true | Shadow => false end.

Definition enforces_verdicts (m : GatewayMode) : bool :=
  match m with Inline => true | Observe | Shadow => false end.

Definition detects_replay (m : GatewayMode) : bool :=
  match m with Inline => true | Observe | Shadow => false end.

(** BIP 320 masks; [!m] on a [u32] is the complement within 32 bits. *)
Definition BIP320_GP_MASK : Z := 0x1fffe000.
Definition BIP320_SIGNALING_MASK : Z := Z.lxor (Z.ones 32) BIP320_GP_MASK.

Definition MAX_FUTURE_BLOCK_TIME_SECONDS : Z := 7200.

(** [DIFF1_TARGET_BE], 32 bytes, most significant first. *)
Definition DIFF1_TARGET_BE : bytes :=
  [x00; x00; x00; x00; xff; xff; x00; x00; x00; x00; x00; x00; x00; x00; x00; x00;
   x00; x00; x00; x00; x00; x00; x00; x00; x00; x00; x00; x00; x00; x00; x00; x00].

Definition MAX_INTERNAL_LINE_BYTES : Z := 20 * 1024 * 1024.

Inductive ValidationLevel : Type := Full | Sv2.

Definition ValidationLevel_as_str (l : ValidationLevel) : string :=
  match l with Full => "full" | Sv2 => "sv2" end%string.

(** ** The reason-code contract *)

Lemma VerdictReason_ALL_complete : forall r, r ∈ VerdictReason_ALL.
Proof. solve_enum. Qed.

(** The spelling is injective: a code determines its reason. *)
#[global] Instance VerdictReason_as_str_inj : Inj (=) (=) VerdictReason_as_str.
Proof.
  apply (enum_inj VerdictReason_ALL); [apply VerdictReason_ALL_complete|].
  apply (bool_decide_unpack _). by vm_compute.
Qed.

#[global] Instance VerdictReason_eq_dec : EqDecision VerdictReason :=
  inj_eq_dec VerdictReason_as_str VerdictReason_as_str_inj.
