(* ===== verification/Reason.v ===== *)
(** * Unified reason codes

    Models [services/reservegrid-common/src/reason.rs]: the gateway's operational reasons, the
    unified [ReasonCode], the conversions into it and the mapping to SV2 error codes. A call the
    source answers with [unreachable!] is [None] here. *)

From S2P Require Import Prelude Protocol.

Module GatewayReason.
Inductive t : Type :=
| AuthFailed
| UnsupportedAlgorithm
| RateLimited
| PayloadTooLarge
| InvalidContentType
| PayloadUnknownField
| PayloadFieldOutOfRange
| PayloadMalformed
| PayloadNestingExceeded
| RequestExpired
| RequestReplayed
| HandlerTimeout
| ConfigInvalid
| InternalError
| InternalLineTooLarge
| InternalFramingError
| InternalVersionMismatch
| InternalUnknownMsgFlood
| NoiseHandshakeFailed
| NoiseHandshakeTimeout
| UnsupportedProtocolVersion
| FrameDecodeError
| FrameTooLarge
| ConnectionRateLimited
| PeerQuotaExceeded
| MinerUnauthorized
| IdentityPrefixUnmatched
| IdentityTooLong
| ChannelOpenRejected
| ChannelLimitExceeded
| InvalidChannelId
| ExtendedChannelUnsupported
| PrevhashSwitchTimeout
| PrevhashVerdictRejected
| TemplateCacheMiss
| StaleJobSubmission
| UpstreamUnavailable
| MissingGatewaySignature
| MalformedGatewaySignature
| MalformedEventId
| InvalidGatewaySignature
| ShareReplayDetected
| ShareDifficultyBelowTarget
| ShareInvalidJobId
| ShareInvalidNonce
| VersionBitViolation
| NtimeOutOfRange
| ShareForwardFailed
| ShareUpstreamRejected
| ShareDroppedQueueFull
| ShareEvictedFromQueue
| ShareRateLimited
| ProcessCrashRecovery
| WalWriteFailure
| PeerTransportError
| ChannelOpenTimeout
| SetupConnectionRejected
| ShutdownDrain
| StartupPending.

(** [ALL]. *)
Definition ALL : list t :=
  [
    AuthFailed; UnsupportedAlgorithm; RateLimited; PayloadTooLarge; InvalidContentType;
    PayloadUnknownField; PayloadFieldOutOfRange; PayloadMalformed; PayloadNestingExceeded;
    RequestExpired; RequestReplayed; HandlerTimeout; ConfigInvalid; InternalError;
    InternalLineTooLarge; InternalFramingError; InternalVersionMismatch; InternalUnknownMsgFlood;
    NoiseHandshakeFailed; NoiseHandshakeTimeout; UnsupportedProtocolVersion; FrameDecodeError;
    FrameTooLarge; ConnectionRateLimited; PeerQuotaExceeded; MinerUnauthorized;
    IdentityPrefixUnmatched; IdentityTooLong; ChannelOpenRejected; ChannelLimitExceeded;
    InvalidChannelId; ExtendedChannelUnsupported; PrevhashSwitchTimeout; PrevhashVerdictRejected;
    TemplateCacheMiss; StaleJobSubmission; UpstreamUnavailable; MissingGatewaySignature;
    MalformedGatewaySignature; MalformedEventId; InvalidGatewaySignature; ShareReplayDetected;
    ShareDifficultyBelowTarget; ShareInvalidJobId; ShareInvalidNonce; VersionBitViolation;
    NtimeOutOfRange; ShareForwardFailed; ShareUpstreamRejected; ShareDroppedQueueFull;
    ShareEvictedFromQueue; ShareRateLimited; ProcessCrashRecovery; WalWriteFailure;
    PeerTransportError; ChannelOpenTimeout; SetupConnectionRejected; ShutdownDrain; StartupPending ].

(** [ALL_CODES]. *)
Definition ALL_CODES : list string :=
  [
    "auth_failed"; "unsupported_algorithm"; "rate_limited"; "payload_too_large";
    "invalid_content_type"; "payload_unknown_field"; "payload_field_out_of_range";
    "payload_malformed"; "payload_nesting_exceeded"; "request_expired"; "request_replayed";
    "handler_timeout"; "config_invalid"; "internal_error"; "internal_line_too_large";
    "internal_framing_error"; "internal_version_mismatch"; "internal_unknown_msg_flood";
    "noise_handshake_failed"; "noise_handshake_timeout"; "unsupported_protocol_version";
    "frame_decode_error"; "frame_too_large"; "connection_rate_limited"; "peer_quota_exceeded";
    "miner_unauthorized"; "identity_prefix_unmatched"; "identity_too_long";
    "channel_open_rejected"; "channel_limit_exceeded"; "invalid_channel_id";
    "extended_channel_unsupported"; "prevhash_switch_timeout"; "prevhash_verdict_rejected";
    "template_cache_miss"; "stale_job_submission"; "upstream_unavailable";
    "missing_gateway_signature"; "malformed_gateway_signature"; "malformed_event_id";
    "invalid_gateway_signature"; "share_replay_detected"; "share_difficulty_below_target";
    "share_invalid_job_id"; "share_invalid_nonce"; "version_bit_violation"; "ntime_out_of_range";
    "share_forward_failed"; "share_upstream_rejected"; "share_dropped_queue_full";
    "share_evicted_from_queue"; "share_rate_limited"; "process_crash_recovery";
    "wal_write_failure"; "peer_transport_error"; "channel_open_timeout";
    "setup_connection_rejected"; "shutdown_drain"; "startup_pending" ]%string.

Definition as_str (r : t) : string :=
  match r with
  | AuthFailed => "auth_failed"
  | UnsupportedAlgorithm => "unsupported_algorithm"
  | RateLimited => "rate_limited"
  | PayloadTooLarge => "payload_too_large"
  | InvalidContentType => "invalid_content_type"
  | PayloadUnknownField => "payload_unknown_field"
  | PayloadFieldOutOfRange => "payload_field_out_of_range"
  | PayloadMalformed => "payload_malformed"
  | PayloadNestingExceeded => "payload_nesting_exceeded"
  | RequestExpired => "request_expired"
  | RequestReplayed => "request_replayed"
  | HandlerTimeout => "handler_timeout"
  | ConfigInvalid => "config_invalid"
  | InternalError => "internal_error"
  | InternalLineTooLarge => "internal_line_too_large"
  | InternalFramingError => "internal_framing_error"
  | InternalVersionMismatch => "internal_version_mismatch"
  | InternalUnknownMsgFlood => "internal_unknown_msg_flood"
  | NoiseHandshakeFailed => "noise_handshake_failed"
  | NoiseHandshakeTimeout => "noise_handshake_timeout"
  | UnsupportedProtocolVersion => "unsupported_protocol_version"
  | FrameDecodeError => "frame_decode_error"
  | FrameTooLarge => "frame_too_large"
  | ConnectionRateLimited => "connection_rate_limited"
  | PeerQuotaExceeded => "peer_quota_exceeded"
  | MinerUnauthorized => "miner_unauthorized"
  | IdentityPrefixUnmatched => "identity_prefix_unmatched"
  | IdentityTooLong => "identity_too_long"
  | ChannelOpenRejected => "channel_open_rejected"
  | ChannelLimitExceeded => "channel_limit_exceeded"
  | InvalidChannelId => "invalid_channel_id"
  | ExtendedChannelUnsupported => "extended_channel_unsupported"
  | PrevhashSwitchTimeout => "prevhash_switch_timeout"
  | PrevhashVerdictRejected => "prevhash_verdict_rejected"
  | TemplateCacheMiss => "template_cache_miss"
  | StaleJobSubmission => "stale_job_submission"
  | UpstreamUnavailable => "upstream_unavailable"
  | MissingGatewaySignature => "missing_gateway_signature"
  | MalformedGatewaySignature => "malformed_gateway_signature"
  | MalformedEventId => "malformed_event_id"
  | InvalidGatewaySignature => "invalid_gateway_signature"
  | ShareReplayDetected => "share_replay_detected"
  | ShareDifficultyBelowTarget => "share_difficulty_below_target"
  | ShareInvalidJobId => "share_invalid_job_id"
  | ShareInvalidNonce => "share_invalid_nonce"
  | VersionBitViolation => "version_bit_violation"
  | NtimeOutOfRange => "ntime_out_of_range"
  | ShareForwardFailed => "share_forward_failed"
  | ShareUpstreamRejected => "share_upstream_rejected"
  | ShareDroppedQueueFull => "share_dropped_queue_full"
  | ShareEvictedFromQueue => "share_evicted_from_queue"
  | ShareRateLimited => "share_rate_limited"
  | ProcessCrashRecovery => "process_crash_recovery"
  | WalWriteFailure => "wal_write_failure"
  | PeerTransportError => "peer_transport_error"
  | ChannelOpenTimeout => "channel_open_timeout"
  | SetupConnectionRejected => "setup_connection_rejected"
  | ShutdownDrain => "shutdown_drain"
  | StartupPending => "startup_pending"
  end%string.

Definition SV2_SHARE_ERROR_CODES : list string :=
  [ "stale-share"; "difficulty-too-low"; "invalid-job-id"; "invalid-channel-id" ]%string.

(** [to_sv2_error_code]; [None] is a panic. *)
Definition to_sv2_error_code (r : t) : option string :=
  match r with
  | InvalidChannelId => Some "invalid-channel-id"
  | ShareInvalidJobId => Some "invalid-job-id"
  | ShareDifficultyBelowTarget => Some "difficulty-too-low"
  | StaleJobSubmission | ShareReplayDetected | ShareInvalidNonce | VersionBitViolation
  | NtimeOutOfRange | ShareDroppedQueueFull | ShareRateLimited => Some "stale-share"
  | _ => None
  end%string.

Definition SV2_OPEN_CHANNEL_ERROR_CODES : list string :=
  [ "unknown-user"; "max-target-out-of-range" ]%string.

(** [None]: close the connection without an error message. *)
Definition open_channel_wire_action (r : t) : option string :=
  match r with
  | MinerUnauthorized | IdentityPrefixUnmatched | IdentityTooLong => Some "unknown-user"
  | _ => None
  end%string.
End GatewayReason.

Module ReasonCode.
Inductive t : Type :=
| ProtocolVersionMismatch
| InvalidPrevHash
| PrevHashLenMismatch
| CoinbaseValueZeroRejected
| EmptyTemplateRejected
| TxCountExceeded
| TotalFeesBelowMinimum
| AvgFeeBelowMinimum
| PolicyLoadError
| MempoolBackendUnavailable
| WeightRatioExceeded
| TemplateStale
| SigopsBudgetWarning
| CoinbaseSigopsAbnormal
| V2InvariantCoinbaseValueMismatch
| V2InvariantTemplateWeightMismatch
| V2InvariantMerkleRootMismatch
| V2InvariantWitnessCommitmentMissing
| V2InvariantWitnessCommitmentMismatch
| V2InvariantSigopsMismatch
| V2InvariantCoinbaseSigopsMismatch
| V2InvariantTxCountMismatch
| V2InvariantCoinbaseScriptLength
| V2InvariantCoinbaseOutputCount
| V2InvariantCoinbaseBip34Missing
| V2InvariantCoinbaseHeightMismatch
| V2InvariantWeightExceedsMax
| V2InvariantSigopsExceedMax
| V2InvariantCoinbaseValueExceedsMax
| V2InvariantNontcbNullPrevout
| V2InvariantCoinbasePrevoutNotNull
| V2InvariantHeaderVersionLow
| V2InvariantDuplicateTx
| V2InvariantDecodeFailed
| V2InvariantMempoolTxUnknown
| V2InvariantMempoolToleranceExceeded
| V2InvariantMempoolUnavailable
| V2InvariantMempoolViewStale
| AuthFailed
| UnsupportedAlgorithm
| RateLimited
| PayloadTooLarge
| InvalidContentType
| PayloadUnknownField
| PayloadFieldOutOfRange
| PayloadMalformed
| PayloadNestingExceeded
| RequestExpired
| RequestReplayed
| HandlerTimeout
| ConfigInvalid
| InternalLineTooLarge
| InternalFramingError
| InternalVersionMismatch
| InternalUnknownMsgFlood
| NoiseHandshakeFailed
| NoiseHandshakeTimeout
| UnsupportedProtocolVersion
| FrameDecodeError
| FrameTooLarge
| ConnectionRateLimited
| PeerQuotaExceeded
| MinerUnauthorized
| IdentityPrefixUnmatched
| IdentityTooLong
| ChannelOpenRejected
| ChannelLimitExceeded
| InvalidChannelId
| ExtendedChannelUnsupported
| PrevhashSwitchTimeout
| PrevhashVerdictRejected
| TemplateCacheMiss
| StaleJobSubmission
| UpstreamUnavailable
| MissingGatewaySignature
| MalformedGatewaySignature
| MalformedEventId
| InvalidGatewaySignature
| ShareReplayDetected
| ShareDifficultyBelowTarget
| ShareInvalidJobId
| ShareInvalidNonce
| VersionBitViolation
| NtimeOutOfRange
| ShareForwardFailed
| ShareUpstreamRejected
| ShareDroppedQueueFull
| ShareEvictedFromQueue
| ShareRateLimited
| ProcessCrashRecovery
| WalWriteFailure
| PeerTransportError
| ChannelOpenTimeout
| SetupConnectionRejected
| ShutdownDrain
| StartupPending
| InternalError.

(** [ALL]. *)
Definition ALL : list t :=
  [
    ProtocolVersionMismatch; InvalidPrevHash; PrevHashLenMismatch; CoinbaseValueZeroRejected;
    EmptyTemplateRejected; TxCountExceeded; TotalFeesBelowMinimum; AvgFeeBelowMinimum;
    PolicyLoadError; MempoolBackendUnavailable; WeightRatioExceeded; TemplateStale;
    SigopsBudgetWarning; CoinbaseSigopsAbnormal; V2InvariantCoinbaseValueMismatch;
    V2InvariantTemplateWeightMismatch; V2InvariantMerkleRootMismatch;
    V2InvariantWitnessCommitmentMissing; V2InvariantWitnessCommitmentMismatch;
    V2InvariantSigopsMismatch; V2InvariantCoinbaseSigopsMismatch; V2InvariantTxCountMismatch;
    V2InvariantCoinbaseScriptLength; V2InvariantCoinbaseOutputCount;
    V2InvariantCoinbaseBip34Missing; V2InvariantCoinbaseHeightMismatch;
    V2InvariantWeightExceedsMax; V2InvariantSigopsExceedMax; V2InvariantCoinbaseValueExceedsMax;
    V2InvariantNontcbNullPrevout; V2InvariantCoinbasePrevoutNotNull; V2InvariantHeaderVersionLow;
    V2InvariantDuplicateTx; V2InvariantDecodeFailed; V2InvariantMempoolTxUnknown;
    V2InvariantMempoolToleranceExceeded; V2InvariantMempoolUnavailable;
    V2InvariantMempoolViewStale; AuthFailed; UnsupportedAlgorithm; RateLimited; PayloadTooLarge;
    InvalidContentType; PayloadUnknownField; PayloadFieldOutOfRange; PayloadMalformed;
    PayloadNestingExceeded; RequestExpired; RequestReplayed; HandlerTimeout; ConfigInvalid;
    InternalLineTooLarge; InternalFramingError; InternalVersionMismatch; InternalUnknownMsgFlood;
    NoiseHandshakeFailed; NoiseHandshakeTimeout; UnsupportedProtocolVersion; FrameDecodeError;
    FrameTooLarge; ConnectionRateLimited; PeerQuotaExceeded; MinerUnauthorized;
    IdentityPrefixUnmatched; IdentityTooLong; ChannelOpenRejected; ChannelLimitExceeded;
    InvalidChannelId; ExtendedChannelUnsupported; PrevhashSwitchTimeout; PrevhashVerdictRejected;
    TemplateCacheMiss; StaleJobSubmission; UpstreamUnavailable; MissingGatewaySignature;
    MalformedGatewaySignature; MalformedEventId; InvalidGatewaySignature; ShareReplayDetected;
    ShareDifficultyBelowTarget; ShareInvalidJobId; ShareInvalidNonce; VersionBitViolation;
    NtimeOutOfRange; ShareForwardFailed; ShareUpstreamRejected; ShareDroppedQueueFull;
    ShareEvictedFromQueue; ShareRateLimited; ProcessCrashRecovery; WalWriteFailure;
    PeerTransportError; ChannelOpenTimeout; SetupConnectionRejected; ShutdownDrain;
    StartupPending; InternalError ].

(** [ALL_CODES]. *)
Definition ALL_CODES : list string :=
  [
    "protocol_version_mismatch"; "invalid_prev_hash"; "prev_hash_len_mismatch";
    "coinbase_value_zero_rejected"; "empty_template_rejected"; "tx_count_exceeded";
    "total_fees_below_minimum"; "avg_fee_below_minimum"; "policy_load_error";
    "mempool_backend_unavailable"; "weight_ratio_exceeded"; "template_stale";
    "sigops_budget_warning"; "coinbase_sigops_abnormal"; "v2_invariant_coinbase_value_mismatch";
    "v2_invariant_template_weight_mismatch"; "v2_invariant_merkle_root_mismatch";
    "v2_invariant_witness_commitment_missing"; "v2_invariant_witness_commitment_mismatch";
    "v2_invariant_sigops_mismatch"; "v2_invariant_coinbase_sigops_mismatch";
    "v2_invariant_tx_count_mismatch"; "v2_invariant_coinbase_script_length";
    "v2_invariant_coinbase_output_count"; "v2_invariant_coinbase_bip34_missing";
    "v2_invariant_coinbase_height_mismatch"; "v2_invariant_weight_exceeds_max";
    "v2_invariant_sigops_exceed_max"; "v2_invariant_coinbase_value_exceeds_max";
    "v2_invariant_nontcb_null_prevout"; "v2_invariant_coinbase_prevout_not_null";
    "v2_invariant_header_version_low"; "v2_invariant_duplicate_tx"; "v2_invariant_decode_failed";
    "v2_invariant_mempool_tx_unknown"; "v2_invariant_mempool_tolerance_exceeded";
    "v2_invariant_mempool_unavailable"; "v2_invariant_mempool_view_stale"; "auth_failed";
    "unsupported_algorithm"; "rate_limited"; "payload_too_large"; "invalid_content_type";
    "payload_unknown_field"; "payload_field_out_of_range"; "payload_malformed";
    "payload_nesting_exceeded"; "request_expired"; "request_replayed"; "handler_timeout";
    "config_invalid"; "internal_line_too_large"; "internal_framing_error";
    "internal_version_mismatch"; "internal_unknown_msg_flood"; "noise_handshake_failed";
    "noise_handshake_timeout"; "unsupported_protocol_version"; "frame_decode_error";
    "frame_too_large"; "connection_rate_limited"; "peer_quota_exceeded"; "miner_unauthorized";
    "identity_prefix_unmatched"; "identity_too_long"; "channel_open_rejected";
    "channel_limit_exceeded"; "invalid_channel_id"; "extended_channel_unsupported";
    "prevhash_switch_timeout"; "prevhash_verdict_rejected"; "template_cache_miss";
    "stale_job_submission"; "upstream_unavailable"; "missing_gateway_signature";
    "malformed_gateway_signature"; "malformed_event_id"; "invalid_gateway_signature";
    "share_replay_detected"; "share_difficulty_below_target"; "share_invalid_job_id";
    "share_invalid_nonce"; "version_bit_violation"; "ntime_out_of_range"; "share_forward_failed";
    "share_upstream_rejected"; "share_dropped_queue_full"; "share_evicted_from_queue";
    "share_rate_limited"; "process_crash_recovery"; "wal_write_failure"; "peer_transport_error";
    "channel_open_timeout"; "setup_connection_rejected"; "shutdown_drain"; "startup_pending";
    "internal_error" ]%string.

Definition as_str (r : t) : string :=
  match r with
  | ProtocolVersionMismatch => "protocol_version_mismatch"
  | InvalidPrevHash => "invalid_prev_hash"
  | PrevHashLenMismatch => "prev_hash_len_mismatch"
  | CoinbaseValueZeroRejected => "coinbase_value_zero_rejected"
  | EmptyTemplateRejected => "empty_template_rejected"
  | TxCountExceeded => "tx_count_exceeded"
  | TotalFeesBelowMinimum => "total_fees_below_minimum"
  | AvgFeeBelowMinimum => "avg_fee_below_minimum"
  | PolicyLoadError => "policy_load_error"
  | MempoolBackendUnavailable => "mempool_backend_unavailable"
  | WeightRatioExceeded => "weight_ratio_exceeded"
  | TemplateStale => "template_stale"
  | SigopsBudgetWarning => "sigops_budget_warning"
  | CoinbaseSigopsAbnormal => "coinbase_sigops_abnormal"
  | V2InvariantCoinbaseValueMismatch => "v2_invariant_coinbase_value_mismatch"
  | V2InvariantTemplateWeightMismatch => "v2_invariant_template_weight_mismatch"
  | V2InvariantMerkleRootMismatch => "v2_invariant_merkle_root_mismatch"
  | V2InvariantWitnessCommitmentMissing => "v2_invariant_witness_commitment_missing"
  | V2InvariantWitnessCommitmentMismatch => "v2_invariant_witness_commitment_mismatch"
  | V2InvariantSigopsMismatch => "v2_invariant_sigops_mismatch"
  | V2InvariantCoinbaseSigopsMismatch => "v2_invariant_coinbase_sigops_mismatch"
  | V2InvariantTxCountMismatch => "v2_invariant_tx_count_mismatch"
  | V2InvariantCoinbaseScriptLength => "v2_invariant_coinbase_script_length"
  | V2InvariantCoinbaseOutputCount => "v2_invariant_coinbase_output_count"
  | V2InvariantCoinbaseBip34Missing => "v2_invariant_coinbase_bip34_missing"
  | V2InvariantCoinbaseHeightMismatch => "v2_invariant_coinbase_height_mismatch"
  | V2InvariantWeightExceedsMax => "v2_invariant_weight_exceeds_max"
  | V2InvariantSigopsExceedMax => "v2_invariant_sigops_exceed_max"
  | V2InvariantCoinbaseValueExceedsMax => "v2_invariant_coinbase_value_exceeds_max"
  | V2InvariantNontcbNullPrevout => "v2_invariant_nontcb_null_prevout"
  | V2InvariantCoinbasePrevoutNotNull => "v2_invariant_coinbase_prevout_not_null"
  | V2InvariantHeaderVersionLow => "v2_invariant_header_version_low"
  | V2InvariantDuplicateTx => "v2_invariant_duplicate_tx"
  | V2InvariantDecodeFailed => "v2_invariant_decode_failed"
  | V2InvariantMempoolTxUnknown => "v2_invariant_mempool_tx_unknown"
  | V2InvariantMempoolToleranceExceeded => "v2_invariant_mempool_tolerance_exceeded"
  | V2InvariantMempoolUnavailable => "v2_invariant_mempool_unavailable"
  | V2InvariantMempoolViewStale => "v2_invariant_mempool_view_stale"
  | AuthFailed => "auth_failed"
  | UnsupportedAlgorithm => "unsupported_algorithm"
  | RateLimited => "rate_limited"
  | PayloadTooLarge => "payload_too_large"
  | InvalidContentType => "invalid_content_type"
  | PayloadUnknownField => "payload_unknown_field"
  | PayloadFieldOutOfRange => "payload_field_out_of_range"
  | PayloadMalformed => "payload_malformed"
  | PayloadNestingExceeded => "payload_nesting_exceeded"
  | RequestExpired => "request_expired"
  | RequestReplayed => "request_replayed"
  | HandlerTimeout => "handler_timeout"
  | ConfigInvalid => "config_invalid"
  | InternalLineTooLarge => "internal_line_too_large"
  | InternalFramingError => "internal_framing_error"
  | InternalVersionMismatch => "internal_version_mismatch"
  | InternalUnknownMsgFlood => "internal_unknown_msg_flood"
  | NoiseHandshakeFailed => "noise_handshake_failed"
  | NoiseHandshakeTimeout => "noise_handshake_timeout"
  | UnsupportedProtocolVersion => "unsupported_protocol_version"
  | FrameDecodeError => "frame_decode_error"
  | FrameTooLarge => "frame_too_large"
  | ConnectionRateLimited => "connection_rate_limited"
  | PeerQuotaExceeded => "peer_quota_exceeded"
  | MinerUnauthorized => "miner_unauthorized"
  | IdentityPrefixUnmatched => "identity_prefix_unmatched"
  | IdentityTooLong => "identity_too_long"
  | ChannelOpenRejected => "channel_open_rejected"
  | ChannelLimitExceeded => "channel_limit_exceeded"
  | InvalidChannelId => "invalid_channel_id"
  | ExtendedChannelUnsupported => "extended_channel_unsupported"
  | PrevhashSwitchTimeout => "prevhash_switch_timeout"
  | PrevhashVerdictRejected => "prevhash_verdict_rejected"
  | TemplateCacheMiss => "template_cache_miss"
  | StaleJobSubmission => "stale_job_submission"
  | UpstreamUnavailable => "upstream_unavailable"
  | MissingGatewaySignature => "missing_gateway_signature"
  | MalformedGatewaySignature => "malformed_gateway_signature"
  | MalformedEventId => "malformed_event_id"
  | InvalidGatewaySignature => "invalid_gateway_signature"
  | ShareReplayDetected => "share_replay_detected"
  | ShareDifficultyBelowTarget => "share_difficulty_below_target"
  | ShareInvalidJobId => "share_invalid_job_id"
  | ShareInvalidNonce => "share_invalid_nonce"
  | VersionBitViolation => "version_bit_violation"
  | NtimeOutOfRange => "ntime_out_of_range"
  | ShareForwardFailed => "share_forward_failed"
  | ShareUpstreamRejected => "share_upstream_rejected"
  | ShareDroppedQueueFull => "share_dropped_queue_full"
  | ShareEvictedFromQueue => "share_evicted_from_queue"
  | ShareRateLimited => "share_rate_limited"
  | ProcessCrashRecovery => "process_crash_recovery"
  | WalWriteFailure => "wal_write_failure"
  | PeerTransportError => "peer_transport_error"
  | ChannelOpenTimeout => "channel_open_timeout"
  | SetupConnectionRejected => "setup_connection_rejected"
  | ShutdownDrain => "shutdown_drain"
  | StartupPending => "startup_pending"
  | InternalError => "internal_error"
  end%string.

(** [From<VerdictReason>]. *)
Definition from_verdict (v : VerdictReason) : t :=
  match v with
  | Protocol.ProtocolVersionMismatch => ProtocolVersionMismatch
  | Protocol.InvalidPrevHash => InvalidPrevHash
  | Protocol.PrevHashLenMismatch => PrevHashLenMismatch
  | Protocol.CoinbaseValueZeroRejected => CoinbaseValueZeroRejected
  | Protocol.EmptyTemplateRejected => EmptyTemplateRejected
  | Protocol.TxCountExceeded => TxCountExceeded
  | Protocol.TotalFeesBelowMinimum => TotalFeesBelowMinimum
  | Protocol.AvgFeeBelowMinimum => AvgFeeBelowMinimum
  | Protocol.PolicyLoadError => PolicyLoadError
  | Protocol.MempoolBackendUnavailable => MempoolBackendUnavailable
  | Protocol.InternalError => InternalError
  | Protocol.WeightRatioExceeded => WeightRatioExceeded
  | Protocol.TemplateStale => TemplateStale
  | Protocol.SigopsBudgetWarning => SigopsBudgetWarning
  | Protocol.CoinbaseSigopsAbnormal => CoinbaseSigopsAbnormal
  | Protocol.V2InvariantCoinbaseValueMismatch => V2InvariantCoinbaseValueMismatch
  | Protocol.V2InvariantTemplateWeightMismatch => V2InvariantTemplateWeightMismatch
  | Protocol.V2InvariantMerkleRootMismatch => V2InvariantMerkleRootMismatch
  | Protocol.V2InvariantWitnessCommitmentMissing => V2InvariantWitnessCommitmentMissing
  | Protocol.V2InvariantWitnessCommitmentMismatch => V2InvariantWitnessCommitmentMismatch
  | Protocol.V2InvariantSigopsMismatch => V2InvariantSigopsMismatch
  | Protocol.V2InvariantCoinbaseSigopsMismatch => V2InvariantCoinbaseSigopsMismatch
  | Protocol.V2InvariantTxCountMismatch => V2InvariantTxCountMismatch
  | Protocol.V2InvariantCoinbaseScriptLength => V2InvariantCoinbaseScriptLength
  | Protocol.V2InvariantCoinbaseOutputCount => V2InvariantCoinbaseOutputCount
  | Protocol.V2InvariantCoinbaseBip34Missing => V2InvariantCoinbaseBip34Missing
  | Protocol.V2InvariantCoinbaseHeightMismatch => V2InvariantCoinbaseHeightMismatch
  | Protocol.V2InvariantWeightExceedsMax => V2InvariantWeightExceedsMax
  | Protocol.V2InvariantSigopsExceedMax => V2InvariantSigopsExceedMax
  | Protocol.V2InvariantCoinbaseValueExceedsMax => V2InvariantCoinbaseValueExceedsMax
  | Protocol.V2InvariantNontcbNullPrevout => V2InvariantNontcbNullPrevout
  | Protocol.V2InvariantCoinbasePrevoutNotNull => V2InvariantCoinbasePrevoutNotNull
  | Protocol.V2InvariantHeaderVersionLow => V2InvariantHeaderVersionLow
  | Protocol.V2InvariantDuplicateTx => V2InvariantDuplicateTx
  | Protocol.V2InvariantDecodeFailed => V2InvariantDecodeFailed
  | Protocol.V2InvariantMempoolTxUnknown => V2InvariantMempoolTxUnknown
  | Protocol.V2InvariantMempoolToleranceExceeded => V2InvariantMempoolToleranceExceeded
  | Protocol.V2InvariantMempoolUnavailable => V2InvariantMempoolUnavailable
  | Protocol.V2InvariantMempoolViewStale => V2InvariantMempoolViewStale
  end.

(** [From<GatewayReason>]. *)
Definition from_gateway (g : GatewayReason.t) : t :=
  match g with
  | GatewayReason.AuthFailed => AuthFailed
  | GatewayReason.UnsupportedAlgorithm => UnsupportedAlgorithm
  | GatewayReason.RateLimited => RateLimited
  | GatewayReason.PayloadTooLarge => PayloadTooLarge
  | GatewayReason.InvalidContentType => InvalidContentType
  | GatewayReason.PayloadUnknownField => PayloadUnknownField
  | GatewayReason.PayloadFieldOutOfRange => PayloadFieldOutOfRange
  | GatewayReason.PayloadMalformed => PayloadMalformed
  | GatewayReason.PayloadNestingExceeded => PayloadNestingExceeded
  | GatewayReason.RequestExpired => RequestExpired
  | GatewayReason.RequestReplayed => RequestReplayed
  | GatewayReason.HandlerTimeout => HandlerTimeout
  | GatewayReason.ConfigInvalid => ConfigInvalid
  | GatewayReason.InternalError => InternalError
  | GatewayReason.InternalLineTooLarge => InternalLineTooLarge
  | GatewayReason.InternalFramingError => InternalFramingError
  | GatewayReason.InternalVersionMismatch => InternalVersionMismatch
  | GatewayReason.InternalUnknownMsgFlood => InternalUnknownMsgFlood
  | GatewayReason.NoiseHandshakeFailed => NoiseHandshakeFailed
  | GatewayReason.NoiseHandshakeTimeout => NoiseHandshakeTimeout
  | GatewayReason.UnsupportedProtocolVersion => UnsupportedProtocolVersion
  | GatewayReason.FrameDecodeError => FrameDecodeError
  | GatewayReason.FrameTooLarge => FrameTooLarge
  | GatewayReason.ConnectionRateLimited => ConnectionRateLimited
  | GatewayReason.PeerQuotaExceeded => PeerQuotaExceeded
  | GatewayReason.MinerUnauthorized => MinerUnauthorized
  | GatewayReason.IdentityPrefixUnmatched => IdentityPrefixUnmatched
  | GatewayReason.IdentityTooLong => IdentityTooLong
  | GatewayReason.ChannelOpenRejected => ChannelOpenRejected
  | GatewayReason.ChannelLimitExceeded => ChannelLimitExceeded
  | GatewayReason.InvalidChannelId => InvalidChannelId
  | GatewayReason.ExtendedChannelUnsupported => ExtendedChannelUnsupported
  | GatewayReason.PrevhashSwitchTimeout => PrevhashSwitchTimeout
  | GatewayReason.PrevhashVerdictRejected => PrevhashVerdictRejected
  | GatewayReason.TemplateCacheMiss => TemplateCacheMiss
  | GatewayReason.StaleJobSubmission => StaleJobSubmission
  | GatewayReason.UpstreamUnavailable => UpstreamUnavailable
  | GatewayReason.MissingGatewaySignature => MissingGatewaySignature
  | GatewayReason.MalformedGatewaySignature => MalformedGatewaySignature
  | GatewayReason.MalformedEventId => MalformedEventId
  | GatewayReason.InvalidGatewaySignature => InvalidGatewaySignature
  | GatewayReason.ShareReplayDetected => ShareReplayDetected
  | GatewayReason.ShareDifficultyBelowTarget => ShareDifficultyBelowTarget
  | GatewayReason.ShareInvalidJobId => ShareInvalidJobId
  | GatewayReason.ShareInvalidNonce => ShareInvalidNonce
  | GatewayReason.VersionBitViolation => VersionBitViolation
  | GatewayReason.NtimeOutOfRange => NtimeOutOfRange
  | GatewayReason.ShareForwardFailed => ShareForwardFailed
  | GatewayReason.ShareUpstreamRejected => ShareUpstreamRejected
  | GatewayReason.ShareDroppedQueueFull => ShareDroppedQueueFull
  | GatewayReason.ShareEvictedFromQueue => ShareEvictedFromQueue
  | GatewayReason.ShareRateLimited => ShareRateLimited
  | GatewayReason.ProcessCrashRecovery => ProcessCrashRecovery
  | GatewayReason.WalWriteFailure => WalWriteFailure
  | GatewayReason.PeerTransportError => PeerTransportError
  | GatewayReason.ChannelOpenTimeout => ChannelOpenTimeout
  | GatewayReason.SetupConnectionRejected => SetupConnectionRejected
  | GatewayReason.ShutdownDrain => ShutdownDrain
  | GatewayReason.StartupPending => StartupPending
  end.
End ReasonCode.

(** * Properties *)

Lemma GatewayReason_complete : forall r, r ∈ GatewayReason.ALL.
Proof. solve_enum. Qed.

Lemma ReasonCode_complete : forall r, r ∈ ReasonCode.ALL.
Proof. solve_enum. Qed.

Lemma GatewayReason_codes : GatewayReason.as_str <$> GatewayReason.ALL = GatewayReason.ALL_CODES.
Proof. reflexivity. Qed.

Lemma ReasonCode_codes : ReasonCode.as_str <$> ReasonCode.ALL = ReasonCode.ALL_CODES.
Proof. reflexivity. Qed.

#[global] Instance GatewayReason_as_str_inj : Inj (=) (=) GatewayReason.as_str.
Proof.
  apply (enum_inj _ _ GatewayReason_complete). rewrite GatewayReason_codes.
  apply (bool_decide_unpack _). vm_compute. exact I.
Qed.

#[global] Instance ReasonCode_as_str_inj : Inj (=) (=) ReasonCode.as_str.
Proof.
  apply (enum_inj _ _ ReasonCode_complete). rewrite ReasonCode_codes.
  apply (bool_decide_unpack _). vm_compute. exact I.
Qed.

#[global] Instance GatewayReason_eq_dec : EqDecision GatewayReason.t :=
  inj_eq_dec GatewayReason.as_str _.

(** Equal codes of the two domains. *)
Lemma from_verdict_as_str v : ReasonCode.as_str (ReasonCode.from_verdict v) = VerdictReason_as_str v.
Proof. by destruct v. Qed.

Lemma from_gateway_as_str g : ReasonCode.as_str (ReasonCode.from_gateway g) = GatewayReason.as_str g.
Proof. by destruct g. Qed.

(** Every unified code string is a code string of one of the two domains. *)
Lemma unified_codes_covered :
  Forall (fun c => c ∈ VerdictReason_ALL_CODES ++ GatewayReason.ALL_CODES) ReasonCode.ALL_CODES.
Proof. apply (bool_decide_unpack _). vm_compute. exact I. Qed.

Lemma unified_codes_shared :
  Forall (fun v => Forall (fun g => VerdictReason_as_str v = GatewayReason.as_str g ->
    v = Protocol.InternalError /\ g = GatewayReason.InternalError) GatewayReason.ALL)
    VerdictReason_ALL.
Proof. apply (bool_decide_unpack _). vm_compute. exact I. Qed.

(** (unified codes): no code string drifts on its way into the unified enum, every unified
    code comes from one of the two domains, the two domains share exactly [internal_error], and
    the tables list each code once, in order. *)
Theorem reason_code_superset :
  (forall v, ReasonCode.as_str (ReasonCode.from_verdict v) = VerdictReason_as_str v) /\
  (forall g, ReasonCode.as_str (ReasonCode.from_gateway g) = GatewayReason.as_str g) /\
  (forall r, (exists v, r = ReasonCode.from_verdict v) \/ (exists g, r = ReasonCode.from_gateway g)) /\
  (forall v g, VerdictReason_as_str v = GatewayReason.as_str g <->
     v = Protocol.InternalError /\ g = GatewayReason.InternalError) /\
  ReasonCode.as_str <$> ReasonCode.ALL = ReasonCode.ALL_CODES /\
  NoDup ReasonCode.ALL_CODES /\ (forall r, r ∈ ReasonCode.ALL).
Proof.
  split_and!; [apply from_verdict_as_str|apply from_gateway_as_str| | |apply ReasonCode_codes| |
    apply ReasonCode_complete].
  - intros r. assert (ReasonCode.as_str r ∈ VerdictReason_ALL_CODES ++ GatewayReason.ALL_CODES) as Hr.
    { apply (proj1 (Forall_forall _ _) unified_codes_covered). rewrite <-ReasonCode_codes.
      apply list_elem_of_fmap_2, ReasonCode_complete. }
    rewrite <-GatewayReason_codes in Hr.
    change VerdictReason_ALL_CODES with (VerdictReason_as_str <$> VerdictReason_ALL) in Hr.
    apply elem_of_app in Hr as [(v & Hv & _)%list_elem_of_fmap|(g & Hg & _)%list_elem_of_fmap].
    + left. exists v. apply (inj ReasonCode.as_str). by rewrite from_verdict_as_str.
    + right. exists g. apply (inj ReasonCode.as_str). by rewrite from_gateway_as_str.
  - intros v g. split; [|by intros [-> ->]].
    pose proof (proj1 (Forall_forall _ _) unified_codes_shared v (VerdictReason_ALL_complete v)) as Hg.
    exact (proj1 (Forall_forall _ _) Hg g (GatewayReason_complete g)).
  - apply (bool_decide_unpack _). vm_compute. exact I.
Qed.
