(* ===== verification/Consensus.v ===== *)
(** * rg-consensus: the Invariant Shield facade

    Models [services/rg-consensus/src/lib.rs]: the violation type and its reason codes, the
    re-derivations and structural checks run on a parsed block, template block assembly and
    the BIP-34 / BIP-141 byte-level helpers. The parser itself is rust-bitcoin, which is not
    part of the repository: its types are mirrored by records with the public fields the
    facade reads, its functions are the operations of the class [BitcoinLib], and what the
    theorems rely on about them is in the separate class [BitcoinLaws]. *)

From S2P Require Import Prelude.

(** ** rust-bitcoin: the types and functions the facade calls *)

Module OutPoint.
Record t : Type := mk { txid : bytes; vout : Z }.
End OutPoint.

Module TxIn.
Record t : Type := mk {
  previous_output : OutPoint.t;
  script_sig : bytes;
  sequence : Z;
  witness : list bytes
}.
End TxIn.

Module TxOut.
Record t : Type := mk { value : Z; script_pubkey : bytes }.
End TxOut.

Module Transaction.
Record t : Type := mk {
  version : Z;
  lock_time : Z;
  input : list TxIn.t;
  output : list TxOut.t
}.
End Transaction.

Module Header.
Record t : Type := mk {
  version : Z;
  prev_blockhash : bytes;
  merkle_root : bytes;
  time : Z;
  bits : Z;
  nonce : Z
}.
End Header.

Module Block.
Record t : Type := mk { header : Header.t; txdata : list Transaction.t }.
End Block.

(** The functions of the [bitcoin] crate (0.32) the facade calls. *)
Class BitcoinLib : Type := {
  deserialize_block : bytes -> option Block.t;
  deserialize_tx : bytes -> option Transaction.t;
  serialize_block : Block.t -> bytes;
  block_weight : Block.t -> Z;
  tx_weight : Transaction.t -> Z;
  compute_merkle_root : Block.t -> option bytes;
  witness_root : Block.t -> option bytes;
  compute_txid : Transaction.t -> bytes;
  count_sigops_legacy : bytes -> Z;
  outpoint_is_null : OutPoint.t -> bool;
  sha256d_hash : bytes -> bytes
}.

(** What the theorems use of it: documented behaviour of the crate, none of which mentions a
    definition of this repository. *)
Class BitcoinLaws `{BitcoinLib} : Prop := {
  (** An output value is an [Amount], a [u64] of satoshis. *)
  law_value_u64 : forall raw b tx o, deserialize_block raw = Some b ->
    tx ∈ Block.txdata b -> o ∈ Transaction.output tx -> in_u 64 (TxOut.value o);
  (** The merkle root is computed over the body; the header does not take part, and only an
      empty body has none. *)
  law_merkle_body : forall b b', Block.txdata b = Block.txdata b' ->
    compute_merkle_root b = compute_merkle_root b';
  law_merkle_some : forall b, Block.txdata b <> [] -> is_Some (compute_merkle_root b);
  (** Counts are counts. *)
  law_sigops_nonneg : forall s, 0 <= count_sigops_legacy s
}.

(** ** ConsensusViolation *)

Inductive ConsensusViolation : Type :=
| DecodeFailed (detail : string)
| CoinbaseValueMismatch (declared re_derived : Z)
| TemplateWeightMismatch (declared re_derived : Z)
| MerkleRootMismatch (declared re_derived : bytes)
| WitnessCommitmentMissing
| WitnessCommitmentMismatch (declared re_derived : bytes)
| SigopsMismatch (declared re_derived : Z)
| CoinbaseSigopsMismatch (declared re_derived : Z)
| TxCountMismatch (declared re_derived : Z)
| CoinbaseScriptLength
| CoinbaseOutputCount
| CoinbaseBip34Missing
| CoinbaseHeightMismatch (declared re_derived : Z)
| WeightExceedsMax
| SigopsExceedMax
| CoinbaseValueExceedsMax
| NonCoinbaseNullPrevout
| CoinbasePrevoutNotNull
| HeaderVersionLow
| DuplicateTx
| MempoolTxUnknown (txid : bytes)
| MempoolToleranceExceeded (unknown_count total : Z)
| MempoolUnavailable
| MempoolViewStale (age_secs : Z)
| NotImplemented.

Definition zero32 : bytes := replicate 32 x00.

(** [ConsensusViolation::ALL]. *)
Definition ConsensusViolation_ALL : list ConsensusViolation :=
  [ DecodeFailed "enumeration_placeholder";
    CoinbaseValueMismatch 0 0;
    TemplateWeightMismatch 0 0;
    MerkleRootMismatch zero32 zero32;
    WitnessCommitmentMissing;
    WitnessCommitmentMismatch zero32 zero32;
    SigopsMismatch 0 0;
    CoinbaseSigopsMismatch 0 0;
    TxCountMismatch 0 0;
    CoinbaseScriptLength;
    CoinbaseOutputCount;
    CoinbaseBip34Missing;
    CoinbaseHeightMismatch 0 0;
    WeightExceedsMax;
    SigopsExceedMax;
    CoinbaseValueExceedsMax;
    NonCoinbaseNullPrevout;
    CoinbasePrevoutNotNull;
    HeaderVersionLow;
    DuplicateTx;
    MempoolTxUnknown zero32;
    MempoolToleranceExceeded 0 0;
    MempoolUnavailable;
    MempoolViewStale 0;
    NotImplemented ].

(** [ConsensusViolation::ALL_CODES]. *)
Definition ConsensusViolation_ALL_CODES : list string :=
  [ "v2_invariant_decode_failed";
    "v2_invariant_coinbase_value_mismatch";
    "v2_invariant_template_weight_mismatch";
    "v2_invariant_merkle_root_mismatch";
    "v2_invariant_witness_commitment_missing";
    "v2_invariant_witness_commitment_mismatch";
    "v2_invariant_sigops_mismatch";
    "v2_invariant_coinbase_sigops_mismatch";
    "v2_invariant_tx_count_mismatch";
    "v2_invariant_coinbase_script_length";
    "v2_invariant_coinbase_output_count";
    "v2_invariant_coinbase_bip34_missing";
    "v2_invariant_coinbase_height_mismatch";
    "v2_invariant_weight_exceeds_max";
    "v2_invariant_sigops_exceed_max";
    "v2_invariant_coinbase_value_exceeds_max";
    "v2_invariant_nontcb_null_prevout";
    "v2_invariant_coinbase_prevout_not_null";
    "v2_invariant_header_version_low";
    "v2_invariant_duplicate_tx";
    "v2_invariant_mempool_tx_unknown";
    "v2_invariant_mempool_tolerance_exceeded";
    "v2_invariant_mempool_unavailable";
    "v2_invariant_mempool_view_stale" ]%string.

Definition NOT_IMPLEMENTED_CODE : string := "v2_invariant_not_implemented".

(** [ConsensusViolation::as_reason_code]. *)
Definition as_reason_code (v : ConsensusViolation) : string :=
  match v with
  | DecodeFailed _ => "v2_invariant_decode_failed"
  | CoinbaseValueMismatch _ _ => "v2_invariant_coinbase_value_mismatch"
  | TemplateWeightMismatch _ _ => "v2_invariant_template_weight_mismatch"
  | MerkleRootMismatch _ _ => "v2_invariant_merkle_root_mismatch"
  | WitnessCommitmentMissing => "v2_invariant_witness_commitment_missing"
  | WitnessCommitmentMismatch _ _ => "v2_invariant_witness_commitment_mismatch"
  | SigopsMismatch _ _ => "v2_invariant_sigops_mismatch"
  | CoinbaseSigopsMismatch _ _ => "v2_invariant_coinbase_sigops_mismatch"
  | TxCountMismatch _ _ => "v2_invariant_tx_count_mismatch"
  | CoinbaseScriptLength => "v2_invariant_coinbase_script_length"
  | CoinbaseOutputCount => "v2_invariant_coinbase_output_count"
  | CoinbaseBip34Missing => "v2_invariant_coinbase_bip34_missing"
  | CoinbaseHeightMismatch _ _ => "v2_invariant_coinbase_height_mismatch"
  | WeightExceedsMax => "v2_invariant_weight_exceeds_max"
  | SigopsExceedMax => "v2_invariant_sigops_exceed_max"
  | CoinbaseValueExceedsMax => "v2_invariant_coinbase_value_exceeds_max"
  | NonCoinbaseNullPrevout => "v2_invariant_nontcb_null_prevout"
  | CoinbasePrevoutNotNull => "v2_invariant_coinbase_prevout_not_null"
  | HeaderVersionLow => "v2_invariant_header_version_low"
  | DuplicateTx => "v2_invariant_duplicate_tx"
  | MempoolTxUnknown _ => "v2_invariant_mempool_tx_unknown"
  | MempoolToleranceExceeded _ _ => "v2_invariant_mempool_tolerance_exceeded"
  | MempoolUnavailable => "v2_invariant_mempool_unavailable"
  | MempoolViewStale _ => "v2_invariant_mempool_view_stale"
  | NotImplemented => NOT_IMPLEMENTED_CODE
  end%string.

(** ** Consensus constants *)

Definition MAX_BLOCK_WEIGHT_WU : Z := 4000000.
Definition MAX_BLOCK_SIGOPS_COST : Z := 80000.
Definition MAX_MONEY_SATS : Z := 21000000 * 100000000.
Definition WITNESS_SCALE_FACTOR : Z := 4.
Definition MIN_COINBASE_SCRIPT_LEN : Z := 2.
Definition MAX_COINBASE_SCRIPT_LEN : Z := 100.
Definition HEADER_VERSION_FLOOR : Z := 4.

(** ** Byte-level helpers *)

(** The four magic bytes of a BIP-141 commitment output. *)
Definition COMMITMENT_MAGIC : bytes := [xaa; x21; xa9; xed].

(** The test [extract_witness_commitment_from_coinbase] makes on one output script, and the
    commitment it carries. *)
Definition commitment_of_script (script : bytes) : option bytes :=
  if (38 <=? lenZ script)
     && bool_decide (script !! 0%nat = Some x6a)
     && bool_decide (script !! 1%nat = Some x24)
     && bool_decide (take 4 (drop 2 script) = COMMITMENT_MAGIC)
  then Some (take 32 (drop 6 script))
  else None.

(** The loop over the outputs, in the order given. *)
Fixpoint first_commitment (outs : list TxOut.t) : option bytes :=
  match outs with
  | [] => None
  | o :: outs =>
      match commitment_of_script (TxOut.script_pubkey o) with
      | Some c => Some c
      | None => first_commitment outs
      end
  end.

Definition extract_witness_commitment_from_coinbase (coinbase : Transaction.t) : option bytes :=
  first_commitment (reverse (Transaction.output coinbase)).

(** The accumulation loop of [decode_bip34_height]: [i] counts from [0], [len] is the payload
    length, and the last byte is masked with [0x7f]. *)
Fixpoint bip34_accumulate (len i : Z) (payload : bytes) (value : Z) : Z :=
  match payload with
  | [] => value
  | b :: rest =>
      let mask := if i =? len - 1 then 0x7f else 0xff in
      bip34_accumulate len (i + 1) rest
        (Z.lor value (Z.shiftl (Z.land (byte_to_Z b) mask) (i * 8)))
  end.

Definition decode_bip34_height (script : bytes) : option Z :=
  match script with
  | [] => None
  | len_byte :: _ =>
      let len := byte_to_Z len_byte in
      if negb ((0x01 <=? len) && (len <=? 0x04)) then None
      else if lenZ script <? 1 + len then None
      else
        let payload := take (Z.to_nat len) (drop 1 script) in
        match last payload with
        | None => None
        | Some last_byte =>
            if negb (Z.land (byte_to_Z last_byte) 0x80 =? 0) then None
            else if (1 <? len) && (byte_to_Z last_byte =? 0)
                    && match payload !! (Z.to_nat (len - 2)) with
                       | Some b => Z.land (byte_to_Z b) 0x80 =? 0
                       | None => false
                       end
            then None
            else
              let value := bip34_accumulate len 0 payload 0 in
              if value <=? u32_max then Some value else None
        end
  end.

(** ** Re-derivations and checks *)

Section Facade.
Context `{BitcoinLib}.

(** [ParsedBlock] is an opaque wrapper around [bitcoin::Block]. *)
Definition ParsedBlock : Type := Block.t.

Definition parse_block (raw : bytes) : result ParsedBlock ConsensusViolation :=
  match deserialize_block raw with
  | Some b => Ok b
  | None => Err (DecodeFailed "block_deserialize")
  end.

(** [txdata.first().ok_or(DecodeFailed { "block_has_no_coinbase" })]. *)
Definition first_tx (block : ParsedBlock) : result Transaction.t ConsensusViolation :=
  ok_or (head (Block.txdata block)) (DecodeFailed "block_has_no_coinbase").

(** [coinbase.input.first().ok_or(DecodeFailed { "coinbase_has_no_input" })]. *)
Definition first_input (coinbase : Transaction.t) : result TxIn.t ConsensusViolation :=
  ok_or (head (Transaction.input coinbase)) (DecodeFailed "coinbase_has_no_input").

(** [try_fold(0u64, checked_add)] over the output values. *)
Fixpoint checked_total (acc : Z) (outs : list TxOut.t) : option Z :=
  match outs with
  | [] => Some acc
  | o :: outs =>
      match checked_add 64 acc (TxOut.value o) with
      | Some acc => checked_total acc outs
      | None => None
      end
  end.

Definition re_derive_coinbase_value (raw : bytes) : result Z ConsensusViolation :=
  let? block := parse_block raw in
  let? coinbase := first_tx block in
  ok_or (checked_total 0 (Transaction.output coinbase)) CoinbaseValueExceedsMax.

Definition re_derive_template_weight (raw : bytes) : result Z ConsensusViolation :=
  let? block := parse_block raw in
  Ok (block_weight block).

Definition re_derive_merkle_root (raw : bytes) : result bytes ConsensusViolation :=
  let? block := parse_block raw in
  ok_or (compute_merkle_root block) (DecodeFailed "merkle_root_empty_block").

(** [txdata.iter().any(|tx| tx.input.iter().any(|i| !i.witness.is_empty()))]. *)
Definition input_has_witness (i : TxIn.t) : bool :=
  match TxIn.witness i with [] => false | _ => true end.
Definition tx_has_witness (tx : Transaction.t) : bool :=
  existsb input_has_witness (Transaction.input tx).
Definition has_witness (block : ParsedBlock) : bool :=
  existsb tx_has_witness (Block.txdata block).

(** The BIP-141 reserved value: the first witness element of the coinbase input when it is 32
    bytes long, 32 zero bytes otherwise. *)
Definition witness_reserved (coinbase : Transaction.t) : bytes :=
  match head (Transaction.input coinbase) with
  | Some i =>
      match head (TxIn.witness i) with
      | Some w => if (length w =? 32)%nat then w else zero32
      | None => zero32
      end
  | None => zero32
  end.

Definition witness_commitment (root : bytes) (coinbase : Transaction.t) : bytes :=
  sha256d_hash (root ++ witness_reserved coinbase).

Definition re_derive_witness_commitment (raw : bytes)
    : result (option bytes) ConsensusViolation :=
  let? block := parse_block raw in
  if negb (has_witness block) then Ok None
  else
    let? root := ok_or (witness_root block) (DecodeFailed "witness_root_empty_block") in
    let? coinbase := first_tx block in
    Ok (Some (witness_commitment root coinbase)).

(** The saturating [u64] running total over the inputs and outputs of one transaction. *)
Definition add_tx_sigops (total : Z) (tx : Transaction.t) : Z :=
  let total := foldl (fun t i => saturating_add 64 t (count_sigops_legacy (TxIn.script_sig i)))
                 total (Transaction.input tx) in
  foldl (fun t o => saturating_add 64 t (count_sigops_legacy (TxOut.script_pubkey o)))
    total (Transaction.output tx).

Definition sum_legacy_sigops (txs : list Transaction.t) : Z :=
  clamp_u 32 (foldl add_tx_sigops 0 txs).

Definition count_sigops (raw : bytes) : result Z ConsensusViolation :=
  let? block := parse_block raw in
  Ok (clamp_u 32 (foldl add_tx_sigops 0 (Block.txdata block))).

Definition check_merkle_root_internal (block : ParsedBlock) : result unit ConsensusViolation :=
  let? computed := ok_or (compute_merkle_root block) (DecodeFailed "merkle_root_empty_block") in
  let declared := Header.merkle_root (Block.header block) in
  if bool_decide (declared <> computed) then Err (MerkleRootMismatch declared computed)
  else Ok tt.

Definition check_witness_commitment_internal (block : ParsedBlock)
    : result unit ConsensusViolation :=
  let? coinbase := first_tx block in
  match has_witness block, extract_witness_commitment_from_coinbase coinbase with
  | false, _ => Ok tt
  | true, None => Err WitnessCommitmentMissing
  | true, Some decl =>
      let? root := ok_or (witness_root block) (DecodeFailed "witness_root_empty_block") in
      let computed := witness_commitment root coinbase in
      if bool_decide (decl = computed) then Ok tt
      else Err (WitnessCommitmentMismatch decl computed)
  end.

Definition bip34_height (block : ParsedBlock) : result Z ConsensusViolation :=
  let? coinbase := first_tx block in
  let? input := first_input coinbase in
  ok_or (decode_bip34_height (TxIn.script_sig input)) CoinbaseBip34Missing.

Definition check_coinbase_bip34_present (block : ParsedBlock) : result unit ConsensusViolation :=
  let? _h := bip34_height block in
  Ok tt.

Definition tx_count (block : ParsedBlock) : Z := clamp_u 32 (lenZ (Block.txdata block)).

Definition total_sigops (block : ParsedBlock) : Z := sum_legacy_sigops (Block.txdata block).

Definition non_coinbase_sigops (block : ParsedBlock) : Z :=
  sum_legacy_sigops (drop 1 (Block.txdata block)).

Definition coinbase_sigops (block : ParsedBlock) : Z :=
  sum_legacy_sigops (take 1 (Block.txdata block)).

(** [.sum()] on [u64] wraps in release builds; the source argues it cannot be reached. *)
Definition non_coinbase_tx_weight (block : ParsedBlock) : Z :=
  sumZ (tx_weight <$> drop 1 (Block.txdata block)) mod 2 ^ 64.

Definition check_coinbase_script_length (block : ParsedBlock) : result unit ConsensusViolation :=
  let? coinbase := first_tx block in
  let? input := first_input coinbase in
  let len := lenZ (TxIn.script_sig input) in
  if negb ((MIN_COINBASE_SCRIPT_LEN <=? len) && (len <=? MAX_COINBASE_SCRIPT_LEN))
  then Err CoinbaseScriptLength
  else Ok tt.

Definition check_coinbase_output_count (block : ParsedBlock) : result unit ConsensusViolation :=
  let? coinbase := first_tx block in
  match Transaction.output coinbase with
  | [] => Err CoinbaseOutputCount
  | _ => Ok tt
  end.

Definition check_weight_max (block : ParsedBlock) : result unit ConsensusViolation :=
  if block_weight block >? MAX_BLOCK_WEIGHT_WU then Err WeightExceedsMax else Ok tt.

Definition check_sigops_max (block : ParsedBlock) : result unit ConsensusViolation :=
  let scaled := saturating_mul 64 (total_sigops block) WITNESS_SCALE_FACTOR in
  if scaled >? MAX_BLOCK_SIGOPS_COST then Err SigopsExceedMax else Ok tt.

(** The loop of [check_coinbase_value_max]: per-output ceiling, then a checked total. *)
Fixpoint money_range_total (total : Z) (outs : list TxOut.t) : result Z ConsensusViolation :=
  match outs with
  | [] => Ok total
  | o :: outs =>
      let value := TxOut.value o in
      if value >? MAX_MONEY_SATS then Err CoinbaseValueExceedsMax
      else
        let? total := ok_or (checked_add 64 total value) CoinbaseValueExceedsMax in
        money_range_total total outs
  end.

Definition check_coinbase_value_max (block : ParsedBlock) : result unit ConsensusViolation :=
  let? coinbase := first_tx block in
  let? total := money_range_total 0 (Transaction.output coinbase) in
  if total >? MAX_MONEY_SATS then Err CoinbaseValueExceedsMax else Ok tt.

Definition tx_has_null_prevout (tx : Transaction.t) : bool :=
  existsb (fun i => outpoint_is_null (TxIn.previous_output i)) (Transaction.input tx).

Definition check_non_coinbase_null_prevout (block : ParsedBlock)
    : result unit ConsensusViolation :=
  if existsb tx_has_null_prevout (drop 1 (Block.txdata block))
  then Err NonCoinbaseNullPrevout
  else Ok tt.

Definition check_coinbase_null_prevout (block : ParsedBlock) : result unit ConsensusViolation :=
  match Block.txdata block with
  | [] => Err CoinbasePrevoutNotNull
  | coinbase :: _ =>
      match Transaction.input coinbase with
      | [input] =>
          if negb (outpoint_is_null (TxIn.previous_output input))
          then Err CoinbasePrevoutNotNull
          else Ok tt
      | _ => Err CoinbasePrevoutNotNull
      end
  end.

Definition check_header_version (block : ParsedBlock) : result unit ConsensusViolation :=
  if Header.version (Block.header block) <? HEADER_VERSION_FLOOR
  then Err HeaderVersionLow
  else Ok tt.

(** The [HashSet::insert] loop of [check_duplicate_tx]. *)
Fixpoint insert_all_txids (seen : gset bytes) (txs : list Transaction.t)
    : result unit ConsensusViolation :=
  match txs with
  | [] => Ok tt
  | tx :: txs =>
      let id := compute_txid tx in
      if bool_decide (id ∈ seen) then Err DuplicateTx
      else insert_all_txids ({[id]} ∪ seen) txs
  end.

Definition check_duplicate_tx (block : ParsedBlock) : result unit ConsensusViolation :=
  insert_all_txids ∅ (Block.txdata block).

Definition template_txids (block : ParsedBlock) : list bytes :=
  compute_txid <$> drop 1 (Block.txdata block).

(** ** Template block assembly *)

Record TemplateBlockParts : Type := mkParts {
  tbp_version : Z;
  tbp_prev_hash : bytes;
  tbp_time : Z;
  tbp_bits : Z;
  tbp_coinbase_legacy : bytes;
  tbp_txs_raw : list bytes
}.

Fixpoint deserialize_all (raws : list bytes) : result (list Transaction.t) ConsensusViolation :=
  match raws with
  | [] => Ok []
  | raw :: raws =>
      let? tx := ok_or (deserialize_tx raw) (DecodeFailed "template_tx_deserialize") in
      let? txs := deserialize_all raws in
      Ok (tx :: txs)
  end.

(** [coinbase.input.first_mut()] with its witness replaced by one 32-byte zero element. *)
Definition attach_reserved_witness (coinbase : Transaction.t)
    : result Transaction.t ConsensusViolation :=
  match Transaction.input coinbase with
  | [] => Err (DecodeFailed "coinbase_has_no_input")
  | i :: rest =>
      Ok (Transaction.mk (Transaction.version coinbase) (Transaction.lock_time coinbase)
            (TxIn.mk (TxIn.previous_output i) (TxIn.script_sig i) (TxIn.sequence i) [zero32]
               :: rest)
            (Transaction.output coinbase))
  end.

(** The block [assemble_template_block] builds, before it is serialized. *)
Definition assemble_block (parts : TemplateBlockParts) : result Block.t ConsensusViolation :=
  let? coinbase := ok_or (deserialize_tx (tbp_coinbase_legacy parts))
                     (DecodeFailed "coinbase_deserialize") in
  let? txdata := deserialize_all (tbp_txs_raw parts) in
  let any_witness := existsb tx_has_witness txdata in
  let has_commitment :=
    match extract_witness_commitment_from_coinbase coinbase with
    | Some _ => true | None => false end in
  if any_witness && negb has_commitment then Err WitnessCommitmentMissing
  else
    let? coinbase := if has_commitment then attach_reserved_witness coinbase else Ok coinbase in
    let all_txs := coinbase :: txdata in
    let mk_block root :=
      Block.mk (Header.mk (tbp_version parts) (tbp_prev_hash parts) root (tbp_time parts)
                  (tbp_bits parts) 0) all_txs in
    let? merkle := ok_or (compute_merkle_root (mk_block zero32))
                     (DecodeFailed "merkle_root_empty_block") in
    Ok (mk_block merkle).

Definition assemble_template_block (parts : TemplateBlockParts)
    : result bytes ConsensusViolation :=
  let? block := assemble_block parts in
  Ok (serialize_block block).

End Facade.

(** * Properties *)

(** ** Reason codes *)

(** The codes of the whole enumeration are [ALL_CODES] followed by the degraded sentinel. *)
Lemma violation_codes_in_order :
  as_reason_code <$> ConsensusViolation_ALL
  = ConsensusViolation_ALL_CODES ++ [NOT_IMPLEMENTED_CODE].
Proof. reflexivity. Qed.

Lemma violation_codes_NoDup : NoDup (as_reason_code <$> ConsensusViolation_ALL).
Proof. apply (bool_decide_unpack _). by vm_compute. Qed.

(** ** BIP-34 height pushes *)

(** Specification: the number of little-endian bytes of the shortest signed encoding of a
    non-negative height below [2^31] (a zero byte is appended when the top bit is in use), and
    the script that pushes exactly those bytes. *)
Definition script_num_len (h : Z) : nat :=
  if h <? 2 ^ 7 then 1 else if h <? 2 ^ 15 then 2 else if h <? 2 ^ 23 then 3 else 4.
Definition bip34_push (h : Z) : bytes :=
  Z_to_byte (Z.of_nat (script_num_len h)) :: le_bytes (script_num_len h) h.

Lemma bip34_accumulate_spec len payload i value :
  0 <= i -> i + lenZ payload = len -> 0 <= value < 2 ^ (i * 8) ->
  (forall b, last payload = Some b -> byte_to_Z b < 128) ->
  bip34_accumulate len i payload value = value + 2 ^ (i * 8) * from_le_bytes payload.
Proof.
  revert i value. induction payload as [|b rest IH]; intros i value Hi Hlen Hv Hlast.
  { cbn [bip34_accumulate from_le_bytes]. lia. }
  unfold lenZ in *. cbn [bip34_accumulate from_le_bytes length] in *.
  pose proof (byte_to_Z_range b).
  assert (Z.land (byte_to_Z b) (if i =? len - 1 then 0x7f else 0xff) = byte_to_Z b) as ->.
  { destruct (i =? len - 1) eqn:E; z_bool; [|apply byte_land_255].
    destruct rest; simpl in Hlen; [|lia]. apply byte_land_127, Hlast. done. }
  rewrite lor_shiftl_add by lia.
  assert (2 ^ ((i + 1) * 8) = 2 ^ (i * 8) * 256) as Hp.
  { replace ((i + 1) * 8) with (i * 8 + 8) by lia. by rewrite Z.pow_add_r by lia. }
  rewrite IH; [rewrite Hp; lia|lia|lia|nia|].
  intros c Hc. apply Hlast. destruct rest; [done|]. exact Hc.
Qed.

(** The shape of an accepted script: a length byte in [1..4], that many payload bytes of which
    the last has a clear sign bit and is not a redundant zero, and the value they encode. *)
Lemma decode_bip34_height_inv s v :
  decode_bip34_height s = Some v <->
  exists l p rest z, s = l :: p ++ rest /\ byte_to_Z l = lenZ p /\ 1 <= lenZ p <= 4 /\
    last p = Some z /\ byte_to_Z z < 128 /\
    ~ (1 < lenZ p /\ byte_to_Z z = 0 /\
       exists y, p !! Z.to_nat (lenZ p - 2) = Some y /\ byte_to_Z y < 128) /\
    v = from_le_bytes p.
Proof.
  unfold decode_bip34_height, u32_max. split.
  - destruct s as [|l s]; [done|]. intros Hd.
    destruct (negb _) eqn:E1 in Hd; [done|]. apply negb_false_iff in E1.
    destruct (_ <? _) eqn:E2 in Hd; [done|]. z_bool. unfold lenZ in E2. simpl in E2.
    cbv zeta in Hd. change (drop 1 (l :: s)) with (drop 0 s) in Hd. rewrite drop_0 in Hd.
    set (p := take (Z.to_nat (byte_to_Z l)) s) in *.
    assert (lenZ p = byte_to_Z l) as Hp.
    { unfold p, lenZ. rewrite length_take. lia. }
    destruct (last p) as [z|] eqn:Hz; [|done].
    rewrite byte_high_bit in Hd. destruct (negb _) eqn:E3 in Hd; [done|]. z_bool.
    destruct (_ && _ && _) eqn:E4 in Hd; [done|].
    assert (bip34_accumulate (byte_to_Z l) 0 p 0 = from_le_bytes p) as Hacc.
    { rewrite bip34_accumulate_spec; try lia. intros b Hb. congruence. }
    rewrite Hacc in Hd. destruct (_ <=? _) eqn:E5 in Hd; [|done]. injection Hd as <-.
    exists l, p, (drop (Z.to_nat (byte_to_Z l)) s), z.
    split_and!; try lia; [|done|].
    + unfold p. by rewrite take_drop.
    + intros (Hn & Hz0 & y & Hy & Hylt). rewrite Hp in Hy. rewrite Hy, byte_high_bit in E4.
      apply andb_false_iff in E4 as [E4|E4]; z_bool; [|lia].
      apply andb_false_iff in E4 as [E4|E4]; z_bool; lia.
  - intros (l & p & rest & z & -> & Hl & Hlen & Hz & Hsign & Hmin & ->).
    rewrite Hl. replace (negb _) with false by (symmetry; apply negb_false_iff;
      apply andb_true_iff; split; apply Z.leb_le; lia).
    replace (lenZ _ <? _) with false.
    2: { symmetry. apply Z.ltb_ge. unfold lenZ. simpl. rewrite length_app. lia. }
    cbv zeta. change (drop 1 (l :: p ++ rest)) with (drop 0 (p ++ rest)).
    rewrite drop_0, take_app_length' by (unfold lenZ; lia).
    rewrite Hz, byte_high_bit. rewrite (proj2 (Z.ltb_lt _ _) Hsign). cbn [negb].
    assert (from_le_bytes p <= 4294967295) as Hb.
    { pose proof (from_le_bytes_range p).
      assert (256 ^ Z.of_nat (length p) <= 256 ^ 4)
        by (apply Z.pow_le_mono_r; unfold lenZ in Hlen; lia). lia. }
    rewrite bip34_accumulate_spec; try lia.
    2: { intros b Hb'. congruence. }
    replace (0 + 2 ^ (0 * 8) * from_le_bytes p) with (from_le_bytes p) by lia.
    rewrite (proj2 (Z.leb_le _ _) Hb).
    destruct (_ && _ && _) eqn:E; [|done].
    destruct Hmin. z_bool. destruct (p !! _) as [y|] eqn:Hy; [|done].
    rewrite byte_high_bit in *. z_bool. split_and!; [lia|lia|]. eauto.
Qed.

(** Bytes of a payload, one at a time, for the four possible lengths. *)
Lemma payload_cases (p : bytes) :
  1 <= lenZ p <= 4 ->
  (exists a, p = [a]) \/ (exists a b, p = [a; b]) \/ (exists a b c, p = [a; b; c])
  \/ (exists a b c d, p = [a; b; c; d]).
Proof.
  unfold lenZ. intros Hp.
  destruct p as [|a [|b [|c [|d [|e p]]]]]; cbn [length] in Hp; try lia; eauto 10.
Qed.

(** The shortest encoding of the value of an accepted payload is the payload. *)
Lemma script_num_len_payload p z :
  1 <= lenZ p <= 4 -> last p = Some z -> byte_to_Z z < 128 ->
  ~ (1 < lenZ p /\ byte_to_Z z = 0 /\
     exists y, p !! Z.to_nat (lenZ p - 2) = Some y /\ byte_to_Z y < 128) ->
  script_num_len (from_le_bytes p) = length p /\ 0 <= from_le_bytes p < 2 ^ 31.
Proof.
  intros Hp Hz Hs Hmin. unfold script_num_len.
  destruct (payload_cases p Hp) as [(a&->)|[(a&b&->)|[(a&b&c&->)|(a&b&c&d&->)]]];
    injection Hz as <-; cbn [from_le_bytes length] in *;
    byte_ranges;
    (split; [|lia]); repeat case_if; z_bool; try done; try lia;
    exfalso; apply Hmin; (split; [vm_compute; done|]);
    (split; [lia|]); eexists; (split; [reflexivity|lia]).
Qed.

Lemma bip34_push_accepted h rest :
  0 <= h < 2 ^ 31 -> decode_bip34_height (bip34_push h ++ rest) = Some h.
Proof.
  intros Hh. apply decode_bip34_height_inv. unfold bip34_push.
  set (n := script_num_len h).
  assert (Hn : n = 1%nat /\ h < 2 ^ 7 \/ n = 2%nat /\ 2 ^ 7 <= h < 2 ^ 15 \/
               n = 3%nat /\ 2 ^ 15 <= h < 2 ^ 23 \/ n = 4%nat /\ 2 ^ 23 <= h).
  { subst n. unfold script_num_len. repeat case_if; z_bool; lia. }
  clearbody n. set (p := le_bytes n h).
  assert (Hlen : lenZ p = Z.of_nat n) by (unfold p, lenZ; by rewrite length_le_bytes).
  assert (Hval : from_le_bytes p = h).
  { unfold p. rewrite from_to_le_bytes. apply Z.mod_small.
    destruct Hn as [[-> ?]|[[-> ?]|[[-> ?]|[-> ?]]]]; simpl; lia. }
  destruct (last p) as [z|] eqn:Hz.
  2: { apply last_None in Hz. rewrite Hz in Hlen. unfold lenZ in Hlen. simpl in Hlen. lia. }
  assert (Hp : 1 <= lenZ p <= 4) by lia.
  assert (Hbits : byte_to_Z z < 128 /\
    ~ (1 < lenZ p /\ byte_to_Z z = 0 /\
       exists y, p !! Z.to_nat (lenZ p - 2) = Some y /\ byte_to_Z y < 128)).
  { clearbody p. destruct (payload_cases p Hp) as [(a&->)|[(a&b&->)|[(a&b&c&->)|(a&b&c&d&->)]]];
      injection Hz as <-; cbn [from_le_bytes] in Hval; unfold lenZ in *;
      cbn [length] in *;
      byte_ranges;
      (split; [lia|]); intros (? & ? & y & Hy & ?); try lia;
      injection Hy as <-; lia. }
  exists (Z_to_byte (Z.of_nat n)), p, rest, z.
  split_and!; [done| |lia|lia|done|tauto|tauto|done].
  rewrite byte_to_Z_to_byte, Z.mod_small by lia. lia.
Qed.

(** (BIP-34 heights): the decoder accepts exactly the scripts that begin with the shortest
    direct push of a height below [2^31], and returns that height: encoding any such height and
    decoding gives it back whatever follows, and nothing else decodes. *)
Theorem decode_bip34_height_spec s v :
  decode_bip34_height s = Some v <->
  0 <= v < 2 ^ 31 /\ exists rest, s = bip34_push v ++ rest.
Proof.
  split; [|intros [Hv [rest ->]]; by apply bip34_push_accepted].
  intros (l & p & rest & z & -> & Hl & Hlen & Hz & Hs & Hmin & ->)%decode_bip34_height_inv.
  destruct (script_num_len_payload p z) as [Hn Hv]; try done.
  split; [done|]. exists rest. unfold bip34_push. rewrite Hn, to_from_le_bytes.
  cbn [app]. f_equal. rewrite <-(Z_to_byte_to_Z l), Hl. done.
Qed.

(** The doc comment of the decoder says non-minimal encodings are refused; the script
    [01 00] (a one-byte push of zero, whose minimal form is the empty push) is accepted. *)
Example bip34_one_byte_zero_accepted : decode_bip34_height [x01; x00] = Some 0.
Proof. reflexivity. Qed.

(** ** Coinbase value *)

Definition coinbase_total (tx : Transaction.t) : Z := sumZ (TxOut.value <$> Transaction.output tx).

Lemma checked_total_spec acc outs :
  0 <= acc -> Forall (fun o => 0 <= TxOut.value o) outs ->
  checked_total acc outs =
    let s := acc + sumZ (TxOut.value <$> outs) in
    if s <=? u64_max then Some s else
    match outs with [] => Some acc | _ => None end.
Proof.
  intros Hacc Hpos. revert acc Hacc. unfold checked_add, u64_max.
  induction Hpos as [|o outs Ho Hpos IH]; intros acc Hacc; cbn [checked_total fmap list_fmap].
  { cbn [sumZ foldr]. rewrite Z.add_0_r. by case_if. }
  assert (0 <= sumZ (TxOut.value <$> outs)).
  { apply sumZ_nonneg. by apply Forall_fmap. }
  change (sumZ (TxOut.value o :: (TxOut.value <$> outs)))
    with (TxOut.value o + sumZ (TxOut.value <$> outs)).
  unfold checked_add. change (2 ^ 64 - 1) with 18446744073709551615.
  case_if; z_bool.
  - rewrite IH by lia. cbv zeta. rewrite Z.add_assoc. repeat case_if; try done.
    z_bool. destruct outs; [|done]. cbn [sumZ foldr fmap list_fmap] in *. lia.
  - cbv zeta. case_if; z_bool; [lia|done].
Qed.

Section CoinbaseValue.
Context `{BitcoinLaws}.

Lemma coinbase_values_nonneg raw block cb :
  deserialize_block raw = Some block -> head (Block.txdata block) = Some cb ->
  Forall (fun o => 0 <= TxOut.value o) (Transaction.output cb).
Proof.
  intros Hd Hcb. apply Forall_forall. intros o Ho.
  destruct (Block.txdata block) as [|tx txs] eqn:Ht; [done|]. injection Hcb as ->.
  eapply law_value_u64; [exact Hd|rewrite Ht; apply list_elem_of_here|exact Ho].
Qed.

Lemma re_derive_coinbase_value_eq raw block cb :
  deserialize_block raw = Some block -> head (Block.txdata block) = Some cb ->
  re_derive_coinbase_value raw =
    if coinbase_total cb <=? u64_max then Ok (coinbase_total cb)
    else Err CoinbaseValueExceedsMax.
Proof.
  intros Hd Hcb. unfold re_derive_coinbase_value, parse_block. rewrite Hd. cbn [result_bind].
  unfold first_tx. rewrite Hcb. cbn [ok_or result_bind].
  rewrite checked_total_spec by (lia || by eapply coinbase_values_nonneg).
  cbv zeta. rewrite Z.add_0_l. fold (coinbase_total cb). case_if; [done|].
  unfold coinbase_total in E. destruct (Transaction.output cb); [|done].
  vm_compute in E. discriminate.
Qed.

(** (coinbase value): on bytes that parse to a block with a coinbase, the re-derivation
    returns the exact mathematical sum of the coinbase output values when it fits [u64] and
    reports [CoinbaseValueExceedsMax] otherwise; it never wraps and never saturates. *)
Theorem re_derive_coinbase_value_exact raw block cb :
  deserialize_block raw = Some block -> head (Block.txdata block) = Some cb ->
  re_derive_coinbase_value raw =
    if coinbase_total cb <=? u64_max then Ok (coinbase_total cb)
    else Err CoinbaseValueExceedsMax.
Proof. apply re_derive_coinbase_value_eq. Qed.

End CoinbaseValue.

(** ** Structural checks, as propositions *)

Section Checks.
Context `{BitcoinLib}.
Implicit Types (b : ParsedBlock).

Lemma first_tx_ok b cb : first_tx b = Ok cb <-> head (Block.txdata b) = Some cb.
Proof. apply ok_or_ok. Qed.

Lemma first_input_ok cb i : first_input cb = Ok i <-> head (Transaction.input cb) = Some i.
Proof. apply ok_or_ok. Qed.

Lemma check_merkle_root_internal_ok b :
  check_merkle_root_internal b = Ok tt <->
  compute_merkle_root b = Some (Header.merkle_root (Block.header b)).
Proof.
  unfold check_merkle_root_internal. destruct (compute_merkle_root b) as [r|]; simpl; [|done].
  case_bool_decide; split; congruence.
Qed.

Lemma check_witness_commitment_internal_ok b :
  check_witness_commitment_internal b = Ok tt <->
  exists cb, head (Block.txdata b) = Some cb /\
    (has_witness b = false \/
     exists root, witness_root b = Some root /\
       extract_witness_commitment_from_coinbase cb = Some (witness_commitment root cb)).
Proof.
  unfold check_witness_commitment_internal. rewrite result_bind_ok.
  setoid_rewrite first_tx_ok. apply exist_proper. intros cb.
  apply and_iff_compat_l. destruct (has_witness b).
  - destruct (extract_witness_commitment_from_coinbase cb) as [d|];
      [|split; [done|intros [?|(?&?&?)]; done]].
    destruct (witness_root b) as [r|]; simpl; [|split; [done|intros [?|(?&?&?)]; done]].
    case_bool_decide as E; split; intros Hx; try done.
    + right. exists r. by rewrite <-E.
    + destruct Hx as [?|(r'&[= ->]&[= ?])]; done.
  - split; auto.
Qed.

Lemma bip34_height_ok b h :
  bip34_height b = Ok h <->
  exists cb i, head (Block.txdata b) = Some cb /\ head (Transaction.input cb) = Some i /\
    decode_bip34_height (TxIn.script_sig i) = Some h.
Proof.
  unfold bip34_height. rewrite result_bind_ok. setoid_rewrite result_bind_ok.
  setoid_rewrite first_tx_ok. setoid_rewrite first_input_ok. setoid_rewrite ok_or_ok.
  naive_solver.
Qed.

Lemma check_coinbase_bip34_present_ok b :
  check_coinbase_bip34_present b = Ok tt <-> exists h, bip34_height b = Ok h.
Proof. unfold check_coinbase_bip34_present. rewrite result_bind_ok. naive_solver. Qed.

Lemma check_coinbase_script_length_ok b :
  check_coinbase_script_length b = Ok tt <->
  exists cb i, head (Block.txdata b) = Some cb /\ head (Transaction.input cb) = Some i /\
    2 <= lenZ (TxIn.script_sig i) <= 100.
Proof.
  unfold check_coinbase_script_length. rewrite result_bind_ok. setoid_rewrite result_bind_ok.
  setoid_rewrite first_tx_ok. setoid_rewrite first_input_ok.
  unfold MIN_COINBASE_SCRIPT_LEN, MAX_COINBASE_SCRIPT_LEN. split.
  - intros (cb & Hcb & i & Hi & Hx). case_if; [done|]. z_bool. eauto 10.
  - intros (cb & i & Hcb & Hi & Hx). exists cb. split; [done|]. exists i. split; [done|].
    case_if; [|done]. apply negb_true_iff, andb_false_iff in E as [E|E]; z_bool; lia.
Qed.

Lemma check_coinbase_output_count_ok b :
  check_coinbase_output_count b = Ok tt <->
  exists cb, head (Block.txdata b) = Some cb /\ Transaction.output cb <> [].
Proof.
  unfold check_coinbase_output_count. rewrite result_bind_ok. setoid_rewrite first_tx_ok.
  apply exist_proper. intros cb. apply and_iff_compat_l. by destruct (Transaction.output cb).
Qed.

Lemma check_weight_max_ok b :
  check_weight_max b = Ok tt <-> block_weight b <= MAX_BLOCK_WEIGHT_WU.
Proof. unfold check_weight_max. case_if; z_bool; split; try done; lia. Qed.

Lemma check_header_version_ok b :
  check_header_version b = Ok tt <-> 4 <= Header.version (Block.header b).
Proof.
  unfold check_header_version, HEADER_VERSION_FLOOR. case_if; z_bool; split; try done; lia.
Qed.

Lemma check_non_coinbase_null_prevout_ok b :
  check_non_coinbase_null_prevout b = Ok tt <->
  Forall (fun tx => Forall (fun i => outpoint_is_null (TxIn.previous_output i) = false)
                      (Transaction.input tx)) (drop 1 (Block.txdata b)).
Proof.
  unfold check_non_coinbase_null_prevout.
  transitivity (existsb tx_has_null_prevout (drop 1 (Block.txdata b)) = false).
  { case_if; split; congruence. }
  rewrite existsb_false_Forall. apply Forall_iff. intros tx. apply existsb_false_Forall.
Qed.

Lemma check_coinbase_null_prevout_ok b :
  check_coinbase_null_prevout b = Ok tt <->
  exists cb i rest, Block.txdata b = cb :: rest /\ Transaction.input cb = [i] /\
    outpoint_is_null (TxIn.previous_output i) = true.
Proof.
  unfold check_coinbase_null_prevout. split.
  - destruct (Block.txdata b) as [|cb rest]; [done|].
    destruct (Transaction.input cb) as [|i [|]] eqn:Hi; try done.
    case_if; [done|]. z_bool. eauto 10.
  - intros (cb & i & rest & -> & -> & ->). done.
Qed.

Lemma insert_all_txids_ok seen txs :
  insert_all_txids seen txs = Ok tt <->
  NoDup (compute_txid <$> txs) /\ Forall (fun tx => compute_txid tx ∉ seen) txs.
Proof.
  revert seen. induction txs as [|tx txs IH]; intros seen; cbn [insert_all_txids].
  { split; [|done]. intros _. split; constructor. }
  rewrite fmap_cons, NoDup_cons, Forall_cons. case_bool_decide as E.
  { split; [done|]. intros (_ & ? & _). done. }
  rewrite IH, list_elem_of_fmap. setoid_rewrite Forall_forall. set_solver.
Qed.

End Checks.

(** ** Money range, duplicates, commitment, sigops, coinbase position *)

Lemma money_range_total_spec total outs t :
  0 <= total -> Forall (fun o => 0 <= TxOut.value o) outs ->
  money_range_total total outs = Ok t <->
  Forall (fun o => TxOut.value o <= MAX_MONEY_SATS) outs /\
  t = total + sumZ (TxOut.value <$> outs) /\ (outs = [] \/ t <= u64_max).
Proof.
  intros Ht Hpos. revert total Ht. induction Hpos as [|o outs Ho Hpos IH]; intros total Ht.
  { cbn [money_range_total fmap list_fmap sumZ foldr]. rewrite Z.add_0_r.
    split; [intros [= ->]; auto|intros (_ & -> & _); done]. }
  assert (0 <= sumZ (TxOut.value <$> outs)) by (apply sumZ_nonneg; by apply Forall_fmap).
  cbn [money_range_total]. rewrite Forall_cons, fmap_cons.
  change (sumZ (TxOut.value o :: (TxOut.value <$> outs)))
    with (TxOut.value o + sumZ (TxOut.value <$> outs)).
  case_if; z_bool; [split; [done|lia]|].
  rewrite result_bind_ok. setoid_rewrite ok_or_ok. unfold checked_add, u64_max in *.
  change (2 ^ 64 - 1) with 18446744073709551615. case_if; z_bool.
  - split.
    + intros (t' & [= <-] & Hr%IH); [|lia]. destruct Hr as (? & -> & Hor).
      split_and!; [lia|done|lia|]. right. destruct Hor as [->|?]; [|lia].
      cbn [fmap list_fmap sumZ foldr]. lia.
    + intros ([? ?] & -> & [?|?]); [done|]. eexists. split; [done|].
      apply IH; [lia|]. split_and!; [done|lia|]. right. lia.
  - split; [intros (? & ? & _); done|]. intros (_ & -> & [?|?]); [done|lia].
Qed.

Section Structural.
Context `{BitcoinLaws}.
Implicit Types (b : ParsedBlock).

(** A parsed block passes the coinbase ceiling check exactly when it has a
    coinbase whose outputs are each at most [MAX_MONEY] and whose true total is at most
    [MAX_MONEY]. *)
Lemma check_coinbase_value_max_ok raw b :
  deserialize_block raw = Some b ->
  check_coinbase_value_max b = Ok tt <->
  exists cb, head (Block.txdata b) = Some cb /\
    Forall (fun o => TxOut.value o <= MAX_MONEY_SATS) (Transaction.output cb) /\
    coinbase_total cb <= MAX_MONEY_SATS.
Proof.
  intros Hd. unfold check_coinbase_value_max. rewrite result_bind_ok.
  setoid_rewrite first_tx_ok. apply exist_proper. intros cb. split.
  - intros (Hcb & Hx). split; [done|]. apply result_bind_ok in Hx as (t & Ht & Hx).
    apply money_range_total_spec in Ht as (? & -> & _);
      [|lia|by eapply coinbase_values_nonneg].
    unfold coinbase_total. split; [done|]. case_if; [done|]. z_bool. lia.
  - intros (Hcb & Hall & Htot). split; [done|]. apply result_bind_ok.
    exists (coinbase_total cb). split.
    + apply money_range_total_spec; [lia|by eapply coinbase_values_nonneg|].
      split_and!; [done|done|]. right. unfold MAX_MONEY_SATS, u64_max in *. lia.
    + case_if; [|done]. z_bool. lia.
Qed.

(** The check passes exactly when the transaction ids of the body
    are pairwise distinct. *)
Lemma check_duplicate_tx_ok b :
  check_duplicate_tx b = Ok tt <-> NoDup (compute_txid <$> Block.txdata b).
Proof.
  unfold check_duplicate_tx. rewrite insert_all_txids_ok. split; [tauto|].
  intros Hx. split; [done|]. apply Forall_forall. set_solver.
Qed.

(** The unbounded legacy sigop count of a list of transactions. *)
Definition tx_sigops (tx : Transaction.t) : Z :=
  sumZ ((fun i => count_sigops_legacy (TxIn.script_sig i)) <$> Transaction.input tx)
  + sumZ ((fun o => count_sigops_legacy (TxOut.script_pubkey o)) <$> Transaction.output tx).
Definition sigops_of (txs : list Transaction.t) : Z := sumZ (tx_sigops <$> txs).

Lemma foldl_saturating_add {A} (f : A -> Z) l t :
  0 <= t -> (forall x, 0 <= f x) ->
  foldl (fun t x => saturating_add 64 t (f x)) (Z.min t (2 ^ 64 - 1)) l
  = Z.min (t + sumZ (f <$> l)) (2 ^ 64 - 1).
Proof.
  intros Ht Hf. revert t Ht. induction l as [|x l IH]; intros t Ht.
  { cbn [foldl fmap list_fmap sumZ foldr]. by rewrite Z.add_0_r. }
  cbn [foldl fmap list_fmap]. specialize (Hf x) as Hx.
  replace (saturating_add 64 (Z.min t (2 ^ 64 - 1)) (f x))
    with (Z.min (t + f x) (2 ^ 64 - 1)) by (unfold saturating_add; lia).
  rewrite IH by lia. f_equal. change (sumZ (f x :: (f <$> l))) with (f x + sumZ (f <$> l)). lia.
Qed.

Lemma tx_sigops_nonneg tx : 0 <= tx_sigops tx.
Proof.
  unfold tx_sigops. apply Z.add_nonneg_nonneg; apply sumZ_nonneg, Forall_fmap, Forall_forall;
    intros; apply law_sigops_nonneg.
Qed.

Lemma foldl_add_tx_sigops txs t :
  0 <= t -> foldl add_tx_sigops (Z.min t (2 ^ 64 - 1)) txs
            = Z.min (t + sigops_of txs) (2 ^ 64 - 1).
Proof.
  unfold sigops_of. revert t. induction txs as [|tx txs IH]; intros t Ht.
  { cbn [foldl fmap list_fmap sumZ foldr]. by rewrite Z.add_0_r. }
  cbn [foldl fmap list_fmap]. pose proof (tx_sigops_nonneg tx) as Htx.
  replace (add_tx_sigops (Z.min t (2 ^ 64 - 1)) tx) with (Z.min (t + tx_sigops tx) (2 ^ 64 - 1)).
  - rewrite IH by lia. f_equal.
    change (sumZ (tx_sigops tx :: (tx_sigops <$> txs))) with (tx_sigops tx + sumZ (tx_sigops <$> txs)).
    lia.
  - unfold add_tx_sigops.
    rewrite (foldl_saturating_add (fun i => count_sigops_legacy (TxIn.script_sig i)))
      by (lia || intros; apply law_sigops_nonneg).
    rewrite (foldl_saturating_add (fun o => count_sigops_legacy (TxOut.script_pubkey o))).
    + unfold tx_sigops. f_equal. lia.
    + apply Z.add_nonneg_nonneg; [done|]. apply sumZ_nonneg, Forall_fmap, Forall_forall.
      intros; apply law_sigops_nonneg.
    + intros; apply law_sigops_nonneg.
Qed.

Lemma sigops_of_nonneg txs : 0 <= sigops_of txs.
Proof. apply sumZ_nonneg, Forall_fmap, Forall_forall. intros. apply tx_sigops_nonneg. Qed.

(** The accumulated count is the true count clamped to [u32::MAX]. *)
Lemma sum_legacy_sigops_spec txs : sum_legacy_sigops txs = Z.min (sigops_of txs) u32_max.
Proof.
  unfold sum_legacy_sigops. rewrite clamp_u_min.
  change 0 with (Z.min 0 (2 ^ 64 - 1)) at 1. rewrite foldl_add_tx_sigops by lia.
  unfold u32_max. pose proof (sigops_of_nonneg txs). lia.
Qed.

(** (sigop inclusion sets): the whole-block count is the saturated sum of the coinbase count
    and the non-coinbase count, the two sets cover the block without overlap, and below
    saturation the three figures add up exactly. *)
Theorem sigops_partition b :
  total_sigops b = Z.min (coinbase_sigops b + non_coinbase_sigops b) u32_max /\
  (total_sigops b < u32_max ->
   total_sigops b = coinbase_sigops b + non_coinbase_sigops b /\
   total_sigops b = sigops_of (Block.txdata b)).
Proof.
  unfold total_sigops, coinbase_sigops, non_coinbase_sigops. rewrite !sum_legacy_sigops_spec.
  assert (sigops_of (Block.txdata b) =
    sigops_of (take 1 (Block.txdata b)) + sigops_of (drop 1 (Block.txdata b))) as Hs.
  { unfold sigops_of. by rewrite <-sumZ_app, <-fmap_app, take_drop. }
  pose proof (sigops_of_nonneg (take 1 (Block.txdata b))).
  pose proof (sigops_of_nonneg (drop 1 (Block.txdata b))).
  unfold u32_max in *. lia.
Qed.

Lemma check_sigops_max_ok b :
  check_sigops_max b = Ok tt <-> 4 * sigops_of (Block.txdata b) <= MAX_BLOCK_SIGOPS_COST.
Proof.
  unfold check_sigops_max, total_sigops, saturating_mul, MAX_BLOCK_SIGOPS_COST,
    WITNESS_SCALE_FACTOR. rewrite sum_legacy_sigops_spec. unfold u32_max.
  pose proof (sigops_of_nonneg (Block.txdata b)). case_if; z_bool; split; try done; lia.
Qed.

End Structural.

(** ** Witness commitment extraction and template assembly *)

Lemma first_commitment_spec outs c :
  first_commitment outs = Some c <->
  exists pre o post, outs = pre ++ o :: post /\
    commitment_of_script (TxOut.script_pubkey o) = Some c /\
    Forall (fun o' => commitment_of_script (TxOut.script_pubkey o') = None) pre.
Proof.
  induction outs as [|o outs IH]; cbn [first_commitment].
  { split; [done|]. intros (pre & ? & ? & Hx & _). by destruct pre. }
  destruct (commitment_of_script (TxOut.script_pubkey o)) as [d|] eqn:Hd.
  - split.
    + intros [= <-]. exists [], o, outs. auto.
    + intros ([|o' pre] & o'' & post & Hx & Hc & Hpre); injection Hx as -> ->; [congruence|].
      apply Forall_cons in Hpre as [? _]. congruence.
  - rewrite IH. split.
    + intros (pre & o' & post & -> & ? & ?). exists (o :: pre), o', post. auto.
    + intros ([|o' pre] & o'' & post & Hx & Hc & Hpre); injection Hx as -> ->; [congruence|].
      apply Forall_cons in Hpre as [? ?]. eauto 10.
Qed.

(** (BIP-141 commitment position): the commitment the shield reads is the one of the LAST
    coinbase output whose script has the commitment shape; earlier matching outputs do not
    count, and no commitment is reported exactly when no output matches. *)
Theorem extract_witness_commitment_last cb :
  (forall c, extract_witness_commitment_from_coinbase cb = Some c <->
     exists pre o post, Transaction.output cb = pre ++ o :: post /\
       commitment_of_script (TxOut.script_pubkey o) = Some c /\
       Forall (fun o' => commitment_of_script (TxOut.script_pubkey o') = None) post) /\
  (extract_witness_commitment_from_coinbase cb = None <->
   Forall (fun o => commitment_of_script (TxOut.script_pubkey o) = None) (Transaction.output cb)).
Proof.
  unfold extract_witness_commitment_from_coinbase. split.
  - intros c. rewrite first_commitment_spec. split.
    + intros (pre & o & post & Hx & Hc & Hpre). exists (reverse post), o, (reverse pre).
      split_and!; [|done|by apply Forall_reverse].
      rewrite <-(reverse_involutive (Transaction.output cb)), Hx.
      by rewrite reverse_app, reverse_cons, <-app_assoc.
    + intros (pre & o & post & -> & Hc & Hpost). exists (reverse post), o, (reverse pre).
      split_and!; [|done|by apply Forall_reverse].
      by rewrite reverse_app, reverse_cons, <-app_assoc.
  - rewrite <-Forall_reverse. generalize (reverse (Transaction.output cb)). intros outs.
    induction outs as [|o outs IH]; cbn [first_commitment]; [by split; constructor|].
    rewrite Forall_cons. destruct (commitment_of_script _); [|tauto].
    split; [done|intros [? _]; done].
Qed.

(** A matching script is at least 38 bytes and its commitment is 32 bytes. *)
Lemma commitment_of_script_length s c : commitment_of_script s = Some c -> length c = 32%nat.
Proof.
  unfold commitment_of_script. case_if; [|done]. intros [= <-]. z_bool.
  rewrite length_take, length_drop. unfold lenZ in *. lia.
Qed.

Section Assembly.
Context `{BitcoinLaws}.

Lemma attach_reserved_witness_output cb cb' :
  attach_reserved_witness cb = Ok cb' ->
  Transaction.output cb' = Transaction.output cb /\ tx_has_witness cb' = true.
Proof.
  unfold attach_reserved_witness. destruct (Transaction.input cb) as [|i rest]; [done|].
  intros [= <-]. done.
Qed.

(** (template assembly): a block assembled from parts whose coinbase is in legacy form
    carries the given header fields with a zero nonce, passes the header merkle-root check the
    shield runs on it, keeps the template transactions in order after the coinbase, and is
    never one the shield refuses for a missing witness commitment. *)
Theorem assemble_block_passes_shield parts b :
  assemble_block parts = Ok b ->
  (forall cb, deserialize_tx (tbp_coinbase_legacy parts) = Some cb -> tx_has_witness cb = false) ->
  check_merkle_root_internal b = Ok tt /\
  check_witness_commitment_internal b <> Err WitnessCommitmentMissing /\
  Header.version (Block.header b) = tbp_version parts /\
  Header.prev_blockhash (Block.header b) = tbp_prev_hash parts /\
  Header.time (Block.header b) = tbp_time parts /\
  Header.bits (Block.header b) = tbp_bits parts /\
  Header.nonce (Block.header b) = 0 /\
  exists cb txs, deserialize_all (tbp_txs_raw parts) = Ok txs /\ Block.txdata b = cb :: txs.
Proof.
  intros Ha Hleg. unfold assemble_block in Ha.
  apply result_bind_ok in Ha as (cb0 & Hcb0%ok_or_ok & Ha).
  apply result_bind_ok in Ha as (txs & Htxs & Ha). specialize (Hleg cb0 Hcb0).
  case_if; [done|]. apply result_bind_ok in Ha as (cb1 & Hcb1 & Ha).
  apply result_bind_ok in Ha as (root & Hroot%ok_or_ok & Ha). injection Ha as <-.
  split_and!; try done.
  - apply check_merkle_root_internal_ok. cbn [Block.header Header.merkle_root].
    rewrite <-Hroot. by apply law_merkle_body.
  - unfold check_witness_commitment_internal, first_tx.
    cbn [Block.txdata head ok_or result_bind].
    destruct (extract_witness_commitment_from_coinbase cb1) eqn:Hext.
    { destruct (has_witness _); [|done].
      destruct (witness_root _); cbn [ok_or result_bind]; [case_bool_decide|]; congruence. }
    destruct (has_witness _) eqn:Hw; [|done]. exfalso.
    unfold has_witness in Hw. cbn [Block.txdata existsb] in Hw.
    destruct (extract_witness_commitment_from_coinbase cb0) eqn:Hext0.
    + apply attach_reserved_witness_output in Hcb1 as [Ho _].
      unfold extract_witness_commitment_from_coinbase in *. congruence.
    + injection Hcb1 as ->. rewrite Hleg in Hw. cbn [orb] in Hw.
      rewrite Hw in E. done.
  - eauto.
Qed.

End Assembly.

(** ** A concrete instance

    A small stand-in for the parser, for which the laws hold: enough to run the definitions on
    concrete blocks. *)
Module Sample.

Definition null_outpoint : OutPoint.t := OutPoint.mk zero32 u32_max.
Definition commitment_script : bytes := [x6a; x24] ++ COMMITMENT_MAGIC ++ replicate 32 x07.

Definition coinbase : Transaction.t :=
  Transaction.mk 2 0 [TxIn.mk null_outpoint (bip34_push 840000) 0 []]
    [TxOut.mk 312500000 [xac]; TxOut.mk 0 commitment_script].
Definition spend : Transaction.t :=
  Transaction.mk 2 7 [TxIn.mk (OutPoint.mk (replicate 32 x05) 1) [] 0 [[x01; x02]]]
    [TxOut.mk 40 [x76; xac]].
Definition block : Block.t :=
  Block.mk (Header.mk 536870912 (replicate 32 x03) (replicate 32 x01) 1700000000 386089497 0)
    [coinbase; spend].

Definition lib : BitcoinLib := {|
  deserialize_block raw := match raw with [x01] => Some block | _ => None end;
  deserialize_tx raw :=
    match raw with [x0a] => Some coinbase | [x0b] => Some spend | _ => None end;
  serialize_block _ := [x01];
  block_weight _ := 1200;
  tx_weight _ := 400;
  compute_merkle_root b :=
    match Block.txdata b with [] => None | _ => Some (replicate 32 x01) end;
  witness_root b := match Block.txdata b with [] => None | _ => Some (replicate 32 x02) end;
  compute_txid tx := le_bytes 32 (Transaction.lock_time tx);
  count_sigops_legacy s := lenZ (filter (fun x => x = xac) s);
  outpoint_is_null o :=
    bool_decide (OutPoint.txid o = zero32) && (OutPoint.vout o =? u32_max);
  sha256d_hash _ := replicate 32 x07
|}.

Lemma bitcoin_laws : @BitcoinLaws lib.
Proof.
  split; cbn.
  - intros raw b tx o Hb. destruct raw as [|[] []]; try done. injection Hb as <-.
    cbn [Block.txdata block]. rewrite !elem_of_cons, elem_of_nil.
    intros [->|[->|[]]]; cbn [Transaction.output coinbase spend]; rewrite ?elem_of_cons, ?elem_of_nil;
      intros Ho; destruct_or? Ho; try done; subst; unfold in_u; cbn; lia.
  - intros b b' ->. done.
  - intros b Hb. destruct (Block.txdata b); [done|]. by eexists.
  - intros s. apply lenZ_nonneg.
Qed.

Definition parts : TemplateBlockParts :=
  mkParts 536870912 (replicate 32 x03) 1700000000 386089497 [x0a] [[x0b]].

Lemma re_derive_coinbase_value_witness :
  @re_derive_coinbase_value lib [x01] = Ok 312500000.
Proof.
  exact (@re_derive_coinbase_value_exact lib bitcoin_laws [x01] block coinbase eq_refl eq_refl).
Defined.

Lemma sigops_partition_witness :
  @total_sigops lib block = 2 /\ 2 = @coinbase_sigops lib block + @non_coinbase_sigops lib block.
Proof.
  split; [reflexivity|].
  apply (proj2 (@sigops_partition lib bitcoin_laws block)). vm_compute. reflexivity.
Defined.

Lemma assemble_block_witness :
  exists b, @assemble_block lib parts = Ok b /\ @check_merkle_root_internal lib b = Ok tt.
Proof.
  eexists. split; [reflexivity|].
  apply (@assemble_block_passes_shield lib bitcoin_laws parts); [reflexivity|].
  intros cb [= <-]. reflexivity.
Defined.

End Sample.
