(* ===== verification/Mempool.v ===== *)
(** * The verifier's mempool view and the second-chance lookup

    Models [services/pool-verifier/src/mempool_view.rs] (the served view, its fail-stale state
    machine and the Class M evaluation) and [services/pool-verifier/src/second_chance.rs] (the
    adjudication of a Class M rejection against what bitcoind answers). Clocks are arguments.
    The bitcoind client is a record of responses: what the node answers is an input. *)

From stdpp Require Import pretty.
From S2P Require Import Prelude Crates Float64.

Abbreviation txid_t := bytes.

(** ** mempool_view.rs *)

Inductive MempoolState : Type := Fresh | Stale | Degraded | Unprimed.

#[global] Instance MempoolState_eq_dec : EqDecision MempoolState.
Proof. solve_decision. Defined.

Definition MIN_INSTALLABLE_MEMPOOL_SIZE : Z := 1.

Module MempoolSnapshot.
Record t : Type := mk {
  state : MempoolState;
  txids : gset txid_t;
  age_secs : Z;
  size : Z
}.
End MempoolSnapshot.

(** [MempoolView] and [MempoolViewInner]. *)
Module MempoolView.
Record t : Type := mk {
  txids : gset txid_t;
  last_refresh_unix_ms : option Z;
  max_stale_secs : Z;
  primed : bool;
  empty_responses : Z
}.

Definition new (max_stale_secs : Z) : t := mk ∅ None max_stale_secs false 0.

Definition len (s : gset txid_t) : Z := Z.of_nat (size s).

Definition snapshot (now_ms : Z) (v : t) : MempoolSnapshot.t :=
  let '(state, age_secs) :=
    match last_refresh_unix_ms v with
    | Some last =>
        if primed v then
          let age_ms := saturating_sub now_ms last in
          let age_secs := age_ms / 1000 in
          if age_secs >? saturating_mul 64 (max_stale_secs v) 2 then (Degraded, age_secs)
          else if age_secs >? max_stale_secs v then (Stale, age_secs)
          else (Fresh, age_secs)
        else (Unprimed, 0)
    | None => (Unprimed, 0)
    end in
  MempoolSnapshot.mk state (txids v) age_secs (len (txids v)).

(** The new view and whether the set was installed. *)
Definition install_at (v : t) (set : gset txid_t) (unix_ms : Z) : t * bool :=
  if len set <? MIN_INSTALLABLE_MEMPOOL_SIZE then
    (mk (txids v) (last_refresh_unix_ms v) (max_stale_secs v) (primed v)
       (wrapping_add 64 (empty_responses v) 1), false)
  else
    (mk set (Some unix_ms) (max_stale_secs v) true (empty_responses v), true).

(** One turn of the polling loop: the response of [getrawmempool] at time [now_ms]. *)
Definition poll_once {E} (v : t) (response : result (list txid_t) E) (now_ms : Z) : t :=
  match response with
  | Ok ids => (install_at v (list_to_set ids) now_ms).1
  | Err _ => v
  end.

(** A run of the polling task, oldest response first. *)
Definition poll_all {E} (v : t) (rs : list (result (list txid_t) E * Z)) : t :=
  foldl (fun v r => poll_once v r.1 r.2) v rs.
End MempoolView.

Inductive MempoolCheckOutcome : Type :=
| MempoolAgreed (unknown_count total : Z)
| ToleranceExceeded (unknown : list txid_t) (total : Z)
| MempoolStale (age_secs : Z)
| MempoolSkipped.

Definition SAMPLE_UNKNOWN_CAP : nat := 10.

(** ** second_chance.rs: the threshold *)

Definition exceeds_tolerance (unknown_count total : Z) (tolerance_pct : f64) : bool :=
  if total =? 0 then false
  else
    let ratio_pct :=
      f64_mul (f64_div (f64_of_Z unknown_count) (f64_of_Z total)) (f64_of_Z 100) in
    f64_gt ratio_pct tolerance_pct.

(** [mempool_view::evaluate]. *)
Definition mempool_evaluate (snapshot : MempoolSnapshot.t) (template_txids : list txid_t)
    (tolerance_pct : f64) : MempoolCheckOutcome :=
  match MempoolSnapshot.state snapshot with
  | Degraded | Unprimed => MempoolSkipped
  | Stale | Fresh =>
      let total := clamp_u 32 (lenZ template_txids) in
      if total =? 0 then
        match MempoolSnapshot.state snapshot with
        | Stale => MempoolStale (MempoolSnapshot.age_secs snapshot)
        | _ => MempoolAgreed 0 0
        end
      else
        let unknown := filter (fun t => t ∉ MempoolSnapshot.txids snapshot) template_txids in
        let unknown_count := clamp_u 32 (lenZ unknown) in
        if exceeds_tolerance unknown_count total tolerance_pct
        then ToleranceExceeded unknown total
        else
          match MempoolSnapshot.state snapshot with
          | Stale => MempoolStale (MempoolSnapshot.age_secs snapshot)
          | _ => MempoolAgreed unknown_count total
          end
  end.

(** ** second_chance.rs: the lookup *)

Definition MAX_RECENT_BLOCKS_SCANNED : Z := 6.
Definition MEMPOOL_PROBE_CHUNK : nat := 250.
Definition ABSENT_SAMPLE_CAP : nat := 32.
(** [{SECOND_CHANCE_DEADLINE:?}], the [Debug] form of the deadline. *)
Definition SECOND_CHANCE_DEADLINE_debug : string := "2s".

Inductive WalkCoverage : Type :=
| Complete (txids : gset txid_t) (blocks_scanned : Z) (tip_height : option Z)
| Truncated (txids : gset txid_t) (blocks_scanned : Z) (tip_height : option Z)
| Failed (txids : gset txid_t) (blocks_scanned : Z) (tip_height : option Z) (error : string).

Definition is_complete (c : WalkCoverage) : bool :=
  match c with Complete _ _ _ => true | _ => false end.

Definition shortfall (c : WalkCoverage) : option string :=
  match c with
  | Complete _ _ _ => None
  | Truncated _ blocks_scanned _ =>
      Some ("block walk hit the " +:+ pretty MAX_RECENT_BLOCKS_SCANNED +:+ "-block cap after "
            +:+ pretty blocks_scanned
            +:+ " blocks with more still owed; the mined count is a floor")%string
  | Failed _ _ _ error => Some ("block walk failed after " +:+ error)%string
  end.

Definition walk_parts (c : WalkCoverage) : gset txid_t * Z * option Z * bool :=
  match c with
  | Complete t b h => (t, b, h, false)
  | Truncated t b h => (t, b, h, true)
  | Failed t b h _ => (t, b, h, false)
  end.

Module BitcoindAnswer.
Record t : Type := mk {
  present_in_mempool : gset txid_t;
  unadjudicated : gset txid_t;
  recent_block_txids : gset txid_t;
  blocks_scanned : Z;
  block_walk_truncated : bool;
  tip_height : option Z;
  block_walk_shortfall : option string
}.
End BitcoindAnswer.

Inductive TxAdjudication : Type := InMempool | Mined | Unadjudicated | Absent.

#[global] Instance TxAdjudication_eq_dec : EqDecision TxAdjudication.
Proof. solve_decision. Defined.

Module Adjudication.
Record t : Type := mk {
  total : Z;
  unknown_before : Z;
  in_mempool : Z;
  mined : Z;
  still_absent : Z;
  unadjudicated : Z;
  still_absent_sample : list txid_t;
  blocks_scanned : Z;
  block_walk_truncated : bool;
  tip_height : option Z;
  block_walk_shortfall : option string
}.

Definition not_proven_known (a : t) : Z := saturating_add 32 (still_absent a) (unadjudicated a).

Definition still_exceeds (a : t) (tolerance_pct : f64) : bool :=
  exceeds_tolerance (not_proven_known a) (total a) tolerance_pct.
End Adjudication.

(** Mempool membership first, then the walked blocks, then the unusable probes. *)
Definition classify (txid : txid_t) (answer : BitcoindAnswer.t) : TxAdjudication :=
  if bool_decide (txid ∈ BitcoindAnswer.present_in_mempool answer) then InMempool
  else if bool_decide (txid ∈ BitcoindAnswer.recent_block_txids answer) then Mined
  else if bool_decide (txid ∈ BitcoindAnswer.unadjudicated answer) then Unadjudicated
  else Absent.

(** The counters of the loop of [adjudicate]: in mempool, mined, unadjudicated, absent, and the
    bounded sample of absent ids. *)
Record tally : Type := mkTally {
  t_in_mempool : Z; t_mined : Z; t_unadjudicated : Z; t_absent : Z; t_sample : list txid_t }.

Definition adjudicate_step (answer : BitcoindAnswer.t) (a : tally) (txid : txid_t) : tally :=
  match classify txid answer with
  | InMempool => mkTally (saturating_add 32 (t_in_mempool a) 1) (t_mined a) (t_unadjudicated a)
                   (t_absent a) (t_sample a)
  | Mined => mkTally (t_in_mempool a) (saturating_add 32 (t_mined a) 1) (t_unadjudicated a)
               (t_absent a) (t_sample a)
  | Unadjudicated => mkTally (t_in_mempool a) (t_mined a)
                       (saturating_add 32 (t_unadjudicated a) 1) (t_absent a) (t_sample a)
  | Absent => mkTally (t_in_mempool a) (t_mined a) (t_unadjudicated a)
                (saturating_add 32 (t_absent a) 1)
                (if (length (t_sample a) <? ABSENT_SAMPLE_CAP)%nat
                 then t_sample a ++ [txid] else t_sample a)
  end.

Definition adjudicate (total : Z) (unknown : list txid_t) (answer : BitcoindAnswer.t)
    : Adjudication.t :=
  let a := foldl (adjudicate_step answer) (mkTally 0 0 0 0 []) unknown in
  Adjudication.mk total (clamp_u 32 (lenZ unknown)) (t_in_mempool a) (t_mined a) (t_absent a)
    (t_unadjudicated a) (t_sample a) (BitcoindAnswer.blocks_scanned answer)
    (BitcoindAnswer.block_walk_truncated answer) (BitcoindAnswer.tip_height answer)
    (BitcoindAnswer.block_walk_shortfall answer).

Inductive MempoolProbe : Type :=
| Present
| ProbeAbsent
| ProbeUnadjudicated (reason : string).

Module MempoolInfo.
Record t : Type := mk { size : Z; loaded : bool }.
End MempoolInfo.

Module BlockTxids.
Record t : Type := mk {
  height : Z;
  txids : list txid_t;
  previous_block_hash : option string
}.
End BlockTxids.

(** The four calls [SecondChance] makes on its [BitcoindClient], as responses, together with
    the [Display] of the client's error type and the iteration order of a [HashSet]. *)
Class BitcoindClient : Type := {
  RpcError : Type;
  rpc_error_to_string : RpcError -> string;
  get_mempool_info : result MempoolInfo.t RpcError;
  get_best_block_hash : result string RpcError;
  get_block_txids : string -> result BlockTxids.t RpcError;
  probe_mempool : list txid_t -> result (list MempoolProbe) RpcError;
  set_iter : gset txid_t -> list txid_t
}.

Section Lookup.
Context `{BitcoindClient}.

Inductive SecondChanceError : Type :=
| Rpc (e : RpcError)
| Deadline
| MempoolLoading
| EmptyMempool
| BlockWalkIncomplete (detail : string)
| MempoolProbeIncomplete (detail : string).

Definition SecondChanceError_as_label (e : SecondChanceError) : string :=
  match e with
  | Rpc _ => "rpc_error"
  | Deadline => "deadline"
  | MempoolLoading => "mempool_loading"
  | EmptyMempool => "empty_mempool"
  | BlockWalkIncomplete _ => "block_walk_incomplete"
  | MempoolProbeIncomplete _ => "mempool_probe_incomplete"
  end%string.

(** The double-quote character, for messages that quote. *)
Definition dquote : string := String.String (Ascii.ascii_of_nat 34) String.EmptyString.

(** The [Display] of the error. *)
Definition SecondChanceError_to_string (e : SecondChanceError) : string :=
  match e with
  | Rpc e => "second-chance lookup failed: " +:+ rpc_error_to_string e
  | Deadline => "second-chance lookup exceeded its " +:+ SECOND_CHANCE_DEADLINE_debug +:+ " deadline"
  | MempoolLoading =>
      "bitcoind is still loading its mempool (getmempoolinfo reported loaded=false), so "
      +:+ dquote +:+ "not in mempool" +:+ dquote +:+ " cannot be trusted as absence"
  | EmptyMempool =>
      "getmempoolinfo reported the mempool is empty, which cannot establish that any transaction is absent"
  | BlockWalkIncomplete d =>
      "block walk incomplete, so the mined case could not be ruled out: " +:+ d
  | MempoolProbeIncomplete d =>
      "mempool probe incomplete, so absence could not be established: " +:+ d
  end%string.

(** The loop of [recent_blocks]. [None] is running out of fuel, which [recent_blocks_total]
    shows does not happen. *)
Fixpoint walk (fuel : nat) (template_height : Z) (hash : string) (collected : gset txid_t)
    (scanned : Z) (tip_height : option Z) : option WalkCoverage :=
  match fuel with
  | O => None
  | S fuel =>
      match get_block_txids hash with
      | Err e => Some (Failed collected scanned tip_height (rpc_error_to_string e))
      | Ok block =>
          let height := BlockTxids.height block in
          let tip_height :=
            match tip_height with None => Some height | Some _ => tip_height end in
          if height <? template_height then Some (Complete collected scanned tip_height)
          else
            let collected := collected ∪ list_to_set (BlockTxids.txids block) in
            let scanned := saturating_add 32 scanned 1 in
            if height =? template_height then Some (Complete collected scanned tip_height)
            else
              match BlockTxids.previous_block_hash block with
              | None => Some (Complete collected scanned tip_height)
              | Some prev =>
                  if scanned >=? MAX_RECENT_BLOCKS_SCANNED
                  then Some (Truncated collected scanned tip_height)
                  else walk fuel template_height prev collected scanned tip_height
              end
      end
  end.

Definition recent_blocks (template_height : Z) : option WalkCoverage :=
  match get_best_block_hash with
  | Err e => Some (Failed ∅ 0 None (rpc_error_to_string e))
  | Ok hash => walk 6 template_height hash ∅ 0 None
  end.

(** One chunk of the probe loop. *)
Definition absorb_probe (acc : gset txid_t * gset txid_t) (p : txid_t * MempoolProbe)
    : gset txid_t * gset txid_t :=
  match p.2 with
  | Present => ({[p.1]} ∪ acc.1, acc.2)
  | ProbeAbsent => acc
  | ProbeUnadjudicated _ => (acc.1, {[p.1]} ∪ acc.2)
  end.

Fixpoint probe_chunks (cs : list (list txid_t)) (acc : gset txid_t * gset txid_t)
    : result (gset txid_t * gset txid_t) SecondChanceError :=
  match cs with
  | [] => Ok acc
  | c :: cs =>
      let? probes := map_err Rpc (probe_mempool c) in
      probe_chunks cs (foldl absorb_probe acc (zip c probes))
  end.

Definition gather (template_height : Z) (unknown : list txid_t)
    : result BitcoindAnswer.t SecondChanceError :=
  let? info := map_err Rpc get_mempool_info in
  if negb (MempoolInfo.loaded info) then Err MempoolLoading
  else if MempoolInfo.size info <? MIN_INSTALLABLE_MEMPOOL_SIZE then Err EmptyMempool
  else
    let coverage := match recent_blocks template_height with
                    | Some c => c | None => Complete ∅ 0 None end in
    let block_walk_shortfall := shortfall coverage in
    let '(recent_block_txids, blocks_scanned, tip_height, block_walk_truncated) :=
      walk_parts coverage in
    let to_probe := set_iter (list_to_set
      (filter (fun t => t ∉ recent_block_txids) unknown)) in
    let? found := probe_chunks (chunks MEMPOOL_PROBE_CHUNK to_probe) (∅, ∅) in
    Ok (BitcoindAnswer.mk found.1 found.2 recent_block_txids blocks_scanned
          block_walk_truncated tip_height block_walk_shortfall).

(** [ask]: [gather] under the deadline; [timed_out] is whether the timer fired first. *)
Definition ask (timed_out : bool) (template_height : Z) (unknown : list txid_t)
    : result BitcoindAnswer.t SecondChanceError :=
  if timed_out then Err Deadline else gather template_height unknown.

End Lookup.

Inductive SecondChanceOutcome : Type :=
| Withdrawn (a : Adjudication.t)
| Upheld (a : Adjudication.t)
| LookupFailed (total unknown_before : Z) (reason kind : string) (unadjudicated : Z).

Definition SecondChanceOutcome_as_label (o : SecondChanceOutcome) : string :=
  match o with
  | Withdrawn _ => "withdrawn"
  | Upheld _ => "upheld"
  | LookupFailed _ _ _ _ _ => "lookup_failed"
  end%string.

Module MempoolAdjudicationRecord.
Record t : Type := mk {
  outcome : string;
  total : Z;
  unknown_before : Z;
  in_mempool : Z;
  mined : Z;
  still_absent : Z;
  unadjudicated : Z;
  blocks_scanned : Z;
  block_walk_truncated : bool;
  tip_height : option Z;
  block_walk_shortfall : option string;
  still_absent_sample : list string;
  lookup_error : option string;
  lookup_error_kind : option string
}.

(** [From<&SecondChanceOutcome>]: the durable record of what the lookup did. *)
Definition from_outcome `{HexCrate} (o : SecondChanceOutcome) : t :=
  let label := SecondChanceOutcome_as_label o in
  match o with
  | Withdrawn adj | Upheld adj =>
      mk label (Adjudication.total adj) (Adjudication.unknown_before adj)
        (Adjudication.in_mempool adj) (Adjudication.mined adj) (Adjudication.still_absent adj)
        (Adjudication.unadjudicated adj) (Adjudication.blocks_scanned adj)
        (Adjudication.block_walk_truncated adj) (Adjudication.tip_height adj)
        (Adjudication.block_walk_shortfall adj)
        ((fun t => hex_encode (reverse t)) <$> Adjudication.still_absent_sample adj)
        None None
  | LookupFailed total unknown_before reason kind unadjudicated =>
      mk label total unknown_before 0 0 0 unadjudicated 0 false None None []
        (Some reason) (Some kind)
  end.
End MempoolAdjudicationRecord.

(** * Properties *)

(** ** The served view *)

(** What holds of every view the polling task can produce: it is primed exactly when a refresh
    time is recorded, and a primed view serves at least one transaction. *)
Definition view_ok (v : MempoolView.t) : Prop :=
  (MempoolView.primed v = true <-> is_Some (MempoolView.last_refresh_unix_ms v)) /\
  (MempoolView.primed v = true -> MempoolView.txids v <> ∅) /\
  (MempoolView.primed v = false -> MempoolView.txids v = ∅).

Lemma view_ok_new m : view_ok (MempoolView.new m).
Proof. split_and!; try done. split; [done|]. intros [? ?]. done. Qed.

Lemma view_ok_install v s t : view_ok v -> view_ok (MempoolView.install_at v s t).1.
Proof.
  intros Hv. unfold MempoolView.install_at, MempoolView.len, MIN_INSTALLABLE_MEMPOOL_SIZE.
  case_if; z_bool; [exact Hv|]. split_and!; try done; cbn.
  intros _ Hs. rewrite Hs, size_empty in E. lia.
Qed.

Lemma view_ok_poll_all {E} v (rs : list (result (list txid_t) E * Z)) :
  view_ok v -> view_ok (MempoolView.poll_all v rs).
Proof.
  revert v. induction rs as [|[[ids|e] t] rs IH]; intros v Hv; [done| |];
    apply IH; cbn; [by apply view_ok_install|done].
Qed.

Lemma max_stale_poll_all {E} v (rs : list (result (list txid_t) E * Z)) :
  MempoolView.max_stale_secs (MempoolView.poll_all v rs) = MempoolView.max_stale_secs v.
Proof.
  revert v. induction rs as [|[[ids|e] t] rs IH]; intros v; [done| |]; cbn; [|apply IH].
  etrans; [apply IH|]. unfold MempoolView.install_at. by case_if.
Qed.

(** (served view): however long the polling task runs and whatever bitcoind answers, a
    snapshot that is not [Unprimed] serves a non-empty transaction set, was refreshed by a
    non-empty response, and its state is the documented function of its age: at most
    [max_stale_secs] is [Fresh], past twice that is [Degraded], between is [Stale]. *)
Theorem mempool_view_state_machine {E} m now (rs : list (result (list txid_t) E * Z)) :
  in_u 64 m ->
  let v := MempoolView.poll_all (MempoolView.new m) rs in
  let s := MempoolView.snapshot now v in
  (MempoolSnapshot.state s = Unprimed <-> MempoolView.primed v = false) /\
  (MempoolSnapshot.state s <> Unprimed -> MempoolSnapshot.txids s <> ∅) /\
  forall last, MempoolView.last_refresh_unix_ms v = Some last ->
    let age := saturating_sub now last / 1000 in
    MempoolSnapshot.age_secs s = age /\
    (MempoolSnapshot.state s = Fresh <-> age <= m) /\
    (MempoolSnapshot.state s = Stale <-> m < age <= saturating_mul 64 m 2) /\
    (MempoolSnapshot.state s = Degraded <-> saturating_mul 64 m 2 < age).
Proof.
  intros Hu. cbv zeta. set (v := MempoolView.poll_all _ rs).
  assert (m <= saturating_mul 64 m 2) as H2 by (unfold in_u, saturating_mul in *; lia).
  assert (view_ok v) as (Hp & Hne & _) by (apply view_ok_poll_all, view_ok_new).
  assert (MempoolView.max_stale_secs v = m) as Hm.
  { apply max_stale_poll_all. }
  clearbody v. unfold MempoolView.snapshot. rewrite Hm.
  destruct (MempoolView.last_refresh_unix_ms v) as [last|] eqn:Hl.
  - rewrite (proj2 Hp) in * by eauto. specialize (Hne eq_refl).
    repeat case_if; z_bool; cbn; split_and!; try done; try (split; done);
      intros l [= <-]; split_and!; try done; split; intros ?; try done; lia.
  - destruct (MempoolView.primed v); [destruct (proj1 Hp eq_refl); done|].
    cbn. split_and!; try done. 
Qed.

(** (empty responses): a successful but empty [getrawmempool] never becomes the served
    view: the set, the refresh time and the primed flag are unchanged and only the refusal
    counter moves, whereas a non-empty response is installed with its timestamp. *)
Theorem install_refuses_empty v s t :
  MempoolView.install_at v s t =
    if decide (s = ∅)
    then (MempoolView.mk (MempoolView.txids v) (MempoolView.last_refresh_unix_ms v)
            (MempoolView.max_stale_secs v) (MempoolView.primed v)
            (wrapping_add 64 (MempoolView.empty_responses v) 1), false)
    else (MempoolView.mk s (Some t) (MempoolView.max_stale_secs v) true
            (MempoolView.empty_responses v), true).
Proof.
  unfold MempoolView.install_at, MempoolView.len, MIN_INSTALLABLE_MEMPOOL_SIZE.
  case_decide as Hs.
  - subst. by rewrite size_empty.
  - case_if; [|done]. z_bool. destruct Hs. apply leibniz_equiv, size_empty_iff. lia.
Qed.

(** The state machine at a concrete run: one failed poll, then one response of one id. *)
Lemma mempool_view_witness :
  let v := MempoolView.poll_all (MempoolView.new 30) [(Err tt, 5); (Ok [[x01]], 1000)] in
  MempoolSnapshot.state (MempoolView.snapshot 32000 v) = Stale <-> 30 < 31 <= 60.
Proof.
  apply (mempool_view_state_machine (E := unit) 30 32000 [(Err tt, 5); (Ok [[x01]], 1000)])
    with (last := 1000); [unfold in_u; lia | vm_compute; reflexivity].
Defined.

(** ** The Class M evaluation *)

Lemma exceeds_tolerance_zero u tol : exceeds_tolerance u 0 tol = false.
Proof. done. Qed.

(** (Class M evaluation): a view that is degraded or unprimed never rejects. Otherwise the
    template is rejected exactly when it has transactions and the share of them missing from
    the view is above the tolerance, and the ids reported are exactly the template's ids that
    the view does not hold, in template order. *)
Theorem mempool_evaluate_rejects s ids tol :
  let total := Z.min (lenZ ids) u32_max in
  let missing := filter (fun t => t ∉ MempoolSnapshot.txids s) ids in
  forall unknown n,
  mempool_evaluate s ids tol = ToleranceExceeded unknown n <->
    (MempoolSnapshot.state s = Fresh \/ MempoolSnapshot.state s = Stale) /\
    exceeds_tolerance (Z.min (lenZ missing) u32_max) total tol = true /\
    unknown = missing /\ n = total.
Proof.
  cbv zeta. intros unknown n. unfold mempool_evaluate. rewrite !clamp_u_min.
  change (2 ^ 32 - 1) with u32_max.
  destruct (Z.min (lenZ ids) u32_max =? 0) eqn:E0; z_bool.
  - rewrite E0, exceeds_tolerance_zero.
    destruct (MempoolSnapshot.state s); split; try done; intros (_ & ? & _); done.
  - destruct (exceeds_tolerance _ _ _); destruct (MempoolSnapshot.state s);
      (split; [intros [=]; subst; auto|intros ([|] & ? & -> & ->); done]).
Qed.

(** The evidence of a rejection. *)
Lemma mempool_evaluate_unknown s ids tol unknown n :
  mempool_evaluate s ids tol = ToleranceExceeded unknown n ->
  unknown = filter (fun t => t ∉ MempoolSnapshot.txids s) ids /\ n = clamp_u 32 (lenZ ids).
Proof.
  unfold mempool_evaluate. intros Hx. repeat case_match; by simplify_eq.
Qed.

(** ** Adjudication *)

(** How many of the ids bitcoind's answer puts in class [c]. *)
Definition class_count (answer : BitcoindAnswer.t) (c : TxAdjudication) (l : list txid_t) : Z :=
  lenZ (filter (fun t => classify t answer = c) l).

Lemma class_count_snoc answer c l x :
  class_count answer c (l ++ [x])
  = class_count answer c l + (if decide (classify x answer = c) then 1 else 0).
Proof.
  unfold class_count. rewrite filter_app, lenZ_app. f_equal.
  rewrite filter_cons, filter_nil. by case_decide.
Qed.

Lemma class_count_nonneg answer c l : 0 <= class_count answer c l.
Proof. apply lenZ_nonneg. Qed.

Lemma saturating_count k : 0 <= k ->
  saturating_add 32 (Z.min k u32_max) 1 = Z.min (k + 1) u32_max.
Proof. unfold saturating_add, u32_max. lia. Qed.

(** The loop state after any number of ids. *)
Lemma adjudicate_fold answer l :
  foldl (adjudicate_step answer) (mkTally 0 0 0 0 []) l =
    mkTally (Z.min (class_count answer InMempool l) u32_max)
      (Z.min (class_count answer Mined l) u32_max)
      (Z.min (class_count answer Unadjudicated l) u32_max)
      (Z.min (class_count answer Absent l) u32_max)
      (take ABSENT_SAMPLE_CAP (filter (fun t => classify t answer = Absent) l)).
Proof.
  induction l as [|x l IH] using rev_ind; [done|].
  rewrite foldl_app, IH. cbn [foldl]. unfold adjudicate_step. cbn [t_in_mempool t_mined
    t_unadjudicated t_absent t_sample].
  rewrite !class_count_snoc, !filter_app, !filter_cons, !filter_nil.
  destruct (classify x answer); cbn [decide]; repeat case_decide; try done;
    rewrite ?Z.add_0_r, ?app_nil_r, saturating_count by apply class_count_nonneg; try done.
  f_equal. rewrite length_take. case_if.
  - apply Nat.ltb_lt in E. rewrite !take_ge; rewrite ?length_app; cbn; try lia. done.
  - apply Nat.ltb_ge in E. rewrite take_app_le by lia. done.
Qed.

(** (adjudication): every unknown id is counted in exactly one class, by the documented
    precedence; the four counters are the exact class sizes (saturated at [u32::MAX]) and add
    up to the number of unknown ids, and the sample is the first 32 absent ids. *)
Theorem adjudicate_exact total unknown answer :
  let a := adjudicate total unknown answer in
  let n c := class_count answer c unknown in
  Adjudication.in_mempool a = Z.min (n InMempool) u32_max /\
  Adjudication.mined a = Z.min (n Mined) u32_max /\
  Adjudication.unadjudicated a = Z.min (n Unadjudicated) u32_max /\
  Adjudication.still_absent a = Z.min (n Absent) u32_max /\
  n InMempool + n Mined + n Unadjudicated + n Absent = lenZ unknown /\
  Adjudication.not_proven_known a = Z.min (n Unadjudicated + n Absent) u32_max /\
  Adjudication.still_absent_sample a
    = take 32 (filter (fun t => classify t answer = Absent) unknown).
Proof.
  cbv zeta. unfold adjudicate, Adjudication.not_proven_known. rewrite adjudicate_fold. cbn -[Z.pow].
  pose proof (class_count_nonneg answer Unadjudicated unknown).
  pose proof (class_count_nonneg answer Absent unknown).
  split_and!; try done.
  - clear. unfold class_count, lenZ. induction unknown as [|x l IH]; [done|].
    rewrite !filter_cons. destruct (classify x answer); repeat case_decide; cbn [length] in *; try done; lia.
  - unfold saturating_add, u32_max. lia.
Qed.

(** The ids the answer shows neither in the node's mempool nor in a block it walked: the unanswered
    ones are among them. *)
Definition unproven (answer : BitcoindAnswer.t) (unknown : list txid_t) : list txid_t :=
  filter (fun t => t ∉ BitcoindAnswer.present_in_mempool answer /\
                   t ∉ BitcoindAnswer.recent_block_txids answer) unknown.

Lemma classify_unproven x answer :
  (classify x answer = InMempool /\ x ∈ BitcoindAnswer.present_in_mempool answer) \/
  (classify x answer = Mined /\ x ∈ BitcoindAnswer.recent_block_txids answer) \/
  ((classify x answer = Unadjudicated \/ classify x answer = Absent) /\
   x ∉ BitcoindAnswer.present_in_mempool answer /\ x ∉ BitcoindAnswer.recent_block_txids answer).
Proof. unfold classify. repeat case_bool_decide; auto 10. Qed.

Lemma adjudicate_unproven total unknown answer :
  Adjudication.not_proven_known (adjudicate total unknown answer)
  = Z.min (lenZ (unproven answer unknown)) u32_max.
Proof.
  destruct (adjudicate_exact total unknown answer) as (_ & _ & _ & _ & _ & -> & _). f_equal.
  unfold class_count, unproven, lenZ. induction unknown as [|x l IH]; [done|].
  rewrite !filter_cons. destruct (classify_unproven x answer) as [[-> Hp]|[[-> Hp]|[[-> | ->] Hp]]];
    [rewrite (decide_False (P := _ /\ _)) by tauto..|rewrite (decide_True (P := _ /\ _)) by done|
     rewrite (decide_True (P := _ /\ _)) by done]; repeat (case_decide; try done); cbn [length]; lia.
Qed.

(** ** The block walk *)

Section Walk.
Context `{BitcoindClient}.

Lemma walk_total th fuel : forall hash col sc tip,
  (1 <= fuel)%nat -> 0 <= sc -> 6 <= sc + Z.of_nat fuel ->
  exists c, walk fuel th hash col sc tip = Some c.
Proof.
  induction fuel as [|fuel IH]; intros hash col sc tip Hf Hs H6; [lia|]. cbn [walk].
  destruct (get_block_txids hash) as [blk|e]; [|eauto].
  destruct (BlockTxids.previous_block_hash blk); repeat case_if; eauto; z_bool;
    unfold saturating_add, MAX_RECENT_BLOCKS_SCANNED in *; apply IH; lia.
Qed.

(** (walk terminates): whatever bitcoind answers, including chains whose parent links never
    reach the template height, the block walk stops within six block requests. *)
Theorem recent_blocks_total template_height :
  exists c, recent_blocks template_height = Some c.
Proof.
  unfold recent_blocks. destruct get_best_block_hash; [|eauto]. apply walk_total; lia.
Qed.

(** The node serves one chain: blocks of heights [0..tip], each naming its parent. *)
Record serves_chain (hash_at : Z -> string) (txids_at : Z -> list txid_t) (tip : Z) : Prop := {
  chain_tip : get_best_block_hash = Ok (hash_at tip);
  chain_tip_u32 : in_u 32 tip;
  chain_block : forall h, 0 <= h <= tip ->
    get_block_txids (hash_at h)
    = Ok (BlockTxids.mk h (txids_at h) (if h =? 0 then None else Some (hash_at (h - 1))))
}.

(** The ids of the [n] blocks below and including height [top]. *)
Fixpoint ids_from (txids_at : Z -> list txid_t) (top : Z) (n : nat) : gset txid_t :=
  match n with
  | O => ∅
  | S n => list_to_set (txids_at top) ∪ ids_from txids_at (top - 1) n
  end.

Section Chain.
Context (hash_at : Z -> string) (txids_at : Z -> list txid_t) (tip th : Z).
Context (Hchain : serves_chain hash_at txids_at tip) (Hth : 0 <= th).

Lemma walk_chain fuel : forall h col sc,
  th <= h <= tip -> 0 <= sc -> sc + Z.of_nat fuel = 6 -> (1 <= fuel)%nat ->
  walk fuel th (hash_at h) col sc (Some tip) = Some (
    if h - th <? Z.of_nat fuel
    then Complete (col ∪ ids_from txids_at h (Z.to_nat (h - th + 1))) (sc + (h - th + 1)) (Some tip)
    else Truncated (col ∪ ids_from txids_at h fuel) 6 (Some tip)).
Proof.
  induction fuel as [|fuel IH]; intros h col sc Hh Hs H6 Hf; [lia|]. cbn [walk].
  rewrite (chain_block _ _ _ Hchain) by lia. cbn [BlockTxids.height BlockTxids.txids
    BlockTxids.previous_block_hash].
  rewrite (proj2 (Z.ltb_ge h th)) by lia.
  assert (saturating_add 32 sc 1 = sc + 1) as -> by (unfold saturating_add; lia).
  destruct (h =? th) eqn:Et; z_bool.
  - subst h. rewrite (proj2 (Z.ltb_lt _ _)) by lia.
    replace (Z.to_nat (th - th + 1)) with 1%nat by lia. cbn [ids_from].
    rewrite union_empty_r_L. do 2 f_equal; lia.
  - rewrite (proj2 (Z.eqb_neq h 0)) by lia. unfold MAX_RECENT_BLOCKS_SCANNED.
    destruct (sc + 1 >=? 6) eqn:E6; z_bool.
    + rewrite (proj2 (Z.ltb_ge _ _)) by lia. replace fuel with O by lia. cbn [ids_from].
      rewrite union_empty_r_L. do 2 f_equal; lia.
    + rewrite IH by lia. f_equal.
      replace (h - 1 - th <? Z.of_nat fuel) with (h - th <? Z.of_nat (S fuel))
        by (apply Bool.eq_iff_eq_true; rewrite !Z.ltb_lt; lia).
      replace (Z.to_nat (h - th + 1)) with (S (Z.to_nat (h - 1 - th + 1))) by lia.
      cbn [ids_from]. rewrite !(assoc_L (∪)). case_if; f_equal; lia.
Qed.

(** The first block request fixes the tip height. *)
Lemma walk_tip fuel col sc :
  walk (S fuel) th (hash_at tip) col sc None = walk (S fuel) th (hash_at tip) col sc (Some tip).
Proof.
  pose proof (chain_tip_u32 _ _ _ Hchain) as []. cbn [walk].
  by rewrite (chain_block _ _ _ Hchain) by lia.
Qed.

(** (walk coverage): on a node serving one chain, the walk reports a template ahead of the
    tip as an empty complete walk, a gap of at most six blocks as complete with exactly the ids
    of every block from the template height to the tip, and a larger gap as truncated with the
    ids of the six blocks below the tip. A walk marked complete has therefore seen every block
    the template could have lost a transaction to. *)
Theorem recent_blocks_coverage :
  recent_blocks th = Some (
    if tip <? th then Complete ∅ 0 (Some tip)
    else if tip - th <? 6
    then Complete (ids_from txids_at tip (Z.to_nat (tip - th + 1))) (tip - th + 1) (Some tip)
    else Truncated (ids_from txids_at tip 6) 6 (Some tip)).
Proof.
  pose proof (chain_tip_u32 _ _ _ Hchain) as []. unfold recent_blocks.
  rewrite (chain_tip _ _ _ Hchain), walk_tip. destruct (tip <? th) eqn:E; z_bool.
  - cbn [walk]. rewrite (chain_block _ _ _ Hchain) by lia. cbn [BlockTxids.height].
    by rewrite (proj2 (Z.ltb_lt tip th)) by lia.
  - rewrite walk_chain by lia. change (Z.of_nat 6) with 6.
    by rewrite !union_empty_l_L.
Qed.
End Chain.

(** ** The lookup *)

(** What the node says of each id when asked, independently of how the ids are batched. *)
Record probes_each (probe1 : txid_t -> MempoolProbe) : Prop := {
  probe_batch : forall c, probe_mempool c = Ok (probe1 <$> c);
  set_iter_elements : forall s t, t ∈ set_iter s <-> t ∈ s
}.

Section Lookup_exact.
Context (probe1 : txid_t -> MempoolProbe) (Hprobe : probes_each probe1).

Lemma absorb_all c : forall acc t,
  let r := foldl absorb_probe acc (zip c (probe1 <$> c)) in
  (t ∈ r.1 <-> t ∈ acc.1 \/ t ∈ c /\ probe1 t = Present) /\
  (t ∈ r.2 <-> t ∈ acc.2 \/ t ∈ c /\ exists w, probe1 t = ProbeUnadjudicated w).
Proof.
  induction c as [|x c IH]; intros acc t; cbn.
  - split; set_solver.
  - destruct (IH (absorb_probe acc (x, probe1 x)) t) as [-> ->].
    unfold absorb_probe. cbn [fst snd]. destruct (probe1 x) as [| |w] eqn:E; cbn [fst snd];
      rewrite !elem_of_cons, ?elem_of_union, ?elem_of_singleton;
      (split; [naive_solver congruence|naive_solver congruence]).
Qed.

Lemma probe_chunks_exact cs : forall acc,
  exists r, probe_chunks cs acc = Ok r /\ forall t,
  (t ∈ r.1 <-> t ∈ acc.1 \/ t ∈ concat cs /\ probe1 t = Present) /\
  (t ∈ r.2 <-> t ∈ acc.2 \/ t ∈ concat cs /\ exists w, probe1 t = ProbeUnadjudicated w).
Proof.
  induction cs as [|c cs IH]; intros acc; cbn [probe_chunks].
  - exists acc. split; [done|]. set_solver.
  - rewrite (probe_batch _ Hprobe). cbn [map_err result_bind].
    destruct (IH (foldl absorb_probe acc (zip c (probe1 <$> c)))) as (r & -> & Hr).
    exists r. split; [done|]. intros t. destruct (Hr t) as [-> ->].
    destruct (absorb_all c acc t) as [-> ->]. cbn [concat]. rewrite elem_of_app. tauto.
Qed.

(** What the lookup concludes about one id. *)
Definition verdict_of (mined : gset txid_t) (t : txid_t) : TxAdjudication :=
  if bool_decide (t ∈ mined) then Mined
  else match probe1 t with
       | Present => InMempool
       | ProbeAbsent => Absent
       | ProbeUnadjudicated _ => Unadjudicated
       end.

(** (lookup is exact): with a loaded, non-empty mempool the lookup always succeeds, and
    every unknown id is classified by what the node says of it: mined when the walk saw it,
    otherwise as its own mempool probe answered. Batching, the order in which ids are probed
    and repeated ids change nothing. *)
Theorem gather_classifies info th unknown :
  get_mempool_info = Ok info -> MempoolInfo.loaded info = true -> 1 <= MempoolInfo.size info ->
  exists answer coverage,
    gather th unknown = Ok answer /\ recent_blocks th = Some coverage /\
    BitcoindAnswer.recent_block_txids answer = (walk_parts coverage).1.1.1 /\
    BitcoindAnswer.block_walk_shortfall answer = shortfall coverage /\
    forall t, t ∈ unknown ->
      classify t answer = verdict_of (BitcoindAnswer.recent_block_txids answer) t.
Proof.
  intros Hi Hl Hsz. unfold gather. rewrite Hi. cbn [map_err result_bind]. rewrite Hl. cbn [negb].
  unfold MIN_INSTALLABLE_MEMPOOL_SIZE. rewrite (proj2 (Z.ltb_ge _ _)) by lia.
  destruct (recent_blocks_total th) as [cov ->].
  destruct (walk_parts cov) as [[[mined scanned] tiph] trunc] eqn:Hw.
  set (l := set_iter _).
  destruct (probe_chunks_exact (chunks MEMPOOL_PROBE_CHUNK l) (∅, ∅)) as (r & -> & Hr).
  cbn [result_bind]. eexists _, cov. split_and!; [done..|rewrite Hw; done|done|].
  intros t Ht. unfold classify, verdict_of. cbn. destruct (Hr t) as [H1 H2].
  rewrite concat_chunks in H1, H2 by (unfold MEMPOOL_PROBE_CHUNK; lia). cbn in H1, H2.
  assert (t ∈ l <-> t ∉ mined) as Hin.
  { unfold l. rewrite (set_iter_elements _ Hprobe), elem_of_list_to_set, list_elem_of_filter. tauto. }
  repeat case_bool_decide; destruct (probe1 t) eqn:Hp; try done; set_solver.
Qed.
End Lookup_exact.
End Walk.

(** ** A sample node, for the witnesses *)

Module SampleNode.
Local Open Scope string_scope.

Definition hash_at (h : Z) : string :=
  if (h =? 0)%Z then "h0" else if (h =? 1)%Z then "h1" else "h2".
Definition txids_at (h : Z) : list txid_t := [[Z_to_byte h]].

Definition block_of (hash : string) : result BlockTxids.t unit :=
  if String.eqb hash "h0" then Ok (BlockTxids.mk 0 (txids_at 0) None)
  else if String.eqb hash "h1" then Ok (BlockTxids.mk 1 (txids_at 1) (Some "h0"))
  else if String.eqb hash "h2" then Ok (BlockTxids.mk 2 (txids_at 2) (Some "h1"))
  else Err tt.

Definition probe1 (t : txid_t) : MempoolProbe :=
  if decide (t = [x07]) then Present else ProbeAbsent.

#[global] Instance node : BitcoindClient := {|
  RpcError := unit;
  rpc_error_to_string := fun _ => "rpc error";
  get_mempool_info := Ok (MempoolInfo.mk 3 true);
  get_best_block_hash := Ok "h2";
  get_block_txids := block_of;
  probe_mempool := fun c => Ok (probe1 <$> c);
  set_iter := elements
|}.

Lemma serves : serves_chain hash_at txids_at 2.
Proof.
  split; [done|unfold in_u; lia|]. intros h Hh.
  assert (h = 0 \/ h = 1 \/ h = 2) as [-> | [-> | ->]] by lia; reflexivity.
Qed.

Lemma probes : probes_each probe1.
Proof. split; [done|]. intros s t. apply elem_of_elements. Qed.

Lemma recent_blocks_witness :
  recent_blocks 1 = Some (Complete (ids_from txids_at 2 2) 2 (Some 2)).
Proof. apply (recent_blocks_coverage hash_at txids_at 2 1 serves). lia. Defined.

Lemma gather_witness : exists answer coverage,
  gather 1 [[x02]; [x07]; [x09]] = Ok answer /\ recent_blocks 1 = Some coverage /\
  BitcoindAnswer.recent_block_txids answer = (walk_parts coverage).1.1.1 /\
  BitcoindAnswer.block_walk_shortfall answer = shortfall coverage /\
  forall t, t ∈ [[x02]; [x07]; [x09]] ->
    classify t answer = verdict_of probe1 (BitcoindAnswer.recent_block_txids answer) t.
Proof.
  apply (gather_classifies probe1 probes (MempoolInfo.mk 3 true)); [reflexivity..|cbn; lia].
Defined.
End SampleNode.
