(* ===== verification/Policy.v ===== *)
(** * The verifier's policy engine and Invariant Shield

    Models [services/pool-verifier/src/policy.rs] (configuration, the three policy stages, the
    Invariant Shield and [evaluate_dynamic]), and from [services/pool-verifier/src/ingress.rs]
    the second-chance adjudication of a Class M rejection and the verdict built from the result.
    Messages are modelled character by character where they reach the wire; the error text of
    [validate] and of the credential gate is represented by a constructor per return site. *)

From stdpp Require Import pretty.
From Stdlib Require Import SpecFloat.
From S2P Require Import Prelude Crates Float64 Protocol Consensus Mempool.

Definition MAX_BLOCK_WEIGHT : Z := 4000000.
Definition MAX_BLOCK_SIGOPS : Z := 80000.

Inductive FeeTier : Type := Low | Mid | High.

#[global] Instance FeeTier_eq_dec : EqDecision FeeTier.
Proof. solve_decision. Defined.

Definition FeeTier_as_str (t : FeeTier) : string :=
  match t with Low => "low" | Mid => "mid" | High => "high" end.

Record SafetyWarning : Type := mkWarning { w_reason : VerdictReason; w_detail : string }.

Inductive Phase2Attribution : Type :=
| P2NotRun
| P2Agreed
| P2Stale
| P2SkippedDegraded
| P2SkippedUnprimed
| P2Rejected (unknown : list bytes) (total : Z).

Module EvalResult.
Record t : Type := mk {
  reason : option VerdictReason;
  detail : option string;
  fee_tier : FeeTier;
  min_avg_fee_used : Z;
  warnings : list SafetyWarning;
  shield_skipped : bool;
  phase2 : Phase2Attribution
}.
End EvalResult.

(** ** Configuration *)

Definition default_max_weight_ratio : f64 := f64_lit 999 1000.
Definition default_warn_sigops_ratio : f64 := f64_lit 95 100.
Definition default_warn_coinbase_sigops_max : Z := 400.

Module PolicySafety.
Record t : Type := mk {
  max_weight_ratio : f64;
  enforce_weight_ratio : bool;
  max_template_age_ms : option Z;
  enforce_template_age : bool;
  warn_sigops_ratio : f64;
  warn_coinbase_sigops_max : Z
}.
Definition default : t :=
  mk default_max_weight_ratio false None false default_warn_sigops_ratio
    default_warn_coinbase_sigops_max.
End PolicySafety.

Definition default_mempool_tolerance_pct : f64 := f64_of_Z 4.
Definition default_mempool_poll_interval_secs : Z := 10.
Definition default_mempool_max_stale_secs : Z := 60.

Module PolicyMempool.
Record t : Type := mk {
  enforce : bool;
  tolerance_pct : f64;
  poll_interval_secs : Z;
  max_stale_secs : Z;
  per_tx_detail : bool;
  rpc_url : string;
  rpc_user : string;
  rpc_pass : string
}.
Definition default : t :=
  mk false default_mempool_tolerance_pct default_mempool_poll_interval_secs
    default_mempool_max_stale_secs false "" "" "".
End PolicyMempool.

Module PolicyConfig.
Record t : Type := mk {
  protocol_version : Z;
  required_prevhash_len : Z;
  min_total_fees : Z;
  max_tx_count : Z;
  low_mempool_tx : Z;
  high_mempool_tx : Z;
  min_avg_fee_lo : Z;
  min_avg_fee_mid : Z;
  min_avg_fee_hi : Z;
  reject_empty_templates : bool;
  reject_coinbase_zero : bool;
  unknown_mempool_as_high : bool;
  safety : PolicySafety.t;
  mempool : PolicyMempool.t
}.

Definition default_with_protocol (protocol_version : Z) : t :=
  mk protocol_version 64 0 10000 50 500 0 500 2000 true false true
    PolicySafety.default PolicyMempool.default.

(** One constructor per [bail!]/[Err] of [validate], with the values its message prints. *)
Inductive ValidateError : Type :=
| ProtocolVersionUnsupported (got : Z)
| PrevhashLenZero
| MaxTxCountZero
| MempoolTiersInverted (low high : Z)
| FeeLoAboveMid (lo mid : Z)
| FeeMidAboveHi (mid hi : Z)
| WeightRatioOutOfRange (r : f64)
| SigopsRatioOutOfRange (r : f64).

(** [r.is_finite() && r > 0.0 && r <= 1.0]. *)
Definition ratio_in_range (r : f64) : bool :=
  f64_is_finite r && f64_gt r f64_zero && f64_le r f64_one.

Definition validate (c : t) : result unit ValidateError :=
  if negb (protocol_version c =? PROTOCOL_VERSION)
  then Err (ProtocolVersionUnsupported (protocol_version c))
  else if required_prevhash_len c =? 0 then Err PrevhashLenZero
  else if max_tx_count c =? 0 then Err MaxTxCountZero
  else if low_mempool_tx c >? high_mempool_tx c
  then Err (MempoolTiersInverted (low_mempool_tx c) (high_mempool_tx c))
  else if min_avg_fee_lo c >? min_avg_fee_mid c
  then Err (FeeLoAboveMid (min_avg_fee_lo c) (min_avg_fee_mid c))
  else if min_avg_fee_mid c >? min_avg_fee_hi c
  then Err (FeeMidAboveHi (min_avg_fee_mid c) (min_avg_fee_hi c))
  else if negb (ratio_in_range (PolicySafety.max_weight_ratio (safety c)))
  then Err (WeightRatioOutOfRange (PolicySafety.max_weight_ratio (safety c)))
  else if negb (ratio_in_range (PolicySafety.warn_sigops_ratio (safety c)))
  then Err (SigopsRatioOutOfRange (PolicySafety.warn_sigops_ratio (safety c)))
  else Ok tt.

Definition effective_min_avg_fee_dynamic (c : t) (mempool_tx : option Z) : Z * FeeTier :=
  match mempool_tx with
  | Some tx =>
      if tx <? low_mempool_tx c then (min_avg_fee_lo c, Low)
      else if tx <? high_mempool_tx c then (min_avg_fee_mid c, Mid)
      else (min_avg_fee_hi c, High)
  | None =>
      if unknown_mempool_as_high c then (min_avg_fee_hi c, High) else (min_avg_fee_mid c, Mid)
  end.
End PolicyConfig.

(** ** The credential gate *)

Definition PLACEHOLDER_MARKERS : list string :=
  [ "TODO"; "CHANGEME"; "CHANGE_ME"; "REPLACE_ME"; "REPLACEME"; "PLACEHOLDER"; "FIXME" ]%string.

Abbreviation chars := (list Ascii.ascii).

(** [str::starts_with], on the UTF-8 bytes. *)
Fixpoint starts_with (p s : chars) : bool :=
  match p, s with
  | [], _ => true
  | a :: p, b :: s => bool_decide (a = b) && starts_with p s
  | _ :: _, [] => false
  end.

(** [str::contains]. *)
Fixpoint contains (p s : chars) : bool :=
  starts_with p s || match s with [] => false | _ :: s => contains p s end.

(** The UTF-8 encodings of the characters with the Unicode property [White_Space]. *)
Definition white_space : list chars :=
  map (map Ascii.ascii_of_nat)
  ([ [9]; [10]; [11]; [12]; [13]; [32]; [194; 133]; [194; 160]; [225; 154; 128] ]
   ++ map (fun n => [226; 128; n]) (seq 128 11)
   ++ [ [226; 128; 168]; [226; 128; 169]; [226; 128; 175]; [226; 129; 159]; [227; 128; 128] ])%nat.

Fixpoint strip_first (ws : list chars) (s : chars) : option chars :=
  match ws with
  | [] => None
  | w :: ws => if starts_with w s then Some (drop (length w) s) else strip_first ws s
  end.

Fixpoint trim_start_fuel (fuel : nat) (ws : list chars) (s : chars) : chars :=
  match fuel with
  | O => s
  | S fuel => match strip_first ws s with Some s => trim_start_fuel fuel ws s | None => s end
  end.

(** [str::trim]: every stripped encoding is non-empty, so the length is enough fuel. *)
Definition trim (s : chars) : chars :=
  let s := trim_start_fuel (length s) white_space s in
  reverse (trim_start_fuel (length s) (reverse <$> white_space) (reverse s)).

Definition to_ascii_uppercase (c : Ascii.ascii) : Ascii.ascii :=
  let n := Ascii.nat_of_ascii c in
  if ((97 <=? n) && (n <=? 122))%nat then Ascii.ascii_of_nat (n - 32) else c.

Definition is_placeholder_value (value : string) : bool :=
  let trimmed := trim (String.list_ascii_of_string value) in
  match trimmed with
  | [] => true
  | _ =>
      if starts_with (String.list_ascii_of_string "<") trimmed then true
      else
        let upper := to_ascii_uppercase <$> trimmed in
        existsb (fun marker => contains (String.list_ascii_of_string marker) upper)
          PLACEHOLDER_MARKERS
  end.

(** One constructor per return site of [require_usable_credentials]. *)
Inductive CredentialError : Type :=
| RpcUrlPlaceholder (url : string)
| RpcUrlScheme (url : string)
| RpcUserPlaceholder (user : string)
| RpcPassEmpty.

Definition require_usable_credentials (m : PolicyMempool.t) (resolved_rpc_pass : string)
    : result unit CredentialError :=
  let url := PolicyMempool.rpc_url m in
  let prefix p := starts_with (String.list_ascii_of_string p) (String.list_ascii_of_string url) in
  if is_placeholder_value url then Err (RpcUrlPlaceholder url)
  else if negb (prefix "http://"%string || prefix "https://"%string) then Err (RpcUrlScheme url)
  else if is_placeholder_value (PolicyMempool.rpc_user m)
  then Err (RpcUserPlaceholder (PolicyMempool.rpc_user m))
  else match trim (String.list_ascii_of_string resolved_rpc_pass) with
       | [] => Err RpcPassEmpty
       | _ => Ok tt
       end.

(** ** The policy stages *)

Definition is_ascii_hexdigit (c : Ascii.ascii) : bool :=
  let n := Z.of_N (Ascii.N_of_ascii c) in
  ((48 <=? n) && (n <=? 57)) || ((97 <=? n) && (n <=? 102)) || ((65 <=? n) && (n <=? 70)).

Definition is_hex (s : string) : bool := forallb is_ascii_hexdigit (String.list_ascii_of_string s).

Definition strlen (s : string) : Z := Z.of_nat (String.length s).

(** A rejection issued before the shield has run. *)
Definition reject_early (tier : FeeTier) (min_avg_fee_used : Z) (r : VerdictReason) (d : string)
    (warnings : list SafetyWarning) : EvalResult.t :=
  EvalResult.mk (Some r) (Some d) tier min_avg_fee_used warnings false P2NotRun.

Definition check_basic_validity (template : TemplatePropose.t) (cfg : PolicyConfig.t)
    (tier : FeeTier) (min_avg_fee_used : Z) : option EvalResult.t :=
  if negb (TemplatePropose.version template =? PolicyConfig.protocol_version cfg) then
    Some (reject_early tier min_avg_fee_used ProtocolVersionMismatch
      ("protocol_version got=" +:+ pretty (TemplatePropose.version template)
       +:+ " expected=" +:+ pretty (PolicyConfig.protocol_version cfg))%string [])
  else if negb (strlen (TemplatePropose.prev_hash template)
                =? PolicyConfig.required_prevhash_len cfg) then
    Some (reject_early tier min_avg_fee_used PrevHashLenMismatch
      ("prev_hash len=" +:+ pretty (strlen (TemplatePropose.prev_hash template))
       +:+ " expected=" +:+ pretty (PolicyConfig.required_prevhash_len cfg))%string [])
  else if negb (is_hex (TemplatePropose.prev_hash template)) then
    Some (reject_early tier min_avg_fee_used InvalidPrevHash
      "prev_hash contains non-hex characters" [])
  else None.

Definition check_template_constraints (template : TemplatePropose.t) (cfg : PolicyConfig.t)
    (tier : FeeTier) (min_avg_fee_used : Z) : option EvalResult.t :=
  let tx_count := TemplatePropose.tx_count template in
  if PolicyConfig.reject_empty_templates cfg && (tx_count =? 0) then
    Some (reject_early tier min_avg_fee_used EmptyTemplateRejected
      "empty template rejected by policy" [])
  else if PolicyConfig.reject_coinbase_zero cfg && (TemplatePropose.coinbase_value template =? 0)
          && (tx_count >? 0) then
    Some (reject_early tier min_avg_fee_used CoinbaseValueZeroRejected
      "coinbase_value=0 rejected by policy" [])
  else if tx_count >? PolicyConfig.max_tx_count cfg then
    Some (reject_early tier min_avg_fee_used TxCountExceeded
      ("tx_count=" +:+ pretty tx_count +:+ " > max_tx_count="
       +:+ pretty (PolicyConfig.max_tx_count cfg))%string [])
  else if TemplatePropose.total_fees template <? PolicyConfig.min_total_fees cfg then
    Some (reject_early tier min_avg_fee_used TotalFeesBelowMinimum
      ("total_fees=" +:+ pretty (TemplatePropose.total_fees template) +:+ " < min_total_fees="
       +:+ pretty (PolicyConfig.min_total_fees cfg))%string [])
  else if (min_avg_fee_used >? 0) && (tx_count >? 0) then
    let avg := TemplatePropose.total_fees template / tx_count in
    if avg <? min_avg_fee_used then
      Some (reject_early tier min_avg_fee_used AvgFeeBelowMinimum
        ("avg_fee=" +:+ pretty avg +:+ " < min_avg_fee_used="
         +:+ pretty min_avg_fee_used)%string [])
    else None
  else None.

(** [{:.4}] of an [f64]: the exact value of the double, rounded half to even at the fourth
    decimal. *)
Definition round_half_even (num den : Z) : Z :=
  let q := num / den in
  let r := num mod den in
  if (2 * r >? den) || ((2 * r =? den) && Z.odd q) then q + 1 else q.

Definition pad4 (n : Z) : string :=
  (pretty (n / 1000) +:+ pretty (n / 100 mod 10) +:+ pretty (n / 10 mod 10)
   +:+ pretty (n mod 10))%string.

Definition fmt_fixed4 (x : f64) : string :=
  let sign (s : bool) := if s then "-"%string else ""%string in
  match x with
  | S754_zero s => (sign s +:+ "0.0000")%string
  | S754_infinity s => (sign s +:+ "inf")%string
  | S754_nan => "NaN"
  | S754_finite s m e =>
      let scaled := if 0 <=? e then Z.pos m * 2 ^ e * 10000
                    else round_half_even (Z.pos m * 10000) (2 ^ (- e)) in
      (sign s +:+ pretty (scaled / 10000) +:+ "." +:+ pad4 (scaled mod 10000))%string
  end.

(** [a.or(b)] of two options. *)
Definition option_or {A} (a b : option A) : option A :=
  match a with Some _ => a | None => b end.

(** The first of the four observations of [check_safety_constraints]: the reason and message
    when the declared weight is above the ratio. *)
Definition weight_finding (template : TemplatePropose.t) (cfg : PolicyConfig.t)
    : option SafetyWarning :=
  match option_or (TemplatePropose.template_weight template)
          (TemplatePropose.observed_weight template) with
  | Some weight =>
      let max := PolicySafety.max_weight_ratio (PolicyConfig.safety cfg) in
      let ratio := f64_div (f64_of_Z weight) (f64_of_Z MAX_BLOCK_WEIGHT) in
      if f64_gt ratio max then
        Some (mkWarning WeightRatioExceeded
          ("weight_ratio=" +:+ fmt_fixed4 ratio +:+ " > max_weight_ratio=" +:+ fmt_fixed4 max
           +:+ " (weight=" +:+ pretty weight +:+ " max=" +:+ pretty MAX_BLOCK_WEIGHT
           +:+ ")")%string)
      else None
  | None => None
  end.

Definition age_finding (template : TemplatePropose.t) (cfg : PolicyConfig.t) (now_ms : Z)
    : option SafetyWarning :=
  match TemplatePropose.created_at_unix_ms template,
        PolicySafety.max_template_age_ms (PolicyConfig.safety cfg) with
  | Some created, Some max_age =>
      let age_ms := saturating_sub now_ms created in
      if age_ms >? max_age then
        Some (mkWarning TemplateStale
          ("template_age_ms=" +:+ pretty age_ms +:+ " > max_template_age_ms="
           +:+ pretty max_age)%string)
      else None
  | _, _ => None
  end.

Definition sigops_finding (template : TemplatePropose.t) (cfg : PolicyConfig.t)
    : option SafetyWarning :=
  match TemplatePropose.total_sigops template with
  | Some sigops =>
      let warn := PolicySafety.warn_sigops_ratio (PolicyConfig.safety cfg) in
      let ratio := f64_div (f64_of_Z sigops) (f64_of_Z MAX_BLOCK_SIGOPS) in
      if f64_gt ratio warn then
        Some (mkWarning SigopsBudgetWarning
          ("sigops_ratio=" +:+ fmt_fixed4 ratio +:+ " > warn_sigops_ratio=" +:+ fmt_fixed4 warn
           +:+ " (sigops=" +:+ pretty sigops +:+ " max=" +:+ pretty MAX_BLOCK_SIGOPS
           +:+ ")")%string)
      else None
  | None => None
  end.

Definition coinbase_sigops_finding (template : TemplatePropose.t) (cfg : PolicyConfig.t)
    : option SafetyWarning :=
  match TemplatePropose.coinbase_sigops template with
  | Some cb =>
      let warn := PolicySafety.warn_coinbase_sigops_max (PolicyConfig.safety cfg) in
      if cb >? warn then
        Some (mkWarning CoinbaseSigopsAbnormal
          ("coinbase_sigops=" +:+ pretty cb +:+ " > warn_coinbase_sigops_max="
           +:+ pretty warn)%string)
      else None
  | None => None
  end.

(** A finding either rejects, carrying the warnings pushed before it, or is pushed itself. *)
Definition observe (tier : FeeTier) (min_avg_fee_used : Z) (finding : option SafetyWarning)
    (enforce : bool) (warnings : list SafetyWarning)
    : result (list SafetyWarning) EvalResult.t :=
  match finding with
  | None => Ok warnings
  | Some w =>
      if enforce then Err (reject_early tier min_avg_fee_used (w_reason w) (w_detail w) warnings)
      else Ok (warnings ++ [w])
  end.

(** [check_safety_constraints]: [Err] is its early return, [Ok] the warnings it pushed. The two
    sigops findings never reject. *)
Definition check_safety_constraints (template : TemplatePropose.t) (cfg : PolicyConfig.t)
    (now_ms : Z) (warnings : list SafetyWarning) (tier : FeeTier) (min_avg_fee_used : Z)
    : result (list SafetyWarning) EvalResult.t :=
  let safety := PolicyConfig.safety cfg in
  let observe := observe tier min_avg_fee_used in
  let? ws := observe (weight_finding template cfg) (PolicySafety.enforce_weight_ratio safety)
               warnings in
  let? ws := observe (age_finding template cfg now_ms) (PolicySafety.enforce_template_age safety)
               ws in
  let? ws := observe (sigops_finding template cfg) false ws in
  observe (coinbase_sigops_finding template cfg) false ws.

(** ** The Invariant Shield *)

Inductive ShieldOutcome : Type :=
| ShieldSkipped
| ShieldAgreed
| ShieldRejected (reason : VerdictReason) (detail : string).

Definition consensus_violation_to_verdict_reason (v : ConsensusViolation) : VerdictReason :=
  match v with
  | DecodeFailed _ => V2InvariantDecodeFailed
  | CoinbaseValueMismatch _ _ => V2InvariantCoinbaseValueMismatch
  | TemplateWeightMismatch _ _ => V2InvariantTemplateWeightMismatch
  | MerkleRootMismatch _ _ => V2InvariantMerkleRootMismatch
  | WitnessCommitmentMissing => V2InvariantWitnessCommitmentMissing
  | WitnessCommitmentMismatch _ _ => V2InvariantWitnessCommitmentMismatch
  | SigopsMismatch _ _ => V2InvariantSigopsMismatch
  | CoinbaseSigopsMismatch _ _ => V2InvariantCoinbaseSigopsMismatch
  | TxCountMismatch _ _ => V2InvariantTxCountMismatch
  | CoinbaseScriptLength => V2InvariantCoinbaseScriptLength
  | CoinbaseOutputCount => V2InvariantCoinbaseOutputCount
  | CoinbaseBip34Missing => V2InvariantCoinbaseBip34Missing
  | CoinbaseHeightMismatch _ _ => V2InvariantCoinbaseHeightMismatch
  | WeightExceedsMax => V2InvariantWeightExceedsMax
  | SigopsExceedMax => V2InvariantSigopsExceedMax
  | CoinbaseValueExceedsMax => V2InvariantCoinbaseValueExceedsMax
  | NonCoinbaseNullPrevout => V2InvariantNontcbNullPrevout
  | CoinbasePrevoutNotNull => V2InvariantCoinbasePrevoutNotNull
  | HeaderVersionLow => V2InvariantHeaderVersionLow
  | DuplicateTx => V2InvariantDuplicateTx
  | MempoolTxUnknown _ => V2InvariantMempoolTxUnknown
  | MempoolToleranceExceeded _ _ => V2InvariantMempoolToleranceExceeded
  | MempoolUnavailable => V2InvariantMempoolUnavailable
  | MempoolViewStale _ => V2InvariantMempoolViewStale
  | NotImplemented => InternalError
  end.

Definition PER_TX_DETAIL_EMIT_CAP : nat := 10000.

(** [join(",")]. *)
Fixpoint join_comma (l : list string) : string :=
  match l with
  | [] => ""
  | [s] => s
  | s :: l => (s +:+ "," +:+ join_comma l)%string
  end.

Section Shield.
Context `{HexCrate} `{BitcoinLib}.

Definition format_mempool_tolerance_detail (unknown_count total : Z) (txids_to_emit : list bytes)
    : string :=
  let detail := ("mempool tolerance exceeded: " +:+ pretty unknown_count +:+ "/" +:+ pretty total
                 +:+ " txs unknown to verifier view")%string in
  match txids_to_emit with
  | [] => detail
  | _ =>
      let sample_str := join_comma ((fun t => hex_encode (reverse t)) <$> txids_to_emit) in
      (detail +:+ " sample=[" +:+ sample_str +:+ "]")%string
  end.

Definition format_mempool_tolerance_detail_bounded (unknown_count total : Z)
    (txids_to_emit : list bytes) : string :=
  if (length txids_to_emit <=? PER_TX_DETAIL_EMIT_CAP)%nat
  then format_mempool_tolerance_detail unknown_count total txids_to_emit
  else
    (format_mempool_tolerance_detail unknown_count total
       (take PER_TX_DETAIL_EMIT_CAP txids_to_emit)
     +:+ " (truncated " +:+ pretty (Z.of_nat PER_TX_DETAIL_EMIT_CAP) +:+ " of "
     +:+ pretty (lenZ txids_to_emit) +:+ ")")%string.

(** Reason and message of a rejection by the shield. *)
Definition rejection : Type := VerdictReason * string.

Definition of_violation (v : ConsensusViolation) : rejection :=
  (consensus_violation_to_verdict_reason v, as_reason_code v).

Definition tier3_checks : list (ParsedBlock -> result unit ConsensusViolation) :=
  [ check_coinbase_script_length;
    check_coinbase_output_count;
    check_weight_max;
    check_sigops_max;
    check_coinbase_value_max;
    check_non_coinbase_null_prevout;
    check_coinbase_null_prevout;
    check_header_version;
    check_duplicate_tx ].

(** The loop over [tier3_checks]: first violation wins. *)
Fixpoint run_checks (checks : list (ParsedBlock -> result unit ConsensusViolation))
    (parsed : ParsedBlock) : result unit ConsensusViolation :=
  match checks with
  | [] => Ok tt
  | check :: checks => let? _ := check parsed in run_checks checks parsed
  end.

(** [if declared != re_derived { return Rejected }]. *)
Definition require (b : bool) (e : rejection) : result unit rejection :=
  if b then Ok tt else Err e.

(** The comparison of a declared sigop cost with the provable floor, [legacy x4]. *)
Definition check_sigops_floor (reason : VerdictReason) (field : string) (declared : option Z)
    (legacy : Z) : result unit rejection :=
  match declared with
  | None => Ok tt
  | Some declared =>
      let floor := saturating_mul 64 legacy 4 in
      require (negb (floor >? declared))
        (reason, (field +:+ " declared_cost=" +:+ pretty declared +:+ " below provable floor="
                  +:+ pretty floor +:+ " (legacy count " +:+ pretty legacy +:+ " x4)")%string)
  end.

Definition check_declared_weight (declared : option Z) (parsed : ParsedBlock)
    : result unit rejection :=
  match declared with
  | None => Ok tt
  | Some declared =>
      let re_derived := non_coinbase_tx_weight parsed in
      require (re_derived =? declared)
        (V2InvariantTemplateWeightMismatch,
         ("template_weight declared=" +:+ pretty declared +:+ " re_derived="
          +:+ pretty re_derived)%string)
  end.

(** Everything [check_invariant_shield_inner] does before the Class M section, in its order:
    the parsed block, or the first rejection. *)
Definition shield_phase1 (template : TemplatePropose.t) (hex_str : string)
    : result ParsedBlock rejection :=
  let? raw_block :=
    map_err (fun e => (V2InvariantDecodeFailed, ("raw_block_hex decode failed: " +:+ e)%string))
      (hex_decode hex_str) in
  let? parsed := map_err of_violation (parse_block raw_block) in
  (* Class D: coinbase value *)
  let? re_derived := map_err of_violation (re_derive_coinbase_value raw_block) in
  let? _ := require (re_derived =? TemplatePropose.coinbase_value template)
    (V2InvariantCoinbaseValueMismatch,
     ("coinbase_value declared=" +:+ pretty (TemplatePropose.coinbase_value template)
      +:+ " re_derived=" +:+ pretty re_derived)%string) in
  (* Class D: template weight, when declared *)
  let? _ := check_declared_weight (TemplatePropose.template_weight template) parsed in
  (* Class S *)
  let? _ := map_err of_violation (check_merkle_root_internal parsed) in
  let? _ := map_err of_violation (check_witness_commitment_internal parsed) in
  let? _ := map_err of_violation (check_coinbase_bip34_present parsed) in
  (* Class D: transaction count *)
  let re_derived := saturating_sub (tx_count parsed) 1 in
  let? _ := require (re_derived =? TemplatePropose.tx_count template)
    (V2InvariantTxCountMismatch,
     ("tx_count declared=" +:+ pretty (TemplatePropose.tx_count template) +:+ " re_derived="
      +:+ pretty re_derived)%string) in
  (* Class D: sigops, one-sided *)
  let? _ := check_sigops_floor V2InvariantSigopsMismatch "total_sigops"
              (TemplatePropose.total_sigops template) (non_coinbase_sigops parsed) in
  let? _ := check_sigops_floor V2InvariantCoinbaseSigopsMismatch "coinbase_sigops"
              (TemplatePropose.coinbase_sigops template) (coinbase_sigops parsed) in
  (* Class D: height *)
  let? re_derived := map_err of_violation (bip34_height parsed) in
  let? _ := require (re_derived =? TemplatePropose.block_height template)
    (V2InvariantCoinbaseHeightMismatch,
     ("block_height declared=" +:+ pretty (TemplatePropose.block_height template)
      +:+ " re_derived=" +:+ pretty re_derived)%string) in
  (* Tier 3 *)
  let? _ := map_err of_violation (run_checks tier3_checks parsed) in
  Ok parsed.

(** The Class M section, on the block the earlier checks accepted. *)
Definition shield_class_m (parsed : ParsedBlock)
    (mempool : option (MempoolSnapshot.t * f64 * bool)) : ShieldOutcome * Phase2Attribution :=
  match mempool with
  | None => (ShieldAgreed, P2NotRun)
  | Some (snapshot, tolerance_pct, per_tx_detail) =>
      let txids := template_txids parsed in
      match mempool_evaluate snapshot txids tolerance_pct with
      | MempoolAgreed _ _ => (ShieldAgreed, P2Agreed)
      | MempoolStale _ => (ShieldAgreed, P2Stale)
      | MempoolSkipped =>
          (ShieldAgreed, match MempoolSnapshot.state snapshot with
                         | Degraded => P2SkippedDegraded
                         | _ => P2SkippedUnprimed
                         end)
      | ToleranceExceeded unknown total =>
          let unknown_count := clamp_u 32 (lenZ unknown) in
          let emit_len := if per_tx_detail then length unknown
                          else Nat.min (length unknown) SAMPLE_UNKNOWN_CAP in
          (ShieldRejected V2InvariantMempoolToleranceExceeded
             (format_mempool_tolerance_detail_bounded unknown_count total (take emit_len unknown)),
           P2Rejected unknown total)
      end
  end.

Definition check_invariant_shield_inner (template : TemplatePropose.t)
    (mempool : option (MempoolSnapshot.t * f64 * bool)) : ShieldOutcome * Phase2Attribution :=
  match TemplatePropose.raw_block_hex template with
  | None => (ShieldSkipped, P2NotRun)
  | Some hex_str =>
      match shield_phase1 template hex_str with
      | Err (reason, detail) => (ShieldRejected reason detail, P2NotRun)
      | Ok parsed => shield_class_m parsed mempool
      end
  end.

Definition check_invariant_shield (template : TemplatePropose.t) : ShieldOutcome :=
  (check_invariant_shield_inner template None).1.

Definition check_invariant_shield_with_mempool (template : TemplatePropose.t)
    (mempool : MempoolSnapshot.t) (tolerance_pct : f64) (per_tx_detail : bool) : ShieldOutcome :=
  (check_invariant_shield_inner template (Some (mempool, tolerance_pct, per_tx_detail))).1.

(** ** Evaluation *)

Definition evaluate_dynamic_inner (template : TemplatePropose.t) (cfg : PolicyConfig.t)
    (mempool_snapshot : option MempoolSnapshot.t) (mempool_tx : option Z) (now_ms : Z)
    : EvalResult.t :=
  let '(min_avg_fee_used, tier) := PolicyConfig.effective_min_avg_fee_dynamic cfg mempool_tx in
  match check_basic_validity template cfg tier min_avg_fee_used with
  | Some result => result
  | None =>
      match check_template_constraints template cfg tier min_avg_fee_used with
      | Some result => result
      | None =>
          match check_safety_constraints template cfg now_ms [] tier min_avg_fee_used with
          | Err result => result
          | Ok warnings =>
              let '(shield_outcome, phase2) :=
                check_invariant_shield_inner template
                  ((fun snap => (snap, PolicyMempool.tolerance_pct (PolicyConfig.mempool cfg),
                                 PolicyMempool.per_tx_detail (PolicyConfig.mempool cfg)))
                   <$> mempool_snapshot) in
              match shield_outcome with
              | ShieldSkipped =>
                  EvalResult.mk None None tier min_avg_fee_used warnings true phase2
              | ShieldAgreed =>
                  EvalResult.mk None None tier min_avg_fee_used warnings false phase2
              | ShieldRejected reason detail =>
                  EvalResult.mk (Some reason) (Some detail) tier min_avg_fee_used warnings false
                    phase2
              end
          end
      end
  end.

Definition evaluate_dynamic_phase2 := evaluate_dynamic_inner.

Definition evaluate_dynamic (template : TemplatePropose.t) (cfg : PolicyConfig.t)
    (mempool_tx : option Z) (now_ms : Z) : EvalResult.t :=
  evaluate_dynamic_inner template cfg None mempool_tx now_ms.

(** [evaluate], with the clock it reads as an argument. *)
Definition evaluate (template : TemplatePropose.t) (cfg : PolicyConfig.t) (now_ms : Z)
    : EvalResult.t := evaluate_dynamic template cfg None now_ms.

End Shield.

(** ** ingress.rs: the second chance and the verdict *)

Module PolicyContext.
Record t : Type := mk {
  fee_tier : option string;
  min_avg_fee_used : option Z;
  min_total_fees_used : option Z;
  reject_coinbase_zero : option bool;
  unknown_mempool_as_high : option bool;
  max_weight_ratio : option f64;
  max_template_age_ms : option Z
}.
End PolicyContext.

Module TemplateVerdict.
Record t : Type := mk {
  version : Z;
  id : Z;
  accepted : bool;
  reason_code : option VerdictReason;
  reason_detail : option string;
  policy_context : option PolicyContext.t
}.
End TemplateVerdict.

Section Ingress.
Context `{HexCrate} `{BitcoinLib} `{BitcoindClient}.

(** [run_second_chance]. [enabled] is whether the process has a lookup; [timed_out] whether its
    deadline fires. *)
Definition run_second_chance (enabled timed_out : bool) (phase2 : Phase2Attribution)
    (template_height : Z) (tolerance_pct : f64) : option SecondChanceOutcome :=
  match phase2, enabled with
  | P2Rejected unknown total, true =>
      let unknown_before := clamp_u 32 (lenZ unknown) in
      let failed (e : SecondChanceError) (unadjudicated : Z) :=
        Some (LookupFailed total unknown_before (SecondChanceError_to_string e)
                (SecondChanceError_as_label e) unadjudicated) in
      match ask timed_out template_height unknown with
      | Ok answer =>
          let adjudication := adjudicate total unknown answer in
          if negb (Adjudication.still_exceeds adjudication tolerance_pct)
          then Some (Withdrawn adjudication)
          else if Adjudication.unadjudicated adjudication >? 0 then
            failed (MempoolProbeIncomplete
                      (pretty (Adjudication.unadjudicated adjudication) +:+ " of "
                       +:+ pretty unknown_before
                       +:+ " unknown transactions had no usable probe answer")%string)
              (Adjudication.unadjudicated adjudication)
          else
            match BitcoindAnswer.block_walk_shortfall answer with
            | Some shortfall =>
                failed (BlockWalkIncomplete shortfall) (Adjudication.unadjudicated adjudication)
            | None => Some (Upheld adjudication)
            end
      | Err e => failed e 0
      end
  | _, _ => None
  end.

(** A withdrawn rejection clears the reason and the message. *)
Definition apply_second_chance (eval : EvalResult.t) (outcome : option SecondChanceOutcome)
    : EvalResult.t :=
  match outcome with
  | Some (Withdrawn _) =>
      EvalResult.mk None None (EvalResult.fee_tier eval) (EvalResult.min_avg_fee_used eval)
        (EvalResult.warnings eval) (EvalResult.shield_skipped eval) (EvalResult.phase2 eval)
  | _ => eval
  end.

(** The label of [verifier_phase2_checks_total]. *)
Definition phase2_result_label (phase2 : Phase2Attribution) (outcome : option SecondChanceOutcome)
    : option string :=
  match phase2, outcome with
  | P2NotRun, _ => None
  | P2Agreed, _ => Some "agreed"%string
  | P2Stale, _ => Some "stale"%string
  | P2SkippedDegraded, _ => Some "skipped"%string
  | P2SkippedUnprimed, _ => Some "unprimed"%string
  | P2Rejected _ _, Some (Withdrawn _) => Some "recovered"%string
  | P2Rejected _ _, _ => Some "rejected"%string
  end.

Definition policy_context (cfg : PolicyConfig.t) (eval : EvalResult.t) : PolicyContext.t :=
  PolicyContext.mk (Some (FeeTier_as_str (EvalResult.fee_tier eval)))
    (Some (EvalResult.min_avg_fee_used eval)) (Some (PolicyConfig.min_total_fees cfg))
    (Some (PolicyConfig.reject_coinbase_zero cfg)) (Some (PolicyConfig.unknown_mempool_as_high cfg))
    (Some (PolicySafety.max_weight_ratio (PolicyConfig.safety cfg)))
    (PolicySafety.max_template_age_ms (PolicyConfig.safety cfg)).

(** The evaluation of one proposal by the ingress loop, from the policy to the verdict it
    sends, with the metric label it counts. *)
Definition judge_template (cfg : PolicyConfig.t) (view : option MempoolSnapshot.t)
    (mempool_tx : option Z) (now_ms : Z) (enabled timed_out : bool) (propose : TemplatePropose.t)
    : TemplateVerdict.t * option SecondChanceOutcome * option string :=
  let eval := match view with
              | Some snap => evaluate_dynamic_phase2 propose cfg (Some snap) mempool_tx now_ms
              | None => evaluate_dynamic propose cfg mempool_tx now_ms
              end in
  let second_chance :=
    run_second_chance enabled timed_out (EvalResult.phase2 eval)
      (TemplatePropose.block_height propose)
      (PolicyMempool.tolerance_pct (PolicyConfig.mempool cfg)) in
  let eval := apply_second_chance eval second_chance in
  let accepted := match EvalResult.reason eval with None => true | Some _ => false end in
  let label := match view with
               | Some _ => phase2_result_label (EvalResult.phase2 eval) second_chance
               | None => None
               end in
  (TemplateVerdict.mk PROTOCOL_VERSION (TemplatePropose.id propose) accepted
     (EvalResult.reason eval) (EvalResult.detail eval) (Some (policy_context cfg eval)),
   second_chance, label).

End Ingress.

(** [compute_avg_fee_sats_per_tx], the average that is logged. *)
Definition compute_avg_fee_sats_per_tx (t : TemplatePropose.t) : Z :=
  if TemplatePropose.tx_count t =? 0 then 0
  else TemplatePropose.total_fees t / TemplatePropose.tx_count t.

(** * Properties *)

(** ** Reason codes *)

(** (reason codes): [as_str] and the serialised name agree for every reason, the table
    [ALL_CODES] lists the codes of [ALL] in order, and the codes are pairwise distinct. Every
    violation of the consensus facade reaches the wire under its own code, except the
    sentinel [NotImplemented], which is reported as an internal error. *)
Theorem reason_codes_agree :
  (forall r, VerdictReason_as_str r = VerdictReason_serde_name r) /\
  VerdictReason_as_str <$> VerdictReason_ALL = VerdictReason_ALL_CODES /\
  (forall r, r ∈ VerdictReason_ALL) /\
  Inj (=) (=) VerdictReason_as_str /\
  (forall v, v <> NotImplemented ->
    VerdictReason_as_str (consensus_violation_to_verdict_reason v) = as_reason_code v) /\
  consensus_violation_to_verdict_reason NotImplemented = InternalError.
Proof.
  split_and!; [by intros []|done|apply VerdictReason_ALL_complete|apply _|by intros []|done].
Qed.

(** ** The shield *)

(** A block that satisfies the rules the shield enforces on its own, without reference to what
    the template declares. *)
Record block_valid `{BitcoinLib} (b : Block.t) (coinbase : Transaction.t) : Prop := {
  bv_coinbase : exists i rest, Block.txdata b = coinbase :: rest /\
    Transaction.input coinbase = [i] /\ outpoint_is_null (TxIn.previous_output i) = true /\
    2 <= lenZ (TxIn.script_sig i) <= 100 /\
    Forall (fun tx => Forall (fun j => outpoint_is_null (TxIn.previous_output j) = false)
                        (Transaction.input tx)) rest;
  bv_outputs : Transaction.output coinbase <> [];
  bv_money : Forall (fun o => TxOut.value o <= MAX_MONEY_SATS) (Transaction.output coinbase) /\
    coinbase_total coinbase <= MAX_MONEY_SATS;
  bv_merkle : compute_merkle_root b = Some (Header.merkle_root (Block.header b));
  bv_witness : has_witness b = false \/
    exists root, witness_root b = Some root /\
      extract_witness_commitment_from_coinbase coinbase = Some (witness_commitment root coinbase);
  bv_weight : block_weight b <= MAX_BLOCK_WEIGHT_WU;
  bv_sigops : 4 * sigops_of (Block.txdata b) <= MAX_BLOCK_SIGOPS_COST;
  bv_version : 4 <= Header.version (Block.header b);
  bv_unique : NoDup (compute_txid <$> Block.txdata b)
}.

(** What the template declares agrees with the block: exactly for the value, the weight, the
    count and the height, and from above for the two sigop costs. *)
Record declared_agrees `{BitcoinLib} (t : TemplatePropose.t) (b : Block.t)
    (coinbase : Transaction.t) : Prop := {
  da_value : TemplatePropose.coinbase_value t = coinbase_total coinbase;
  da_weight : forall w, TemplatePropose.template_weight t = Some w -> non_coinbase_tx_weight b = w;
  da_count : TemplatePropose.tx_count t = Z.min (lenZ (Block.txdata b)) u32_max - 1;
  da_sigops : forall w, TemplatePropose.total_sigops t = Some w ->
    4 * sigops_of (drop 1 (Block.txdata b)) <= w;
  da_coinbase_sigops : forall w, TemplatePropose.coinbase_sigops t = Some w ->
    4 * tx_sigops coinbase <= w;
  da_height : exists i, head (Transaction.input coinbase) = Some i /\
    decode_bip34_height (TxIn.script_sig i) = Some (TemplatePropose.block_height t)
}.

Lemma map_err_ok {T E F} (f : E -> F) (r : result T E) t : map_err f r = Ok t <-> r = Ok t.
Proof. destruct r; simpl; split; congruence. Qed.

Lemma require_ok b e : require b e = Ok tt <-> b = true.
Proof. destruct b; simpl; split; congruence. Qed.

(** A chain of checks passes exactly when every check passes. *)
Lemma bind_unit_ok {E T} (r : result unit E) (k : result T E) t :
  (let? _ := r in k) = Ok t <-> r = Ok tt /\ k = Ok t.
Proof. rewrite result_bind_ok. split; [intros ([] & ? & ?); done|intros []; eauto]. Qed.

Lemma run_checks_ok `{BitcoinLib} checks parsed :
  run_checks checks parsed = Ok tt <-> Forall (fun c => c parsed = Ok tt) checks.
Proof.
  induction checks as [|c cs IH]; cbn [run_checks]; [split; constructor|].
  rewrite bind_unit_ok, IH, Forall_cons. done.
Qed.

Section ShieldSpec.
Context `{HexCrate} `{BitcoinLaws}.
Implicit Types (t : TemplatePropose.t) (b : Block.t).

(** The unsigned 32-bit ranges of the two declared sigop costs are what keeps the clamped
    legacy count from hiding a violation. *)
Lemma check_sigops_floor_ok r f declared txs :
  (forall w, declared = Some w -> in_u 32 w) ->
  check_sigops_floor r f declared (sum_legacy_sigops txs) = Ok tt <->
  forall w, declared = Some w -> 4 * sigops_of txs <= w.
Proof.
  intros Hw. unfold check_sigops_floor. destruct declared as [w|]; [|split; done].
  specialize (Hw w eq_refl). pose proof (sigops_of_nonneg txs).
  rewrite require_ok, negb_true_iff, sum_legacy_sigops_spec.
  unfold in_u, saturating_mul, u32_max in *. split.
  - intros Hx w' [= <-]. z_bool. lia.
  - intros Hx. specialize (Hx w eq_refl). rewrite Z.gtb_ltb. apply Z.ltb_ge. lia.
Qed.

Lemma tier3_ok raw b : deserialize_block raw = Some b ->
  run_checks tier3_checks b = Ok tt <->
  check_coinbase_script_length b = Ok tt /\ check_coinbase_output_count b = Ok tt /\
  block_weight b <= MAX_BLOCK_WEIGHT_WU /\
  4 * sigops_of (Block.txdata b) <= MAX_BLOCK_SIGOPS_COST /\
  (exists cb, head (Block.txdata b) = Some cb /\
    Forall (fun o => TxOut.value o <= MAX_MONEY_SATS) (Transaction.output cb) /\
    coinbase_total cb <= MAX_MONEY_SATS) /\
  check_non_coinbase_null_prevout b = Ok tt /\ check_coinbase_null_prevout b = Ok tt /\
  4 <= Header.version (Block.header b) /\ NoDup (compute_txid <$> Block.txdata b).
Proof.
  intros Hd. rewrite run_checks_ok. unfold tier3_checks. rewrite !Forall_cons, Forall_nil.
  rewrite check_weight_max_ok, check_sigops_max_ok, (check_coinbase_value_max_ok raw b Hd),
    check_header_version_ok, check_duplicate_tx_ok. tauto.
Qed.

Definition declared_checks t b (raw : bytes) : Prop :=
  (exists v, re_derive_coinbase_value raw = Ok v /\ v = TemplatePropose.coinbase_value t) /\
  (forall w, TemplatePropose.template_weight t = Some w -> non_coinbase_tx_weight b = w) /\
  saturating_sub (tx_count b) 1 = TemplatePropose.tx_count t /\
  (forall w, TemplatePropose.total_sigops t = Some w ->
    4 * sigops_of (drop 1 (Block.txdata b)) <= w) /\
  (forall w, TemplatePropose.coinbase_sigops t = Some w ->
    4 * sigops_of (take 1 (Block.txdata b)) <= w) /\
  bip34_height b = Ok (TemplatePropose.block_height t).

Lemma check_declared_weight_ok declared b :
  check_declared_weight declared b = Ok tt <->
  forall w, declared = Some w -> non_coinbase_tx_weight b = w.
Proof.
  unfold check_declared_weight. destruct declared as [w|]; [|done].
  rewrite require_ok, Z.eqb_eq. split; [intros ? ? [= <-]; done|eauto].
Qed.

Lemma parse_block_ok raw b : parse_block raw = Ok b <-> deserialize_block raw = Some b.
Proof. unfold parse_block. destruct (deserialize_block raw); split; congruence. Qed.

Lemma shield_phase1_ok t hex b : TemplatePropose.wf t ->
  shield_phase1 t hex = Ok b <->
  exists raw, hex_decode hex = Ok raw /\ deserialize_block raw = Some b /\
    declared_checks t b raw /\ check_merkle_root_internal b = Ok tt /\
    check_witness_commitment_internal b = Ok tt /\ run_checks tier3_checks b = Ok tt.
Proof.
  intros (_ & _ & _ & _ & _ & _ & _ & _ & Hs & Hc & _).
  unfold shield_phase1, declared_checks, non_coinbase_sigops, coinbase_sigops. cbv zeta. split.
  - intros Hx. apply result_bind_ok in Hx as (raw & Hraw%map_err_ok & Hx).
    apply result_bind_ok in Hx as (b0 & Hb0%map_err_ok & Hx).
    apply result_bind_ok in Hx as (v & Hv%map_err_ok & Hx).
    apply bind_unit_ok in Hx as (K1%require_ok%Z.eqb_eq & Hx).
    apply bind_unit_ok in Hx as (K2 & Hx).
    do 3 (apply bind_unit_ok in Hx as (?K3%map_err_ok & Hx)).
    apply bind_unit_ok in Hx as (K6%require_ok%Z.eqb_eq & Hx).
    apply bind_unit_ok in Hx as (K7 & Hx).
    apply bind_unit_ok in Hx as (K8 & Hx).
    apply result_bind_ok in Hx as (h & Hh%map_err_ok & Hx).
    apply bind_unit_ok in Hx as (K9%require_ok%Z.eqb_eq & Hx).
    apply bind_unit_ok in Hx as (K10%map_err_ok & [= <-]). subst h.
    rewrite check_declared_weight_ok in K2. rewrite check_sigops_floor_ok in K7, K8 by done.
    apply parse_block_ok in Hb0. exists raw. split_and!; eauto.
  - intros (raw & Hraw & Hb & ((v & Hv & K1) & K2 & K3 & K4 & K5 & K6) & K7 & K8 & K9).
    apply result_bind_ok. exists raw. rewrite map_err_ok. split; [done|].
    apply result_bind_ok. exists b. rewrite map_err_ok, parse_block_ok. split; [done|].
    apply result_bind_ok. exists v. rewrite map_err_ok. split; [done|].
    rewrite !bind_unit_ok, !map_err_ok, !require_ok, !Z.eqb_eq, !check_sigops_floor_ok,
      check_coinbase_bip34_present_ok by done.
    split_and!; try done; [by apply check_declared_weight_ok|by eexists|].
    rewrite K6. cbn [map_err result_bind]. rewrite Z.eqb_refl, K9. done.
Qed.

Lemma single_coinbase_sigops cb : sigops_of [cb] = tx_sigops cb.
Proof. unfold sigops_of, sumZ. cbn. lia. Qed.

Lemma declared_count b cb rest n : Block.txdata b = cb :: rest ->
  saturating_sub (tx_count b) 1 = n <-> n = Z.min (lenZ (Block.txdata b)) u32_max - 1.
Proof.
  intros Hb. unfold tx_count, saturating_sub. rewrite clamp_u_min.
  assert (1 <= lenZ (Block.txdata b)) by (rewrite Hb; unfold lenZ; cbn [length]; lia).
  unfold u32_max. lia.
Qed.

Lemma declared_value t b raw cb : deserialize_block raw = Some b ->
  head (Block.txdata b) = Some cb -> coinbase_total cb <= MAX_MONEY_SATS ->
  (exists v, re_derive_coinbase_value raw = Ok v /\ v = TemplatePropose.coinbase_value t) <->
  TemplatePropose.coinbase_value t = coinbase_total cb.
Proof.
  intros Hd Hcb Hm. rewrite (re_derive_coinbase_value_eq raw b cb Hd Hcb).
  rewrite (proj2 (Z.leb_le _ _)) by (unfold MAX_MONEY_SATS, u64_max in *; lia).
  split; [intros (? & [= <-] & ?); done|eauto].
Qed.

(** What the checks establish one by one is the declarative description of the block. *)
Lemma checks_describe t b raw : deserialize_block raw = Some b ->
  (declared_checks t b raw /\ check_merkle_root_internal b = Ok tt /\
   check_witness_commitment_internal b = Ok tt /\ run_checks tier3_checks b = Ok tt) <->
  exists cb, block_valid b cb /\ declared_agrees t b cb.
Proof.
  intros Hd. rewrite (tier3_ok raw b Hd), check_merkle_root_internal_ok,
    check_witness_commitment_internal_ok, check_coinbase_script_length_ok,
    check_coinbase_output_count_ok, check_non_coinbase_null_prevout_ok,
    check_coinbase_null_prevout_ok. unfold declared_checks. rewrite bip34_height_ok.
  split.
  - intros ((Hval & Hw & Hcnt & Hs & Hc & cb0 & i0 & Hcb0 & Hi0 & Hh) & Hm & (cb1 & Hcb1 & Hwit)
            & (cb2 & i2 & Hcb2 & Hi2 & Hlen) & (cb3 & Hcb3 & Hout) & Hwt & Hsig
            & (cb4 & Hcb4 & Hmon) & Hnn & (cb & i & rest & Hb & Hin & Hnull) & Hver & Hdup).
    assert (head (Block.txdata b) = Some cb) as Hhd by (by rewrite Hb).
    assert (cb0 = cb) as -> by congruence. assert (cb1 = cb) as -> by congruence.
    assert (cb2 = cb) as -> by congruence. assert (cb3 = cb) as -> by congruence.
    assert (cb4 = cb) as -> by congruence.
    assert (head (Transaction.input cb) = Some i) as Hhi by (by rewrite Hin).
    assert (i0 = i) as -> by congruence. assert (i2 = i) as -> by congruence.
    rewrite (declared_value t b raw cb Hd Hhd (proj2 Hmon)) in Hval.
    rewrite (declared_count b cb rest _ Hb) in Hcnt.
    rewrite Hb in Hnn, Hc. cbn [drop take] in Hnn, Hc. rewrite single_coinbase_sigops in Hc.
    exists cb. split; split; eauto 10.
  - intros (cb & [(i & rest & Hb & Hin & Hnull & Hlen & Hnn) Hout Hmon Hm Hwit Hwt Hsig Hver Hdup]
               & [Hval Hw Hcnt Hs Hc (i' & Hi' & Hh)]).
    assert (head (Block.txdata b) = Some cb) as Hhd by (by rewrite Hb).
    rewrite <-(declared_value t b raw cb Hd Hhd (proj2 Hmon)) in Hval.
    rewrite <-(declared_count b cb rest _ Hb) in Hcnt.
    assert (head (Transaction.input cb) = Some i) as Hhi by (by rewrite Hin).
    assert (forall w, TemplatePropose.coinbase_sigops t = Some w ->
      4 * sigops_of (take 1 (Block.txdata b)) <= w)
      by (rewrite Hb; cbn [take]; by rewrite single_coinbase_sigops).
    split_and!; eauto 10. by rewrite Hb.
Qed.

(** C3 (the shield): for every template whose fields are in range, the Invariant Shield agrees
    exactly when the template carries the hex of bytes that parse to a valid block (one
    coinbase, in first position and well formed; a matching merkle root and witness
    commitment; weight, sigop, money, version and uniqueness rules) and everything the
    template declares agrees with that block. *)
Theorem shield_agrees_iff t : TemplatePropose.wf t ->
  check_invariant_shield t = ShieldAgreed <->
  exists hex raw b cb, TemplatePropose.raw_block_hex t = Some hex /\ hex_decode hex = Ok raw /\
    deserialize_block raw = Some b /\ block_valid b cb /\ declared_agrees t b cb.
Proof.
  intros Hwf. unfold check_invariant_shield, check_invariant_shield_inner.
  destruct (TemplatePropose.raw_block_hex t) as [hex|]; [|split; [done|by intros (? & ? & ? & ? & ? & _)]].
  transitivity (exists b, shield_phase1 t hex = Ok b).
  { destruct (shield_phase1 t hex) as [b|[]]; cbn; (split; [intros Hx|intros [b' Hx]]); try done. by exists b. }
  split.
  - intros (b & Hb). apply shield_phase1_ok in Hb as (raw & Hr & Hd & Hx); [|done].
    apply (checks_describe t b raw Hd) in Hx as (cb & ? & ?). eauto 10.
  - intros (hex' & raw & b & cb & [= <-] & Hr & Hd & Hv & Ha). exists b.
    apply shield_phase1_ok; [done|]. exists raw. split; [done|]. split; [done|].
    apply (checks_describe t b raw Hd). eauto.
Qed.

End ShieldSpec.

(** ** Acceptance *)

(** The policy stages before the shield, as a proposition. *)
Record policy_ok (t : TemplatePropose.t) (cfg : PolicyConfig.t) (min_avg now_ms : Z) : Prop := {
  po_version : TemplatePropose.version t = PolicyConfig.protocol_version cfg;
  po_prev_len : strlen (TemplatePropose.prev_hash t) = PolicyConfig.required_prevhash_len cfg;
  po_prev_hex : is_hex (TemplatePropose.prev_hash t) = true;
  po_nonempty : PolicyConfig.reject_empty_templates cfg = true -> TemplatePropose.tx_count t <> 0;
  po_coinbase : PolicyConfig.reject_coinbase_zero cfg = true ->
    0 < TemplatePropose.tx_count t -> TemplatePropose.coinbase_value t <> 0;
  po_max_tx : TemplatePropose.tx_count t <= PolicyConfig.max_tx_count cfg;
  po_fees : PolicyConfig.min_total_fees cfg <= TemplatePropose.total_fees t;
  (** The true average is at least the minimum: no rounding in either direction. *)
  po_avg : 0 < min_avg -> 0 < TemplatePropose.tx_count t ->
    min_avg * TemplatePropose.tx_count t <= TemplatePropose.total_fees t;
  po_weight : PolicySafety.enforce_weight_ratio (PolicyConfig.safety cfg) = true ->
    weight_finding t cfg = None;
  po_age : PolicySafety.enforce_template_age (PolicyConfig.safety cfg) = true ->
    age_finding t cfg now_ms = None
}.

Lemma floor_average_exact total n m : 0 < n -> total / n < m <-> total < m * n.
Proof.
  intros Hn. split; intros Hx.
  - apply Z.nle_gt. intros Hc. rewrite Z.mul_comm in Hc.
    apply (Z.div_le_lower_bound total n m Hn) in Hc. lia.
  - apply Z.div_lt_upper_bound; lia.
Qed.

(** An early return is not taken exactly when its guard is false. *)
Lemma guard_none {A} (b : bool) (x : A) k :
  (if b then Some x else k) = None <-> b = false /\ k = None.
Proof. destruct b; naive_solver. Qed.

Lemma check_basic_validity_none t cfg tier m :
  check_basic_validity t cfg tier m = None <->
  TemplatePropose.version t = PolicyConfig.protocol_version cfg /\
  strlen (TemplatePropose.prev_hash t) = PolicyConfig.required_prevhash_len cfg /\
  is_hex (TemplatePropose.prev_hash t) = true.
Proof.
  unfold check_basic_validity. rewrite !guard_none, !negb_false_iff, !Z.eqb_eq. tauto.
Qed.

Lemma check_template_constraints_none t cfg tier m :
  check_template_constraints t cfg tier m = None <->
  (PolicyConfig.reject_empty_templates cfg = true -> TemplatePropose.tx_count t <> 0) /\
  (PolicyConfig.reject_coinbase_zero cfg = true ->
     0 < TemplatePropose.tx_count t -> TemplatePropose.coinbase_value t <> 0) /\
  TemplatePropose.tx_count t <= PolicyConfig.max_tx_count cfg /\
  PolicyConfig.min_total_fees cfg <= TemplatePropose.total_fees t /\
  (0 < m -> 0 < TemplatePropose.tx_count t ->
    m * TemplatePropose.tx_count t <= TemplatePropose.total_fees t).
Proof.
  unfold check_template_constraints. cbv zeta. rewrite !guard_none.
  set (n := TemplatePropose.tx_count t). set (f := TemplatePropose.total_fees t).
  assert ((if (m >? 0) && (n >? 0)
           then if f / n <? m then Some (reject_early tier m AvgFeeBelowMinimum
             ("avg_fee=" +:+ pretty (f / n) +:+ " < min_avg_fee_used=" +:+ pretty m)%string []) else None
           else None) = None <-> (0 < m -> 0 < n -> m * n <= f)) as ->.
  { destruct (m >? 0) eqn:E1, (n >? 0) eqn:E2; z_bool; cbn [andb];
      try (split; [intros; lia|done]).
    rewrite guard_none, Z.ltb_ge. pose proof (floor_average_exact f n m ltac:(lia)).
    split; [lia|]. intros Hx. split; [|done]. specialize (Hx ltac:(lia) ltac:(lia)). lia. }
  rewrite Z.gtb_ltb, !Z.ltb_ge, !andb_false_iff, !Z.eqb_neq, Z.gtb_ltb, Z.ltb_ge.
  destruct (PolicyConfig.reject_empty_templates cfg), (PolicyConfig.reject_coinbase_zero cfg);
    split; intros Hx; decompose [and] Hx; split_and!; try done; try lia;
    intros; try lia; destruct_or?; try done; try lia; auto.
Qed.

Lemma observe_ok tier m f enforce ws :
  (exists ws', observe tier m f enforce ws = Ok ws') <-> (enforce = true -> f = None).
Proof.
  destruct f, enforce; cbn; split; intros Hx; eauto; try (destruct Hx; done).
  by specialize (Hx eq_refl).
Qed.

Lemma observe_false tier m f ws :
  observe tier m f false ws = Ok (ws ++ match f with Some w => [w] | None => [] end).
Proof. destruct f; cbn; by rewrite ?app_nil_r. Qed.

Lemma check_safety_constraints_ok t cfg now ws tier m :
  (exists ws', check_safety_constraints t cfg now ws tier m = Ok ws') <->
  (PolicySafety.enforce_weight_ratio (PolicyConfig.safety cfg) = true ->
     weight_finding t cfg = None) /\
  (PolicySafety.enforce_template_age (PolicyConfig.safety cfg) = true ->
     age_finding t cfg now = None).
Proof.
  unfold check_safety_constraints. cbv zeta.
  rewrite <-(observe_ok tier m (weight_finding t cfg) _ ws). split.
  - intros [ws' Hx]. apply result_bind_ok in Hx as (ws1 & H1 & Hx).
    apply result_bind_ok in Hx as (ws2 & H2 & _). split; [by exists ws1|].
    apply (observe_ok tier m _ _ ws1). by exists ws2.
  - intros [[ws1 H1] H2]. apply (observe_ok tier m _ _ ws1) in H2 as [ws2 H2].
    rewrite H1. cbn [result_bind]. rewrite H2. cbn [result_bind].
    rewrite observe_false. cbn [result_bind]. rewrite observe_false. by eexists.
Qed.

(** What every rejection before the shield looks like. *)
Definition early (tier : FeeTier) (m : Z) (r : EvalResult.t) : Prop :=
  exists why d ws, r = reject_early tier m why d ws /\ why <> V2InvariantMempoolToleranceExceeded.

Lemma early_intro tier m why d ws :
  why <> V2InvariantMempoolToleranceExceeded -> early tier m (reject_early tier m why d ws).
Proof. intros. by exists why, d, ws. Qed.

Lemma basic_early t cfg tier m r : check_basic_validity t cfg tier m = Some r -> early tier m r.
Proof.
  unfold check_basic_validity. intros. repeat case_if; simplify_eq; by apply early_intro.
Qed.

Lemma constraints_early t cfg tier m r :
  check_template_constraints t cfg tier m = Some r -> early tier m r.
Proof.
  unfold check_template_constraints. cbv zeta. intros.
  repeat case_if; simplify_eq; by apply early_intro.
Qed.

Lemma observe_err tier m f enforce ws r :
  observe tier m f enforce ws = Err r ->
  enforce = true /\ exists w, f = Some w /\ r = reject_early tier m (w_reason w) (w_detail w) ws.
Proof. destruct f, enforce; cbn; naive_solver. Qed.

Lemma safety_early t cfg now ws tier m r :
  check_safety_constraints t cfg now ws tier m = Err r -> early tier m r.
Proof.
  unfold check_safety_constraints. cbv zeta.
  destruct (observe tier m (weight_finding t cfg) _ ws) as [ws1|e1] eqn:E1; cbn [result_bind].
  - destruct (observe tier m (age_finding t cfg now) _ ws1) as [ws2|e2] eqn:E2; cbn [result_bind].
    + rewrite observe_false. cbn [result_bind]. by rewrite observe_false.
    + apply observe_err in E2 as (_ & w & Hw & ->). intros [= <-].
      apply early_intro. unfold age_finding in Hw. repeat case_match; by simplify_eq.
  - apply observe_err in E1 as (_ & w & Hw & ->). intros [= <-].
    apply early_intro. unfold weight_finding in Hw. repeat case_match; by simplify_eq.
Qed.

Section Accept.
Context `{HexCrate} `{BitcoinLib}.

(** The template does not reach the shield's rejections: either it carries no block, or it
    passes Phase 1 and, when a view is supplied, the Class M check does not reject it. *)
Definition shield_passes (t : TemplatePropose.t) (cfg : PolicyConfig.t)
    (view : option MempoolSnapshot.t) : Prop :=
  TemplatePropose.raw_block_hex t = None \/
  exists hex b, TemplatePropose.raw_block_hex t = Some hex /\ shield_phase1 t hex = Ok b /\
    forall s, view = Some s -> forall unknown total,
      mempool_evaluate s (template_txids b)
        (PolicyMempool.tolerance_pct (PolicyConfig.mempool cfg)) <> ToleranceExceeded unknown total.

Lemma shield_inner_passes t cfg view :
  (exists o p, check_invariant_shield_inner t
     ((fun snap => (snap, PolicyMempool.tolerance_pct (PolicyConfig.mempool cfg),
                    PolicyMempool.per_tx_detail (PolicyConfig.mempool cfg))) <$> view) = (o, p) /\
     (o = ShieldSkipped \/ o = ShieldAgreed)) <-> shield_passes t cfg view.
Proof.
  unfold check_invariant_shield_inner, shield_passes.
  destruct (TemplatePropose.raw_block_hex t) as [hex|].
  2: { split; [by left|]. intros _. eauto. }
  destruct (shield_phase1 t hex) as [b|[why d]] eqn:E1.
  - destruct view as [s|]; cbn [fmap option_fmap option_map shield_class_m].
    + destruct (mempool_evaluate s _ _) eqn:E2; split; intros Hx.
      all: try (do 2 eexists; split; [done|by right]).
      all: try (right; exists hex, b; split_and!; [done..|]; intros ? [= <-] ? ?; congruence).
      * destruct Hx as (? & ? & Heq & [-> | ->]); by cbv zeta in Heq.
      * destruct Hx as [?|(? & b' & [= <-] & Hb' & Hx)]; [done|].
        assert (b' = b) as -> by congruence. by destruct (Hx s eq_refl _ _ E2).
    + split; intros _; [|eauto]. right. exists hex, b. by split_and!.
  - split; [by intros (? & ? & ? & [-> | ->])|].
    intros [?|(? & ? & [= <-] & ? & _)]; congruence.
Qed.

(** C5 (acceptance): a template is accepted exactly when it satisfies every policy rule, with
    the average-fee rule decided exactly, and the shield does not reject it. Warnings of the
    observe-only checks never influence the verdict. *)
Theorem evaluate_accepts_iff t cfg view mempool_tx now :
  EvalResult.reason (evaluate_dynamic_inner t cfg view mempool_tx now) = None <->
  policy_ok t cfg (PolicyConfig.effective_min_avg_fee_dynamic cfg mempool_tx).1 now /\
  shield_passes t cfg view.
Proof.
  unfold evaluate_dynamic_inner.
  destruct (PolicyConfig.effective_min_avg_fee_dynamic cfg mempool_tx) as [m tier]. cbn [fst].
  destruct (check_basic_validity t cfg tier m) as [r|] eqn:E1.
  { pose proof (basic_early _ _ _ _ _ E1) as (? & ? & ? & -> & _).
    split; [done|]. intros [[] _]. rewrite (proj2 (check_basic_validity_none t cfg tier m)) in E1; done. }
  destruct (check_template_constraints t cfg tier m) as [r|] eqn:E2.
  { pose proof (constraints_early _ _ _ _ _ E2) as (? & ? & ? & -> & _).
    split; [done|]. intros [[] _].
    rewrite (proj2 (check_template_constraints_none t cfg tier m)) in E2; done. }
  apply check_basic_validity_none in E1 as (? & ? & ?).
  apply check_template_constraints_none in E2 as (? & ? & ? & ? & ?).
  pose proof (check_safety_constraints_ok t cfg now [] tier m) as Hs.
  destruct (check_safety_constraints t cfg now [] tier m) as [ws|r] eqn:E3.
  - assert (Hw := proj1 Hs (ex_intro _ ws eq_refl)). destruct Hw as [? ?].
    rewrite <-shield_inner_passes. destruct (check_invariant_shield_inner t _) as [o p].
    split.
    + intros Hr. split; [by split|]. exists o, p. split; [done|]. destruct o; auto; done.
    + intros (_ & o' & p' & [= <- <-] & [-> | ->]); done.
  - pose proof (safety_early _ _ _ _ _ _ _ E3) as (? & ? & ? & -> & _).
    split; [done|]. intros [[] _]. by destruct (proj2 Hs) as [? ?].
Qed.
End Accept.

(** ** Attribution of a Class M rejection *)

Definition class_m (v : ConsensusViolation) : bool :=
  match v with
  | MempoolTxUnknown _ | MempoolToleranceExceeded _ _ | MempoolUnavailable | MempoolViewStale _ =>
      true
  | _ => false
  end.

(** A computation that fails only with violations of the first predicate's complement. *)
Definition fails_within {T E} (P : E -> Prop) (r : result T E) : Prop := forall e, r = Err e -> P e.

Lemma fails_within_bind {T U E} (P : E -> Prop) (r : result T E) (k : T -> result U E) :
  fails_within P r -> (forall x, fails_within P (k x)) -> fails_within P (result_bind r k).
Proof. intros Hr Hk e. destruct r; cbn; [apply Hk|]. intros [= ->]. by apply Hr. Qed.

Lemma fails_within_ok {T E} (P : E -> Prop) (x : T) : fails_within P (Ok x).
Proof. done. Qed.

Lemma fails_within_err {T E} (P : E -> Prop) (e : E) : P e -> fails_within (T := T) P (Err e).
Proof. intros ? ? [= <-]. done. Qed.

Lemma fails_within_ok_or {T E} (P : E -> Prop) (o : option T) (e : E) :
  P e -> fails_within P (ok_or o e).
Proof. destruct o; [done|]. intros ? ? [= <-]. done. Qed.

Lemma fails_within_map_err {T E F} (P : E -> Prop) (Q : F -> Prop) (f : E -> F) (r : result T E) :
  fails_within P r -> (forall e, P e -> Q (f e)) -> fails_within Q (map_err f r).
Proof. intros Hr Hf e. destruct r; cbn; [done|]. intros [= <-]. by apply Hf, Hr. Qed.

(** Walk a chain of checks down to its error constructors. *)
Ltac failures :=
  repeat first
    [ apply fails_within_ok | (apply fails_within_err; done) | (apply fails_within_ok_or; done)
    | (apply fails_within_bind; [|intros ?]) | case_match ].

Section Attribution.
Context `{HexCrate} `{BitcoinLib}.

(** Failing, but never with a Class M violation. *)
Definition structural {T} (r : result T ConsensusViolation) : Prop :=
  fails_within (fun v => class_m v = false) r.

Lemma money_range_structural total outs : structural (money_range_total total outs).
Proof.
  revert total. induction outs as [|o outs IH]; intros total; cbn [money_range_total]; [done|].
  unfold structural in *. failures. apply IH.
Qed.

Lemma insert_all_structural seen txs : structural (insert_all_txids seen txs).
Proof.
  revert seen. induction txs as [|tx txs IH]; intros seen; cbn [insert_all_txids]; [done|].
  case_bool_decide; [by apply fails_within_err|apply IH].
Qed.

Lemma run_checks_structural checks b :
  Forall (fun c => structural (c b)) checks -> structural (run_checks checks b).
Proof. unfold structural. induction 1; cbn [run_checks]; failures; done. Qed.

Lemma tier3_structural b : structural (run_checks tier3_checks b).
Proof.
  apply run_checks_structural. unfold tier3_checks, structural. rewrite !Forall_cons.
  split_and!; try done;
    unfold check_coinbase_script_length, check_coinbase_output_count, check_weight_max,
      check_sigops_max, check_coinbase_value_max, check_non_coinbase_null_prevout,
      check_coinbase_null_prevout, check_header_version, check_duplicate_tx, first_tx, first_input;
    failures; [apply money_range_structural|apply insert_all_structural].
Qed.

(** No check before the Class M section rejects with the Class M reason. *)
Lemma phase1_not_class_m t hex :
  fails_within (fun e => e.1 <> V2InvariantMempoolToleranceExceeded) (shield_phase1 t hex).
Proof.
  assert (forall T (r : result T ConsensusViolation), structural r ->
    fails_within (fun e => e.1 <> V2InvariantMempoolToleranceExceeded) (map_err of_violation r)) as Hv.
  { intros T r Hr. eapply fails_within_map_err; [exact Hr|]. by intros []. }
  assert (forall b e, e.1 <> V2InvariantMempoolToleranceExceeded ->
    fails_within (fun e => e.1 <> V2InvariantMempoolToleranceExceeded) (require b e)) as Hq.
  { intros [] e He; [done|]. by apply fails_within_err. }
  unfold shield_phase1. apply fails_within_bind.
  { apply (fails_within_map_err (fun _ => True)); done. }
  intros raw. repeat (apply fails_within_bind; [|intros ?]); try (apply Hq; done); try done;
    try (apply Hv, tier3_structural); try apply Hv; unfold structural.
  all: unfold check_declared_weight, check_sigops_floor, parse_block, re_derive_coinbase_value,
      check_merkle_root_internal, check_witness_commitment_internal, check_coinbase_bip34_present,
      bip34_height, parse_block, first_tx, first_input; failures; try (apply Hq; done).
Qed.

(** What the evaluation reports about itself is consistent. *)
Record report_ok (t : TemplatePropose.t) (view : option MempoolSnapshot.t) (r : EvalResult.t)
    : Prop := {
  (** A message accompanies a reason and nothing else. *)
  ro_detail : is_Some (EvalResult.detail r) <-> is_Some (EvalResult.reason r);
  (** The evidence for the second chance is present exactly for a Class M rejection. *)
  ro_class_m : EvalResult.reason r = Some V2InvariantMempoolToleranceExceeded <->
    exists unknown total, EvalResult.phase2 r = P2Rejected unknown total;
  (** Class M is only ever attributed when a view was supplied and a block was present. *)
  ro_ran : EvalResult.phase2 r <> P2NotRun ->
    is_Some view /\ is_Some (TemplatePropose.raw_block_hex t);
  (** A skipped shield means the template carried no block and was not rejected. *)
  ro_skipped : EvalResult.shield_skipped r = true ->
    TemplatePropose.raw_block_hex t = None /\ EvalResult.reason r = None
}.

Lemma early_report t view tier m r : early tier m r -> report_ok t view r.
Proof.
  intros (why & d & ws & -> & Hwhy). split; cbn; try done.
  split; [congruence|]. by intros (? & ? & ?).
Qed.

Ltac solve_report :=
  solve [ done | by eauto | by split; intros [? ?] | split; [congruence|by intros (?&?&?)] | by split; eauto ].

Lemma evaluate_report t cfg view mempool_tx now :
  report_ok t view (evaluate_dynamic_inner t cfg view mempool_tx now).
Proof.
  unfold evaluate_dynamic_inner.
  destruct (PolicyConfig.effective_min_avg_fee_dynamic cfg mempool_tx) as [m tier].
  destruct (check_basic_validity t cfg tier m) as [r|] eqn:E1; [by eapply early_report, basic_early|].
  destruct (check_template_constraints t cfg tier m) as [r|] eqn:E2;
    [by eapply early_report, constraints_early|].
  destruct (check_safety_constraints t cfg now [] tier m) as [ws|r] eqn:E3;
    [|by eapply early_report, safety_early].
  unfold check_invariant_shield_inner.
  destruct (TemplatePropose.raw_block_hex t) as [hex|] eqn:Hr.
  2: { by split; cbn; solve_report. }
  destruct (shield_phase1 t hex) as [b|[why d]] eqn:E4.
  - destruct view as [s|]; cbn [fmap option_fmap option_map shield_class_m].
    + destruct (mempool_evaluate s _ _), (MempoolSnapshot.state s); split; cbn; rewrite ?Hr;
        solve_report.
    + split; cbn; solve_report.
  - apply phase1_not_class_m in E4; cbn in E4. split; cbn; solve_report.
Qed.

(** (attribution): the reason, the message, the skipped flag and the Class M attribution of
    every evaluation agree with each other: a Class M rejection is reported exactly when its
    evidence travels with it, and a skipped shield is never combined with a rejection. *)
Theorem evaluate_report_ok t cfg view mempool_tx now :
  report_ok t view (evaluate_dynamic_inner t cfg view mempool_tx now).
Proof. apply evaluate_report. Qed.
End Attribution.

(** ** The verdict *)

Section Verdict.
Context `{HexCrate} `{BitcoinLib} `{BitcoindClient}.

Abbreviation tolerance cfg := (PolicyMempool.tolerance_pct (PolicyConfig.mempool cfg)).

(** The evaluation the ingress loop starts from. *)
Definition first_pass cfg view mempool_tx now t : EvalResult.t :=
  evaluate_dynamic_inner t cfg view mempool_tx now.

Lemma judge_template_eq cfg view mtx now en to t :
  let e := first_pass cfg view mtx now t in
  let o := run_second_chance en to (EvalResult.phase2 e) (TemplatePropose.block_height t)
             (tolerance cfg) in
  let e' := apply_second_chance e o in
  judge_template cfg view mtx now en to t =
  (TemplateVerdict.mk PROTOCOL_VERSION (TemplatePropose.id t)
     (match EvalResult.reason e' with None => true | Some _ => false end) (EvalResult.reason e')
     (EvalResult.detail e') (Some (policy_context cfg e')), o,
   match view with Some _ => phase2_result_label (EvalResult.phase2 e) o | None => None end).
Proof.
  cbv zeta. unfold judge_template, first_pass, evaluate_dynamic_phase2, evaluate_dynamic.
  destruct view; [|done]. do 2 f_equal. by destruct (run_second_chance _ _ _ _ _) as [[]|].
Qed.

(** What an outcome of the lookup establishes. *)
Lemma run_second_chance_inv en to p h tol o :
  run_second_chance en to p h tol = Some o ->
  exists unknown total, p = P2Rejected unknown total /\ en = true /\
  match o with
  | Withdrawn a => exists answer, ask to h unknown = Ok answer /\
      a = adjudicate total unknown answer /\ Adjudication.still_exceeds a tol = false
  | Upheld a => exists answer, ask to h unknown = Ok answer /\
      a = adjudicate total unknown answer /\ Adjudication.still_exceeds a tol = true /\
      Adjudication.unadjudicated a <= 0 /\ BitcoindAnswer.block_walk_shortfall answer = None
  | LookupFailed _ _ _ _ _ => True
  end.
Proof.
  unfold run_second_chance. destruct p as [| | | | |unknown total]; try done.
  destruct en; [|done]. intros Hx. exists unknown, total. split_and!; [done..|].
  destruct (ask to h unknown) as [answer|e]; [|by injection Hx as <-].
  destruct (Adjudication.still_exceeds _ tol) eqn:E; cbn [negb] in Hx;
    [|injection Hx as <-; eauto].
  case_if; [by injection Hx as <-|]. z_bool.
  destruct (BitcoindAnswer.block_walk_shortfall answer) eqn:Es; injection Hx as <-; eauto 10.
Qed.

Lemma ask_coverage to h unknown answer : ask to h unknown = Ok answer ->
  to = false /\ exists c, recent_blocks h = Some c /\
  BitcoindAnswer.block_walk_shortfall answer = shortfall c.
Proof.
  unfold ask, gather. destruct to; [done|]. intros Hx. split; [done|].
  apply result_bind_ok in Hx as (info & _ & Hx). do 2 (case_if; [done|]).
  destruct (recent_blocks h) as [c|] eqn:Hc; [exists c; split; [done|]|].
  - destruct (walk_parts c) as [[[a b] d] f].
    apply result_bind_ok in Hx as (found & _ & Hx). by injection Hx as <-.
  - exfalso. unfold recent_blocks in Hc. destruct get_best_block_hash as [hash|]; [|done].
    destruct (walk_total h 6 hash ∅ 0 None) as [c Hc']; [lia..|]. congruence.
Qed.

Lemma not_unadjudicated total unknown answer :
  Adjudication.unadjudicated (adjudicate total unknown answer) <= 0 ->
  Forall (fun t => classify t answer <> Unadjudicated) unknown.
Proof.
  unfold adjudicate. rewrite adjudicate_fold. cbn [Adjudication.unadjudicated t_unadjudicated].
  intros Hx. pose proof (class_count_nonneg answer Unadjudicated unknown).
  unfold class_count, u32_max, lenZ in *. apply Forall_forall. intros t Ht Hc.
  destruct (filter _ unknown) as [|y l] eqn:Hf; [|cbn [length] in *; lia].
  assert (t ∈ filter (fun t => classify t answer = Unadjudicated) unknown) as Hin
    by (by apply list_elem_of_filter). rewrite Hf in Hin. by apply elem_of_nil in Hin.
Qed.

(** (verdict): the verdict sent for a template is accepted exactly when it carries neither a
    reason nor a message, exactly when the first pass accepted it or the lookup withdrew its
    Class M rejection. A withdrawal happens only for a first-pass Class M rejection, the lookup
    never turns an acceptance into a rejection, and only a withdrawal is counted as
    recovered. *)
Theorem verdict_decision cfg view mtx now en to t :
  let e := first_pass cfg view mtx now t in
  let '(v, o, label) := judge_template cfg view mtx now en to t in
  (TemplateVerdict.accepted v = true <-> TemplateVerdict.reason_code v = None) /\
  (TemplateVerdict.accepted v = true <-> TemplateVerdict.reason_detail v = None) /\
  (TemplateVerdict.accepted v = true <->
     EvalResult.reason e = None \/ exists a, o = Some (Withdrawn a)) /\
  (is_Some o -> EvalResult.reason e = Some V2InvariantMempoolToleranceExceeded) /\
  (label = Some "recovered"%string <-> exists a, o = Some (Withdrawn a)).
Proof.
  cbv zeta. rewrite judge_template_eq. destruct (evaluate_report t cfg view mtx now) as [Hd Hm Hran _].
  fold (first_pass cfg view mtx now t) in *. set (e := first_pass cfg view mtx now t) in *.
  clearbody e. cbn [TemplateVerdict.accepted TemplateVerdict.reason_code TemplateVerdict.reason_detail].
  destruct (run_second_chance en to _ _ _) as [o|] eqn:Ho.
  - apply run_second_chance_inv in Ho as (unknown & total & Hp & _ & Ho).
    assert (EvalResult.reason e = Some V2InvariantMempoolToleranceExceeded) as He by (apply Hm; eauto).
    destruct (Hran ltac:(by rewrite Hp)) as [[s ->] _]. rewrite Hp.
    assert (is_Some (EvalResult.detail e)) as [d Hde] by (apply Hd; eauto).
    destruct o as [a|a|]; cbn; rewrite ?He, ?Hde; naive_solver.
  - cbn. split_and!; try done.
    + destruct (EvalResult.reason e); naive_solver.
    + destruct (EvalResult.reason e), (EvalResult.detail e); try done; naive_solver.
    + destruct (EvalResult.reason e); naive_solver.
    + destruct view; [|naive_solver]. destruct (EvalResult.phase2 e); cbn; naive_solver.
Qed.

(** C10 (second chance): an outcome of the lookup is about the transactions the first pass did not
    know, counted by what the node showed: the ones it has neither in its mempool nor in a block that
    was walked, the unanswered ones among them. An upheld rejection was established by the node: the
    lookup finished, every unknown transaction had a usable answer, the block walk was complete and
    that count is still above tolerance; a withdrawn one is at or below tolerance on that count, and
    the template is accepted; and whenever the lookup could not establish either, the rejection
    stands. *)
Theorem second_chance_sound cfg view mtx now en to t a :
  let e := first_pass cfg view mtx now t in
  let '(v, o, _) := judge_template cfg view mtx now en to t in
  let counted over := exists unknown total answer, EvalResult.phase2 e = P2Rejected unknown total /\
    gather (TemplatePropose.block_height t) unknown = Ok answer /\ a = adjudicate total unknown answer /\
    exceeds_tolerance (Z.min (lenZ (unproven answer unknown)) u32_max) total (tolerance cfg) = over /\
    (over = true -> Forall (fun t => classify t answer <> Unadjudicated) unknown) in
  (o = Some (Upheld a) -> counted true /\
     TemplateVerdict.reason_code v = Some V2InvariantMempoolToleranceExceeded /\
     exists c, recent_blocks (TemplatePropose.block_height t) = Some c /\ is_complete c = true) /\
  (o = Some (Withdrawn a) -> counted false /\ TemplateVerdict.accepted v = true) /\
  ((exists total before why kind n, o = Some (LookupFailed total before why kind n)) ->
     TemplateVerdict.accepted v = false /\
     TemplateVerdict.reason_code v = Some V2InvariantMempoolToleranceExceeded).
Proof.
  cbv zeta. rewrite judge_template_eq. destruct (evaluate_report t cfg view mtx now) as [_ Hm _ _].
  fold (first_pass cfg view mtx now t) in *. set (e := first_pass cfg view mtx now t) in *.
  clearbody e. cbn [TemplateVerdict.accepted TemplateVerdict.reason_code].
  destruct (run_second_chance en to _ _ _) as [o|] eqn:Ho; [|naive_solver].
  apply run_second_chance_inv in Ho as (unknown & total & Hp & _ & Ho).
  assert (EvalResult.reason e = Some V2InvariantMempoolToleranceExceeded) as He by (apply Hm; eauto).
  split_and!.
  - intros [= ->]. destruct Ho as (answer & Hask & Ha & Hex & Hun & Hsf). subst a.
    destruct (ask_coverage _ _ _ _ Hask) as (-> & c & Hc & Hsc). split_and!; [|done|].
    + exists unknown, total, answer. unfold Adjudication.still_exceeds in Hex. rewrite adjudicate_unproven in Hex.
      split_and!; try done. intros _. by apply (not_unadjudicated total).
    + exists c. rewrite Hsf in Hsc. by destruct c.
  - intros [= ->]. destruct Ho as (answer & Hask & Ha & Hex). subst a. split; [|done].
    destruct (ask_coverage _ _ _ _ Hask) as (-> & _). exists unknown, total, answer.
    unfold Adjudication.still_exceeds in Hex. rewrite adjudicate_unproven in Hex. by split_and!.
  - intros (? & ? & ? & ? & ? & [= ->]). cbn. by rewrite He.
Qed.
End Verdict.

(** ** Fee tiers *)

Lemma validate_ok c : PolicyConfig.validate c = Ok tt ->
  PolicyConfig.protocol_version c = PROTOCOL_VERSION /\ 0 <> PolicyConfig.max_tx_count c /\
  PolicyConfig.low_mempool_tx c <= PolicyConfig.high_mempool_tx c /\
  PolicyConfig.min_avg_fee_lo c <= PolicyConfig.min_avg_fee_mid c <= PolicyConfig.min_avg_fee_hi c /\
  PolicyConfig.ratio_in_range (PolicySafety.max_weight_ratio (PolicyConfig.safety c)) = true /\
  PolicyConfig.ratio_in_range (PolicySafety.warn_sigops_ratio (PolicyConfig.safety c)) = true.
Proof.
  unfold PolicyConfig.validate. intros Hx. repeat (case_if; [done|]). z_bool.
  split_and!; try done; lia.
Qed.

Definition tier_rank (t : FeeTier) : Z := match t with Low => 0 | Mid => 1 | High => 2 end.

(** (fee tiers): under a configuration that passes [validate], a busier mempool never lowers
    the fee tier or the minimum average fee; with [unknown_mempool_as_high], an unknown mempool
    is treated at least as strictly as any measured one; and no fee is negative when the
    configured minimum is not. *)
Theorem fee_tier_monotone c n m :
  PolicyConfig.validate c = Ok tt -> n <= m ->
  let f x := PolicyConfig.effective_min_avg_fee_dynamic c x in
  (f (Some n)).1 <= (f (Some m)).1 /\
  tier_rank (f (Some n)).2 <= tier_rank (f (Some m)).2 /\
  (PolicyConfig.unknown_mempool_as_high c = true ->
     (f (Some m)).1 <= (f None).1 /\ tier_rank (f (Some m)).2 <= tier_rank (f None).2) /\
  PolicyConfig.min_avg_fee_lo c <= (f None).1.
Proof.
  intros (_ & _ & Hlh & Hfee & _)%validate_ok Hnm. cbv zeta.
  unfold PolicyConfig.effective_min_avg_fee_dynamic.
  repeat case_if; z_bool; cbn; split_and!; try lia; try done; intros; lia.
Qed.

(** ** The size of a Class M rejection message *)

Lemma pretty_N_go_length k : forall x s, (x < 10 ^ N.of_nat k)%N ->
  (String.length (pretty_N_go x s) <= k + String.length s)%nat.
Proof.
  induction k as [|k IH]; intros x s Hx.
  { assert (x = 0%N) as -> by (cbn in Hx; lia). rewrite pretty_N_go_0. lia. }
  destruct (decide (0 < x)%N) as [Hp|Hp].
  - rewrite pretty_N_go_step by lia. etrans; [apply IH|cbn; lia].
    apply N.Div0.div_lt_upper_bound.
    by rewrite <-N.pow_succ_r', <-Nat2N.inj_succ.
  - assert (x = 0%N) as -> by lia. rewrite pretty_N_go_0. lia.
Qed.

(** Decimal digits of a [u64]. *)
Lemma pretty_u64_length z : in_u 64 z -> (String.length (pretty z) <= 20)%nat.
Proof.
  intros [H0 Hz]. destruct z as [|p|p]; [vm_compute; lia| |lia].
  change (pretty (Z.pos p)) with (pretty (N.pos p)).
  unfold pretty, pretty_N. case_decide; [done|].
  etrans; [apply (pretty_N_go_length 20)|cbn; lia].
  change (10 ^ N.of_nat 20)%N with 100000000000000000000%N.
  assert (2 ^ 64 = 18446744073709551616) as E by done. lia.
Qed.

Lemma strlen_app a b : strlen (a +:+ b) = strlen a + strlen b.
Proof.
  unfold strlen. enough (String.length (a +:+ b) = String.length a + String.length b)%nat by lia.
  induction a as [|c a IH]; [done|].
  change (S (String.length (a +:+ b)) = S (String.length a + String.length b)). by rewrite IH.
Qed.

Lemma strlen_nonneg s : 0 <= strlen s.
Proof. unfold strlen. lia. Qed.

Lemma strlen_pretty z : in_u 64 z -> strlen (pretty z) <= 20.
Proof. intros Hz%pretty_u64_length. unfold strlen. lia. Qed.

(** Joining [n] strings of length [k] takes [n] separators less one. *)
Lemma join_comma_length k l : 0 <= k -> Forall (fun s => strlen s = k) l ->
  strlen (join_comma l) <= (k + 1) * lenZ l.
Proof.
  intros Hk. induction 1 as [|s l Hs Hl IH]; unfold lenZ in *; cbn [length].
  { change (strlen (join_comma [])) with 0. lia. }
  destruct l as [|s' l]; cbn [length] in *; rewrite Nat2Z.inj_succ.
  { change (join_comma [s]) with s. change (Z.of_nat 0) with 0. lia. }
  change (join_comma (s :: s' :: l)) with (s +:+ "," +:+ join_comma (s' :: l))%string.
  rewrite !strlen_app. change (strlen ",") with 1. lia.
Qed.

Section Budget.
Context `{HexLaws}.

Lemma detail_length n total ids : in_u 64 n -> in_u 64 total ->
  Forall (fun t => length t = 32%nat) ids ->
  strlen (format_mempool_tolerance_detail n total ids) <= 150 + 65 * lenZ ids.
Proof.
  intros Hn Ht Hids. unfold format_mempool_tolerance_detail.
  apply strlen_pretty in Hn, Ht.
  pose proof (lenZ_nonneg ids).
  assert (strlen (join_comma ((fun t => hex_encode (reverse t)) <$> ids)) <= 65 * lenZ ids).
  { etrans; [apply (join_comma_length 64); [lia|]|unfold lenZ; rewrite length_fmap; lia].
    apply Forall_fmap. eapply Forall_impl; [exact Hids|]. intros t Hl. cbn.
    unfold strlen. rewrite hex_encode_length, length_reverse, Hl. done. }
  destruct ids; rewrite !strlen_app;
    change (strlen "mempool tolerance exceeded: ") with 28; change (strlen "/") with 1;
    change (strlen " txs unknown to verifier view") with 29; [lia|].
  change (strlen " sample=[") with 9. change (strlen "]") with 1. lia.
Qed.

Lemma detail_bounded_length n total ids : in_u 64 n -> in_u 64 total -> in_u 64 (lenZ ids) ->
  Forall (fun t => length t = 32%nat) ids ->
  strlen (format_mempool_tolerance_detail_bounded n total ids) <= 650200.
Proof.
  intros Hn Ht Hl Hids. unfold format_mempool_tolerance_detail_bounded.
  assert (lenZ (take PER_TX_DETAIL_EMIT_CAP ids) <= 10000) as Hcap.
  { unfold lenZ. rewrite length_take.
    assert (Z.of_nat PER_TX_DETAIL_EMIT_CAP = 10000) by reflexivity. lia. }
  destruct (length ids <=? PER_TX_DETAIL_EMIT_CAP)%nat eqn:E.
  - apply Nat.leb_le in E. rewrite take_ge in Hcap by done.
    pose proof (detail_length n total ids Hn Ht Hids). lia.
  - rewrite !strlen_app. change (strlen " (truncated ") with 12.
    change (strlen " of ") with 4. change (strlen ")") with 1.
    apply strlen_pretty in Hl.
    assert (strlen (pretty (Z.of_nat PER_TX_DETAIL_EMIT_CAP)) = 5) as -> by (vm_compute; done).
    pose proof (detail_length n total (take PER_TX_DETAIL_EMIT_CAP ids) Hn Ht
                  ltac:(by apply Forall_take)). lia.
Qed.
End Budget.

Lemma in_u_clamp32 z : 0 <= z -> in_u 64 (clamp_u 32 z).
Proof. intros Hz. rewrite clamp_u_min. unfold in_u. lia. Qed.

Section WireBudget.
Context `{HexLaws} `{BitcoinLib}.

(** (wire budget): whatever the operator configured and however many transactions the view
    does not know, the message of a Class M rejection stays below 650,200 bytes, which leaves
    at least 19 MiB of the internal line limit for the rest of the verdict. *)
Theorem class_m_detail_within_budget parsed mempool why d p :
  (forall tx, length (compute_txid tx) = 32%nat) -> in_u 64 (lenZ (Block.txdata parsed)) ->
  shield_class_m parsed mempool = (ShieldRejected why d, p) ->
  strlen d <= 650200 /\ 650200 + 19 * 1024 * 1024 <= MAX_INTERNAL_LINE_BYTES.
Proof.
  intros Htx Hn Hm. split; [|unfold MAX_INTERNAL_LINE_BYTES; lia]. unfold shield_class_m in Hm.
  destruct mempool as [[[s tol] per]|]; [|done].
  destruct (mempool_evaluate s _ _) as [|unknown total| |] eqn:He; try done.
  apply mempool_evaluate_unknown in He as [Hu Ht].
  injection Hm as _ <- _.
  assert (lenZ unknown <= lenZ (Block.txdata parsed)) as Hl.
  { rewrite Hu. unfold template_txids, lenZ. etrans; [apply inj_le, length_filter|].
    rewrite length_fmap, length_drop. lia. }
  assert (forall k, lenZ (take k unknown) <= lenZ unknown) as Hk.
  { intros k. unfold lenZ. rewrite length_take. lia. }
  pose proof (lenZ_nonneg unknown). apply detail_bounded_length.
  - apply in_u_clamp32. lia.
  - rewrite Ht. apply in_u_clamp32. apply lenZ_nonneg.
  - specialize (Hk (if per then length unknown else Nat.min (length unknown) SAMPLE_UNKNOWN_CAP)).
    unfold in_u in *. pose proof (lenZ_nonneg (take (if per then length unknown
      else Nat.min (length unknown) SAMPLE_UNKNOWN_CAP) unknown)). lia.
  - apply Forall_take. rewrite Hu. apply Forall_forall. intros t [_ Ht']%list_elem_of_filter.
    unfold template_txids in Ht'. by apply list_elem_of_fmap in Ht' as (tx & -> & _).
Qed.
End WireBudget.

(** ** The credential gate *)

Lemma starts_with_spec p s : starts_with p s = true <-> exists r, s = p ++ r.
Proof.
  revert s. induction p as [|a p IH]; intros s; cbn [starts_with]; [split; eauto|].
  destruct s as [|b s]; [split; [done|by intros [? ?]]|].
  rewrite andb_true_iff, bool_decide_eq_true, IH. split.
  - intros [-> [r ->]]. by exists r.
  - intros [r [= -> ->]]. eauto.
Qed.

Lemma contains_spec p s : contains p s = true <-> exists l r, s = l ++ p ++ r.
Proof.
  induction s as [|c s IH]; cbn [contains]; rewrite orb_true_iff, starts_with_spec.
  - split.
    + intros [[r Hr]|?]; [|done]. by exists [], r.
    + intros (l & r & Hl). left. destruct l; [by exists r|done].
  - rewrite IH. split.
    + intros [[r Hr]|(l & r & ->)]; [by exists [], r|by exists (c :: l), r].
    + intros ([|c' l] & r & Hl); [left; by exists r|]. injection Hl as -> ->. right. eauto.
Qed.

Lemma strip_first_suffix ws s s' : strip_first ws s = Some s' -> s' `suffix_of` s.
Proof.
  induction ws as [|w ws IH]; cbn [strip_first]; [done|]. case_if; [|done].
  intros [= <-]. exists (take (length w) s). by rewrite take_drop.
Qed.

Lemma trim_start_suffix fuel ws s : trim_start_fuel fuel ws s `suffix_of` s.
Proof.
  revert s. induction fuel as [|fuel IH]; intros s; cbn [trim_start_fuel]; [done|].
  destruct (strip_first ws s) as [s'|] eqn:E; [|done].
  etrans; [apply IH|]. by eapply strip_first_suffix.
Qed.

(** Trimming only removes from the two ends. *)
Lemma trim_infix s : exists l r, s = l ++ trim s ++ r.
Proof.
  unfold trim. destruct (trim_start_suffix (length s) white_space s) as [l Hl].
  set (s1 := trim_start_fuel _ white_space s) in *.
  destruct (trim_start_suffix (length s1) (reverse <$> white_space) (reverse s1)) as [r Hr].
  set (s2 := trim_start_fuel _ _ (reverse s1)) in *. exists l, (reverse r).
  rewrite <-reverse_app, <-Hr, reverse_involutive. done.
Qed.

Lemma not_placeholder_spec v : is_placeholder_value v = false ->
  trim (String.list_ascii_of_string v) <> [] /\
  Forall (fun m => ~ exists l r, to_ascii_uppercase <$> trim (String.list_ascii_of_string v)
                               = l ++ String.list_ascii_of_string m ++ r) PLACEHOLDER_MARKERS.
Proof.
  unfold is_placeholder_value. destruct (trim _) as [|c s]; [done|]. case_if; [done|].
  rewrite existsb_false_Forall. intros Hx. split; [done|].
  eapply Forall_impl; [exact Hx|]. intros m Hm. cbn beta in Hm.
  by rewrite <-contains_spec, Hm.
Qed.

(** (credential gate): when the boot gate lets the Class M check start, the endpoint is an
    http or https URL, no fill-me-in marker occurs in the endpoint or the user in any letter
    case, none of them is blank, and the resolved password is not blank either. *)
Theorem credentials_usable m pass :
  require_usable_credentials m pass = Ok tt ->
  let cs := String.list_ascii_of_string in
  (exists rest, cs (PolicyMempool.rpc_url m) = cs "http://"%string ++ rest \/
                cs (PolicyMempool.rpc_url m) = cs "https://"%string ++ rest) /\
  Forall (fun v => trim (cs v) <> []) [PolicyMempool.rpc_url m; PolicyMempool.rpc_user m; pass] /\
  Forall (fun v => Forall (fun k => ~ exists l r,
      to_ascii_uppercase <$> trim (cs v) = l ++ cs k ++ r) PLACEHOLDER_MARKERS)
    [PolicyMempool.rpc_url m; PolicyMempool.rpc_user m].
Proof.
  unfold require_usable_credentials. cbv zeta. intros Hx. repeat (case_if; [done|]).
  apply not_placeholder_spec in E as [? ?], E1 as [? ?]. apply negb_false_iff in E0.
  split_and!.
  - apply orb_true_iff in E0 as [[r ?]%starts_with_spec|[r ?]%starts_with_spec]; eauto.
  - rewrite !Forall_cons, Forall_nil. split_and!; congruence || done.
  - rewrite !Forall_cons, Forall_nil. by split_and!.
Qed.

(** ** Samples, for the witnesses *)

Module PolicySample.

#[local] Instance hex_crate : HexCrate := HexSample.crate.
#[local] Instance bitcoin_lib : BitcoinLib := Consensus.Sample.lib.

(** A proposal for the sample block, declaring its true figures. *)
Definition proposal : TemplatePropose.t :=
  TemplatePropose.mk 2 1 840000
    "00000000000000000000000000000000000000000000000000000000000000aa"
    312500000 1 5000 None None (Some 4) (Some 4) (Some 400) None (Some "01"%string).

Definition config : PolicyConfig.t := PolicyConfig.default_with_protocol 2.

(** A view that knows none of the template's transactions. *)
Definition view : MempoolSnapshot.t := MempoolSnapshot.mk Fresh {[ [x09] ]} 3 1.

Lemma proposal_wf : TemplatePropose.wf proposal.
Proof. unfold TemplatePropose.wf, in_u. cbn. split_and!; try lia; intros w [= <-]; lia. Qed.

Lemma shield_witness :
  exists hex raw b cb, TemplatePropose.raw_block_hex proposal = Some hex /\
    hex_decode hex = Ok raw /\ deserialize_block raw = Some b /\
    block_valid b cb /\ declared_agrees proposal b cb.
Proof.
  apply (@shield_agrees_iff HexSample.crate Consensus.Sample.lib Consensus.Sample.bitcoin_laws proposal
           proposal_wf).
  vm_compute. reflexivity.
Defined.

Lemma fee_tier_witness :
  (PolicyConfig.effective_min_avg_fee_dynamic config (Some 10)).1
  <= (PolicyConfig.effective_min_avg_fee_dynamic config (Some 600)).1.
Proof.
  apply (fee_tier_monotone config 10 600); [vm_compute; reflexivity|lia].
Defined.

(** The sample rejection: the one transaction of the template is not in the view. *)
Example sample_rejected :
  EvalResult.reason (evaluate_dynamic_phase2 proposal config (Some view) None 0)
  = Some V2InvariantMempoolToleranceExceeded.
Proof. vm_compute. reflexivity. Qed.

Lemma budget_witness : exists d p,
  shield_class_m Consensus.Sample.block (Some (view, default_mempool_tolerance_pct, true))
    = (ShieldRejected V2InvariantMempoolToleranceExceeded d, p) /\ strlen d <= 650200.
Proof.
  do 2 eexists. split; [reflexivity|].
  eapply (@class_m_detail_within_budget HexSample.crate HexSample.hex_laws Consensus.Sample.lib
    Consensus.Sample.block (Some (view, default_mempool_tolerance_pct, true)));
    [intros tx; apply length_le_bytes|vm_compute; split; [discriminate|reflexivity]|reflexivity].
Defined.

(** With the sample node, the second chance on this rejection: the template's transaction is
    absent and the walk is complete, so the rejection is upheld. *)
Lemma second_chance_witness : exists a,
  (judge_template (H1 := SampleNode.node) config (Some view) None 0 true false proposal).1.2
    = Some (Upheld a) /\
  (judge_template (H1 := SampleNode.node) config (Some view) None 0 true false proposal).1.1.(TemplateVerdict.reason_code)
    = Some V2InvariantMempoolToleranceExceeded.
Proof.
  eexists. split; [vm_compute; reflexivity|].
  exact (proj1 (proj2 (proj1 (@second_chance_sound HexSample.crate Consensus.Sample.lib SampleNode.node
           config (Some view) None 0 true false proposal _) ltac:(vm_compute; reflexivity)))).
Defined.

Definition sample_mempool : PolicyMempool.t :=
  PolicyMempool.mk true default_mempool_tolerance_pct 10 60 false
    "http://127.0.0.1:8332" "miner" "".

Lemma credentials_witness :
  Forall (fun v => trim (String.list_ascii_of_string v) <> [])
    ["http://127.0.0.1:8332"; "miner"; "hunter2"]%string.
Proof. apply (credentials_usable sample_mempool "hunter2"). vm_compute. reflexivity. Defined.

End PolicySample.
