(* ===== verification/Codec.v ===== *)
(** * The SV2 wire codec of the gateway

    Models [services/sv2-gateway/src/sv2_codec.rs]: the cursor reader and the buffer writer, the
    field primitives and the encoder and decoder of each of the seventeen messages. A slice
    index out of range is a panic in the source and is an outcome of the model, so that the
    absence of panics on arbitrary network input is a theorem. A string field is its UTF-8
    bytes; an [f32] field is its 32-bit pattern, which the codec only moves. *)

From S2P Require Import Prelude.

Inductive Sv2CodecError : Type :=
| BufferUnderflow (need have : Z)
| StringTooLong (len : Z)
| BytesTooLong (len : Z)
| InvalidUtf8 (bytes : bytes)
| InvalidOptionTag (tag : Z).

(** A call either returns, fails with a codec error, or panics. *)
Inductive outcome (A : Type) : Type :=
| Val (a : A)
| Fail (e : Sv2CodecError)
| Panic.
Arguments Val {A} _.
Arguments Fail {A} _.
Arguments Panic {A}.

(** ** UTF-8 *)

(** [lo <= b <= hi] on bytes. *)
Definition in_range (b : Byte.byte) (lo hi : Z) : bool :=
  (lo <=? byte_to_Z b) && (byte_to_Z b <=? hi).

(** [String::from_utf8]: the well-formed byte sequences of the Unicode standard. *)
Fixpoint utf8_valid (l : bytes) : bool :=
  match l with
  | [] => true
  | a :: l1 =>
      if in_range a 0 0x7f then utf8_valid l1
      else match l1 with
      | [] => false
      | b :: l2 =>
          if in_range a 0xc2 0xdf then in_range b 0x80 0xbf && utf8_valid l2
          else match l2 with
          | [] => false
          | c :: l3 =>
              if in_range a 0xe0 0xef then
                in_range b (if in_range a 0xe0 0xe0 then 0xa0 else 0x80)
                           (if in_range a 0xed 0xed then 0x9f else 0xbf)
                && in_range c 0x80 0xbf && utf8_valid l3
              else match l3 with
              | [] => false
              | d :: l4 =>
                  in_range a 0xf0 0xf4
                  && in_range b (if in_range a 0xf0 0xf0 then 0x90 else 0x80)
                                (if in_range a 0xf4 0xf4 then 0x8f else 0xbf)
                  && in_range c 0x80 0xbf && in_range d 0x80 0xbf && utf8_valid l4
              end
          end
      end
  end.

(** ** Reader *)

Module Reader.
Record t : Type := mk { buf : bytes; pos : nat }.
Definition new (buf : bytes) : t := mk buf 0.
End Reader.

Definition reader (A : Type) : Type := Reader.t -> outcome (A * Reader.t).

Definition rret {A} (a : A) : reader A := fun r => Val (a, r).

Definition rbind {A B} (x : reader A) (k : A -> reader B) : reader B :=
  fun r => match x r with
           | Val (a, r) => k a r
           | Fail e => Fail e
           | Panic => Panic
           end.

Definition rfail {A} (e : Sv2CodecError) : reader A := fun _ => Fail e.

Notation "x '<-r' r ';;' k" := (rbind r (fun x => k))
  (at level 100, r at next level, right associativity) : rust_scope.

(** [remaining]: a [usize] subtraction, which panics below zero. *)
Definition remaining : reader Z :=
  fun r => if (Reader.pos r <=? length (Reader.buf r))%nat
           then Val (lenZ (Reader.buf r) - Z.of_nat (Reader.pos r), r) else Panic.

Definition ensure (n : nat) : reader unit :=
  have <-r remaining ;;
  if have <? Z.of_nat n then rfail (BufferUnderflow (Z.of_nat n) have) else rret tt.

(** [self.buf[self.pos..self.pos + n]] followed by [self.pos += n]. *)
Definition slice (n : nat) : reader bytes :=
  fun r => if (Reader.pos r + n <=? length (Reader.buf r))%nat
           then Val (take n (drop (Reader.pos r) (Reader.buf r)),
                     Reader.mk (Reader.buf r) (Reader.pos r + n))
           else Panic.

(** [ensure(n)?] and the slice it guards. *)
Definition read_n (n : nat) : reader bytes := _ <-r ensure n ;; slice n.

Definition read_u8 : reader Z := b <-r read_n 1 ;; rret (from_le_bytes b).
Definition read_u16 : reader Z := b <-r read_n 2 ;; rret (from_le_bytes b).
Definition read_u32 : reader Z := b <-r read_n 4 ;; rret (from_le_bytes b).
Definition read_u64 : reader Z := b <-r read_n 8 ;; rret (from_le_bytes b).
Definition read_f32 : reader Z := b <-r read_n 4 ;; rret (from_le_bytes b).
Definition read_u256 : reader bytes := read_n 32.

Definition read_str0_255 : reader string :=
  len <-r read_u8 ;;
  b <-r read_n (Z.to_nat len) ;;
  if utf8_valid b then rret (String.string_of_list_byte b) else rfail (InvalidUtf8 b).

Definition read_b0_32 : reader bytes :=
  len <-r read_u8 ;;
  if len >? 32 then rfail (BytesTooLong len) else read_n (Z.to_nat len).

Definition read_b0_255 : reader bytes := len <-r read_u8 ;; read_n (Z.to_nat len).

Definition read_b0_64k : reader bytes := len <-r read_u16 ;; read_n (Z.to_nat len).

(** The loop of [read_seq_u256]. *)
Fixpoint read_u256s (count : nat) : reader (list bytes) :=
  match count with
  | O => rret []
  | S count => x <-r read_u256 ;; xs <-r read_u256s count ;; rret (x :: xs)
  end.

Definition read_seq_u256 : reader (list bytes) :=
  count <-r read_u8 ;; read_u256s (Z.to_nat count).

Definition read_option_u32 : reader (option Z) :=
  tag <-r read_u8 ;;
  if tag =? 0 then rret None
  else if tag =? 1 then v <-r read_u32 ;; rret (Some v)
  else rfail (InvalidOptionTag tag).

(** [read_u8()? != 0]. *)
Definition read_bool : reader bool := v <-r read_u8 ;; rret (negb (v =? 0)).

(** [Reader::new(payload)] and the fields in order. *)
Definition run {A} (payload : bytes) (r : reader A) : outcome A :=
  match r (Reader.new payload) with
  | Val (a, _) => Val a
  | Fail e => Fail e
  | Panic => Panic
  end.

(** ** Writer *)

Definition writer : Type := bytes -> result bytes Sv2CodecError.

Definition wseq (a b : writer) : writer := fun buf => let? buf := a buf in b buf.
Notation "a ';;w' b" := (wseq a b) (at level 100, right associativity) : rust_scope.

Definition extend (b : bytes) : writer := fun buf => Ok (buf ++ b).

Definition write_u8 (v : Z) : writer := extend (le_bytes 1 v).
Definition write_u16 (v : Z) : writer := extend (le_bytes 2 v).
Definition write_u32 (v : Z) : writer := extend (le_bytes 4 v).
Definition write_u64 (v : Z) : writer := extend (le_bytes 8 v).
Definition write_f32 (v : Z) : writer := extend (le_bytes 4 v).
Definition write_u256 (v : bytes) : writer := extend v.

Definition write_str0_255 (s : string) : writer :=
  let b := String.list_byte_of_string s in
  if lenZ b >? 255 then fun _ => Err (StringTooLong (lenZ b))
  else write_u8 (lenZ b) ;;w extend b.

Definition write_b0_32 (b : bytes) : writer :=
  if lenZ b >? 32 then fun _ => Err (BytesTooLong (lenZ b))
  else write_u8 (lenZ b) ;;w extend b.

Definition write_b0_255 (b : bytes) : writer :=
  if lenZ b >? 255 then fun _ => Err (StringTooLong (lenZ b))
  else write_u8 (lenZ b) ;;w extend b.

Definition write_b0_64k (b : bytes) : writer :=
  if lenZ b >? 65535 then fun _ => Err (StringTooLong (lenZ b))
  else write_u16 (lenZ b) ;;w extend b.

Fixpoint write_u256s (items : list bytes) : writer :=
  match items with
  | [] => fun buf => Ok buf
  | x :: xs => write_u256 x ;;w write_u256s xs
  end.

Definition write_seq_u256 (items : list bytes) : writer :=
  if lenZ items >? 255 then fun _ => Err (StringTooLong (lenZ items))
  else write_u8 (lenZ items) ;;w write_u256s items.

Definition write_option_u32 (v : option Z) : writer :=
  match v with
  | None => write_u8 0
  | Some val => write_u8 1 ;;w write_u32 val
  end.

(** [write_u8(u8::from(b))]. *)
Definition write_bool (b : bool) : writer := write_u8 (if b then 1 else 0).

(** ** The values each field type can carry *)

Definition ok_u8 : Z -> Prop := in_u 8.
Definition ok_u16 : Z -> Prop := in_u 16.
Definition ok_u32 : Z -> Prop := in_u 32.
Definition ok_u64 : Z -> Prop := in_u 64.
Definition ok_f32 : Z -> Prop := in_u 32.
Definition ok_u256 (b : bytes) : Prop := length b = 32%nat.
Definition ok_str0_255 (s : string) : Prop :=
  lenZ (String.list_byte_of_string s) <= 255 /\ utf8_valid (String.list_byte_of_string s) = true.
Definition ok_b0_32 (b : bytes) : Prop := lenZ b <= 32.
Definition ok_b0_255 (b : bytes) : Prop := lenZ b <= 255.
Definition ok_b0_64k (b : bytes) : Prop := lenZ b <= 65535.
Definition ok_seq_u256 (l : list bytes) : Prop := lenZ l <= 255 /\ Forall ok_u256 l.
Definition ok_option_u32 (o : option Z) : Prop := forall v, o = Some v -> in_u 32 v.
Definition ok_bool (_ : bool) : Prop := True.

(** ** Messages *)

Module SetupConnection.
Record t : Type := mk {
  protocol : Z;
  min_version : Z;
  max_version : Z;
  flags : Z;
  endpoint_host : string;
  endpoint_port : Z;
  vendor : string;
  hardware_version : string;
  firmware : string;
  device_id : string
}.

Definition encode (m : t) : result bytes Sv2CodecError :=
  (write_u8 (protocol m) ;;w
   write_u16 (min_version m) ;;w
   write_u16 (max_version m) ;;w
   write_u32 (flags m) ;;w
   write_str0_255 (endpoint_host m) ;;w
   write_u16 (endpoint_port m) ;;w
   write_str0_255 (vendor m) ;;w
   write_str0_255 (hardware_version m) ;;w
   write_str0_255 (firmware m) ;;w
   write_str0_255 (device_id m)) [].

Definition decode (payload : bytes) : outcome t :=
  run payload (
  protocol <-r read_u8 ;;
  min_version <-r read_u16 ;;
  max_version <-r read_u16 ;;
  flags <-r read_u32 ;;
  endpoint_host <-r read_str0_255 ;;
  endpoint_port <-r read_u16 ;;
  vendor <-r read_str0_255 ;;
  hardware_version <-r read_str0_255 ;;
  firmware <-r read_str0_255 ;;
  device_id <-r read_str0_255 ;;
  rret (mk protocol min_version max_version flags endpoint_host endpoint_port vendor hardware_version firmware device_id)).

(** Values the field types can hold on the wire. *)
Definition wf (m : t) : Prop :=
  ok_u8 (protocol m) /\ ok_u16 (min_version m) /\ ok_u16 (max_version m) /\ ok_u32 (flags m) /\ ok_str0_255 (endpoint_host m) /\ ok_u16 (endpoint_port m) /\ ok_str0_255 (vendor m) /\ ok_str0_255 (hardware_version m) /\ ok_str0_255 (firmware m) /\ ok_str0_255 (device_id m).
End SetupConnection.

Module SetupConnectionSuccess.
Record t : Type := mk {
  used_version : Z;
  flags : Z
}.

Definition encode (m : t) : result bytes Sv2CodecError :=
  (write_u16 (used_version m) ;;w
   write_u32 (flags m)) [].

Definition decode (payload : bytes) : outcome t :=
  run payload (
  used_version <-r read_u16 ;;
  flags <-r read_u32 ;;
  rret (mk used_version flags)).

(** Values the field types can hold on the wire. *)
Definition wf (m : t) : Prop :=
  ok_u16 (used_version m) /\ ok_u32 (flags m).
End SetupConnectionSuccess.

Module SetupConnectionError.
Record t : Type := mk {
  flags : Z;
  error_code : string
}.

Definition encode (m : t) : result bytes Sv2CodecError :=
  (write_u32 (flags m) ;;w
   write_str0_255 (error_code m)) [].

Definition decode (payload : bytes) : outcome t :=
  run payload (
  flags <-r read_u32 ;;
  error_code <-r read_str0_255 ;;
  rret (mk flags error_code)).

(** Values the field types can hold on the wire. *)
Definition wf (m : t) : Prop :=
  ok_u32 (flags m) /\ ok_str0_255 (error_code m).
End SetupConnectionError.

Module OpenStandardMiningChannel.
Record t : Type := mk {
  request_id : Z;
  user_identity : string;
  nominal_hash_rate : Z;
  max_target : bytes
}.

Definition encode (m : t) : result bytes Sv2CodecError :=
  (write_u32 (request_id m) ;;w
   write_str0_255 (user_identity m) ;;w
   write_f32 (nominal_hash_rate m) ;;w
   write_u256 (max_target m)) [].

Definition decode (payload : bytes) : outcome t :=
  run payload (
  request_id <-r read_u32 ;;
  user_identity <-r read_str0_255 ;;
  nominal_hash_rate <-r read_f32 ;;
  max_target <-r read_u256 ;;
  rret (mk request_id user_identity nominal_hash_rate max_target)).

(** Values the field types can hold on the wire. *)
Definition wf (m : t) : Prop :=
  ok_u32 (request_id m) /\ ok_str0_255 (user_identity m) /\ ok_f32 (nominal_hash_rate m) /\ ok_u256 (max_target m).
End OpenStandardMiningChannel.

Module OpenStandardMiningChannelSuccess.
Record t : Type := mk {
  request_id : Z;
  channel_id : Z;
  target : bytes;
  extranonce_prefix : bytes;
  group_channel_id : Z
}.

Definition encode (m : t) : result bytes Sv2CodecError :=
  (write_u32 (request_id m) ;;w
   write_u32 (channel_id m) ;;w
   write_u256 (target m) ;;w
   write_b0_32 (extranonce_prefix m) ;;w
   write_u32 (group_channel_id m)) [].

Definition decode (payload : bytes) : outcome t :=
  run payload (
  request_id <-r read_u32 ;;
  channel_id <-r read_u32 ;;
  target <-r read_u256 ;;
  extranonce_prefix <-r read_b0_32 ;;
  group_channel_id <-r read_u32 ;;
  rret (mk request_id channel_id target extranonce_prefix group_channel_id)).

(** Values the field types can hold on the wire. *)
Definition wf (m : t) : Prop :=
  ok_u32 (request_id m) /\ ok_u32 (channel_id m) /\ ok_u256 (target m) /\ ok_b0_32 (extranonce_prefix m) /\ ok_u32 (group_channel_id m).
End OpenStandardMiningChannelSuccess.

Module OpenMiningChannelError.
Record t : Type := mk {
  request_id : Z;
  error_code : string
}.

Definition encode (m : t) : result bytes Sv2CodecError :=
  (write_u32 (request_id m) ;;w
   write_str0_255 (error_code m)) [].

Definition decode (payload : bytes) : outcome t :=
  run payload (
  request_id <-r read_u32 ;;
  error_code <-r read_str0_255 ;;
  rret (mk request_id error_code)).

(** Values the field types can hold on the wire. *)
Definition wf (m : t) : Prop :=
  ok_u32 (request_id m) /\ ok_str0_255 (error_code m).
End OpenMiningChannelError.

Module NewMiningJob.
Record t : Type := mk {
  channel_id : Z;
  job_id : Z;
  min_ntime : option Z;
  version : Z;
  merkle_root : bytes
}.

Definition encode (m : t) : result bytes Sv2CodecError :=
  (write_u32 (channel_id m) ;;w
   write_u32 (job_id m) ;;w
   write_option_u32 (min_ntime m) ;;w
   write_u32 (version m) ;;w
   write_u256 (merkle_root m)) [].

Definition decode (payload : bytes) : outcome t :=
  run payload (
  channel_id <-r read_u32 ;;
  job_id <-r read_u32 ;;
  min_ntime <-r read_option_u32 ;;
  version <-r read_u32 ;;
  merkle_root <-r read_u256 ;;
  rret (mk channel_id job_id min_ntime version merkle_root)).

(** Values the field types can hold on the wire. *)
Definition wf (m : t) : Prop :=
  ok_u32 (channel_id m) /\ ok_u32 (job_id m) /\ ok_option_u32 (min_ntime m) /\ ok_u32 (version m) /\ ok_u256 (merkle_root m).
End NewMiningJob.

Module SetNewPrevHash.
Record t : Type := mk {
  channel_id : Z;
  job_id : Z;
  prev_hash : bytes;
  min_ntime : Z;
  nbits : Z
}.

Definition encode (m : t) : result bytes Sv2CodecError :=
  (write_u32 (channel_id m) ;;w
   write_u32 (job_id m) ;;w
   write_u256 (prev_hash m) ;;w
   write_u32 (min_ntime m) ;;w
   write_u32 (nbits m)) [].

Definition decode (payload : bytes) : outcome t :=
  run payload (
  channel_id <-r read_u32 ;;
  job_id <-r read_u32 ;;
  prev_hash <-r read_u256 ;;
  min_ntime <-r read_u32 ;;
  nbits <-r read_u32 ;;
  rret (mk channel_id job_id prev_hash min_ntime nbits)).

(** Values the field types can hold on the wire. *)
Definition wf (m : t) : Prop :=
  ok_u32 (channel_id m) /\ ok_u32 (job_id m) /\ ok_u256 (prev_hash m) /\ ok_u32 (min_ntime m) /\ ok_u32 (nbits m).
End SetNewPrevHash.

Module SetTarget.
Record t : Type := mk {
  channel_id : Z;
  maximum_target : bytes
}.

Definition encode (m : t) : result bytes Sv2CodecError :=
  (write_u32 (channel_id m) ;;w
   write_u256 (maximum_target m)) [].

Definition decode (payload : bytes) : outcome t :=
  run payload (
  channel_id <-r read_u32 ;;
  maximum_target <-r read_u256 ;;
  rret (mk channel_id maximum_target)).

(** Values the field types can hold on the wire. *)
Definition wf (m : t) : Prop :=
  ok_u32 (channel_id m) /\ ok_u256 (maximum_target m).
End SetTarget.

Module SubmitSharesStandard.
Record t : Type := mk {
  channel_id : Z;
  sequence_number : Z;
  job_id : Z;
  nonce : Z;
  ntime : Z;
  version : Z
}.

Definition encode (m : t) : result bytes Sv2CodecError :=
  (write_u32 (channel_id m) ;;w
   write_u32 (sequence_number m) ;;w
   write_u32 (job_id m) ;;w
   write_u32 (nonce m) ;;w
   write_u32 (ntime m) ;;w
   write_u32 (version m)) [].

Definition decode (payload : bytes) : outcome t :=
  run payload (
  channel_id <-r read_u32 ;;
  sequence_number <-r read_u32 ;;
  job_id <-r read_u32 ;;
  nonce <-r read_u32 ;;
  ntime <-r read_u32 ;;
  version <-r read_u32 ;;
  rret (mk channel_id sequence_number job_id nonce ntime version)).

(** Values the field types can hold on the wire. *)
Definition wf (m : t) : Prop :=
  ok_u32 (channel_id m) /\ ok_u32 (sequence_number m) /\ ok_u32 (job_id m) /\ ok_u32 (nonce m) /\ ok_u32 (ntime m) /\ ok_u32 (version m).
End SubmitSharesStandard.

Module SubmitSharesSuccess.
Record t : Type := mk {
  channel_id : Z;
  last_sequence_number : Z;
  new_submits_accepted_count : Z;
  new_shares_sum : Z
}.

Definition encode (m : t) : result bytes Sv2CodecError :=
  (write_u32 (channel_id m) ;;w
   write_u32 (last_sequence_number m) ;;w
   write_u32 (new_submits_accepted_count m) ;;w
   write_u64 (new_shares_sum m)) [].

Definition decode (payload : bytes) : outcome t :=
  run payload (
  channel_id <-r read_u32 ;;
  last_sequence_number <-r read_u32 ;;
  new_submits_accepted_count <-r read_u32 ;;
  new_shares_sum <-r read_u64 ;;
  rret (mk channel_id last_sequence_number new_submits_accepted_count new_shares_sum)).

(** Values the field types can hold on the wire. *)
Definition wf (m : t) : Prop :=
  ok_u32 (channel_id m) /\ ok_u32 (last_sequence_number m) /\ ok_u32 (new_submits_accepted_count m) /\ ok_u64 (new_shares_sum m).
End SubmitSharesSuccess.

Module SubmitSharesError.
Record t : Type := mk {
  channel_id : Z;
  sequence_number : Z;
  error_code : string
}.

Definition encode (m : t) : result bytes Sv2CodecError :=
  (write_u32 (channel_id m) ;;w
   write_u32 (sequence_number m) ;;w
   write_str0_255 (error_code m)) [].

Definition decode (payload : bytes) : outcome t :=
  run payload (
  channel_id <-r read_u32 ;;
  sequence_number <-r read_u32 ;;
  error_code <-r read_str0_255 ;;
  rret (mk channel_id sequence_number error_code)).

(** Values the field types can hold on the wire. *)
Definition wf (m : t) : Prop :=
  ok_u32 (channel_id m) /\ ok_u32 (sequence_number m) /\ ok_str0_255 (error_code m).
End SubmitSharesError.

Module OpenExtendedMiningChannel.
Record t : Type := mk {
  request_id : Z;
  user_identity : string;
  nominal_hash_rate : Z;
  max_target : bytes;
  min_extranonce_size : Z
}.

Definition encode (m : t) : result bytes Sv2CodecError :=
  (write_u32 (request_id m) ;;w
   write_str0_255 (user_identity m) ;;w
   write_f32 (nominal_hash_rate m) ;;w
   write_u256 (max_target m) ;;w
   write_u16 (min_extranonce_size m)) [].

Definition decode (payload : bytes) : outcome t :=
  run payload (
  request_id <-r read_u32 ;;
  user_identity <-r read_str0_255 ;;
  nominal_hash_rate <-r read_f32 ;;
  max_target <-r read_u256 ;;
  min_extranonce_size <-r read_u16 ;;
  rret (mk request_id user_identity nominal_hash_rate max_target min_extranonce_size)).

(** Values the field types can hold on the wire. *)
Definition wf (m : t) : Prop :=
  ok_u32 (request_id m) /\ ok_str0_255 (user_identity m) /\ ok_f32 (nominal_hash_rate m) /\ ok_u256 (max_target m) /\ ok_u16 (min_extranonce_size m).
End OpenExtendedMiningChannel.

Module OpenExtendedMiningChannelSuccess.
Record t : Type := mk {
  request_id : Z;
  channel_id : Z;
  target : bytes;
  extranonce_size : Z;
  extranonce_prefix : bytes
}.

Definition encode (m : t) : result bytes Sv2CodecError :=
  (write_u32 (request_id m) ;;w
   write_u32 (channel_id m) ;;w
   write_u256 (target m) ;;w
   write_u16 (extranonce_size m) ;;w
   write_b0_255 (extranonce_prefix m)) [].

Definition decode (payload : bytes) : outcome t :=
  run payload (
  request_id <-r read_u32 ;;
  channel_id <-r read_u32 ;;
  target <-r read_u256 ;;
  extranonce_size <-r read_u16 ;;
  extranonce_prefix <-r read_b0_255 ;;
  rret (mk request_id channel_id target extranonce_size extranonce_prefix)).

(** Values the field types can hold on the wire. *)
Definition wf (m : t) : Prop :=
  ok_u32 (request_id m) /\ ok_u32 (channel_id m) /\ ok_u256 (target m) /\ ok_u16 (extranonce_size m) /\ ok_b0_255 (extranonce_prefix m).
End OpenExtendedMiningChannelSuccess.

Module NewExtendedMiningJob.
Record t : Type := mk {
  channel_id : Z;
  job_id : Z;
  min_ntime : option Z;
  version : Z;
  version_rolling_allowed : bool;
  merkle_path : list bytes;
  coinbase_tx_prefix : bytes;
  coinbase_tx_suffix : bytes
}.

Definition encode (m : t) : result bytes Sv2CodecError :=
  (write_u32 (channel_id m) ;;w
   write_u32 (job_id m) ;;w
   write_option_u32 (min_ntime m) ;;w
   write_u32 (version m) ;;w
   write_bool (version_rolling_allowed m) ;;w
   write_seq_u256 (merkle_path m) ;;w
   write_b0_64k (coinbase_tx_prefix m) ;;w
   write_b0_64k (coinbase_tx_suffix m)) [].

Definition decode (payload : bytes) : outcome t :=
  run payload (
  channel_id <-r read_u32 ;;
  job_id <-r read_u32 ;;
  min_ntime <-r read_option_u32 ;;
  version <-r read_u32 ;;
  version_rolling_allowed <-r read_bool ;;
  merkle_path <-r read_seq_u256 ;;
  coinbase_tx_prefix <-r read_b0_64k ;;
  coinbase_tx_suffix <-r read_b0_64k ;;
  rret (mk channel_id job_id min_ntime version version_rolling_allowed merkle_path coinbase_tx_prefix coinbase_tx_suffix)).

(** Values the field types can hold on the wire. *)
Definition wf (m : t) : Prop :=
  ok_u32 (channel_id m) /\ ok_u32 (job_id m) /\ ok_option_u32 (min_ntime m) /\ ok_u32 (version m) /\ ok_bool (version_rolling_allowed m) /\ ok_seq_u256 (merkle_path m) /\ ok_b0_64k (coinbase_tx_prefix m) /\ ok_b0_64k (coinbase_tx_suffix m).
End NewExtendedMiningJob.

Module SubmitSharesExtended.
Record t : Type := mk {
  channel_id : Z;
  sequence_number : Z;
  job_id : Z;
  nonce : Z;
  ntime : Z;
  version : Z;
  extranonce : bytes
}.

Definition encode (m : t) : result bytes Sv2CodecError :=
  (write_u32 (channel_id m) ;;w
   write_u32 (sequence_number m) ;;w
   write_u32 (job_id m) ;;w
   write_u32 (nonce m) ;;w
   write_u32 (ntime m) ;;w
   write_u32 (version m) ;;w
   write_b0_255 (extranonce m)) [].

Definition decode (payload : bytes) : outcome t :=
  run payload (
  channel_id <-r read_u32 ;;
  sequence_number <-r read_u32 ;;
  job_id <-r read_u32 ;;
  nonce <-r read_u32 ;;
  ntime <-r read_u32 ;;
  version <-r read_u32 ;;
  extranonce <-r read_b0_255 ;;
  rret (mk channel_id sequence_number job_id nonce ntime version extranonce)).

(** Values the field types can hold on the wire. *)
Definition wf (m : t) : Prop :=
  ok_u32 (channel_id m) /\ ok_u32 (sequence_number m) /\ ok_u32 (job_id m) /\ ok_u32 (nonce m) /\ ok_u32 (ntime m) /\ ok_u32 (version m) /\ ok_b0_255 (extranonce m).
End SubmitSharesExtended.

Module CloseChannel.
Record t : Type := mk {
  channel_id : Z;
  reason_code : string
}.

Definition encode (m : t) : result bytes Sv2CodecError :=
  (write_u32 (channel_id m) ;;w
   write_str0_255 (reason_code m)) [].

Definition decode (payload : bytes) : outcome t :=
  run payload (
  channel_id <-r read_u32 ;;
  reason_code <-r read_str0_255 ;;
  rret (mk channel_id reason_code)).

(** Values the field types can hold on the wire. *)
Definition wf (m : t) : Prop :=
  ok_u32 (channel_id m) /\ ok_str0_255 (reason_code m).
End CloseChannel.

(** * Properties *)

(** ** What a reader does to the cursor *)

Create HintDb codec.

Definition cursor_ok (r : Reader.t) : Prop := (Reader.pos r <= length (Reader.buf r))%nat.

(** From [r] to [r'] the reader moved over exactly the bytes [enc]. *)
Definition moved (r : Reader.t) (enc : bytes) (r' : Reader.t) : Prop :=
  cursor_ok r' /\ Reader.buf r' = Reader.buf r /\
  drop (Reader.pos r) (Reader.buf r) = enc ++ drop (Reader.pos r') (Reader.buf r').

Lemma moved_nil r : cursor_ok r -> moved r [] r.
Proof. done. Qed.

Lemma moved_app r a r1 b r2 : moved r a r1 -> moved r1 b r2 -> moved r (a ++ b) r2.
Proof.
  intros (_ & Hb1 & H1) (Ho & Hb2 & H2). split; [done|]. split; [congruence|].
  by rewrite H1, H2, app_assoc.
Qed.

(** A reader that never panics, fails only cleanly, and on success returns a value related by
    [P] to the bytes it moved over. *)
Definition reads {A} (rd : reader A) (P : A -> bytes -> Prop) : Prop :=
  forall r, cursor_ok r ->
  match rd r with
  | Val (a, r') => exists enc, moved r enc r' /\ P a enc
  | Fail _ => True
  | Panic => False
  end.

(** On a cursor in front of [enc] the reader returns [a] and stops behind it. *)
Definition decodes {A} (rd : reader A) (enc : bytes) (a : A) : Prop :=
  forall r rest, cursor_ok r -> drop (Reader.pos r) (Reader.buf r) = enc ++ rest ->
  exists r', rd r = Val (a, r') /\ moved r enc r' /\ drop (Reader.pos r') (Reader.buf r') = rest.

Definition writes (w : writer) (enc : bytes) : Prop := forall buf, w buf = Ok (buf ++ enc).

Lemma reads_ret {A} (a : A) : reads (rret a) (fun x enc => x = a /\ enc = []).
Proof. intros r Hr. exists []. split; [by apply moved_nil|done]. Qed.

Lemma reads_fail {A} e (P : A -> bytes -> Prop) : reads (rfail e) P.
Proof. intros r Hr. exact I. Qed.

Lemma reads_bind {A B} (x : reader A) (k : A -> reader B) P Q :
  reads x P -> (forall a, reads (k a) (Q a)) ->
  reads (rbind x k) (fun b enc => exists a e1 e2, enc = e1 ++ e2 /\ P a e1 /\ Q a b e2).
Proof.
  intros Hx Hk r Hr. unfold rbind. specialize (Hx r Hr).
  destruct (x r) as [[a r1]|e|]; [|done|done]. destruct Hx as (e1 & Hm & HP).
  specialize (Hk a r1 (proj1 Hm)). destruct (k a r1) as [[b r2]|e|]; [|done|done].
  destruct Hk as (e2 & Hm2 & HQ). exists (e1 ++ e2). split; [by eapply moved_app|]. eauto 10.
Qed.

Lemma reads_weaken {A} (x : reader A) (P Q : A -> bytes -> Prop) :
  reads x P -> (forall a enc, P a enc -> Q a enc) -> reads x Q.
Proof.
  intros Hx HPQ r Hr. specialize (Hx r Hr). destruct (x r) as [[a r']|e|]; [|done|done].
  destruct Hx as (enc & Hm & HP). eauto.
Qed.

Lemma decodes_ret {A} (a : A) : decodes (rret a) [] a.
Proof. intros r rest Hr Hd. exists r. split; [done|]. split; [by apply moved_nil|done]. Qed.

Lemma decodes_bind {A B} (x : reader A) (k : A -> reader B) e1 e2 a b :
  decodes x e1 a -> decodes (k a) e2 b -> decodes (rbind x k) (e1 ++ e2) b.
Proof.
  intros Hx Hk r rest Hr Hd. rewrite <-app_assoc in Hd.
  destruct (Hx r (e2 ++ rest) Hr Hd) as (r1 & H1 & Hm1 & Hd1).
  destruct (Hk r1 rest (proj1 Hm1) Hd1) as (r2 & H2 & Hm2 & Hd2).
  exists r2. unfold rbind. rewrite H1. split; [done|]. split; [by eapply moved_app|done].
Qed.

Lemma writes_extend b : writes (extend b) b.
Proof. done. Qed.

Lemma writes_seq a b e1 e2 : writes a e1 -> writes b e2 -> writes (a ;;w b) (e1 ++ e2).
Proof. intros Ha Hb buf. unfold wseq. rewrite Ha. cbn. by rewrite Hb, app_assoc. Qed.

(** ** The slice primitive *)

Lemma read_n_decodes enc : decodes (read_n (length enc)) enc enc.
Proof.
  intros r rest Hr Hd. unfold cursor_ok in Hr.
  assert (length enc + length rest = length (Reader.buf r) - Reader.pos r)%nat as Hl
    by (rewrite <-length_app, <-Hd, length_drop; done).
  exists (Reader.mk (Reader.buf r) (Reader.pos r + length enc)).
  assert (drop (Reader.pos r + length enc) (Reader.buf r) = rest) as Hrest.
  { rewrite <-drop_drop, Hd, drop_app_length. done. }
  unfold read_n, ensure, remaining, slice, rbind, rfail, rret. cbn [Reader.buf Reader.pos].
  rewrite (proj2 (Nat.leb_le _ _)) by lia. unfold lenZ.
  rewrite (proj2 (Z.ltb_ge _ _)) by lia. rewrite (proj2 (Nat.leb_le _ _)) by lia.
  split; [|split; [|done]].
  - by rewrite Hd, take_app_length.
  - split; [unfold cursor_ok; cbn; lia|]. split; [done|]. cbn. by rewrite Hd, Hrest.
Qed.

Lemma read_n_reads n : reads (read_n n) (fun b enc => b = enc /\ length enc = n).
Proof.
  intros r Hr. unfold cursor_ok in Hr.
  unfold read_n, ensure, remaining, slice, rbind, rfail, rret. cbn [Reader.buf Reader.pos].
  rewrite (proj2 (Nat.leb_le _ _)) by lia. unfold lenZ. case_if; [done|]. z_bool.
  rewrite (proj2 (Nat.leb_le _ _)) by lia.
  exists (take n (drop (Reader.pos r) (Reader.buf r))).
  split; [|split; [done|rewrite length_take, length_drop; lia]].
  split; [unfold cursor_ok; cbn; lia|]. split; [done|]. cbn.
  rewrite <-drop_drop. by rewrite take_drop.
Qed.

(** ** Fields

    The interface a field type offers to the messages: it writes what it reads, and reads only
    what it could have written ([CanonField]); [bool] reads any non-zero byte as true and is
    the one field without the second half. *)

Class Field {A} (w : A -> writer) (rd : reader A) (ok : A -> Prop) (enc : A -> bytes) : Prop := {
  f_writes : forall v, ok v -> writes (w v) (enc v);
  f_decodes : forall v, ok v -> decodes rd (enc v) v;
  f_reads : reads rd (fun v _ => ok v)
}.

Class CanonField {A} (w : A -> writer) (rd : reader A) (ok : A -> Prop) (enc : A -> bytes)
    : Prop := {
  c_writes : forall v, ok v -> writes (w v) (enc v);
  c_decodes : forall v, ok v -> decodes rd (enc v) v;
  c_reads : reads rd (fun v e => ok v /\ e = enc v)
}.

#[global] Instance canon_field {A} w (rd : reader A) ok enc :
  CanonField w rd ok enc -> Field w rd ok enc.
Proof.
  intros [Hw Hd Hr]. split; [done..|]. eapply reads_weaken; [exact Hr|]. by intros v e [? _].
Qed.

Lemma from_le_bytes_in_u n z : in_u (8 * Z.of_nat n) z -> from_le_bytes (le_bytes n z) = z.
Proof.
  unfold in_u. intros Hz. rewrite from_to_le_bytes. apply Z.mod_small.
  rewrite Z.pow_mul_r in Hz by lia. done.
Qed.

Lemma from_le_bytes_is_u n l : length l = n -> in_u (8 * Z.of_nat n) (from_le_bytes l).
Proof.
  intros <-. unfold in_u. rewrite Z.pow_mul_r by lia. apply from_le_bytes_range.
Qed.

(** Little-endian integers of [n] bytes. *)
Lemma uint_field n :
  CanonField (fun v => extend (le_bytes n v)) (b <-r read_n n ;; rret (from_le_bytes b))
    (in_u (8 * Z.of_nat n)) (le_bytes n).
Proof.
  split.
  - intros v _. apply writes_extend.
  - intros v Hv. rewrite <-(app_nil_r (le_bytes n v)). eapply decodes_bind.
    + rewrite <-(length_le_bytes n v) at 1. apply read_n_decodes.
    + cbn beta. rewrite from_le_bytes_in_u by done. apply decodes_ret.
  - eapply reads_weaken.
    + eapply reads_bind; [apply read_n_reads|]. intros a. apply reads_ret.
    + intros v e (a & e1 & e2 & -> & [-> Hl] & -> & ->). rewrite app_nil_r.
      split; [by apply from_le_bytes_is_u|]. by rewrite <-Hl, to_from_le_bytes.
Qed.

#[global] Instance field_u8 : CanonField write_u8 read_u8 ok_u8 (le_bytes 1) := uint_field 1.
#[global] Instance field_u16 : CanonField write_u16 read_u16 ok_u16 (le_bytes 2) := uint_field 2.
#[global] Instance field_u32 : CanonField write_u32 read_u32 ok_u32 (le_bytes 4) := uint_field 4.
#[global] Instance field_u64 : CanonField write_u64 read_u64 ok_u64 (le_bytes 8) := uint_field 8.
#[global] Instance field_f32 : CanonField write_f32 read_f32 ok_f32 (le_bytes 4) := uint_field 4.

#[global] Instance field_u256 : CanonField write_u256 read_u256 ok_u256 id.
Proof.
  split.
  - intros v _. apply writes_extend.
  - intros v Hv. unfold read_u256, ok_u256 in *. rewrite <-Hv. apply read_n_decodes.
  - eapply reads_weaken; [apply read_n_reads|]. by intros v e [-> ?].
Qed.

(** A length-prefixed byte field, with the length limit [m]. *)
Definition prefixed (n : nat) (b : bytes) : bytes := le_bytes n (lenZ b) ++ b.

Lemma prefixed_field n (limit : Z) (w : Z -> writer) (rd : reader Z) e
    (wf : bytes -> writer) (rdf : reader bytes) :
  CanonField w rd (in_u (8 * Z.of_nat n)) (le_bytes n) ->
  0 <= limit < 2 ^ (8 * Z.of_nat n) ->
  (forall b, wf b = if lenZ b >? limit then fun _ => Err (e (lenZ b)) else w (lenZ b) ;;w extend b) ->
  (forall r, cursor_ok r -> rdf r = (len <-r rd ;; if len >? limit then rfail (e len) else read_n (Z.to_nat len)) r) ->
  CanonField wf rdf (fun b => lenZ b <= limit) (prefixed n).
Proof.
  intros [Hw Hd Hr] Hlim Hwf Hrdf.
  assert (forall b : bytes, lenZ b <= limit -> in_u (8 * Z.of_nat n) (lenZ b)) as Hin.
  { intros b Hb. pose proof (lenZ_nonneg b). unfold in_u. lia. }
  split.
  - intros b Hb buf. rewrite Hwf. rewrite Z.gtb_ltb, (proj2 (Z.ltb_ge _ _)) by done.
    apply writes_seq; [by apply Hw, Hin|apply writes_extend].
  - intros b Hb r rest Hok Hdr. rewrite Hrdf by done. revert r rest Hok Hdr.
    eapply decodes_bind; [by apply Hd, Hin|]. cbn beta.
    rewrite Z.gtb_ltb, (proj2 (Z.ltb_ge _ _)) by done.
    replace (Z.to_nat (lenZ b)) with (length b) by (unfold lenZ; lia). apply read_n_decodes.
  - intros r Hok. rewrite Hrdf by done. revert r Hok. eapply reads_weaken.
    + eapply reads_bind; [exact Hr|]. intros len.
      refine (_ : reads _ (fun b e => len <= limit /\ b = e /\ length e = Z.to_nat len)).
      destruct (len >? limit) eqn:E; [apply reads_fail|]. z_bool.
      eapply reads_weaken; [apply read_n_reads|]. naive_solver.
    + intros b e0 (len & e1 & e2 & -> & [Hu ->] & Hle & -> & Hlen).
      assert (lenZ e2 = len) as Heq by (unfold lenZ, in_u in *; lia).
      unfold prefixed. by rewrite Heq.
Qed.

(** A length prefix that cannot exceed the limit needs no check. *)
Lemma no_limit_check {A} (rd : reader Z) (limit : Z) (e : Z -> Sv2CodecError) (k : Z -> reader A) :
  reads rd (fun v _ => v <= limit) ->
  forall r, cursor_ok r -> (len <-r rd ;; k len) r
    = (len <-r rd ;; if len >? limit then rfail (e len) else k len) r.
Proof.
  intros Hr r Hok. unfold rbind. specialize (Hr r Hok). destruct (rd r) as [[a r']|?|]; [|done|done].
  destruct Hr as (_ & _ & Ha). by rewrite Z.gtb_ltb, (proj2 (Z.ltb_ge _ _)) by done.
Qed.

Lemma u8_at_most_255 : reads read_u8 (fun v _ => v <= 255).
Proof.
  eapply reads_weaken; [apply (c_reads (CanonField := field_u8))|].
  intros v e [[_ Hv] _]. lia.
Qed.

Lemma u16_at_most_65535 : reads read_u16 (fun v _ => v <= 65535).
Proof.
  eapply reads_weaken; [apply (c_reads (CanonField := field_u16))|].
  intros v e [[_ Hv] _]. lia.
Qed.

#[global] Instance field_b0_32 : CanonField write_b0_32 read_b0_32 ok_b0_32 (prefixed 1).
Proof. eapply (prefixed_field 1 32 _ _ BytesTooLong); [apply field_u8|lia|done|done]. Qed.

#[global] Instance field_b0_255 : CanonField write_b0_255 read_b0_255 ok_b0_255 (prefixed 1).
Proof.
  eapply (prefixed_field 1 255 _ _ StringTooLong); [apply field_u8|lia|done|].
  intros r Hr. apply (no_limit_check _ 255 StringTooLong); [apply u8_at_most_255|done].
Qed.

#[global] Instance field_b0_64k : CanonField write_b0_64k read_b0_64k ok_b0_64k (prefixed 2).
Proof.
  eapply (prefixed_field 2 65535 _ _ StringTooLong); [apply field_u16|lia|done|].
  intros r Hr. apply (no_limit_check _ 65535 StringTooLong); [apply u16_at_most_65535|done].
Qed.

#[global] Instance field_str0_255 : CanonField write_str0_255 read_str0_255 ok_str0_255
  (fun s => prefixed 1 (String.list_byte_of_string s)).
Proof.
  destruct field_b0_255 as [Hw Hd Hr].
  assert (forall r, read_str0_255 r = (b <-r read_b0_255 ;;
    if utf8_valid b then rret (String.string_of_list_byte b) else rfail (InvalidUtf8 b)) r) as Hrd.
  { intros r. unfold read_str0_255, read_b0_255, rbind.
    destruct (read_u8 r) as [[a r1]|?|]; done. }
  split.
  - intros s [Hl _]. apply Hw, Hl.
  - intros s [Hl Hu] r rest Hok Hdr. rewrite Hrd. revert r rest Hok Hdr.
    rewrite <-(app_nil_r (prefixed _ _)). eapply decodes_bind; [apply Hd, Hl|].
    cbn beta. rewrite Hu, String.string_of_list_byte_of_string. apply decodes_ret.
  - intros r Hok. rewrite Hrd. revert r Hok. eapply reads_weaken.
    + eapply reads_bind; [exact Hr|]. intros b.
      refine (_ : reads _ (fun s e => utf8_valid b = true /\ s = String.string_of_list_byte b /\ e = [])).
      destruct (utf8_valid b) eqn:E; [|apply reads_fail].
      eapply reads_weaken; [apply reads_ret|]. naive_solver.
    + intros s e (b & e1 & e2 & -> & [Hl ->] & Hu & -> & ->).
      unfold ok_str0_255. rewrite String.list_byte_of_string_of_list_byte, app_nil_r. done.
Qed.

Lemma u256s_writes l : writes (write_u256s l) (concat l).
Proof.
  induction l as [|x l IH]; [intros buf; cbn; by rewrite app_nil_r|].
  cbn [write_u256s concat]. by apply writes_seq.
Qed.

Lemma u256s_decodes l : Forall ok_u256 l -> decodes (read_u256s (length l)) (concat l) l.
Proof.
  induction 1 as [|x l Hx Hl IH]; [apply decodes_ret|].
  cbn [length read_u256s concat]. apply decodes_bind with (a := x); [by apply field_u256|].
  rewrite <-(app_nil_r (concat l)). eapply decodes_bind; [exact IH|]. apply decodes_ret.
Qed.

Lemma u256s_reads n :
  reads (read_u256s n) (fun l e => length l = n /\ Forall ok_u256 l /\ e = concat l).
Proof.
  induction n as [|n IH]; cbn [read_u256s].
  - eapply reads_weaken; [apply reads_ret|]. intros l e [-> ->]. by repeat constructor.
  - eapply reads_weaken.
    + eapply reads_bind; [apply (c_reads (CanonField := field_u256))|]. intros x.
      eapply reads_bind; [exact IH|]. intros xs. apply reads_ret.
    + intros l e (x & e1 & e2 & -> & [Hx ->] & xs & e3 & e4 & -> & (<- & Hxs & ->) & -> & ->).
      rewrite app_nil_r. split; [done|]. split; [by constructor|done].
Qed.

#[global] Instance field_seq_u256 : CanonField write_seq_u256 read_seq_u256 ok_seq_u256
  (fun l => le_bytes 1 (lenZ l) ++ concat l).
Proof.
  split.
  - intros l [Hl Hf] buf. unfold write_seq_u256.
    rewrite Z.gtb_ltb, (proj2 (Z.ltb_ge _ _)) by done.
    apply writes_seq; [apply writes_extend|apply u256s_writes].
  - intros l [Hl Hf]. eapply decodes_bind.
    + apply (c_decodes (CanonField := field_u8)). pose proof (lenZ_nonneg l).
      unfold ok_u8, in_u. lia.
    + cbn beta. replace (Z.to_nat (lenZ l)) with (length l) by (unfold lenZ; lia).
      by apply u256s_decodes.
  - eapply reads_weaken.
    + eapply reads_bind; [apply (c_reads (CanonField := field_u8))|]. intros n. apply u256s_reads.
    + intros l e (n & e1 & e2 & -> & [Hn ->] & Hlen & Hf & ->).
      assert (lenZ l = n) as <- by (unfold lenZ, ok_u8, in_u in *; lia).
      split; [|done]. split; [|done]. unfold ok_u8, in_u in Hn. lia.
Qed.

#[global] Instance field_option_u32 : CanonField write_option_u32 read_option_u32 ok_option_u32
  (fun o => match o with None => le_bytes 1 0 | Some v => le_bytes 1 1 ++ le_bytes 4 v end).
Proof.
  split.
  - intros [v|] Hv; [|apply writes_extend]. apply writes_seq; apply writes_extend.
  - intros [v|] Hv; unfold read_option_u32.
    + eapply decodes_bind; [apply (c_decodes (CanonField := field_u8)); unfold ok_u8, in_u; lia|].
      cbn [Z.eqb Pos.eqb]. rewrite <-(app_nil_r (le_bytes 4 v)).
      eapply decodes_bind; [apply (c_decodes (CanonField := field_u32)), Hv; done|].
      apply decodes_ret.
    + rewrite <-(app_nil_r (le_bytes 1 0)).
      eapply decodes_bind; [apply (c_decodes (CanonField := field_u8)); unfold ok_u8, in_u; lia|].
      apply decodes_ret.
  - eapply reads_weaken.
    + eapply reads_bind; [apply (c_reads (CanonField := field_u8))|]. intros tag.
      refine (_ : reads _ (fun o e => (tag = 0 /\ o = None /\ e = []) \/
        (tag = 1 /\ exists v, o = Some v /\ in_u 32 v /\ e = le_bytes 4 v))).
      destruct (tag =? 0) eqn:E0; z_bool.
      { eapply reads_weaken; [apply reads_ret|]. naive_solver. }
      destruct (tag =? 1) eqn:E1; z_bool; [|apply reads_fail].
      eapply reads_weaken.
      * eapply reads_bind; [apply (c_reads (CanonField := field_u32))|]. intros v. apply reads_ret.
      * intros o e (v & e1 & e2 & -> & [Hv ->] & -> & ->). rewrite app_nil_r. right. eauto.
    + intros o e (tag & e1 & e2 & -> & [_ ->] & [(-> & -> & ->)|(-> & v & -> & Hv & ->)]).
      * split; [by intros ? ?|done].
      * split; [by intros ? [= <-]|done].
Qed.

#[global] Instance field_bool : Field write_bool read_bool ok_bool
  (fun b => le_bytes 1 (if b then 1 else 0)).
Proof.
  split.
  - intros b _. apply writes_extend.
  - intros b _. rewrite <-(app_nil_r (le_bytes 1 _)). eapply decodes_bind.
    + apply (c_decodes (CanonField := field_u8)). destruct b; unfold ok_u8, in_u; lia.
    + destruct b; apply decodes_ret.
  - eapply reads_weaken.
    + eapply reads_bind; [apply (c_reads (CanonField := field_u8))|]. intros v. apply reads_ret.
    + done.
Qed.

(** ** Messages *)

Lemma run_decodes {A} (rd : reader A) enc a rest : decodes rd enc a -> run (enc ++ rest) rd = Val a.
Proof.
  intros Hd. destruct (Hd (Reader.new (enc ++ rest)) rest) as (r' & Hr & _);
    [unfold cursor_ok; cbn; lia|done|]. unfold run. by rewrite Hr.
Qed.

Lemma run_reads {A} (rd : reader A) P p a : reads rd P -> run p rd = Val a ->
  exists enc rest, p = enc ++ rest /\ P a enc.
Proof.
  intros Hr. unfold run. specialize (Hr (Reader.new p) ltac:(unfold cursor_ok; cbn; lia)).
  destruct (rd (Reader.new p)) as [[a' r']|e|]; [|done|done]. intros [= ->].
  destruct Hr as (enc & (_ & _ & Hd) & HP). eauto.
Qed.

Lemma run_no_panic {A} (rd : reader A) P p : reads rd P -> run p rd <> Panic.
Proof.
  intros Hr. unfold run. specialize (Hr (Reader.new p) ltac:(unfold cursor_ok; cbn; lia)).
  by destruct (rd (Reader.new p)) as [[a' r']|e|].
Qed.

Lemma decodes_bind_last {A B} (x : reader A) (f : A -> B) e a :
  decodes x e a -> decodes (a <-r x ;; rret (f a)) e (f a).
Proof. intros Hx. rewrite <-(app_nil_r e). eapply decodes_bind; [exact Hx|apply decodes_ret]. Qed.

Lemma encode_writes w enc : writes w enc -> w [] = Ok enc.
Proof. intros Hw. apply (Hw []). Qed.

(** What the gateway relies on for a message type: encoding a message and decoding it gives it
    back, whatever follows it in the buffer; decoding arbitrary bytes never panics and yields a
    message whose fields fit their types. *)
Class Message {M} (encode : M -> result bytes Sv2CodecError) (decode : bytes -> outcome M)
    (wf : M -> Prop) : Prop := {
  msg_round_trip : forall m, wf m ->
    exists enc, encode m = Ok enc /\ forall rest, decode (enc ++ rest) = Val m;
  msg_no_panic : forall p, decode p <> Panic;
  msg_wf : forall p m, decode p = Val m -> wf m
}.

(** In addition, the bytes a message was decoded from are the bytes it encodes to. *)
Class CanonMessage {M} (encode : M -> result bytes Sv2CodecError) (decode : bytes -> outcome M)
    (wf : M -> Prop) : Prop := {
  canon_message : Message encode decode wf;
  msg_canonical : forall p m, decode p = Val m ->
    exists enc rest, encode m = Ok enc /\ p = enc ++ rest
}.

#[global] Existing Instance canon_message.

Ltac field_reads :=
  first [ apply (c_reads (CanonField := field_u8)) | apply (c_reads (CanonField := field_u16))
        | apply (c_reads (CanonField := field_u32)) | apply (c_reads (CanonField := field_u64))
        | apply (c_reads (CanonField := field_f32)) | apply (c_reads (CanonField := field_u256))
        | apply (c_reads (CanonField := field_str0_255)) | apply (c_reads (CanonField := field_b0_32))
        | apply (c_reads (CanonField := field_b0_255)) | apply (c_reads (CanonField := field_b0_64k))
        | apply (c_reads (CanonField := field_seq_u256))
        | apply (c_reads (CanonField := field_option_u32)) | apply (f_reads (Field := field_bool)) ].

Ltac field_decodes :=
  first [ apply (f_decodes (Field := field_bool)) | apply (c_decodes (CanonField := field_u8)) | apply (c_decodes (CanonField := field_u16))
        | apply (c_decodes (CanonField := field_u32)) | apply (c_decodes (CanonField := field_u64))
        | apply (c_decodes (CanonField := field_f32)) | apply (c_decodes (CanonField := field_u256))
        | apply (c_decodes (CanonField := field_str0_255)) | apply (c_decodes (CanonField := field_b0_32))
        | apply (c_decodes (CanonField := field_b0_255)) | apply (c_decodes (CanonField := field_b0_64k))
        | apply (c_decodes (CanonField := field_seq_u256))
        | apply (c_decodes (CanonField := field_option_u32)) ]; eassumption.

Ltac field_writes :=
  first [ apply (f_writes (Field := field_bool)) | apply (c_writes (CanonField := field_u8)) | apply (c_writes (CanonField := field_u16))
        | apply (c_writes (CanonField := field_u32)) | apply (c_writes (CanonField := field_u64))
        | apply (c_writes (CanonField := field_f32)) | apply (c_writes (CanonField := field_u256))
        | apply (c_writes (CanonField := field_str0_255)) | apply (c_writes (CanonField := field_b0_32))
        | apply (c_writes (CanonField := field_b0_255)) | apply (c_writes (CanonField := field_b0_64k))
        | apply (c_writes (CanonField := field_seq_u256))
        | apply (c_writes (CanonField := field_option_u32)) ]; eassumption.

Ltac writes_chain :=
  repeat first [ eapply writes_seq; [field_writes|]
               | field_writes ].

Ltac decodes_chain :=
  repeat first [ eapply decodes_bind_last; field_decodes
               | eapply decodes_bind; [field_decodes|cbn beta] ].

Ltac open_chain :=
  repeat match goal with
  | H : exists _, _ |- _ => destruct H
  | H : _ /\ _ |- _ => destruct H
  end; subst.

Ltac solve_wf := hnf; repeat (split; [eassumption|]); eassumption.

Ltac solve_reads :=
  eapply reads_weaken; [repeat (eapply reads_bind; [field_reads|intros ?]); apply reads_ret|];
  intros m e Hx; cbv beta in Hx; open_chain; split; [solve_wf|];
  rewrite !app_nil_r; apply encode_writes; writes_chain.

Ltac solve_round_trip :=
  intros [] Hwf; hnf in Hwf; open_chain; eexists; split;
  [ apply encode_writes; writes_chain | intros rest; apply run_decodes; decodes_chain ].

(** A decoder that is a run of a canonical reader gives a canonical message. *)
Lemma canon_message_intro {M} encode (rd : reader M) wf :
  reads rd (fun m e => wf m /\ encode m = Ok e) ->
  (forall m, wf m -> exists enc, encode m = Ok enc /\ forall rest, run (enc ++ rest) rd = Val m) ->
  CanonMessage encode (fun p => run p rd) wf.
Proof.
  intros Hr Hrt. split; [split; [done| |]|].
  - intros p. eapply run_no_panic, Hr.
  - intros p m Hd. by apply (run_reads _ _ _ _ Hr) in Hd as (? & ? & ? & ? & ?).
  - intros p m Hd. apply (run_reads _ _ _ _ Hr) in Hd as (enc & rest & ? & ? & ?). eauto.
Qed.

Ltac solve_message := apply canon_message_intro; [solve_reads|solve_round_trip].

#[global] Instance msg_SetupConnection :
  CanonMessage SetupConnection.encode SetupConnection.decode SetupConnection.wf.
Proof. solve_message. Qed.

#[global] Instance msg_SetupConnectionSuccess :
  CanonMessage SetupConnectionSuccess.encode SetupConnectionSuccess.decode SetupConnectionSuccess.wf.
Proof. solve_message. Qed.

#[global] Instance msg_SetupConnectionError :
  CanonMessage SetupConnectionError.encode SetupConnectionError.decode SetupConnectionError.wf.
Proof. solve_message. Qed.

#[global] Instance msg_OpenStandardMiningChannel :
  CanonMessage OpenStandardMiningChannel.encode OpenStandardMiningChannel.decode OpenStandardMiningChannel.wf.
Proof. solve_message. Qed.

#[global] Instance msg_OpenStandardMiningChannelSuccess :
  CanonMessage OpenStandardMiningChannelSuccess.encode OpenStandardMiningChannelSuccess.decode OpenStandardMiningChannelSuccess.wf.
Proof. solve_message. Qed.

#[global] Instance msg_OpenMiningChannelError :
  CanonMessage OpenMiningChannelError.encode OpenMiningChannelError.decode OpenMiningChannelError.wf.
Proof. solve_message. Qed.

#[global] Instance msg_NewMiningJob :
  CanonMessage NewMiningJob.encode NewMiningJob.decode NewMiningJob.wf.
Proof. solve_message. Qed.

#[global] Instance msg_SetNewPrevHash :
  CanonMessage SetNewPrevHash.encode SetNewPrevHash.decode SetNewPrevHash.wf.
Proof. solve_message. Qed.

#[global] Instance msg_SetTarget :
  CanonMessage SetTarget.encode SetTarget.decode SetTarget.wf.
Proof. solve_message. Qed.

#[global] Instance msg_SubmitSharesStandard :
  CanonMessage SubmitSharesStandard.encode SubmitSharesStandard.decode SubmitSharesStandard.wf.
Proof. solve_message. Qed.

#[global] Instance msg_SubmitSharesSuccess :
  CanonMessage SubmitSharesSuccess.encode SubmitSharesSuccess.decode SubmitSharesSuccess.wf.
Proof. solve_message. Qed.

#[global] Instance msg_SubmitSharesError :
  CanonMessage SubmitSharesError.encode SubmitSharesError.decode SubmitSharesError.wf.
Proof. solve_message. Qed.

#[global] Instance msg_OpenExtendedMiningChannel :
  CanonMessage OpenExtendedMiningChannel.encode OpenExtendedMiningChannel.decode OpenExtendedMiningChannel.wf.
Proof. solve_message. Qed.

#[global] Instance msg_OpenExtendedMiningChannelSuccess :
  CanonMessage OpenExtendedMiningChannelSuccess.encode OpenExtendedMiningChannelSuccess.decode OpenExtendedMiningChannelSuccess.wf.
Proof. solve_message. Qed.

#[global] Instance msg_SubmitSharesExtended :
  CanonMessage SubmitSharesExtended.encode SubmitSharesExtended.decode SubmitSharesExtended.wf.
Proof. solve_message. Qed.

#[global] Instance msg_CloseChannel :
  CanonMessage CloseChannel.encode CloseChannel.decode CloseChannel.wf.
Proof. solve_message. Qed.

(** The rolling flag is read from any non-zero byte, so only the weaker interface holds. *)
Lemma message_intro {M} encode (rd : reader M) wf :
  reads rd (fun m _ => wf m) ->
  (forall m, wf m -> exists enc, encode m = Ok enc /\ forall rest, run (enc ++ rest) rd = Val m) ->
  Message encode (fun p => run p rd) wf.
Proof.
  intros Hr Hrt. split; [done| |].
  - intros p. eapply run_no_panic, Hr.
  - intros p m Hd. by apply (run_reads _ _ _ _ Hr) in Hd as (? & ? & ? & ?).
Qed.

#[global] Instance msg_NewExtendedMiningJob :
  Message NewExtendedMiningJob.encode NewExtendedMiningJob.decode NewExtendedMiningJob.wf.
Proof.
  apply message_intro; [|solve_round_trip].
  eapply reads_weaken; [repeat (eapply reads_bind; [field_reads|intros ?]); apply reads_ret|].
  intros m e Hx; cbv beta in Hx; open_chain; solve_wf.
Qed.

(** ** Claims *)

Definition round_trips {M} (encode : M -> result bytes Sv2CodecError)
    (decode : bytes -> outcome M) (wf : M -> Prop) : Prop :=
  forall m, wf m -> exists enc, encode m = Ok enc /\ forall rest, decode (enc ++ rest) = Val m.

(** C32 (codec round trip): for each of the seventeen messages, every value of the message type
    encodes without error, and decoding the encoding, with anything behind it, gives the
    message back. *)
Theorem codec_round_trip :
  round_trips SetupConnection.encode SetupConnection.decode SetupConnection.wf /\
  round_trips SetupConnectionSuccess.encode SetupConnectionSuccess.decode SetupConnectionSuccess.wf /\
  round_trips SetupConnectionError.encode SetupConnectionError.decode SetupConnectionError.wf /\
  round_trips OpenStandardMiningChannel.encode OpenStandardMiningChannel.decode OpenStandardMiningChannel.wf /\
  round_trips OpenStandardMiningChannelSuccess.encode OpenStandardMiningChannelSuccess.decode OpenStandardMiningChannelSuccess.wf /\
  round_trips OpenMiningChannelError.encode OpenMiningChannelError.decode OpenMiningChannelError.wf /\
  round_trips NewMiningJob.encode NewMiningJob.decode NewMiningJob.wf /\
  round_trips SetNewPrevHash.encode SetNewPrevHash.decode SetNewPrevHash.wf /\
  round_trips SetTarget.encode SetTarget.decode SetTarget.wf /\
  round_trips SubmitSharesStandard.encode SubmitSharesStandard.decode SubmitSharesStandard.wf /\
  round_trips SubmitSharesSuccess.encode SubmitSharesSuccess.decode SubmitSharesSuccess.wf /\
  round_trips SubmitSharesError.encode SubmitSharesError.decode SubmitSharesError.wf /\
  round_trips OpenExtendedMiningChannel.encode OpenExtendedMiningChannel.decode OpenExtendedMiningChannel.wf /\
  round_trips OpenExtendedMiningChannelSuccess.encode OpenExtendedMiningChannelSuccess.decode OpenExtendedMiningChannelSuccess.wf /\
  round_trips NewExtendedMiningJob.encode NewExtendedMiningJob.decode NewExtendedMiningJob.wf /\
  round_trips SubmitSharesExtended.encode SubmitSharesExtended.decode SubmitSharesExtended.wf /\
  round_trips CloseChannel.encode CloseChannel.decode CloseChannel.wf.
Proof. split_and!; exact (fun m Hm => msg_round_trip m Hm). Qed.

Definition canonical {M} (encode : M -> result bytes Sv2CodecError)
    (decode : bytes -> outcome M) : Prop :=
  forall p m, decode p = Val m -> exists enc rest, encode m = Ok enc /\ p = enc ++ rest.

(** (canonical decoding): for every message but [NewExtendedMiningJob], a payload that
    decodes starts with exactly the bytes the decoded message encodes to, so no two payloads
    of the same length decode to the same message. *)
Theorem codec_canonical :
  canonical SetupConnection.encode SetupConnection.decode /\
  canonical SetupConnectionSuccess.encode SetupConnectionSuccess.decode /\
  canonical SetupConnectionError.encode SetupConnectionError.decode /\
  canonical OpenStandardMiningChannel.encode OpenStandardMiningChannel.decode /\
  canonical OpenStandardMiningChannelSuccess.encode OpenStandardMiningChannelSuccess.decode /\
  canonical OpenMiningChannelError.encode OpenMiningChannelError.decode /\
  canonical NewMiningJob.encode NewMiningJob.decode /\
  canonical SetNewPrevHash.encode SetNewPrevHash.decode /\
  canonical SetTarget.encode SetTarget.decode /\
  canonical SubmitSharesStandard.encode SubmitSharesStandard.decode /\
  canonical SubmitSharesSuccess.encode SubmitSharesSuccess.decode /\
  canonical SubmitSharesError.encode SubmitSharesError.decode /\
  canonical OpenExtendedMiningChannel.encode OpenExtendedMiningChannel.decode /\
  canonical OpenExtendedMiningChannelSuccess.encode OpenExtendedMiningChannelSuccess.decode /\
  canonical SubmitSharesExtended.encode SubmitSharesExtended.decode /\
  canonical CloseChannel.encode CloseChannel.decode.
Proof. split_and!; exact (fun p m Hd => msg_canonical p m Hd). Qed.

Definition safe_decoder {M} (decode : bytes -> outcome M) (wf : M -> Prop) : Prop :=
  forall p, decode p <> Panic /\ forall m, decode p = Val m -> wf m.

(** C30 (decoder safety): on every byte string whatsoever, the decoder of each message returns a
    message whose fields are within their types or a codec error; no slice index is ever out
    of range. *)
Theorem codec_safe :
  safe_decoder SetupConnection.decode SetupConnection.wf /\
  safe_decoder SetupConnectionSuccess.decode SetupConnectionSuccess.wf /\
  safe_decoder SetupConnectionError.decode SetupConnectionError.wf /\
  safe_decoder OpenStandardMiningChannel.decode OpenStandardMiningChannel.wf /\
  safe_decoder OpenStandardMiningChannelSuccess.decode OpenStandardMiningChannelSuccess.wf /\
  safe_decoder OpenMiningChannelError.decode OpenMiningChannelError.wf /\
  safe_decoder NewMiningJob.decode NewMiningJob.wf /\
  safe_decoder SetNewPrevHash.decode SetNewPrevHash.wf /\
  safe_decoder SetTarget.decode SetTarget.wf /\
  safe_decoder SubmitSharesStandard.decode SubmitSharesStandard.wf /\
  safe_decoder SubmitSharesSuccess.decode SubmitSharesSuccess.wf /\
  safe_decoder SubmitSharesError.decode SubmitSharesError.wf /\
  safe_decoder OpenExtendedMiningChannel.decode OpenExtendedMiningChannel.wf /\
  safe_decoder OpenExtendedMiningChannelSuccess.decode OpenExtendedMiningChannelSuccess.wf /\
  safe_decoder NewExtendedMiningJob.decode NewExtendedMiningJob.wf /\
  safe_decoder SubmitSharesExtended.decode SubmitSharesExtended.wf /\
  safe_decoder CloseChannel.decode CloseChannel.wf.
Proof. split_and!; exact (fun p => conj (msg_no_panic p) (msg_wf p)). Qed.

(** Two payloads that differ only in the rolling byte decode to the same job. *)
Example rolling_flag_not_canonical :
  NewExtendedMiningJob.decode (replicate 13 x00 ++ [x01] ++ replicate 5 x00)
  = NewExtendedMiningJob.decode (replicate 13 x00 ++ [x02] ++ replicate 5 x00) /\
  exists m, NewExtendedMiningJob.decode (replicate 13 x00 ++ [x02] ++ replicate 5 x00) = Val m.
Proof. split; [reflexivity|eexists; reflexivity]. Qed.
