(* ===== verification/Difficulty.v ===== *)
(** * Difficulty arithmetic of the gateway

    Models the difficulty section of [services/sv2-gateway/src/shares.rs]: the 256-bit helpers
    on pairs of 128-bit words, [target_to_difficulty_u64] and [difficulty_to_target], each word
    operation at its width. The theorems relate the two shift-and-subtract loops to integer
    division. *)

From S2P Require Import Prelude Protocol.

(** ** 256-bit helpers *)

(** [(lo, hi)], two [u128]s. *)
Definition U256 : Type := Z * Z.

Definition u256_from_le (b : bytes) : U256 :=
  (from_le_bytes (take 16 b), from_le_bytes (take 16 (drop 16 b))).

(** [u128::leading_zeros]. *)
Definition leading_zeros (x : Z) : Z := if x =? 0 then 128 else 127 - Z.log2 x.

Definition u256_bits (v : U256) : Z :=
  if negb (v.2 =? 0) then 128 + (128 - leading_zeros v.2)
  else if negb (v.1 =? 0) then 128 - leading_zeros v.1
  else 0.

(** [x << n] on [u128] for [n < 128]: the bits that leave the word are dropped. *)
Definition shl128 (x n : Z) : Z := Z.shiftl x n mod 2 ^ 128.

Definition u256_shl (v : U256) (shift : Z) : U256 :=
  if shift =? 0 then v
  else if shift >=? 256 then (0, 0)
  else if shift >=? 128 then (0, shl128 v.1 (shift - 128))
  else (shl128 v.1 shift, Z.lor (shl128 v.2 shift) (Z.shiftr v.1 (128 - shift))).

Definition u256_gte (a b : U256) : bool :=
  match Z.compare a.2 b.2 with Gt => true | Lt => false | Eq => a.1 >=? b.1 end.

Definition u256_gt (a b : U256) : bool :=
  match Z.compare a.2 b.2 with Gt => true | Lt => false | Eq => a.1 >? b.1 end.

Definition u256_eq (a b : U256) : bool := (a.1 =? b.1) && (a.2 =? b.2).

Definition u256_sub (a b : U256) : U256 :=
  let borrow := if a.1 <? b.1 then 1 else 0 in
  (wrapping_sub 128 a.1 b.1, wrapping_sub 128 (wrapping_sub 128 a.2 b.2) borrow).

Definition u256_or (a b : U256) : U256 := (Z.lor a.1 b.1, Z.lor a.2 b.2).

(** ** The two conversions *)

(** [DIFF1_TARGET_BE] reversed. *)
Definition diff1_le : bytes := reverse DIFF1_TARGET_BE.

(** The loop of [target_to_difficulty_u64], for [shift] from [n - 1] down to 0. *)
Fixpoint div_loop_u64 (n : nat) (d remainder : U256) (quotient : Z) : Z :=
  match n with
  | O => quotient
  | S n =>
      let shift := Z.of_nat n in
      let shifted_d := u256_shl d shift in
      if u256_gte remainder shifted_d
      then div_loop_u64 n d (u256_sub remainder shifted_d)
             (Z.lor quotient (Z.shiftl 1 shift mod 2 ^ 64))
      else div_loop_u64 n d remainder quotient
  end.

Definition target_to_difficulty_u64 (maximum_target : bytes) : Z :=
  if forallb (fun b => byte_to_Z b =? 0) maximum_target then u64_max
  else
    let n := u256_from_le diff1_le in
    let d := u256_from_le maximum_target in
    if u256_gt d n then 0
    else if u256_eq d n then 1
    else
      let n_bits := u256_bits n in
      let d_bits := u256_bits d in
      if d_bits >? n_bits then 0
      else
        let max_shift := n_bits - d_bits in
        if max_shift >? 63 then u64_max
        else div_loop_u64 (Z.to_nat (max_shift + 1)) d n 0.

(** The loop of [difficulty_to_target], with a 256-bit quotient. *)
Fixpoint div_loop_u256 (n : nat) (d remainder quotient : U256) : U256 :=
  match n with
  | O => quotient
  | S n =>
      let shift := Z.of_nat n in
      let shifted_d := u256_shl d shift in
      if u256_gte remainder shifted_d
      then div_loop_u256 n d (u256_sub remainder shifted_d)
             (u256_or quotient (u256_shl (1, 0) shift))
      else div_loop_u256 n d remainder quotient
  end.

Definition difficulty_to_target (difficulty : Z) : bytes :=
  if difficulty =? 0 then replicate 32 xff
  else
    let n := u256_from_le diff1_le in
    let d := (difficulty, 0) in
    let n_bits := u256_bits n in
    let d_bits := u256_bits d in
    if d_bits >? n_bits then replicate 32 x00
    else
      let max_shift := n_bits - d_bits in
      let quotient := div_loop_u256 (Z.to_nat (max_shift + 1)) d n (0, 0) in
      le_bytes 16 quotient.1 ++ le_bytes 16 quotient.2.

(** * Properties *)

(** ** The value of a pair of words *)

Definition u256_wf (v : U256) : Prop := in_u 128 v.1 /\ in_u 128 v.2.
Definition u256_val (v : U256) : Z := v.1 + v.2 * 2 ^ 128.

(** [DIFF1] as an integer. *)
Definition DIFF1 : Z := 0xFFFF * 2 ^ 208.

Lemma u256_val_range v : u256_wf v -> in_u 256 (u256_val v).
Proof. intros [[? ?] [? ?]]. unfold in_u, u256_val. change (2 ^ 256) with (2 ^ 128 * 2 ^ 128). nia. Qed.

Lemma u256_from_le_wf b : length b = 32%nat -> u256_wf (u256_from_le b).
Proof.
  intros Hl. unfold u256_from_le, u256_wf, in_u. cbn [fst snd].
  pose proof (from_le_bytes_range (take 16 b)) as H1.
  pose proof (from_le_bytes_range (take 16 (drop 16 b))) as H2.
  rewrite length_take, Hl in H1. rewrite length_take, length_drop, Hl in H2.
  change (256 ^ Z.of_nat (16 `min` 32)) with (2 ^ 128) in H1.
  change (256 ^ Z.of_nat (16 `min` (32 - 16))) with (2 ^ 128) in H2. done.
Qed.

Lemma u256_from_le_val b : length b = 32%nat -> u256_val (u256_from_le b) = from_le_bytes b.
Proof.
  intros Hl. unfold u256_from_le, u256_val. cbn [fst snd].
  rewrite (take_ge (drop 16 b)) by (rewrite length_drop; lia).
  rewrite <-(take_drop 16 b) at 3. rewrite from_le_bytes_app, length_take, Hl.
  change (256 ^ Z.of_nat (16 `min` 32)) with (2 ^ 128). lia.
Qed.

Lemma diff1_val : u256_val (u256_from_le diff1_le) = DIFF1.
Proof. reflexivity. Qed.

Lemma diff1_wf : u256_wf (u256_from_le diff1_le).
Proof. apply u256_from_le_wf. reflexivity. Qed.

(** The words of a 256-bit value are determined by it. *)
Lemma u256_gte_val a b : u256_wf a -> u256_wf b -> u256_gte a b = (u256_val b <=? u256_val a).
Proof.
  intros [[? ?] [? ?]] [[? ?] [? ?]]. unfold u256_gte, u256_val.
  destruct (Z.compare_spec a.2 b.2); apply Bool.eq_iff_eq_true; rewrite ?Z.geb_le, Z.leb_le;
    split; intros; try done; nia.
Qed.

Lemma u256_gt_val a b : u256_wf a -> u256_wf b -> u256_gt a b = (u256_val b <? u256_val a).
Proof.
  intros [[? ?] [? ?]] [[? ?] [? ?]]. unfold u256_gt, u256_val.
  destruct (Z.compare_spec a.2 b.2); apply Bool.eq_iff_eq_true; rewrite ?Z.gtb_lt, Z.ltb_lt;
    split; intros; try done; nia.
Qed.

Lemma u256_eq_val a b : u256_wf a -> u256_wf b -> u256_eq a b = (u256_val a =? u256_val b).
Proof.
  intros [[? ?] [? ?]] [[? ?] [? ?]]. unfold u256_eq, u256_val.
  apply Bool.eq_iff_eq_true. rewrite andb_true_iff, !Z.eqb_eq. split; [intros [-> ->]; done|nia].
Qed.

Lemma u256_sub_val a b : u256_wf a -> u256_wf b -> u256_val b <= u256_val a ->
  u256_wf (u256_sub a b) /\ u256_val (u256_sub a b) = u256_val a - u256_val b.
Proof.
  intros [[? ?] [? ?]] [[? ?] [? ?]]. unfold u256_sub, u256_val, u256_wf, wrapping_sub, in_u in *.
  cbn [fst snd]. intros Hle. destruct (a.1 <? b.1) eqn:E; z_bool.
  - assert ((a.1 - b.1) mod 2 ^ 128 = a.1 - b.1 + 2 ^ 128) as ->
      by (symmetry; apply Z.mod_unique with (-1); lia).
    assert (b.2 < a.2) by nia. rewrite (Z.mod_small (a.2 - b.2)) by lia.
    rewrite Z.mod_small by lia. split; lia.
  - rewrite (Z.mod_small (a.1 - b.1)) by lia. assert (b.2 <= a.2) by nia.
    rewrite (Z.mod_small (a.2 - b.2)) by lia. rewrite Z.mod_small by lia. split; lia.
Qed.

Lemma in_u_lor w a b : 0 <= w -> in_u w a -> in_u w b -> in_u w (Z.lor a b).
Proof.
  unfold in_u. intros Hw Ha Hb. split; [apply Z.lor_nonneg; lia|].
  destruct (Z.eq_dec (Z.lor a b) 0) as [->|Hne]; [lia|].
  assert (0 <= Z.lor a b) by (apply Z.lor_nonneg; lia).
  apply Z.log2_lt_pow2; [lia|]. rewrite Z.log2_lor by lia.
  assert (forall x, 0 <= x < 2 ^ w -> Z.lor a b <> 0 -> x = 0 \/ Z.log2 x < w) as Hlog.
  { intros x Hx _. destruct (Z.eq_dec x 0); [by left|right]. apply Z.log2_lt_pow2; lia. }
  destruct (Hlog a Ha Hne) as [->|?], (Hlog b Hb Hne) as [->|?]; rewrite ?Z.lor_0_r in *;
    try done; cbn [Z.log2] in *; try lia.
  - pose proof (Z.log2_nonneg b). lia.
  - pose proof (Z.log2_nonneg a). lia.
Qed.

Lemma u256_or_val a b : u256_wf a -> u256_wf b ->
  u256_wf (u256_or a b) /\ u256_val (u256_or a b) = Z.lor (u256_val a) (u256_val b).
Proof.
  intros [Ha1 Ha2] [Hb1 Hb2].
  assert (in_u 128 (Z.lor a.1 b.1)) as H1 by (apply in_u_lor; [lia|done..]).
  assert (in_u 128 (Z.lor a.2 b.2)) as H2 by (apply in_u_lor; [lia|done..]).
  split; [done|]. unfold u256_or, u256_val. cbn [fst snd].
  rewrite <-!lor_shiftl_add by (lia || done). rewrite Z.shiftl_lor.
  rewrite !Z.lor_assoc. f_equal. rewrite <-!Z.lor_assoc. f_equal. apply Z.lor_comm.
Qed.

Lemma u256_bits_val v : u256_wf v -> 0 < u256_val v -> u256_bits v = Z.log2 (u256_val v) + 1.
Proof.
  intros [[? ?] [? ?]] Hpos. unfold u256_bits, u256_val, leading_zeros in *.
  destruct (v.2 =? 0) eqn:E2; cbn [negb]; z_bool.
  - rewrite E2, Z.mul_0_l, Z.add_0_r in *.
    rewrite (proj2 (Z.eqb_neq v.1 0)) by lia. cbn [negb]. lia.
  - pose proof (Z.log2_spec v.2 ltac:(lia)) as [Hl Hh].
    assert (Z.log2 (v.1 + v.2 * 2 ^ 128) = Z.log2 v.2 + 128) as ->; [|lia].
    pose proof (Z.log2_nonneg v.2).
    apply Z.log2_unique; [lia|]. rewrite Z.pow_succ_r in Hh by lia.
    replace (Z.succ (Z.log2 v.2 + 128)) with (Z.succ (Z.log2 v.2) + 128) by lia.
    rewrite !Z.pow_add_r, Z.pow_succ_r by lia. nia.
Qed.

(** A shift that does not push set bits out of the word pair is multiplication. *)
Lemma u256_shl_val v s : u256_wf v -> 0 <= s < 256 -> u256_val v * 2 ^ s < 2 ^ 256 ->
  u256_wf (u256_shl v s) /\ u256_val (u256_shl v s) = u256_val v * 2 ^ s.
Proof.
  intros [[? ?] [? ?]] Hs Hfit. unfold u256_shl.
  destruct (s =? 0) eqn:E0; z_bool; [subst; rewrite Z.mul_1_r; by repeat split|].
  rewrite Z.geb_leb, (proj2 (Z.leb_gt 256 s)) by lia.
  pose proof (Z.pow_pos_nonneg 2 s ltac:(lia) ltac:(lia)) as Hps.
  destruct (s >=? 128) eqn:E1; z_bool; unfold u256_val, shl128, u256_wf, in_u in *; cbn [fst snd];
    rewrite !Z.shiftl_mul_pow2 by lia.
  - assert (2 ^ s = 2 ^ (s - 128) * 2 ^ 128) as Hs2 by (rewrite <-Z.pow_add_r by lia; f_equal; lia).
    pose proof (Z.pow_pos_nonneg 2 (s - 128) ltac:(lia) ltac:(lia)).
    change (2 ^ 256) with (2 ^ 128 * 2 ^ 128) in Hfit.
    assert (v.2 = 0) as Hz by nia. rewrite Hz in *.
    assert (v.1 * 2 ^ (s - 128) < 2 ^ 128) by nia.
    rewrite Z.mod_small by nia. split; [split; nia|]. rewrite Hs2. lia.
  - assert (2 ^ 128 = 2 ^ s * 2 ^ (128 - s)) as Hsp by (rewrite <-Z.pow_add_r by lia; f_equal; lia).
    pose proof (Z.pow_pos_nonneg 2 (128 - s) ltac:(lia) ltac:(lia)) as Hpt.
    rewrite Z.shiftr_div_pow2 by lia.
    set (top := v.1 / 2 ^ (128 - s)).
    assert (0 <= top < 2 ^ s) as Htop.
    { split; [apply Z.div_pos; lia|]. apply Z.div_lt_upper_bound; lia. }
    change (2 ^ 256) with (2 ^ 128 * 2 ^ 128) in Hfit.
    assert (v.2 * 2 ^ s < 2 ^ 128) by nia.
    rewrite (Z.mod_small (v.2 * 2 ^ s)) by nia.
    rewrite Z.lor_comm, <-(Z.shiftl_mul_pow2 v.2 s), lor_shiftl_add by lia.
    assert ((v.1 * 2 ^ s) mod 2 ^ 128 = v.1 * 2 ^ s - top * 2 ^ 128) as Hlo.
    { unfold top. rewrite Hsp at 1. rewrite (Z.mul_comm v.1), Z.mul_mod_distr_l by lia.
      rewrite Z.mod_eq by lia. rewrite Hsp. lia. }
    rewrite Hlo. pose proof (Z.mod_pos_bound (v.1 * 2 ^ s) (2 ^ 128) ltac:(lia)) as Hm.
    rewrite Hlo in Hm. split; [split; [lia|]|lia].
    assert (v.2 + 1 <= 2 ^ (128 - s)) by nia. nia.
Qed.

(** ** The loops are integer division *)

(** One step of shift-and-subtract, on integers. *)
Lemma shift_subtract_step r d p : 0 < d -> 0 <= p -> d * p <= r -> (r - d * p) / d = r / d - p.
Proof. intros. replace (r - d * p) with (r + (- p) * d) by lia. rewrite Z.div_add by lia. lia. Qed.

(** Or-ing in the bit below a multiple of the next power of two. *)
Lemma lor_next_bit k n : 0 <= n -> Z.lor (k * 2 ^ (n + 1)) (2 ^ n) = k * 2 ^ (n + 1) + 2 ^ n.
Proof.
  intros Hn. pose proof (Z.pow_pos_nonneg 2 n ltac:(lia) Hn).
  assert (0 <= 2 ^ n < 2 ^ (n + 1)) by (rewrite Z.pow_add_r by lia; lia).
  rewrite Z.lor_comm, <-Z.shiftl_mul_pow2, lor_shiftl_add, Z.shiftl_mul_pow2 by lia. lia.
Qed.

Section Loop.
Context (d : U256) (Hd : u256_wf d) (Hpos : 0 < u256_val d).

(** The bound that keeps the shifted divisor in 256 bits. *)
Definition fits (n : nat) : Prop := u256_val d * 2 ^ (Z.of_nat n) < 2 ^ 257.

Lemma fits_shl n : fits (S n) -> (n < 256)%nat ->
  u256_wf (u256_shl d (Z.of_nat n)) /\
  u256_val (u256_shl d (Z.of_nat n)) = u256_val d * 2 ^ Z.of_nat n.
Proof.
  unfold fits. rewrite Nat2Z.inj_succ, Z.pow_succ_r by lia. intros Hf Hn.
  apply u256_shl_val; [done|lia|]. change (2 ^ 257) with (2 * 2 ^ 256) in Hf. lia.
Qed.

Lemma fits_pred n : fits (S n) -> fits n.
Proof.
  unfold fits. rewrite Nat2Z.inj_succ, Z.pow_succ_r by lia.
  pose proof (Z.pow_pos_nonneg 2 (Z.of_nat n)). nia.
Qed.

Lemma div_loop_u64_spec n : forall r k,
  (n <= 64)%nat -> fits n -> u256_wf r -> u256_val r < u256_val d * 2 ^ Z.of_nat n ->
  div_loop_u64 n d r (k * 2 ^ Z.of_nat n) = k * 2 ^ Z.of_nat n + u256_val r / u256_val d.
Proof.
  induction n as [|n IH]; intros r k Hn Hf Hr Hlt; cbn [div_loop_u64].
  { pose proof (u256_val_range r Hr) as [? _]. rewrite Z.div_small by (cbn in Hlt; lia). lia. }
  destruct (fits_shl n Hf ltac:(lia)) as [Hw Hv].
  rewrite u256_gte_val by done. rewrite Hv.
  pose proof (Z.pow_pos_nonneg 2 (Z.of_nat n) ltac:(lia) ltac:(lia)).
  assert (2 ^ Z.of_nat (S n) = 2 * 2 ^ Z.of_nat n) as Hp
    by (rewrite Nat2Z.inj_succ, Z.pow_succ_r by lia; done).
  destruct (_ <=? _) eqn:E; z_bool.
  - destruct (u256_sub_val r (u256_shl d (Z.of_nat n)) Hr Hw ltac:(lia)) as [Hsw Hsv].
    rewrite Z.shiftl_mul_pow2, Z.mul_1_l by lia.
    rewrite (Z.mod_small (2 ^ Z.of_nat n)) by (split; [lia|apply Z.pow_lt_mono_r; lia]).
    replace (Z.lor (k * 2 ^ Z.of_nat (S n)) (2 ^ Z.of_nat n))
      with ((2 * k + 1) * 2 ^ Z.of_nat n).
    + rewrite IH; [|lia|by apply fits_pred|done|rewrite Hsv, Hv; nia].
      rewrite Hsv, Hv, shift_subtract_step by lia. lia.
    + replace (Z.of_nat (S n)) with (Z.of_nat n + 1) by lia. rewrite lor_next_bit by lia.
      rewrite Z.pow_add_r by lia. lia.
  - replace (k * 2 ^ Z.of_nat (S n)) with (2 * k * 2 ^ Z.of_nat n) by lia.
    apply IH; [lia|by apply fits_pred|done|lia].
Qed.

Lemma div_loop_u256_spec n : forall r q k,
  (n <= 256)%nat -> fits n -> u256_wf r -> u256_val r < u256_val d * 2 ^ Z.of_nat n ->
  u256_wf q -> u256_val q = k * 2 ^ Z.of_nat n ->
  u256_wf (div_loop_u256 n d r q) /\
  u256_val (div_loop_u256 n d r q) = k * 2 ^ Z.of_nat n + u256_val r / u256_val d.
Proof.
  induction n as [|n IH]; intros r q k Hn Hf Hr Hlt Hq Hk; cbn [div_loop_u256].
  { pose proof (u256_val_range r Hr) as [? _]. rewrite Z.div_small by (cbn in Hlt; lia).
    split; [done|lia]. }
  destruct (fits_shl n Hf ltac:(lia)) as [Hw Hv].
  rewrite u256_gte_val by done. rewrite Hv.
  pose proof (Z.pow_pos_nonneg 2 (Z.of_nat n) ltac:(lia) ltac:(lia)).
  assert (2 ^ Z.of_nat (S n) = 2 * 2 ^ Z.of_nat n) as Hp
    by (rewrite Nat2Z.inj_succ, Z.pow_succ_r by lia; done).
  destruct (_ <=? _) eqn:E; z_bool.
  - destruct (u256_sub_val r (u256_shl d (Z.of_nat n)) Hr Hw ltac:(lia)) as [Hsw Hsv].
    assert (u256_wf (1, 0)) as H1 by (split; unfold in_u; cbn; lia).
    destruct (u256_shl_val (1, 0) (Z.of_nat n) H1 ltac:(lia)) as [Hbw Hbv].
    { change (u256_val (1, 0)) with 1. rewrite Z.mul_1_l. apply Z.pow_lt_mono_r; lia. }
    destruct (u256_or_val q (u256_shl (1, 0) (Z.of_nat n)) Hq Hbw) as [How Hov].
    destruct (IH (u256_sub r (u256_shl d (Z.of_nat n))) (u256_or q (u256_shl (1, 0) (Z.of_nat n)))
                (2 * k + 1)) as [IHw IHv]; [lia|by apply fits_pred|done|rewrite Hsv, Hv; nia|done| |].
    + rewrite Hov, Hbv, Hk. change (u256_val (1, 0)) with 1. rewrite Z.mul_1_l.
      replace (Z.of_nat (S n)) with (Z.of_nat n + 1) by lia. rewrite lor_next_bit by lia.
      rewrite Z.pow_add_r by lia. lia.
    + split; [done|]. rewrite IHv, Hsv, Hv, shift_subtract_step by lia. lia.
  - destruct (IH r q (2 * k)) as [IHw IHv]; [lia|by apply fits_pred|done|lia|done|lia|].
    split; [done|]. rewrite IHv. lia.
Qed.
End Loop.

(** ** The conversions *)

Lemma DIFF1_log2 : Z.log2 DIFF1 = 223.
Proof. reflexivity. Qed.

Lemma all_zero_value b : forallb (fun x => byte_to_Z x =? 0) b = (from_le_bytes b =? 0).
Proof.
  induction b as [|x b IH]; [done|]. cbn [forallb from_le_bytes]. rewrite IH.
  pose proof (byte_to_Z_range x). pose proof (from_le_bytes_range b).
  apply Bool.eq_iff_eq_true. rewrite andb_true_iff, !Z.eqb_eq. lia.
Qed.

Lemma log2_lt_2pow d : 0 < d -> 2 ^ Z.log2 d <= d < 2 ^ (Z.log2 d + 1).
Proof. intros. rewrite Z.add_1_r. apply Z.log2_spec. done. Qed.

(** What the code computes, on every target. *)
Lemma target_to_difficulty_eq t : length t = 32%nat ->
  target_to_difficulty_u64 t =
    let d := from_le_bytes t in
    if d =? 0 then u64_max else if Z.log2 d <? 160 then u64_max else DIFF1 / d.
Proof.
  intros Hl. unfold target_to_difficulty_u64. rewrite all_zero_value. cbv zeta.
  destruct (from_le_bytes t =? 0) eqn:E0; z_bool; [done|].
  pose proof (from_le_bytes_range t) as Hrange. rewrite Hl in Hrange.
  pose proof (u256_from_le_wf t Hl) as Hw. pose proof (u256_from_le_val t Hl) as Hv.
  set (d := u256_from_le t) in *. set (dv := from_le_bytes t) in *. clearbody d dv.
  pose proof diff1_wf as Hnw. pose proof diff1_val as Hnv.
  set (n := u256_from_le diff1_le) in *. clearbody n.
  assert (0 < u256_val n) by (by rewrite Hnv).
  rewrite u256_gt_val, u256_eq_val, !u256_bits_val by (done || lia).
  rewrite Hv, Hnv, DIFF1_log2.
  pose proof (log2_lt_2pow dv ltac:(lia)) as Hlog.
  destruct (DIFF1 <? dv) eqn:E1; z_bool.
  { assert (223 <= Z.log2 dv) by (rewrite <-DIFF1_log2; apply Z.log2_le_mono; lia).
    rewrite (proj2 (Z.ltb_ge _ _)) by lia. rewrite Z.div_small; [done|lia]. }
  assert (Z.log2 dv <= 223) by (rewrite <-DIFF1_log2; apply Z.log2_le_mono; lia).
  destruct (dv =? DIFF1) eqn:E2; z_bool.
  { rewrite E2, DIFF1_log2. rewrite Z.div_same by (unfold DIFF1; lia). done. }
  rewrite Z.gtb_ltb, (proj2 (Z.ltb_ge _ _)) by lia.
  destruct (Z.log2 dv <? 160) eqn:E3; z_bool.
  { rewrite Z.gtb_ltb, (proj2 (Z.ltb_lt _ _)) by lia. done. }
  rewrite Z.gtb_ltb, (proj2 (Z.ltb_ge _ _)) by lia.
  set (k := Z.to_nat (223 + 1 - (Z.log2 dv + 1) + 1)).
  assert (Z.of_nat k = 224 - Z.log2 dv) as Hk by (unfold k; lia).
  assert (2 ^ (Z.log2 dv) * 2 ^ Z.of_nat k = 2 ^ 224) as Hp
    by (rewrite Hk, <-Z.pow_add_r by lia; f_equal; lia).
  pose proof (Z.pow_pos_nonneg 2 (Z.of_nat k) ltac:(lia) ltac:(lia)).
  rewrite Z.pow_add_r in Hlog by lia.
  rewrite <-Hv, <-Hnv. rewrite <-(Z.mul_0_l (2 ^ Z.of_nat k)).
  rewrite (div_loop_u64_spec d Hw ltac:(lia) k n 0).
  - lia.
  - lia.
  - unfold fits. rewrite Hv. change (2 ^ 257) with (2 ^ 33 * 2 ^ 224). nia.
  - done.
  - rewrite Hnv, Hv. assert (DIFF1 < 2 ^ 224) by (unfold DIFF1; lia). nia.
Qed.

(** (share difficulty): the difficulty of a target is the floor of [DIFF1 / target] capped at
    [u64::MAX], for every non-zero target except those of exactly 160 bits, for which the code
    answers [u64::MAX] whatever the quotient is. *)
Theorem target_to_difficulty_exact t :
  length t = 32%nat ->
  let d := from_le_bytes t in
  (d = 0 -> target_to_difficulty_u64 t = u64_max) /\
  (0 < d -> Z.log2 d <> 159 -> target_to_difficulty_u64 t = Z.min (DIFF1 / d) u64_max) /\
  (0 < d -> Z.log2 d = 159 -> target_to_difficulty_u64 t = u64_max).
Proof.
  intros Hl. cbv zeta. rewrite target_to_difficulty_eq by done. cbv zeta.
  set (d := from_le_bytes t). split_and!.
  - by intros ->.
  - intros Hd H159. rewrite (proj2 (Z.eqb_neq d 0)) by lia.
    pose proof (log2_lt_2pow d Hd) as Hlog.
    destruct (Z.log2 d <? 160) eqn:E; z_bool.
    + assert (2 ^ (Z.log2 d + 1) <= 2 ^ 159) by (apply Z.pow_le_mono_r; lia).
      assert (u64_max <= DIFF1 / d); [|lia].
      apply Z.div_le_lower_bound; [lia|]. unfold u64_max, DIFF1. lia.
    + assert (2 ^ 160 <= 2 ^ Z.log2 d) by (apply Z.pow_le_mono_r; lia).
      assert (DIFF1 / d < 2 ^ 64); [|unfold u64_max; lia].
      apply Z.div_lt_upper_bound; [lia|]. unfold DIFF1. lia.
  - intros Hd Hlog. rewrite (proj2 (Z.eqb_neq d 0)), Hlog by lia. done.
Qed.

(** A 160-bit target whose difficulty fits [u64] and is nevertheless reported as the maximum. *)
Example target_160_bits_saturates :
  let t := replicate 20 xff ++ replicate 12 x00 in
  from_le_bytes t = 2 ^ 160 - 1 /\ DIFF1 / from_le_bytes t = 0xFFFF000000000000 /\
  target_to_difficulty_u64 t = u64_max.
Proof. vm_compute. done. Qed.

Lemma difficulty_to_target_eq x : 1 <= x <= u64_max ->
  length (difficulty_to_target x) = 32%nat /\
  from_le_bytes (difficulty_to_target x) = DIFF1 / x.
Proof.
  intros Hx. unfold difficulty_to_target. rewrite (proj2 (Z.eqb_neq x 0)) by lia.
  assert (u256_wf (x, 0)) as Hw by (split; unfold in_u, u64_max in *; cbn; lia).
  assert (u256_val (x, 0) = x) as Hv by (unfold u256_val; cbn; lia).
  pose proof diff1_wf as Hnw. pose proof diff1_val as Hnv.
  set (n := u256_from_le diff1_le) in *. clearbody n.
  assert (0 < u256_val n) by (by rewrite Hnv).
  rewrite !u256_bits_val, Hv, Hnv, DIFF1_log2 by (done || lia).
  pose proof (log2_lt_2pow x ltac:(lia)) as Hlog. pose proof (Z.log2_nonneg x).
  assert (Z.log2 x <= 63) by (apply (Z.log2_le_mono x u64_max); lia).
  rewrite Z.gtb_ltb, (proj2 (Z.ltb_ge _ _)) by lia.
  set (k := Z.to_nat (223 + 1 - (Z.log2 x + 1) + 1)).
  assert (Z.of_nat k = 224 - Z.log2 x) as Hk by (unfold k; lia).
  assert (2 ^ (Z.log2 x) * 2 ^ Z.of_nat k = 2 ^ 224) as Hp
    by (rewrite Hk, <-Z.pow_add_r by lia; f_equal; lia).
  pose proof (Z.pow_pos_nonneg 2 (Z.of_nat k) ltac:(lia) ltac:(lia)).
  rewrite Z.pow_add_r in Hlog by lia.
  destruct (div_loop_u256_spec (x, 0) Hw ltac:(lia) k n (0, 0) 0) as [[Hq1 Hq2] Hqv].
  - lia.
  - unfold fits. rewrite Hv. change (2 ^ 257) with (2 ^ 33 * 2 ^ 224). nia.
  - done.
  - rewrite Hnv, Hv. assert (DIFF1 < 2 ^ 224) by (unfold DIFF1; lia). nia.
  - split; unfold in_u; cbn; lia.
  - done.
  - set (q := div_loop_u256 k (x, 0) n (0, 0)) in *. clearbody q. cbv zeta.
    split; [by rewrite length_app, !length_le_bytes|].
    rewrite from_le_bytes_app, length_le_bytes, !from_to_le_bytes.
    change (256 ^ Z.of_nat 16) with (2 ^ 128). unfold in_u in *.
    rewrite !Z.mod_small by lia. rewrite Hnv, Hv in Hqv. unfold u256_val in Hqv. lia.
Qed.

(** (target of a difficulty): for every non-zero difficulty the 32 bytes returned are the
    little-endian encoding of the exact quotient [DIFF1 / difficulty]. *)
Theorem difficulty_to_target_exact x :
  1 <= x <= u64_max ->
  length (difficulty_to_target x) = 32%nat /\
  from_le_bytes (difficulty_to_target x) = DIFF1 / x.
Proof. apply difficulty_to_target_eq. Qed.

(** (difficulty round trip): a difficulty survives the conversion to a target and back, for
    every difficulty up to [0xFFFF000000000000]; above it the share is credited with
    [u64::MAX]. *)
Theorem difficulty_round_trip x :
  1 <= x <= u64_max ->
  target_to_difficulty_u64 (difficulty_to_target x) = if x <=? 0xFFFF000000000000 then x else u64_max.
Proof.
  intros Hx. destruct (difficulty_to_target_eq x Hx) as [Hl Hv].
  rewrite target_to_difficulty_eq, Hv by done. cbv zeta. set (q := DIFF1 / x).
  pose proof (Z.div_mod DIFF1 x ltac:(lia)) as Hdm. fold q in Hdm.
  pose proof (Z.mod_pos_bound DIFF1 x ltac:(lia)) as Hm.
  assert (2 ^ 159 <= q).
  { apply Z.div_le_lower_bound; [lia|]. unfold DIFF1, u64_max in *. lia. }
  rewrite (proj2 (Z.eqb_neq q 0)) by lia. destruct (x <=? _) eqn:E; z_bool.
  - assert (2 ^ 160 <= q) as Hq.
    { apply Z.div_le_lower_bound; [lia|]. unfold DIFF1. lia. }
    rewrite (proj2 (Z.ltb_ge _ _)).
    + symmetry. apply Z.div_unique with (DIFF1 mod x); [|lia].
      unfold u64_max in *. lia.
    + change 160 with (Z.log2 (2 ^ 160)). apply Z.log2_le_mono. done.
  - assert (q < 2 ^ 160).
    { apply Z.div_lt_upper_bound; [lia|]. unfold DIFF1. lia. }
    rewrite (proj2 (Z.ltb_lt _ _)); [done|]. apply Z.log2_lt_pow2; lia.
Qed.

Lemma target_to_difficulty_witness :
  target_to_difficulty_u64 (replicate 27 x00 ++ [x01] ++ replicate 4 x00)
  = Z.min (DIFF1 / 2 ^ 216) u64_max.
Proof.
  apply (target_to_difficulty_exact (replicate 27 x00 ++ [x01] ++ replicate 4 x00));
    [reflexivity|vm_compute; reflexivity|vm_compute; discriminate].
Defined.

Lemma difficulty_to_target_witness :
  from_le_bytes (difficulty_to_target 1000) = DIFF1 / 1000.
Proof. apply difficulty_to_target_exact. unfold u64_max. lia. Defined.

Lemma difficulty_round_trip_witness :
  target_to_difficulty_u64 (difficulty_to_target 123456789) = 123456789.
Proof. apply (difficulty_round_trip 123456789). unfold u64_max. lia. Defined.
