(* ===== verification/Jobs.v ===== *)
(** * Jobs of the gateway

    Models [services/sv2-gateway/src/jobs.rs]: the id allocator with its atomic steps, job
    records, the merkle root of a job, the job table and the template dedup cache. An [Instant]
    is an integer number of nanoseconds; the clock is an argument. A [BTreeMap] is a list sorted
    by key, a [HashSet] a [gset]. *)

From Stdlib Require Import Sorting.Sorted.
From S2P Require Import Prelude Crates.

(** ** The id allocator *)

(** Shared by [JobIdAllocator], [ChannelIdAllocator] and [ExtranonceAllocator], whose [allocate]
    differ only in what they do with the number. *)
Module IdAllocator.
Record t : Type := mk { next : Z; exhausted : bool }.

Definition new : t := mk 1 false.

(** [allocate] run without interruption: the number taken from the counter, if any. *)
Definition allocate (a : t) : option Z * t :=
  if exhausted a then (None, a)
  else
    let id := next a in
    let next' := wrapping_add 32 id 1 in
    if id =? u32_max then (None, mk next' true) else (Some id, mk next' false).

(** [n] uninterrupted calls. *)
Fixpoint allocate_n (n : nat) (a : t) : list (option Z) * t :=
  match n with
  | O => ([], a)
  | S n =>
      let '(x, a) := allocate a in
      let '(xs, a) := allocate_n n a in
      (x :: xs, a)
  end.
End IdAllocator.

(** [allocate] as its three atomic operations, for any number of threads. [loading] threads have
    read [exhausted = false]; [storing] threads have drawn [u32::MAX] and not yet stored the
    flag; [issued] are the numbers handed out, newest first. *)
Module AllocRace.
Record state : Type := mk {
  next : Z; exhausted : bool; loading : nat; storing : nat; issued : list Z }.

Definition init : state := mk 1 false 0 0 [].

Inductive step : state -> state -> Prop :=
| step_load n l s i :
    step (mk n false l s i) (mk n false (S l) s i)
| step_load_none n l s i :
    step (mk n true l s i) (mk n true l s i)
| step_take n e l s i :
    n <> u32_max -> step (mk n e (S l) s i) (mk (wrapping_add 32 n 1) e l s (n :: i))
| step_take_last e l s i :
    step (mk u32_max e (S l) s i) (mk (wrapping_add 32 u32_max 1) e l (S s) i)
| step_store n e l s i :
    step (mk n e l (S s) i) (mk n true l s i).
End AllocRace.

(** ** Job records *)

Module JobRecord.
Record t : Type := mk {
  job_id : Z;
  template_id : Z;
  block_height : Z;
  version : Z;
  prev_hash : bytes;
  nbits : Z;
  coinbase_tx_prefix : bytes;
  coinbase_tx_suffix : bytes;
  merkle_path : list bytes;
  activation_min_ntime : Z;
  raw_min_ntime : Z;
  raw_curtime : Z;
  source_instance_id : string;
  activated : bool;
  created_at : Z
}.
End JobRecord.

Section Hashing.
Context `{Sha256Crate}.

Definition sha256d (data : bytes) : bytes := sha256 (sha256 data).

Definition compute_merkle_root (coinbase_tx_prefix extranonce_prefix coinbase_tx_suffix : bytes)
    (merkle_path : list bytes) : bytes :=
  let coinbase := coinbase_tx_prefix ++ extranonce_prefix ++ coinbase_tx_suffix in
  foldl (fun current sibling => sha256d (current ++ sibling)) (sha256d coinbase) merkle_path.

(** [JobRecord::compute_merkle_root]. *)
Definition job_merkle_root (j : JobRecord.t) (extranonce_prefix : bytes) : bytes :=
  compute_merkle_root (JobRecord.coinbase_tx_prefix j) extranonce_prefix
    (JobRecord.coinbase_tx_suffix j) (JobRecord.merkle_path j).
End Hashing.

Definition effective_min_ntime (template_min_ntime template_curtime gateway_now skew_allowance : Z)
    : Z :=
  let unclamped := Z.max template_min_ntime template_curtime in
  let ceiling := saturating_add 32 gateway_now skew_allowance in
  Z.min unclamped ceiling.

(** ** [BTreeMap<u32, V>] *)

Module BTreeMap.
Section Map.
Context {V : Type}.

Fixpoint insert (k : Z) (v : V) (m : list (Z * V)) : list (Z * V) :=
  match m with
  | [] => [(k, v)]
  | (k', v') :: m' =>
      if k <? k' then (k, v) :: m
      else if k =? k' then (k, v) :: m'
      else (k', v') :: insert k v m'
  end.

Fixpoint get (k : Z) (m : list (Z * V)) : option V :=
  match m with
  | [] => None
  | (k', v) :: m => if k =? k' then Some v else get k m
  end.

Definition remove (k : Z) (m : list (Z * V)) : list (Z * V) :=
  filter (fun p => p.1 <> k) m.
End Map.
End BTreeMap.

(** ** The job table *)

Module JobTable.
Record t : Type := mk {
  jobs : list (Z * JobRecord.t);
  retention_ms : Z;
  max_entries : Z
}.

Definition new (retention_ms max_entries : Z) : t := mk [] retention_ms max_entries.

(** [duration_since] saturates at zero. *)
Definition is_fresh (now retention_ms : Z) (j : JobRecord.t) : bool :=
  saturating_sub now (JobRecord.created_at j) <? retention_ms * 1000000.

Definition evict_stale (now : Z) (t : t) : JobTable.t :=
  mk (filter (fun p => is_fresh now (retention_ms t) p.2 = true) (jobs t)) (retention_ms t)
    (max_entries t).

Definition insert (now : Z) (t : t) (job : JobRecord.t) : JobTable.t :=
  let t := evict_stale now t in
  let kept :=
    if lenZ (jobs t) >=? max_entries t then
      match jobs t with
      | (oldest_id, _) :: _ => BTreeMap.remove oldest_id (jobs t)
      | [] => jobs t
      end
    else jobs t in
  mk (BTreeMap.insert (JobRecord.job_id job) job kept) (retention_ms t) (max_entries t).

Definition get (t : t) (job_id : Z) : option JobRecord.t := BTreeMap.get job_id (jobs t).

Definition latest (t : t) : option JobRecord.t := snd <$> last (jobs t).

Definition latest_for_prevhash (t : t) (prev_hash : bytes) : option JobRecord.t :=
  head (filter (fun j => JobRecord.prev_hash j = prev_hash) (reverse (snd <$> jobs t))).
End JobTable.

(** ** The template dedup cache *)

Module TemplateDedupCache.
Record t : Type := mk {
  seen : gset (string * Z);
  max_entries : Z;
  current_source : option string
}.

Definition new (max_entries : Z) : t := mk ∅ max_entries None.

Definition is_duplicate (c : t) (source_instance_id : string) (template_id : Z) : bool * t :=
  let c := if decide (current_source c = Some source_instance_id) then c
           else mk ∅ (max_entries c) (Some source_instance_id) in
  let key := (source_instance_id, template_id) in
  if decide (key ∈ seen c) then (true, c)
  else
    let seen' := if Z.of_nat (size (seen c)) >=? max_entries c then ∅ else seen c in
    (false, mk ({[key]} ∪ seen') (max_entries c) (current_source c)).

Definition remove (c : t) (source_instance_id : string) (template_id : Z) : t :=
  mk (seen c ∖ {[(source_instance_id, template_id)]}) (max_entries c) (current_source c).
End TemplateDedupCache.

(** * Properties *)

(** ** Allocation *)

Lemma allocate_exhausted n a : IdAllocator.exhausted a = true ->
  (IdAllocator.allocate_n n a).1 = replicate n None.
Proof.
  revert a. induction n as [|n IH]; intros a Ha; [done|]. cbn [IdAllocator.allocate_n].
  unfold IdAllocator.allocate. rewrite Ha.
  specialize (IH a Ha). destruct (IdAllocator.allocate_n n a) as [xs a']. cbn in *. by rewrite IH.
Qed.

Definition number_or_none (i : Z) : option Z := if i <? u32_max then Some i else None.

Lemma allocate_from n : forall k, 1 <= k <= u32_max ->
  (IdAllocator.allocate_n n (IdAllocator.mk k false)).1
  = number_or_none <$> (Z.add k ∘ Z.of_nat <$> seq 0 n).
Proof.
  induction n as [|n IH]; intros k Hk; [done|]. cbn [IdAllocator.allocate_n].
  unfold IdAllocator.allocate. cbn [IdAllocator.exhausted IdAllocator.next].
  destruct (k =? u32_max) eqn:E; z_bool.
  - pose proof (allocate_exhausted n (IdAllocator.mk (wrapping_add 32 k 1) true) eq_refl) as Hn.
    destruct (IdAllocator.allocate_n n _) as [xs a']. cbn in Hn. cbn [fst]. rewrite Hn.
    clear Hn IH. subst k. cbn [seq fmap list_fmap]. f_equal.
    change (replicate n None) with (replicate n (@None Z)).
    apply list_eq. intros i. rewrite <-fmap_S_seq, !list_lookup_fmap.
    destruct (decide (i < n)%nat).
    + rewrite lookup_replicate_2, lookup_seq_lt by done. cbn. unfold number_or_none.
      by rewrite (proj2 (Z.ltb_ge _ _)) by lia.
    + rewrite lookup_seq_ge by lia. apply lookup_ge_None_2. rewrite length_replicate. lia.
  - assert (wrapping_add 32 k 1 = k + 1) as ->
      by (unfold wrapping_add, u32_max in *; rewrite Z.mod_small; lia).
    specialize (IH (k + 1) ltac:(lia)).
    destruct (IdAllocator.allocate_n n _) as [xs a']. cbn in IH. cbn [fst]. rewrite IH.
    cbn [seq fmap list_fmap]. f_equal.
    + cbn. unfold number_or_none. rewrite Z.add_0_r. by rewrite (proj2 (Z.ltb_lt _ _)) by lia.
    + rewrite <-fmap_S_seq, <-!list_fmap_compose. apply list_fmap_ext. intros i x _. cbn.
      f_equal. lia.
Qed.

(** (allocator): however often [allocate] is called, the [i]-th call returns the number [i]
    while [i < u32::MAX] and [None] from then on: no number is repeated, zero is never issued and
    an exhausted allocator stays exhausted. *)
Theorem allocate_n_spec n :
  (IdAllocator.allocate_n n IdAllocator.new).1
  = number_or_none <$> (Z.add 1 ∘ Z.of_nat <$> seq 0 n).
Proof. apply allocate_from. unfold u32_max. lia. Qed.

(** The numbers below [n], newest first. *)
Fixpoint down_from (n : nat) : list Z :=
  match n with O => [] | S n => Z.of_nat (S n) :: down_from n end.

Lemma down_from_range n : Forall (fun z => 1 <= z <= Z.of_nat n) (down_from n).
Proof.
  induction n as [|n IH]; cbn [down_from]; constructor; [lia|].
  eapply Forall_impl; [exact IH|]. cbn. lia.
Qed.

Lemma down_from_NoDup n : NoDup (down_from n).
Proof.
  induction n as [|n IH]; cbn [down_from]; [constructor|]. constructor; [|done].
  intros Hin. pose proof (proj1 (Forall_forall _ _) (down_from_range n) _ Hin). cbn in *. lia.
Qed.

(** Before the counter has wrapped, the numbers issued are exactly those below it. *)
Definition not_wrapped (s : AllocRace.state) : Prop :=
  exists n : nat, AllocRace.next s = Z.of_nat n + 1 /\ Z.of_nat n < u32_max /\
    AllocRace.issued s = down_from n.

Definition race_inv (s : AllocRace.state) : Prop :=
  AllocRace.exhausted s = false -> AllocRace.storing s = O -> not_wrapped s.

Lemma race_inv_step s s' : race_inv s -> AllocRace.step s s' -> race_inv s'.
Proof.
  unfold race_inv, not_wrapped. intros Hi Hs.
  destruct Hs as [n l st i|n l st i|n e l st i Hn|e l st i|n e l st i]; cbn in *; try done.
  intros -> ->. destruct (Hi eq_refl eq_refl) as (k & -> & Hk & ->). exists (S k).
  cbn [down_from]. rewrite Nat2Z.inj_succ. unfold wrapping_add, u32_max in *.
  rewrite Z.mod_small by lia. split_and!; [lia|lia|f_equal; lia].
Qed.

(** C40 (allocator, concurrent): in every interleaving of any number of threads, as long as no
    thread has drawn [u32::MAX] the numbers handed out are pairwise distinct and never zero. *)
Theorem alloc_race_unique s :
  star AllocRace.step AllocRace.init s ->
  AllocRace.exhausted s = false -> AllocRace.storing s = O ->
  NoDup (AllocRace.issued s) /\ Forall (fun z => 1 <= z < u32_max) (AllocRace.issued s).
Proof.
  intros Hs He Hst. assert (race_inv s) as Hi.
  { eapply star_invariant; [exact race_inv_step|exact Hs|]. intros _ _. by exists O. }
  destruct (Hi He Hst) as (n & _ & Hn & ->). split; [apply down_from_NoDup|].
  eapply Forall_impl; [apply down_from_range|]. cbn. lia.
Qed.

Lemma race_reaches n : Z.of_nat n < u32_max ->
  star AllocRace.step AllocRace.init (AllocRace.mk (Z.of_nat n + 1) false 0 0 (down_from n)).
Proof.
  induction n as [|n IH]; intros Hn; [apply star_refl|].
  eapply star_trans; [apply IH; lia|].
  eapply star_step; [apply AllocRace.step_load|].
  eapply star_step; [apply AllocRace.step_take; unfold u32_max in *; lia|].
  replace (wrapping_add 32 (Z.of_nat n + 1) 1) with (Z.of_nat (S n) + 1)
    by (unfold wrapping_add, u32_max in *; rewrite Z.mod_small; lia).
  cbn [down_from]. rewrite Nat2Z.inj_succ. apply star_refl.
Qed.

(** (allocator race): the guarantee stops at exhaustion. Two threads that both read
    [exhausted = false] when the counter stands at [u32::MAX] let the second draw the wrapped
    counter: number 0, which the channel allocator reserves, is handed out. *)
Theorem alloc_race_issues_zero :
  exists s, star AllocRace.step AllocRace.init s /\ 0 ∈ AllocRace.issued s.
Proof.
  eexists. split.
  - eapply star_trans; [apply (race_reaches (Z.to_nat (u32_max - 1))); unfold u32_max; lia|].
    replace (Z.of_nat (Z.to_nat (u32_max - 1)) + 1) with u32_max by (unfold u32_max; lia).
    eapply star_step; [apply AllocRace.step_load|].
    eapply star_step; [apply AllocRace.step_load|].
    eapply star_step; [apply AllocRace.step_take_last|].
    change (wrapping_add 32 u32_max 1) with 0.
    eapply star_step; [apply AllocRace.step_take; done|]. apply star_refl.
  - apply list_elem_of_here.
Qed.

Lemma alloc_race_witness :
  NoDup (AllocRace.issued (AllocRace.mk 3 false 0 0 [2; 1])).
Proof.
  apply alloc_race_unique; [|reflexivity..]. apply (race_reaches 2). unfold u32_max. lia.
Defined.

(** ** The sorted map *)

Section BTreeMapFacts.
Context {V : Type}.
Implicit Types m : list (Z * V).

(** Keys are strictly increasing. *)
Definition sorted m : Prop := StronglySorted Z.lt (fst <$> m).

Lemma sorted_filter (P : Z * V -> Prop) `{!forall x, Decision (P x)} m :
  sorted m -> sorted (filter P m).
Proof.
  unfold sorted. induction m as [|p m IH]; [done|]. rewrite fmap_cons. intros Hs.
  apply StronglySorted_inv in Hs as [Hs Hall]. rewrite filter_cons. case_decide; [|by apply IH].
  rewrite fmap_cons. constructor; [by apply IH|]. rewrite Forall_fmap in Hall |- *.
  by apply Forall_list_filter.
Qed.

Lemma insert_keys k v m : forall x, x ∈ (fst <$> BTreeMap.insert k v m) <-> x = k \/ x ∈ (fst <$> m).
Proof.
  intros x. induction m as [|[k' v'] m IH]; cbn; [set_solver|].
  repeat case_if; z_bool; cbn; set_solver.
Qed.

Lemma sorted_insert k v m : sorted m -> sorted (BTreeMap.insert k v m).
Proof.
  unfold sorted. induction m as [|[k' v'] m IH]; intros Hs; cbn.
  { by repeat constructor. }
  cbn in Hs. apply StronglySorted_inv in Hs as [Hs Hall].
  repeat case_if; z_bool; cbn.
  - constructor; [by constructor|]. constructor; [done|].
    eapply Forall_impl; [exact Hall|]. cbn. lia.
  - subst. by constructor.
  - constructor; [by apply IH|]. apply Forall_forall. intros x Hx%insert_keys.
    rewrite Forall_forall in Hall. destruct Hx as [->|Hx]; [lia|by apply Hall].
Qed.

Lemma get_in k v m : sorted m -> BTreeMap.get k m = Some v <-> (k, v) ∈ m.
Proof.
  unfold sorted. induction m as [|[k' v'] m IH]; intros Hs; cbn [BTreeMap.get].
  { split; [done|]. by intros ?%elem_of_nil. }
  cbn in Hs. apply StronglySorted_inv in Hs as [Hs Hall]. rewrite elem_of_cons.
  case_if; z_bool.
  - subst. split; [intros [= ->]; by left|]. intros [[= ->]|Hin]; [done|].
    rewrite Forall_fmap, Forall_forall in Hall. specialize (Hall _ Hin). cbn in Hall. lia.
  - rewrite IH by done. split; [by right|]. intros [[= -> ->]|?]; done.
Qed.

Lemma get_insert k v m x : BTreeMap.get x (BTreeMap.insert k v m)
  = if x =? k then Some v else BTreeMap.get x m.
Proof.
  induction m as [|[k' v'] m IH]; cbn; [done|].
  repeat case_if; z_bool; subst; cbn in *; repeat case_if; z_bool; subst; try done; try lia.
Qed.

Lemma get_remove k m x : BTreeMap.get x (BTreeMap.remove k m)
  = if x =? k then None else BTreeMap.get x m.
Proof.
  unfold BTreeMap.remove. induction m as [|[k' v'] m IH]; [by case_if|].
  rewrite filter_cons. cbn [fst BTreeMap.get] in *. case_decide as Hk; cbn [BTreeMap.get].
  - rewrite IH. repeat case_if; z_bool; cbn in Hk; congruence.
  - assert (k' = k) as -> by (cbn in Hk; lia). rewrite IH. by case_if.
Qed.

Lemma length_insert k v m : (length (BTreeMap.insert k v m) <= S (length m))%nat.
Proof. induction m as [|[k' v'] m IH]; cbn; repeat case_if; cbn; lia. Qed.

(** Removing the first key of a sorted map removes one entry. *)
Lemma remove_head k v m : sorted ((k, v) :: m) -> BTreeMap.remove k ((k, v) :: m) = m.
Proof.
  unfold sorted. rewrite fmap_cons. intros [_ Hall]%StronglySorted_inv. unfold BTreeMap.remove.
  rewrite filter_cons, decide_False by (cbn; naive_solver). apply list_filter_all.
  rewrite Forall_fmap in Hall. eapply Forall_impl; [exact Hall|]. cbn. lia.
Qed.
End BTreeMapFacts.

(** ** The job table *)

Record table_ok (t : JobTable.t) : Prop := {
  tk_sorted : sorted (JobTable.jobs t);
  tk_own_id : Forall (fun p => JobRecord.job_id p.2 = p.1) (JobTable.jobs t);
  tk_bounded : lenZ (JobTable.jobs t) <= Z.max 1 (JobTable.max_entries t)
}.

(** The entries a job insertion keeps: those within retention, less the oldest one when the
    table is full. *)
Definition survivors (now : Z) (t : JobTable.t) : list (Z * JobRecord.t) :=
  let fresh := filter (fun p => JobTable.is_fresh now (JobTable.retention_ms t) p.2 = true)
                 (JobTable.jobs t) in
  if lenZ fresh >=? JobTable.max_entries t then drop 1 fresh else fresh.

Lemma insert_eq now t job : table_ok t ->
  JobTable.insert now t job =
  JobTable.mk (BTreeMap.insert (JobRecord.job_id job) job (survivors now t))
    (JobTable.retention_ms t) (JobTable.max_entries t).
Proof.
  intros [Hs _ _]. unfold JobTable.insert, JobTable.evict_stale, survivors.
  cbn [JobTable.jobs JobTable.max_entries JobTable.retention_ms].
  pose proof (sorted_filter (fun p => JobTable.is_fresh now (JobTable.retention_ms t) p.2 = true)
                (JobTable.jobs t) Hs) as Hf.
  destruct (filter _ _) as [|[k v] m] eqn:E; [by repeat case_if|].
  case_if; [|done]. by rewrite remove_head.
Qed.

(** (job table): inserting a job keeps the table sorted, bounded and keyed by job id; the job
    is found afterwards; any other id is answered as before if its job is within retention and
    was not the oldest of a full table, and not at all otherwise. *)
Theorem job_table_insert now t job :
  table_ok t ->
  let t' := JobTable.insert now t job in
  table_ok t' /\
  JobTable.get t' (JobRecord.job_id job) = Some job /\
  forall k j, k <> JobRecord.job_id job ->
    JobTable.get t' k = Some j <-> (k, j) ∈ survivors now t.
Proof.
  intros Hok. cbv zeta. rewrite insert_eq by done. destruct Hok as [Hs Hid Hb].
  set (sv := survivors now t). unfold survivors in sv.
  set (fresh := filter _ (JobTable.jobs t)) in sv.
  assert (sorted fresh) as Hfs by (by apply sorted_filter).
  assert (sorted sv) as Hss.
  { unfold sv. case_if; [|done]. destruct fresh as [|p m]; [done|]. cbn [drop].
    unfold sorted in *. cbn in Hfs. by apply StronglySorted_inv in Hfs as [? _]. }
  assert (Forall (fun p => JobRecord.job_id p.2 = p.1) sv) as Hsid.
  { assert (Forall (fun p => JobRecord.job_id p.2 = p.1) fresh) by (by apply Forall_list_filter).
    unfold sv. case_if; [by apply Forall_drop|done]. }
  split_and!.
  - split; cbn [JobTable.jobs JobTable.max_entries].
    + by apply sorted_insert.
    + clear -Hsid. induction sv as [|[k v] sv IH]; cbn; [by repeat constructor|].
      apply Forall_cons in Hsid as [? ?]. repeat case_if; repeat constructor; try done. by apply IH.
    + pose proof (length_insert (JobRecord.job_id job) job sv).
      assert (lenZ fresh <= lenZ (JobTable.jobs t)) by (apply inj_le, length_filter).
      unfold lenZ in *. unfold sv in *. case_if; z_bool; [rewrite length_drop in *|]; lia.
  - unfold JobTable.get. cbn. rewrite get_insert, Z.eqb_refl. done.
  - intros k j Hk. unfold JobTable.get. cbn.
    rewrite get_insert, (proj2 (Z.eqb_neq _ _)) by done. by apply get_in.
Qed.

Definition sample_job (id at_ns : Z) : JobRecord.t :=
  JobRecord.mk id 100 800000 0x20000000 (replicate 32 xaa) 0x1703ffff [x01] [xff] []
    1700000000 1700000000 1700000001 "test-instance" false at_ns.

(** The source's test [job_table_lru_eviction]: a table of capacity 3 drops job 1. *)
Lemma job_table_insert_witness :
  let t := foldl (JobTable.insert 20) (JobTable.new 300000 3) [sample_job 1 5; sample_job 2 6; sample_job 3 7] in
  table_ok t /\ JobTable.get (JobTable.insert 20 t (sample_job 4 8)) 4 = Some (sample_job 4 8) /\
  JobTable.get (JobTable.insert 20 t (sample_job 4 8)) 1 = None.
Proof.
  assert (table_ok (foldl (JobTable.insert 20) (JobTable.new 300000 3)
    [sample_job 1 5; sample_job 2 6; sample_job 3 7])) as Hok.
  { split; vm_compute; repeat constructor; discriminate. }
  cbv zeta. split_and!; [exact Hok| |by vm_compute].
  exact (proj1 (proj2 (job_table_insert 20 _ (sample_job 4 8) Hok))).
Defined.

(** ** The template dedup cache *)

Module DedupRun.
(** The answers of a sequence of calls. *)
Fixpoint run (c : TemplateDedupCache.t) (keys : list (string * Z)) : list bool :=
  match keys with
  | [] => []
  | (src, id) :: keys =>
      let '(dup, c) := TemplateDedupCache.is_duplicate c src id in dup :: run c keys
  end.

(** What an unbounded cache answers: was this key asked before? *)
Fixpoint asked_before (past keys : list (string * Z)) : list bool :=
  match keys with
  | [] => []
  | k :: keys => bool_decide (k ∈ past) :: asked_before (k :: past) keys
  end.
End DedupRun.

Lemma dedup_run_sound keys : forall c past,
  (forall k, k ∈ TemplateDedupCache.seen c -> k ∈ past) ->
  Forall2 (fun got want => got = true -> want = true)
    (DedupRun.run c keys) (DedupRun.asked_before past keys).
Proof.
  induction keys as [|[src id] keys IH]; intros c past Hp; cbn [DedupRun.run DedupRun.asked_before];
    [constructor|].
  unfold TemplateDedupCache.is_duplicate.
  set (c0 := if decide (TemplateDedupCache.current_source c = Some src) then _ else _).
  assert (forall k, k ∈ TemplateDedupCache.seen c0 -> k ∈ past) as Hc0.
  { unfold c0. case_decide; [done|]. cbn. set_solver. }
  case_decide as Hin; cbn [fst snd].
  - constructor; [by intros _; apply bool_decide_eq_true_2, Hc0|]. apply IH. set_solver.
  - constructor; [done|]. apply IH. cbn. case_if; set_solver.
Qed.

Lemma dedup_run_exact src ids : forall c (past : list Z),
  TemplateDedupCache.current_source c = Some src ->
  TemplateDedupCache.seen c = list_to_set (pair src <$> past) ->
  Z.of_nat (size (list_to_set (pair src <$> past ++ ids) : gset (string * Z)))
    <= TemplateDedupCache.max_entries c ->
  DedupRun.run c (pair src <$> ids) = DedupRun.asked_before (pair src <$> past) (pair src <$> ids).
Proof.
  induction ids as [|id ids IH]; intros c past Hc Hs Hm; [done|].
  rewrite !fmap_cons. cbn [DedupRun.run DedupRun.asked_before].
  unfold TemplateDedupCache.is_duplicate.
  rewrite (decide_True (P := TemplateDedupCache.current_source c = Some src)) by done.
  assert (forall s : list Z, s ≡ₚ past ++ id :: ids ->
    Z.of_nat (size (list_to_set (pair src <$> s) : gset (string * Z)))
      <= TemplateDedupCache.max_entries c) as Hm'.
  { intros s Hp. etrans; [|exact Hm]. apply inj_le, subseteq_size. intros x.
    rewrite !elem_of_list_to_set. by rewrite Hp. }
  case_decide as Hin; rewrite Hs, elem_of_list_to_set in Hin.
  - rewrite bool_decide_eq_true_2 by done. f_equal. rewrite <-fmap_cons. apply IH; [done| |].
    + rewrite Hs. set_solver.
    + apply (Hm' ((id :: past) ++ ids)). cbn. by rewrite Permutation_middle.
  - rewrite bool_decide_eq_false_2 by done. f_equal. rewrite <-fmap_cons.
    assert (Z.of_nat (size (TemplateDedupCache.seen c)) < TemplateDedupCache.max_entries c) as Hlt.
    { specialize (Hm' _ (Permutation_refl _)). eapply Z.lt_le_trans; [|exact Hm'].
      apply inj_lt, subset_size. rewrite Hs. set_solver. }
    apply IH; cbn [TemplateDedupCache.current_source TemplateDedupCache.seen]; [done| |].
    + case_if; z_bool; [lia|]. rewrite Hs. set_solver.
    + apply (Hm' ((id :: past) ++ ids)). cbn. by rewrite Permutation_middle.
Qed.

(** (template dedup): the cache never reports a template it was not asked about before, over
    any sequence of sources; and from one source, while the distinct ids fit the cache, it
    answers exactly as an unbounded one. *)
Theorem template_dedup_exact max_entries src (ids : list Z) :
  Z.of_nat (size (list_to_set (pair src <$> ids) : gset (string * Z))) <= max_entries ->
  DedupRun.run (TemplateDedupCache.new max_entries) (pair src <$> ids)
    = DedupRun.asked_before [] (pair src <$> ids) /\
  forall keys, Forall2 (fun got want => got = true -> want = true)
    (DedupRun.run (TemplateDedupCache.new max_entries) keys) (DedupRun.asked_before [] keys).
Proof.
  intros Hm. split; [|intros keys; apply dedup_run_sound; cbn; set_solver].
  destruct ids as [|id ids]; [done|].
  transitivity (DedupRun.run (TemplateDedupCache.mk ∅ max_entries (Some src))
    (pair src <$> id :: ids)).
  - rewrite !fmap_cons. cbn [DedupRun.run]. unfold TemplateDedupCache.is_duplicate. cbn.
    by rewrite (decide_True (P := Some src = Some src)).
  - by apply (dedup_run_exact src (id :: ids) _ []).
Qed.

Lemma template_dedup_exact_witness :
  DedupRun.run (TemplateDedupCache.new 2) (pair "a"%string <$> [7; 8; 7; 8; 7])
  = [false; false; true; true; true].
Proof.
  refine (eq_trans (proj1 (template_dedup_exact 2 "a" [7; 8; 7; 8; 7] _)) _);
    vm_compute; [discriminate|reflexivity].
Defined.
