(* ===== verification/Channels.v ===== *)
(** * Mining channels

    Models [services/sv2-gateway/src/channels.rs]: extranonce prefixes, the share rate limiter,
    variable difficulty, the state of a channel, the channels of a connection, the hashrate
    window and the process-wide registry. An [Instant] is a number of nanoseconds and every
    reading of a clock is an argument; a [HashMap] is a [gmap]. *)

From Stdlib Require Import Sorting.Sorted.
From stdpp Require Import sorting.
From S2P Require Import Prelude Float64 Reason Crates Jobs.

(** ** Extranonce prefixes *)

Module ExtranonceAllocator.
Record t : Type := mk { counter : IdAllocator.t; prefix_len : nat }.

(** [None] is the assertion failure. *)
Definition with_prefix_len (prefix_len : nat) : option t :=
  if (2 <=? prefix_len)%nat && (prefix_len <=? 8)%nat then Some (mk IdAllocator.new prefix_len)
  else None.

Definition new : option t := with_prefix_len 4.

(** The prefix built from a counter value. *)
Definition prefix_of (prefix_len : nat) (val : Z) : bytes :=
  let prefix := replicate prefix_len x00 in
  let counter_bytes := le_bytes 4 val in
  let copy_len := Nat.min prefix_len 4 in
  take copy_len counter_bytes ++ drop copy_len prefix.

Definition allocate (a : t) : option bytes * t :=
  let '(val, c) := IdAllocator.allocate (counter a) in
  (prefix_of (prefix_len a) <$> val, mk c (prefix_len a)).

Fixpoint allocate_n (n : nat) (a : t) : list (option bytes) :=
  match n with
  | O => []
  | S n => let '(x, a) := allocate a in x :: allocate_n n a
  end.
End ExtranonceAllocator.

(** ** The share rate limiter *)

Module ShareRateLimiter.
Record t : Type := mk { rate : Z; tokens : f64; last_refill : Z }.

Definition new (now rate : Z) : t := mk rate (f64_of_Z rate) now.

Definition refill (now : Z) (l : t) : t :=
  let elapsed := saturating_sub now (last_refill l) in
  let cap := f64_of_Z (rate l) in
  let added := f64_min (f64_mul (as_secs_f64 elapsed) cap) cap in
  mk (rate l) (f64_min (f64_add (tokens l) added) cap) now.

Definition try_acquire (now : Z) (l : t) : bool * t :=
  if rate l =? 0 then (true, l)
  else
    let l := refill now l in
    if f64_ge (tokens l) f64_one
    then (true, mk (rate l) (f64_sub (tokens l) f64_one) (last_refill l))
    else (false, l).

(** The answers of calls at the given instants, and the final state. *)
Fixpoint run (times : list Z) (l : t) : list bool * t :=
  match times with
  | [] => ([], l)
  | now :: times =>
      let '(b, l) := try_acquire now l in
      let '(bs, l) := run times l in
      (b :: bs, l)
  end.
End ShareRateLimiter.

(** ** Channel kind *)

Module ChannelKind.
Inductive t : Type :=
| Standard
| Extended (min_extranonce_size extranonce_size : Z).

Definition is_extended (k : t) : bool := match k with Extended _ _ => true | Standard => false end.
End ChannelKind.

(** ** Variable difficulty *)

Module VardiffState.
Record t : Type := mk {
  shares_since_retarget : Z;
  retarget_start : Z;
  current_difficulty : Z;
  target_shares_per_min : f64;
  retarget_interval : Z;
  min_difficulty : Z;
  max_difficulty : Z;
  max_adjustment_factor : f64
}.

Definition new (now initial_difficulty : Z) (target_shares_per_min : f64)
    (retarget_interval min_difficulty max_difficulty : Z) (max_adjustment_factor : f64) : t :=
  mk 0 now initial_difficulty target_shares_per_min retarget_interval min_difficulty
    max_difficulty max_adjustment_factor.

Definition record_share (now : Z) (v : t) : bool * t :=
  (saturating_sub now (retarget_start v) >=? retarget_interval v,
   mk (wrapping_add 64 (shares_since_retarget v) 1) (retarget_start v) (current_difficulty v)
     (target_shares_per_min v) (retarget_interval v) (min_difficulty v) (max_difficulty v)
     (max_adjustment_factor v)).

(** A new window at [now], with the given difficulty. *)
Definition reset (now difficulty : Z) (v : t) : t :=
  mk 0 now difficulty (target_shares_per_min v) (retarget_interval v) (min_difficulty v)
    (max_difficulty v) (max_adjustment_factor v).

Definition clamped_ratio (elapsed_secs : f64) (v : t) : f64 :=
  let observed_rate :=
    f64_mul (f64_div (f64_of_Z (shares_since_retarget v)) elapsed_secs) (f64_of_Z 60) in
  let ratio :=
    if f64_gt (target_shares_per_min v) f64_zero
    then f64_div observed_rate (target_shares_per_min v) else f64_one in
  f64_min (f64_max ratio (f64_div f64_one (max_adjustment_factor v))) (max_adjustment_factor v).

(** [now] is the reading behind [elapsed], [now'] the one that restarts the window. *)
Definition evaluate_retarget (now now' : Z) (v : t) : option Z * t :=
  let elapsed_secs := as_secs_f64 (saturating_sub now (retarget_start v)) in
  if f64_lt elapsed_secs f64_one then (None, reset now' (current_difficulty v) v)
  else
    let ratio := clamped_ratio elapsed_secs v in
    if f64_lt (f64_abs (f64_sub ratio f64_one)) (f64_lit 5 100)
    then (None, reset now' (current_difficulty v) v)
    else
      let raw_new := f64_to_u64 (f64_mul (f64_of_Z (current_difficulty v)) ratio) in
      let new_diff := Z.min (Z.max raw_new (min_difficulty v)) (max_difficulty v) in
      if new_diff =? current_difficulty v then (None, reset now' (current_difficulty v) v)
      else (Some new_diff, reset now' new_diff v).
End VardiffState.

(** ** The state of a channel *)

Module ChannelState.
Record t : Type := mk {
  channel_id : Z;
  extranonce_prefix : bytes;
  kind : ChannelKind.t;
  worker_id : string;
  pool_account_id : option string;
  maximum_target : bytes;
  current_job_id : option Z;
  prevhash_sent_monotonic_ms : option Z;
  activation_min_ntime : option Z;
  group_channel_id : Z;
  opened_at : Z;
  closed : bool;
  rate_limiter : ShareRateLimiter.t;
  vardiff : option VardiffState.t
}.

(** [now] opens the channel, [now'] starts its rate limiter. *)
Definition make (now now' channel_id : Z) (extranonce_prefix : bytes) (worker_id : string)
    (pool_account_id : option string) (maximum_target : bytes) (max_shares_per_second : Z)
    (kind : ChannelKind.t) : t :=
  mk channel_id extranonce_prefix kind worker_id pool_account_id maximum_target None None None 0
    now false (ShareRateLimiter.new now' max_shares_per_second) None.

Definition new now now' channel_id extranonce_prefix worker_id pool_account_id maximum_target
    max_shares_per_second : t :=
  make now now' channel_id extranonce_prefix worker_id pool_account_id maximum_target
    max_shares_per_second ChannelKind.Standard.

Definition new_extended now now' channel_id extranonce_prefix worker_id pool_account_id
    maximum_target max_shares_per_second min_extranonce_size extranonce_size : t :=
  make now now' channel_id extranonce_prefix worker_id pool_account_id maximum_target
    max_shares_per_second (ChannelKind.Extended min_extranonce_size extranonce_size).

Definition record_prevhash_sent (monotonic_ms job_id activation_min_ntime : Z) (c : t) : t :=
  mk (channel_id c) (extranonce_prefix c) (kind c) (worker_id c) (pool_account_id c)
    (maximum_target c) (Some job_id) (Some monotonic_ms) (Some activation_min_ntime)
    (group_channel_id c) (opened_at c) (closed c) (rate_limiter c) (vardiff c).

Definition record_active_job_sent (job_id : Z) (c : t) : t :=
  mk (channel_id c) (extranonce_prefix c) (kind c) (worker_id c) (pool_account_id c)
    (maximum_target c) (Some job_id) (prevhash_sent_monotonic_ms c) (activation_min_ntime c)
    (group_channel_id c) (opened_at c) (closed c) (rate_limiter c) (vardiff c).

Definition elapsed_since_prevhash_secs (monotonic_ms : Z) (c : t) : option Z :=
  (fun sent_ms => (saturating_sub monotonic_ms sent_ms / 1000) mod 2 ^ 32)
    <$> prevhash_sent_monotonic_ms c.

Definition set_closed (c : t) : t :=
  mk (channel_id c) (extranonce_prefix c) (kind c) (worker_id c) (pool_account_id c)
    (maximum_target c) (current_job_id c) (prevhash_sent_monotonic_ms c) (activation_min_ntime c)
    (group_channel_id c) (opened_at c) true (rate_limiter c) (vardiff c).

Definition set_rate_limiter (l : ShareRateLimiter.t) (c : t) : t :=
  mk (channel_id c) (extranonce_prefix c) (kind c) (worker_id c) (pool_account_id c)
    (maximum_target c) (current_job_id c) (prevhash_sent_monotonic_ms c) (activation_min_ntime c)
    (group_channel_id c) (opened_at c) (closed c) l (vardiff c).

Definition set_vardiff (maximum_target : bytes) (v : option VardiffState.t) (c : t) : t :=
  mk (channel_id c) (extranonce_prefix c) (kind c) (worker_id c) (pool_account_id c)
    maximum_target (current_job_id c) (prevhash_sent_monotonic_ms c) (activation_min_ntime c)
    (group_channel_id c) (opened_at c) (closed c) (rate_limiter c) v.
End ChannelState.

(** ** The channels of a connection *)

Module ConnectionChannels.
Record t : Type := mk { channels : gmap Z ChannelState.t; max_channels : Z }.

Definition new (max_channels : Z) : t := mk ∅ max_channels.

(** What [open_channel] and [open_extended_channel] share: [state] is the freshly built channel.
    An id already present keeps its entry ([or_insert]). *)
Definition open_with (state : ChannelState.t) (m : t)
    : result ChannelState.t GatewayReason.t * t :=
  if Z.of_nat (size (channels m)) >=? max_channels m then (Err GatewayReason.ChannelLimitExceeded, m)
  else
    match channels m !! ChannelState.channel_id state with
    | Some entry => (Ok entry, m)
    | None =>
        (Ok state, mk (<[ChannelState.channel_id state := state]> (channels m)) (max_channels m))
    end.

Definition open_channel now now' channel_id extranonce_prefix worker_id pool_account_id
    maximum_target max_shares_per_second (m : t) : result ChannelState.t GatewayReason.t * t :=
  open_with (ChannelState.new now now' channel_id extranonce_prefix worker_id pool_account_id
    maximum_target max_shares_per_second) m.

Definition open_extended_channel now now' channel_id extranonce_prefix worker_id pool_account_id
    maximum_target max_shares_per_second min_extranonce_size extranonce_size (m : t)
    : result ChannelState.t GatewayReason.t * t :=
  open_with (ChannelState.new_extended now now' channel_id extranonce_prefix worker_id
    pool_account_id maximum_target max_shares_per_second min_extranonce_size extranonce_size) m.

Definition is_open (c : ChannelState.t) : Prop := ChannelState.closed c = false.

Definition get (m : t) (channel_id : Z) : option ChannelState.t :=
  match channels m !! channel_id with
  | Some c => if ChannelState.closed c then None else Some c
  | None => None
  end.

(** A write through the reference [get_mut] returns. *)
Definition update (m : t) (channel_id : Z) (f : ChannelState.t -> ChannelState.t) : t :=
  match get m channel_id with
  | Some c => mk (<[channel_id := f c]> (channels m)) (max_channels m)
  | None => m
  end.

Definition close_channel (m : t) (channel_id : Z) : bool * t :=
  match channels m !! channel_id with
  | Some ch =>
      if ChannelState.closed ch then (false, m)
      else (true, mk (<[channel_id := ChannelState.set_closed ch]> (channels m)) (max_channels m))
  | None => (false, m)
  end.

Definition iter_open (m : t) : list ChannelState.t :=
  filter (fun c => ChannelState.closed c = false) (snd <$> map_to_list (channels m)).

Definition open_count (m : t) : Z := lenZ (iter_open m).

Definition gc_closed (m : t) : t :=
  mk (filter (fun kc => ChannelState.closed kc.2 = false) (channels m)) (max_channels m).
End ConnectionChannels.

(** ** The hashrate window *)

Module HashrateWindow.
Record t : Type := mk { samples : list (Z * Z); window_ms : Z }.

Definition new (window_ms : Z) : t := mk [] window_ms.

(** The [while let] loop of [evict]: pop the front while it is older than [cutoff]. *)
Fixpoint pop_old (cutoff : Z) (samples : list (Z * Z)) : list (Z * Z) :=
  match samples with
  | (ts, d) :: samples' => if ts <? cutoff then pop_old cutoff samples' else samples
  | [] => []
  end.

Definition evict (now_ms : Z) (w : t) : t :=
  mk (pop_old (saturating_sub now_ms (window_ms w)) (samples w)) (window_ms w).

(** The sum of fewer than [2^64] values of type [u64] fits the [u128] accumulator. *)
Definition compute (now_ms : Z) (w : t) : f64 :=
  match samples w with
  | [] => f64_zero
  | (oldest_ts, _) :: _ =>
      let sum_diff := sumZ (snd <$> samples w) in
      let elapsed_ms := Z.max (saturating_sub now_ms oldest_ts) 1000 in
      let elapsed_secs := f64_div (f64_of_Z elapsed_ms) (f64_of_Z 1000) in
      let hashrate_hs :=
        f64_div (f64_mul (f64_of_Z sum_diff) (f64_of_Z 4294967296)) elapsed_secs in
      f64_div hashrate_hs (f64_of_Z 1000000000000)
  end.

Definition record (now_ms difficulty : Z) (w : t) : f64 * t :=
  let w := mk (samples w ++ [(now_ms, difficulty)]) (window_ms w) in
  let w := evict now_ms w in
  (compute now_ms w, w).

Definition current (now_ms : Z) (w : t) : f64 * t :=
  let w := evict now_ms w in (compute now_ms w, w).
End HashrateWindow.

(** ** The registry *)

Module ChannelSnapshot.
Record t : Type := mk {
  channel_id : Z;
  worker_id : string;
  peer_addr : string;
  opened_at_unix_ms : Z;
  shares_submitted : Z;
  shares_accepted : Z;
  last_share_at_unix_ms : Z;
  hashrate_th : f64;
  hashrate_window : HashrateWindow.t
}.
End ChannelSnapshot.

Definition snapshot_from_open (now_ms channel_id : Z) (worker_id peer_addr : string)
    : ChannelSnapshot.t :=
  ChannelSnapshot.mk channel_id worker_id peer_addr now_ms 0 0 0 f64_zero
    (HashrateWindow.new 300000).

Module GlobalChannelRegistry.
Abbreviation t := (gmap Z ChannelSnapshot.t).

Definition new : t := ∅.

Definition register (snap : ChannelSnapshot.t) (r : t) : t :=
  <[ChannelSnapshot.channel_id snap := snap]> r.

Definition counted (now : Z) (accepted : bool) (difficulty : Z) (e : ChannelSnapshot.t)
    : ChannelSnapshot.t :=
  let submitted := wrapping_add 64 (ChannelSnapshot.shares_submitted e) 1 in
  let '(accepted', th, window) :=
    if accepted then
      let '(th, w) := HashrateWindow.record now difficulty (ChannelSnapshot.hashrate_window e) in
      (wrapping_add 64 (ChannelSnapshot.shares_accepted e) 1, th, w)
    else (ChannelSnapshot.shares_accepted e, ChannelSnapshot.hashrate_th e,
          ChannelSnapshot.hashrate_window e) in
  ChannelSnapshot.mk (ChannelSnapshot.channel_id e) (ChannelSnapshot.worker_id e)
    (ChannelSnapshot.peer_addr e) (ChannelSnapshot.opened_at_unix_ms e) submitted accepted' now th
    window.

Definition update_share (now channel_id : Z) (accepted : bool) (difficulty : Z) (r : t) : t :=
  match r !! channel_id with
  | Some entry => <[channel_id := counted now accepted difficulty entry]> r
  | None => r
  end.

Definition unregister (channel_id : Z) (r : t) : t := delete channel_id r.

Definition snapshot_all (r : t) : list ChannelSnapshot.t := snd <$> map_to_list r.
End GlobalChannelRegistry.

(** * Properties *)

(** ** Extranonce prefixes *)

Lemma extranonce_allocate_n n : forall c len,
  ExtranonceAllocator.allocate_n n (ExtranonceAllocator.mk c len)
  = fmap (M:=option) (ExtranonceAllocator.prefix_of len) <$> (IdAllocator.allocate_n n c).1.
Proof.
  induction n as [|n IH]; intros c len; [done|].
  cbn [ExtranonceAllocator.allocate_n IdAllocator.allocate_n].
  unfold ExtranonceAllocator.allocate.
  cbn [ExtranonceAllocator.counter ExtranonceAllocator.prefix_len].
  destruct (IdAllocator.allocate c) as [x c']. rewrite IH.
  by destruct (IdAllocator.allocate_n n c').
Qed.

Lemma prefix_of_long len v : (4 <= len)%nat ->
  ExtranonceAllocator.prefix_of len v = le_bytes 4 v ++ replicate (len - 4) x00.
Proof.
  intros Hl. unfold ExtranonceAllocator.prefix_of. rewrite Nat.min_r by done.
  rewrite take_ge by (by rewrite length_le_bytes). f_equal. apply drop_replicate.
Qed.

Lemma prefix_of_inj len v w : (4 <= len)%nat -> in_u 32 v -> in_u 32 w ->
  ExtranonceAllocator.prefix_of len v = ExtranonceAllocator.prefix_of len w -> v = w.
Proof.
  intros Hl Hv Hw. rewrite !prefix_of_long by done. intros E.
  apply app_inj_1 in E as [E _]; [|by rewrite !length_le_bytes].
  apply (f_equal from_le_bytes) in E. rewrite !from_to_le_bytes in E. unfold in_u in *.
  rewrite !Z.mod_small in E by lia. done.
Qed.

(** (extranonce): with a prefix of at least four bytes, every prefix handed out has that
    length, no two calls return the same prefix, and the first [u32::MAX - 1] calls succeed. *)
Theorem extranonce_prefixes_unique len a n :
  (4 <= len)%nat -> ExtranonceAllocator.with_prefix_len len = Some a ->
  let out := ExtranonceAllocator.allocate_n n a in
  (forall i p, out !! i = Some (Some p) -> length p = len) /\
  (forall i j p, out !! i = Some (Some p) -> out !! j = Some (Some p) -> i = j) /\
  (forall i, (i < n)%nat -> Z.of_nat i + 1 < u32_max -> exists p, out !! i = Some (Some p)).
Proof.
  intros Hl Ha. unfold ExtranonceAllocator.with_prefix_len in Ha. case_if; [|done].
  injection Ha as <-. cbv zeta. rewrite extranonce_allocate_n. unfold IdAllocator.new.
  rewrite (allocate_from n 1) by (unfold u32_max; lia).
  assert (forall i p, (fmap (M:=option) (ExtranonceAllocator.prefix_of len) <$>
      (number_or_none <$> (Z.add 1 ∘ Z.of_nat <$> seq 0 n))) !! i = Some (Some p) ->
    Z.of_nat i + 1 < u32_max /\ p = ExtranonceAllocator.prefix_of len (Z.of_nat i + 1)) as Hi.
  { intros i p. rewrite !list_lookup_fmap. destruct (decide (i < n)%nat).
    - rewrite lookup_seq_lt by done. cbn. unfold number_or_none. case_if; [|done].
      intros [= <-]. z_bool. split; [lia|]. f_equal. lia.
    - by rewrite lookup_seq_ge by lia. }
  split_and!.
  - intros i p [_ ->]%Hi. rewrite prefix_of_long, length_app, length_le_bytes, length_replicate
      by done. lia.
  - intros i j p [Hb ->]%Hi [Hb' Ep]%Hi. apply prefix_of_inj in Ep; [lia|done|..];
      unfold in_u, u32_max in *; lia.
  - intros i Hn Hb. rewrite !list_lookup_fmap, lookup_seq_lt by done. cbn. unfold number_or_none.
    rewrite (proj2 (Z.ltb_lt _ _)) by lia. cbn. by eexists.
Qed.

Lemma extranonce_prefixes_unique_witness :
  exists a, ExtranonceAllocator.new = Some a /\
  (exists p, ExtranonceAllocator.allocate_n 3 a !! 2%nat = Some (Some p)).
Proof.
  eexists. split; [reflexivity|].
  exact (proj2 (proj2 (extranonce_prefixes_unique 4 _ 3 (le_n 4) eq_refl)) 2%nat
           ltac:(lia) ltac:(reflexivity)).
Defined.

(** (extranonce, short prefixes): the allocator accepts two- and three-byte prefixes, and with
    two bytes allocations 1 and 65537 return the same prefix. *)
Theorem extranonce_short_prefix_repeats :
  exists a p, ExtranonceAllocator.with_prefix_len 2 = Some a /\
  let out := ExtranonceAllocator.allocate_n (Z.to_nat 65537) a in
  out !! O = Some (Some p) /\ out !! Z.to_nat 65536 = Some (Some p).
Proof.
  exists (ExtranonceAllocator.mk IdAllocator.new 2), [x01; x00]. split; [done|].
  remember (Z.to_nat 65537) as n eqn:En. remember (Z.to_nat 65536) as k eqn:Ek.
  assert (O < n)%nat as H0 by lia. assert (k < n)%nat as Hk by lia.
  assert (Z.of_nat k = 65536) as Hk' by lia. clear En Ek. cbv zeta.
  rewrite extranonce_allocate_n. unfold IdAllocator.new.
  rewrite (allocate_from n 1) by (unfold u32_max; lia). rewrite !list_lookup_fmap, !lookup_seq_lt
    by done. cbn [fmap option_fmap option_map Nat.add]. unfold compose. rewrite Hk'.
  split; reflexivity.
Qed.

(** ** The rate limiter *)

Lemma refill_same_instant now rate k : 0 < rate < 2 ^ 32 -> 0 <= k <= rate ->
  ShareRateLimiter.refill now (ShareRateLimiter.mk rate (f64_of_Z k) now)
  = ShareRateLimiter.mk rate (f64_of_Z k) now.
Proof.
  intros Hr Hk. unfold ShareRateLimiter.refill.
  cbn [ShareRateLimiter.rate ShareRateLimiter.tokens ShareRateLimiter.last_refill].
  replace (saturating_sub now now) with 0 by (unfold saturating_sub; lia).
  replace (f64_min (f64_mul (as_secs_f64 0) (f64_of_Z rate)) (f64_of_Z rate)) with f64_zero
    by (by rewrite (f64_of_Z_exact rate) by lia).
  replace (f64_add (f64_of_Z k) f64_zero) with (f64_of_Z k).
  2:{ destruct (decide (k = 0)) as [->|]; [done|]. by rewrite f64_of_Z_exact by lia. }
  unfold f64_min, f64_gt. rewrite f64_compare_int by lia.
  assert (forall z, 0 <= z < 2 ^ 53 -> f64_is_nan (f64_of_Z z) = false) as Hnan.
  { intros z Hz%f64_of_Z_finite. by destruct (f64_of_Z z). }
  rewrite !Hnan by lia. destruct (k ?= rate) eqn:E; try done.
  apply Z.compare_gt_iff in E. lia.
Qed.

Lemma run_same_instant now rate n : 0 < rate < 2 ^ 32 -> forall k, 0 <= k <= rate ->
  (ShareRateLimiter.run (replicate n now) (ShareRateLimiter.mk rate (f64_of_Z k) now)).1
  = replicate (Nat.min n (Z.to_nat k)) true ++ replicate (n - Z.to_nat k) false.
Proof.
  intros Hr. induction n as [|n IH]; intros k Hk; [done|].
  cbn [replicate ShareRateLimiter.run]. unfold ShareRateLimiter.try_acquire.
  rewrite refill_same_instant by lia.
  cbn [ShareRateLimiter.rate ShareRateLimiter.tokens ShareRateLimiter.last_refill].
  rewrite (proj2 (Z.eqb_neq rate 0)) by lia. unfold f64_ge, f64_one at 1.
  rewrite f64_compare_int by lia. destruct (Z.compare_spec k 1) as [E|E|E].
  1,3: rewrite f64_sub_one by lia; specialize (IH (k - 1) ltac:(lia));
    destruct (ShareRateLimiter.run _ _) as [bs l]; cbn in IH; cbn [fst]; rewrite IH;
    replace (Z.to_nat k) with (S (Z.to_nat (k - 1))) by lia; reflexivity.
  specialize (IH k ltac:(lia)). destruct (ShareRateLimiter.run _ _) as [bs l]. cbn in IH.
  cbn [fst]. rewrite IH. assert (k = 0) as -> by lia.
  replace (Nat.min n (Z.to_nat 0)) with O by lia. replace (n - Z.to_nat 0)%nat with n by lia. done.
Qed.

(** (rate limit): of any number of shares submitted in the instant a channel with a limit of
    [rate] shares per second opens, exactly the first [rate] are admitted (the [f64] bucket is
    exact on whole tokens); a limit of 0 admits all shares at all times. *)
Theorem rate_limiter_burst now rate n times :
  0 <= rate < 2 ^ 32 ->
  (0 < rate ->
   (ShareRateLimiter.run (replicate n now) (ShareRateLimiter.new now rate)).1
   = replicate (Nat.min n (Z.to_nat rate)) true ++ replicate (n - Z.to_nat rate) false) /\
  (rate = 0 ->
   (ShareRateLimiter.run times (ShareRateLimiter.new now rate)).1
   = replicate (length times) true).
Proof.
  intros Hr. split.
  - intros Hp. apply run_same_instant; lia.
  - intros ->. induction times as [|x times IH]; [done|].
    cbn [ShareRateLimiter.run length replicate]. unfold ShareRateLimiter.try_acquire.
    cbn [ShareRateLimiter.rate ShareRateLimiter.new]. rewrite Z.eqb_refl.
    destruct (ShareRateLimiter.run _ _) as [bs l]. cbn in *. by rewrite IH.
Qed.

Lemma rate_limiter_burst_witness :
  (ShareRateLimiter.run (replicate 5 77) (ShareRateLimiter.new 77 3)).1
  = [true; true; true; false; false].
Proof. exact (proj1 (rate_limiter_burst 77 3 5 [] ltac:(lia)) ltac:(lia)). Defined.

(** ** Variable difficulty *)

(** (vardiff): a retarget leaves the channel's difficulty alone or moves it to a different
    value within the configured bounds; either way the window restarts at the second clock
    reading with no shares counted and the configuration unchanged. *)
Theorem evaluate_retarget_bounds now now' v :
  VardiffState.min_difficulty v <= VardiffState.max_difficulty v ->
  let '(new_diff, v') := VardiffState.evaluate_retarget now now' v in
  v' = VardiffState.reset now' (default (VardiffState.current_difficulty v) new_diff) v /\
  forall d, new_diff = Some d ->
    VardiffState.min_difficulty v <= d <= VardiffState.max_difficulty v /\
    d <> VardiffState.current_difficulty v.
Proof.
  intros Hb. unfold VardiffState.evaluate_retarget. cbv zeta.
  repeat case_if; z_bool; split; try done. intros d [= <-]. split; [lia|done].
Qed.

(** Twice the wanted rate over a minute doubles the difficulty. *)
Lemma evaluate_retarget_bounds_witness :
  let v := VardiffState.mk 40 0 1000 (f64_of_Z 20) 60000000000 1 1000000 (f64_of_Z 4) in
  VardiffState.evaluate_retarget 60000000000 60000000001 v
    = (Some 2000, VardiffState.reset 60000000001 2000 v) /\ 1 <= 2000 <= 1000000.
Proof.
  cbv zeta. pose proof (evaluate_retarget_bounds 60000000000 60000000001
    (VardiffState.mk 40 0 1000 (f64_of_Z 20) 60000000000 1 1000000 (f64_of_Z 4))
    ltac:(cbn; lia)) as H.
  split; [vm_compute; reflexivity|]. destruct (VardiffState.evaluate_retarget _ _ _) as [o v'] eqn:E.
  vm_compute in E. injection E as <- _. exact (proj1 (proj2 H 2000 eq_refl)).
Defined.

(** ** The hashrate window *)

(** Samples in order of time: what a clock that does not go back produces. *)
Definition by_time (a b : Z * Z) : Prop := a.1 <= b.1.
Definition in_order : list (Z * Z) -> Prop := StronglySorted by_time.

Lemma in_order_filter (P : Z * Z -> Prop) `{!forall x, Decision (P x)} l :
  in_order l -> in_order (filter P l).
Proof.
  induction 1 as [|x l _ IH Hx]; [constructor|]. rewrite filter_cons. case_decide; [|done].
  constructor; [done|]. by apply Forall_list_filter.
Qed.

Lemma pop_old_filter cutoff samples : in_order samples ->
  HashrateWindow.pop_old cutoff samples = filter (fun p => cutoff <= p.1) samples.
Proof.
  induction 1 as [|[ts d] l Hl IH Hx]; [done|]. cbn [HashrateWindow.pop_old].
  rewrite filter_cons. case_if; z_bool.
  - by rewrite decide_False by (cbn; lia).
  - rewrite decide_True by done. f_equal. symmetry. apply list_filter_all.
    eapply Forall_impl; [exact Hx|]. unfold by_time. cbn. lia.
Qed.

Module HashrateRun.
(** The window after recording the given (time, difficulty) pairs. *)
Definition run (events : list (Z * Z)) (w : HashrateWindow.t) : HashrateWindow.t :=
  foldl (fun w e => (HashrateWindow.record e.1 e.2 w).2) w events.

(** The time of the last event. *)
Definition last_time (events : list (Z * Z)) : Z := from_option fst 0 (last events).
End HashrateRun.

(** (hashrate): after any sequence of accepted shares with non-decreasing times, the window
    holds exactly the shares of the last [window_ms] milliseconds, in order. *)
Theorem hashrate_window_exact window_ms events :
  in_order events ->
  HashrateWindow.samples (HashrateRun.run events (HashrateWindow.new window_ms))
  = filter (fun p => saturating_sub (HashrateRun.last_time events) window_ms <= p.1) events.
Proof.
  intros Ho. enough (HashrateRun.run events (HashrateWindow.new window_ms) = HashrateWindow.mk
    (filter (fun p => saturating_sub (HashrateRun.last_time events) window_ms <= p.1) events)
    window_ms) as -> by done.
  unfold HashrateRun.run. induction events as [|e events IH] using rev_ind; [done|].
  apply StronglySorted_app in Ho as (Hle & Ho & _). rewrite foldl_snoc, IH by done.
  unfold HashrateWindow.record, HashrateWindow.evict.
  cbn [snd HashrateWindow.samples HashrateWindow.window_ms]. f_equal.
  unfold HashrateRun.last_time. rewrite last_snoc. cbn [from_option].
  rewrite pop_old_filter.
  - destruct e as [ts d]. cbn [fst snd]. rewrite !filter_app. f_equal.
    destruct (last events) as [q|] eqn:E; [|by apply last_None in E as ->].
    apply list_filter_filter_l. intros p Hp. etrans; [|exact Hp]. unfold saturating_sub.
    cbn [from_option]. apply last_Some in E as [l' ->]. specialize (Hle q (ts, d)). unfold by_time in Hle.
    cbn in Hle. enough (q.1 <= ts) by lia. apply Hle; set_solver.
  - apply StronglySorted_app_2; [|by apply in_order_filter|repeat constructor].
    intros x y [_ Hx]%list_elem_of_filter Hy. rewrite list_elem_of_singleton in Hy. subst y.
    specialize (Hle x e Hx). unfold by_time in *. apply Hle. set_solver.
Qed.

Lemma hashrate_window_exact_witness :
  HashrateWindow.samples (HashrateRun.run [(1000, 5); (200000, 6); (301500, 7)]
    (HashrateWindow.new 300000)) = [(200000, 6); (301500, 7)].
Proof.
  refine (eq_trans (hashrate_window_exact 300000 _ _) _); [|by vm_compute].
  repeat constructor; unfold by_time; cbn; lia.
Defined.

(** ** The channels of a connection refine a map of open channels *)

Module ChannelOps.
Inductive op : Type :=
| Open (now now' channel_id : Z) (extranonce_prefix : bytes) (worker_id : string)
    (pool_account_id : option string) (maximum_target : bytes) (max_shares_per_second : Z)
| OpenExtended (now now' channel_id : Z) (extranonce_prefix : bytes) (worker_id : string)
    (pool_account_id : option string) (maximum_target : bytes) (max_shares_per_second : Z)
    (min_extranonce_size extranonce_size : Z)
| PrevhashSent (channel_id monotonic_ms job_id activation_min_ntime : Z)
| ActiveJobSent (channel_id job_id : Z)
| Close (channel_id : Z)
| Gc.

(** The channel an open request builds. *)
Definition built (o : op) : option ChannelState.t :=
  match o with
  | Open now now' i p w a t r => Some (ChannelState.new now now' i p w a t r)
  | OpenExtended now now' i p w a t r mn sz => Some (ChannelState.new_extended now now' i p w a t r mn sz)
  | _ => None
  end.

Definition apply (o : op) (m : ConnectionChannels.t) : ConnectionChannels.t :=
  match o with
  | Open now now' i p w a t r => (ConnectionChannels.open_channel now now' i p w a t r m).2
  | OpenExtended now now' i p w a t r mn sz =>
      (ConnectionChannels.open_extended_channel now now' i p w a t r mn sz m).2
  | PrevhashSent i ms j n =>
      ConnectionChannels.update m i (ChannelState.record_prevhash_sent ms j n)
  | ActiveJobSent i j => ConnectionChannels.update m i (ChannelState.record_active_job_sent j)
  | Close i => (ConnectionChannels.close_channel m i).2
  | Gc => ConnectionChannels.gc_closed m
  end.

(** What a client sees: the open channels by id. *)
Definition view (m : ConnectionChannels.t) : gmap Z ChannelState.t :=
  filter (fun kc => ChannelState.closed kc.2 = false) (ConnectionChannels.channels m).

(** The contract, on the open channels and the ids that take a place. An open request adds its channel
    where there is a place and the id is not taken, and changes nothing otherwise; a notice reaches the
    channel if it is open; closing removes the channel, and keeps its place; clean-up frees the places of
    closed channels. *)
Record contract : Type := Contract { opened : gmap Z ChannelState.t; taken : gset Z }.

Definition spec (limit : Z) (a : contract) (o : op) : contract :=
  match o with
  | Open _ _ _ _ _ _ _ _ | OpenExtended _ _ _ _ _ _ _ _ _ _ =>
      match built o with
      | Some c =>
          let i := ChannelState.channel_id c in
          if (Z.of_nat (size (taken a)) <? limit) && bool_decide (i ∉ taken a)
          then Contract (<[i := c]> (opened a)) ({[i]} ∪ taken a) else a
      | None => a
      end
  | PrevhashSent i ms j n => Contract (alter (ChannelState.record_prevhash_sent ms j n) i (opened a)) (taken a)
  | ActiveJobSent i j => Contract (alter (ChannelState.record_active_job_sent j) i (opened a)) (taken a)
  | Close i => Contract (delete i (opened a)) (taken a)
  | Gc => Contract (opened a) (dom (opened a))
  end.

Definition abstract (m : ConnectionChannels.t) : contract := Contract (view m) (dom (ConnectionChannels.channels m)).
End ChannelOps.

Section ChannelFacts.
Implicit Types m : ConnectionChannels.t.

Lemma view_lookup m i : ChannelOps.view m !! i = ConnectionChannels.get m i.
Proof.
  unfold ChannelOps.view, ConnectionChannels.get. rewrite map_lookup_filter.
  destruct (ConnectionChannels.channels m !! i) as [c|]; [cbn|done].
  case_if; case_guard; cbn in *; congruence.
Qed.

Lemma get_insert_channel ch mx i c k :
  ConnectionChannels.get (ConnectionChannels.mk (<[i := c]> ch) mx) k
  = if decide (i = k) then (if ChannelState.closed c then None else Some c)
    else ConnectionChannels.get (ConnectionChannels.mk ch mx) k.
Proof.
  unfold ConnectionChannels.get. cbn [ConnectionChannels.channels]. rewrite lookup_insert.
  by case_decide.
Qed.

Lemma view_update m i f :
  (forall c, ChannelState.closed (f c) = ChannelState.closed c) ->
  ChannelOps.view (ConnectionChannels.update m i f) = alter f i (ChannelOps.view m).
Proof.
  intros Hf. apply map_eq. intros k. rewrite lookup_alter, !view_lookup.
  unfold ConnectionChannels.update. destruct (ConnectionChannels.get m i) as [c|] eqn:E.
  - rewrite get_insert_channel. case_decide; [subst k|by destruct m].
    rewrite Hf. cbn. unfold ConnectionChannels.get in E.
    destruct (_ !! i) as [c'|]; [|done]. destruct (ChannelState.closed c') eqn:Ec; [done|].
    injection E as <-. by rewrite Ec.
  - case_decide; [by subst k|done].
Qed.

Lemma view_close m i :
  ChannelOps.view (ConnectionChannels.close_channel m i).2 = delete i (ChannelOps.view m).
Proof.
  apply map_eq. intros k. rewrite lookup_delete, !view_lookup.
  unfold ConnectionChannels.close_channel.
  destruct (ConnectionChannels.channels m !! i) as [c|] eqn:E;
    [destruct (ChannelState.closed c) eqn:Ec|]; cbn [snd].
  - case_decide; [subst k|done]. unfold ConnectionChannels.get. by rewrite E, Ec.
  - rewrite get_insert_channel. case_decide; [done|by destruct m].
  - case_decide; [subst k|done]. unfold ConnectionChannels.get. by rewrite E.
Qed.

Lemma view_gc m : ChannelOps.view (ConnectionChannels.gc_closed m) = ChannelOps.view m.
Proof.
  unfold ChannelOps.view, ConnectionChannels.gc_closed. cbn [ConnectionChannels.channels].
  apply map_filter_filter_l. by intros.
Qed.

Lemma built_open o c : ChannelOps.built o = Some c -> ChannelState.closed c = false.
Proof. intros Hb. destruct o; try discriminate Hb; injection Hb as <-; reflexivity. Qed.

Lemma view_open o c m : ChannelOps.built o = Some c ->
  ChannelOps.abstract (ConnectionChannels.open_with c m).2 =
    let a := ChannelOps.abstract m in let i := ChannelState.channel_id c in
    if (Z.of_nat (size (ChannelOps.taken a)) <? ConnectionChannels.max_channels m) && bool_decide (i ∉ ChannelOps.taken a)
    then ChannelOps.Contract (<[i := c]> (ChannelOps.opened a)) ({[i]} ∪ ChannelOps.taken a) else a.
Proof.
  intros Hb%built_open. unfold ConnectionChannels.open_with. cbn [ChannelOps.abstract ChannelOps.opened ChannelOps.taken].
  cbv zeta. rewrite size_dom, Z.geb_leb, Z.leb_antisym. destruct (Z.of_nat _ <? _); [|done]. cbn [negb andb].
  destruct (ConnectionChannels.channels m !! ChannelState.channel_id c) as [e|] eqn:He.
  { rewrite bool_decide_false; [done|]. rewrite not_elem_of_dom, He. done. }
  rewrite bool_decide_true by (by apply not_elem_of_dom). unfold ChannelOps.abstract. cbn [snd ConnectionChannels.channels].
  f_equal; [|by rewrite dom_insert_L]. apply map_eq. intros k. rewrite lookup_insert, !view_lookup, get_insert_channel, Hb.
  case_decide; [done|by destruct m].
Qed.

Lemma dom_update m i f : dom (ConnectionChannels.channels (ConnectionChannels.update m i f)) = dom (ConnectionChannels.channels m).
Proof.
  unfold ConnectionChannels.update, ConnectionChannels.get. destruct (ConnectionChannels.channels m !! i) as [c|] eqn:E; [|done].
  destruct (ChannelState.closed c); [done|]. cbn [ConnectionChannels.channels]. apply dom_insert_lookup_L. by eexists.
Qed.

Lemma dom_close m i : dom (ConnectionChannels.channels (ConnectionChannels.close_channel m i).2) = dom (ConnectionChannels.channels m).
Proof.
  unfold ConnectionChannels.close_channel. destruct (ConnectionChannels.channels m !! i) as [c|] eqn:E; [|done].
  destruct (ChannelState.closed c); [done|]. cbn [snd ConnectionChannels.channels]. apply dom_insert_lookup_L. by eexists.
Qed.

Ltac open_spec := lazymatch goal with |- context [match ChannelOps.built ?o with _ => _ end] => by eapply (view_open o) end.

(** Every operation does what the contract says, and nothing else. *)
Lemma apply_spec o m :
  ChannelOps.abstract (ChannelOps.apply o m) = ChannelOps.spec (ConnectionChannels.max_channels m) (ChannelOps.abstract m) o.
Proof.
  destruct o; cbn [ChannelOps.apply ChannelOps.spec]; [open_spec|open_spec|..]; unfold ChannelOps.abstract.
  - by rewrite view_update, dom_update.
  - by rewrite view_update, dom_update.
  - by rewrite view_close, dom_close.
  - by rewrite view_gc.
Qed.

Lemma apply_limit o m : ConnectionChannels.max_channels (ChannelOps.apply o m) = ConnectionChannels.max_channels m.
Proof.
  destruct o; cbn; unfold ConnectionChannels.open_channel, ConnectionChannels.open_extended_channel, ConnectionChannels.open_with,
    ConnectionChannels.update, ConnectionChannels.close_channel; repeat case_match; done.
Qed.

(** Each entry sits under its own id, and the table respects the limit. *)
Record channels_ok m : Prop := {
  co_keys : forall i c, ConnectionChannels.channels m !! i = Some c -> ChannelState.channel_id c = i;
  co_limit : Z.of_nat (size (ConnectionChannels.channels m)) <= ConnectionChannels.max_channels m
}.

Lemma channels_ok_set m i f c :
  channels_ok m -> ConnectionChannels.channels m !! i = Some c ->
  ChannelState.channel_id (f c) = ChannelState.channel_id c ->
  channels_ok (ConnectionChannels.mk (<[i := f c]> (ConnectionChannels.channels m))
    (ConnectionChannels.max_channels m)).
Proof.
  intros [Hk Hl] Hc Hf. split; cbn.
  - intros k d. rewrite lookup_insert. case_decide; [|by apply Hk]. intros [= <-]. subst.
    rewrite Hf. by apply Hk.
  - rewrite map_size_insert_Some; [done|by eexists].
Qed.

Lemma channels_ok_update m i f : channels_ok m ->
  (forall c, ChannelState.channel_id (f c) = ChannelState.channel_id c) ->
  channels_ok (ConnectionChannels.update m i f).
Proof.
  intros Hok Hf. unfold ConnectionChannels.update, ConnectionChannels.get.
  destruct (ConnectionChannels.channels m !! i) as [c|] eqn:E; [|done].
  case_if; [done|]. by apply channels_ok_set.
Qed.

Lemma channels_ok_open c m : channels_ok m -> channels_ok (ConnectionChannels.open_with c m).2.
Proof.
  intros [Hk Hl]. unfold ConnectionChannels.open_with. case_if; [done|].
  destruct (ConnectionChannels.channels m !! _) as [e|] eqn:He; [done|]. split; cbn.
  - intros i d. rewrite lookup_insert. case_decide; [by intros [= <-]|by apply Hk].
  - rewrite map_size_insert_None by done. z_bool. lia.
Qed.

Lemma channels_ok_apply o m : channels_ok m -> channels_ok (ChannelOps.apply o m).
Proof.
  intros Hok. destruct o; cbn [ChannelOps.apply].
  1,2: by apply channels_ok_open.
  1,2: by apply channels_ok_update.
  - unfold ConnectionChannels.close_channel.
    destruct (ConnectionChannels.channels m !! _) as [c|] eqn:E; [|done].
    case_if; [done|]. by apply channels_ok_set.
  - destruct Hok as [Hk Hl]. split; cbn.
    + intros i c [? _]%map_lookup_filter_Some. by apply Hk.
    + etrans; [|exact Hl]. apply inj_le. apply map_subseteq_size, map_filter_subseteq.
Qed.
End ChannelFacts.

(** C34 (channels): whatever sequence of opens, job notifications, closes and clean-ups a
    connection performs, the open channels and the places taken are those of the contract: every open
    that finds a place and a free id takes effect, and nothing happens that the contract does not say. The
    table never exceeds its limit; an open request is refused exactly when the table, closed channels
    that were not cleaned up included, is full, and is answered with the new channel when its id is free. *)
Theorem connection_channels_refine max_channels ops o :
  0 <= max_channels ->
  let m := foldl (fun m o => ChannelOps.apply o m) (ConnectionChannels.new max_channels) ops in
  ChannelOps.abstract m = foldl (ChannelOps.spec max_channels) (ChannelOps.Contract ∅ ∅) ops /\
  channels_ok m /\ ConnectionChannels.open_count m <= max_channels /\
  forall c, ChannelOps.built o = Some c ->
    ((ConnectionChannels.open_with c m).1 = Err GatewayReason.ChannelLimitExceeded <->
     Z.of_nat (size (ConnectionChannels.channels m)) = max_channels) /\
    (Z.of_nat (size (ConnectionChannels.channels m)) <> max_channels ->
     ConnectionChannels.channels m !! ChannelState.channel_id c = None -> (ConnectionChannels.open_with c m).1 = Ok c).
Proof.
  intros Hmax. cbv zeta. set (m := foldl _ _ _).
  assert (channels_ok m /\ ConnectionChannels.max_channels m = max_channels /\
    ChannelOps.abstract m = foldl (ChannelOps.spec max_channels) (ChannelOps.Contract ∅ ∅) ops) as (Hok & Hmx & Habs).
  { unfold m. clear m. induction ops as [|o' ops IH] using rev_ind.
    - split; [split|done].
      + intros i c Hc. cbn [ConnectionChannels.new ConnectionChannels.channels foldl] in Hc.
        by rewrite lookup_empty in Hc.
      + cbn [ConnectionChannels.new ConnectionChannels.channels foldl
          ConnectionChannels.max_channels]. rewrite map_size_empty. lia.
    - rewrite !foldl_snoc. destruct IH as (IH & Hm & Ha). split_and!; [by apply channels_ok_apply|by rewrite apply_limit|].
      by rewrite apply_spec, Hm, Ha. }
  clearbody m. split_and!; [done|done| |].
  - rewrite <-Hmx. etrans; [|apply (co_limit m Hok)]. unfold ConnectionChannels.open_count, lenZ.
    apply inj_le. unfold ConnectionChannels.iter_open. etrans; [apply length_filter|].
    by rewrite length_fmap, length_map_to_list.
  - intros c _. pose proof (co_limit m Hok). unfold ConnectionChannels.open_with.
    case_if; z_bool; cbn; [split; [split; [lia|done]|lia]|].
    destruct (_ !! _); cbn; (split; [split; (done || lia)|done]).
Qed.

Lemma connection_channels_refine_witness :
  let c i := ChannelOps.Open 0 0 i [x00] "w1" None [] 0 in
  let m := foldl (fun m o => ChannelOps.apply o m) (ConnectionChannels.new 2)
             [c 1; c 2; ChannelOps.Close 1] in
  (ConnectionChannels.open_with (ChannelState.new 0 0 3 [x00] "w1" None [] 0) m).1
    = Err GatewayReason.ChannelLimitExceeded /\ ConnectionChannels.open_count m <= 2.
Proof.
  cbv zeta. pose proof (connection_channels_refine 2
    [ChannelOps.Open 0 0 1 [x00] "w1" None [] 0; ChannelOps.Open 0 0 2 [x00] "w1" None [] 0;
     ChannelOps.Close 1] (ChannelOps.Open 0 0 3 [x00] "w1" None [] 0) ltac:(lia)) as H.
  destruct H as (_ & _ & Hc & Hl). split; [|exact Hc]. apply (proj1 (Hl _ eq_refl)). by vm_compute.
Defined.

(** ** The registry counts shares *)

(** A share update: time, channel, accepted, difficulty. *)
Definition share_update : Type := Z * Z * bool * Z.

Definition updates (r : GlobalChannelRegistry.t) (l : list share_update) : GlobalChannelRegistry.t :=
  foldl (fun r '(now, i, acc, d) => GlobalChannelRegistry.update_share now i acc d r) r l.

Definition of_channel (i : Z) (u : share_update) : bool := u.1.1.2 =? i.
Definition accepted_of (i : Z) (u : share_update) : bool := of_channel i u && u.1.2.

Definition count (f : share_update -> bool) (l : list share_update) : Z :=
  lenZ (filter (fun u => f u = true) l).

Lemma count_snoc f l u : count f (l ++ [u]) = count f l + (if f u then 1 else 0).
Proof.
  unfold count. rewrite filter_app, lenZ_app. f_equal. rewrite filter_cons.
  destruct (f u); [by rewrite decide_True|by rewrite decide_False by done].
Qed.

Lemma wrapping_add_mod w a b : 0 <= w -> wrapping_add w (a mod 2 ^ w) b = (a + b) mod 2 ^ w.
Proof. intros. unfold wrapping_add. apply Z.add_mod_idemp_l. lia. Qed.

(** (registry): after a channel is registered, whatever share updates arrive for any channels,
    its counters are the numbers of submitted and of accepted shares for its own id, modulo the
    width of the counters. *)
Theorem registry_counts r now i worker peer l :
  exists e,
    updates (GlobalChannelRegistry.register (snapshot_from_open now i worker peer) r) l !! i
      = Some e /\
    ChannelSnapshot.shares_submitted e = count (of_channel i) l mod 2 ^ 64 /\
    ChannelSnapshot.shares_accepted e = count (accepted_of i) l mod 2 ^ 64.
Proof.
  unfold updates. induction l as [|[[[t k] acc] d] l IH] using rev_ind.
  - exists (snapshot_from_open now i worker peer). split_and!; [|done..].
    apply (lookup_insert_eq r i).
  - destruct IH as (e & He & Hs & Ha). rewrite foldl_snoc.
    revert He. generalize (foldl (fun r '(now, i, acc, d) => GlobalChannelRegistry.update_share now i acc d r)
      (GlobalChannelRegistry.register (snapshot_from_open now i worker peer) r) l).
    intros R He. unfold GlobalChannelRegistry.update_share.
    rewrite !count_snoc. unfold of_channel at 2, accepted_of at 2, of_channel at 2. cbn [fst snd].
    destruct (decide (k = i)) as [->|Hk].
    + rewrite He, lookup_insert_eq, Z.eqb_refl. eexists. split; [done|].
      unfold GlobalChannelRegistry.counted.
      destruct acc; cbn; rewrite Hs, Ha, ?wrapping_add_mod, ?Z.add_0_r by done; done.
    + exists e. rewrite (proj2 (Z.eqb_neq _ _)) by done. cbn. rewrite !Z.add_0_r.
      split; [|done]. destruct (_ !! k) eqn:E; [by rewrite lookup_insert_ne|done].
Qed.
