(* ===== verification/Shares.v ===== *)
(** * Share validation

    Models the share functions of [services/sv2-gateway/src/shares.rs]: share and event
    identities, signing, the proof-of-work comparison, version bits, ntime bounds, replay
    detection, the share events and the byte order helpers. (The difficulty arithmetic of the
    same file is in [Difficulty].) SHA-256, HMAC, hex and the JSON serializer are arguments. *)

From S2P Require Import Prelude Crates Float64 Protocol Reason Jobs.

(** ** Identities *)

Definition header_identity_bytes (version : Z) (prev_hash merkle_root : bytes)
    (ntime nbits nonce : Z) : bytes :=
  le_bytes 4 version ++ prev_hash ++ merkle_root ++ le_bytes 4 ntime ++ le_bytes 4 nbits
  ++ le_bytes 4 nonce.

(** The bytes hashed into an event id. *)
Definition event_preimage (share_id : bytes) (worker_id validation_level : string) : bytes :=
  let worker := String.list_byte_of_string worker_id in
  let level := String.list_byte_of_string validation_level in
  share_id ++ le_bytes 2 (lenZ worker) ++ worker ++ le_bytes 2 (lenZ level) ++ level.

Section Identity.
Context `{Sha256Crate}.

Definition compute_share_id (header_bytes : bytes) : bytes := sha256 header_bytes.

Definition compute_event_id (share_id : bytes) (worker_id validation_level : string) : bytes :=
  sha256 (event_preimage share_id worker_id validation_level).
End Identity.

(** ** Proof of work, version bits, ntime *)

Section Pow.
Context `{Sha256Crate}.

(** The comparison loop over the given indices, most significant byte first. *)
Fixpoint cmp_from (indices : list nat) (block_hash maximum_target : bytes) : bool :=
  match indices with
  | [] => true
  | i :: indices =>
      match byte_to_Z (nth i block_hash x00) ?= byte_to_Z (nth i maximum_target x00) with
      | Lt => true
      | Gt => false
      | Eq => cmp_from indices block_hash maximum_target
      end
  end.

Definition validate_share_pow (header_bytes maximum_target : bytes) : bool :=
  let block_hash := sha256d header_bytes in
  cmp_from (rev (seq 0 32)) block_hash maximum_target.
End Pow.

Definition check_version_bits (submit_version job_version : Z) : bool :=
  let signaling_mask := Z.lxor (Z.ones 32) BIP320_GP_MASK in
  Z.land submit_version signaling_mask =? Z.land job_version signaling_mask.

Definition check_ntime_bounds (ntime activation_min_ntime elapsed_since_prevhash_secs
    ntime_elapsed_slack_seconds max_future_block_time_seconds now_unix : Z) : bool :=
  if ntime <? activation_min_ntime then false
  else
    let elapsed_upper :=
      saturating_add 32 (saturating_add 32 activation_min_ntime elapsed_since_prevhash_secs)
        ntime_elapsed_slack_seconds in
    if ntime >? elapsed_upper then false
    else
      let absolute_upper := saturating_add 32 now_unix max_future_block_time_seconds in
      if ntime >? absolute_upper then false else true.

(** ** Replay detection *)

Module ShareDedupSet.
Record t : Type := mk { set : gset bytes; order : list bytes; max_entries : Z }.

Definition new (max_entries : Z) : t := mk ∅ [] max_entries.

(** The eviction loop: pop the oldest id while the set is full. *)
Fixpoint evict (set : gset bytes) (order : list bytes) (max_entries : Z)
    : gset bytes * list bytes :=
  if Z.of_nat (size set) >=? max_entries then
    match order with
    | oldest :: order => evict (set ∖ {[oldest]}) order max_entries
    | [] => (set, [])
    end
  else (set, order).

Definition check_and_insert (share_id : bytes) (s : t) : bool * t :=
  if decide (share_id ∈ set s) then (true, s)
  else
    let '(set, order) := evict (set s) (order s) (max_entries s) in
    (false, mk ({[share_id]} ∪ set) (order ++ [share_id]) (max_entries s)).

(** The answers of a sequence of calls. *)
Fixpoint run (ids : list bytes) (s : t) : list bool :=
  match ids with
  | [] => []
  | i :: ids => let '(b, s) := check_and_insert i s in b :: run ids s
  end.
End ShareDedupSet.

(** ** Submissions and events *)

Module ShareSubmission.
Record t : Type := mk {
  share_id_hex : string;
  version : Z;
  prev_hash_wire_hex : string;
  prev_hash_display_hex : string;
  merkle_root_wire_hex : string;
  merkle_root_display_hex : string;
  ntime : Z;
  nbits : Z;
  nonce : Z;
  event_id_hex : string;
  worker_id : string;
  validation_level : string;
  gateway_instance_id : string;
  channel_id : Z;
  sequence_number : Z;
  job_id : Z;
  template_id : Z;
  block_height : Z;
  pool_account_id : option string;
  timestamp_ms : Z;
  difficulty_u64 : Z;
  difficulty_display : f64;
  source_instance_id : string;
  gateway_signature_hex : string
}.

Definition with_signature (s : t) (sig : string) : t :=
  mk (share_id_hex s) (version s) (prev_hash_wire_hex s) (prev_hash_display_hex s)
    (merkle_root_wire_hex s) (merkle_root_display_hex s) (ntime s) (nbits s) (nonce s)
    (event_id_hex s) (worker_id s) (validation_level s) (gateway_instance_id s) (channel_id s)
    (sequence_number s) (job_id s) (template_id s) (block_height s) (pool_account_id s)
    (timestamp_ms s) (difficulty_u64 s) (difficulty_display s) (source_instance_id s) sig.
End ShareSubmission.

Module ShareAcceptedEvent.
Record t : Type := mk {
  event_type : string;
  share_id_hex : string;
  event_id_hex : string;
  sv2_response : string;
  reason_code : option string;
  reason_detail : option string;
  worker_id : string;
  channel_id : Z;
  sequence_number : Z;
  job_id : Z;
  block_height : Z;
  timestamp_ms : Z;
  difficulty_u64 : Z
}.

(** [reason.to_string()] is [as_str] as well: [Display] writes the code. *)
Definition sentinel `{HexCrate} (unix_ms_now : Z) (reason : GatewayReason.t)
    (channel_id sequence_number job_id : Z) : t :=
  let zero_hex := hex_encode (replicate 32 x00) in
  mk "share_accepted" zero_hex zero_hex "error" (Some (GatewayReason.as_str reason))
    (Some (GatewayReason.as_str reason)) "" channel_id sequence_number job_id 0 unix_ms_now 0.
End ShareAcceptedEvent.

Module ShareForwardResultEvent.
Record t : Type := mk {
  event_type : string;
  share_id_hex : string;
  event_id_hex : string;
  forwarded : bool;
  upstream_accepted : option bool;
  upstream_http_status : option Z;
  upstream_error : option string;
  reason_code : option string;
  timestamp_ms : Z
}.

Definition from_relay (unix_ms_now : Z) (share_id_hex event_id_hex : string) (forwarded : bool)
    (upstream_accepted : option bool) (upstream_http_status : option Z)
    (upstream_error reason_code : option string) : t :=
  mk "share_forward_result" share_id_hex event_id_hex forwarded upstream_accepted
    upstream_http_status upstream_error reason_code unix_ms_now.
End ShareForwardResultEvent.

(** ** Signing *)

(** [serde_json::to_vec] on a submission; [None] is a serialization error. *)
Class SubmissionJson : Type := { submission_to_vec : ShareSubmission.t -> option bytes }.

Section Signing.
Context `{Sha256Crate, HexCrate, HmacCrate, SubmissionJson}.

Definition compute_gateway_signature (secret event_id body_hash : bytes) : option bytes :=
  hmac_sha256 secret (event_id ++ body_hash).

Definition sign_submission (secret : bytes) (submission : ShareSubmission.t)
    : ShareSubmission.t :=
  match secret with
  | [] => submission
  | _ =>
      let submission := ShareSubmission.with_signature submission "" in
      match submission_to_vec submission with
      | None => submission
      | Some canonical_json =>
          let body_hash := sha256 canonical_json in
          let event_id :=
            match hex_decode (ShareSubmission.event_id_hex submission) with
            | Ok decoded => if (length decoded =? 32)%nat then decoded else replicate 32 x00
            | Err _ => replicate 32 x00
            end in
          ShareSubmission.with_signature submission
            (match compute_gateway_signature secret event_id body_hash with
             | Some sig => hex_encode sig
             | None => "" end)
      end
  end.
End Signing.

(** ** Byte order *)

Section ByteOrder.
Context `{HexCrate}.

Definition wire_bytes_to_display_hex (wire : bytes) : string := hex_encode (reverse wire).
Definition wire_bytes_to_wire_hex (wire : bytes) : string := hex_encode wire.

(** Error texts are reduced to their kind. *)
Inductive HexError : Type := InvalidHex (e : string) | WrongLength (got : Z).

Definition display_hex_to_wire_bytes (hex_str : string) : result bytes HexError :=
  let? b := map_err InvalidHex (hex_decode hex_str) in
  if negb (length b =? 32)%nat then Err (WrongLength (lenZ b)) else Ok (reverse b).
End ByteOrder.

(** * Properties *)

(** ** Identities determine their inputs *)

Lemma le_bytes_inj n a b : 0 <= a < 256 ^ Z.of_nat n -> 0 <= b < 256 ^ Z.of_nat n ->
  le_bytes n a = le_bytes n b -> a = b.
Proof.
  intros Ha Hb E. apply (f_equal from_le_bytes) in E. rewrite !from_to_le_bytes in E.
  by rewrite !Z.mod_small in E.
Qed.

Lemma app_inj_len {A} (a b c d : list A) : length a = length c -> a ++ b = c ++ d -> a = c /\ b = d.
Proof. intros. by apply app_inj_1. Qed.

(** The fields of a header that fit their slots. *)
Definition header_fields_ok (version : Z) (prev_hash merkle_root : bytes) (ntime nbits nonce : Z)
    : Prop :=
  in_u 32 version /\ length prev_hash = 32%nat /\ length merkle_root = 32%nat /\
  in_u 32 ntime /\ in_u 32 nbits /\ in_u 32 nonce.

(** Peel one field of known length off both sides of an equation of concatenations. *)
Ltac peel H :=
  apply app_inj_len in H as [? H]; [|by rewrite ?length_le_bytes; congruence].

(** (share identity): the header of a share has 80 bytes and determines version, previous
    hash, merkle root, time, bits and nonce: two shares with the same header bytes are the same
    proof of work. *)
Theorem header_identity_injective v p m t b n v' p' m' t' b' n' :
  header_fields_ok v p m t b n -> header_fields_ok v' p' m' t' b' n' ->
  length (header_identity_bytes v p m t b n) = 80%nat /\
  (header_identity_bytes v p m t b n = header_identity_bytes v' p' m' t' b' n' ->
   v = v' /\ p = p' /\ m = m' /\ t = t' /\ b = b' /\ n = n').
Proof.
  intros (Hv & Hp & Hm & Ht & Hb & Hn) (Hv' & Hp' & Hm' & Ht' & Hb' & Hn').
  unfold header_identity_bytes. split.
  - by rewrite !length_app, !length_le_bytes, Hp, Hm.
  - intros E. do 5 peel E. unfold in_u in *. split_and!; try done; by apply (le_bytes_inj 4).
Qed.

Lemma header_identity_injective_witness :
  length (header_identity_bytes 0x20000000 (replicate 32 xaa) (replicate 32 xbb) 1700000000
            0x1703ffff 42) = 80%nat.
Proof.
  assert (header_fields_ok 0x20000000 (replicate 32 xaa) (replicate 32 xbb) 1700000000
            0x1703ffff 42) as H by (vm_compute; intuition congruence).
  exact (proj1 (header_identity_injective _ _ _ _ _ _ _ _ _ _ _ _ H H)).
Defined.

Lemma list_byte_of_string_inj s t :
  String.list_byte_of_string s = String.list_byte_of_string t -> s = t.
Proof.
  intros E. rewrite <-(String.string_of_list_byte_of_string s), E.
  apply String.string_of_list_byte_of_string.
Qed.

(** The length fields of an event id are two bytes wide. *)
Definition id_text_ok (s : string) : Prop := lenZ (String.list_byte_of_string s) < 2 ^ 16.

(** (event identity): what is hashed into an event id determines the share, the worker and
    the validation level, for texts shorter than [2^16] bytes: no two attributions of shares
    feed the hash the same bytes. *)
Theorem event_preimage_injective sid sid' w w' l l' :
  length sid = 32%nat -> length sid' = 32%nat ->
  id_text_ok w -> id_text_ok w' -> id_text_ok l -> id_text_ok l' ->
  event_preimage sid w l = event_preimage sid' w' l' -> sid = sid' /\ w = w' /\ l = l'.
Proof.
  unfold event_preimage, id_text_ok. intros Hs Hs' Hw Hw' Hl Hl' E.
  assert (forall a b : bytes, lenZ a < 2 ^ 16 -> lenZ b < 2 ^ 16 ->
    le_bytes 2 (lenZ a) = le_bytes 2 (lenZ b) -> length a = length b) as Hlen.
  { intros a b Ha Hb Hab. apply le_bytes_inj in Hab; unfold lenZ in *; lia. }
  do 2 peel E. apply app_inj_len in E as [Ew E]; [|by apply Hlen]. peel E.
  split_and!; [done|by apply list_byte_of_string_inj..].
Qed.

Lemma event_preimage_injective_witness :
  let sid := replicate 32 xaa in
  event_preimage sid "worker1" "full" = event_preimage sid "worker1" "full" /\
  "worker1"%string = "worker1"%string.
Proof.
  cbv zeta. split; [reflexivity|].
  refine (proj1 (proj2 (event_preimage_injective (replicate 32 xaa) (replicate 32 xaa) "worker1"
    "worker1" "full" "full" eq_refl eq_refl _ _ _ _ eq_refl))); by vm_compute.
Defined.

(** ** The proof-of-work comparison is the integer comparison *)

Lemma from_le_bytes_take_S n l : (n < length l)%nat ->
  from_le_bytes (take (S n) l)
  = from_le_bytes (take n l) + 256 ^ Z.of_nat n * byte_to_Z (nth n l x00).
Proof.
  intros Hn. destruct (lookup_lt_is_Some_2 l n Hn) as [x Hx].
  rewrite (take_S_r l n x Hx), from_le_bytes_app, length_take, Nat.min_l by lia.
  rewrite (nth_lookup_Some l n x00 x Hx). cbn [from_le_bytes]. lia.
Qed.

Lemma cmp_from_spec a b n : (n <= length a)%nat -> (n <= length b)%nat ->
  cmp_from (rev (seq 0 n)) a b = (from_le_bytes (take n a) <=? from_le_bytes (take n b)).
Proof.
  induction n as [|n IH]; intros Ha Hb; [done|].
  rewrite seq_S, rev_app_distr. cbn [rev app cmp_from Nat.add].
  rewrite !from_le_bytes_take_S by lia.
  pose proof (from_le_bytes_range (take n a)) as Ra. pose proof (from_le_bytes_range (take n b)) as Rb.
  rewrite !length_take, !Nat.min_l in Ra, Rb by lia.
  destruct (Z.compare_spec (byte_to_Z (nth n a x00)) (byte_to_Z (nth n b x00))) as [E|E|E].
  - rewrite IH, E by lia. apply eq_true_iff_eq. rewrite !Z.leb_le. lia.
  - symmetry. apply Z.leb_le. nia.
  - symmetry. apply Z.leb_gt. nia.
Qed.

Section PowFacts.
Context `{Sha256Laws}.

(** C38 (proof of work): a share passes exactly when its double SHA-256, read as a 256-bit
    little-endian integer, is at most the channel's target. *)
Theorem validate_share_pow_spec header target :
  length target = 32%nat ->
  validate_share_pow header target = true <->
  from_le_bytes (sha256d header) <= from_le_bytes target.
Proof.
  intros Ht. unfold validate_share_pow. cbv zeta.
  assert (length (sha256d header) = 32%nat) as Hh by apply sha256_length.
  rewrite cmp_from_spec by lia. rewrite !take_ge by lia. apply Z.leb_le.
Qed.
End PowFacts.

Lemma validate_share_pow_witness :
  @validate_share_pow Sha256Sample.crate (replicate 80 x01) (replicate 32 x02) = true.
Proof.
  apply (@validate_share_pow_spec Sha256Sample.crate Sha256Sample.sha256_laws); [reflexivity|].
  by vm_compute.
Defined.

(** ** Version bits and ntime *)

(** (BIP 320): a submitted version passes exactly when it agrees with the job's version on
    every bit outside 13 to 28. *)
Theorem check_version_bits_spec v j :
  check_version_bits v j = true <->
  forall i, 0 <= i < 32 -> i < 13 \/ 28 < i -> Z.testbit v i = Z.testbit j i.
Proof.
  unfold check_version_bits. cbv zeta. rewrite Z.eqb_eq.
  change (Z.lxor (Z.ones 32) BIP320_GP_MASK) with 0xe0001fff.
  assert (forall i, 0 <= i -> Z.testbit 0xe0001fff i = bool_decide (i < 32 /\ (i < 13 \/ 28 < i)))
    as Hmask.
  { intros i Hi. destruct (decide (i < 32)) as [Hl|Hl].
    - assert (Forall (fun i => Z.testbit 0xe0001fff i = bool_decide (i < 32 /\ (i < 13 \/ 28 < i)))
        (Z.of_nat <$> seq 0 32)) as Hall by (vm_compute; repeat constructor).
      rewrite Forall_forall in Hall. apply Hall. apply list_elem_of_fmap.
      exists (Z.to_nat i). split; [lia|]. apply elem_of_seq. lia.
    - rewrite bool_decide_eq_false_2 by lia. apply Z.bits_above_log2; [lia|].
      change (Z.log2 0xe0001fff) with 31. lia. }
  split.
  - intros E i Hi Ho. apply (f_equal (fun z => Z.testbit z i)) in E.
    rewrite !Z.land_spec, Hmask, bool_decide_eq_true_2, !andb_true_r in E by lia. done.
  - intros E. apply Z.bits_inj'. intros i Hi. rewrite !Z.land_spec, Hmask by lia.
    case_bool_decide as Hd; [|by rewrite !andb_false_r]. rewrite (E i); [done|lia..].
Qed.

(** (ntime): for 32-bit values the saturating bounds are the unbounded ones: a time passes
    exactly when it lies between the activation minimum and both the elapsed-time limit and the
    absolute limit. *)
Theorem check_ntime_bounds_spec ntime act elapsed slack future now :
  in_u 32 ntime -> in_u 32 act -> in_u 32 elapsed -> in_u 32 slack -> in_u 32 future ->
  in_u 32 now ->
  check_ntime_bounds ntime act elapsed slack future now = true <->
  act <= ntime <= act + elapsed + slack /\ ntime <= now + future.
Proof.
  unfold in_u, check_ntime_bounds, saturating_add. intros.
  repeat case_if; z_bool; split; (lia || done).
Qed.

Lemma check_ntime_bounds_witness :
  check_ntime_bounds 1700000010 1700000000 5 10 7200 1700000005 = true.
Proof. by apply check_ntime_bounds_spec; unfold in_u; lia. Defined.

(** ** Replay detection is a sliding window over the accepted shares *)

Module DedupSpec.
(** The last [n] elements. *)
Definition lastn {A} (n : nat) (l : list A) : list A := drop (length l - n) l.

(** Reference machine: [accepted] holds every id answered [false] so far; an id is a replay when
    it is among the last [n] of them. *)
Fixpoint run (n : nat) (accepted ids : list bytes) : list bool :=
  match ids with
  | [] => []
  | i :: ids =>
      if decide (i ∈ lastn n accepted) then true :: run n accepted ids
      else false :: run n (accepted ++ [i]) ids
  end.
End DedupSpec.

Lemma evict_spec max order : NoDup order ->
  ShareDedupSet.evict (list_to_set order) order max
  = let o := drop (length order + 1 - Nat.max 1 (Z.to_nat max)) order in (list_to_set o, o).
Proof.
  induction order as [|x order IH]; intros Hnd; cbv zeta.
  - cbn. case_if; by rewrite drop_nil.
  - cbn [ShareDedupSet.evict]. rewrite size_list_to_set by done.
    apply NoDup_cons in Hnd as [Hx Hnd]. case_if; z_bool.
    + replace ((list_to_set (x :: order) : gset bytes) ∖ {[x]}) with (list_to_set order : gset bytes)
        by set_solver.
      rewrite IH by done. cbv zeta. cbn [length] in *.
      replace (S (length order) + 1 - Nat.max 1 (Z.to_nat max))%nat
        with (S (length order + 1 - Nat.max 1 (Z.to_nat max))) by lia. done.
    + cbn [length] in *. replace (S (length order) + 1 - _)%nat with O by lia. done.
Qed.

Lemma lastn_snoc {A} n (l : list A) x : (1 <= n)%nat ->
  DedupSpec.lastn n (l ++ [x])
  = drop (length (DedupSpec.lastn n l) + 1 - n) (DedupSpec.lastn n l) ++ [x].
Proof.
  intros Hn. unfold DedupSpec.lastn. rewrite length_app, length_drop. cbn [length].
  rewrite drop_drop, drop_app_le by lia. do 2 f_equal. lia.
Qed.

Lemma lastn_NoDup_snoc {A} n (l : list A) x : (1 <= n)%nat ->
  NoDup (DedupSpec.lastn n l) -> x ∉ DedupSpec.lastn n l -> NoDup (DedupSpec.lastn n (l ++ [x])).
Proof.
  intros Hn Hd Hx. rewrite lastn_snoc by done. set (o := DedupSpec.lastn n l) in *.
  set (k := (length o + 1 - n)%nat). apply NoDup_app. split_and!.
  - rewrite <-(take_drop k o) in Hd. by apply NoDup_app in Hd as (_ & _ & ?).
  - intros y Hy ->%list_elem_of_singleton. apply Hx.
    rewrite <-(take_drop k o). apply elem_of_app. by right.
  - apply NoDup_singleton.
Qed.

Lemma dedup_run_spec max ids : forall accepted,
  let n := Nat.max 1 (Z.to_nat max) in
  NoDup (DedupSpec.lastn n accepted) ->
  ShareDedupSet.run ids (ShareDedupSet.mk (list_to_set (DedupSpec.lastn n accepted))
    (DedupSpec.lastn n accepted) max)
  = DedupSpec.run n accepted ids.
Proof.
  induction ids as [|i ids IH]; intros accepted n Hnd; [done|].
  cbn [ShareDedupSet.run DedupSpec.run]. unfold ShareDedupSet.check_and_insert.
  cbn [ShareDedupSet.set ShareDedupSet.order ShareDedupSet.max_entries].
  case_decide as Hin; rewrite elem_of_list_to_set in Hin; case_decide; try done.
  - f_equal. by apply IH.
  - rewrite evict_spec by done. cbv zeta. fold n. f_equal.
    specialize (IH (accepted ++ [i])). cbv zeta in IH. fold n in IH. rewrite <-IH.
    + f_equal. rewrite lastn_snoc by lia. f_equal. set_solver.
    + by apply lastn_NoDup_snoc; [lia|..].
Qed.

(** (replay): over any sequence of share ids, a share is reported as a replay exactly when its
    id is among the last [max_entries] (at least one) accepted ones: the set and the queue never
    drift apart. *)
Theorem share_dedup_window max_entries ids :
  ShareDedupSet.run ids (ShareDedupSet.new max_entries)
  = DedupSpec.run (Nat.max 1 (Z.to_nat max_entries)) [] ids.
Proof. apply (dedup_run_spec max_entries ids []). constructor. Qed.

(** ** Signing *)

Section SigningFacts.
Context `{Sha256Crate, HexLaws, HmacCrate, SubmissionJson}.

(** (signature): signing changes nothing but the signature; with no secret it changes
    nothing; otherwise the signature is that of the event id followed by the hash of the body
    with its signature blank, so that signing twice is signing once, and recomputing it from the
    signed submission gives the same value. *)
Theorem sign_submission_spec secret sub event_id :
  ShareSubmission.event_id_hex sub = hex_encode event_id -> length event_id = 32%nat ->
  let signed := sign_submission secret sub in
  ShareSubmission.with_signature signed (ShareSubmission.gateway_signature_hex sub) = sub /\
  sign_submission secret signed = signed /\
  (secret = [] -> signed = sub) /\
  (forall json sig, secret <> [] ->
     submission_to_vec (ShareSubmission.with_signature signed "") = Some json ->
     hmac_sha256 secret (event_id ++ sha256 json) = Some sig ->
     ShareSubmission.gateway_signature_hex signed = hex_encode sig).
Proof.
  intros He Hl. cbv zeta. unfold sign_submission, compute_gateway_signature.
  destruct secret as [|k secret]; [split_and!; try done; by destruct sub|].
  set (blank := ShareSubmission.with_signature sub "").
  assert (forall s, ShareSubmission.with_signature (ShareSubmission.with_signature blank s) "" = blank)
    as Hb by (by intros).
  destruct (submission_to_vec blank) as [json|] eqn:Ej.
  - change (ShareSubmission.event_id_hex blank) with (ShareSubmission.event_id_hex sub).
    rewrite He, hex_decode_encode, Hl, Nat.eqb_refl. rewrite !Hb, Ej.
    change (ShareSubmission.event_id_hex blank) with (ShareSubmission.event_id_hex sub).
    rewrite He, hex_decode_encode, Hl, Nat.eqb_refl. split_and!; [by destruct sub|done|done|].
    intros json' sig _ [= <-] Hs. by rewrite Hs.
  - change (ShareSubmission.with_signature blank "") with blank. rewrite Ej.
    split_and!; [by destruct sub|done|done|]. intros json' sig _ Hj. congruence.
Qed.

(** (byte order): display hex converts back to the wire bytes it was made from. *)
Theorem display_hex_round_trip wire :
  length wire = 32%nat -> display_hex_to_wire_bytes (wire_bytes_to_display_hex wire) = Ok wire.
Proof.
  intros Hw. unfold display_hex_to_wire_bytes, wire_bytes_to_display_hex.
  rewrite hex_decode_encode. cbn [map_err result_bind].
  rewrite length_reverse, Hw. cbn. by rewrite reverse_involutive.
Qed.
End SigningFacts.

(** Concrete arguments for the witnesses. *)
Module ShareSample.
#[export] Instance sha : Sha256Crate := Sha256Sample.crate.
#[export] Instance hex : HexCrate := HexSample.crate.
#[export] Instance hmac : HmacCrate := HmacSample.crate.
#[export] Instance json : SubmissionJson :=
  {| submission_to_vec s :=
       Some (String.list_byte_of_string (ShareSubmission.worker_id s)
             ++ String.list_byte_of_string (ShareSubmission.gateway_signature_hex s)) |}.

Definition submission : ShareSubmission.t :=
  ShareSubmission.mk "" 0x20000000 "" "" "" "" 1700000000 0x1d00ffff 42
    (hex_encode (replicate 32 xbb)) "worker1" "full" "gw-1" 1 0 1 100 800000 None 1700000000000 1
    f64_one "src-1" "".

Lemma sign_submission_witness :
  sign_submission [x01] (sign_submission [x01] submission) = sign_submission [x01] submission /\
  ShareSubmission.gateway_signature_hex (sign_submission [x01] submission) <> ""%string.
Proof.
  split; [|by vm_compute].
  exact (proj1 (proj2 (@sign_submission_spec sha hex HexSample.hex_laws hmac json [x01] submission
    (replicate 32 xbb) eq_refl eq_refl))).
Defined.

Lemma display_hex_witness :
  display_hex_to_wire_bytes (wire_bytes_to_display_hex (replicate 32 x1f)) = Ok (replicate 32 x1f).
Proof. exact (@display_hex_round_trip hex HexSample.hex_laws (replicate 32 x1f) eq_refl). Defined.
End ShareSample.
