(* ===== verification/Handler.v ===== *)
(** * The connection handler

    Models [services/sv2-gateway/src/handler.rs]: the SV2 session of one miner connection. A
    handler is a function in a state monad with early exit and panic; the state holds what the
    handler mutates (channels, dedup set, queues, allocators, registry, metrics) and the frames
    it writes. What it reads from outside one call (configuration, job table, latest job, clock
    readings) is an argument; the outcome of each transport write is part of the state, so that
    failing writes are covered. Log lines are left out. *)

From S2P Require Import Prelude Crates Float64 Reason Codec Difficulty Jobs Channels Shares.

(** ** Messages on the wire *)

Definition MESSAGE_TYPE_SETUP_CONNECTION : Z := 0x00.
Definition MESSAGE_TYPE_SETUP_CONNECTION_SUCCESS : Z := 0x01.
Definition MESSAGE_TYPE_SETUP_CONNECTION_ERROR : Z := 0x02.
Definition MESSAGE_TYPE_OPEN_STANDARD_MINING_CHANNEL : Z := 0x10.
Definition MESSAGE_TYPE_OPEN_STANDARD_MINING_CHANNEL_SUCCESS : Z := 0x11.
Definition MESSAGE_TYPE_OPEN_MINING_CHANNEL_ERROR : Z := 0x12.
Definition MESSAGE_TYPE_OPEN_EXTENDED_MINING_CHANNEL : Z := 0x13.
Definition MESSAGE_TYPE_OPEN_EXTENDED_MINING_CHANNEL_SUCCESS : Z := 0x14.
Definition MESSAGE_TYPE_NEW_MINING_JOB : Z := 0x15.
Definition MESSAGE_TYPE_CLOSE_CHANNEL : Z := 0x18.
Definition MESSAGE_TYPE_SUBMIT_SHARES_STANDARD : Z := 0x1a.
Definition MESSAGE_TYPE_SUBMIT_SHARES_EXTENDED : Z := 0x1b.
Definition MESSAGE_TYPE_SUBMIT_SHARES_SUCCESS : Z := 0x1c.
Definition MESSAGE_TYPE_SUBMIT_SHARES_ERROR : Z := 0x1d.
Definition MESSAGE_TYPE_NEW_EXTENDED_MINING_JOB : Z := 0x1f.
Definition MESSAGE_TYPE_MINING_SET_NEW_PREV_HASH : Z := 0x20.
Definition MESSAGE_TYPE_SET_TARGET : Z := 0x21.

Record frame : Type := mk_frame { extension_type : Z; msg_type : Z; payload : bytes }.

(** ** Broadcasts, configuration, exits *)

Module PrevhashUpdate.
Record t : Type := mk { prev_hash : bytes; min_ntime : Z; nbits : Z }.
End PrevhashUpdate.

Module JobBroadcast.
Record t : Type := mk {
  job_id : Z;
  version : Z;
  coinbase_tx_prefix : bytes;
  coinbase_tx_suffix : bytes;
  merkle_path : list bytes;
  prevhash_update : option PrevhashUpdate.t;
  min_ntime : option Z
}.
End JobBroadcast.

Module HandlerConfig.
Record t : Type := mk {
  max_channels_per_conn : Z;
  channel_target : bytes;
  channel_open_timeout : Z;
  ntime_elapsed_slack_seconds : Z;
  max_future_block_time_seconds : Z;
  share_dedup_window_size : Z;
  max_shares_per_second_per_channel : Z;
  gateway_instance_id : string;
  share_hmac_secret : bytes;
  extended_channels_enabled : bool;
  extranonce_prefix_len : nat;
  vardiff_enabled : bool;
  vardiff_target_shares_per_min : f64;
  vardiff_retarget_interval : Z;
  vardiff_min_difficulty : Z;
  vardiff_max_difficulty : Z;
  vardiff_max_adjustment_factor : f64
}.
End HandlerConfig.

(** Why a peer was turned away; the source carries a formatted text. *)
Inductive SetupReason : Type :=
| UnsupportedExtension (ext : Z)
| ExpectedSetup (got : Z)
| NotMiningProtocol (protocol : Z)
| VersionRange (min_version max_version : Z)
| ChannelIdsExhausted
| ExtranoncesExhausted
| RegistrationFailed (reason : GatewayReason.t)
| MinExtranonceSize
| ExtendedUnsupported.

(** A transport error is whatever the transport reports. *)
Inductive HandlerExit : Type :=
| SetupRejected (r : SetupReason)
| TransportError (e : string)
| Shutdown
| ChannelOpenTimeout
| CodecError (e : Sv2CodecError).

Definition as_gateway_reason (e : HandlerExit) : GatewayReason.t :=
  match e with
  | SetupRejected _ => GatewayReason.SetupConnectionRejected
  | TransportError _ => GatewayReason.PeerTransportError
  | Shutdown => GatewayReason.ShutdownDrain
  | ChannelOpenTimeout => GatewayReason.ChannelOpenTimeout
  | CodecError _ => GatewayReason.FrameDecodeError
  end.

Inductive FrameAction : Type := Continue | Disconnect (e : HandlerExit).

(** ** Bounded queues ([tokio::sync::mpsc]) *)

Record queue (A : Type) : Type := mk_queue { items : list A; capacity : Z; closed : bool }.
Arguments mk_queue {A} _ _ _.
Arguments items {A} _.
Arguments capacity {A} _.
Arguments closed {A} _.

Definition has_room {A} (q : queue A) : bool := negb (closed q) && (lenZ (items q) <? capacity q).

(** [try_send]: [None] when the queue is full or its receiver is gone. *)
Definition try_send {A} (q : queue A) (a : A) : option (queue A) :=
  if has_room q then Some (mk_queue (items q ++ [a]) (capacity q) (closed q)) else None.

(** ** The state of a connection *)

Module Conn.
Record t : Type := mk {
  sent : list frame;
  (** Outcome of the writes to come: [None] or the end of the list is success. *)
  write_outcomes : list (option string);
  channels : ConnectionChannels.t;
  share_dedup : ShareDedupSet.t;
  share_event_tx : queue ShareAcceptedEvent.t;
  share_forward_tx : queue ShareSubmission.t;
  share_events_dropped : Z;
  share_forward_queue_full : Z;
  retarget_up : Z;
  retarget_down : Z;
  frames_decoded : Z;
  last_frame_at : Z;
  channel_id_alloc : IdAllocator.t;
  extranonce_alloc : ExtranonceAllocator.t;
  channel_registry : GlobalChannelRegistry.t;
  opened_ids : list Z
}.

Definition set_io (s : t) x w : t :=
  mk x w (channels s) (share_dedup s) (share_event_tx s) (share_forward_tx s)
    (share_events_dropped s) (share_forward_queue_full s) (retarget_up s) (retarget_down s)
    (frames_decoded s) (last_frame_at s) (channel_id_alloc s) (extranonce_alloc s)
    (channel_registry s) (opened_ids s).
Definition set_channels (s : t) x : t :=
  mk (sent s) (write_outcomes s) x (share_dedup s) (share_event_tx s) (share_forward_tx s)
    (share_events_dropped s) (share_forward_queue_full s) (retarget_up s) (retarget_down s)
    (frames_decoded s) (last_frame_at s) (channel_id_alloc s) (extranonce_alloc s)
    (channel_registry s) (opened_ids s).
Definition set_dedup (s : t) x : t :=
  mk (sent s) (write_outcomes s) (channels s) x (share_event_tx s) (share_forward_tx s)
    (share_events_dropped s) (share_forward_queue_full s) (retarget_up s) (retarget_down s)
    (frames_decoded s) (last_frame_at s) (channel_id_alloc s) (extranonce_alloc s)
    (channel_registry s) (opened_ids s).
Definition set_events (s : t) x dropped : t :=
  mk (sent s) (write_outcomes s) (channels s) (share_dedup s) x (share_forward_tx s)
    dropped (share_forward_queue_full s) (retarget_up s) (retarget_down s)
    (frames_decoded s) (last_frame_at s) (channel_id_alloc s) (extranonce_alloc s)
    (channel_registry s) (opened_ids s).
Definition set_forward (s : t) x full : t :=
  mk (sent s) (write_outcomes s) (channels s) (share_dedup s) (share_event_tx s) x
    (share_events_dropped s) full (retarget_up s) (retarget_down s)
    (frames_decoded s) (last_frame_at s) (channel_id_alloc s) (extranonce_alloc s)
    (channel_registry s) (opened_ids s).
Definition set_retargets (s : t) up down : t :=
  mk (sent s) (write_outcomes s) (channels s) (share_dedup s) (share_event_tx s)
    (share_forward_tx s) (share_events_dropped s) (share_forward_queue_full s) up down
    (frames_decoded s) (last_frame_at s) (channel_id_alloc s) (extranonce_alloc s)
    (channel_registry s) (opened_ids s).
Definition set_decoded (s : t) n at_ : t :=
  mk (sent s) (write_outcomes s) (channels s) (share_dedup s) (share_event_tx s)
    (share_forward_tx s) (share_events_dropped s) (share_forward_queue_full s) (retarget_up s)
    (retarget_down s) n at_ (channel_id_alloc s) (extranonce_alloc s)
    (channel_registry s) (opened_ids s).
Definition set_allocators (s : t) c e : t :=
  mk (sent s) (write_outcomes s) (channels s) (share_dedup s) (share_event_tx s)
    (share_forward_tx s) (share_events_dropped s) (share_forward_queue_full s) (retarget_up s)
    (retarget_down s) (frames_decoded s) (last_frame_at s) c e (channel_registry s)
    (opened_ids s).
Definition set_registry (s : t) r ids : t :=
  mk (sent s) (write_outcomes s) (channels s) (share_dedup s) (share_event_tx s)
    (share_forward_tx s) (share_events_dropped s) (share_forward_queue_full s) (retarget_up s)
    (retarget_down s) (frames_decoded s) (last_frame_at s) (channel_id_alloc s)
    (extranonce_alloc s) r ids.
End Conn.

(** ** The handler monad *)

Inductive flow (A : Type) : Type :=
| Ret (a : A)
| Exit (e : HandlerExit)
| Panics.
Arguments Ret {A} _.
Arguments Exit {A} _.
Arguments Panics {A}.

Definition M (A : Type) : Type := Conn.t -> flow A * Conn.t.

Definition mret {A} (a : A) : M A := fun s => (Ret a, s).
Definition mexit {A} (e : HandlerExit) : M A := fun s => (Exit e, s).
Definition mpanic {A} : M A := fun s => (Panics, s).
Definition mbind {A B} (m : M A) (k : A -> M B) : M B :=
  fun s => match m s with
           | (Ret a, s) => k a s
           | (Exit e, s) => (Exit e, s)
           | (Panics, s) => (Panics, s)
           end.
Definition mget : M Conn.t := fun s => (Ret s, s).
Definition mput (s : Conn.t) : M unit := fun _ => (Ret tt, s).
Definition mmodify (f : Conn.t -> Conn.t) : M unit := fun s => (Ret tt, f s).

Notation "'let!' x ':=' m 'in' k" := (mbind m (fun x => k))
  (at level 10, x name, m at level 100, k at level 200) : rust_scope.
Notation "m ';;!' k" := (mbind m (fun _ => k)) (at level 100, right associativity) : rust_scope.

(** [transport.write_frame]. *)
Definition write_frame (extension_type msg_type : Z) (payload : bytes) : M (result unit string) :=
  fun s =>
    match Conn.write_outcomes s with
    | Some e :: rest => (Ret (Err e), Conn.set_io s (Conn.sent s) rest)
    | _ => (Ret (Ok tt), Conn.set_io s (Conn.sent s ++ [mk_frame extension_type msg_type payload])
                           (tail (Conn.write_outcomes s)))
    end.

(** [write_frame(..).map_err(HandlerExit::TransportError)?]. *)
Definition write_or_exit (ext ty : Z) (payload : bytes) : M unit :=
  let! r := write_frame ext ty payload in
  match r with Ok _ => mret tt | Err e => mexit (TransportError e) end.

(** [encode().map_err(HandlerExit::CodecError)?]. *)
Definition encode_or_exit (r : result bytes Sv2CodecError) : M bytes :=
  match r with Ok p => mret p | Err e => mexit (CodecError e) end.

(** Encode and write; both failures end the connection. *)
Definition send_or_exit (ext ty : Z) (r : result bytes Sv2CodecError) : M unit :=
  let! p := encode_or_exit r in write_or_exit ext ty p.

(** The best-effort pattern [if let Ok(p) = encode() && let Err(_) = write { log }]. *)
Definition send_best_effort (ext ty : Z) (r : result bytes Sv2CodecError) : M unit :=
  match r with
  | Ok p => write_frame ext ty p ;;! mret tt
  | Err _ => mret tt
  end.

Definition inc (n : Z) : Z := wrapping_add 64 n 1.

(** ** Clock readings of one handler call *)

Module Clock.
Record t : Type := mk {
  rate_now : Z;               (** [Instant] read by the rate limiter *)
  monotonic_ms : Z;           (** read by [elapsed_since_prevhash_secs] and [record_prevhash_sent] *)
  unix_secs : Z;              (** [current_unix_timestamp] *)
  submission_unix_ms : Z;     (** [unix_ms_now] of the submission *)
  event_unix_ms : Z;          (** [unix_ms_now] of the event *)
  frame_now : Z;              (** [Instant] of [record_frame_decoded] *)
  vardiff_record : Z;         (** the three [Instant]s of a retarget *)
  vardiff_eval : Z;
  vardiff_reset : Z;
  opened_at : Z;              (** [Instant]s and wall clock of a channel open *)
  limiter_start : Z;
  vardiff_start : Z;
  open_unix_ms : Z
}.
End Clock.

Section Handlers.
Context `{Sha256Crate, HexCrate, HmacCrate, SubmissionJson}.

(** ** Share submission *)

Definition send_share_error (channel_id sequence_number : Z) (reason : GatewayReason.t) : M unit :=
  match GatewayReason.to_sv2_error_code reason with
  | None => mpanic
  | Some code =>
      send_or_exit 0x8000 MESSAGE_TYPE_SUBMIT_SHARES_ERROR
        (SubmitSharesError.encode (SubmitSharesError.mk channel_id sequence_number code))
  end.

Definition enqueue_share_event (evt : ShareAcceptedEvent.t) : M unit :=
  mmodify (fun s =>
    match try_send (Conn.share_event_tx s) evt with
    | Some q => Conn.set_events s q (Conn.share_events_dropped s)
    | None => Conn.set_events s (Conn.share_event_tx s) (inc (Conn.share_events_dropped s))
    end).

(** What both share messages carry. *)
Record share : Type := mk_share {
  channel_id : Z; sequence_number : Z; job_id : Z; nonce : Z; ntime : Z; version : Z }.

(** A structural rejection: sentinel event, then the error response. *)
Definition reject_sentinel (clk : Clock.t) (sh : share) (reason : GatewayReason.t) : M unit :=
  enqueue_share_event
    (ShareAcceptedEvent.sentinel (Clock.event_unix_ms clk) reason (channel_id sh)
       (sequence_number sh) (job_id sh)) ;;!
  send_share_error (channel_id sh) (sequence_number sh) reason.

(** A rejection of a share whose identity is known. *)
Definition reject_identified (clk : Clock.t) (sh : share) (block_height : Z) (worker_id : string)
    (share_id event_id : bytes) (reason : GatewayReason.t) : M unit :=
  enqueue_share_event
    (ShareAcceptedEvent.mk "share_accepted" (hex_encode share_id) (hex_encode event_id) "error"
       (Some (GatewayReason.as_str reason)) (Some (GatewayReason.as_str reason)) worker_id
       (channel_id sh) (sequence_number sh) (job_id sh) block_height (Clock.event_unix_ms clk) 0) ;;!
  send_share_error (channel_id sh) (sequence_number sh) reason.

(** Steps 0 and 0.5: the channel must be open and within its rate. [None] means the share has
    been answered. *)
Definition admit_share (clk : Clock.t) (sh : share) : M (option ChannelState.t) :=
  let! s := mget in
  match ConnectionChannels.get (Conn.channels s) (channel_id sh) with
  | None => reject_sentinel clk sh GatewayReason.InvalidChannelId ;;! mret None
  | Some ch =>
      let '(allowed, limiter) :=
        ShareRateLimiter.try_acquire (Clock.rate_now clk) (ChannelState.rate_limiter ch) in
      mmodify (fun s => Conn.set_channels s (ConnectionChannels.update (Conn.channels s)
        (channel_id sh) (ChannelState.set_rate_limiter limiter))) ;;!
      if negb allowed then reject_sentinel clk sh GatewayReason.ShareRateLimited ;;! mret None
      else
        let! s := mget in
        match ConnectionChannels.get (Conn.channels s) (channel_id sh) with
        | None =>
            send_share_error (channel_id sh) (sequence_number sh) GatewayReason.InvalidChannelId ;;!
            mret None
        | Some ch => mret (Some ch)
        end
  end.

Definition maybe_retarget (clk : Clock.t) (cid : Z) : M unit :=
  let! s := mget in
  match ConnectionChannels.get (Conn.channels s) cid with
  | None => mret tt
  | Some ch =>
      match ChannelState.vardiff ch with
      | None => mret tt
      | Some vd =>
          let old_diff := VardiffState.current_difficulty vd in
          let '(due, vd) := VardiffState.record_share (Clock.vardiff_record clk) vd in
          let store target v :=
            mmodify (fun s => Conn.set_channels s (ConnectionChannels.update (Conn.channels s) cid
              (ChannelState.set_vardiff target (Some v)))) in
          if negb due then store (ChannelState.maximum_target ch) vd
          else
            let '(new_diff, vd) :=
              VardiffState.evaluate_retarget (Clock.vardiff_eval clk) (Clock.vardiff_reset clk) vd in
            match new_diff with
            | None => store (ChannelState.maximum_target ch) vd
            | Some new_diff =>
                let new_target := difficulty_to_target new_diff in
                store new_target vd ;;!
                mmodify (fun s =>
                  if new_diff >? old_diff
                  then Conn.set_retargets s (inc (Conn.retarget_up s)) (Conn.retarget_down s)
                  else Conn.set_retargets s (Conn.retarget_up s) (inc (Conn.retarget_down s))) ;;!
                send_or_exit 0x8000 MESSAGE_TYPE_SET_TARGET
                  (SetTarget.encode (SetTarget.mk cid new_target))
            end
      end
  end.

(** The submission built for an accepted share, before signing. *)
Definition build_submission (clk : Clock.t) (cfg : HandlerConfig.t) (sh : share)
    (job : JobRecord.t) (merkle_root : bytes) (worker_id share_id_hex event_id_hex : string)
    (difficulty : Z) : ShareSubmission.t :=
  ShareSubmission.mk share_id_hex (version sh) (hex_encode (JobRecord.prev_hash job))
    (hex_encode (reverse (JobRecord.prev_hash job))) (hex_encode merkle_root)
    (hex_encode (reverse merkle_root)) (ntime sh) (JobRecord.nbits job) (nonce sh) event_id_hex
    worker_id "full" (HandlerConfig.gateway_instance_id cfg) (channel_id sh) (sequence_number sh)
    (job_id sh) (JobRecord.template_id job) (JobRecord.block_height job) None
    (Clock.submission_unix_ms clk) difficulty (f64_of_Z difficulty)
    (JobRecord.source_instance_id job) "".

(** An accepted share: queue it for relay, then record and acknowledge it; or reject it when the
    queue is full. *)
Definition relay_share (clk : Clock.t) (cfg : HandlerConfig.t) (sh : share) (job : JobRecord.t)
    (channel_target : bytes) (worker_id : string) (merkle_root share_id : bytes) : M unit :=
  mmodify (fun s => Conn.set_decoded s (inc (Conn.frames_decoded s)) (Clock.frame_now clk)) ;;!
  let difficulty := target_to_difficulty_u64 channel_target in
  let event_id := compute_event_id share_id worker_id "full" in
  let submission :=
    sign_submission (HandlerConfig.share_hmac_secret cfg)
      (build_submission clk cfg sh job merkle_root worker_id (hex_encode share_id)
         (hex_encode event_id) difficulty) in
  let! s := mget in
  match try_send (Conn.share_forward_tx s) submission with
  | None =>
      mmodify (fun s => Conn.set_forward s (Conn.share_forward_tx s)
                          (inc (Conn.share_forward_queue_full s))) ;;!
      reject_identified clk sh (JobRecord.block_height job) worker_id share_id event_id
        GatewayReason.ShareDroppedQueueFull
  | Some q =>
      mmodify (fun s => Conn.set_forward s q (Conn.share_forward_queue_full s)) ;;!
      enqueue_share_event
        (ShareAcceptedEvent.mk "share_accepted" (hex_encode share_id) (hex_encode event_id)
           "success" None None worker_id (channel_id sh) (sequence_number sh) (job_id sh)
           (JobRecord.block_height job) (Clock.event_unix_ms clk) difficulty) ;;!
      send_or_exit 0x8000 MESSAGE_TYPE_SUBMIT_SHARES_SUCCESS
        (SubmitSharesSuccess.encode
           (SubmitSharesSuccess.mk (channel_id sh) (sequence_number sh) 1 difficulty)) ;;!
      maybe_retarget clk (channel_id sh)
  end.

(** Steps 1 to 5 for a share on channel [ch] with the given coinbase extranonce. *)
Definition validate_and_relay (clk : Clock.t) (cfg : HandlerConfig.t) (job_table : JobTable.t)
    (ch : ChannelState.t) (extranonce : bytes) (sh : share) : M unit :=
  let channel_target := ChannelState.maximum_target ch in
  let worker_id := ChannelState.worker_id ch in
  match JobTable.get job_table (job_id sh) with
  | None => reject_sentinel clk sh GatewayReason.ShareInvalidJobId
  | Some job =>
      if negb (check_version_bits (version sh) (JobRecord.version job))
      then reject_sentinel clk sh GatewayReason.VersionBitViolation
      else
        let effective_min_ntime :=
          unwrap_or (ChannelState.activation_min_ntime ch) (JobRecord.activation_min_ntime job) in
        let effective_elapsed :=
          unwrap_or (ChannelState.elapsed_since_prevhash_secs (Clock.monotonic_ms clk) ch) 0 in
        if negb (check_ntime_bounds (ntime sh) effective_min_ntime effective_elapsed
                   (HandlerConfig.ntime_elapsed_slack_seconds cfg)
                   (HandlerConfig.max_future_block_time_seconds cfg) (Clock.unix_secs clk))
        then reject_sentinel clk sh GatewayReason.NtimeOutOfRange
        else
          let merkle_root :=
            compute_merkle_root (JobRecord.coinbase_tx_prefix job) extranonce
              (JobRecord.coinbase_tx_suffix job) (JobRecord.merkle_path job) in
          let header_bytes :=
            header_identity_bytes (version sh) (JobRecord.prev_hash job) merkle_root (ntime sh)
              (JobRecord.nbits job) (nonce sh) in
          if negb (validate_share_pow header_bytes channel_target) then
            let sid := compute_share_id header_bytes in
            reject_identified clk sh (JobRecord.block_height job) worker_id sid
              (compute_event_id sid worker_id "full") GatewayReason.ShareDifficultyBelowTarget
          else
            let share_id := compute_share_id header_bytes in
            let! s := mget in
            let '(replay, dedup) := ShareDedupSet.check_and_insert share_id (Conn.share_dedup s) in
            mmodify (fun s => Conn.set_dedup s dedup) ;;!
            if replay then
              reject_identified clk sh (JobRecord.block_height job) worker_id share_id
                (compute_event_id share_id worker_id "full") GatewayReason.ShareReplayDetected
            else relay_share clk cfg sh job channel_target worker_id merkle_root share_id
  end.

(** The answer to a payload that does not decode. *)
Definition share_decode_failure (e : Sv2CodecError) : M unit :=
  match GatewayReason.to_sv2_error_code GatewayReason.FrameDecodeError with
  | None => mpanic
  | Some code =>
      send_best_effort 0x8000 MESSAGE_TYPE_SUBMIT_SHARES_ERROR
        (SubmitSharesError.encode (SubmitSharesError.mk 0 0 code)) ;;!
      mexit (CodecError e)
  end.

Definition handle_submit_shares (clk : Clock.t) (cfg : HandlerConfig.t) (job_table : JobTable.t)
    (payload : bytes) : M unit :=
  match SubmitSharesStandard.decode payload with
  | Panic => mpanic
  | Fail e => share_decode_failure e
  | Val m =>
      let sh := mk_share (SubmitSharesStandard.channel_id m) (SubmitSharesStandard.sequence_number m)
        (SubmitSharesStandard.job_id m) (SubmitSharesStandard.nonce m)
        (SubmitSharesStandard.ntime m) (SubmitSharesStandard.version m) in
      let! admitted := admit_share clk sh in
      match admitted with
      | None => mret tt
      | Some ch =>
          validate_and_relay clk cfg job_table ch (ChannelState.extranonce_prefix ch) sh
      end
  end.

Definition handle_submit_shares_extended (clk : Clock.t) (cfg : HandlerConfig.t)
    (job_table : JobTable.t) (payload : bytes) : M unit :=
  match SubmitSharesExtended.decode payload with
  | Panic => mpanic
  | Fail e => share_decode_failure e
  | Val m =>
      let sh := mk_share (SubmitSharesExtended.channel_id m) (SubmitSharesExtended.sequence_number m)
        (SubmitSharesExtended.job_id m) (SubmitSharesExtended.nonce m)
        (SubmitSharesExtended.ntime m) (SubmitSharesExtended.version m) in
      let! admitted := admit_share clk sh in
      match admitted with
      | None => mret tt
      | Some ch =>
          match ChannelState.kind ch with
          | ChannelKind.Standard =>
              send_share_error (channel_id sh) (sequence_number sh) GatewayReason.InvalidChannelId
          | ChannelKind.Extended _ extranonce_size =>
              let prefix := ChannelState.extranonce_prefix ch in
              let extranonce := SubmitSharesExtended.extranonce m in
              let expected_miner_en_len := wrapping_sub 64 extranonce_size (lenZ prefix) in
              if negb (lenZ extranonce =? expected_miner_en_len)
              then send_share_error (channel_id sh) (sequence_number sh)
                     GatewayReason.ShareInvalidNonce
              else validate_and_relay clk cfg job_table ch (prefix ++ extranonce) sh
          end
      end
  end.

(** ** Opening channels *)

Definition send_open_error (request_id : Z) (error_code : string) : M unit :=
  send_best_effort 0x0000 MESSAGE_TYPE_OPEN_MINING_CHANNEL_ERROR
    (OpenMiningChannelError.encode (OpenMiningChannelError.mk request_id error_code)).

(** Refuse an open request and leave. *)
Definition refuse_open {A} (request_id : Z) (r : SetupReason) : M A :=
  send_open_error request_id "max-target-out-of-range" ;;! mexit (SetupRejected r).

(** Draw a channel id, then an extranonce prefix. *)
Definition allocate_ids (request_id : Z) : M (Z * bytes) :=
  let! s := mget in
  let '(cid, ca) := IdAllocator.allocate (Conn.channel_id_alloc s) in
  mmodify (fun s => Conn.set_allocators s ca (Conn.extranonce_alloc s)) ;;!
  match cid with
  | None => refuse_open request_id ChannelIdsExhausted
  | Some cid =>
      let '(en, ea) := ExtranonceAllocator.allocate (Conn.extranonce_alloc s) in
      mmodify (fun s => Conn.set_allocators s (Conn.channel_id_alloc s) ea) ;;!
      match en with
      | None => refuse_open request_id ExtranoncesExhausted
      | Some en => mret (cid, en)
      end
  end.

(** Enter the channel [state] in the connection's table, with its vardiff state, and in the
    registry. *)
Definition register_channel (clk : Clock.t) (cfg : HandlerConfig.t) (peer : string)
    (request_id : Z) (state : ChannelState.t) : M unit :=
  let cid := ChannelState.channel_id state in
  let! s := mget in
  let '(opened, channels) := ConnectionChannels.open_with state (Conn.channels s) in
  mmodify (fun s => Conn.set_channels s channels) ;;!
  match opened with
  | Err reason => refuse_open request_id (RegistrationFailed reason)
  | Ok _ =>
      mmodify (fun s =>
        if HandlerConfig.vardiff_enabled cfg then
          let initial_diff := target_to_difficulty_u64 (HandlerConfig.channel_target cfg) in
          let vd := VardiffState.new (Clock.vardiff_start clk) initial_diff
            (HandlerConfig.vardiff_target_shares_per_min cfg)
            (HandlerConfig.vardiff_retarget_interval cfg) (HandlerConfig.vardiff_min_difficulty cfg)
            (HandlerConfig.vardiff_max_difficulty cfg)
            (HandlerConfig.vardiff_max_adjustment_factor cfg) in
          Conn.set_channels s (ConnectionChannels.update (Conn.channels s) cid
            (fun c => ChannelState.set_vardiff (ChannelState.maximum_target c) (Some vd) c))
        else s) ;;!
      mmodify (fun s => Conn.set_registry s
        (GlobalChannelRegistry.register
           (snapshot_from_open (Clock.open_unix_ms clk) cid (ChannelState.worker_id state) peer)
           (Conn.channel_registry s))
        (Conn.opened_ids s ++ [cid]))
  end.

(** [SetNewPrevHash] when the job carries one, and the channel's job tracking. *)
Definition send_prevhash (clk : Clock.t) (cid : Z) (job : JobBroadcast.t) : M unit :=
  (match JobBroadcast.prevhash_update job with
   | None => mret tt
   | Some ph =>
       send_or_exit 0x8000 MESSAGE_TYPE_MINING_SET_NEW_PREV_HASH
         (SetNewPrevHash.encode (SetNewPrevHash.mk cid (JobBroadcast.job_id job)
            (PrevhashUpdate.prev_hash ph) (PrevhashUpdate.min_ntime ph) (PrevhashUpdate.nbits ph))) ;;!
       mmodify (fun s => Conn.set_channels s (ConnectionChannels.update (Conn.channels s) cid
         (ChannelState.record_prevhash_sent (Clock.monotonic_ms clk) (JobBroadcast.job_id job)
            (PrevhashUpdate.min_ntime ph))))
   end) ;;!
  mmodify (fun s => Conn.set_channels s (ConnectionChannels.update (Conn.channels s) cid
    (ChannelState.record_active_job_sent (JobBroadcast.job_id job)))).

(** The job message of a standard and of an extended channel. *)
Definition send_standard_job (cid : Z) (extranonce : bytes) (job : JobBroadcast.t) : M unit :=
  let merkle_root :=
    compute_merkle_root (JobBroadcast.coinbase_tx_prefix job) extranonce
      (JobBroadcast.coinbase_tx_suffix job) (JobBroadcast.merkle_path job) in
  send_or_exit 0x8000 MESSAGE_TYPE_NEW_MINING_JOB
    (NewMiningJob.encode (NewMiningJob.mk cid (JobBroadcast.job_id job) (JobBroadcast.min_ntime job)
       (JobBroadcast.version job) merkle_root)).

Definition send_extended_job (cid : Z) (job : JobBroadcast.t) : M unit :=
  send_or_exit 0x8000 MESSAGE_TYPE_NEW_EXTENDED_MINING_JOB
    (NewExtendedMiningJob.encode (NewExtendedMiningJob.mk cid (JobBroadcast.job_id job)
       (JobBroadcast.min_ntime job) (JobBroadcast.version job) true (JobBroadcast.merkle_path job)
       (JobBroadcast.coinbase_tx_prefix job) (JobBroadcast.coinbase_tx_suffix job))).

Definition handle_open_standard_channel (clk : Clock.t) (cfg : HandlerConfig.t)
    (latest_job : option JobBroadcast.t) (peer : string) (payload : bytes) : M unit :=
  match OpenStandardMiningChannel.decode payload with
  | Panic => mpanic
  | Fail e => send_open_error 0 "unsupported-protocol" ;;! mexit (CodecError e)
  | Val req =>
      let request_id := OpenStandardMiningChannel.request_id req in
      let! ids := allocate_ids request_id in
      let '(cid, extranonce) := ids in
      let target := HandlerConfig.channel_target cfg in
      register_channel clk cfg peer request_id
        (ChannelState.new (Clock.opened_at clk) (Clock.limiter_start clk) cid extranonce
           (OpenStandardMiningChannel.user_identity req) None target
           (HandlerConfig.max_shares_per_second_per_channel cfg)) ;;!
      send_or_exit 0x0000 MESSAGE_TYPE_OPEN_STANDARD_MINING_CHANNEL_SUCCESS
        (OpenStandardMiningChannelSuccess.encode
           (OpenStandardMiningChannelSuccess.mk request_id cid target extranonce 0)) ;;!
      send_or_exit 0x8000 MESSAGE_TYPE_SET_TARGET (SetTarget.encode (SetTarget.mk cid target)) ;;!
      match latest_job with
      | None => mret tt
      | Some job => send_standard_job cid extranonce job ;;! send_prevhash clk cid job
      end
  end.

Definition handle_open_extended_channel (clk : Clock.t) (cfg : HandlerConfig.t)
    (latest_job : option JobBroadcast.t) (peer : string) (payload : bytes) : M unit :=
  match OpenExtendedMiningChannel.decode payload with
  | Panic => mpanic
  | Fail e => send_open_error 0 "unsupported-protocol" ;;! mexit (CodecError e)
  | Val req =>
      let request_id := OpenExtendedMiningChannel.request_id req in
      let min_size := OpenExtendedMiningChannel.min_extranonce_size req in
      if (min_size <? 2) || (min_size >? 8) then refuse_open request_id MinExtranonceSize
      else
        let! ids := allocate_ids request_id in
        let '(cid, prefix) := ids in
        let target := HandlerConfig.channel_target cfg in
        let miner_portion := Z.max min_size 4 in
        let extranonce_size :=
          (Z.of_nat (HandlerConfig.extranonce_prefix_len cfg) + miner_portion) mod 2 ^ 16 in
        register_channel clk cfg peer request_id
          (ChannelState.new_extended (Clock.opened_at clk) (Clock.limiter_start clk) cid prefix
             (OpenExtendedMiningChannel.user_identity req) None target
             (HandlerConfig.max_shares_per_second_per_channel cfg) min_size extranonce_size) ;;!
        send_or_exit 0x0000 MESSAGE_TYPE_OPEN_EXTENDED_MINING_CHANNEL_SUCCESS
          (OpenExtendedMiningChannelSuccess.encode
             (OpenExtendedMiningChannelSuccess.mk request_id cid target extranonce_size prefix)) ;;!
        send_or_exit 0x8000 MESSAGE_TYPE_SET_TARGET (SetTarget.encode (SetTarget.mk cid target)) ;;!
        match latest_job with
        | None => mret tt
        | Some job => send_extended_job cid job ;;! send_prevhash clk cid job
        end
  end.

Definition reject_extended_channel_err : M HandlerExit :=
  send_best_effort 0x8000 MESSAGE_TYPE_CLOSE_CHANNEL
    (CloseChannel.encode (CloseChannel.mk 0
       (GatewayReason.as_str GatewayReason.ExtendedChannelUnsupported))) ;;!
  mret (SetupRejected ExtendedUnsupported).

Definition handle_close_channel (payload : bytes) : M FrameAction :=
  match CloseChannel.decode payload with
  | Panic => mpanic
  | Fail e => mret (Disconnect (CodecError e))
  | Val close =>
      let cid := CloseChannel.channel_id close in
      mmodify (fun s => Conn.set_channels s (ConnectionChannels.close_channel (Conn.channels s) cid).2) ;;!
      mmodify (fun s => Conn.set_registry s
        (GlobalChannelRegistry.unregister cid (Conn.channel_registry s)) (Conn.opened_ids s)) ;;!
      let! s := mget in
      if ConnectionChannels.open_count (Conn.channels s) =? 0
      then mret (Disconnect Shutdown) else mret Continue
  end.

(** ** Job distribution

    The channels are visited in the iteration order of the hash map, which is unspecified:
    [order] lists the ids as visited. *)
Definition distribute_to (clk : Clock.t) (job : JobBroadcast.t) (cid : Z) : M unit :=
  let! s := mget in
  match ConnectionChannels.get (Conn.channels s) cid with
  | None => mret tt
  | Some ch =>
      (match ChannelState.kind ch with
       | ChannelKind.Standard => send_standard_job cid (ChannelState.extranonce_prefix ch) job
       | ChannelKind.Extended _ _ => send_extended_job cid job
       end) ;;!
      send_prevhash clk cid job
  end.

Fixpoint distribute_job (clk : Clock.t) (job : JobBroadcast.t) (order : list Z) : M unit :=
  match order with
  | [] => mret tt
  | cid :: order => distribute_to clk job cid ;;! distribute_job clk job order
  end.

(** ** Setup and dispatch *)

Definition send_setup_error (flags : Z) : M unit :=
  send_best_effort 0x0000 MESSAGE_TYPE_SETUP_CONNECTION_ERROR
    (SetupConnectionError.encode (SetupConnectionError.mk flags "unsupported-protocol")).

(** [handle_setup_connection] on the first frame read. *)
Definition handle_setup_connection (f : frame) : M unit :=
  if negb (Z.land (extension_type f) 0x7fff =? 0)
  then mexit (SetupRejected (UnsupportedExtension (extension_type f)))
  else if negb (msg_type f =? MESSAGE_TYPE_SETUP_CONNECTION)
  then send_setup_error 0 ;;! mexit (SetupRejected (ExpectedSetup (msg_type f)))
  else
    match SetupConnection.decode (payload f) with
    | Panic => mpanic
    | Fail e => send_setup_error 0 ;;! mexit (CodecError e)
    | Val setup =>
        if negb (SetupConnection.protocol setup =? 0)
        then send_setup_error 0 ;;!
             mexit (SetupRejected (NotMiningProtocol (SetupConnection.protocol setup)))
        else if (SetupConnection.min_version setup >? 2) || (SetupConnection.max_version setup <? 2)
        then send_setup_error (SetupConnection.flags setup) ;;!
             mexit (SetupRejected (VersionRange (SetupConnection.min_version setup)
                                     (SetupConnection.max_version setup)))
        else send_or_exit 0x0000 MESSAGE_TYPE_SETUP_CONNECTION_SUCCESS
               (SetupConnectionSuccess.encode (SetupConnectionSuccess.mk 2 0))
    end.

(** [match handler(..).await { Ok(()) => Continue, Err(exit) => Disconnect(exit) }]. *)
Definition as_action (m : M unit) : M FrameAction :=
  fun s => match m s with
           | (Ret _, s) => (Ret Continue, s)
           | (Exit e, s) => (Ret (Disconnect e), s)
           | (Panics, s) => (Panics, s)
           end.

Definition handle_miner_frame (clk : Clock.t) (cfg : HandlerConfig.t) (job_table : JobTable.t)
    (latest_job : option JobBroadcast.t) (peer : string) (f : frame) : M FrameAction :=
  if negb (Z.land (extension_type f) 0x7fff =? 0)
  then mret (Disconnect (SetupRejected (UnsupportedExtension (extension_type f))))
  else if msg_type f =? MESSAGE_TYPE_SUBMIT_SHARES_STANDARD
  then as_action (handle_submit_shares clk cfg job_table (payload f))
  else if msg_type f =? MESSAGE_TYPE_SUBMIT_SHARES_EXTENDED
  then as_action (handle_submit_shares_extended clk cfg job_table (payload f))
  else if msg_type f =? MESSAGE_TYPE_OPEN_STANDARD_MINING_CHANNEL
  then as_action (handle_open_standard_channel clk cfg latest_job peer (payload f))
  else if msg_type f =? MESSAGE_TYPE_OPEN_EXTENDED_MINING_CHANNEL
  then if negb (HandlerConfig.extended_channels_enabled cfg)
       then let! e := reject_extended_channel_err in mret (Disconnect e)
       else as_action (handle_open_extended_channel clk cfg latest_job peer (payload f))
  else if msg_type f =? MESSAGE_TYPE_CLOSE_CHANNEL
  then handle_close_channel (payload f)
  else mret Continue.

(** [wait_for_channel_open] on the frames read before the timeout, each with the clock of its
    handling; the end of the list is a read error or the timeout, which the caller reports. *)
Fixpoint wait_for_channel_open (cfg : HandlerConfig.t) (latest_job : option JobBroadcast.t)
    (peer : string) (frames : list (Clock.t * frame)) (read_end : HandlerExit)
    : M (list (Clock.t * frame)) :=
  match frames with
  | [] => mexit read_end
  | (clk, f) :: rest =>
      if negb (Z.land (extension_type f) 0x7fff =? 0)
      then mexit (SetupRejected (UnsupportedExtension (extension_type f)))
      else if msg_type f =? MESSAGE_TYPE_OPEN_STANDARD_MINING_CHANNEL
      then handle_open_standard_channel clk cfg latest_job peer (payload f) ;;! mret rest
      else if msg_type f =? MESSAGE_TYPE_OPEN_EXTENDED_MINING_CHANNEL
      then if negb (HandlerConfig.extended_channels_enabled cfg)
           then let! e := reject_extended_channel_err in mexit e
           else handle_open_extended_channel clk cfg latest_job peer (payload f) ;;! mret rest
      else wait_for_channel_open cfg latest_job peer rest read_end
  end.
End Handlers.

(** * Properties *)

(** ** A share message that does not decode *)

(** A reason of the share pipeline has a wire code. *)
Ltac solve_wire :=
  eexists; split; [reflexivity|]; repeat first [apply list_elem_of_here | apply list_elem_of_further].

Section ShareFacts.
Context `{Sha256Crate, HexCrate, HmacCrate, SubmissionJson}.

Lemma share_decode_failure_panics e s : (share_decode_failure e s).1 = Panics.
Proof. reflexivity. Qed.

Lemma standard_share_length p m : SubmitSharesStandard.decode p = Val m -> 24 <= lenZ p.
Proof.
  intros Hd. destruct (msg_canonical p m Hd) as (enc & rest & He & ->).
  assert (enc = le_bytes 4 (SubmitSharesStandard.channel_id m) ++ le_bytes 4 (SubmitSharesStandard.sequence_number m)
    ++ le_bytes 4 (SubmitSharesStandard.job_id m) ++ le_bytes 4 (SubmitSharesStandard.nonce m)
    ++ le_bytes 4 (SubmitSharesStandard.ntime m) ++ le_bytes 4 (SubmitSharesStandard.version m)) as ->
    by (injection He as <-; reflexivity).
  rewrite lenZ_app. pose proof (lenZ_nonneg rest). unfold lenZ at 1.
  rewrite !length_app, !length_le_bytes. lia.
Qed.

(** (malformed share): a [SubmitSharesStandard] payload that is too short makes the handler
    panic, whatever the state: the decode error path asks for the wire code of
    [FrameDecodeError], which has none. *)
Theorem short_share_panics clk cfg jt p s :
  lenZ p < 24 -> (handle_submit_shares clk cfg jt p s).1 = Panics.
Proof.
  intros Hp. unfold handle_submit_shares. destruct (SubmitSharesStandard.decode p) as [m|e|] eqn:E.
  - apply standard_share_length in E. lia.
  - apply share_decode_failure_panics.
  - reflexivity.
Qed.

(** ** The verdict on a share *)

(** What the pipeline decides for a decoded share on a state: the reason it is rejected for, or
    [None] when it is accepted. *)
Definition share_verdict (clk : Clock.t) (cfg : HandlerConfig.t) (job_table : JobTable.t)
    (extranonce_of : ChannelState.t -> bytes) (s : Conn.t) (sh : share)
    : option GatewayReason.t :=
  match ConnectionChannels.get (Conn.channels s) (channel_id sh) with
  | None => Some GatewayReason.InvalidChannelId
  | Some ch =>
      if negb (ShareRateLimiter.try_acquire (Clock.rate_now clk) (ChannelState.rate_limiter ch)).1
      then Some GatewayReason.ShareRateLimited
      else match JobTable.get job_table (job_id sh) with
      | None => Some GatewayReason.ShareInvalidJobId
      | Some job =>
          let header :=
            header_identity_bytes (version sh) (JobRecord.prev_hash job)
              (job_merkle_root job (extranonce_of ch)) (ntime sh) (JobRecord.nbits job) (nonce sh) in
          if negb (check_version_bits (version sh) (JobRecord.version job))
          then Some GatewayReason.VersionBitViolation
          else if negb (check_ntime_bounds (ntime sh)
                 (unwrap_or (ChannelState.activation_min_ntime ch) (JobRecord.activation_min_ntime job))
                 (unwrap_or (ChannelState.elapsed_since_prevhash_secs (Clock.monotonic_ms clk) ch) 0)
                 (HandlerConfig.ntime_elapsed_slack_seconds cfg)
                 (HandlerConfig.max_future_block_time_seconds cfg) (Clock.unix_secs clk))
          then Some GatewayReason.NtimeOutOfRange
          else if negb (validate_share_pow header (ChannelState.maximum_target ch))
          then Some GatewayReason.ShareDifficultyBelowTarget
          else if bool_decide (compute_share_id header ∈ ShareDedupSet.set (Conn.share_dedup s))
          then Some GatewayReason.ShareReplayDetected
          else if negb (has_room (Conn.share_forward_tx s))
          then Some GatewayReason.ShareDroppedQueueFull
          else None
      end
  end.

(** The two responses to a share. *)
Definition error_frame (sh : share) (f : frame) (reason : GatewayReason.t) : Prop :=
  exists code p, GatewayReason.to_sv2_error_code reason = Some code /\
    code ∈ GatewayReason.SV2_SHARE_ERROR_CODES /\
    SubmitSharesError.encode (SubmitSharesError.mk (channel_id sh) (sequence_number sh) code) = Ok p /\
    f = mk_frame 0x8000 MESSAGE_TYPE_SUBMIT_SHARES_ERROR p.

Definition success_frame (sh : share) (f : frame) : Prop :=
  exists d p,
    SubmitSharesSuccess.encode (SubmitSharesSuccess.mk (channel_id sh) (sequence_number sh) 1 d) = Ok p /\
    f = mk_frame 0x8000 MESSAGE_TYPE_SUBMIT_SHARES_SUCCESS p.

Definition target_frame (sh : share) (f : frame) : Prop :=
  exists t p, SetTarget.encode (SetTarget.mk (channel_id sh) t) = Ok p /\
    f = mk_frame 0x8000 MESSAGE_TYPE_SET_TARGET p.

(** The accounting stream gets one event telling what the miner was told, or counts the drop. *)
Definition accounted (sh : share) (response : string) (reason : option GatewayReason.t)
    (s s' : Conn.t) : Prop :=
  let q := Conn.share_event_tx s in
  if has_room q then
    exists e, Conn.share_event_tx s' = mk_queue (items q ++ [e]) (capacity q) (closed q) /\
      ShareAcceptedEvent.sv2_response e = response /\
      ShareAcceptedEvent.reason_code e = (GatewayReason.as_str <$> reason) /\
      ShareAcceptedEvent.channel_id e = channel_id sh /\
      ShareAcceptedEvent.sequence_number e = sequence_number sh /\
      Conn.share_events_dropped s' = Conn.share_events_dropped s
  else Conn.share_event_tx s' = q /\
       Conn.share_events_dropped s' = inc (Conn.share_events_dropped s).

(** What a call does about a share with the given verdict. *)
Definition answered (sh : share) (verdict : option GatewayReason.t) (s s' : Conn.t) : Prop :=
  match verdict with
  | Some reason =>
      (exists f, error_frame sh f reason /\ Conn.sent s' = Conn.sent s ++ [f]) /\
      Conn.share_forward_tx s' = Conn.share_forward_tx s /\
      accounted sh "error" (Some reason) s s'
  | None =>
      (exists f more, success_frame sh f /\ Conn.sent s' = Conn.sent s ++ f :: more /\
         (more = [] \/ exists t, target_frame sh t /\ more = [t])) /\
      (exists sub, items (Conn.share_forward_tx s') = items (Conn.share_forward_tx s) ++ [sub] /\
         ShareSubmission.channel_id sub = channel_id sh /\
         ShareSubmission.sequence_number sub = sequence_number sh /\
         ShareSubmission.job_id sub = job_id sh) /\
      accounted sh "success" None s s'
  end.

(** The fields [answered] speaks about. *)
Definition same_io (s s1 : Conn.t) : Prop :=
  Conn.sent s1 = Conn.sent s /\ Conn.write_outcomes s1 = Conn.write_outcomes s /\
  Conn.share_forward_tx s1 = Conn.share_forward_tx s /\
  Conn.share_event_tx s1 = Conn.share_event_tx s /\
  Conn.share_events_dropped s1 = Conn.share_events_dropped s.

Lemma answered_same_io sh v s s1 s' : same_io s s1 -> answered sh v s1 s' -> answered sh v s s'.
Proof.
  intros (E1 & E2 & E3 & E4 & E5). unfold answered, accounted.
  by rewrite E1, E3, E4, E5.
Qed.

Lemma send_or_exit_ok ext ty r p s : Conn.write_outcomes s = [] -> r = Ok p ->
  send_or_exit ext ty r s = (Ret tt, Conn.set_io s (Conn.sent s ++ [mk_frame ext ty p]) []).
Proof.
  intros Hw ->. unfold send_or_exit, encode_or_exit, write_or_exit, write_frame, mbind, mret.
  by rewrite Hw.
Qed.

(** The reasons the pipeline uses all have a wire code. *)
Definition wire_reason (r : GatewayReason.t) : Prop :=
  exists code, GatewayReason.to_sv2_error_code r = Some code /\
    code ∈ GatewayReason.SV2_SHARE_ERROR_CODES.

Lemma wire_code_encodes ch seq code : code ∈ GatewayReason.SV2_SHARE_ERROR_CODES ->
  exists p, SubmitSharesError.encode (SubmitSharesError.mk ch seq code) = Ok p.
Proof.
  unfold GatewayReason.SV2_SHARE_ERROR_CODES. rewrite !elem_of_cons, elem_of_nil.
  intros Hc. repeat (destruct Hc as [->|Hc]; [by eexists|]). done.
Qed.

Lemma send_share_error_ok sh reason s :
  Conn.write_outcomes s = [] -> wire_reason reason ->
  exists f, error_frame sh f reason /\
    send_share_error (channel_id sh) (sequence_number sh) reason s
    = (Ret tt, Conn.set_io s (Conn.sent s ++ [f]) []).
Proof.
  intros Hw (code & Hc & Hin).
  destruct (wire_code_encodes (channel_id sh) (sequence_number sh) code Hin) as [p Hp].
  eexists. split; [by exists code, p|]. unfold send_share_error. rewrite Hc.
  by apply send_or_exit_ok.
Qed.

(** Enqueue an event, then anything that leaves queue and drop counter alone: the event is
    accounted for. *)
Lemma enqueue_accounted sh evt response reason s :
  ShareAcceptedEvent.sv2_response evt = response ->
  ShareAcceptedEvent.reason_code evt = (GatewayReason.as_str <$> reason) ->
  ShareAcceptedEvent.channel_id evt = channel_id sh ->
  ShareAcceptedEvent.sequence_number evt = sequence_number sh ->
  exists s1, enqueue_share_event evt s = (Ret tt, s1) /\
    Conn.sent s1 = Conn.sent s /\ Conn.write_outcomes s1 = Conn.write_outcomes s /\
    Conn.share_forward_tx s1 = Conn.share_forward_tx s /\ Conn.channels s1 = Conn.channels s /\
    accounted sh response reason s s1.
Proof.
  intros Hr Hc Hi Hq. unfold enqueue_share_event, mmodify, try_send, accounted.
  destruct (has_room (Conn.share_event_tx s)); eexists; (split; [reflexivity|]); split_and!; try done.
  by exists evt.
Qed.

Lemma accounted_frame sh response reason s s1 s2 :
  Conn.share_event_tx s2 = Conn.share_event_tx s1 ->
  Conn.share_events_dropped s2 = Conn.share_events_dropped s1 ->
  accounted sh response reason s s1 -> accounted sh response reason s s2.
Proof. intros E1 E2. unfold accounted. by rewrite E1, E2. Qed.

(** A rejection with an event, of either kind. *)
Lemma reject_answered sh evt reason s :
  Conn.write_outcomes s = [] -> wire_reason reason ->
  ShareAcceptedEvent.sv2_response evt = "error"%string ->
  ShareAcceptedEvent.reason_code evt = Some (GatewayReason.as_str reason) ->
  ShareAcceptedEvent.channel_id evt = channel_id sh ->
  ShareAcceptedEvent.sequence_number evt = sequence_number sh ->
  exists s', (enqueue_share_event evt ;;!
              send_share_error (channel_id sh) (sequence_number sh) reason) s = (Ret tt, s') /\
    answered sh (Some reason) s s'.
Proof.
  intros Hw Hr Hresp Hcode Hch Hseq.
  destruct (enqueue_accounted sh evt "error" (Some reason) s) as (s1 & E & Hs & Ho & Hf & _ & Ha);
    [done..|].
  destruct (send_share_error_ok sh reason s1) as (f & Hfr & E'); [by rewrite Ho|done|].
  exists (Conn.set_io s1 (Conn.sent s1 ++ [f]) []). unfold mbind. rewrite E, E'. split; [done|].
  split_and!; [|done|]. { exists f. split; [done|]. cbn. by rewrite Hs. }
  by eapply accounted_frame; [..|exact Ha].
Qed.

Lemma maybe_retarget_ok clk sh s : Conn.write_outcomes s = [] ->
  exists s' more, maybe_retarget clk (channel_id sh) s = (Ret tt, s') /\
    Conn.sent s' = Conn.sent s ++ more /\ (more = [] \/ exists t, target_frame sh t /\ more = [t]) /\
    Conn.share_forward_tx s' = Conn.share_forward_tx s /\
    Conn.share_event_tx s' = Conn.share_event_tx s /\
    Conn.share_events_dropped s' = Conn.share_events_dropped s.
Proof.
  intros Hw. unfold maybe_retarget, mbind, mget.
  destruct (ConnectionChannels.get _ _) as [ch|]; [|exists s, []; rewrite app_nil_r; auto 10].
  destruct (ChannelState.vardiff ch) as [vd|]; [|exists s, []; rewrite app_nil_r; auto 10].
  destruct (VardiffState.record_share _ vd) as [[|] vd']; cbn [negb];
    [|eexists _, []; rewrite app_nil_r; split; [reflexivity|]; cbn; auto 10].
  destruct (VardiffState.evaluate_retarget _ _ vd') as [[d|] vd''];
    [|eexists _, []; rewrite app_nil_r; split; [reflexivity|]; cbn; auto 10].
  unfold mmodify. cbn [Conn.retarget_up Conn.retarget_down Conn.set_channels].
  eexists _, [_]. split.
  - apply send_or_exit_ok; [by destruct (d >? _)|reflexivity].
  - split_and!; try (by destruct (d >? _)).
    right. eexists. split; [|reflexivity]. by eexists _, _.
Qed.

Lemma sign_submission_keeps secret sub :
  ShareSubmission.channel_id (sign_submission secret sub) = ShareSubmission.channel_id sub /\
  ShareSubmission.sequence_number (sign_submission secret sub) = ShareSubmission.sequence_number sub /\
  ShareSubmission.job_id (sign_submission secret sub) = ShareSubmission.job_id sub.
Proof. unfold sign_submission. destruct secret; [done|]. by destruct (submission_to_vec _). Qed.

Lemma relay_answered clk cfg sh job target worker root sid s :
  Conn.write_outcomes s = [] ->
  exists s', relay_share clk cfg sh job target worker root sid s = (Ret tt, s') /\
    answered sh (if has_room (Conn.share_forward_tx s) then None
                 else Some GatewayReason.ShareDroppedQueueFull) s s'.
Proof.
  intros Hw. unfold relay_share. set (sub := sign_submission _ _).
  unfold mmodify at 1, mbind at 1. unfold mget at 1, mbind at 1. unfold try_send.
  cbn [Conn.share_forward_tx Conn.set_decoded].
  destruct (has_room (Conn.share_forward_tx s)) eqn:Hroom.
  - unfold mmodify at 1, mbind at 1.
    match goal with |- context [mbind (enqueue_share_event ?e) _ ?s0] =>
      set (evt := e); set (s1 := s0) end.
    destruct (enqueue_accounted sh evt "success" None s1) as (s2 & E & Hs & Ho & Hf & _ & Ha);
      [done..|]. unfold mbind at 1. rewrite E.
    unfold mbind at 1. rewrite (send_or_exit_ok _ _ _ _ s2) by (rewrite ?Ho; done || reflexivity).
    match goal with |- context [maybe_retarget _ _ ?s0] => set (s3 := s0) end.
    destruct (maybe_retarget_ok clk sh s3) as (s4 & more & E4 & Hs4 & Hm & Hf4 & He4 & Hd4); [done|].
    rewrite E4. exists s4. split; [done|]. split_and!.
    + eexists _, more. split; [by eexists _, _|]. split; [|done]. rewrite Hs4. cbn. rewrite Hs.
      by rewrite <-app_assoc.
    + exists sub. rewrite Hf4. cbn. rewrite Hf. cbn. split; [done|]. apply sign_submission_keeps.
    + eapply accounted_frame; [exact He4|exact Hd4|]. by eapply accounted_frame; [..|exact Ha].
  - unfold mmodify at 1, mbind at 1. unfold reject_identified.
    match goal with |- context [mbind (enqueue_share_event ?e) ?k ?s0] =>
      destruct (reject_answered sh e GatewayReason.ShareDroppedQueueFull s0) as (s' & E & Ha) end;
      try done.
    { solve_wire. }
    exists s'. split; [exact E|]. by eapply answered_same_io; [|exact Ha].
Qed.

Lemma validate_answered clk cfg jt ch extranonce_of sh s :
  Conn.write_outcomes s = [] ->
  ConnectionChannels.get (Conn.channels s) (channel_id sh) = Some ch ->
  (ShareRateLimiter.try_acquire (Clock.rate_now clk) (ChannelState.rate_limiter ch)).1 = true ->
  forall s1 ch1, same_io s s1 -> Conn.share_dedup s1 = Conn.share_dedup s ->
  (exists l, ch1 = ChannelState.set_rate_limiter l ch) -> extranonce_of ch1 = extranonce_of ch ->
  exists s', validate_and_relay clk cfg jt ch1 (extranonce_of ch1) sh s1 = (Ret tt, s') /\
    answered sh (share_verdict clk cfg jt extranonce_of s sh) s s'.
Proof.
  intros Hw Hch Hrate s1 ch1 Hio Hdd [l ->] Hex. unfold share_verdict. rewrite Hch, Hrate. cbn [negb].
  assert (Conn.write_outcomes s1 = []) as Hw1 by (destruct Hio as (_ & -> & _); done).
  assert (forall reason evt, wire_reason reason ->
    ShareAcceptedEvent.sv2_response evt = "error"%string ->
    ShareAcceptedEvent.reason_code evt = Some (GatewayReason.as_str reason) ->
    ShareAcceptedEvent.channel_id evt = channel_id sh ->
    ShareAcceptedEvent.sequence_number evt = sequence_number sh ->
    forall s2, same_io s s2 ->
    exists s', (enqueue_share_event evt ;;!
      send_share_error (channel_id sh) (sequence_number sh) reason) s2 = (Ret tt, s') /\
      answered sh (Some reason) s s') as Hrej.
  { intros reason evt Hr ? ? ? ? s2 Hio2.
    destruct (reject_answered sh evt reason s2) as (s' & E & Ha); [|done..|].
    - destruct Hio2 as (_ & -> & _). done.
    - exists s'. split; [done|]. by eapply answered_same_io. }
  unfold validate_and_relay. rewrite Hex. fold (job_merkle_root).
  destruct (JobTable.get jt (job_id sh)) as [job|]; [|apply Hrej; try done; solve_wire].
  destruct (check_version_bits _ _); cbn [negb]; [|apply Hrej; try done; solve_wire].
  change (ChannelState.activation_min_ntime (ChannelState.set_rate_limiter l ch))
    with (ChannelState.activation_min_ntime ch).
  change (ChannelState.elapsed_since_prevhash_secs (Clock.monotonic_ms clk)
    (ChannelState.set_rate_limiter l ch))
    with (ChannelState.elapsed_since_prevhash_secs (Clock.monotonic_ms clk) ch).
  destruct (check_ntime_bounds _ _ _ _ _ _); cbn [negb]; [|apply Hrej; try done; solve_wire].
  change (compute_merkle_root (JobRecord.coinbase_tx_prefix job) (extranonce_of ch)
    (JobRecord.coinbase_tx_suffix job) (JobRecord.merkle_path job))
    with (job_merkle_root job (extranonce_of ch)).
  set (header := header_identity_bytes _ _ _ _ _ _).
  change (ChannelState.maximum_target (ChannelState.set_rate_limiter l ch))
    with (ChannelState.maximum_target ch).
  destruct (validate_share_pow header _); cbn [negb]; [|apply Hrej; try done; solve_wire].
  unfold mget, mbind at 1, ShareDedupSet.check_and_insert. rewrite Hdd.
  case_decide as Hin.
  - rewrite bool_decide_eq_true_2 by done. apply Hrej; try done; solve_wire.
  - rewrite bool_decide_eq_false_2 by done.
    destruct (ShareDedupSet.evict _ _ _) as [set' order']. unfold mmodify at 1, mbind at 1.
    match goal with |- context [relay_share ?c ?g ?h ?j ?t ?w ?r ?i ?s2] =>
      destruct (relay_answered c g h j t w r i s2) as (s' & E & Ha); [done|] end.
    exists s'. split; [exact E|]. eapply answered_same_io; [|revert Ha].
    { exact Hio. }
    cbn. destruct Hio as (_ & _ & Hf & _). rewrite Hf. by destruct (has_room _).
Qed.

(** An open channel within its rate is handed over with its bucket updated. *)
Lemma admit_allowed clk sh ch s :
  ConnectionChannels.get (Conn.channels s) (channel_id sh) = Some ch ->
  (ShareRateLimiter.try_acquire (Clock.rate_now clk) (ChannelState.rate_limiter ch)).1 = true ->
  exists s1 l, admit_share clk sh s = (Ret (Some (ChannelState.set_rate_limiter l ch)), s1) /\
    same_io s s1 /\ Conn.share_dedup s1 = Conn.share_dedup s.
Proof.
  intros Hch Hr. destruct (ShareRateLimiter.try_acquire _ _) as [b l] eqn:E. cbn in Hr. subst b.
  assert (ConnectionChannels.get (ConnectionChannels.update (Conn.channels s) (channel_id sh)
    (ChannelState.set_rate_limiter l)) (channel_id sh) = Some (ChannelState.set_rate_limiter l ch))
    as Hget.
  { unfold ConnectionChannels.update. rewrite Hch, get_insert_channel, decide_True by done.
    unfold ConnectionChannels.get in Hch. destruct (_ !! _) as [c|]; [|done].
    destruct (ChannelState.closed c) eqn:Ec; [done|]. injection Hch as <-. cbn. by rewrite Ec. }
  eexists _, l. split.
  - unfold admit_share, mget, mmodify, mbind. rewrite Hch, E.
    cbn [negb Conn.channels Conn.set_channels]. rewrite Hget. reflexivity.
  - by split.
Qed.

(** Admission answers the share itself or hands over the channel with its bucket updated. *)
Lemma admit_cases clk cfg jt extranonce_of sh s :
  Conn.write_outcomes s = [] ->
  (exists s', admit_share clk sh s = (Ret None, s') /\
     answered sh (share_verdict clk cfg jt extranonce_of s sh) s s') \/
  (exists s1 ch l, admit_share clk sh s = (Ret (Some (ChannelState.set_rate_limiter l ch)), s1) /\
     ConnectionChannels.get (Conn.channels s) (channel_id sh) = Some ch /\
     (ShareRateLimiter.try_acquire (Clock.rate_now clk) (ChannelState.rate_limiter ch)).1 = true /\
     same_io s s1 /\ Conn.share_dedup s1 = Conn.share_dedup s).
Proof.
  intros Hw.
  destruct (ConnectionChannels.get (Conn.channels s) (channel_id sh)) as [ch|] eqn:Hch.
  - destruct (ShareRateLimiter.try_acquire (Clock.rate_now clk) (ChannelState.rate_limiter ch))
      as [[|] l] eqn:Hr; [right|left].
    + destruct (admit_allowed clk sh ch s Hch) as (s1 & l' & E & Hio & Hd); [by rewrite Hr|].
      exists s1, ch, l'. by rewrite Hr.
    + unfold share_verdict. rewrite Hch, Hr. cbn [fst negb].
      unfold admit_share, mget, mmodify. unfold mbind at 1. rewrite Hch, Hr. cbn [negb].
      unfold mbind at 1, reject_sentinel, mbind at 1.
      match goal with |- context [mbind (enqueue_share_event ?e) ?k ?s0] =>
        destruct (reject_answered sh e GatewayReason.ShareRateLimited s0) as (s' & E & Ha) end;
        try done; [solve_wire|].
      exists s'. rewrite E. split; [done|]. by eapply answered_same_io; [|exact Ha].
  - left. unfold share_verdict, admit_share, mget. rewrite Hch. unfold mbind at 1. rewrite Hch.
    unfold reject_sentinel, mbind at 1.
    match goal with |- context [mbind (enqueue_share_event ?e) ?k ?s0] =>
      destruct (reject_answered sh e GatewayReason.InvalidChannelId s0) as (s' & E & Ha) end;
      try done; [solve_wire|].
    exists s'. by rewrite E.
Qed.

(** C6 (share answer): a decoded standard share, on a connection whose writes succeed, always
    gets exactly one response and the handler returns normally: an error with a code of the
    [SubmitShares.Error] set when the pipeline rejects it, a success (perhaps followed by a new
    target) when it accepts it. The share is queued upstream exactly when the miner is told
    success, and the accounting event says the same. *)
Theorem submit_share_answered clk cfg jt p m s :
  SubmitSharesStandard.decode p = Val m -> Conn.write_outcomes s = [] ->
  let sh := mk_share (SubmitSharesStandard.channel_id m) (SubmitSharesStandard.sequence_number m)
    (SubmitSharesStandard.job_id m) (SubmitSharesStandard.nonce m) (SubmitSharesStandard.ntime m)
    (SubmitSharesStandard.version m) in
  exists s', handle_submit_shares clk cfg jt p s = (Ret tt, s') /\
    answered sh (share_verdict clk cfg jt ChannelState.extranonce_prefix s sh) s s'.
Proof.
  intros Hd Hw sh. unfold handle_submit_shares. rewrite Hd. fold sh. unfold mbind at 1.
  destruct (admit_cases clk cfg jt ChannelState.extranonce_prefix sh s Hw)
    as [(s' & -> & Ha)|(s1 & ch & l & -> & Hch & Hr & Hio & Hdd)]; [by exists s'|].
  eapply validate_answered; eauto.
Qed.

(** ** Extended shares *)

Definition extended_share (m : SubmitSharesExtended.t) : share :=
  mk_share (SubmitSharesExtended.channel_id m) (SubmitSharesExtended.sequence_number m)
    (SubmitSharesExtended.job_id m) (SubmitSharesExtended.nonce m) (SubmitSharesExtended.ntime m)
    (SubmitSharesExtended.version m).

(** The miner's part of the extranonce has the length the channel was granted. *)
Definition extranonce_fits (ch : ChannelState.t) (extranonce : bytes) : Prop :=
  exists min_size size, ChannelState.kind ch = ChannelKind.Extended min_size size /\
    lenZ extranonce = wrapping_sub 64 size (lenZ (ChannelState.extranonce_prefix ch)).

(** (extended share answer): an extended share whose channel, if open, is extended with an
    extranonce of the granted length is answered and accounted for like a standard one, its
    coinbase built from the pool's prefix followed by the miner's extranonce. *)
Theorem submit_extended_share_answered clk cfg jt p m s :
  SubmitSharesExtended.decode p = Val m -> Conn.write_outcomes s = [] ->
  (forall ch, ConnectionChannels.get (Conn.channels s) (SubmitSharesExtended.channel_id m) = Some ch ->
     extranonce_fits ch (SubmitSharesExtended.extranonce m)) ->
  let full ch := ChannelState.extranonce_prefix ch ++ SubmitSharesExtended.extranonce m in
  exists s', handle_submit_shares_extended clk cfg jt p s = (Ret tt, s') /\
    answered (extended_share m) (share_verdict clk cfg jt full s (extended_share m)) s s'.
Proof.
  intros Hd Hw Hfit full. unfold handle_submit_shares_extended. rewrite Hd.
  fold (extended_share m). unfold mbind at 1.
  destruct (admit_cases clk cfg jt full (extended_share m) s Hw)
    as [(s' & -> & Ha)|(s1 & ch & l & -> & Hch & Hr & Hio & Hdd)]; [by exists s'|].
  destruct (Hfit ch Hch) as (mn & sz & Hk & Hl).
  change (ChannelState.kind (ChannelState.set_rate_limiter l ch)) with (ChannelState.kind ch).
  rewrite Hk. cbn [ChannelState.extranonce_prefix ChannelState.set_rate_limiter].
  rewrite Hl, Z.eqb_refl. cbn [negb].
  by apply (validate_answered clk cfg jt ch full (extended_share m) s Hw Hch Hr s1
    (ChannelState.set_rate_limiter l ch)); try done; eexists.
Qed.

(** (unaccounted rejection): an extended share on a standard channel is rejected to the miner
    without an accounting event, unlike every other rejection. *)
Theorem extended_on_standard_unaccounted clk cfg jt p m s ch :
  SubmitSharesExtended.decode p = Val m -> Conn.write_outcomes s = [] ->
  ConnectionChannels.get (Conn.channels s) (SubmitSharesExtended.channel_id m) = Some ch ->
  ChannelState.kind ch = ChannelKind.Standard ->
  (ShareRateLimiter.try_acquire (Clock.rate_now clk) (ChannelState.rate_limiter ch)).1 = true ->
  exists s', handle_submit_shares_extended clk cfg jt p s = (Ret tt, s') /\
    (exists f, error_frame (extended_share m) f GatewayReason.InvalidChannelId /\
       Conn.sent s' = Conn.sent s ++ [f]) /\
    Conn.share_event_tx s' = Conn.share_event_tx s /\
    Conn.share_events_dropped s' = Conn.share_events_dropped s.
Proof.
  intros Hd Hw Hch Hk Hr. unfold handle_submit_shares_extended. rewrite Hd.
  fold (extended_share m). unfold mbind at 1.
  destruct (admit_allowed clk (extended_share m) ch s Hch Hr) as (s1 & l & -> & Hio & _).
  cbn [ChannelState.kind ChannelState.set_rate_limiter]. rewrite Hk.
  destruct Hio as (E1 & E2 & E3 & E4 & E5).
  destruct (send_share_error_ok (extended_share m) GatewayReason.InvalidChannelId s1)
    as (f & Hf & ->); [by rewrite E2|solve_wire|].
  eexists. split; [done|]. cbn. rewrite E1. eauto.
Qed.
End ShareFacts.

(** ** Which frames make a handler panic *)

Definition no_panic {A} (m : M A) : Prop := forall s, (m s).1 <> Panics.

Lemma np_ret {A} (a : A) : no_panic (mret a).
Proof. intros s. discriminate. Qed.
Lemma np_exit {A} e : no_panic (@mexit A e).
Proof. intros s. discriminate. Qed.
Lemma np_get : no_panic mget.
Proof. intros s. discriminate. Qed.
Lemma np_modify f : no_panic (mmodify f).
Proof. intros s. discriminate. Qed.
Lemma np_bind {A B} (m : M A) (k : A -> M B) :
  no_panic m -> (forall a, no_panic (k a)) -> no_panic (mbind m k).
Proof.
  intros Hm Hk s. unfold mbind. specialize (Hm s).
  destruct (m s) as [[a|e|] s']; cbn in *; [apply Hk|discriminate|done].
Qed.
Lemma np_write ext ty p : no_panic (write_frame ext ty p).
Proof. intros s. unfold write_frame. by repeat case_match. Qed.
Lemma np_send ext ty r : no_panic (send_or_exit ext ty r).
Proof.
  unfold send_or_exit, write_or_exit. apply np_bind; [by destruct r|]. intros p.
  apply np_bind; [apply np_write|]. intros []; [apply np_ret|apply np_exit].
Qed.
Lemma np_send_best ext ty r : no_panic (send_best_effort ext ty r).
Proof.
  unfold send_best_effort. destruct r; [|apply np_ret].
  apply np_bind; [apply np_write|intros; apply np_ret].
Qed.

Create HintDb handler discriminated.
#[export] Hint Constants Opaque : handler.
#[export] Hint Resolve np_ret np_exit np_get np_modify np_write np_send np_send_best : handler.

(** Walk through a handler: binds, tests, and matches. *)
Ltac np_step :=
  first
    [ progress auto with handler
    | match goal with |- no_panic (mbind _ _) => apply np_bind; [|intros ?] end
    | match goal with |- no_panic (match ?x with _ => _ end) => destruct x eqn:? end
    | match goal with |- no_panic (if ?b then _ else _) => destruct b end
    | progress cbv zeta ].
Ltac np := repeat np_step.

Section PanicFacts.
Context `{Sha256Crate, HexCrate, HmacCrate, SubmissionJson}.

Lemma np_share_error ch seq r : wire_reason r -> no_panic (send_share_error ch seq r).
Proof. intros (code & Hc & _). unfold send_share_error. rewrite Hc. np. Qed.

Lemma np_reject_sentinel clk sh r : wire_reason r -> no_panic (reject_sentinel clk sh r).
Proof. intros Hr. unfold reject_sentinel, enqueue_share_event. np. by apply np_share_error. Qed.

Lemma np_reject_identified clk sh h w sid eid r :
  wire_reason r -> no_panic (reject_identified clk sh h w sid eid r).
Proof. intros Hr. unfold reject_identified, enqueue_share_event. np. by apply np_share_error. Qed.

Ltac np_reject :=
  lazymatch goal with
  | |- no_panic (reject_sentinel _ _ _) => apply np_reject_sentinel; solve_wire
  | |- no_panic (reject_identified _ _ _ _ _ _ _) => apply np_reject_identified; solve_wire
  | |- no_panic (send_share_error _ _ _) => apply np_share_error; solve_wire
  end.

Lemma np_retarget clk cid : no_panic (maybe_retarget clk cid).
Proof. unfold maybe_retarget. np. Qed.

Lemma np_relay clk cfg sh job t w r i : no_panic (relay_share clk cfg sh job t w r i).
Proof.
  unfold relay_share, enqueue_share_event. np; first [apply np_retarget | np_reject].
Qed.

Lemma np_validate clk cfg jt ch en sh : no_panic (validate_and_relay clk cfg jt ch en sh).
Proof. unfold validate_and_relay. np; first [apply np_relay | np_reject]. Qed.

Lemma np_admit clk sh : no_panic (admit_share clk sh).
Proof. unfold admit_share. np; np_reject. Qed.

Lemma np_allocate r : no_panic (allocate_ids r).
Proof. unfold allocate_ids, refuse_open, send_open_error. np. Qed.

Lemma np_register clk cfg peer r st : no_panic (register_channel clk cfg peer r st).
Proof. unfold register_channel, refuse_open, send_open_error. np. Qed.

Lemma np_prevhash clk cid job : no_panic (send_prevhash clk cid job).
Proof. unfold send_prevhash. np. Qed.

Lemma np_open_standard clk cfg lj peer p : no_panic (handle_open_standard_channel clk cfg lj peer p).
Proof.
  unfold handle_open_standard_channel, send_open_error, send_standard_job.
  pose proof (msg_no_panic (decode := OpenStandardMiningChannel.decode) p) as Hd.
  np; try done; first [apply np_allocate | apply np_register | apply np_prevhash].
Qed.

Lemma np_open_extended clk cfg lj peer p : no_panic (handle_open_extended_channel clk cfg lj peer p).
Proof.
  unfold handle_open_extended_channel, refuse_open, send_open_error, send_extended_job.
  pose proof (msg_no_panic (decode := OpenExtendedMiningChannel.decode) p) as Hd.
  np; try done; first [apply np_allocate | apply np_register | apply np_prevhash].
Qed.

Lemma np_close p : no_panic (handle_close_channel p).
Proof.
  unfold handle_close_channel. pose proof (msg_no_panic (decode := CloseChannel.decode) p) as Hd.
  np. done.
Qed.

Lemma as_action_panics m s : (as_action m s).1 = Panics <-> (m s).1 = Panics.
Proof. unfold as_action. destruct (m s) as [[a|e|] s']; cbn; split; congruence. Qed.

Lemma standard_panics_iff clk cfg jt p s :
  (handle_submit_shares clk cfg jt p s).1 = Panics <->
  exists e, SubmitSharesStandard.decode p = Fail e.
Proof.
  unfold handle_submit_shares.
  pose proof (msg_no_panic (decode := SubmitSharesStandard.decode) p) as Hd.
  destruct (SubmitSharesStandard.decode p) as [m|e|]; [|split; [by exists e|done]|done].
  split; [|by intros [e ?]]. intros Hp. exfalso. revert Hp. revert s.
  change (no_panic (let! admitted := admit_share clk (mk_share (SubmitSharesStandard.channel_id m)
    (SubmitSharesStandard.sequence_number m) (SubmitSharesStandard.job_id m)
    (SubmitSharesStandard.nonce m) (SubmitSharesStandard.ntime m) (SubmitSharesStandard.version m)) in
    match admitted with None => mret tt | Some ch => validate_and_relay clk cfg jt ch
      (ChannelState.extranonce_prefix ch) (mk_share (SubmitSharesStandard.channel_id m)
    (SubmitSharesStandard.sequence_number m) (SubmitSharesStandard.job_id m)
    (SubmitSharesStandard.nonce m) (SubmitSharesStandard.ntime m) (SubmitSharesStandard.version m)) end)).
  np; first [apply np_admit | apply np_validate].
Qed.

Lemma extended_panics_iff clk cfg jt p s :
  (handle_submit_shares_extended clk cfg jt p s).1 = Panics <->
  exists e, SubmitSharesExtended.decode p = Fail e.
Proof.
  unfold handle_submit_shares_extended.
  pose proof (msg_no_panic (decode := SubmitSharesExtended.decode) p) as Hd.
  destruct (SubmitSharesExtended.decode p) as [m|e|]; [|split; [by exists e|done]|done].
  split; [|by intros [e ?]]. cbv zeta. fold (extended_share m).
  match goal with |- (?h s).1 = _ -> _ => assert (no_panic h) as Hn end.
  { np; first [np_reject | apply np_admit | apply np_validate]. }
  intros Hp. by destruct (Hn s).
Qed.

(** (panics): in the steady state a frame makes the connection task panic exactly when it is
    a share submission of the base protocol whose payload does not decode. Nothing else a miner
    can send, and no failing write, does. *)
Theorem miner_frame_panics_iff clk cfg jt latest peer f s :
  (handle_miner_frame clk cfg jt latest peer f s).1 = Panics <->
  Z.land (extension_type f) 0x7fff = 0 /\
  ((msg_type f = MESSAGE_TYPE_SUBMIT_SHARES_STANDARD /\
    exists e, SubmitSharesStandard.decode (payload f) = Fail e) \/
   (msg_type f = MESSAGE_TYPE_SUBMIT_SHARES_EXTENDED /\
    exists e, SubmitSharesExtended.decode (payload f) = Fail e)).
Proof.
  unfold handle_miner_frame. destruct (_ =? 0) eqn:Hx; z_bool; cbn [negb];
    [|split; [discriminate|tauto]].
  destruct (msg_type f =? _) eqn:E1; z_bool.
  { rewrite as_action_panics, standard_panics_iff, E1. split; [auto|].
    intros (_ & [[_ ?]|[? _]]); done. }
  destruct (msg_type f =? _) eqn:E2; z_bool.
  { rewrite as_action_panics, extended_panics_iff, E2. split; [auto|].
    intros (_ & [[? _]|[_ ?]]); done. }
  split; [|intros (_ & [[? _]|[? _]]); done]. intros Hp. exfalso. revert Hp.
  match goal with |- (?h s).1 = _ -> _ => assert (no_panic h) as Hn end; [|apply Hn].
  assert (forall m, no_panic m -> no_panic (as_action m)) as Ha.
  { intros m Hm s' Hs. by apply as_action_panics, Hm in Hs. }
  unfold reject_extended_channel_err. np;
    first [apply Ha; apply np_open_standard | apply Ha; apply np_open_extended | apply np_close].
Qed.
End PanicFacts.

(** ** A share dropped on a full queue cannot be resubmitted *)

Section DroppedShare.
Context `{Sha256Crate, HexCrate, HmacCrate, SubmissionJson}.

Lemma reject_keeps_dedup sh evt reason s :
  Conn.share_dedup (((enqueue_share_event evt ;;!
    send_share_error (channel_id sh) (sequence_number sh) reason) s).2) = Conn.share_dedup s.
Proof.
  unfold enqueue_share_event, send_share_error, send_or_exit, encode_or_exit, write_or_exit,
    write_frame, mmodify, mbind, mret, mexit, mpanic.
  by repeat case_match; simplify_eq.
Qed.

Lemma check_and_insert_in id d :
  (ShareDedupSet.check_and_insert id d).1 = false ->
  id ∈ ShareDedupSet.set (ShareDedupSet.check_and_insert id d).2.
Proof.
  unfold ShareDedupSet.check_and_insert. case_decide; [done|].
  destruct (ShareDedupSet.evict _ _ _). cbn. set_solver.
Qed.

(** The identity of a share on a channel. *)
Definition identity_of (job : JobRecord.t) (extranonce : bytes) (sh : share) : bytes :=
  compute_share_id (header_identity_bytes (version sh) (JobRecord.prev_hash job)
    (job_merkle_root job extranonce) (ntime sh) (JobRecord.nbits job) (nonce sh)).

Lemma dropped_identity_kept clk cfg jt ch ch1 job sh s s1 l :
  ch1 = ChannelState.set_rate_limiter l ch ->
  same_io s s1 -> Conn.share_dedup s1 = Conn.share_dedup s ->
  JobTable.get jt (job_id sh) = Some job ->
  ConnectionChannels.get (Conn.channels s) (channel_id sh) = Some ch ->
  share_verdict clk cfg jt ChannelState.extranonce_prefix s sh
    = Some GatewayReason.ShareDroppedQueueFull ->
  identity_of job (ChannelState.extranonce_prefix ch) sh ∈
    ShareDedupSet.set (Conn.share_dedup
      (validate_and_relay clk cfg jt ch1 (ChannelState.extranonce_prefix ch) sh s1).2).
Proof.
  intros -> Hio Hdd Hj Hch. unfold share_verdict. rewrite Hch, Hj.
  destruct (ShareRateLimiter.try_acquire _ _).1; cbn [negb]; [|done]. cbv zeta.
  unfold validate_and_relay. rewrite Hj.
  destruct (check_version_bits _ _); cbn [negb]; [|done].
  cbn [ChannelState.activation_min_ntime ChannelState.maximum_target ChannelState.worker_id
       ChannelState.set_rate_limiter].
  change (ChannelState.elapsed_since_prevhash_secs (Clock.monotonic_ms clk)
    (ChannelState.set_rate_limiter l ch))
    with (ChannelState.elapsed_since_prevhash_secs (Clock.monotonic_ms clk) ch).
  destruct (check_ntime_bounds _ _ _ _ _ _); cbn [negb]; [|done]. cbv zeta.
  fold (job_merkle_root job (ChannelState.extranonce_prefix ch)). unfold identity_of.
  set (header := header_identity_bytes _ _ _ _ _ _).
  destruct (validate_share_pow header _); cbn [negb]; [|done].
  case_bool_decide as Hin; [done|]. destruct (has_room _) eqn:Hroom; [done|]. intros _.
  unfold mbind at 1, mget. rewrite Hdd.
  pose proof (check_and_insert_in (compute_share_id header) (Conn.share_dedup s)) as Hci.
  destruct (ShareDedupSet.check_and_insert _ _) as [replay dd] eqn:Ed.
  assert (replay = false) as ->.
  { unfold ShareDedupSet.check_and_insert in Ed. rewrite decide_False in Ed by done.
    destruct (ShareDedupSet.evict _ _ _). congruence. }
  unfold mmodify at 1, mbind at 1, relay_share, mmodify at 1, mbind at 1, mget, mbind at 1, try_send.
  cbn [Conn.share_forward_tx Conn.set_decoded Conn.set_dedup].
  destruct Hio as (_ & _ & -> & _). rewrite Hroom. unfold mmodify at 1, mbind at 1, reject_identified.
  rewrite reject_keeps_dedup. cbn. by apply Hci.
Qed.

(** (dropped share): when a valid share is rejected because the relay queue is full, its
    identity stays in the dedup set, so that the same share submitted again on a connection
    state with that dedup set and the channel as before is rejected as a replay. *)
Theorem dropped_share_is_replay clk cfg jt p m s s2 :
  let sh := mk_share (SubmitSharesStandard.channel_id m) (SubmitSharesStandard.sequence_number m)
    (SubmitSharesStandard.job_id m) (SubmitSharesStandard.nonce m) (SubmitSharesStandard.ntime m)
    (SubmitSharesStandard.version m) in
  SubmitSharesStandard.decode p = Val m -> Conn.write_outcomes s = [] ->
  share_verdict clk cfg jt ChannelState.extranonce_prefix s sh
    = Some GatewayReason.ShareDroppedQueueFull ->
  Conn.share_dedup s2 = Conn.share_dedup (handle_submit_shares clk cfg jt p s).2 ->
  ConnectionChannels.get (Conn.channels s2) (channel_id sh)
    = ConnectionChannels.get (Conn.channels s) (channel_id sh) ->
  share_verdict clk cfg jt ChannelState.extranonce_prefix s2 sh
    = Some GatewayReason.ShareReplayDetected.
Proof.
  intros sh Hd Hw Hv Hdd Hch2. unfold handle_submit_shares in Hdd. rewrite Hd in Hdd. fold sh in Hdd.
  unfold mbind at 1 in Hdd.
  destruct (ConnectionChannels.get (Conn.channels s) (channel_id sh)) as [ch|] eqn:Hch;
    [|unfold share_verdict in Hv; by rewrite Hch in Hv].
  destruct (ShareRateLimiter.try_acquire (Clock.rate_now clk) (ChannelState.rate_limiter ch)).1 eqn:Hr;
    [|unfold share_verdict in Hv; by rewrite Hch, Hr in Hv].
  destruct (admit_allowed clk sh ch s Hch Hr) as (s1 & l & E & Hio & Hd1). rewrite E in Hdd.
  destruct (JobTable.get jt (job_id sh)) as [job|] eqn:Hj;
    [|unfold share_verdict in Hv; by rewrite Hch, Hr, Hj in Hv].
  pose proof (dropped_identity_kept clk cfg jt ch _ job sh s s1 l eq_refl Hio Hd1 Hj Hch Hv) as Hin.
  cbn [ChannelState.extranonce_prefix ChannelState.set_rate_limiter] in Hdd.
  rewrite <-Hdd in Hin. unfold share_verdict in Hv |- *. rewrite Hch2, Hr, Hj. rewrite Hch, Hr, Hj in Hv.
  cbv zeta in Hv |- *. repeat case_if; try done; exfalso;
    match goal with Hf : bool_decide (_ ∈ ShareDedupSet.set (Conn.share_dedup s2)) = false |- _ =>
      by apply bool_decide_eq_false in Hf; apply Hf end.
Qed.
End DroppedShare.

(** ** Job distribution *)

Section Distribution.
Context `{Sha256Crate, HexCrate, HmacCrate, SubmissionJson}.

Lemma mbind_ret {A B} (m : M A) (k : A -> M B) s b s' :
  mbind m k s = (Ret b, s') -> exists a s1, m s = (Ret a, s1) /\ k a s1 = (Ret b, s').
Proof. unfold mbind. destruct (m s) as [[a|e|] s1]; [eauto|done|done]. Qed.

Lemma send_or_exit_ret ext ty r s s' : send_or_exit ext ty r s = (Ret tt, s') ->
  exists p, r = Ok p /\ Conn.sent s' = Conn.sent s ++ [mk_frame ext ty p] /\
    Conn.channels s' = Conn.channels s.
Proof.
  unfold send_or_exit, encode_or_exit, write_or_exit, write_frame, mbind, mret, mexit.
  destruct r as [p|e]; [|done].
  destruct (Conn.write_outcomes s) as [|[e|] rest]; [|done|]; intros [= <-]; by exists p.
Qed.

Lemma get_update m i f k :
  (forall c, ChannelState.closed (f c) = ChannelState.closed c) ->
  ConnectionChannels.get (ConnectionChannels.update m i f) k
  = if decide (i = k) then f <$> ConnectionChannels.get m i else ConnectionChannels.get m k.
Proof. intros Hf. rewrite <-!view_lookup, view_update, lookup_alter by done. done. Qed.

(** A channel after a job was sent on it. *)
Definition with_job (clk : Clock.t) (job : JobBroadcast.t) (ch : ChannelState.t) : ChannelState.t :=
  ChannelState.record_active_job_sent (JobBroadcast.job_id job)
    (match JobBroadcast.prevhash_update job with
     | Some ph => ChannelState.record_prevhash_sent (Clock.monotonic_ms clk)
                    (JobBroadcast.job_id job) (PrevhashUpdate.min_ntime ph) ch
     | None => ch
     end).

(** The job message a channel must get. *)
Definition job_frame (job : JobBroadcast.t) (cid : Z) (ch : ChannelState.t) (f : frame) : Prop :=
  match ChannelState.kind ch with
  | ChannelKind.Standard =>
      exists p, NewMiningJob.encode (NewMiningJob.mk cid (JobBroadcast.job_id job)
          (JobBroadcast.min_ntime job) (JobBroadcast.version job)
          (compute_merkle_root (JobBroadcast.coinbase_tx_prefix job)
             (ChannelState.extranonce_prefix ch) (JobBroadcast.coinbase_tx_suffix job)
             (JobBroadcast.merkle_path job))) = Ok p /\
        f = mk_frame 0x8000 MESSAGE_TYPE_NEW_MINING_JOB p
  | ChannelKind.Extended _ _ =>
      exists p, NewExtendedMiningJob.encode (NewExtendedMiningJob.mk cid (JobBroadcast.job_id job)
          (JobBroadcast.min_ntime job) (JobBroadcast.version job) true (JobBroadcast.merkle_path job)
          (JobBroadcast.coinbase_tx_prefix job) (JobBroadcast.coinbase_tx_suffix job)) = Ok p /\
        f = mk_frame 0x8000 MESSAGE_TYPE_NEW_EXTENDED_MINING_JOB p
  end.

Lemma send_prevhash_ret clk cid job s s' : send_prevhash clk cid job s = (Ret tt, s') ->
  (exists fs, Conn.sent s' = Conn.sent s ++ fs) /\
  forall k, ConnectionChannels.get (Conn.channels s') k
    = if decide (cid = k) then with_job clk job <$> ConnectionChannels.get (Conn.channels s) cid
      else ConnectionChannels.get (Conn.channels s) k.
Proof.
  unfold send_prevhash, with_job. intros (a & s1 & Hs1 & Hs')%mbind_ret. injection Hs' as <-.
  cbn [Conn.sent Conn.channels Conn.set_channels].
  destruct (JobBroadcast.prevhash_update job) as [ph|].
  - apply mbind_ret in Hs1 as (u & s0 & Hs0 & [= _ <-]). destruct u.
    apply send_or_exit_ret in Hs0 as (p & _ & Hs & Hc). cbn. rewrite Hs, Hc. split; [eauto|].
    intros k. rewrite !get_update by done. destruct (decide (cid = k)) as [<-|]; [|done].
    rewrite decide_True by done. by destruct (ConnectionChannels.get _ _).
  - injection Hs1 as _ <-. split; [exists []; by rewrite app_nil_r|]. intros k. by rewrite get_update.
Qed.

Lemma distribute_to_ret clk job cid s s' : distribute_to clk job cid s = (Ret tt, s') ->
  (exists fs, Conn.sent s' = Conn.sent s ++ fs /\
     forall ch, ConnectionChannels.get (Conn.channels s) cid = Some ch ->
       exists f, job_frame job cid ch f /\ f ∈ fs) /\
  forall k, ConnectionChannels.get (Conn.channels s') k
    = if decide (cid = k) then with_job clk job <$> ConnectionChannels.get (Conn.channels s) cid
      else ConnectionChannels.get (Conn.channels s) k.
Proof.
  unfold distribute_to. intros Hd. apply mbind_ret in Hd as (s0 & s0' & [= <- <-] & Hd).
  destruct (ConnectionChannels.get (Conn.channels s) cid) as [ch|] eqn:Hch.
  - apply mbind_ret in Hd as (u & s1 & Hs1 & Hp). destruct u.
    assert (exists f, job_frame job cid ch f /\ Conn.sent s1 = Conn.sent s ++ [f] /\
      Conn.channels s1 = Conn.channels s) as (f & Hf & Hs & Hc).
    { unfold job_frame. destruct (ChannelState.kind ch);
        apply send_or_exit_ret in Hs1 as (p & Hp1 & Hs & Hc); eauto 10. }
    apply send_prevhash_ret in Hp as ((fs & Hfs) & Hg). rewrite Hc in Hg. rewrite Hs in Hfs. split.
    + exists ([f] ++ fs). rewrite Hfs, app_assoc. split; [done|]. intros ch' [= <-].
      exists f. split; [done|set_solver].
    + intros k. rewrite Hg, Hch. done.
  - injection Hd as <-. split.
    + exists []. rewrite app_nil_r. split; [done|]. by intros.
    + intros k. case_decide; [by subst k; rewrite Hch|done].
Qed.

Lemma distribute_skips clk job order cid s s' :
  cid ∉ order -> distribute_job clk job order s = (Ret tt, s') ->
  ConnectionChannels.get (Conn.channels s') cid = ConnectionChannels.get (Conn.channels s) cid /\
  exists fs, Conn.sent s' = Conn.sent s ++ fs.
Proof.
  revert s. induction order as [|k order IH]; intros s Hl Hd; cbn [distribute_job] in Hd.
  - injection Hd as <-. split; [done|]. exists []. by rewrite app_nil_r.
  - apply mbind_ret in Hd as ([] & s2 & Hs2 & Hd).
    apply distribute_to_ret in Hs2 as ((fs & Hfs & _) & Hg).
    destruct (IH s2 ltac:(set_solver) Hd) as (Hx & fs' & Hfs').
    rewrite Hx, Hg, decide_False by set_solver. split; [done|].
    rewrite Hfs', Hfs, <-app_assoc. eauto.
Qed.

(** (job distribution): if distributing a job completes, then, in whatever order the channels
    are visited, every visited open channel has been sent the job message of its kind, with the
    merkle root of its own extranonce prefix, and now tracks the job and its prevhash; channels
    that were not visited are untouched. *)
Theorem distribute_job_reaches clk job order s s' :
  distribute_job clk job order s = (Ret tt, s') -> NoDup order ->
  forall cid ch, ConnectionChannels.get (Conn.channels s) cid = Some ch ->
  (cid ∈ order ->
     ConnectionChannels.get (Conn.channels s') cid = Some (with_job clk job ch) /\
     exists f, job_frame job cid ch f /\ f ∈ Conn.sent s') /\
  (cid ∉ order -> ConnectionChannels.get (Conn.channels s') cid = Some ch).
Proof.
  intros Hd Hnd cid ch Hch.
  assert ((exists fs, Conn.sent s' = Conn.sent s ++ fs) /\
    ((cid ∈ order -> ConnectionChannels.get (Conn.channels s') cid = Some (with_job clk job ch) /\
       exists f, job_frame job cid ch f /\ f ∈ Conn.sent s') /\
     (cid ∉ order -> ConnectionChannels.get (Conn.channels s') cid = Some ch))) as [_ Hr]; [|exact Hr].
  revert s Hd Hch. induction Hnd as [|c order Hc Hnd IH]; intros s Hd Hch; cbn [distribute_job] in Hd.
  - injection Hd as <-. split; [exists []; by rewrite app_nil_r|]. split; [set_solver|done].
  - apply mbind_ret in Hd as (u & s1 & Hs1 & Hrest). destruct u.
    apply distribute_to_ret in Hs1 as ((fs & Hfs & Hf) & Hg).
    destruct (decide (c = cid)) as [->|Hne].
    + assert (ConnectionChannels.get (Conn.channels s1) cid = Some (with_job clk job ch)) as Hg1
        by (by rewrite Hg, decide_True, Hch).
      destruct (distribute_skips clk job order cid s1 s' Hc Hrest) as (Hx & fs' & Hfs').
      rewrite Hg1 in Hx. destruct (Hf ch Hch) as (f & Hjf & Hin). split; [rewrite Hfs', Hfs, <-app_assoc; eauto|].
      split; [|set_solver]. intros _. split; [done|]. exists f. split; [done|].
      rewrite Hfs', Hfs. set_solver.
    + assert (ConnectionChannels.get (Conn.channels s1) cid = Some ch) as Hg1
        by (by rewrite Hg, decide_False).
      destruct (IH s1 Hrest Hg1) as ((fs' & Hfs') & H1' & H2'). split.
      * rewrite Hfs', Hfs, <-app_assoc. eauto.
      * split; [intros Hin; apply H1'; set_solver|intros Hin; apply H2'; set_solver].
Qed.
End Distribution.

(** * Concrete runs *)

Module HandlerSample.
Import ShareSample.

Definition clk : Clock.t :=
  Clock.mk 10 5000 1700000100 1700000100000 1700000100001 10 10 10 11 0 0 0 1700000000000.

Definition cfg : HandlerConfig.t :=
  HandlerConfig.mk 4 (replicate 32 xff) 10 30 7200 100 5 "gw-1" [x01] true 4 false f64_one 60 1 100
    f64_one.

Definition job : JobRecord.t :=
  JobRecord.mk 1 100 800000 0x20000000 (replicate 32 xaa) 0x1703ffff [x01] [xff] [] 1700000000
    1700000000 1700000001 "src" true 0.

Definition jobs : JobTable.t := JobTable.insert 5 (JobTable.new 300000 10) job.

Definition channels : ConnectionChannels.t :=
  (ConnectionChannels.open_extended_channel 0 0 2 [x02; x00; x00; x00] "worker2" None
     (replicate 32 xff) 5 4 8
     (ConnectionChannels.open_channel 0 0 1 [x01; x00; x00; x00] "worker1" None
        (replicate 32 xff) 5 (ConnectionChannels.new 4)).2).2.

(** A connection with one standard and one extended channel and a relay queue of [cap]. *)
Definition conn (cap : Z) : Conn.t :=
  Conn.mk [] [] channels (ShareDedupSet.new 100) (mk_queue [] 8 false) (mk_queue [] cap false) 0 0 0 0
    0 0 IdAllocator.new (ExtranonceAllocator.mk IdAllocator.new 4) ∅ [].

Definition share_bytes : bytes :=
  le_bytes 4 1 ++ le_bytes 4 7 ++ le_bytes 4 1 ++ le_bytes 4 42 ++ le_bytes 4 1700000010
  ++ le_bytes 4 0x20000000.

Definition share_message : SubmitSharesStandard.t :=
  SubmitSharesStandard.mk 1 7 1 42 1700000010 0x20000000.

(** The same share as an extended one on channel [cid]. *)
Definition extended_bytes (cid : Z) : bytes :=
  le_bytes 4 cid ++ le_bytes 4 7 ++ le_bytes 4 1 ++ le_bytes 4 42 ++ le_bytes 4 1700000010
  ++ le_bytes 4 0x20000000 ++ [x04; x0a; x0b; x0c; x0d].

Definition extended_message (cid : Z) : SubmitSharesExtended.t :=
  SubmitSharesExtended.mk cid 7 1 42 1700000010 0x20000000 [x0a; x0b; x0c; x0d].

Definition broadcast : JobBroadcast.t :=
  JobBroadcast.mk 1 0x20000000 [x01] [xff] []
    (Some (PrevhashUpdate.mk (replicate 32 xaa) 1700000000 0x1703ffff)) None.

Lemma short_share_panics_witness :
  (handle_submit_shares clk cfg jobs [x00] (conn 8)).1 = Panics.
Proof. apply short_share_panics. reflexivity. Defined.

Lemma accepted_queued sh v s s' : v = None -> answered sh v s s' ->
  items (Conn.share_forward_tx s) = [] -> length (items (Conn.share_forward_tx s')) = 1%nat.
Proof. intros -> (_ & (sub & -> & _) & _) ->. reflexivity. Qed.

(** The share is accepted: one success frame, one queued submission. *)
Lemma submit_share_answered_witness :
  exists s', handle_submit_shares clk cfg jobs share_bytes (conn 8) = (Ret tt, s') /\
    length (items (Conn.share_forward_tx s')) = 1%nat.
Proof.
  destruct (submit_share_answered clk cfg jobs share_bytes share_message (conn 8))
    as (s' & E & Ha); [by vm_compute|reflexivity|].
  exists s'. split; [exact E|].
  refine (accepted_queued _ _ _ _ _ Ha eq_refl). vm_compute. reflexivity.
Defined.

Lemma submit_extended_share_answered_witness :
  exists s', handle_submit_shares_extended clk cfg jobs (extended_bytes 2) (conn 8) = (Ret tt, s') /\
    length (items (Conn.share_forward_tx s')) = 1%nat.
Proof.
  destruct (submit_extended_share_answered clk cfg jobs (extended_bytes 2) (extended_message 2) (conn 8))
    as (s' & E & Ha); [by vm_compute|reflexivity| |].
  { intros ch Hch. vm_compute in Hch. injection Hch as <-. by exists 4, 8. }
  exists s'. split; [exact E|].
  refine (accepted_queued _ _ _ _ _ Ha eq_refl). vm_compute. reflexivity.
Defined.

Lemma extended_on_standard_witness :
  exists s', handle_submit_shares_extended clk cfg jobs (extended_bytes 1) (conn 8) = (Ret tt, s') /\
    Conn.share_event_tx s' = mk_queue [] 8 false.
Proof.
  destruct (extended_on_standard_unaccounted clk cfg jobs (extended_bytes 1) (extended_message 1)
    (conn 8) (ChannelState.new 0 0 1 [x01; x00; x00; x00] "worker1" None (replicate 32 xff) 5))
    as (s' & E & _ & Hq & _); [by vm_compute..|].
  exists s'. split; [exact E|exact Hq].
Defined.

(** With a relay queue of capacity 0 the share is dropped, and a replay once there is room. *)
Lemma dropped_share_witness :
  let s2 := Conn.set_channels (Conn.set_forward (handle_submit_shares clk cfg jobs share_bytes (conn 0)).2
              (mk_queue [] 8 false) 1) channels in
  share_verdict clk cfg jobs ChannelState.extranonce_prefix s2 (mk_share 1 7 1 42 1700000010 0x20000000)
  = Some GatewayReason.ShareReplayDetected.
Proof.
  exact (dropped_share_is_replay clk cfg jobs share_bytes share_message (conn 0)
    (Conn.set_channels (Conn.set_forward (handle_submit_shares clk cfg jobs share_bytes (conn 0)).2
              (mk_queue [] 8 false) 1) channels)
    ltac:(by vm_compute) eq_refl ltac:(by vm_compute) eq_refl eq_refl).
Defined.

Lemma distribute_job_witness :
  exists s', distribute_job clk broadcast [2; 1] (conn 8) = (Ret tt, s') /\
    exists ch, ConnectionChannels.get (Conn.channels s') 1 = Some ch /\
      ChannelState.current_job_id ch = Some 1.
Proof.
  destruct (distribute_job clk broadcast [2; 1] (conn 8)) as [r s'] eqn:E.
  assert (r = Ret tt) as -> by (vm_compute in E; congruence).
  exists s'. split; [reflexivity|].
  destruct (proj1 (distribute_job_reaches clk broadcast [2; 1] (conn 8) s' E
    ltac:(repeat constructor; set_solver) 1 _ eq_refl)) as [Hg _]; [set_solver|].
  eexists. split; [exact Hg|reflexivity].
Defined.
End HandlerSample.
