(* ===== verification/Wal.v ===== *)
(** * The share write-ahead log

    Models [services/sv2-gateway/src/wal.rs]: the log file and its in-memory index, replay,
    recovery, batched appends, early completions and compaction. The file is the list of its
    lines; the JSON of a record is an argument with the law that parsing inverts printing. Every
    write comes with its outcome: an append that fails leaves arbitrary extra lines behind, a
    compaction that fails leaves the file as it was. A caller stops on a failed write. The iteration order of a hash map is an
    argument. [sync_data] and [rename] are what makes an append that returned [Ok] part of the
    file a crash leaves; they have no other effect in the model. *)

From S2P Require Import Prelude Crates Float64 Reason Shares.

Inductive WalStatus : Type := Pending | Completed.

Module WalRecord.
Record t : Type := mk {
  status : WalStatus; share_id_hex : string; event_id_hex : string; timestamp_ms : Z }.
End WalRecord.

(** [(share_id_hex, event_id_hex)]. *)
Abbreviation key := (string * string)%type.

Definition key_of (r : WalRecord.t) : key := (WalRecord.share_id_hex r, WalRecord.event_id_hex r).

Definition record (st : WalStatus) (ts : Z) (k : key) : WalRecord.t := WalRecord.mk st k.1 k.2 ts.

(** [serde_json] on a record. *)
Class WalJson : Type := {
  record_to_string : WalRecord.t -> string;
  record_from_str : string -> option WalRecord.t
}.

(** Printed records parse back and are not blank lines. *)
Definition blank_char (c : Ascii.ascii) : bool :=
  let n := Ascii.N_of_ascii c in ((9 <=? n) && (n <=? 13) || (n =? 32))%N.
Definition is_blank (s : string) : bool := forallb blank_char (String.list_ascii_of_string s).

Class WalJsonLaws `{WalJson} : Prop := {
  record_round_trip : forall r, record_from_str (record_to_string r) = Some r;
  record_not_blank : forall r, is_blank (record_to_string r) = false
}.

(** The iteration order of a [HashMap]. *)
Class MapOrder : Type := {
  iterate {A} : gmap key A -> list (key * A);
  iterate_perm {A} (m : gmap key A) : iterate m ≡ₚ map_to_list m
}.

Definition WAL_BATCH_MAX : nat := 1024.
Definition EARLY_COMPLETION_TTL : Z := 10 * 1000000000.
Definition EARLY_COMPLETION_CAP : Z := 4096.

(** [take_queued]: the item that woke the loop and what is queued behind it, and the rest. *)
Definition take_queued {A} (queued : list A) (first : A) : list A * list A :=
  (first :: take (WAL_BATCH_MAX - 1) queued, drop (WAL_BATCH_MAX - 1) queued).

Module ShareWal.
Record t : Type := mk {
  file : list string;
  pending : gmap key Z;
  completed_since_compaction : Z;
  compaction_threshold : Z;
  completed_early : gmap key Z
}.

Section Ops.
Context `{WalJson, MapOrder}.

(** One line of [read_pending_index]. *)
Definition replay_line (acc : gmap key Z * gset key) (line : string) : gmap key Z * gset key :=
  let '(pending, completed_early) := acc in
  if is_blank line then acc
  else match record_from_str line with
  | None => acc
  | Some r =>
      let k := key_of r in
      match WalRecord.status r with
      | Pending =>
          if decide (k ∈ completed_early) then (pending, completed_early ∖ {[k]})
          else (<[k := WalRecord.timestamp_ms r]> pending, completed_early)
      | Completed =>
          match pending !! k with
          | Some _ => (delete k pending, completed_early)
          | None => (pending, {[k]} ∪ completed_early)
          end
      end
  end.

Definition replay (file : list string) : gmap key Z * gset key := foldl replay_line (∅, ∅) file.

Definition read_pending_index (file : list string) : gmap key Z := (replay file).1.

(** [open] on a file that can be read; a missing file is the empty list. *)
Definition open (file : list string) (compaction_threshold : Z) : t :=
  mk file (read_pending_index file) 0 compaction_threshold ∅.

(** [recover]: [now] is the clock reading of each event. *)
Definition recover (now : key -> Z) (w : t) : list ShareForwardResultEvent.t * t :=
  ((fun p : key * Z =>
      ShareForwardResultEvent.mk "share_forward_result" p.1.1 p.1.2 false None None
        (Some "process crashed before forward completed"%string)
        (Some (GatewayReason.as_str GatewayReason.ProcessCrashRecovery)) (now p.1))
     <$> iterate (pending w),
   mk (file w) ∅ (completed_since_compaction w) (compaction_threshold w) (completed_early w)).

Definition pending_count (w : t) : Z := Z.of_nat (size (pending w)).

(** The outcome of a write. *)
Inductive io : Type := Written | Failed (left_behind : list string).

Definition append_records (o : io) (records : list WalRecord.t) (file : list string)
    : bool * list string :=
  match records, o with
  | [], _ => (true, file)
  | _, Written => (true, file ++ (record_to_string <$> records))
  | _, Failed extra => (false, file ++ extra)
  end.

Definition prune_completed_early (now : Z) (early : gmap key Z) : gmap key Z :=
  filter (fun p => saturating_sub now p.2 < EARLY_COMPLETION_TTL) early.

(** [compact_inner]: [ok] says whether the temporary file could be written and renamed; [false]
    is the [Err] return, after the early completions were pruned. *)
Definition compact_inner (ok : bool) (instant_now rewritten_at : Z) (w : t) : bool * t :=
  let early := prune_completed_early instant_now (completed_early w) in
  if ok then
    let pending_lines :=
      (fun p : key * Z => record_to_string (record Pending p.2 p.1)) <$> iterate (pending w) in
    let early_lines :=
      (fun p : key * Z => record_to_string (record Completed rewritten_at p.1)) <$> iterate early in
    (true, mk (pending_lines ++ early_lines) (pending w) 0 (compaction_threshold w) early)
  else (false, mk (file w) (pending w) (completed_since_compaction w) (compaction_threshold w) early).

Definition finish_recovery (ok : bool) (instant_now rewritten_at : Z) (w : t) : bool * t :=
  compact_inner ok instant_now rewritten_at w.

(** The [consumes_early] flags of a batch: the first pending record of a share whose completion
    came early consumes that completion. *)
Fixpoint consumes_early (early : gmap key Z) (consumed : gset key) (shares : list key)
    : list bool :=
  match shares with
  | [] => []
  | k :: shares =>
      match early !! k with
      | Some _ =>
          bool_decide (k ∉ consumed) :: consumes_early early ({[k]} ∪ consumed) shares
      | None => false :: consumes_early early consumed shares
      end
  end.

(** The in-memory effect of one durable pending record. *)
Definition index_pending (acc : gmap key Z * gmap key Z) (rc : WalRecord.t * bool)
    : gmap key Z * gmap key Z :=
  let '(pending, early) := acc in
  let '(r, consumes) := rc in
  if consumes then (pending, delete (key_of r) early)
  else (<[key_of r := WalRecord.timestamp_ms r]> pending, early).

Definition mark_pending (now : Z) (o : io) (shares : list key) (w : t) : bool * t :=
  let consumes := consumes_early (completed_early w) ∅ shares in
  let records := record Pending now <$> shares in
  let '(ok, file) := append_records o records (file w) in
  if negb ok then
    (false, mk file (pending w) (completed_since_compaction w) (compaction_threshold w)
       (completed_early w))
  else
    let '(pending, early) :=
      foldl index_pending (pending w, completed_early w) (zip records consumes) in
    (true, mk file pending (completed_since_compaction w) (compaction_threshold w) early).

(** The in-memory effect of one completion. *)
Definition complete_one (arrived : Z) (acc : gmap key Z * gmap key Z) (k : key)
    : gmap key Z * gmap key Z :=
  let '(pending, early) := acc in
  match pending !! k with
  | Some _ => (delete k pending, early)
  | None =>
      if Z.of_nat (size early) <? EARLY_COMPLETION_CAP then (pending, <[k := arrived]> early)
      else (pending, early)
  end.

Definition mark_completed (now arrived instant_now rewritten_at : Z) (o : io) (compact_ok : bool)
    (shares : list key) (w : t) : bool * t :=
  let '(pending, early) := foldl (complete_one arrived) (pending w, completed_early w) shares in
  let records := record Completed now <$> shares in
  let '(ok, file) := append_records o records (file w) in
  if negb ok then
    (false, mk file pending (completed_since_compaction w) (compaction_threshold w) early)
  else
    let since := completed_since_compaction w + lenZ records in
    let w := mk file pending since (compaction_threshold w) early in
    if (compaction_threshold w >? 0) && (since >=? compaction_threshold w)
    then compact_inner compact_ok instant_now rewritten_at w
    else (true, w).
End Ops.
End ShareWal.

(** * Properties *)

Lemma filter_key_once {A} (f : A -> key) (l : list A) k :
  NoDup (f <$> l) -> k ∈ f <$> l -> length (filter (fun a => f a = k) l) = 1%nat.
Proof.
  induction l as [|a l IH]; intros Hnd Hk; [by apply elem_of_nil in Hk|].
  rewrite fmap_cons in Hnd, Hk. apply NoDup_cons in Hnd as [Ha Hnd].
  rewrite filter_cons. case_decide as Hf.
  - subst k. cbn. f_equal. apply length_zero_iff_nil.
    destruct (filter _ l) as [|b bs] eqn:Hb; [done|].
    assert (b ∈ filter (fun c => f c = f a) l) as [Hfb Hin]%list_elem_of_filter by (rewrite Hb; set_solver).
    destruct Ha. rewrite <-Hfb. by apply list_elem_of_fmap_2.
  - apply IH; [done|]. set_solver.
Qed.

Section WalFacts.
Context `{WalJsonLaws, MapOrder}.
Implicit Types w : ShareWal.t.

(** Replay of one record. *)
Definition apply_record (acc : gmap key Z * gset key) (r : WalRecord.t) : gmap key Z * gset key :=
  let '(pending, early) := acc in
  match WalRecord.status r with
  | Pending =>
      if decide (key_of r ∈ early) then (pending, early ∖ {[key_of r]})
      else (<[key_of r := WalRecord.timestamp_ms r]> pending, early)
  | Completed =>
      match pending !! key_of r with
      | Some _ => (delete (key_of r) pending, early)
      | None => (pending, {[key_of r]} ∪ early)
      end
  end.

Lemma replay_records rs : forall acc,
  foldl ShareWal.replay_line acc (record_to_string <$> rs) = foldl apply_record acc rs.
Proof.
  induction rs as [|r rs IH]; intros [P E]; [done|]. rewrite fmap_cons. cbn [foldl]. rewrite IH.
  f_equal. unfold ShareWal.replay_line. by rewrite record_not_blank, record_round_trip.
Qed.

Lemma replay_printed {A} (f : A -> WalRecord.t) (l : list A) acc :
  foldl ShareWal.replay_line acc ((fun a => record_to_string (f a)) <$> l)
  = foldl apply_record acc (f <$> l).
Proof. by rewrite <-replay_records, <-list_fmap_compose. Qed.

Lemma apply_pending P S ts k : apply_record (P, S) (record Pending ts k)
  = if decide (k ∈ S) then (P, S ∖ {[k]}) else (<[k := ts]> P, S).
Proof. by destruct k. Qed.

Lemma apply_completed P S ts k : apply_record (P, S) (record Completed ts k)
  = match P !! k with Some _ => (delete k P, S) | None => (P, {[k]} ∪ S) end.
Proof. by destruct k. Qed.

(** What makes the file and the index agree: replaying the file gives the pending map and the
    completions still waiting, and no share is both. *)
Record wal_ok w : Prop := {
  wo_replay : ShareWal.replay (ShareWal.file w)
    = (ShareWal.pending w, dom (ShareWal.completed_early w));
  wo_disjoint : forall k, is_Some (ShareWal.completed_early w !! k) -> ShareWal.pending w !! k = None
}.

Lemma index_one P E ts k c : ShareWal.index_pending (P, E) (record Pending ts k, c)
  = if c then (P, delete k E) else (<[k := ts]> P, E).
Proof. by destruct k, c. Qed.

(** Deciding up front which records consume an early completion is deciding one record at a
    time. *)
Lemma pending_batch (now : Z) (E0 : gmap key Z) (shares : list key) : forall (C : gset key) (P E : gmap key Z),
  (forall k, E !! k = if decide (k ∈ C) then None else E0 !! k) ->
  (forall k, is_Some (E !! k) -> P !! k = None) ->
  exists P' E',
    foldl ShareWal.index_pending (P, E)
      (zip (record Pending now <$> shares) (ShareWal.consumes_early E0 C shares)) = (P', E') /\
    foldl apply_record (P, dom E) (record Pending now <$> shares) = (P', dom E') /\
    (forall k, is_Some (E' !! k) -> P' !! k = None).
Proof.
  induction shares as [|k shares IH]; intros C P E HE Hd; [by exists P, E|].
  rewrite fmap_cons. cbn [foldl]. rewrite apply_pending.
  assert (E !! k = None -> exists P' E',
    foldl ShareWal.index_pending (<[k:=now]> P, E)
      (zip (record Pending now <$> shares) (ShareWal.consumes_early E0 C shares)) = (P', E') /\
    foldl apply_record (<[k:=now]> P, dom E) (record Pending now <$> shares) = (P', dom E') /\
    (forall k, is_Some (E' !! k) -> P' !! k = None)) as Hins.
  { intros Hn. apply IH; [done|]. intros j Hj.
    rewrite lookup_insert_ne by (intros ->; by rewrite Hn in Hj; destruct Hj). by apply Hd. }
  cbn [ShareWal.consumes_early]. destruct (E0 !! k) as [t|] eqn:Hk0.
  - cbn [zip zip_with foldl]. rewrite index_one. destruct (decide (k ∈ C)) as [HC|HC].
    + rewrite bool_decide_eq_false_2 by set_solver.
      assert (E !! k = None) as Hn by (by rewrite HE, decide_True).
      rewrite decide_False by (by rewrite not_elem_of_dom).
      replace ({[k]} ∪ C) with C by set_solver. by apply Hins.
    + rewrite bool_decide_eq_true_2 by done.
      assert (E !! k = Some t) as Hs by (by rewrite HE, decide_False).
      rewrite decide_True by (by eapply elem_of_dom_2).
      destruct (IH ({[k]} ∪ C) P (delete k E)) as (P' & E' & H1' & H2' & H3').
      * intros j. rewrite lookup_delete, HE. repeat case_decide; set_solver.
      * intros j Hj. apply Hd. rewrite lookup_delete in Hj. case_decide; [by destruct Hj|done].
      * exists P', E'. by rewrite <-dom_delete_L.
  - cbn [zip zip_with foldl]. rewrite index_one.
    assert (E !! k = None) as Hn by (rewrite HE; by case_decide).
    rewrite decide_False by (by rewrite not_elem_of_dom). by apply Hins.
Qed.

Lemma mark_pending_ok (now : Z) (shares : list key) w : wal_ok w ->
  wal_ok (ShareWal.mark_pending now ShareWal.Written shares w).2.
Proof.
  intros [Hr Hd].
  destruct (pending_batch now (ShareWal.completed_early w) shares ∅ (ShareWal.pending w)
    (ShareWal.completed_early w)) as (P' & E' & H1' & H2' & H3'); [by intros|done|].
  unfold ShareWal.mark_pending.
  assert (ShareWal.append_records ShareWal.Written (record Pending now <$> shares) (ShareWal.file w)
    = (true, ShareWal.file w ++ (record_to_string <$> (record Pending now <$> shares)))) as ->.
  { destruct shares; [by rewrite app_nil_r|done]. }
  cbn [negb]. rewrite H1'. split; cbn; [|done]. unfold ShareWal.replay in *.
  by rewrite foldl_app, Hr, replay_records.
Qed.

(** A completion is turned away only when the set of early completions is full. *)
Lemma completed_batch (now arrived : Z) (shares : list key) : forall P E : gmap key Z,
  Z.of_nat (size E) + lenZ shares <= EARLY_COMPLETION_CAP ->
  (forall k, is_Some (E !! k) -> P !! k = None) ->
  exists P' E',
    foldl (ShareWal.complete_one arrived) (P, E) shares = (P', E') /\
    foldl apply_record (P, dom E) (record Completed now <$> shares) = (P', dom E') /\
    (forall k, is_Some (E' !! k) -> P' !! k = None).
Proof.
  induction shares as [|k shares IH]; intros P E Hc Hd; [by exists P, E|].
  rewrite fmap_cons. cbn [foldl]. rewrite apply_completed. cbn [ShareWal.complete_one].
  unfold lenZ in *. cbn [length] in Hc. destruct (P !! k) as [t|] eqn:Hk.
  - apply IH; [lia|]. intros j Hj. rewrite lookup_delete. case_decide; [done|by apply Hd].
  - rewrite (proj2 (Z.ltb_lt _ _)) by lia. rewrite <-(dom_insert_L E k arrived). apply IH.
    + rewrite map_size_insert. case_match; cbn; lia.
    + intros j Hj. rewrite lookup_insert in Hj. case_decide; [by subst|by apply Hd].
Qed.

(** ** Compaction *)

Lemma pending_lines_replay (l : list (key * Z)) : forall P : gmap key Z,
  NoDup l.*1 ->
  foldl apply_record (P, ∅) ((fun p => record Pending p.2 p.1) <$> l) = (list_to_map l ∪ P, ∅).
Proof.
  induction l as [|[k t] l IH]; intros P Hnd; [by rewrite list_to_map_nil, (left_id_L ∅ (∪))|].
  apply NoDup_cons in Hnd as [Hk Hnd]. rewrite fmap_cons. cbn [foldl].
  rewrite apply_pending, decide_False by set_solver. rewrite IH by done. f_equal.
  cbn [list_to_map foldr fst snd uncurry]. rewrite <-insert_union_l, <-insert_union_r; [done|].
  by apply not_elem_of_list_to_map_1.
Qed.

Lemma early_lines_replay (ts : Z) (l : list (key * Z)) (P : gmap key Z) : forall S : gset key,
  (forall k, k ∈ l.*1 -> P !! k = None) ->
  foldl apply_record (P, S) ((fun p => record Completed ts p.1) <$> l)
  = (P, list_to_set l.*1 ∪ S).
Proof.
  induction l as [|[k t] l IH]; intros S Hk; [cbn; by rewrite (left_id_L ∅ (∪))|].
  rewrite fmap_cons. cbn [foldl]. rewrite apply_completed, Hk by (cbn; set_solver).
  rewrite IH by (intros j Hj; apply Hk; cbn; set_solver). f_equal. cbn. set_solver.
Qed.

Lemma iterate_NoDup {A} (m : gmap key A) : NoDup (iterate m).*1.
Proof. rewrite iterate_perm. apply NoDup_fst_map_to_list. Qed.

Lemma list_to_map_iterate {A} (m : gmap key A) : list_to_map (iterate m) = m.
Proof.
  rewrite <-(list_to_map_to_list m). symmetry. apply list_to_map_proper; [apply NoDup_fst_map_to_list|].
  symmetry. rewrite list_to_map_to_list. apply iterate_perm.
Qed.

Lemma elem_of_iterate {A} (m : gmap key A) k : k ∈ (iterate m).*1 <-> is_Some (m !! k).
Proof.
  rewrite iterate_perm, list_elem_of_fmap. split.
  - intros ([k' a] & -> & Ha%elem_of_map_to_list). by exists a.
  - intros [a Ha]. exists (k, a). split; [done|]. by apply elem_of_map_to_list.
Qed.

Lemma compact_replay (instant_now ts : Z) w :
  (forall k, is_Some (ShareWal.completed_early w !! k) -> ShareWal.pending w !! k = None) ->
  wal_ok (ShareWal.compact_inner true instant_now ts w).2.
Proof.
  intros Hd. unfold ShareWal.compact_inner.
  set (early := ShareWal.prune_completed_early instant_now (ShareWal.completed_early w)).
  assert (forall k, is_Some (early !! k) -> ShareWal.pending w !! k = None) as Hd'.
  { intros k [t Ht]. apply Hd. unfold early, ShareWal.prune_completed_early in Ht.
    apply map_lookup_filter_Some in Ht as [Ht _]. by exists t. }
  split; cbn; [|done]. unfold ShareWal.replay.
  rewrite foldl_app.
  rewrite (replay_printed (fun p : key * Z => record Pending p.2 p.1)).
  rewrite (replay_printed (fun p : key * Z => record Completed ts p.1)).
  rewrite pending_lines_replay by apply iterate_NoDup.
  rewrite list_to_map_iterate, (right_id_L ∅ (∪)), early_lines_replay.
  - f_equal. rewrite (right_id_L ∅ (∪)). apply set_eq. intros k.
    by rewrite elem_of_list_to_set, elem_of_iterate, elem_of_dom.
  - intros k Hk%elem_of_iterate. by apply Hd'.
Qed.

Lemma mark_completed_ok (now arrived instant_now ts : Z) (shares : list key) w :
  wal_ok w ->
  Z.of_nat (size (ShareWal.completed_early w)) + lenZ shares <= EARLY_COMPLETION_CAP ->
  wal_ok (ShareWal.mark_completed now arrived instant_now ts ShareWal.Written true shares w).2.
Proof.
  intros [Hr Hd] Hc. unfold ShareWal.mark_completed.
  destruct (completed_batch now arrived shares (ShareWal.pending w) (ShareWal.completed_early w) Hc Hd)
    as (P' & E' & H1' & H2' & H3'). rewrite H1'.
  assert (ShareWal.append_records ShareWal.Written (record Completed now <$> shares) (ShareWal.file w)
    = (true, ShareWal.file w ++ (record_to_string <$> (record Completed now <$> shares)))) as ->.
  { destruct shares; [by rewrite app_nil_r|done]. }
  cbn [negb]. case_if; [by apply compact_replay|]. split; cbn; [|done].
  unfold ShareWal.replay in *. by rewrite foldl_app, Hr, replay_records.
Qed.

(** ** The log of a running gateway

    A step is a batch that was written, or a restart: the log is opened on the file the last
    process left, recovered, and compacted. Early completions stay within their cap. *)
Inductive wal_step : ShareWal.t -> ShareWal.t -> Prop :=
  | step_pending now shares w :
      wal_step w (ShareWal.mark_pending now ShareWal.Written shares w).2
  | step_completed now arrived instant_now ts shares w :
      Z.of_nat (size (ShareWal.completed_early w)) + lenZ shares <= EARLY_COMPLETION_CAP ->
      wal_step w (ShareWal.mark_completed now arrived instant_now ts ShareWal.Written true shares w).2
  | step_restart now threshold instant_now ts w :
      wal_step w (ShareWal.finish_recovery true instant_now ts
        (ShareWal.recover now (ShareWal.open (ShareWal.file w) threshold)).2).2.

Lemma fresh_ok threshold : wal_ok (ShareWal.open [] threshold).
Proof. split; [done|]. intros k [t Ht]. cbn in Ht. by rewrite lookup_empty in Ht. Qed.

Lemma step_ok w w' : wal_step w w' -> wal_ok w -> wal_ok w'.
Proof.
  destruct 1; intros Hok; [by apply mark_pending_ok|by apply mark_completed_ok|].
  apply compact_replay. cbn. intros k [t Ht]. by rewrite lookup_empty in Ht.
Qed.

Lemma reachable_ok threshold w : rtc wal_step (ShareWal.open [] threshold) w -> wal_ok w.
Proof.
  intros Hr. assert (forall w1 w2, rtc wal_step w1 w2 -> wal_ok w1 -> wal_ok w2) as Hgen.
  { induction 1; eauto using step_ok. }
  eapply Hgen; [done|apply fresh_ok].
Qed.

(** C35 Whatever order the accepted and the completed batches come in, and however often the process
    restarts or the log compacts, reopening the file gives the index the running process has. *)
Theorem replay_agrees threshold w :
  rtc wal_step (ShareWal.open [] threshold) w ->
  ShareWal.read_pending_index (ShareWal.file w) = ShareWal.pending w.
Proof.
  intros Hr%reachable_ok. unfold ShareWal.read_pending_index. by rewrite (wo_replay _ Hr).
Qed.

(** ** Crashes *)

Definition unreadable (line : string) : Prop :=
  is_blank line = true \/ record_from_str line = None.

(** What a crash in the middle of an append leaves: some of the records, then what there is of the
    next line. *)
Definition torn_append (n : nat) (tail : list string) (records : list WalRecord.t)
    (file : list string) : list string :=
  file ++ (record_to_string <$> take n records) ++ tail.

Lemma replay_unreadable tail : Forall unreadable tail -> forall acc,
  foldl ShareWal.replay_line acc tail = acc.
Proof.
  induction 1 as [|l tail Hl _ IH]; intros acc; [done|]. cbn [foldl]. rewrite IH. destruct acc as [P S].
  unfold ShareWal.replay_line. destruct (is_blank l) eqn:Hb; [done|].
  destruct Hl as [Hl|Hl]; [congruence|by rewrite Hl].
Qed.

(** Records that do not complete a share leave it pending. *)
Lemma apply_keeps_pending k (rs : list WalRecord.t) : forall P S,
  Forall (fun r => WalRecord.status r = Completed -> key_of r <> k) rs ->
  is_Some (P !! k) -> is_Some ((foldl apply_record (P, S) rs).1 !! k).
Proof.
  induction rs as [|r rs IH]; intros P S Hrs Hk; [done|].
  apply Forall_cons in Hrs as [Hr Hrs]. cbn [foldl apply_record].
  destruct (WalRecord.status r) eqn:Hst.
  - case_decide; apply IH; try done. rewrite lookup_insert. by case_decide.
  - specialize (Hr eq_refl). case_match; apply IH; try done. by rewrite lookup_delete_ne.
Qed.

Definition event_key (e : ShareForwardResultEvent.t) : key :=
  (ShareForwardResultEvent.share_id_hex e, ShareForwardResultEvent.event_id_hex e).

Lemma recover_keys now w :
  event_key <$> (ShareWal.recover now w).1 = (iterate (ShareWal.pending w)).*1.
Proof.
  cbn [ShareWal.recover fst]. rewrite <-list_fmap_compose. apply list_fmap_ext. by intros ? [[??] ?] _.
Qed.

(** A crash in the middle of any later append loses no accepted share: every share pending before
    the append and not completed by it gets exactly one forward result at the next start, which says
    it was not forwarded and why; and the file still holds it, so a crash before recovery
    finishes gives the same results again. *)
Theorem crash_recovers_pending threshold w n tail rs k now threshold' :
  rtc wal_step (ShareWal.open [] threshold) w ->
  Forall unreadable tail ->
  is_Some (ShareWal.pending w !! k) ->
  Forall (fun r => WalRecord.status r = Completed -> key_of r <> k) rs ->
  let f := torn_append n tail rs (ShareWal.file w) in
  let '(events, w') := ShareWal.recover now (ShareWal.open f threshold') in
  length (filter (fun e => event_key e = k) events) = 1%nat /\
  Forall (fun e => ShareForwardResultEvent.forwarded e = false /\
    ShareForwardResultEvent.reason_code e = Some "process_crash_recovery"%string) events /\
  ShareWal.file w' = f.
Proof.
  intros Hr%reachable_ok Htail Hk Hrs f.
  pose proof (recover_keys now (ShareWal.open f threshold')) as Hkeys.
  destruct (ShareWal.recover now (ShareWal.open f threshold')) as [events w'] eqn:Hrec.
  injection Hrec as <- <-. cbn [fst] in Hkeys. split_and!; [|by apply Forall_fmap, Forall_true|done].
  apply filter_key_once.
  - rewrite Hkeys. apply iterate_NoDup.
  - rewrite Hkeys. apply elem_of_iterate. cbn [ShareWal.open ShareWal.pending].
    unfold ShareWal.read_pending_index, f, torn_append, ShareWal.replay.
    rewrite !foldl_app, replay_unreadable by done.
    pose proof (wo_replay _ Hr) as Hrep. unfold ShareWal.replay in Hrep. rewrite Hrep, replay_records.
    apply apply_keeps_pending; [by apply Forall_take|done].
Qed.

(** ** Early completions *)

(** A share whose forward result reached the log before its accepted event, with any compaction in
    between less than the time to live later, is not pending afterwards, in memory or on disk. *)
Theorem early_completion_settles threshold w now arrived instant_now ts now' k :
  rtc wal_step (ShareWal.open [] threshold) w ->
  Z.of_nat (size (ShareWal.completed_early w)) < EARLY_COMPLETION_CAP ->
  ShareWal.pending w !! k = None ->
  instant_now < arrived + EARLY_COMPLETION_TTL ->
  let w1 := (ShareWal.mark_completed now arrived instant_now ts ShareWal.Written true [k] w).2 in
  let w2 := (ShareWal.mark_pending now' ShareWal.Written [k] w1).2 in
  ShareWal.pending w2 !! k = None /\ ShareWal.read_pending_index (ShareWal.file w2) !! k = None.
Proof.
  intros Hr%reachable_ok Hcap Hk Httl w1 w2.
  assert (wal_ok w2) as Hok2.
  { apply mark_pending_ok, mark_completed_ok; [done|]. unfold lenZ. cbn. lia. }
  unfold ShareWal.read_pending_index. rewrite (wo_replay _ Hok2). cbn [fst].
  assert (ShareWal.pending w1 = ShareWal.pending w /\ is_Some (ShareWal.completed_early w1 !! k))
    as [Hp [t Ht]].
  { subst w1. unfold ShareWal.mark_completed. cbn [foldl ShareWal.complete_one]. rewrite Hk.
    rewrite (proj2 (Z.ltb_lt _ _)) by done. cbn. case_if; cbn; (split; [done|]).
    - exists arrived. unfold ShareWal.prune_completed_early. apply map_lookup_filter_Some.
      rewrite lookup_insert_eq. split; [done|]. cbn [snd]. unfold saturating_sub, EARLY_COMPLETION_TTL in *. lia.
    - rewrite lookup_insert_eq. by eexists. }
  subst w2. unfold ShareWal.mark_pending. cbn [ShareWal.consumes_early]. rewrite Ht.
  rewrite bool_decide_eq_true_2 by set_solver. cbn. by rewrite Hp.
Qed.

(** With the early completions at their cap, a share completed and then marked pending is pending in
    memory while the replay of the file has settled it: the two disagree until a compaction. *)
Theorem full_early_set_disagrees w now arrived instant_now ts now' k :
  rtc wal_step (ShareWal.open [] 0) w ->
  ShareWal.compaction_threshold w = 0 ->
  Z.of_nat (size (ShareWal.completed_early w)) = EARLY_COMPLETION_CAP ->
  ShareWal.pending w !! k = None -> ShareWal.completed_early w !! k = None ->
  let w1 := (ShareWal.mark_completed now arrived instant_now ts ShareWal.Written true [k] w).2 in
  let w2 := (ShareWal.mark_pending now' ShareWal.Written [k] w1).2 in
  ShareWal.pending w2 !! k = Some now' /\ ShareWal.read_pending_index (ShareWal.file w2) !! k = None.
Proof.
  intros Hr%reachable_ok Hth Hcap Hk He w1 w2.
  assert (w1 = ShareWal.mk (ShareWal.file w ++ [record_to_string (record Completed now k)])
    (ShareWal.pending w) (ShareWal.completed_since_compaction w + 1) 0 (ShareWal.completed_early w)) as Hw1.
  { subst w1. unfold ShareWal.mark_completed. cbn [foldl ShareWal.complete_one]. rewrite Hk.
    rewrite (proj2 (Z.ltb_ge _ _)) by lia. cbn. by rewrite Hth. }
  assert (w2 = ShareWal.mk
    (ShareWal.file w ++ (record_to_string <$> [record Completed now k; record Pending now' k]))
    (<[k := now']> (ShareWal.pending w)) (ShareWal.completed_since_compaction w + 1) 0
    (ShareWal.completed_early w)) as ->.
  { subst w2. rewrite Hw1. unfold ShareWal.mark_pending. cbn [ShareWal.consumes_early ShareWal.completed_early].
    rewrite He. destruct k. cbn. by rewrite <-app_assoc. }
  cbn [ShareWal.pending ShareWal.file]. rewrite lookup_insert_eq. split; [done|].
  unfold ShareWal.read_pending_index, ShareWal.replay. rewrite foldl_app, replay_records.
  pose proof (wo_replay _ Hr) as Hrep. unfold ShareWal.replay in Hrep. rewrite Hrep.
  cbn [foldl]. rewrite apply_completed, Hk, apply_pending, decide_True by set_solver. done.
Qed.
End WalFacts.

(** * A concrete log *)
Module WalSample.
Definition zero : Ascii.ascii := Ascii.ascii_of_nat 48.
Definition one : Ascii.ascii := Ascii.ascii_of_nat 49.

(** A record as the bits of its code, least significant first. *)
Fixpoint bits (p : positive) : string :=
  match p with
  | xH => String one EmptyString
  | xO p => String zero (bits p)
  | xI p => String one (bits p)
  end.

Fixpoint of_bits (s : string) : option positive :=
  match s with
  | String c EmptyString => if bool_decide (c = one) then Some xH else None
  | String c s =>
      p ← of_bits s; Some (if bool_decide (c = one) then xI p else xO p)
  | EmptyString => None
  end.

Lemma of_bits_bits p : of_bits (bits p) = Some p.
Proof.
  induction p as [p IH|p IH|]; [| |done]; cbn; rewrite IH; by destruct p.
Qed.

Lemma bits_not_blank p : is_blank (bits p) = false.
Proof. by destruct p. Qed.

Definition tuple (r : WalRecord.t) : bool * string * string * Z :=
  (match WalRecord.status r with Pending => true | Completed => false end,
   WalRecord.share_id_hex r, WalRecord.event_id_hex r, WalRecord.timestamp_ms r).

Definition untuple (p : bool * string * string * Z) : WalRecord.t :=
  let '(st, s, e, ts) := p in WalRecord.mk (if st then Pending else Completed) s e ts.

#[export] Instance wal_json : WalJson := {|
  record_to_string r := bits (encode (tuple r));
  record_from_str s := p ← of_bits s; untuple <$> decode p
|}.

#[export] Instance wal_json_laws : WalJsonLaws.
Proof.
  split; intros r; cbn; [|apply bits_not_blank].
  rewrite of_bits_bits. cbn. rewrite decode_encode. cbn. by destruct r as [[] ???].
Qed.

#[export] Instance map_order : MapOrder := {| iterate A m := map_to_list m; iterate_perm A m := reflexivity _ |}.

Definition k1 : key := ("aa"%string, "01"%string).
Definition k2 : key := ("bb"%string, "02"%string).

(** [k2] is completed before it is marked pending; the completion is followed by a compaction. *)
Definition w0 : ShareWal.t := ShareWal.open [] 1.
Definition w1 : ShareWal.t := (ShareWal.mark_pending 5 ShareWal.Written [k1] w0).2.
Definition w2 : ShareWal.t := (ShareWal.mark_completed 6 10 11 7 ShareWal.Written true [k2] w1).2.

Lemma w2_reachable : rtc wal_step w0 w2.
Proof.
  eapply rtc_l; [apply (step_pending 5 [k1])|]. eapply rtc_l; [|apply rtc_refl].
  apply (step_completed 6 10 11 7 [k2]). vm_compute. discriminate.
Defined.

(** The hypotheses of [replay_agrees] hold of the log after the two batches. *)
Lemma replay_agrees_witness :
  ShareWal.read_pending_index (ShareWal.file w2) = ShareWal.pending w2.
Proof. apply (replay_agrees 1). apply w2_reachable. Defined.

(** A crash one record into the next batch. *)
Lemma crash_recovers_pending_witness :
  length (filter (fun e => event_key e = k1)
    (ShareWal.recover (fun _ => 20) (ShareWal.open
      (torn_append 1 ["0"%string] [record Pending 8 k2; record Pending 8 k1] (ShareWal.file w2)) 1)).1)
  = 1%nat.
Proof.
  apply (crash_recovers_pending 1 w2 1 ["0"%string] [record Pending 8 k2; record Pending 8 k1] k1
    (fun _ => 20) 1).
  - apply w2_reachable.
  - constructor; [by right|constructor].
  - vm_compute. by eexists.
  - by repeat constructor.
Defined.

Lemma early_completion_settles_witness :
  ShareWal.pending (ShareWal.mark_pending 9 ShareWal.Written [k2]
    (ShareWal.mark_completed 6 10 11 7 ShareWal.Written true [k2] w1).2).2 !! k2 = None.
Proof.
  apply (early_completion_settles 1 w1 6 10 11 7 9 k2).
  - eapply rtc_l; [apply (step_pending 5 [k1])|apply rtc_refl].
  - vm_compute. reflexivity.
  - vm_compute. reflexivity.
  - vm_compute. reflexivity.
Defined.

(** Completions that no accepted event follows. *)
Definition keys : list key :=
  (fun j => (bits (Pos.of_succ_nat j), ""%string)) <$> seq 0 4096.

Definition full : ShareWal.t :=
  (ShareWal.mark_completed 1 1 1 1 ShareWal.Written true keys (ShareWal.open [] 0)).2.

Definition fill (ks : list key) : gmap key Z := foldl (fun E k => <[k := 1]> E) ∅ ks.

Lemma complete_unknown ks : forall E : gmap key Z,
  Z.of_nat (size E) + lenZ ks <= EARLY_COMPLETION_CAP ->
  foldl (ShareWal.complete_one 1) (∅, E) ks = (∅, foldl (fun E k => <[k := 1]> E) E ks).
Proof.
  induction ks as [|k ks IH]; intros E Hc; [done|]. unfold lenZ in *. cbn [length] in Hc.
  cbn [foldl ShareWal.complete_one]. rewrite lookup_empty, (proj2 (Z.ltb_lt _ _)) by lia.
  apply IH. rewrite map_size_insert. case_match; cbn; lia.
Qed.

Lemma keys_fit : Z.of_nat (size (∅ : gmap key Z)) + lenZ keys <= EARLY_COMPLETION_CAP.
Proof. apply Z.leb_le. vm_compute. reflexivity. Qed.

Lemma full_is : full = ShareWal.mk (record_to_string <$> (record Completed 1 <$> keys)) ∅ (lenZ keys) 0
  (fill keys).
Proof.
  unfold full, ShareWal.mark_completed.
  change (ShareWal.pending (ShareWal.open [] 0)) with (∅ : gmap key Z).
  change (ShareWal.completed_early (ShareWal.open [] 0)) with (∅ : gmap key Z).
  rewrite complete_unknown by apply keys_fit. unfold ShareWal.append_records, fill.
  assert (lenZ (record Completed 1 <$> keys) = lenZ keys) as Hlen.
  { unfold lenZ. by rewrite length_fmap. }
  rewrite Hlen. generalize (lenZ keys). intros n. by destruct keys as [|k ks].
Qed.

Lemma full_early_set_disagrees_witness :
  let w1 := (ShareWal.mark_completed 2 2 2 2 ShareWal.Written true [k1] full).2 in
  let w2 := (ShareWal.mark_pending 3 ShareWal.Written [k1] w1).2 in
  ShareWal.pending w2 !! k1 = Some 3 /\ ShareWal.read_pending_index (ShareWal.file w2) !! k1 = None.
Proof.
  apply (full_early_set_disagrees full 2 2 2 2 3 k1).
  - eapply rtc_l; [apply (step_completed 1 1 1 1 keys), keys_fit|apply rtc_refl].
  - rewrite full_is. reflexivity.
  - rewrite full_is. vm_compute. reflexivity.
  - rewrite full_is. reflexivity.
  - rewrite full_is. vm_compute. reflexivity.
Defined.
End WalSample.
