(* ===== verification/Transport.v ===== *)
(** * The encrypted transport of a miner connection

    Models [services/sv2-gateway/src/transport.rs]: the frame header, the Noise frames of the wire,
    the buffered and cancellable reads, the writes, the responder handshake and the loading of the
    authority key.

    The socket is what it delivers: a list of the results of [read], one per await. A read future
    that finds the list empty is suspended; dropping it keeps the transport as it is, which is what
    [Waiting] returns. The Noise cipher and the curve are arguments: a cipher state that encryption
    and decryption step, with the law that a paired state decrypts what the other encrypted. *)

From S2P Require Import Prelude Crates.

(** ** Arguments: [noise_sv2] and [secp256k1] *)

Class NoiseCodec : Type := {
  noise_state : Type;
  encrypt : noise_state -> bytes -> option (bytes * noise_state);
  decrypt : noise_state -> bytes -> option (bytes * noise_state)
}.

Definition AEAD_MAC_LEN : Z := 16.
Definition MAX_NOISE_FRAME_LEN : Z := 65535.
Definition MAX_NOISE_PLAINTEXT_LEN : Z := MAX_NOISE_FRAME_LEN - AEAD_MAC_LEN.
Definition SV2_FRAME_HEADER_SIZE : nat := 6.
Definition MAX_SV2_PAYLOAD_LEN : Z := 16 * 1024 * 1024.
Definition READ_CHUNK : Z := 8192.
Definition ELLSWIFT_ENCODING_SIZE : nat := 64.

(** [paired tx rx]: what [tx] encrypts next, [rx] decrypts next. *)
Class NoiseLaws `{NoiseCodec} : Type := {
  paired : noise_state -> noise_state -> Prop;
  encrypt_length tx p e tx' : encrypt tx p = Some (e, tx') -> lenZ e = lenZ p + AEAD_MAC_LEN;
  decrypt_encrypt tx rx p e tx' : paired tx rx -> encrypt tx p = Some (e, tx') ->
    exists rx', decrypt rx e = Some (p, rx') /\ paired tx' rx'
}.

Inductive TransportError : Type :=
| Io | NoiseHandshake | HandshakeTimeout | NoiseDecrypt | NoiseEncrypt | EmptyFrame
| PayloadTooLarge (len : Z) | ConnectionReset.

(** ** The frame header *)

Module Sv2FrameHeader.
Record t : Type := mk { extension_type : Z; msg_type : Z; msg_length : Z }.

(** [parse]: the argument is a buffer of six bytes. *)
Definition parse (buf : bytes) : t :=
  mk (from_le_bytes (take 2 buf)) (from_le_bytes (take 1 (drop 2 buf)))
     (from_le_bytes (take 3 (drop 3 buf) ++ [x00])).

Definition to_bytes (h : t) : bytes :=
  le_bytes 2 (extension_type h) ++ [Z_to_byte (msg_type h)] ++ take 3 (le_bytes 4 (msg_length h)).

Definition is_channel_message (h : t) : bool :=
  negb (Z.land (extension_type h) 0x8000 =? 0).

Definition channel_id_from_payload (payload : bytes) : option Z :=
  if lenZ payload <? 4 then None else Some (from_le_bytes (take 4 payload)).

Definition wf (h : t) : Prop :=
  in_u 16 (extension_type h) /\ in_u 8 (msg_type h) /\ in_u 24 (msg_length h).
End Sv2FrameHeader.

(** ** The socket *)

(** The result of one [read]: bytes (none at the end of the stream) or an error. *)
Inductive read_result : Type := Data (b : bytes) | ReadError.

(** The outcome of a future that reads: finished, failed, or suspended in a read. *)
Inductive poll (A : Type) : Type :=
| Ready (a : A)
| Failed (e : TransportError)
| Waiting.
Arguments Ready {A} _.
Arguments Failed {A} _.
Arguments Waiting {A}.

Module Sv2Transport.
Section Transport.
Context `{NoiseCodec}.

Record t : Type := mk { codec : noise_state; read_buf : bytes; raw_buf : bytes }.

Definition new (c : noise_state) : t := mk c [] [].

(** The frame that is at the front of [raw_buf], if it is whole; [None] goes on to read. *)
Definition buffered_frame (s : t) : option (result unit TransportError * t) :=
  match raw_buf s with
  | b0 :: b1 :: rest =>
      let frame_len := from_le_bytes [b1; b0] in
      if frame_len =? 0 then Some (Err EmptyFrame, s)
      else if lenZ (raw_buf s) >=? 2 + frame_len then
        let encrypted := take (Z.to_nat frame_len) rest in
        let raw := drop (Z.to_nat frame_len) rest in
        match decrypt (codec s) encrypted with
        | None => Some (Err NoiseDecrypt, mk (codec s) (read_buf s) raw)
        | Some (plain, c) => Some (Ok tt, mk c (read_buf s ++ plain) raw)
        end
      else None
  | _ => None
  end.

(** [read_noise_frame] on the results of the next reads; the reads it left come back. *)
Fixpoint read_noise_frame (reads : list read_result) (s : t)
    : poll unit * list read_result * t :=
  match buffered_frame s with
  | Some (Ok _, s) => (Ready tt, reads, s)
  | Some (Err e, s) => (Failed e, reads, s)
  | None =>
      match reads with
      | [] => (Waiting, [], s)
      | ReadError :: reads => (Failed Io, reads, s)
      | Data [] :: reads => (Failed ConnectionReset, reads, s)
      | Data chunk :: reads =>
          read_noise_frame reads (mk (codec s) (read_buf s) (raw_buf s ++ chunk))
      end
  end.

(** [while self.read_buf.len() < target { self.read_noise_frame().await?; }]. Every frame taken
    uses up bytes, of which [outstanding] counts what there is; [None] is the loop cut short. *)
Fixpoint fill (fuel : nat) (target : Z) (reads : list read_result) (s : t)
    : option (poll unit * list read_result * t) :=
  if lenZ (read_buf s) <? target then
    match fuel with
    | O => None
    | S fuel =>
        match read_noise_frame reads s with
        | (Ready _, reads, s) => fill fuel target reads s
        | r => Some r
        end
    end
  else Some (Ready tt, reads, s).

Definition data_bytes (r : read_result) : nat :=
  match r with Data b => length b | ReadError => 0 end.

Definition outstanding (reads : list read_result) (s : t) : nat :=
  length (raw_buf s) + sum_list (data_bytes <$> reads).

Definition read_frame_fuel (fuel : nat) (reads : list read_result) (s : t)
    : option (poll (Sv2FrameHeader.t * bytes) * list read_result * t) :=
  match fill fuel (Z.of_nat SV2_FRAME_HEADER_SIZE) reads s with
  | None => None
  | Some (Failed e, reads, s) => Some (Failed e, reads, s)
  | Some (Waiting, reads, s) => Some (Waiting, reads, s)
  | Some (Ready _, reads, s) =>
      let header := Sv2FrameHeader.parse (take SV2_FRAME_HEADER_SIZE (read_buf s)) in
      let payload_len := Sv2FrameHeader.msg_length header in
      if payload_len >? MAX_SV2_PAYLOAD_LEN then Some (Failed (PayloadTooLarge payload_len), reads, s)
      else
        let total_frame_len := Z.of_nat SV2_FRAME_HEADER_SIZE + payload_len in
        match fill fuel total_frame_len reads s with
        | None => None
        | Some (Failed e, reads, s) => Some (Failed e, reads, s)
        | Some (Waiting, reads, s) => Some (Waiting, reads, s)
        | Some (Ready _, reads, s) =>
            let payload := drop SV2_FRAME_HEADER_SIZE (take (Z.to_nat total_frame_len) (read_buf s)) in
            Some (Ready (header, payload), reads,
                  mk (codec s) (drop (Z.to_nat total_frame_len) (read_buf s)) (raw_buf s))
        end
  end.

Definition read_frame (reads : list read_result) (s : t) :=
  read_frame_fuel (S (outstanding reads s)) reads s.

(** *** Writing *)

(** The sending half: what went out, and whether each further [write_all] or [flush] succeeds. *)
Record stream : Type := mkStream { written : bytes; writable : list bool }.

Definition write_all (b : bytes) (w : stream) : option stream :=
  match writable w with
  | true :: rest => Some (mkStream (written w ++ b) rest)
  | _ => None
  end.

Definition flush (w : stream) : option stream := write_all [] w.

Fixpoint write_chunks (cs : list bytes) (c : noise_state) (w : stream)
    : result (noise_state * stream) TransportError :=
  match cs with
  | [] => Ok (c, w)
  | chunk :: cs =>
      match encrypt c chunk with
      | None => Err NoiseEncrypt
      | Some (encrypted, c) =>
          let len_bytes := reverse (le_bytes 2 (lenZ encrypted mod 2 ^ 16)) in
          match write_all len_bytes w with
          | None => Err Io
          | Some w =>
              match write_all encrypted w with
              | None => Err Io
              | Some w => write_chunks cs c w
              end
          end
      end
  end.

Definition write_frame (extension_type msg_type : Z) (payload : bytes) (c : noise_state) (w : stream)
    : result (noise_state * stream) TransportError :=
  let header := Sv2FrameHeader.mk extension_type msg_type (lenZ payload mod 2 ^ 32) in
  let frame_data := Sv2FrameHeader.to_bytes header ++ payload in
  match write_chunks (chunks (Z.to_nat MAX_NOISE_PLAINTEXT_LEN) frame_data) c w with
  | Err e => Err e
  | Ok (c, w) => match flush w with None => Err Io | Some w => Ok (c, w) end
  end.
End Transport.
End Sv2Transport.

(** ** Handshake *)

(** [Responder::new] and [step_1]: the response and the cipher, or the failure of the key
    exchange. *)
Class NoiseResponder `{NoiseCodec} : Type := {
  keypair : Type;
  step_1 : keypair -> Z -> bytes -> option (bytes * noise_state)
}.

(** [read_exact] of [n] bytes: a read takes no more than what is missing. *)
Fixpoint read_exact (n : nat) (got : bytes) (reads : list read_result)
    : poll bytes * list read_result :=
  if (n <=? length got)%nat then (Ready got, reads)
  else
    match reads with
    | [] => (Waiting, [])
    | ReadError :: reads => (Failed Io, reads)
    | Data [] :: reads => (Failed ConnectionReset, reads)
    | Data b :: reads =>
        let missing := (n - length got)%nat in
        if (missing <? length b)%nat
        then (Ready (got ++ take missing b), Data (drop missing b) :: reads)
        else read_exact n (got ++ b) reads
    end.

(** [perform_handshake]: [reads] is what arrives before the timeout; a handshake still suspended
    then has timed out. *)
Definition perform_handshake `{NoiseResponder} (authority_keypair : keypair) (cert_validity_secs : Z)
    (reads : list read_result) (w : Sv2Transport.stream)
    : result (Sv2Transport.t * list read_result * Sv2Transport.stream) TransportError :=
  match read_exact ELLSWIFT_ENCODING_SIZE [] reads with
  | (Waiting, _) => Err HandshakeTimeout
  | (Failed e, _) => Err e
  | (Ready initiator_ephemeral, reads) =>
      match step_1 authority_keypair cert_validity_secs initiator_ephemeral with
      | None => Err NoiseHandshake
      | Some (response, codec) =>
          match Sv2Transport.write_all response w with
          | None => Err Io
          | Some w =>
              match Sv2Transport.flush w with
              | None => Err Io
              | Some w => Ok (Sv2Transport.new codec, reads, w)
              end
          end
      end
  end.

(** ** Authority key *)

Class Secp256k1 `{NoiseResponder} : Type := {
  secret_key : Type;
  x_only_public_key : Type;
  x_only_eq :: EqDecision x_only_public_key;
  secret_key_from_slice : bytes -> result secret_key string;
  keypair_from_secret_key : secret_key -> keypair;
  keypair_x_only : keypair -> x_only_public_key;
  x_only_from_slice : bytes -> result x_only_public_key string;
  x_only_serialize : x_only_public_key -> bytes
}.

Inductive KeyLoadError : Type :=
| FileRead
| InvalidSecretKeyLength (len : Z)
| InvalidSecretKey (e : string)
| InvalidPubkeyHex (e : string)
| InvalidPubkeyLength (len : Z)
| PubkeyMismatch (expected actual : string).

Record AuthorityCredentials `{NoiseResponder} : Type := mkCredentials {
  cred_keypair : keypair; cred_cert_validity_secs : Z }.

(** [file] is what reading the secret key file gives. *)
Definition load_authority_credentials `{Secp256k1, HexCrate} (file : option bytes)
    (authority_pubkey_hex : string) (cert_validity_secs : Z)
    : result AuthorityCredentials KeyLoadError :=
  let? sk_bytes := ok_or file FileRead in
  if negb (lenZ sk_bytes =? 32) then Err (InvalidSecretKeyLength (lenZ sk_bytes))
  else
    let? secret := map_err InvalidSecretKey (secret_key_from_slice sk_bytes) in
    let kp := keypair_from_secret_key secret in
    if negb (Z.of_nat (String.length authority_pubkey_hex) =? 64)
    then Err (InvalidPubkeyLength (Z.of_nat (String.length authority_pubkey_hex)))
    else
      let? pubkey_bytes := map_err InvalidPubkeyHex (hex_decode authority_pubkey_hex) in
      let? expected := map_err InvalidPubkeyHex (x_only_from_slice pubkey_bytes) in
      let actual := keypair_x_only kp in
      if bool_decide (actual = expected) then Ok (mkCredentials _ _ kp cert_validity_secs)
      else Err (PubkeyMismatch authority_pubkey_hex (hex_encode (x_only_serialize actual))).

(** * Properties *)

(** ** Headers *)

Lemma header_parse_to_bytes h : Sv2FrameHeader.wf h ->
  Sv2FrameHeader.parse (Sv2FrameHeader.to_bytes h) = h.
Proof.
  destruct h as [e m l]. intros (He & Hm & Hl). cbn in He, Hm, Hl. unfold in_u in *.
  unfold Sv2FrameHeader.parse, Sv2FrameHeader.to_bytes. cbn [Sv2FrameHeader.extension_type
    Sv2FrameHeader.msg_type Sv2FrameHeader.msg_length].
  cbn [le_bytes app take drop from_le_bytes]. rewrite !byte_to_Z_to_byte.
  change (byte_to_Z x00) with 0. f_equal; Z.to_euclidean_division_equations; lia.
Qed.

Lemma header_parse_wf b : length b = 6%nat -> Sv2FrameHeader.wf (Sv2FrameHeader.parse b).
Proof.
  intros Hb. destruct b as [|b0 [|b1 [|b2 [|b3 [|b4 [|b5 [|]]]]]]]; try done.
  unfold Sv2FrameHeader.wf, Sv2FrameHeader.parse, in_u. cbn [take drop app from_le_bytes
    Sv2FrameHeader.extension_type Sv2FrameHeader.msg_type Sv2FrameHeader.msg_length].
  change (byte_to_Z x00) with 0. byte_ranges. lia.
Qed.

Lemma header_to_bytes_parse b : length b = 6%nat ->
  Sv2FrameHeader.to_bytes (Sv2FrameHeader.parse b) = b.
Proof.
  intros Hb. destruct b as [|b0 [|b1 [|b2 [|b3 [|b4 [|b5 [|]]]]]]]; try done.
  unfold Sv2FrameHeader.to_bytes, Sv2FrameHeader.parse. cbn [take drop app from_le_bytes
    Sv2FrameHeader.extension_type Sv2FrameHeader.msg_type Sv2FrameHeader.msg_length le_bytes].
  change (byte_to_Z x00) with 0. byte_ranges.
  repeat f_equal; apply byte_to_Z_inj; rewrite byte_to_Z_to_byte;
    Z.to_euclidean_division_equations; lia.
Qed.

Lemma length_header_bytes h : length (Sv2FrameHeader.to_bytes h) = 6%nat.
Proof. done. Qed.

(** ** Termination and suspension of a read *)

Section Reads.
Context `{NoiseCodec}.
Import Sv2Transport.
Implicit Types (s : t) (reads : list read_result).

Lemma buffered_ready s s' : buffered_frame s = Some (Ok tt, s') ->
  (length (raw_buf s') + 3 <= length (raw_buf s))%nat /\ read_buf s `prefix_of` read_buf s'.
Proof.
  unfold buffered_frame. destruct (raw_buf s) as [|b0 [|b1 rest]] eqn:Hr; try done.
  destruct (_ =? 0) eqn:Hz; [done|]. destruct (_ >=? _) eqn:Hg; [|done].
  destruct (decrypt _ _) as [[p c]|]; [|done]. intros [= <-]. z_bool. unfold lenZ in *.
  cbn [length raw_buf read_buf] in *. rewrite length_drop. split; [|by apply prefix_app_r].
  pose proof (from_le_bytes_range [b1; b0]). cbn [length from_le_bytes] in *. lia.
Qed.

(** A read that is dropped while suspended left everything it received in the buffers. *)
Lemma rnf_resume r1 : forall s rest s1 r2, read_noise_frame r1 s = (Waiting, rest, s1) ->
  rest = [] /\ read_noise_frame (r1 ++ r2) s = read_noise_frame r2 s1.
Proof.
  induction r1 as [|r r1 IH]; intros s rest s1 r2; cbn [read_noise_frame app].
  - destruct (buffered_frame s) as [[[|] ?]|] eqn:Hb; intros [= <- <-]. done.
  - destruct (buffered_frame s) as [[[|] ?]|]; try done. destruct r as [[|b bs]|]; try done. apply IH.
Qed.

Lemma rnf_waiting r1 : forall s rest s1, read_noise_frame r1 s = (Waiting, rest, s1) ->
  read_buf s1 = read_buf s.
Proof.
  induction r1 as [|r r1 IH]; intros s rest s1; cbn [read_noise_frame];
    destruct (buffered_frame s) as [[[|] ?]|]; try done; [by intros [= <- <-]|].
  destruct r as [[|b bs]|]; try done. by intros ->%IH.
Qed.

Lemma rnf_more r1 : forall s p rest s1 r2, read_noise_frame r1 s = (p, rest, s1) -> p <> Waiting ->
  read_noise_frame (r1 ++ r2) s = (p, rest ++ r2, s1).
Proof.
  induction r1 as [|r r1 IH]; intros s p rest s1 r2; cbn [read_noise_frame app].
  - destruct r2; cbn [read_noise_frame]; destruct (buffered_frame s) as [[[|] ?]|];
      intros [= <- <- <-]; done.
  - destruct (buffered_frame s) as [[[|] ?]|]; [intros [= <- <- <-]; done..|].
    destruct r as [[|b bs]|]; [intros [= <- <- <-]; done| |intros [= <- <- <-]; done]. apply IH.
Qed.

Lemma rnf_progress r : forall s rest s1, read_noise_frame r s = (Ready tt, rest, s1) ->
  (outstanding rest s1 + 3 <= outstanding r s)%nat.
Proof.
  unfold outstanding. induction r as [|x r IH]; intros s rest s1; cbn [read_noise_frame].
  - destruct (buffered_frame s) as [[[[]|] ?]|] eqn:Hb; intros [= <- <-].
    apply buffered_ready in Hb as [Hb _]. cbn. lia.
  - destruct (buffered_frame s) as [[[[]|] ?]|] eqn:Hb; [intros [= <- <-]|done|].
    + apply buffered_ready in Hb as [Hb _]. cbn. lia.
    + destruct x as [[|b bs]|]; [done| |done]. intros Hr%IH. cbn [raw_buf] in Hr.
      rewrite length_app in Hr. rewrite fmap_cons. cbn [data_bytes] in *. unfold sum_list, sum_list_with in *. cbn in *. lia.
Qed.

Lemma rnf_prefix r : forall s p rest s1, read_noise_frame r s = (p, rest, s1) ->
  read_buf s `prefix_of` read_buf s1.
Proof.
  assert (forall s s' e, buffered_frame s = Some (Err e, s') -> read_buf s' = read_buf s) as He.
  { intros s s' e. unfold buffered_frame. destruct (raw_buf s) as [|b0 [|b1 rest]]; try done.
    repeat case_if; try done; [by intros [= _ <-]|].
    destruct (decrypt _ _) as [[p c]|]; [done|]. by intros [= _ <-]. }
  induction r as [|x r IH]; intros s p rest s1; cbn [read_noise_frame];
    destruct (buffered_frame s) as [[[[]|] ?]|] eqn:Hb; try (intros [= <- <- <-]);
    try (by apply buffered_ready in Hb as [_ Hb]); try (by rewrite (He _ _ _ Hb)); try done.
  destruct x as [[|b bs]|]; try (by intros [= <- <- <-]). intros Hr%IH. exact Hr.
Qed.

(** [fills target reads s r]: the loop that fills the buffer up to [target] ends with [r]. *)
Definition fills target reads s r : Prop := exists fuel, fill fuel target reads s = Some r.

Lemma fill_mono f f' target reads s r : fill f target reads s = Some r -> (f <= f')%nat ->
  fill f' target reads s = Some r.
Proof.
  revert f' reads s. induction f as [|f IH]; intros f' reads s Hf Hle.
  - destruct f'; cbn [fill] in *; by case_if.
  - destruct f' as [|f']; [lia|]. cbn [fill] in *. case_if; [|done].
    destruct (read_noise_frame reads s) as [[[[]| |] ?] ?]; [|done..]. apply IH; [done|lia].
Qed.

Lemma fill_total f target reads s : (outstanding reads s < f)%nat ->
  is_Some (fill f target reads s).
Proof.
  revert reads s. induction f as [|f IH]; intros reads s Hf; [lia|]. cbn [fill].
  case_if; [|done]. destruct (read_noise_frame reads s) as [[[[]| |] r1] s1] eqn:Hr; [|done..].
  apply IH. apply rnf_progress in Hr. lia.
Qed.

Lemma fill_outstanding f target reads s rest s1 : fill f target reads s = Some (Ready tt, rest, s1) ->
  (outstanding rest s1 <= outstanding reads s)%nat.
Proof.
  revert reads s. induction f as [|f IH]; intros reads s; cbn [fill]; case_if;
    try (intros [= <- <-]; lia).
  destruct (read_noise_frame reads s) as [[[[]| |] r1] s2] eqn:Hr; [|done..].
  intros Hf%IH. apply rnf_progress in Hr. lia.
Qed.

Lemma fill_prefix f target reads s p rest s1 : fill f target reads s = Some (p, rest, s1) ->
  read_buf s `prefix_of` read_buf s1 /\ (p = Ready tt -> target <= lenZ (read_buf s1)).
Proof.
  revert reads s. induction f as [|f IH]; intros reads s; cbn [fill]; case_if; z_bool;
    try (intros [= <- <- <-]; by split).
  destruct (read_noise_frame reads s) as [[[[]| |] r1] s2] eqn:Hr; pose proof (rnf_prefix _ _ _ _ _ Hr);
    [|by intros [= <- <- <-]..].
  intros [Hp Ht]%IH. split; [by etrans|done].
Qed.

Lemma fills_det target reads s r r' : fills target reads s r -> fills target reads s r' -> r = r'.
Proof.
  intros [f Hf] [f' Hf']. assert (Some r = Some r') as [=]; [|done].
  rewrite <-(fill_mono f (f `max` f') _ _ _ _ Hf), <-(fill_mono f' (f `max` f') _ _ _ _ Hf') by lia. done.
Qed.

Lemma fills_resume target r1 s rest s1 r2 r : fills target r1 s (Waiting, rest, s1) ->
  fills target r2 s1 r -> rest = [] /\ fills target (r1 ++ r2) s r.
Proof.
  intros [f Hf] [f' Hf']. revert r1 s Hf. induction f as [|f IH]; intros r1 s; cbn [fill].
  - by case_if.
  - destruct (lenZ (read_buf s) <? target) eqn:Ht; [|done].
    destruct (read_noise_frame r1 s) as [[[[]| |] ra] sa] eqn:Hr; [|done|].
    + intros [-> [g Hg]]%IH. split; [done|]. exists (S g). cbn [fill]. rewrite Ht.
      by rewrite (rnf_more _ _ _ _ _ r2 Hr).
    + intros [= <- <-]. destruct (rnf_resume _ _ _ _ r2 Hr) as [-> He]. split; [done|].
      pose proof (rnf_waiting _ _ _ _ Hr) as Hw. destruct f' as [|f'];
        cbn [fill] in Hf'; rewrite Hw, Ht in Hf'; [done|].
      exists (S f'). cbn [fill]. by rewrite Ht, He.
Qed.

Lemma fills_more target r1 s p rest s1 r2 : fills target r1 s (p, rest, s1) -> p <> Waiting ->
  fills target (r1 ++ r2) s (p, rest ++ r2, s1).
Proof.
  intros [f Hf] Hp. exists f. revert r1 s Hf. induction f as [|f IH]; intros r1 s; cbn [fill].
  - case_if; [done|]. by intros [= <- <- <-].
  - case_if; [|by intros [= <- <- <-]].
    destruct (read_noise_frame r1 s) as [[[[]|e|] ra] sa] eqn:Hr.
    + rewrite (rnf_more _ _ _ _ _ r2 Hr) by done. apply IH.
    + intros [= <- <- <-]. by rewrite (rnf_more _ _ _ _ _ r2 Hr).
    + intros [= <- <- <-]. done.
Qed.

(** [frame_read reads s r]: [read_frame] ends with [r]. *)
Definition frame_read reads s r : Prop := exists fuel, read_frame_fuel fuel reads s = Some r.

Lemma read_frame_fuel_total f reads s : (outstanding reads s < f)%nat ->
  is_Some (read_frame_fuel f reads s).
Proof.
  intros Hf. unfold read_frame_fuel.
  destruct (fill_total f (Z.of_nat SV2_FRAME_HEADER_SIZE) reads s Hf) as [[[[[]|e|] r1] s1] E1].
  all: rewrite E1; try done. case_if; [done|]. apply fill_outstanding in E1.
  match goal with |- context [fill f ?tg r1 s1] =>
    destruct (fill_total f tg r1 s1 ltac:(lia)) as [[[[[]|e|] r2] s2] ->] end; done.
Qed.

Lemma read_frame_fuel_mono f f' reads s r : read_frame_fuel f reads s = Some r -> (f <= f')%nat ->
  read_frame_fuel f' reads s = Some r.
Proof.
  unfold read_frame_fuel. intros Hr Hle.
  destruct (fill f (Z.of_nat SV2_FRAME_HEADER_SIZE) reads s) as [[[[[]|e|] r1] s1]|] eqn:E1; [| | |done].
  all: rewrite (fill_mono _ _ _ _ _ _ E1 Hle); try done.
  case_if; [done|].
  match goal with _ : context [fill f ?tg r1 s1] |- _ => destruct (fill f tg r1 s1) as [[[[[]|e|] r2] s2]|] eqn:E2;
    [| |..]; try done; by rewrite (fill_mono _ _ _ _ _ _ E2 Hle) end.
Qed.

Lemma frame_read_iff reads s r : frame_read reads s r <-> read_frame reads s = Some r.
Proof.
  unfold read_frame. split; [|by eexists]. intros [f Hf].
  destruct (read_frame_fuel_total (S (outstanding reads s)) reads s ltac:(lia)) as [r' Hr'].
  rewrite Hr'. rewrite <-(read_frame_fuel_mono _ (f `max` S (outstanding reads s)) _ _ _ Hr') by lia.
  by apply (read_frame_fuel_mono f); [|lia].
Qed.

(** Reading a frame always ends: with the frame, an error, or suspended in a read. *)
Lemma read_frame_some reads s : is_Some (read_frame reads s).
Proof. apply read_frame_fuel_total. lia. Qed.

Lemma frame_length_le reads s f rest s1 :
  fill f (Z.of_nat SV2_FRAME_HEADER_SIZE) reads s = Some (Ready tt, rest, s1) ->
  (6 <= length (read_buf s1))%nat.
Proof. intros [_ Hl]%fill_prefix. specialize (Hl eq_refl). unfold lenZ, SV2_FRAME_HEADER_SIZE in Hl. lia. Qed.

Lemma take_header_prefix s s' : read_buf s `prefix_of` read_buf s' -> (6 <= length (read_buf s))%nat ->
  take SV2_FRAME_HEADER_SIZE (read_buf s') = take SV2_FRAME_HEADER_SIZE (read_buf s).
Proof. intros [k ->] Hl. by rewrite take_app_le. Qed.

Lemma fills_done target reads s : target <= lenZ (read_buf s) -> fills target reads s (Ready tt, reads, s).
Proof. intros Ht. exists 0%nat. cbn [fill]. by rewrite (proj2 (Z.ltb_ge _ _)). Qed.

(** [read_frame] in terms of its two loops. *)
Lemma frame_read_unfold reads s p1 r1 s1 :
  fills (Z.of_nat SV2_FRAME_HEADER_SIZE) reads s (p1, r1, s1) ->
  match p1 with
  | Failed e => frame_read reads s (Failed e, r1, s1)
  | Waiting => frame_read reads s (Waiting, r1, s1)
  | Ready _ =>
      let header := Sv2FrameHeader.parse (take SV2_FRAME_HEADER_SIZE (read_buf s1)) in
      let total := Z.of_nat SV2_FRAME_HEADER_SIZE + Sv2FrameHeader.msg_length header in
      forall p2 r2 s2, fills total r1 s1 (p2, r2, s2) ->
      frame_read reads s
        match p2 with
        | Failed e => (Failed e, r2, s2)
        | Waiting => (Waiting, r2, s2)
        | Ready _ => (Ready (header, drop SV2_FRAME_HEADER_SIZE (take (Z.to_nat total) (read_buf s2))), r2,
                      mk (codec s2) (drop (Z.to_nat total) (read_buf s2)) (raw_buf s2))
        end
  end.
Proof.
  intros [f Hf]. destruct p1 as [[]|e|].
  - cbv zeta. intros p2 r2 s2 [g Hg]. pose proof (frame_length_le _ _ _ _ _ Hf) as Hlen.
    exists (f `max` g)%nat. unfold read_frame_fuel.
    rewrite (fill_mono _ (f `max` g) _ _ _ _ Hf) by lia.
    destruct (_ >? _) eqn:Hbig.
    { exfalso. z_bool. pose proof (header_parse_wf (take SV2_FRAME_HEADER_SIZE (read_buf s1))) as Hwf.
      destruct Hwf as (_ & _ & Hl); [rewrite length_take; unfold SV2_FRAME_HEADER_SIZE; lia|].
      unfold in_u, MAX_SV2_PAYLOAD_LEN in *. lia. }
    rewrite (fill_mono _ (f `max` g) _ _ _ _ Hg) by lia. by destruct p2 as [[]|e|].
  - exists f. unfold read_frame_fuel. by rewrite Hf.
  - exists f. unfold read_frame_fuel. by rewrite Hf.
Qed.

Lemma fills_some target reads s : exists r, fills target reads s r.
Proof. destruct (fill_total (S (outstanding reads s)) target reads s) as [r Hr]; [lia|]. by exists r; eexists. Qed.

Lemma frame_read_det reads s r r' : frame_read reads s r -> frame_read reads s r' -> r = r'.
Proof. rewrite !frame_read_iff. congruence. Qed.

Lemma frame_read_same_header reads s reads' s' x r :
  fills (Z.of_nat SV2_FRAME_HEADER_SIZE) reads s x -> fills (Z.of_nat SV2_FRAME_HEADER_SIZE) reads' s' x ->
  frame_read reads s r -> frame_read reads' s' r.
Proof.
  destruct x as [[p ra] sa]. intros H1 H2 Hr. pose proof (frame_read_unfold _ _ _ _ _ H1) as U1.
  pose proof (frame_read_unfold _ _ _ _ _ H2) as U2. destruct p as [[]|e|].
  - cbv zeta in *. set (header := Sv2FrameHeader.parse _) in *. set (total := _ + _) in *.
    destruct (fills_some total ra sa) as [[[p rb] sb] Hb].
    rewrite (frame_read_det _ _ _ _ Hr (U1 _ _ _ Hb)). by apply U2.
  - by rewrite (frame_read_det _ _ _ _ Hr U1).
  - by rewrite (frame_read_det _ _ _ _ Hr U1).
Qed.

(** Dropping a suspended read and calling again reads what one uninterrupted call would have. *)
Theorem read_frame_cancel_safe r1 s rest s1 r2 :
  read_frame r1 s = Some (Waiting, rest, s1) ->
  rest = [] /\ read_frame (r1 ++ r2) s = read_frame r2 s1.
Proof.
  intros Hw%frame_read_iff.
  destruct (fills_some (Z.of_nat SV2_FRAME_HEADER_SIZE) r1 s) as [[[p ra] sa] Ha].
  pose proof (frame_read_unfold _ _ _ _ _ Ha) as Hu. destruct (read_frame_some r2 s1) as [r Hr].
  rewrite Hr. rewrite <-!frame_read_iff in *. destruct p as [[]|e|].
  - destruct Ha as [f Ha]. pose proof (frame_length_le _ _ _ _ _ Ha) as Hlen.
    cbv zeta in Hu. set (header := Sv2FrameHeader.parse _) in *. set (total := _ + _) in *.
    destruct (fills_some total ra sa) as [[[p rb] sb] Hb]. pose proof (frame_read_det _ _ _ _ Hw (Hu _ _ _ Hb)) as He.
    destruct p as [[]|e|]; [done..|]. injection He as -> ->.
    destruct (fills_some total r2 sb) as [[[p rc] sc] Hc].
    destruct (fills_resume _ _ _ _ _ r2 _ Hb Hc) as [-> Hbc]. split; [done|].
    assert (read_buf sa `prefix_of` read_buf sb) as Hpre by (destruct Hb as [g Hb]; by apply fill_prefix in Hb as [? _]).
    pose proof (frame_read_unfold _ _ _ _ _ (fills_more _ _ _ _ _ _ r2 (ex_intro _ f Ha) ltac:(done)) _ _ _ Hbc) as Hl.
    assert (Z.of_nat SV2_FRAME_HEADER_SIZE <= lenZ (read_buf sb)) as Hsb.
    { apply prefix_length in Hpre. unfold lenZ, SV2_FRAME_HEADER_SIZE. lia. }
    pose proof (frame_read_unfold _ _ _ _ _ (fills_done _ r2 sb Hsb)) as Hd. cbv zeta in Hd.
    rewrite (take_header_prefix sa sb) in Hd by done. specialize (Hd _ _ _ Hc).
    by rewrite <-(frame_read_det _ _ _ _ Hd Hr).
  - by pose proof (frame_read_det _ _ _ _ Hw Hu).
  - pose proof (frame_read_det _ _ _ _ Hw Hu) as [= -> ->].
    destruct (fills_some (Z.of_nat SV2_FRAME_HEADER_SIZE) r2 sa) as [x Hx].
    destruct (fills_resume _ _ _ _ _ r2 _ Ha Hx) as [-> Hax]. split; [done|].
    by apply (frame_read_same_header r2 sa _ _ x).
Qed.

(** ** Bounds *)

Definition reads_bounded reads : Prop :=
  Forall (fun r => match r with Data b => lenZ b <= READ_CHUNK | ReadError => True end) reads.

Definition RAW_BUF_MAX : Z := 2 + MAX_NOISE_FRAME_LEN + READ_CHUNK.

Lemma buffered_bounds s :
  match buffered_frame s with
  | Some (_, s') => lenZ (raw_buf s') <= lenZ (raw_buf s)
  | None => lenZ (raw_buf s) < 2 + MAX_NOISE_FRAME_LEN
  end.
Proof.
  unfold buffered_frame, MAX_NOISE_FRAME_LEN. destruct (raw_buf s) as [|b0 [|b1 rest]] eqn:Hr; [done..|].
  pose proof (from_le_bytes_range [b1; b0]) as Hf. change (256 ^ Z.of_nat (length [b1; b0])) with 65536 in Hf.
  set (n := from_le_bytes [b1; b0]) in *. destruct (n =? 0) eqn:Hz; [by rewrite Hr|].
  destruct (_ >=? _) eqn:Hg; z_bool; [|lia].
  destruct (decrypt _ _) as [[p c]|]; cbn [raw_buf]; unfold lenZ; rewrite length_drop; cbn [length]; lia.
Qed.

Lemma rnf_bounded r : forall s p rest s1, reads_bounded r -> lenZ (raw_buf s) <= RAW_BUF_MAX ->
  read_noise_frame r s = (p, rest, s1) ->
  lenZ (raw_buf s1) <= RAW_BUF_MAX /\ reads_bounded rest /\
  (p = Waiting -> lenZ (raw_buf s1) < 2 + MAX_NOISE_FRAME_LEN).
Proof.
  unfold RAW_BUF_MAX. induction r as [|x r IH]; intros s p rest s1 Hb Hs; cbn [read_noise_frame];
    pose proof (buffered_bounds s) as Hbs; destruct (buffered_frame s) as [[[|] s']|];
    try (intros [= <- <- <-]; split_and!; try done; lia).
  apply Forall_cons in Hb as [Hx Hb]. destruct x as [[|b bs]|];
    try (intros [= <- <- <-]; split_and!; try done; lia).
  apply IH; [done|]. cbn [raw_buf]. rewrite lenZ_app. unfold MAX_NOISE_FRAME_LEN in *. lia.
Qed.

Lemma fill_bounded f target r s p rest s1 : reads_bounded r -> lenZ (raw_buf s) <= RAW_BUF_MAX ->
  fill f target r s = Some (p, rest, s1) ->
  lenZ (raw_buf s1) <= RAW_BUF_MAX /\ reads_bounded rest /\
  (p = Waiting -> lenZ (raw_buf s1) < 2 + MAX_NOISE_FRAME_LEN).
Proof.
  revert r s. induction f as [|f IH]; intros r s Hr Hs; cbn [fill]; case_if;
    try (by intros [= <- <- <-]).
  destruct (read_noise_frame r s) as [[[[]|e|] ra] sa] eqn:Hn;
    pose proof (rnf_bounded _ _ _ _ _ Hr Hs Hn) as (? & ? & ?); [by apply IH|by intros [= <- <- <-]..].
Qed.

(** The buffer of encrypted bytes never holds more than one maximal Noise frame and one read,
    whatever the peer sends; a suspended read holds less than one maximal frame. *)
Theorem raw_buf_bounded reads s outcome rest s1 :
  reads_bounded reads -> lenZ (raw_buf s) <= RAW_BUF_MAX ->
  read_frame reads s = Some (outcome, rest, s1) ->
  lenZ (raw_buf s1) <= RAW_BUF_MAX /\ reads_bounded rest /\
  (outcome = Waiting -> lenZ (raw_buf s1) < 2 + MAX_NOISE_FRAME_LEN).
Proof.
  unfold read_frame, read_frame_fuel. generalize (S (outstanding reads s)) as f. intros f Hr Hs.
  destruct (fill f (Z.of_nat SV2_FRAME_HEADER_SIZE) reads s) as [[[p ra] sa]|] eqn:E1; [|done].
  pose proof (fill_bounded _ _ _ _ _ _ _ Hr Hs E1) as (Ha & Hra & Hw).
  destruct p as [[]|e|]; [|intros [= <- <- <-]; split_and!; auto; done..].
  case_if; [by intros [= <- <- <-]|].
  match goal with |- context [fill f ?tg ra sa] => destruct (fill f tg ra sa) as [[[p rb] sb]|] eqn:E2; [|done] end.
  pose proof (fill_bounded _ _ _ _ _ _ _ Hra Ha E2) as (Hb & Hrb & Hw2).
  destruct p as [[]|e|]; intros [= <- <- <-]; split_and!; auto; done.
Qed.

End Reads.

(** ** Delivery *)

Section Delivery.
Context `{NoiseLaws}.
Import Sv2Transport.
Implicit Types (s : t) (reads : list read_result).

(** [carries c wire plain c']: the wire is whole Noise frames that a receiver in state [c] decrypts
    to [plain], ending in state [c']. *)
Inductive carries : noise_state -> bytes -> bytes -> noise_state -> Prop :=
| carries_nil c : carries c [] [] c
| carries_frame c e p c1 wire plain c' :
    1 <= lenZ e <= MAX_NOISE_FRAME_LEN -> p <> [] -> decrypt c e = Some (p, c1) ->
    carries c1 wire plain c' ->
    carries c (reverse (le_bytes 2 (lenZ e)) ++ e ++ wire) (p ++ plain) c'.

Lemma carries_app c w1 p1 c1 w2 p2 c2 : carries c w1 p1 c1 -> carries c1 w2 p2 c2 ->
  carries c (w1 ++ w2) (p1 ++ p2) c2.
Proof. induction 1; intros; [done|]. rewrite <-!app_assoc. econstructor; eauto. Qed.

Lemma carries_nonempty c wire plain c' : carries c wire plain c' -> plain = [] -> wire = [].
Proof. by destruct 1 as [|? ? [|] ? ? ? ? ? Hp]; [|destruct Hp|]. Qed.

(** What the sender wrote is whole frames that carry the frame data. *)
Lemma write_chunks_carries cs : forall tx rx w tx' w', paired tx rx ->
  Forall (fun c : bytes => 1 <= length c <= Z.to_nat MAX_NOISE_PLAINTEXT_LEN)%nat cs ->
  write_chunks cs tx w = Ok (tx', w') ->
  exists wire rx', written w' = written w ++ wire /\ carries rx wire (concat cs) rx' /\ paired tx' rx'.
Proof.
  induction cs as [|c cs IH]; intros tx rx w tx' w' Hp Hcs; cbn [write_chunks concat].
  { intros [= <- <-]. exists [], rx. rewrite app_nil_r. split_and!; [done|constructor|done]. }
  apply Forall_cons in Hcs as [Hc Hcs]. destruct (encrypt tx c) as [[e tx1]|] eqn:He; [|done].
  destruct (decrypt_encrypt _ _ _ _ _ Hp He) as (rx1 & Hd & Hp1).
  pose proof (encrypt_length _ _ _ _ He) as Hl. unfold write_all.
  destruct (writable w) as [|[] ws]; [done| |done]. cbn [writable].
  destruct ws as [|[] ws]; [done| |done]. intros Hw.
  destruct (IH _ rx1 _ _ _ Hp1 Hcs Hw) as (wire & rx' & Hwr & Hca & Hp'). cbn [written] in Hwr.
  unfold MAX_NOISE_PLAINTEXT_LEN, MAX_NOISE_FRAME_LEN, AEAD_MAC_LEN in *.
  assert (1 <= lenZ e <= 65535) by (unfold lenZ in *; lia).
  exists (reverse (le_bytes 2 (lenZ e)) ++ e ++ wire), rx'. split_and!; [|econstructor; eauto|done].
  - rewrite Hwr, Z.mod_small by lia. by rewrite <-!app_assoc.
  - intros ->. cbn in Hc. lia.
Qed.

Lemma plaintext_pos : (1 <= Z.to_nat MAX_NOISE_PLAINTEXT_LEN)%nat.
Proof. unfold MAX_NOISE_PLAINTEXT_LEN, MAX_NOISE_FRAME_LEN, AEAD_MAC_LEN. lia. Qed.

(** What a frame is on the wire. *)
Definition frame_of (f : Z * Z * bytes) : bytes :=
  let '(ext, ty, payload) := f in
  Sv2FrameHeader.to_bytes (Sv2FrameHeader.mk ext ty (lenZ payload)) ++ payload.

Definition frame_wf (f : Z * Z * bytes) : Prop :=
  let '(ext, ty, payload) := f in in_u 16 ext /\ in_u 8 ty /\ lenZ payload < 2 ^ 24.

Lemma write_frame_carries ext ty payload tx rx w tx' w' : frame_wf (ext, ty, payload) -> paired tx rx ->
  write_frame ext ty payload tx w = Ok (tx', w') ->
  exists wire rx', written w' = written w ++ wire /\ carries rx wire (frame_of (ext, ty, payload)) rx' /\
    paired tx' rx'.
Proof.
  intros (_ & _ & Hl) Hp. unfold write_frame. rewrite Z.mod_small by (pose proof (lenZ_nonneg payload); lia).
  fold (frame_of (ext, ty, payload)). destruct (write_chunks _ _ _) as [[c w1]|] eqn:Hw; [|done].
  unfold flush, write_all. destruct (writable w1) as [|[] ws]; [done| |done]. intros [= <- <-].
  destruct (write_chunks_carries _ _ _ _ _ _ Hp (chunks_bounded _ _ plaintext_pos) Hw)
    as (wire & rx' & Hwr & Hca & Hp').
  exists wire, rx'. cbn [written]. rewrite app_nil_r. split_and!; [done| |done].
  by rewrite concat_chunks in Hca by apply plaintext_pos.
Qed.

(** Sending frames one after the other. *)
Fixpoint write_frames (fs : list (Z * Z * bytes)) (tx : noise_state) (w : stream)
    : result (noise_state * stream) TransportError :=
  match fs with
  | [] => Ok (tx, w)
  | (ext, ty, payload) :: fs =>
      match write_frame ext ty payload tx w with
      | Err e => Err e
      | Ok (tx, w) => write_frames fs tx w
      end
  end.

Lemma write_frames_carries fs : forall tx rx w tx' w', Forall frame_wf fs -> paired tx rx ->
  write_frames fs tx w = Ok (tx', w') ->
  exists wire rx', written w' = written w ++ wire /\ carries rx wire (concat (frame_of <$> fs)) rx' /\
    paired tx' rx'.
Proof.
  induction fs as [|[[ext ty] payload] fs IH]; intros tx rx w tx' w' Hwf Hp; cbn [write_frames].
  { intros [= <- <-]. exists [], rx. rewrite app_nil_r. split_and!; [done|constructor|done]. }
  apply Forall_cons in Hwf as [Hf Hwf]. destruct (write_frame _ _ _ _ _) as [[tx1 w1]|] eqn:Hw; [|done].
  destruct (write_frame_carries _ _ _ _ _ _ _ _ Hf Hp Hw) as (wire1 & rx1 & Hw1 & Hc1 & Hp1).
  intros (wire2 & rx2 & Hw2 & Hc2 & Hp2)%(IH _ rx1); [|done..].
  exists (wire1 ++ wire2), rx2. rewrite Hw2, Hw1, <-app_assoc. split_and!; [done| |done].
  rewrite fmap_cons. cbn [concat]. by eapply carries_app.
Qed.

(** The bytes still to come, in the order they come. *)
Definition read_data (r : read_result) : bytes := match r with Data b => b | ReadError => [] end.
Definition datas reads : bytes := concat (read_data <$> reads).

(** Reads that return bytes, as a live socket does. *)
Definition live reads : Prop := Forall (fun r => exists b, r = Data b /\ b <> []) reads.

(** What a receiver will have decrypted once everything has arrived. *)
Definition receives reads s (plain : bytes) (c' : noise_state) : Prop :=
  exists rest, plain = read_buf s ++ rest /\ carries (codec s) (raw_buf s ++ datas reads) rest c'.

Lemma be_length_decode (n : Z) : 0 <= n <= 65535 ->
  from_le_bytes [Z_to_byte n; Z_to_byte (n / 256)] = n.
Proof.
  intros Hn. change [Z_to_byte n; Z_to_byte (n / 256)] with (le_bytes 2 n).
  rewrite from_to_le_bytes. change (256 ^ Z.of_nat 2) with 65536. by rewrite Z.mod_small by lia.
Qed.

(** The front of the wire is whole in the buffer, or the buffer has no whole frame. *)
Lemma buffered_split s e tail data : 1 <= lenZ e <= MAX_NOISE_FRAME_LEN ->
  raw_buf s ++ data = reverse (le_bytes 2 (lenZ e)) ++ e ++ tail ->
  (exists raw, raw_buf s = reverse (le_bytes 2 (lenZ e)) ++ e ++ raw /\ tail = raw ++ data) \/
  buffered_frame s = None.
Proof.
  unfold MAX_NOISE_FRAME_LEN. intros He Hw. rewrite app_assoc in Hw.
  apply app_eq_inv in Hw as [(k & Hr & Ht)|(k & Hr & Ht)].
  { left. exists k. by rewrite Hr, <-app_assoc. }
  destruct k as [|x k].
  { left. exists []. rewrite app_nil_r in Hr. by rewrite <-Hr, app_nil_r. }
  right. unfold buffered_frame. destruct (raw_buf s) as [|b0 [|b1 rest]]; [done..|].
  cbn [le_bytes reverse rev_append app] in Hr. injection Hr as <- <- Hr.
  rewrite be_length_decode, (proj2 (Z.eqb_neq _ _)) by lia. case_if; [|done]. z_bool.
  apply (f_equal lenZ) in Hr. rewrite lenZ_app in Hr. unfold lenZ in *. cbn [length] in *. lia.
Qed.

Lemma buffered_receives s e wire : 1 <= lenZ e <= MAX_NOISE_FRAME_LEN ->
  raw_buf s = reverse (le_bytes 2 (lenZ e)) ++ e ++ wire ->
  buffered_frame s = match decrypt (codec s) e with
    | None => Some (Err NoiseDecrypt, mk (codec s) (read_buf s) wire)
    | Some (plain, c) => Some (Ok tt, mk c (read_buf s ++ plain) wire)
    end.
Proof.
  unfold MAX_NOISE_FRAME_LEN. intros He Hr. unfold buffered_frame. rewrite Hr. cbn [le_bytes reverse rev_append app].
  rewrite be_length_decode, (proj2 (Z.eqb_neq _ _)) by lia.
  rewrite (proj2 (Z.geb_le _ _)) by (unfold lenZ; cbn [length]; rewrite length_app; lia).
  unfold lenZ. rewrite Nat2Z.id, take_app_length, drop_app_length. done.
Qed.

Lemma rnf_receives reads : forall s plain c', live reads -> receives reads s plain c' ->
  lenZ (read_buf s) < lenZ plain ->
  exists rest s', read_noise_frame reads s = (Ready tt, rest, s') /\ live rest /\ receives rest s' plain c'.
Proof.
  induction reads as [|r reads IH]; intros s plain c' Hlive (rest & -> & Hc) Hlt;
    inversion Hc as [|c e p c1 wire plain' c'' He Hp Hd Hca Hc1 Hraw]; subst;
    try (rewrite app_nil_r in Hlt; lia);
    destruct (buffered_split s e wire _ He (eq_sym Hraw)) as [(raw & Hs & ->)|Hnone].
  - exists [], (mk c1 (read_buf s ++ p) raw). cbn [read_noise_frame].
    rewrite (buffered_receives s e raw), Hd by done. split_and!; [done|done|].
    exists plain'. cbn [read_buf raw_buf codec]. by rewrite <-app_assoc.
  - exfalso. cbn in Hraw. rewrite app_nil_r in Hraw. rewrite (buffered_receives s e wire), Hd in Hnone; done.
  - exists (r :: reads), (mk c1 (read_buf s ++ p) raw). cbn [read_noise_frame].
    rewrite (buffered_receives s e raw), Hd by done. split_and!; [done|done|].
    exists plain'. cbn [read_buf raw_buf codec]. by rewrite <-app_assoc.
  - apply Forall_cons in Hlive as [(b & -> & Hb) Hlive]. cbn [read_noise_frame]. rewrite Hnone.
    destruct b as [|x b]; [done|]. apply IH; [done| |done].
    exists (p ++ plain'). cbn [read_buf raw_buf codec]. split; [done|].
    rewrite <-app_assoc. exact Hc.
Qed.

Lemma fill_receives f target reads s plain c' : live reads -> receives reads s plain c' ->
  target <= lenZ plain -> (outstanding reads s < f)%nat ->
  exists rest s', fill f target reads s = Some (Ready tt, rest, s') /\ live rest /\ receives rest s' plain c' /\
    target <= lenZ (read_buf s').
Proof.
  revert reads s. induction f as [|f IH]; intros reads s Hl Hr Ht Hf; [lia|]. cbn [fill].
  case_if; z_bool; [|by exists reads, s].
  destruct (rnf_receives reads s plain c' Hl Hr ltac:(lia)) as (rest & s' & Hn & Hl' & Hr').
  rewrite Hn. apply IH; [done..|]. apply rnf_progress in Hn. lia.
Qed.

(** One frame is read whole, and what follows it is left for the next read. *)
Lemma read_frame_receives f reads s more c' : frame_wf f -> live reads ->
  receives reads s (frame_of f ++ more) c' ->
  exists rest s', read_frame reads s
    = Some (Ready (Sv2FrameHeader.mk f.1.1 f.1.2 (lenZ f.2), f.2), rest, s') /\
    live rest /\ receives rest s' more c'.
Proof.
  destruct f as [[ext ty] payload]. intros (He & Ht & Hp) Hl Hr. cbn [fst snd].
  set (h := Sv2FrameHeader.mk ext ty (lenZ payload)).
  assert (frame_of (ext, ty, payload) = Sv2FrameHeader.to_bytes h ++ payload) as Hfo by done.
  assert (lenZ (frame_of (ext, ty, payload)) = 6 + lenZ payload) as Hlen
    by (rewrite Hfo, lenZ_app; unfold lenZ at 1; by rewrite length_header_bytes).
  pose proof (lenZ_nonneg payload) as Hp0. pose proof (lenZ_nonneg more) as Hm0.
  unfold read_frame, read_frame_fuel.
  destruct (fill_receives (S (outstanding reads s)) (Z.of_nat SV2_FRAME_HEADER_SIZE) reads s _ c' Hl Hr)
    as (r1 & s1 & E1 & Hl1 & Hr1 & Hb1); [rewrite lenZ_app; unfold SV2_FRAME_HEADER_SIZE; lia|lia|].
  rewrite E1. apply fill_outstanding in E1. destruct Hr1 as (k1 & Hk1 & Hc1).
  assert (take SV2_FRAME_HEADER_SIZE (read_buf s1) = Sv2FrameHeader.to_bytes h) as ->.
  { unfold SV2_FRAME_HEADER_SIZE, lenZ in *. rewrite <-(take_app_le (read_buf s1) k1 6) by lia.
    rewrite <-Hk1, Hfo, <-app_assoc. by apply (take_app_length' (Sv2FrameHeader.to_bytes h)). }
  rewrite header_parse_to_bytes by (unfold h, Sv2FrameHeader.wf, in_u in *;
    cbn [Sv2FrameHeader.extension_type Sv2FrameHeader.msg_type Sv2FrameHeader.msg_length]; lia).
  cbn [h Sv2FrameHeader.msg_length]. rewrite Z.gtb_ltb, (proj2 (Z.ltb_ge _ _)) by (unfold MAX_SV2_PAYLOAD_LEN; lia).
  destruct (fill_receives (S (outstanding reads s)) (Z.of_nat SV2_FRAME_HEADER_SIZE + lenZ payload) r1 s1
    _ c' Hl1 (ex_intro _ k1 (conj Hk1 Hc1))) as (r2 & s2 & E2 & Hl2 & (k2 & Hk2 & Hc2) & Hb2);
    [rewrite lenZ_app; unfold SV2_FRAME_HEADER_SIZE; lia|lia|].
  rewrite E2. set (n := Z.to_nat _).
  assert (n = length (frame_of (ext, ty, payload))) as Hn by (unfold n, SV2_FRAME_HEADER_SIZE, lenZ in *; lia).
  assert (exists k, read_buf s2 = frame_of (ext, ty, payload) ++ k /\ more = k ++ k2) as (k & Hk & ->).
  { apply app_eq_inv in Hk2 as [(k & Hk & Hm)|(k & Hk & Hm)]; [|by exists k].
    destruct k as [|x k]; [exists []; rewrite app_nil_r in *; subst; done|].
    apply (f_equal lenZ) in Hk. rewrite lenZ_app, Hlen in Hk. unfold SV2_FRAME_HEADER_SIZE, lenZ in *.
    cbn [length] in *. lia. }
  exists r2, (mk (codec s2) k (raw_buf s2)). rewrite Hk, Hn, take_app_length, drop_app_length.
  split_and!; [done|done|]. by exists k2.
Qed.

(** Reading one frame after the other. *)
Fixpoint read_frames (n : nat) (reads : list read_result) (s : t)
    : option (list (Sv2FrameHeader.t * bytes) * list read_result * t) :=
  match n with
  | O => Some ([], reads, s)
  | S n =>
      match read_frame reads s with
      | Some (Ready f, reads, s) =>
          '(fs, reads, s) ← read_frames n reads s; Some (f :: fs, reads, s)
      | _ => None
      end
  end.

Lemma read_frames_receives fs : forall reads s c', Forall frame_wf fs -> live reads ->
  receives reads s (concat (frame_of <$> fs)) c' ->
  exists rest s', read_frames (length fs) reads s
    = Some ((fun f => (Sv2FrameHeader.mk f.1.1 f.1.2 (lenZ f.2), f.2)) <$> fs, rest, s') /\
    live rest /\ receives rest s' [] c'.
Proof.
  induction fs as [|f fs IH]; intros reads s c' Hwf Hl Hr; [by exists reads, s|].
  apply Forall_cons in Hwf as [Hf Hwf]. rewrite fmap_cons in Hr. cbn [concat] in Hr.
  destruct (read_frame_receives _ _ _ _ _ Hf Hl Hr) as (r1 & s1 & E1 & Hl1 & Hr1).
  destruct (IH r1 s1 c' Hwf Hl1 Hr1) as (r2 & s2 & E2 & Hl2 & Hr2).
  exists r2, s2. cbn [length read_frames]. by rewrite E1, E2.
Qed.

(** C27 Frames sent one after the other are received as sent, in order, however the network cuts the
    byte stream into reads; afterwards nothing is buffered and the ciphers are still in step. *)
Theorem transport_delivers fs tx rx oks tx' w reads :
  Forall frame_wf fs -> paired tx rx ->
  write_frames fs tx (mkStream [] oks) = Ok (tx', w) ->
  live reads -> datas reads = written w ->
  exists rx', read_frames (length fs) reads (new rx)
    = Some ((fun f => (Sv2FrameHeader.mk f.1.1 f.1.2 (lenZ f.2), f.2)) <$> fs, [], new rx') /\
    paired tx' rx'.
Proof.
  intros Hwf Hp Hw Hl Hd.
  destruct (write_frames_carries _ _ _ _ _ _ Hwf Hp Hw) as (wire & rx' & Hwr & Hc & Hp').
  destruct (read_frames_receives fs reads (new rx) rx' Hwf Hl) as (rest & s' & E & Hlr & k & Hk & Hck).
  { exists (concat (frame_of <$> fs)). split; [done|]. cbn [new raw_buf codec app]. by rewrite Hd, Hwr. }
  symmetry in Hk. apply app_nil in Hk as [Hb ->].
  pose proof (carries_nonempty _ _ _ _ Hck eq_refl) as [Hraw Hrest]%app_nil.
  rewrite Hraw, Hrest in Hck. inversion Hck; subst.
  assert (rest = []) as ->.
  { destruct Hlr as [|r rest (b & -> & Hb') _]; [done|]. unfold datas in Hrest. cbn in Hrest.
    by apply app_nil in Hrest as [? _]. }
  exists (codec s'). split; [|done]. rewrite E. destruct s' as [c rb wb]. cbn in *. by subst.
Qed.
End Delivery.

(** ** The handshake and the key *)

Lemma read_exact_exact n reads : forall got eph rest, live reads -> length eph = n ->
  got ++ datas reads = eph ++ rest -> (length got <= n)%nat ->
  exists reads', read_exact n got reads = (Ready eph, reads') /\ live reads' /\ datas reads' = rest.
Proof.
  induction reads as [|r reads IH]; intros got eph rest Hl Hn Hd Hg; cbn [read_exact].
  - rewrite app_nil_r in Hd. subst got. rewrite length_app in Hg. destruct rest; [|cbn in Hg; lia].
    rewrite app_nil_r, Hn, Nat.leb_refl. by exists [].
  - destruct (n <=? length got)%nat eqn:Hle.
    { apply Nat.leb_le in Hle. apply app_inj_1 in Hd as [-> <-]; [|lia]. by exists (r :: reads). }
    apply Nat.leb_gt in Hle. apply Forall_cons in Hl as [(b & -> & Hb) Hl].
    destruct b as [|x b]; [done|]. set (c := x :: b) in *.
    unfold datas in Hd. rewrite fmap_cons in Hd. cbn [concat read_data] in Hd. fold (datas reads) in Hd.
    destruct (n - length got <? length c)%nat eqn:Hm.
    + apply Nat.ltb_lt in Hm. exists (Data (drop (n - length got) c) :: reads).
      rewrite <-(take_drop (n - length got) c) in Hd. rewrite <-app_assoc, (app_assoc got) in Hd.
      apply app_inj_1 in Hd as [<- <-]; [|rewrite length_app, length_take; unfold c in *; lia].
      split_and!; [done| |done]. constructor; [|done]. eexists. split; [done|].
      intros Hx%(f_equal length). rewrite length_drop in Hx. unfold c in *. cbn in *. lia.
    + apply Nat.ltb_ge in Hm. apply IH; [done..| |].
      * by rewrite <-Hd, <-app_assoc.
      * rewrite length_app. lia.
Qed.

(** Whatever follows the initiator's key, even in the same segment, is left for the transport. *)
Lemma handshake_leaves_rest `{NoiseResponder} kp validity eph rest response c reads w w1 w2 :
  live reads -> length eph = ELLSWIFT_ENCODING_SIZE -> datas reads = eph ++ rest ->
  step_1 kp validity eph = Some (response, c) ->
  Sv2Transport.write_all response w = Some w1 -> Sv2Transport.flush w1 = Some w2 ->
  exists reads', perform_handshake kp validity reads w = Ok (Sv2Transport.new c, reads', w2) /\
    live reads' /\ datas reads' = rest.
Proof.
  intros Hl Hn Hd Hs Hw1 Hw2.
  destruct (read_exact_exact _ reads [] eph rest Hl Hn Hd ltac:(cbn; lia)) as (reads' & Hr & Hl' & Hd').
  exists reads'. unfold perform_handshake. by rewrite Hr, Hs, Hw1, Hw2.
Qed.

(** Credentials are loaded only when the configured key is the public key of the file's secret. *)
Lemma load_authority_credentials_matches `{Secp256k1, HexCrate} file hex validity creds :
  load_authority_credentials file hex validity = Ok creds ->
  exists sk_bytes secret pubkey, file = Some sk_bytes /\ length sk_bytes = 32%nat /\
    secret_key_from_slice sk_bytes = Ok secret /\ cred_keypair creds = keypair_from_secret_key secret /\
    String.length hex = 64%nat /\ hex_decode hex = Ok pubkey /\
    x_only_from_slice pubkey = Ok (keypair_x_only (cred_keypair creds)).
Proof.
  unfold load_authority_credentials. destruct file as [sk|]; [|done]. cbn [ok_or result_bind].
  destruct (lenZ sk =? 32) eqn:Hl; [|done]. cbn [negb].
  destruct (secret_key_from_slice sk) as [secret|] eqn:Hs; [|done]. cbn [map_err result_bind].
  destruct (_ =? 64) eqn:Hh; [|done]. cbn [negb].
  destruct (hex_decode hex) as [pk|] eqn:Hd; [|done]. cbn [map_err result_bind].
  destruct (x_only_from_slice pk) as [x|] eqn:Hx; [|done]. cbn [map_err result_bind].
  case_bool_decide as Heq; [|done]. intros [= <-]. cbn [cred_keypair]. z_bool. unfold lenZ in Hl.
  exists sk, secret, pk. rewrite Heq. split_and!; (done || lia).
Qed.

(** * A sample session *)

Module TransportSample.
(** A cipher that appends its message number sixteen times. *)
Definition mac (n : Z) : bytes := replicate 16 (Z_to_byte n).

#[export] Instance noise : NoiseCodec := {|
  noise_state := Z;
  encrypt n p := Some (p ++ mac n, n + 1);
  decrypt n e :=
    let p := take (length e - 16) e in
    if bool_decide (e = p ++ mac n) then Some (p, n + 1) else None
|}.

#[export] Instance noise_laws : NoiseLaws.
Proof.
  refine (Build_NoiseLaws noise (fun a b : @noise_state noise => a = b) _ _).
  - cbn. intros tx p e tx' [= <- <-]. by rewrite lenZ_app.
  - cbn. intros tx rx p e tx' <- [= <- <-].
    rewrite length_app. change (length (mac tx)) with 16%nat. rewrite Nat.add_sub, take_app_length.
    rewrite bool_decide_eq_true_2 by done. by eexists.
Defined.

Definition st (n : Z) : @noise_state noise := n.

Definition frames : list (Z * Z * bytes) := [(0, 1, [x0a; x0b; x0c]); (0x8000, 0x1a, [])].

Definition sent : Sv2Transport.stream :=
  match write_frames frames (st 0) (Sv2Transport.mkStream [] (replicate 10 true)) with
  | Ok (_, w) => w | Err _ => Sv2Transport.mkStream [] [] end.

(** Every byte in a read of its own. *)
Definition bytewise (b : bytes) : list read_result := (fun x => Data [x]) <$> b.

Lemma live_bytewise b : live (bytewise b).
Proof. unfold live, bytewise. apply Forall_fmap, Forall_true. intros x. by exists [x]. Qed.

Lemma transport_delivers_witness : exists rx',
  read_frames 2 (bytewise (Sv2Transport.written sent)) (Sv2Transport.new (st 0))
  = Some ((fun f => (Sv2FrameHeader.mk f.1.1 f.1.2 (lenZ f.2), f.2)) <$> frames, [], Sv2Transport.new rx') /\
  paired (st 2) rx'.
Proof.
  apply (transport_delivers frames (st 0) (st 0) (replicate 10 true) (st 2) sent).
  - unfold frames. repeat (constructor; [unfold frame_wf, in_u, lenZ; cbn [length]; lia|]). constructor.
  - reflexivity.
  - vm_compute. reflexivity.
  - apply live_bytewise.
  - vm_compute. reflexivity.
Defined.

(** The read is dropped after the first five bytes. *)
Lemma read_frame_cancel_safe_witness :
  let wire := Sv2Transport.written sent in
  let s1 := Sv2Transport.mk (st 0) [] (take 5 wire) in
  Sv2Transport.read_frame (bytewise (take 5 wire) ++ bytewise (drop 5 wire)) (Sv2Transport.new (st 0))
  = Sv2Transport.read_frame (bytewise (drop 5 wire)) s1.
Proof.
  apply (read_frame_cancel_safe (bytewise (take 5 (Sv2Transport.written sent))) (Sv2Transport.new (st 0)) []
    (Sv2Transport.mk (st 0) [] (take 5 (Sv2Transport.written sent)))).
  vm_cast_no_check (@eq_refl _ (Some (@Waiting (Sv2FrameHeader.t * bytes), @nil read_result,
    Sv2Transport.mk (st 0) [] (take 5 (Sv2Transport.written sent))))).
Defined.

Lemma raw_buf_bounded_witness :
  lenZ (Sv2Transport.raw_buf (Sv2Transport.mk (st 0) [] (take 5 (Sv2Transport.written sent))))
  <= RAW_BUF_MAX.
Proof.
  apply (raw_buf_bounded (bytewise (take 5 (Sv2Transport.written sent))) (Sv2Transport.new (st 0)) Waiting []).
  - apply Forall_fmap, Forall_true. intros x. vm_compute. discriminate.
  - vm_compute. discriminate.
  - vm_cast_no_check (@eq_refl _ (Some (@Waiting (Sv2FrameHeader.t * bytes), @nil read_result,
      Sv2Transport.mk (st 0) [] (take 5 (Sv2Transport.written sent))))).
Defined.
End TransportSample.
