(* ===== verification/TemplateBlock.v ===== *)
(** * Template construction

    Models the pure half of [services/template-manager/src/main.rs]: the fingerprint and id of a
    template, the block subsidy, the BIP-34 height push, the two halves of the coinbase, the merkle
    branch of the coinbase and the raw block handed to the Invariant Shield.

    The hasher behind a template id ([DefaultHasher], whose algorithm the standard library leaves
    open) is an argument. [build_coinbase_halves] can return an error or panic; a panic is [None]. *)

From stdpp Require Import sorting.
From S2P Require Import Prelude Crates Consensus Jobs.

(** ** Fingerprints and ids *)

(** What is fed to a [DefaultHasher], in order, and the value of [finish]. *)
Inductive hash_input : Type := HashStr (s : string) | HashU64 (z : Z) | HashU32 (z : Z).
Class StdHasher : Type := { hasher_finish : list hash_input -> Z }.

Module TemplateFingerprint.
Record t : Type := mk {
  height : Z; prev_hash : string; tx_count : Z; total_fees : Z; txids_hash : Z }.

#[global] Instance eq_dec : EqDecision t.
Proof. solve_decision. Defined.
End TemplateFingerprint.

Section Ids.
Context `{StdHasher}.

(** [v.sort()] compares the strings byte by byte. *)
Definition sort_strings (l : list string) : list string := merge_sort String.le l.

Definition hash_txids (txids : list string) : Z := hasher_finish (HashStr <$> sort_strings txids).

Definition stable_template_id (fp : TemplateFingerprint.t) : Z :=
  hasher_finish [HashU64 (TemplateFingerprint.height fp); HashStr (TemplateFingerprint.prev_hash fp);
    HashU32 (TemplateFingerprint.tx_count fp); HashU64 (TemplateFingerprint.total_fees fp);
    HashU64 (TemplateFingerprint.txids_hash fp)].
End Ids.

Definition block_subsidy_sats (height : Z) : Z :=
  let halvings := height / 210000 in
  if halvings >=? 64 then 0 else Z.shiftr (50 * 100000000) halvings.

(** ** The coinbase *)

(** [while n > 0 { v.push((n & 0xFF) as u8); n >>= 8; }]: a [u32] has four bytes. *)
Fixpoint height_bytes (fuel : nat) (n : Z) : bytes :=
  match fuel with
  | O => []
  | S fuel => if n >? 0 then Z_to_byte (Z.land n 0xff) :: height_bytes fuel (Z.shiftr n 8) else []
  end.

Definition bip34_height_push (height : Z) : bytes :=
  if height =? 0 then [x01; x00]
  else
    let v := height_bytes 4 height in
    let v := match last v with
             | Some b => if negb (Z.land (byte_to_Z b) 0x80 =? 0) then v ++ [x00] else v
             | None => v
             end in
    Z_to_byte (lenZ v) :: v.

Inductive HalvesError : Type := ScriptSigTooLong (len : Z) | CommitmentTooLong (len : Z).

Definition build_coinbase_halves (block_height coinbase_value : Z) (coinbase_output_script : bytes)
    (extranonce_size : nat) (coinbase_aux : bytes) (witness_commitment_script : option bytes)
    : option (result (bytes * bytes) HalvesError) :=
  let height_push := bip34_height_push block_height in
  let scriptsig_len := lenZ height_push + lenZ coinbase_aux + Z.of_nat extranonce_size in
  if negb (scriptsig_len <=? 100) then Some (Err (ScriptSigTooLong scriptsig_len))
  else
    let prefix := le_bytes 4 2 ++ [x01] ++ replicate 32 x00 ++ le_bytes 4 0xFFFFFFFF in
    if negb (scriptsig_len <? 253) then Some (Err (ScriptSigTooLong scriptsig_len))
    else
      let prefix := prefix ++ [Z_to_byte scriptsig_len] ++ height_push ++ coinbase_aux in
      let output_count := match witness_commitment_script with Some _ => 2 | None => 1 end in
      let suffix := le_bytes 4 0xFFFFFFFF ++ [Z_to_byte output_count] ++ le_bytes 8 coinbase_value in
      if negb (lenZ coinbase_output_script <? 253) then None
      else
        let suffix := suffix ++ [Z_to_byte (lenZ coinbase_output_script)] ++ coinbase_output_script in
        match witness_commitment_script with
        | None => Some (Ok (prefix, suffix ++ le_bytes 4 0))
        | Some wc_script =>
            if negb (lenZ wc_script <? 253) then Some (Err (CommitmentTooLong (lenZ wc_script)))
            else
              let suffix := suffix ++ le_bytes 8 0 ++ [Z_to_byte (lenZ wc_script)] ++ wc_script in
              Some (Ok (prefix, suffix ++ le_bytes 4 0))
        end.

(** ** The merkle branch *)

Inductive BranchError : Type := InvalidTxidHex (txid : string) | TxidLength (len : Z).

Section Branch.
Context `{Sha256Crate, HexCrate}.

(** The txids in internal byte order. *)
Fixpoint parse_txids (txids : list string) : result (list bytes) BranchError :=
  match txids with
  | [] => Ok []
  | hex_str :: txids =>
      match hex_decode hex_str with
      | Err _ => Err (InvalidTxidHex hex_str)
      | Ok b =>
          if negb (lenZ b =? 32) then Err (TxidLength (lenZ b))
          else let? rest := parse_txids txids in Ok (reverse b :: rest)
      end
  end.

(** Duplicate the last element of a level of odd length. *)
Definition pad_level (level : list bytes) : list bytes :=
  if Nat.even (length level) then level
  else match last level with Some l => level ++ [l] | None => level end.

(** [for i in (0..level.len()).step_by(2)]. *)
Fixpoint combine_pairs (level : list bytes) : list bytes :=
  match level with
  | a :: b :: level => sha256d (a ++ b) :: combine_pairs level
  | _ => []
  end.

Definition sibling_index (index : nat) : nat := if Nat.even index then S index else index - 1.

(** [while level.len() > 1]: a level is halved each time, so its length bounds the iterations;
    [None] is the loop cut short or an index out of range. *)
Fixpoint branch_loop (fuel : nat) (level : list bytes) (index : nat) : option (list bytes) :=
  if (length level <=? 1)%nat then Some []
  else
    match fuel with
    | O => None
    | S fuel =>
        let level := pad_level level in
        sibling ← level !! sibling_index index;
        rest ← branch_loop fuel (combine_pairs level) (index / 2);
        Some (sibling :: rest)
    end.

Definition compute_merkle_branch (txid_hex_display : list string)
    : option (result (list string) BranchError) :=
  match txid_hex_display with
  | [] => Some (Ok [])
  | _ =>
      match parse_txids txid_hex_display with
      | Err e => Some (Err e)
      | Ok txids =>
          match branch_loop (length txids) (replicate 32 x00 :: txids) 0 with
          | Some branch => Some (Ok (hex_encode <$> branch))
          | None => None
          end
      end
  end.

(** ** The raw block *)

Definition display_hex_to_internal (display_hex : string) : option bytes :=
  match hex_decode display_hex with
  | Ok b => if (length b =? 32)%nat then Some (reverse b) else None
  | Err _ => None
  end.

(** [i32::from_le_bytes(block_version.to_le_bytes())]. *)
Definition i32_of_u32 (z : Z) : Z := if z <? 2 ^ 31 then z else z - 2 ^ 32.

Definition assemble_raw_block_hex `{BitcoinLib} (block_version nbits curtime : Z)
    (prev_hash_display : string) (cb_prefix cb_suffix : bytes) (extranonce_size : nat)
    (txs_raw : list bytes) : option string :=
  match display_hex_to_internal prev_hash_display with
  | None => None
  | Some prev_hash =>
      let coinbase_legacy := cb_prefix ++ replicate extranonce_size x00 ++ cb_suffix in
      match assemble_template_block
              (mkParts (i32_of_u32 block_version) prev_hash curtime nbits coinbase_legacy txs_raw) with
      | Ok raw => Some (hex_encode raw)
      | Err _ => None
      end
  end.
End Branch.

(** [bits_to_nbits]: four big-endian bytes, or 0. *)
Definition bits_to_nbits (bits : bytes) : Z :=
  if lenZ bits =? 4 then from_le_bytes (reverse bits) else 0.

(** * Properties *)

(** ** Ids *)

(** A template whose transactions come in another order is the same template. *)
Lemma hash_txids_order `{StdHasher} l l' : l ≡ₚ l' -> hash_txids l = hash_txids l'.
Proof.
  intros Hp. unfold hash_txids, sort_strings. do 2 f_equal.
  apply (Sorted_unique String.le); [apply Sorted_merge_sort, _..|].
  by rewrite !merge_sort_Permutation.
Qed.

Lemma block_subsidy_halves h : 0 <= h -> block_subsidy_sats h = 5000000000 / 2 ^ (h / 210000).
Proof.
  intros Hh. unfold block_subsidy_sats. case_if; z_bool.
  - symmetry. apply Z.div_small. split; [lia|].
    assert (2 ^ 64 <= 2 ^ (h / 210000)) by (apply Z.pow_le_mono_r; lia). lia.
  - rewrite Z.shiftr_div_pow2; [done|]. apply Z.div_pos; lia.
Qed.

(** ** The height push *)

Lemma height_bytes_spec fuel n : 0 <= n < 256 ^ Z.of_nat fuel ->
  from_le_bytes (height_bytes fuel n) = n /\
  (0 < n -> exists b, last (height_bytes fuel n) = Some b /\ byte_to_Z b <> 0).
Proof.
  revert n. induction fuel as [|fuel IH]; intros n Hn; [cbn in *; lia|].
  cbn [height_bytes]. rewrite Nat2Z.inj_succ, Z.pow_succ_r in Hn by lia. case_if; z_bool.
  2:{ cbn [from_le_bytes]. lia. }
  change 0xff with (Z.ones 8). rewrite Z.shiftr_div_pow2, Z.land_ones by lia. change (2 ^ 8) with 256.
  destruct (IH (n / 256)) as [Hv Hl].
  { split; [apply Z.div_pos; lia|apply Z.div_lt_upper_bound; lia]. }
  cbn [from_le_bytes]. rewrite Hv, byte_to_Z_to_byte, Z.mod_mod by lia. split.
  - pose proof (Z.div_mod n 256). lia.
  - intros _. destruct (decide (0 < n / 256)) as [Hd|Hd].
    + destruct (Hl Hd) as (b & Hb & Hb0). exists b. split; [|done].
      by destruct (height_bytes fuel (n / 256)).
    + assert (n / 256 = 0) as H0. { pose proof (Z.div_pos n 256). lia. }
      exists (Z_to_byte (n mod 256)). rewrite byte_to_Z_to_byte, Z.mod_mod by lia. split.
      * rewrite H0. by destruct fuel.
      * pose proof (Z.div_mod n 256). lia.
Qed.

Lemma length_height_bytes fuel n : (length (height_bytes fuel n) <= fuel)%nat.
Proof. revert n. induction fuel; intros n; cbn [height_bytes]; [done|]. case_if; cbn; [|lia]. specialize (IHfuel (Z.shiftr n 8)). lia. Qed.

(** The height the template manager pushes is the height the shield reads, whatever follows. *)
Theorem bip34_push_decodes h rest : 0 <= h < 2 ^ 31 ->
  decode_bip34_height (bip34_height_push h ++ rest) = Some h.
Proof.
  intros Hh. apply decode_bip34_height_inv. unfold bip34_height_push. case_if; z_bool.
  { subst. exists x01, [x00], rest, x00. split_and!; try done. intros (Hl & _). done. }
  destruct (height_bytes_spec 4 h) as [Hv Hl]; [change (256 ^ Z.of_nat 4) with (2 ^ 32); lia|].
  destruct (Hl ltac:(lia)) as (b & Hb & Hb0). rewrite Hb. cbv zeta.
  pose proof (length_height_bytes 4 h) as Hlen.
  set (v := height_bytes 4 h) in *. clearbody v. rewrite byte_high_bit.
  assert (1 <= lenZ v) as Hl1 by (destruct v; [done|unfold lenZ; cbn; lia]).
  destruct (byte_to_Z b <? 128) eqn:Hsign; cbn [negb]; z_bool.
  - exists (Z_to_byte (lenZ v)), v, rest, b.
    rewrite byte_to_Z_to_byte, Z.mod_small by (unfold lenZ; lia).
    split_and!; try done; try (unfold lenZ in *; lia).
  - exists (Z_to_byte (lenZ (v ++ [x00]))), (v ++ [x00]), rest, x00.
    assert (lenZ v <= 3) as Hl3.
    { destruct (decide (length v = 4%nat)) as [H4|]; [|unfold lenZ; lia]. exfalso.
      apply last_Some in Hb as [u Hu]. rewrite Hu, from_le_bytes_app in Hv. rewrite Hu, length_app in H4.
      cbn in H4. assert (length u = 3%nat) as H3 by lia. rewrite H3 in Hv. cbn [from_le_bytes] in Hv.
      pose proof (from_le_bytes_range u). change (256 ^ Z.of_nat 3) with 16777216 in Hv. lia. }
    rewrite !lenZ_app. change (lenZ [x00]) with 1.
    rewrite byte_to_Z_to_byte, Z.mod_small by lia.
    split_and!; try done; try lia.
    + by rewrite last_snoc.
    + intros (_ & _ & y & Hy & Hy128). apply last_Some in Hb as [u Hu]. rewrite Hu in Hy.
      rewrite lookup_app_l in Hy by (rewrite <-Hu; unfold lenZ in *; lia).
      replace (Z.to_nat (lenZ (u ++ [b]) + 1 - 2)) with (length u) in Hy
        by (unfold lenZ; rewrite length_app; cbn; lia).
      rewrite lookup_app_r, Nat.sub_diag in Hy by lia. injection Hy as <-. lia.
    + rewrite from_le_bytes_app. cbn. lia.
Qed.

(** ** The coinbase halves *)

(** The variable-length integer of the wire format. *)
Definition compact_size (n : Z) : bytes :=
  if n <? 253 then [Z_to_byte n]
  else if n <=? u16_max then xfd :: le_bytes 2 n
  else if n <=? u32_max then xfe :: le_bytes 4 n
  else xff :: le_bytes 8 n.

Definition serialize_script (s : bytes) : bytes := compact_size (lenZ s) ++ s.

Definition serialize_in (i : TxIn.t) : bytes :=
  OutPoint.txid (TxIn.previous_output i) ++ le_bytes 4 (OutPoint.vout (TxIn.previous_output i))
  ++ serialize_script (TxIn.script_sig i) ++ le_bytes 4 (TxIn.sequence i).

Definition serialize_out (o : TxOut.t) : bytes :=
  le_bytes 8 (TxOut.value o) ++ serialize_script (TxOut.script_pubkey o).

(** The serialization of a transaction without witness data. *)
Definition serialize_legacy (tx : Transaction.t) : bytes :=
  le_bytes 4 (Transaction.version tx)
  ++ compact_size (lenZ (Transaction.input tx)) ++ concat (serialize_in <$> Transaction.input tx)
  ++ compact_size (lenZ (Transaction.output tx)) ++ concat (serialize_out <$> Transaction.output tx)
  ++ le_bytes 4 (Transaction.lock_time tx).

(** The coinbase a template and an extranonce determine. *)
Definition coinbase_tx (height value : Z) (out_script aux : bytes) (commitment : option bytes)
    (extranonce : bytes) : Transaction.t :=
  Transaction.mk 2 0
    [TxIn.mk (OutPoint.mk zero32 u32_max) (bip34_height_push height ++ aux ++ extranonce) u32_max []]
    (TxOut.mk value out_script :: match commitment with Some c => [TxOut.mk 0 c] | None => [] end).

Lemma compact_size_small n : 0 <= n < 253 -> compact_size n = [Z_to_byte n].
Proof. intros Hn. unfold compact_size. by rewrite (proj2 (Z.ltb_lt _ _)) by lia. Qed.

Lemma halves_inj (a b c d : bytes) :
  Some (Ok (a, b)) = Some (@Ok _ HalvesError (c, d)) -> c = a /\ d = b.
Proof. by intros [= -> ->]. Qed.

(** The halves around any extranonce of the configured size are the serialization of the coinbase
    that pays the value to the output script, commits to the witnesses and pushes the height; its
    script is within the consensus bounds and its height is the one the shield reads back. *)
Theorem coinbase_halves_exact height value out_script en_size aux commitment prefix suffix extranonce :
  build_coinbase_halves height value out_script en_size aux commitment = Some (Ok (prefix, suffix)) ->
  length extranonce = en_size -> 0 <= height < 2 ^ 31 ->
  let tx := coinbase_tx height value out_script aux commitment extranonce in
  let script := bip34_height_push height ++ aux ++ extranonce in
  prefix ++ extranonce ++ suffix = serialize_legacy tx /\
  MIN_COINBASE_SCRIPT_LEN <= lenZ script <= MAX_COINBASE_SCRIPT_LEN /\
  decode_bip34_height script = Some height.
Proof.
  intros Hb Hen Hh tx script. unfold build_coinbase_halves in Hb.
  set (hp := bip34_height_push height) in *.
  assert (2 <= lenZ hp) as Hhp.
  { subst hp. unfold bip34_height_push. case_if; [done|]. z_bool.
    destruct (height_bytes_spec 4 height) as [_ Hl]; [change (256 ^ Z.of_nat 4) with (2 ^ 32); lia|].
    destruct (Hl ltac:(lia)) as (b & Hl' & _). rewrite Hl'. unfold lenZ. cbn [length].
    destruct (height_bytes 4 height); [done|]. case_if; cbn [length app]; lia. }
  assert (lenZ script = lenZ hp + lenZ aux + Z.of_nat en_size) as Hs.
  { unfold script. rewrite !lenZ_app. unfold lenZ. lia. }
  rewrite <-Hs in Hb. destruct (lenZ script <=? 100) eqn:E1; [|done]. cbn [negb] in Hb.
  destruct (lenZ script <? 253) eqn:E2; [|done]. cbn [negb] in Hb.
  destruct (lenZ out_script <? 253) eqn:E3; [|done]. cbn [negb] in Hb. z_bool.
  pose proof (lenZ_nonneg out_script). pose proof (lenZ_nonneg aux).
  split_and!; [|unfold MIN_COINBASE_SCRIPT_LEN; lia|done|by apply bip34_push_decodes].
  unfold tx, coinbase_tx, serialize_legacy, serialize_in, serialize_out, serialize_script.
  cbn [Transaction.version Transaction.input Transaction.output Transaction.lock_time TxIn.previous_output
    TxIn.script_sig TxIn.sequence OutPoint.txid OutPoint.vout TxOut.value TxOut.script_pubkey fmap
    list_fmap concat]. fold hp script.
  rewrite (compact_size_small (lenZ script)), (compact_size_small (lenZ out_script)) by lia.
  destruct commitment as [wc|].
  - destruct (lenZ wc <? 253) eqn:E4; [|done]. z_bool. pose proof (lenZ_nonneg wc).
    apply halves_inj in Hb as [-> ->]. cbn [fmap list_fmap concat TxOut.value TxOut.script_pubkey].
    rewrite (compact_size_small (lenZ wc)) by lia. unfold script, u32_max, zero32.
    by rewrite <-!app_assoc.
  - apply halves_inj in Hb as [-> ->]. unfold script, u32_max, zero32. by rewrite <-!app_assoc.
Qed.

(** ** The merkle branch *)

Section MerkleBranch.
Context `{Sha256Crate}.

(** The merkle root of a block: levels are padded and paired until one hash is left. *)
Fixpoint merkle_root_fuel (fuel : nat) (level : list bytes) : option bytes :=
  match level, fuel with
  | [], _ => None
  | [root], _ => Some root
  | _, O => None
  | _, S fuel => merkle_root_fuel fuel (combine_pairs (pad_level level))
  end.
Definition merkle_root (level : list bytes) : option bytes := merkle_root_fuel (length level) level.

(** The gateway's fold over a branch. *)
Definition fold_branch (leaf : bytes) (branch : list bytes) : bytes :=
  foldl (fun current sibling => sha256d (current ++ sibling)) leaf branch.

Lemma length_combine_pairs n : forall l, (length l <= n)%nat -> (2 * length (combine_pairs l) <= length l)%nat.
Proof.
  induction n as [|n IH]; intros [|a [|b l]] Hl; cbn [combine_pairs length] in *; try lia.
  specialize (IH l ltac:(lia)). lia.
Qed.

(** Padding a level of at least two hashes does not look at the first. *)
Lemma pad_level_cons s rest : exists s' rest', (length rest' <= length (s :: rest))%nat /\
  forall x, pad_level (x :: s :: rest) = x :: s' :: rest'.
Proof.
  unfold pad_level. destruct (Nat.even (length (s :: s :: rest))) eqn:He.
  - exists s, rest. split; [cbn; lia|]. intros x. cbn [length] in *. by rewrite He.
  - destruct (last (s :: rest)) as [l|] eqn:Hl; [|by apply last_None in Hl].
    exists s, (rest ++ [l]). split; [rewrite length_app; cbn; lia|]. intros x. cbn [length] in *. rewrite He.
    rewrite last_cons_cons, Hl. done.
Qed.

Lemma branch_loop_root fuel : forall x y rest, (length rest <= fuel)%nat ->
  exists branch, branch_loop fuel (x :: rest) 0 = Some branch /\
    merkle_root_fuel fuel (y :: rest) = Some (fold_branch y branch).
Proof.
  induction fuel as [|fuel IH]; intros x y [|s rest] Hl; cbn [length] in Hl; try lia;
    try (by exists []).
  destruct (pad_level_cons s rest) as (s' & rest' & Hlen & Hpad). cbn [length] in Hlen.
  cbn [branch_loop merkle_root_fuel]. cbn [length Nat.leb]. rewrite !Hpad.
  cbn [combine_pairs sibling_index Nat.even lookup list_lookup mbind option_bind].
  destruct (IH (sha256d (x ++ s')) (sha256d (y ++ s')) (combine_pairs rest')) as (br & Hbr & Hroot).
  { pose proof (length_combine_pairs (length rest') rest'). lia. }
  exists (s' :: br). change (0 / 2)%nat with 0%nat. rewrite Hbr, Hroot. done.
Qed.

Lemma merkle_root_fuel_mono fuel fuel' level r : (fuel <= fuel')%nat ->
  merkle_root_fuel fuel level = Some r -> merkle_root_fuel fuel' level = Some r.
Proof.
  revert fuel' level. induction fuel as [|fuel IH]; intros fuel' [|a [|b l]] Hle Hr;
    destruct fuel' as [|fuel']; try done; [lia|].
  cbn [merkle_root_fuel] in *. apply IH; [lia|done].
Qed.
End MerkleBranch.

Section BranchFacts.
Context `{Sha256Laws, HexLaws}.

(** The txids in internal order, given as the display hex the node reports. *)
Definition display_txid (txid : bytes) : string := hex_encode (reverse txid).

Lemma parse_txids_display txids : Forall (fun t : bytes => length t = 32%nat) txids ->
  parse_txids (display_txid <$> txids) = Ok txids.
Proof.
  induction 1 as [|t txids Ht _ IH]; [done|]. rewrite fmap_cons. cbn [parse_txids].
  unfold display_txid at 1. rewrite hex_decode_encode. unfold lenZ. rewrite length_reverse, Ht. cbn.
  by rewrite IH, reverse_involutive.
Qed.

(** Every hash of a branch has 32 bytes. *)
Lemma combine_pairs_lengths n : forall l, (length l <= n)%nat ->
  Forall (fun t : bytes => length t = 32%nat) (combine_pairs l).
Proof.
  induction n as [|n IH]; intros [|a [|b l]] Hl; cbn [combine_pairs length] in *; try lia; try by constructor.
  constructor; [apply sha256_length|]. apply IH. lia.
Qed.

Lemma branch_loop_lengths fuel : forall level i br, Forall (fun t : bytes => length t = 32%nat) level ->
  branch_loop fuel level i = Some br -> Forall (fun t : bytes => length t = 32%nat) br.
Proof.
  induction fuel as [|fuel IH]; intros level i br Hl; cbn [branch_loop]; case_if; try done;
    try (intros Hb; apply (inj Some) in Hb as <-; constructor).
  assert (Forall (fun t : bytes => length t = 32%nat) (pad_level level)) as Hp.
  { unfold pad_level. case_if; [done|]. destruct (last level) as [l|] eqn:Hlast; [|done].
    apply Forall_app. split; [done|]. constructor; [|done].
    apply last_Some_elem_of in Hlast. by eapply Forall_forall in Hl. }
  destruct (pad_level level !! sibling_index i) as [sib|] eqn:Hs; [|done]. cbn.
  destruct (branch_loop fuel _ _) as [rest|] eqn:Hr; [|done]. cbn. intros Hb. apply (inj Some) in Hb as <-.
  constructor; [by eapply (proj1 (Forall_lookup _ _) Hp)|].
  eapply IH; [|exact Hr]. by apply (combine_pairs_lengths (length (pad_level level))).
Qed.

(** The branch the template manager computes from the node's transaction ids, and the root the
    gateway folds it into for a channel's coinbase: the merkle root of the block that has that
    coinbase in front of the template's transactions. It always exists. *)
Theorem merkle_branch_root txids prefix extranonce suffix :
  Forall (fun t : bytes => length t = 32%nat) txids ->
  exists branch, compute_merkle_branch (display_txid <$> txids) = Some (Ok (hex_encode <$> branch)) /\
    Forall (fun t : bytes => length t = 32%nat) branch /\
    merkle_root (sha256d (prefix ++ extranonce ++ suffix) :: txids)
    = Some (Jobs.compute_merkle_root prefix extranonce suffix branch).
Proof.
  intros Ht. unfold compute_merkle_branch. destruct txids as [|t txids].
  { exists []. split_and!; [done|constructor|done]. }
  rewrite parse_txids_display by done. rewrite fmap_cons.
  pose proof (branch_loop_lengths (length (t :: txids)) (replicate 32 x00 :: t :: txids) 0) as Hlen.
  destruct (branch_loop_root (length (t :: txids)) (replicate 32 x00)
    (sha256d (prefix ++ extranonce ++ suffix)) (t :: txids) ltac:(done)) as (br & Hbr & Hroot).
  rewrite Hbr. exists br. split_and!; [done|apply (Hlen br); [by constructor|exact Hbr]|]. unfold merkle_root.
  by apply (merkle_root_fuel_mono (length (t :: txids))); [cbn; lia|].
Qed.

(** A txid that is not 32 bytes of hex stops the branch. *)
Lemma merkle_branch_error txids e : compute_merkle_branch txids = Some (Err e) ->
  exists t, t ∈ txids /\ (forall b, hex_decode t = Ok b -> length b <> 32%nat).
Proof.
  unfold compute_merkle_branch. destruct txids as [|t0 ts]; [done|].
  assert (forall l e, parse_txids l = Err e ->
    exists t, t ∈ l /\ (forall b, hex_decode t = Ok b -> length b <> 32%nat)) as Hp.
  { induction l as [|t l IH]; intros e0; [done|]. cbn [parse_txids].
    destruct (hex_decode t) as [b|] eqn:Hd; [|intros _; exists t; split; [set_solver|congruence]].
    destruct (lenZ b =? 32) eqn:Hl; cbn [negb].
    - destruct (parse_txids l) as [r|e1]; [done|]. intros _. destruct (IH e1 eq_refl) as (t' & Ht & Hb).
      exists t'. split; [set_solver|done].
    - intros _. exists t. split; [set_solver|]. intros b' Hb'. z_bool. unfold lenZ in Hl.
      assert (b' = b) as -> by congruence. lia. }
  destruct (parse_txids (t0 :: ts)) as [r|e0] eqn:He; [|intros _; by apply (Hp _ e0)].
  by destruct (branch_loop _ _ _).
Qed.
End BranchFacts.

(** Concrete arguments for the witnesses. *)
Module TemplateBlockSample.
#[local] Instance sha : Sha256Crate := Sha256Sample.crate.
#[local] Instance hex : HexCrate := HexSample.crate.

Lemma bip34_push_decodes_witness :
  decode_bip34_height (bip34_height_push 840000 ++ [x01; x02]) = Some 840000.
Proof. apply (bip34_push_decodes 840000 [x01; x02]). lia. Defined.

Definition halves : bytes * bytes :=
  match build_coinbase_halves 840000 312500000 [x51] 8 [x0a] None with
  | Some (Ok h) => h | _ => ([], []) end.

Lemma coinbase_halves_exact_witness :
  fst halves ++ replicate 8 x11 ++ snd halves
  = serialize_legacy (coinbase_tx 840000 312500000 [x51] [x0a] None (replicate 8 x11)).
Proof.
  refine (proj1 (coinbase_halves_exact 840000 312500000 [x51] 8 [x0a] None (fst halves) (snd halves)
    (replicate 8 x11) _ eq_refl _)); [by vm_compute|lia].
Defined.

Definition txids : list bytes := [replicate 32 x01; replicate 32 x02; replicate 32 x03].

Lemma merkle_branch_root_witness :
  exists branch, compute_merkle_branch (display_txid <$> txids) = Some (Ok (hex_encode <$> branch)) /\
    Forall (fun t : bytes => length t = 32%nat) branch /\
    merkle_root (sha256d ([x01] ++ [x02] ++ [x03]) :: txids)
    = Some (Jobs.compute_merkle_root [x01] [x02] [x03] branch).
Proof. apply (@merkle_branch_root sha Sha256Sample.sha256_laws hex HexSample.hex_laws). by repeat constructor. Defined.
End TemplateBlockSample.
