(* ===== verification/Manager.v ===== *)
(** * The template manager

    Models the stateful half of [services/template-manager/src/main.rs]: polling the node for
    templates, the manager loop that records and serves them, share ingest with its signature
    check, and the guards of the HTTP interface.

    The node is what its RPC calls return; clocks are arguments. Integer sums wrap at their width,
    as in the release profile. A panic is [None]. The JSON of a share is the class of [Shares]; the
    struct the manager parses has the fields of the gateway's in the same order, so one record
    stands for both. *)

From stdpp Require Import sorting.
From S2P Require Import Prelude Crates Float64 Consensus Jobs Reason Shares Protocol TemplateBlock.

(** ** JSON values *)

Inductive json : Type :=
| JNull | JBool (b : bool) | JNum (z : Z) | JStr (s : string) | JArr (l : list json)
| JObj (fields : list (string * json)).

(** [Value::get] on an object: serde_json keeps one value per key. *)
Definition json_get (k : string) (j : json) : option json :=
  match j with
  | JObj fields => snd <$> head (filter (fun p : string * json => p.1 = k) fields)
  | _ => None
  end.

Definition json_as_u64 (j : json) : option Z :=
  match j with
  | JNum z => if (0 <=? z) && (z <=? u64_max) then Some z else None
  | _ => None
  end.

Definition extract_coinbase_sigops (raw : json) : option Z :=
  match json_get "coinbasetxn" raw with
  | None => None
  | Some cbtxn =>
      match json_get "sigops" cbtxn with
      | None => None
      | Some v => (fun v => v mod 2 ^ 32) <$> json_as_u64 v
      end
  end.

(** ** What the node returns *)

Module GbtTx.
Record t : Type := mk { txid : string; fee : Z; weight : Z; sigops : Z; raw_tx : bytes }.
End GbtTx.

(** The fields of [GetBlockTemplateResult] the manager uses; [coinbaseaux] has distinct keys. *)
Module Gbt.
Record t : Type := mk {
  height : Z; previous_block_hash : string; transactions : list GbtTx.t; coinbase_value : Z;
  default_witness_commitment : bytes; coinbaseaux : list (string * string); version : Z; bits : bytes;
  min_time : Z; current_time : Z }.
End Gbt.

(** One RPC attempt: the parsed template with the sigops of its [coinbasetxn], or a failure. *)
Inductive gbt_attempt : Type := GbtOk (tpl : Gbt.t) (coinbase_sigops : option Z) | GbtFailed.

Module GbtExtras.
Record t : Type := mk {
  block_version : Z; nbits : Z; min_ntime : Z; curtime : Z; coinbase_tx_prefix : string;
  coinbase_tx_suffix : string; merkle_path : list string }.
End GbtExtras.

Definition wrapping_sum (w : Z) (l : list Z) : Z := foldl (wrapping_add w) 0 l.

(** [BitcoindTemplateSource]. *)
Module Source.
Record t : Type := mk {
  last_fp : option TemplateFingerprint.t; had_rpc_error : bool;
  coinbase_output_script : bytes; extranonce_size : nat }.

Definition new (coinbase_output_script : bytes) (extranonce_size : nat) : t :=
  mk None false coinbase_output_script extranonce_size.

Definition with_rpc_error (e : bool) (s : t) : t :=
  mk (last_fp s) e (coinbase_output_script s) (extranonce_size s).
Definition with_fp (fp : TemplateFingerprint.t) (s : t) : t :=
  mk (Some fp) (had_rpc_error s) (coinbase_output_script s) (extranonce_size s).

Inductive error : Type := CoinbaseError (e : HalvesError) | MerkleError (e : BranchError).

(** The retry loop: at most three attempts. *)
Fixpoint poll_node (tries : nat) (attempts : list gbt_attempt) : option (Gbt.t * option Z) :=
  match tries, attempts with
  | S _, GbtOk tpl sigops :: _ => Some (tpl, sigops)
  | S tries, GbtFailed :: attempts => poll_node tries attempts
  | _, _ => None
  end.

Section Next.
Context `{StdHasher, Sha256Crate, HexCrate, BitcoinLib}.

(** The values of [coinbaseaux] in the order of their keys; a value that is not hex is skipped. *)
Definition coinbase_aux_bytes (aux : list (string * string)) : bytes :=
  concat ((fun key : string =>
     match snd <$> head (filter (fun p : string * string => p.1 = key) aux) with
     | Some hex_val => match hex_decode hex_val with Ok b => b | Err _ => [] end
     | None => []
     end) <$> sort_strings (fst <$> aux)).

Definition fingerprint (tpl : Gbt.t) : TemplateFingerprint.t :=
  TemplateFingerprint.mk (Gbt.height tpl mod 2 ^ 32) (Gbt.previous_block_hash tpl)
    (lenZ (Gbt.transactions tpl) mod 2 ^ 32) (wrapping_sum 64 (GbtTx.fee <$> Gbt.transactions tpl))
    (hash_txids (GbtTx.txid <$> Gbt.transactions tpl)).

Definition template_coinbase_value (tpl : Gbt.t) : Z :=
  let total_fees := wrapping_sum 64 (GbtTx.fee <$> Gbt.transactions tpl) in
  if Gbt.coinbase_value tpl =? 0
  then wrapping_add 64 (block_subsidy_sats (Gbt.height tpl mod 2 ^ 32)) total_fees
  else Gbt.coinbase_value tpl.

(** What is built from a template that is new. *)
Definition build_template (s : t) (now_ms : Z) (tpl : Gbt.t) (coinbase_sigops : option Z) (id : Z)
    : option (result (TemplatePropose.t * GbtExtras.t) error) :=
  let block_height := Gbt.height tpl mod 2 ^ 32 in
  let txids := GbtTx.txid <$> Gbt.transactions tpl in
  let coinbase_value := template_coinbase_value tpl in
  let template_weight := wrapping_sum 64 (GbtTx.weight <$> Gbt.transactions tpl) in
  let total_sigops := wrapping_sum 32 (GbtTx.sigops <$> Gbt.transactions tpl) in
  let witness_commitment :=
    match Gbt.default_witness_commitment tpl with [] => None | wc => Some wc end in
  let coinbase_aux := coinbase_aux_bytes (Gbt.coinbaseaux tpl) in
  match build_coinbase_halves block_height coinbase_value (coinbase_output_script s)
          (extranonce_size s) coinbase_aux witness_commitment with
  | None => None
  | Some (Err e) => Some (Err (CoinbaseError e))
  | Some (Ok (cb_prefix, cb_suffix)) =>
      match compute_merkle_branch txids with
      | None => None
      | Some (Err e) => Some (Err (MerkleError e))
      | Some (Ok merkle_branch) =>
          let nbits := bits_to_nbits (Gbt.bits tpl) in
          let curtime := Gbt.current_time tpl mod 2 ^ 32 in
          let raw_block_hex :=
            assemble_raw_block_hex (Gbt.version tpl) nbits curtime (Gbt.previous_block_hash tpl) cb_prefix
              cb_suffix (extranonce_size s) (GbtTx.raw_tx <$> Gbt.transactions tpl) in
          let extras :=
            GbtExtras.mk (Gbt.version tpl) nbits (Gbt.min_time tpl mod 2 ^ 32) curtime
              (hex_encode cb_prefix) (hex_encode cb_suffix) merkle_branch in
          Some (Ok (TemplatePropose.mk PROTOCOL_VERSION id block_height (Gbt.previous_block_hash tpl)
                      coinbase_value (lenZ (Gbt.transactions tpl) mod 2 ^ 32)
                      (wrapping_sum 64 (GbtTx.fee <$> Gbt.transactions tpl)) (Some template_weight)
                      (Some now_ms) (Some total_sigops) coinbase_sigops (Some template_weight) None
                      raw_block_hex, extras))
      end
  end.

Definition next_template (attempts : list gbt_attempt) (now_ms : Z) (s : t)
    : option (result (option (TemplatePropose.t * GbtExtras.t)) error) * t :=
  match poll_node 3 attempts with
  | None => (Some (Ok None), with_rpc_error true s)
  | Some (tpl, coinbase_sigops) =>
      let s := with_rpc_error false s in
      let fp := fingerprint tpl in
      if decide (last_fp s = Some fp) then (Some (Ok None), s)
      else
        let s := with_fp fp s in
        (match build_template s now_ms tpl coinbase_sigops (stable_template_id fp) with
         | None => None
         | Some (Err e) => Some (Err e)
         | Some (Ok r) => Some (Ok (Some r))
         end, s)
  end.
End Next.
End Source.

(** ** The manager loop *)

Module LoggedTemplate.
Record t : Type := mk { id : Z; height : Z; total_fees : Z; backend : string; timestamp : Z }.
End LoggedTemplate.

(** What [/latest] serves. *)
Module LatestTemplate.
Record t : Type := mk {
  template_id : Z; block_height : Z; block_version : Z; prev_hash : string; nbits : Z; nbits_hex : Z;
  min_ntime : Z; curtime : Z; coinbase_value : Z; coinbase_tx_prefix : string;
  coinbase_tx_suffix : string; merkle_path : list string; tx_count : Z; total_fees : Z;
  source_instance_id : string; observed_weight : option Z; template_weight : option Z;
  total_sigops : option Z; coinbase_sigops : option Z; raw_block_hex : option string }.
End LatestTemplate.

Module MempoolStats.
Record t : Type := mk {
  loaded_from : string; tx_count : Z; bytes : Z; usage : Z; max : Z; min_relay_fee : Z; timestamp : Z }.
End MempoolStats.

Definition TEMPLATE_LOG_CAP : Z := 500.

Module Manager.
Record t : Type := mk {
  template_log : list LoggedTemplate.t;
  latest_template : option LatestTemplate.t;
  mempool_log : option MempoolStats.t;
  mempool_had_rpc_error : bool;
  templates_polled_total : Z;
  poll_errors_total : Z
}.

Definition new : t := mk [] None None false 0 0.

Definition push_log (e : LoggedTemplate.t) (log : list LoggedTemplate.t) : list LoggedTemplate.t :=
  let log := log ++ [e] in
  if lenZ log >? TEMPLATE_LOG_CAP then drop (Z.to_nat (lenZ log - TEMPLATE_LOG_CAP)) log else log.

(** The extras of a source that has none. *)
Definition no_extras (now_secs : Z) : GbtExtras.t :=
  GbtExtras.mk 0 0 0 (now_secs mod 2 ^ 32) "" "" [].

Definition latest_of (instance_id : string) (now_secs : Z) (propose : TemplatePropose.t)
    (extras : option GbtExtras.t) : LatestTemplate.t :=
  let gbt := unwrap_or extras (no_extras now_secs) in
  LatestTemplate.mk (TemplatePropose.id propose) (TemplatePropose.block_height propose)
    (GbtExtras.block_version gbt) (TemplatePropose.prev_hash propose) (GbtExtras.nbits gbt)
    (GbtExtras.nbits gbt) (GbtExtras.min_ntime gbt) (GbtExtras.curtime gbt)
    (TemplatePropose.coinbase_value propose) (GbtExtras.coinbase_tx_prefix gbt)
    (GbtExtras.coinbase_tx_suffix gbt) (GbtExtras.merkle_path gbt) (TemplatePropose.tx_count propose)
    (TemplatePropose.total_fees propose) instance_id (TemplatePropose.observed_weight propose)
    (TemplatePropose.template_weight propose) (TemplatePropose.total_sigops propose)
    (TemplatePropose.coinbase_sigops propose) (TemplatePropose.raw_block_hex propose).

(** What the source answered in an iteration. *)
Inductive polled : Type :=
| PolledTemplate (propose : TemplatePropose.t) (extras : option GbtExtras.t)
| PolledNothing
| PolledError.

(** The template half of an iteration. The exchange with the verifier only logs. *)
Definition handle_template (backend instance_id : string) (now_secs : Z) (p : polled) (m : t) : t :=
  match p with
  | PolledTemplate propose extras =>
      mk (push_log (LoggedTemplate.mk (TemplatePropose.id propose) (TemplatePropose.block_height propose)
            (TemplatePropose.total_fees propose) backend now_secs) (template_log m))
         (Some (latest_of instance_id now_secs propose extras)) (mempool_log m) (mempool_had_rpc_error m)
         (templates_polled_total m + 1) (poll_errors_total m)
  | PolledNothing => m
  | PolledError =>
      mk (template_log m) (latest_template m) (mempool_log m) (mempool_had_rpc_error m)
         (templates_polled_total m) (poll_errors_total m + 1)
  end.

(** [fetch_mempool_info_with_retries]: at most three attempts. *)
Fixpoint fetch_mempool_info {A} (tries : nat) (attempts : list (option A)) : option A :=
  match tries, attempts with
  | S _, Some info :: _ => Some info
  | S tries, None :: attempts => fetch_mempool_info tries attempts
  | _, _ => None
  end.

Definition handle_mempool (backend : string) (now_secs : Z)
    (attempts : list (option (Z * Z * Z * Z * Z))) (m : t) : t :=
  if negb (bool_decide (backend = "bitcoind"%string)) then m
  else
    match fetch_mempool_info 3 attempts with
    | None => mk (template_log m) (latest_template m) (mempool_log m) true
                (templates_polled_total m) (poll_errors_total m)
    | Some (size, bytes, usage, max, min_fee) =>
        mk (template_log m) (latest_template m)
           (Some (MempoolStats.mk "bitcoind" size bytes usage max min_fee now_secs)) false
           (templates_polled_total m) (poll_errors_total m)
    end.

Definition iterate (backend instance_id : string) (now_secs : Z) (p : polled)
    (attempts : list (option (Z * Z * Z * Z * Z))) (m : t) : t :=
  handle_mempool backend now_secs attempts (handle_template backend instance_id now_secs p m).

(** [/latest] and [/mempool]. *)
Definition get_latest_template (m : t) : Z * option LatestTemplate.t :=
  match latest_template m with Some tpl => (200, Some tpl) | None => (404, None) end.

Definition get_mempool (now_secs : Z) (m : t) : MempoolStats.t :=
  unwrap_or (mempool_log m) (MempoolStats.mk "unknown" 0 0 0 0 0 now_secs).
End Manager.

(** ** The Stratum source *)

(** One read of the bridge connection: a line with its parse, the end, or an error. *)
Inductive bridge_read : Type :=
| BridgeLine (blank : bool) (parsed : option TemplatePropose.t) | BridgeEof | BridgeError.

(** The templates one connection delivers. *)
Fixpoint bridge_connection (reads : list bridge_read) : list TemplatePropose.t :=
  match reads with
  | BridgeLine true _ :: reads => bridge_connection reads
  | BridgeLine false (Some tpl) :: reads => tpl :: bridge_connection reads
  | BridgeLine false None :: reads => bridge_connection reads
  | _ => []
  end.

(** ** Share ingest *)

Definition MAX_SHARE_HEX_FIELD : Z := 256.
Definition MAX_SHARE_STRING_FIELD : Z := 256.

Module Ingest.
Record state : Type := mk { share_log : list ShareSubmission.t; shares_ingested_total : Z }.

Record response : Type := mkResponse { accepted : bool; reason : option string }.

Definition rejected (reason : string) : response := mkResponse false (Some reason).

Definition too_long (max : Z) (s : string) : bool := Z.of_nat (String.length s) >? max.

Definition field_size_exceeded (s : ShareSubmission.t) : bool :=
  too_long MAX_SHARE_HEX_FIELD (ShareSubmission.share_id_hex s)
  || too_long MAX_SHARE_HEX_FIELD (ShareSubmission.prev_hash_wire_hex s)
  || too_long MAX_SHARE_HEX_FIELD (ShareSubmission.prev_hash_display_hex s)
  || too_long MAX_SHARE_HEX_FIELD (ShareSubmission.merkle_root_wire_hex s)
  || too_long MAX_SHARE_HEX_FIELD (ShareSubmission.merkle_root_display_hex s)
  || too_long MAX_SHARE_HEX_FIELD (ShareSubmission.event_id_hex s)
  || too_long MAX_SHARE_HEX_FIELD (ShareSubmission.gateway_signature_hex s)
  || too_long MAX_SHARE_STRING_FIELD (ShareSubmission.worker_id s)
  || too_long MAX_SHARE_STRING_FIELD (ShareSubmission.gateway_instance_id s)
  || too_long MAX_SHARE_STRING_FIELD (ShareSubmission.source_instance_id s)
  || too_long MAX_SHARE_STRING_FIELD (ShareSubmission.validation_level s).

Section Ops.
Context `{Sha256Crate, HexCrate, HmacCrate, SubmissionJson}.

Definition canonical_body_hash (submission : ShareSubmission.t) : bytes :=
  match submission_to_vec (ShareSubmission.with_signature submission "") with
  | Some b => sha256 b
  | None => replicate 32 x00
  end.

(** [verify_slice] compares the whole tag. *)
Definition verify_gateway_signature (secret event_id body_hash signature : bytes) : bool :=
  match hmac_sha256 secret (event_id ++ body_hash) with
  | Some mac => bool_decide (mac = signature)
  | None => false
  end.

(** The signature check, when a secret is configured. *)
Definition check_signature (secret : bytes) (s : ShareSubmission.t) : option response :=
  match secret with
  | [] => None
  | _ =>
      if bool_decide (ShareSubmission.gateway_signature_hex s = ""%string)
      then Some (rejected (GatewayReason.as_str GatewayReason.MissingGatewaySignature))
      else
        match hex_decode (ShareSubmission.gateway_signature_hex s) with
        | Err _ => Some (rejected (GatewayReason.as_str GatewayReason.MalformedGatewaySignature))
        | Ok sig_bytes =>
            match hex_decode (ShareSubmission.event_id_hex s) with
            | Ok event_id =>
                if (length event_id =? 32)%nat then
                  if verify_gateway_signature secret event_id (canonical_body_hash s) sig_bytes
                  then None
                  else Some (rejected (GatewayReason.as_str GatewayReason.InvalidGatewaySignature))
                else Some (rejected (GatewayReason.as_str GatewayReason.MalformedEventId))
            | Err _ => Some (rejected (GatewayReason.as_str GatewayReason.MalformedEventId))
            end
        end
  end.

(** The in-memory log: at 10,000 entries it is cut to the last 8,000 before the push. *)
Definition push_share (s : ShareSubmission.t) (log : list ShareSubmission.t)
    : list ShareSubmission.t :=
  (if lenZ log >=? 10000 then drop (Z.to_nat (saturating_sub (lenZ log) 8000)) log else log) ++ [s].

(** The share log file is best effort: it affects neither the state nor the response. *)
Definition ingest_share (secret : bytes) (submission : ShareSubmission.t) (st : state)
    : response * state :=
  let st := mk (share_log st) (shares_ingested_total st + 1) in
  if field_size_exceeded submission then (rejected "field_size_exceeded", st)
  else
    match check_signature secret submission with
    | Some r => (r, st)
    | None => (mkResponse true None, mk (push_share submission (share_log st)) (shares_ingested_total st))
    end.
End Ops.
End Ingest.

(** ** Guards of the HTTP interface *)

Module Guards.
(** [enforce_api_secret], [enforce_hmac_secret]: [true] lets the process start. *)
Definition secret_set (v : option string) : bool :=
  match v with Some s => negb (bool_decide (s = ""%string)) | None => false end.

Definition opt_out (v : option string) : bool := bool_decide (v = Some "1"%string).

Definition enforce_api_secret (api_secret optional : option string) : bool :=
  secret_set api_secret || opt_out optional.
Definition enforce_hmac_secret (hmac_secret optional : option string) : bool :=
  secret_set hmac_secret || opt_out optional.

(** [strip_prefix("Bearer ").unwrap_or(v)]. *)
Definition strip_bearer (v : string) : string :=
  if String.prefix "Bearer " v
  then String.substring 7 (String.length v - 7) v else v.

(** [api_key_middleware]: whether the request goes through. [header] is the [Authorization] value
    when it is text. *)
Definition api_key_middleware (api_secret header : option string) : bool :=
  match api_secret with
  | Some k =>
      if bool_decide (k = ""%string) then true
      else match header with Some v => bool_decide (strip_bearer v = k) | None => false end
  | None => true
  end.

Definition WRITE_THROTTLE_WINDOW : Z := 60 * 1000000000.
Definition WRITE_THROTTLE_MAX : Z := 10.

(** [while front is older than the window { pop_front }]. *)
Fixpoint drop_old (now : Z) (ts : list Z) : list Z :=
  match ts with
  | t :: rest => if saturating_sub now t >? WRITE_THROTTLE_WINDOW then drop_old now rest else ts
  | [] => []
  end.

Definition check_write_throttle (now : Z) (ts : list Z) : bool * list Z :=
  let ts := drop_old now ts in
  if lenZ ts >=? WRITE_THROTTLE_MAX then (false, ts) else (true, ts ++ [now]).

(** [Path::is_absolute] on a Unix path, then no [..] anywhere in the text. *)
Definition validate_share_log_path (path : string) : bool :=
  String.prefix "/" path
  && match String.index 0 ".." path with Some _ => false | None => true end.
End Guards.

(** ** Theorems: polling *)

Section SourceFacts.
Context `{StdHasher, Sha256Crate, HexCrate, BitcoinLib}.

Lemma poll_node_some tries attempts r : Source.poll_node tries attempts = Some r ->
  exists failed rest, attempts = replicate failed GbtFailed ++ GbtOk r.1 r.2 :: rest /\ (failed < tries)%nat.
Proof.
  revert attempts. induction tries as [|tries IH]; intros [|[tpl sg|] attempts] Hp; try done.
  - apply (inj Some) in Hp as <-. exists 0%nat, attempts. split; [done|lia].
  - apply IH in Hp as (failed & rest & -> & Hf). exists (S failed), rest. split; [done|lia].
Qed.

Lemma poll_node_replicate failed tries tpl sg rest : (failed < tries)%nat ->
  Source.poll_node tries (replicate failed GbtFailed ++ GbtOk tpl sg :: rest) = Some (tpl, sg).
Proof.
  revert tries. induction failed as [|failed IH]; intros [|tries] Hl; try lia; [done|].
  cbn. apply IH. lia.
Qed.

(** What a delivered template says of the node's answer. *)
Theorem next_template_delivers attempts now s p x s' :
  Source.next_template attempts now s = (Some (Ok (Some (p, x))), s') ->
  exists failed tpl sg rest prefix suffix,
    attempts = replicate failed GbtFailed ++ GbtOk tpl sg :: rest /\ (failed < 3)%nat /\
    Source.last_fp s <> Some (Source.fingerprint tpl) /\
    TemplatePropose.id p = stable_template_id (Source.fingerprint tpl) /\
    TemplatePropose.prev_hash p = Gbt.previous_block_hash tpl /\
    TemplatePropose.coinbase_sigops p = sg /\
    build_coinbase_halves (TemplatePropose.block_height p) (TemplatePropose.coinbase_value p)
      (Source.coinbase_output_script s) (Source.extranonce_size s)
      (Source.coinbase_aux_bytes (Gbt.coinbaseaux tpl))
      (match Gbt.default_witness_commitment tpl with [] => None | wc => Some wc end)
      = Some (Ok (prefix, suffix)) /\
    GbtExtras.coinbase_tx_prefix x = hex_encode prefix /\
    GbtExtras.coinbase_tx_suffix x = hex_encode suffix /\
    compute_merkle_branch (GbtTx.txid <$> Gbt.transactions tpl) = Some (Ok (GbtExtras.merkle_path x)) /\
    TemplatePropose.raw_block_hex p =
      assemble_raw_block_hex (GbtExtras.block_version x) (GbtExtras.nbits x) (GbtExtras.curtime x)
        (TemplatePropose.prev_hash p) prefix suffix (Source.extranonce_size s)
        (GbtTx.raw_tx <$> Gbt.transactions tpl).
Proof.
  unfold Source.next_template. destruct (Source.poll_node 3 attempts) as [[tpl sg]|] eqn:Hp; [|by intros].
  apply poll_node_some in Hp as (failed & rest & -> & Hf). cbn [fst snd]. case_decide as Hd; [by intros|].
  unfold Source.build_template. cbn [Source.with_fp Source.with_rpc_error Source.coinbase_output_script
    Source.extranonce_size Source.last_fp] in *.
  destruct (build_coinbase_halves _ _ _ _ _ _) as [[[prefix suffix]|e]|] eqn:Hh; try by intros.
  destruct (compute_merkle_branch _) as [[br|e]|] eqn:Hm; try by intros.
  intros [= <- <- _]. exists failed, tpl, sg, rest, prefix, suffix. by split_and!.
Qed.

End SourceFacts.

(** ** Theorems: the loop *)

Lemma push_log_suffix e log : exists old, old ++ Manager.push_log e log = log ++ [e] /\
  (lenZ log <= TEMPLATE_LOG_CAP -> (length old <= 1)%nat).
Proof.
  unfold Manager.push_log. case_if; z_bool.
  - exists (take (Z.to_nat (lenZ (log ++ [e]) - TEMPLATE_LOG_CAP)) (log ++ [e])).
    rewrite take_drop. split; [done|]. intros Hl. rewrite length_take, lenZ_app in *.
    unfold lenZ in *; cbn [length] in *. lia.
  - exists []. split; [done|]. cbn. lia.
Qed.

Lemma push_log_length e log :
  lenZ (Manager.push_log e log) = Z.min (lenZ log + 1) TEMPLATE_LOG_CAP.
Proof.
  unfold Manager.push_log. assert (lenZ (log ++ [e]) = lenZ log + 1) as Hl by (by rewrite lenZ_app).
  rewrite Hl. pose proof (lenZ_nonneg log). unfold TEMPLATE_LOG_CAP in *. case_if; z_bool; [|lia].
  unfold lenZ in *. rewrite length_drop. lia.
Qed.

(** One iteration: its time, what the source answered and what the mempool call returned. *)
Definition iteration : Type := (Z * Manager.polled * list (option (Z * Z * Z * Z * Z)))%type.

Definition run_manager_loop (backend instance_id : string) (its : list iteration) : Manager.t :=
  foldl (fun m i => Manager.iterate backend instance_id i.1.1 i.1.2 i.2 m) Manager.new its.

(** The templates of a run, oldest first, with the time of their iteration. *)
Definition run_templates (its : list iteration)
    : list (Z * TemplatePropose.t * option GbtExtras.t) :=
  omap (fun i : iteration =>
    match i.1.2 with Manager.PolledTemplate p x => Some (i.1.1, p, x) | _ => None end) its.

Definition logged (backend : string) (e : Z * TemplatePropose.t * option GbtExtras.t)
    : LoggedTemplate.t :=
  LoggedTemplate.mk (TemplatePropose.id e.1.2) (TemplatePropose.block_height e.1.2)
    (TemplatePropose.total_fees e.1.2) backend e.1.1.

Lemma handle_mempool_keeps backend now attempts m :
  let m' := Manager.handle_mempool backend now attempts m in
  Manager.template_log m' = Manager.template_log m /\
  Manager.latest_template m' = Manager.latest_template m /\
  Manager.templates_polled_total m' = Manager.templates_polled_total m /\
  Manager.poll_errors_total m' = Manager.poll_errors_total m.
Proof. cbv zeta. unfold Manager.handle_mempool. case_if; [done|]. by destruct (Manager.fetch_mempool_info 3 attempts) as [[[[[]]]]|]. Qed.

(** After any run of the manager loop the served template is the last one the source
    delivered (none before the first), the log holds the most recent templates in order, at most
    500 of them and all of them while there are no more, and the counter counts them all. *)
Theorem manager_run_serves_last backend instance_id its :
  let m := run_manager_loop backend instance_id its in
  let ts := run_templates its in
  Manager.latest_template m = (fun e => Manager.latest_of instance_id e.1.1 e.1.2 e.2) <$> last ts /\
  (exists old, logged backend <$> ts = old ++ Manager.template_log m) /\
  lenZ (Manager.template_log m) = Z.min (lenZ ts) TEMPLATE_LOG_CAP /\
  Manager.templates_polled_total m = lenZ ts.
Proof.
  cbv zeta. unfold run_manager_loop, run_templates.
  induction its as [|[[now p] mem] its IH] using rev_ind; [by split_and!; try done; exists []|].
  rewrite foldl_app, omap_app. cbn [foldl omap list_omap fst snd].
  destruct IH as (Hl & (old & Ho) & Hn & Hc). revert Hl Ho Hn Hc.
  generalize (foldl (fun m i => Manager.iterate backend instance_id i.1.1 i.1.2 i.2 m) Manager.new its) as m.
  match goal with |- context [omap ?f its] => generalize (omap f its) as ts end. intros ts m Hl Ho Hn Hc.
  unfold Manager.iterate.
  destruct (handle_mempool_keeps backend now mem (Manager.handle_template backend instance_id now p m))
    as (-> & -> & -> & _).
  destruct p as [p x| |]; cbn [Manager.handle_template Manager.template_log Manager.latest_template
    Manager.templates_polled_total]; [|rewrite app_nil_r; by split_and!; eauto..].
  rewrite last_snoc, fmap_app, Ho. split_and!; [done| |rewrite push_log_length, Hn, lenZ_app|by rewrite Hc, lenZ_app].
  - destruct (push_log_suffix (logged backend (now, p, x)) (Manager.template_log m)) as (old' & Ho' & _).
    exists (old ++ old'). cbn [fmap list_fmap]. rewrite <-!app_assoc. f_equal. symmetry. exact Ho'.
  - unfold lenZ, TEMPLATE_LOG_CAP. cbn [length]. lia.
Qed.

(** ** Theorems: the source and the loop together *)

(** One turn of the loop on a node: what the calls to the node gave, the two clocks of the turn and
    what the mempool calls gave. *)
Record turn : Type := Turn {
  asked : list gbt_attempt; at_ms : Z; at_secs : Z; mempool_asked : list (option (Z * Z * Z * Z * Z)) }.

Section LoopFacts.
Context `{StdHasher, Sha256Crate, HexCrate, BitcoinLib}.
Context (backend instance_id : string) (script : bytes) (size : nat).

(** What the loop makes of the source's answer; [None] where the source panicked. *)
Definition polled_of (a : option (result (option (TemplatePropose.t * GbtExtras.t)) Source.error))
    : option Manager.polled :=
  match a with
  | None => None
  | Some (Err _) => Some Manager.PolledError
  | Some (Ok None) => Some Manager.PolledNothing
  | Some (Ok (Some (p, x))) => Some (Manager.PolledTemplate p (Some x))
  end.

(** One turn of [run_manager_loop] on a [BitcoindTemplateSource]; a panic ends the task. *)
Definition manager_turn (st : option (Source.t * Manager.t)) (tn : turn) : option (Source.t * Manager.t) :=
  '(s, m) ← st;
  let '(a, s') := Source.next_template (asked tn) (at_ms tn) s in
  p ← polled_of a;
  Some (s', Manager.iterate backend instance_id (at_secs tn) p (mempool_asked tn) m).

Definition manager_run (turns : list turn) : option (Source.t * Manager.t) :=
  foldl manager_turn (Some (Source.new script size, Manager.new)) turns.

(** The template the node gave in a turn, if any. *)
Definition fetched (tn : turn) : option (turn * (Gbt.t * option Z)) := (tn,.) <$> Source.poll_node 3 (asked tn).

(** The templates that differ in fingerprint from the one given just before. *)
Fixpoint changes (prev : option TemplateFingerprint.t) (got : list (turn * (Gbt.t * option Z)))
    : list (turn * (Gbt.t * option Z)) :=
  match got with
  | [] => []
  | x :: got =>
      let fp := Source.fingerprint x.2.1 in
      if decide (prev = Some fp) then changes prev got else x :: changes (Some fp) got
  end.

Definition construct (x : turn * (Gbt.t * option Z)) : option (result (TemplatePropose.t * GbtExtras.t) Source.error) :=
  Source.build_template (Source.new script size) (at_ms x.1) x.2.1 x.2.2 (stable_template_id (Source.fingerprint x.2.1)).

Definition constructed (x : turn * (Gbt.t * option Z)) : option LatestTemplate.t :=
  match construct x with
  | Some (Ok (p, e)) => Some (Manager.latest_of instance_id (at_secs x.1) p (Some e))
  | _ => None
  end.

(** What a client of the manager can see of its templates. *)
Definition visible (st : option (Source.t * Manager.t)) : option (Z * option LatestTemplate.t * list LoggedTemplate.t * Z * Z) :=
  (fun st => (Manager.get_latest_template st.2, Manager.template_log st.2, Manager.templates_polled_total st.2,
              Manager.poll_errors_total st.2)) <$> st.

Lemma changes_snoc prev got x :
  changes prev (got ++ [x]) = changes prev got ++
    (if decide (match last got with Some y => Some (Source.fingerprint y.2.1) | None => prev end
                = Some (Source.fingerprint x.2.1)) then [] else [x]).
Proof.
  revert prev. induction got as [|y got IH]; intros prev; [cbn; by case_decide|].
  cbn [app changes]. rewrite !IH. rewrite last_cons.
  case_decide as Hd; destruct (last got); cbn; try done. by rewrite Hd.
Qed.

(** The source remembers the last template the node gave, and keeps its settings. *)
Record remembers (got : list (turn * (Gbt.t * option Z))) (s : Source.t) : Prop := {
  rm_fp : Source.last_fp s = (fun x => Source.fingerprint x.2.1) <$> last got;
  rm_script : Source.coinbase_output_script s = script;
  rm_size : Source.extranonce_size s = size }.

(** The manager has counted, and serves, what could be built of the given templates. *)
Record serves (new : list (turn * (Gbt.t * option Z))) (m : Manager.t) : Prop := {
  sv_latest : Manager.latest_template m = last (omap constructed new);
  sv_polled : Manager.templates_polled_total m = lenZ (omap constructed new);
  sv_errors : Manager.poll_errors_total m = lenZ new - lenZ (omap constructed new) }.

Lemma construct_any s now tpl sg id :
  Source.coinbase_output_script s = script -> Source.extranonce_size s = size ->
  Source.build_template s now tpl sg id = Source.build_template (Source.new script size) now tpl sg id.
Proof. intros <- <-. by destruct s. Qed.

Lemma serves_iterate new m now p mem :
  serves new (Manager.handle_template backend instance_id now p m) ->
  serves new (Manager.iterate backend instance_id now p mem m).
Proof.
  intros []. unfold Manager.iterate.
  destruct (handle_mempool_keeps backend now mem (Manager.handle_template backend instance_id now p m)) as (? & ? & ? & ?).
  split; congruence.
Qed.

(** A turn that brings nothing new leaves the templates as they are. *)
Lemma manager_turn_quiet got s m tn : remembers got s ->
  (forall x, fetched tn = Some x -> exists y, last got = Some y /\ Source.fingerprint x.2.1 = Source.fingerprint y.2.1) ->
  exists s', manager_turn (Some (s, m)) tn =
      Some (s', Manager.iterate backend instance_id (at_secs tn) Manager.PolledNothing (mempool_asked tn) m) /\
    remembers (got ++ match fetched tn with Some x => [x] | None => [] end) s'.
Proof.
  intros [Hf Hs Hz] Hq. unfold manager_turn, fetched, Source.next_template in *. cbn [mbind option_bind].
  destruct (Source.poll_node 3 (asked tn)) as [[tpl sg]|]; cbn [fmap option_fmap option_map].
  - destruct (Hq _ eq_refl) as (y & Hy & Hfp). cbn [fst snd] in Hfp. rewrite Hy in Hf. cbn in Hf.
    cbn [Source.with_rpc_error Source.last_fp]. rewrite decide_True by (by rewrite Hf, Hfp).
    eexists. split; [done|]. split; [|done..].
    rewrite last_snoc. cbn. congruence.
  - eexists. split; [done|]. cbn. rewrite app_nil_r. by split.
Qed.

(** A template more, served or counted as an error. *)
Lemma serves_snoc new m now p x : serves new m ->
  match p with
  | Manager.PolledTemplate q e => constructed x = Some (Manager.latest_of instance_id now q e)
  | Manager.PolledNothing => False
  | Manager.PolledError => constructed x = None
  end ->
  serves (new ++ [x]) (Manager.handle_template backend instance_id now p m).
Proof.
  intros [Hl Hp He] Hx. destruct p as [q e| |]; [|done|]; split; cbn [Manager.handle_template Manager.latest_template
    Manager.templates_polled_total Manager.poll_errors_total]; rewrite omap_app; cbn [omap list_omap]; rewrite Hx;
    rewrite ?last_snoc, ?app_nil_r, ?lenZ_app; try done; unfold lenZ in *; cbn [length]; lia.
Qed.

(** A turn that brings another template builds it, and counts an error or serves it. *)
Lemma manager_turn_change got new s m tn x : remembers got s -> serves new m -> fetched tn = Some x ->
  Source.last_fp s <> Some (Source.fingerprint x.2.1) ->
  match manager_turn (Some (s, m)) tn with
  | Some (s', m') => remembers (got ++ [x]) s' /\ serves (new ++ [x]) m' /\ construct x <> None
  | None => construct x = None
  end.
Proof.
  intros [Hf Hs Hz] Hv Hx Hd. unfold fetched in Hx. unfold manager_turn, Source.next_template. cbn [mbind option_bind].
  destruct (Source.poll_node 3 (asked tn)) as [[tpl sg]|]; [|done]. apply (inj Some) in Hx as <-.
  cbn [fst snd] in *. cbn [Source.with_rpc_error Source.last_fp]. rewrite decide_False by done.
  rewrite construct_any by done.
  change (Source.build_template _ _ _ _ _) with (construct (tn, (tpl, sg))).
  assert (remembers (got ++ [(tn, (tpl, sg))]) (Source.with_fp (Source.fingerprint tpl) (Source.with_rpc_error false s)))
    by (split; cbn; [by rewrite last_snoc|done..]).
  destruct (construct (tn, (tpl, sg))) as [[[p e]|e]|] eqn:Hc; cbn [polled_of mbind option_bind]; [..|done];
    (split_and!; [done| |done]); apply serves_iterate, serves_snoc; try done; unfold constructed; by rewrite Hc.
Qed.
Lemma omap_snoc_fetched turns tn : omap fetched (turns ++ [tn]) = omap fetched turns ++ match fetched tn with Some x => [x] | None => [] end.
Proof. rewrite omap_app. cbn. by destruct (fetched tn). Qed.

(** The state of a run. *)
Lemma manager_run_inv turns :
  let new := changes None (omap fetched turns) in
  match manager_run turns with
  | Some (s, m) => remembers (omap fetched turns) s /\ serves new m /\ Forall (fun x => construct x <> None) new
  | None => Exists (fun x => construct x = None) new
  end.
Proof.
  cbv zeta. induction turns as [|tn turns IH] using rev_ind; [by repeat split|].
  unfold manager_run in *. rewrite foldl_snoc, omap_snoc_fetched.
  destruct (foldl manager_turn _ turns) as [[s m]|].
  - destruct IH as (Hr & Hv & Hb).
    destruct (fetched tn) as [x|] eqn:Hx.
    + rewrite changes_snoc. pose proof (rm_fp _ _ Hr) as Hf. revert Hf. case_decide as Hd; intros Hf.
      * rewrite app_nil_r. destruct (manager_turn_quiet (omap fetched turns) s m tn Hr) as (s' & -> & Hr').
        { intros x' Hx'. rewrite Hx in Hx'. apply (inj Some) in Hx' as <-.
          destruct (last (omap fetched turns)) as [y|]; [|done]. exists y. split; congruence. }
        rewrite Hx in Hr'. split_and!; [done| |done]. by apply serves_iterate.
      * pose proof (manager_turn_change (omap fetched turns) _ s m tn x Hr Hv Hx) as Hc.
        destruct (manager_turn (Some (s, m)) tn) as [[s' m']|];
          destruct Hc as (? & ? & ?) || (apply Exists_app; right; constructor; apply Hc);
          try (rewrite Hf; by destruct (last (omap fetched turns))).
        split_and!; [done..|]. apply Forall_app. split; [done|by constructor].
    + rewrite app_nil_r.
      destruct (manager_turn_quiet (omap fetched turns) s m tn Hr) as (s' & -> & Hr'); [by rewrite Hx|].
      rewrite Hx in Hr'. rewrite app_nil_r in Hr'. split_and!; [done| |done]. by apply serves_iterate.
  - change (manager_turn None tn) with (@None (Source.t * Manager.t)). cbv iota. destruct (fetched tn) as [x|]; [|by rewrite app_nil_r].
    rewrite changes_snoc. apply Exists_app. by left.
Qed.

Lemma visible_quiet got s m tn : remembers got s ->
  (forall x, fetched tn = Some x -> exists y, last got = Some y /\ Source.fingerprint x.2.1 = Source.fingerprint y.2.1) ->
  visible (manager_turn (Some (s, m)) tn) = visible (Some (s, m)).
Proof.
  intros Hr Hq. destruct (manager_turn_quiet got s m tn Hr Hq) as (s' & -> & _).
  unfold visible, Manager.iterate, Manager.get_latest_template. cbn [fmap option_fmap option_map snd Manager.handle_template].
  by destruct (handle_mempool_keeps backend (at_secs tn) (mempool_asked tn) m) as (-> & -> & -> & ->).
Qed.

(** Turns that bring no other template leave the last one as it is. *)
Lemma last_quiet got y later :
  last got = Some y ->
  Forall (fun tn => forall x, fetched tn = Some x -> Source.fingerprint x.2.1 = Source.fingerprint y.2.1) later ->
  exists y', last (got ++ omap fetched later) = Some y' /\ Source.fingerprint y'.2.1 = Source.fingerprint y.2.1.
Proof.
  intros Hy Hl. rewrite last_app. destruct (last (omap fetched later)) as [y'|] eqn:E; [|by exists y].
  exists y'. split; [done|]. apply last_Some_elem_of, list_elem_of_omap in E as (tn & Hin & Hx).
  rewrite Forall_forall in Hl. by apply (Hl tn Hin).
Qed.

(** C39 (template manager on a node): whatever the calls to the node give over a run of the loop, a
    template is built exactly when its fingerprint differs from that of the template given just before,
    failed calls in between not counting. The template served is the last of these that could be built; those
    that could be built and those that could not are counted, and the loop ends only where building one
    panics. While the node gives the same template again, or nothing, nothing changes for a client, also
    when that template could not be built: it is tried again only after another came in between. *)
Theorem manager_serves_changes turns later :
  let got := omap fetched turns in
  let new := changes None got in
  match manager_run turns with
  | Some (_, m) =>
      Forall (fun x => construct x <> None) new /\
      Manager.latest_template m = last (omap constructed new) /\
      Manager.templates_polled_total m = lenZ (omap constructed new) /\
      Manager.poll_errors_total m = lenZ new - lenZ (omap constructed new)
  | None => Exists (fun x => construct x = None) new
  end /\
  (Forall (fun tn => forall x, fetched tn = Some x -> exists y, last got = Some y /\
             Source.fingerprint x.2.1 = Source.fingerprint y.2.1) later ->
   visible (manager_run (turns ++ later)) = visible (manager_run turns)).
Proof.
  cbv zeta. split.
  { pose proof (manager_run_inv turns) as Hi. cbv zeta in Hi. destruct (manager_run turns) as [[s m]|]; [|done].
    by destruct Hi as (_ & [] & ?). }
  induction later as [|tn later IH] using rev_ind; intros Hl; [by rewrite app_nil_r|].
  apply Forall_app in Hl as [Hl Ht]. apply Forall_inv in Ht. rewrite <-(IH Hl). clear IH.
  rewrite app_assoc. pose proof (manager_run_inv (turns ++ later)) as Hi. cbv zeta in Hi.
  unfold manager_run at 1. rewrite foldl_snoc. fold (manager_run (turns ++ later)).
  destruct (manager_run (turns ++ later)) as [[s m]|]; [|done]. destruct Hi as (Hr & _).
  apply (visible_quiet _ s m tn Hr). intros x Hx. destruct (Ht x Hx) as (y & Hy & Hfp).
  destruct (last_quiet (omap fetched turns) y later Hy) as (y' & Hy' & He).
  { eapply Forall_impl; [exact Hl|]. intros tn' Hq x' Hx'. destruct (Hq x' Hx') as (? & ? & ?). congruence. }
  exists y'. rewrite omap_app. split; congruence.
Qed.
End LoopFacts.

(** ** Theorems: share ingest *)

Section IngestFacts.
Context `{Sha256Crate, HexCrate, !HexLaws, HmacCrate, !HmacLaws, SubmissionJson}.

Lemma push_share_last s log : exists kept, Ingest.push_share s log = kept ++ [s] /\ kept `suffix_of` log.
Proof.
  unfold Ingest.push_share. eexists. split; [done|]. case_if; [|done].
  eexists. symmetry. apply take_drop.
Qed.

Lemma push_share_length s log : lenZ log <= 10000 -> lenZ (Ingest.push_share s log) <= 10000.
Proof.
  intros Hl. unfold Ingest.push_share. rewrite lenZ_app. change (lenZ [s]) with 1.
  case_if; z_bool; [|lia]. unfold saturating_sub, lenZ in *. rewrite length_drop. lia.
Qed.

(** The in-memory share log never exceeds 10,000 entries, whatever is posted. *)
Theorem share_log_bounded secret posts st :
  lenZ (Ingest.share_log st) <= 10000 ->
  lenZ (Ingest.share_log (foldl (fun st s => (Ingest.ingest_share secret s st).2) st posts)) <= 10000.
Proof.
  revert st. induction posts as [|s posts IH]; intros st Hl; [done|]. apply IH.
  unfold Ingest.ingest_share. case_if; [done|].
  destruct (Ingest.check_signature secret s); [done|]. by apply push_share_length.
Qed.

(** With a secret configured, an accepted share carries a tag of that secret over its event id and
    the hash of its own body, and only an accepted share enters the log. *)
Theorem ingest_share_authentic secret s st r st' :
  secret <> [] -> Ingest.ingest_share secret s st = (r, st') ->
  if Ingest.accepted r then
    exists event_id mac,
      hex_decode (ShareSubmission.event_id_hex s) = Ok event_id /\ length event_id = 32%nat /\
      hex_decode (ShareSubmission.gateway_signature_hex s) = Ok mac /\
      hmac_sha256 secret (event_id ++ Ingest.canonical_body_hash s) = Some mac /\
      Ingest.field_size_exceeded s = false /\ Ingest.reason r = None /\
      Ingest.share_log st' = Ingest.push_share s (Ingest.share_log st)
  else is_Some (Ingest.reason r) /\ Ingest.share_log st' = Ingest.share_log st.
Proof.
  intros Hs. unfold Ingest.ingest_share, Ingest.check_signature, Ingest.verify_gateway_signature.
  destruct secret as [|k secret]; [done|].
  destruct (Ingest.field_size_exceeded s) eqn:Hf; [by intros [= <- <-]|].
  case_if; [by intros [= <- <-]|].
  destruct (hex_decode (ShareSubmission.gateway_signature_hex s)) as [sig|e] eqn:Hg; [|by intros [= <- <-]].
  destruct (hex_decode (ShareSubmission.event_id_hex s)) as [ev|e] eqn:He; [|by intros [= <- <-]].
  destruct (length ev =? 32)%nat eqn:Hlen; [|by intros [= <- <-]].
  destruct (hmac_sha256 _ _) as [mac|] eqn:Hm; [|by intros [= <- <-]].
  destruct (bool_decide_reflect (mac = sig)) as [->|]; [|by intros [= <- <-]].
  intros [= <- <-]. apply Nat.eqb_eq in Hlen.
  exists ev, sig. by split_and!.
Qed.

Lemma with_signature_same s sig sig' :
  ShareSubmission.with_signature (ShareSubmission.with_signature s sig) sig' = ShareSubmission.with_signature s sig'.
Proof. done. Qed.

(** A share the gateway signs with the shared secret is accepted by the manager and becomes
    the last entry of its log: the two sides hash the same bytes and agree on the tag. *)
Theorem signed_share_ingested secret s event_id json mac st :
  ShareSubmission.event_id_hex s = hex_encode event_id -> length event_id = 32%nat ->
  submission_to_vec (ShareSubmission.with_signature s "") = Some json ->
  hmac_sha256 secret (event_id ++ sha256 json) = Some mac ->
  Ingest.field_size_exceeded (sign_submission secret s) = false ->
  let '(r, st') := Ingest.ingest_share secret (sign_submission secret s) st in
  r = Ingest.mkResponse true None /\
  (exists kept, Ingest.share_log st' = kept ++ [sign_submission secret s] /\
     kept `suffix_of` Ingest.share_log st) /\
  Ingest.shares_ingested_total st' = Ingest.shares_ingested_total st + 1.
Proof.
  intros He Hl Hj Hm Hf. unfold Ingest.ingest_share. rewrite Hf.
  assert (Ingest.check_signature secret (sign_submission secret s) = None) as ->;
    [|split_and!; [done|apply push_share_last|done]].
  clear Hf. unfold Ingest.check_signature, sign_submission, compute_gateway_signature.
  destruct secret as [|k secret]; [done|]. rewrite Hj.
  change (ShareSubmission.event_id_hex (ShareSubmission.with_signature s "")) with (ShareSubmission.event_id_hex s).
  rewrite He, hex_decode_encode, Hl. cbn [Nat.eqb]. rewrite Hm, with_signature_same.
  change (ShareSubmission.gateway_signature_hex (ShareSubmission.with_signature s (hex_encode mac)))
    with (hex_encode mac).
  rewrite bool_decide_false.
  2:{ intros Hem. pose proof (hex_encode_length mac) as Hlen. rewrite Hem, (hmac_length _ _ _ Hm) in Hlen. done. }
  rewrite hex_decode_encode.
  change (ShareSubmission.event_id_hex (ShareSubmission.with_signature s (hex_encode mac)))
    with (ShareSubmission.event_id_hex s).
  rewrite He, hex_decode_encode, Hl. cbn [Nat.eqb].
  unfold Ingest.verify_gateway_signature, Ingest.canonical_body_hash.
  rewrite with_signature_same, Hj, Hm. by rewrite bool_decide_true.
Qed.
End IngestFacts.

(** ** Theorems: the write throttle *)

(** The times at which a sequence of attempts was let through, oldest first. *)
Fixpoint granted (nows : list Z) (ts : list Z) : list Z :=
  match nows with
  | [] => []
  | now :: nows =>
      match Guards.check_write_throttle now ts with
      | (true, ts) => now :: granted nows ts
      | (false, ts) => granted nows ts
      end
  end.

Lemma drop_old_split now ts : exists old, ts = old ++ Guards.drop_old now ts /\
  Forall (fun t => now - t > Guards.WRITE_THROTTLE_WINDOW) old.
Proof.
  induction ts as [|t ts (old & IH & Ho)]; [by exists []|]. cbn [Guards.drop_old]. case_if; z_bool.
  - exists (t :: old). split; [cbn; by f_equal|]. constructor; [|done].
    unfold saturating_sub, Guards.WRITE_THROTTLE_WINDOW in *. lia.
  - by exists [].
Qed.

(** The throttle's deque is a sliding window over what it let through. *)
Definition throttle_expired (now t : Z) : Prop := now - t > Guards.WRITE_THROTTLE_WINDOW.

Lemma granted_spaced nows : forall clock past ts,
  window_inv throttle_expired Guards.WRITE_THROTTLE_MAX clock past ts ->
  StronglySorted Z.le (clock :: nows) ->
  spaced throttle_expired Guards.WRITE_THROTTLE_MAX (past ++ granted nows ts).
Proof.
  assert (forall now now' t t', now <= now' -> t' <= t -> throttle_expired now t -> throttle_expired now' t') as Hmono.
  { unfold throttle_expired. lia. }
  induction nows as [|now nows IH]; intros clock past ts Hw Hs.
  { rewrite app_nil_r. by apply (wi_spaced _ _ _ _ _ Hw). }
  apply StronglySorted_inv in Hs as [Hs Hle]. apply Forall_cons in Hle as [Hle _].
  apply (window_later _ _ Hmono clock now) in Hw; [|done].
  cbn [granted]. unfold Guards.check_write_throttle.
  destruct (drop_old_split now ts) as (old & Hts & Hold). rewrite Hts in Hw. apply window_prune in Hw; [|done].
  case_if; z_bool; [by apply (IH now)|].
  rewrite (cons_middle now past), app_assoc. apply (IH now); [|done]. by apply window_push.
Qed.

(** The write throttle: among the requests let through by a clock that does not run back, any
    eleven in a row span more than the 60-second window. *)
Theorem write_throttle_rate nows i a b : StronglySorted Z.le nows ->
  granted nows [] !! i = Some a -> granted nows [] !! (i + 10)%nat = Some b ->
  b - a > Guards.WRITE_THROTTLE_WINDOW.
Proof.
  intros Hs Ha Hb. destruct nows as [|now nows]; [done|].
  apply (granted_spaced (now :: nows) now [] [] (window_empty _ _ _) ltac:(constructor; [done|]; constructor;
    [lia|by apply StronglySorted_inv in Hs as [_ ?]]) i a b Ha Hb).
Qed.


(** Concrete arguments for the witnesses. *)
Module ManagerSample.
#[local] Instance hasher : StdHasher := {| hasher_finish l := lenZ l |}.
#[local] Instance sha : Sha256Crate := Sha256Sample.crate.
#[local] Instance hex : HexCrate := HexSample.crate.
#[local] Instance hmac : HmacCrate := HmacSample.crate.
#[local] Instance json_ser : SubmissionJson := ShareSample.json.
#[local] Instance lib : BitcoinLib := Consensus.Sample.lib.

(** A template whose only transaction has a malformed id: no branch can be built from it. *)
Definition bad_tpl : Gbt.t :=
  Gbt.mk 840000 (hex_encode (replicate 32 x00)) [GbtTx.mk "zz" 10 400 4 [x01]] 312500000 [] [] 0x20000000
    [x17; x03; xa3; x0c] 1700000000 1700000100.

Definition src : Source.t := Source.new [x51] 8.

(** A template of no transactions. *)
Definition good_tpl : Gbt.t :=
  Gbt.mk 840000 (hex_encode (replicate 32 x00)) [] 312500000 [] [] 0x20000000 [x17; x03; xa3; x0c] 1700000000 1700000100.

Definition good_turn : turn := Turn [GbtOk good_tpl None] 0 0 [].
Definition bad_turn : turn := Turn [GbtFailed; GbtOk bad_tpl None] 1 1 [].
Definition down_turn : turn := Turn [GbtFailed; GbtFailed; GbtFailed] 2 2 [].

(** The second template cannot be built: the first stays served however often the node gives the
    second again; once another came in between, it is tried again. *)
Lemma manager_serves_changes_witness :
  let run := manager_run "bitcoind" "tm" [x51] 8 in
  visible (run ([good_turn; bad_turn] ++ [bad_turn; down_turn; bad_turn])) = visible (run [good_turn; bad_turn]) /\
  (fun st => (LatestTemplate.template_id <$> Manager.latest_template st.2, Manager.poll_errors_total st.2)) <$> run [good_turn; bad_turn]
    = Some (Some (stable_template_id (Source.fingerprint good_tpl)), 1) /\
  (fun st => Manager.poll_errors_total st.2) <$> run [bad_turn; bad_turn; good_turn; bad_turn] = Some 2.
Proof.
  cbv zeta. split; [|split; vm_compute; reflexivity].
  apply (@manager_serves_changes hasher sha hex lib "bitcoind" "tm" [x51] 8%nat [good_turn; bad_turn]
    [bad_turn; down_turn; bad_turn]).
  repeat (constructor; [intros x Hx; (discriminate Hx || (apply (inj Some) in Hx as <-; eexists; split; reflexivity))|]).
  constructor.
Defined.

Lemma share_log_bounded_witness :
  lenZ (Ingest.share_log (foldl (fun st s => (Ingest.ingest_share [] s st).2) (Ingest.mk [] 0)
    [ShareSample.submission; ShareSample.submission])) <= 10000.
Proof. apply (@share_log_bounded sha hex hmac json_ser). by vm_compute. Defined.

Definition mac : bytes :=
  match hmac_sha256 [x01] (replicate 32 xbb ++ sha256
    (match submission_to_vec (ShareSubmission.with_signature ShareSample.submission "") with
     | Some j => j | None => [] end)) with Some m => m | None => [] end.

Lemma signed_share_ingested_witness :
  fst (Ingest.ingest_share [x01] (sign_submission [x01] ShareSample.submission) (Ingest.mk [] 0))
  = Ingest.mkResponse true None.
Proof.
  pose proof (@signed_share_ingested sha hex HexSample.hex_laws hmac HmacSample.hmac_laws json_ser [x01]
    ShareSample.submission (replicate 32 xbb)
    (match submission_to_vec (ShareSubmission.with_signature ShareSample.submission "") with
     | Some j => j | None => [] end) mac (Ingest.mk [] 0) eq_refl eq_refl eq_refl eq_refl eq_refl) as Hw.
  destruct (Ingest.ingest_share _ _ _) as [r st]. exact (proj1 Hw).
Defined.

Definition attempts_at : list Z := [0; 1; 2; 3; 4; 5; 6; 7; 8; 9; 10; 60 * 1000000000 + 1].

Lemma write_throttle_rate_witness :
  granted attempts_at [] !! 10%nat = Some (60 * 1000000000 + 1) /\
  60 * 1000000000 + 1 - 0 > Guards.WRITE_THROTTLE_WINDOW.
Proof.
  split; [by vm_compute|].
  apply (write_throttle_rate attempts_at 0 0 (60 * 1000000000 + 1)); [|by vm_compute..].
  unfold attempts_at. repeat constructor; lia.
Defined.
End ManagerSample.
