(* ===== verification/Upstream.v ===== *)
(** * The upstream client

    Models [services/sv2-gateway/src/upstream.rs]: the template poller, the forwarding of one share
    with its retries, and the relay worker that forwards many shares at a time.

    An HTTP exchange is its outcome. The relay is a step relation on the queue of shares, the share
    that waits for a permit, the tasks in flight and the bounded channel of results; the tasks
    interleave freely. *)

From stdpp Require Import pretty.
From S2P Require Import Prelude Crates Float64 Reason Shares Manager.

(** ** Templates *)

Module TemplateResponse.
Record t : Type := mk {
  template_id : Z; block_height : Z; block_version : Z; prev_hash : string; nbits : Z;
  min_ntime : Z; curtime : Z; coinbase_value : Z; coinbase_tx_prefix : string;
  coinbase_tx_suffix : string; merkle_path : list string; tx_count : Z; total_fees : Z;
  source_instance_id : string; observed_weight : option Z; template_weight : option Z;
  total_sigops : option Z; coinbase_sigops : option Z; raw_block_hex : option string }.

(** What the gateway reads of the body the template manager serves: the fields by their names. *)
Definition of_latest (l : LatestTemplate.t) : t :=
  mk (LatestTemplate.template_id l) (LatestTemplate.block_height l) (LatestTemplate.block_version l)
    (LatestTemplate.prev_hash l) (LatestTemplate.nbits l) (LatestTemplate.min_ntime l)
    (LatestTemplate.curtime l) (LatestTemplate.coinbase_value l) (LatestTemplate.coinbase_tx_prefix l)
    (LatestTemplate.coinbase_tx_suffix l) (LatestTemplate.merkle_path l) (LatestTemplate.tx_count l)
    (LatestTemplate.total_fees l) (LatestTemplate.source_instance_id l)
    (LatestTemplate.observed_weight l) (LatestTemplate.template_weight l)
    (LatestTemplate.total_sigops l) (LatestTemplate.coinbase_sigops l) (LatestTemplate.raw_block_hex l).
End TemplateResponse.

(** One tick of [run_template_poller]. *)
Inductive poll_outcome : Type :=
| PollOk (body : option TemplateResponse.t) | PollNon200 | PollFailed.

(** The flag [upstream_reachable] and the templates handed on, oldest first. A body that does not
    parse leaves the flag as it is. *)
Definition poll_tick (o : poll_outcome) (st : bool * list TemplateResponse.t)
    : bool * list TemplateResponse.t :=
  match o with
  | PollOk (Some tpl) => (true, st.2 ++ [tpl])
  | PollOk None => st
  | PollNon200 | PollFailed => (false, st.2)
  end.

(** ** Forwarding a share *)

Module ShareUpstreamResponse.
Record t : Type := mk { accepted : bool; reason : option string }.
End ShareUpstreamResponse.

Module ShareForwardResult.
Record t : Type := mk {
  share_id_hex : string; event_id_hex : string; forwarded : bool; upstream_accepted : option bool;
  upstream_http_status : option Z; upstream_error : option string; reason_code : option string }.
End ShareForwardResult.

Inductive ForwardErrorCategory : Type := Timeout | Connect | Non200 | Malformed.
Definition ForwardErrorCategory_as_str (c : ForwardErrorCategory) : string :=
  match c with
  | Timeout => "timeout" | Connect => "connect" | Non200 => "non_200" | Malformed => "malformed"
  end.

(** One POST: a status with what its body parses to, or a failure to send with its message. *)
Inductive post_outcome : Type :=
| Answered (status : Z) (body : result ShareUpstreamResponse.t string)
| SendTimeout (e : string) | SendConnect (e : string) | SendOther (e : string).

Definition is_success (status : Z) : bool := (200 <=? status) && (status <? 300).
Definition is_client_error (status : Z) : bool := (400 <=? status) && (status <? 500).

(** The outcome of one attempt: the result it settles, or the error it leaves for the next. *)
Definition attempt_result (share : ShareSubmission.t) (o : post_outcome)
    : result ShareForwardResult.t string :=
  match o with
  | Answered status body =>
      if is_success status then
        match body with
        | Ok r =>
            let accepted := ShareUpstreamResponse.accepted r in
            Ok (ShareForwardResult.mk (ShareSubmission.share_id_hex share)
                  (ShareSubmission.event_id_hex share) true (Some accepted) (Some status)
                  (if accepted then None else ShareUpstreamResponse.reason r)
                  (if accepted then None
                   else Some (GatewayReason.as_str GatewayReason.ShareUpstreamRejected)))
        | Err e => Err ("malformed response: " +:+ e)
        end
      else if is_client_error status then
        Ok (ShareForwardResult.mk (ShareSubmission.share_id_hex share)
              (ShareSubmission.event_id_hex share) true (Some false) (Some status)
              (Some ("HTTP " +:+ pretty status +:+ " (non-retryable)"))
              (Some (GatewayReason.as_str GatewayReason.ShareForwardFailed)))
      else Err ("HTTP " +:+ pretty status)
  | SendTimeout e => Err ("timeout: " +:+ e)
  | SendConnect e => Err ("connect: " +:+ e)
  | SendOther e => Err ("request: " +:+ e)
  end.

(** The pause before an attempt, in milliseconds: [base_delay * 2u32.saturating_pow(attempt - 1)]. *)
Definition backoff_ms (attempt : nat) : Z :=
  match attempt with
  | O => 0
  | S n => 100 * Z.min (2 ^ Z.of_nat n) u32_max
  end.

(** The loop over attempts [attempt..=max_retries], [n] of them: the result, the number of POSTs
    and the total pause. [post] is what each attempt meets. *)
Fixpoint forward_loop (share : ShareSubmission.t) (post : nat -> post_outcome) (n attempt : nat)
    (last_error : option string) : ShareForwardResult.t * nat * Z :=
  match n with
  | O =>
      (ShareForwardResult.mk (ShareSubmission.share_id_hex share) (ShareSubmission.event_id_hex share)
         false None None last_error (Some (GatewayReason.as_str GatewayReason.ShareForwardFailed)), O, 0)
  | S n =>
      match attempt_result share (post attempt) with
      | Ok r => (r, 1%nat, backoff_ms attempt)
      | Err e =>
          let '(r, posts, slept) := forward_loop share post n (S attempt) (Some e) in
          (r, S posts, backoff_ms attempt + slept)
      end
  end.

Definition forward_share_with_retries (share : ShareSubmission.t) (post : nat -> post_outcome)
    (max_retries : nat) : ShareForwardResult.t * nat * Z :=
  forward_loop share post (S max_retries) 0 None.

(** ** The relay worker *)

Module Relay.
(** A task is posting, or has its result and waits for room in the channel. *)
Inductive task : Type := Posting (share : ShareSubmission.t) | Sending (r : ShareForwardResult.t).

Record t : Type := mk {
  share_rx : list ShareSubmission.t;
  waiting : option ShareSubmission.t;
  in_flight : list task;
  result_tx : list ShareForwardResult.t;
  consumed : list ShareForwardResult.t;
  share_upstream_reachable : bool;
  stopped : bool
}.

Definition new (shares : list ShareSubmission.t) : t := mk shares None [] [] [] true false.

Section Steps.
Context (max_in_flight result_capacity max_retries : nat).

(** [share_rx.recv()]: the loop holds the share until it has a permit. *)
Definition recv (s : t) : option t :=
  match stopped s, waiting s, share_rx s with
  | false, None, share :: rest =>
      Some (mk rest (Some share) (in_flight s) (result_tx s) (consumed s) (share_upstream_reachable s) false)
  | _, _, _ => None
  end.

(** [acquire_owned] returns: the task is spawned with the permit. *)
Definition acquire (s : t) : option t :=
  match waiting s with
  | Some share =>
      if (length (in_flight s) <? max_in_flight)%nat
      then Some (mk (share_rx s) None (in_flight s ++ [Posting share]) (result_tx s) (consumed s)
                  (share_upstream_reachable s) (stopped s))
      else None
  | None => None
  end.

(** Task [i] gets its result and stores the reachability flag. *)
Definition finish (i : nat) (post : nat -> post_outcome) (s : t) : option t :=
  match in_flight s !! i with
  | Some (Posting share) =>
      let r := (forward_share_with_retries share post max_retries).1.1 in
      Some (mk (share_rx s) (waiting s) (<[i := Sending r]> (in_flight s)) (result_tx s) (consumed s)
              (ShareForwardResult.forwarded r) (stopped s))
  | _ => None
  end.

(** Task [i] sends its result and gives its permit back. *)
Definition send (i : nat) (s : t) : option t :=
  match in_flight s !! i with
  | Some (Sending r) =>
      if (length (result_tx s) <? result_capacity)%nat
      then Some (mk (share_rx s) (waiting s) (delete i (in_flight s)) (result_tx s ++ [r]) (consumed s)
                  (share_upstream_reachable s) (stopped s))
      else None
  | _ => None
  end.

(** The main loop takes a result. *)
Definition consume (s : t) : option t :=
  match result_tx s with
  | r :: rest => Some (mk (share_rx s) (waiting s) (in_flight s) rest (consumed s ++ [r])
                         (share_upstream_reachable s) (stopped s))
  | [] => None
  end.

(** [shutdown.changed()]: seen only between shares. *)
Definition stop (s : t) : option t :=
  match stopped s, waiting s with
  | false, None => Some (mk (share_rx s) None (in_flight s) (result_tx s) (consumed s)
                           (share_upstream_reachable s) true)
  | _, _ => None
  end.

Inductive step : t -> t -> Prop :=
| step_recv s s' : recv s = Some s' -> step s s'
| step_acquire s s' : acquire s = Some s' -> step s s'
| step_finish i post s s' : finish i post s = Some s' -> step s s'
| step_send i s s' : send i s = Some s' -> step s s'
| step_consume s s' : consume s = Some s' -> step s s'
| step_stop s s' : stop s = Some s' -> step s s'.
End Steps.
End Relay.

(** ** Theorems: one share *)

Lemma forward_loop_settled share post r n : forall i attempt last,
  (i < n)%nat ->
  (forall j, (j < i)%nat -> exists e, attempt_result share (post (attempt + j)%nat) = Err e) ->
  attempt_result share (post (attempt + i)%nat) = Ok r ->
  forward_loop share post n attempt last = (r, S i, sumZ (backoff_ms <$> seq attempt (S i))).
Proof.
  induction n as [|n IH]; intros i attempt last Hi He Hr; [lia|]. cbn [forward_loop].
  destruct i as [|i].
  - rewrite Nat.add_0_r in Hr. rewrite Hr. cbn [seq fmap list_fmap sumZ foldr]. by rewrite Z.add_0_r.
  - destruct (He 0%nat) as [e He0]; [lia|]. rewrite Nat.add_0_r in He0. rewrite He0.
    rewrite (IH i (S attempt) (Some e)); [done|lia| |].
    + intros j Hj. destruct (He (S j)) as [e' He']; [lia|]. exists e'. by rewrite <-plus_n_Sm in He'.
    + by rewrite <-plus_n_Sm in Hr.
Qed.

Lemma forward_loop_exhausted share post n : forall attempt last,
  (forall j, (j < n)%nat -> exists e, attempt_result share (post (attempt + j)%nat) = Err e) ->
  exists last',
    forward_loop share post n attempt last
    = (ShareForwardResult.mk (ShareSubmission.share_id_hex share) (ShareSubmission.event_id_hex share)
         false None None last' (Some (GatewayReason.as_str GatewayReason.ShareForwardFailed)),
       n, sumZ (backoff_ms <$> seq attempt n)) /\
    (n = O -> last' = last) /\
    (forall m e, n = S m -> attempt_result share (post (attempt + m)%nat) = Err e -> last' = Some e).
Proof.
  induction n as [|n IH]; intros attempt last He.
  { exists last. by split_and!. }
  destruct (He 0%nat) as [e He0]; [lia|]. rewrite Nat.add_0_r in He0.
  destruct (IH (S attempt) (Some e)) as (last' & Hl & H0 & Hn).
  { intros j Hj. destruct (He (S j)) as [e' He']; [lia|]. exists e'. by rewrite <-plus_n_Sm in He'. }
  exists last'. cbn [forward_loop]. rewrite He0, Hl. split_and!; [done|done|].
  intros m e' [= <-] Hm. destruct n as [|n].
  - rewrite Nat.add_0_r, He0 in Hm. rewrite H0 by done. congruence.
  - apply (Hn n); [done|]. by rewrite <-plus_n_Sm in Hm.
Qed.

(** The first attempt that settles the share, if there is one. *)
Definition first_settled (share : ShareSubmission.t) (post : nat -> post_outcome) (max_retries : nat)
    : option (nat * ShareForwardResult.t) :=
  head (omap (fun i => match attempt_result share (post i) with Ok r => Some (i, r) | Err _ => None end)
         (seq 0 (S max_retries))).

Lemma first_settled_from share post n : forall start,
  match head (omap (fun i => match attempt_result share (post i) with
                             | Ok r => Some (i, r) | Err _ => None end) (seq start n)) with
  | Some (k, r) => exists i, k = (start + i)%nat /\ (i < n)%nat /\
      (forall j, (j < i)%nat -> exists e, attempt_result share (post (start + j)%nat) = Err e) /\
      attempt_result share (post (start + i)%nat) = Ok r
  | None => forall j, (j < n)%nat -> exists e, attempt_result share (post (start + j)%nat) = Err e
  end.
Proof.
  induction n as [|n IH]; intros start; [cbn; lia|]. cbn [seq omap list_omap].
  destruct (attempt_result share (post start)) as [r|e] eqn:Hs.
  { cbn. exists 0%nat. rewrite !Nat.add_0_r. split_and!; [done|lia|lia|done]. }
  specialize (IH (S start)).
  assert (forall j, (j < S n)%nat -> (exists i, j = S i /\ (i < n)%nat) \/ j = 0%nat) as Hj.
  { intros [|j] Hj; [by right|left]. exists j. split; [done|lia]. }
  destruct (head _) as [[k r]|].
  - destruct IH as (i & -> & Hi & He & Hr). exists (S i). rewrite <-plus_n_Sm. split_and!; [done|lia| |done].
    intros [|j] Hj'; [exists e; by rewrite Nat.add_0_r|]. rewrite <-plus_n_Sm. apply He. lia.
  - intros [|j] Hj'; [exists e; by rewrite Nat.add_0_r|]. rewrite <-plus_n_Sm. apply IH. lia.
Qed.

(** A share is posted until the first attempt that settles it, whether accepted, refused or
    answered with a 4xx, and at most [max_retries + 1] times; the result is that attempt's. When
    none settles it, the result says it was not forwarded and carries the last error. *)
Theorem forward_share_exact share post max_retries :
  let '(r, posts, slept) := forward_share_with_retries share post max_retries in
  slept = sumZ (backoff_ms <$> seq 0 posts) /\
  match first_settled share post max_retries with
  | Some (i, settled) => r = settled /\ posts = S i /\ (posts <= S max_retries)%nat
  | None =>
      posts = S max_retries /\ ShareForwardResult.forwarded r = false /\
      (exists e, attempt_result share (post max_retries) = Err e /\
         ShareForwardResult.upstream_error r = Some e) /\
      ShareForwardResult.reason_code r = Some "share_forward_failed"%string
  end.
Proof.
  unfold forward_share_with_retries, first_settled.
  pose proof (first_settled_from share post (S max_retries) 0) as Hf.
  destruct (head _) as [[k r]|].
  - destruct Hf as (i & -> & Hi & He & Hr).
    rewrite (forward_loop_settled share post r (S max_retries) i 0 None Hi He Hr). split_and!; try done; lia.
  - destruct (forward_loop_exhausted share post (S max_retries) 0 None Hf) as (last' & -> & _ & Hn).
    destruct (Hf max_retries) as [e He]; [lia|]. specialize (Hn max_retries e eq_refl He) as ->.
    split_and!; try done. by exists e.
Qed.

(** The pauses double: they stay below 100 ms times a power of two. *)
Lemma backoff_total n : (n <= 32)%nat -> sumZ (backoff_ms <$> seq 1 n) = 100 * (2 ^ Z.of_nat n - 1).
Proof.
  induction n as [|n IH]; intros Hn; [done|].
  rewrite seq_S, fmap_app, sumZ_app, IH by lia. cbn [fmap list_fmap sumZ foldr backoff_ms Nat.add].
  assert (2 ^ Z.of_nat n <= 2 ^ 31) by (apply Z.pow_le_mono_r; lia).
  rewrite Z.min_l by (unfold u32_max; lia). rewrite Nat2Z.inj_succ, Z.pow_succ_r by lia. lia.
Qed.

Definition share_key (s : ShareSubmission.t) : string * string :=
  (ShareSubmission.share_id_hex s, ShareSubmission.event_id_hex s).
Definition result_key (r : ShareForwardResult.t) : string * string :=
  (ShareForwardResult.share_id_hex r, ShareForwardResult.event_id_hex r).

Lemma attempt_result_key share o r : attempt_result share o = Ok r -> result_key r = share_key share.
Proof.
  destruct o as [status body|e|e|e]; [|done..]. cbn. case_if; [destruct body|case_if]; by intros [= <-].
Qed.

Lemma forward_key share post n : forall attempt last,
  result_key (forward_loop share post n attempt last).1.1 = share_key share.
Proof.
  induction n as [|n IH]; intros attempt last; [done|]. cbn [forward_loop].
  destruct (attempt_result share (post attempt)) as [r|e] eqn:Hr; [by apply attempt_result_key in Hr|].
  specialize (IH (S attempt) (Some e)). by destruct (forward_loop _ _ _ _ _) as [[r posts] slept].
Qed.

(** ** Theorems: the relay *)

Section RelayFacts.
Import Relay.
Context (max_in_flight result_capacity max_retries : nat).
Notation relay_step := (step max_in_flight result_capacity max_retries).

Definition task_key (t : task) : string * string :=
  match t with Posting s => share_key s | Sending r => result_key r end.

(** Every share the worker was given, wherever it is now. *)
Definition all_keys (s : t) : list (string * string) :=
  (result_key <$> consumed s) ++ (result_key <$> result_tx s) ++ (task_key <$> in_flight s)
  ++ (share_key <$> option_list (waiting s)) ++ (share_key <$> share_rx s).

Ltac relay_cbn :=
  cbn [share_rx waiting in_flight result_tx consumed share_upstream_reachable stopped].

Record relay_ok (shares : list ShareSubmission.t) (s : t) : Prop := {
  ro_keys : all_keys s ≡ₚ share_key <$> shares;
  ro_in_flight : (length (in_flight s) <= max_in_flight)%nat;
  ro_results : (length (result_tx s) <= result_capacity)%nat;
  ro_stopped : stopped s = true -> waiting s = None
}.

Lemma relay_step_ok shares s s' : relay_step s s' -> relay_ok shares s -> relay_ok shares s'.
Proof.
  intros Hstep [Hk Hf Hr Hs]. destruct s as [rx w fl tx co re st].
  inversion Hstep as [? ? Hx|? ? Hx|i post ? ? Hx|i ? ? Hx|? ? Hx|? ? Hx]; subst; clear Hstep;
    unfold recv, acquire, finish, send, consume, stop in Hx; unfold all_keys in Hk;
    cbn [share_rx waiting in_flight result_tx consumed share_upstream_reachable stopped] in Hx, Hk, Hf, Hr, Hs.
  - destruct st, w, rx as [|share rx]; try done. apply (inj Some) in Hx as <-. by split.
  - destruct w as [share|]; [|done]. destruct (length fl <? max_in_flight)%nat eqn:Hl; [|done].
    apply (inj Some) in Hx as <-. apply Nat.ltb_lt in Hl. split; cbn; [|rewrite length_app; cbn; lia|done|done].
    rewrite <-Hk. unfold all_keys. cbn. rewrite fmap_app, <-!app_assoc. done.
  - destruct (fl !! i) as [[share|r]|] eqn:Hi; try done. apply (inj Some) in Hx as <-.
    split; relay_cbn; [|by rewrite length_insert|done|done]. rewrite <-Hk. unfold all_keys. relay_cbn.
    rewrite list_fmap_insert. cbn [task_key]. unfold forward_share_with_retries. rewrite forward_key.
    rewrite list_insert_id; [done|]. by rewrite list_lookup_fmap, Hi.
  - destruct (fl !! i) as [[share|r]|] eqn:Hi; try done.
    destruct (length tx <? result_capacity)%nat eqn:Hl; [|done]. apply (inj Some) in Hx as <-.
    apply Nat.ltb_lt in Hl. pose proof (lookup_lt_Some _ _ _ Hi) as Hlt.
    split; cbn; [|rewrite length_delete by done; lia|rewrite length_app; cbn; lia|done].
    rewrite <-Hk. unfold all_keys. relay_cbn.
    assert (task_key <$> fl ≡ₚ result_key r :: (task_key <$> delete i fl)) as ->
      by exact (fmap_Permutation task_key _ _ (delete_Permutation fl i _ Hi)).
    rewrite fmap_app, <-!app_assoc. done.
  - destruct tx as [|r tx]; [done|]. apply (inj Some) in Hx as <-. split; cbn; [|done|cbn in Hr; lia|done].
    rewrite <-Hk. unfold all_keys. cbn. by rewrite fmap_app, <-!app_assoc.
  - destruct st, w; try done. apply (inj Some) in Hx as <-. by split.
Qed.

Lemma relay_reachable_ok shares s : rtc relay_step (new shares) s -> relay_ok shares s.
Proof.
  intros Hr. assert (forall a b, rtc relay_step a b -> relay_ok shares a -> relay_ok shares b) as Hgen.
  { induction 1; eauto using relay_step_ok. }
  apply (Hgen _ _ Hr). split; cbn; [done|lia|lia|done].
Qed.

(** How far a state is from having delivered everything. *)
Definition task_work (t : task) : nat := match t with Posting _ => 3 | Sending _ => 2 end.
Definition work (s : t) : nat :=
  5 * length (share_rx s) + 4 * length (option_list (waiting s)) + sum_list (task_work <$> in_flight s)
  + length (result_tx s) + (if stopped s then 0 else 1).

Lemma sum_list_cons (x : nat) l : sum_list (x :: l) = (x + sum_list l)%nat.
Proof. done. Qed.

Lemma sum_list_insert (l : list nat) i x y : l !! i = Some x ->
  (sum_list (<[i := y]> l) + x = sum_list l + y)%nat.
Proof.
  revert i. induction l as [|a l IH]; intros [|i] Hi; try done.
  - apply (inj Some) in Hi as ->. unfold sum_list. cbn. lia.
  - specialize (IH i Hi). change (<[S i := y]> (a :: l)) with (a :: <[i := y]> l). rewrite !sum_list_cons.
    lia.
Qed.

Lemma relay_step_work s s' : relay_step s s' -> (work s' < work s)%nat.
Proof.
  intros Hstep. destruct s as [rx w fl tx co re st].
  inversion Hstep as [? ? Hx|? ? Hx|i post ? ? Hx|i ? ? Hx|? ? Hx|? ? Hx]; subst; clear Hstep;
    unfold recv, acquire, finish, send, consume, stop in Hx;
    cbn [share_rx waiting in_flight result_tx consumed share_upstream_reachable stopped] in Hx.
  - destruct st, w, rx as [|share rx]; try done. apply (inj Some) in Hx as <-. unfold work. cbn. lia.
  - destruct w as [share|]; [|done]. case_if; [|done]. apply (inj Some) in Hx as <-.
    unfold work. cbn. rewrite fmap_app, sum_list_with_app. cbn. lia.
  - destruct (fl !! i) as [[share|r]|] eqn:Hi; try done. apply (inj Some) in Hx as <-.
    unfold work. relay_cbn. rewrite list_fmap_insert.
    cbn [task_work]. assert ((task_work <$> fl) !! i = Some 3%nat) as Hw by (by rewrite list_lookup_fmap, Hi).
    pose proof (sum_list_insert _ _ _ 2 Hw). lia.
  - destruct (fl !! i) as [[share|r]|] eqn:Hi; try done. case_if; [|done]. apply (inj Some) in Hx as <-.
    unfold work. relay_cbn.
    assert (sum_list (task_work <$> fl) = (2 + sum_list (task_work <$> delete i fl))%nat) as ->.
    { exact (sum_list_with_Permutation_proper id _ _ (fmap_Permutation task_work _ _ (delete_Permutation fl i _ Hi))). }
    rewrite length_app. cbn [length]. lia.
  - destruct tx as [|r tx]; [done|]. apply (inj Some) in Hx as <-. unfold work. cbn. lia.
  - destruct st, w; try done. apply (inj Some) in Hx as <-. unfold work. cbn. lia.
Qed.

(** C37 No run of the relay goes on for ever: whatever the upstream answers and however the tasks
    interleave, every step uses up some of the work there was. *)
Theorem relay_terminates :
  well_founded (fun s2 s1 : Relay.t => Relay.step max_in_flight result_capacity max_retries s1 s2).
Proof.
  apply (well_founded_lt_compat _ work). intros s' s Hs. by apply relay_step_work.
Qed.

(** Nothing but a shutdown can happen any more. *)
Definition settled (s : t) : Prop := forall s', relay_step s s' -> stopped s <> stopped s'.

Lemma settled_empty shares s : (0 < max_in_flight)%nat -> (0 < result_capacity)%nat ->
  relay_ok shares s -> settled s ->
  result_tx s = [] /\ in_flight s = [] /\ waiting s = None /\ (stopped s = false -> share_rx s = []).
Proof.
  intros Hm Hc [Hk Hf Hr Hs] Hset. destruct s as [rx w fl tx co re st].
  assert (tx = []) as ->.
  { destruct tx as [|r tx]; [done|]. by edestruct Hset; [eapply step_consume; reflexivity|]. }
  assert (fl = []) as ->.
  { destruct fl as [|[share|r] fl]; [done| |].
    - by edestruct Hset; [eapply (step_finish _ _ _ 0 (fun _ => SendOther "")); reflexivity|].
    - assert (exists s', send result_capacity 0 (mk rx w (Sending r :: fl) [] co re st) = Some s' /\ stopped s' = st)
        as (s' & Hx & Hst).
      { unfold send. cbn. destruct result_capacity; [lia|]. by eexists. }
      destruct (Hset _ (step_send _ _ _ 0 _ _ Hx)). cbn. congruence. }
  assert (w = None) as ->.
  { destruct w as [share|]; [|done].
    assert (exists s', acquire max_in_flight (mk rx (Some share) [] [] co re st) = Some s' /\ stopped s' = st)
      as (s' & Hx & Hst).
    { unfold acquire. cbn. destruct max_in_flight; [lia|]. by eexists. }
    destruct (Hset _ (step_acquire _ _ _ _ _ Hx)). cbn. congruence. }
  split_and!; try done. cbn. intros ->. destruct rx as [|share rx]; [done|].
  by edestruct Hset; [eapply step_recv; reflexivity|].
Qed.

(** C36 The relay delivers: from any state it can reach, once nothing but a shutdown is left to
    happen, no task and no result is left over and every share it took has exactly one result
    with its identity; without a shutdown that is every share it was given. At no time are there
    more than [max_in_flight] tasks. *)
Theorem relay_delivers shares s :
  (0 < max_in_flight)%nat -> (0 < result_capacity)%nat ->
  rtc relay_step (new shares) s ->
  (length (in_flight s) <= max_in_flight)%nat /\
  (settled s ->
     in_flight s = [] /\ waiting s = None /\ result_tx s = [] /\
     (result_key <$> consumed s) ++ (share_key <$> share_rx s) ≡ₚ share_key <$> shares /\
     (stopped s = false -> share_rx s = [])).
Proof.
  intros Hm Hc Hok%relay_reachable_ok. split; [apply Hok|]. intros Hset.
  destruct (settled_empty shares s Hm Hc Hok Hset) as (Ht & Hf & Hw & Hrx).
  pose proof (ro_keys _ _ Hok) as Hk. unfold all_keys in Hk. rewrite Ht, Hf, Hw in Hk. by split_and!.
Qed.
End RelayFacts.

(** Concrete arguments for the witnesses. *)
Module UpstreamSample.
Import Relay.
Definition share : ShareSubmission.t := ShareSample.submission.
Definition accepting (_ : nat) : post_outcome := Answered 200 (Ok (ShareUpstreamResponse.mk true None)).

Definition run_one (s : t) : option t :=
  s ← recv s; s ← acquire 1 s; s ← finish 0 0 accepting s; s ← send 1 0 s; consume s.
Definition done_state : t := unwrap_or (run_one (new [share])) (new []).

Lemma relay_delivers_witness :
  rtc (step 1 1 0) (new [share]) done_state /\ settled 1 1 0 done_state /\
  (result_key <$> consumed done_state) ++ (share_key <$> share_rx done_state) ≡ₚ share_key <$> [share].
Proof.
  assert (rtc (step 1 1 0) (new [share]) done_state) as Hr.
  { eapply rtc_l; [eapply step_recv; reflexivity|]. eapply rtc_l; [eapply step_acquire; reflexivity|].
    eapply rtc_l; [eapply (step_finish _ _ _ 0 accepting); reflexivity|].
    eapply rtc_l; [eapply (step_send _ _ _ 0); reflexivity|].
    eapply rtc_l; [eapply step_consume; reflexivity|]. apply rtc_refl. }
  assert (settled 1 1 0 done_state) as Hset.
  { intros s' Hs. inversion Hs as [? ? Hx|? ? Hx|i post ? ? Hx|i ? ? Hx|? ? Hx|? ? Hx]; subst;
      try discriminate; try (apply (inj Some) in Hx as <-; discriminate); unfold finish, send in Hx; by destruct i. }
  split_and!; [done|done|]. eapply (relay_delivers 1 1 0 [share]); [lia|lia|done|done].
Defined.
End UpstreamSample.
