(* ===== verification/Accounting.v ===== *)
(** * The accounting stream

    Models [services/sv2-gateway/src/accounting.rs] and the WAL start-up of
    [services/sv2-gateway/src/main.rs]: the two lines an accepted share produces, the order of the
    lines and the log records, and the drain on a stop.

    A line is the event it prints: the events hold only strings, integers and options, so they
    always serialize. A queue is what [try_recv] would take from it; the environment of a call is
    the outcome of the blocking pool, the clock and the write. Crashes are in the step relation
    [acc_step], which runs a batch one effect at a time. *)

From S2P Require Import Prelude Crates Float64 Reason Shares Wal Upstream.

Inductive line : Type := Event1 (e : ShareAcceptedEvent.t) | Event2 (e : ShareForwardResultEvent.t).

Module SharedWal.
Record t : Type := mk { wal : ShareWal.t; poisoned : bool }.
End SharedWal.

Inductive accounting_error : Type :=
| WalFailed | MutexPoisoned | JoinFailed | TimedOut (events_left results_left : Z).

(** What the blocking pool does with a call: runs it, or drops it before it starts. *)
Inductive pool : Type := PoolRan | PoolDropped.

Definition with_wal (p : pool) (f : ShareWal.t -> bool * ShareWal.t) (w : SharedWal.t)
    : result unit accounting_error * SharedWal.t :=
  match p with
  | PoolDropped => (Err JoinFailed, w)
  | PoolRan =>
      if SharedWal.poisoned w then (Err MutexPoisoned, w)
      else
        let '(ok, w') := f (SharedWal.wal w) in
        ((if ok then Ok tt else Err WalFailed), SharedWal.mk w' false)
  end.

Definition is_accepted (e : ShareAcceptedEvent.t) : bool :=
  bool_decide (ShareAcceptedEvent.sv2_response e = "success"%string).
Definition accepted_key (e : ShareAcceptedEvent.t) : key :=
  (ShareAcceptedEvent.share_id_hex e, ShareAcceptedEvent.event_id_hex e).
Definition accepted_of (events : list ShareAcceptedEvent.t) : list ShareAcceptedEvent.t :=
  filter (fun e => is_accepted e = true) events.
Definition rejected_of (events : list ShareAcceptedEvent.t) : list ShareAcceptedEvent.t :=
  filter (fun e => is_accepted e = false) events.

(** What a batch did. *)
Module Batch.
Record t (A : Type) : Type := mk {
  items : list A; queued : list A; recorded : result unit accounting_error;
  wal : option SharedWal.t; lines : list line }.
Arguments mk {A}. Arguments items {A}. Arguments queued {A}. Arguments recorded {A}.
Arguments wal {A}. Arguments lines {A}.
End Batch.

(** The clocks and outcomes one call meets. *)
Module CallEnv.
Record t : Type := mk {
  run : pool; now : Z; arrived : Z; instant_now : Z; rewritten_at : Z; write : ShareWal.io;
  compact_ok : bool; event_ms : ShareForwardResult.t -> Z }.
End CallEnv.

(** One pass of the loop: the clock at its start, what arrives in each queue before it is looked
    at, and the environments of the two calls. *)
Module Pass.
Record t : Type := mk {
  at_ns : Z; more_events : list ShareAcceptedEvent.t; more_results : list ShareForwardResult.t;
  accept_env : CallEnv.t; forward_env : CallEnv.t }.
End Pass.

Module DrainState.
Record t : Type := mk {
  events : list ShareAcceptedEvent.t; results : list ShareForwardResult.t;
  wal : option SharedWal.t; out : list line; drained_events : Z; drained_results : Z }.
End DrainState.

(** What a batch does to the outside, in order. *)
Inductive effect : Type :=
| EmitLine (l : line) | MarkPending (shares : list key) | MarkCompleted (shares : list key).

(** Not running; starting, with the recovered lines still to print; or running, with the rest of
    the current batch. *)
Inductive phase : Type :=
| Down
| Booting (w : ShareWal.t) (todo : list ShareForwardResultEvent.t)
| Running (w : ShareWal.t) (todo : list effect).

(** The log file, whether its last line may lack its newline, and the lines printed so far. *)
Module System.
Record t : Type := mk { disk : list string; torn : bool; out : list line; at_phase : phase }.
End System.

Section Accounting.
Context `{WalJson, MapOrder}.

Definition record_accepted (env : CallEnv.t) (queued : list ShareAcceptedEvent.t)
    (first : ShareAcceptedEvent.t) (wal : option SharedWal.t) : Batch.t ShareAcceptedEvent.t :=
  let '(events, queued) := take_queued queued first in
  let rejected_lines := Event1 <$> rejected_of events in
  let accepted := accepted_key <$> accepted_of events in
  let '(recorded, wal) :=
    match wal, accepted with
    | Some w, _ :: _ =>
        let '(r, w) :=
          with_wal (CallEnv.run env)
            (ShareWal.mark_pending (CallEnv.now env) (CallEnv.write env) accepted) w in
        (r, Some w)
    | _, _ => (Ok tt, wal)
    end in
  match recorded with
  | Err e => Batch.mk events queued (Err e) wal rejected_lines
  | Ok _ => Batch.mk events queued (Ok tt) wal (rejected_lines ++ (Event1 <$> accepted_of events))
  end.

Definition forward_event (env : CallEnv.t) (r : ShareForwardResult.t) : ShareForwardResultEvent.t :=
  ShareForwardResultEvent.from_relay (CallEnv.event_ms env r) (ShareForwardResult.share_id_hex r)
    (ShareForwardResult.event_id_hex r) (ShareForwardResult.forwarded r)
    (ShareForwardResult.upstream_accepted r) (ShareForwardResult.upstream_http_status r)
    (ShareForwardResult.upstream_error r) (ShareForwardResult.reason_code r).

Definition record_forwarded (env : CallEnv.t) (queued : list ShareForwardResult.t)
    (first : ShareForwardResult.t) (wal : option SharedWal.t) : Batch.t ShareForwardResult.t :=
  let '(results, queued) := take_queued queued first in
  let lines := (fun r => Event2 (forward_event env r)) <$> results in
  match wal with
  | Some w =>
      let completed := result_key <$> results in
      let '(r, w) :=
        with_wal (CallEnv.run env)
          (ShareWal.mark_completed (CallEnv.now env) (CallEnv.arrived env) (CallEnv.instant_now env)
             (CallEnv.rewritten_at env) (CallEnv.write env) (CallEnv.compact_ok env) completed) w in
      Batch.mk results queued r (Some w) lines
  | None => Batch.mk results queued (Ok tt) None lines
  end.

(** ** The drain on a stop *)

(** [if let Ok(first) = events.try_recv()]. *)
Definition drain_events (p : Pass.t) (s : DrainState.t)
    : bool * result unit accounting_error * DrainState.t :=
  match DrainState.events s ++ Pass.more_events p with
  | [] => (false, Ok tt, s)
  | first :: queued =>
      let b := record_accepted (Pass.accept_env p) queued first (DrainState.wal s) in
      (true, Batch.recorded b,
       DrainState.mk (Batch.queued b) (DrainState.results s) (Batch.wal b)
         (DrainState.out s ++ Batch.lines b)
         (DrainState.drained_events s + lenZ (Batch.items b)) (DrainState.drained_results s))
  end.

Definition drain_results (p : Pass.t) (s : DrainState.t)
    : bool * result unit accounting_error * DrainState.t :=
  match DrainState.results s ++ Pass.more_results p with
  | [] => (false, Ok tt, s)
  | first :: queued =>
      let b := record_forwarded (Pass.forward_env p) queued first (DrainState.wal s) in
      (true, Batch.recorded b,
       DrainState.mk (DrainState.events s) (Batch.queued b) (Batch.wal b)
         (DrainState.out s ++ Batch.lines b) (DrainState.drained_events s)
         (DrainState.drained_results s + lenZ (Batch.items b)))
  end.

(** The loop over as many passes as are given; [None] when it is still running after them. *)
Fixpoint drain_on_stop (deadline : Z) (passes : list Pass.t) (s : DrainState.t)
    : option (result unit accounting_error * DrainState.t) :=
  match passes with
  | [] => None
  | p :: passes =>
      if Pass.at_ns p >=? deadline
      then Some (Err (TimedOut (lenZ (DrainState.events s)) (lenZ (DrainState.results s))), s)
      else
        let '(moved1, recorded, s) := drain_events p s in
        match recorded with
        | Err e => Some (Err e, s)
        | Ok _ =>
            let '(moved2, recorded, s) := drain_results p s in
            match recorded with
            | Err e => Some (Err e, s)
            | Ok _ => if moved1 || moved2 then drain_on_stop deadline passes s else Some (Ok tt, s)
            end
        end
  end.

(** ** A gateway that can crash *)

Definition accepted_effects (events : list ShareAcceptedEvent.t) : list effect :=
  (EmitLine <$> (Event1 <$> rejected_of events))
  ++ match accepted_key <$> accepted_of events with [] => [] | ks => [MarkPending ks] end
  ++ (EmitLine <$> (Event1 <$> accepted_of events)).

Definition forwarded_effects (env : CallEnv.t) (results : list ShareForwardResult.t) : list effect :=
  (EmitLine <$> ((fun r => Event2 (forward_event env r)) <$> results))
  ++ [MarkCompleted (result_key <$> results)].

(** What an append leaves on the disk: onto a last line without its newline the first text is written. *)
Definition append_to (torn : bool) (disk lines : list string) : list string :=
  match torn, last disk, lines with
  | true, Some fragment, l :: ls => removelast disk ++ (fragment +:+ l) :: ls
  | _, _, _ => disk ++ lines
  end.
Definition still_torn {A} (torn : bool) (written : list A) : bool := match written with [] => torn | _ => false end.

(** The process knows the file as it is on the disk. *)
Definition with_file (f : list string) (w : ShareWal.t) : ShareWal.t :=
  ShareWal.mk f (ShareWal.pending w) (ShareWal.completed_since_compaction w) (ShareWal.compaction_threshold w) (ShareWal.completed_early w).

(** Whether a batch of completions ends in a compaction. *)
Definition compacts (shares : list key) (w : ShareWal.t) : bool :=
  (ShareWal.compaction_threshold w >? 0) && (ShareWal.completed_since_compaction w + lenZ shares >=? ShareWal.compaction_threshold w).

(** A start goes on when its compaction failed, with the file as it is. *)
Inductive acc_step : System.t -> System.t -> Prop :=
| acc_start now threshold disk torn out events w :
    ShareWal.recover now (ShareWal.open disk threshold) = (events, w) ->
    acc_step (System.mk disk torn out Down) (System.mk disk torn out (Booting w events))
| acc_boot_emit disk torn out w e todo :
    acc_step (System.mk disk torn out (Booting w (e :: todo)))
             (System.mk disk torn (out ++ [Event2 e]) (Booting w todo))
| acc_boot_done instant_now ts disk torn out w w' :
    ShareWal.finish_recovery true instant_now ts w = (true, w') ->
    acc_step (System.mk disk torn out (Booting w []))
             (System.mk (ShareWal.file w') false out (Running w' []))
| acc_boot_uncompacted instant_now ts disk torn out w w' :
    ShareWal.finish_recovery false instant_now ts w = (false, w') ->
    acc_step (System.mk disk torn out (Booting w [])) (System.mk disk torn out (Running w' []))
| acc_accepted events disk torn out w :
    acc_step (System.mk disk torn out (Running w []))
             (System.mk disk torn out (Running w (accepted_effects events)))
| acc_forwarded env results disk torn out w :
    acc_step (System.mk disk torn out (Running w []))
             (System.mk disk torn out (Running w (forwarded_effects env results)))
| acc_emit disk torn out w l todo :
    acc_step (System.mk disk torn out (Running w (EmitLine l :: todo)))
             (System.mk disk torn (out ++ [l]) (Running w todo))
| acc_pending now disk torn out w w' shares todo :
    ShareWal.mark_pending now ShareWal.Written shares w = (true, w') ->
    let disk' := append_to torn disk (record_to_string <$> (record Pending now <$> shares)) in
    acc_step (System.mk disk torn out (Running w (MarkPending shares :: todo)))
             (System.mk disk' (still_torn torn shares) out (Running (with_file disk' w') todo))
| acc_completed now arrived instant_now ts compact_ok disk torn out w ok w' shares todo :
    ShareWal.mark_completed now arrived instant_now ts ShareWal.Written compact_ok shares w = (ok, w') ->
    let rewritten := compacts shares w && compact_ok in
    let disk' := if rewritten then ShareWal.file w' else append_to torn disk (record_to_string <$> (record Completed now <$> shares)) in
    acc_step (System.mk disk torn out (Running w (MarkCompleted shares :: todo)))
             (System.mk disk' (negb rewritten && still_torn torn shares) out (if ok then Running (with_file disk' w') todo else Down))
| acc_crash disk torn out p :
    acc_step (System.mk disk torn out p) (System.mk disk torn out Down)
| acc_crash_pending now n tail torn' disk torn out w shares todo :
    Forall unreadable tail ->
    acc_step (System.mk disk torn out (Running w (MarkPending shares :: todo)))
             (System.mk (append_to torn disk ((record_to_string <$> take n (record Pending now <$> shares)) ++ tail)) torn' out Down)
| acc_crash_completed now n tail torn' disk torn out w shares todo :
    Forall unreadable tail ->
    acc_step (System.mk disk torn out (Running w (MarkCompleted shares :: todo)))
             (System.mk (append_to torn disk ((record_to_string <$> take n (record Completed now <$> shares)) ++ tail)) torn' out Down).

Definition fresh_system : System.t := System.mk [] false [] Down.

(** A process that runs on a file whose last line lacks its newline, and runs without one. *)
Definition on_fragment (s : System.t) : Prop :=
  System.torn s = true /\ match System.at_phase s with Running _ _ => True | _ => False end.
Definition whole_step (s s' : System.t) : Prop := acc_step s s' /\ ~ on_fragment s'.
End Accounting.

(** * Properties *)

Section AccountingFacts.
Context `{WalJsonLaws, MapOrder}.

(** ** Replay of pending and of completed records *)

Lemma apply_pendings (f : key -> Z) ks : forall P S,
  let '(P', S') := foldl apply_record (P, S) ((fun k => record Pending (f k) k) <$> ks) in
  (forall k, is_Some (P !! k) -> is_Some (P' !! k)) /\ S' ⊆ S /\
  (forall k, k ∈ ks -> is_Some (P' !! k) \/ k ∈ S).
Proof.
  induction ks as [|k ks IH]; intros P S; [split_and!; [done|done|set_solver]|].
  rewrite fmap_cons. cbn [foldl]. rewrite apply_pending. case_decide as Hk.
  - specialize (IH P (S ∖ {[k]})). destruct (foldl _ _ _) as [P' S']. destruct IH as (Ha & Hb & Hd).
    split_and!; [done|set_solver|]. intros j [->|Hj]%elem_of_cons; [by right|].
    destruct (Hd j Hj); [by left|right; set_solver].
  - specialize (IH (<[k := f k]> P) S). destruct (foldl _ _ _) as [P' S']. destruct IH as (Ha & Hb & Hd).
    split_and!; [|done|].
    + intros j Hj. apply Ha. rewrite lookup_insert. by case_decide.
    + intros j [->|Hj]%elem_of_cons; [left; apply Ha; by rewrite lookup_insert_eq|by apply Hd].
Qed.

Lemma apply_completeds (f : key -> Z) ks : forall P S,
  let '(P', S') := foldl apply_record (P, S) ((fun k => record Completed (f k) k) <$> ks) in
  (forall k, k ∉ ks -> is_Some (P !! k) -> is_Some (P' !! k)) /\ (forall k, k ∈ S' -> k ∈ S \/ k ∈ ks).
Proof.
  induction ks as [|k ks IH]; intros P S; [by split; [|left]|].
  rewrite fmap_cons. cbn [foldl]. rewrite apply_completed. destruct (P !! k) as [t|] eqn:Hk.
  - specialize (IH (delete k P) S). destruct (foldl _ _ _) as [P' S']. destruct IH as (Ha & Hb).
    split.
    + intros j Hj Hp. apply not_elem_of_cons in Hj as [Hne Hj]. apply Ha; [done|]. by rewrite lookup_delete_ne.
    + intros j Hj. destruct (Hb j Hj); set_solver.
  - specialize (IH P ({[k]} ∪ S)). destruct (foldl _ _ _) as [P' S']. destruct IH as (Ha & Hb).
    split; [intros j Hj; apply Ha; set_solver|]. intros j Hj. destruct (Hb j Hj); set_solver.
Qed.

Lemma index_pendings now shares : forall P E C E0,
  (forall k, E !! k = if decide (k ∈ C) then None else E0 !! k) ->
  let '(P', E') := foldl ShareWal.index_pending (P, E)
    (zip (record Pending now <$> shares) (ShareWal.consumes_early E0 C shares)) in
  (forall k, is_Some (P !! k) -> is_Some (P' !! k)) /\
  (forall k, is_Some (E' !! k) -> is_Some (E !! k)) /\
  (forall k, k ∈ shares -> is_Some (P' !! k) \/ is_Some (E !! k)).
Proof.
  induction shares as [|k shares IH]; intros P E C E0 HE; [split_and!; [done|done|set_solver]|].
  assert (forall C' E0', (forall j, E !! j = if decide (j ∈ C') then None else E0' !! j) ->
    let '(P', E') := foldl ShareWal.index_pending (<[k:=now]> P, E)
      (zip (record Pending now <$> shares) (ShareWal.consumes_early E0' C' shares)) in
    (forall j, is_Some (P !! j) -> is_Some (P' !! j)) /\
    (forall j, is_Some (E' !! j) -> is_Some (E !! j)) /\
    (forall j, j ∈ k :: shares -> is_Some (P' !! j) \/ is_Some (E !! j))) as Hins.
  { intros C' E0' HC. specialize (IH (<[k:=now]> P) E C' E0' HC). destruct (foldl _ _ _) as [P' E'].
    destruct IH as (Ha & Hb & Hd). split_and!; [|done|].
    - intros j Hj. apply Ha. rewrite lookup_insert. by case_decide.
    - intros j [->|Hj]%elem_of_cons; [left; apply Ha; by rewrite lookup_insert_eq|by apply Hd]. }
  rewrite fmap_cons. cbn [ShareWal.consumes_early]. destruct (E0 !! k) as [t|] eqn:Hk0.
  - cbn [zip zip_with foldl]. rewrite index_one. destruct (decide (k ∈ C)) as [HC|HC].
    + rewrite bool_decide_eq_false_2 by set_solver. apply Hins. intros j. rewrite HE.
      repeat case_decide; set_solver.
    + rewrite bool_decide_eq_true_2 by done.
      specialize (IH P (delete k E) ({[k]} ∪ C) E0).
      destruct (foldl _ _ _) as [P' E']. destruct IH as (Ha & Hb & Hd).
      { intros j. rewrite lookup_delete, HE. repeat case_decide; set_solver. }
      assert (forall j, is_Some (delete k E !! j) -> is_Some (E !! j)) as Hdel.
      { intros j. rewrite lookup_delete. case_decide; [by intros []|done]. }
      split_and!; [done|eauto|]. intros j [->|Hj]%elem_of_cons.
      * right. rewrite HE, decide_False, Hk0 by done. by eexists.
      * destruct (Hd j Hj); [by left|right; eauto].
  - cbn [zip zip_with foldl]. rewrite index_one. by apply Hins.
Qed.

Lemma complete_all arrived shares : forall P E,
  let '(P', E') := foldl (ShareWal.complete_one arrived) (P, E) shares in
  (forall k, k ∉ shares -> is_Some (P !! k) -> is_Some (P' !! k)) /\
  (forall k, is_Some (E' !! k) -> is_Some (E !! k) \/ k ∈ shares).
Proof.
  induction shares as [|k shares IH]; intros P E; [by split; [|left]|].
  cbn [foldl ShareWal.complete_one]. destruct (P !! k) as [t|] eqn:Hk.
  - specialize (IH (delete k P) E). destruct (foldl _ _ _) as [P' E']. destruct IH as (Ha & Hb). split.
    + intros j Hj Hp. apply not_elem_of_cons in Hj as [Hne Hj]. apply Ha; [done|]. by rewrite lookup_delete_ne.
    + intros j Hj. destruct (Hb j Hj); [by left|right; by right].
  - assert (exists E1, (if Z.of_nat (size E) <? EARLY_COMPLETION_CAP then (P, <[k:=arrived]> E) else (P, E))
      = (P, E1) /\ forall j, is_Some (E1 !! j) -> is_Some (E !! j) \/ j = k) as (E1 & -> & HE1).
    { case_if; eexists; (split; [done|]); [|by left]. intros j. rewrite lookup_insert. case_decide; auto. }
    specialize (IH P E1). destruct (foldl _ _ _) as [P' E']. destruct IH as (Ha & Hb). split.
    + intros j Hj. apply Ha. set_solver.
    + intros j Hj. destruct (Hb j Hj) as [He|He]; [|right; by right].
      destruct (HE1 j He) as [?| ->]; [by left|right; by left].
Qed.

(** ** At least one Event 2 *)

(** The accepted line, and the forward result, of a share are printed. *)
Definition e1 (out : list line) (k : key) : Prop :=
  exists e, Event1 e ∈ out /\ is_accepted e = true /\ accepted_key e = k.
Definition e2 (out : list line) (k : key) : Prop := exists e, Event2 e ∈ out /\ event_key e = k.

Lemma e2_mono out out' k : e2 out k -> e2 (out ++ out') k.
Proof. intros (e & He & Hk). exists e. set_solver. Qed.

Lemma e1_snoc out l k : e1 (out ++ [l]) k ->
  e1 out k \/ exists e, l = Event1 e /\ is_accepted e = true /\ accepted_key e = k.
Proof.
  intros (e & He & Ha & Hk). apply elem_of_app in He as [He|He]; [left; by exists e|right].
  apply list_elem_of_singleton in He. by exists e.
Qed.

(** What the replay of a file says of the lines printed: a printed acceptance has its result printed
    or is pending, and a completion that waits has its result printed. *)
Definition disk_ok (disk : list string) (out : list line) : Prop :=
  (forall k, e1 out k -> e2 out k \/ is_Some ((ShareWal.replay disk).1 !! k)) /\
  (forall k, k ∈ (ShareWal.replay disk).2 -> e2 out k).

Definition mem_ok (w : ShareWal.t) (out : list line) : Prop :=
  (forall k, e1 out k -> e2 out k \/ is_Some (ShareWal.pending w !! k)) /\
  (forall k, is_Some (ShareWal.completed_early w !! k) -> e2 out k).

(** The rest of a batch: [D] holds of the shares with a printed result, [B] of those that are
    pending in memory and on disk. *)
Fixpoint todo_ok (D B : key -> Prop) (todo : list effect) : Prop :=
  match todo with
  | [] => True
  | EmitLine (Event1 e) :: todo =>
      (is_accepted e = true -> D (accepted_key e) \/ B (accepted_key e)) /\ todo_ok D B todo
  | EmitLine (Event2 e) :: todo => todo_ok (fun k => D k \/ k = event_key e) B todo
  | MarkPending ks :: todo => todo_ok D (fun k => B k \/ k ∈ ks) todo
  | MarkCompleted ks :: todo => (forall k, k ∈ ks -> D k) /\ todo_ok D (fun k => B k /\ k ∉ ks) todo
  end.

Lemma todo_ok_mono todo : forall (D D' B B' : key -> Prop),
  (forall k, D k -> D' k) -> (forall k, B k -> D' k \/ B' k) -> todo_ok D B todo -> todo_ok D' B' todo.
Proof.
  induction todo as [|[[e|e]|ks|ks] todo IH]; intros D D' B B' HD HB; [done|..]; cbn.
  - intros [He Ht]. split; [|by eapply IH]. intros Ha. destruct (He Ha) as [Hd|Hd]; [left; auto|auto].
  - apply IH; [intros k [?|?]; auto|intros k Hk; destruct (HB k Hk); auto].
  - apply IH; [done|]. intros k [Hk|Hk]; [destruct (HB k Hk); auto|auto].
  - intros [Hd Ht]. split; [auto|]. eapply IH; [exact HD| |exact Ht]. intros k [Hk Hn]. destruct (HB k Hk); auto.
Qed.

Definition both_pending (disk : list string) (w : ShareWal.t) (k : key) : Prop :=
  is_Some ((ShareWal.replay disk).1 !! k) /\ is_Some (ShareWal.pending w !! k).

Definition system_ok (s : System.t) : Prop :=
  disk_ok (System.disk s) (System.out s) /\
  match System.at_phase s with
  | Down => True
  | Booting w todo =>
      ShareWal.file w = System.disk s /\ ShareWal.pending w = ∅ /\ ShareWal.completed_early w = ∅ /\
      (forall k, is_Some ((ShareWal.replay (System.disk s)).1 !! k) ->
         e2 (System.out s) k \/ k ∈ event_key <$> todo)
  | Running w todo =>
      ShareWal.file w = System.disk s /\ mem_ok w (System.out s) /\
      todo_ok (e2 (System.out s)) (both_pending (System.disk s) w) todo
  end.

Lemma replay_app f lines : ShareWal.replay (f ++ lines) = foldl ShareWal.replay_line (ShareWal.replay f) lines.
Proof. unfold ShareWal.replay. by rewrite foldl_app. Qed.

Lemma records_const st ts (ks : list key) : record st ts <$> ks = (fun k => record st ((fun _ => ts) k) k) <$> ks.
Proof. done. Qed.

(** A file that gained pending records, or completed records of shares whose results are printed. *)
Lemma disk_ok_pending disk out now ks : disk_ok disk out ->
  disk_ok (disk ++ (record_to_string <$> (record Pending now <$> ks))) out /\
  (forall k, is_Some ((ShareWal.replay disk).1 !! k) \/ k ∈ ks -> e2 out k \/
     is_Some ((ShareWal.replay (disk ++ (record_to_string <$> (record Pending now <$> ks)))).1 !! k)).
Proof.
  intros [Hd1 Hd2]. unfold disk_ok. rewrite replay_app, replay_records, records_const.
  destruct (ShareWal.replay disk) as [P S]. cbn [fst snd] in *.
  pose proof (apply_pendings (fun _ => now) ks P S) as Hp. destruct (foldl _ _ _) as [P' S'].
  destruct Hp as (Ha & Hb & Hc). cbn [fst snd]. split_and!.
  - intros k Hk. destruct (Hd1 k Hk); auto.
  - intros k Hk. apply Hd2. set_solver.
  - intros k [Hk|Hk]; [right; auto|]. destruct (Hc k Hk); auto.
Qed.

Lemma disk_ok_completed disk out now ks : disk_ok disk out -> (forall k, k ∈ ks -> e2 out k) ->
  disk_ok (disk ++ (record_to_string <$> (record Completed now <$> ks))) out /\
  (forall k, k ∉ ks -> is_Some ((ShareWal.replay disk).1 !! k) ->
     is_Some ((ShareWal.replay (disk ++ (record_to_string <$> (record Completed now <$> ks)))).1 !! k)).
Proof.
  intros [Hd1 Hd2] Hks. unfold disk_ok. rewrite replay_app, replay_records, records_const.
  destruct (ShareWal.replay disk) as [P S]. cbn [fst snd] in *.
  pose proof (apply_completeds (fun _ => now) ks P S) as Hp. destruct (foldl _ _ _) as [P' S'].
  destruct Hp as (Ha & Hb). cbn [fst snd]. split_and!.
  - intros k Hk. destruct (Hd1 k Hk); [by left|]. destruct (decide (k ∈ ks)); auto.
  - intros k Hk. destruct (Hb k Hk); auto.
  - auto.
Qed.

Lemma disk_ok_torn disk out n tail rs : Forall unreadable tail ->
  disk_ok (disk ++ (record_to_string <$> take n rs)) out -> disk_ok (torn_append n tail rs disk) out.
Proof.
  intros Ht. unfold disk_ok, torn_append. rewrite app_assoc, (replay_app _ tail), replay_unreadable by done. done.
Qed.

(** A compacted file. *)
Lemma compact_disk_ok instant_now ts w out : mem_ok w out ->
  let w' := (ShareWal.compact_inner true instant_now ts w).2 in
  disk_ok (ShareWal.file w') out /\ mem_ok w' out /\
  (forall k, is_Some (ShareWal.pending w !! k) -> e2 out k \/ both_pending (ShareWal.file w') w' k).
Proof.
  intros [Hm1 Hm2]. unfold ShareWal.compact_inner. cbn [snd].
  set (early := ShareWal.prune_completed_early instant_now (ShareWal.completed_early w)).
  assert (forall k, is_Some (early !! k) -> e2 out k) as Hearly.
  { intros k [t Ht]. apply Hm2. apply map_lookup_filter_Some in Ht as [Ht _]. by exists t. }
  cbn [ShareWal.file ShareWal.pending ShareWal.completed_early].
  set (lines := _ ++ _). unfold both_pending, disk_ok. cbn [ShareWal.pending].
  assert (let '(P, Q) := ShareWal.replay lines in
    (forall k, is_Some (ShareWal.pending w !! k) -> e2 out k \/ is_Some (P !! k)) /\ (forall k, k ∈ Q -> e2 out k)) as Hl.
  { subst lines. unfold ShareWal.replay. rewrite foldl_app.
    rewrite (replay_printed (fun p : key * Z => record Pending p.2 p.1)).
    rewrite (replay_printed (fun p : key * Z => record Completed ts p.1)).
    assert ((fun p : key * Z => record Pending p.2 p.1) <$> iterate (ShareWal.pending w)
      = (fun k => record Pending (default 0 (ShareWal.pending w !! k)) k) <$> (iterate (ShareWal.pending w)).*1) as ->.
    { rewrite <-list_fmap_compose. apply list_fmap_ext. intros i [k t] Hi. cbn.
      assert (ShareWal.pending w !! k = Some t) as ->; [|done].
      apply elem_of_map_to_list. rewrite <-iterate_perm. by eapply list_elem_of_lookup_2. }
    assert ((fun p : key * Z => record Completed ts p.1) <$> iterate early
      = (fun k => record Completed ((fun _ => ts) k) k) <$> (iterate early).*1) as ->.
    { by rewrite <-list_fmap_compose. }
    pose proof (apply_pendings (fun k => default 0 (ShareWal.pending w !! k)) (iterate (ShareWal.pending w)).*1 ∅ ∅) as Hp.
    destruct (foldl apply_record (∅, ∅) _) as [P S]. destruct Hp as (_ & HS & HP).
    pose proof (apply_completeds (fun _ => ts) (iterate early).*1 P S) as Hcp.
    destruct (foldl apply_record (P, S) _) as [P' S']. destruct Hcp as (Ha & Hb). split.
    - intros k Hk. destruct (decide (k ∈ (iterate early).*1)) as [Hin|Hin].
      + left. by apply Hearly, elem_of_iterate.
      + right. apply Ha; [done|]. destruct (HP k); [by apply elem_of_iterate|done|set_solver].
    - intros k Hk. destruct (Hb k Hk) as [Hin|Hin]; [set_solver|]. by apply Hearly, elem_of_iterate. }
  destruct (ShareWal.replay lines) as [P S]. destruct Hl as [Hl1 Hl2]. cbn [fst snd].
  split; [split|split; [split|]]; [|done|done|done|].
  - intros k Hk. destruct (Hm1 k Hk); auto.
  - intros k Hk. destruct (Hl1 k Hk); auto.
Qed.

(** A memory index after a durable batch. *)
Lemma mark_pending_mem now shares w w' out :
  ShareWal.mark_pending now ShareWal.Written shares w = (true, w') -> mem_ok w out ->
  ShareWal.file w' = ShareWal.file w ++ (record_to_string <$> (record Pending now <$> shares)) /\
  mem_ok w' out /\
  (forall k, is_Some (ShareWal.pending w !! k) \/ k ∈ shares -> e2 out k \/ is_Some (ShareWal.pending w' !! k)).
Proof.
  intros Hm [Hm1 Hm2]. unfold ShareWal.mark_pending in Hm.
  assert (ShareWal.append_records ShareWal.Written (record Pending now <$> shares) (ShareWal.file w)
    = (true, ShareWal.file w ++ (record_to_string <$> (record Pending now <$> shares)))) as Happ.
  { destruct shares; [by rewrite app_nil_r|done]. }
  rewrite Happ in Hm. cbn [negb] in Hm.
  pose proof (index_pendings now shares (ShareWal.pending w) (ShareWal.completed_early w) ∅
    (ShareWal.completed_early w) ltac:(done)) as Hi.
  destruct (foldl _ _ _) as [P' E']. destruct Hi as (Ha & Hb & Hc). injection Hm as <-.
  split; [done|]. unfold mem_ok. cbn [ShareWal.pending ShareWal.completed_early]. split; [split|].
  - intros k Hk. destruct (Hm1 k Hk); auto.
  - auto.
  - intros k [Hk|Hk]; [auto|]. destruct (Hc k Hk); auto.
Qed.

Lemma mark_completed_mem now arrived instant_now ts compact_ok shares w ok w' out :
  ShareWal.mark_completed now arrived instant_now ts ShareWal.Written compact_ok shares w = (ok, w') ->
  mem_ok w out -> disk_ok (ShareWal.file w) out -> (forall k, k ∈ shares -> e2 out k) ->
  disk_ok (ShareWal.file w') out /\ mem_ok w' out /\
  (forall k, both_pending (ShareWal.file w) w k -> k ∉ shares -> e2 out k \/ both_pending (ShareWal.file w') w' k).
Proof.
  intros Hm [Hm1 Hm2] Hd Hs. unfold ShareWal.mark_completed in Hm.
  assert (ShareWal.append_records ShareWal.Written (record Completed now <$> shares) (ShareWal.file w)
    = (true, ShareWal.file w ++ (record_to_string <$> (record Completed now <$> shares)))) as Happ.
  { destruct shares; [by rewrite app_nil_r|done]. }
  rewrite Happ in Hm. cbn [negb] in Hm.
  destruct (disk_ok_completed _ _ now shares Hd Hs) as [Hd' Hkeep].
  pose proof (complete_all arrived shares (ShareWal.pending w) (ShareWal.completed_early w)) as Hc.
  destruct (foldl _ _ _) as [P' E']. destruct Hc as (Ha & Hb).
  set (w1 := ShareWal.mk (ShareWal.file w ++ (record_to_string <$> (record Completed now <$> shares))) P' _ _ E') in Hm.
  assert (mem_ok w1 out) as Hw1.
  { split; cbn.
    - intros k Hk. destruct (Hm1 k Hk); [by left|]. destruct (decide (k ∈ shares)); auto.
    - intros k Hk. destruct (Hb k Hk); auto. }
  assert (forall k, both_pending (ShareWal.file w) w k -> k ∉ shares ->
    both_pending (ShareWal.file w1) w1 k) as Hboth.
  { intros k [Hk1 Hk2] Hk. split; [by apply Hkeep|by apply Ha]. }
  destruct (_ && _).
  - destruct compact_ok.
    + destruct (compact_disk_ok instant_now ts w1 out Hw1) as (Hx & Hy & Hz).
      rewrite (surjective_pairing (ShareWal.compact_inner _ _ _ _)) in Hm. injection Hm as _ <-.
      split_and!; [done..|]. intros k Hk Hn. apply Hz. by apply Hboth.
    + injection Hm as <- <-. destruct Hw1 as [Hw1 Hw2]. split; [done|]. split; [split; [done|]|].
      * intros k [t Ht]. apply Hw2. apply map_lookup_filter_Some in Ht as [Ht _]. by exists t.
      * intros k Hk Hn. right. by apply Hboth.
  - injection Hm as <- <-. split_and!; [done..|]. intros k Hk Hn. right. by apply Hboth.
Qed.

Lemma e1_emit2 out e k : e1 (out ++ [Event2 e]) k -> e1 out k.
Proof. intros [Hk|(e' & He & _)]%e1_snoc; [done|discriminate]. Qed.

Lemma emit2_ok disk out e : disk_ok disk out -> disk_ok disk (out ++ [Event2 e]).
Proof.
  intros [Hd1 Hd2]. split.
  - intros k Hk%e1_emit2. destruct (Hd1 k Hk); [left; by apply e2_mono|by right].
  - intros k Hk. by apply e2_mono, Hd2.
Qed.

Lemma emit1_ok disk out e : disk_ok disk out ->
  (is_accepted e = true -> e2 out (accepted_key e) \/ is_Some ((ShareWal.replay disk).1 !! accepted_key e)) ->
  disk_ok disk (out ++ [Event1 e]).
Proof.
  intros [Hd1 Hd2] He. split.
  - intros k [Hk|(e' & [= <-] & Ha & <-)]%e1_snoc.
    + destruct (Hd1 k Hk); [left; by apply e2_mono|by right].
    + destruct (He Ha); [left; by apply e2_mono|by right].
  - intros k Hk. by apply e2_mono, Hd2.
Qed.

(** The batches themselves. *)
Lemma emits2_ok env results : forall (D B : key -> Prop) todo,
  todo_ok (fun k => D k \/ k ∈ result_key <$> results) B todo ->
  todo_ok D B ((EmitLine <$> ((fun r => Event2 (forward_event env r)) <$> results)) ++ todo).
Proof.
  induction results as [|r results IH]; intros D B todo Ht; cbn.
  - eapply todo_ok_mono; [| |exact Ht]; [intros k [?|?]; [done|set_solver]|auto].
  - apply IH. eapply todo_ok_mono; [| |exact Ht]; [|auto]. intros k [?|[->|?]%elem_of_cons]; auto.
Qed.

Lemma emits1_ok (es : list ShareAcceptedEvent.t) (D B : key -> Prop) todo :
  (forall e, e ∈ es -> is_accepted e = true -> D (accepted_key e) \/ B (accepted_key e)) ->
  todo_ok D B todo -> todo_ok D B ((EmitLine <$> (Event1 <$> es)) ++ todo).
Proof.
  induction es as [|e es IH]; intros He Ht; [done|]. cbn. split; [apply He; by left|].
  apply IH; [|done]. intros e' Hin. apply He. by right.
Qed.

Lemma accepted_effects_ok D B events : todo_ok D B (accepted_effects events).
Proof.
  unfold accepted_effects. apply emits1_ok.
  { intros e He Ha. apply list_elem_of_filter in He as [He _]. congruence. }
  destruct (accepted_key <$> accepted_of events) as [|k ks] eqn:Hk.
  - apply fmap_nil_inv in Hk. by rewrite Hk.
  - cbn [app todo_ok]. rewrite <-Hk, <-(app_nil_r (EmitLine <$> _)). apply emits1_ok; [|done].
    intros e He _. right. right. by apply list_elem_of_fmap_2.
Qed.

Lemma boot_step_ok instant_now ts ok disk torn torn' out w w' :
  system_ok (System.mk disk torn out (Booting w [])) ->
  ShareWal.finish_recovery ok instant_now ts w = (ok, w') ->
  system_ok (System.mk (if ok then ShareWal.file w' else disk) torn' out (Running w' [])).
Proof.
  intros ([Hd1 Hd2] & Hf & Hp & He & Hall) Hfin. cbn [System.disk System.out] in *.
  assert (mem_ok w out) as Hmem.
  { split; [|intros k [t Ht]; by rewrite He, lookup_empty in Ht]. intros k Hk. left.
    destruct (Hd1 k Hk) as [|Hpk]; [done|]. destruct (Hall k Hpk) as [|Hin]; [done|set_solver]. }
  unfold ShareWal.finish_recovery in Hfin. destruct ok.
  - destruct (compact_disk_ok instant_now ts w out Hmem) as (Hx & Hy & _). rewrite Hfin in Hx, Hy. by split_and!.
  - injection Hfin as <-. split; [by split|]. split_and!; [done| |done]. destruct Hmem as [Hm1 Hm2].
    split; [done|]. intros k [t Ht]. apply Hm2. apply map_lookup_filter_Some in Ht as [Ht _]. by exists t.
Qed.

Lemma emit_step_ok disk torn out w l todo :
  system_ok (System.mk disk torn out (Running w (EmitLine l :: todo))) ->
  system_ok (System.mk disk torn (out ++ [l]) (Running w todo)).
Proof.
  intros (Hd & Hf & [Hm1 Hm2] & Ht). unfold system_ok. cbn [System.disk System.out System.at_phase] in *.
  destruct l as [e|e]; cbn [todo_ok] in Ht.
  - destruct Ht as [He Ht]. split; [|split; [done|split; [split|]]].
    + apply emit1_ok; [done|]. intros Ha. destruct (He Ha) as [?|[??]]; auto.
    + intros k [Hk|(e' & [= <-] & Ha & <-)]%e1_snoc.
      * destruct (Hm1 k Hk); [left; by apply e2_mono|by right].
      * destruct (He Ha) as [?|[??]]; [left; by apply e2_mono|by right].
    + intros k Hk. by apply e2_mono, Hm2.
    + eapply todo_ok_mono; [| |exact Ht]; [intros k; apply e2_mono|by right].
  - split; [by apply emit2_ok|split; [done|split; [split|]]].
    + intros k Hk%e1_emit2. destruct (Hm1 k Hk); [left; by apply e2_mono|by right].
    + intros k Hk. by apply e2_mono, Hm2.
    + eapply todo_ok_mono; [| |exact Ht]; [|by right]. intros k [Hk| ->]; [by apply e2_mono|].
      exists e. set_solver.
Qed.

Lemma with_same_file w : with_file (ShareWal.file w) w = w.
Proof. by destruct w. Qed.

Lemma completed_file now arrived instant_now ts compact_ok shares w ok w' :
  ShareWal.mark_completed now arrived instant_now ts ShareWal.Written compact_ok shares w = (ok, w') ->
  compacts shares w && compact_ok = false ->
  ShareWal.file w' = ShareWal.file w ++ (record_to_string <$> (record Completed now <$> shares)).
Proof.
  unfold ShareWal.mark_completed, compacts. intros Hm Hc.
  assert (ShareWal.append_records ShareWal.Written (record Completed now <$> shares) (ShareWal.file w)
    = (true, ShareWal.file w ++ (record_to_string <$> (record Completed now <$> shares)))) as Happ.
  { destruct shares; [by rewrite app_nil_r|done]. }
  rewrite Happ in Hm. cbn [negb] in Hm. destruct (foldl _ _ _) as [P' E'].
  cbn [ShareWal.compaction_threshold] in Hm. unfold lenZ in *. rewrite length_fmap in Hm.
  destruct (_ && _) in Hm, Hc; [|by injection Hm as <- <-]. destruct compact_ok; [done|]. by injection Hm as <- <-.
Qed.

Lemma running_whole disk torn out w todo : ~ on_fragment (System.mk disk torn out (Running w todo)) -> torn = false.
Proof. destruct torn; [|done]. intros Hn. by destruct Hn. Qed.

Lemma acc_step_ok s s' : acc_step s s' -> ~ on_fragment s -> system_ok s -> system_ok s'.
Proof.
  destruct 1 as [now threshold disk torn out events w Hrec|disk torn out w e todo|? ? ? ? ? ? ? Hfin|
    ? ? ? ? ? ? ? Hfin|events disk torn out w|env results disk torn out w| |now disk torn out w w' shares todo Hm|
    now arrived instant_now ts compact_ok disk torn out w ok w' shares todo Hm|disk torn out p|
    now n tail torn' disk torn out w shares todo Htail|now n tail torn' disk torn out w shares todo Htail];
    intros Hwhole Hok.
  - destruct Hok as [Hd _]. split; [done|]. cbn [System.disk System.out System.at_phase].
    pose proof (recover_keys now (ShareWal.open disk threshold)) as Hk. rewrite Hrec in Hk. cbn [fst] in Hk.
    injection Hrec as _ <-. split_and!; [done..|]. intros k Hk'. right. rewrite Hk. by apply elem_of_iterate.
  - destruct Hok as (Hd & Hf & Hp & He & Hall). split; [by apply emit2_ok|].
    cbn [System.disk System.out System.at_phase] in *. split_and!; [done..|]. intros k Hk.
    destruct (Hall k Hk) as [Hx|Hx]; [left; by apply e2_mono|].
    rewrite fmap_cons in Hx. apply elem_of_cons in Hx as [->|Hx]; [left; exists e; set_solver|by right].
  - exact (boot_step_ok _ _ true _ _ _ _ _ _ Hok Hfin).
  - exact (boot_step_ok _ _ false _ _ _ _ _ _ Hok Hfin).
  - destruct Hok as (Hd & Hf & Hm & _). split; [done|split; [done|split; [done|]]]. apply accepted_effects_ok.
  - destruct Hok as (Hd & Hf & Hm & _). split; [done|split; [done|split; [done|]]].
    apply emits2_ok. cbn. split; [|done]. by right.
  - by apply emit_step_ok.
  - destruct Hok as (Hd & Hf & Hmem & Ht). cbn [System.disk System.out System.at_phase todo_ok] in *.
    apply running_whole in Hwhole as ->.
    destruct (mark_pending_mem _ _ _ _ _ Hm Hmem) as (Hf' & Hmem' & Hp'). rewrite Hf in Hf'.
    assert (disk' = ShareWal.file w') as -> by (by rewrite Hf').
    rewrite with_same_file, Hf'.
    destruct (disk_ok_pending disk out now shares Hd) as [Hd' Hpd].
    split; [done|split; [done|split; [done|]]]. cbn. eapply todo_ok_mono; [| |exact Ht]; [done|].
    intros k Hk. assert (is_Some ((ShareWal.replay disk).1 !! k) \/ k ∈ shares) as Hk1 by (destruct Hk as [[??]|?]; auto).
    assert (is_Some (ShareWal.pending w !! k) \/ k ∈ shares) as Hk2 by (destruct Hk as [[??]|?]; auto).
    destruct (Hpd k Hk1); [by left|]. destruct (Hp' k Hk2); [by left|]. right. by split.
  - destruct Hok as (Hd & Hf & Hmem & Hks & Ht). cbn [System.disk System.out System.at_phase] in *.
    apply running_whole in Hwhole as ->. subst disk.
    assert (disk' = ShareWal.file w') as -> by (subst disk'; destruct rewritten eqn:Hc; [done|]; symmetry; by eapply completed_file).
    rewrite with_same_file. destruct (mark_completed_mem _ _ _ _ _ _ _ _ _ _ Hm Hmem Hd Hks) as (Hd' & Hmem' & Hb).
    destruct ok; split; [done| |done|done]. split; [done|split; [done|]]. cbn.
    eapply todo_ok_mono; [| |exact Ht]; [done|]. intros k [Hk Hn]. by apply Hb.
  - by destruct Hok.
  - destruct Hok as (Hd & _). split; [|done]. apply running_whole in Hwhole as ->. apply disk_ok_torn; [done|]. cbn [System.disk System.out] in *.
    rewrite <-fmap_take. by apply disk_ok_pending.
  - destruct Hok as (Hd & _ & _ & Hks & _). split; [|done]. apply running_whole in Hwhole as ->. apply disk_ok_torn; [done|].
    cbn [System.disk System.out] in *. rewrite <-fmap_take. apply disk_ok_completed; [done|].
    intros k Hk. apply Hks. apply elem_of_take in Hk as (i & Hi & _). by eapply list_elem_of_lookup_2.
Qed.

(** C4 Event 2 is delivered at least once. Take the gateway over any number of batches, crashes at
    any point (in the middle of a batch, of a write, of the start-up), failed compactions and
    restarts, as long as no process runs on a log whose last line a crash left without its newline,
    which takes a start whose compaction failed on such a log ([fragment_run_loses_result] is what
    happens then). At any moment, every share whose accepted line is out either has its forward result
    line out, or a start from the file as it is then prints one. *)
Theorem event2_at_least_once s k now threshold :
  rtc whole_step fresh_system s -> e1 (System.out s) k ->
  e2 (System.out s) k \/
  exists e, e ∈ (ShareWal.recover now (ShareWal.open (System.disk s) threshold)).1 /\ event_key e = k /\
    ShareForwardResultEvent.reason_code e = Some "process_crash_recovery"%string.
Proof.
  intros Hr Hk. assert (system_ok s) as [[Hd _] _].
  { assert (forall a b, rtc whole_step a b -> ~ on_fragment a -> system_ok a -> system_ok b) as Hgen
      by (induction 1 as [|? ? ? [??]]; eauto using acc_step_ok).
    apply (Hgen _ _ Hr); [by intros [??]|]. split; [|done]. split; [|done]. intros j (e & He & _). set_solver. }
  destruct (Hd k Hk) as [|Hp]; [by left|right].
  pose proof (recover_keys now (ShareWal.open (System.disk s) threshold)) as Hkeys.
  assert (k ∈ event_key <$> (ShareWal.recover now (ShareWal.open (System.disk s) threshold)).1) as Hin
    by (rewrite Hkeys; by apply elem_of_iterate).
  apply list_elem_of_fmap in Hin as (e & -> & He).
  exists e. split_and!; [done|done|]. cbn [ShareWal.recover fst] in He.
  by apply list_elem_of_fmap in He as (p & -> & _).
Qed.

(** ** The functions perform the effects in this order *)

Lemma emit_steps disk torn w lines : forall out todo,
  rtc acc_step (System.mk disk torn out (Running w ((EmitLine <$> lines) ++ todo)))
    (System.mk disk torn (out ++ lines) (Running w todo)).
Proof.
  induction lines as [|l lines IH]; intros out todo; [by rewrite app_nil_r|].
  rewrite (cons_middle l out lines), app_assoc. eapply rtc_l; [apply acc_emit|]. apply IH.
Qed.

Lemma mark_pending_written now shares w : exists w',
  ShareWal.mark_pending now ShareWal.Written shares w = (true, w') /\
  ShareWal.file w' = ShareWal.file w ++ (record_to_string <$> (record Pending now <$> shares)).
Proof.
  unfold ShareWal.mark_pending. destruct shares as [|k shares]; cbn [ShareWal.append_records].
  - eexists. split; [reflexivity|]. cbn. by rewrite app_nil_r.
  - cbn [fmap list_fmap ShareWal.append_records negb]. destruct (foldl _ _ _) as [P E]. by eexists.
Qed.

(** [record_accepted] and [record_forwarded] with a log that can be written are runs of the
    crash model: from a gateway between two batches, on a whole file, they print the batch's lines, write its records
    and end between two batches again, with the log they return. *)
Theorem recording_refines_steps env w out :
  CallEnv.run env = PoolRan -> CallEnv.write env = ShareWal.Written -> CallEnv.compact_ok env = true ->
  (forall queued first,
     let b := record_accepted env queued first (Some (SharedWal.mk w false)) in
     exists w', Batch.recorded b = Ok tt /\ Batch.wal b = Some (SharedWal.mk w' false) /\
       rtc acc_step (System.mk (ShareWal.file w) false out (Running w []))
         (System.mk (ShareWal.file w') false (out ++ Batch.lines b) (Running w' []))) /\
  (forall queued first,
     let b := record_forwarded env queued first (Some (SharedWal.mk w false)) in
     exists w', Batch.recorded b = Ok tt /\ Batch.wal b = Some (SharedWal.mk w' false) /\
       rtc acc_step (System.mk (ShareWal.file w) false out (Running w []))
         (System.mk (ShareWal.file w') false (out ++ Batch.lines b) (Running w' []))).
Proof.
  intros Hrun Hwrite Hcomp. split; intros queued first; cbv zeta.
  - unfold record_accepted. cbn [take_queued].
    set (events := first :: take (WAL_BATCH_MAX - 1) queued). unfold with_wal. rewrite Hrun, Hwrite.
    destruct (accepted_key <$> accepted_of events) as [|k ks] eqn:Hk.
    + exists w. split; [done|]. split; [done|]. apply fmap_nil_inv in Hk as Hnil.
      eapply rtc_l; [apply (acc_accepted events)|]. unfold accepted_effects. rewrite Hk, Hnil.
      cbn [app fmap list_fmap Batch.lines]. rewrite app_nil_r.
      pose proof (emit_steps (ShareWal.file w) false w (Event1 <$> rejected_of events) out []) as He.
      by rewrite !app_nil_r in *.
    + cbn [SharedWal.poisoned SharedWal.wal].
      destruct (mark_pending_written (CallEnv.now env) (k :: ks) w) as (w' & Hm & Hf). rewrite Hm.
      exists w'. split; [done|]. split; [done|]. cbn [Batch.lines].
      eapply rtc_l; [apply (acc_accepted events)|]. unfold accepted_effects. rewrite Hk.
      etrans; [apply emit_steps|]. cbn [app].
      eapply rtc_l; [eapply acc_pending, Hm|]. cbn [append_to still_torn]. rewrite <-Hf, with_same_file.
      pose proof (emit_steps (ShareWal.file w') false w' (Event1 <$> accepted_of events)
        (out ++ (Event1 <$> rejected_of events)) []) as He.
      by rewrite app_nil_r, <-app_assoc in He.
  - unfold record_forwarded. cbn [take_queued].
    set (results := first :: take (WAL_BATCH_MAX - 1) queued). unfold with_wal. rewrite Hrun, Hwrite, Hcomp.
    cbn [SharedWal.poisoned SharedWal.wal].
    destruct (ShareWal.mark_completed _ _ _ _ _ _ _ _) as [ok w'] eqn:Hm.
    assert (ok = true) as ->.
    { unfold ShareWal.mark_completed in Hm. destruct (foldl _ _ _) as [P E].
      cbn [results fmap list_fmap ShareWal.append_records negb] in Hm.
      destruct (_ && _); [by injection Hm|by injection Hm]. }
    exists w'. split; [done|]. split; [done|]. cbn [Batch.lines].
    eapply rtc_l; [apply (acc_forwarded env results)|]. etrans; [apply emit_steps|].
    eapply rtc_l; [eapply acc_completed, Hm|]. cbv zeta.
    assert ((if compacts (result_key <$> results) w && true then ShareWal.file w'
      else append_to false (ShareWal.file w)
        (record_to_string <$> (record Completed (CallEnv.now env) <$> (result_key <$> results)))) = ShareWal.file w')
      as -> by (destruct (compacts _ w && true) eqn:Hc; [done|]; symmetry; by eapply completed_file).
    rewrite with_same_file. cbn [results fmap list_fmap still_torn]. rewrite andb_false_r. apply rtc_refl.
Qed.

(** ** The drain *)

(** Whatever arrives and whatever fails, the drain is over with the first pass that starts at or
    after its deadline. *)
Theorem drain_ends_at_deadline deadline passes s :
  Exists (fun p => Pass.at_ns p >= deadline) passes -> is_Some (drain_on_stop deadline passes s).
Proof.
  intros Hex. revert s. induction passes as [|p passes IH]; intros s; [by inversion Hex|].
  cbn [drain_on_stop]. case_if; z_bool; [by eexists|].
  destruct (drain_events p s) as [[moved1 [u|e]] s1]; [|by eexists].
  destruct (drain_results p s1) as [[moved2 [u'|e]] s2]; [|by eexists].
  destruct (moved1 || moved2); [|by eexists]. apply IH.
  inversion Hex as [? ? Hp|? ? Hp]; subst; [lia|done].
Qed.

(** A call whose log write succeeds, and a pass before the deadline in which nothing arrives. *)
Definition env_ok (env : CallEnv.t) : Prop :=
  CallEnv.run env = PoolRan /\ CallEnv.write env = ShareWal.Written /\ CallEnv.compact_ok env = true.
Definition quiet_pass (deadline : Z) (p : Pass.t) : Prop :=
  Pass.at_ns p < deadline /\ Pass.more_events p = [] /\ Pass.more_results p = [] /\
  env_ok (Pass.accept_env p) /\ env_ok (Pass.forward_env p).
Definition wal_usable (w : option SharedWal.t) : Prop :=
  match w with Some w => SharedWal.poisoned w = false | None => True end.

Lemma record_accepted_usable env queued first wal : env_ok env -> wal_usable wal ->
  let b := record_accepted env queued first wal in
  Batch.recorded b = Ok tt /\ wal_usable (Batch.wal b) /\
  Batch.items b = first :: take (WAL_BATCH_MAX - 1) queued /\ Batch.queued b = drop (WAL_BATCH_MAX - 1) queued /\
  (forall e, e ∈ Batch.items b -> Event1 e ∈ Batch.lines b).
Proof.
  intros (Hr & Hw & _) Hu. unfold record_accepted. cbn [take_queued].
  set (events := first :: _).
  assert (forall e, e ∈ events -> Event1 e ∈ (Event1 <$> rejected_of events) ++ (Event1 <$> accepted_of events)) as Hin.
  { intros e He. apply elem_of_app. destruct (is_accepted e) eqn:Ha;
      [right|left]; apply list_elem_of_fmap_2, list_elem_of_filter; done. }
  unfold with_wal. rewrite Hr, Hw.
  destruct wal as [[w p]|]; [|done]. cbn [wal_usable SharedWal.poisoned] in Hu. subst p.
  destruct (accepted_key <$> accepted_of events) as [|k ks]; [done|]. cbn [SharedWal.poisoned SharedWal.wal].
  destruct (mark_pending_written (CallEnv.now env) (k :: ks) w) as (w' & -> & _). done.
Qed.

Lemma record_forwarded_usable env queued first wal : env_ok env -> wal_usable wal ->
  let b := record_forwarded env queued first wal in
  Batch.recorded b = Ok tt /\ wal_usable (Batch.wal b) /\
  Batch.items b = first :: take (WAL_BATCH_MAX - 1) queued /\ Batch.queued b = drop (WAL_BATCH_MAX - 1) queued /\
  (forall r, r ∈ Batch.items b -> e2 (Batch.lines b) (result_key r)).
Proof.
  intros (Hr & Hw & Hc) Hu. unfold record_forwarded. cbn [take_queued]. set (results := first :: _).
  assert (forall r, r ∈ results -> e2 ((fun r => Event2 (forward_event env r)) <$> results) (result_key r)) as Hin.
  { intros r Hin. exists (forward_event env r). split; [|done].
    exact (list_elem_of_fmap_2 (fun r => Event2 (forward_event env r)) _ _ Hin). }
  destruct wal as [[w p]|]; [|done]. cbn [wal_usable SharedWal.poisoned] in Hu. subst p.
  unfold with_wal. rewrite Hr, Hw, Hc. cbn [SharedWal.poisoned SharedWal.wal].
  destruct (ShareWal.mark_completed _ _ _ _ _ _ _ _) as [ok w'] eqn:Hm.
  assert (ok = true) as ->; [|done]. unfold ShareWal.mark_completed in Hm. destruct (foldl _ _ _) as [P E].
  cbn [results fmap list_fmap ShareWal.append_records negb] in Hm. by destruct (_ && _); injection Hm.
Qed.

Lemma drain_events_quiet deadline p s : quiet_pass deadline p -> wal_usable (DrainState.wal s) ->
  let '(moved, r, s') := drain_events p s in
  r = Ok tt /\ moved = negb (bool_decide (DrainState.events s = [])) /\ wal_usable (DrainState.wal s') /\
  DrainState.events s' = drop WAL_BATCH_MAX (DrainState.events s) /\
  DrainState.results s' = DrainState.results s /\
  DrainState.drained_events s' = DrainState.drained_events s + lenZ (take WAL_BATCH_MAX (DrainState.events s)) /\
  DrainState.drained_results s' = DrainState.drained_results s /\
  (exists new, DrainState.out s' = DrainState.out s ++ new /\
     forall e, e ∈ take WAL_BATCH_MAX (DrainState.events s) -> Event1 e ∈ new).
Proof.
  intros (_ & Hm & _ & He & _) Hu. unfold drain_events. rewrite Hm, app_nil_r.
  destruct (DrainState.events s) as [|first queued] eqn:Hev.
  { split_and!; try done. { unfold lenZ; cbn; lia. } exists []. split; [by rewrite app_nil_r|].
    intros e Hin. rewrite take_nil in Hin. by apply elem_of_nil in Hin. }
  destruct (record_accepted_usable _ queued first _ He Hu) as (Hr & Hw & Hi & Hq & Hl).
  cbn [DrainState.events DrainState.results DrainState.wal DrainState.out DrainState.drained_events
    DrainState.drained_results]. rewrite Hr. rewrite Hi in *.
  split_and!; [done|done|done|exact Hq|done|done|done|]. eexists. split; [done|]. exact Hl.
Qed.

Lemma drain_results_quiet deadline p s : quiet_pass deadline p -> wal_usable (DrainState.wal s) ->
  let '(moved, r, s') := drain_results p s in
  r = Ok tt /\ moved = negb (bool_decide (DrainState.results s = [])) /\ wal_usable (DrainState.wal s') /\
  DrainState.results s' = drop WAL_BATCH_MAX (DrainState.results s) /\
  DrainState.events s' = DrainState.events s /\
  DrainState.drained_results s' = DrainState.drained_results s + lenZ (take WAL_BATCH_MAX (DrainState.results s)) /\
  DrainState.drained_events s' = DrainState.drained_events s /\
  (exists new, DrainState.out s' = DrainState.out s ++ new /\
     forall r, r ∈ take WAL_BATCH_MAX (DrainState.results s) -> e2 new (result_key r)).
Proof.
  intros (_ & _ & Hm & _ & He) Hu. unfold drain_results. rewrite Hm, app_nil_r.
  destruct (DrainState.results s) as [|first queued] eqn:Hev.
  { split_and!; try done. { unfold lenZ; cbn; lia. } exists []. split; [by rewrite app_nil_r|].
    intros r Hr. rewrite take_nil in Hr. by apply elem_of_nil in Hr. }
  destruct (record_forwarded_usable _ queued first _ He Hu) as (Hr & Hw & Hi & Hq & Hl).
  cbn [DrainState.events DrainState.results DrainState.wal DrainState.out DrainState.drained_events
    DrainState.drained_results]. rewrite Hr. rewrite Hi in *.
  split_and!; [done|done|done|exact Hq|done|done|done|]. eexists. split; [done|]. exact Hl.
Qed.

Lemma length_drop_batch {A} (l : list A) n :
  (length l <= S n * WAL_BATCH_MAX)%nat -> (length (drop WAL_BATCH_MAX l) <= n * WAL_BATCH_MAX)%nat.
Proof. rewrite length_drop. lia. Qed.

Lemma drained_sum {A} (l : list A) a :
  a + lenZ (take WAL_BATCH_MAX l) + lenZ (drop WAL_BATCH_MAX l) = a + lenZ l.
Proof. rewrite <-(take_drop WAL_BATCH_MAX l) at 3. rewrite lenZ_app. lia. Qed.

(** One quiet pass takes a batch from each queue. *)
Lemma drain_pass deadline p passes s : quiet_pass deadline p -> wal_usable (DrainState.wal s) ->
  exists s' new,
    drain_on_stop deadline (p :: passes) s
    = (if bool_decide (DrainState.events s = [] /\ DrainState.results s = []) then Some (Ok tt, s')
       else drain_on_stop deadline passes s') /\
    wal_usable (DrainState.wal s') /\
    DrainState.events s' = drop WAL_BATCH_MAX (DrainState.events s) /\
    DrainState.results s' = drop WAL_BATCH_MAX (DrainState.results s) /\
    DrainState.drained_events s' = DrainState.drained_events s + lenZ (take WAL_BATCH_MAX (DrainState.events s)) /\
    DrainState.drained_results s' = DrainState.drained_results s + lenZ (take WAL_BATCH_MAX (DrainState.results s)) /\
    DrainState.out s' = DrainState.out s ++ new /\
    (forall e, e ∈ take WAL_BATCH_MAX (DrainState.events s) -> Event1 e ∈ new) /\
    (forall r, r ∈ take WAL_BATCH_MAX (DrainState.results s) -> e2 new (result_key r)).
Proof.
  intros Hp Hu. cbn [drain_on_stop].
  assert (Pass.at_ns p >=? deadline = false) as ->.
  { destruct Hp as [Ht _]. rewrite Z.geb_leb. by apply Z.leb_gt. }
  pose proof (drain_events_quiet deadline p s Hp Hu) as Hev.
  destruct (drain_events p s) as [[moved1 r1] s1].
  destruct Hev as (-> & -> & Hu1 & He1 & Hr1 & Hde1 & Hdr1 & new1 & Ho1 & Hl1).
  pose proof (drain_results_quiet deadline p s1 Hp Hu1) as Hre.
  destruct (drain_results p s1) as [[moved2 r2] s2].
  destruct Hre as (-> & -> & Hu2 & Hr2 & He2 & Hdr2 & Hde2 & new2 & Ho2 & Hl2).
  rewrite Hr1 in *. exists s2, (new1 ++ new2). split_and!.
  - repeat case_bool_decide; naive_solver.
  - done.
  - congruence.
  - done.
  - congruence.
  - congruence.
  - by rewrite Ho2, Ho1, app_assoc.
  - intros e He. apply elem_of_app. left. auto.
  - intros r Hr. destruct (Hl2 r Hr) as (e & Hin & Hk). exists e. set_solver.
Qed.

(** With a log that can be written, nothing new arriving and the deadline not passed, the drain
    empties both queues, in as many passes as the longer queue has batches and one more; every
    event and every result it took has its line out. *)
Theorem drain_empties deadline n passes s :
  Forall (quiet_pass deadline) passes -> (n < length passes)%nat -> wal_usable (DrainState.wal s) ->
  (length (DrainState.events s) <= n * WAL_BATCH_MAX)%nat ->
  (length (DrainState.results s) <= n * WAL_BATCH_MAX)%nat ->
  exists s' new, drain_on_stop deadline passes s = Some (Ok tt, s') /\
    DrainState.events s' = [] /\ DrainState.results s' = [] /\
    DrainState.drained_events s' = DrainState.drained_events s + lenZ (DrainState.events s) /\
    DrainState.drained_results s' = DrainState.drained_results s + lenZ (DrainState.results s) /\
    DrainState.out s' = DrainState.out s ++ new /\
    (forall e, e ∈ DrainState.events s -> Event1 e ∈ new) /\
    (forall r, r ∈ DrainState.results s -> e2 new (result_key r)).
Proof.
  revert passes s. induction n as [|n IH]; intros [|p passes] s Hq Hn Hu He Hr; cbn [length] in Hn; try lia;
    apply Forall_cons in Hq as [Hp Hq];
    destruct (drain_pass deadline p passes s Hp Hu) as (s' & new & -> & Hu' & He' & Hr' & Hde & Hdr & Ho & Hl1 & Hl2);
    (case_bool_decide as Hnil;
     [destruct Hnil as [He0 Hr0]; rewrite He0, Hr0, ?take_nil, ?drop_nil in *; exists s', new; by split_and!|]).
  - destruct Hnil. split; apply length_zero_iff_nil; lia.
  - destruct (IH passes s' Hq) as (s2 & new2 & -> & ? & ? & Hde2 & Hdr2 & Ho2 & Hm1 & Hm2);
      [lia|done|rewrite He'; by apply length_drop_batch|rewrite Hr'; by apply length_drop_batch|].
    exists s2, (new ++ new2). split_and!; [done|done|done| | | | |].
    + by rewrite Hde2, Hde, He', drained_sum.
    + by rewrite Hdr2, Hdr, Hr', drained_sum.
    + by rewrite Ho2, Ho, app_assoc.
    + intros e. rewrite <-(take_drop WAL_BATCH_MAX (DrainState.events s)), <-He'.
      intros [Hin|Hin]%elem_of_app; apply elem_of_app; auto.
    + intros r. rewrite <-(take_drop WAL_BATCH_MAX (DrainState.results s)), <-Hr'.
      intros [Hin|Hin]%elem_of_app; [by apply e2_mono, Hl2|].
      destruct (Hm2 r Hin) as (e & Hine & Hk). exists e. set_solver.
Qed.

(** ** A torn line that is not compacted away

    The start-up goes on when its compaction fails, and the log is then appended to as it is. If the
    last process left a line without its newline, the next record lands on that line. *)

Lemma append_onto file fragment l ls : append_to true (file ++ [fragment]) (l :: ls) = file ++ (fragment +:+ l) :: ls.
Proof. unfold append_to. by rewrite last_snoc, removelast_last. Qed.

(** The first share accepted after such a start is lost to the next one: its record does not parse,
    so the next start prints no result for it. *)
Theorem fragment_loses_pending file fragment k ts now threshold :
  record_from_str (fragment +:+ record_to_string (record Pending ts k)) = None ->
  ShareWal.read_pending_index file !! k = None ->
  k ∉ event_key <$> (ShareWal.recover now (ShareWal.open
    (append_to true (file ++ [fragment]) [record_to_string (record Pending ts k)]) threshold)).1.
Proof.
  intros Hp Hk. rewrite append_onto, recover_keys, elem_of_iterate. cbn [ShareWal.open ShareWal.pending].
  unfold ShareWal.read_pending_index in *. rewrite replay_app.
  rewrite replay_unreadable by (constructor; [by right|constructor]). rewrite Hk. by intros [].
Qed.

(** A whole run of this: a crash in the first write leaves a piece of a line, the next start cannot
    compact and goes on, a share is accepted with its record on the end of that piece, and the
    process crashes. Its accepted line is out, its result is not, and no later start prints one. *)
Theorem fragment_run_loses_result fragment e ts :
  record_from_str fragment = None ->
  record_from_str (fragment +:+ record_to_string (record Pending ts (accepted_key e))) = None ->
  is_accepted e = true ->
  exists s, rtc acc_step fresh_system s /\ System.at_phase s = Down /\
    e1 (System.out s) (accepted_key e) /\ ~ e2 (System.out s) (accepted_key e) /\
    forall now threshold,
      (ShareWal.recover now (ShareWal.open (System.disk s) threshold)).1 = [].
Proof.
  intros Hfrag Hline Ha.
  assert (accepted_effects [e] = [MarkPending [accepted_key e]; EmitLine (Event1 e)]) as Heff.
  { unfold accepted_effects, rejected_of, accepted_of.
    rewrite !filter_cons, !filter_nil. repeat case_decide; congruence || done. }
  set (line := fragment +:+ record_to_string (record Pending ts (accepted_key e))).
  assert (forall l, record_from_str l = None -> ShareWal.replay [l] = (∅, ∅)) as Hempty.
  { intros l Hl. unfold ShareWal.replay. by rewrite replay_unreadable by (constructor; [by right|constructor]). }
  assert (forall l now threshold, record_from_str l = None ->
    (ShareWal.recover now (ShareWal.open [l] threshold)).1 = []) as Hnone.
  { intros l now threshold Hl. apply (fmap_nil_inv event_key). rewrite recover_keys.
    cbn [ShareWal.open ShareWal.pending]. unfold ShareWal.read_pending_index. rewrite Hempty by done.
    apply elem_of_nil_inv. intros k. rewrite elem_of_iterate. cbn. rewrite lookup_empty. by intros []. }
  assert (forall now threshold, (ShareWal.recover now (ShareWal.open [] threshold)).1 = []) as Hfresh.
  { intros now threshold. apply (fmap_nil_inv event_key). rewrite recover_keys.
    apply elem_of_nil_inv. intros k. rewrite elem_of_iterate. cbn. rewrite lookup_empty. by intros []. }
  exists (System.mk [line] false [Event1 e] Down). split_and!; [|done| | |intros; by apply Hnone].
  - eapply rtc_l; [by eapply (acc_start (fun _ => 0) 0), surjective_pairing|].
    rewrite Hfresh.
    eapply rtc_l; [eapply (acc_boot_uncompacted 0 0); reflexivity|].
    eapply rtc_l; [apply (acc_accepted [e])|]. rewrite Heff.
    eapply rtc_l; [apply (acc_crash_pending ts 0 [fragment] true); constructor; [by right|constructor]|].
    cbn [take fmap list_fmap app append_to last].
    eapply rtc_l; [by eapply (acc_start (fun _ => 0) 0), surjective_pairing|]. rewrite Hnone by done.
    eapply rtc_l; [eapply (acc_boot_uncompacted 0 0); reflexivity|].
    eapply rtc_l; [apply (acc_accepted [e])|]. rewrite Heff.
    match goal with |- rtc _ (System.mk _ _ _ (Running ?w _)) _ =>
      destruct (mark_pending_written ts [accepted_key e] w) as (w' & Hm & _) end.
    eapply rtc_l; [eapply acc_pending, Hm|].
    eapply rtc_l; [apply acc_emit|]. eapply rtc_l; [apply acc_crash|]. apply rtc_refl.
  - exists e. split_and!; [by left|done|done].
  - by intros (e' & [?|?%elem_of_nil]%elem_of_cons & _).
Qed.
End AccountingFacts.

(** Concrete arguments for the witnesses. *)
Module AccountingSample.
Import WalSample.

Definition accepted : ShareAcceptedEvent.t :=
  ShareAcceptedEvent.mk "share_accepted" "aa" "01" "success" None None "w" 1 0 1 100 0 1.

Definition env : CallEnv.t := CallEnv.mk PoolRan 5 6 7 8 ShareWal.Written true (fun _ => 9).

(** A gateway that started on an empty log. *)
Definition booted : ShareWal.t :=
  (ShareWal.finish_recovery true 0 0 (ShareWal.recover (fun _ => 0) (ShareWal.open [] 0)).2).2.

Lemma booted_reachable : rtc whole_step fresh_system (System.mk [] false [] (Running booted [])).
Proof.
  eapply rtc_l; [split; [eapply (acc_start (fun _ => 0) 0); reflexivity|by intros [??]]|].
  eapply rtc_l; [split; [eapply (acc_boot_done 0 0); reflexivity|by intros [??]]|]. apply rtc_refl.
Qed.

Definition after_accept : ShareWal.t := (ShareWal.mark_pending 5 ShareWal.Written [k1] booted).2.

(** It accepts a share and crashes before the result. *)
Lemma accepted_then_crash :
  rtc whole_step fresh_system (System.mk (ShareWal.file after_accept) false [Event1 accepted] Down).
Proof.
  etrans; [apply booted_reachable|].
  eapply rtc_l; [split; [apply (acc_accepted [accepted])|by intros [??]]|].
  eapply rtc_l; [split; [eapply (acc_pending 5); reflexivity|by intros [??]]|].
  eapply rtc_l; [split; [apply acc_emit|by intros [??]]|].
  eapply rtc_l; [split; [apply acc_crash|by intros [??]]|]. apply rtc_refl.
Qed.

Lemma event2_at_least_once_witness :
  e2 [Event1 accepted] k1 \/
  exists e, e ∈ (ShareWal.recover (fun _ => 10) (ShareWal.open (ShareWal.file after_accept) 0)).1 /\
    event_key e = k1 /\ ShareForwardResultEvent.reason_code e = Some "process_crash_recovery"%string.
Proof.
  apply (event2_at_least_once (System.mk (ShareWal.file after_accept) false [Event1 accepted] Down) k1
    (fun _ => 10) 0 accepted_then_crash).
  exists accepted. split_and!; [by left|done|done].
Defined.

Lemma fragment_run_loses_result_witness :
  exists s, rtc acc_step fresh_system s /\ e1 (System.out s) k1 /\ ~ e2 (System.out s) k1 /\
    (ShareWal.recover (fun _ => 0) (ShareWal.open (System.disk s) 0)).1 = [].
Proof.
  destruct (fragment_run_loses_result "0" accepted 5) as (s & Hr & _ & He1 & He2 & Hn); [by vm_compute..|].
  exists s. by split_and!.
Defined.

Lemma recording_refines_steps_witness :
  exists w', Batch.recorded (record_accepted env [] accepted (Some (SharedWal.mk booted false))) = Ok tt /\
    Batch.wal (record_accepted env [] accepted (Some (SharedWal.mk booted false))) = Some (SharedWal.mk w' false) /\
    rtc acc_step (System.mk (ShareWal.file booted) false [] (Running booted []))
      (System.mk (ShareWal.file w') false
         ([] ++ Batch.lines (record_accepted env [] accepted (Some (SharedWal.mk booted false)))) (Running w' [])).
Proof. exact (proj1 (recording_refines_steps env booted [] eq_refl eq_refl eq_refl) [] accepted). Defined.

Definition result : ShareForwardResult.t := ShareForwardResult.mk "aa" "01" true (Some true) (Some 200) None None.
Definition pass (t : Z) : Pass.t := Pass.mk t [] [] env env.
Definition stopping : DrainState.t := DrainState.mk [accepted] [result] (Some (SharedWal.mk booted false)) [] 0 0.

Lemma drain_ends_at_deadline_witness : is_Some (drain_on_stop 10 [pass 1; pass 12] stopping).
Proof. apply drain_ends_at_deadline. right. left. cbn. lia. Defined.

Lemma drain_empties_witness : exists s' new, drain_on_stop 10 [pass 1; pass 2] stopping = Some (Ok tt, s') /\
  DrainState.events s' = [] /\ DrainState.results s' = [] /\ e2 new k1.
Proof.
  destruct (drain_empties 10 1 [pass 1; pass 2] stopping) as (s' & new & Hd & He & Hr & _ & _ & _ & _ & Hn).
  - repeat constructor.
  - cbn. lia.
  - done.
  - unfold WAL_BATCH_MAX. cbn [length stopping DrainState.events]. lia.
  - unfold WAL_BATCH_MAX. cbn [length stopping DrainState.results]. lia.
  - exists s', new. split_and!; [done|done|done|]. apply (Hn result). by left.
Defined.
End AccountingSample.
