(* ===== verification/Limits.v ===== *)
(** * Limits, readiness and modes

    Models [services/reservegrid-common/src/rate_limit.rs] (the sliding-window limiter),
    [per_ip.rs] (connections per address), [mode.rs] (deployment modes), the connection limiter and
    peer state of [services/sv2-gateway/src/connection.rs], the readiness flags and probes of
    [services/sv2-gateway/src/health.rs] and the admission of connections in the accept loop of
    [services/sv2-gateway/src/main.rs].

    Addresses are any countable type. An [Instant] is a number of nanoseconds and
    [duration_since] saturates at zero. A lock that a panicking thread poisoned is a flag. The
    iteration order of a hash map is an argument. *)

From S2P Require Import Prelude Protocol Reason.

(** ** The rate limiter *)

(** The iteration order of a [HashMap] keyed by addresses. *)
Class IpOrder (Ip : Type) `{Countable Ip} : Type := {
  ips_iter {A} : gmap Ip A -> list (Ip * A);
  ips_iter_perm {A} (m : gmap Ip A) : ips_iter m ≡ₚ map_to_list m
}.

(** [prune_window]: the front entries that are a window old or older leave. *)
Fixpoint prune_window (window now : Z) (deque : list Z) : list Z :=
  match deque with
  | front :: rest => if saturating_sub now front >=? window then prune_window window now rest else deque
  | [] => []
  end.

Definition until_front_expires (deque : list Z) (now window : Z) : Z :=
  match deque with
  | [] => window
  | front :: _ => saturating_sub window (saturating_sub now front)
  end.

(** [min_by_key] on the times: the first of the least. *)
Fixpoint min_by_time {Ip} (l : list (Ip * Z)) : option (Ip * Z) :=
  match l with
  | [] => None
  | x :: l => match min_by_time l with
              | Some y => if x.2 <=? y.2 then Some x else Some y
              | None => Some x
              end
  end.

Module RateLimiter.
Record t (Ip : Type) `{Countable Ip} : Type := mk {
  max_tracked_ips : Z; global_ceiling : option Z; window : Z; poisoned : bool;
  ips : gmap Ip (list Z); global_timestamps : list Z }.
Arguments mk {Ip EqDecision0 H}. Arguments max_tracked_ips {Ip EqDecision0 H}.
Arguments global_ceiling {Ip EqDecision0 H}. Arguments window {Ip EqDecision0 H}.
Arguments poisoned {Ip EqDecision0 H}. Arguments ips {Ip EqDecision0 H}.
Arguments global_timestamps {Ip EqDecision0 H}.

Section Ops.
Context {Ip : Type} `{IpOrder Ip}.

Definition with_config (max_tracked_ips : Z) (global_ceiling : option Z) : t Ip :=
  mk max_tracked_ips global_ceiling (60 * 1000000000) false ∅ [].
Definition new : t Ip := with_config 10000 None.

Definition evict_oldest (ips : gmap Ip (list Z)) : gmap Ip (list Z) :=
  match min_by_time (omap (fun p : Ip * list Z => (fun t => (p.1, t)) <$> last p.2) (ips_iter ips)) with
  | Some (ip, _) => delete ip ips
  | None => ips
  end.

(** [admit] at the time [now]. *)
Definition admit_at (now : Z) (ip : Ip) (max_per_window : Z) (s : t Ip) : result unit Z * t Ip :=
  if poisoned s then (Err (window s), s)
  else
    let global :=
      match global_ceiling s with
      | Some _ => prune_window (window s) now (global_timestamps s)
      | None => global_timestamps s
      end in
    if match global_ceiling s with Some ceiling => lenZ global >=? ceiling | None => false end
    then (Err (until_front_expires global now (window s)),
          mk (max_tracked_ips s) (global_ceiling s) (window s) false (ips s) global)
    else
      let stamps := prune_window (window s) now (default [] (ips s !! ip)) in
      if lenZ stamps >=? max_per_window
      then (Err (until_front_expires stamps now (window s)),
            mk (max_tracked_ips s) (global_ceiling s) (window s) false (<[ip := stamps]> (ips s)) global)
      else
        let ips' := <[ip := stamps ++ [now]]> (ips s) in
        let global := match global_ceiling s with Some _ => global ++ [now] | None => global end in
        let ips' := if Z.of_nat (size ips') >? max_tracked_ips s then evict_oldest ips' else ips' in
        (Ok tt, mk (max_tracked_ips s) (global_ceiling s) (window s) false ips' global).

Definition check (now : Z) (ip : Ip) (max_per_window : Z) (s : t Ip) : bool * t Ip :=
  let '(r, s) := admit_at now ip max_per_window s in
  (match r with Ok _ => true | Err _ => false end, s).

Definition cleanup (now : Z) (s : t Ip) : t Ip :=
  if poisoned s then s
  else
    mk (max_tracked_ips s) (global_ceiling s) (window s) false
      (filter (fun p : Ip * list Z =>
         match last p.2 with Some t => saturating_sub now t <? window s * 2 | None => false end = true) (ips s))
      (prune_window (window s) now (global_timestamps s)).
End Ops.
End RateLimiter.

(** ** Connections per address *)

Module PerIp.
Record t (Ip : Type) `{Countable Ip} : Type := mk { max_per_ip : Z; poisoned : bool; counts : gmap Ip Z }.
Arguments mk {Ip EqDecision0 H}. Arguments max_per_ip {Ip EqDecision0 H}.
Arguments poisoned {Ip EqDecision0 H}. Arguments counts {Ip EqDecision0 H}.

Section Ops.
Context {Ip : Type} `{Countable Ip}.

Definition new (max_per_ip : Z) : t Ip := mk max_per_ip false ∅.
Definition is_disabled (s : t Ip) : bool := max_per_ip s =? 0.

(** [try_accept]: whether a permit is given. *)
Definition try_accept (ip : Ip) (s : t Ip) : bool * t Ip :=
  if max_per_ip s =? 0 then (true, s)
  else if poisoned s then (false, s)
  else
    let current := default 0 (counts s !! ip) in
    if current >=? max_per_ip s then (false, s)
    else (true, mk (max_per_ip s) false (<[ip := wrapping_add 32 current 1]> (counts s))).

(** [PerIpPermit::drop]. *)
Definition drop_permit (ip : Ip) (s : t Ip) : t Ip :=
  if poisoned s then s
  else
    match counts s !! ip with
    | Some count =>
        let count := saturating_sub count 1 in
        mk (max_per_ip s) false (if count =? 0 then delete ip (counts s) else <[ip := count]> (counts s))
    | None => s
    end.

Definition count_for (ip : Ip) (s : t Ip) : Z :=
  if poisoned s then 0 else default 0 (counts s !! ip).
End Ops.
End PerIp.

(** ** The connection limiter *)

Module ConnectionLimiter.
Record t : Type := mk { available_permits : Z; max : Z }.

Definition new (max_connections : Z) : t := mk max_connections max_connections.
Definition try_acquire (l : t) : option t :=
  if available_permits l >? 0 then Some (mk (available_permits l - 1) (max l)) else None.
(** A permit is dropped. *)
Definition release (l : t) : t := mk (available_permits l + 1) (max l).
Definition active_count (l : t) : Z := saturating_sub (max l) (available_permits l mod 2 ^ 32).
End ConnectionLimiter.

(** ** Peers *)

Module PeerState.
Record t : Type := mk {
  connected_at : Z; bytes_in : Z; bytes_out : Z; frames_decoded : Z; error_count : Z;
  last_frame_at : Z; disconnect_reason : option GatewayReason.t; open_channels : Z }.

Definition new (now : Z) : t := mk now 0 0 0 0 now None 0.

(** [fetch_add] wraps. *)
Definition record_bytes_in (n : Z) (p : t) : t :=
  mk (connected_at p) (wrapping_add 64 (bytes_in p) n) (bytes_out p) (frames_decoded p) (error_count p)
    (last_frame_at p) (disconnect_reason p) (open_channels p).
Definition record_bytes_out (n : Z) (p : t) : t :=
  mk (connected_at p) (bytes_in p) (wrapping_add 64 (bytes_out p) n) (frames_decoded p) (error_count p)
    (last_frame_at p) (disconnect_reason p) (open_channels p).
Definition record_frame_decoded (now : Z) (p : t) : t :=
  mk (connected_at p) (bytes_in p) (bytes_out p) (wrapping_add 64 (frames_decoded p) 1) (error_count p)
    now (disconnect_reason p) (open_channels p).
Definition record_error (p : t) : Z * t :=
  (wrapping_add 64 (error_count p) 1,
   mk (connected_at p) (bytes_in p) (bytes_out p) (frames_decoded p) (wrapping_add 64 (error_count p) 1)
     (last_frame_at p) (disconnect_reason p) (open_channels p)).
(** The first reason stays. *)
Definition set_disconnect_reason (reason : GatewayReason.t) (p : t) : t :=
  match disconnect_reason p with
  | Some _ => p
  | None => mk (connected_at p) (bytes_in p) (bytes_out p) (frames_decoded p) (error_count p)
              (last_frame_at p) (Some reason) (open_channels p)
  end.
Definition uptime (now : Z) (p : t) : Z := saturating_sub now (connected_at p).
Definition idle_duration (now : Z) (p : t) : Z := saturating_sub now (last_frame_at p).
End PeerState.

Module DisconnectEvent.
Record t : Type := mk {
  reason : GatewayReason.t; uptime_ms : Z; bytes_in : Z; bytes_out : Z; frames_decoded : Z; error_count : Z }.
Definition from_peer (now : Z) (p : PeerState.t) (reason : GatewayReason.t) : t :=
  mk reason (PeerState.uptime now p / 1000000 mod 2 ^ 64) (PeerState.bytes_in p) (PeerState.bytes_out p)
    (PeerState.frames_decoded p) (PeerState.error_count p).
End DisconnectEvent.

(** ** Readiness *)

Module Readiness.
Record t : Type := mk {
  verifier_connected : bool; policy_loaded : bool; upstream_reachable : bool; noise_cert_loaded : bool;
  listener_bound : bool; share_upstream_reachable : bool; draining : bool; degraded : bool }.

Definition new : t := mk false false false false false false false false.

Definition is_ready (requires_listener : bool) (s : t) : bool :=
  if draining s then false
  else
    let base := verifier_connected s && policy_loaded s && upstream_reachable s in
    if requires_listener then base && noise_cert_loaded s && listener_bound s else base.

Definition set_draining (s : t) : t :=
  mk (verifier_connected s) (policy_loaded s) (upstream_reachable s) (noise_cert_loaded s)
    (listener_bound s) (share_upstream_reachable s) true (degraded s).
Definition with_degraded (d : bool) (s : t) : t :=
  mk (verifier_connected s) (policy_loaded s) (upstream_reachable s) (noise_cert_loaded s)
    (listener_bound s) (share_upstream_reachable s) (draining s) d.
Definition set_degraded : t -> t := with_degraded true.
Definition clear_degraded : t -> t := with_degraded false.

(** Status code, [status], [reason_code], [degraded]. *)
Record response : Type := Response {
  code : Z; status : string; reason_code : option string; degraded_field : option bool }.

Definition readyz (s : t) : response :=
  if draining s then
    Response 503 "not_ready" (Some (GatewayReason.as_str GatewayReason.ShutdownDrain)) None
  else if is_ready true s || degraded s then
    Response 200 (if degraded s then "degraded" else "ok") None (Some (degraded s))
  else Response 503 "not_ready" (Some (GatewayReason.as_str GatewayReason.StartupPending)) None.

Definition readyz_shadow (s : t) : response :=
  if is_ready false s then Response 200 "ok" None None
  else if draining s then
    Response 503 "not_ready" (Some (GatewayReason.as_str GatewayReason.ShutdownDrain)) None
  else Response 503 "not_ready" (Some (GatewayReason.as_str GatewayReason.StartupPending)) None.
End Readiness.

(** ** Deployment modes *)

Module DeployMode.
Inductive t : Type := Shadow | Observe | Inline.

Definition as_str (m : t) : string :=
  match m with Shadow => "shadow" | Observe => "observe" | Inline => "inline" end.
Definition is_enforcing (m : t) : bool := match m with Inline => true | _ => false end.
Definition accepts_miners (m : t) : bool := match m with Inline => true | _ => false end.
Definition persist_verdicts (m : t) : bool := match m with Shadow => false | _ => true end.

Definition to_ascii_lower (c : Ascii.ascii) : Ascii.ascii :=
  let n := Ascii.N_of_ascii c in
  if ((65 <=? n) && (n <=? 90))%N then Ascii.ascii_of_N (n + 32) else c.
Fixpoint to_ascii_lowercase (s : string) : string :=
  match s with
  | String.EmptyString => String.EmptyString
  | String.String c s => String.String (to_ascii_lower c) (to_ascii_lowercase s)
  end.

Definition from_str (s : string) : result t string :=
  let l := to_ascii_lowercase s in
  if bool_decide (l = "shadow"%string) then Ok Shadow
  else if bool_decide (l = "observe"%string) then Ok Observe
  else if bool_decide (l = "inline"%string) then Ok Inline
  else Err s.

Definition mode_from_env (var : option string) (dflt : t) : result t string :=
  match var with Some v => from_str v | None => Ok dflt end.
End DeployMode.

(** ** Admission of connections *)

(** The accept loop: the per-address tracker, the limiter, the connections that hold permits (each
    with whether its handshake is done) and the gauge [connections_active]. *)
Module Admission.
Record conn (Ip : Type) : Type := Conn { id : nat; ip : Ip; handshaken : bool }.
Arguments Conn {Ip}. Arguments id {Ip}. Arguments ip {Ip}. Arguments handshaken {Ip}.

Record t (Ip : Type) `{Countable Ip} : Type := mk {
  tracker : PerIp.t Ip; limiter : ConnectionLimiter.t; live : list (conn Ip);
  connections_total : Z; connections_active : Z }.
Arguments mk {Ip EqDecision0 H}. Arguments tracker {Ip EqDecision0 H}.
Arguments limiter {Ip EqDecision0 H}. Arguments live {Ip EqDecision0 H}.
Arguments connections_total {Ip EqDecision0 H}. Arguments connections_active {Ip EqDecision0 H}.

Section Ops.
Context {Ip : Type} `{Countable Ip}.

Definition new (max_per_ip max_connections : Z) : t Ip :=
  mk (PerIp.new max_per_ip) (ConnectionLimiter.new max_connections) [] 0 0.

(** [listener.accept()] returned a connection: the address first, then the global limit; a
    connection over the limit gives its address permit back. *)
Definition accept (i : nat) (a : Ip) (s : t Ip) : t Ip :=
  let '(ok, tracker') := PerIp.try_accept a (tracker s) in
  if negb ok then mk tracker' (limiter s) (live s) (connections_total s) (connections_active s)
  else
    match ConnectionLimiter.try_acquire (limiter s) with
    | None => mk (PerIp.drop_permit a tracker') (limiter s) (live s) (connections_total s) (connections_active s)
    | Some limiter' =>
        mk tracker' limiter' (Conn i a false :: live s) (connections_total s + 1) (connections_active s + 1)
    end.

(** Connection [i] ends its handshake, or its task ends. Both permits go back with the task; the
    gauge goes down only after a session. *)
Definition handshake_done (i : nat) (s : t Ip) : t Ip :=
  mk (tracker s) (limiter s)
    ((fun c => if (id c =? i)%nat then Conn (id c) (ip c) true else c) <$> live s)
    (connections_total s) (connections_active s).

Definition task_ends (i : nat) (s : t Ip) : t Ip :=
  match head (filter (fun c => id c = i) (live s)) with
  | None => s
  | Some c =>
      mk (PerIp.drop_permit (ip c) (tracker s)) (ConnectionLimiter.release (limiter s))
        (filter (fun c => id c <> i) (live s)) (connections_total s)
        (if handshaken c then connections_active s - 1 else connections_active s)
  end.

Inductive step : t Ip -> t Ip -> Prop :=
| step_accept i a s : i ∉ id <$> live s -> step s (accept i a s)
| step_handshake i s : step s (handshake_done i s)
| step_end i s : step s (task_ends i s).
End Ops.
End Admission.

(** * Properties *)

(** ** The rate limiter *)

Definition window_expired (window now t : Z) : Prop := now - t >= window.

Lemma window_expired_mono window now now' t t' :
  now <= now' -> t' <= t -> window_expired window now t -> window_expired window now' t'.
Proof. unfold window_expired. lia. Qed.

Lemma prune_window_split window now ts : 0 < window -> exists old, ts = old ++ prune_window window now ts /\
  Forall (window_expired window now) old.
Proof.
  intros Hw. induction ts as [|t ts (old & IH & Ho)]; [by exists []|]. cbn [prune_window]. case_if; z_bool.
  - exists (t :: old). split; [cbn; by f_equal|]. constructor; [|done].
    unfold saturating_sub, window_expired in *. lia.
  - by exists [].
Qed.

Lemma prune_window_wait window now ts : 0 < window ->
  0 < until_front_expires (prune_window window now ts) now window <= window.
Proof.
  intros Hw. induction ts as [|t ts IH]; [cbn; lia|]. cbn [prune_window]. case_if; z_bool; [done|].
  cbn. unfold saturating_sub in *. lia.
Qed.

Section LimiterFacts.
Context {Ip : Type} `{IpOrder Ip}.
Implicit Types s : RateLimiter.t Ip.

(** A refusal tells the caller to wait for more than nothing and no longer than the window, and
    records nothing: no timestamp appears anywhere. *)
Theorem admit_refusal now (ip : Ip) max s wait s' :
  0 < RateLimiter.window s -> RateLimiter.admit_at now ip max s = (Err wait, s') ->
  0 < wait <= RateLimiter.window s /\
  (forall t, t ∈ RateLimiter.global_timestamps s' -> t ∈ RateLimiter.global_timestamps s) /\
  (forall i ts t, RateLimiter.ips s' !! i = Some ts -> t ∈ ts ->
     exists ts0, RateLimiter.ips s !! i = Some ts0 /\ t ∈ ts0).
Proof.
  intros Hw. unfold RateLimiter.admit_at.
  assert (forall g t, t ∈ prune_window (RateLimiter.window s) now g -> t ∈ g) as Hsub.
  { intros g t Ht. destruct (prune_window_split (RateLimiter.window s) now g Hw) as (old & -> & _). set_solver. }
  assert (forall t, t ∈ match RateLimiter.global_ceiling s with
    | Some _ => prune_window (RateLimiter.window s) now (RateLimiter.global_timestamps s)
    | None => RateLimiter.global_timestamps s end -> t ∈ RateLimiter.global_timestamps s) as Hg.
  { intros t. destruct (RateLimiter.global_ceiling s); [apply Hsub|done]. }
  case_if. { intros [= <- <-]. split_and!; [lia|lia|done|eauto]. }
  destruct (match RateLimiter.global_ceiling s with Some c => _ | None => false end) eqn:Hc.
  { intros [= <- <-]. split; [|split; [done|by eauto]].
    destruct (RateLimiter.global_ceiling s); [by apply prune_window_wait|done]. }
  case_if; [|done]. intros [= <- <-]. pose proof (prune_window_wait (RateLimiter.window s) now
    (default [] (RateLimiter.ips s !! ip)) Hw) as [Hw1 Hw2]. split_and!; [done|done|done|].
  intros i ts t. cbn [RateLimiter.ips]. rewrite lookup_insert. case_decide as Hi; [|eauto].
  subst i. intros [= <-] Ht%Hsub. destruct (RateLimiter.ips s !! ip) as [ts0|]; [by eauto|by apply elem_of_nil in Ht].
Qed.

(** ** Runs *)

Inductive limiter_op : Type := Admit (now : Z) (ip : Ip) (max_per_window : Z) | Cleanup (now : Z).

Definition op_time (o : limiter_op) : Z := match o with Admit now _ _ | Cleanup now => now end.

(** The requests a run admitted, oldest first. *)
Fixpoint admitted (ops : list limiter_op) (s : RateLimiter.t Ip) : list (Z * Ip) :=
  match ops with
  | [] => []
  | Cleanup now :: ops => admitted ops (RateLimiter.cleanup now s)
  | Admit now ip max :: ops =>
      match RateLimiter.admit_at now ip max s with
      | (Ok _, s) => (now, ip) :: admitted ops s
      | (Err _, s) => admitted ops s
      end
  end.

(** Times that do not run back. *)
Fixpoint ordered (clock : Z) (ops : list limiter_op) : Prop :=
  match ops with [] => True | o :: ops => clock <= op_time o /\ ordered (op_time o) ops end.

Definition in_order (ops : list limiter_op) : Prop :=
  match ops with [] => True | o :: _ => ordered (op_time o) ops end.

Definition same_config s s' : Prop :=
  RateLimiter.global_ceiling s' = RateLimiter.global_ceiling s /\
  RateLimiter.window s' = RateLimiter.window s /\
  RateLimiter.max_tracked_ips s' = RateLimiter.max_tracked_ips s.

Lemma admit_config now (ip : Ip) max s : same_config s (RateLimiter.admit_at now ip max s).2.
Proof. unfold RateLimiter.admit_at. repeat (case_match || case_if); done. Qed.

Lemma cleanup_config now s : same_config s (RateLimiter.cleanup now s).
Proof. unfold RateLimiter.cleanup. by case_if. Qed.

Lemma admit_global now ip max s c past :
  RateLimiter.global_ceiling s = Some c -> 0 < RateLimiter.window s ->
  window_inv (window_expired (RateLimiter.window s)) c now past (RateLimiter.global_timestamps s) ->
  let '(r, s') := RateLimiter.admit_at now ip max s in
  window_inv (window_expired (RateLimiter.window s)) c now
    (past ++ match r with Ok _ => [now] | Err _ => [] end) (RateLimiter.global_timestamps s').
Proof.
  intros Hc Hw Hinv. unfold RateLimiter.admit_at. rewrite Hc.
  case_if; [by rewrite app_nil_r|].
  destruct (prune_window_split (RateLimiter.window s) now (RateLimiter.global_timestamps s) Hw) as (old & Hs & Ho).
  rewrite Hs in Hinv. apply window_prune in Hinv; [|done].
  case_if; z_bool; [by rewrite app_nil_r|]. case_if; [by rewrite app_nil_r|]. by apply window_push.
Qed.

Lemma global_run ops : forall clock past s c,
  RateLimiter.global_ceiling s = Some c -> 0 < RateLimiter.window s -> ordered clock ops ->
  window_inv (window_expired (RateLimiter.window s)) c clock past (RateLimiter.global_timestamps s) ->
  spaced (window_expired (RateLimiter.window s)) c (past ++ (admitted ops s).*1).
Proof.
  induction ops as [|[now ip max|now] ops IH]; intros clock past s c Hc Hw Hord Hinv.
  { rewrite app_nil_r. by apply (wi_spaced _ _ _ _ _ Hinv). }
  - destruct Hord as [Hle Hord]. apply (window_later _ _ (window_expired_mono _) clock now) in Hinv; [|done].
    pose proof (admit_global now ip max s c past Hc Hw Hinv) as Hadm. cbn [admitted].
    destruct (admit_config now ip max s) as (Hc' & Hw' & _).
    destruct (RateLimiter.admit_at now ip max s) as [[u|e] s']; cbn [snd] in Hc', Hw'; rewrite <-Hw' in *.
    + rewrite fmap_cons, (cons_middle _ past), app_assoc. apply (IH now); congruence || done.
    + rewrite app_nil_r in Hadm. apply (IH now); congruence || done.
  - destruct Hord as [Hle Hord]. apply (window_later _ _ (window_expired_mono _) clock now) in Hinv; [|done].
    cbn [admitted]. destruct (cleanup_config now s) as (Hc' & Hw' & _). rewrite <-Hw'.
    apply (IH now); [congruence|congruence|done|]. rewrite Hw'. unfold RateLimiter.cleanup. case_if; [done|].
    cbn [RateLimiter.global_timestamps].
    destruct (prune_window_split (RateLimiter.window s) now (RateLimiter.global_timestamps s) Hw) as (old & Hs & Ho).
    rewrite Hs in Hinv. by apply window_prune in Hinv.
Qed.

(** The global ceiling holds across all addresses, evictions and clean-ups: among the requests a
    limiter with ceiling [c] admits, any [c + 1] in a row span at least the window. *)
Theorem global_ceiling_rate max_ips c ops i a b : in_order ops ->
  (admitted ops (RateLimiter.with_config max_ips (Some c))).*1 !! i = Some a ->
  (admitted ops (RateLimiter.with_config max_ips (Some c))).*1 !! (i + Z.to_nat c)%nat = Some b ->
  b - a >= 60 * 1000000000.
Proof.
  intros Hord Ha Hb. destruct ops as [|o ops]; [done|].
  pose proof (global_run (o :: ops) (op_time o) [] (RateLimiter.with_config max_ips (Some c)) c eq_refl ltac:(done)
    Hord (window_empty _ _ _)) as Hsp.
  exact (Hsp i a b Ha Hb).
Qed.

(** *** One address *)

Definition of_ip (k : Ip) (r : list (Z * Ip)) : list Z := (filter (fun p => p.2 = k) r).*1.

Definition tracked_within (S : gset Ip) s : Prop := dom (RateLimiter.ips s) ⊆ S.

Lemma no_eviction (S : gset Ip) s ip stamps :
  Z.of_nat (size S) <= RateLimiter.max_tracked_ips s -> tracked_within S s -> ip ∈ S ->
  (Z.of_nat (size (<[ip := stamps]> (RateLimiter.ips s))) >? RateLimiter.max_tracked_ips s) = false /\
  dom (<[ip := stamps]> (RateLimiter.ips s)) ⊆ S.
Proof.
  intros Hs Ht Hi. assert (dom (<[ip := stamps]> (RateLimiter.ips s)) ⊆ S) as Hd.
  { unfold tracked_within in Ht. rewrite dom_insert_L. set_solver. }
  split; [|done]. pose proof (subseteq_size _ _ Hd) as Hle. rewrite size_dom in Hle.
  rewrite Z.gtb_ltb. apply Z.ltb_ge. lia.
Qed.

Lemma admit_ip S now ip max s k past :
  0 < RateLimiter.window s -> Z.of_nat (size S) <= RateLimiter.max_tracked_ips s -> tracked_within S s -> ip ∈ S ->
  window_inv (window_expired (RateLimiter.window s)) max now past (default [] (RateLimiter.ips s !! k)) ->
  let '(r, s') := RateLimiter.admit_at now ip max s in
  tracked_within S s' /\
  (k = ip -> window_inv (window_expired (RateLimiter.window s)) max now
    (past ++ match r with Ok _ => [now] | Err _ => [] end) (default [] (RateLimiter.ips s' !! k))).
Proof.
  intros Hw Hs Ht Hi Hinv. unfold RateLimiter.admit_at.
  case_if; [split; [done|by rewrite app_nil_r]|]. case_if; [split; [done|by rewrite app_nil_r]|].
  set (stamps := prune_window _ now (default [] (RateLimiter.ips s !! ip))).
  destruct (no_eviction S s ip stamps Hs Ht Hi) as [_ Hd].
  case_if; z_bool.
  - split; [exact Hd|]. intros ->. cbn [RateLimiter.ips]. rewrite lookup_insert_eq, app_nil_r.
    destruct (prune_window_split (RateLimiter.window s) now (default [] (RateLimiter.ips s !! ip)) Hw) as (old & Hp & Ho).
    rewrite Hp in Hinv. by apply window_prune in Hinv.
  - destruct (no_eviction S s ip (stamps ++ [now]) Hs Ht Hi) as [-> Hd']. split; [exact Hd'|].
    intros ->. cbn [RateLimiter.ips]. rewrite lookup_insert_eq.
    destruct (prune_window_split (RateLimiter.window s) now (default [] (RateLimiter.ips s !! ip)) Hw) as (old & Hp & Ho).
    rewrite Hp in Hinv. apply window_prune in Hinv; [|done]. by apply window_push.
Qed.

(** A request from another address leaves the window of an address as it is. *)
Lemma admit_other S now ip max s k :
  Z.of_nat (size S) <= RateLimiter.max_tracked_ips s -> tracked_within S s -> ip ∈ S -> k <> ip ->
  let '(r, s') := RateLimiter.admit_at now ip max s in
  tracked_within S s' /\ RateLimiter.ips s' !! k = RateLimiter.ips s !! k.
Proof.
  intros Hs Ht Hi Hk. unfold RateLimiter.admit_at. case_if; [done|]. case_if; [done|].
  set (stamps := prune_window _ now _). destruct (no_eviction S s ip stamps Hs Ht Hi) as [_ Hd]. case_if.
  - split; [exact Hd|]. cbn. by rewrite lookup_insert_ne.
  - destruct (no_eviction S s ip (stamps ++ [now]) Hs Ht Hi) as [-> Hd']. split; [exact Hd'|].
    cbn. by rewrite lookup_insert_ne.
Qed.

Lemma cleanup_ip S now max s k past : 0 < RateLimiter.window s -> tracked_within S s ->
  window_inv (window_expired (RateLimiter.window s)) max now past (default [] (RateLimiter.ips s !! k)) ->
  tracked_within S (RateLimiter.cleanup now s) /\
  window_inv (window_expired (RateLimiter.window s)) max now past
    (default [] (RateLimiter.ips (RateLimiter.cleanup now s) !! k)).
Proof.
  intros Hw Ht Hinv. unfold RateLimiter.cleanup. case_if; [done|]. unfold tracked_within. cbn [RateLimiter.ips]. split.
  - unfold tracked_within in Ht. etrans; [|exact Ht]. apply dom_filter_subseteq.
  - set (P := fun p : Ip * list Z => _).
    destruct (filter P (RateLimiter.ips s) !! k) as [ts|] eqn:Hf.
    { apply map_lookup_filter_Some in Hf as [Hf _]. by rewrite Hf in Hinv. }
    destruct (RateLimiter.ips s !! k) as [ts|] eqn:Hk; [|done]. cbn [default] in *.
    apply map_lookup_filter_None in Hf as [Hf|Hf]; [congruence|]. specialize (Hf ts Hk). subst P. cbn in Hf.
    destruct (last ts) as [t|] eqn:Hl.
    + apply (window_clear _ _ (window_expired_mono _) now past ts t Hinv Hl).
      apply not_true_is_false, Z.ltb_ge in Hf. unfold saturating_sub, window_expired in *. lia.
    + apply last_None in Hl as ->. done.
Qed.

(** Every request is from an address of [S], those from [k] with the limit [max]. *)
Definition limited (S : gset Ip) (k : Ip) (max : Z) (o : limiter_op) : Prop :=
  match o with Admit _ ip m => ip ∈ S /\ (ip = k -> m = max) | Cleanup _ => True end.

Lemma ip_run S k max ops : forall clock past s,
  0 < RateLimiter.window s -> Z.of_nat (size S) <= RateLimiter.max_tracked_ips s -> tracked_within S s ->
  ordered clock ops -> Forall (limited S k max) ops ->
  window_inv (window_expired (RateLimiter.window s)) max clock past (default [] (RateLimiter.ips s !! k)) ->
  spaced (window_expired (RateLimiter.window s)) max (past ++ of_ip k (admitted ops s)).
Proof.
  induction ops as [|[now ip m|now] ops IH]; intros clock past s Hw Hs Ht Hord Hlim Hinv.
  { unfold of_ip. cbn. rewrite app_nil_r. by apply (wi_spaced _ _ _ _ _ Hinv). }
  - destruct Hord as [Hle Hord]. apply Forall_cons in Hlim as [[Hi Hm] Hlim].
    apply (window_later _ _ (window_expired_mono _) clock now) in Hinv; [|done].
    destruct (admit_config now ip m s) as (_ & Hw' & Hmax'). cbn [admitted]. destruct (decide (k = ip)) as [<-|Hk].
    + rewrite (Hm eq_refl) in *. pose proof (admit_ip S now k max s k past Hw Hs Ht Hi Hinv) as Hadm.
      destruct (RateLimiter.admit_at now k max s) as [[u|e] s']; cbn [snd] in Hw', Hmax'; rewrite <-Hw' in *;
        destruct Hadm as [Ht' Hinv']; specialize (Hinv' eq_refl).
      * unfold of_ip. rewrite filter_cons_True by done. rewrite fmap_cons, (cons_middle _ past), app_assoc.
        apply (IH now); congruence || done.
      * rewrite app_nil_r in Hinv'. apply (IH now); congruence || done.
    + pose proof (admit_other S now ip m s k Hs Ht Hi Hk) as Hadm.
      destruct (RateLimiter.admit_at now ip m s) as [[u|e] s']; cbn [snd] in Hw', Hmax'; rewrite <-Hw' in *;
        destruct Hadm as [Ht' Hk']; rewrite <-Hk' in Hinv.
      * unfold of_ip. rewrite filter_cons_False by (cbn; congruence). apply (IH now); congruence || done.
      * apply (IH now); congruence || done.
  - destruct Hord as [Hle Hord]. apply Forall_cons in Hlim as [_ Hlim].
    apply (window_later _ _ (window_expired_mono _) clock now) in Hinv; [|done].
    destruct (cleanup_config now s) as (_ & Hw' & Hmax'). cbn [admitted].
    destruct (cleanup_ip S now max s k past Hw Ht Hinv) as [Ht' Hinv']. rewrite <-Hw' in *.
    apply (IH now); congruence || done.
Qed.

(** The limit of one address: with no more addresses about than the limiter tracks, among the
    requests of an address that it admits under a limit [max], any [max + 1] in a row span at
    least the window, whatever the other addresses do. *)
Theorem per_ip_rate S k max max_ips ceiling ops i a b :
  Z.of_nat (size S) <= max_ips -> in_order ops -> Forall (limited S k max) ops ->
  of_ip k (admitted ops (RateLimiter.with_config max_ips ceiling)) !! i = Some a ->
  of_ip k (admitted ops (RateLimiter.with_config max_ips ceiling)) !! (i + Z.to_nat max)%nat = Some b ->
  b - a >= 60 * 1000000000.
Proof.
  intros Hs Hord Hlim Ha Hb. destruct ops as [|o ops]; [done|].
  assert (spaced (window_expired (60 * 1000000000)) max
    (of_ip k (admitted (o :: ops) (RateLimiter.with_config max_ips ceiling)))) as Hsp; [|exact (Hsp i a b Ha Hb)].
  apply (ip_run S k max (o :: ops) (op_time o) [] (RateLimiter.with_config max_ips ceiling)); try done.
  cbn. rewrite lookup_empty. apply window_empty.
Qed.

(** *** Memory *)

Lemma min_by_time_elem (l : list (Ip * Z)) p : min_by_time l = Some p -> p ∈ l.
Proof.
  revert p. induction l as [|x l IH]; intros p; [done|]. cbn. destruct (min_by_time l) as [y|].
  - case_if; intros [= <-]; [by left|right; auto].
  - intros [= <-]. by left.
Qed.

Lemma min_by_time_some (l : list (Ip * Z)) p : p ∈ l -> is_Some (min_by_time l).
Proof. destruct l as [|x l]; [by intros ?%elem_of_nil|]. intros _. cbn. destruct (min_by_time l); [case_if|]; by eexists. Qed.

(** The address just admitted has a time, so the eviction removes an address. *)
Lemma evict_oldest_size (m : gmap Ip (list Z)) ip ts t : m !! ip = Some (ts ++ [t]) ->
  size (RateLimiter.evict_oldest m) = pred (size m).
Proof.
  intros Hm. unfold RateLimiter.evict_oldest. set (l := omap _ _).
  assert ((ip, t) ∈ l) as Hin.
  { apply list_elem_of_omap. exists (ip, ts ++ [t]). split.
    - rewrite ips_iter_perm. by apply elem_of_map_to_list.
    - cbn. by rewrite last_snoc. }
  destruct (min_by_time_some l _ Hin) as [[ip' t'] Hmin]. rewrite Hmin.
  apply min_by_time_elem, list_elem_of_omap in Hmin as ([ip2 ts2] & Hin2 & Hl).
  rewrite ips_iter_perm in Hin2. apply elem_of_map_to_list in Hin2. cbn in Hl.
  destruct (last ts2); [|done]. injection Hl as -> _. rewrite map_size_delete, Hin2. done.
Qed.

(** The limiter tracks no more addresses than it is configured for, as long as no limit is zero:
    whatever addresses send requests. *)
Theorem tracked_ips_bounded ops s :
  0 <= RateLimiter.max_tracked_ips s ->
  Z.of_nat (size (RateLimiter.ips s)) <= RateLimiter.max_tracked_ips s ->
  Forall (fun o => match o with Admit _ _ m => 0 < m | Cleanup _ => True end) ops ->
  Z.of_nat (size (RateLimiter.ips (foldl (fun s o =>
    match o with Admit now ip m => (RateLimiter.admit_at now ip m s).2 | Cleanup now => RateLimiter.cleanup now s end)
    s ops))) <= RateLimiter.max_tracked_ips s.
Proof.
  revert s. induction ops as [|o ops IH]; intros s H0' Hs Hops; [done|].
  apply Forall_cons in Hops as [Ho Hops]. cbn [foldl].
  assert (forall s', RateLimiter.max_tracked_ips s' = RateLimiter.max_tracked_ips s ->
    Z.of_nat (size (RateLimiter.ips s')) <= RateLimiter.max_tracked_ips s ->
    Z.of_nat (size (RateLimiter.ips (foldl (fun s o =>
      match o with Admit now ip m => (RateLimiter.admit_at now ip m s).2 | Cleanup now => RateLimiter.cleanup now s end)
      s' ops))) <= RateLimiter.max_tracked_ips s) as Hgo.
  { intros s' Hm Hs'. rewrite <-Hm. apply IH; [lia|lia|done]. }
  destruct o as [now ip m|now].
  - apply Hgo; [apply admit_config|]. unfold RateLimiter.admit_at. case_if; [done|]. case_if; [done|].
    set (stamps := prune_window _ now _). case_if; z_bool; cbn [snd RateLimiter.ips].
    + rewrite map_size_insert. unfold stamps in *. destruct (RateLimiter.ips s !! ip); [done|].
      unfold lenZ in *; cbn in *; lia.
    + case_if; z_bool; [|done]. rewrite (evict_oldest_size _ ip stamps now) by apply lookup_insert_eq.
      rewrite map_size_insert in *. destruct (RateLimiter.ips s !! ip); cbn in *; lia.
  - apply Hgo; [apply cleanup_config|]. unfold RateLimiter.cleanup. case_if; [done|]. cbn [RateLimiter.ips].
    etrans; [|exact Hs]. apply Nat2Z.inj_le, map_subseteq_size, map_filter_subseteq.
Qed.
End LimiterFacts.

(** ** Connections *)

Section AdmissionFacts.
Context {Ip : Type} `{Countable Ip}.
Import Admission.
Implicit Types s : Admission.t Ip.

Definition live_from (a : Ip) (l : list (conn Ip)) : Z := lenZ (filter (fun c => ip c = a) l).

Definition counts_ok (max_per_ip : Z) (counts : gmap Ip Z) (l : list (conn Ip)) : Prop :=
  if max_per_ip =? 0 then counts = ∅
  else forall a, counts !! a = if live_from a l =? 0 then None else Some (live_from a l).

Record admission_ok (max_per_ip max_connections : Z) s : Prop := {
  ao_config : PerIp.max_per_ip (tracker s) = max_per_ip /\ ConnectionLimiter.max (limiter s) = max_connections;
  ao_lock : PerIp.poisoned (tracker s) = false;
  ao_ids : NoDup (id <$> live s);
  ao_counts : counts_ok max_per_ip (PerIp.counts (tracker s)) (live s);
  ao_per_ip : max_per_ip <> 0 -> forall a, live_from a (live s) <= max_per_ip;
  ao_permits : ConnectionLimiter.available_permits (limiter s) = max_connections - lenZ (live s);
  ao_max : lenZ (live s) <= max_connections
}.

Lemma live_from_cons a c l : live_from a (c :: l) = (if decide (ip c = a) then 1 else 0) + live_from a l.
Proof. unfold live_from. rewrite filter_cons. case_decide; unfold lenZ; cbn [length]; lia. Qed.

Lemma live_from_nonneg a l : 0 <= live_from a l.
Proof. apply lenZ_nonneg. Qed.

Lemma default_live m (a : Ip) l : (m : gmap Ip Z) !! a = (if live_from a l =? 0 then None else Some (live_from a l)) ->
  default 0 (m !! a) = live_from a l.
Proof. intros ->. case_if; z_bool; cbn; lia. Qed.

(** A connection taken, and the permit of one given back. *)
Lemma counts_insert mpi m a i hs l : mpi <> 0 -> counts_ok mpi m l -> live_from a l < 2 ^ 32 - 1 ->
  counts_ok mpi (<[a := wrapping_add 32 (default 0 (m !! a)) 1]> m) (Conn i a hs :: l).
Proof.
  unfold counts_ok. intros Hm. apply Z.eqb_neq in Hm as ->. intros Hc Hlt b.
  rewrite (default_live m a l (Hc a)). rewrite live_from_cons. cbn [ip]. pose proof (live_from_nonneg a l).
  pose proof (live_from_nonneg b l). unfold wrapping_add. rewrite lookup_insert. case_decide as Hab; [subst b|].
  - rewrite Z.mod_small by lia. case_if; z_bool; [lia|f_equal; lia].
  - rewrite Z.add_0_l. apply Hc.
Qed.

Lemma counts_drop mpi m a l l' : counts_ok mpi m l ->
  (forall b, live_from b l = (if decide (a = b) then 1 else 0) + live_from b l') ->
  forall max, counts_ok mpi (PerIp.counts (PerIp.drop_permit a (PerIp.mk max false m))) l'.
Proof.
  unfold counts_ok, PerIp.drop_permit. cbn [PerIp.poisoned PerIp.counts PerIp.max_per_ip]. intros Hc Hl max.
  destruct (mpi =? 0) eqn:E; [subst m; by rewrite lookup_empty|]. intros b.
  pose proof (Hl a) as Ha. rewrite decide_True in Ha by done. pose proof (live_from_nonneg a l').
  rewrite (Hc a). case_if; z_bool; [lia|]. cbn [PerIp.counts]. unfold saturating_sub.
  pose proof (Hl b) as Hb. destruct (decide (a = b)) as [<-|Hab].
  - case_if; z_bool; [rewrite lookup_delete_eq|rewrite lookup_insert_eq]; case_if; z_bool; try done; try lia.
    f_equal. lia.
  - rewrite Z.add_0_l in Hb. case_if; [rewrite lookup_delete_ne by done|rewrite lookup_insert_ne by done];
      rewrite Hc, Hb; done.
Qed.

Lemma admission_new mpi mc : 0 <= mpi -> 0 <= mc -> admission_ok mpi mc (Admission.new mpi mc).
Proof.
  intros Hp Hm. split; cbn [Admission.new tracker limiter live PerIp.new PerIp.max_per_ip PerIp.counts
    ConnectionLimiter.new ConnectionLimiter.max ConnectionLimiter.available_permits].
  - done.
  - done.
  - apply NoDup_nil_2.
  - unfold counts_ok. case_if; [done|]. intros a. by rewrite lookup_empty.
  - intros _ a. unfold live_from, lenZ. cbn. lia.
  - unfold lenZ. cbn. lia.
  - unfold lenZ. cbn. lia.
Qed.

Lemma filter_id_other i (l : list (conn Ip)) : i ∉ id <$> l -> filter (fun c => id c <> i) l = l.
Proof.
  induction l as [|c l IH]; intros Hn; [done|]. rewrite fmap_cons in Hn. apply not_elem_of_cons in Hn as [Hc Hn].
  rewrite filter_cons_True by congruence. by rewrite IH.
Qed.

(** Removing the connection with a given id removes one from its address. *)
Lemma remove_conn i c l : NoDup (id <$> l) -> head (filter (fun c => id c = i) l) = Some c ->
  (forall b, live_from b l = (if decide (ip c = b) then 1 else 0) + live_from b (filter (fun c => id c <> i) l)) /\
  lenZ l = 1 + lenZ (filter (fun c => id c <> i) l).
Proof.
  induction l as [|d l IH]; intros Hnd; [done|]. rewrite fmap_cons in Hnd. apply NoDup_cons in Hnd as [Hd Hnd].
  rewrite !filter_cons. destruct (decide (id d = i)) as [Hi|Hi].
  - intros [= ->]. rewrite decide_False by tauto. subst i. rewrite filter_id_other by done.
    split; [intros b; apply live_from_cons|]. unfold lenZ. cbn [length]. lia.
  - intros Hh. destruct (IH Hnd Hh) as [IH1 IH2]. rewrite decide_True by done. split.
    + intros b. rewrite !live_from_cons, IH1. lia.
    + unfold lenZ in *. cbn [length]. lia.
Qed.

Lemma handshake_ids i (l : list (conn Ip)) :
  let l' := (fun c => if (id c =? i)%nat then Conn (id c) (ip c) true else c) <$> l in
  id <$> l' = id <$> l /\ (forall a, live_from a l' = live_from a l) /\ lenZ l' = lenZ l.
Proof.
  cbv zeta. split_and!.
  - rewrite <-list_fmap_compose. apply list_fmap_ext. intros j c _. cbn. by case_if.
  - intros a. induction l as [|c l IH]; [done|]. rewrite fmap_cons, !live_from_cons, IH.
    by destruct (id c =? i)%nat.
  - unfold lenZ. by rewrite length_fmap.
Qed.

Lemma try_accept_spec mpi a (t : PerIp.t Ip) l : 0 <= mpi < 2 ^ 32 ->
  PerIp.max_per_ip t = mpi -> PerIp.poisoned t = false -> counts_ok mpi (PerIp.counts t) l ->
  let '(ok, t') := PerIp.try_accept a t in
  PerIp.max_per_ip t' = mpi /\ PerIp.poisoned t' = false /\
  if ok : bool then (forall i hs, counts_ok mpi (PerIp.counts t') (Conn i a hs :: l)) /\ (mpi <> 0 -> live_from a l < mpi)
  else t' = t.
Proof.
  intros Hm Hc Hp Hcnt. unfold PerIp.try_accept. rewrite Hc, Hp. case_if; z_bool.
  { split_and!; [done|done| |lia]. intros i hs. unfold counts_ok in *. by rewrite E in *. }
  assert (default 0 (PerIp.counts t !! a) = live_from a l) as Hd.
  { apply default_live. unfold counts_ok in Hcnt. apply Z.eqb_neq in E. rewrite E in Hcnt. apply Hcnt. }
  rewrite Hd. case_if; z_bool; [done|]. split_and!; [done|done| |done]. intros i hs. cbn [PerIp.counts].
  rewrite <-Hd. apply counts_insert; [done|done|lia].
Qed.

Lemma drop_permit_config a (t : PerIp.t Ip) :
  PerIp.max_per_ip (PerIp.drop_permit a t) = PerIp.max_per_ip t /\
  PerIp.poisoned (PerIp.drop_permit a t) = PerIp.poisoned t.
Proof. unfold PerIp.drop_permit. destruct (PerIp.poisoned t) eqn:Hp; [done|]. by case_match. Qed.

Lemma drop_permit_spec mpi a (t : PerIp.t Ip) l l' : PerIp.poisoned t = false -> counts_ok mpi (PerIp.counts t) l ->
  (forall b, live_from b l = (if decide (a = b) then 1 else 0) + live_from b l') ->
  counts_ok mpi (PerIp.counts (PerIp.drop_permit a t)) l'.
Proof. intros Hp Hc Hl. destruct t as [mp po m]. cbn in Hp. subst po. by eapply counts_drop. Qed.

Lemma accept_ok mpi mc i a s : 0 <= mpi < 2 ^ 32 -> i ∉ id <$> live s ->
  admission_ok mpi mc s -> admission_ok mpi mc (accept i a s).
Proof.
  intros Hmpi Hi [[Hc1 Hc2] Hl Hid Hcnt Hper Hperm Hmax]. unfold accept.
  pose proof (try_accept_spec mpi a (tracker s) (live s) Hmpi Hc1 Hl Hcnt) as Ht.
  destruct (PerIp.try_accept a (tracker s)) as [[|] t']; destruct Ht as (Hm' & Hp' & Ht); cbn [negb]; [|by subst t'].
  destruct Ht as [Hcnt' Hlt]. unfold ConnectionLimiter.try_acquire. case_if; z_bool.
  - assert (lenZ (Conn i a false :: live s) = lenZ (live s) + 1) by (unfold lenZ; cbn [length]; lia).
    split; cbn [tracker limiter live ConnectionLimiter.max ConnectionLimiter.available_permits]; try done; try lia.
    + rewrite fmap_cons. by constructor.
    + intros Hn b. rewrite live_from_cons. cbn [ip]. specialize (Hper Hn b). specialize (Hlt Hn).
      case_decide; [subst|]; lia.
  - destruct (drop_permit_config a t') as [Hx Hy].
    split; cbn [tracker limiter live]; try done; [by rewrite Hx, Hm'|by rewrite Hy|].
    apply (drop_permit_spec mpi a t' (Conn i a false :: live s)); [done|apply Hcnt'|]. intros b. apply live_from_cons.
Qed.

Lemma nodup_ids_filter i (l : list (conn Ip)) : NoDup (id <$> l) -> NoDup (id <$> filter (fun c => id c <> i) l).
Proof.
  induction l as [|c l IH]; intros Hnd; [done|]. rewrite fmap_cons in Hnd. apply NoDup_cons in Hnd as [Hc Hnd].
  rewrite filter_cons. case_decide; [|by apply IH]. rewrite fmap_cons. constructor; [|by apply IH].
  intros (d & Hd & Hin)%list_elem_of_fmap. apply list_elem_of_filter in Hin as [_ Hin]. destruct Hc. rewrite Hd.
  by apply list_elem_of_fmap_2.
Qed.

Lemma task_ends_ok mpi mc i s : admission_ok mpi mc s -> admission_ok mpi mc (task_ends i s).
Proof.
  intros [[Hc1 Hc2] Hl Hid Hcnt Hper Hperm Hmax]. unfold task_ends.
  destruct (head _) as [c|] eqn:Hh; [|done]. destruct (remove_conn i c (live s) Hid Hh) as [Hr1 Hr2].
  destruct (drop_permit_config (ip c) (tracker s)) as [Hx Hy].
  split; cbn [tracker limiter live ConnectionLimiter.release ConnectionLimiter.max ConnectionLimiter.available_permits].
  - by rewrite Hx.
  - by rewrite Hy.
  - by apply nodup_ids_filter.
  - by apply (drop_permit_spec mpi (ip c) (tracker s) (live s)).
  - intros Hn b. specialize (Hper Hn b). rewrite Hr1 in Hper. case_decide; lia.
  - lia.
  - lia.
Qed.

(** C25 The limits on connections: through any sequence of accepted and refused connections,
    handshakes and ends, there are never more live connections than [max_connections], nor, with a
    limit per address, more than it from one address; the tracker's count is the number of live
    connections of the address, with no entry for an address that has none, and [active_count] is
    the number of live connections. *)
Theorem admission_limits mpi mc s a : 0 <= mpi < 2 ^ 32 -> 0 <= mc < 2 ^ 32 ->
  rtc Admission.step (Admission.new mpi mc) s ->
  lenZ (live s) <= mc /\
  ConnectionLimiter.active_count (limiter s) = lenZ (live s) /\
  (mpi <> 0 ->
     live_from a (live s) <= mpi /\
     PerIp.count_for a (tracker s) = live_from a (live s) /\
     (PerIp.counts (tracker s) !! a = None <-> live_from a (live s) = 0)).
Proof.
  intros Hmpi Hmc Hr.
  assert (admission_ok mpi mc s) as [[Hc1 Hc2] Hl Hid Hcnt Hper Hperm Hmax].
  { eapply rtc_invariant; [|exact Hr|by apply admission_new; lia].
    intros s1 s2 [i b s0 Hi|i s0|i s0] Hok; [by apply accept_ok| |by apply task_ends_ok].
    destruct (handshake_ids i (live s0)) as (Ha & Hb & Hd). destruct Hok as [Hc Hl Hid Hcnt Hper Hperm Hmax].
    split; cbn [handshake_done tracker limiter live]; try done; rewrite ?Ha, ?Hd; try done.
    - unfold counts_ok in *. case_if; [done|]. intros c. by rewrite Hb.
    - intros Hn c. rewrite Hb. by apply Hper. }
  split; [done|]. split.
  - unfold ConnectionLimiter.active_count, saturating_sub. rewrite Hperm, Hc2. pose proof (lenZ_nonneg (live s)).
    rewrite Z.mod_small by lia. lia.
  - intros Hn. unfold counts_ok in Hcnt. apply Z.eqb_neq in Hn as Hn'. rewrite Hn' in Hcnt. split; [by apply Hper|].
    unfold PerIp.count_for. rewrite Hl. split; [by apply default_live|]. rewrite Hcnt. case_if; z_bool; naive_solver.
Qed.
End AdmissionFacts.

(** ** Readiness and modes *)

(** What the probe of a gateway answers: never ready while it drains; ready while it is degraded,
    whatever else is missing; otherwise ready exactly when all five conditions hold. *)
Theorem readyz_truth_table s :
  (Readiness.code (Readiness.readyz s) = 200 <->
     Readiness.draining s = false /\
     (Readiness.degraded s = true \/
      Readiness.verifier_connected s = true /\ Readiness.policy_loaded s = true /\
      Readiness.upstream_reachable s = true /\ Readiness.noise_cert_loaded s = true /\
      Readiness.listener_bound s = true)) /\
  (Readiness.code (Readiness.readyz s) <> 200 ->
     Readiness.code (Readiness.readyz s) = 503 /\ is_Some (Readiness.reason_code (Readiness.readyz s))).
Proof. by destruct s as [[] [] [] [] [] [] [] []]; vm_compute; (split; [split; [intuition|intuition congruence]|eauto]). Qed.

Lemma lowercase_as_str m : DeployMode.to_ascii_lowercase (DeployMode.as_str m) = DeployMode.as_str m.
Proof. by destruct m. Qed.

(** A mode parses from what it prints. *)
Lemma mode_round_trip m : DeployMode.from_str (DeployMode.as_str m) = Ok m.
Proof. by destruct m. Qed.

(** A connection whose handshake fails gives its permits back and stays in the gauge. *)
Lemma failed_handshake_gauge {Ip} `{Countable Ip} (i : nat) (a : Ip) mpi mc :
  0 < mc -> mpi = 0 ->
  let s := Admission.task_ends i (Admission.accept i a (Admission.new mpi mc)) in
  Admission.live s = [] /\ Admission.connections_active s = 1.
Proof.
  intros Hmc ->. cbv zeta. unfold Admission.accept. cbn.
  unfold ConnectionLimiter.try_acquire. cbn. rewrite (proj2 (Z.gtb_lt _ _)) by done. cbn.
  unfold Admission.task_ends. cbn [Admission.live]. rewrite !filter_cons. cbn [Admission.id].
  rewrite decide_True, decide_False by auto. done.
Qed.

(** Concrete arguments for the witnesses. *)
Module LimitsSample.
#[local] Instance order : IpOrder Z := {| ips_iter A m := map_to_list m; ips_iter_perm A m := reflexivity _ |}.

Definition full : RateLimiter.t Z := RateLimiter.mk 10 None 100 false {[7 := [5; 6]]} [].

Lemma admit_refusal_witness : RateLimiter.admit_at 50 7 2 full = (Err 55, full) /\ 0 < 55 <= 100.
Proof.
  assert (RateLimiter.admit_at 50 7 2 full = (Err 55, full)) as Ha by (vm_compute; reflexivity).
  split; [done|]. exact (proj1 (admit_refusal 50 7 2 full 55 full ltac:(done) Ha)).
Defined.

Definition ops : list limiter_op :=
  [Admit 0 7 1; Admit 1 8 1; Admit 2 7 1; Cleanup 3; Admit (60 * 1000000000) 7 1; Admit (60 * 1000000000 + 1) 8 1].

Lemma global_ceiling_rate_witness :
  (admitted ops (RateLimiter.with_config 10 (Some 1))).*1 = [0; 60 * 1000000000] /\
  60 * 1000000000 - 0 >= 60 * 1000000000.
Proof.
  split; [by vm_compute|].
  apply (global_ceiling_rate 10 1 ops 0 0 (60 * 1000000000)); [|by vm_compute..]. cbn. lia.
Defined.

Lemma per_ip_rate_witness : 60 * 1000000000 - 0 >= 60 * 1000000000.
Proof.
  apply (per_ip_rate {[7; 8]} 7 1 10 None ops 0 0 (60 * 1000000000)); [by vm_compute|cbn; lia| |by vm_compute..].
  repeat constructor; set_solver.
Defined.

Lemma tracked_ips_bounded_witness :
  Z.of_nat (size (RateLimiter.ips (foldl (fun s o =>
    match o with Admit now ip m => (RateLimiter.admit_at now ip m s).2 | Cleanup now => RateLimiter.cleanup now s end)
    (RateLimiter.with_config 1 None) ops))) <= 1.
Proof. apply (tracked_ips_bounded ops (RateLimiter.with_config 1 None)); [done|done|]. by repeat constructor. Defined.

Lemma admission_limits_witness :
  lenZ (Admission.live (Admission.accept 1 7 (Admission.accept 0 7 (Admission.new 1 5)))) <= 5.
Proof.
  refine (proj1 (admission_limits 1 5 _ 7 ltac:(lia) ltac:(lia) _)).
  eapply rtc_l; [apply (Admission.step_accept 0 7); cbn; set_solver|].
  eapply rtc_l; [apply (Admission.step_accept 1 7); cbn; set_solver|]. apply rtc_refl.
Defined.
End LimitsSample.
