(* ===== verification/Gateway.v ===== *)
(** * The gateway's main loop

    Models the template, verdict and job side of [services/sv2-gateway/src/main.rs]: pending
    templates and their verdicts, degraded mode and its two triggers, the stale hold, the sweep, the
    creation and broadcast of jobs, the accounting arms and the ways the loop ends. One function per
    arm of the [select!], on the loop's local variables as a record.

    Each arm takes one reading of the monotonic clock in nanoseconds, one of the Unix clock in
    seconds and one in milliseconds; [elapsed] saturates at zero. A template is sent to the verifier
    as the record [build_template_propose] makes; what is sent to the channels and the NDJSON stream
    is kept in lists, oldest first. Logs and counters of the metrics page are left out. *)

From S2P Require Import Prelude Crates Float64 Protocol Reason Consensus Mempool Policy Jobs.
From S2P Require Import Channels Shares Handler Wal TemplateBlock Manager Upstream Accounting Limits.

(** ** Degraded mode *)

Inductive DegradeTrigger : Type := HeartbeatStale | VerdictStarved.

#[global] Instance DegradeTrigger_eq_dec : EqDecision DegradeTrigger.
Proof. solve_decision. Defined.

Definition DegradeTrigger_as_str (t : DegradeTrigger) : string :=
  match t with
  | HeartbeatStale => "verifier_heartbeat_stale"
  | VerdictStarved => "verifier_verdict_starved"
  end.

Definition longer_than (threshold : Z) (d : option Z) : bool :=
  match d with Some d => d >? threshold | None => false end.

Definition degrade_trigger_for (heartbeat_age : Z) (oldest_pending_age verdict_starved_elapsed : option Z)
    (threshold : Z) : option DegradeTrigger :=
  if heartbeat_age >? threshold then Some HeartbeatStale
  else if longer_than threshold oldest_pending_age || longer_than threshold verdict_starved_elapsed
  then Some VerdictStarved
  else None.

Module StarvationClock.
Definition t : Type := option Z.
Definition new : t := None.
Definition on_enqueue (pending_was_empty : bool) (now : Z) (c : t) : t :=
  if pending_was_empty || match c with None => true | Some _ => false end then Some now else c.
Definition on_verdict (pending_now_empty : bool) (now : Z) (c : t) : t :=
  if pending_now_empty then None else Some now.
Definition on_flush (c : t) : t := None.
Definition elapsed_while_outstanding (pending_empty : bool) (now : Z) (c : t) : option Z :=
  if pending_empty then None else (fun anchor => saturating_sub now anchor) <$> c.
End StarvationClock.

Definition heartbeat_recovery_allowed (trigger : option DegradeTrigger) : bool :=
  negb (bool_decide (trigger = Some VerdictStarved)).

(** ** Pending templates *)

Module PendingTemplate.
Record t : Type := mk { template : TemplateResponse.t; received_at : Z }.
End PendingTemplate.

Definition too_old (now max_age : Z) (pt : PendingTemplate.t) : bool :=
  saturating_sub now (PendingTemplate.received_at pt) >? max_age.

(** The cache forgets the swept templates; the order of the removals does not matter. *)
Definition sweep_stale_pending_templates (now max_age : Z) (pending : gmap Z PendingTemplate.t)
    (order : list Z) (cache : TemplateDedupCache.t)
    : gmap Z PendingTemplate.t * list Z * TemplateDedupCache.t * Z :=
  let swept := filter (fun p : Z * PendingTemplate.t => too_old now max_age p.2 = true) (map_to_list pending) in
  let pending := filter (fun p : Z * PendingTemplate.t => too_old now max_age p.2 = false) pending in
  match swept with
  | [] => (pending, order, cache, 0)
  | _ =>
      (pending, filter (fun id => is_Some (pending !! id)) order,
       foldl (fun c p => TemplateDedupCache.remove c
                (TemplateResponse.source_instance_id (PendingTemplate.template p.2)) p.1) cache swept,
       lenZ swept)
  end.

(** ** Jobs *)

Module JobState.
Record t : Type := mk {
  job_alloc : IdAllocator.t; job_table : JobTable.t; active_prev_hash : option bytes;
  latest_job : option JobBroadcast.t; created : list (JobRecord.t * JobBroadcast.t) }.
End JobState.

Section Broadcast.
Context `{HexCrate}.

Fixpoint parse_merkle_path (hex_elements : list string) : option (list bytes) :=
  match hex_elements with
  | [] => Some []
  | h :: hs =>
      match hex_decode h with
      | Ok b => if (length b =? 32)%nat then cons b <$> parse_merkle_path hs else None
      | Err _ => None
      end
  end.

(** The job and the broadcast of a template, and the prevhash that is active afterwards. *)
Definition job_of_template (now now_unix job_id : Z) (template : TemplateResponse.t)
    (active_prev_hash : option bytes) : option (JobRecord.t * JobBroadcast.t) :=
  match display_hex_to_wire_bytes (TemplateResponse.prev_hash template),
        parse_merkle_path (TemplateResponse.merkle_path template),
        hex_decode (TemplateResponse.coinbase_tx_prefix template),
        hex_decode (TemplateResponse.coinbase_tx_suffix template) with
  | Ok prev_hash_wire, Some merkle_path, Ok coinbase_prefix, Ok coinbase_suffix =>
      let activation :=
        effective_min_ntime (TemplateResponse.min_ntime template) (TemplateResponse.curtime template)
          (now_unix mod 2 ^ 32) 60 in
      let is_new_prevhash := negb (bool_decide (active_prev_hash = Some prev_hash_wire)) in
      let prevhash_update :=
        if is_new_prevhash
        then Some (PrevhashUpdate.mk prev_hash_wire activation (TemplateResponse.nbits template)) else None in
      let min_ntime := if is_new_prevhash then None else Some activation in
      Some
        (JobRecord.mk job_id (TemplateResponse.template_id template) (TemplateResponse.block_height template)
           (TemplateResponse.block_version template) prev_hash_wire (TemplateResponse.nbits template)
           coinbase_prefix coinbase_suffix merkle_path activation (TemplateResponse.min_ntime template)
           (TemplateResponse.curtime template) (TemplateResponse.source_instance_id template)
           is_new_prevhash now,
         JobBroadcast.mk job_id (TemplateResponse.block_version template) coinbase_prefix coinbase_suffix
           merkle_path prevhash_update min_ntime)
  | _, _, _, _ => None
  end.

(** An id is taken before the template is parsed. *)
Definition broadcast_job_from_template (now now_unix : Z) (template : TemplateResponse.t) (j : JobState.t)
    : JobState.t :=
  let '(id, alloc) := IdAllocator.allocate (JobState.job_alloc j) in
  let j := JobState.mk alloc (JobState.job_table j) (JobState.active_prev_hash j) (JobState.latest_job j)
             (JobState.created j) in
  match id with
  | None => j
  | Some job_id =>
      match job_of_template now now_unix job_id template (JobState.active_prev_hash j) with
      | None => j
      | Some (job, broadcast) =>
          JobState.mk alloc (JobTable.insert now (JobState.job_table j) job)
            (if JobRecord.activated job then Some (JobRecord.prev_hash job) else JobState.active_prev_hash j)
            (Some broadcast) (JobState.created j ++ [(job, broadcast)])
      end
  end.

Definition is_prevhash_change (template : TemplateResponse.t) (active : option bytes) : bool :=
  match active with
  | None => true
  | Some active_hash =>
      match display_hex_to_wire_bytes (TemplateResponse.prev_hash template) with
      | Ok wire => negb (bool_decide (wire = active_hash))
      | Err _ => true
      end
  end.
End Broadcast.

Definition build_template_propose (template : TemplateResponse.t) (gateway_instance_id : string)
    : TemplatePropose.t :=
  TemplatePropose.mk PROTOCOL_VERSION (TemplateResponse.template_id template)
    (TemplateResponse.block_height template) (TemplateResponse.prev_hash template)
    (TemplateResponse.coinbase_value template) (TemplateResponse.tx_count template)
    (TemplateResponse.total_fees template) (TemplateResponse.observed_weight template)
    (Some (TemplateResponse.curtime template * 1000)) (TemplateResponse.total_sigops template)
    (TemplateResponse.coinbase_sigops template) (TemplateResponse.template_weight template)
    (Some gateway_instance_id) (TemplateResponse.raw_block_hex template).

(** ** The loop's variables *)

Module ModeTransitionEvent.
Record t : Type := mk {
  direction : string; timestamp_ms : Z; degraded_duration_ms : Z; unenforced_jobs : Z }.
End ModeTransitionEvent.

Inductive UpstreamFailurePolicy : Type := FailClosed | FailOpen.

Module LoopConfig.
(** Times in milliseconds, as in the configuration. *)
Record t : Type := mk {
  mode : GatewayMode; auto_degrade : bool; auto_degrade_after_ms : Z; max_template_age_ms : Z;
  prevhash_stale_hold_ms : Z; upstream_stale_max_ms : Z; upstream_failure_policy : UpstreamFailurePolicy;
  gateway_instance_id : string }.

Definition auto_degrade_enabled (c : t) : bool := auto_degrade c && enforces_verdicts (mode c).
End LoopConfig.

Definition from_millis (ms : Z) : Z := ms * 1000000.

Module Degrade.
Record t : Type := mk {
  degraded : bool; degraded_since : option Z; unenforced_jobs : Z; trigger : option DegradeTrigger }.
Definition none : t := mk false None 0 None.
Definition count_unenforced (d : t) : t :=
  mk (degraded d) (degraded_since d) (wrapping_add 64 (unenforced_jobs d) 1) (trigger d).
End Degrade.

Module Loop.
Record t : Type := mk {
  dedup_cache : TemplateDedupCache.t;
  pending_templates : gmap Z PendingTemplate.t;
  pending_order : list Z;
  jobs : JobState.t;
  stale_hold_deadline : option Z;
  last_template_received : Z;
  last_verifier_ack : Z;
  verdict_starved : StarvationClock.t;
  degrade : Degrade.t;
  readiness : Readiness.t;
  proposed : list TemplatePropose.t;
  mode_events : list ModeTransitionEvent.t;
  channel_registry : GlobalChannelRegistry.t;
  share_wal : option SharedWal.t;
  share_lines : list line
}.

Definition set_dedup_cache (v : TemplateDedupCache.t) (s : t) : t :=
  mk v (pending_templates s) (pending_order s) (jobs s) (stale_hold_deadline s)
    (last_template_received s) (last_verifier_ack s) (verdict_starved s) (degrade s) (readiness s)
    (proposed s) (mode_events s) (channel_registry s) (share_wal s) (share_lines s).
Definition set_pending_templates (v : gmap Z PendingTemplate.t) (s : t) : t :=
  mk (dedup_cache s) v (pending_order s) (jobs s) (stale_hold_deadline s) (last_template_received
    s) (last_verifier_ack s) (verdict_starved s) (degrade s) (readiness s) (proposed s) (mode_events
    s) (channel_registry s) (share_wal s) (share_lines s).
Definition set_pending_order (v : list Z) (s : t) : t :=
  mk (dedup_cache s) (pending_templates s) v (jobs s) (stale_hold_deadline s)
    (last_template_received s) (last_verifier_ack s) (verdict_starved s) (degrade s) (readiness s)
    (proposed s) (mode_events s) (channel_registry s) (share_wal s) (share_lines s).
Definition set_jobs (v : JobState.t) (s : t) : t :=
  mk (dedup_cache s) (pending_templates s) (pending_order s) v (stale_hold_deadline s)
    (last_template_received s) (last_verifier_ack s) (verdict_starved s) (degrade s) (readiness s)
    (proposed s) (mode_events s) (channel_registry s) (share_wal s) (share_lines s).
Definition set_stale_hold_deadline (v : option Z) (s : t) : t :=
  mk (dedup_cache s) (pending_templates s) (pending_order s) (jobs s) v (last_template_received s)
    (last_verifier_ack s) (verdict_starved s) (degrade s) (readiness s) (proposed s) (mode_events s)
    (channel_registry s) (share_wal s) (share_lines s).
Definition set_last_template_received (v : Z) (s : t) : t :=
  mk (dedup_cache s) (pending_templates s) (pending_order s) (jobs s) (stale_hold_deadline s) v
    (last_verifier_ack s) (verdict_starved s) (degrade s) (readiness s) (proposed s) (mode_events s)
    (channel_registry s) (share_wal s) (share_lines s).
Definition set_last_verifier_ack (v : Z) (s : t) : t :=
  mk (dedup_cache s) (pending_templates s) (pending_order s) (jobs s) (stale_hold_deadline s)
    (last_template_received s) v (verdict_starved s) (degrade s) (readiness s) (proposed s)
    (mode_events s) (channel_registry s) (share_wal s) (share_lines s).
Definition set_verdict_starved (v : StarvationClock.t) (s : t) : t :=
  mk (dedup_cache s) (pending_templates s) (pending_order s) (jobs s) (stale_hold_deadline s)
    (last_template_received s) (last_verifier_ack s) v (degrade s) (readiness s) (proposed s)
    (mode_events s) (channel_registry s) (share_wal s) (share_lines s).
Definition set_degrade (v : Degrade.t) (s : t) : t :=
  mk (dedup_cache s) (pending_templates s) (pending_order s) (jobs s) (stale_hold_deadline s)
    (last_template_received s) (last_verifier_ack s) (verdict_starved s) v (readiness s) (proposed
    s) (mode_events s) (channel_registry s) (share_wal s) (share_lines s).
Definition set_readiness (v : Readiness.t) (s : t) : t :=
  mk (dedup_cache s) (pending_templates s) (pending_order s) (jobs s) (stale_hold_deadline s)
    (last_template_received s) (last_verifier_ack s) (verdict_starved s) (degrade s) v (proposed s)
    (mode_events s) (channel_registry s) (share_wal s) (share_lines s).
Definition set_proposed (v : list TemplatePropose.t) (s : t) : t :=
  mk (dedup_cache s) (pending_templates s) (pending_order s) (jobs s) (stale_hold_deadline s)
    (last_template_received s) (last_verifier_ack s) (verdict_starved s) (degrade s) (readiness s) v
    (mode_events s) (channel_registry s) (share_wal s) (share_lines s).
Definition set_mode_events (v : list ModeTransitionEvent.t) (s : t) : t :=
  mk (dedup_cache s) (pending_templates s) (pending_order s) (jobs s) (stale_hold_deadline s)
    (last_template_received s) (last_verifier_ack s) (verdict_starved s) (degrade s) (readiness s)
    (proposed s) v (channel_registry s) (share_wal s) (share_lines s).
Definition set_channel_registry (v : GlobalChannelRegistry.t) (s : t) : t :=
  mk (dedup_cache s) (pending_templates s) (pending_order s) (jobs s) (stale_hold_deadline s)
    (last_template_received s) (last_verifier_ack s) (verdict_starved s) (degrade s) (readiness s)
    (proposed s) (mode_events s) v (share_wal s) (share_lines s).
Definition set_share_wal (v : option SharedWal.t) (s : t) : t :=
  mk (dedup_cache s) (pending_templates s) (pending_order s) (jobs s) (stale_hold_deadline s)
    (last_template_received s) (last_verifier_ack s) (verdict_starved s) (degrade s) (readiness s)
    (proposed s) (mode_events s) (channel_registry s) v (share_lines s).
Definition set_share_lines (v : list line) (s : t) : t :=
  mk (dedup_cache s) (pending_templates s) (pending_order s) (jobs s) (stale_hold_deadline s)
    (last_template_received s) (last_verifier_ack s) (verdict_starved s) (degrade s) (readiness s)
    (proposed s) (mode_events s) (channel_registry s) (share_wal s) v.

Definition new (now retention_ms max_entries : Z) (readiness : Readiness.t) (wal : option SharedWal.t) : t :=
  mk (TemplateDedupCache.new 256) ∅ [] (JobState.mk IdAllocator.new (JobTable.new retention_ms max_entries) None None [])
    None now now StarvationClock.new Degrade.none readiness [] [] GlobalChannelRegistry.new wal [].
End Loop.

(** ** The arms *)

(** The loop goes on, or ends with its exit status and whether the log failed. *)
Inductive outcome : Type :=
| Continue (s : Loop.t)
| Break (s : Loop.t) (success : bool) (wal_failed : bool).

Definition outcome_state (o : outcome) : Loop.t := match o with Continue s | Break s _ _ => s end.

(** What [verdict_rx] yields. *)
Inductive verdict_recv : Type :=
| RecvVerdict (v : TemplateVerdict.t) | RecvHeartbeatAck | RecvLagged | RecvClosed.

(** [while pending_templates.len() >= 2]: the oldest leave, and the cache forgets them. *)
Fixpoint evict_pending (source : string) (pending : gmap Z PendingTemplate.t) (order : list Z)
    (cache : TemplateDedupCache.t) : gmap Z PendingTemplate.t * list Z * TemplateDedupCache.t :=
  match order with
  | [] => (pending, [], cache)
  | oldest_id :: rest =>
      if (2 <=? size pending)%nat then
        match pending !! oldest_id with
        | Some _ => evict_pending source (delete oldest_id pending) rest
                      (TemplateDedupCache.remove cache source oldest_id)
        | None => evict_pending source pending rest cache
        end
      else (pending, order, cache)
  end.

Section Arms.
Context `{HexCrate, WalJson, MapOrder}.
Context (cfg : LoopConfig.t).

Definition broadcast (now now_unix : Z) (template : TemplateResponse.t) (s : Loop.t) : Loop.t :=
  Loop.set_jobs (broadcast_job_from_template now now_unix template (Loop.jobs s)) s.

(** A template from the poller; [sent] says whether the verifier's channel took the proposal. *)
Definition on_template (now now_unix : Z) (sent : bool) (template : option TemplateResponse.t) (s : Loop.t)
    : outcome :=
  match template with
  | None => Break s true false
  | Some template =>
      let s := Loop.set_last_template_received now s in
      let source := TemplateResponse.source_instance_id template in
      let '(duplicate, cache) :=
        TemplateDedupCache.is_duplicate (Loop.dedup_cache s) source (TemplateResponse.template_id template) in
      let s := Loop.set_dedup_cache cache s in
      if duplicate then Continue s
      else
        let propose := build_template_propose template (LoopConfig.gateway_instance_id cfg) in
        let s := if sent then Loop.set_proposed (Loop.proposed s ++ [propose]) s else s in
        if enforces_verdicts (LoopConfig.mode cfg) && negb (Degrade.degraded (Loop.degrade s)) then
          let pending_was_empty := bool_decide (Loop.pending_templates s = ∅) in
          let '(pending, order, cache) :=
            evict_pending source (Loop.pending_templates s) (Loop.pending_order s) (Loop.dedup_cache s) in
          let s := Loop.set_dedup_cache cache s in
          let s := Loop.set_pending_order (order ++ [TemplateResponse.template_id template]) s in
          let s := Loop.set_pending_templates
                     (<[TemplateResponse.template_id template := PendingTemplate.mk template now]> pending) s in
          Continue (Loop.set_verdict_starved
            (StarvationClock.on_enqueue pending_was_empty now (Loop.verdict_starved s)) s)
        else
          let s := broadcast now now_unix template s in
          Continue (if Degrade.degraded (Loop.degrade s)
                    then Loop.set_degrade (Degrade.count_unenforced (Loop.degrade s)) s else s)
  end.

Definition degraded_ms (now : Z) (d : Degrade.t) : Z :=
  match Degrade.degraded_since d with
  | Some t => Z.min (saturating_sub now t / 1000000) u64_max
  | None => 0
  end.

(** Leaving degraded mode, as both recoveries do it. *)
Definition recover_mode (now now_ms : Z) (s : Loop.t) : Loop.t :=
  let evt := ModeTransitionEvent.mk "recovered" now_ms (degraded_ms now (Loop.degrade s))
               (Degrade.unenforced_jobs (Loop.degrade s)) in
  let s := Loop.set_mode_events (Loop.mode_events s ++ [evt]) s in
  let s := Loop.set_degrade Degrade.none s in
  Loop.set_readiness (Readiness.clear_degraded (Loop.readiness s)) s.

(** A verdict applied to the pending template it names. *)
Definition apply_verdict (now now_unix : Z) (v : TemplateVerdict.t) (s : Loop.t) : Loop.t :=
  match Loop.pending_templates s !! TemplateVerdict.id v with
  | None => s
  | Some pt =>
      let s := Loop.set_pending_templates (delete (TemplateVerdict.id v) (Loop.pending_templates s)) s in
      let s := Loop.set_pending_order
                 (filter (fun id => id <> TemplateVerdict.id v) (Loop.pending_order s)) s in
      if TemplateVerdict.accepted v then
        let s := Loop.set_stale_hold_deadline None s in
        broadcast now now_unix (PendingTemplate.template pt) s
      else
        match Loop.stale_hold_deadline s with
        | Some _ => s
        | None =>
            if is_prevhash_change (PendingTemplate.template pt) (JobState.active_prev_hash (Loop.jobs s))
            then Loop.set_stale_hold_deadline
                   (Some (now + from_millis (LoopConfig.prevhash_stale_hold_ms cfg))) s
            else s
        end
  end.

Definition on_verdict_recv (now now_unix now_ms : Z) (r : verdict_recv) (s : Loop.t) : outcome :=
  match r with
  | RecvVerdict v =>
      let s :=
        if Degrade.degraded (Loop.degrade s)
           && bool_decide (Degrade.trigger (Loop.degrade s) = Some VerdictStarved)
        then recover_mode now now_ms s else s in
      let s := if enforces_verdicts (LoopConfig.mode cfg) then apply_verdict now now_unix v s else s in
      Continue (Loop.set_verdict_starved
        (StarvationClock.on_verdict (bool_decide (Loop.pending_templates s = ∅)) now (Loop.verdict_starved s)) s)
  | RecvHeartbeatAck =>
      let s := Loop.set_last_verifier_ack now s in
      if Degrade.degraded (Loop.degrade s) && heartbeat_recovery_allowed (Degrade.trigger (Loop.degrade s)) then
        let s := recover_mode now now_ms s in
        let s := Loop.set_stale_hold_deadline None s in
        let s := Loop.set_pending_templates ∅ s in
        Continue (Loop.set_pending_order [] s)
      else Continue s
  | RecvLagged => Continue s
  | RecvClosed => Break s true false
  end.

(** The accounting arms. A log failure drains and stops the gateway. *)
Definition stop_on_wal_failure (s : Loop.t) : outcome :=
  Break (Loop.set_readiness (Readiness.set_draining (Loop.readiness s)) s) false true.

Definition on_share_result (env : CallEnv.t) (first : option ShareForwardResult.t)
    (queued : list ShareForwardResult.t) (s : Loop.t) : outcome :=
  match first with
  | None => Continue s
  | Some first =>
      let b := record_forwarded env queued first (Loop.share_wal s) in
      let s := Loop.set_share_wal (Batch.wal b) s in
      let s := Loop.set_share_lines (Loop.share_lines s ++ Batch.lines b) s in
      match Batch.recorded b with Ok _ => Continue s | Err _ => stop_on_wal_failure s end
  end.

Definition on_share_event (env : CallEnv.t) (now_ms : Z) (first : option ShareAcceptedEvent.t)
    (queued : list ShareAcceptedEvent.t) (s : Loop.t) : outcome :=
  match first with
  | None => Continue s
  | Some first =>
      let b := record_accepted env queued first (Loop.share_wal s) in
      let s := Loop.set_share_wal (Batch.wal b) s in
      let s := Loop.set_share_lines (Loop.share_lines s ++ Batch.lines b) s in
      let s := Loop.set_channel_registry
        (foldl (fun r e => GlobalChannelRegistry.update_share now_ms (ShareAcceptedEvent.channel_id e)
                             (is_accepted e) (ShareAcceptedEvent.difficulty_u64 e) r)
           (Loop.channel_registry s) (Batch.items b)) s in
      match Batch.recorded b with Ok _ => Continue s | Err _ => stop_on_wal_failure s end
  end.

Definition on_sweep_tick (now : Z) (s : Loop.t) : outcome :=
  let '(pending, order, cache, _) :=
    sweep_stale_pending_templates now (from_millis (LoopConfig.max_template_age_ms cfg))
      (Loop.pending_templates s) (Loop.pending_order s) (Loop.dedup_cache s) in
  Continue (Loop.set_dedup_cache cache (Loop.set_pending_order order (Loop.set_pending_templates pending s))).

(** The stale-hold timer; it fires once its deadline has passed. *)
Definition on_stale_hold (s : Loop.t) : outcome :=
  if Degrade.degraded (Loop.degrade s) then Continue (Loop.set_stale_hold_deadline None s)
  else Break (Loop.set_readiness (Readiness.set_draining (Loop.readiness s)) s) true false.

Definition on_upstream_check (now : Z) (s : Loop.t) : outcome :=
  if saturating_sub now (Loop.last_template_received s) >? from_millis (LoopConfig.upstream_stale_max_ms cfg)
  then match LoopConfig.upstream_failure_policy cfg with
       | FailClosed => Break (Loop.set_readiness (Readiness.set_draining (Loop.readiness s)) s) true false
       | FailOpen => Continue s
       end
  else Continue s.

(** [for id in pending_order.drain(..)]: every pending template becomes a job. *)
Fixpoint flush_pending (now now_unix : Z) (order : list Z) (s : Loop.t) : Loop.t :=
  match order with
  | [] => s
  | id :: order =>
      match Loop.pending_templates s !! id with
      | None => flush_pending now now_unix order s
      | Some pt =>
          let s := Loop.set_pending_templates (delete id (Loop.pending_templates s)) s in
          let s := broadcast now now_unix (PendingTemplate.template pt) s in
          flush_pending now now_unix order
            (Loop.set_degrade (Degrade.count_unenforced (Loop.degrade s)) s)
      end
  end.

Definition oldest_pending_age (now : Z) (s : Loop.t) : option Z :=
  match Loop.pending_order s with
  | [] => None
  | id :: _ => (fun pt => saturating_sub now (PendingTemplate.received_at pt)) <$> Loop.pending_templates s !! id
  end.

Definition on_degrade_check (now now_unix now_ms : Z) (s : Loop.t) : outcome :=
  let starved := StarvationClock.elapsed_while_outstanding (bool_decide (Loop.pending_order s = [])) now
                   (Loop.verdict_starved s) in
  let trigger :=
    degrade_trigger_for (saturating_sub now (Loop.last_verifier_ack s)) (oldest_pending_age now s) starved
      (from_millis (LoopConfig.auto_degrade_after_ms cfg)) in
  if LoopConfig.auto_degrade_enabled cfg && negb (Degrade.degraded (Loop.degrade s))
     && negb (bool_decide (trigger = None)) then
    let s := Loop.set_degrade (Degrade.mk true (Some now) 0 trigger) s in
    let s := Loop.set_readiness (Readiness.set_degraded (Loop.readiness s)) s in
    let s := flush_pending now now_unix (Loop.pending_order s) s in
    let s := Loop.set_pending_order [] s in
    let s := Loop.set_pending_templates ∅ s in
    let s := Loop.set_stale_hold_deadline None s in
    let s := Loop.set_verdict_starved (StarvationClock.on_flush (Loop.verdict_starved s)) s in
    Continue (Loop.set_mode_events (Loop.mode_events s ++
      [ModeTransitionEvent.mk "degraded" now_ms 0 (Degrade.unenforced_jobs (Loop.degrade s))]) s)
  else Continue s.

Definition on_stop_signal (s : Loop.t) : outcome :=
  Break (Loop.set_readiness (Readiness.set_draining (Loop.readiness s)) s) true false.

(** ** The loop *)

Inductive arm : Type :=
| ArmTemplate (now now_unix : Z) (sent : bool) (template : option TemplateResponse.t)
| ArmVerdict (now now_unix now_ms : Z) (r : verdict_recv)
| ArmShareResult (env : CallEnv.t) (first : option ShareForwardResult.t) (queued : list ShareForwardResult.t)
| ArmShareEvent (env : CallEnv.t) (now_ms : Z) (first : option ShareAcceptedEvent.t)
    (queued : list ShareAcceptedEvent.t)
| ArmSweep (now : Z)
| ArmStaleHold (now : Z)
| ArmUpstreamCheck (now : Z)
| ArmDegradeCheck (now now_unix now_ms : Z)
| ArmStop.

(** One turn of the [select!]; [None] when the arm cannot fire. *)
Definition turn (a : arm) (s : Loop.t) : option outcome :=
  match a with
  | ArmTemplate now now_unix sent template => Some (on_template now now_unix sent template s)
  | ArmVerdict now now_unix now_ms r => Some (on_verdict_recv now now_unix now_ms r s)
  | ArmShareResult env first queued => Some (on_share_result env first queued s)
  | ArmShareEvent env now_ms first queued => Some (on_share_event env now_ms first queued s)
  | ArmSweep now => Some (on_sweep_tick now s)
  | ArmStaleHold now =>
      match Loop.stale_hold_deadline s with
      | Some deadline => if deadline <=? now then Some (on_stale_hold s) else None
      | None => None
      end
  | ArmUpstreamCheck now => Some (on_upstream_check now s)
  | ArmDegradeCheck now now_unix now_ms => Some (on_degrade_check now now_unix now_ms s)
  | ArmStop => Some (on_stop_signal s)
  end.

(** The states between turns, with the turns taken, newest first. *)
Inductive runs (s0 : Loop.t) : list arm -> Loop.t -> Prop :=
| runs_start : runs s0 [] s0
| runs_turn arms s a s' : runs s0 arms s -> turn a s = Some (Continue s') -> runs s0 (a :: arms) s'.

(** After the loop: unless the log failed, the handlers are told to stop and the accounting queues
    are drained; a drain that fails makes the exit status a failure. [None] while it runs. *)
Definition shut_down (deadline : Z) (passes : list Pass.t) (events : list ShareAcceptedEvent.t)
    (results : list ShareForwardResult.t) (s : Loop.t) (success wal_failed : bool) : option (bool * Loop.t) :=
  if wal_failed then Some (success, s)
  else
    let s := Loop.set_readiness (Readiness.set_draining (Loop.readiness s)) s in
    match drain_on_stop deadline passes
            (DrainState.mk events results (Loop.share_wal s) (Loop.share_lines s) 0 0) with
    | None => None
    | Some (r, d) =>
        Some (match r with Ok _ => success | Err _ => false end,
              Loop.set_share_lines (DrainState.out d) (Loop.set_share_wal (DrainState.wal d) s))
    end.
End Arms.

(** * Properties *)

(** ** Pending templates *)

Definition covered (pending : gmap Z PendingTemplate.t) (order : list Z) : Prop :=
  forall id, is_Some (pending !! id) -> id ∈ order.

Lemma covered_nil pending : covered pending [] -> pending = ∅.
Proof.
  intros Hc. apply map_eq. intros id. rewrite lookup_empty. destruct (pending !! id) as [pt|] eqn:Hp; [|done].
  assert (id ∈ []) as Hn by (apply Hc; by rewrite Hp). by apply elem_of_nil in Hn.
Qed.

Lemma evict_pending_spec source order : forall pending cache, covered pending order ->
  let '(pending', order', _) := evict_pending source pending order cache in
  pending' ⊆ pending /\ covered pending' order' /\ (size pending' <= 1)%nat /\
  (pending <> ∅ -> pending' <> ∅) /\ (exists old, order = old ++ order').
Proof.
  induction order as [|id order IH]; intros pending cache Hc; cbn [evict_pending].
  { apply covered_nil in Hc as Hn. subst pending. rewrite map_size_empty. split_and!; [done|done|lia|done|by exists []]. }
  destruct (2 <=? size pending)%nat eqn:Hs.
  - apply Nat.leb_le in Hs.
    assert (forall p, pending !! id = p -> covered (delete id pending) order) as Hdel.
    { intros p _ j Hj. rewrite lookup_delete in Hj. case_decide; [by destruct Hj|]. apply Hc in Hj. set_solver. }
    destruct (pending !! id) as [pt|] eqn:Hp.
    + specialize (IH (delete id pending) (TemplateDedupCache.remove cache source id) (Hdel _ eq_refl)).
      destruct (evict_pending _ _ _ _) as [[pending' order'] cache'].
      destruct IH as (Ha & Hb & Hd & He & (old & ->)). split_and!; [|done|done| |by exists (id :: old)].
      * etrans; [exact Ha|]. apply delete_subseteq.
      * intros _. apply He. intros Hemp. apply (f_equal size) in Hemp. rewrite map_size_delete, Hp, map_size_empty in Hemp.
        lia.
    + specialize (IH pending cache). destruct (evict_pending _ _ _ _) as [[pending' order'] cache'].
      destruct IH as (Ha & Hb & Hd & He & (old & ->)).
      { intros j Hj. apply Hc in Hj as Hj'. apply elem_of_cons in Hj' as [->|]; [|done]. rewrite Hp in Hj. by destruct Hj. }
      split_and!; [done..|by exists (id :: old)].
  - apply Nat.leb_gt in Hs. split_and!; [done|done|lia|done|by exists []].
Qed.

Lemma sweep_spec now max_age pending order cache : covered pending order ->
  let '(pending', order', cache', n) := sweep_stale_pending_templates now max_age pending order cache in
  pending' ⊆ pending /\ covered pending' order' /\
  (forall id pt, pending !! id = Some pt -> pending' !! id = None -> too_old now max_age pt = true) /\
  (order = [] -> order' = []).
Proof.
  intros Hc. unfold sweep_stale_pending_templates.
  set (keep := filter (fun p : Z * PendingTemplate.t => too_old now max_age p.2 = false) pending).
  assert (keep ⊆ pending) as Hsub by apply map_filter_subseteq.
  assert (covered keep order) as Hk.
  { intros id [pt Hp]. apply Hc. exists pt. by eapply lookup_weaken. }
  assert (forall id pt, pending !! id = Some pt -> keep !! id = None -> too_old now max_age pt = true) as Hold.
  { intros id pt Hp Hn. apply map_lookup_filter_None in Hn as [Hn|Hn]; [congruence|]. specialize (Hn pt Hp). cbn in Hn.
    by destruct (too_old now max_age pt). }
  destruct (filter _ (map_to_list pending)) as [|p swept]; split_and!; try done.
  - intros id Hs. apply list_elem_of_filter. split; [done|]. by apply Hk.
  - by intros ->.
Qed.

(** ** Invariant of the loop *)

Section LoopFacts.
Context `{HexCrate, WalJson, MapOrder}.
Context (cfg : LoopConfig.t).
Implicit Types s : Loop.t.

Notation enforcing := (enforces_verdicts (LoopConfig.mode cfg)).
Notation is_degraded s := (Degrade.degraded (Loop.degrade s)).

(** Templates that were proposed in one of these turns. *)
Definition was_received (arms : list arm) (t : TemplateResponse.t) : Prop :=
  exists now now_unix sent, ArmTemplate now now_unix sent (Some t) ∈ arms.

Record loop_ok (arms : list arm) s : Prop := {
  lo_pending : forall id pt, Loop.pending_templates s !! id = Some pt ->
    TemplateResponse.template_id (PendingTemplate.template pt) = id /\ was_received arms (PendingTemplate.template pt);
  lo_covered : covered (Loop.pending_templates s) (Loop.pending_order s);
  lo_size : (size (Loop.pending_templates s) <= 2)%nat;
  lo_idle : is_degraded s = true \/ enforcing = false ->
    Loop.pending_templates s = ∅ /\ Loop.pending_order s = [] /\ Loop.stale_hold_deadline s = None;
  lo_degraded : is_degraded s = true -> LoopConfig.auto_degrade_enabled cfg = true /\
    is_Some (Degrade.trigger (Loop.degrade s)) /\ is_Some (Degrade.degraded_since (Loop.degrade s));
  lo_normal : is_degraded s = false -> Loop.degrade s = Degrade.none;
  lo_ready : Readiness.degraded (Loop.readiness s) = is_degraded s
}.

(** What the turns that touch neither the pending templates nor the mode preserve. *)
Definition same_core s s' : Prop :=
  Loop.pending_templates s' = Loop.pending_templates s /\ Loop.pending_order s' = Loop.pending_order s /\
  Loop.stale_hold_deadline s' = Loop.stale_hold_deadline s /\ Loop.degrade s' = Loop.degrade s /\
  Readiness.degraded (Loop.readiness s') = Readiness.degraded (Loop.readiness s).

Lemma was_received_cons a arms t : was_received arms t -> was_received (a :: arms) t.
Proof. intros (n & u & b & Hin). exists n, u, b. by right. Qed.

Lemma loop_ok_same a arms s s' : loop_ok arms s -> same_core s s' -> loop_ok (a :: arms) s'.
Proof.
  intros [Hp Hc Hs Hi Hd Hn Hr] (Ep & Eo & Eh & Ed & Er). split; rewrite ?Ep, ?Eo, ?Eh, ?Ed, ?Er; try done.
  intros id pt Hpt. destruct (Hp id pt Hpt). split; [done|by apply was_received_cons].
Qed.

(** Fewer pending templates, with the mode unchanged. *)
Lemma loop_ok_fewer a arms s s' : loop_ok arms s ->
  Loop.pending_templates s' ⊆ Loop.pending_templates s -> covered (Loop.pending_templates s') (Loop.pending_order s') ->
  (Loop.pending_order s = [] -> Loop.pending_order s' = []) ->
  (Loop.stale_hold_deadline s' <> None -> Loop.stale_hold_deadline s <> None \/ is_degraded s = false /\ enforcing = true) ->
  Loop.degrade s' = Loop.degrade s -> Readiness.degraded (Loop.readiness s') = Readiness.degraded (Loop.readiness s) ->
  loop_ok (a :: arms) s'.
Proof.
  intros [Hp Hc Hs Hi Hd Hn Hr] Hsub Hcov Ho Hh Ed Er. split; rewrite ?Ed, ?Er; try done.
  - intros id pt Hpt. destruct (Hp id pt) as [? ?]; [by eapply lookup_weaken|]. split; [done|by apply was_received_cons].
  - apply map_subseteq_size in Hsub. lia.
  - intros Hidle. destruct (Hi Hidle) as (Hip & Hio & Hih). rewrite (Ho Hio) in Hcov.
    split_and!; [by apply covered_nil|by apply Ho|].
    destruct (Loop.stale_hold_deadline s') eqn:Hx; [|done]. exfalso.
    destruct Hh as [Hh|[Hh1 Hh2]]; [done|by apply Hh|]. destruct Hidle; congruence.
Qed.

Ltac nothing_pending :=
  first [rewrite map_size_empty; lia | intros id pt Hx; by rewrite lookup_empty in Hx | intros id [pt Hx]; by rewrite lookup_empty in Hx].

Lemma flush_pending_spec now nu order : forall s,
  let s' := flush_pending now nu order s in
  Loop.readiness s' = Loop.readiness s /\ Degrade.degraded (Loop.degrade s') = is_degraded s /\
  Degrade.trigger (Loop.degrade s') = Degrade.trigger (Loop.degrade s) /\
  Degrade.degraded_since (Loop.degrade s') = Degrade.degraded_since (Loop.degrade s).
Proof.
  induction order as [|id order IH]; intros s; [done|]. cbn [flush_pending].
  destruct (Loop.pending_templates s !! id) as [pt|]; [|apply IH].
  exact (IH (Loop.set_degrade (Degrade.count_unenforced (Loop.degrade s)) (broadcast now nu (PendingTemplate.template pt)
    (Loop.set_pending_templates (delete id (Loop.pending_templates s)) s)))).
Qed.

Lemma on_template_ok now nu sent t arms s s' : loop_ok arms s ->
  on_template cfg now nu sent t s = Continue s' -> loop_ok (ArmTemplate now nu sent t :: arms) s'.
Proof.
  intros Hok Ht. destruct t as [t|]; [|done]. cbn [on_template] in Ht.
  set (s1 := Loop.set_last_template_received now s) in Ht.
  destruct (TemplateDedupCache.is_duplicate _ _ _) as [dup cache].
  set (s2 := Loop.set_dedup_cache cache s1) in Ht.
  destruct dup; [injection Ht as <-; by apply (loop_ok_same _ arms s)|].
  set (s3 := if sent then _ else s2) in Ht.
  assert (same_core s s3) as Hsame by (unfold s3; by destruct sent).
  destruct (enforcing && negb (is_degraded s3)) eqn:Hmode.
  - apply andb_true_iff in Hmode as [Hen Hdg]. apply negb_true_iff in Hdg.
    apply (loop_ok_same (ArmTemplate now nu sent (Some t))) with (s' := s3) in Hok; [|done].
    destruct Hok as [Hp Hc Hs Hi Hd Hn Hr].
    pose proof (evict_pending_spec (TemplateResponse.source_instance_id t) (Loop.pending_order s3)
      (Loop.pending_templates s3) (Loop.dedup_cache s3) Hc) as Hev.
    destruct (evict_pending _ _ _ _) as [[pending order] cache'].
    destruct Hev as (Hsub & Hcov & Hsz & _ & _). injection Ht as <-. split; cbn; try done.
    + intros id pt. rewrite lookup_insert. case_decide as Hid.
      * intros [= <-]. split; [done|]. exists now, nu, sent. by left.
      * intros Hpt. apply Hp. by eapply lookup_weaken.
    + intros id. rewrite lookup_insert. case_decide as Hid; [subst; set_solver|]. intros Hx%Hcov. set_solver.
    + rewrite map_size_insert. case_match; cbn; lia.
    + intros [?|?]; congruence.
  - injection Ht as <-. destruct (is_degraded _) eqn:Hdg.
    + apply (loop_ok_same (ArmTemplate now nu sent (Some t))) with (s' := s3) in Hok; [|done].
      destruct Hok as [Hp Hc Hs Hi Hd Hn Hr]. cbn in Hdg. split; cbn; try done. congruence.
    + apply (loop_ok_same (ArmTemplate now nu sent (Some t)) arms s); [done|]. by destruct Hsame.
Qed.

Lemma recover_mode_ok now now_ms arms s : loop_ok arms s -> loop_ok arms (recover_mode now now_ms s).
Proof.
  intros [Hp Hc Hs Hi Hd Hn Hr]. split; cbn; try done. intros [?|Hx]; [done|]. apply Hi. by right.
Qed.

Lemma apply_verdict_ok now nu v a arms s : enforcing = true -> loop_ok arms s ->
  loop_ok (a :: arms) (apply_verdict cfg now nu v s).
Proof.
  intros Hen Hok. unfold apply_verdict. destruct (Loop.pending_templates s !! TemplateVerdict.id v) as [pt|] eqn:Hp;
    [|by apply (loop_ok_same _ arms s)].
  assert (is_degraded s = false) as Hnd.
  { destruct (is_degraded s) eqn:Hd; [|done]. destruct (lo_idle _ _ Hok (or_introl Hd)) as (Hemp & _).
    by rewrite Hemp, lookup_empty in Hp. }
  assert (delete (TemplateVerdict.id v) (Loop.pending_templates s) ⊆ Loop.pending_templates s) as Hsub
    by apply delete_subseteq.
  assert (covered (delete (TemplateVerdict.id v) (Loop.pending_templates s))
    (filter (fun id => id <> TemplateVerdict.id v) (Loop.pending_order s))) as Hcov.
  { intros id Hid. rewrite lookup_delete in Hid. case_decide; [by destruct Hid|]. apply list_elem_of_filter.
    split; [done|]. by apply (lo_covered _ _ Hok). }
  case_if; [|case_match; [|case_if]]; apply (loop_ok_fewer _ arms s); try done; cbn; try (by intros ->); auto.
Qed.

Lemma on_verdict_ok now nu now_ms r arms s s' : loop_ok arms s ->
  on_verdict_recv cfg now nu now_ms r s = Continue s' -> loop_ok (ArmVerdict now nu now_ms r :: arms) s'.
Proof.
  intros Hok Ht. destruct r as [v| | |]; cbn [on_verdict_recv] in Ht; [| |injection Ht as <-; by apply (loop_ok_same _ arms s)|done].
  - injection Ht as <-. set (s1 := if _ && _ then recover_mode now now_ms s else s).
    assert (loop_ok arms s1) as Hok1 by (unfold s1; case_if; [by apply recover_mode_ok|done]).
    set (s2 := if enforcing then _ else s1).
    assert (loop_ok (ArmVerdict now nu now_ms (RecvVerdict v) :: arms) s2) as Hok2.
    { unfold s2. destruct enforcing eqn:Hen; [by apply apply_verdict_ok|by apply (loop_ok_same _ arms s1)]. }
    by destruct Hok2 as [Hp Hc Hs Hi Hd Hn Hr].
  - apply (loop_ok_same (ArmVerdict now nu now_ms RecvHeartbeatAck)) with (s' := Loop.set_last_verifier_ack now s) in Hok; [|done].
    case_if; injection Ht as <-; [|done]. apply recover_mode_ok with (now := now) (now_ms := now_ms) in Hok.
    destruct Hok as [Hp Hc Hs Hi Hd Hn Hr]. split; cbn; try done; nothing_pending.
Qed.

Lemma on_degrade_check_ok now nu now_ms arms s s' : loop_ok arms s ->
  on_degrade_check cfg now nu now_ms s = Continue s' -> loop_ok (ArmDegradeCheck now nu now_ms :: arms) s'.
Proof.
  intros Hok Ht. unfold on_degrade_check in Ht. set (trigger := degrade_trigger_for _ _ _ _) in Ht.
  case_if; injection Ht as <-; [|by apply (loop_ok_same _ arms s)]. z_bool.
  set (s1 := Loop.set_readiness _ _).
  destruct (flush_pending_spec now nu (Loop.pending_order s) s1) as (Hr & Hd & Htr & Hsi).
  revert Hr Hd Htr Hsi. generalize (flush_pending now nu (Loop.pending_order s) s1). intros s2 Hr Hd Htr Hsi.
  split; cbn; try done; try nothing_pending.
  - intros _. rewrite Htr, Hsi. split_and!; [done| |by eexists]. cbn. destruct trigger; [by eexists|done].
  - rewrite Hd. done.
  - by rewrite Hr, Hd.
Qed.

Lemma turn_ok a arms s s' : loop_ok arms s -> turn cfg a s = Some (Continue s') -> loop_ok (a :: arms) s'.
Proof.
  intros Hok Ht. destruct a as [now nu sent t|now nu now_ms r|env first queued|env now_ms first queued|now|now|now|
    now nu now_ms|]; cbn [turn] in Ht.
  - apply (inj Some) in Ht. by apply (on_template_ok _ _ _ _ _ s).
  - apply (inj Some) in Ht. by apply (on_verdict_ok _ _ _ _ _ s).
  - apply (inj Some) in Ht. unfold on_share_result in Ht. destruct first; [|injection Ht as <-; by apply (loop_ok_same _ arms s)].
    case_match; [|done]. injection Ht as <-. by apply (loop_ok_same _ arms s).
  - apply (inj Some) in Ht. unfold on_share_event in Ht. destruct first; [|injection Ht as <-; by apply (loop_ok_same _ arms s)].
    case_match; [|done]. injection Ht as <-. by apply (loop_ok_same _ arms s).
  - apply (inj Some) in Ht. unfold on_sweep_tick in Ht.
    pose proof (sweep_spec now (from_millis (LoopConfig.max_template_age_ms cfg)) (Loop.pending_templates s)
      (Loop.pending_order s) (Loop.dedup_cache s) (lo_covered _ _ Hok)) as Hsw.
    destruct (sweep_stale_pending_templates _ _ _ _ _) as [[[pending order] cache] n].
    destruct Hsw as (Hsub & Hcov & _ & Ho). injection Ht as <-. apply (loop_ok_fewer _ arms s); cbn; auto.
  - destruct (Loop.stale_hold_deadline s) eqn:Hh; [|done]. case_if; [|done]. apply (inj Some) in Ht.
    unfold on_stale_hold in Ht. destruct (is_degraded s) eqn:Hdg; [|done].
    destruct (lo_idle _ _ Hok (or_introl Hdg)) as (_ & _ & Hx). congruence.
  - apply (inj Some) in Ht. unfold on_upstream_check in Ht. case_if; [case_match; [done|]|];
      injection Ht as <-; by apply (loop_ok_same _ arms s).
  - apply (inj Some) in Ht. by apply (on_degrade_check_ok _ _ _ _ s).
  - done.
Qed.

Lemma new_ok now retention max_entries r wal : Readiness.degraded r = false ->
  loop_ok [] (Loop.new now retention max_entries r wal).
Proof. intros Hr. split; cbn; try done; try nothing_pending. Qed.

Lemma runs_ok s0 arms s : loop_ok [] s0 -> runs cfg s0 arms s -> loop_ok arms s.
Proof. intros H0'. induction 1 as [|arms s a s' _ IH Ht]; [done|]. by apply (turn_ok a arms s). Qed.

(** The main loop, after any turns: at most two templates wait for a verdict, each in the
    eviction order; while enforcement is suspended, or in a mode that does not enforce, none waits
    and no stale hold runs; only an inline gateway with the option on is ever degraded, and the
    readiness probe's flag says so exactly then. *)
Theorem loop_invariant now retention max_entries r wal arms s :
  Readiness.degraded r = false -> runs cfg (Loop.new now retention max_entries r wal) arms s ->
  (size (Loop.pending_templates s) <= 2)%nat /\
  (forall id, is_Some (Loop.pending_templates s !! id) -> id ∈ Loop.pending_order s) /\
  (is_degraded s = true \/ enforcing = false ->
     Loop.pending_templates s = ∅ /\ Loop.pending_order s = [] /\ Loop.stale_hold_deadline s = None) /\
  (is_degraded s = true -> LoopConfig.auto_degrade cfg = true /\ LoopConfig.mode cfg = Inline /\
     is_Some (Degrade.trigger (Loop.degrade s))) /\
  Readiness.degraded (Loop.readiness s) = is_degraded s.
Proof.
  intros Hr Hrun. destruct (runs_ok _ _ _ (new_ok now retention max_entries r wal Hr) Hrun) as [Hp Hc Hs Hi Hd Hn Hre].
  split_and!; try done. intros Hdg. destruct (Hd Hdg) as (Ha & Ht & _). unfold LoopConfig.auto_degrade_enabled in Ha.
  z_bool. split_and!; [done| |done]. by destruct (LoopConfig.mode cfg).
Qed.

(** *** Jobs *)

Lemma broadcast_created now nu t j :
  exists new, JobState.created (broadcast_job_from_template now nu t j) = JobState.created j ++ new /\
    (forall job b, (job, b) ∈ new -> exists id active,
       job_of_template now nu id t active = Some (job, b) /\ new = [(job, b)]).
Proof.
  unfold broadcast_job_from_template. destruct (IdAllocator.allocate (JobState.job_alloc j)) as [[id|] alloc].
  2:{ exists []. cbn. split; [by rewrite app_nil_r|set_solver]. }
  cbn. destruct (job_of_template _ _ _ _ _) as [[job b]|] eqn:Hj; cbn.
  - exists [(job, b)]. split; [done|]. intros job' b' [= -> ->]%list_elem_of_singleton. by eauto.
  - exists []. split; [by rewrite app_nil_r|set_solver].
Qed.

Lemma job_of_template_id now nu id t active job b :
  job_of_template now nu id t active = Some (job, b) -> JobRecord.template_id job = TemplateResponse.template_id t.
Proof. unfold job_of_template. by repeat case_match; intros [= <- <-]. Qed.

Lemma flush_created now nu order : forall s, exists new,
  JobState.created (Loop.jobs (flush_pending now nu order s)) = JobState.created (Loop.jobs s) ++ new.
Proof.
  induction order as [|id order IH]; intros s; [exists []; by rewrite app_nil_r|]. cbn [flush_pending].
  destruct (Loop.pending_templates s !! id) as [pt|]; [|apply IH].
  match goal with |- context [flush_pending now nu order ?x] => destruct (IH x) as [new ->] end.
  destruct (broadcast_created now nu (PendingTemplate.template pt) (Loop.jobs s)) as (new' & Hn & _).
  exists (new' ++ new). cbn. by rewrite Hn, <-app_assoc.
Qed.

(** Where a verdict's job comes from. *)
Lemma verdict_created now nu now_ms v arms s : enforcing = true -> is_degraded s = false -> loop_ok arms s ->
  exists new, JobState.created (Loop.jobs (outcome_state (on_verdict_recv cfg now nu now_ms (RecvVerdict v) s)))
    = JobState.created (Loop.jobs s) ++ new /\
  (forall job b, (job, b) ∈ new -> TemplateVerdict.accepted v = true /\
     TemplateVerdict.id v = JobRecord.template_id job /\
     exists t id active, was_received arms t /\ job_of_template now nu id t active = Some (job, b)).
Proof.
  intros Hen Hnd Hok. cbn [on_verdict_recv outcome_state]. rewrite Hnd, Hen. cbn [andb].
  unfold apply_verdict. destruct (Loop.pending_templates s !! TemplateVerdict.id v) as [pt|] eqn:Hp.
  2:{ exists []. split; [by rewrite app_nil_r|set_solver]. }
  destruct (lo_pending _ _ Hok _ _ Hp) as [Hid Hrec]. destruct (TemplateVerdict.accepted v).
  - destruct (broadcast_created now nu (PendingTemplate.template pt) (Loop.jobs s)) as (new & Hn & Hnew).
    exists new. split; [exact Hn|]. intros job b Hin. destruct (Hnew job b Hin) as (id & active & Hj & _).
    split_and!; [done|by rewrite (job_of_template_id _ _ _ _ _ _ _ Hj)|by eauto 10].
  - exists []. rewrite app_nil_r. split; [|set_solver]. cbn. repeat case_match; done.
Qed.

(** Every other turn of an enforcing gateway creates no job. *)
Definition creates_jobs (a : arm) : bool :=
  match a with ArmVerdict _ _ _ (RecvVerdict _) | ArmDegradeCheck _ _ _ => true | _ => false end.

Lemma quiet_turn a s o : enforcing = true -> is_degraded s = false -> creates_jobs a = false ->
  turn cfg a s = Some o -> JobState.created (Loop.jobs (outcome_state o)) = JobState.created (Loop.jobs s).
Proof.
  intros Hen Hnd Hq Ht.
  destruct a as [n u sent t|n u ms [v| | |]|env first queued|env ms first queued|n|n|n|n u ms|]; try done;
    cbn [turn] in Ht; try (apply (inj Some) in Ht as <-).
  - unfold on_template. destruct t as [t|]; [|done].
    destruct (TemplateDedupCache.is_duplicate _ _ _) as [[] cache]; [done|].
    destruct sent; cbn [Loop.degrade Loop.set_proposed Loop.set_dedup_cache Loop.set_last_template_received];
      rewrite Hen, Hnd; cbn [andb negb]; by destruct (evict_pending _ _ _ _) as [[p' o'] c'].
  - cbn [on_verdict_recv]. by case_if.
  - done.
  - done.
  - unfold on_share_result. by repeat case_match.
  - unfold on_share_event. by repeat case_match.
  - unfold on_sweep_tick. by repeat case_match.
  - destruct (Loop.stale_hold_deadline s); [|done]. case_if; [|done]. apply (inj Some) in Ht as <-.
    unfold on_stale_hold. by case_if.
  - unfold on_upstream_check. by repeat case_match.
  - done.
Qed.

Lemma degrade_created now nu now_ms s : exists new : list (JobRecord.t * JobBroadcast.t),
  JobState.created (Loop.jobs (outcome_state (on_degrade_check cfg now nu now_ms s)))
  = JobState.created (Loop.jobs s) ++ new /\
  (new <> [] -> is_degraded (outcome_state (on_degrade_check cfg now nu now_ms s)) = true).
Proof.
  unfold on_degrade_check. case_if; [|exists []; by rewrite app_nil_r].
  set (s1 := Loop.set_readiness _ _). destruct (flush_created now nu (Loop.pending_order s1) s1) as [new Hn].
  exists new. split; [exact Hn|]. intros _.
  destruct (flush_pending_spec now nu (Loop.pending_order s1) s1) as (_ & Hd & _). exact Hd.
Qed.

(** C2 An inline gateway broadcasts only what the verifier accepted. In a turn that starts with
    enforcement on, every job that is created is for a template the gateway received before and the
    verifier has just accepted under its id; the one exception is the turn that suspends
    enforcement because the verifier went silent, which releases what was waiting. *)
Theorem inline_jobs_verified now retention max_entries r wal arms s a o :
  LoopConfig.mode cfg = Inline -> Readiness.degraded r = false ->
  runs cfg (Loop.new now retention max_entries r wal) arms s ->
  is_degraded s = false -> turn cfg a s = Some o ->
  exists new, JobState.created (Loop.jobs (outcome_state o)) = JobState.created (Loop.jobs s) ++ new /\
  (forall job b, (job, b) ∈ new ->
     is_degraded (outcome_state o) = true \/
     exists at_now at_unix at_ms v t id active,
       a = ArmVerdict at_now at_unix at_ms (RecvVerdict v) /\ TemplateVerdict.accepted v = true /\
       TemplateVerdict.id v = JobRecord.template_id job /\ was_received arms t /\
       job_of_template at_now at_unix id t active = Some (job, b)).
Proof.
  intros Hm Hr Hrun Hnd Ht. pose proof (runs_ok _ _ _ (new_ok now retention max_entries r wal Hr) Hrun) as Hok.
  assert (enforcing = true) as Hen by (by rewrite Hm).
  destruct (creates_jobs a) eqn:Hq.
  2:{ exists []. rewrite app_nil_r. split; [by apply (quiet_turn a)|set_solver]. }
  destruct a as [| n u ms [v| | |]| | | | | |n u ms|]; try done; apply (inj Some) in Ht as <-.
  - destruct (verdict_created n u ms v arms s Hen Hnd Hok) as (new & Hn & Hnew). exists new. split; [exact Hn|].
    intros job b Hin. destruct (Hnew job b Hin) as (Ha & Hid & t & id & active & Hrec & Hj). right. by eauto 15.
  - destruct (degrade_created n u ms s) as (new & Hn & Hd). exists new. split; [exact Hn|].
    intros job b Hin. left. apply Hd. by intros ->; apply elem_of_nil in Hin.
Qed.

(** *** The stale hold *)

Definition hold_set_by (a : arm) (deadline : Z) : Prop :=
  exists now nu ms v, a = ArmVerdict now nu ms (RecvVerdict v) /\ TemplateVerdict.accepted v = false /\
    deadline = now + from_millis (LoopConfig.prevhash_stale_hold_ms cfg).

(** The stale hold cannot be stretched: a turn leaves a running deadline where it is or clears
    it, however many rejections follow; it is set only by the verdict that rejects a template, to
    that moment plus the configured hold. *)
Theorem stale_hold_not_extended a s s' :
  turn cfg a s = Some (Continue s') ->
  match Loop.stale_hold_deadline s, Loop.stale_hold_deadline s' with
  | Some d, Some d' => d' = d
  | None, Some d' => hold_set_by a d'
  | _, None => True
  end.
Proof.
  intros Ht. assert (Loop.stale_hold_deadline s' = Loop.stale_hold_deadline s \/
    Loop.stale_hold_deadline s' = None \/
    (exists d, Loop.stale_hold_deadline s = None /\ Loop.stale_hold_deadline s' = Some d /\ hold_set_by a d)) as Hcase.
  2:{ destruct Hcase as [->|[->|(d & -> & -> & ?)]]; [by case_match|by case_match|done]. }
  destruct a as [n u sent t|n u ms r|env first queued|env ms first queued|n|n|n|n u ms|]; cbn [turn] in Ht;
    try (apply (inj Some) in Ht).
  - left. unfold on_template in Ht. destruct t as [t|]; [|done].
    destruct (TemplateDedupCache.is_duplicate _ _ _) as [[] cache]; [by injection Ht as <-|].
    case_if; [destruct (evict_pending _ _ _ _) as [[p' o'] c']|]; destruct sent; injection Ht as <-; try done; by case_if.
  - unfold on_verdict_recv in Ht. destruct r as [v| | |]; [| |injection Ht as <-; by left|done].
    + injection Ht as <-. cbn [Loop.stale_hold_deadline Loop.set_verdict_starved].
      set (s1 := if _ && _ then recover_mode n ms s else s).
      assert (Loop.stale_hold_deadline s1 = Loop.stale_hold_deadline s) as Hs1 by (unfold s1; by case_if).
      rewrite <-Hs1. clearbody s1. case_if; [|by left]. unfold apply_verdict. case_match; [|by left].
      destruct (TemplateVerdict.accepted v) eqn:Ha; [by right; left|]. cbn [Loop.stale_hold_deadline Loop.set_pending_order Loop.set_pending_templates].
      destruct (Loop.stale_hold_deadline s1) eqn:Hh; [by left|]. case_if; [|by left].
      right. right. eexists. split; [done|]. split; [done|]. by eexists n, u, ms, v.
    + case_if; injection Ht as <-; [by right; left|by left].
  - left. unfold on_share_result in Ht. destruct first; [|by injection Ht as <-]. case_match; [|done]. by injection Ht as <-.
  - left. unfold on_share_event in Ht. destruct first; [|by injection Ht as <-]. case_match; [|done]. by injection Ht as <-.
  - left. unfold on_sweep_tick in Ht. destruct (sweep_stale_pending_templates _ _ _ _ _) as [[[]]]. by injection Ht as <-.
  - destruct (Loop.stale_hold_deadline s) eqn:Hh; [|done]. case_if; [|done]. apply (inj Some) in Ht.
    unfold on_stale_hold in Ht. case_if; [|done]. injection Ht as <-. by right; left.
  - left. unfold on_upstream_check in Ht. case_if; [case_match; [done|]|]; by injection Ht as <-.
  - unfold on_degrade_check in Ht. case_if; injection Ht as <-; [by right; left|by left].
  - done.
Qed.

(** *** A verifier that does not answer *)

(** Templates have waited without a verdict since [t0], and verdicts are enforced. *)
Definition waiting_since (t0 : Z) s : Prop :=
  Loop.pending_templates s <> ∅ /\ Loop.verdict_starved s = Some t0 /\ is_degraded s = false.

Definition brings_verdict (a : arm) : bool := match a with ArmVerdict _ _ _ (RecvVerdict _) => true | _ => false end.

(** Turns without a verdict, between which templates keep waiting and enforcement is not suspended: more
    templates, acknowledged heartbeats, shares, sweeps and checks of any kind. *)
Inductive silent_runs (s0 : Loop.t) : list arm -> Loop.t -> Prop :=
| silent_start : silent_runs s0 [] s0
| silent_turn arms s a s' : silent_runs s0 arms s -> brings_verdict a = false -> turn cfg a s = Some (Continue s') ->
    Loop.pending_templates s' <> ∅ -> is_degraded s' = false -> silent_runs s0 (a :: arms) s'.

Lemma silent_are_runs s0 arms0 arms s s' : runs cfg s0 arms0 s -> silent_runs s arms s' -> runs cfg s0 (arms ++ arms0) s'.
Proof. intros Hr. induction 1; [done|]. by eapply runs_turn. Qed.

Lemma template_keeps_clock t0 n u sent t s s' : waiting_since t0 s -> on_template cfg n u sent t s = Continue s' ->
  Loop.verdict_starved s' = Some t0.
Proof.
  intros (Hp & Hc & Hd) Ht. unfold on_template in Ht. destruct t as [t|]; [|done].
  destruct (TemplateDedupCache.is_duplicate _ _ _) as [[] cache]; [by injection Ht as <-|].
  set (s3 := if sent then _ else _) in Ht.
  assert (Loop.pending_templates s3 = Loop.pending_templates s /\ Loop.verdict_starved s3 = Some t0) as (E1 & E3) by (unfold s3; by destruct sent).
  rewrite E1 in Ht. case_if; [|case_if; by injection Ht as <-].
  destruct (evict_pending _ _ _ _) as [[p' o'] c']. injection Ht as <-. cbn. by rewrite E3, bool_decide_eq_false_2.
Qed.

(** A turn without a verdict does not touch the starvation clock of an enforcing gateway. *)
Lemma silent_keeps_clock t0 a s s' : waiting_since t0 s -> brings_verdict a = false -> turn cfg a s = Some (Continue s') ->
  is_degraded s' = false -> Loop.verdict_starved s' = Some t0.
Proof.
  intros Hw Ha Ht Hd'. pose proof Hw as (Hp & Hc & Hd).
  destruct a as [n u sent t|n u ms r|env first queued|env ms first queued|n|n|n|n u ms|]; cbn [turn] in Ht; try (apply (inj Some) in Ht).
  - by eapply template_keeps_clock.
  - destruct r as [v| | |]; [done| |by injection Ht as <-|done]. cbn [on_verdict_recv] in Ht.
    change (is_degraded (Loop.set_last_verifier_ack n s)) with (is_degraded s) in Ht. rewrite Hd in Ht. by injection Ht as <-.
  - unfold on_share_result in Ht. destruct first; [|by injection Ht as <-]. case_match; [|done]. by injection Ht as <-.
  - unfold on_share_event in Ht. destruct first; [|by injection Ht as <-]. case_match; [|done]. by injection Ht as <-.
  - unfold on_sweep_tick in Ht. destruct (sweep_stale_pending_templates _ _ _ _ _) as [[[]]]. by injection Ht as <-.
  - destruct (Loop.stale_hold_deadline s); [|done]. case_if; [|done]. apply (inj Some) in Ht. unfold on_stale_hold in Ht.
    rewrite Hd in Ht. done.
  - unfold on_upstream_check in Ht. case_if; [case_match; [done|]|]; by injection Ht as <-.
  - unfold on_degrade_check in Ht. case_if; injection Ht as <-; [exfalso|done]. revert Hd'. cbn.
    match goal with |- context [flush_pending n u ?o ?x] => destruct (flush_pending_spec n u o x) as (_ & Hdg & _) end.
    by rewrite Hdg.
  - done.
Qed.

Lemma silent_keeps_waiting t0 s arms s' : waiting_since t0 s -> silent_runs s arms s' -> waiting_since t0 s'.
Proof.
  intros Hw. induction 1 as [|arms s1 a s2 Hr IH Ha Ht Hp Hd]; [done|]. split_and!; [done| |done]. by eapply silent_keeps_clock.
Qed.

Lemma allocate_stays_exhausted a : IdAllocator.exhausted a = true -> (IdAllocator.allocate a).2 = a.
Proof. unfold IdAllocator.allocate. by intros ->. Qed.

Lemma broadcast_exhausted now nu t j : IdAllocator.exhausted (JobState.job_alloc j) = true ->
  IdAllocator.exhausted (JobState.job_alloc (broadcast_job_from_template now nu t j)) = true.
Proof. intros He. unfold broadcast_job_from_template, IdAllocator.allocate. by rewrite He. Qed.

(** The broadcast of a template that parses makes its job while ids last. *)
Lemma broadcast_makes_job now nu t j : is_Some (job_of_template now nu 0 t None) ->
  IdAllocator.exhausted (JobState.job_alloc (broadcast_job_from_template now nu t j)) = false ->
  exists id active job b, job_of_template now nu id t active = Some (job, b) /\
    JobState.created (broadcast_job_from_template now nu t j) = JobState.created j ++ [(job, b)].
Proof.
  intros Hp. unfold broadcast_job_from_template. destruct (IdAllocator.allocate (JobState.job_alloc j)) as [[id|] alloc] eqn:Ea.
  - intros _. assert (is_Some (job_of_template now nu id t (JobState.active_prev_hash j))) as [[job b] Hj].
    { revert Hp. unfold job_of_template. by repeat case_match. }
    cbn. rewrite Hj. cbn. by exists id, (JobState.active_prev_hash j), job, b.
  - cbn. intros He. revert Ea. unfold IdAllocator.allocate. case_if; [|case_if]; intros [= <-]; [congruence|done].
Qed.

Lemma flush_broadcasts now nu order : forall s,
  let s' := flush_pending now nu order s in
  (IdAllocator.exhausted (JobState.job_alloc (Loop.jobs s)) = true ->
   IdAllocator.exhausted (JobState.job_alloc (Loop.jobs s')) = true) /\
  exists new, JobState.created (Loop.jobs s') = JobState.created (Loop.jobs s) ++ new /\
    (IdAllocator.exhausted (JobState.job_alloc (Loop.jobs s')) = false -> forall id pt, id ∈ order ->
       Loop.pending_templates s !! id = Some pt -> is_Some (job_of_template now nu 0 (PendingTemplate.template pt) None) ->
       exists jid active job b, job_of_template now nu jid (PendingTemplate.template pt) active = Some (job, b) /\ (job, b) ∈ new).
Proof.
  induction order as [|k order IH]; intros s; cbn [flush_pending].
  { split; [done|]. exists []. split; [by rewrite app_nil_r|]. intros _ id pt Hin. by apply elem_of_nil in Hin. }
  destruct (Loop.pending_templates s !! k) as [pt0|] eqn:Ek.
  2:{ destruct (IH s) as (He & new & Hn & Hj). split; [done|]. exists new. split; [done|].
      intros Hx id pt [->|Hin]%elem_of_cons Hpt; [congruence|by eapply Hj]. }
  match goal with |- context [flush_pending now nu order ?x] => destruct (IH x) as (He & new & Hn & Hj) end.
  cbn [Loop.jobs Loop.set_degrade Loop.set_pending_templates Loop.set_jobs broadcast Loop.pending_templates] in He, Hn, Hj.
  set (j := broadcast_job_from_template now nu (PendingTemplate.template pt0) (Loop.jobs s)) in *.
  split; [intros Hx; by apply He, broadcast_exhausted|].
  destruct (broadcast_created now nu (PendingTemplate.template pt0) (Loop.jobs s)) as (first & Hf & _). fold j in Hf.
  exists (first ++ new). split; [by rewrite Hn, Hf, app_assoc|]. intros Hx id pt Hin Hpt Hparse.
  destruct (decide (id = k)) as [->|Hne].
  - rewrite Ek in Hpt. apply (inj Some) in Hpt. subst pt0.
    assert (IdAllocator.exhausted (JobState.job_alloc j) = false) as Hj0.
    { destruct (IdAllocator.exhausted (JobState.job_alloc j)); [|done]. rewrite He in Hx; done. }
    destruct (broadcast_makes_job now nu _ (Loop.jobs s) Hparse Hj0) as (jid & active & job & b & Hjob & Hc). fold j in Hc.
    rewrite Hf in Hc. apply (inj (app _)) in Hc as ->. exists jid, active, job, b. split; [done|]. apply elem_of_app. left. by left.
  - apply elem_of_cons in Hin as [?|Hin]; [done|].
    destruct (Hj Hx id pt Hin) as (jid & active & job & b & Hjob & Hc); [by rewrite lookup_delete_ne|done|].
    exists jid, active, job, b. split; [done|]. apply elem_of_app. by right.
Qed.

(** C33 A verifier that keeps its link but answers no proposal is found out, however fast templates
    churn through the two pending places: if templates have waited since [t0] and, while some keep
    waiting and enforcement is on, turns of every kind are taken but for a verdict (templates, acknowledged
    heartbeats, shares, sweeps, earlier checks), the first degradation check past the threshold suspends
    enforcement, empties the pending set, and makes of every waiting template that parses a job, as long
    as there are job ids. *)
Theorem silent_verifier_degrades start retention max_entries r wal arms0 t0 s arms s' now nu now_ms :
  LoopConfig.auto_degrade_enabled cfg = true -> Readiness.degraded r = false ->
  runs cfg (Loop.new start retention max_entries r wal) arms0 s ->
  waiting_since t0 s -> silent_runs s arms s' ->
  now - t0 > from_millis (LoopConfig.auto_degrade_after_ms cfg) -> 0 <= from_millis (LoopConfig.auto_degrade_after_ms cfg) ->
  exists s'' new, turn cfg (ArmDegradeCheck now nu now_ms) s' = Some (Continue s'') /\
    is_degraded s'' = true /\ is_Some (Degrade.trigger (Loop.degrade s'')) /\
    Loop.pending_templates s'' = ∅ /\ Loop.pending_order s'' = [] /\
    Readiness.degraded (Loop.readiness s'') = true /\
    JobState.created (Loop.jobs s'') = JobState.created (Loop.jobs s') ++ new /\
    (IdAllocator.exhausted (JobState.job_alloc (Loop.jobs s'')) = false -> forall id pt,
       Loop.pending_templates s' !! id = Some pt -> is_Some (job_of_template now nu 0 (PendingTemplate.template pt) None) ->
       exists jid active job b, job_of_template now nu jid (PendingTemplate.template pt) active = Some (job, b) /\ (job, b) ∈ new).
Proof.
  intros Hauto Hr0 Hrun0 Hw Hrun Hnow Hpos.
  pose proof (runs_ok _ _ _ (new_ok start retention max_entries r wal Hr0) (silent_are_runs _ _ _ _ _ Hrun0 Hrun)) as Hok.
  pose proof (lo_covered _ _ Hok) as Hcov. pose proof (silent_keeps_waiting t0 s arms s' Hw Hrun) as (Hp & Hc & Hd).
  assert (Loop.pending_order s' <> []) as Hne.
  { intros Hnil. rewrite Hnil in Hcov. by apply covered_nil in Hcov. }
  cbn [turn]. unfold on_degrade_check. rewrite Hauto, Hd. cbn [andb negb].
  rewrite (bool_decide_eq_false_2 (Loop.pending_order s' = [])) by done. rewrite Hc.
  cbn [StarvationClock.elapsed_while_outstanding fmap option_fmap option_map].
  assert (degrade_trigger_for (saturating_sub now (Loop.last_verifier_ack s')) (oldest_pending_age now s')
    (Some (saturating_sub now t0)) (from_millis (LoopConfig.auto_degrade_after_ms cfg)) <> None) as Htr.
  { unfold degrade_trigger_for. case_if; [done|]. cbn [longer_than].
    assert (saturating_sub now t0 >? from_millis (LoopConfig.auto_degrade_after_ms cfg) = true) as ->
      by (apply Z.gtb_lt; unfold saturating_sub; lia). by rewrite orb_true_r. }
  rewrite bool_decide_eq_false_2 by done. cbn [negb].
  set (s1 := Loop.set_readiness _ _).
  destruct (flush_pending_spec now nu (Loop.pending_order s') s1) as (Hr & Hdg & Htg & _).
  destruct (flush_broadcasts now nu (Loop.pending_order s') s1) as (_ & new & Hn & Hj).
  eexists _, new. split; [reflexivity|].
  cbn [Loop.degrade Loop.pending_templates Loop.pending_order Loop.readiness Loop.jobs Loop.set_mode_events Loop.set_verdict_starved
    Loop.set_stale_hold_deadline Loop.set_pending_templates Loop.set_pending_order].
  change (Loop.pending_order s1) with (Loop.pending_order s'). rewrite Hr, Hdg, Htg. split_and!; try done.
  - cbn. destruct (degrade_trigger_for _ _ _ _); [by eexists|done].
  - intros Hx id pt Hpt. apply (Hj Hx id pt); [|done]. apply Hcov. by eexists.
Qed.

(** *** What an accepted verdict does *)

Lemma job_activates now nu id t active job b : job_of_template now nu id t active = Some (job, b) ->
  (if JobRecord.activated job then Some (JobRecord.prev_hash job) else active) = Some (JobRecord.prev_hash job).
Proof.
  unfold job_of_template.
  destruct (display_hex_to_wire_bytes _) as [wire|]; [|done]. destruct (parse_merkle_path _); [|done].
  destruct (hex_decode _) as [pre|]; [|done]. destruct (hex_decode _) as [suf|]; [|done]. cbv zeta.
  destruct (bool_decide_reflect (active = Some wire)); cbn [negb]; by intros [= <- <-].
Qed.

(** The job of a pending template that parses is created, kept as the latest, and the hold ends. *)
Lemma accepted_verdict_broadcasts now nu now_ms v s pt id job b :
  enforcing = true -> is_degraded s = false -> TemplateVerdict.accepted v = true ->
  Loop.pending_templates s !! TemplateVerdict.id v = Some pt ->
  (IdAllocator.allocate (JobState.job_alloc (Loop.jobs s))).1 = Some id ->
  job_of_template now nu id (PendingTemplate.template pt) (JobState.active_prev_hash (Loop.jobs s)) = Some (job, b) ->
  exists s', on_verdict_recv cfg now nu now_ms (RecvVerdict v) s = Continue s' /\
    JobState.created (Loop.jobs s') = JobState.created (Loop.jobs s) ++ [(job, b)] /\
    JobState.latest_job (Loop.jobs s') = Some b /\
    JobState.active_prev_hash (Loop.jobs s') = Some (JobRecord.prev_hash job) /\
    Loop.stale_hold_deadline s' = None /\ Loop.pending_templates s' !! TemplateVerdict.id v = None.
Proof.
  intros Hen Hd Ha Hp Hid Hj. cbn [on_verdict_recv]. rewrite Hd, Hen. cbn [andb]. unfold apply_verdict. rewrite Hp, Ha.
  eexists. split; [reflexivity|]. cbn. unfold broadcast_job_from_template.
  destruct (IdAllocator.allocate (JobState.job_alloc (Loop.jobs s))) as [id' alloc]. cbn in Hid. subst id'. cbn. rewrite Hj.
  cbn. split_and!; try done; [by eapply job_activates|by rewrite lookup_delete_eq].
Qed.
End LoopFacts.

(** ** From the node's template to a job *)

Section EndToEnd.
Context `{StdHasher, Sha256Crate, !Sha256Laws, HexCrate, !HexLaws, BitcoinLib}.

Lemma parse_merkle_path_encoded (branch : list bytes) : Forall (fun t => length t = 32%nat) branch ->
  parse_merkle_path (hex_encode <$> branch) = Some branch.
Proof.
  induction 1 as [|b branch Hb _ IH]; [done|]. rewrite fmap_cons. cbn [parse_merkle_path].
  rewrite hex_decode_encode, Hb. cbn [Nat.eqb]. by rewrite IH.
Qed.

(** C7 End to end: whatever template the manager builds from the node's answer and serves, the
    gateway turns it into a job, and for every extranonce of the agreed size the merkle root the
    gateway and the miner compute for that job is the root of the block whose first transaction is
    the coinbase of that height, value and extranonce and whose other transactions are the node's.
    The job keeps the template's id and has the node's previous block hash. *)
Theorem template_to_job attempts now src p x src' tpl sg txids ph instance now_secs at_now at_unix
    job_id active extranonce :
  Source.next_template attempts now src = (Some (Ok (Some (p, x))), src') ->
  Source.poll_node 3 attempts = Some (tpl, sg) ->
  GbtTx.txid <$> Gbt.transactions tpl = display_txid <$> txids ->
  Forall (fun t : bytes => length t = 32%nat) txids ->
  Gbt.previous_block_hash tpl = hex_encode (reverse ph) -> length ph = 32%nat ->
  0 <= TemplatePropose.block_height p < 2 ^ 31 ->
  length extranonce = Source.extranonce_size src ->
  exists job b,
    job_of_template at_now at_unix job_id
      (TemplateResponse.of_latest (Manager.latest_of instance now_secs p (Some x))) active = Some (job, b) /\
    JobRecord.template_id job = stable_template_id (Source.fingerprint tpl) /\
    JobRecord.prev_hash job = ph /\
    JobBroadcast.merkle_path b = JobRecord.merkle_path job /\
    let coinbase :=
      coinbase_tx (TemplatePropose.block_height p) (TemplatePropose.coinbase_value p)
        (Source.coinbase_output_script src) (Source.coinbase_aux_bytes (Gbt.coinbaseaux tpl))
        (match Gbt.default_witness_commitment tpl with [] => None | wc => Some wc end) extranonce in
    merkle_root (sha256d (serialize_legacy coinbase) :: txids) = Some (job_merkle_root job extranonce).
Proof.
  intros Hn Hpoll Htx Hlen Hprev Hph Hh Hex.
  destruct (next_template_delivers attempts now src p x src' Hn) as
    (failed & tpl' & sg' & rest & prefix & suffix & Hat & Hf & _ & Hid & Hpv & _ & Hhalves & Hpre & Hsuf & Hbr & _).
  rewrite Hat, poll_node_replicate in Hpoll by done. injection Hpoll as -> ->.
  destruct (coinbase_halves_exact _ _ _ _ _ _ _ _ extranonce Hhalves Hex Hh) as (Hser & _ & _).
  destruct (merkle_branch_root txids prefix extranonce suffix Hlen) as (branch & Hb & Hbl & Hroot).
  rewrite <-Htx, Hbr in Hb. injection Hb as Hb.
  unfold job_of_template, Manager.latest_of, TemplateResponse.of_latest. cbn [TemplateResponse.prev_hash
    TemplateResponse.merkle_path TemplateResponse.coinbase_tx_prefix TemplateResponse.coinbase_tx_suffix
    LatestTemplate.prev_hash LatestTemplate.merkle_path LatestTemplate.coinbase_tx_prefix
    LatestTemplate.coinbase_tx_suffix unwrap_or].
  rewrite Hpv, Hprev, Hpre, Hsuf, Hb, parse_merkle_path_encoded, !hex_decode_encode by done.
  unfold display_hex_to_wire_bytes. rewrite hex_decode_encode. cbn [map_err result_bind].
  rewrite length_reverse, Hph. cbn [Nat.eqb negb]. rewrite reverse_involutive.
  eexists _, _. split; [reflexivity|]. split_and!; [exact Hid|reflexivity|reflexivity|].
  cbv zeta. rewrite <-Hser. exact Hroot.
Qed.
End EndToEnd.

(** Concrete arguments for the witnesses. *)
Module GatewaySample.
Import WalSample.
#[local] Instance hex : HexCrate := HexSample.crate.
#[local] Instance sha : Sha256Crate := Sha256Sample.crate.
#[local] Instance hasher : StdHasher := {| hasher_finish l := lenZ l |}.
#[local] Instance lib : BitcoinLib := Consensus.Sample.lib.

Definition cfg : LoopConfig.t := LoopConfig.mk Inline true 10 1000 500 1000 FailClosed "gw-1".

Definition tpl (id : Z) : TemplateResponse.t :=
  TemplateResponse.mk id 840000 0x20000000 (hex_encode (replicate 32 x0a)) 0x1703a30c 1700000000 1700000100
    312500000 "01" "02" [] 0 0 "src" None None None None None.

Definition start : Loop.t := Loop.new 0 1000 16 Readiness.new None.

Definition after (o : option outcome) : Loop.t := match o with Some o => outcome_state o | None => start end.

Definition arm1 : arm := ArmTemplate 1 1700000000 true (Some (tpl 7)).
Definition s1 : Loop.t := after (turn cfg arm1 start).

Lemma s1_runs : runs cfg start [arm1] s1.
Proof. eapply runs_turn; [apply runs_start|]. vm_compute. reflexivity. Qed.

Lemma loop_invariant_witness : (size (Loop.pending_templates s1) <= 2)%nat.
Proof. exact (proj1 (loop_invariant cfg 0 1000 16 Readiness.new None [arm1] s1 eq_refl s1_runs)). Defined.

Definition accept7 : arm := ArmVerdict 2 1700000001 0 (RecvVerdict (TemplateVerdict.mk 2 7 true None None None)).

Lemma inline_jobs_verified_witness :
  length (JobState.created (Loop.jobs (after (turn cfg accept7 s1)))) = 1%nat /\
  exists new, JobState.created (Loop.jobs (after (turn cfg accept7 s1))) = JobState.created (Loop.jobs s1) ++ new.
Proof.
  split; [by vm_compute|].
  destruct (inline_jobs_verified cfg 0 1000 16 Readiness.new None [arm1] s1 accept7
    (on_verdict_recv cfg 2 1700000001 0 (RecvVerdict (TemplateVerdict.mk 2 7 true None None None)) s1)
    eq_refl eq_refl s1_runs eq_refl eq_refl) as (new & Hn & _). exists new. exact Hn.
Defined.

(** Two rejections: the second does not move the deadline. *)
Definition reject7 : arm := ArmVerdict 2 1700000001 0 (RecvVerdict (TemplateVerdict.mk 2 7 false None None None)).
Definition s2 : Loop.t := after (turn cfg reject7 s1).
Definition s3 : Loop.t := after (turn cfg (ArmTemplate 3 1700000000 true (Some (tpl 8))) s2).
Definition reject8 : arm := ArmVerdict 4 1700000001 0 (RecvVerdict (TemplateVerdict.mk 2 8 false None None None)).

Lemma stale_hold_not_extended_witness :
  Loop.stale_hold_deadline s3 = Some (2 + from_millis 500) /\
  Loop.stale_hold_deadline (after (turn cfg reject8 s3)) = Loop.stale_hold_deadline s3.
Proof.
  split; [by vm_compute|].
  pose proof (stale_hold_not_extended cfg reject8 s3 (after (turn cfg reject8 s3)) eq_refl) as Hw.
  assert (Loop.stale_hold_deadline s3 = Some (2 + from_millis 500)) as E1 by (by vm_compute).
  destruct (Loop.stale_hold_deadline (after (turn cfg reject8 s3))) as [d|] eqn:E2; [|by vm_compute in E2].
  rewrite E1 in Hw |- *. by subst d.
Defined.

Definition arm2 : arm := ArmTemplate 5 1700000000 true (Some (tpl 8)).
Definition arm3 : arm := ArmTemplate 6 1700000000 true (Some (tpl 9)).
Definition s4 : Loop.t := after (turn cfg arm2 s1).
Definition s5 : Loop.t := after (turn cfg arm3 s4).

(** The verifier acknowledges a heartbeat, and answers nothing. *)
Definition ack : arm := ArmVerdict 7 1700000000 0 RecvHeartbeatAck.
Definition s6 : Loop.t := after (turn cfg ack s5).

Lemma not_empty_by_size (m : gmap Z PendingTemplate.t) : bool_decide (size m = 0%nat) = false -> m <> ∅.
Proof. intros Hs ->. by rewrite map_size_empty in Hs. Qed.

Lemma s6_runs : silent_runs cfg s1 [ack; arm3; arm2] s6.
Proof.
  assert (silent_runs cfg s1 [arm2] s4) as H4
    by (apply (silent_turn cfg s1 [] s1 arm2 s4); [apply silent_start|reflexivity|by vm_compute|by apply not_empty_by_size|by vm_compute]).
  assert (silent_runs cfg s1 [arm3; arm2] s5) as H5
    by (apply (silent_turn cfg s1 [arm2] s4 arm3 s5); [exact H4|reflexivity|by vm_compute|by apply not_empty_by_size|by vm_compute]).
  apply (silent_turn cfg s1 [arm3; arm2] s5 ack s6); [exact H5|reflexivity|by vm_compute|by apply not_empty_by_size|by vm_compute].
Qed.

Lemma silent_verifier_degrades_witness :
  exists s'' new, turn cfg (ArmDegradeCheck (from_millis 11) 0 0) s6 = Some (Continue s'') /\
    Degrade.degraded (Loop.degrade s'') = true /\ Loop.pending_templates s'' = ∅ /\
    JobState.created (Loop.jobs s'') = JobState.created (Loop.jobs s6) ++ new.
Proof.
  destruct (silent_verifier_degrades cfg 0 1000 16 Readiness.new None [arm1] 1 s1 [ack; arm3; arm2] s6
    (from_millis 11) 0 0) as (s'' & new & Ht & Hd & _ & Hp & _ & _ & Hn & _).
  - reflexivity.
  - reflexivity.
  - exact s1_runs.
  - split_and!; [|by vm_compute|by vm_compute]. intros Hx. apply (f_equal size) in Hx. by vm_compute in Hx.
  - exact s6_runs.
  - vm_compute. reflexivity.
  - vm_compute. discriminate.
  - exists s'', new. split; [exact Ht|]. split; [exact Hd|]. split; [exact Hp|exact Hn].
Defined.

Definition node_tpl : Gbt.t :=
  Gbt.mk 840000 (hex_encode (reverse (replicate 32 x0c)))
    [GbtTx.mk (display_txid (replicate 32 x01)) 10 400 4 [x0b]] 312500010 [] [] 0x20000000 [x17; x03; xa3; x0c]
    1700000000 1700000100.
Definition src : Source.t := Source.new [x51] 8.
Definition delivered : TemplatePropose.t * GbtExtras.t :=
  match fst (Source.next_template [GbtOk node_tpl None] 0 src) with
  | Some (Ok (Some d)) => d
  | _ => (TemplatePropose.mk 0 0 0 "" 0 0 0 None None None None None None None, Manager.no_extras 0)
  end.

Lemma template_to_job_witness : exists job b,
  job_of_template 1 1700000000 1 (TemplateResponse.of_latest
    (Manager.latest_of "tm" 1700000000 (fst delivered) (Some (snd delivered)))) None = Some (job, b) /\
  JobRecord.prev_hash job = replicate 32 x0c.
Proof.
  destruct (@template_to_job hasher sha Sha256Sample.sha256_laws hex HexSample.hex_laws lib
    [GbtOk node_tpl None] 0 src (fst delivered) (snd delivered)
    (snd (Source.next_template [GbtOk node_tpl None] 0 src)) node_tpl None [replicate 32 x01] (replicate 32 x0c)
    "tm" 1700000000 1 1700000000 1 None (replicate 8 x11)) as (job & b & Hj & _ & Hph & _).
  - vm_compute. reflexivity.
  - reflexivity.
  - reflexivity.
  - by repeat constructor.
  - reflexivity.
  - reflexivity.
  - vm_compute. split; [discriminate|reflexivity].
  - reflexivity.
  - exists job, b. split; [exact Hj|exact Hph].
Defined.
End GatewaySample.
