(* ===== verification/VerifierStream.v ===== *)
(** * The verifier stream

    Models [services/sv2-gateway/src/verifier_stream.rs]: the bounded, cancel-safe line reader, the
    I/O loop with its three malformed strikes, silence deadline and recheck, the writer that fails a
    stalled write, the dispatch of messages, the bounded log samples, and the reconnect loop.

    The socket is what each refill of the buffered reader gives; [Blocked] is a moment at which the
    [select!] takes another branch and drops the read. Times are nanoseconds. Text is its bytes. JSON
    and TLS are arguments. *)

From stdpp Require Import pretty.
From S2P Require Import Prelude Crates Protocol Consensus Mempool Policy Manager Limits.

(** ** Lines *)

Definition newline : byte := x0a.

(** The first [limit] bytes up to and with the first newline, and whether there is one. *)
Fixpoint take_line (limit : Z) (b : bytes) : bytes * bool :=
  match b with
  | [] => ([], false)
  | x :: b =>
      if limit <=? 0 then ([], false)
      else if bool_decide (x = newline) then ([x], true)
      else let '(l, found) := take_line (limit - 1) b in (x :: l, found)
  end.

(** One refill of the reader: some bytes (none is the end), nothing yet, the end, an error. *)
Inductive refill : Type := Chunk (b : bytes) | Blocked | Closed | ReadFailed.

(** The bytes buffered in the reader and the line read so far. *)
Module LineReader.
Record t : Type := mk { avail : bytes; line_buf : bytes }.
Definition new : t := mk [] [].
End LineReader.

(** How a read ends: with the number of bytes it appended, dropped by the [select!], or failed. *)
Inductive read_outcome : Type := ReadDone (n : Z) | ReadDropped | ReadErr.

(** [take(limit).read_until(b'\n', buf)]; [n] counts what this call appended. *)
Fixpoint read_until (refills : list refill) (limit n : Z) (avail buf : bytes)
    : read_outcome * list refill * LineReader.t :=
  let '(line, found) := take_line limit avail in
  let buf := buf ++ line in
  let avail := drop (length line) avail in
  let n := n + Z.of_nat (length line) in
  let limit := limit - Z.of_nat (length line) in
  if found || (limit =? 0) then (ReadDone n, refills, LineReader.mk avail buf)
  else
    match refills with
    | [] => (ReadDropped, [], LineReader.mk avail buf)
    | Blocked :: refills => (ReadDropped, refills, LineReader.mk avail buf)
    | Chunk [] :: _ | Closed :: _ => (ReadDone n, refills, LineReader.mk avail buf)
    | Chunk b :: refills => read_until refills limit n b buf
    | ReadFailed :: refills => (ReadErr, refills, LineReader.mk avail buf)
    end.

Inductive BoundedLine : Type := Line | Eof | OverLimit.

Inductive line_outcome : Type := LineReady (l : BoundedLine) | LineDropped | LineErr.

Definition ends_with_newline (b : bytes) : bool := bool_decide (last b = Some newline).

Definition read_bounded_line (max_bytes : Z) (refills : list refill) (s : LineReader.t)
    : line_outcome * list refill * LineReader.t :=
  let remaining := saturating_sub max_bytes (Z.of_nat (length (LineReader.line_buf s))) in
  if remaining =? 0 then (LineReady OverLimit, refills, s)
  else
    let '(r, refills, s) := read_until refills remaining 0 (LineReader.avail s) (LineReader.line_buf s) in
    (match r with
     | ReadDone n =>
         if (n =? 0) && (length (LineReader.line_buf s) =? 0)%nat then LineReady Eof
         else if (remaining <=? n) && negb (ends_with_newline (LineReader.line_buf s))
         then LineReady OverLimit
         else LineReady Line
     | ReadDropped => LineDropped
     | ReadErr => LineErr
     end, refills, s).

(** ** Log samples *)

Definition LOG_SAMPLE_BYTES : nat := 512.

(** Whether a byte continues a UTF-8 character. *)
Definition is_continuation (b : byte) : bool := (0x80 <=? byte_to_Z b) && (byte_to_Z b <? 0xc0).

(** [is_char_boundary]. *)
Definition is_char_boundary (s : bytes) (i : nat) : bool :=
  match s !! i with
  | Some b => negb (is_continuation b)
  | None => (i =? length s)%nat
  end.

(** [while end > 0 && !is_char_boundary(end) { end -= 1; }]. *)
Fixpoint char_floor (s : bytes) (e : nat) : nat :=
  match e with
  | O => O
  | S e' => if is_char_boundary s e then e else char_floor s e'
  end.

Definition truncated_note (total : nat) : bytes :=
  String.list_byte_of_string (" (truncated, " +:+ pretty total +:+ " bytes total)").

Definition log_sample (line : bytes) : bytes :=
  if (length line <=? LOG_SAMPLE_BYTES)%nat then line
  else take (char_floor line LOG_SAMPLE_BYTES) line ++ truncated_note (length line).

(** The sink of [log_display]: what it keeps and how much it was offered. *)
Module Capped.
Record t : Type := mk { kept : bytes; offered : nat }.
Definition new : t := mk [] 0.
Definition write_str (s : bytes) (c : t) : t :=
  let room := Nat.min (LOG_SAMPLE_BYTES - length (kept c)) (length s) in
  mk (kept c ++ take (char_floor s room) s) (offered c + length s).
End Capped.

(** [log_display] on the pieces the value's [Display] writes. *)
Definition log_display (pieces : list bytes) : bytes :=
  let sink := foldl (fun c s => Capped.write_str s c) Capped.new pieces in
  if (length (Capped.kept sink) <? Capped.offered sink)%nat
  then Capped.kept sink ++ truncated_note (Capped.offered sink)
  else Capped.kept sink.

(** ** Messages *)

Module InternalMessage.
Record t : Type := mk { msg_type : string; version : Z; payload : json }.
End InternalMessage.

Definition TEMPLATE_PROPOSE : string := "template_propose".
Definition TEMPLATE_VERDICT : string := "template_verdict".
Definition HEARTBEAT : string := "heartbeat".
Definition HEARTBEAT_ACK : string := "heartbeat_ack".

Inductive VerifierOutbound : Type := OutPropose (tp : TemplatePropose.t) | OutHeartbeat.
Inductive VerifierInbound : Type := InVerdict (v : TemplateVerdict.t) | InHeartbeatAck.

(** [serde_json] on the messages of the stream. *)
Class StreamJson : Type := {
  message_from_slice : bytes -> option InternalMessage.t;
  message_to_bytes : InternalMessage.t -> option bytes;
  verdict_from_value : json -> option TemplateVerdict.t;
  propose_to_value : TemplatePropose.t -> option json
}.

(** [trim_ascii]. *)
Definition ascii_space (b : byte) : bool :=
  match byte_to_Z b with 9 | 10 | 12 | 13 | 32 => true | _ => false end.
Fixpoint trim_start (b : bytes) : bytes :=
  match b with x :: rest => if ascii_space x then trim_start rest else b | [] => [] end.
Definition trim_ascii (b : bytes) : bytes := reverse (trim_start (reverse (trim_start b))).

(** What the loop hands on: messages for the main loop, and the flag [policy_loaded]. *)
Module Delivered.
Record t : Type := mk { verdict_tx : list VerifierInbound; policy_loaded : bool }.
End Delivered.

(** ** The I/O loop *)

Definition READ_DEADLINE_BEATS : Z := 3.

(** The loop's variables, what it delivered and what it wrote. *)
Module IoLoop.
Record t : Type := mk {
  reader : LineReader.t; last_heard : Z; rechecking : bool; malformed_count : Z;
  delivered : Delivered.t; written : list bytes }.
Definition new (now : Z) (policy_loaded : bool) : t :=
  mk LineReader.new now false 0 (Delivered.mk [] policy_loaded) [].
End IoLoop.

Inductive IoLoopOutcome : Type := Disconnected | Shutdown.

(** The loop goes on with the refills that are left, or returns. *)
Inductive io_result : Type :=
| IoContinue (refills : list refill) (s : IoLoop.t)
| IoReturn (o : IoLoopOutcome) (s : IoLoop.t).

(** One branch of the [select!]. The reads in [refills] that it leaves come back. *)
Inductive io_event : Type :=
| EvRead (now : Z) (refills : list refill)
| EvOutbound (started ended : Z) (ok : bool) (msg : option VerifierOutbound)
| EvTick (now : Z) (ok : bool)
| EvShutdown.

Section Stream.
Context `{StreamJson}.

Definition dispatch_inbound (msg : InternalMessage.t) (d : Delivered.t) : Delivered.t :=
  if bool_decide (InternalMessage.msg_type msg = TEMPLATE_VERDICT) then
    match verdict_from_value (InternalMessage.payload msg) with
    | Some v => Delivered.mk (Delivered.verdict_tx d ++ [InVerdict v]) (Delivered.policy_loaded d)
    | None => d
    end
  else if bool_decide (InternalMessage.msg_type msg = HEARTBEAT_ACK) then
    Delivered.mk (Delivered.verdict_tx d ++ [InHeartbeatAck]) true
  else d.

Definition serialize_outbound (msg : VerifierOutbound) : option bytes :=
  let internal :=
    match msg with
    | OutPropose tp =>
        (fun p => InternalMessage.mk TEMPLATE_PROPOSE PROTOCOL_VERSION p) <$> propose_to_value tp
    | OutHeartbeat => Some (InternalMessage.mk HEARTBEAT PROTOCOL_VERSION (JObj []))
    end in
  match internal with
  | Some m => (fun line => line ++ [newline]) <$> message_to_bytes m
  | None => None
  end.

(** The read branch. A read the [select!] drops changes only the reader. *)
Definition on_read (now : Z) (refills : list refill) (s : IoLoop.t) : io_result :=
  let '(r, refills, reader) := read_bounded_line MAX_INTERNAL_LINE_BYTES refills (IoLoop.reader s) in
  let with_reader rd := IoLoop.mk rd (IoLoop.last_heard s) (IoLoop.rechecking s) (IoLoop.malformed_count s)
                          (IoLoop.delivered s) (IoLoop.written s) in
  match r with
  | LineReady Eof | LineReady OverLimit | LineErr => IoReturn Disconnected (with_reader reader)
  | LineDropped => IoContinue refills (with_reader reader)
  | LineReady Line =>
      let cleared := LineReader.mk (LineReader.avail reader) [] in
      match message_from_slice (trim_ascii (LineReader.line_buf reader)) with
      | Some msg =>
          IoContinue refills (IoLoop.mk cleared now (IoLoop.rechecking s) (IoLoop.malformed_count s)
            (dispatch_inbound msg (IoLoop.delivered s)) (IoLoop.written s))
      | None =>
          let malformed := IoLoop.malformed_count s + 1 in
          if malformed >=? 3
          then IoReturn Disconnected (IoLoop.mk reader now (IoLoop.rechecking s) malformed
                 (IoLoop.delivered s) (IoLoop.written s))
          else IoContinue refills (IoLoop.mk cleared now (IoLoop.rechecking s) malformed
                 (IoLoop.delivered s) (IoLoop.written s))
      end
  end.

(** A message to send; [started] and [ended] are the clock before and after the write, [ok] whether
    the write and the flush succeeded. [None] is a closed channel. *)
Definition on_outbound (started ended : Z) (ok : bool) (msg : option VerifierOutbound) (s : IoLoop.t)
    : io_result :=
  match msg with
  | None => IoReturn Shutdown s
  | Some msg =>
      match serialize_outbound msg with
      | None => IoContinue [] s
      | Some line =>
          if ok then
            let heard := Z.min (IoLoop.last_heard s + saturating_sub ended started) ended in
            IoContinue [] (IoLoop.mk (IoLoop.reader s) heard (IoLoop.rechecking s) (IoLoop.malformed_count s)
              (IoLoop.delivered s) (IoLoop.written s ++ [line]))
          else IoReturn Disconnected s
      end
  end.

Definition read_deadline (heartbeat_interval : Z) : Z := heartbeat_interval * READ_DEADLINE_BEATS.

Definition set_rechecking (r : bool) (s : IoLoop.t) : IoLoop.t :=
  IoLoop.mk (IoLoop.reader s) (IoLoop.last_heard s) r (IoLoop.malformed_count s) (IoLoop.delivered s)
    (IoLoop.written s).

Definition on_heartbeat_tick (heartbeat_interval now : Z) (ok : bool) (s : IoLoop.t) : io_result :=
  let silent := saturating_sub now (IoLoop.last_heard s) in
  if silent >? read_deadline heartbeat_interval then
    if negb (IoLoop.rechecking s) then IoContinue [] (set_rechecking true s)
    else IoReturn Disconnected s
  else
    let s := set_rechecking false s in
    match serialize_outbound OutHeartbeat with
    | None => IoContinue [] s
    | Some hb =>
        if ok then IoContinue [] (IoLoop.mk (IoLoop.reader s) (IoLoop.last_heard s) (IoLoop.rechecking s)
                      (IoLoop.malformed_count s) (IoLoop.delivered s) (IoLoop.written s ++ [hb]))
        else IoReturn Disconnected s
    end.

Definition io_step (heartbeat_interval : Z) (e : io_event) (s : IoLoop.t) : io_result :=
  match e with
  | EvRead now refills => on_read now refills s
  | EvOutbound started ended ok msg => on_outbound started ended ok msg s
  | EvTick now ok => on_heartbeat_tick heartbeat_interval now ok s
  | EvShutdown => IoReturn Shutdown s
  end.
End Stream.

(** ** The stall guard *)

(** When the current write began to wait, if it does. *)
Definition stall_guard : Type := option Z.

Inductive guarded : Type := GuardReady | GuardPending | GuardTimedOut.

(** [poll_write] and [poll_flush] at a time; [inner_ready] is the answer of the inner writer. *)
Definition guard_poll (stall now : Z) (inner_ready : bool) (blocked : stall_guard) : guarded * stall_guard :=
  if inner_ready then (GuardReady, None)
  else
    let since := unwrap_or blocked now in
    (if now >=? since + stall then GuardTimedOut else GuardPending, Some since).

(** ** The reconnect loop *)

(** How one attempt at a connection goes. *)
Inductive attempt : Type :=
| ConnectFailed | TlsFailed | Session (policy_loaded : bool) (o : IoLoopOutcome).

(** The flags [verifier_connected] and [policy_loaded] during an attempt, oldest first, and whether
    the loop ends with it. *)
Definition run_attempt (a : attempt) (policy_loaded : bool) : list (bool * bool) * bool :=
  match a with
  | ConnectFailed => ([(false, policy_loaded)], false)
  | TlsFailed => ([(false, policy_loaded); (false, policy_loaded); (false, false)], false)
  | Session p Disconnected => ([(false, policy_loaded); (true, policy_loaded); (true, p); (false, p); (false, false)], false)
  | Session p Shutdown => ([(false, policy_loaded); (true, policy_loaded); (true, p)], true)
  end.

(** [config.reconnect_delay] and up to half of it. *)
Definition reconnect_delay_ms (reconnect_ms hash : Z) : Z :=
  let half := Z.min (reconnect_ms / 2) u64_max in
  reconnect_ms + hash mod (Z.max half 1).

(** ** Reading lines *)

Definition stream_bytes (refills : list refill) : bytes :=
  concat ((fun r => match r with Chunk b => b | _ => [] end) <$> refills).

(** A connection that stays open: each refill brings bytes or is dropped. *)
Definition open_refill (r : refill) : Prop :=
  match r with Chunk b => b <> [] | Blocked => True | Closed | ReadFailed => False end.

Lemma take_line_spec limit b l found :
  0 < limit -> take_line limit b = (l, found) ->
  exists rest, b = l ++ rest /\ Z.of_nat (length l) <= limit /\
    if found then exists l0, l = l0 ++ [newline] /\ newline ∉ l0
    else newline ∉ l /\ (rest = [] \/ Z.of_nat (length l) = limit).
Proof.
  assert (Hgen : 0 <= limit -> take_line limit b = (l, found) ->
    exists rest, b = l ++ rest /\ Z.of_nat (length l) <= limit /\
    if found then exists l0, l = l0 ++ [newline] /\ newline ∉ l0
    else newline ∉ l /\ (rest = [] \/ Z.of_nat (length l) = limit)); [|intros; apply Hgen; [lia|done]].
  revert limit l found. induction b as [|x b IH]; intros limit l found Hl; simpl.
  { intros [= <- <-]. exists []. split_and!; [done|simpl; lia|set_solver|by left]. }
  destruct (Z.leb_spec limit 0) as [Hz|Hz].
  { intros [= <- <-]. exists (x :: b). split_and!; [done|simpl; lia|set_solver|right; simpl; lia]. }
  case_bool_decide as Hx.
  { intros [= <- <-]. exists b. split_and!; [done|simpl; lia|]. exists []. subst x. split; [done|set_solver]. }
  destruct (take_line (limit - 1) b) as [l1 f1] eqn:E. intros [= <- <-].
  destruct (IH (limit - 1) l1 f1) as (rest & -> & Hlen & Hf); [lia|done|].
  exists rest. split_and!; [done|cbn [length]; lia|]. destruct f1.
  - destruct Hf as (l0 & -> & Hin). exists (x :: l0). split; [done|]. apply not_elem_of_cons. by split.
  - destruct Hf as [Hin Hr]. split; [apply not_elem_of_cons; by split|].
    destruct Hr as [->|Hr]; [by left|right; cbn [length]; lia].
Qed.

(** What a read on an open connection has done when it ends. *)
Definition read_ends (limit n : Z) (line : bytes) (refills refills' : list refill) (avail' : bytes)
    (r : read_outcome) : Prop :=
  match r with
  | ReadDone n' => n' = n + Z.of_nat (length line) /\
      ((exists l, line = l ++ [newline] /\ newline ∉ l) \/ newline ∉ line /\ Z.of_nat (length line) = limit)
  | ReadDropped => newline ∉ line /\ Z.of_nat (length line) < limit /\ avail' = [] /\
      (refills = [] \/ (length refills' < length refills)%nat)
  | ReadErr => False
  end.

Lemma read_until_spec refills limit n avail buf r refills' s' :
  Forall open_refill refills -> 0 < limit ->
  read_until refills limit n avail buf = (r, refills', s') ->
  exists line, LineReader.line_buf s' = buf ++ line /\ Z.of_nat (length line) <= limit /\
    line ++ LineReader.avail s' ++ stream_bytes refills' = avail ++ stream_bytes refills /\
    (length refills' <= length refills)%nat /\ Forall open_refill refills' /\
    read_ends limit n line refills refills' (LineReader.avail s') r.
Proof.
  intros Ho. revert limit n avail buf. induction Ho as [|c refills Hc Ho IH]; intros limit n avail buf Hl;
    cbn [read_until]; destruct (take_line limit avail) as [line found] eqn:E;
    destruct (take_line_spec _ _ _ _ Hl E) as (rest & -> & Hlen & Hf); rewrite drop_app_length;
    (destruct (found || (limit - Z.of_nat (length line) =? 0)) eqn:Hd;
     [intros [= <- <- <-]; exists line; cbn [LineReader.line_buf LineReader.avail];
      rewrite <- ?app_assoc; split_and!; [done|done|done|done|by auto|]; split; [done|];
      destruct found; [left; done|right; split; [tauto|simpl in Hd; lia]]|]);
    (destruct found; [done|]); destruct Hf as [Hin [->|?]]; try (simpl in Hd; lia); simpl in Hd.
  - intros [= <- <- <-]. exists line. cbn [LineReader.line_buf LineReader.avail].
    rewrite !app_nil_r. unfold read_ends. split_and!; auto with lia.
  - destruct c as [[|x b]| | |]; simpl in Hc; try done.
    + intros Hr. destruct (IH (limit - Z.of_nat (length line)) (n + Z.of_nat (length line)) (x :: b)
        (buf ++ line)) as (line2 & Hb & Hl2 & Hcons & Hlr & Hop & Hend); [lia|done|].
      exists (line ++ line2). rewrite length_app, Hb, <- !app_assoc. split_and!; [done|lia|..].
      * rewrite Hcons. done.
      * simpl; lia.
      * done.
      * destruct r as [n'| |]; [|destruct Hend as (H1 & H2 & H3 & H4)|done].
        -- destruct Hend as [-> He]. split; [rewrite length_app; lia|]. destruct He as [(l & -> & Hl0)|[H1 H2]].
           ++ left. exists (line ++ l). rewrite <- app_assoc. split; [done|set_solver].
           ++ right. split; [set_solver|rewrite length_app; lia].
        -- split_and!; [set_solver|rewrite length_app; lia|done|]. right. destruct H4 as [->|H4]; simpl in *; lia.
    + intros [= <- <- <-]. exists line. cbn [LineReader.line_buf LineReader.avail].
      rewrite app_nil_r. unfold read_ends. split_and!; auto with lia; simpl; auto with lia.
Qed.

(** Between two reads the loop holds a part of a line that is within the budget. *)
Definition partial_line (max : Z) (s : LineReader.t) : Prop :=
  newline ∉ LineReader.line_buf s /\ Z.of_nat (length (LineReader.line_buf s)) < max.

(** How a bounded read ends on an open connection. *)
Definition line_ends (max : Z) (refills refills' : list refill) (s' : LineReader.t) (o : line_outcome) : Prop :=
  match o with
  | LineReady Line => exists l, LineReader.line_buf s' = l ++ [newline] /\ newline ∉ l /\
      Z.of_nat (length (l ++ [newline])) <= max
  | LineReady OverLimit => newline ∉ LineReader.line_buf s' /\ Z.of_nat (length (LineReader.line_buf s')) = max
  | LineDropped => partial_line max s' /\ LineReader.avail s' = [] /\
      (refills = [] \/ (length refills' < length refills)%nat)
  | LineReady Eof | LineErr => False
  end.

Lemma ends_with_newline_app l : ends_with_newline (l ++ [newline]) = true.
Proof. unfold ends_with_newline. rewrite last_snoc. by apply bool_decide_eq_true. Qed.

Lemma ends_with_newline_elem l : newline ∉ l -> ends_with_newline l = false.
Proof.
  intros Hl. apply bool_decide_eq_false. intros Hx. apply Hl.
  apply last_Some in Hx as [l' ->]. set_solver.
Qed.

Lemma read_bounded_line_spec max refills s o refills' s' :
  Forall open_refill refills -> partial_line max s ->
  read_bounded_line max refills s = (o, refills', s') ->
  LineReader.line_buf s' ++ LineReader.avail s' ++ stream_bytes refills' =
    LineReader.line_buf s ++ LineReader.avail s ++ stream_bytes refills /\
  (length refills' <= length refills)%nat /\ Forall open_refill refills' /\
  line_ends max refills refills' s' o.
Proof.
  intros Ho [Hn Hlen]. unfold read_bounded_line, saturating_sub.
  destruct (Z.eqb_spec (Z.max 0 (max - Z.of_nat (length (LineReader.line_buf s)))) 0); [lia|].
  destruct (read_until _ _ _ _ _) as [[r rf] s1] eqn:E. intros [= <- <- <-].
  apply read_until_spec in E as (line & Hb & Hl & Hc & Hr & Hop & He); [|done|lia].
  rewrite Hb, <- app_assoc, Hc. split_and!; [done..|].
  destruct r as [n'| |]; [|destruct He as (H1 & H2 & H3 & H4)|done].
  - destruct He as [-> He]. rewrite length_app.
    destruct He as [(l & -> & Hin)|[Hin Hll]].
    + rewrite app_assoc, ends_with_newline_app, andb_false_r.
      rewrite (proj2 (Z.eqb_neq _ _)) by (rewrite length_app; simpl; lia). simpl.
      exists (LineReader.line_buf s ++ l). rewrite Hb, <- app_assoc.
      split_and!; [done|set_solver|rewrite !length_app in *; simpl in *; lia].
    + rewrite ends_with_newline_elem by set_solver. simpl.
      rewrite (proj2 (Z.eqb_neq _ _)) by lia. rewrite (proj2 (Z.leb_le _ _)) by lia. simpl.
      rewrite Hb. split; [set_solver|rewrite length_app; lia].
  - unfold line_ends, partial_line. rewrite Hb, length_app. split_and!; [set_solver|lia|done|done].
Qed.

Lemma first_newline_unique l1 l2 x y :
  newline ∉ l1 -> newline ∉ l2 -> l1 ++ newline :: x = l2 ++ newline :: y -> l1 = l2 /\ x = y.
Proof.
  revert l2. induction l1 as [|a l1 IH]; intros [|b l2] H1 H2; simpl; intros E; simplify_eq; try set_solver.
  destruct (IH l2) as [-> ->]; [set_solver..|done|done].
Qed.

Lemma no_newline_prefix p q l y :
  newline ∉ p -> p ++ q = l ++ newline :: y -> (length p <= length l)%nat.
Proof.
  revert l. induction p as [|a p IH]; intros [|b l] H1; simpl; intros E; simplify_eq; try lia; [set_solver|].
  apply le_n_S, (IH l); [set_solver|done].
Qed.

Section LoopReads.
Context `{StreamJson}.

(** The loop while only its read branch is ready: until the socket has no more for it. *)
Fixpoint read_turns (fuel : nat) (now : Z) (refills : list refill) (s : IoLoop.t) : io_result :=
  match fuel with
  | O => IoContinue refills s
  | S fuel =>
      match on_read now refills s with
      | IoReturn o s => IoReturn o s
      | IoContinue refills s =>
          match refills, LineReader.avail (IoLoop.reader s) with
          | [], [] => IoContinue [] s
          | _, _ => read_turns fuel now refills s
          end
      end
  end.

(** What a list of lines means to the loop: the messages in them are dispatched in order, and the
    third that is no message ends the connection. *)
Fixpoint hear (lines : list bytes) (malformed : Z) (d : Delivered.t) : option IoLoopOutcome * Z * Delivered.t :=
  match lines with
  | [] => (None, malformed, d)
  | l :: lines =>
      match message_from_slice (trim_ascii (l ++ [newline])) with
      | Some msg => hear lines malformed (dispatch_inbound msg d)
      | None => if malformed + 1 >=? 3 then (Some Disconnected, malformed + 1, d)
                else hear lines (malformed + 1) d
      end
  end.

(** The loop's result is what the lines mean, with [rest] kept for the next read. *)
Definition agrees (rest : bytes) (r : io_result) (h : option IoLoopOutcome * Z * Delivered.t) : Prop :=
  let '(o, m, d) := h in
  match r with
  | IoContinue refills s => o = None /\ refills = [] /\ IoLoop.malformed_count s = m /\
      IoLoop.delivered s = d /\ IoLoop.reader s = LineReader.mk [] rest
  | IoReturn o' s => o = Some o' /\ IoLoop.malformed_count s = m /\ IoLoop.delivered s = d
  end.

(** The bytes that are pending: a part of a line, what is buffered and what is still to come. *)
Definition pending_bytes (refills : list refill) (s : LineReader.t) : bytes :=
  LineReader.line_buf s ++ LineReader.avail s ++ stream_bytes refills.

(** Pending bytes that are some lines within the budget and the beginning of one more. *)
Definition framed (refills : list refill) (s : LineReader.t) (ls : list bytes) (rest : bytes) : Prop :=
  pending_bytes refills s = concat ((fun l => l ++ [newline]) <$> ls) ++ rest /\
  Forall (fun l => newline ∉ l /\ Z.of_nat (length (l ++ [newline])) <= MAX_INTERNAL_LINE_BYTES) ls /\
  newline ∉ rest /\ Z.of_nat (length rest) < MAX_INTERNAL_LINE_BYTES.

(** A bounded read of framed bytes gives the first line, or has all of the last one. *)
Lemma read_framed refills s ls rest o refills' s' :
  Forall open_refill refills -> partial_line MAX_INTERNAL_LINE_BYTES s -> framed refills s ls rest ->
  read_bounded_line MAX_INTERNAL_LINE_BYTES refills s = (o, refills', s') ->
  Forall open_refill refills' /\ (length refills' <= length refills)%nat /\
  ((o = LineDropped /\ partial_line MAX_INTERNAL_LINE_BYTES s' /\ framed refills' s' ls rest /\
     LineReader.avail s' = [] /\ (refills = [] \/ (length refills' < length refills)%nat)) \/
   (exists l ls', o = LineReady Line /\ ls = l :: ls' /\ LineReader.line_buf s' = l ++ [newline] /\
     framed refills' (LineReader.mk (LineReader.avail s') []) ls' rest)).
Proof.
  intros Ho Hp (Hb & Hls & Hr & Hlr) E.
  apply read_bounded_line_spec in E as (Hc & Hlen & Hop & He); [|done..].
  split_and!; [done..|]. change (pending_bytes refills' s' = pending_bytes refills s) in Hc.
  rewrite Hb in Hc. unfold pending_bytes in Hc.
  destruct o as [[]| |]; try done.
  - right. destruct He as (l & Hl & Hnl & Hmax). rewrite Hl, <- app_assoc in Hc.
    destruct ls as [|l1 ls]; simpl in Hc.
    { exfalso. apply Hr. rewrite <- Hc. set_solver. }
    rewrite <- !app_assoc in Hc. inversion Hls as [|? ? [Hn1 Hm1] Hls']; subst.
    apply first_newline_unique in Hc as [-> Hc]; [|done..].
    exists l1, ls. split_and!; [done..|]. by split_and!.
  - destruct He as [Hn Hm]. exfalso. destruct ls as [|l1 ls]; simpl in Hc.
    { assert (length (LineReader.line_buf s') <= length rest)%nat; [|lia].
      rewrite <- Hc, length_app. lia. }
    rewrite <- !app_assoc in Hc. apply no_newline_prefix in Hc; [|done].
    inversion Hls as [|? ? [Hn1 Hm1] Hls']; subst. rewrite length_app in Hm1. simpl in Hm1. lia.
  - left. destruct He as (Hpl & Ha & Hrr). by split_and!.
Qed.

Lemma framed_all s ls rest :
  partial_line MAX_INTERNAL_LINE_BYTES s -> LineReader.avail s = [] -> framed [] s ls rest ->
  ls = [] /\ s = LineReader.mk [] rest.
Proof.
  destruct s as [av buf]. unfold framed, pending_bytes, partial_line. simpl.
  intros [Hn _] -> (Hb & _ & Hr & _). rewrite app_nil_r in Hb. destruct ls as [|l ls]; simpl in Hb; [by subst|].
  exfalso. apply Hn. rewrite Hb. set_solver.
Qed.

Lemma partial_line_nil av : partial_line MAX_INTERNAL_LINE_BYTES (LineReader.mk av []).
Proof. split; [set_solver|done]. Qed.

Lemma hears_lines fuel now refills s ls rest :
  Forall open_refill refills ->
  partial_line MAX_INTERNAL_LINE_BYTES (IoLoop.reader s) ->
  framed refills (IoLoop.reader s) ls rest ->
  (length refills + length (pending_bytes refills (IoLoop.reader s)) < fuel)%nat ->
  agrees rest (read_turns fuel now refills s) (hear ls (IoLoop.malformed_count s) (IoLoop.delivered s)).
Proof.
  revert refills s ls. induction fuel as [|fuel IH]; intros refills s ls Ho Hp Hf Hfuel; [lia|].
  cbn [read_turns]. unfold on_read.
  destruct (read_bounded_line _ _ _) as [[o rf] rd] eqn:E.
  pose proof (read_framed _ _ _ _ _ _ _ Ho Hp Hf E) as (Hop & Hlen & Hcase).
  pose proof (read_bounded_line_spec _ _ _ _ _ _ Ho Hp E) as (Hc & _).
  change (pending_bytes rf rd = pending_bytes refills (IoLoop.reader s)) in Hc.
  destruct Hcase as [(-> & Hp' & Hf' & Hav & Hrf)|(l & ls' & -> & -> & Hl & Hf')].
  - cbn [IoLoop.reader]. rewrite Hav. destruct rf as [|r rf].
    + apply framed_all in Hf' as [-> ->]; [|done..]. by split_and!.
    + apply (IH _ (IoLoop.mk rd _ _ _ _ _)); [done..|]. cbn [IoLoop.reader]. rewrite Hc.
      destruct Hrf as [->|?]; simpl in *; lia.
  - cbn [hear]. rewrite Hl.
    assert (Hm : (length (pending_bytes rf (LineReader.mk (LineReader.avail rd) [])) + 1 <=
      length (pending_bytes refills (IoLoop.reader s)))%nat).
    { rewrite <- Hc. unfold pending_bytes. simpl. rewrite Hl, !length_app. simpl. lia. }
    destruct (message_from_slice _) as [msg|]; [|cbv zeta; destruct (_ >=? 3); [by split_and!|]];
      cbn [IoLoop.reader LineReader.avail];
      (destruct rf as [|r rf]; [destruct (LineReader.avail rd) eqn:Hav|];
       [apply framed_all in Hf' as [-> ?]; [|apply partial_line_nil|done]; simplify_eq; by split_and!
       |refine (IH _ (IoLoop.mk _ _ _ _ _ _) _ Hop (partial_line_nil _) Hf' _);
        cbn [IoLoop.reader]; rewrite ?Hav in *; simpl in *; lia..]).
Qed.

(** C20 However the socket cuts the bytes of a connection, and however often the other branches of the
    loop drop an unfinished read, the loop hears exactly the lines that were sent: it dispatches every
    message among them once and in order, leaves the connection at the third line that is no message
    and not before, and keeps the beginning of an unfinished line for the next read. *)
Theorem loop_hears_lines fuel now refills s ls rest :
  Forall open_refill refills ->
  partial_line MAX_INTERNAL_LINE_BYTES (IoLoop.reader s) ->
  framed refills (IoLoop.reader s) ls rest ->
  (length refills + length (pending_bytes refills (IoLoop.reader s)) < fuel)%nat ->
  agrees rest (read_turns fuel now refills s) (hear ls (IoLoop.malformed_count s) (IoLoop.delivered s)).
Proof. apply hears_lines. Qed.
End LoopReads.

(** ** Silence *)

Section Silence.
Context `{StreamJson}.
Variable heartbeat_interval : Z.

(** The loop on a list of branches, until one returns. *)
Fixpoint io_run (es : list io_event) (s : IoLoop.t) : io_result :=
  match es with
  | [] => IoContinue [] s
  | e :: es =>
      match io_step heartbeat_interval e s with
      | IoContinue _ s => io_run es s
      | IoReturn o s => IoReturn o s
      end
  end.

(** The loop heard a line at a time: a read branch that ended with one. *)
Inductive heard_at : list io_event -> IoLoop.t -> Z -> Prop :=
| heard_here now refills rf rd es s :
    read_bounded_line MAX_INTERNAL_LINE_BYTES refills (IoLoop.reader s) = (LineReady Line, rf, rd) ->
    heard_at (EvRead now refills :: es) s now
| heard_later e es s rf s' t :
    io_step heartbeat_interval e s = IoContinue rf s' -> heard_at es s' t -> heard_at (e :: es) s t.

(** The clock a branch reads, and that it never runs back. *)
Definition event_times (e : io_event) : Z * Z :=
  match e with
  | EvRead now _ | EvTick now _ => (now, now)
  | EvOutbound started ended _ _ => (started, ended)
  | EvShutdown => (0, 0)
  end.
Fixpoint clock_from (t : Z) (es : list io_event) : Prop :=
  match es with
  | [] => True
  | EvShutdown :: es => clock_from t es
  | e :: es => t <= (event_times e).1 <= (event_times e).2 /\ clock_from (event_times e).2 es
  end.

Lemma io_step_last_heard e es s t rf s' :
  clock_from t (e :: es) -> IoLoop.last_heard s <= t -> io_step heartbeat_interval e s = IoContinue rf s' ->
  exists t', t <= t' /\ clock_from t' es /\ IoLoop.last_heard s <= IoLoop.last_heard s' <= t'.
Proof.
  destruct e as [now refills|started ended ok msg|now ok|]; cbn [clock_from event_times fst snd];
    intros Hc Hl; cbn [io_step]; [| | |done]; destruct Hc as [Hc1 Hc2].
  - unfold on_read. destruct (read_bounded_line _ _ _) as [[o rf'] rd].
    destruct o as [[]| |]; try done; [|intros [= <- <-]; exists now; simpl; lia || (split_and!; auto; lia)].
    destruct (message_from_slice _); [|destruct (_ >=? 3); [done|]]; intros [= <- <-]; exists now; simpl;
      split_and!; auto; lia.
  - unfold on_outbound. destruct msg as [msg|]; [|done]. destruct (serialize_outbound msg).
    + destruct ok; [|done]. intros [= <- <-]. exists ended. unfold saturating_sub. simpl. split_and!; auto; lia.
    + intros [= <- <-]. exists ended. split_and!; auto; lia.
  - unfold on_heartbeat_tick. destruct (_ >? _).
    + destruct (negb _); [|done]. intros [= <- <-]. exists now. simpl. split_and!; auto; lia.
    + cbv zeta. destruct (serialize_outbound _); [destruct ok; [|done]|]; intros [= <- <-]; exists now; simpl;
        split_and!; auto; lia.
Qed.

Lemma io_step_heard now refills rf rd s rf' s' :
  read_bounded_line MAX_INTERNAL_LINE_BYTES refills (IoLoop.reader s) = (LineReady Line, rf, rd) ->
  io_step heartbeat_interval (EvRead now refills) s = IoContinue rf' s' -> IoLoop.last_heard s' = now.
Proof.
  intros E. cbn [io_step]. unfold on_read. rewrite E.
  destruct (message_from_slice _); [|destruct (_ >=? 3); [done|]]; by intros [= <- <-].
Qed.

Lemma io_run_last_heard es t s now ok s1 o :
  clock_from t (es ++ [EvTick now ok]) -> IoLoop.last_heard s <= t -> io_run es s = IoContinue o s1 ->
  IoLoop.last_heard s <= IoLoop.last_heard s1.
Proof.
  revert t s. induction es as [|e es IH]; intros t s Hc Hl; simpl; [by intros [= _ <-]|].
  destruct (io_step _ e s) as [rf s'|] eqn:E; [|done]. intros Hr.
  destruct (io_step_last_heard _ _ _ _ _ _ Hc Hl E) as (t' & ? & Hc' & ? & ?).
  etrans; [|apply (IH t' s')]; done || lia.
Qed.

Lemma heard_at_le es t s t0 now ok s1 o :
  clock_from t (es ++ [EvTick now ok]) -> IoLoop.last_heard s <= t -> heard_at es s t0 ->
  io_run es s = IoContinue o s1 -> t0 <= IoLoop.last_heard s1.
Proof.
  intros Hc Hl Hh. revert t Hc Hl. induction Hh as [now0 refills rf rd es s Hrd|e es s rf s' t0 Hstep Hh IH];
    intros t Hc Hl; cbn [io_run].
  - destruct (io_step _ _ s) as [rf' s'|] eqn:E; [|done]. intros Hr.
    destruct (io_step_last_heard _ _ _ _ _ _ Hc Hl E) as (t' & ? & Hc' & ? & ?).
    rewrite <- (io_step_heard _ _ _ _ _ _ _ Hrd E). by eapply io_run_last_heard.
  - rewrite Hstep. destruct (io_step_last_heard _ _ _ _ _ _ Hc Hl Hstep) as (t' & ? & Hc' & ? & ?).
    by apply (IH t').
Qed.

(** A verifier that was heard within the deadline is never dropped for silence: when a heartbeat
    tick whose write succeeds ends the connection, every line the loop has heard on it, and its
    start, lie more than three heartbeat intervals back. *)
Theorem silence_drop_justified es t0 policy now s1 o s t :
  0 <= heartbeat_interval ->
  clock_from t0 (es ++ [EvTick now true]) ->
  io_run es (IoLoop.new t0 policy) = IoContinue o s1 ->
  io_step heartbeat_interval (EvTick now true) s1 = IoReturn Disconnected s ->
  t = t0 \/ heard_at es (IoLoop.new t0 policy) t ->
  heartbeat_interval * 3 < now - t.
Proof.
  intros Hh Hc Hr Ht Hat.
  assert (Hlast : t <= IoLoop.last_heard s1).
  { assert (Hl0 : IoLoop.last_heard (IoLoop.new t0 policy) <= t0) by done.
    destruct Hat as [->|Hat]; [exact (io_run_last_heard _ _ _ _ _ _ _ Hc Hl0 Hr)|].
    exact (heard_at_le _ _ _ _ _ _ _ _ Hc Hl0 Hat Hr). }
  revert Ht. cbn [io_step]. unfold on_heartbeat_tick, saturating_sub, read_deadline, READ_DEADLINE_BEATS.
  destruct (_ >? _) eqn:Hgt; [intros _; lia|]. cbv zeta. by destruct (serialize_outbound _).
Qed.

(** A branch at which nothing is heard from the verifier: a tick past the deadline, or a read that
    is dropped before anything came. *)
Definition silent_event (heard : Z) (e : io_event) : Prop :=
  match e with
  | EvTick now _ => heartbeat_interval * 3 < now - heard
  | EvRead _ refills => Forall (eq Blocked) refills
  | _ => False
  end.
Definition is_tick (e : io_event) : bool := match e with EvTick _ _ => true | _ => false end.
Definition ticks (es : list io_event) : nat := length (List.filter is_tick es).

Lemma silent_read now refills s :
  Forall (eq Blocked) refills -> partial_line MAX_INTERNAL_LINE_BYTES (IoLoop.reader s) ->
  LineReader.avail (IoLoop.reader s) = [] -> exists rf, on_read now refills s = IoContinue rf s.
Proof.
  destruct s as [[av buf] lh rc mc d w]. unfold partial_line. cbn [IoLoop.reader LineReader.avail LineReader.line_buf].
  intros Hb [Hn Hl] ->. unfold on_read, read_bounded_line, saturating_sub.
  cbn [IoLoop.reader LineReader.avail LineReader.line_buf].
  rewrite (proj2 (Z.eqb_neq (Z.max 0 _) 0)) by lia.
  destruct Hb as [|c refills <- Hb]; cbn [read_until take_line length];
    rewrite Z.sub_0_r, (proj2 (Z.eqb_neq (Z.max 0 _) 0)) by lia; simpl; rewrite app_nil_r; eauto.
Qed.

(** A verifier that has gone silent is dropped: the second heartbeat tick past three intervals
    of silence ends the connection, whatever reads are dropped in between, so a path that swallows
    everything does not hold the gateway. *)
Theorem silent_verifier_dropped es s :
  0 <= heartbeat_interval ->
  partial_line MAX_INTERNAL_LINE_BYTES (IoLoop.reader s) -> LineReader.avail (IoLoop.reader s) = [] ->
  Forall (silent_event (IoLoop.last_heard s)) es ->
  (2 <= ticks es + Nat.b2n (IoLoop.rechecking s))%nat -> (1 <= ticks es)%nat ->
  exists s', io_run es s = IoReturn Disconnected s' /\
    IoLoop.delivered s' = IoLoop.delivered s /\ IoLoop.written s' = IoLoop.written s.
Proof.
  intros Hh Hp Ha He. revert s Hp Ha He. induction es as [|e es IH]; intros s Hp Ha He H2 H1;
    [unfold ticks in H1; simpl in H1; lia|].
  inversion He as [|? ? Hs Hes]; subst. destruct e as [now refills| |now ok|]; try done; cbn [io_run io_step].
  - destruct (silent_read now refills s) as [rf ->]; [done..|]. by apply IH.
  - unfold on_heartbeat_tick, read_deadline, READ_DEADLINE_BEATS, saturating_sub. simpl in Hs.
    rewrite (proj2 (Z.gtb_lt _ _)) by lia. destruct (IoLoop.rechecking s); simpl; [eauto|].
    assert ((1 <= ticks es)%nat) by (revert H2; unfold ticks; simpl; lia).
    apply (IH (set_rechecking true s)); simpl; auto; lia.
Qed.
End Silence.

(** ** The writer, the log and the flags *)


(** A write fails only when the peer has taken no byte for [stall]: a poll that times out follows
    polls that found the writer not ready, the first of them at least [stall] before. *)
Lemma guard_times_out stall now blocked b :
  guard_poll stall now false blocked = (GuardTimedOut, b) -> 0 < stall ->
  exists since, blocked = Some since /\ since + stall <= now.
Proof.
  unfold guard_poll. destruct blocked as [since|]; simpl; destruct (_ >=? _) eqn:E; intros [= <-] Hs; [|lia].
  exists since. split; [done|lia].
Qed.

Lemma char_floor_le s e : (char_floor s e <= e)%nat.
Proof. induction e as [|e IH]; [done|]. cbn [char_floor]. case_match; lia. Qed.

Lemma write_str_bounded s c :
  (length (Capped.kept c) <= LOG_SAMPLE_BYTES)%nat ->
  (length (Capped.kept (Capped.write_str s c)) <= LOG_SAMPLE_BYTES)%nat /\
  Capped.offered (Capped.write_str s c) = (Capped.offered c + length s)%nat.
Proof.
  intros Hc. unfold Capped.write_str. simpl. rewrite length_app, length_take.
  pose proof (char_floor_le s (Nat.min (LOG_SAMPLE_BYTES - length (Capped.kept c)) (length s))).
  split; [lia|done].
Qed.

Lemma log_sample_bounded line :
  exists kept, (length kept <= LOG_SAMPLE_BYTES)%nat /\ kept `prefix_of` line /\
    log_sample line = kept ++ (if (length line <=? LOG_SAMPLE_BYTES)%nat then [] else truncated_note (length line)).
Proof.
  unfold log_sample. destruct (Nat.leb_spec (length line) LOG_SAMPLE_BYTES).
  - exists line. rewrite app_nil_r. by split_and!.
  - exists (take (char_floor line LOG_SAMPLE_BYTES) line). pose proof (char_floor_le line LOG_SAMPLE_BYTES).
    rewrite length_take. split_and!; [lia|apply prefix_take|done].
Qed.

(** At most [LOG_SAMPLE_BYTES] of a value's rendering reach the log, with its true length noted when
    it was cut. *)
Lemma log_display_bounded pieces :
  exists kept, (length kept <= LOG_SAMPLE_BYTES)%nat /\
    log_display pieces =
      kept ++ (if (length kept <? length (concat pieces))%nat then truncated_note (length (concat pieces)) else []).
Proof.
  assert (Hf : forall c, (length (Capped.kept c) <= LOG_SAMPLE_BYTES)%nat ->
    let c' := foldl (fun c s => Capped.write_str s c) c pieces in
    (length (Capped.kept c') <= LOG_SAMPLE_BYTES)%nat /\
    Capped.offered c' = (Capped.offered c + length (concat pieces))%nat).
  { induction pieces as [|p ps IH]; intros c Hc; simpl; [split; [done|lia]|].
    destruct (write_str_bounded p c Hc) as [H1 H2]. destruct (IH _ H1) as [H3 H4].
    split; [done|]. rewrite H4, H2, length_app. lia. }
  destruct (Hf Capped.new) as [H1 H2]; [simpl; lia|]. unfold log_display. simpl in H2.
  eexists. split; [exact H1|]. rewrite H2. by case_match; rewrite ?app_nil_r.
Qed.

(** What [log_display] keeps need not be the beginning of the rendering: a piece cut at a character
    boundary leaves room that a later, shorter piece takes. *)
Lemma log_display_skips :
  exists pieces kept, ~ kept `prefix_of` concat pieces /\
    log_display pieces = kept ++ truncated_note (length (concat pieces)).
Proof.
  exists [replicate 511 x61; [xc3; xa9]; [x62]], (replicate 511 x61 ++ [x62]). split.
  - intros [k Hk]. revert Hk. simpl. intros Hk. simplify_eq.
  - vm_compute. reflexivity.
Qed.

(** Whatever the attempts, the gateway is ready, connected and with its policy loaded, only inside a
    session that has seen a heartbeat acknowledged. *)
Lemma ready_only_in_session a :
  (true, true) ∈ (run_attempt a false).1 -> exists o, a = Session true o.
Proof. destruct a as [| |[] []]; simpl; rewrite ?elem_of_cons, ?elem_of_nil; naive_solver. Qed.

(** ** Sample *)

Module VerifierStreamSample.
(** A one-letter protocol: [a] is an acknowledgement, anything else is malformed. *)
#[export] Instance stream_json : StreamJson := {|
  message_from_slice b := if bool_decide (b = [x61]) then Some (InternalMessage.mk HEARTBEAT_ACK 2 (JObj [])) else None;
  message_to_bytes m := if bool_decide (InternalMessage.msg_type m = HEARTBEAT) then Some [x68] else None;
  verdict_from_value _ := None;
  propose_to_value _ := None
|}.

Definition start : IoLoop.t := IoLoop.new 0 false.
Definition socket : list refill := [Chunk [x61]; Blocked; Chunk [newline; x7a]; Blocked; Chunk [newline; x61]].
End VerifierStreamSample.
Import VerifierStreamSample.

Lemma loop_hears_lines_witness :
  agrees [x61] (read_turns 20 5 socket start) (hear [[x61]; [x7a]] 0 (Delivered.mk [] false)).
Proof.
  apply (loop_hears_lines 20 5 socket start [[x61]; [x7a]] [x61]).
  - repeat constructor; done.
  - apply partial_line_nil.
  - split_and!; [done| |set_solver|done].
    repeat constructor; cbn -[Z.le]; try done; intros Hx; apply list_elem_of_singleton in Hx; done.
  - cbn. lia.
Defined.

Lemma silence_drop_justified_witness :
  exists s, io_step 2 (EvTick 9 true) (set_rechecking true start) = IoReturn Disconnected s /\ 2 * 3 < 9 - 0.
Proof.
  exists (set_rechecking true start). split; [reflexivity|].
  apply (silence_drop_justified 2 [EvTick 8 true] 0 false 9 (set_rechecking true start) []
           (set_rechecking true start) 0); [lia|cbn; lia|reflexivity|reflexivity|by left].
Defined.

Lemma silent_verifier_dropped_witness :
  exists s', io_run 2 [EvTick 8 true; EvRead 8 [Blocked]; EvTick 9 true] start = IoReturn Disconnected s' /\
    IoLoop.delivered s' = IoLoop.delivered start /\ IoLoop.written s' = IoLoop.written start.
Proof.
  apply (silent_verifier_dropped 2 [EvTick 8 true; EvRead 8 [Blocked]; EvTick 9 true] start);
    [lia|apply partial_line_nil|reflexivity| |cbn; lia|cbn; lia].
  repeat constructor; cbn; lia.
Defined.
