(* ===== verification/Session.v ===== *)
(** * The session of a miner connection

    Models [run_connection] and [run_connection_inner] of [services/sv2-gateway/src/handler.rs]:
    the three stages of a session over the handlers of [Handler], the branches of its loop, the
    clean-up of the shared channel registry and the disconnect event of [connection.rs].

    A connection shares its allocators, queues and the registry with all others: [EvOthers] is a
    moment at which they have moved. A time limit that strikes while an open request is being
    answered is a failed write with [timed_out] set. *)

From S2P Require Import Prelude Crates Float64 Reason Codec Difficulty Jobs Channels Shares Handler Limits.

(** What the connections share. *)
Module Shared.
Record t : Type := mk {
  events : queue ShareAcceptedEvent.t; forward : queue ShareSubmission.t;
  channel_ids : IdAllocator.t; extranonces : ExtranonceAllocator.t; registry : GlobalChannelRegistry.t }.
End Shared.

Definition others (sh : Shared.t) (s : Conn.t) : Conn.t :=
  let s := Conn.set_events s (Shared.events sh) (Conn.share_events_dropped s) in
  let s := Conn.set_forward s (Shared.forward sh) (Conn.share_forward_queue_full s) in
  let s := Conn.set_allocators s (Shared.channel_ids sh) (Shared.extranonces sh) in
  Conn.set_registry s (Shared.registry sh) (Conn.opened_ids s).

(** A branch of the [select!] that is taken. [order] is the order in which a job visits the open
    channels. *)
Inductive session_event : Type :=
| EvJob (clk : Clock.t) (job : JobBroadcast.t) (order : list Z)
| EvJobLagged
| EvJobClosed
| EvFrame (clk : Clock.t) (job_table : JobTable.t) (latest_job : option JobBroadcast.t) (f : frame)
| EvReadError (e : string)
| EvShutdown
| EvOthers (sh : Shared.t).

(** How a session stands: still in its loop, left, or its task has panicked. *)
Inductive session : Type := Running | Left (e : HandlerExit) | Crashed.

(** The first frame or a failed read; the frames before the first open, how reading them ends and
    whether that is the time limit; what the others did until then; and the branches taken. *)
Module Script.
Record t : Type := mk {
  first : result frame string; until_open : list (Clock.t * frame); read_end : HandlerExit;
  timed_out : bool; moved : Shared.t; latest_job : option JobBroadcast.t;
  events : list session_event }.
End Script.

Section Session.
Context `{Sha256Crate, HexCrate, HmacCrate, SubmissionJson}.
Context (cfg : HandlerConfig.t) (peer : string).

Definition session_step (e : session_event) : M FrameAction :=
  match e with
  | EvJob clk job order => as_action (distribute_job clk job order)
  | EvJobLagged => mret Continue
  | EvJobClosed => mret (Disconnect Shutdown)
  | EvFrame clk job_table latest_job f => handle_miner_frame clk cfg job_table latest_job peer f
  | EvReadError e => mret (Disconnect (TransportError e))
  | EvShutdown => mret (Disconnect Shutdown)
  | EvOthers sh => mmodify (others sh) ;;! mret Continue
  end.

Fixpoint session_loop (es : list session_event) (s : Conn.t) : session * Conn.t :=
  match es with
  | [] => (Running, s)
  | e :: es =>
      match session_step e s with
      | (Ret Continue, s) => session_loop es s
      | (Ret (Disconnect x), s) => (Left x, s)
      | (Exit x, s) => (Left x, s)
      | (Panics, s) => (Crashed, s)
      end
  end.

(** Stages 1 to 3. *)
Definition run_connection_inner (sc : Script.t) (s : Conn.t) : session * Conn.t :=
  match Script.first sc with
  | Err e => (Left (TransportError e), s)
  | Ok f =>
      match handle_setup_connection f s with
      | (Panics, s) => (Crashed, s)
      | (Exit x, s) => (Left x, s)
      | (Ret _, s) =>
          let s := Conn.set_channels s (ConnectionChannels.new (HandlerConfig.max_channels_per_conn cfg)) in
          let s := others (Script.moved sc) s in
          match wait_for_channel_open cfg (Script.latest_job sc) peer (Script.until_open sc)
                  (Script.read_end sc) s with
          | (Panics, s) => (Crashed, s)
          | (Exit x, s) => (Left (if Script.timed_out sc then ChannelOpenTimeout else x), s)
          | (Ret _, s) => session_loop (Script.events sc) s
          end
      end
  end.

(** [for ch_id in opened_channel_ids { channel_registry.unregister(ch_id).await; }]. *)
Definition unregister_all (ids : list Z) (r : GlobalChannelRegistry.t) : GlobalChannelRegistry.t :=
  foldl (fun r id => GlobalChannelRegistry.unregister id r) r ids.

(** The peer state at the end of a session: the handler counts decoded shares only. *)
Definition peer_state (connected_at : Z) (s : Conn.t) : PeerState.t :=
  PeerState.mk connected_at 0 0 (Conn.frames_decoded s) 0 (Conn.last_frame_at s) None 0.

(** The state a connection starts with: its own part is fresh. *)
Definition start_session (connected_at : Z) (s : Conn.t) : Conn.t :=
  let s := Conn.set_dedup s (ShareDedupSet.new (HandlerConfig.share_dedup_window_size cfg)) in
  let s := Conn.set_channels s (ConnectionChannels.new (HandlerConfig.max_channels_per_conn cfg)) in
  let s := Conn.set_decoded s 0 connected_at in
  Conn.set_io (Conn.set_registry s (Conn.channel_registry s) []) [] (Conn.write_outcomes s).

Definition run_connection (connected_at now : Z) (sc : Script.t) (s : Conn.t)
    : session * Conn.t * option DisconnectEvent.t :=
  match run_connection_inner sc (start_session connected_at s) with
  | (Left x, s) =>
      let s := Conn.set_registry s (unregister_all (Conn.opened_ids s) (Conn.channel_registry s))
                 (Conn.opened_ids s) in
      let reason := as_gateway_reason x in
      let p := PeerState.set_disconnect_reason reason (peer_state connected_at s) in
      (Left x, s, Some (DisconnectEvent.from_peer now p reason))
  | (o, s) => (o, s, None)
  end.
End Session.

(** * Properties *)

(** ** What a handler may touch *)

(** From [s] to [s'] frames are only added; the ids in [new] have been opened, are listed for the
    clean-up and are the only new channels; the registry has changed at most at the ids of [new]
    and of [closes]. *)
Record moves (closes : list Z) (s s' : Conn.t) : Prop := {
  mv_sent : exists fs, Conn.sent s' = Conn.sent s ++ fs;
  mv_ids : exists new, Conn.opened_ids s' = Conn.opened_ids s ++ new /\
    dom (ConnectionChannels.channels (Conn.channels s')) ⊆
      dom (ConnectionChannels.channels (Conn.channels s)) ∪ list_to_set new /\
    (forall id, id ∉ new -> id ∉ closes ->
       (Conn.channel_registry s' : gmap Z ChannelSnapshot.t) !! id = Conn.channel_registry s !! id)
}.

Lemma moves_refl c s : moves c s s.
Proof. split; [exists []; by rewrite app_nil_r|]. exists []. rewrite app_nil_r. split_and!; [done|set_solver|done]. Qed.

Lemma moves_trans c s1 s2 s3 : moves c s1 s2 -> moves c s2 s3 -> moves c s1 s3.
Proof.
  intros [(f1 & E1) (n1 & I1 & D1 & R1)] [(f2 & E2) (n2 & I2 & D2 & R2)]. split.
  - exists (f1 ++ f2). by rewrite E2, E1, app_assoc.
  - exists (n1 ++ n2). split_and!; [by rewrite I2, I1, app_assoc|rewrite list_to_set_app_L; set_solver|].
    intros id Hn Hc. rewrite R2, R1; set_solver.
Qed.

Lemma moves_weaken c1 c2 s s' : c1 ⊆ c2 -> moves c1 s s' -> moves c2 s s'.
Proof. intros Hc [Hs (n & I & D & R)]. split; [done|]. exists n. split_and!; [done..|]. intros id Hn Hi. apply R; set_solver. Qed.

Definition moving {A} (c : list Z) (m : M A) : Prop := forall s, moves c s (m s).2.

(** A change that leaves frames, ids, registry and the set of channels alone. *)
Lemma moves_same c s s' :
  Conn.sent s' = Conn.sent s -> Conn.opened_ids s' = Conn.opened_ids s ->
  Conn.channel_registry s' = Conn.channel_registry s ->
  dom (ConnectionChannels.channels (Conn.channels s')) = dom (ConnectionChannels.channels (Conn.channels s)) ->
  moves c s s'.
Proof.
  intros Hs Hi Hr Hd. split; [exists []; by rewrite app_nil_r|]. exists []. rewrite app_nil_r, Hd, Hr.
  split_and!; [done|set_solver|done].
Qed.

Lemma update_dom m cid f : dom (ConnectionChannels.channels (ConnectionChannels.update m cid f)) =
  dom (ConnectionChannels.channels m).
Proof.
  unfold ConnectionChannels.update, ConnectionChannels.get.
  destruct (_ !! cid) as [ch|] eqn:E; [|done]. destruct (ChannelState.closed ch); [done|]. simpl.
  rewrite dom_insert_L. apply elem_of_dom_2 in E. set_solver.
Qed.

Lemma mv_ret {A} c (a : A) : moving c (mret a).
Proof. intros s. apply moves_refl. Qed.
Lemma mv_exit {A} c e : moving c (@mexit A e).
Proof. intros s. apply moves_refl. Qed.
Lemma mv_panic {A} c : moving c (@mpanic A).
Proof. intros s. apply moves_refl. Qed.
Lemma mv_get c : moving c mget.
Proof. intros s. apply moves_refl. Qed.
Lemma mv_bind {A B} c (m : M A) (k : A -> M B) : moving c m -> (forall a, moving c (k a)) -> moving c (mbind m k).
Proof.
  intros Hm Hk s. specialize (Hm s). unfold mbind. destruct (m s) as [[a|e|] s1]; cbn in *; [|done..].
  eapply moves_trans; [done|apply Hk].
Qed.
Lemma mv_update c cid f :
  moving c (mmodify (fun s => Conn.set_channels s (ConnectionChannels.update (Conn.channels s) cid f))).
Proof. intros s. apply moves_same; try done. apply update_dom. Qed.
Lemma mv_write c ext ty p : moving c (write_frame ext ty p).
Proof.
  intros s. unfold write_frame. destruct (Conn.write_outcomes s) as [|[e|] r]; cbn;
    [|by apply moves_same|]; (split; [eexists; reflexivity|]; exists []; rewrite app_nil_r;
    split_and!; [done|set_solver|done]).
Qed.
Lemma mv_action c m : moving c m -> moving c (as_action m).
Proof. intros Hm s. specialize (Hm s). unfold as_action. by destruct (m s) as [[a|e|] s1]. Qed.

Create HintDb moving discriminated.
#[export] Hint Constants Opaque : moving.
#[export] Hint Resolve mv_ret mv_exit mv_panic mv_get mv_update mv_write : moving.

(** Walk through a handler: binds, tests, matches, and changes of other fields. *)
Ltac mv_step :=
  first
    [ progress auto with moving
    | match goal with |- moving _ (mbind _ _) => apply mv_bind; [|intros ?] end
    | match goal with |- moving _ (match ?x with _ => _ end) => destruct x eqn:? end
    | match goal with |- moving _ (if ?b then _ else _) => destruct b end
    | match goal with |- moving _ (mmodify _) =>
        let s := fresh in intros s; cbn [mmodify snd]; repeat case_match; by apply moves_same end
    | progress cbv zeta ].
Ltac mv := repeat mv_step.

Section SessionFacts.
Context `{Sha256Crate, HexCrate, HmacCrate, SubmissionJson}.

Lemma mv_send c ext ty r : moving c (send_or_exit ext ty r).
Proof. unfold send_or_exit, write_or_exit, encode_or_exit. mv. Qed.
Lemma mv_send_best c ext ty r : moving c (send_best_effort ext ty r).
Proof. unfold send_best_effort. mv. Qed.
Hint Resolve mv_send mv_send_best : moving.

Lemma mv_event c evt : moving c (enqueue_share_event evt).
Proof. unfold enqueue_share_event. mv. Qed.
Lemma mv_share_error c ch seq r : moving c (send_share_error ch seq r).
Proof. unfold send_share_error. mv. Qed.
Hint Resolve mv_event mv_share_error : moving.
Lemma mv_sentinel c clk sh r : moving c (reject_sentinel clk sh r).
Proof. unfold reject_sentinel. mv. Qed.
Lemma mv_identified c clk sh h w sid eid r : moving c (reject_identified clk sh h w sid eid r).
Proof. unfold reject_identified. mv. Qed.
Lemma mv_retarget c clk cid : moving c (maybe_retarget clk cid).
Proof. unfold maybe_retarget. mv. Qed.
Hint Resolve mv_sentinel mv_identified mv_retarget : moving.
Lemma mv_relay c clk cfg sh job t w r i : moving c (relay_share clk cfg sh job t w r i).
Proof. unfold relay_share. mv. Qed.
Hint Resolve mv_relay : moving.
Lemma mv_validate c clk cfg jt ch en sh : moving c (validate_and_relay clk cfg jt ch en sh).
Proof. unfold validate_and_relay. mv. Qed.
Lemma mv_admit c clk sh : moving c (admit_share clk sh).
Proof. unfold admit_share. mv. Qed.
Hint Resolve mv_validate mv_admit : moving.
Lemma mv_submit c clk cfg jt p : moving c (handle_submit_shares clk cfg jt p).
Proof. unfold handle_submit_shares, share_decode_failure. mv. Qed.
Lemma mv_submit_extended c clk cfg jt p : moving c (handle_submit_shares_extended clk cfg jt p).
Proof. unfold handle_submit_shares_extended, share_decode_failure. mv. Qed.

Lemma mv_refuse c r x : moving c (@refuse_open x r (RegistrationFailed GatewayReason.ChannelLimitExceeded)).
Proof. unfold refuse_open, send_open_error. mv. Qed.
Lemma mv_allocate c r : moving c (allocate_ids r).
Proof. unfold allocate_ids, refuse_open, send_open_error. mv. Qed.

(** Entering a channel adds it to the table, the registry and the list for the clean-up at once. *)
Lemma mv_register c clk cfg peer r st : moving c (register_channel clk cfg peer r st).
Proof.
  unfold register_channel. intros s. unfold mbind at 1. cbn [mget].
  destruct (ConnectionChannels.open_with st (Conn.channels s)) as [opened chs] eqn:E.
  set (cid := ChannelState.channel_id st) in *.
  assert (match opened with Err _ => chs = Conn.channels s | Ok _ => True end /\
    dom (ConnectionChannels.channels chs) ⊆ dom (ConnectionChannels.channels (Conn.channels s)) ∪ {[cid]})
    as [He Hc].
  { unfold ConnectionChannels.open_with in E. repeat case_match; simplify_eq; split; try done; set_solver. }
  destruct opened as [entry|reason].
  2: { subst chs. unfold mbind at 1. cbn [mmodify].
       apply (moves_trans _ _ (Conn.set_channels s (Conn.channels s))); [by apply moves_same|].
       unfold refuse_open, send_open_error.
       match goal with |- moves _ ?a (?m ?a).2 => assert (moving c m) as Hm; [|apply Hm] end. mv. }
  unfold mbind, mmodify. cbn [snd].
  match goal with |- moves _ _ (Conn.set_registry ?x _ _) => set (s2 := x) end.
  assert (dom (ConnectionChannels.channels (Conn.channels s2)) = dom (ConnectionChannels.channels chs) /\
    Conn.sent s2 = Conn.sent s /\ Conn.opened_ids s2 = Conn.opened_ids s /\
    Conn.channel_registry s2 = Conn.channel_registry s) as (Hd & Hs & Hi & Hr).
  { subst s2. destruct (HandlerConfig.vardiff_enabled cfg); [|done]. split_and!; [|done..].
    simpl. by rewrite update_dom. }
  clearbody s2. split; cbn.
  - exists []. by rewrite Hs, app_nil_r.
  - exists [cid]. rewrite Hi, Hr. split_and!; [done|rewrite Hd; set_solver|].
    intros id Hn _. unfold GlobalChannelRegistry.register. rewrite lookup_insert_ne; [done|]. cbn. set_solver.
Qed.
Hint Resolve mv_allocate mv_register : moving.

Lemma mv_prevhash c clk cid job : moving c (send_prevhash clk cid job).
Proof. unfold send_prevhash. mv. Qed.
Hint Resolve mv_prevhash : moving.
Lemma mv_open_standard c clk cfg lj peer p : moving c (handle_open_standard_channel clk cfg lj peer p).
Proof. unfold handle_open_standard_channel, send_open_error, send_standard_job. mv. Qed.
Lemma mv_open_extended c clk cfg lj peer p : moving c (handle_open_extended_channel clk cfg lj peer p).
Proof. unfold handle_open_extended_channel, refuse_open, send_open_error, send_extended_job. mv. Qed.
Lemma mv_distribute c clk job order : moving c (distribute_job clk job order).
Proof.
  induction order as [|cid order IH]; cbn [distribute_job]; [mv|]. apply mv_bind; [|done].
  unfold distribute_to, send_standard_job, send_extended_job. mv.
Qed.
Hint Resolve mv_open_standard mv_open_extended mv_distribute : moving.

Lemma mv_setup c f : moving c (handle_setup_connection f).
Proof. unfold handle_setup_connection, send_setup_error. mv. Qed.
Lemma mv_wait c cfg lj peer frames e : moving c (wait_for_channel_open cfg lj peer frames e).
Proof.
  induction frames as [|[clk f] frames IH]; cbn [wait_for_channel_open]; unfold reject_extended_channel_err; mv.
Qed.

(** The ids that the [CloseChannel] frames of a branch name. *)
Definition closes_of (e : session_event) : list Z :=
  match e with
  | EvFrame _ _ _ f =>
      if msg_type f =? MESSAGE_TYPE_CLOSE_CHANNEL then
        match CloseChannel.decode (payload f) with Val close => [CloseChannel.channel_id close] | _ => [] end
      else []
  | _ => []
  end.

Lemma mv_close p : moving (match CloseChannel.decode p with Val close => [CloseChannel.channel_id close] | _ => [] end)
  (handle_close_channel p).
Proof.
  unfold handle_close_channel. destruct (CloseChannel.decode p) as [close|e|]; [|mv..].
  set (cid := CloseChannel.channel_id close). apply mv_bind; [|intros _; apply mv_bind; [|intros _; mv]].
  - intros s. apply moves_same; try done. simpl. unfold ConnectionChannels.close_channel.
    destruct (_ !! cid) as [ch|] eqn:E; [|done]. destruct (ChannelState.closed ch); [done|]. simpl.
    rewrite dom_insert_L. apply elem_of_dom_2 in E. set_solver.
  - intros s. split; cbn; [exists []; by rewrite app_nil_r|]. exists []. rewrite app_nil_r.
    split_and!; [done|set_solver|]. intros id _ Hc. unfold GlobalChannelRegistry.unregister.
    rewrite lookup_delete_ne; [done|set_solver].
Qed.

Lemma mv_frame clk cfg jt lj peer f : moving (closes_of (EvFrame clk jt lj f)) (handle_miner_frame clk cfg jt lj peer f).
Proof.
  unfold handle_miner_frame, reject_extended_channel_err. cbn [closes_of].
  destruct (negb _); [mv|].
  destruct (msg_type f =? MESSAGE_TYPE_SUBMIT_SHARES_STANDARD); [apply mv_action, mv_submit|].
  destruct (msg_type f =? MESSAGE_TYPE_SUBMIT_SHARES_EXTENDED); [apply mv_action, mv_submit_extended|].
  destruct (msg_type f =? MESSAGE_TYPE_OPEN_STANDARD_MINING_CHANNEL); [apply mv_action; mv|].
  destruct (msg_type f =? MESSAGE_TYPE_OPEN_EXTENDED_MINING_CHANNEL);
    [destruct (negb _); [mv|apply mv_action; mv]|].
  destruct (msg_type f =? MESSAGE_TYPE_CLOSE_CHANNEL); [apply mv_close|mv].
Qed.
End SessionFacts.

Section SessionTheorems.
Context `{Sha256Crate, HexCrate, HmacCrate, SubmissionJson}.
Context (cfg : HandlerConfig.t) (peer : string).

(** The registry as the other connections last left it during the branches taken. *)
Fixpoint others_last (es : list session_event) (r : GlobalChannelRegistry.t) (s : Conn.t)
    : GlobalChannelRegistry.t :=
  match es with
  | [] => r
  | e :: es =>
      match session_step cfg peer e s with
      | (Ret Continue, s) =>
          others_last es (match e with EvOthers sh => Shared.registry sh | _ => r end) s
      | _ => r
      end
  end.

(** The connection's channels are listed for the clean-up, and outside that list and [closes] the
    registry is [r]. *)
Record session_ok (closes : list Z) (r : GlobalChannelRegistry.t) (s : Conn.t) : Prop := {
  so_ids : dom (ConnectionChannels.channels (Conn.channels s)) ⊆ list_to_set (Conn.opened_ids s);
  so_registry : forall id, id ∉ Conn.opened_ids s -> id ∉ closes ->
    (Conn.channel_registry s : gmap Z ChannelSnapshot.t) !! id = r !! id }.

Lemma moves_ok closes r s s' : moves closes s s' -> session_ok closes r s -> session_ok closes r s'.
Proof.
  intros [_ (n & Hi & Hd & Hr)] [Hids Hreg]. split.
  - rewrite Hi, list_to_set_app_L. set_solver.
  - intros id Hn Hc. rewrite Hi in Hn. rewrite Hr, Hreg; set_solver.
Qed.

Lemma others_ok closes r s sh : session_ok closes r s -> session_ok closes (Shared.registry sh) (others sh s).
Proof. intros [Hids _]. split; [exact Hids|]. done. Qed.

Lemma step_moves e s :
  moves (closes_of e) s (session_step cfg peer e s).2 /\
    (forall r, match e with EvOthers sh => Shared.registry sh | _ => r end = r) \/
  exists sh, e = EvOthers sh.
Proof.
  destruct e as [clk job order| | |clk jt lj f|e| |sh];
    [left; split; [|done]..|right; eauto]; try apply moves_refl.
  - apply (mv_action _ _ (mv_distribute _ clk job order)).
  - apply mv_frame.
Qed.

Lemma loop_ok closes es : forall r s,
  (forall e, e ∈ es -> closes_of e ⊆ closes) -> session_ok closes r s ->
  session_ok closes (others_last es r s) (session_loop cfg peer es s).2 /\
  exists fs, Conn.sent (session_loop cfg peer es s).2 = Conn.sent s ++ fs.
Proof.
  induction es as [|e es IH]; intros r s Hc Hok; cbn [session_loop others_last].
  { split; [done|]. exists []. by rewrite app_nil_r. }
  destruct (step_moves e s) as [[Hm Hr]|[sh ->]].
  - apply (moves_weaken _ closes) in Hm; [|by apply Hc; left].
    pose proof (moves_ok _ r _ _ Hm Hok) as Hok'. pose proof (mv_sent _ _ _ Hm) as [fs Hfs].
    destruct (session_step cfg peer e s) as [[[|x]|x|] s'] eqn:Es; cbn [snd] in *; try (split; [done|eauto]).
    rewrite Hr. destruct (IH r s') as [Hx [fs' Hy]]; [intros; apply Hc; by right|done|].
    split; [done|]. exists (fs ++ fs'). by rewrite Hy, Hfs, app_assoc.
  - cbn [session_step]. unfold mbind, mmodify, mret.
    apply (IH (Shared.registry sh) (others sh s)); [intros; apply Hc; by right|]. by eapply others_ok.
Qed.

Lemma unregister_all_lookup ids (r : GlobalChannelRegistry.t) id :
  (unregister_all ids r : gmap Z ChannelSnapshot.t) !! id = if decide (id ∈ ids) then None else r !! id.
Proof.
  revert r. unfold unregister_all. induction ids as [|i ids IH]; intros r; [done|]. simpl. rewrite IH.
  unfold GlobalChannelRegistry.unregister.
  destruct (decide (i = id)) as [->|Hne]; [|rewrite lookup_delete_ne by done]; repeat case_decide; try done; try set_solver.
  apply lookup_delete_eq.
Qed.

(** How the first stage ends: with one answer or none. *)
Lemma setup_answers f s :
  match handle_setup_connection f s with
  | (Ret _, s') => exists g, Conn.sent s' = Conn.sent s ++ [g] /\ msg_type g = MESSAGE_TYPE_SETUP_CONNECTION_SUCCESS
  | (_, s') => Conn.sent s' = Conn.sent s \/
      exists g, Conn.sent s' = Conn.sent s ++ [g] /\ msg_type g = MESSAGE_TYPE_SETUP_CONNECTION_ERROR
  end.
Proof.
  assert (Hb : forall (r : result bytes Sv2CodecError) x,
    match (send_best_effort 0 MESSAGE_TYPE_SETUP_CONNECTION_ERROR r ;;! @mexit unit x) s with
    | (Ret _, s') => exists g, Conn.sent s' = Conn.sent s ++ [g] /\ msg_type g = MESSAGE_TYPE_SETUP_CONNECTION_SUCCESS
    | (_, s') => Conn.sent s' = Conn.sent s \/
        exists g, Conn.sent s' = Conn.sent s ++ [g] /\ msg_type g = MESSAGE_TYPE_SETUP_CONNECTION_ERROR end).
  { intros [p|e] x; unfold mbind, send_best_effort, mret, mexit; [|by left]. unfold mbind, write_frame.
    destruct (Conn.write_outcomes s) as [|o w]; cbn; [eauto|]. destruct o; cbn; eauto. }
  unfold handle_setup_connection, send_setup_error.
  destruct (negb _); [by left|]. destruct (negb _); [apply Hb|].
  destruct (SetupConnection.decode _) as [setup|e|]; [|apply Hb|by left].
  destruct (negb _); [apply Hb|]. destruct (_ || _); [apply Hb|].
  unfold send_or_exit, encode_or_exit. destruct (SetupConnectionSuccess.encode _) as [p|e]; [|by left].
  unfold mbind, mret, write_or_exit. unfold mbind, write_frame.
  destruct (Conn.write_outcomes s) as [|[e|] w]; cbn; eauto.
Qed.

(** The registry as the others last left it before the session ended. *)
Definition registry_seen (sc : Script.t) (s : Conn.t) : GlobalChannelRegistry.t :=
  match Script.first sc with
  | Err _ => Conn.channel_registry s
  | Ok f =>
      match handle_setup_connection f s with
      | (Ret _, s1) =>
          let s1 := Conn.set_channels s1 (ConnectionChannels.new (HandlerConfig.max_channels_per_conn cfg)) in
          match wait_for_channel_open cfg (Script.latest_job sc) peer (Script.until_open sc)
                  (Script.read_end sc) (others (Script.moved sc) s1) with
          | (Ret _, s2) => others_last (Script.events sc) (Shared.registry (Script.moved sc)) s2
          | _ => Shared.registry (Script.moved sc)
          end
      | _ => Conn.channel_registry s
      end
  end.

(** The frames of a session: none, a refusal, or an answer to the setup and what followed. *)
Definition session_frames (fs : list frame) : Prop :=
  match fs with
  | [] => True
  | f :: rest => msg_type f = MESSAGE_TYPE_SETUP_CONNECTION_SUCCESS \/
                 (msg_type f = MESSAGE_TYPE_SETUP_CONNECTION_ERROR /\ rest = [])
  end.

Lemma inner_ok connected_at sc s :
  let s0 := start_session cfg connected_at s in
  let s' := (run_connection_inner cfg peer sc s0).2 in
  session_ok (concat (closes_of <$> Script.events sc)) (registry_seen sc s0) s' /\
  session_frames (Conn.sent s').
Proof.
  intros s0. set (closes := concat _).
  assert (Hs0 : session_ok closes (Conn.channel_registry s0) s0) by (split; [set_solver|done]).
  assert (Hsent : Conn.sent s0 = []) by done. clearbody s0. unfold run_connection_inner, registry_seen.
  destruct (Script.first sc) as [f|e]; [|cbn [snd]; rewrite Hsent; done].
  pose proof (setup_answers f s0) as Hset. pose proof (mv_setup closes f s0) as Hmv.
  rewrite Hsent in Hset.
  destruct (handle_setup_connection f s0) as [[u|x|] s1]; cbn [snd] in *.
  2,3: split; [by apply (moves_ok _ _ s0)|]; destruct Hset as [->|(g & -> & Hg)]; cbn; auto.
  cbv zeta. destruct Hset as (g & Hg & Hty).
  set (s2 := others (Script.moved sc) _).
  assert (Hs2 : session_ok closes (Shared.registry (Script.moved sc)) s2) by (split; [set_solver|done]).
  assert (Hg2 : Conn.sent s2 = [g]) by exact Hg. clearbody s2.
  pose proof (mv_wait closes cfg (Script.latest_job sc) peer (Script.until_open sc) (Script.read_end sc) s2) as Hw.
  destruct (wait_for_channel_open _ _ _ _ _ s2) as [[v|x|] s3]; cbn [snd] in *.
  2,3: split; [by apply (moves_ok _ _ s2)|]; destruct (mv_sent _ _ _ Hw) as [fs ->]; rewrite Hg2; cbn; auto.
  destruct (loop_ok closes (Script.events sc) (Shared.registry (Script.moved sc)) s3) as [Hl [fs Hfs]].
  - intros e He id Hid. subst closes. apply list_elem_of_In, in_concat.
    exists (closes_of e). split; apply list_elem_of_In; [by apply list_elem_of_fmap_2|done].
  - by apply (moves_ok _ _ s2).
  - split; [done|]. destruct (mv_sent _ _ _ Hw) as [fs' Hfs']. rewrite Hfs, Hfs', Hg2. cbn. auto.
Qed.

(** ** Which sessions end in a panic *)

(** A share submission of the base protocol whose payload does not decode. *)
Definition undecodable_share (f : frame) : Prop :=
  Z.land (extension_type f) 0x7fff = 0 /\
  ((msg_type f = MESSAGE_TYPE_SUBMIT_SHARES_STANDARD /\ exists e, SubmitSharesStandard.decode (payload f) = Fail e) \/
   (msg_type f = MESSAGE_TYPE_SUBMIT_SHARES_EXTENDED /\ exists e, SubmitSharesExtended.decode (payload f) = Fail e)).
Definition brings_undecodable (e : session_event) : Prop :=
  match e with EvFrame _ _ _ f => undecodable_share f | _ => False end.

Lemma np_setup f : no_panic (handle_setup_connection f).
Proof.
  unfold handle_setup_connection, send_setup_error.
  pose proof (msg_no_panic (decode := SetupConnection.decode) (payload f)) as Hd. np. done.
Qed.

Lemma np_distribute clk job order : no_panic (distribute_job clk job order).
Proof.
  induction order as [|cid order IH]; cbn [distribute_job]; [apply np_ret|]. apply np_bind; [|done].
  unfold distribute_to, send_extended_job, send_standard_job. np; apply np_prevhash.
Qed.

Lemma np_wait lj frames x : no_panic (wait_for_channel_open cfg lj peer frames x).
Proof.
  induction frames as [|[clk f] frames IH]; cbn [wait_for_channel_open]; [apply np_exit|].
  unfold reject_extended_channel_err. np; first [apply np_open_standard | apply np_open_extended | done].
Qed.

Lemma step_panics e s : (session_step cfg peer e s).1 = Panics -> brings_undecodable e.
Proof.
  destruct e as [clk job order| | |clk jt lj f| | |sh]; cbn [session_step brings_undecodable]; try done.
  - intros Hp%as_action_panics. by destruct (np_distribute clk job order s).
  - by intros Hp%miner_frame_panics_iff.
Qed.

Lemma loop_panics es : forall s, (session_loop cfg peer es s).1 = Crashed -> Exists brings_undecodable es.
Proof.
  induction es as [|e es IH]; intros s; [done|]. cbn [session_loop]. pose proof (step_panics e s) as Hp.
  destruct (session_step cfg peer e s) as [[[]|x|] s1]; cbn [fst] in *; [|done..|].
  - intros Hc. right. by eapply IH.
  - intros _. left. by apply Hp.
Qed.

Lemma inner_panics sc s : (run_connection_inner cfg peer sc s).1 = Crashed -> Exists brings_undecodable (Script.events sc).
Proof.
  unfold run_connection_inner. destruct (Script.first sc) as [f|]; [|done]. pose proof (np_setup f s) as Hs.
  destruct (handle_setup_connection f s) as [[u|x|] s1]; cbn [fst] in *; [|done..]. cbv zeta.
  match goal with |- context [wait_for_channel_open _ ?lj _ ?fs ?x ?s2] => pose proof (np_wait lj fs x s2) as Hw end.
  destruct (wait_for_channel_open _ _ _ _ _ _) as [[v|x|] s3]; cbn [fst] in *; [|done..]. apply loop_panics.
Qed.

(** C21 A connection leaves no channel behind. When its session has left, by whatever exit, no channel it
    opened is in the shared registry; every channel in its table is one it opened; and the entries of
    other connections are as those left them, except for the ids that its [CloseChannel] frames named.
    The disconnect event carries the reason of the exit. A session that does not leave has no event: it
    is still running, or its task has panicked, which takes a share submission that does not decode,
    and skips the clean-up ([crashed_session_keeps_channel]). *)
Theorem session_leaves_no_channel connected_at now sc s o s' evt :
  run_connection cfg peer connected_at now sc s = (o, s', evt) ->
  match o with
  | Left x =>
      (forall id, id ∈ Conn.opened_ids s' ->
         (Conn.channel_registry s' : gmap Z ChannelSnapshot.t) !! id = None) /\
      (forall id, is_Some (ConnectionChannels.channels (Conn.channels s') !! id) -> id ∈ Conn.opened_ids s') /\
      (forall id, id ∉ Conn.opened_ids s' -> id ∉ concat (closes_of <$> Script.events sc) ->
         (Conn.channel_registry s' : gmap Z ChannelSnapshot.t) !! id =
         registry_seen sc (start_session cfg connected_at s) !! id) /\
      DisconnectEvent.reason <$> evt = Some (as_gateway_reason x)
  | Crashed => evt = None /\ Exists brings_undecodable (Script.events sc)
  | Running => evt = None
  end.
Proof.
  pose proof (inner_ok connected_at sc s) as [Hok _]. pose proof (inner_panics sc (start_session cfg connected_at s)) as Hp.
  unfold run_connection.
  destruct (run_connection_inner cfg peer sc (start_session cfg connected_at s)) as [[|y|] s1];
    [by intros [= <- <- <-]| |intros [= <- <- <-]; by split; [|apply Hp]].
  cbn [snd] in Hok. destruct Hok as [Hids Hreg]. cbv zeta. intros [= <- <- <-].
  cbn [Conn.set_registry Conn.opened_ids Conn.channel_registry Conn.channels]. split_and!; [| | |done].
  - intros id Hid. rewrite unregister_all_lookup. by rewrite decide_True.
  - intros id Hid. apply elem_of_dom, Hids in Hid. set_solver.
  - intros id Hid Hc. rewrite unregister_all_lookup, decide_False by done. by apply Hreg.
Qed.

(** The order of a session on the wire: before anything else it answers the setup; a refusal
    is the only frame, and jobs, channels and share answers follow only an accepted setup. *)
Theorem session_setup_first connected_at now sc s :
  session_frames (Conn.sent (run_connection cfg peer connected_at now sc s).1.2).
Proof.
  pose proof (inner_ok connected_at sc s) as [_ Hf]. unfold run_connection.
  by destruct (run_connection_inner cfg peer sc (start_session cfg connected_at s)) as [[|y|] s1].
Qed.

(** A miner can remove the channel of another connection from the registry: a [CloseChannel] with
    its id does, although the connection has no such channel. *)
Lemma foreign_close_unregisters clk jt lj f close s :
  Z.land (extension_type f) 0x7fff = 0 -> msg_type f = MESSAGE_TYPE_CLOSE_CHANNEL ->
  CloseChannel.decode (payload f) = Val close ->
  (Conn.channel_registry (handle_miner_frame clk cfg jt lj peer f s).2 : gmap Z ChannelSnapshot.t)
    !! CloseChannel.channel_id close = None.
Proof.
  intros Hx Ht Hd. unfold handle_miner_frame. rewrite Hx, Ht. cbn -[Z.land]. unfold handle_close_channel. rewrite Hd.
  unfold mbind, mmodify, mget, mret. destruct (_ =? 0); cbn; apply lookup_delete_eq.
Qed.

(** A closed channel keeps its place in the table: in a full table closing one does not make room,
    and nothing in the handler calls [gc_closed]. *)
Lemma close_makes_no_room m id st :
  Z.of_nat (size (ConnectionChannels.channels m)) >= ConnectionChannels.max_channels m ->
  (ConnectionChannels.open_with st (ConnectionChannels.close_channel m id).2).1 =
    Err GatewayReason.ChannelLimitExceeded.
Proof.
  intros Hs. unfold ConnectionChannels.close_channel, ConnectionChannels.open_with.
  destruct (ConnectionChannels.channels m !! id) as [ch|] eqn:E; [destruct (ChannelState.closed ch)|]; cbn [snd].
  2: cbn; rewrite map_size_insert_Some by (by rewrite E).
  all: by rewrite (proj2 (Z.geb_le _ _)) by lia.
Qed.
End SessionTheorems.

(** ** Sample: a session that opens a channel, names a foreign one in a close, and is shut down *)

Module SessionSample.
Import ShareSample HandlerSample.

Definition encoded (r : result bytes Sv2CodecError) : bytes := match r with Ok b => b | Err _ => [] end.
Definition setup : frame :=
  mk_frame 0 MESSAGE_TYPE_SETUP_CONNECTION
    (encoded (SetupConnection.encode (SetupConnection.mk 0 2 2 0 "pool" 3336 "v" "1" "f" "d"))).
Definition open_one : frame :=
  mk_frame 0 MESSAGE_TYPE_OPEN_STANDARD_MINING_CHANNEL
    (encoded (OpenStandardMiningChannel.encode
       (OpenStandardMiningChannel.mk 7 "worker" 0 (replicate 32 xff)))).
Definition close_foreign : frame :=
  mk_frame 0 MESSAGE_TYPE_CLOSE_CHANNEL (encoded (CloseChannel.encode (CloseChannel.mk 99 "bye"))).

Definition script : Script.t :=
  Script.mk (Ok setup) [(clk, open_one)] ChannelOpenTimeout false
    (Shared.mk (mk_queue [] 8 false) (mk_queue [] 8 false) IdAllocator.new
       (ExtranonceAllocator.mk IdAllocator.new 4) ∅)
    (Some broadcast) [EvFrame clk jobs None close_foreign; EvShutdown].
Definition ended : session * Conn.t * option DisconnectEvent.t :=
  run_connection cfg "peer" 0 50 script (conn 8).

Definition left_state : Conn.t := Eval vm_compute in ended.1.2.
Definition left_event : option DisconnectEvent.t := Eval vm_compute in ended.2.

Lemma session_leaves_no_channel_witness :
  (Conn.channel_registry left_state : gmap Z ChannelSnapshot.t) !! 1 = None.
Proof.
  assert (run_connection cfg "peer" 0 50 script (conn 8) = (Left Shutdown, left_state, left_event)) as He
    by (vm_compute; reflexivity).
  destruct (session_leaves_no_channel cfg "peer" 0 50 script (conn 8) (Left Shutdown) left_state left_event He) as [Hn _].
  apply Hn. apply list_elem_of_singleton. reflexivity.
Defined.

(** The same connection, ended by a share submission without its bytes: its channel stays registered. *)
Definition bad_share : frame := mk_frame 0 MESSAGE_TYPE_SUBMIT_SHARES_STANDARD [].
Definition crashing : Script.t :=
  Script.mk (Script.first script) (Script.until_open script) (Script.read_end script) (Script.timed_out script)
    (Script.moved script) (Script.latest_job script) [EvFrame clk jobs None bad_share; EvShutdown].

Lemma crashed_session_keeps_channel :
  let '(o, s, evt) := run_connection cfg "peer" 0 50 crashing (conn 8) in
  o = Crashed /\ evt = None /\ Conn.opened_ids s = [1] /\
  bool_decide (is_Some ((Conn.channel_registry s : gmap Z ChannelSnapshot.t) !! 1)) = true.
Proof. vm_compute. split_and!; reflexivity. Qed.
End SessionSample.
