(* ===== verification/IdleStream.v ===== *)
(** * The no-progress deadline of an ingress socket

    Models [services/pool-verifier/src/idle_stream.rs]: the wrapper that ends a connection on which
    no byte has moved for the idle budget, the shorter deadline of a connection at a full address,
    and the threshold learned from the heartbeats of the peer.

    Times are nanoseconds. A timer is ready from its deadline on. The polls of a call read the
    clock and the address tracker anew in every pass of the loop: a [pass] is what one of them saw.
    The threshold [after_ms], which the message loop writes and the stream reads, is one field of
    the connection. *)

From S2P Require Import Prelude Protocol Reason Limits.

Definition millis : Z := 1000000.
Definition SHED_FLOOR : Z := 3000 * millis.
Definition SHED_RECHECK : Z := 500 * millis.
Definition CADENCE_LEARN_AFTER : Z := 4.

Definition shed_fallback (idle : Z) : Z := Z.max (idle / 4) (10000 * millis).

(** [as_millis] as a [u64]. *)
Definition as_millis_u64 (d : Z) : Z := Z.min (d / millis) u64_max.

(** ** The learned cadence *)

Module HeartbeatCadence.
Record t : Type := mk { started : Z; heartbeats : Z }.
Definition new (started : Z) : t := mk started 0.

(** A heartbeat arrived: the threshold to store, if there is one, and the new count. *)
Definition observe (now : Z) (c : t) : option Z * t :=
  let heartbeats := saturating_add 32 (heartbeats c) 1 in
  let c := mk (started c) heartbeats in
  if heartbeats <? CADENCE_LEARN_AFTER then (None, c)
  else
    let per_interval := saturating_sub now (started c) / (heartbeats - 1) in
    let after := Z.max (per_interval * 2) SHED_FLOOR in
    (Some (as_millis_u64 after), c).
End HeartbeatCadence.

(** ** The deadline *)

(** What one pass saw: the clock when the timer was polled, the clock read after it, and the
    connections per address. *)
Record pass (Ip : Type) `{Countable Ip} : Type := Pass { polled : Z; now : Z; per_ip : PerIp.t Ip }.
Arguments Pass {Ip EqDecision0 H}. Arguments polled {Ip EqDecision0 H}.
Arguments now {Ip EqDecision0 H}. Arguments per_ip {Ip EqDecision0 H}.

Inductive no_progress : Type := Pending | Reaped | Shed.

Module ShedAtCap.
Record t (Ip : Type) : Type := mk { ip : Ip; shed : bool }.
Arguments mk {Ip}. Arguments ip {Ip}. Arguments shed {Ip}.

Definition after (after_ms : Z) : Z := after_ms * millis.
Definition address_full {Ip} `{Countable Ip} (per_ip : PerIp.t Ip) (s : t Ip) : bool :=
  negb (PerIp.max_per_ip per_ip =? 0) && (PerIp.count_for (ip s) per_ip >=? PerIp.max_per_ip per_ip).
End ShedAtCap.

Module IdleTimeout.
Record t (Ip : Type) : Type := mk {
  idle : Z; deadline : Z; last_progress : Z; reaped : bool; shed : option (ShedAtCap.t Ip) }.
Arguments mk {Ip}. Arguments idle {Ip}. Arguments deadline {Ip}. Arguments last_progress {Ip}.
Arguments reaped {Ip}. Arguments shed {Ip}.

Section Ops.
Context {Ip : Type} `{Countable Ip}.

Definition set_deadline (d : Z) (s : t Ip) : t Ip := mk (idle s) d (last_progress s) (reaped s) (shed s).

(** [slept] and [now]: the clock when the timer was set and when the start was noted. *)
Definition new (slept now idle : Z) : t Ip := mk idle (slept + idle) now false None.

Definition first_look (after_ms : Z) (s : t Ip) : Z :=
  let idle := last_progress s + idle s in
  match shed s with
  | Some _ => Z.min (last_progress s + ShedAtCap.after after_ms) idle
  | None => idle
  end.

Definition with_shed_at_cap (after_ms : Z) (a : Ip) (s : t Ip) : t Ip :=
  let s := mk (idle s) (deadline s) (last_progress s) (reaped s) (Some (ShedAtCap.mk a false)) in
  set_deadline (first_look after_ms s) s.

Definition made_progress (after_ms now : Z) (s : t Ip) : t Ip :=
  let s := mk (idle s) (deadline s) now (reaped s) (shed s) in
  set_deadline (first_look after_ms s) s.

(** [poll_no_progress]; [None] when the loop is still going after the passes given. *)
Fixpoint poll_no_progress (after_ms : Z) (passes : list (pass Ip)) (s : t Ip) : option no_progress * t Ip :=
  match passes with
  | [] => (None, s)
  | p :: passes =>
      if polled p <? deadline s then (Some Pending, s)
      else
        let silent := saturating_sub (now p) (last_progress s) in
        if silent >=? idle s then (Some Reaped, mk (idle s) (deadline s) (last_progress s) true (shed s))
        else
          let idle_at := last_progress s + idle s in
          match shed s with
          | None => poll_no_progress after_ms passes (set_deadline idle_at s)
          | Some sh =>
              let after := ShedAtCap.after after_ms in
              if (silent >=? after) && ShedAtCap.address_full (per_ip p) sh then
                (Some Shed, mk (idle s) (deadline s) (last_progress s) (reaped s)
                              (Some (ShedAtCap.mk (ShedAtCap.ip sh) true)))
              else
                let at_ := if silent <? after then last_progress s + after else now p + SHED_RECHECK in
                poll_no_progress after_ms passes (set_deadline (Z.min at_ idle_at) s)
          end
  end.
End Ops.
End IdleTimeout.

(** What the inner socket answers to a poll: some bytes moved, an error, or not ready. *)
Inductive inner_poll : Type := InnerReady (n : Z) | InnerErr | InnerPending.

(** What the wrapper answers. *)
Inductive poll_result : Type := PollReady (n : Z) | PollErr | PollPending | PollTimedOut (why : no_progress).

Section Polls.
Context {Ip : Type} `{Countable Ip}.
Import IdleTimeout.

Definition poll_waiting (after_ms : Z) (passes : list (pass Ip)) (s : t Ip) : option poll_result * t Ip :=
  let '(r, s) := poll_no_progress after_ms passes s in
  ((fun r => match r with Pending => PollPending | _ => PollTimedOut r end) <$> r, s).

(** [poll_read] and [poll_write]: progress is a byte that moved. *)
Definition poll_moving (after_ms : Z) (inner : inner_poll) (at_ : Z) (passes : list (pass Ip)) (s : t Ip)
    : option poll_result * t Ip :=
  match inner with
  | InnerReady n => (Some (PollReady n), if n >? 0 then made_progress after_ms at_ s else s)
  | InnerErr => (Some PollErr, s)
  | InnerPending => poll_waiting after_ms passes s
  end.

(** [poll_flush] and [poll_shutdown]: never progress. *)
Definition poll_flushing (after_ms : Z) (inner : inner_poll) (passes : list (pass Ip)) (s : t Ip)
    : option poll_result * t Ip :=
  match inner with
  | InnerReady n => (Some (PollReady n), s)
  | InnerErr => (Some PollErr, s)
  | InnerPending => poll_waiting after_ms passes s
  end.
End Polls.

(** ** One connection *)

(** What happens to the timing of a connection, from its start to its end. *)
Inductive stream_event (Ip : Type) `{Countable Ip} : Type :=
| EvMoving (inner : inner_poll) (at_ : Z) (passes : list (pass Ip))
| EvFlushing (inner : inner_poll) (passes : list (pass Ip))
| EvHeartbeat (at_ : Z).
Arguments EvMoving {Ip EqDecision0 H}. Arguments EvFlushing {Ip EqDecision0 H}.
Arguments EvHeartbeat {Ip EqDecision0 H}.

Module Timing.
Record t (Ip : Type) : Type := mk {
  stream : IdleTimeout.t Ip; cadence : HeartbeatCadence.t; after_ms : Z }.
Arguments mk {Ip}. Arguments stream {Ip}. Arguments cadence {Ip}. Arguments after_ms {Ip}.

Section Ops.
Context {Ip : Type} `{Countable Ip}.

(** [serve_admitted_connection] up to the message loop; the clock is read three times. *)
Definition start (slept now started idle : Z) (tracker : PerIp.t Ip) (a : Ip) : t Ip :=
  let s := IdleTimeout.new slept now idle in
  let after_ms := as_millis_u64 (shed_fallback idle) in
  let s := if PerIp.is_disabled tracker then s else IdleTimeout.with_shed_at_cap after_ms a s in
  mk s (HeartbeatCadence.new started) after_ms.

(** One event: the answer of the poll, if it was one that ended, and the new timing. *)
Definition step (e : stream_event Ip) (s : t Ip) : option poll_result * t Ip :=
  match e with
  | EvMoving inner at_ passes =>
      let '(r, st) := poll_moving (after_ms s) inner at_ passes (stream s) in (r, mk st (cadence s) (after_ms s))
  | EvFlushing inner passes =>
      let '(r, st) := poll_flushing (after_ms s) inner passes (stream s) in (r, mk st (cadence s) (after_ms s))
  | EvHeartbeat at_ =>
      let '(learned, c) := HeartbeatCadence.observe at_ (cadence s) in
      (Some PollPending, mk (stream s) c (unwrap_or learned (after_ms s)))
  end.

(** The events up to the first that ends the connection or is not finished. *)
Fixpoint run (es : list (stream_event Ip)) (s : t Ip) : option poll_result * t Ip :=
  match es with
  | [] => (Some PollPending, s)
  | e :: es =>
      match step e s with
      | (Some (PollReady _), s) | (Some PollPending, s) => run es s
      | (r, s) => (r, s)
      end
  end.
End Ops.
End Timing.

(** * Properties *)

(** Case analysis on the first test of the goal, with its name. *)
Tactic Notation "test_as" ident(Hb) :=
  match goal with |- context [if ?b then _ else _] => destruct b eqn:Hb end.

Section IdleFacts.
Context {Ip : Type} `{Countable Ip}.
Import IdleTimeout.

(** The passes of a call read a clock that does not go back, from [clk] on. *)
Fixpoint clocked (clk : Z) (ps : list (pass Ip)) : Prop :=
  match ps with
  | [] => True
  | p :: ps => clk <= polled p /\ polled p <= now p /\ clocked (now p) ps
  end.

(** Past the threshold each further pass takes the clock on by the recheck interval. *)
Lemma rechecks_end after_ms sh (k : nat) : forall clk ps (s : t Ip),
  shed s = Some sh -> last_progress s + ShedAtCap.after after_ms <= clk ->
  Z.min (clk + SHED_RECHECK) (last_progress s + idle s) <= deadline s ->
  last_progress s + idle s - clk <= Z.of_nat k * SHED_RECHECK -> 0 <= ShedAtCap.after after_ms ->
  clocked clk ps -> (k < length ps)%nat -> is_Some (poll_no_progress after_ms ps s).1.
Proof.
  induction k as [|k IH]; intros clk ps s Hsh Hpast Hd Hk H0 Hc Hlen;
    (destruct ps as [|p ps]; [simpl in Hlen; lia|]); destruct Hc as (Hp & Hn & Hc); cbn [poll_no_progress];
    unfold SHED_RECHECK, millis, saturating_sub in *;
    (case_if; [done|z_bool]); (test_as Hi; [done|z_bool]); rewrite Hsh; [lia|].
  test_as Hf; [done|]. test_as Ha; z_bool; [lia|].
  apply (IH (now p)); cbn; try done; try lia. simpl in Hlen. lia.
Qed.

(** The poll of a silent connection returns, whatever the clock and the address do meanwhile: its
    loop takes at most one pass per recheck interval in the idle budget, and four more. *)
Theorem idle_poll_ends after_ms ps (s : t Ip) :
  0 <= after_ms -> 0 <= idle s -> clocked (last_progress s) ps ->
  idle s / SHED_RECHECK + 4 <= lenZ ps -> is_Some (poll_no_progress after_ms ps s).1.
Proof.
  intros Hafter Hidle Hc Hlen. set (K := Z.to_nat (idle s / SHED_RECHECK + 1)).
  assert (HK : idle s <= Z.of_nat K * SHED_RECHECK /\ (K + 3 <= length ps)%nat).
  { assert (0 <= idle s / SHED_RECHECK) by (apply Z.div_pos; unfold SHED_RECHECK, millis; lia).
    unfold lenZ in Hlen. subst K. rewrite Z2Nat.id by lia. split; [|lia].
    pose proof (Z.mul_succ_div_gt (idle s) SHED_RECHECK ltac:(unfold SHED_RECHECK, millis; lia)). lia. }
  clearbody K. destruct HK as [HK HL]. assert (Ha0 : 0 <= ShedAtCap.after after_ms) by (unfold ShedAtCap.after, millis; lia).
  assert (Hpast : forall (p : pass Ip) ps sh s', shed s' = Some sh -> last_progress s' = last_progress s -> idle s' = idle s ->
    clocked (now p) ps -> last_progress s + ShedAtCap.after after_ms <= now p ->
    deadline s' = Z.min (now p + SHED_RECHECK) (last_progress s + idle s) -> last_progress s <= now p ->
    (K < length ps)%nat -> is_Some (poll_no_progress after_ms ps s').1).
  { intros p ps' sh s' Hs Hl Hi Hc' Hn Hd Ht Hlen'. apply (rechecks_end _ sh K (now p)); rewrite ?Hl, ?Hi; try done; lia. }
  destruct ps as [|p1 ps]; [simpl in HL; lia|]. destruct Hc as (Hp1 & Hn1 & Hc).
  cbn [poll_no_progress]. test_as E1; [done|]. test_as Hi; [done|]. z_bool. unfold saturating_sub in Hi.
  destruct ps as [|p2 ps2]; [simpl in HL; lia|]. set (ps1 := p2 :: ps2) in *.
  destruct (shed s) as [sh|] eqn:Hsh.
  2: { destruct Hc as (Hp2 & Hn2 & _). subst ps1. cbn [poll_no_progress].
       test_as E2; [done|]. cbn [deadline set_deadline] in E2. z_bool. unfold saturating_sub.
       cbn [last_progress idle set_deadline]. test_as Hi2; [done|]. z_bool. lia. }
  test_as Hf1; [done|]. unfold saturating_sub. test_as Ha1; z_bool.
  2: { apply (Hpast p1 _ sh); try done; try lia. simpl in *. lia. }
  destruct Hc as (Hp2 & Hn2 & Hc). subst ps1. cbn [poll_no_progress]. unfold saturating_sub.
  cbn [last_progress idle set_deadline deadline shed].
  test_as E2; [done|]. test_as Hi2; [done|]. z_bool. rewrite Hsh. test_as Hf2; [done|].
  test_as Ha2; z_bool; [lia|]. apply (Hpast p2 _ sh); try done; try lia. simpl in *. lia.
Qed.

(** What an answer of the poll means. *)
Lemma poll_spec after_ms ps : forall (s : t Ip) r s',
  poll_no_progress after_ms ps s = (Some r, s') ->
  last_progress s' = last_progress s /\ idle s' = idle s /\
  match r with
  | Pending => deadline s' <= Z.max (deadline s) (last_progress s + idle s) /\ (is_Some (shed s') <-> is_Some (shed s))
  | Reaped => exists p, p ∈ ps /\ idle s <= saturating_sub (now p) (last_progress s)
  | Shed => exists p sh, p ∈ ps /\ shed s = Some sh /\ ShedAtCap.address_full (per_ip p) sh = true /\
      ShedAtCap.after after_ms <= saturating_sub (now p) (last_progress s) < idle s
  end.
Proof.
  induction ps as [|p ps IH]; intros s r s' Hr; [done|]. cbn [poll_no_progress] in Hr.
  destruct (polled p <? deadline s); [simplify_eq; split_and!; [done..|lia|done]|].
  destruct (saturating_sub (now p) (last_progress s) >=? idle s) eqn:Hi; z_bool; [simplify_eq; split_and!; [done..|exists p; split; [left|lia]]|].
  assert (Hrec : forall d, d <= last_progress s + idle s ->
    poll_no_progress after_ms ps (set_deadline d s) = (Some r, s') ->
    last_progress s' = last_progress s /\ idle s' = idle s /\
    match r with
    | Pending => deadline s' <= Z.max (deadline s) (last_progress s + idle s) /\ (is_Some (shed s') <-> is_Some (shed s))
    | Reaped => exists p', p' ∈ p :: ps /\ idle s <= saturating_sub (now p') (last_progress s)
    | Shed => exists p' sh, p' ∈ p :: ps /\ shed s = Some sh /\ ShedAtCap.address_full (per_ip p') sh = true /\
        ShedAtCap.after after_ms <= saturating_sub (now p') (last_progress s) < idle s
    end).
  { intros d Hd Hx. apply IH in Hx as (-> & -> & Hx). cbn [set_deadline last_progress idle deadline shed] in Hx.
    split_and!; [done..|]. destruct r.
    - destruct Hx. split; [lia|done].
    - destruct Hx as (p' & Hin & ?). exists p'. split; [by right|done].
    - destruct Hx as (p' & sh & Hin & ?). exists p', sh. split; [by right|done]. }
  destruct (shed s) as [sh|] eqn:Hsh; [|by eapply Hrec; [reflexivity|exact Hr]].
  destruct (_ && _) eqn:Hf in Hr; [|by eapply Hrec; [apply Z.le_min_r|exact Hr]]. apply andb_prop in Hf as [Hf1 Hf2]. z_bool.
  simplify_eq. cbn. split_and!; [done..|]. exists p, sh. split_and!; [left|done|done|lia|lia].
Qed.

(** ** The threshold a peer earns *)

(** Before heartbeat [n + 1], [n] have been counted. *)
Definition counted (n : Z) (c : HeartbeatCadence.t) : Prop := HeartbeatCadence.heartbeats c = Z.min n u32_max.

Lemma observe_counts at_ n c : 0 <= n -> counted n c ->
  counted (n + 1) (HeartbeatCadence.observe at_ c).2 /\
  HeartbeatCadence.started (HeartbeatCadence.observe at_ c).2 = HeartbeatCadence.started c.
Proof.
  unfold counted, HeartbeatCadence.observe, saturating_add, u32_max. intros H0 ->.
  case_if; cbn; split; try done; lia.
Qed.

(** A threshold in whole milliseconds from an interval estimate [q]. *)
Lemma threshold_bounds x e q : 0 <= q < 2 ^ 63 -> x * millis <= q -> 2 * q <= e ->
  2 * x <= as_millis_u64 (Z.max (q * 2) SHED_FLOOR) /\
  SHED_FLOOR <= ShedAtCap.after (as_millis_u64 (Z.max (q * 2) SHED_FLOOR)) /\
  ShedAtCap.after (as_millis_u64 (Z.max (q * 2) SHED_FLOOR)) <= Z.max e SHED_FLOOR.
Proof.
  unfold as_millis_u64, ShedAtCap.after, SHED_FLOOR, millis, u64_max. intros Hq Hx He.
  set (y := Z.max (q * 2) (3000 * 1000000)).
  assert (Hy : y = Z.max (q * 2) (3000 * 1000000)) by done. clearbody y.
  pose proof (Z.div_mod y 1000000 ltac:(lia)). pose proof (Z.mod_pos_bound y 1000000 ltac:(lia)). lia.
Qed.

(** The learned threshold is never too short: when the heartbeat after [n] others arrives no
    earlier than [n] intervals after the start, however late or bunched the ones before it were
    read, the threshold it stores is at least twice the interval and the floor; and it exceeds
    twice the interval by no more than the delay spread over the intervals seen. *)
Theorem cadence_learned interval_ms delay n at_ c ms :
  0 < interval_ms -> 3 <= n < u32_max -> counted n c -> at_ < 2 ^ 63 ->
  HeartbeatCadence.started c + n * (interval_ms * millis) <= at_ ->
  at_ <= HeartbeatCadence.started c + n * (interval_ms * millis) + delay -> 0 <= HeartbeatCadence.started c ->
  (HeartbeatCadence.observe at_ c).1 = Some ms ->
  2 * interval_ms <= ms /\ SHED_FLOOR <= ShedAtCap.after ms /\
  ShedAtCap.after ms <= Z.max (2 * (interval_ms * millis) + 2 * delay / n) SHED_FLOOR.
Proof.
  intros Hi Hn Hc Hat Hlo Hhi Hst Hobs. unfold HeartbeatCadence.observe, saturating_add in Hobs.
  cbv zeta in Hobs. cbn [HeartbeatCadence.started] in Hobs. unfold counted in Hc. rewrite !Hc in Hobs.
  replace (Z.min (Z.min n u32_max + 1) (2 ^ 32 - 1)) with (n + 1) in Hobs by (unfold u32_max in *; lia).
  case_if; z_bool; [unfold CADENCE_LEARN_AFTER in *; lia|]. cbn [fst HeartbeatCadence.started] in Hobs.
  apply (inj Some) in Hobs. replace (n + 1 - 1) with n in Hobs by lia.
  set (d := saturating_sub at_ (HeartbeatCadence.started c)) in *.
  assert (Hd : n * (interval_ms * millis) <= d <= n * (interval_ms * millis) + delay /\ d < 2 ^ 63)
    by (set (x := n * (interval_ms * millis)) in *; assert (0 <= x) by (subst x; unfold millis; nia);
        unfold d, saturating_sub; lia).
  clearbody d. destruct Hd as [[Hd1 Hd2] Hd3]. assert (Hd0 : 0 <= d) by (unfold millis in *; nia).
  assert (Hq : interval_ms * millis <= d / n) by (apply Z.div_le_lower_bound; lia).
  assert (Hq2 : 2 * (d / n) <= 2 * (interval_ms * millis) + 2 * delay / n).
  { etrans; [apply (Z.div_mul_le _ _ 2); lia|]. etrans; [apply (Z.div_le_mono _ (2 * delay + 2 * (interval_ms * millis) * n)); lia|].
    rewrite Z.div_add by lia. lia. }
  assert (Hq3 : d / n <= d) by (apply Z.div_le_upper_bound; unfold millis in *; nia).
  assert (0 <= d / n) by (apply Z.div_pos; lia). rewrite <- Hobs. apply threshold_bounds; lia.
Qed.

(** ** The life of a connection *)

(** A peer that keeps its rhythm from [began] on, after [n] heartbeats and bytes last moved at [lp]:
    heartbeat [n + 1] is read no earlier than [n] intervals after [began], and no poll finds a silence
    of [bound] or more. *)
Fixpoint keeps_rhythm (began interval bound : Z) (n lp : Z) (es : list (stream_event Ip)) : Prop :=
  match es with
  | [] => True
  | EvMoving (InnerReady k) at_ _ :: es =>
      keeps_rhythm began interval bound n (if k >? 0 then at_ else lp) es
  | EvMoving InnerPending _ ps :: es | EvFlushing InnerPending ps :: es =>
      Forall (fun p => now p - lp < bound) ps /\ keeps_rhythm began interval bound n lp es
  | EvHeartbeat at_ :: es =>
      began + n * interval <= at_ < 2 ^ 63 /\ keeps_rhythm began interval bound (n + 1) lp es
  | _ :: es => keeps_rhythm began interval bound n lp es
  end.

(** A threshold of [ms] is safe for a peer whose interval began [late] before the verifier's own start:
    it is within the floor, or within twice the interval less the share of [late] in three intervals. *)
Definition safe_threshold (interval late ms : Z) : Prop :=
  ms * millis <= SHED_FLOOR \/ 3 * (ms * millis) + 2 * late <= 6 * interval.

Lemma observe_covers interval_ms late safe n at_ c ms :
  0 < interval_ms -> 0 <= late -> safe_threshold (interval_ms * millis) late safe -> 0 <= n -> counted n c ->
  0 <= HeartbeatCadence.started c -> at_ < 2 ^ 63 ->
  HeartbeatCadence.started c - late + n * (interval_ms * millis) <= at_ ->
  (HeartbeatCadence.observe at_ c).1 = Some ms -> safe <= ms.
Proof.
  intros Hi Hl Hsafe Hn Hc Hst Hat Hlo Hobs. unfold HeartbeatCadence.observe, saturating_add in Hobs.
  cbv zeta in Hobs. cbn [HeartbeatCadence.started] in Hobs. unfold counted in Hc. rewrite !Hc in Hobs.
  set (m := Z.min (Z.min n u32_max + 1) (2 ^ 32 - 1)) in *.
  assert (Hm : m - 1 <= n) by (unfold m, u32_max; lia).
  clearbody m. destruct (m <? CADENCE_LEARN_AFTER) eqn:E; [done|]. z_bool. unfold CADENCE_LEARN_AFTER in E.
  cbn [fst] in Hobs. apply (inj Some) in Hobs.
  set (d := saturating_sub at_ (HeartbeatCadence.started c)) in *.
  assert (Hd : n * (interval_ms * millis) - late <= d /\ 0 <= d < 2 ^ 63) by (unfold d, saturating_sub; lia).
  clearbody d. destruct Hd as (Hd1 & Hd2).
  assert (0 <= d / (m - 1)) by (apply Z.div_pos; lia).
  assert (d / (m - 1) <= d) by (apply Z.div_le_upper_bound; [lia|nia]).
  rewrite <- Hobs. destruct Hsafe as [Hf|Hq].
  - pose proof (threshold_bounds 0 _ (d / (m - 1)) ltac:(lia) ltac:(lia) (Z.le_refl _)) as (_ & Hx & _).
    unfold ShedAtCap.after, SHED_FLOOR, millis in *. lia.
  - assert (Hk : (m - 1) * (interval_ms * millis) <= n * (interval_ms * millis))
      by (apply Z.mul_le_mono_nonneg_r; [unfold millis; lia|lia]).
    assert (Hh : 500000 * safe <= d / (m - 1)) by (apply Z.div_le_lower_bound; [lia|unfold millis in *; nia]).
    unfold as_millis_u64, SHED_FLOOR, millis, u64_max. apply Z.min_glb; [apply Z.div_le_lower_bound; lia|lia].
Qed.

(** A poll that finds less silence than both deadlines does not end the connection. *)
Lemma poll_keeps after_ms bound ps (s : t Ip) :
  Forall (fun p => now p - last_progress s < bound) ps -> 0 < bound -> bound <= idle s ->
  bound <= ShedAtCap.after after_ms ->
  match poll_no_progress after_ms ps s with
  | (Some Reaped, _) | (Some Shed, _) => False
  | (r, s') => r = Some Pending -> last_progress s' = last_progress s /\ idle s' = idle s
  end.
Proof.
  intros Hf Hb Hi Ha. destruct (poll_no_progress after_ms ps s) as [[r|] s'] eqn:Hp; [|done].
  apply poll_spec in Hp as (Hl & Hid & Hp). destruct r; [done|exfalso..].
  - destruct Hp as (p & Hin & Hs). rewrite Forall_forall in Hf. specialize (Hf _ Hin).
    unfold saturating_sub in Hs. lia.
  - destruct Hp as (p & sh & Hin & _ & _ & Hs). rewrite Forall_forall in Hf. specialize (Hf _ Hin).
    unfold saturating_sub in Hs. lia.
Qed.

(** How a connection stands while its peer keeps its rhythm. *)
Record kept (started bound n lp : Z) (s : Timing.t Ip) : Prop := {
  kp_count : counted n (Timing.cadence s);
  kp_started : HeartbeatCadence.started (Timing.cadence s) = started;
  kp_progress : last_progress (Timing.stream s) = lp;
  kp_idle : bound <= idle (Timing.stream s);
  kp_after : bound <= ShedAtCap.after (Timing.after_ms s) }.

Lemma kept_run started interval_ms late safe bound es : forall n lp (s : Timing.t Ip),
  0 < interval_ms -> 0 <= late -> 0 <= started -> 0 < bound -> bound <= safe * millis ->
  safe_threshold (interval_ms * millis) late safe -> 0 <= n -> kept started bound n lp s ->
  keeps_rhythm (started - late) (interval_ms * millis) bound n lp es ->
  forall why, (Timing.run es s).1 <> Some (PollTimedOut why).
Proof.
  induction es as [|e es IH]; intros n lp s Hi Hla Hst Hb Hb2 Hsafe Hn Hk Hr why; [done|].
  assert (Hwait : forall ps, Forall (fun p => now p - lp < bound) ps ->
    match poll_waiting (Timing.after_ms s) ps (Timing.stream s) with
    | (Some (PollTimedOut _), _) => False
    | (Some PollPending, st) => kept started bound n lp (Timing.mk st (Timing.cadence s) (Timing.after_ms s))
    | (Some _, _) => False
    | (None, _) => True
    end).
  { intros ps Hps. destruct Hk as [Hc Hs Hp Hid Ha]. rewrite <- Hp in Hps.
    pose proof (poll_keeps _ _ _ _ Hps Hb Hid Ha) as Hx. unfold poll_waiting.
    destruct (poll_no_progress _ ps _) as [[[]|] st]; cbn; try done.
    destruct (Hx eq_refl) as [El Ei]. split; cbn; try done; congruence. }
  destruct e as [[k| |] at_ ps|[k| |] ps|at_]; cbn [Timing.run Timing.step poll_moving poll_flushing keeps_rhythm] in *;
    try done.
  - refine (IH n _ _ Hi Hla Hst Hb Hb2 Hsafe Hn _ Hr why). destruct Hk as [Hc Hs Hp Hid Ha]. destruct (k >? 0); by split.
  - destruct Hr as [Hps Hr]. specialize (Hwait ps Hps).
    destruct (poll_waiting _ ps _) as [[[k| | |w]|] st]; try done. exact (IH n _ _ Hi Hla Hst Hb Hb2 Hsafe Hn Hwait Hr why).
  - refine (IH n _ _ Hi Hla Hst Hb Hb2 Hsafe Hn _ Hr why). destruct Hk. by split.
  - destruct Hr as [Hps Hr]. specialize (Hwait ps Hps).
    destruct (poll_waiting _ ps _) as [[[k| | |w]|] st]; try done. exact (IH n _ _ Hi Hla Hst Hb Hb2 Hsafe Hn Hwait Hr why).
  - destruct Hr as [[Hlo Hat] Hr]. destruct Hk as [Hc Hs Hp Hid Ha].
    pose proof (observe_counts at_ n _ Hn Hc) as [Hc' Hs'].
    pose proof (fun ms => observe_covers interval_ms late safe n at_ (Timing.cadence s) ms Hi Hla Hsafe Hn Hc) as Hcov.
    rewrite Hs in Hcov. destruct (HeartbeatCadence.observe at_ (Timing.cadence s)) as [learned c].
    cbn [fst snd] in *. refine (IH (n + 1) _ _ Hi Hla Hst Hb Hb2 Hsafe _ _ Hr why); [lia|]. split; cbn; try done; [congruence|].
    destruct learned as [ms|]; cbn; [|done]. specialize (Hcov ms Hst Hat Hlo eq_refl).
    unfold ShedAtCap.after in *. unfold millis in *. lia.
Qed.

(** C22 A live gateway keeps its connection: a peer whose heartbeats keep an interval of whole
    milliseconds, counted from a moment up to [late] before the verifier's own start of the connection
    (over TLS it is not before it; over plaintext it is the TCP connect, which the verifier may have
    accepted that late), on a connection where no poll finds a silence as long as the idle budget, the
    fallback threshold, or both the floor of 3 s and twice the interval less two thirds of [late], is
    never reaped and never shed, however full its address is and however its reads are delayed and
    bunched. *)
Theorem live_gateway_kept slept t0 started idle tracker (a : Ip) interval_ms late safe bound es why :
  0 < interval_ms -> 0 <= late -> 0 <= started -> 0 < bound ->
  bound <= safe * millis -> safe_threshold (interval_ms * millis) late safe ->
  bound <= idle -> bound <= ShedAtCap.after (as_millis_u64 (shed_fallback idle)) ->
  keeps_rhythm (started - late) (interval_ms * millis) bound 0 t0 es ->
  (Timing.run es (Timing.start slept t0 started idle tracker a)).1 <> Some (PollTimedOut why).
Proof.
  intros Hi Hla Hst Hb Hb2 Hs Hid Hfb Hr.
  refine (kept_run started interval_ms late safe bound es 0 t0 _ Hi Hla Hst Hb Hb2 Hs (Z.le_refl 0) _ Hr why).
  unfold Timing.start. destruct (PerIp.is_disabled tracker); by split.
Qed.

(** The timer never waits past the idle budget. *)
Definition armed (s : t Ip) : Prop := deadline s <= last_progress s + idle s.

Lemma made_progress_armed after_ms at_ (s : t Ip) : armed (made_progress after_ms at_ s).
Proof. unfold armed, made_progress, first_look. cbn. destruct (shed s); lia. Qed.

Lemma waiting_armed after_ms ps (s : t Ip) :
  armed s -> (poll_waiting after_ms ps s).1 = Some PollPending -> armed (poll_waiting after_ms ps s).2.
Proof.
  unfold poll_waiting, armed. intros Hs. destruct (poll_no_progress after_ms ps s) as [[r|] s'] eqn:Hp; [|done].
  apply poll_spec in Hp as (Hl & Hi & Hp). destruct r; cbn; try done. intros _. destruct Hp. lia.
Qed.

Lemma run_armed es : forall (s s' : Timing.t Ip),
  armed (Timing.stream s) -> Timing.run es s = (Some PollPending, s') -> armed (Timing.stream s').
Proof.
  induction es as [|e es IH]; intros s s' Hs Hr; [by cbn in Hr; simplify_eq|].
  cbn [Timing.run] in Hr.
  assert (forall ps, match poll_waiting (Timing.after_ms s) ps (Timing.stream s) with
    | (Some PollPending, st) => armed st | (Some (PollReady _), _) => False | _ => True end) as Hw.
  { intros ps. pose proof (waiting_armed (Timing.after_ms s) ps _ Hs) as Hx. revert Hx. unfold poll_waiting.
    destruct (poll_no_progress _ ps _) as [[[]|] st]; cbn; auto. }
  destruct e as [[k| |] at_ ps|[k| |] ps|at_]; cbn [Timing.step poll_moving poll_flushing] in Hr; try done.
  - eapply IH; [|exact Hr]. cbn. destruct (k >? 0); [apply made_progress_armed|done].
  - specialize (Hw ps). destruct (poll_waiting _ ps _) as [[[]|] st]; try done. by eapply IH; [|exact Hr].
  - by eapply IH; [|exact Hr].
  - specialize (Hw ps). destruct (poll_waiting _ ps _) as [[[]|] st]; try done. by eapply IH; [|exact Hr].
  - destruct (HeartbeatCadence.observe _ _) as [l c]. by eapply IH; [|exact Hr].
Qed.

(** A silent connection gives its slot back: whatever happened on it before, its timer is set no
    later than the idle budget after the last byte moved, and a poll from then on ends it as reaped.
    While its address is full, a poll from the threshold on that the timer was armed with ends it
    too. *)
Theorem silent_connection_ends slept t0 started idle_budget tracker (a : Ip) es s p ps :
  slept <= t0 ->
  Timing.run es (Timing.start slept t0 started idle_budget tracker a) = (Some PollPending, s) ->
  let st := Timing.stream s in
  deadline st <= last_progress st + idle st /\
  (last_progress st + idle st <= polled p -> polled p <= now p ->
     (poll_waiting (Timing.after_ms s) (p :: ps) st).1 = Some (PollTimedOut Reaped)) /\
  (forall sh, shed st = Some sh -> ShedAtCap.address_full (per_ip p) sh = true ->
     Z.max (deadline st) (last_progress st + ShedAtCap.after (Timing.after_ms s)) <= polled p -> polled p <= now p ->
     exists why, (poll_waiting (Timing.after_ms s) (p :: ps) st).1 = Some (PollTimedOut why)).
Proof.
  intros Hsl Hr. assert (Ha : armed (Timing.stream s)).
  { eapply run_armed; [|exact Hr]. unfold Timing.start. destruct (PerIp.is_disabled tracker); unfold armed; cbn; lia. }
  cbv zeta. unfold armed in Ha. split_and!; [done| |]; intros.
  - unfold poll_waiting. cbn [poll_no_progress]. unfold saturating_sub.
    rewrite (proj2 (Z.ltb_ge _ _)) by lia. rewrite (proj2 (Z.geb_le _ _)) by lia. done.
  - unfold poll_waiting. cbn [poll_no_progress]. unfold saturating_sub.
    rewrite (proj2 (Z.ltb_ge _ _)) by lia. test_as Hi; [by exists Reaped|].
    destruct (shed (Timing.stream s)) as [sh'|]; [|done]. simplify_eq.
    rewrite (proj2 (Z.geb_le (Z.max _ _) _)) by lia. cbn [andb].
    match goal with Hf : ShedAtCap.address_full _ _ = true |- _ => rewrite Hf end. by exists Shed.
Qed.
End IdleFacts.

(** ** Sample: a gateway on two-second heartbeats at a full address *)

Module IdleSample.
Import IdleTimeout.

Definition full : PerIp.t Z := PerIp.mk 1 false {[7 := 1]}.
Definition sec : Z := 1000 * millis.
Definition beat (k : Z) : list (stream_event Z) :=
  [EvMoving InnerPending 0 [Pass (2 * k * sec - sec) (2 * k * sec - sec) full];
   EvMoving (InnerReady 60) (2 * k * sec) []; EvHeartbeat (2 * k * sec);
   EvMoving (InnerReady 60) (2 * k * sec) []].
Definition life : list (stream_event Z) := beat 1 ++ beat 2 ++ beat 3 ++ beat 4.
Definition born : Timing.t Z := Timing.start 0 0 0 (60 * sec) full 7.
Definition grown : Timing.t Z := Eval vm_compute in (Timing.run life born).2.

Lemma idle_poll_ends_witness :
  is_Some (poll_no_progress 4000 (replicate 10 (Pass sec sec full)) (new 0 0 (2 * sec) : t Z)).1.
Proof.
  apply idle_poll_ends; [lia|vm_compute; congruence| |vm_compute; congruence].
  repeat split; vm_compute; congruence.
Defined.

Lemma cadence_learned_witness :
  exists ms, (HeartbeatCadence.observe (8 * sec) (HeartbeatCadence.mk 0 3)).1 = Some ms /\ 2 * 2000 <= ms.
Proof.
  eexists. split; [vm_compute; reflexivity|].
  refine (proj1 (cadence_learned 2000 (2 * sec) 3 (8 * sec) (HeartbeatCadence.mk 0 3) _ _ _ _ _ _ _ _ _));
    try (vm_compute; congruence); try (vm_compute; reflexivity).
  split; vm_compute; congruence.
Defined.

(** The verifier accepted the connection 9 s after its peer's timer started. *)
Lemma live_gateway_kept_witness : (Timing.run life born).1 <> Some (PollTimedOut Shed).
Proof.
  assert (Hr : keeps_rhythm (0 - 9 * sec) (2000 * millis) (3 * sec) 0 0 life)
    by (unfold life, beat, sec, millis; cbn [app keeps_rhythm]; change (60 >? 0) with true; cbv iota; repeat split;
        first [lia|apply Forall_singleton; cbn [now]; lia]).
  unfold born. refine (live_gateway_kept 0 0 0 (60 * sec) full 7 2000 (9 * sec) 3000 (3 * sec) life Shed _ _ _ _ _ _ _ _ Hr);
    first [left; vm_compute; congruence|vm_compute; congruence].
Defined.

(** At five seconds an accept eight seconds late is too late: the peer beats every five seconds from its
    connect on, and is shed before its fifth heartbeat is due. *)
Definition late_beat (k : Z) : list (stream_event Z) :=
  [EvMoving (InnerReady 60) ((5 * k - 8) * sec) []; EvHeartbeat ((5 * k - 8) * sec)].
Definition late_life : list (stream_event Z) :=
  [EvMoving (InnerReady 60) 0 []; EvHeartbeat 0; EvMoving (InnerReady 60) 0 []; EvHeartbeat 0]
  ++ late_beat 2 ++ late_beat 3 ++ [EvMoving (InnerReady 60) (7 * sec) []]
  ++ [EvMoving InnerPending 0 [Pass (12 * sec - 1) (12 * sec - 1) full]].
Lemma late_accept_sheds : (Timing.run late_life born).1 = Some (PollTimedOut Shed).
Proof. vm_compute. reflexivity. Qed.

Lemma silent_connection_ends_witness :
  (poll_waiting 4000 [Pass (70 * sec) (70 * sec) full] (Timing.stream grown)).1 = Some (PollTimedOut Reaped).
Proof.
  assert (He : Timing.run life born = (Some PollPending, grown)) by (vm_compute; reflexivity).
  destruct (silent_connection_ends 0 0 0 (60 * sec) full 7 life grown (Pass (70 * sec) (70 * sec) full) []
    ltac:(lia) He) as (_ & Hx & _). apply Hx; vm_compute; congruence.
Defined.
End IdleSample.
