(* ===== verification/VerdictLog.v ===== *)
(** * The verdict log of the verifier

    Models [services/pool-verifier/src/verdicts.rs]: the record of one verdict, the capped log in
    memory, the log file with its rotation, the append that follows a verdict and the loading at
    start-up; and the readers of the log in [handlers.rs]: the statistics and the tail of the file.

    The directory of the log is a map from a rotation number to the bytes of the file, [0] being the
    file that is written. [serde_json] on a record is an argument. What each system call of an append
    answers is an argument too. *)

From stdpp Require Import sorting.
From S2P Require Import Prelude Crates Protocol Codec Consensus Mempool Policy Limits VerifierStream.

Module LoggedVerdict.
Record t : Type := mk {
  log_id : Z; template_id : Z; height : Z; total_fees : Z; tx_count : Z; accepted : bool;
  reason : option string; reason_code : option string; reason_detail : option string;
  timestamp : Z; min_avg_fee_used : Z; fee_tier : string; tier_source : string;
  avg_fee_sats_per_tx : Z; template_weight : option Z; total_sigops : option Z;
  coinbase_sigops : option Z; created_at_unix_ms : option Z; safety_warnings : list string;
  mempool_adjudication : option MempoolAdjudicationRecord.t }.
End LoggedVerdict.

Definition VERDICT_LOG_MAX_BYTES : Z := 50 * 1024 * 1024.
Definition VERDICT_LOG_ROTATIONS : nat := 5.
Definition DEFAULT_VERDICT_LOG_MAX_ENTRIES : Z := 1000.

(** The variable of the environment, parsed as a [usize] where it is set and parses. *)
Definition verdict_log_max_entries (parsed : option Z) : Z := unwrap_or parsed DEFAULT_VERDICT_LOG_MAX_ENTRIES.

(** Text that serde_json writes for a struct: one line, an object, UTF-8. *)
Definition json_object (b : bytes) : Prop :=
  (exists m, b = x7b :: m ++ [x7d]) /\ newline ∉ b /\ utf8_valid b = true.

(** [serde_json] on a record of the log. *)
Class LogJson : Type := {
  logged_to_string : LoggedVerdict.t -> option bytes;
  logged_from_str : bytes -> option LoggedVerdict.t
}.
Class LogJsonLaws `{LogJson} : Prop := {
  logged_round_trip v b : logged_to_string v = Some b -> logged_from_str b = Some v;
  logged_object v b : logged_to_string v = Some b -> json_object b
}.

(** [str::trim] on the bytes of a text. *)
Definition trim_str (b : bytes) : bytes := Ascii.byte_of_ascii <$> trim (Ascii.ascii_of_byte <$> b).

(** [drain(0..len - max)] when there are more than [max]. *)
Definition cap_front {A} (max : Z) (l : list A) : list A :=
  if lenZ l >? max then drop (Z.to_nat (lenZ l - max)) l else l.

(** [guard.push(logged)] with the eviction that follows it. *)
Definition push_verdict (max_log : Z) (v : LoggedVerdict.t) (log : list LoggedVerdict.t) : list LoggedVerdict.t :=
  cap_front max_log (log ++ [v]).

(** The line whose bytes in reverse are [cur], without a carriage return at its end. *)
Definition line_of (cur : bytes) : bytes := match cur with x0d :: r => reverse r | _ => reverse cur end.

(** [BufRead::lines]: the lines that a newline ends; what follows the last newline is a line too when
    it is not empty, and keeps a carriage return. *)
Fixpoint split_lines (b cur : bytes) : list bytes :=
  match b with
  | [] => match cur with [] => [] | _ => [reverse cur] end
  | x :: b => if bool_decide (x = newline) then line_of cur :: split_lines b [] else split_lines b (x :: cur)
  end.

(** [lines().map_while(Result::ok)]: up to the first that is not UTF-8. *)
Fixpoint while_utf8 (ls : list bytes) : list bytes :=
  match ls with
  | l :: ls => if utf8_valid l then l :: while_utf8 ls else []
  | [] => []
  end.
Definition file_lines (b : bytes) : list bytes := while_utf8 (split_lines b []).

(** ** The directory *)

Module Disk.
Record t : Type := mk { files : gmap nat bytes; log_write_errors : Z }.
End Disk.

(** What the system calls of one append answer. [written] is how many bytes a failing write wrote. *)
Module Io.
Record t : Type := mk {
  stat_ok : bool; remove_ok : nat -> bool; rename_ok : nat -> bool; open_ok : bool;
  written : option nat; sync_ok : bool }.
Definition fine : t := mk true (fun _ => true) (fun _ => true) true None true.
End Io.

(** The answer of the statistics endpoint. *)
Module Stats.
Record t : Type := mk {
  total : Z; accepted : Z; rejected : Z; by_reason : gmap string Z; by_tier : gmap string Z;
  last : option LoggedVerdict.t }.
End Stats.

Section Log.
Context `{LogJson}.

Definition parse_line (l : bytes) : option LoggedVerdict.t :=
  let l := trim_str l in
  match l with [] => None | _ => logged_from_str l end.

(** [load_verdict_log]: the log and the next id. *)
Definition load_verdict_log (content : option bytes) (max_entries : Z) : list LoggedVerdict.t * Z :=
  let list := match content with Some b => omap parse_line (file_lines b) | None => [] end in
  let max_id := foldl (fun m v => Z.max m (LoggedVerdict.log_id v)) 0 list in
  (cap_front max_entries list, wrapping_add 64 max_id 1).

(** One slot of the rotation: file [i - 1] becomes file [i]. *)
Definition rotate_slot (io : Io.t) (fs : gmap nat bytes) (i : nat) : gmap nat bytes :=
  let fs := if Io.remove_ok io i then delete i fs else fs in
  match fs !! (i - 1)%nat with
  | Some c => if Io.rename_ok io i then <[i := c]> (delete (i - 1)%nat fs) else fs
  | None => fs
  end.

Definition rotate_slots (io : Io.t) (fs : gmap nat bytes) : gmap nat bytes :=
  foldl (rotate_slot io) fs (reverse (seq 1 VERDICT_LOG_ROTATIONS)).

Definition rotate_verdict_log_if_needed (io : Io.t) (fs : gmap nat bytes) : gmap nat bytes :=
  if negb (Io.stat_ok io) then fs
  else
    match fs !! 0%nat with
    | None => fs
    | Some c => if lenZ c <? VERDICT_LOG_MAX_BYTES then fs else rotate_slots io fs
    end.

(** Open for appending, creating the file, serialise, write the line, flush and sync: the files
    and whether all of it went well. *)
Definition append_line (io : Io.t) (v : LoggedVerdict.t) (fs : gmap nat bytes) : gmap nat bytes * bool :=
  if negb (Io.open_ok io) then (fs, false)
  else
    let old := unwrap_or (fs !! 0%nat) [] in
    match logged_to_string v with
    | None => (<[0%nat := old]> fs, false)
    | Some line =>
        let line := line ++ [newline] in
        match Io.written io with
        | Some n => (<[0%nat := old ++ take n line]> fs, false)
        | None => (<[0%nat := old ++ line]> fs, Io.sync_ok io)
        end
    end.

Definition append_verdict_to_disk (mode : option DeployMode.t) (io : Io.t) (v : LoggedVerdict.t) (d : Disk.t) : Disk.t :=
  let mode := unwrap_or mode DeployMode.Shadow in
  if negb (DeployMode.persist_verdicts mode) then d
  else
    let fs := rotate_verdict_log_if_needed io (Disk.files d) in
    let '(fs, ok) := append_line io v fs in
    Disk.mk fs (if ok then Disk.log_write_errors d else wrapping_add 64 (Disk.log_write_errors d) 1).

(** ** Readers *)

(** [*map.entry(k).or_insert(0) += 1]. *)
Definition count_up (k : string) (m : gmap string Z) : gmap string Z := <[k := unwrap_or (m !! k) 0 + 1]> m.

Definition reason_key (v : LoggedVerdict.t) : string :=
  if LoggedVerdict.accepted v then "ok"
  else match LoggedVerdict.reason_code v with Some code => code | None => "unknown" end.

Definition add_stats (s : Stats.t) (v : LoggedVerdict.t) : Stats.t :=
  Stats.mk (Stats.total s + 1)
    (if LoggedVerdict.accepted v then Stats.accepted s + 1 else Stats.accepted s)
    (if LoggedVerdict.accepted v then Stats.rejected s else Stats.rejected s + 1)
    (count_up (reason_key v) (Stats.by_reason s)) (count_up (LoggedVerdict.fee_tier v) (Stats.by_tier s))
    (Some v).

Definition get_stats (log : list LoggedVerdict.t) : Stats.t :=
  foldl add_stats (Stats.mk 0 0 0 ∅ ∅ None) log.

(** [get_verdict_log]: the ring of the last [tail] lines, with [tail] capped. *)
Definition tail_push (tail : Z) (buf : list bytes) (l : bytes) : list bytes :=
  (if lenZ buf =? tail then drop 1 buf else buf) ++ [l].
Definition get_verdict_log (tail : option Z) (content : option bytes) : option bytes :=
  let tail := Z.min (unwrap_or tail 2000) 10000 in
  match content with
  | None => None
  | Some b => Some (concat ((fun l => l ++ [newline]) <$> foldl (tail_push tail) [] (file_lines b)))
  end.
End Log.

(** * Properties *)

(** ** Text of one object *)

Lemma strip_none c : c = Ascii.ascii_of_byte x7b \/ c = Ascii.ascii_of_byte x7d -> forall s,
  strip_first white_space (c :: s) = None /\ strip_first (reverse <$> white_space) (c :: s) = None.
Proof. intros [->| ->] s; by vm_compute. Qed.

Lemma trim_fuel_none fuel ws c s : strip_first ws (c :: s) = None -> trim_start_fuel fuel ws (c :: s) = c :: s.
Proof. destruct fuel; [done|]. cbn [trim_start_fuel]. by intros ->. Qed.

(** Trimming an object, or an object and the newline after it, gives the object. *)
Lemma trim_str_object b l : json_object b -> l = [] \/ l = [newline] -> trim_str (b ++ l) = b.
Proof.
  intros ((m & ->) & _ & _) Hl. unfold trim_str. set (f := Ascii.ascii_of_byte).
  set (o := f x7b :: (f <$> m) ++ [f x7d]).
  assert (Ho : trim (f <$> (x7b :: m ++ [x7d]) ++ l) = o).
  { replace (f <$> (x7b :: m ++ [x7d]) ++ l) with (f x7b :: ((f <$> m) ++ [f x7d]) ++ (f <$> l))
      by (cbn; by rewrite !fmap_app).
    unfold trim. rewrite trim_fuel_none by (apply strip_none; by left).
    rewrite reverse_cons, reverse_app, reverse_snoc.
    assert (Hend : forall fuel, trim_start_fuel fuel (reverse <$> white_space) (f x7d :: reverse (f <$> m) ++ [f x7b]) =
      reverse o).
    { intros fuel. rewrite trim_fuel_none by (apply strip_none; by right).
      subst o. by rewrite reverse_cons, reverse_snoc. }
    destruct Hl as [->| ->]; cbn [fmap list_fmap reverse rev_append app length].
    - rewrite Hend. apply reverse_involutive.
    - cbn [trim_start_fuel].
      match goal with |- context [strip_first ?w (?c :: ?s)] =>
        replace (strip_first w (c :: s)) with (Some s) by (by vm_compute) end.
      rewrite Hend. apply reverse_involutive. }
  rewrite Ho. subst o. clear Ho. unfold f. rewrite fmap_cons, fmap_app, Ascii.byte_of_ascii_of_byte.
  rewrite <- list_fmap_compose, (list_fmap_ext _ id m), list_fmap_id; [done|].
  intros i x _. apply Ascii.byte_of_ascii_of_byte.
Qed.

Lemma split_line l : forall rest cur, newline ∉ l ->
  split_lines (l ++ newline :: rest) cur = line_of (reverse l ++ cur) :: split_lines rest [].
Proof.
  induction l as [|x l IH]; intros rest cur Hn; [done|]. cbn [app split_lines].
  rewrite bool_decide_false by set_solver. rewrite IH by set_solver. by rewrite reverse_cons, <- app_assoc.
Qed.

Lemma object_line b : json_object b -> line_of (reverse b ++ []) = b.
Proof.
  intros ((m & ->) & _). rewrite app_nil_r, reverse_cons, reverse_snoc. cbn [app line_of].
  by rewrite reverse_cons, reverse_snoc, reverse_involutive.
Qed.

(** ** The file and its loading *)

Section LogFacts.
Context `{LogJsonLaws}.

Definition serialisable (v : LoggedVerdict.t) : Prop := is_Some (logged_to_string v).

(** The text of a file that holds [vs]. *)
Definition file_text (vs : list LoggedVerdict.t) : bytes :=
  concat ((fun v => unwrap_or (logged_to_string v) [] ++ [newline]) <$> vs).

Lemma file_text_snoc vs v line : logged_to_string v = Some line ->
  file_text (vs ++ [v]) = file_text vs ++ line ++ [newline].
Proof. intros Hl. unfold file_text. rewrite fmap_app, concat_app. cbn. by rewrite Hl, app_nil_r. Qed.

Lemma load_lines vs : Forall serialisable vs -> omap parse_line (file_lines (file_text vs)) = vs.
Proof.
  induction 1 as [|v vs [line Hv] Hvs IH]; [done|].
  pose proof (logged_object _ _ Hv) as Ho. unfold file_text, file_lines in *. cbn. rewrite Hv. cbn [unwrap_or].
  rewrite <- app_assoc. cbn [app]. rewrite split_line by apply Ho. rewrite object_line by done. cbn [while_utf8].
  destruct Ho as (Ho & Hn & Hu). rewrite Hu. cbn [omap list_omap].
  assert (parse_line line = Some v) as ->; [|f_equal; exact IH].
  assert (Ht : trim_str line = line) by (rewrite <- (app_nil_r line) at 1; apply trim_str_object; [by split_and!|by left]).
  unfold parse_line. rewrite Ht.
  rewrite (logged_round_trip _ _ Hv). by destruct Ho as [m ->].
Qed.

Lemma max_fold vs : forall m, m <= foldl (fun m v => Z.max m (LoggedVerdict.log_id v)) m vs /\
  Forall (fun v => LoggedVerdict.log_id v <= foldl (fun m v => Z.max m (LoggedVerdict.log_id v)) m vs) vs /\
  (foldl (fun m v => Z.max m (LoggedVerdict.log_id v)) m vs = m \/
   exists v, v ∈ vs /\ foldl (fun m v => Z.max m (LoggedVerdict.log_id v)) m vs = LoggedVerdict.log_id v).
Proof.
  induction vs as [|v vs IH]; intros m; [cbn; split_and!; [lia|done|by left]|]. cbn [foldl].
  destruct (IH (Z.max m (LoggedVerdict.log_id v))) as (H1 & H2 & H3). split_and!; [lia|constructor; [lia|done]|].
  destruct H3 as [H3|(w & Hw & H3)]; [|right; exists w; split; [by right|done]].
  rewrite H3. destruct (Z.max_spec m (LoggedVerdict.log_id v)) as [[_ ->]|[_ ->]]; [right; exists v; by split; [left|]|by left].
Qed.

(** A directory that holds the groups [gs], the newest first. *)
Definition holds (fs : gmap nat bytes) (gs : list (list LoggedVerdict.t)) : Prop :=
  forall i, fs !! i = file_text <$> gs !! i.

Lemma rotate_slot_lookup fs i j : (1 <= i)%nat -> rotate_slot Io.fine fs i !! j =
  if decide (j = i) then fs !! (i - 1)%nat else if decide (j = (i - 1)%nat) then None else fs !! j.
Proof.
  intros Hi. unfold rotate_slot. cbn [Io.remove_ok Io.rename_ok Io.fine].
  rewrite lookup_delete_ne by lia. destruct (fs !! (i - 1)%nat) eqn:E.
  - repeat case_decide; subst.
    + apply lookup_insert_eq.
    + rewrite lookup_insert_ne by done. apply lookup_delete_eq.
    + by rewrite lookup_insert_ne, !lookup_delete_ne by done.
  - repeat case_decide; subst; [apply lookup_delete_eq|by rewrite lookup_delete_ne|by rewrite lookup_delete_ne].
Qed.

Lemma rotate_slots_lookup fs j : rotate_slots Io.fine fs !! j =
  match j with O => None | S i => if decide (i < 5)%nat then fs !! i else fs !! j end.
Proof.
  unfold rotate_slots. change (reverse (seq 1 VERDICT_LOG_ROTATIONS)) with [5;4;3;2;1]%nat. cbn [foldl].
  destruct j as [|[|[|[|[|[|j]]]]]]; rewrite !rotate_slot_lookup by lia; repeat (case_decide; try lia); done.
Qed.

(** What a run of appends has left in the directory. *)
Record kept (vs : list LoggedVerdict.t) (d : Disk.t) (gs : list (list LoggedVerdict.t)) : Prop := {
  kt_files : holds (Disk.files d) gs;
  kt_count : (length gs <= S VERDICT_LOG_ROTATIONS)%nat;
  kt_groups : Forall (fun g => g <> []) gs;
  kt_some : vs <> [] -> gs <> [];
  kt_order : concat (reverse gs) `suffix_of` vs;
  kt_whole : (length gs <= VERDICT_LOG_ROTATIONS)%nat -> concat (reverse gs) = vs;
  kt_full : Forall (fun g => VERDICT_LOG_MAX_BYTES <= lenZ (file_text g)) (drop 1 gs);
  kt_errors : Disk.log_write_errors d = 0 }.

Lemma holds_cons fs g gs line v : logged_to_string v = Some line ->
  (forall i, fs !! S i = file_text <$> gs !! i) -> unwrap_or (fs !! 0%nat) [] = file_text g ->
  holds (<[0%nat := unwrap_or (fs !! 0%nat) [] ++ line ++ [newline]]> fs) ((g ++ [v]) :: gs).
Proof.
  intros Hl Hs Hz [|i].
  - rewrite lookup_insert_eq, Hz. cbn. by erewrite file_text_snoc.
  - rewrite lookup_insert_ne by done. apply Hs.
Qed.

Lemma append_kept mode vs d gs v :
  DeployMode.persist_verdicts mode = true -> serialisable v -> kept vs d gs ->
  exists gs', kept (vs ++ [v]) (append_verdict_to_disk (Some mode) Io.fine v d) gs'.
Proof.
  intros Hm [line Hl] [Hf Hc Hg Hs Ho Hw Hfull He]. unfold append_verdict_to_disk. cbn [unwrap_or]. rewrite Hm. cbn [negb].
  unfold rotate_verdict_log_if_needed, append_line. cbn [Io.stat_ok Io.open_ok Io.written Io.sync_ok Io.fine negb].
  rewrite Hl.
  assert (Hnn : forall g : list LoggedVerdict.t, g ++ [v] <> []) by (intros []; done).
  assert (Hsuf : forall g r, concat (reverse r) ++ g `suffix_of` vs -> concat (reverse ((g ++ [v]) :: r)) `suffix_of` vs ++ [v]).
  { intros g r [k Hk]. rewrite reverse_cons, concat_app. cbn. rewrite app_nil_r, Hk. exists k. by rewrite !app_assoc. }
  assert (Hall : forall g r, concat (reverse r) ++ g = vs -> concat (reverse ((g ++ [v]) :: r)) = vs ++ [v]).
  { intros g r <-. rewrite reverse_cons, concat_app. cbn. by rewrite app_nil_r, app_assoc. }
  destruct gs as [|g gs].
  - rewrite (Hf 0%nat). cbn [fmap option_fmap option_map lookup list_lookup]. rewrite <- ?(Hf 0%nat). exists [[v]].
    split; cbn [Disk.files Disk.log_write_errors]; try done; [|cbn; lia|by repeat constructor| |].
    + apply (holds_cons _ [] [] line v); [done| |by rewrite (Hf 0%nat)]. intros i. by rewrite (Hf (S i)).
    + apply (Hsuf [] []). cbn. apply suffix_nil.
    + intros _. apply (Hall [] []). rewrite <-(Hw ltac:(cbn; lia)). done.
  - pose proof (Hf 0%nat) as Hz. cbn in Hz. rewrite Hz. case_if.
    + rewrite <- ?Hz. exists ((g ++ [v]) :: gs). apply Forall_cons in Hg as [Hg0 Hg].
      split; cbn [Disk.files Disk.log_write_errors]; try done; [|by constructor| |].
      * apply holds_cons; [done| |by rewrite Hz]. intros i. apply (Hf (S i)).
      * apply Hsuf. by rewrite reverse_cons, concat_app in Ho; cbn in Ho; rewrite app_nil_r in Ho.
      * intros Hlen. apply Hall. rewrite <-(Hw Hlen), reverse_cons, concat_app. cbn. by rewrite app_nil_r.
    + exists ([v] :: take 5 (g :: gs)).
      split; cbn [Disk.files Disk.log_write_errors]; try done.
      * apply (holds_cons _ [] _ line v); [done| |by rewrite rotate_slots_lookup].
        intros i. rewrite rotate_slots_lookup. case_decide; [by rewrite lookup_take_lt by lia; apply Hf|].
        rewrite lookup_take_ge by lia. rewrite (Hf (S i)). unfold VERDICT_LOG_ROTATIONS in Hc.
        by rewrite lookup_ge_None_2 by lia.
      * rewrite length_cons, length_take. unfold VERDICT_LOG_ROTATIONS. lia.
      * constructor; [done|by apply Forall_take].
      * apply (Hsuf []). rewrite app_nil_r. rewrite <- (take_drop 5 (g :: gs)), reverse_app, concat_app in Ho.
        destruct Ho as [k Hk]. exists (k ++ concat (reverse (drop 5 (g :: gs)))). by rewrite <- app_assoc.
      * rewrite length_cons, length_take. intros Hlen. unfold VERDICT_LOG_ROTATIONS in *.
        rewrite take_ge by lia. apply (Hall []). rewrite app_nil_r. apply Hw. lia.
      * cbn [drop]. apply Forall_take. constructor; [|done]. by apply Z.ltb_ge.
Qed.

Definition append_all (mode : DeployMode.t) (vs : list LoggedVerdict.t) (d : Disk.t) : Disk.t :=
  foldl (fun d v => append_verdict_to_disk (Some mode) Io.fine v d) d vs.

Lemma append_all_kept mode vs : DeployMode.persist_verdicts mode = true -> Forall serialisable vs ->
  exists gs, kept vs (append_all mode vs (Disk.mk ∅ 0)) gs.
Proof.
  intros Hm Hs. induction vs as [|v vs IH] using rev_ind.
  - exists []. split; cbn; try done. lia.
  - apply Forall_app in Hs as [Hs Hv]. apply Forall_cons in Hv as [Hv _]. destruct (IH Hs) as [gs Hk].
    unfold append_all. rewrite foldl_snoc. exact (append_kept mode vs _ gs v Hm Hv Hk).
Qed.

(** C28 The verdict log survives a restart. After any number of verdicts appended in the order of
    their ids to an empty directory, with no failing system call, through any rotations, the directory
    holds at most six files, whose verdicts, from the oldest file to the newest, are the last of those
    appended with none missing in between; every file but the current one has at least
    [VERDICT_LOG_MAX_BYTES], and as long as there are fewer than six nothing was dropped; a start
    loads the newest of the current file, up to the limit, and the ids it goes on with are above
    every id that was ever appended. *)
Theorem restart_continues_log mode vs max_entries :
  DeployMode.persist_verdicts mode = true -> Forall serialisable vs -> vs <> [] ->
  StronglySorted (fun v w => LoggedVerdict.log_id v < LoggedVerdict.log_id w) vs ->
  Forall (fun v => 0 <= LoggedVerdict.log_id v < u64_max) vs ->
  let d := append_all mode vs (Disk.mk ∅ 0) in
  (exists gs, (length gs <= 6)%nat /\ holds (Disk.files d) gs /\ concat (reverse gs) `suffix_of` vs /\
     ((length gs < 6)%nat -> concat (reverse gs) = vs) /\
     Forall (fun g => VERDICT_LOG_MAX_BYTES <= lenZ (file_text g)) (drop 1 gs)) /\
  (exists current, current <> [] /\ current `suffix_of` vs /\
     (load_verdict_log (Disk.files d !! 0%nat) max_entries).1 = cap_front max_entries current) /\
  Forall (fun v => LoggedVerdict.log_id v < (load_verdict_log (Disk.files d !! 0%nat) max_entries).2) vs.
Proof.
  intros Hm Hs Hne Hsort Hr. destruct (append_all_kept mode vs Hm Hs) as [gs [Hf Hc Hg Hsome Ho Hwhole Hfull _]].
  cbv zeta. set (d := append_all mode vs (Disk.mk ∅ 0)) in *. clearbody d.
  destruct gs as [|g gs]; [by destruct (Hsome Hne)|]. apply Forall_cons in Hg as [Hg0 _].
  assert (Hsuf : g `suffix_of` vs).
  { rewrite reverse_cons, concat_app in Ho. cbn in Ho. rewrite app_nil_r in Ho. destruct Ho as [k Hk].
    exists (k ++ concat (reverse gs)). by rewrite <- app_assoc. }
  assert (Hload : omap parse_line (file_lines (file_text g)) = g).
  { apply load_lines. destruct Hsuf as [k ->]. by apply Forall_app in Hs as [_ Hs]. }
  unfold load_verdict_log. rewrite (Hf 0%nat). cbn [lookup list_lookup fmap option_fmap option_map fst snd].
  rewrite Hload. split_and!; [exists (g :: gs); split_and!; try done; intros Hl; apply Hwhole; unfold VERDICT_LOG_ROTATIONS; lia|by exists g|].
  destruct (max_fold g 0) as (_ & Hmax & Hin).
  destruct g as [|v g' _] using rev_ind; [done|]. destruct Hsuf as [k Hk].
  assert (Hv : v ∈ vs) by (rewrite Hk; set_solver).
  assert (Hlast : Forall (fun w => LoggedVerdict.log_id w <= LoggedVerdict.log_id v) vs).
  { rewrite Hk, app_assoc in Hsort |- *. apply Forall_app. split; [|by repeat constructor].
    apply Forall_forall. intros w Hw. apply Z.lt_le_incl.
    exact (StronglySorted_app_1_elem_of _ _ _ w v Hsort Hw ltac:(set_solver)). }
  apply Forall_app in Hmax as [_ Hmax]. apply Forall_cons in Hmax as [Hmax _].
  rewrite Forall_forall in Hr, Hlast |- *. intros w Hw.
  assert (foldl (fun m v => Z.max m (LoggedVerdict.log_id v)) 0 (g' ++ [v]) < u64_max).
  { destruct Hin as [->|(u & Hu & ->)]; [unfold u64_max; lia|]. apply Hr. rewrite Hk. set_solver. }
  specialize (Hlast _ Hw). pose proof (Hr _ Hv). unfold wrapping_add, u64_max in *. rewrite Z.mod_small by lia. lia.
Qed.
End LogFacts.

(** ** Readers *)

Definition having {A} (P : A -> bool) (l : list A) : Z := lenZ (List.filter P l).

Lemma count_up_lookup k k' m : unwrap_or (count_up k m !! k') 0 =
  unwrap_or (m !! k') 0 + (if bool_decide (k = k') then 1 else 0).
Proof.
  unfold count_up. case_bool_decide as Hk; [subst; by rewrite lookup_insert_eq|].
  rewrite lookup_insert_ne by done. lia.
Qed.

(** The statistics are exact: every verdict of the log is counted once, as accepted or rejected, under
    its reason and under its fee tier, and the last is the newest. *)
Lemma stats_exact log : let s := get_stats log in
  Stats.total s = lenZ log /\ Stats.accepted s = having LoggedVerdict.accepted log /\
  Stats.accepted s + Stats.rejected s = Stats.total s /\
  (forall k, unwrap_or (Stats.by_reason s !! k) 0 = having (fun v => bool_decide (reason_key v = k)) log) /\
  (forall k, unwrap_or (Stats.by_tier s !! k) 0 = having (fun v => bool_decide (LoggedVerdict.fee_tier v = k)) log) /\
  Stats.last s = last log.
Proof.
  cbv zeta. unfold get_stats, having, lenZ. induction log as [|v log IH] using rev_ind; [done|].
  rewrite foldl_snoc. destruct IH as (H1 & H2 & H3 & H4 & H5 & _).
  set (s := foldl add_stats _ log) in *. clearbody s. rewrite length_app, List.filter_app, length_app. cbn [add_stats
    Stats.total Stats.accepted Stats.rejected Stats.by_reason Stats.by_tier Stats.last List.filter length].
  split_and!; try (intros k; rewrite count_up_lookup, List.filter_app, length_app, ?H4, ?H5; cbn [List.filter];
    case_bool_decide; cbn [length]; lia).
  - lia.
  - destruct (LoggedVerdict.accepted v); cbn [length]; lia.
  - destruct (LoggedVerdict.accepted v); lia.
  - by rewrite last_snoc.
Qed.

(** A request for zero lines is answered with the whole file: a ring of no places is never found
    full again after its first line. *)
Lemma tail_zero_unbounded ls : foldl (tail_push 0) [] ls = ls.
Proof.
  induction ls as [|l ls IH] using rev_ind; [done|]. rewrite foldl_snoc, IH. unfold tail_push.
  destruct ls; [done|]. rewrite (proj2 (Z.eqb_neq _ _)); [done|]. unfold lenZ. simpl. lia.
Qed.

(** ** Samples *)

#[export] Instance adjudication_record_eq : EqDecision MempoolAdjudicationRecord.t.
Proof. solve_decision. Defined.
#[export] Instance logged_verdict_eq : EqDecision LoggedVerdict.t.
Proof. solve_decision. Defined.

Module VerdictLogSample.
Definition logged (id : Z) (ok : bool) : LoggedVerdict.t :=
  LoggedVerdict.mk id 7 800000 10 1 ok (Some "ok") None None 1 0 "low" "measured" 10 None None None None [] None.
Definition v5 : LoggedVerdict.t := logged 5 true.
Definition v6 : LoggedVerdict.t := logged 6 false.

(** A library that knows two verdicts. *)
#[export] Instance log_json : LogJson := {|
  logged_to_string v := if decide (v = v5) then Some [x7b; x35; x7d]
    else if decide (v = v6) then Some [x7b; x36; x7d] else None;
  logged_from_str b := if decide (b = [x7b; x35; x7d]) then Some v5
    else if decide (b = [x7b; x36; x7d]) then Some v6 else None
|}.
#[export] Instance log_json_laws : LogJsonLaws.
Proof.
  split; intros v b; cbn [logged_to_string log_json]; repeat case_decide; intros [= <-]; subst; try done.
  - split_and!; [by exists [x35]|set_solver|done].
  - split_and!; [by exists [x36]|set_solver|done].
Qed.

Lemma restart_continues_log_witness :
  Forall (fun v => LoggedVerdict.log_id v <
    (load_verdict_log (Disk.files (append_all DeployMode.Inline [v5; v6] (Disk.mk ∅ 0)) !! 0%nat) 100).2) [v5; v6].
Proof.
  apply (restart_continues_log DeployMode.Inline [v5; v6] 100); try done.
  - repeat constructor; vm_compute; eauto.
  - repeat constructor.
  - repeat constructor; vm_compute; congruence.
Defined.

(** Two appends run side by side can come in the wrong order. When a rotation falls between them, the
    current file holds the older id only, and the next start hands the newer id out again. *)
Lemma reordered_append_reuses_id :
  let full := {[0%nat := file_text [v6]]} in
  let '(fs, ok) := append_line Io.fine v5 (rotate_slots Io.fine full) in
  ok = true /\ (load_verdict_log (fs !! 0%nat) 100).2 = LoggedVerdict.log_id v6.
Proof. by vm_compute. Qed.

(** A crash between the rotation and the write that follows it leaves no current file: the ids start
    again at 1. *)
Lemma crash_after_rotation_restarts_ids :
  (load_verdict_log (rotate_slots Io.fine {[0%nat := file_text [v5; v6]]} !! 0%nat) 100).2 = 1.
Proof. by vm_compute. Qed.

(** A write that was cut short leaves a fragment, and the next verdict is written onto it: neither is
    loaded. *)
Lemma fragment_loses_verdict :
  let short := Io.mk true (fun _ => true) (fun _ => true) true (Some 2%nat) true in
  let d := append_verdict_to_disk (Some DeployMode.Inline) short v5 (Disk.mk ∅ 0) in
  let d := append_verdict_to_disk (Some DeployMode.Inline) Io.fine v6 d in
  load_verdict_log (Disk.files d !! 0%nat) 100 = ([], 1) /\ Disk.log_write_errors d = 1.
Proof. by vm_compute. Qed.
End VerdictLogSample.
