(* ===== verification/Ingress.v ===== *)
(** * The ingress of the verifier

    Models [services/pool-verifier/src/ingress.rs] around the decision on one template (which is in
    [Policy]): the admission of connections, the bounded reading of lines, the message loop of a
    connection with its replies, the record of every verdict and the metrics it counts.

    The socket is the refills of its buffered reader, as in [VerifierStream]; nothing drops a read
    here, so that a moment without data is only waited for. What a proposal meets (the policy lock, the
    served mempool view, the node, the clocks, the write of the reply) is an [Env]. A write that
    fails ends the connection, and what part of it went out is not recorded. JSON is an argument. *)

From stdpp Require Import sorting.
From S2P Require Import Prelude Crates Protocol Codec Consensus Mempool Policy Manager Limits VerifierStream IdleStream VerdictLog.

(** ** Admission *)

(** The accept loop: the permits left, the tracker, the live connections (their [handshaken] flag is
    not used here) and the metrics. *)
Module Slots.
Record t (Ip : Type) `{Countable Ip} : Type := mk {
  permits : Z; per_ip : PerIp.t Ip; live : list (Admission.conn Ip);
  connections_refused_total : Z; connections_refused_per_ip_total : Z; connections_active : Z }.
Arguments mk {Ip EqDecision0 H}. Arguments permits {Ip EqDecision0 H}. Arguments per_ip {Ip EqDecision0 H}.
Arguments live {Ip EqDecision0 H}. Arguments connections_refused_total {Ip EqDecision0 H}.
Arguments connections_refused_per_ip_total {Ip EqDecision0 H}. Arguments connections_active {Ip EqDecision0 H}.

Section Ops.
Context {Ip : Type} `{Countable Ip}.

Definition new (max_connections max_per_ip : Z) : t Ip := mk max_connections (PerIp.new max_per_ip) [] 0 0 0.

(** A connection arrives: the global permit first, then the address. *)
Definition accept (i : nat) (a : Ip) (s : t Ip) : t Ip :=
  if permits s <=? 0 then
    mk (permits s) (per_ip s) (live s) (connections_refused_total s + 1)
      (connections_refused_per_ip_total s) (connections_active s)
  else
    match PerIp.try_accept a (per_ip s) with
    | (false, t') => mk (permits s) t' (live s) (connections_refused_total s)
                       (connections_refused_per_ip_total s + 1) (connections_active s)
    | (true, t') => mk (permits s - 1) t' (Admission.Conn i a false :: live s) (connections_refused_total s)
                      (connections_refused_per_ip_total s) (connections_active s + 1)
    end.

(** The task of connection [i] ends, by whatever path: its slot is dropped. *)
Definition drop_slot (i : nat) (s : t Ip) : t Ip :=
  match head (filter (fun c => Admission.id c = i) (live s)) with
  | None => s
  | Some c =>
      mk (permits s + 1) (PerIp.drop_permit (Admission.ip c) (per_ip s))
        (filter (fun c => Admission.id c <> i) (live s)) (connections_refused_total s)
        (connections_refused_per_ip_total s) (connections_active s - 1)
  end.

Inductive step : t Ip -> t Ip -> Prop :=
| step_accept i a s : i ∉ Admission.id <$> live s -> step s (accept i a s)
| step_drop i s : step s (drop_slot i s).
End Ops.
End Slots.

(** ** Lines *)

Module Lines.
(** How the read of a line ends; [Waiting] when the socket has no more yet. *)
Inductive outcome : Type := Line (line : bytes) | Eof | OverLimit | Failed | Waiting.

Definition awaited (r : refill) : bool := match r with Blocked => false | _ => true end.

(** [read_bounded_line]: [take(max_bytes).read_line(buf)] into an empty buffer, which must be
    UTF-8. *)
Definition read_bounded_line (max_bytes : Z) (refills : list refill) (avail : bytes) : outcome * list refill * bytes :=
  let '(r, refills, rd) := read_until (List.filter awaited refills) max_bytes 0 avail [] in
  (match r with
   | ReadDropped => Waiting
   | ReadErr => Failed
   | ReadDone n =>
       let buf := LineReader.line_buf rd in
       if negb (utf8_valid buf) then Failed
       else if n =? 0 then Eof
       else if (max_bytes <=? n) && negb (ends_with_newline buf) then OverLimit
       else Line buf
   end, refills,
   match r with ReadDropped => LineReader.line_buf rd ++ LineReader.avail rd | _ => LineReader.avail rd end).
End Lines.

(** ** Messages *)

(** [serde_json] on the messages of the ingress, next to those of the stream. *)
Class IngressJson : Type := {
  propose_from_value : json -> option TemplatePropose.t;
  propose_from_str : bytes -> option TemplatePropose.t;
  verdict_to_value : TemplateVerdict.t -> option json;
  verdict_to_bytes : TemplateVerdict.t -> option bytes
}.

(** What a line is to the loop. *)
Inductive request : Type := Proposal (p : TemplatePropose.t) | Beat | Ignored.

Module Metrics.
Record t : Type := mk {
  templates_evaluated_total : Z; verdicts_total : gmap (string * string) Z; shield_skipped_total : Z;
  phase2_checks_total : gmap string Z; phase2_second_chance_total : gmap string Z; phase2_degraded_total : Z;
  mempool_view_age_seconds : Z; mempool_view_size : Z; mempool_empty_responses : Z }.
Definition new : t := mk 0 ∅ 0 ∅ ∅ 0 0 0 0.

Definition i64_or_max (z : Z) : Z := Z.min z (2 ^ 63 - 1).

(** The verdict of a template, in both counters. *)
Definition count_verdict (accepted reason_code : string) (m : t) : t :=
  let k := (accepted, reason_code) in
  mk (templates_evaluated_total m + 1) (<[k := unwrap_or (verdicts_total m !! k) 0 + 1]> (verdicts_total m))
    (shield_skipped_total m) (phase2_checks_total m) (phase2_second_chance_total m) (phase2_degraded_total m)
    (mempool_view_age_seconds m) (mempool_view_size m) (mempool_empty_responses m).
Definition count_skipped (skipped : bool) (m : t) : t :=
  mk (templates_evaluated_total m) (verdicts_total m)
    (if skipped then shield_skipped_total m + 1 else shield_skipped_total m) (phase2_checks_total m)
    (phase2_second_chance_total m) (phase2_degraded_total m) (mempool_view_age_seconds m) (mempool_view_size m)
    (mempool_empty_responses m).
Definition count_opt (k : option string) (m : gmap string Z) : gmap string Z :=
  match k with Some k => count_up k m | None => m end.

(** The Class M attribution of a template evaluated against a view. *)
Definition count_phase2 (view : option (MempoolSnapshot.t * Z)) (phase2 : Phase2Attribution)
    (second_chance : option SecondChanceOutcome) (m : t) : t :=
  match view with
  | None => m
  | Some (snap, empty) =>
      mk (templates_evaluated_total m) (verdicts_total m) (shield_skipped_total m)
        (count_opt (phase2_result_label phase2 second_chance) (phase2_checks_total m))
        (count_opt (SecondChanceOutcome_as_label <$> second_chance) (phase2_second_chance_total m))
        (match phase2 with P2SkippedDegraded => phase2_degraded_total m + 1 | _ => phase2_degraded_total m end)
        (i64_or_max (MempoolSnapshot.age_secs snap)) (i64_or_max (MempoolSnapshot.size snap)) (i64_or_max empty)
  end.
End Metrics.

(** What the evaluation of one line meets. [fetched] is the answer of the mempool service, where one
    is configured; no [policy] is a poisoned lock; a view comes with its count of empty polls. *)
Module Env.
Record t : Type := mk {
  heard_at : Z; fetched : option (option Z); unix_now : Z; policy : option PolicyConfig.t;
  view : option (MempoolSnapshot.t * Z); now_ms : Z; timestamp : Z; second_chance : bool; timed_out : bool;
  node : BitcoindClient; write_ok : bool }.
End Env.

(** What the connections share. [to_disk] are the records handed to the blocking pool. *)
Module Service.
Record t : Type := mk {
  verdict_log : list LoggedVerdict.t; next_log_id : Z; metrics : Metrics.t; last_mempool_ok : Z;
  to_disk : list LoggedVerdict.t }.
End Service.

Module Peer.
Record t : Type := mk {
  uses_envelope : option bool; cadence : HeartbeatCadence.t; after_ms : Z; written : list bytes }.
Definition start (now idle : Z) : t :=
  mk None (HeartbeatCadence.new now) (as_millis_u64 (shed_fallback idle)) [].
Definition set_envelope (u : option bool) (p : t) : t := mk u (cadence p) (after_ms p) (written p).
End Peer.

Section Loop.
Context `{StreamJson} `{IngressJson} `{HexCrate} `{BitcoinLib}.
Context (max_log : Z).

(** The envelope first, a bare proposal otherwise; the first line that parses decides the format. *)
Definition parse_request (trimmed : bytes) (uses_envelope : option bool) : request * option bool :=
  match message_from_slice trimmed with
  | Some env =>
      let u := match uses_envelope with None => Some true | u => u end in
      (if bool_decide (InternalMessage.msg_type env = TEMPLATE_PROPOSE) then
         match propose_from_value (InternalMessage.payload env) with Some p => Proposal p | None => Ignored end
       else if bool_decide (InternalMessage.msg_type env = HEARTBEAT) then Beat
       else Ignored, u)
  | None =>
      match propose_from_str trimmed with
      | Some p => (Proposal p, match uses_envelope with None => Some false | u => u end)
      | None => (Ignored, uses_envelope)
      end
  end.

(** [write_all], the newline and [flush]. *)
Definition send (env : Env.t) (line : bytes) (p : Peer.t) : bool * Peer.t :=
  if Env.write_ok env
  then (true, Peer.mk (Peer.uses_envelope p) (Peer.cadence p) (Peer.after_ms p) (Peer.written p ++ [line ++ [newline]]))
  else (false, p).

(** A heartbeat: the cadence, then the acknowledgement. *)
Definition on_heartbeat (env : Env.t) (p : Peer.t) : bool * Peer.t :=
  let '(learned, c) := HeartbeatCadence.observe (Env.heard_at env) (Peer.cadence p) in
  let p := Peer.mk (Peer.uses_envelope p) c (unwrap_or learned (Peer.after_ms p)) (Peer.written p) in
  match message_to_bytes (InternalMessage.mk HEARTBEAT_ACK PROTOCOL_VERSION (JObj [])) with
  | Some ack => send env ack p
  | None => (true, p)
  end.

Definition reply_json (uses_envelope : option bool) (v : TemplateVerdict.t) : option bytes :=
  match uses_envelope with
  | Some true =>
      message_to_bytes (InternalMessage.mk TEMPLATE_VERDICT PROTOCOL_VERSION (unwrap_or (verdict_to_value v) JNull))
  | _ => verdict_to_bytes v
  end.

(** The evaluation, the lookup, and the evaluation after it. *)
Definition evaluate_proposal (cfg : PolicyConfig.t) (env : Env.t) (mempool_tx : option Z) (propose : TemplatePropose.t)
    : EvalResult.t * option SecondChanceOutcome :=
  let eval := match Env.view env with
              | Some (snap, _) => evaluate_dynamic_phase2 propose cfg (Some snap) mempool_tx (Env.now_ms env)
              | None => evaluate_dynamic propose cfg mempool_tx (Env.now_ms env)
              end in
  let second_chance :=
    run_second_chance (H1 := Env.node env) (Env.second_chance env) (Env.timed_out env) (EvalResult.phase2 eval)
      (TemplatePropose.block_height propose) (PolicyMempool.tolerance_pct (PolicyConfig.mempool cfg)) in
  (apply_second_chance eval second_chance, second_chance).

Definition eval_accepted (eval : EvalResult.t) : bool :=
  match EvalResult.reason eval with None => true | Some _ => false end.

Definition verdict_for (cfg : PolicyConfig.t) (eval : EvalResult.t) (propose : TemplatePropose.t) : TemplateVerdict.t :=
  TemplateVerdict.mk PROTOCOL_VERSION (TemplatePropose.id propose) (eval_accepted eval)
    (EvalResult.reason eval) (EvalResult.detail eval) (Some (policy_context cfg eval)).

Definition or_else {A} (a b : option A) : option A := match a with Some _ => a | None => b end.

Definition record_of (log_id : Z) (env : Env.t) (mempool_tx : option Z) (eval : EvalResult.t)
    (second_chance : option SecondChanceOutcome) (propose : TemplatePropose.t) : LoggedVerdict.t :=
  let code := VerdictReason_as_str <$> EvalResult.reason eval in
  LoggedVerdict.mk log_id (TemplatePropose.id propose) (TemplatePropose.block_height propose)
    (TemplatePropose.total_fees propose) (TemplatePropose.tx_count propose) (eval_accepted eval)
    (or_else (or_else code (EvalResult.detail eval)) (Some "ok")) code (EvalResult.detail eval)
    (Env.timestamp env) (EvalResult.min_avg_fee_used eval) (FeeTier_as_str (EvalResult.fee_tier eval))
    (match mempool_tx with Some _ => "measured" | None => "fallback" end) (compute_avg_fee_sats_per_tx propose)
    (or_else (TemplatePropose.template_weight propose) (TemplatePropose.observed_weight propose))
    (TemplatePropose.total_sigops propose) (TemplatePropose.coinbase_sigops propose)
    (TemplatePropose.created_at_unix_ms propose)
    ((fun w => VerdictReason_as_str (w_reason w)) <$> EvalResult.warnings eval)
    (MempoolAdjudicationRecord.from_outcome <$> second_chance).

(** The verdict and record of a proposal that meets a poisoned policy lock. *)
Definition poisoned_verdict (propose : TemplatePropose.t) : TemplateVerdict.t :=
  TemplateVerdict.mk PROTOCOL_VERSION (TemplatePropose.id propose) false (Some PolicyLoadError)
    (Some "policy lock poisoned") None.
Definition poisoned_record (log_id : Z) (env : Env.t) (propose : TemplatePropose.t) : LoggedVerdict.t :=
  let code := Some (VerdictReason_as_str PolicyLoadError) in
  LoggedVerdict.mk log_id (TemplatePropose.id propose) (TemplatePropose.block_height propose)
    (TemplatePropose.total_fees propose) (TemplatePropose.tx_count propose) false code code
    (Some "policy lock poisoned") (Env.timestamp env) 0 "unknown" "fallback" 0 None None None None [] None.

(** The record goes into the log in memory and to the pool that writes the file. *)
Definition record_verdict (v : LoggedVerdict.t) (m : Metrics.t) (sv : Service.t) : Service.t :=
  Service.mk (push_verdict max_log v (Service.verdict_log sv)) (wrapping_add 64 (Service.next_log_id sv) 1) m
    (Service.last_mempool_ok sv) (Service.to_disk sv ++ [v]).

Definition bool_str (b : bool) : string := if b then "true" else "false".

(** A proposal, from the mempool count to the reply. The first component is whether the loop goes
    on. *)
Definition on_proposal (env : Env.t) (propose : TemplatePropose.t) (sv : Service.t) (p : Peer.t)
    : bool * Service.t * Peer.t :=
  let mempool_tx := match Env.fetched env with Some r => r | None => None end in
  let sv := match mempool_tx with
            | Some _ => Service.mk (Service.verdict_log sv) (Service.next_log_id sv) (Service.metrics sv)
                          (Env.unix_now env) (Service.to_disk sv)
            | None => sv
            end in
  let log_id := Service.next_log_id sv in
  match Env.policy env with
  | None =>
      let logged := poisoned_record log_id env propose in
      let m := Metrics.count_verdict "false" (unwrap_or (LoggedVerdict.reason_code logged) "unknown")
                 (Service.metrics sv) in
      let sv := record_verdict logged m sv in
      match reply_json (Peer.uses_envelope p) (poisoned_verdict propose) with
      | Some j => let '(ok, p) := send env j p in (ok, sv, p)
      | None => (true, sv, p)
      end
  | Some cfg =>
      let '(eval, second_chance) := evaluate_proposal cfg env mempool_tx propose in
      let logged := record_of log_id env mempool_tx eval second_chance propose in
      let m := Metrics.count_phase2 (Env.view env) (EvalResult.phase2 eval) second_chance (Service.metrics sv) in
      let m := Metrics.count_verdict (bool_str (eval_accepted eval))
                 (unwrap_or (LoggedVerdict.reason_code logged) "ok") m in
      let m := Metrics.count_skipped (EvalResult.shield_skipped eval) m in
      let sv := record_verdict logged m sv in
      match reply_json (Peer.uses_envelope p) (verdict_for cfg eval propose) with
      | Some j => let '(ok, p) := send env j p in (ok, sv, p)
      | None => (false, sv, p)
      end
  end.

Definition on_line (env : Env.t) (line : bytes) (sv : Service.t) (p : Peer.t) : bool * Service.t * Peer.t :=
  let '(r, u) := parse_request (trim_str line) (Peer.uses_envelope p) in
  let p := Peer.set_envelope u p in
  match r with
  | Proposal propose => on_proposal env propose sv p
  | Beat => let '(ok, p) := on_heartbeat env p in (ok, sv, p)
  | Ignored => (true, sv, p)
  end.

(** How a connection stands: open and waiting with what is buffered, or closed. *)
Inductive standing : Type := Open (refills : list refill) (avail : bytes) | Closed.

(** [handle_tcp_connection]; line [i] meets [env i]. *)
Fixpoint handle_tcp_connection (fuel : nat) (env : nat -> Env.t) (i : nat) (refills : list refill) (avail : bytes)
    (sv : Service.t) (p : Peer.t) : standing * Service.t * Peer.t :=
  match fuel with
  | O => (Open refills avail, sv, p)
  | S fuel =>
      match Lines.read_bounded_line MAX_INTERNAL_LINE_BYTES refills avail with
      | (Lines.Line line, refills, avail) =>
          match on_line (env i) line sv p with
          | (true, sv, p) => handle_tcp_connection fuel env (S i) refills avail sv p
          | (false, sv, p) => (Closed, sv, p)
          end
      | (Lines.Waiting, refills, avail) => (Open refills avail, sv, p)
      | (_, _, _) => (Closed, sv, p)
      end
  end.
End Loop.

(** * Properties *)

(** ** Admission *)

Section SlotFacts.
Context {Ip : Type} `{Countable Ip}.
Import Slots.
Implicit Types s : Slots.t Ip.

Record slots_ok (mc mpi : Z) s : Prop := {
  sl_config : PerIp.max_per_ip (per_ip s) = mpi;
  sl_lock : PerIp.poisoned (per_ip s) = false;
  sl_ids : NoDup (Admission.id <$> live s);
  sl_counts : counts_ok mpi (PerIp.counts (per_ip s)) (live s);
  sl_per_ip : mpi <> 0 -> forall a, live_from a (live s) <= mpi;
  sl_permits : permits s = mc - lenZ (live s);
  sl_max : lenZ (live s) <= mc;
  sl_gauge : connections_active s = lenZ (live s) }.

Lemma slots_accept mc mpi i a s : 0 <= mpi < 2 ^ 32 -> i ∉ Admission.id <$> live s ->
  slots_ok mc mpi s -> slots_ok mc mpi (accept i a s).
Proof.
  intros Hmpi Hi [Hc Hl Hid Hcnt Hper Hperm Hmax Hg]. unfold accept. case_if; z_bool; [by split|].
  pose proof (try_accept_spec mpi a (per_ip s) (live s) Hmpi Hc Hl Hcnt) as Ht.
  destruct (PerIp.try_accept a (per_ip s)) as [[|] t']; destruct Ht as (Hm' & Hp' & Ht); [|subst t'; by split].
  destruct Ht as [Hcnt' Hlt].
  assert (lenZ (Admission.Conn i a false :: live s) = lenZ (live s) + 1) by (unfold lenZ; cbn [length]; lia).
  split; cbn [permits per_ip live connections_active]; try done; try lia.
  - rewrite fmap_cons. by constructor.
  - intros Hn b. rewrite live_from_cons. cbn [Admission.ip]. specialize (Hper Hn b). specialize (Hlt Hn).
    case_decide; [subst|]; lia.
Qed.

Lemma slots_drop mc mpi i s : slots_ok mc mpi s -> slots_ok mc mpi (drop_slot i s).
Proof.
  intros [Hc Hl Hid Hcnt Hper Hperm Hmax Hg]. unfold drop_slot. destruct (head _) as [c|] eqn:Hh; [|by split].
  destruct (remove_conn i c (live s) Hid Hh) as [Hr1 Hr2].
  destruct (drop_permit_config (Admission.ip c) (per_ip s)) as [Hx Hy].
  split; cbn [permits per_ip live connections_active]; [by rewrite Hx|by rewrite Hy|by apply nodup_ids_filter| | |lia..].
  - by apply (drop_permit_spec mpi (Admission.ip c) (per_ip s) (live s)).
  - intros Hn b. specialize (Hper Hn b). rewrite Hr1 in Hper. case_decide; lia.
Qed.

(** The ingress never serves more connections than its limits: through any sequence of arrivals and
    ends, refusals by either limit and ends on any path included, no more connections are live than
    [max_connections] and, with a limit per address, no more from one address than that; a refusal by
    the address gives the global permit back; and the gauge is the number of live connections. *)
Theorem ingress_slots_exact mc mpi s a : 0 <= mpi < 2 ^ 32 -> 0 <= mc ->
  rtc Slots.step (Slots.new mc mpi) s ->
  lenZ (live s) <= mc /\ permits s = mc - lenZ (live s) /\ connections_active s = lenZ (live s) /\
  (mpi <> 0 -> live_from a (live s) <= mpi /\ PerIp.count_for a (per_ip s) = live_from a (live s)).
Proof.
  intros Hmpi Hmc Hr.
  assert (slots_ok mc mpi s) as [Hc Hl Hid Hcnt Hper Hperm Hmax Hg].
  { eapply rtc_invariant; [|exact Hr|].
    - intros s1 s2 [i b s0 Hi|i s0] Hok; [by apply slots_accept|by apply slots_drop].
    - split; cbn [Slots.new live permits per_ip connections_active];
        [done|done|apply NoDup_nil_2| |intros; unfold live_from, lenZ; cbn; lia|unfold lenZ; cbn; lia..].
      unfold counts_ok. case_if; [done|]. intros b. apply lookup_empty. }
  split_and!; [done..|]. intros Hn. split; [by apply Hper|]. unfold PerIp.count_for. rewrite Hl.
  apply default_live. unfold counts_ok in Hcnt. apply Z.eqb_neq in Hn. rewrite Hn in Hcnt. apply Hcnt.
Qed.
End SlotFacts.

(** ** Reading *)

Lemma filter_open refills : Forall open_refill refills ->
  Forall open_refill (List.filter Lines.awaited refills) /\
  Forall (fun r => Lines.awaited r = true) (List.filter Lines.awaited refills) /\
  stream_bytes (List.filter Lines.awaited refills) = stream_bytes refills.
Proof.
  induction 1 as [|r refills Hr Ho (IH1 & IH2 & IH3)]; [done|]. cbn [List.filter].
  destruct (Lines.awaited r) eqn:Hw; [split_and!; try by constructor|split_and!; [done..|]];
    unfold stream_bytes in *; cbn; rewrite IH3; [done|by destruct r].
Qed.

(** A read that waits has had all there is. *)
Lemma waiting_exhausts refills : forall limit n avail buf refills' s',
  Forall (fun r => Lines.awaited r = true) refills ->
  read_until refills limit n avail buf = (ReadDropped, refills', s') -> refills' = [].
Proof.
  induction refills as [|r refills IH]; intros limit n avail buf refills' s' Hw; cbn [read_until];
    destruct (take_line limit avail) as [line found]; (case_if; [done|]); [congruence|].
  apply Forall_cons in Hw as [Hr Hw]. destruct r as [[|x b]| | |]; try done. by apply IH.
Qed.

(** A bounded read of framed bytes gives the first line if it is text, or waits with all of the rest. *)
Lemma lines_read refills avail ls rest :
  Forall open_refill refills -> framed refills (LineReader.mk avail []) ls rest ->
  let '(o, refills', avail') := Lines.read_bounded_line MAX_INTERNAL_LINE_BYTES refills avail in
  Forall open_refill refills' /\
  match ls with
  | [] => o = Lines.Waiting /\ refills' = [] /\ avail' = rest
  | l :: ls => o = (if utf8_valid (l ++ [newline]) then Lines.Line (l ++ [newline]) else Lines.Failed) /\
      framed refills' (LineReader.mk avail' []) ls rest
  end.
Proof.
  intros Ho Hf. destruct (filter_open refills Ho) as (Ho' & Hw & Hs).
  assert (Hf' : framed (List.filter Lines.awaited refills) (LineReader.mk avail []) ls rest)
    by (unfold framed, pending_bytes in *; by rewrite Hs).
  unfold Lines.read_bounded_line.
  destruct (read_until (List.filter Lines.awaited refills) MAX_INTERNAL_LINE_BYTES 0 avail []) as [[r rf] rd] eqn:E.
  pose proof (read_until_spec _ MAX_INTERNAL_LINE_BYTES _ _ _ _ _ _ Ho' eq_refl E) as (line & Hb & Hl & _ & _ & _ & Hend). cbn [app] in Hb.
  destruct (read_bounded_line MAX_INTERNAL_LINE_BYTES (List.filter Lines.awaited refills) (LineReader.mk avail []))
    as [[o rf'] rd'] eqn:E'.
  pose proof (read_framed _ _ _ _ _ _ _ Ho' (partial_line_nil avail) Hf' E') as (Hop & _ & Hcase).
  unfold read_bounded_line in E'.
  change (saturating_sub _ _ =? 0) with false in E'. change (saturating_sub _ _) with MAX_INTERNAL_LINE_BYTES in E'.
  cbn [LineReader.avail LineReader.line_buf] in E'. rewrite E in E'. injection E' as <- <- <-. split; [done|].
  destruct Hcase as [(Hd & Hp & Hfr & Hav & _)|(l & ls' & Hd & -> & Hbl & Hfr)].
  - destruct r as [n| |]; [by repeat case_if|clear Hd|done].
    apply waiting_exhausts in E; [|done]. subst rf. apply framed_all in Hfr as [-> ->]; [|done..]. split_and!; try done.
    by rewrite app_nil_r.
  - rewrite Hbl in *. destruct r as [n| |]; [|done|done]. destruct Hend as [-> _]. rewrite <- Hb in *.
    split; [|done]. destruct (utf8_valid (l ++ [newline])); cbn [negb]; [|done].
    rewrite ends_with_newline_app, andb_false_r. rewrite (proj2 (Z.eqb_neq _ _)); [done|].
    rewrite length_app. simpl. lia.
Qed.

(** ** The lines of a connection *)

Section LoopFacts.
Context `{StreamJson} `{IngressJson} `{HexCrate} `{BitcoinLib}.
Context (max_log : Z).

(** What a list of lines means to the ingress: each is handled in turn, and a line that is no text ends
    the connection, as a failed write does. The first component is whether it is still open. *)
Fixpoint serve_lines (env : nat -> Env.t) (i : nat) (ls : list bytes) (sv : Service.t) (p : Peer.t)
    : bool * Service.t * Peer.t :=
  match ls with
  | [] => (true, sv, p)
  | l :: ls =>
      if utf8_valid (l ++ [newline]) then
        match on_line max_log (env i) (l ++ [newline]) sv p with
        | (true, sv, p) => serve_lines env (S i) ls sv p
        | (false, sv, p) => (false, sv, p)
        end
      else (false, sv, p)
  end.

Lemma serves_lines fuel : forall env i refills avail ls rest sv p,
  Forall open_refill refills -> framed refills (LineReader.mk avail []) ls rest -> (length ls < fuel)%nat ->
  handle_tcp_connection max_log fuel env i refills avail sv p =
  match serve_lines env i ls sv p with
  | (true, sv, p) => (Open [] rest, sv, p)
  | (false, sv, p) => (Closed, sv, p)
  end.
Proof.
  induction fuel as [|fuel IH]; intros env i refills avail ls rest sv p Ho Hf Hfuel; [lia|].
  cbn [handle_tcp_connection]. pose proof (lines_read _ _ _ _ Ho Hf) as Hr.
  destruct (Lines.read_bounded_line _ refills avail) as [[o rf] av]. destruct Hr as [Hop Hr].
  destruct ls as [|l ls]; [destruct Hr as (-> & -> & ->); done|]. destruct Hr as [-> Hf']. cbn [serve_lines].
  destruct (utf8_valid (l ++ [newline])); [|done].
  destruct (on_line max_log (env i) (l ++ [newline]) sv p) as [[[|] sv'] p']; [|done].
  apply IH; [done..|simpl in Hfuel; lia].
Qed.

(** However the socket cuts the bytes of a connection, the verifier handles exactly the lines that
    were sent: each once, in order, as if it had come alone, until a line is not UTF-8 or a reply can
    not be written; an unfinished line stays buffered and changes nothing. *)
Theorem ingress_serves_lines fuel env refills ls rest sv p :
  Forall open_refill refills -> framed refills LineReader.new ls rest -> (length ls < fuel)%nat ->
  handle_tcp_connection max_log fuel env 0 refills [] sv p =
  match serve_lines env 0 ls sv p with
  | (true, sv, p) => (Open [] rest, sv, p)
  | (false, sv, p) => (Closed, sv, p)
  end.
Proof. apply serves_lines. Qed.
End LoopFacts.

(** ** Sample: one address at its limit *)

Module IngressSample.
Definition one : Slots.t Z := Slots.accept 0 7 (Slots.new 4 1).
Definition refused : Slots.t Z := Slots.accept 1 7 one.

Lemma ingress_slots_exact_witness : Slots.connections_active refused = 1 /\ Slots.permits refused = 3.
Proof.
  destruct (ingress_slots_exact 4 1 refused 7) as (_ & Hp & Hg & _); [lia|lia| |].
  - eapply rtc_l; [apply (Slots.step_accept 0 7); set_solver|].
    eapply rtc_l; [apply (Slots.step_accept 1 7); vm_compute; set_solver|]. apply rtc_refl.
  - rewrite Hp, Hg. by vm_compute.
Defined.
End IngressSample.
