(* ===== verification/Exchange.v ===== *)
(** * The exchange between gateway and verifier

    Composes the two ends of the internal protocol: [VerifierStream] (the gateway's side, in
    [services/sv2-gateway/src/verifier_stream.rs]) and [Ingress] (the verifier's side, in
    [services/pool-verifier/src/ingress.rs]). What the gateway writes the verifier reads, what the verifier
    answers the gateway reads, and each proposal has the verdict of the policy and a record in the log.

    What the two ends need of [serde_json] is a class of laws: a message is one line of text and
    survives the way; a verdict survives it but for the numbers of its policy context, which are
    floating-point. *)

From S2P Require Import Prelude Crates Protocol Codec Consensus Mempool Policy Manager Limits VerifierStream IdleStream VerdictLog Ingress.

(** Two verdicts that say the same, whatever context they carry. *)
Definition same_decision (v w : TemplateVerdict.t) : Prop :=
  TemplateVerdict.version v = TemplateVerdict.version w /\ TemplateVerdict.id v = TemplateVerdict.id w /\
  TemplateVerdict.accepted v = TemplateVerdict.accepted w /\
  TemplateVerdict.reason_code v = TemplateVerdict.reason_code w /\
  TemplateVerdict.reason_detail v = TemplateVerdict.reason_detail w.

Class ExchangeLaws `{StreamJson} `{IngressJson} : Prop := {
  message_object m b : message_to_bytes m = Some b -> json_object b;
  propose_round_trip tp p b :
    propose_to_value tp = Some p ->
    message_to_bytes (InternalMessage.mk TEMPLATE_PROPOSE PROTOCOL_VERSION p) = Some b ->
    exists p', message_from_slice b = Some (InternalMessage.mk TEMPLATE_PROPOSE PROTOCOL_VERSION p') /\
      propose_from_value p' = Some tp;
  verdict_round_trip v p b :
    verdict_to_value v = Some p ->
    message_to_bytes (InternalMessage.mk TEMPLATE_VERDICT PROTOCOL_VERSION p) = Some b ->
    exists p' w, message_from_slice b = Some (InternalMessage.mk TEMPLATE_VERDICT PROTOCOL_VERSION p') /\
      verdict_from_value p' = Some w /\ same_decision v w;
  empty_round_trip ty b :
    message_to_bytes (InternalMessage.mk ty PROTOCOL_VERSION (JObj [])) = Some b ->
    message_from_slice b = Some (InternalMessage.mk ty PROTOCOL_VERSION (JObj []))
}.

(** ** Text *)

Lemma utf8_snoc n : forall b, (length b <= n)%nat -> utf8_valid b = true -> utf8_valid (b ++ [newline]) = true.
Proof.
  induction n as [|n IH]; intros b Hn Hv; [by destruct b; [|simpl in Hn; lia]|].
  assert (Hrec : forall c, (length c <= n)%nat -> utf8_valid c = true -> utf8_valid (c ++ [newline]) = true) by done.
  destruct b as [|a b]; [done|]. cbn [app utf8_valid] in *.
  destruct (in_range a 0 127); [apply Hrec; [simpl in Hn; lia|done]|].
  destruct b as [|b0 b]; [done|]. cbn [app] in *.
  destruct (in_range a 194 223); [apply andb_prop in Hv as [-> Hv]; apply Hrec; [simpl in Hn; lia|done]|].
  destruct b as [|b1 b]; [done|]. cbn [app] in *.
  destruct (in_range a 224 239); [apply andb_prop in Hv as [-> Hv]; apply Hrec; [simpl in Hn; lia|done]|].
  destruct b as [|b2 b]; [done|]. cbn [app] in *.
  apply andb_prop in Hv as [-> Hv]. apply Hrec; [simpl in Hn; lia|done].
Qed.

Lemma object_utf8 b : json_object b -> utf8_valid (b ++ [newline]) = true.
Proof. intros (_ & _ & Hu). by eapply utf8_snoc. Qed.

Lemma object_no_newline b : json_object b -> newline ∉ b.
Proof. by intros (_ & Hn & _). Qed.

Lemma trim_ascii_object b : json_object b -> trim_ascii (b ++ [newline]) = b.
Proof.
  intros ((m & ->) & _). unfold trim_ascii. cbn [app trim_start].
  change (ascii_space x7b) with false. cbv iota.
  rewrite reverse_cons, !reverse_app. cbn [reverse rev_append app trim_start].
  change (ascii_space newline) with true. change (ascii_space x7d) with false. cbv iota.
  match goal with |- rev_append ?l [] = _ => change (rev_append l []) with (reverse l) end.
  by rewrite reverse_cons, reverse_snoc, reverse_involutive.
Qed.

(** ** One message *)

Section Exchange.
Context `{ExchangeLaws} `{HexCrate} `{BitcoinLib}.
Context (max_log : Z).

Definition mempool_tx_of (env : Env.t) : option Z := match Env.fetched env with Some r => r | None => None end.

(** The verdict on a proposal: what the policy says, a rejection while its lock is poisoned. *)
Definition decided (env : Env.t) (tp : TemplatePropose.t) : TemplateVerdict.t :=
  match Env.policy env with
  | None => poisoned_verdict tp
  | Some cfg =>
      (judge_template (H1 := Env.node env) cfg (fst <$> Env.view env) (mempool_tx_of env) (Env.now_ms env)
         (Env.second_chance env) (Env.timed_out env) tp).1.1
  end.

(** The answer to a message as the gateway hears it. *)
Definition answers (env : Env.t) (m : VerifierOutbound) (d : VerifierInbound) : Prop :=
  match m, d with
  | OutPropose tp, InVerdict w => same_decision (decided env tp) w
  | OutHeartbeat, InHeartbeatAck => True
  | _, _ => False
  end.

(** Message [i] is answers under [env i], one answer each. *)
Fixpoint all_answered (env : nat -> Env.t) (i : nat) (ms : list VerifierOutbound) (ds : list VerifierInbound) : Prop :=
  match ms, ds with
  | [], [] => True
  | m :: ms, d :: ds => answers (env i) m d /\ all_answered env (S i) ms ds
  | _, _ => False
  end.

(** The records of a run: one per proposal, with its template, its decision and the next id. *)
Fixpoint all_recorded (env : nat -> Env.t) (i : nat) (id : Z) (ms : list VerifierOutbound) (rs : list LoggedVerdict.t) : Prop :=
  match ms with
  | [] => rs = []
  | OutHeartbeat :: ms => all_recorded env (S i) id ms rs
  | OutPropose tp :: ms =>
      exists r rs', rs = r :: rs' /\ LoggedVerdict.log_id r = id /\
        LoggedVerdict.template_id r = TemplatePropose.id tp /\
        LoggedVerdict.accepted r = TemplateVerdict.accepted (decided (env i) tp) /\
        LoggedVerdict.reason_code r = VerdictReason_as_str <$> TemplateVerdict.reason_code (decided (env i) tp) /\
        all_recorded env (S i) (wrapping_add 64 id 1) ms rs'
  end.

(** The reply to a message serialises, to a line within the budget. *)
Definition replyable (env : Env.t) (m : VerifierOutbound) : Prop :=
  exists b, Z.of_nat (length (b ++ [newline])) <= MAX_INTERNAL_LINE_BYTES /\
  match m with
  | OutPropose tp => exists p, verdict_to_value (decided env tp) = Some p /\
      message_to_bytes (InternalMessage.mk TEMPLATE_VERDICT PROTOCOL_VERSION p) = Some b
  | OutHeartbeat => message_to_bytes (InternalMessage.mk HEARTBEAT_ACK PROTOCOL_VERSION (JObj [])) = Some b
  end.

(** A reply line and what the gateway makes of it. *)
Definition hears (b : bytes) (d : VerifierInbound) : Prop :=
  json_object b /\ Z.of_nat (length (b ++ [newline])) <= MAX_INTERNAL_LINE_BYTES /\
  exists msg, message_from_slice b = Some msg /\
    forall del, Delivered.verdict_tx (dispatch_inbound msg del) = Delivered.verdict_tx del ++ [d].

Lemma outbound_line m l : serialize_outbound m = Some l -> exists b, l = b ++ [newline] /\ json_object b /\
  match m with
  | OutPropose tp => exists p, message_from_slice b = Some (InternalMessage.mk TEMPLATE_PROPOSE PROTOCOL_VERSION p) /\
      propose_from_value p = Some tp
  | OutHeartbeat => message_from_slice b = Some (InternalMessage.mk HEARTBEAT PROTOCOL_VERSION (JObj []))
  end.
Proof.
  unfold serialize_outbound. destruct m as [tp|].
  - destruct (propose_to_value tp) as [p|] eqn:Hp; [|done]. cbn [fmap option_fmap option_map].
    destruct (message_to_bytes _) as [b|] eqn:Hb; [|done]. intros [= <-]. exists b.
    split_and!; [done|by eapply message_object|]. by eapply propose_round_trip.
  - destruct (message_to_bytes _) as [b|] eqn:Hb; [|done]. intros [= <-]. exists b.
    split_and!; [done|by eapply message_object|by apply empty_round_trip].
Qed.

(** The verdict the ingress builds is the one of the policy. *)
Lemma evaluate_judges env cfg tp : let '(eval, sc) := evaluate_proposal cfg env (mempool_tx_of env) tp in
  verdict_for cfg eval tp =
  (judge_template (H1 := Env.node env) cfg (fst <$> Env.view env) (mempool_tx_of env) (Env.now_ms env)
     (Env.second_chance env) (Env.timed_out env) tp).1.1.
Proof. unfold evaluate_proposal, judge_template, verdict_for, eval_accepted. by destruct (Env.view env) as [[snap e]|]. Qed.

Definition enveloped (p : Peer.t) : Prop := Peer.uses_envelope p <> Some false.

(** A line from the gateway is answers in one line, and a proposal leaves one record. *)
Lemma on_line_answers env m l sv p :
  serialize_outbound m = Some l -> enveloped p -> Env.write_ok env = true -> replyable env m ->
  exists sv' p' b d rs, on_line max_log env l sv p = (true, sv', p') /\ enveloped p' /\
    Peer.written p' = Peer.written p ++ [b ++ [newline]] /\ hears b d /\ answers env m d /\
    Service.to_disk sv' = Service.to_disk sv ++ rs /\
    match m with
    | OutHeartbeat => rs = [] /\ Service.next_log_id sv' = Service.next_log_id sv
    | OutPropose tp => Service.next_log_id sv' = wrapping_add 64 (Service.next_log_id sv) 1 /\
        exists r, rs = [r] /\ LoggedVerdict.log_id r = Service.next_log_id sv /\
        LoggedVerdict.template_id r = TemplatePropose.id tp /\
        LoggedVerdict.accepted r = TemplateVerdict.accepted (decided env tp) /\
        LoggedVerdict.reason_code r = VerdictReason_as_str <$> TemplateVerdict.reason_code (decided env tp)
    end.
Proof.
  intros Hser Henv Hok (b & Hlen & Hrep). apply outbound_line in Hser as (b0 & -> & Hobj & Hm).
  unfold on_line. rewrite trim_str_object by (auto; done).
  assert (Hu : (match Peer.uses_envelope p with Some _ => Peer.uses_envelope p | None => Some true end) = Some true)
    by (unfold enveloped in Henv; destruct (Peer.uses_envelope p) as [[]|]; done).
  unfold parse_request. destruct m as [tp|].
  - destruct Hm as (pl & -> & Hpl). cbn [InternalMessage.msg_type InternalMessage.payload].
    rewrite bool_decide_true by done. rewrite Hpl. cbv zeta. rewrite Hu. destruct Hrep as (pv & Hv & Hb).
    pose proof (verdict_round_trip _ _ _ Hv Hb) as (p' & w & Hfs & Hfv & Hsame).
    assert (Hans : answers env (OutPropose tp) (InVerdict w)) by exact Hsame. clear Hsame.
    assert (Hhear : hears b (InVerdict w)).
    { split_and!; [by eapply message_object|done|]. eexists. split; [exact Hfs|]. intros del.
      unfold dispatch_inbound. cbn [InternalMessage.msg_type InternalMessage.payload].
      rewrite bool_decide_true, Hfv by done. done. }
    unfold on_proposal. fold (mempool_tx_of env). cbv zeta.
    match goal with |- context [match mempool_tx_of env with Some _ => ?x | None => sv end] =>
      set (sv1 := match mempool_tx_of env with Some _ => x | None => sv end) end.
    assert (Hsv : Service.to_disk sv1 = Service.to_disk sv /\ Service.next_log_id sv1 = Service.next_log_id sv)
      by (subst sv1; by destruct (mempool_tx_of env)).
    clearbody sv1. destruct Hsv as [Hd Hn]. unfold decided in *. cbn [Peer.uses_envelope Peer.set_envelope].
    destruct (Env.policy env) as [cfg|].
    + pose proof (evaluate_judges env cfg tp) as Hj. destruct (evaluate_proposal cfg env (mempool_tx_of env) tp) as [eval sc].
      rewrite <- Hj in *. unfold reply_json. rewrite Hv. cbn [unwrap_or]. rewrite Hb. unfold send. rewrite Hok, <- Hd, <- Hn.
      eexists _, _, b, (InVerdict w), [_]. split_and!; [reflexivity|done..|by eexists].
    + unfold reply_json. rewrite Hv. cbn [unwrap_or]. rewrite Hb. unfold send. rewrite Hok, <- Hd, <- Hn.
      eexists _, _, b, (InVerdict w), [_]. split_and!; [reflexivity|done..|by eexists].
  - rewrite Hm. cbn [InternalMessage.msg_type]. rewrite bool_decide_false by done. rewrite bool_decide_true by done.
    cbv zeta. rewrite Hu. unfold on_heartbeat. cbn [Peer.set_envelope Peer.cadence].
    destruct (HeartbeatCadence.observe _ _) as [lr c]. rewrite Hrep. unfold send. rewrite Hok.
    eexists _, _, b, InHeartbeatAck, []. split_and!; [reflexivity|done|done| |done|by rewrite app_nil_r|done|done].
    split_and!; [by eapply message_object|done|]. eexists. split; [by apply empty_round_trip|]. done.
Qed.

(** ** Many messages *)

Lemma serve_answers env : forall ms ls i sv p,
  Forall2 (fun m l => serialize_outbound m = Some (l ++ [newline])) ms ls ->
  enveloped p -> (forall k, Env.write_ok (env k) = true) ->
  (forall k m, ms !! k = Some m -> replyable (env (i + k)%nat) m) ->
  exists sv' p' bs ds rs, serve_lines max_log env i ls sv p = (true, sv', p') /\
    Peer.written p' = Peer.written p ++ ((fun b => b ++ [newline]) <$> bs) /\ Forall2 hears bs ds /\
    all_answered env i ms ds /\
    Service.to_disk sv' = Service.to_disk sv ++ rs /\ all_recorded env i (Service.next_log_id sv) ms rs.
Proof.
  intros ms. induction ms as [|m ms IH]; intros ls i sv p Hser Henv Hok Hrep.
  { apply Forall2_nil_inv_l in Hser as ->. exists sv, p, [], [], []. cbn. by rewrite !app_nil_r. }
  apply Forall2_cons_inv_l in Hser as (l & ls' & Hl & Hls & ->). cbn [serve_lines].
  destruct (outbound_line _ _ Hl) as (b0 & Eb & Hobj & _). apply app_inj_tail in Eb as [<- _].
  rewrite object_utf8 by done.
  destruct (on_line_answers (env i) m _ sv p Hl Henv (Hok i)) as (sv1 & p1 & b & d & rs1 & -> & Henv1 & Hw1 & Hh & Ha & Hd1 & Hm).
  { specialize (Hrep 0%nat m eq_refl). by rewrite Nat.add_0_r in Hrep. }
  destruct (IH ls' (S i) sv1 p1 Hls Henv1 Hok) as (sv2 & p2 & bs & ds & rs & -> & Hw & Hhs & Has & Hd & Hr).
  { intros k m' Hk. specialize (Hrep (S k) m' Hk). by rewrite Nat.add_succ_r in Hrep. }
  exists sv2, p2, (b :: bs), (d :: ds), (rs1 ++ rs). split_and!; [done| |by constructor|done| |].
  - by rewrite Hw, Hw1, <- app_assoc.
  - by rewrite Hd, Hd1, app_assoc.
  - destruct m as [tp|].
    + destruct Hm as (Hn & r & -> & E1 & E2 & E3 & E4). rewrite Hn in Hr. by exists r, rs.
    + destruct Hm as [-> Hn]. by rewrite Hn in Hr.
Qed.

Lemma hear_replies bs ds : Forall2 hears bs ds -> forall n del, exists del',
  hear bs n del = (None, n, del') /\ Delivered.verdict_tx del' = Delivered.verdict_tx del ++ ds.
Proof.
  induction 1 as [|b d bs ds (Hobj & _ & msg & Hmsg & Hd) _ IH]; intros n del.
  { exists del. by rewrite app_nil_r. }
  cbn [hear]. rewrite trim_ascii_object, Hmsg by done.
  destruct (IH n (dispatch_inbound msg del)) as (del' & -> & Hdel). exists del'. split; [done|].
  by rewrite Hdel, Hd, <- app_assoc.
Qed.

Lemma replies_framed bs ds refills : Forall2 hears bs ds ->
  stream_bytes refills = concat ((fun b => b ++ [newline]) <$> bs) -> framed refills LineReader.new bs [].
Proof.
  intros Hh Hs. unfold framed, pending_bytes. cbn. rewrite Hs, app_nil_r. split_and!; [done| |set_solver|done].
  clear Hs. induction Hh as [|b d bs ds (Hobj & Hlen & _) _ IH]; constructor; [|done]. split; [by apply object_no_newline|done].
Qed.

Lemma outbound_framed ms ls refills :
  Forall2 (fun m l => serialize_outbound m = Some (l ++ [newline])) ms ls ->
  Forall (fun l => Z.of_nat (length (l ++ [newline])) <= MAX_INTERNAL_LINE_BYTES) ls ->
  stream_bytes refills = concat ((fun l => l ++ [newline]) <$> ls) -> framed refills LineReader.new ls [].
Proof.
  intros Hser Hlen Hs. unfold framed, pending_bytes. cbn. rewrite Hs, app_nil_r. split_and!; [done| |set_solver|done].
  clear Hs. induction Hser as [|m l ms ls Hl _ IH]; [done|]. apply Forall_cons in Hlen as [Hl1 Hlen].
  constructor; [|by apply IH]. split; [|done].
  destruct (outbound_line _ _ Hl) as (b0 & Eb & Hobj & _). apply app_inj_tail in Eb as [-> _]. by apply object_no_newline.
Qed.

(** C1 Every proposal of the gateway gets its verdict. The gateway writes heartbeats and proposals; the
    network cuts the bytes as it likes in both directions; the verifier's writes go through. Then the
    gateway hears one answer per message, in order: an acknowledgement for a heartbeat, and for a
    proposal the verdict that the policy of the verifier gives for that template at that moment, or a
    rejection while the policy lock is poisoned. And the verifier has recorded one verdict per
    proposal, with its template, the same decision and reason, under ids that follow one another. *)
Theorem proposals_get_verdicts env ms ls refills fuel sv idle started refills' fuel' now s st sv' p' :
  Forall2 (fun m l => serialize_outbound m = Some (l ++ [newline])) ms ls ->
  Forall (fun l => Z.of_nat (length (l ++ [newline])) <= MAX_INTERNAL_LINE_BYTES) ls ->
  Forall open_refill refills -> stream_bytes refills = concat ((fun l => l ++ [newline]) <$> ls) ->
  (length ls < fuel)%nat ->
  (forall k, Env.write_ok (env k) = true) ->
  (forall k m, ms !! k = Some m -> replyable (env k) m) ->
  handle_tcp_connection max_log fuel env 0 refills [] sv (Peer.start started idle) = (st, sv', p') ->
  Forall open_refill refills' -> stream_bytes refills' = concat (Peer.written p') ->
  IoLoop.reader s = LineReader.new ->
  (length refills' + length (stream_bytes refills') < fuel')%nat ->
  exists s' ds rs,
    read_turns fuel' now refills' s = IoContinue [] s' /\
    Delivered.verdict_tx (IoLoop.delivered s') = Delivered.verdict_tx (IoLoop.delivered s) ++ ds /\
    all_answered env 0 ms ds /\
    Service.to_disk sv' = Service.to_disk sv ++ rs /\ all_recorded env 0 (Service.next_log_id sv) ms rs.
Proof.
  intros Hser Hlen Ho Hs Hfuel Hok Hrep Hrun Ho' Hs' Hrd Hfuel'.
  pose proof (outbound_framed _ _ _ Hser Hlen Hs) as Hf.
  rewrite (serves_lines max_log fuel env 0 refills [] ls []) in Hrun by done.
  destruct (serve_answers env ms ls 0 sv (Peer.start started idle) Hser ltac:(done) Hok Hrep)
    as (sv1 & p1 & bs & ds & rs & E & Hw & Hh & Ha & Hd & Hr).
  rewrite E in Hrun. simplify_eq. cbn [Peer.start Peer.written app] in Hw. rewrite Hw in Hs'.
  pose proof (replies_framed _ _ _ Hh Hs') as Hf'.
  assert (Hag := hears_lines fuel' now refills' s bs []).
  rewrite Hrd in Hag. specialize (Hag Ho' (partial_line_nil []) Hf').
  destruct (hear_replies bs ds Hh (IoLoop.malformed_count s) (IoLoop.delivered s)) as (del & Ehear & Hdel).
  rewrite Ehear in Hag. unfold pending_bytes in Hag. cbn [LineReader.new LineReader.line_buf LineReader.avail app] in Hag.
  specialize (Hag Hfuel'). unfold agrees in Hag.
  destruct (read_turns fuel' now refills' s) as [rf s'|o s']; [|by destruct Hag as [? _]].
  destruct Hag as (_ & -> & _ & Hdl & _). exists s', ds, rs. split_and!; [done|by rewrite Hdl|done..].
Qed.
End Exchange.

(** ** Sample: a heartbeat and a proposal, at a verifier whose policy lock is poisoned *)

#[export] Instance template_propose_eq : EqDecision TemplatePropose.t.
Proof. solve_decision. Defined.

Module ExchangeSample.
Definition tp : TemplatePropose.t :=
  TemplatePropose.mk 2 7 800000 "00" 0 1 0 None None None None None None None.
Definition rejection : TemplateVerdict.t := poisoned_verdict tp.

(** A library that knows four messages. *)
#[export] Instance stream_json : StreamJson := {|
  message_from_slice b :=
    match b with
    | [x7b; x68; x7d] => Some (InternalMessage.mk HEARTBEAT PROTOCOL_VERSION (JObj []))
    | [x7b; x61; x7d] => Some (InternalMessage.mk HEARTBEAT_ACK PROTOCOL_VERSION (JObj []))
    | [x7b; x70; x7d] => Some (InternalMessage.mk TEMPLATE_PROPOSE PROTOCOL_VERSION (JNum 1))
    | [x7b; x76; x7d] => Some (InternalMessage.mk TEMPLATE_VERDICT PROTOCOL_VERSION (JNum 2))
    | _ => None
    end;
  message_to_bytes m :=
    match InternalMessage.payload m with
    | JObj [] => if decide (InternalMessage.msg_type m = HEARTBEAT) then Some [x7b; x68; x7d]
                 else if decide (InternalMessage.msg_type m = HEARTBEAT_ACK) then Some [x7b; x61; x7d] else None
    | JNum 1 => Some [x7b; x70; x7d]
    | JNum 2 => Some [x7b; x76; x7d]
    | _ => None
    end;
  verdict_from_value _ := Some rejection;
  propose_to_value p := if decide (p = tp) then Some (JNum 1) else None
|}.
#[export] Instance ingress_json : IngressJson := {|
  propose_from_value _ := Some tp;
  propose_from_str _ := None;
  verdict_to_value v :=
    if decide (TemplateVerdict.version v = PROTOCOL_VERSION /\ TemplateVerdict.id v = 7 /\
               TemplateVerdict.accepted v = false /\ TemplateVerdict.reason_code v = Some PolicyLoadError /\
               TemplateVerdict.reason_detail v = Some "policy lock poisoned") then Some (JNum 2) else None;
  verdict_to_bytes _ := None
|}.

Lemma three_bytes x : x <> newline -> utf8_valid [x7b; x; x7d] = true -> json_object [x7b; x; x7d].
Proof. intros Hn Hu. split_and!; [by exists [x]| |done]. set_solver. Qed.

#[export] Instance exchange_laws : ExchangeLaws.
Proof.
  split.
  - intros m b. cbn [message_to_bytes stream_json]. repeat case_match; intros [= <-]; by apply three_bytes.
  - intros p j b. cbn [propose_to_value stream_json]. case_decide; [|done]. intros [= <-] [= <-]. subst p. by eexists.
  - intros v j b. cbn [verdict_to_value ingress_json]. case_decide as Hv; [|done]. intros [= <-] [= <-].
    eexists _, rejection. split_and!; [done|done|]. destruct Hv as (H1 & H2 & H3 & H4 & H5). by split_and!.
  - intros ty b. cbn [message_to_bytes stream_json InternalMessage.payload InternalMessage.msg_type].
    repeat case_decide; intros [= <-]; by subst.
Qed.

Definition env (node : BitcoindClient) (i : nat) : Env.t := Env.mk 0 None 0 None None 0 0 false false node true.
Definition ms : list VerifierOutbound := [OutHeartbeat; OutPropose tp].
Definition ls : list bytes := [[x7b; x68; x7d]; [x7b; x70; x7d]].
Definition sent : list refill := [Chunk [x7b; x68]; Blocked; Chunk [x7d; newline; x7b; x70; x7d; newline]].
Definition received : list refill := [Chunk [x7b; x61; x7d; newline; x7b]; Chunk [x76; x7d; newline]].
Definition idle_service : Service.t := Service.mk [] 1 Metrics.new 0 [].
Definition gateway : IoLoop.t := IoLoop.new 0 false.

#[local] Instance lib : BitcoinLib := Consensus.Sample.lib.
#[local] Instance hex : HexCrate := HexSample.crate.

Lemma sample_replyable node k m : ms !! k = Some m -> replyable (env node k) m.
Proof.
  destruct k as [|[|k]]; intros [= <-].
  - by exists [x7b; x61; x7d].
  - exists [x7b; x76; x7d]. split; [done|]. exists (JNum 2). by vm_compute.
Qed.

Definition served (node : BitcoindClient) : standing * Service.t * Peer.t :=
  handle_tcp_connection 10 5 (env node) 0 sent [] idle_service (Peer.start 0 0).

Lemma proposals_get_verdicts_witness : exists s' ds rs,
  read_turns 20 0 received gateway = IoContinue [] s' /\
  all_answered (env Mempool.SampleNode.node) 0 ms ds /\ all_recorded (env Mempool.SampleNode.node) 0 1 ms rs.
Proof.
  destruct (proposals_get_verdicts 10 (env Mempool.SampleNode.node) ms ls sent 5 idle_service 0 0 received 20 0 gateway
    (served Mempool.SampleNode.node).1.1 (served Mempool.SampleNode.node).1.2 (served Mempool.SampleNode.node).2)
    as (s' & ds & rs & Hr & _ & Ha & _ & Hrec).
  - repeat constructor.
  - repeat constructor; vm_compute; congruence.
  - repeat constructor; done.
  - reflexivity.
  - vm_compute. lia.
  - done.
  - apply sample_replyable.
  - by vm_compute.
  - repeat constructor; done.
  - by vm_compute.
  - reflexivity.
  - vm_compute. lia.
  - exists s', ds, rs. by split_and!.
Defined.

Lemma ingress_serves_lines_witness :
  served Mempool.SampleNode.node =
  match serve_lines 10 (env Mempool.SampleNode.node) 0 ls idle_service (Peer.start 0 0) with
  | (true, sv, p) => (Open [] [], sv, p)
  | (false, sv, p) => (Closed, sv, p)
  end.
Proof.
  apply (ingress_serves_lines 10 5 (env Mempool.SampleNode.node) sent ls [] idle_service (Peer.start 0 0)).
  - repeat constructor; done.
  - split_and!; [done| |set_solver|done]. repeat constructor; try (vm_compute; congruence); set_solver.
  - vm_compute. lia.
Defined.
End ExchangeSample.
