(* ===== verification/License.v ===== *)
(** * License keys: issued by one service, verified by three

    Models the license part of [services/rg-auth/src/session.rs] (issue, parse, verify, load the
    signing key), [services/rg-desktop/src/license.rs] (the offline check of the desktop client with
    its own base64 decoder, the embedded key list, the stored state and its IPC commands) and
    [services/rg-feed-server/src/auth.rs] (the check of a feed connection).

    A [str] is the list of its UTF-8 bytes. The [base64] crate, [ed25519-dalek] and [serde_json] are
    operations of classes; their laws state that the encoder is the one of RFC 4648, that a signature
    verifies under the key that made it, and that a payload survives its own JSON. The clock is an
    argument in seconds. A poisoned lock is a flag. *)

From stdpp Require Import pretty.
From S2P Require Import Prelude Crates Policy VerifierStream VerdictLog.

(** ** Text helpers *)

(** A literal of the source as bytes. *)
Definition lit (s : string) : bytes := String.list_byte_of_string s.

(** [str::strip_prefix]. *)
Fixpoint strip_prefix (p s : bytes) : option bytes :=
  match p, s with
  | [], _ => Some s
  | a :: p, b :: s => if bool_decide (a = b) then strip_prefix p s else None
  | _ :: _, [] => None
  end.

(** [str::rfind] of an ASCII character. *)
Fixpoint rfind (c : byte) (s : bytes) : option nat :=
  match s with
  | [] => None
  | x :: s => match rfind c s with
              | Some i => Some (S i)
              | None => if bool_decide (x = c) then Some O else None
              end
  end.

(** [str::split] at an ASCII character; [cur] is the current piece in reverse. *)
Fixpoint split_from (c : byte) (s cur : bytes) : list bytes :=
  match s with
  | [] => [reverse cur]
  | x :: s => if bool_decide (x = c) then reverse cur :: split_from c s [] else split_from c s (x :: cur)
  end.
Definition split_str (c : byte) (s : bytes) : list bytes := split_from c s [].

(** ** Payloads and the crates *)

Module LicensePayload.
Record t : Type := mk {
  org_id : string; tier : string; issued_at : Z; expires_at : Z; features : list string }.
#[global] Instance eq_dec : EqDecision t.
Proof. solve_decision. Defined.
End LicensePayload.

(** [base64]'s [URL_SAFE_NO_PAD] engine. *)
Class Base64Crate : Type := {
  b64url_encode : bytes -> bytes;
  b64url_decode : bytes -> option bytes
}.

(** The encoding of RFC 4648, section 5, without padding. *)
Definition rfc4648_alphabet : bytes := lit "ABCDEFGHIJKLMNOPQRSTUVWXYZabcdefghijklmnopqrstuvwxyz0123456789-_".
Definition rfc4648_symbol (v : Z) : byte := default x00 (rfc4648_alphabet !! Z.to_nat v).
Fixpoint rfc4648_encode (b : bytes) : bytes :=
  match b with
  | [] => []
  | [x] => rfc4648_symbol <$> [byte_to_Z x / 4; byte_to_Z x mod 4 * 16]
  | [x; y] => rfc4648_symbol <$> [byte_to_Z x / 4; byte_to_Z x mod 4 * 16 + byte_to_Z y / 16; byte_to_Z y mod 16 * 4]
  | x :: y :: z :: b =>
      (rfc4648_symbol <$> [byte_to_Z x / 4; byte_to_Z x mod 4 * 16 + byte_to_Z y / 16;
                           byte_to_Z y mod 16 * 4 + byte_to_Z z / 64; byte_to_Z z mod 64])
      ++ rfc4648_encode b
  end.

Class Base64Laws `{Base64Crate} : Prop := {
  b64url_rfc4648 b : b64url_encode b = rfc4648_encode b;
  b64url_round_trip b : b64url_decode (b64url_encode b) = Some b
}.

(** [serde_json] on a payload. *)
Class LicenseJson : Type := {
  payload_to_json : LicensePayload.t -> bytes;
  payload_from_json : bytes -> option LicensePayload.t
}.
Class LicenseJsonLaws `{LicenseJson} : Prop := {
  payload_round_trip p : payload_from_json (payload_to_json p) = Some p
}.

(** [ed25519-dalek]. *)
Class Ed25519Crate : Type := {
  SigningKey : Type;
  VerifyingKey : Type;
  sk_from_bytes : bytes -> SigningKey;
  verifying_key : SigningKey -> VerifyingKey;
  vk_from_bytes : bytes -> option VerifyingKey;
  vk_to_bytes : VerifyingKey -> bytes;
  sign : SigningKey -> bytes -> bytes;
  verify : VerifyingKey -> bytes -> bytes -> bool
}.
Definition SIGNATURE_LENGTH : nat := 64.
Definition PUBLIC_KEY_LENGTH : nat := 32.
Class Ed25519Laws `{Ed25519Crate} : Prop := {
  signature_length sk m : length (sign sk m) = SIGNATURE_LENGTH;
  signature_verifies sk m : verify (verifying_key sk) m (sign sk m) = true;
  public_key_length sk : length (vk_to_bytes (verifying_key sk)) = PUBLIC_KEY_LENGTH;
  public_key_round_trip sk : vk_from_bytes (vk_to_bytes (verifying_key sk)) = Some (verifying_key sk)
}.

(** ** The desktop client's base64 decoder *)

Definition base64_table : bytes := lit "ABCDEFGHIJKLMNOPQRSTUVWXYZabcdefghijklmnopqrstuvwxyz0123456789+/".

(** [TABLE.iter().position(..)]. *)
Fixpoint position_from (c : byte) (table : bytes) (i : Z) : option Z :=
  match table with
  | [] => None
  | x :: table => if bool_decide (x = c) then Some i else position_from c table (i + 1)
  end.
Definition lookup_symbol (c : byte) : result Z unit := ok_or (position_from c base64_table 0) tt.

Definition equals_sign : byte := x3d.

(** One chunk of four characters: the bytes it pushes. *)
Definition decode_chunk (a b c d : byte) : result bytes unit :=
  let? va := lookup_symbol a in
  let? vb := lookup_symbol b in
  let first := Z_to_byte (Z.lor (Z.shiftl va 2) (Z.shiftr vb 4)) in
  if bool_decide (c = equals_sign) then Ok [first]
  else
    let? vc := lookup_symbol c in
    let second := Z_to_byte (Z.lor (Z.shiftl (Z.land vb 0x0F) 4) (Z.shiftr vc 2)) in
    if bool_decide (d = equals_sign) then Ok [first; second]
    else
      let? vd := lookup_symbol d in
      Ok [first; second; Z_to_byte (Z.lor (Z.shiftl (Z.land vc 0x03) 6) vd)].

(** The loop over [chunks(4)]: a last chunk of another length is an error. *)
Fixpoint base64_decode_standard (input : bytes) : result bytes unit :=
  match input with
  | [] => Ok []
  | a :: b :: c :: d :: rest =>
      let? out := decode_chunk a b c d in
      let? more := base64_decode_standard rest in
      Ok (out ++ more)
  | _ => Err tt
  end.

Definition to_standard (c : byte) : byte :=
  if bool_decide (c = x2d) then x2b else if bool_decide (c = x5f) then x2f else c.

Definition base64url_decode (input : bytes) : result bytes unit :=
  let standard := to_standard <$> input in
  match (length standard mod 4)%nat with
  | 2%nat => base64_decode_standard (standard ++ [equals_sign; equals_sign])
  | 3%nat => base64_decode_standard (standard ++ [equals_sign])
  | 0%nat => base64_decode_standard standard
  | _ => Err tt
  end.

(** ** rg-auth: issue, parse, verify *)

Definition key_prefix : bytes := lit "veldra_lic_".
Definition dot : byte := x2e.

Definition DEFAULT_LICENSE_DURATION_SECS : Z := 365 * 24 * 60 * 60.

Section Issue.
Context `{Base64Crate} `{LicenseJson} `{Ed25519Crate}.

Definition sign_license_key_with_duration (now : Z) (signing_key : SigningKey) (org_id tier : string)
    (features : list string) (duration_secs : Z) : bytes :=
  let payload := LicensePayload.mk org_id tier now (wrapping_add 64 now duration_secs) features in
  let payload_b64 := b64url_encode (payload_to_json payload) in
  let sig_b64 := b64url_encode (sign signing_key payload_b64) in
  key_prefix ++ payload_b64 ++ [dot] ++ sig_b64.

Definition sign_license_key (now : Z) (signing_key : SigningKey) (org_id tier : string)
    (features : list string) : bytes :=
  sign_license_key_with_duration now signing_key org_id tier features DEFAULT_LICENSE_DURATION_SECS.

Definition parse_license_payload (key : bytes) : option LicensePayload.t :=
  body ← strip_prefix key_prefix key;
  dot_pos ← rfind dot body;
  payload_bytes ← b64url_decode (take dot_pos body);
  payload_from_json payload_bytes.

Definition verify_license_key (key : bytes) (vk : VerifyingKey) : option LicensePayload.t :=
  body ← strip_prefix key_prefix key;
  dot_pos ← rfind dot body;
  let payload_b64 := take dot_pos body in
  let sig_b64 := drop (dot_pos + 1) body in
  sig_bytes ← b64url_decode sig_b64;
  if negb (length sig_bytes =? SIGNATURE_LENGTH)%nat then None
  else if negb (verify vk payload_b64 sig_bytes) then None
  else payload_bytes ← b64url_decode payload_b64; payload_from_json payload_bytes.

Definition load_signing_key (b64_seed : bytes) : option SigningKey :=
  match b64_seed with
  | [] => None
  | _ =>
      seed ← b64url_decode b64_seed;
      if negb (length seed =? 32)%nat then None else Some (sk_from_bytes seed)
  end.
End Issue.

(** ** rg-feed-server: the check of a feed connection *)

Definition ALLOWED_TIERS : list string := ["observe_paid"; "inline_licensed"]%string.

Module ValidatedKey.
Record t : Type := mk { org_id : string; tier : string }.
End ValidatedKey.

Section Feed.
Context `{Base64Crate} `{LicenseJson} `{Ed25519Crate}.

Definition load_verifying_key (b64 : bytes) : option VerifyingKey :=
  match b64 with
  | [] => None
  | _ =>
      key_bytes ← b64url_decode b64;
      if negb (length key_bytes =? 32)%nat then None else vk_from_bytes key_bytes
  end.

Definition validate_signed (now : Z) (key : bytes) (vk : VerifyingKey) : option ValidatedKey.t :=
  body ← strip_prefix key_prefix key;
  dot_pos ← rfind dot body;
  let payload_b64 := take dot_pos body in
  let sig_b64 := drop (dot_pos + 1) body in
  sig_bytes ← b64url_decode sig_b64;
  if negb (length sig_bytes =? SIGNATURE_LENGTH)%nat then None
  else if negb (verify vk payload_b64 sig_bytes) then None
  else
    payload_bytes ← b64url_decode payload_b64;
    payload ← payload_from_json payload_bytes;
    if LicensePayload.expires_at payload <? now then None
    else if negb (bool_decide (LicensePayload.tier payload ∈ ALLOWED_TIERS)) then None
    else Some (ValidatedKey.mk (LicensePayload.org_id payload) (LicensePayload.tier payload)).

(** [KeyValidator::validate]; the validator is the loaded key, if any. *)
Definition validate_feed_key (validator : option VerifyingKey) (now : Z) (key : bytes) : option ValidatedKey.t :=
  match key with
  | [] => None
  | _ => vk ← validator; validate_signed now key vk
  end.
End Feed.

(** ** rg-desktop: the offline check and the stored license *)

Inductive LicenseError : Type :=
| InvalidPrefix | MissingSignature | InvalidBase64 | InvalidPayload
| Expired (expired_at : Z) | SignatureInvalid | Internal (msg : string).

(** What a check ends with: a result, or the panic of a slice inside a character. *)
Inductive checked (A : Type) : Type := Returns (a : A) | Panics.
Arguments Returns {A}.
Arguments Panics {A}.

Module LicenseInfo.
Record t : Type := mk {
  raw_key : option bytes; payload : option LicensePayload.t; raw_poisoned : bool; payload_poisoned : bool }.
Definition empty : t := mk None None false false.
End LicenseInfo.

(** [hex_nibble] and [hex_decode] of the developer bypass. *)
Definition hex_nibble (b : byte) : option Z :=
  let n := byte_to_Z b in
  if (48 <=? n) && (n <=? 57) then Some (n - 48)
  else if (97 <=? n) && (n <=? 102) then Some (n - 97 + 10)
  else if (65 <=? n) && (n <=? 70) then Some (n - 65 + 10)
  else None.
Fixpoint hex_decode_license (input : bytes) : option bytes :=
  match input with
  | [] => Some []
  | [_] => None
  | a :: b :: rest =>
      if negb (Nat.even (length rest)) then None
      else hi ← hex_nibble a; lo ← hex_nibble b;
           out ← hex_decode_license rest;
           Some (Z_to_byte (Z.lor (Z.shiftl hi 4) lo) :: out)
  end.

Section Desktop.
Context `{Base64Crate} `{LicenseJson} `{Ed25519Crate} `{Sha256Crate}.
(** What was compiled in: the hash of the bypass when the feature [dev-passkey] is on, and the
    public keys. *)
Context (dev_passkey_hash : option bytes) (pubkeys_b64 : bytes).

Definition try_dev_passkey (key : bytes) : option LicensePayload.t :=
  expected_hex ← dev_passkey_hash;
  match expected_hex with
  | [] => None
  | _ =>
      expected ← hex_decode_license expected_hex;
      if negb (length expected =? 32)%nat then None
      else if bool_decide (sha256 key = expected)
      then Some (LicensePayload.mk "org_dev_local" "dev" 0 9999999999 ["gateway"; "exporter"]%string)
      else None
  end.

Definition parse_key (key : bytes) : result LicensePayload.t LicenseError :=
  let? body := ok_or (strip_prefix key_prefix key) InvalidPrefix in
  let? dot_pos := ok_or (rfind dot body) MissingSignature in
  let? payload_bytes := map_err (fun _ => InvalidBase64) (base64url_decode (take dot_pos body)) in
  ok_or (payload_from_json payload_bytes) InvalidPayload.

Definition check_expiry (now : Z) (p : LicensePayload.t) : result unit LicenseError :=
  if LicensePayload.expires_at p <? now then Err (Expired (LicensePayload.expires_at p)) else Ok tt.

(** The loop over the embedded keys: [tried] counts the well-formed ones. *)
Fixpoint try_pubkeys (entries : list bytes) (payload_b64 sig : bytes) (tried : Z)
    : checked (result unit LicenseError) :=
  match entries with
  | [] => Returns (if tried =? 0 then Err (Internal "no valid pubkeys compiled in (all entries malformed)")
                   else Err SignatureInvalid)
  | entry :: entries =>
      if negb (is_char_boundary entry (Nat.min (length entry) 8)) then Panics
      else
        match base64url_decode entry with
        | Err _ => try_pubkeys entries payload_b64 sig tried
        | Ok key_bytes =>
            if negb (length key_bytes =? PUBLIC_KEY_LENGTH)%nat then try_pubkeys entries payload_b64 sig tried
            else
              match vk_from_bytes key_bytes with
              | None => try_pubkeys entries payload_b64 sig tried
              | Some vk =>
                  if verify vk payload_b64 sig then Returns (Ok tt)
                  else try_pubkeys entries payload_b64 sig (tried + 1)
              end
        end
  end.

(** [pubkeys_b64.split(',').map(str::trim).filter(|s| !s.is_empty())]. *)
Definition pubkey_entries (list_b64 : bytes) : list bytes :=
  List.filter (fun s => negb (length s =? 0)%nat) (trim_str <$> split_str x2c list_b64).

Definition verify_signature_with_pubkeys (key pubkeys : bytes) : checked (result unit LicenseError) :=
  match pubkeys with
  | [] => Returns (Err (Internal "VELDRA_LICENSE_PUBKEY not compiled in, cannot verify license"))
  | _ =>
      match strip_prefix key_prefix key with
      | None => Returns (Err InvalidPrefix)
      | Some body =>
          match rfind dot body with
          | None => Returns (Err MissingSignature)
          | Some dot_pos =>
              match base64url_decode (drop (dot_pos + 1) body) with
              | Err _ => Returns (Err SignatureInvalid)
              | Ok sig_bytes =>
                  if negb (length sig_bytes =? SIGNATURE_LENGTH)%nat then Returns (Err SignatureInvalid)
                  else try_pubkeys (pubkey_entries pubkeys) (take dot_pos body) sig_bytes 0
              end
          end
      end
  end.

Definition verify_signature (key : bytes) : checked (result unit LicenseError) :=
  verify_signature_with_pubkeys key pubkeys_b64.

(** The payload [validate_and_store] arrives at. *)
Definition check_key (now : Z) (key : bytes) : checked (result LicensePayload.t LicenseError) :=
  match try_dev_passkey key with
  | Some p => Returns (Ok p)
  | None =>
      match parse_key key with
      | Err e => Returns (Err e)
      | Ok p =>
          match check_expiry now p with
          | Err e => Returns (Err e)
          | Ok _ =>
              match verify_signature key with
              | Panics => Panics
              | Returns (Err e) => Returns (Err e)
              | Returns (Ok _) => Returns (Ok p)
              end
          end
      end
  end.

Definition validate_and_store (now : Z) (key : bytes) (info : LicenseInfo.t)
    : checked (result unit LicenseError) * LicenseInfo.t :=
  match check_key now key with
  | Panics => (Panics, info)
  | Returns (Err e) => (Returns (Err e), info)
  | Returns (Ok p) =>
      if LicenseInfo.raw_poisoned info then (Returns (Err (Internal "lock poisoned")), info)
      else
        let info := LicenseInfo.mk (Some key) (LicenseInfo.payload info) false (LicenseInfo.payload_poisoned info) in
        if LicenseInfo.payload_poisoned info then (Returns (Err (Internal "lock poisoned")), info)
        else (Returns (Ok tt), LicenseInfo.mk (Some key) (Some p) false false)
  end.

(** [load_from_config], on the configured key. *)
Definition load_from_config (now : Z) (license_key : option bytes) : checked LicenseInfo.t :=
  match license_key with
  | None => Returns LicenseInfo.empty
  | Some key =>
      match validate_and_store now key LicenseInfo.empty with
      | (Panics, _) => Panics
      | (Returns _, info) => Returns info
      end
  end.
End Desktop.

Definition is_valid (now : Z) (info : LicenseInfo.t) : bool :=
  if LicenseInfo.payload_poisoned info then false
  else match LicenseInfo.payload info with
       | Some p => now <=? LicensePayload.expires_at p
       | None => false
       end.

Definition clear_stored (info : LicenseInfo.t) : LicenseInfo.t :=
  LicenseInfo.mk (if LicenseInfo.raw_poisoned info then LicenseInfo.raw_key info else None)
    (if LicenseInfo.payload_poisoned info then LicenseInfo.payload info else None)
    (LicenseInfo.raw_poisoned info) (LicenseInfo.payload_poisoned info).

Definition stored_tier (info : LicenseInfo.t) : option string :=
  if LicenseInfo.payload_poisoned info then None else LicensePayload.tier <$> LicenseInfo.payload info.

(** [get_license_status]: [has_key], [valid], [tier]. *)
Definition get_license_status (now : Z) (info : LicenseInfo.t) : bool * bool * option string :=
  (if LicenseInfo.raw_poisoned info then false else bool_decide (is_Some (LicenseInfo.raw_key info)),
   is_valid now info, stored_tier info).

(** The text of an error; an internal one is replaced. *)
Definition display_error (e : LicenseError) : string :=
  match e with
  | InvalidPrefix => "key must start with 'veldra_lic_'"
  | MissingSignature => "key is missing signature component"
  | InvalidBase64 => "key payload is not valid base64url"
  | InvalidPayload => "key payload is not valid JSON"
  | Expired at_ => "key expired at timestamp " +:+ pretty at_
  | SignatureInvalid => "key signature verification failed"
  | Internal msg => "internal error: " +:+ msg
  end.
Definition ipc_error (e : LicenseError) : string :=
  match e with Internal _ => "license validation error" | other => display_error other end.

(** * Properties *)

(** ** Text *)

Lemma strip_prefix_app p s : strip_prefix p (p ++ s) = Some s.
Proof. induction p as [|a p IH]; [done|]. cbn [app strip_prefix]. by rewrite bool_decide_true. Qed.

Lemma strip_prefix_Some p s r : strip_prefix p s = Some r -> s = p ++ r.
Proof.
  revert s. induction p as [|a p IH]; intros [|b s] Hs; cbn [strip_prefix app] in *; try congruence.
  case_bool_decide as Hab; [|done]. subst. f_equal. auto.
Qed.

Lemma rfind_None c s : c ∉ s -> rfind c s = None.
Proof.
  induction s as [|x s IH]; [done|]. rewrite not_elem_of_cons. intros [Hx Hs]. cbn [rfind].
  by rewrite (IH Hs), bool_decide_false.
Qed.

Lemma rfind_app c a b : c ∉ b -> rfind c (a ++ c :: b) = Some (length a).
Proof.
  intros Hb. induction a as [|x a IH]; cbn [app rfind length].
  - by rewrite (rfind_None c b Hb), bool_decide_true.
  - by rewrite IH.
Qed.

(** The last dot splits what the verifiers split. *)
Lemma body_split a b : dot ∉ b ->
  rfind dot (a ++ [dot] ++ b) = Some (length a) /\
  take (length a) (a ++ [dot] ++ b) = a /\ drop (length a + 1) (a ++ [dot] ++ b) = b.
Proof.
  intros Hb. split; [by apply rfind_app|]. split; [by apply take_app_length|].
  rewrite (app_assoc a [dot] b). apply drop_app_length'. rewrite length_app. done.
Qed.

(** ** The decoder of the desktop client *)

Lemma symbol_lookup v : 0 <= v < 64 -> lookup_symbol (to_standard (rfc4648_symbol v)) = Ok v.
Proof.
  intros Hv. assert (forallb (fun n => match lookup_symbol (to_standard (rfc4648_symbol (Z.of_nat n))) with
    | Ok w => w =? Z.of_nat n | Err _ => false end) (seq 0 64) = true) as Hall by (vm_compute; reflexivity).
  rewrite forallb_forall in Hall. specialize (Hall (Z.to_nat v)).
  rewrite Z2Nat.id in Hall by lia. destruct (lookup_symbol _) as [w|]; [|by discriminate Hall; apply in_seq; lia].
  f_equal. apply Z.eqb_eq. apply Hall. apply in_seq. lia.
Qed.

Lemma symbol_not_special v : 0 <= v < 64 ->
  to_standard (rfc4648_symbol v) <> equals_sign /\ rfc4648_symbol v <> dot.
Proof.
  intros Hv. assert (forallb (fun n => negb (bool_decide (to_standard (rfc4648_symbol (Z.of_nat n)) = equals_sign))
    && negb (bool_decide (rfc4648_symbol (Z.of_nat n) = dot))) (seq 0 64) = true) as Hall by (vm_compute; reflexivity).
  rewrite forallb_forall in Hall. specialize (Hall (Z.to_nat v) ltac:(apply in_seq; lia)).
  rewrite Z2Nat.id in Hall by lia. apply andb_true_iff in Hall as [H1 H2].
  rewrite negb_true_iff, bool_decide_eq_false in H1, H2. done.
Qed.

(** Joining two pieces of a byte: the low piece fits below the shift. *)
Lemma join_bits hi lo n : 0 <= n -> 0 <= lo < 2 ^ n -> Z.lor (Z.shiftl hi n) lo = hi * 2 ^ n + lo.
Proof. intros Hn Hlo. rewrite Z.lor_comm, lor_shiftl_add by lia. lia. Qed.

Lemma byte_of_parts x z : z = byte_to_Z x -> Z_to_byte z = x.
Proof. intros ->. apply Z_to_byte_to_Z. Qed.

Ltac euclid := Z.to_euclidean_division_equations; lia.

Lemma join_first x y : let a := byte_to_Z x / 4 in let b := byte_to_Z x mod 4 * 16 + byte_to_Z y / 16 in
  Z_to_byte (Z.lor (Z.shiftl a 2) (Z.shiftr b 4)) = x.
Proof.
  intros a b. apply byte_of_parts. pose proof (byte_to_Z_range x). pose proof (byte_to_Z_range y).
  rewrite Z.shiftr_div_pow2, join_bits by (subst a b; cbn [Z.pow Z.pow_pos Pos.iter]; euclid).
  subst a b. cbn [Z.pow Z.pow_pos Pos.iter]. euclid.
Qed.

Lemma join_second x y z : let b := byte_to_Z x mod 4 * 16 + byte_to_Z y / 16 in
  let c := byte_to_Z y mod 16 * 4 + byte_to_Z z / 64 in
  Z_to_byte (Z.lor (Z.shiftl (Z.land b 0x0F) 4) (Z.shiftr c 2)) = y.
Proof.
  intros b c. apply byte_of_parts. pose proof (byte_to_Z_range y). pose proof (byte_to_Z_range z).
  change 0x0F with (Z.ones 4). rewrite Z.land_ones by lia.
  rewrite Z.shiftr_div_pow2, join_bits by (subst b c; cbn [Z.pow Z.pow_pos Pos.iter]; euclid).
  subst b c. cbn [Z.pow Z.pow_pos Pos.iter]. euclid.
Qed.

Lemma join_third y z : let c := byte_to_Z y mod 16 * 4 + byte_to_Z z / 64 in
  Z_to_byte (Z.lor (Z.shiftl (Z.land c 0x03) 6) (byte_to_Z z mod 64)) = z.
Proof.
  intros c. apply byte_of_parts. pose proof (byte_to_Z_range y). pose proof (byte_to_Z_range z).
  change 0x03 with (Z.ones 2). rewrite Z.land_ones by lia.
  rewrite join_bits by (subst c; cbn [Z.pow Z.pow_pos Pos.iter]; euclid).
  subst c. cbn [Z.pow Z.pow_pos Pos.iter]. euclid.
Qed.

(** The chunks the encoder writes. *)
Lemma decode_chunk_three x y z :
  decode_chunk (to_standard (rfc4648_symbol (byte_to_Z x / 4)))
    (to_standard (rfc4648_symbol (byte_to_Z x mod 4 * 16 + byte_to_Z y / 16)))
    (to_standard (rfc4648_symbol (byte_to_Z y mod 16 * 4 + byte_to_Z z / 64)))
    (to_standard (rfc4648_symbol (byte_to_Z z mod 64))) = Ok [x; y; z].
Proof.
  pose proof (byte_to_Z_range x). pose proof (byte_to_Z_range y). pose proof (byte_to_Z_range z).
  unfold decode_chunk. rewrite !symbol_lookup by euclid. cbn [result_bind].
  rewrite !bool_decide_false by (apply symbol_not_special; euclid).
  by rewrite join_first, join_second, join_third.
Qed.

Lemma decode_chunk_two x y :
  decode_chunk (to_standard (rfc4648_symbol (byte_to_Z x / 4)))
    (to_standard (rfc4648_symbol (byte_to_Z x mod 4 * 16 + byte_to_Z y / 16)))
    (to_standard (rfc4648_symbol (byte_to_Z y mod 16 * 4))) equals_sign = Ok [x; y].
Proof.
  pose proof (byte_to_Z_range x). pose proof (byte_to_Z_range y).
  unfold decode_chunk. rewrite !symbol_lookup by euclid. cbn [result_bind].
  rewrite bool_decide_false by (apply symbol_not_special; euclid). rewrite bool_decide_true by done.
  pose proof (join_second x y x00) as Hs. cbn zeta in Hs. change (byte_to_Z x00 / 64) with 0 in Hs.
  rewrite Z.add_0_r in Hs. by rewrite join_first, Hs.
Qed.

Lemma decode_chunk_one x :
  decode_chunk (to_standard (rfc4648_symbol (byte_to_Z x / 4)))
    (to_standard (rfc4648_symbol (byte_to_Z x mod 4 * 16))) equals_sign equals_sign = Ok [x].
Proof.
  pose proof (byte_to_Z_range x). unfold decode_chunk. rewrite !symbol_lookup by euclid. cbn [result_bind].
  rewrite bool_decide_true by done.
  pose proof (join_first x x00) as Hs. cbn zeta in Hs. change (byte_to_Z x00 / 16) with 0 in Hs.
  rewrite Z.add_0_r in Hs. by rewrite Hs.
Qed.

(** Induction three bytes at a time. *)
Lemma triples_ind (P : bytes -> Prop) :
  P [] -> (forall x, P [x]) -> (forall x y, P [x; y]) ->
  (forall x y z b, P b -> P (x :: y :: z :: b)) -> forall b, P b.
Proof.
  intros H0 H1 H2 H3 b. assert (P b /\ (forall x, P (x :: b)) /\ forall x y, P (x :: y :: b)) as [? _]; [|done].
  induction b as [|a b (Ha & Hb & Hc)]; [by auto|]. split_and!; auto.
Qed.

Lemma base64url_decode_encode b : base64url_decode (rfc4648_encode b) = Ok b.
Proof.
  induction b as [|x|x y|x y z b IH] using triples_ind; [done|..].
  - unfold base64url_decode. cbn [rfc4648_encode fmap list_fmap length Nat.modulo Nat.divmod app snd Nat.sub].
    cbn [base64_decode_standard]. by rewrite decode_chunk_one.
  - unfold base64url_decode. cbn [rfc4648_encode fmap list_fmap length Nat.modulo Nat.divmod app snd Nat.sub].
    cbn [base64_decode_standard]. by rewrite decode_chunk_two.
  - revert IH. unfold base64url_decode. cbn [rfc4648_encode]. rewrite fmap_app.
    cbn [fmap list_fmap app length]. set (e := to_standard <$> rfc4648_encode b).
    replace (S (S (S (S (length e)))) mod 4)%nat with (length e mod 4)%nat.
    2:{ replace (S (S (S (S (length e))))) with (length e + 1 * 4)%nat by lia. by rewrite Nat.Div0.mod_add. }
    destruct (length e mod 4)%nat as [|[|[|[|n]]]]; try done; cbn [app base64_decode_standard];
      rewrite decode_chunk_three; cbn [result_bind]; by intros ->.
Qed.

Lemma no_dot_encode b : dot ∉ rfc4648_encode b.
Proof.
  assert (forall v, 0 <= v < 64 -> dot <> rfc4648_symbol v) as Hs by (intros v Hv Hd; by destruct (symbol_not_special v Hv)).
  induction b as [|x|x y|x y z b IH] using triples_ind; cbn [rfc4648_encode fmap list_fmap app];
    [apply not_elem_of_nil|..];
    byte_ranges; rewrite ?not_elem_of_cons; split_and?; try (apply Hs; euclid); (exact IH || apply not_elem_of_nil).
Qed.

(** ** Issued keys *)

Section Licensing.
Context `{Base64Laws} `{LicenseJsonLaws} `{Ed25519Laws} `{Sha256Crate}.

(** What the encoded texts do in each decoder. *)
Lemma desktop_decodes_crate b : base64url_decode (b64url_encode b) = Ok b.
Proof. rewrite b64url_rfc4648. apply base64url_decode_encode. Qed.

Lemma no_dot_crate b : dot ∉ b64url_encode b.
Proof. rewrite b64url_rfc4648. apply no_dot_encode. Qed.

(** A key made of a payload text and a signature. *)
Definition key_of (payload_b64 sig : bytes) : bytes := key_prefix ++ payload_b64 ++ [dot] ++ b64url_encode sig.

Lemma key_of_parts payload_b64 sig : exists body,
  strip_prefix key_prefix (key_of payload_b64 sig) = Some body /\
  rfind dot body = Some (length payload_b64) /\ take (length payload_b64) body = payload_b64 /\
  drop (length payload_b64 + 1) body = b64url_encode sig.
Proof.
  eexists. split; [apply strip_prefix_app|]. apply body_split, no_dot_crate.
Qed.

Lemma verify_license_key_of vk p sig : length sig = SIGNATURE_LENGTH ->
  verify vk (b64url_encode (payload_to_json p)) sig = true ->
  verify_license_key (key_of (b64url_encode (payload_to_json p)) sig) vk = Some p.
Proof.
  intros Hl Hv. unfold verify_license_key. destruct (key_of_parts (b64url_encode (payload_to_json p)) sig)
    as (body & -> & Hr & Ht & Hd). cbn [mbind option_bind]. rewrite Hr. cbn [mbind option_bind]. rewrite Ht, Hd.
  rewrite (b64url_round_trip sig). cbn [mbind option_bind]. rewrite Hl, Nat.eqb_refl, Hv. cbn [negb].
  rewrite b64url_round_trip. apply payload_round_trip.
Qed.

Lemma validate_signed_of now vk p sig : length sig = SIGNATURE_LENGTH ->
  verify vk (b64url_encode (payload_to_json p)) sig = true ->
  validate_signed now (key_of (b64url_encode (payload_to_json p)) sig) vk =
  if LicensePayload.expires_at p <? now then None
  else if bool_decide (LicensePayload.tier p ∈ ALLOWED_TIERS)
  then Some (ValidatedKey.mk (LicensePayload.org_id p) (LicensePayload.tier p)) else None.
Proof.
  intros Hl Hv. unfold validate_signed. destruct (key_of_parts (b64url_encode (payload_to_json p)) sig)
    as (body & -> & Hr & Ht & Hd). cbn [mbind option_bind]. rewrite Hr. cbn [mbind option_bind]. rewrite Ht, Hd.
  rewrite (b64url_round_trip sig). cbn [mbind option_bind]. rewrite Hl, Nat.eqb_refl, Hv. cbn [negb].
  rewrite b64url_round_trip. cbn [mbind option_bind]. rewrite payload_round_trip. cbn [mbind option_bind].
  case_if; [done|]. by case_bool_decide.
Qed.

Lemma load_verifying_key_of sk : load_verifying_key (b64url_encode (vk_to_bytes (verifying_key sk))) = Some (verifying_key sk).
Proof.
  unfold load_verifying_key. destruct (b64url_encode _) as [|c s] eqn:E.
  - pose proof (b64url_round_trip (vk_to_bytes (verifying_key sk))) as Hr.
    pose proof (b64url_round_trip []) as Hn. rewrite (b64url_rfc4648 []) in Hn. cbn [rfc4648_encode] in Hn.
    rewrite E, Hn in Hr. pose proof (public_key_length sk) as Hl. apply (inj Some) in Hr. by rewrite <-Hr in Hl.
  - rewrite <-E, b64url_round_trip. cbn [mbind option_bind]. rewrite public_key_length.
    apply public_key_round_trip.
Qed.

(** An embedded key that verifies is found, whatever stands before it. *)
Lemma try_pubkeys_found sk entries m sig tried :
  b64url_encode (vk_to_bytes (verifying_key sk)) ∈ entries ->
  Forall (fun e => is_char_boundary e (Nat.min (length e) 8) = true) entries ->
  verify (verifying_key sk) m sig = true -> try_pubkeys entries m sig tried = Returns (Ok tt).
Proof.
  intros Hin Hok Hv. revert tried. induction entries as [|e entries IH]; intros tried; [by apply not_elem_of_nil in Hin|].
  apply Forall_cons in Hok as [He Hok]. cbn [try_pubkeys]. rewrite He. cbn [negb].
  apply elem_of_cons in Hin as [<-|Hin].
  - rewrite desktop_decodes_crate, public_key_length, Nat.eqb_refl, public_key_round_trip, Hv. done.
  - specialize (IH Hin Hok). destruct (base64url_decode e) as [kb|]; [|auto].
    case_if; [auto|]. destruct (vk_from_bytes kb); [|auto]. case_if; auto.
Qed.

(** What rg-auth puts in the payload. *)
Definition issued_payload (now : Z) (org_id tier : string) (features : list string) (duration_secs : Z) : LicensePayload.t :=
  LicensePayload.mk org_id tier now (wrapping_add 64 now duration_secs) features.

Lemma sign_license_key_of now sk org tier features duration :
  let m := b64url_encode (payload_to_json (issued_payload now org tier features duration)) in
  sign_license_key_with_duration now sk org tier features duration = key_of m (sign sk m).
Proof. done. Qed.

(** A key that rg-auth issues is honoured by all three verifiers, and by each exactly until it
    expires: rg-auth reads the issued payload back, the desktop client with the issuer's public key
    among its embedded ones accepts it with that payload until [expires_at] and reports its expiry
    afterwards, and the feed server accepts it exactly when it is not expired and its tier is a paid
    one. *)
Theorem issued_key_honoured now t sk org tier features duration dev pubkeys :
  let vk := verifying_key sk in
  let key := sign_license_key_with_duration now sk org tier features duration in
  let p := issued_payload now org tier features duration in
  b64url_encode (vk_to_bytes vk) ∈ pubkey_entries pubkeys ->
  Forall (fun e => is_char_boundary e (Nat.min (length e) 8) = true) (pubkey_entries pubkeys) ->
  try_dev_passkey dev key = None ->
  verify_license_key key vk = Some p /\
  check_key dev pubkeys t key =
    Returns (if LicensePayload.expires_at p <? t then Err (Expired (LicensePayload.expires_at p)) else Ok p) /\
  validate_feed_key (load_verifying_key (b64url_encode (vk_to_bytes vk))) t key =
    (if LicensePayload.expires_at p <? t then None
     else if bool_decide (tier ∈ ALLOWED_TIERS) then Some (ValidatedKey.mk org tier) else None).
Proof.
  intros vk key p Hin Hok Hdev. pose proof (sign_license_key_of now sk org tier features duration) as Hk.
  cbn zeta in Hk. fold key p in Hk. set (m := b64url_encode (payload_to_json p)) in *.
  pose proof (signature_length sk m) as Hl. pose proof (signature_verifies sk m) as Hv. split_and!.
  - rewrite Hk. by apply verify_license_key_of.
  - unfold check_key. rewrite Hdev. rewrite Hk.
    destruct (key_of_parts m (sign sk m)) as (body & Hp & Hr & Ht & Hd).
    unfold parse_key. rewrite Hp. cbn [ok_or result_bind]. rewrite Hr. cbn [ok_or result_bind].
    rewrite Ht. subst m. rewrite desktop_decodes_crate. cbn [map_err result_bind].
    rewrite payload_round_trip. cbn [ok_or]. unfold check_expiry. case_if; [done|].
    unfold verify_signature, verify_signature_with_pubkeys. rewrite Hp, Hr, Ht, Hd, desktop_decodes_crate, Hl.
    destruct pubkeys as [|c pk]; [by apply not_elem_of_nil in Hin|]. cbn [Nat.eqb negb].
    by erewrite try_pubkeys_found by done.
  - unfold validate_feed_key. subst vk. rewrite load_verifying_key_of, Hk.
    exact (validate_signed_of t (verifying_key sk) p (sign sk m) Hl Hv).
Qed.

(** ** Only issued keys *)

(** The message and the signature that a key string carries, as the issuer's and the desktop client's
    decoder read the latter. *)
Definition carries (key m s : bytes) : Prop :=
  exists enc, key = key_prefix ++ m ++ dot :: enc /\ dot ∉ enc /\ (b64url_decode enc = Some s \/ base64url_decode enc = Ok s).

(** The key string is no forgery under [vk]: the message it carries, if the signature on it verifies, is
    that of an issued payload. That nobody can come up with a string for which this fails is what a
    signature scheme is for; it is not said of all messages and signatures, for those of the holder of
    the signing key are among them. *)
Definition no_forgery (Issued : LicensePayload.t -> Prop) (vk : VerifyingKey) (key : bytes) : Prop :=
  forall m s, carries key m s -> verify vk m s = true -> exists p, m = b64url_encode (payload_to_json p) /\ Issued p.

Lemma rfind_split c s i : rfind c s = Some i -> s = take i s ++ c :: drop (i + 1) s /\ c ∉ drop (i + 1) s.
Proof.
  revert i. induction s as [|x s IH]; intros i; [done|]. cbn [rfind]. destruct (rfind c s) as [k|] eqn:Ek.
  - intros [= <-]. destruct (IH k eq_refl) as [Hs Hn]. cbn [Nat.add take drop app]. split; [by f_equal|done].
  - case_bool_decide as Hx; [|done]. intros [= <-]. subst. cbn [Nat.add take drop app]. rewrite drop_0. split; [done|].
    clear IH. induction s as [|y s IH]; [apply not_elem_of_nil|]. cbn [rfind] in Ek. destruct (rfind c s); [done|].
    case_bool_decide; [done|]. apply not_elem_of_cons. split; [done|]. by apply IH.
Qed.

Lemma key_carries key body d s : strip_prefix key_prefix key = Some body -> rfind dot body = Some d ->
  b64url_decode (drop (d + 1) body) = Some s \/ base64url_decode (drop (d + 1) body) = Ok s ->
  carries key (take d body) s.
Proof.
  intros ->%strip_prefix_Some [Hb Hn]%rfind_split Hs. exists (drop (d + 1) body). split_and!; [by rewrite <-Hb|done|done].
Qed.

(** What rg-auth issues is no forgery, under any key. *)
Lemma issued_no_forgery p sig vk : no_forgery (fun q => q = p) vk (key_of (b64url_encode (payload_to_json p)) sig).
Proof.
  intros m s (enc & Hk & Hn & _) _. exists p. split; [|done]. unfold key_of in Hk. apply (inj (app key_prefix)) in Hk.
  pose proof (no_dot_crate sig) as Hn'. set (msg := b64url_encode (payload_to_json p)) in *.
  assert (rfind dot (msg ++ [dot] ++ b64url_encode sig) = Some (length msg)) as Hr by exact (rfind_app dot msg _ Hn').
  rewrite Hk, rfind_app in Hr by done. injection Hr as Hl. by apply app_inj_1 in Hk as [-> _].
Qed.

Lemma decode_issued p : (b64url_decode (b64url_encode (payload_to_json p)) ≫= payload_from_json) = Some p.
Proof. rewrite b64url_round_trip. apply payload_round_trip. Qed.

Lemma try_pubkeys_verified entries m sig tried : try_pubkeys entries m sig tried = Returns (Ok tt) ->
  exists e kb vk, e ∈ entries /\ base64url_decode e = Ok kb /\ vk_from_bytes kb = Some vk /\ verify vk m sig = true.
Proof.
  revert tried. induction entries as [|e entries IH]; intros tried; cbn [try_pubkeys]; [by case_if|].
  assert (forall t, try_pubkeys entries m sig t = Returns (Ok tt) ->
    exists e' kb vk, e' ∈ e :: entries /\ base64url_decode e' = Ok kb /\ vk_from_bytes kb = Some vk /\ verify vk m sig = true) as Hrec.
  { intros t Ht. destruct (IH t Ht) as (e' & kb & vk & Hin & Hrest). exists e', kb, vk. split; [by right|done]. }
  case_if; [done|]. destruct (base64url_decode e) as [kb|] eqn:Ed; [|apply Hrec].
  case_if; [apply Hrec|]. destruct (vk_from_bytes kb) as [vk|] eqn:Ek; [|apply Hrec].
  case_if; [|apply Hrec]. intros _. exists e, kb, vk. split; [left|done].
Qed.

Lemma verified_key_signed vk key p : verify_license_key key vk = Some p ->
  exists m s, carries key m s /\ verify vk m s = true /\ (b64url_decode m ≫= payload_from_json) = Some p.
Proof.
  unfold verify_license_key. destruct (strip_prefix key_prefix key) as [body|] eqn:Eb; cbn [mbind option_bind]; [|done].
  destruct (rfind dot body) as [d|] eqn:Er; cbn [mbind option_bind]; [|done].
  destruct (b64url_decode (drop (d + 1) body)) as [sb|] eqn:Es; cbn [mbind option_bind]; [|done].
  case_if; [done|]. destruct (verify vk (take d body) sb) eqn:Ev; cbn [negb]; [|done].
  intros Hp. exists (take d body), sb. split_and!; [by eapply key_carries; [..|left]|done|done].
Qed.

Lemma feed_key_signed vk t key v : validate_signed t key vk = Some v ->
  exists m s p, carries key m s /\ verify vk m s = true /\ (b64url_decode m ≫= payload_from_json) = Some p /\
    t <= LicensePayload.expires_at p /\ LicensePayload.tier p ∈ ALLOWED_TIERS /\
    v = ValidatedKey.mk (LicensePayload.org_id p) (LicensePayload.tier p).
Proof.
  unfold validate_signed. destruct (strip_prefix key_prefix key) as [body|] eqn:Eb; cbn [mbind option_bind]; [|done].
  destruct (rfind dot body) as [d|] eqn:Er; cbn [mbind option_bind]; [|done].
  destruct (b64url_decode (drop (d + 1) body)) as [sb|] eqn:Es; cbn [mbind option_bind]; [|done].
  case_if; [done|]. destruct (verify vk (take d body) sb) eqn:Ev; cbn [negb]; [|done].
  destruct (b64url_decode (take d body)) as [pb|] eqn:Ed; cbn [mbind option_bind]; [|done].
  destruct (payload_from_json pb) as [p|] eqn:Ep; cbn [mbind option_bind]; [|done].
  case_if; [done|]. z_bool. case_bool_decide as Ht; cbn [negb]; [|done]. intros Hv. apply (inj Some) in Hv as <-.
  exists (take d body), sb, p. rewrite Ed. split_and!; try done. by eapply key_carries; [..|left].
Qed.

Lemma desktop_key_signed dev pubkeys t key p : check_key dev pubkeys t key = Returns (Ok p) ->
  try_dev_passkey dev key = Some p \/
  t <= LicensePayload.expires_at p /\ exists m s pb e kb vk,
    e ∈ pubkey_entries pubkeys /\ base64url_decode e = Ok kb /\ vk_from_bytes kb = Some vk /\ carries key m s /\ verify vk m s = true /\
    base64url_decode m = Ok pb /\ payload_from_json pb = Some p.
Proof.
  unfold check_key. destruct (try_dev_passkey dev key) as [q|]; [intros [= ->]; by left|].
  destruct (parse_key key) as [q|] eqn:Eq; [|done]. unfold check_expiry. case_if; [done|]. z_bool.
  destruct (verify_signature pubkeys key) as [[u|]|] eqn:Es; [|done..]. intros [= ->]. right. split; [lia|].
  unfold parse_key in Eq. inv_ok. rename x into body, x0 into d, x1 into pb.
  assert (forall sb, base64url_decode (drop (d + 1) body) = Ok sb -> carries key (take d body) sb) as Hcar
    by (intros sb Hsb; by eapply key_carries; [..|right]).
  destruct (base64url_decode (take d body)) as [pb'|] eqn:Ed; [|done].
  match goal with Hm : map_err _ _ = Ok _ |- _ => injection Hm as -> end.
  revert Es. unfold verify_signature, verify_signature_with_pubkeys. destruct pubkeys as [|c pk]; [done|].
  repeat match goal with Hs : _ = Some _ |- _ => rewrite Hs; clear Hs end.
  destruct (base64url_decode (drop (d + 1) body)) as [sb|]; [|done]. case_if; [done|]. destruct u.
  intros (e & kb & vk & Hin & He & Hk & Hv)%try_pubkeys_verified. specialize (Hcar sb eq_refl).
  by exists (take d body), sb, pb, e, kb, vk.
Qed.

(** C23 No verifier accepts what rg-auth did not issue. Take a key string of any origin that is no forgery
    under the issuer's key and under the keys embedded in the desktop client: if the signature it carries
    verifies, the message it is on is that of an issued payload. When one of the three verifiers accepts
    the string, it carries an issued payload, and the two that check the clock accept it only until that
    payload expires; the feed server grants just the organisation and the paid tier that were issued.
    The only other way in is the developer's bypass of the desktop client. *)
Theorem only_issued_keys Issued vk dev pubkeys t key :
  no_forgery Issued vk key ->
  (forall e kb vk', e ∈ pubkey_entries pubkeys -> base64url_decode e = Ok kb -> vk_from_bytes kb = Some vk' ->
    no_forgery Issued vk' key) ->
  (forall p, verify_license_key key vk = Some p -> Issued p) /\
  (forall p, check_key dev pubkeys t key = Returns (Ok p) ->
    try_dev_passkey dev key = Some p \/ Issued p /\ t <= LicensePayload.expires_at p) /\
  (forall v, validate_feed_key (Some vk) t key = Some v -> exists p, Issued p /\ t <= LicensePayload.expires_at p /\
    LicensePayload.tier p ∈ ALLOWED_TIERS /\
    v = ValidatedKey.mk (LicensePayload.org_id p) (LicensePayload.tier p)).
Proof.
  intros Hu Hus. split_and!.
  - intros p (m & s & Hc & Hv & Hp)%verified_key_signed. destruct (Hu m s Hc Hv) as (q & -> & Hq).
    rewrite decode_issued in Hp. by apply (inj Some) in Hp as <-.
  - intros p [Hd|[Ht (m & s & pb & e & kb & vk' & He & Hk & Hvk & Hc & Hv & Hm & Hp)]]%desktop_key_signed; [by left|].
    right. split; [|done]. destruct (Hus e kb vk' He Hk Hvk m s Hc Hv) as (q & -> & Hq).
    rewrite desktop_decodes_crate in Hm. injection Hm as <-. rewrite payload_round_trip in Hp.
    by apply (inj Some) in Hp as <-.
  - intros v Hval. unfold validate_feed_key in Hval. destruct key; [done|]. cbn [mbind option_bind] in Hval.
    destruct (feed_key_signed _ _ _ _ Hval) as (m & s & p & Hc & Hv & Hp & Ht & Htier & ->).
    destruct (Hu m s Hc Hv) as (q & -> & Hq). rewrite decode_issued in Hp. apply (inj Some) in Hp as <-. by exists q.
Qed.
End Licensing.

(** ** A sample issuer *)

Module LicenseSample.
Import LicensePayload.

#[local] Instance payload_countable : Countable LicensePayload.t.
Proof.
  refine (inj_countable' (fun p => (org_id p, tier p, (issued_at p, expires_at p, features p)))
    (fun '(o, t, (i, e, f)) => mk o t i e f) _). by intros [].
Defined.

(** Any text that determines the payload does for JSON: the bytes of its number. *)
Definition bits_of (p : positive) : bytes := le_bytes (S (Pos.size_nat p / 8)) (Z.pos p).
Definition of_bits (b : bytes) : positive := Z.to_pos (from_le_bytes b).
Lemma pos_size_bound p : Z.pos p < 2 ^ Z.of_nat (Pos.size_nat p).
Proof.
  induction p as [p IH|p IH|]; cbn [Pos.size_nat]; [..|reflexivity];
    rewrite Nat2Z.inj_succ, Z.pow_succ_r by lia; lia.
Qed.
Lemma of_bits_of p : of_bits (bits_of p) = p.
Proof.
  unfold of_bits, bits_of. rewrite from_to_le_bytes, Z.mod_small; [done|]. split; [lia|].
  pose proof (pos_size_bound p) as Hp. pose proof (Nat.div_mod (Pos.size_nat p) 8 ltac:(lia)) as Hd.
  pose proof (Nat.mod_upper_bound (Pos.size_nat p) 8 ltac:(lia)) as Hm.
  change 256 with (2 ^ 8). rewrite <-Z.pow_mul_r by lia.
  eapply Z.lt_le_trans; [exact Hp|]. apply Z.pow_le_mono_r; lia.
Qed.

Definition json : LicenseJson := {|
  payload_to_json p := bits_of (encode p);
  payload_from_json b := decode (of_bits b) |}.
Lemma json_laws : @LicenseJsonLaws json.
Proof. split. intros p. cbn [payload_to_json payload_from_json json]. rewrite of_bits_of. apply decode_encode. Qed.

Definition base64 : Base64Crate := {|
  b64url_encode := rfc4648_encode;
  b64url_decode b := match base64url_decode b with Ok r => Some r | Err _ => None end |}.
Lemma base64_laws : @Base64Laws base64.
Proof.
  split; intros b; [done|]. cbn [b64url_decode b64url_encode base64]. by rewrite base64url_decode_encode.
Qed.

(** Not a signature: 64 bytes of the key and the message. *)
Definition tag (vk m : bytes) : bytes := take 64 (vk ++ m ++ replicate 64 x00).
Definition public (sk : bytes) : bytes := take 32 (sk ++ replicate 32 x00).
Definition ed25519 : Ed25519Crate := {|
  SigningKey := bytes; VerifyingKey := bytes; sk_from_bytes b := b; verifying_key := public;
  vk_from_bytes b := Some b; vk_to_bytes vk := vk;
  sign sk m := tag (public sk) m; verify vk m s := bool_decide (s = tag vk m) |}.
Lemma length_tag vk m : length (tag vk m) = 64%nat.
Proof. unfold tag. rewrite length_take, !length_app, length_replicate. lia. Qed.
Lemma ed25519_laws : @Ed25519Laws ed25519.
Proof.
  split; cbn.
  - intros sk m. apply length_tag.
  - intros sk m. by apply bool_decide_true.
  - intros sk. unfold public. rewrite length_take, length_app, length_replicate. unfold PUBLIC_KEY_LENGTH. lia.
  - done.
Qed.

Definition payload : LicensePayload.t := mk "acme" "observe_paid" 1000 (1000 + DEFAULT_LICENSE_DURATION_SECS) ["exporter"%string].
Definition seed : bytes := lit "0123456789abcdef0123456789abcdef".
Definition embedded : bytes := lit "bad*entry, " ++ rfc4648_encode seed.
Definition issued : bytes :=
  @sign_license_key base64 json ed25519 1000 seed "acme" "observe_paid" ["exporter"%string].
Definition now_valid : Z := 1000 + DEFAULT_LICENSE_DURATION_SECS.
End LicenseSample.

(** The sample key on its last second and one second later, and as the only key issued. *)
Module LicenseWitness.
#[local] Existing Instances LicenseSample.base64 LicenseSample.json Sha256Sample.crate.
#[local] Existing Instances LicenseSample.base64_laws LicenseSample.json_laws.

Lemma issued_key_honoured_witness : let _ := LicenseSample.ed25519 in
  check_key None LicenseSample.embedded LicenseSample.now_valid LicenseSample.issued
    = Returns (Ok LicenseSample.payload) /\
  check_key None LicenseSample.embedded (LicenseSample.now_valid + 1) LicenseSample.issued
    = Returns (Err (Expired LicenseSample.now_valid)).
Proof.
  intros crate.
  pose proof (fun t => issued_key_honoured (H4 := LicenseSample.ed25519_laws) 1000 t LicenseSample.seed "acme"
    "observe_paid" ["exporter"%string] DEFAULT_LICENSE_DURATION_SECS None LicenseSample.embedded
    ltac:(apply (bool_decide_unpack _); vm_compute; exact I) ltac:(apply (bool_decide_unpack _); vm_compute; exact I) eq_refl) as Hw.
  split; [exact (proj1 (proj2 (Hw LicenseSample.now_valid)))|
          exact (proj1 (proj2 (Hw (LicenseSample.now_valid + 1))))].
Defined.

Lemma only_issued_keys_witness : let _ := LicenseSample.ed25519 in
  verify_license_key LicenseSample.issued LicenseSample.seed = Some LicenseSample.payload /\
  forall p, verify_license_key LicenseSample.issued LicenseSample.seed = Some p -> p = LicenseSample.payload.
Proof.
  intros crate. split; [vm_compute; reflexivity|].
  assert (forall vk, no_forgery (H3 := LicenseSample.ed25519) (fun p => p = LicenseSample.payload) vk LicenseSample.issued) as Hu.
  { intros vk. exact (issued_no_forgery LicenseSample.payload
      (LicenseSample.tag (LicenseSample.public LicenseSample.seed) (b64url_encode (payload_to_json LicenseSample.payload))) vk). }
  apply (only_issued_keys (H3 := LicenseSample.ed25519) (fun p => p = LicenseSample.payload) LicenseSample.seed None
    LicenseSample.embedded 1000 LicenseSample.issued (Hu _) (fun _ _ vk _ _ _ => Hu vk)).
Defined.
End LicenseWitness.
