(* ===== verification/Desktop.v ===== *)
(** * The desktop client's configuration file

    Models [services/rg-desktop/src/config.rs] (defaults, search for the file, environment overrides,
    saving and clearing the license key) and the license commands of
    [services/rg-desktop/src/license.rs] that write it. A file is its bytes under its path; a file
    that cannot be read holds none. Texts are UTF-8 bytes. The TOML crate is a class: a document is
    parsed to its table, a table is printed to a document, and what was printed parses back. *)

From stdpp Require Import pretty.
From S2P Require Import Prelude Crates License.

(** ** TOML *)

Inductive toml_value : Type :=
| TomlString (s : bytes)
| TomlArray (l : list toml_value)
| TomlTable (t : list (string * toml_value))
| TomlOther (text : bytes).

Abbreviation toml_table := (gmap string toml_value).

Class TomlCrate : Type := {
  toml_parse : bytes -> option toml_table;
  toml_to_string_pretty : toml_table -> option bytes
}.
Class TomlLaws `{TomlCrate} : Prop := {
  toml_round_trip t b : toml_to_string_pretty t = Some b -> toml_parse b = Some t
}.

(** ** The configuration *)

Module HealthProbe.
Record t : Type := mk { name : bytes; url : bytes }.
End HealthProbe.

Module DesktopConfig.
Record t : Type := mk {
  verifier_url : bytes; template_url : bytes; gateway_url : option bytes; feed_adapter_url : option bytes;
  license_key : option bytes; health_probes : list HealthProbe.t }.

Definition default_verifier_url : bytes := lit "http://127.0.0.1:8081".
Definition default_template_url : bytes := lit "http://127.0.0.1:8082".
Definition default_gateway_url : bytes := lit "http://127.0.0.1:8080".

Definition default_config : t :=
  mk default_verifier_url default_template_url (Some default_gateway_url) None None [].

Definition with_license_key (key : option bytes) (c : t) : t :=
  mk (verifier_url c) (template_url c) (gateway_url c) (feed_adapter_url c) key (health_probes c).
End DesktopConfig.

Inductive ConfigError : Type := IoError (path : string) | ParseError (path : string) | SerializeError (path : string).

(** ** Deserialisation: absent fields take their default, a field of another type is an error *)

Definition as_text (v : toml_value) : option bytes := match v with TomlString s => Some s | _ => None end.

Definition text_field (t : toml_table) (key : string) (dflt : bytes) : option bytes :=
  match t !! key with None => Some dflt | Some v => as_text v end.
Definition optional_field (t : toml_table) (key : string) (dflt : option bytes) : option (option bytes) :=
  match t !! key with None => Some dflt | Some v => Some <$> as_text v end.

Fixpoint assoc (key : string) (l : list (string * toml_value)) : option toml_value :=
  match l with
  | [] => None
  | (k, v) :: l => if bool_decide (k = key) then Some v else assoc key l
  end.
Definition probe_of (v : toml_value) : option HealthProbe.t :=
  match v with
  | TomlTable l => name ← assoc "name" l ≫= as_text; url ← assoc "url" l ≫= as_text; Some (HealthProbe.mk name url)
  | _ => None
  end.
Definition probes_field (t : toml_table) : option (list HealthProbe.t) :=
  match t !! "health_probes"%string with
  | None => Some []
  | Some (TomlArray l) => mapM probe_of l
  | Some _ => None
  end.

Definition config_of_table (t : toml_table) : option DesktopConfig.t :=
  verifier_url ← text_field t "verifier_url" DesktopConfig.default_verifier_url;
  template_url ← text_field t "template_url" DesktopConfig.default_template_url;
  gateway_url ← optional_field t "gateway_url" (Some DesktopConfig.default_gateway_url);
  feed_adapter_url ← optional_field t "feed_adapter_url" None;
  license_key ← optional_field t "license_key" None;
  health_probes ← probes_field t;
  Some (DesktopConfig.mk verifier_url template_url gateway_url feed_adapter_url license_key health_probes).

(** ** Paths, environment and disk *)

Module DesktopEnv.
Record t : Type := mk {
  desktop_config : option string;   (* VELDRA_DESKTOP_CONFIG *)
  config_dir : option string; home_dir : option string;
  env_verifier_url : option bytes; env_template_url : option bytes; env_gateway_url : option bytes;
  env_feed_adapter_url : option bytes; env_license_key : option bytes }.
End DesktopEnv.
Import DesktopEnv.

(** A path that exists; [None] when its contents cannot be read. *)
Abbreviation disk := (gmap string (option bytes)).

Definition exists_path (d : disk) (p : string) : bool := bool_decide (is_Some (d !! p)).
Definition config_file (dir : string) : string := dir +:+ "/reservegrid/desktop.toml".
Definition fallback_file (home : string) : string := home +:+ "/.config/reservegrid/desktop.toml".

(** [Some p] if the optional path is there and exists. *)
Definition existing (d : disk) (p : option string) : option string :=
  match p with Some p => if exists_path d p then Some p else None | None => None end.

Definition find_config_path (e : DesktopEnv.t) (d : disk) : option string :=
  match existing d (desktop_config e) with
  | Some p => Some p
  | None =>
      match existing d (config_file <$> config_dir e) with
      | Some p => Some p
      | None => existing d (fallback_file <$> home_dir e)
      end
  end.

Definition writable_config_path (e : DesktopEnv.t) : result string ConfigError :=
  match desktop_config e with
  | Some p => Ok p
  | None => let? dir := ok_or (config_dir e) (IoError "(config dir)") in Ok (config_file dir)
  end.

Section Config.
Context `{TomlCrate}.

(** [read_to_string] and the two parses. *)
Definition read_file (d : disk) (p : string) : result bytes ConfigError :=
  ok_or (match d !! p with Some (Some b) => Some b | _ => None end) (IoError p).
Definition read_table (d : disk) (p : string) : result toml_table ConfigError :=
  let? contents := read_file d p in ok_or (toml_parse contents) (ParseError p).

Definition override {A} (v : option A) (old : A) : A := match v with Some v => v | None => old end.

Definition load_config (e : DesktopEnv.t) (d : disk) : result DesktopConfig.t ConfigError :=
  let? cfg :=
    match find_config_path e d with
    | Some p => let? t := read_table d p in ok_or (config_of_table t) (ParseError p)
    | None => Ok DesktopConfig.default_config
    end in
  Ok (DesktopConfig.mk
    (override (env_verifier_url e) (DesktopConfig.verifier_url cfg))
    (override (env_template_url e) (DesktopConfig.template_url cfg))
    (override (Some <$> env_gateway_url e) (DesktopConfig.gateway_url cfg))
    (override (Some <$> env_feed_adapter_url e) (DesktopConfig.feed_adapter_url cfg))
    (override (Some <$> env_license_key e) (DesktopConfig.license_key cfg))
    (DesktopConfig.health_probes cfg)).

(** Print the table and write it: the directory and the write can each fail. *)
Definition write_table (p : string) (t : toml_table) (mkdir_ok write_ok : bool) (d : disk)
    : result unit ConfigError * disk :=
  match toml_to_string_pretty t with
  | None => (Err (SerializeError p), d)
  | Some output =>
      if negb mkdir_ok then (Err (IoError p), d)
      else if negb write_ok then (Err (IoError p), d)
      else (Ok tt, <[p := Some output]> d)
  end.

Definition save_license_key (e : DesktopEnv.t) (key : bytes) (mkdir_ok write_ok : bool) (d : disk)
    : result unit ConfigError * disk :=
  match writable_config_path e with
  | Err err => (Err err, d)
  | Ok p =>
      match (if exists_path d p then read_table d p else Ok ∅) with
      | Err err => (Err err, d)
      | Ok t => write_table p (<["license_key"%string := TomlString key]> t) mkdir_ok write_ok d
      end
  end.

Definition clear_license_key (e : DesktopEnv.t) (write_ok : bool) (d : disk) : result unit ConfigError * disk :=
  match writable_config_path e with
  | Err err => (Err err, d)
  | Ok p =>
      if negb (exists_path d p) then (Ok tt, d)
      else match read_table d p with
           | Err err => (Err err, d)
           | Ok t => write_table p (delete "license_key"%string t) true write_ok d
           end
  end.
End Config.

(** ** The commands of the onboarding page *)

Section Commands.
Context `{TomlCrate} `{Base64Crate} `{LicenseJson} `{Ed25519Crate} `{Sha256Crate}.
Context (dev_passkey_hash : option bytes) (pubkeys_b64 : bytes) (e : DesktopEnv.t).

(** The tier or the message; a failed save is only logged. *)
Definition set_license_key (now : Z) (key : bytes) (mkdir_ok write_ok : bool) (info : LicenseInfo.t) (d : disk)
    : checked (result (option string) string) * LicenseInfo.t * disk :=
  match validate_and_store dev_passkey_hash pubkeys_b64 now key info with
  | (Panics, info) => (Panics, info, d)
  | (Returns (Err err), info) => (Returns (Err (ipc_error err)), info, d)
  | (Returns (Ok _), info) =>
      let '(_, d) := save_license_key e key mkdir_ok write_ok d in
      (Returns (Ok (stored_tier info)), info, d)
  end.

Definition clear_license (write_ok : bool) (info : LicenseInfo.t) (d : disk) : LicenseInfo.t * disk :=
  (clear_stored info, (clear_license_key e write_ok d).2).

(** A start of the program: load the configuration, then the license it names. *)
Definition start (now : Z) (d : disk) : checked (result (DesktopConfig.t * LicenseInfo.t) ConfigError) :=
  match load_config e d with
  | Err err => Returns (Err err)
  | Ok cfg =>
      match load_from_config dev_passkey_hash pubkeys_b64 now (DesktopConfig.license_key cfg) with
      | Panics => Panics
      | Returns info => Returns (Ok (cfg, info))
      end
  end.
End Commands.

(** * Properties *)

Lemma config_of_empty : config_of_table ∅ = Some DesktopConfig.default_config.
Proof. reflexivity. Qed.

(** Writing the license key touches no other field. *)
Lemma config_of_insert_key t c key : config_of_table t = Some c ->
  config_of_table (<["license_key"%string := TomlString key]> t) = Some (DesktopConfig.with_license_key (Some key) c).
Proof.
  unfold config_of_table, text_field, optional_field, probes_field.
  rewrite (lookup_insert_ne t "license_key"%string "verifier_url"%string), (lookup_insert_ne t "license_key"%string "template_url"%string), (lookup_insert_ne t "license_key"%string "gateway_url"%string), (lookup_insert_ne t "license_key"%string "feed_adapter_url"%string), (lookup_insert_ne t "license_key"%string "health_probes"%string) by done.
  rewrite lookup_insert_eq. cbn [as_text fmap option_fmap option_map].
  repeat match goal with |- ?a ≫= _ = Some _ -> _ => destruct a; cbn [mbind option_bind]; [|done] end.
  intros Hc. by apply (inj Some) in Hc as <-.
Qed.

Lemma config_of_delete_key t c : config_of_table t = Some c ->
  config_of_table (delete "license_key"%string t) = Some (DesktopConfig.with_license_key None c).
Proof.
  unfold config_of_table, text_field, optional_field, probes_field.
  rewrite (lookup_delete_ne t "license_key"%string "verifier_url"%string), (lookup_delete_ne t "license_key"%string "template_url"%string), (lookup_delete_ne t "license_key"%string "gateway_url"%string), (lookup_delete_ne t "license_key"%string "feed_adapter_url"%string), (lookup_delete_ne t "license_key"%string "health_probes"%string) by done.
  rewrite lookup_delete_eq.
  repeat match goal with |- ?a ≫= _ = Some _ -> _ => destruct a; cbn [mbind option_bind]; [|done] end.
  intros Hc. by apply (inj Some) in Hc as <-.
Qed.

Lemma existing_insert d p x : existing (<[p := x]> d) (Some p) = Some p.
Proof. unfold existing, exists_path. by rewrite lookup_insert_eq. Qed.

(** What is written where the client writes is what it finds next. *)
Lemma find_after_write e d p x : writable_config_path e = Ok p -> find_config_path e (<[p := x]> d) = Some p.
Proof.
  unfold writable_config_path, find_config_path. destruct (desktop_config e) as [q|].
  - intros [= ->]. by rewrite existing_insert.
  - cbn [existing]. destruct (config_dir e) as [dir|]; [|done]. cbn [ok_or result_bind fmap option_fmap option_map].
    intros [= <-]. by rewrite existing_insert.
Qed.

Section Persistence.
Context `{TomlLaws} `{Base64Crate} `{LicenseJson} `{Ed25519Crate} `{Sha256Crate}.

(** The configuration before the overrides of the environment. *)
Definition file_config (e : DesktopEnv.t) (d : disk) : result DesktopConfig.t ConfigError :=
  match find_config_path e d with
  | Some p => let? t := read_table d p in ok_or (config_of_table t) (ParseError p)
  | None => Ok DesktopConfig.default_config
  end.

(** The file the configuration came from is the one that is written. *)
Definition same_file (e : DesktopEnv.t) (d : disk) : Prop :=
  find_config_path e d = None \/ exists p, find_config_path e d = Some p /\ writable_config_path e = Ok p.

Lemma not_found_not_there e d p : find_config_path e d = None -> writable_config_path e = Ok p -> exists_path d p = false.
Proof.
  unfold find_config_path, writable_config_path. destruct (desktop_config e) as [q|]; cbn [existing].
  - intros Hf [= ->]. destruct (exists_path d p); done.
  - destruct (config_dir e) as [dir|]; [|done]. cbn [fmap option_fmap option_map existing ok_or result_bind].
    intros Hf [= <-]. destruct (exists_path d (config_file dir)); done.
Qed.

Lemma found_exists e d p : find_config_path e d = Some p -> exists_path d p = true.
Proof.
  unfold find_config_path. assert (forall o q, existing d o = Some q -> exists_path d q = true) as He.
  { intros [r|] q; cbn [existing]; [|done]. destruct (exists_path d r) eqn:E; [|done]. by intros [= <-]. }
  destruct (existing d (desktop_config e)) eqn:E1; [intros [= <-]; eauto|].
  destruct (existing d (config_file <$> config_dir e)) eqn:E2; [intros [= <-]; eauto|eauto].
Qed.

Lemma write_table_ok p t mk wr d : (write_table p t mk wr d).1 = Ok tt ->
  exists out, toml_to_string_pretty t = Some out /\ (write_table p t mk wr d).2 = <[p := Some out]> d.
Proof. unfold write_table. destruct (toml_to_string_pretty t) as [out|]; [|done]. destruct mk, wr; eauto || done. Qed.

Lemma file_config_written e d p t out c : writable_config_path e = Ok p -> toml_to_string_pretty t = Some out ->
  config_of_table t = Some c -> file_config e (<[p := Some out]> d) = Ok c.
Proof.
  intros Hw Hp Hc. unfold file_config. rewrite (find_after_write e d p _ Hw). unfold read_table, read_file.
  rewrite lookup_insert_eq. cbn [ok_or result_bind]. rewrite (toml_round_trip t out Hp). cbn [ok_or result_bind].
  by rewrite Hc.
Qed.

Lemma save_keeps_config e key mk wr d c : same_file e d -> file_config e d = Ok c ->
  (save_license_key e key mk wr d).1 = Ok tt ->
  file_config e (save_license_key e key mk wr d).2 = Ok (DesktopConfig.with_license_key (Some key) c).
Proof.
  intros Hs Hf. unfold save_license_key. destruct (writable_config_path e) as [p|] eqn:Hw; [|done].
  assert (exists t, (if exists_path d p then read_table d p else Ok ∅) = Ok t /\ config_of_table t = Some c) as (t & -> & Ht).
  { revert Hf. unfold file_config. destruct Hs as [Hn|(q & Hq & Heq)].
    - rewrite Hn, (not_found_not_there e d p Hn Hw). intros [= <-]. exists ∅. split; [done|apply config_of_empty].
    - rewrite Hw in Heq. injection Heq as <-. rewrite Hq, (found_exists e d p Hq). destruct (read_table d p) as [t|]; cbn [result_bind]; [|done].
      rewrite ok_or_ok. by exists t. }
  intros (out & Hp & ->)%write_table_ok. eapply file_config_written; [done..|]. by apply config_of_insert_key.
Qed.

Lemma load_config_file e d : load_config e d =
  (let? cfg := file_config e d in load_config e d).
Proof. unfold load_config, file_config. by destruct (match find_config_path e d with Some _ => _ | None => _ end). Qed.

Lemma load_with_key e d d' c key : env_license_key e = None -> file_config e d = Ok c ->
  file_config e d' = Ok (DesktopConfig.with_license_key key c) -> forall cfg, load_config e d = Ok cfg ->
  load_config e d' = Ok (DesktopConfig.with_license_key key cfg).
Proof.
  unfold file_config, load_config. intros Hn -> -> cfg. cbn [result_bind]. rewrite Hn. intros [= <-]. done.
Qed.

(** A key that was accepted is accepted again until its payload expires. *)
Lemma check_key_later dev pubkeys now t key p : check_key dev pubkeys now key = Returns (Ok p) ->
  check_key dev pubkeys t key = Returns (Ok p) \/
  check_key dev pubkeys t key = Returns (Err (Expired (LicensePayload.expires_at p))) /\ LicensePayload.expires_at p < t.
Proof.
  unfold check_key. destruct (try_dev_passkey dev key); [by left|]. destruct (parse_key key) as [q|]; [|done].
  unfold check_expiry at 1. case_if; [done|]. destruct (verify_signature pubkeys key) as [[u|]|]; [|done..].
  intros [= ->]. unfold check_expiry. case_if; [right|by left]. z_bool. done.
Qed.

Lemma restart_same_validity dev pubkeys now t key info info' :
  validate_and_store dev pubkeys now key info = (Returns (Ok tt), info') ->
  exists info'', load_from_config dev pubkeys t (Some key) = Returns info'' /\ is_valid t info'' = is_valid t info'.
Proof.
  unfold validate_and_store at 1. destruct (check_key dev pubkeys now key) as [[p|]|] eqn:Ec; [|done..].
  case_if; [done|]. cbn [LicenseInfo.payload_poisoned]. case_if; [done|]. intros [= <-].
  unfold load_from_config, validate_and_store. destruct (check_key_later _ _ _ t _ _ Ec) as [->|[-> Ht]].
  - cbn. eauto.
  - eexists. split; [done|]. unfold is_valid, LicenseInfo.empty. cbn. symmetry. apply Z.leb_gt. lia.
Qed.

(** Entering a license key survives a restart. When the onboarding command accepted a key and
    wrote it, and the configuration had come from the file that is written (or from no file), the
    next start of the client reads the same configuration with that key in it, every other setting as
    it was, and at any later time the license is valid after the restart exactly when it would be
    without one. *)
Theorem license_survives_restart dev pubkeys e now key mk wr info d tier info' d' cfg t :
  set_license_key dev pubkeys e now key mk wr info d = (Returns (Ok tier), info', d') ->
  (save_license_key e key mk wr d).1 = Ok tt -> same_file e d ->
  env_license_key e = None -> load_config e d = Ok cfg ->
  exists info'', start dev pubkeys e t d' = Returns (Ok (DesktopConfig.with_license_key (Some key) cfg, info'')) /\
    is_valid t info'' = is_valid t info'.
Proof.
  unfold set_license_key. destruct (validate_and_store dev pubkeys now key info) as [[[[]|]|] i] eqn:Ev; [|done..].
  destruct (save_license_key e key mk wr d) as [r d1] eqn:Es. intros [= _ -> ->] Hr Hs Hn Hl.
  destruct (file_config e d) as [c|] eqn:Hf; [|by rewrite load_config_file, Hf in Hl].
  pose proof (save_keeps_config e key mk wr d c Hs Hf) as Hk. rewrite Es in Hk. specialize (Hk Hr).
  pose proof (load_with_key e d d' c (Some key) Hn Hf Hk cfg Hl) as Hload.
  destruct (restart_same_validity _ _ _ t _ _ _ Ev) as (info'' & Hi & Hv).
  exists info''. unfold start. rewrite Hload. cbn [DesktopConfig.license_key DesktopConfig.with_license_key].
  by rewrite Hi.
Qed.

(** Saving a key hides a configuration that was found in the home directory: the file that is written
    is new, holds the key alone, and is found first from then on, so that every other setting is back
    at its default. *)
Theorem save_hides_fallback e key mk wr d dir : desktop_config e = None -> config_dir e = Some dir ->
  exists_path d (config_file dir) = false -> (save_license_key e key mk wr d).1 = Ok tt ->
  file_config e (save_license_key e key mk wr d).2
    = Ok (DesktopConfig.with_license_key (Some key) DesktopConfig.default_config).
Proof.
  intros Hd Hc Hx. unfold save_license_key.
  assert (writable_config_path e = Ok (config_file dir)) as Hw by (unfold writable_config_path; by rewrite Hd, Hc).
  rewrite Hw, Hx. intros (out & Hp & ->)%write_table_ok. eapply file_config_written; [done..|].
  apply config_of_insert_key, config_of_empty.
Qed.
End Persistence.

(** ** A sample desktop *)

Module DesktopSample.
(** Documents of text fields only. *)
Definition text_entry (kv : string * toml_value) : option (string * bytes) := s ← as_text kv.2; Some (kv.1, s).
(** A text with each byte marked, then its end. *)
Fixpoint put_text (s : bytes) : bytes := match s with [] => [x00] | c :: s => x01 :: c :: put_text s end.
Fixpoint get_text (b : bytes) : option (bytes * bytes) :=
  match b with
  | x00 :: b => Some ([], b)
  | x01 :: c :: b => '(s, b) ← get_text b; Some (c :: s, b)
  | _ => None
  end.
Fixpoint put_entries (l : list (string * bytes)) : bytes :=
  match l with [] => [] | (k, s) :: l => put_text (lit k) ++ put_text s ++ put_entries l end.
Fixpoint get_entries (fuel : nat) (b : bytes) : option (list (string * bytes)) :=
  match fuel, b with
  | _, [] => Some []
  | O, _ => None
  | S fuel, _ => '(k, b) ← get_text b; '(s, b) ← get_text b; l ← get_entries fuel b;
                 Some ((String.string_of_list_byte k, s) :: l)
  end.
Definition crate : TomlCrate := {|
  toml_parse b := l ← get_entries (length b) b; Some (list_to_map (prod_map id TomlString <$> l));
  toml_to_string_pretty t := l ← mapM text_entry (map_to_list t); Some (put_entries l) |}.

Lemma get_put_text s b : get_text (put_text s ++ b) = Some (s, b).
Proof. induction s as [|c s IH]; [done|]. cbn [put_text app get_text]. by rewrite IH. Qed.
Lemma get_put_entries l fuel : (length (put_entries l) <= fuel)%nat -> get_entries fuel (put_entries l) = Some l.
Proof.
  revert fuel. induction l as [|[k s] l IH]; intros fuel Hf; [by destruct fuel|]. cbn [put_entries] in *.
  rewrite !length_app in Hf. assert (1 <= length (put_text (lit k)))%nat by (destruct (lit k); cbn; lia).
  destruct fuel as [|fuel]; [lia|]. destruct (put_text (lit k)) as [|c r] eqn:Ek; [cbn in *; lia|].
  cbn [app get_entries]. change (c :: (r ++ put_text s ++ put_entries l)) with ((c :: r) ++ put_text s ++ put_entries l).
  rewrite <-Ek, get_put_text. cbn [mbind option_bind]. rewrite get_put_text. cbn [mbind option_bind].
  rewrite IH by lia. cbn [mbind option_bind]. unfold lit. by rewrite String.string_of_list_byte_of_string.
Qed.

Lemma text_entries l l' : mapM text_entry l = Some l' -> prod_map id TomlString <$> l' = l.
Proof.
  revert l'. induction l as [|[k v] l IH]; intros l' Hl.
  - cbn in Hl. by apply (inj Some) in Hl as <-.
  - apply mapM_Some in Hl. inversion Hl as [|? [k' s] ? l'' Hh Ht]; subst. cbn [fmap list_fmap].
    rewrite (IH l'' (proj2 (mapM_Some _ _ _) Ht)). f_equal. unfold text_entry in Hh. cbn [fst snd] in Hh.
    destruct v; cbn in Hh; try done. by injection Hh as <- <-.
Qed.

Lemma crate_laws : @TomlLaws crate.
Proof.
  split. intros t b Hb. cbn [toml_to_string_pretty crate] in Hb.
  destruct (mapM text_entry (map_to_list t)) as [l|] eqn:El; [|done]. cbn [mbind option_bind] in Hb.
  apply (inj Some) in Hb as <-. cbn [toml_parse crate]. rewrite get_put_entries by done.
  cbn [mbind option_bind]. rewrite (text_entries _ _ El). by rewrite list_to_map_to_list.
Qed.

Definition env : DesktopEnv.t :=
  DesktopEnv.mk None (Some "/cfg"%string) (Some "/home"%string) None None None None None.
Definition pool : bytes := lit "http://pool".
Definition document (t : toml_table) : option bytes := @toml_to_string_pretty crate t.
Definition settings : toml_table := {[ "verifier_url"%string := TomlString pool ]}.
(** The settings under the configuration directory, or only in the home directory. *)
Definition disk_config : disk := {[ config_file "/cfg" := document settings ]}.
Definition disk_home : disk := {[ fallback_file "/home" := document settings ]}.
End DesktopSample.

Module DesktopWitness.
#[local] Existing Instances DesktopSample.crate DesktopSample.crate_laws.
#[local] Existing Instances LicenseSample.base64 LicenseSample.json LicenseSample.ed25519 Sha256Sample.crate.

Lemma license_survives_restart_witness : let e := DesktopSample.env in
  let cfg := DesktopConfig.mk DesktopSample.pool DesktopConfig.default_template_url
    (Some DesktopConfig.default_gateway_url) None (Some LicenseSample.issued) [] in
  exists info'', start None LicenseSample.embedded e 2000
    (set_license_key None LicenseSample.embedded e 1000 LicenseSample.issued true true LicenseInfo.empty
      DesktopSample.disk_config).2 = Returns (Ok (cfg, info'')) /\ is_valid 2000 info'' = true.
Proof.
  intros e cfg.
  refine (license_survives_restart None LicenseSample.embedded e 1000 LicenseSample.issued true true LicenseInfo.empty
    DesktopSample.disk_config (Some "observe_paid"%string)
    (LicenseInfo.mk (Some LicenseSample.issued) (Some LicenseSample.payload) false false) _
    (DesktopConfig.with_license_key None cfg) 2000 _ _ _ _ _).
  - vm_compute. reflexivity.
  - vm_compute. reflexivity.
  - right. exists (config_file "/cfg"). split; vm_compute; reflexivity.
  - reflexivity.
  - vm_compute. reflexivity.
Defined.

Lemma save_hides_fallback_witness : let e := DesktopSample.env in
  DesktopConfig.verifier_url <$> (match file_config e DesktopSample.disk_home with Ok c => Some c | Err _ => None end)
    = Some DesktopSample.pool /\
  file_config e (save_license_key e LicenseSample.issued true true DesktopSample.disk_home).2
    = Ok (DesktopConfig.with_license_key (Some LicenseSample.issued) DesktopConfig.default_config).
Proof.
  intros e. split; [vm_compute; reflexivity|].
  apply (save_hides_fallback e LicenseSample.issued true true DesktopSample.disk_home "/cfg"); vm_compute; reflexivity.
Defined.
End DesktopWitness.
