(* ===== verification/AuthDb.v ===== *)
(** * The account database

    Models [services/rg-auth/src/db.rs]: the tables of the SQLite database and every statement the
    service runs on it. A table is a list in rowid order, or a map where a text is its primary key.
    A constraint that a statement violates is an error, and so is a failure of the storage below,
    which an arbitrary list of outcomes decides, one per statement. Times are seconds; a date past
    the year 9999 is [NULL], and a comparison with [NULL] does not hold. *)

From S2P Require Import Prelude.

(** ** Rows *)

Module status.
Definition PENDING_VERIFICATION : string := "pending_verification".
Definition PENDING_APPROVAL : string := "pending_approval".
Definition APPROVED : string := "approved".
Definition DENIED : string := "denied".
End status.

Module tier.
Definition SHADOW : string := "shadow".
Definition OBSERVE_PAID : string := "observe_paid".
Definition INLINE_LICENSED : string := "inline_licensed".
End tier.

Module key_status.
Definition ACTIVE : string := "active".
Definition REVOKED : string := "revoked".
End key_status.

Module User.
Record t : Type := mk {
  id : Z; email : string; name : string; org : string; password : string; status : string; tier : string;
  stripe_customer_id : option string; created_at : Z; verified_at : option Z; approved_at : option Z }.
Definition with_status (s : string) (verified approved : option Z) (u : t) : t :=
  mk (id u) (email u) (name u) (org u) (password u) s (tier u) (stripe_customer_id u) (created_at u) verified approved.
Definition with_password (h : string) (u : t) : t :=
  mk (id u) (email u) (name u) (org u) h (status u) (tier u) (stripe_customer_id u) (created_at u)
    (verified_at u) (approved_at u).
Definition with_tier (x : string) (u : t) : t :=
  mk (id u) (email u) (name u) (org u) (password u) (status u) x (stripe_customer_id u) (created_at u)
    (verified_at u) (approved_at u).
Definition with_stripe (x : string) (u : t) : t :=
  mk (id u) (email u) (name u) (org u) (password u) (status u) (tier u) (Some x) (created_at u)
    (verified_at u) (approved_at u).
End User.

Module SessionRow.
Record t : Type := mk { user_id : Z; created_at : Z; expires_at : Z }.
End SessionRow.

Module EmailToken.
Record t : Type := mk { user_id : Z; kind : string; created_at : Z; used : bool }.
Definition mark_used (r : t) : t := mk (user_id r) (kind r) (created_at r) true.
End EmailToken.

Module LicenseKey.
Record t : Type := mk {
  id : Z; user_id : Z; key_value : bytes; label : bytes; status : string; created_at : Z; revoked_at : option Z }.
Definition revoke (now : Z) (k : t) : t :=
  mk (id k) (user_id k) (key_value k) (label k) key_status.REVOKED (created_at k) (Some now).
End LicenseKey.

Inductive DbError : Type :=
| UniqueViolation | ForeignKeyViolation | NotNullViolation | Storage | NoRow | KeyLimit (active_count : Z).

(** ** The database and its statements *)

Module Db.
Record t : Type := mk {
  users : list User.t; next_user : Z; sessions : gmap string SessionRow.t;
  email_tokens : gmap string EmailToken.t; license_keys : list LicenseKey.t; next_key : Z;
  faults : list bool }.

(** Freshly migrated. *)
Definition empty (faults : list bool) : t := mk [] 1 ∅ ∅ [] 1 faults.

Definition with_users (x : list User.t) (d : t) : t :=
  mk x (next_user d) (sessions d) (email_tokens d) (license_keys d) (next_key d) (faults d).
Definition with_sessions (x : gmap string SessionRow.t) (d : t) : t :=
  mk (users d) (next_user d) x (email_tokens d) (license_keys d) (next_key d) (faults d).
Definition with_email_tokens (x : gmap string EmailToken.t) (d : t) : t :=
  mk (users d) (next_user d) (sessions d) x (license_keys d) (next_key d) (faults d).
Definition with_license_keys (x : list LicenseKey.t) (d : t) : t :=
  mk (users d) (next_user d) (sessions d) (email_tokens d) x (next_key d) (faults d).
Definition with_faults (x : list bool) (d : t) : t :=
  mk (users d) (next_user d) (sessions d) (email_tokens d) (license_keys d) (next_key d) x.
End Db.
Import Db.

(** What runs on the connection. *)
Definition M (A : Type) : Type := Db.t -> result A DbError * Db.t.

Definition mret_db {A} (a : A) : M A := fun d => (Ok a, d).
Definition mfail_db {A} (e : DbError) : M A := fun d => (Err e, d).
Definition mbind_db {A B} (m : M A) (k : A -> M B) : M B :=
  fun d => let '(r, d) := m d in match r with Ok a => k a d | Err e => (Err e, d) end.
Notation "'let*' x ':=' m 'in' k" := (mbind_db m (fun x => k))
  (at level 10, x name, m at level 100, k at level 200) : rust_scope.

(** A statement: the next outcome of the storage decides whether it runs. *)
Definition stmt {A} (f : Db.t -> result A DbError * Db.t) : M A :=
  fun d => match faults d with
           | true :: fs => (Err Storage, with_faults fs d)
           | false :: fs => f (with_faults fs d)
           | [] => f d
           end.

(** ** Dates *)

Definition DATE_MAX : Z := 253402300799.
Definition datetime_add (at_ secs : Z) : option Z := if at_ + secs <=? DATE_MAX then Some (at_ + secs) else None.
(** [datetime(at, '+n ...') > datetime('now')] and [<=]. *)
Definition still_before (now at_ secs : Z) : bool :=
  match datetime_add at_ secs with Some x => now <? x | None => false end.
Definition already_past (now at_ secs : Z) : bool :=
  match datetime_add at_ secs with Some x => x <=? now | None => false end.

(** ** Users *)

Definition user_exists (id : Z) (d : Db.t) : bool := existsb (fun u => User.id u =? id) (users d).
Definition find_user (p : User.t -> bool) (d : Db.t) : option User.t := head (List.filter p (users d)).
Definition map_user (id : Z) (f : User.t -> User.t) (d : Db.t) : Db.t :=
  with_users ((fun u => if User.id u =? id then f u else u) <$> users d) d.

Definition insert_user (now : Z) (email name org password_hash : string) : M Z :=
  stmt (fun d =>
    if existsb (fun u => bool_decide (User.email u = email)) (users d) then (Err UniqueViolation, d)
    else
      let u := User.mk (next_user d) email name org password_hash status.PENDING_VERIFICATION tier.SHADOW None now None None in
      (Ok (next_user d),
       mk (users d ++ [u]) (next_user d + 1) (sessions d) (email_tokens d) (license_keys d) (next_key d) (faults d))).

Definition get_user_by_email (email : string) : M (option User.t) :=
  stmt (fun d => (Ok (find_user (fun u => bool_decide (User.email u = email)) d), d)).
Definition get_user_by_id (id : Z) : M (option User.t) :=
  stmt (fun d => (Ok (find_user (fun u => User.id u =? id) d), d)).

Definition update_user_status (now : Z) (user_id : Z) (new_status : string) : M unit :=
  if bool_decide (new_status = status.PENDING_APPROVAL) then
    stmt (fun d => (Ok tt, map_user user_id (fun u => User.with_status new_status (Some now) (User.approved_at u) u) d))
  else if bool_decide (new_status = status.APPROVED) then
    stmt (fun d => (Ok tt, map_user user_id (fun u => User.with_status new_status (User.verified_at u) (Some now) u) d))
  else
    stmt (fun d => (Ok tt, map_user user_id (fun u => User.with_status new_status (User.verified_at u) (User.approved_at u) u) d)).

Definition update_user_tier (user_id : Z) (new_tier : string) : M unit :=
  stmt (fun d => (Ok tt, map_user user_id (User.with_tier new_tier) d)).
Definition update_stripe_customer_id (user_id : Z) (customer_id : string) : M unit :=
  stmt (fun d => (Ok tt, map_user user_id (User.with_stripe customer_id) d)).
Definition update_password (user_id : Z) (password_hash : string) : M unit :=
  stmt (fun d => (Ok tt, map_user user_id (User.with_password password_hash) d)).

(** ** Email tokens *)

Definition insert_email_token (now : Z) (token : string) (user_id : Z) (kind : string) : M unit :=
  stmt (fun d =>
    if bool_decide (is_Some (email_tokens d !! token)) then (Err UniqueViolation, d)
    else if negb (user_exists user_id d) then (Err ForeignKeyViolation, d)
    else (Ok tt, with_email_tokens (<[token := EmailToken.mk user_id kind now false]> (email_tokens d)) d)).

(** [UPDATE email_tokens SET used = 1 WHERE ..]: the number of changed rows. *)
Definition mark_token (now : Z) (token expected_kind : string) (ttl_secs : Z) : M Z :=
  stmt (fun d =>
    match email_tokens d !! token with
    | Some r =>
        if bool_decide (EmailToken.kind r = expected_kind) && negb (EmailToken.used r)
           && still_before now (EmailToken.created_at r) ttl_secs
        then (Ok 1, with_email_tokens (<[token := EmailToken.mark_used r]> (email_tokens d)) d)
        else (Ok 0, d)
    | None => (Ok 0, d)
    end).
Definition token_user (token : string) : M Z :=
  stmt (fun d => (ok_or (EmailToken.user_id <$> email_tokens d !! token) NoRow, d)).

Definition consume_with (now : Z) (token expected_kind : string) (ttl_secs : Z) : M (option Z) :=
  let* changes := mark_token now token expected_kind ttl_secs in
  if changes =? 0 then mret_db None
  else let* user_id := token_user token in mret_db (Some user_id).

Definition consume_email_token (now : Z) (token expected_kind : string) : M (option Z) :=
  consume_with now token expected_kind (7 * 86400).
Definition consume_email_token_ttl (now : Z) (token expected_kind : string) (ttl_hours : Z) : M (option Z) :=
  consume_with now token expected_kind (ttl_hours * 3600).

(** ** Sessions *)

Definition insert_session (now : Z) (token_hash : string) (user_id ttl_hours : Z) : M unit :=
  stmt (fun d =>
    match datetime_add now (ttl_hours * 3600) with
    | None => (Err NotNullViolation, d)
    | Some expires_at =>
        if bool_decide (is_Some (sessions d !! token_hash)) then (Err UniqueViolation, d)
        else if negb (user_exists user_id d) then (Err ForeignKeyViolation, d)
        else (Ok tt, with_sessions (<[token_hash := SessionRow.mk user_id now expires_at]> (sessions d)) d)
    end).

Definition validate_session (now : Z) (token_hash : string) : M (option Z) :=
  stmt (fun d =>
    (Ok (match sessions d !! token_hash with
         | Some r => if now <? SessionRow.expires_at r then Some (SessionRow.user_id r) else None
         | None => None
         end), d)).

Definition delete_session (token_hash : string) : M unit :=
  stmt (fun d => (Ok tt, with_sessions (delete token_hash (sessions d)) d)).

(** [DELETE .. WHERE ..]: the number of deleted rows. *)
Definition delete_sessions_where (p : SessionRow.t -> bool) : M Z :=
  stmt (fun d =>
    let keep := filter (fun kr : string * SessionRow.t => p kr.2 = false) (sessions d) in
    (Ok (Z.of_nat (size (sessions d)) - Z.of_nat (size keep)), with_sessions keep d)).
Definition delete_sessions_for_user (user_id : Z) : M Z :=
  delete_sessions_where (fun r => SessionRow.user_id r =? user_id).
Definition cleanup_expired_sessions (now : Z) : M Z :=
  delete_sessions_where (fun r => SessionRow.expires_at r <=? now).

Definition cleanup_stale_email_tokens (now : Z) : M Z :=
  stmt (fun d =>
    let keep := filter (fun kr : string * EmailToken.t => already_past now (EmailToken.created_at kr.2) (30 * 86400) = false)
                  (email_tokens d) in
    (Ok (Z.of_nat (size (email_tokens d)) - Z.of_nat (size keep)), with_email_tokens keep d)).

(** ** License keys *)

Definition MAX_ACTIVE_KEYS_PER_USER : Z := 5.

Definition active_key_of (user_id : Z) (k : LicenseKey.t) : bool :=
  (LicenseKey.user_id k =? user_id) && bool_decide (LicenseKey.status k = key_status.ACTIVE).
Definition active_keys (user_id : Z) (d : Db.t) : Z := lenZ (List.filter (active_key_of user_id) (license_keys d)).

Definition insert_license_key (now : Z) (user_id : Z) (key_value label : bytes) : M Z :=
  let* active_count := stmt (fun d => (Ok (active_keys user_id d), d)) in
  if active_count >=? MAX_ACTIVE_KEYS_PER_USER then mfail_db (KeyLimit active_count)
  else
    stmt (fun d =>
      if existsb (fun k => bool_decide (LicenseKey.key_value k = key_value)) (license_keys d) then (Err UniqueViolation, d)
      else if negb (user_exists user_id d) then (Err ForeignKeyViolation, d)
      else
        let k := LicenseKey.mk (next_key d) user_id key_value label key_status.ACTIVE now None in
        (Ok (next_key d),
         mk (users d) (next_user d) (sessions d) (email_tokens d) (license_keys d ++ [k]) (next_key d + 1) (faults d))).

(** The order of rows with equal times under [ORDER BY created_at DESC]. *)
Class KeyOrder : Type := {
  newest_first : list LicenseKey.t -> list LicenseKey.t;
  newest_first_perm l : newest_first l ≡ₚ l
}.

Definition get_license_keys_for_user `{KeyOrder} (user_id : Z) : M (list LicenseKey.t) :=
  stmt (fun d => (Ok (newest_first (List.filter (fun k => LicenseKey.user_id k =? user_id) (license_keys d))), d)).

(** The join of keys and users. *)
Definition valid_key_row (key_value : bytes) (d : Db.t) (k : LicenseKey.t) : bool :=
  bool_decide (LicenseKey.key_value k = key_value) && bool_decide (LicenseKey.status k = key_status.ACTIVE)
  && existsb (fun u => (User.id u =? LicenseKey.user_id k) && bool_decide (User.status u = status.APPROVED)) (users d).
Definition validate_license_key (key_value : bytes) : M (option Z) :=
  stmt (fun d => (Ok (LicenseKey.user_id <$> head (List.filter (valid_key_row key_value d) (license_keys d))), d)).

Definition revocable (key_id user_id : Z) (k : LicenseKey.t) : bool :=
  (LicenseKey.id k =? key_id) && active_key_of user_id k.
Definition revoke_license_key (now : Z) (key_id user_id : Z) : M bool :=
  stmt (fun d =>
    (Ok (existsb (revocable key_id user_id) (license_keys d)),
     with_license_keys ((fun k => if revocable key_id user_id k then LicenseKey.revoke now k else k) <$> license_keys d) d)).

(** * Properties *)

(** ** Triples

    [spec P m Q]: run where [P] holds, [m] ends with a result and a database that [Q] holds of. *)

Definition spec {A} (P : Db.t -> Prop) (m : M A) (Q : result A DbError -> Db.t -> Prop) : Prop :=
  forall d, P d -> Q (m d).1 (m d).2.
Definition keeps {A} (I : Db.t -> Prop) (m : M A) : Prop := spec I m (fun _ => I).

(** A property that the next outcome of the storage has no part in. *)
Class FaultFree (I : Db.t -> Prop) : Prop := fault_free b fs d : faults d = b :: fs -> I d -> I (with_faults fs d).

Lemma spec_stmt {A} P (f : Db.t -> result A DbError * Db.t) (Q : result A DbError -> Db.t -> Prop) `{!FaultFree P} :
  (forall d, P d -> Q (f d).1 (f d).2) -> (forall d, P d -> Q (Err Storage) d) -> spec P (stmt f) Q.
Proof.
  intros Hf He d Hd. unfold stmt. destruct (faults d) as [|[] fs] eqn:Ef; [by apply Hf|..].
  - by eapply He, fault_free.
  - by eapply Hf, fault_free.
Qed.

Lemma keeps_stmt {A} I (f : Db.t -> result A DbError * Db.t) `{!FaultFree I} :
  (forall d, I d -> I (f d).2) -> keeps I (stmt f).
Proof. intros Hf. by apply spec_stmt. Qed.

(** A statement that only reads. *)
Lemma keeps_query {A} I (q : Db.t -> result A DbError) `{!FaultFree I} : keeps I (stmt (fun d => (q d, d))).
Proof. by apply keeps_stmt. Qed.

Lemma spec_bind {A B} P (m : M A) (k : A -> M B) Q R :
  spec P m Q -> (forall a, spec (Q (Ok a)) (k a) R) -> (forall e d, Q (Err e) d -> R (Err e) d) ->
  spec P (let* x := m in k x) R.
Proof.
  intros Hm Hk He d Hd. specialize (Hm d Hd). unfold mbind_db. destruct (m d) as [[a|e] d']; cbn [fst snd] in *.
  - by apply Hk.
  - by apply He.
Qed.

Lemma spec_ret {A} (P : Db.t -> Prop) (a : A) (Q : result A DbError -> Db.t -> Prop) :
  (forall d, P d -> Q (Ok a) d) -> spec P (mret_db a) Q.
Proof. intros HQ d Hd. by apply HQ. Qed.

(** ** The invariant of the tables *)

Definition is_verified (id : Z) (d : Db.t) : Prop :=
  Exists (fun u => User.id u = id /\ is_Some (User.verified_at u)) (users d).

Record db_ok (d : Db.t) : Prop := {
  ok_ids : NoDup (User.id <$> users d);
  ok_next : Forall (fun u => User.id u < next_user d) (users d);
  ok_emails : NoDup (User.email <$> users d);
  ok_sessions : map_Forall (fun _ r => user_exists (SessionRow.user_id r) d = true) (sessions d);
  ok_tokens : map_Forall (fun _ r => user_exists (EmailToken.user_id r) d = true) (email_tokens d);
  ok_owners : Forall (fun k => user_exists (LicenseKey.user_id k) d = true) (license_keys d);
  ok_key_ids : NoDup (LicenseKey.id <$> license_keys d);
  ok_next_key : Forall (fun k => LicenseKey.id k < next_key d) (license_keys d);
  ok_key_values : NoDup (LicenseKey.key_value <$> license_keys d);
  ok_limit : forall u, active_keys u d <= MAX_ACTIVE_KEYS_PER_USER;
  ok_status : Forall (fun u => User.status u <> status.PENDING_VERIFICATION -> is_Some (User.verified_at u)) (users d);
  ok_links : map_Forall (fun _ r => EmailToken.kind r = "approve"%string \/ EmailToken.kind r = "deny"%string ->
               is_verified (EmailToken.user_id r) d) (email_tokens d)
}.

#[export] Instance db_ok_fault_free : FaultFree db_ok.
Proof. intros b fs d _ []. by split. Qed.

Lemma db_ok_empty faults : db_ok (Db.empty faults).
Proof.
  split; cbn [users sessions email_tokens license_keys empty fmap list_fmap next_user next_key];
    [constructor|constructor|constructor|apply map_Forall_empty|apply map_Forall_empty|constructor|constructor
    |constructor|constructor| |constructor|apply map_Forall_empty].
  intros u. by vm_compute.
Qed.

Lemma user_exists_in id d : user_exists id d = true <-> exists u, u ∈ users d /\ User.id u = id.
Proof.
  unfold user_exists. rewrite existsb_exists. split.
  - intros (u & Hin & Hu). z_bool. exists u. by rewrite list_elem_of_In.
  - intros (u & Hin & <-). exists u. rewrite <-list_elem_of_In, Z.eqb_refl. done.
Qed.

Lemma find_user_in p d u : find_user p d = Some u -> u ∈ users d /\ p u = true.
Proof.
  unfold find_user. intros Hh. assert (u ∈ List.filter p (users d)) as Hin.
  { destruct (List.filter p (users d)); [done|]. injection Hh as ->. left. }
  rewrite list_elem_of_In, List.filter_In, <-list_elem_of_In in Hin. done.
Qed.

(** Sessions, tokens and keys may be rewritten freely as long as what is there belongs to users. *)
Lemma db_ok_with_sessions d m : db_ok d ->
  map_Forall (fun _ r => user_exists (SessionRow.user_id r) d = true) m -> db_ok (with_sessions m d).
Proof. intros [] Hm. by split. Qed.

Lemma db_ok_with_tokens d m : db_ok d ->
  map_Forall (fun _ r => user_exists (EmailToken.user_id r) d = true) m ->
  map_Forall (fun _ r => EmailToken.kind r = "approve"%string \/ EmailToken.kind r = "deny"%string ->
    is_verified (EmailToken.user_id r) d) m -> db_ok (with_email_tokens m d).
Proof. intros [] Hm Hl. by split. Qed.

(** *** Updates of one user *)

Record user_update (f : User.t -> User.t) : Prop := {
  upd_id u : User.id (f u) = User.id u;
  upd_email u : User.email (f u) = User.email u;
  upd_verified u : is_Some (User.verified_at u) -> is_Some (User.verified_at (f u))
}.

Lemma user_exists_map id f i d : user_update f -> user_exists i (map_user id f d) = user_exists i d.
Proof.
  intros Hf. unfold user_exists, map_user. cbn [users with_users]. induction (users d) as [|u l IH]; [done|].
  cbn [fmap list_fmap existsb]. rewrite IH. f_equal. case_if; [|done]. by rewrite (upd_id f Hf).
Qed.

Lemma is_verified_map id f i d : user_update f -> is_verified i d -> is_verified i (map_user id f d).
Proof.
  intros Hf. unfold is_verified, map_user. cbn [users with_users]. rewrite Exists_fmap.
  intros Hx. eapply Exists_impl; [exact Hx|]. intros u [Hi Hv]. cbn [compose]. case_if; [|done]. rewrite (upd_id f Hf). split; [done|].
  by apply (upd_verified f Hf).
Qed.

Lemma fmap_map_user {B} (g : User.t -> B) id f d : (forall u, g (f u) = g u) ->
  g <$> users (map_user id f d) = g <$> users d.
Proof.
  intros Hg. unfold map_user. cbn [users with_users]. rewrite <-list_fmap_compose. apply list_fmap_ext.
  intros j u _. cbn [compose]. case_if; [apply Hg|done].
Qed.

Lemma db_ok_map_user id f d : user_update f -> db_ok d ->
  (forall u, u ∈ users d -> User.id u = id -> User.status (f u) <> status.PENDING_VERIFICATION ->
    is_Some (User.verified_at (f u))) ->
  db_ok (map_user id f d).
Proof.
  intros Hf Hd Hs. pose proof (fun i => user_exists_map id f i d Hf) as He. destruct Hd. split; try done.
  - rewrite fmap_map_user; [done|]. apply (upd_id f Hf).
  - unfold map_user. cbn [users with_users next_user]. apply Forall_fmap. eapply Forall_impl; [exact ok_next0|].
    intros u Hu. cbn [compose]. case_if; [|done]. by rewrite (upd_id f Hf).
  - rewrite fmap_map_user; [done|]. apply (upd_email f Hf).
  - eapply map_Forall_impl; [exact ok_sessions0|]. intros k r Hr. by rewrite He.
  - eapply map_Forall_impl; [exact ok_tokens0|]. intros k r Hr. by rewrite He.
  - eapply Forall_impl; [exact ok_owners0|]. intros k Hk. by rewrite He.
  - unfold map_user. cbn [users with_users]. apply Forall_fmap, Forall_forall. intros u Hu. cbn [compose].
    case_if; z_bool; [by apply Hs|]. by eapply Forall_forall in ok_status0.
  - eapply map_Forall_impl; [exact ok_links0|]. intros k r Hr Hk. apply is_verified_map; [done|auto].
Qed.

(** *** The statements keep the invariant *)

#[export] Instance fault_free_and P Q : FaultFree P -> FaultFree Q -> FaultFree (fun d => P d /\ Q d).
Proof. intros HP HQ b fs d Hb [Hp Hq]. by split; eapply fault_free. Qed.
#[export] Instance fault_free_exists id : FaultFree (fun d => user_exists id d = true).
Proof. by intros b fs d. Qed.
#[export] Instance fault_free_verified id : FaultFree (is_verified id).
Proof. by intros b fs d. Qed.
#[export] Instance fault_free_if (C : Prop) P : FaultFree P -> FaultFree (fun d => C -> P d).
Proof. intros HP b fs d Hb Hp c. eapply fault_free; eauto. Qed.

(** Adding a user leaves what exists. *)
Lemma user_exists_app u i d next :
  user_exists i d = true -> user_exists i (mk (users d ++ [u]) next (sessions d) (email_tokens d) (license_keys d) (next_key d) (faults d)) = true.
Proof. unfold user_exists. cbn [users]. rewrite existsb_app. by intros ->. Qed.

Lemma insert_user_keeps now email name org hash : keeps db_ok (insert_user now email name org hash).
Proof.
  apply keeps_stmt; [apply _|]. intros d Hd. destruct (existsb _ (users d)) eqn:Ex; [done|]. cbn [snd].
  destruct Hd. split; cbn [users next_user sessions email_tokens license_keys next_key]; try done.
  - rewrite fmap_app. apply NoDup_app. split; [done|]. cbn [fmap list_fmap User.id]. split; [|apply NoDup_singleton].
    intros i Hi Hn%list_elem_of_singleton. subst. apply list_elem_of_fmap in Hi as (u & Hu & Hin).
    rewrite Forall_forall in ok_next0. specialize (ok_next0 u Hin). cbn beta in ok_next0. lia.
  - apply Forall_app. split; [|by constructor; [cbn [User.id]; lia|]].
    eapply Forall_impl; [exact ok_next0|]. cbn beta. lia.
  - rewrite fmap_app. apply NoDup_app. split; [done|]. cbn [fmap list_fmap User.email]. split; [|apply NoDup_singleton].
    intros e He Hn%list_elem_of_singleton. subst. apply list_elem_of_fmap in He as (u & Hu & Hin).
    apply existsb_false_Forall in Ex. rewrite Forall_forall in Ex. specialize (Ex u Hin). cbn beta in Ex.
    by rewrite bool_decide_true in Ex.
  - eapply map_Forall_impl; [exact ok_sessions0|]. intros k r. apply user_exists_app.
  - eapply map_Forall_impl; [exact ok_tokens0|]. intros k r. apply user_exists_app.
  - eapply Forall_impl; [exact ok_owners0|]. intros k. apply user_exists_app.
  - apply Forall_app. split; [done|]. by constructor.
  - eapply map_Forall_impl; [exact ok_links0|]. intros k r Hr Hk. unfold is_verified. cbn [users].
    apply Exists_app. left. by apply Hr.
Qed.

Lemma get_user_by_email_keeps I email `{!FaultFree I} : keeps I (get_user_by_email email).
Proof. apply keeps_query; done. Qed.
Lemma get_user_by_id_keeps I id `{!FaultFree I} : keeps I (get_user_by_id id).
Proof. apply keeps_query; done. Qed.
Lemma validate_session_keeps I now h `{!FaultFree I} : keeps I (validate_session now h).
Proof. apply keeps_query; done. Qed.
Lemma validate_license_key_keeps I key `{!FaultFree I} : keeps I (validate_license_key key).
Proof. apply keeps_query; done. Qed.
Lemma get_license_keys_keeps `{KeyOrder} I id `{!FaultFree I} : keeps I (get_license_keys_for_user id).
Proof. apply keeps_query; done. Qed.

Lemma update_password_keeps id hash : keeps db_ok (update_password id hash).
Proof.
  apply keeps_stmt; [apply _|]. intros d Hd. apply db_ok_map_user; [by split|done|]. intros u Hu _. cbn.
  by pose proof (proj1 (Forall_forall _ _) (ok_status d Hd) u Hu).
Qed.

Lemma update_pending_spec now id :
  spec (fun d => db_ok d /\ user_exists id d = true) (update_user_status now id status.PENDING_APPROVAL)
    (fun r d => db_ok d /\ (r = Ok tt -> is_verified id d)).
Proof.
  unfold update_user_status. rewrite bool_decide_true by done. apply spec_stmt; [apply _| |by intros d [Hd _]; split].
  intros d [Hd Hx]. cbn [fst snd]. split; [apply db_ok_map_user; [by split; [..|intros; eexists]|done|]|].
  - intros u _ _ _. by eexists.
  - intros _. apply user_exists_in in Hx as (u & Hin & Hi). unfold is_verified, map_user. cbn [users with_users].
    apply Exists_fmap, Exists_exists. exists u. split; [done|]. cbn [compose]. rewrite Hi, Z.eqb_refl. by split; [|eexists].
Qed.

(** A verified user may be approved or denied. *)
Lemma update_decided_keeps now id s : s = status.APPROVED \/ s = status.DENIED ->
  spec (fun d => db_ok d /\ is_verified id d) (update_user_status now id s) (fun _ => db_ok).
Proof.
  intros Hs. assert (forall d u, db_ok d -> is_verified id d -> u ∈ users d -> User.id u = id -> is_Some (User.verified_at u)) as Hv.
  { intros d u Hd Hv Hin Hi. apply Exists_exists in Hv as (u' & Hin' & Hi' & Hv').
    assert (u = u') as ->; [|done]. pose proof (ok_ids d Hd) as Hn.
    apply list_elem_of_lookup in Hin as [i Hu], Hin' as [j Hu'].
    assert (i = j) as ->; [|congruence]. eapply (NoDup_lookup _ _ _ id Hn); rewrite list_lookup_fmap.
    - by rewrite Hu, <-Hi.
    - by rewrite Hu', <-Hi'. }
  destruct Hs as [-> | ->]; unfold update_user_status; (apply spec_stmt; [apply _| |by intros d [Hd _]]);
    intros d [Hd Hver]; cbn [fst snd]; (apply db_ok_map_user; [by split|done|]); intros u Hin Hi _; cbn; by eapply Hv.
Qed.

Lemma insert_email_token_keeps now token id kind :
  spec (fun d => db_ok d /\ (kind = "approve"%string \/ kind = "deny"%string -> is_verified id d))
    (insert_email_token now token id kind)
    (fun _ d => db_ok d /\ (kind = "approve"%string \/ kind = "deny"%string -> is_verified id d)).
Proof.
  apply spec_stmt; [apply _| |done]. intros d [Hd Hv]. case_bool_decide; [done|]. case_if; [done|]. z_bool. cbn [fst snd].
  split; [|exact Hv]. apply db_ok_with_tokens; [done|..]; apply map_Forall_insert_2; try done; apply Hd.
Qed.

Lemma insert_session_keeps now h id ttl : keeps db_ok (insert_session now h id ttl).
Proof.
  apply keeps_stmt; [apply _|]. intros d Hd. destruct (datetime_add _ _); [|done]. case_bool_decide; [done|]. case_if; [done|]. z_bool.
  apply db_ok_with_sessions; [done|]. apply map_Forall_insert_2; [done|apply Hd].
Qed.

Lemma delete_session_keeps h : keeps db_ok (delete_session h).
Proof. apply keeps_stmt; [apply _|]. intros d Hd. apply db_ok_with_sessions; [done|]. apply map_Forall_delete, Hd. Qed.

Lemma delete_sessions_where_keeps p : keeps db_ok (delete_sessions_where p).
Proof.
  apply keeps_stmt; [apply _|]. intros d Hd. apply db_ok_with_sessions; [done|].
  apply map_Forall_lookup. intros k r [Hk _]%map_lookup_filter_Some. by apply (ok_sessions d Hd k).
Qed.

Lemma cleanup_tokens_keeps now : keeps db_ok (cleanup_stale_email_tokens now).
Proof.
  apply keeps_stmt; [apply _|]. intros d Hd. apply db_ok_with_tokens; [done|..]; apply map_Forall_lookup;
    intros k r [Hk _]%map_lookup_filter_Some.
  - by apply (ok_tokens d Hd k).
  - by apply (ok_links d Hd k).
Qed.

Lemma db_ok_mark_token d token r : db_ok d -> email_tokens d !! token = Some r ->
  db_ok (with_email_tokens (<[token := EmailToken.mark_used r]> (email_tokens d)) d).
Proof.
  intros Hd Hr. apply db_ok_with_tokens; [done|..]; apply map_Forall_insert_2; try apply Hd.
  - by apply (ok_tokens d Hd token r).
  - by apply (ok_links d Hd token r).
Qed.

(** Consuming a token: the user is there, and verified if the token is one of the administrator's. *)
Lemma consume_spec now token kind ttl : spec db_ok (consume_with now token kind ttl)
  (fun r d => db_ok d /\ forall uid, r = Ok (Some uid) ->
    user_exists uid d = true /\ (kind = "approve"%string \/ kind = "deny"%string -> is_verified uid d)).
Proof.
  set (row_ok := fun d => exists r, email_tokens d !! token = Some r /\ EmailToken.kind r = kind).
  assert (FaultFree row_ok) as Hff by (by intros b fs d).
  eapply (spec_bind _ _ _ (fun r d => db_ok d /\ (forall n, r = Ok n -> n = 0 \/ row_ok d))).
  - apply spec_stmt; [apply _| |by intros d Hd; split]. intros d Hd. destruct (email_tokens d !! token) as [r|] eqn:Er.
    2:{ split; [done|]. intros n [= <-]. by left. }
    destruct (_ && _) eqn:Ec; cbn [fst snd].
    2:{ split; [done|]. intros n [= <-]. by left. }
    split; [by apply db_ok_mark_token|]. intros n _. right. exists (EmailToken.mark_used r).
    cbn [email_tokens with_email_tokens]. rewrite lookup_insert_eq. split; [done|]. z_bool.
    by repeat match goal with Hb : bool_decide _ = true |- _ => apply bool_decide_eq_true in Hb end.
  - intros n. destruct (n =? 0) eqn:En.
    { apply spec_ret. by intros d [Hd _]. }
    z_bool. eapply (spec_bind _ _ _ (fun r d => db_ok d /\ forall uid, r = Ok uid ->
      user_exists uid d = true /\ (kind = "approve"%string \/ kind = "deny"%string -> is_verified uid d))).
    + assert (FaultFree (fun d => db_ok d /\ row_ok d)) as Hff' by apply _.
      intros d [Hd Hrow]. destruct (Hrow n eq_refl) as [?|Hr]; [lia|]. revert d Hd Hrow Hr.
      enough (spec (fun d => db_ok d /\ row_ok d) (token_user token) (fun r d => db_ok d /\ forall uid, r = Ok uid ->
        user_exists uid d = true /\ (kind = "approve"%string \/ kind = "deny"%string -> is_verified uid d))) as Hs.
      { intros d Hd _ Hr. by apply Hs. }
      apply spec_stmt; [apply _| |by intros d [Hd _]; split]. intros d [Hd (r & Hr & Hk)]. rewrite Hr.
      cbn [fst snd fmap option_fmap option_map ok_or]. split; [done|]. intros uid [= <-]. subst kind.
      split; [by apply (ok_tokens d Hd token r)|by apply (ok_links d Hd token r)].
    + intros uid. apply spec_ret. intros d [Hd Hu]. split; [done|]. intros u [= <-]. auto.
    + by intros e d [Hd _].
  - by intros e d [Hd _].
Qed.

(** *** License keys *)

Lemma filter_le {A} (p q : A -> bool) l : (forall x, p x = true -> q x = true) ->
  lenZ (List.filter p l) <= lenZ (List.filter q l).
Proof.
  intros Hpq. unfold lenZ. induction l as [|x l IH]; [done|]. cbn [List.filter].
  destruct (p x) eqn:Ep; [rewrite (Hpq x Ep); cbn [length]; lia|]. destruct (q x); cbn [length]; lia.
Qed.

Lemma active_keys_revoke key_id owner now u d :
  active_keys u (with_license_keys ((fun k => if revocable key_id owner k then LicenseKey.revoke now k else k) <$> license_keys d) d)
  <= active_keys u d.
Proof.
  unfold active_keys. cbn [license_keys with_license_keys]. unfold lenZ. induction (license_keys d) as [|k l IH]; [done|].
  cbn [fmap list_fmap List.filter].
  destruct (revocable key_id owner k); [|destruct (active_key_of u k); cbn [length]; lia].
  assert (active_key_of u (LicenseKey.revoke now k) = false) as ->.
  { unfold active_key_of. cbn. by rewrite andb_false_r. }
  destruct (active_key_of u k); cbn [length]; lia.
Qed.

Lemma revoke_license_key_keeps now key_id owner : keeps db_ok (revoke_license_key now key_id owner).
Proof.
  apply keeps_stmt; [apply _|]. intros d Hd. cbn [snd].
  assert (forall {B} (g : LicenseKey.t -> B), (forall k, g (LicenseKey.revoke now k) = g k) ->
    g <$> ((fun k => if revocable key_id owner k then LicenseKey.revoke now k else k) <$> license_keys d) = g <$> license_keys d) as Hg.
  { intros B g Hg. rewrite <-list_fmap_compose. apply list_fmap_ext. intros j k _. cbn [compose]. case_if; [apply Hg|done]. }
  pose proof (fun u => active_keys_revoke key_id owner now u d) as Ha.
  destruct Hd. split; try done.
  - apply Forall_fmap. eapply Forall_impl; [exact ok_owners0|]. intros k Hk. cbn [compose]. by case_if.
  - cbn [license_keys with_license_keys]. by rewrite Hg.
  - apply Forall_fmap. eapply Forall_impl; [exact ok_next_key0|]. intros k Hk. cbn [compose]. by case_if.
  - cbn [license_keys with_license_keys]. by rewrite Hg.
  - intros u. specialize (Ha u). specialize (ok_limit0 u). cbn [license_keys with_license_keys] in *. lia.
Qed.

(** The owner has room for another key. *)
Definition has_room (id : Z) (d : Db.t) : Prop := active_keys id d < MAX_ACTIVE_KEYS_PER_USER.
#[export] Instance fault_free_room id : FaultFree (has_room id).
Proof. by intros b fs d. Qed.

Lemma insert_license_key_keeps now id key label : keeps db_ok (insert_license_key now id key label).
Proof.
  eapply (spec_bind _ _ _ (fun r d => db_ok d /\ forall n, r = Ok n -> active_keys id d = n)).
  - apply spec_stmt; [apply _| |by intros d Hd; split]. intros d Hd. split; [done|]. by intros n [= <-].
  - intros n. destruct (n >=? MAX_ACTIVE_KEYS_PER_USER) eqn:En; [by intros d [Hd _]|].
    enough (spec (fun d => db_ok d /\ has_room id d) (stmt (fun d =>
      if existsb (fun k => bool_decide (LicenseKey.key_value k = key)) (license_keys d) then (Err UniqueViolation, d)
      else if negb (user_exists id d) then (Err ForeignKeyViolation, d)
      else let k := LicenseKey.mk (next_key d) id key label key_status.ACTIVE now None in
        (Ok (next_key d), mk (users d) (next_user d) (sessions d) (email_tokens d) (license_keys d ++ [k]) (next_key d + 1) (faults d))))
      (fun _ => db_ok)) as Hs.
    { intros d [Hd Hn]. apply Hs. split; [done|]. unfold has_room. rewrite (Hn n eq_refl). by z_bool. }
    apply spec_stmt; [apply _| |by intros d [Hd _]]. intros d [Hd Hroom].
    destruct (existsb _ (license_keys d)) eqn:Ex; [done|]. case_if; [done|]. z_bool. cbn [snd].
    destruct Hd. split; try done; cbn [license_keys next_key].
    + apply Forall_app. split; [done|]. by constructor.
    + rewrite fmap_app. apply NoDup_app. split; [done|]. cbn [fmap list_fmap LicenseKey.id]. split; [|apply NoDup_singleton].
      intros i Hi Hn%list_elem_of_singleton. subst. apply list_elem_of_fmap in Hi as (k & Hk & Hin).
      rewrite Forall_forall in ok_next_key0. specialize (ok_next_key0 k Hin). cbn beta in ok_next_key0. lia.
    + apply Forall_app. split; [|by constructor; [cbn [LicenseKey.id]; lia|]].
      eapply Forall_impl; [exact ok_next_key0|]. cbn beta. lia.
    + rewrite fmap_app. apply NoDup_app. split; [done|]. cbn [fmap list_fmap LicenseKey.key_value]. split; [|apply NoDup_singleton].
      intros v Hv Hn%list_elem_of_singleton. subst. apply list_elem_of_fmap in Hv as (k & Hk & Hin).
      apply existsb_false_Forall in Ex. rewrite Forall_forall in Ex. specialize (Ex k Hin). cbn beta in Ex.
      by rewrite bool_decide_true in Ex.
    + intros u. specialize (ok_limit0 u). unfold has_room, active_keys in *. cbn [license_keys]. rewrite List.filter_app, lenZ_app.
      cbn [List.filter]. unfold active_key_of at 2. cbn [LicenseKey.user_id LicenseKey.status].
      destruct (id =? u) eqn:Eu; z_bool; cbn [andb]; [subst|unfold lenZ in *; cbn [length]; lia].
      rewrite bool_decide_true by done. unfold lenZ in *. cbn [length]. lia.
  - by intros e d [Hd _].
Qed.

(** ** Properties that the statements keep one by one

    [fresh] restricts the mail tokens that are inserted, [sess] whether sessions are written. *)

Record statements_keep (I : Db.t -> Prop) (fresh : string -> Prop) (sess : Prop) : Prop := {
  sk_fault_free :> FaultFree I;
  sk_users l n d : I d -> I (mk l n (sessions d) (email_tokens d) (license_keys d) (next_key d) (faults d));
  sk_insert_token now token id kind : fresh token -> keeps I (insert_email_token now token id kind);
  sk_mark_token now token kind ttl : keeps I (mark_token now token kind ttl);
  sk_sessions m d : sess -> I d -> I (with_sessions m d);
  sk_keys l n d : I d -> I (mk (users d) (next_user d) (sessions d) (email_tokens d) l n (faults d))
}.

Section StatementsKeep.
Context (I : Db.t -> Prop) (fresh : string -> Prop) (sess : Prop) (Hk : statements_keep I fresh sess).
#[local] Existing Instance sk_fault_free.

Lemma sk_insert_user now email name org hash : keeps I (insert_user now email name org hash).
Proof. apply keeps_stmt; [apply Hk|]. intros d Hd. case_if; [done|]. by apply (sk_users _ _ _ Hk). Qed.

Lemma sk_map_user id f d : I d -> I (map_user id f d).
Proof. apply (sk_users _ _ _ Hk). Qed.

Lemma sk_update_status now id s : keeps I (update_user_status now id s).
Proof.
  unfold update_user_status. repeat case_if; (apply keeps_stmt; [apply Hk|]); intros d Hd; by apply sk_map_user.
Qed.

Lemma sk_update_password id hash : keeps I (update_password id hash).
Proof. apply keeps_stmt; [apply Hk|]. intros d Hd. by apply sk_map_user. Qed.

Lemma sk_consume now token kind ttl : keeps I (consume_with now token kind ttl).
Proof.
  apply (spec_bind _ _ _ (fun _ => I)); [apply (sk_mark_token _ _ _ Hk)| |done]. intros n. case_if; [by apply spec_ret|].
  apply (spec_bind _ _ _ (fun _ => I)); [apply keeps_query; apply Hk| |done]. intros uid. by apply spec_ret.
Qed.

Lemma sk_insert_session now h id ttl : sess -> keeps I (insert_session now h id ttl).
Proof.
  intros Hs. apply keeps_stmt; [apply Hk|]. intros d Hd. destruct (datetime_add _ _); [|done]. repeat case_if; try done.
  by apply (sk_sessions _ _ _ Hk).
Qed.

Lemma sk_delete_session h : sess -> keeps I (delete_session h).
Proof. intros Hs. apply keeps_stmt; [apply Hk|]. intros d Hd. by apply (sk_sessions _ _ _ Hk). Qed.

Lemma sk_delete_where p : sess -> keeps I (delete_sessions_where p).
Proof. intros Hs. apply keeps_stmt; [apply Hk|]. intros d Hd. by apply (sk_sessions _ _ _ Hk). Qed.

Lemma sk_insert_license now id key label : keeps I (insert_license_key now id key label).
Proof.
  apply (spec_bind _ _ _ (fun _ => I)); [apply keeps_query; apply Hk| |done]. intros n. case_if; [by intros d Hd|].
  apply keeps_stmt; [apply Hk|]. intros d Hd. repeat case_if; try done. by apply (sk_keys _ _ _ Hk).
Qed.

Lemma sk_revoke now key_id id : keeps I (revoke_license_key now key_id id).
Proof. apply keeps_stmt; [apply Hk|]. intros d Hd. by apply (sk_keys _ _ _ Hk). Qed.
End StatementsKeep.
