(* ===== verification/Auth.v ===== *)
(** * The account service

    Models [services/rg-auth/src/handlers.rs] (every endpoint), the mail texts of [email.rs], the
    tokens of [session.rs] and the cleanup of [main.rs], on the database of [AuthDb], the license
    keys of [License] and the rate limiter of [Limits].

    A request carries the second it is handled in, the instant the limiter reads, the peer address
    and the two headers that are read; random bytes and salts are arguments. The answer is a status
    code and a body; what is mailed is a list of messages, since a failed delivery is only logged.
    Password hashing and the parser of addresses are classes. *)

From stdpp Require Import pretty.
From S2P Require Import Prelude Crates Policy VerifierStream VerdictLog Limits License AuthDb.

(** ** Tokens *)

Definition hex_digit (n : Z) : Ascii.ascii :=
  match String.get (Z.to_nat n) "0123456789abcdef" with Some c => c | None => Ascii.zero end.
(** [write!(s, "{b:02x}")] for each byte. *)
Fixpoint hex_lower (b : bytes) : string :=
  match b with
  | [] => ""
  | x :: b => String.String (hex_digit (byte_to_Z x / 16)) (String.String (hex_digit (byte_to_Z x mod 16)) (hex_lower b))
  end.

Definition TOKEN_HEX_LEN : nat := 32 * 2.

(** [generate_token] on the bytes of the generator, [hash_token]. *)
Definition generate_token (random : bytes) : string := hex_lower random.
Definition hash_token `{Sha256Crate} (token : string) : string := hex_lower (sha256 (lit token)).

(** ** Passwords *)

(** [argon2]: a hash of a text under a salt, and the check against a hash string ([None] when the
    string is not a hash). *)
Class PasswordCrate : Type := {
  password_hash : bytes -> string -> option string;
  password_verify : string -> string -> option bool
}.
Class PasswordLaws `{PasswordCrate} : Prop := {
  verify_own_hash salt p h : password_hash salt p = Some h -> password_verify p h = Some true;
  verify_only_own salt p q h : password_hash salt p = Some h -> password_verify q h = Some true -> q = p
}.

(** ** Headers *)

Class IpText (Ip : Type) : Type := { parse_ip : bytes -> option Ip }.

(** [HeaderValue::to_str]: visible ASCII, spaces and tabs. *)
Definition header_to_str (v : bytes) : option bytes :=
  if forallb (fun b => let n := byte_to_Z b in (n =? 9) || ((32 <=? n) && (n <=? 126))) v then Some v else None.

Definition extract_bearer (authorization : option bytes) : option string :=
  v ← authorization; s ← header_to_str v; t ← strip_prefix (lit "Bearer ") s;
  Some (String.string_of_list_byte t).

(** ** Validation of texts *)

Definition at_sign : Ascii.ascii := Ascii.ascii_of_nat 64.
Definition full_stop : Ascii.ascii := Ascii.ascii_of_nat 46.

(** [split_once] on an ASCII character. *)
Fixpoint split_once (c : Ascii.ascii) (s : chars) : option (chars * chars) :=
  match s with
  | [] => None
  | x :: s => if bool_decide (x = c) then Some ([], s) else '(a, b) ← split_once c s; Some (x :: a, b)
  end.

(** [rsplit(c).next()]: what follows the last occurrence. *)
Fixpoint after_last (c : Ascii.ascii) (s : chars) : chars :=
  match s with
  | [] => []
  | x :: r => if bool_decide (c ∈ r) then after_last c r else if bool_decide (x = c) then r else x :: r
  end.

Definition is_valid_email (email : string) : bool :=
  let s := String.list_ascii_of_string email in
  if (lenZ s >? 254) || existsb (fun w => contains w s) white_space then false
  else
    match split_once at_sign s with
    | None => false
    | Some (local, domain) =>
        if (lenZ local =? 0) || (lenZ local >? 64) then false
        else if (lenZ domain =? 0) || negb (bool_decide (full_stop ∈ domain)) then false
        else lenZ (after_last full_stop domain) >=? 2
    end.

Definition text_ok (s : string) : bool := let n := Z.of_nat (String.length s) in negb ((n =? 0) || (n >? 200)).
Definition password_ok (s : string) : bool := let n := Z.of_nat (String.length s) in negb ((n <? 8) || (n >? 1024)).

(** [chars().take(n).collect()] on UTF-8 bytes. *)
Fixpoint take_chars (n : nat) (s : bytes) : bytes :=
  match s with
  | [] => []
  | b :: s =>
      if is_continuation b then b :: take_chars n s
      else match n with O => [] | S n => b :: take_chars n s end
  end.

Definition is_lower_hex (c : Ascii.ascii) : bool :=
  let n := Ascii.N_of_ascii c in (((48 <=? n) && (n <=? 57)) || ((97 <=? n) && (n <=? 102)))%N.
Definition sanitize_admin_token (raw : string) : option string :=
  if negb (String.length raw =? TOKEN_HEX_LEN)%nat then None
  else if negb (forallb is_lower_hex (String.list_ascii_of_string raw)) then None
  else Some raw.

Definition mask_key (key : bytes) : checked bytes :=
  if (length key <=? 12)%nat then Returns key
  else if is_char_boundary key 11 && is_char_boundary key (length key - 4)
  then Returns (take 11 key ++ lit "..." ++ drop (length key - 4) key)
  else Panics.

Definition tier_features (t : string) : list string :=
  if bool_decide (t = tier.OBSERVE_PAID) then ["exporter"%string]
  else if bool_decide (t = tier.INLINE_LICENSED) then ["gateway"%string; "exporter"%string]
  else [].

(** ** Mail *)

Module Mail.
Record t : Type := mk { to : string; subject : string; body : string }.
End Mail.

Definition nl : string := String.String (Ascii.ascii_of_nat 10) "".

Definition verification_body (site_url token : string) : string :=
  "Welcome to ReserveGrid OS Observe Mode." +:+ nl +:+ nl +:+
  "Click the link below to verify your email address:" +:+ nl +:+ nl +:+
  site_url +:+ "/verify/?token=" +:+ token +:+ nl +:+ nl +:+
  "This link expires in 7 days." +:+ nl +:+ nl +:+ "— Veldra".
Definition admin_notification_body (base_url user_name user_email user_org approve_token deny_token : string) : string :=
  "New Observe Mode access request:" +:+ nl +:+ nl +:+
  "Name:  " +:+ user_name +:+ nl +:+ "Email: " +:+ user_email +:+ nl +:+ "Org:   " +:+ user_org +:+ nl +:+ nl +:+
  "Approve: " +:+ base_url +:+ "/auth/approve?token=" +:+ approve_token +:+ nl +:+
  "Deny:    " +:+ base_url +:+ "/auth/deny?token=" +:+ deny_token +:+ nl +:+ nl +:+ "— rg-auth".
Definition approval_body (base_url : string) : string :=
  "Your request for ReserveGrid OS Observe Mode access has been approved." +:+ nl +:+ nl +:+
  "You can now log in at:" +:+ nl +:+ base_url +:+ "/login/" +:+ nl +:+ nl +:+ "— Veldra".
Definition password_reset_body (site_url token : string) : string :=
  "You requested a password reset for your ReserveGrid OS account." +:+ nl +:+ nl +:+
  "Click the link below to set a new password:" +:+ nl +:+ nl +:+
  site_url +:+ "/reset-password/?token=" +:+ token +:+ nl +:+ nl +:+
  "This link expires in 1 hour. If you did not request this, ignore this email." +:+ nl +:+ nl +:+ "— Veldra".
Definition denial_body : string :=
  "Your request for ReserveGrid OS Observe Mode access has been denied." +:+ nl +:+ nl +:+
  "If you believe this is an error, please contact us." +:+ nl +:+ nl +:+ "— Veldra".
Definition duplicate_body : string :=
  "Someone attempted to create a new Veldra account using your email address." +:+ nl +:+ nl +:+
  "If this was you, you already have an account. Try logging in or resetting your password." +:+ nl +:+ nl +:+
  "If this was not you, no action is needed. Your account is secure." +:+ nl +:+ nl +:+ "— Veldra".

(** ** Answers *)

Module UserView.
Record t : Type := mk { id : Z; name : string; email : string; org : string; tier : string }.
Definition of_user (u : User.t) : t := mk (User.id u) (User.name u) (User.email u) (User.org u) (User.tier u).
End UserView.

Module KeyView.
Record t : Type := mk {
  id : Z; key_prefix : bytes; key_value : bytes; label : bytes; status : string; created_at : Z; revoked_at : option Z }.
End KeyView.

Inductive page : Type := ConfirmPage (label color token action : string) | InvalidTokenPage (label : string).

Inductive Body : Type :=
| ErrJson (code detail : string)
| OkJson (message : string)
| PlainOk
| PlainText (text : string)
| LoginJson (token : string) (user : UserView.t)
| SessionInvalid
| SessionValid (user : UserView.t)
| KeyInvalid (reason : string)
| KeyValid (tier org_id : string)
| KeysJson (keys : list KeyView.t)
| KeyCreated (id : Z) (key_value label : bytes) (tier status : string)
| SettingsJson (ttl : Z) (admin_email site_url auth_url : string) (smtp_configured trust_proxy : bool)
| Html (p : page).

Module Response.
Record t : Type := mk { code : Z; body : Body }.
End Response.

Definition OK : Z := 200.
Definition CREATED : Z := 201.
Definition BAD_REQUEST : Z := 400.
Definition UNAUTHORIZED : Z := 401.
Definition FORBIDDEN : Z := 403.
Definition NOT_FOUND : Z := 404.
Definition CONFLICT : Z := 409.
Definition TOO_MANY_REQUESTS : Z := 429.
Definition INTERNAL_SERVER_ERROR : Z := 500.

(** What a handler does with the connection: an answer, the mail it sends, the database after. The
    answer is [Panics] when a slice panics. *)
Definition K : Type := Db.t -> checked Response.t * list Mail.t * Db.t.
Definition reply (code : Z) (body : Body) : K := fun d => (Returns (Response.mk code body), [], d).
Definition on {A} (m : M A) (k : result A DbError -> K) : K := fun d => let '(r, d) := m d in k r d.
Definition mail (to subject body : string) (k : K) : K :=
  fun d => let '(r, ms, d) := k d in (r, Mail.mk to subject body :: ms, d).

(** [.ok().flatten()] and the pattern [Ok(Some(x))]. *)
Definition flat {A} (r : result (option A) DbError) : option A := match r with Ok o => o | Err _ => None end.

(** ** The handlers *)

Module AuthConfig.
Record t (SK : Type) : Type := mk {
  admin_email : string; site_url : string; auth_url : string; session_ttl_hours : Z;
  rate_limit_multiplier : Z; trust_proxy : bool; smtp_configured : bool; signing_key : SK }.
Arguments mk {SK}. Arguments admin_email {SK}. Arguments site_url {SK}. Arguments auth_url {SK}.
Arguments session_ttl_hours {SK}. Arguments rate_limit_multiplier {SK}. Arguments trust_proxy {SK}.
Arguments smtp_configured {SK}. Arguments signing_key {SK}.
End AuthConfig.
Import AuthConfig.

(** The shared state: the database behind its lock, and the limiter. *)
Module App.
Record t (Ip : Type) `{Countable Ip} : Type := mk { db : Db.t; db_poisoned : bool; limiter : RateLimiter.t Ip }.
Arguments mk {Ip EqDecision0 H}. Arguments db {Ip EqDecision0 H}.
Arguments db_poisoned {Ip EqDecision0 H}. Arguments limiter {Ip EqDecision0 H}.
End App.

(** When a request is handled, where it came from, the headers that are read. *)
Module Meta.
Record t (Ip : Type) : Type := mk {
  now : Z; instant : Z; addr : Ip; forwarded_for : option bytes; authorization : option bytes }.
Arguments mk {Ip}. Arguments now {Ip}. Arguments instant {Ip}. Arguments addr {Ip}.
Arguments forwarded_for {Ip}. Arguments authorization {Ip}.
End Meta.

Section Handlers.
Context {Ip : Type} `{IpOrder Ip} `{IpText Ip}.
Context `{Base64Crate} `{LicenseJson} `{Ed25519Crate} `{Sha256Crate} `{PasswordCrate} `{KeyOrder}.
Context (cfg : AuthConfig.t SigningKey).

Definition client_ip (rq : Meta.t Ip) : Ip :=
  if trust_proxy cfg
  then default (Meta.addr rq)
         (xff ← Meta.forwarded_for rq; val ← header_to_str xff;
          first ← head (split_str x2c val); parse_ip (VerdictLog.trim_str first))
  else Meta.addr rq.

(** The state a handler changes. *)
Definition handled : Type := checked Response.t * list Mail.t * App.t Ip.
Definition answer (code : Z) (body : Body) (s : App.t Ip) : handled := (Returns (Response.mk code body), [], s).

(** [state.db.lock()]: the connection, or the answer for a poisoned lock. A panic in [k] poisons it. *)
Definition locked (poisoned : Body) (k : K) (s : App.t Ip) : handled :=
  if App.db_poisoned s then answer INTERNAL_SERVER_ERROR poisoned s
  else
    let '(r, ms, d) := k (App.db s) in
    (r, ms, App.mk d (match r with Panics => true | Returns _ => false end) (App.limiter s)).

(** The limit of an endpoint, per minute and address. *)
Definition rate_guard (per_minute : Z) (refused : Body) (rq : Meta.t Ip) (k : App.t Ip -> handled) (s : App.t Ip) : handled :=
  let '(ok, limiter) :=
    RateLimiter.check (Meta.instant rq) (client_ip rq) (per_minute * rate_limit_multiplier cfg mod 2 ^ 32) (App.limiter s) in
  let s := App.mk (App.db s) (App.db_poisoned s) limiter in
  if ok then k s else answer TOO_MANY_REQUESTS refused s.

Definition registered : Body := OkJson "Registration successful. Check your email to verify.".

(** The part of [register] under the lock. *)
Definition register_account (now : Z) (email name org hash : string) (random : bytes) : K :=
  on (get_user_by_email email) (fun found =>
    match flat found with
    | Some _ => mail email "Account registration attempt — Veldra" duplicate_body (reply CREATED registered)
    | None =>
        on (insert_user now email name org hash) (fun inserted =>
          match inserted with
          | Err _ => reply INTERNAL_SERVER_ERROR (ErrJson "internal_error" "Failed to create user")
          | Ok user_id =>
              let verify_token := generate_token random in
              on (insert_email_token now verify_token user_id "verify") (fun _ =>
                mail email "Verify your email — Veldra" (verification_body (site_url cfg) verify_token)
                  (reply CREATED registered))
          end)
    end).

Definition register (rq : Meta.t Ip) (email name org password : string) (salt random : bytes) : App.t Ip -> handled :=
  rate_guard 5 (ErrJson "rate_limited" "Too many requests") rq (fun s =>
    if negb (is_valid_email email) then answer BAD_REQUEST (ErrJson "invalid_email" "Invalid email address") s
    else if negb (text_ok name) then answer BAD_REQUEST (ErrJson "invalid_name" "Name is required (max 200 chars)") s
    else if negb (text_ok org) then answer BAD_REQUEST (ErrJson "invalid_org" "Organization is required (max 200 chars)") s
    else if negb (password_ok password) then
      answer BAD_REQUEST (ErrJson "weak_password" "Password must be 8 to 1024 characters") s
    else
      match password_hash salt password with
      | None => answer INTERNAL_SERVER_ERROR (ErrJson "internal_error" "Failed to hash password") s
      | Some hash =>
          locked (ErrJson "internal_error" "Database error") (register_account (Meta.now rq) email name org hash random) s
      end).

(** A mail link: the token is consumed, then [k] runs for its user. *)
Definition consume_link (m : M (option Z)) (invalid : Body) (failed : Body) (k : Z -> K) : K :=
  on m (fun r =>
    match r with
    | Ok (Some uid) => k uid
    | Ok None => reply BAD_REQUEST invalid
    | Err _ => reply INTERNAL_SERVER_ERROR failed
    end).

Definition internal : Body := ErrJson "internal_error" "Internal error.".

Definition verify_email_token (now : Z) (token : string) (random_approve random_deny : bytes) : K :=
  consume_link (consume_email_token now token "verify")
    (ErrJson "invalid_token" "Invalid or expired verification link.") internal (fun user_id =>
    on (update_user_status now user_id status.PENDING_APPROVAL) (fun updated =>
      match updated with
      | Err _ => reply INTERNAL_SERVER_ERROR internal
      | Ok _ =>
          on (get_user_by_id user_id) (fun user =>
            let approve_token := generate_token random_approve in
            let deny_token := generate_token random_deny in
            on (insert_email_token now approve_token user_id "approve") (fun _ =>
            on (insert_email_token now deny_token user_id "deny") (fun _ =>
              let ok := reply OK (OkJson "Email verified. Your request is pending admin approval.") in
              match flat user with
              | Some u =>
                  mail (admin_email cfg) ("Observe access request: " +:+ User.name u)
                    (admin_notification_body (auth_url cfg) (User.name u) (User.email u) (User.org u) approve_token deny_token) ok
              | None => ok
              end)))
      end)).

Definition verify_email (rq : Meta.t Ip) (token : string) (random_approve random_deny : bytes) : App.t Ip -> handled :=
  rate_guard 5 (ErrJson "rate_limited" "Too many requests.") rq
    (locked internal (verify_email_token (Meta.now rq) token random_approve random_deny)).

Definition invalid_credentials : Body := ErrJson "invalid_credentials" "Invalid email or password".

(** The part of [login] after the password was found right. *)
Definition open_session (now : Z) (user : User.t) (random : bytes) : K :=
  let st := User.status user in
  if bool_decide (st = status.PENDING_VERIFICATION) then
    reply FORBIDDEN (ErrJson "email_not_verified" "Please verify your email first")
  else if bool_decide (st = status.PENDING_APPROVAL) then
    reply FORBIDDEN (ErrJson "pending_approval" "Your account is pending admin approval")
  else if bool_decide (st = status.DENIED) then
    reply FORBIDDEN (ErrJson "access_denied" "Your access request was denied")
  else if negb (bool_decide (st = status.APPROVED)) then
    reply INTERNAL_SERVER_ERROR (ErrJson "internal_error" "Unknown account status")
  else
    let token := generate_token random in
    on (insert_session now (hash_token token) (User.id user) (session_ttl_hours cfg)) (fun inserted =>
      match inserted with
      | Err _ => reply INTERNAL_SERVER_ERROR (ErrJson "internal_error" "Session creation failed")
      | Ok _ => reply OK (LoginJson token (UserView.of_user user))
      end).

Definition login_account (now : Z) (email password : string) (random : bytes) : K :=
  on (get_user_by_email email) (fun found =>
    match flat found with
    | None => reply UNAUTHORIZED invalid_credentials
    | Some user =>
        if negb (default false (password_verify password (User.password user)))
        then reply UNAUTHORIZED invalid_credentials
        else open_session now user random
    end).

Definition login (rq : Meta.t Ip) (email password : string) (random : bytes) : App.t Ip -> handled :=
  rate_guard 10 (ErrJson "rate_limited" "Too many requests") rq
    (locked (ErrJson "internal_error" "Database error") (login_account (Meta.now rq) email password random)).

Definition logout (rq : Meta.t Ip) (s : App.t Ip) : handled :=
  match extract_bearer (Meta.authorization rq) with
  | Some token =>
      if App.db_poisoned s then answer OK PlainOk s
      else locked PlainOk (on (delete_session (hash_token token)) (fun _ => reply OK PlainOk)) s
  | None => answer OK PlainOk s
  end.

(** [validate_session] for the bearer's token; [k] runs for its user. *)
Definition for_session (now : Z) (token : string) (invalid : Body) (k : Z -> K) : K :=
  on (validate_session now (hash_token token)) (fun r =>
    match flat r with Some user_id => k user_id | None => reply UNAUTHORIZED invalid end).

Definition session_check (rq : Meta.t Ip) (s : App.t Ip) : handled :=
  match extract_bearer (Meta.authorization rq) with
  | None => answer UNAUTHORIZED SessionInvalid s
  | Some token =>
      locked SessionInvalid (for_session (Meta.now rq) token SessionInvalid (fun user_id =>
        on (get_user_by_id user_id) (fun r =>
          match flat r with
          | Some u => if bool_decide (User.status u = status.APPROVED)
                      then reply OK (SessionValid (UserView.of_user u)) else reply UNAUTHORIZED SessionInvalid
          | None => reply UNAUTHORIZED SessionInvalid
          end))) s
  end.

(** The pages behind the links of the administrator. *)
Definition admin_confirm_page (token action : string) : page :=
  let label := if bool_decide (action = "approve"%string) then "Approve User" else "Deny User" in
  let color := if bool_decide (action = "approve"%string) then "#22c55e" else "#ef4444" in
  match sanitize_admin_token token with
  | None => InvalidTokenPage label
  | Some safe_token => ConfirmPage label color safe_token action
  end.
Definition approve (token : string) (s : App.t Ip) : handled := answer OK (Html (admin_confirm_page token "approve")) s.
Definition deny (token : string) (s : App.t Ip) : handled := answer OK (Html (admin_confirm_page token "deny")) s.

(** The decision of the administrator, confirmed. *)
Definition decide_user (now : Z) (token kind new_status : string) (invalid : Body) (subject body : string) (done_ : Body) : K :=
  consume_link (consume_email_token now token kind) invalid internal (fun user_id =>
    on (update_user_status now user_id new_status) (fun updated =>
      match updated with
      | Err _ => reply INTERNAL_SERVER_ERROR internal
      | Ok _ =>
          on (get_user_by_id user_id) (fun user =>
            match flat user with
            | Some u => mail (User.email u) subject body (reply OK done_)
            | None => reply OK done_
            end)
      end)).

Definition approve_confirm (rq : Meta.t Ip) (token : string) : App.t Ip -> handled :=
  rate_guard 3 (ErrJson "rate_limited" "Too many requests.") rq
    (locked internal (decide_user (Meta.now rq) token "approve" status.APPROVED
      (ErrJson "invalid_token" "Invalid or expired approval link.")
      "Observe Mode access approved — Veldra" (approval_body (site_url cfg))
      (OkJson "User approved. They can now log in."))).

Definition deny_confirm (rq : Meta.t Ip) (token : string) : App.t Ip -> handled :=
  rate_guard 3 (ErrJson "rate_limited" "Too many requests.") rq
    (locked internal (decide_user (Meta.now rq) token "deny" status.DENIED
      (ErrJson "invalid_token" "Invalid or expired denial link.")
      "Observe Mode access update — Veldra" denial_body (OkJson "User denied."))).

Definition reset_sent : Body := OkJson "If that email is registered, a password reset link has been sent.".

Definition forgot_account (now : Z) (email : string) (random : bytes) : K :=
  on (get_user_by_email email) (fun found =>
    match flat found with
    | None => reply OK reset_sent
    | Some user =>
        let reset_token := generate_token random in
        on (insert_email_token now reset_token (User.id user) "password_reset") (fun inserted =>
          match inserted with
          | Err _ => reply OK reset_sent
          | Ok _ => mail email "Password reset — Veldra" (password_reset_body (site_url cfg) reset_token)
                      (reply OK reset_sent)
          end)
    end).

Definition forgot_password (rq : Meta.t Ip) (email : string) (random : bytes) : App.t Ip -> handled :=
  rate_guard 3 (ErrJson "rate_limited" "Too many requests") rq (fun s =>
    if App.db_poisoned s then answer OK reset_sent s
    else locked reset_sent (forgot_account (Meta.now rq) email random) s).

Definition reset_account (now : Z) (token password : string) (salt : bytes) : K :=
  consume_link (consume_email_token_ttl now token "password_reset" 1)
    (ErrJson "invalid_token" "Invalid or expired reset link") (ErrJson "internal_error" "Database error") (fun user_id =>
    match password_hash salt password with
    | None => reply INTERNAL_SERVER_ERROR (ErrJson "internal_error" "Failed to hash password")
    | Some hash =>
        on (update_password user_id hash) (fun updated =>
          match updated with
          | Err _ => reply INTERNAL_SERVER_ERROR (ErrJson "internal_error" "Failed to update password")
          | Ok _ =>
              on (delete_sessions_for_user user_id) (fun _ =>
                reply OK (OkJson "Password reset successful. You can now log in."))
          end)
    end).

Definition reset_password (rq : Meta.t Ip) (token password : string) (salt : bytes) : App.t Ip -> handled :=
  rate_guard 5 (ErrJson "rate_limited" "Too many requests") rq (fun s =>
    if negb (password_ok password) then
      answer BAD_REQUEST (ErrJson "weak_password" "Password must be 8 to 1024 characters") s
    else locked (ErrJson "internal_error" "Database error") (reset_account (Meta.now rq) token password salt) s).

Definition validate_key (rq : Meta.t Ip) (key : bytes) : App.t Ip -> handled :=
  rate_guard 20 (KeyInvalid "rate_limited") rq (fun s =>
    match key with
    | [] => answer BAD_REQUEST (KeyInvalid "empty_key") s
    | _ =>
        match verify_license_key key (verifying_key (signing_key cfg)) with
        | None => answer OK (KeyInvalid "invalid_signature") s
        | Some payload =>
            if LicensePayload.expires_at payload <? Meta.now rq then answer OK (KeyInvalid "key_expired") s
            else
              locked (KeyInvalid "internal_error") (on (validate_license_key key) (fun r =>
                match r with
                | Ok (Some _) => reply OK (KeyValid (LicensePayload.tier payload) (LicensePayload.org_id payload))
                | Ok None => reply OK (KeyInvalid "revoked_or_unknown")
                | Err _ => reply INTERNAL_SERVER_ERROR (KeyInvalid "internal_error")
                end)) s
        end
    end).

(** What the account pages require first. *)
Definition with_session (rq : Meta.t Ip) (k : Z -> K) (s : App.t Ip) : handled :=
  match extract_bearer (Meta.authorization rq) with
  | None => answer UNAUTHORIZED (ErrJson "unauthorized" "Missing session token") s
  | Some token =>
      locked (ErrJson "internal_error" "Database error")
        (for_session (Meta.now rq) token (ErrJson "unauthorized" "Invalid or expired session") k) s
  end.

Fixpoint key_views (keys : list LicenseKey.t) : checked (list KeyView.t) :=
  match keys with
  | [] => Returns []
  | k :: keys =>
      match mask_key (LicenseKey.key_value k), key_views keys with
      | Returns m, Returns vs =>
          Returns (KeyView.mk (LicenseKey.id k) m (LicenseKey.key_value k) (LicenseKey.label k) (LicenseKey.status k)
                     (LicenseKey.created_at k) (LicenseKey.revoked_at k) :: vs)
      | _, _ => Panics
      end
  end.

Definition list_keys (rq : Meta.t Ip) : App.t Ip -> handled :=
  with_session rq (fun user_id =>
    on (get_license_keys_for_user user_id) (fun r =>
      match r with
      | Ok keys =>
          match key_views keys with
          | Returns vs => reply OK (KeysJson vs)
          | Panics => fun d => (Panics, [], d)
          end
      | Err _ => reply INTERNAL_SERVER_ERROR (ErrJson "internal_error" "Failed to retrieve keys")
      end)).

Definition key_label (label : bytes) : bytes :=
  match label with [] => lit "default" | _ => take_chars 100 label end.

(** [format!("user {user_id} already has {active_count} active keys (limit 5)")]. *)
Definition limit_message (user_id active_count : Z) : string :=
  "user " +:+ pretty user_id +:+ " already has " +:+ pretty active_count +:+ " active keys (limit 5)".

Definition issue_key (now : Z) (label : bytes) (user_id : Z) : K :=
  on (get_user_by_id user_id) (fun r =>
    match flat r with
    | None => reply UNAUTHORIZED (ErrJson "unauthorized" "User not found")
    | Some user =>
        if negb (bool_decide (User.status user = status.APPROVED)) then
          reply FORBIDDEN (ErrJson "not_approved" "Account must be approved to generate keys")
        else
          let t := User.tier user in
          let key_value := sign_license_key now (signing_key cfg) (User.org user) t (tier_features t) in
          let label := key_label label in
          on (insert_license_key now user_id key_value label) (fun inserted =>
            match inserted with
            | Ok key_id => reply CREATED (KeyCreated key_id key_value label t key_status.ACTIVE)
            | Err (KeyLimit n) => reply CONFLICT (ErrJson "key_limit_reached" (limit_message user_id n))
            | Err _ => reply INTERNAL_SERVER_ERROR (ErrJson "internal_error" "Failed to generate key")
            end)
    end).

Definition generate_key (rq : Meta.t Ip) (label : bytes) : App.t Ip -> handled :=
  with_session rq (issue_key (Meta.now rq) label).

Definition revoke_key (rq : Meta.t Ip) (key_id : Z) : App.t Ip -> handled :=
  with_session rq (fun user_id =>
    on (revoke_license_key (Meta.now rq) key_id user_id) (fun r =>
      match r with
      | Ok true => reply OK (OkJson "Key revoked")
      | Ok false => reply NOT_FOUND (ErrJson "key_not_found" "Key not found or already revoked")
      | Err _ => reply INTERNAL_SERVER_ERROR (ErrJson "internal_error" "Failed to revoke key")
      end)).

Definition admin_settings (rq : Meta.t Ip) : App.t Ip -> handled :=
  with_session rq (fun user_id =>
    on (get_user_by_id user_id) (fun r =>
      match flat r with
      | None => reply UNAUTHORIZED (ErrJson "unauthorized" "User not found")
      | Some user =>
          if negb (bool_decide (User.email user = admin_email cfg)) then
            reply FORBIDDEN (ErrJson "forbidden" "Admin access required")
          else reply OK (SettingsJson (session_ttl_hours cfg) (admin_email cfg) (site_url cfg) (auth_url cfg)
                           (smtp_configured cfg) (trust_proxy cfg))
      end)).

Definition health (s : App.t Ip) : handled := answer OK (PlainText "ok") s.

(** ** Requests and the life of the service *)

Inductive api_request : Type :=
| Register (email name org password : string) (salt random : bytes)
| VerifyEmail (token : string) (random_approve random_deny : bytes)
| Login (email password : string) (random : bytes)
| Logout
| SessionCheck
| ApprovePage (token : string)
| ApproveConfirm (token : string)
| DenyPage (token : string)
| DenyConfirm (token : string)
| ForgotPassword (email : string) (random : bytes)
| ResetPassword (token password : string) (salt : bytes)
| ValidateKey (key : bytes)
| ListKeys
| GenerateKey (label : bytes)
| RevokeKey (key_id : Z)
| AdminSettings
| Health.

(** The router. *)
Definition handle (rq : Meta.t Ip) (r : api_request) : App.t Ip -> handled :=
  match r with
  | Register email name org password salt random => register rq email name org password salt random
  | VerifyEmail token ra rd => verify_email rq token ra rd
  | Login email password random => login rq email password random
  | Logout => logout rq
  | SessionCheck => session_check rq
  | ApprovePage token => approve token
  | ApproveConfirm token => approve_confirm rq token
  | DenyPage token => deny token
  | DenyConfirm token => deny_confirm rq token
  | ForgotPassword email random => forgot_password rq email random
  | ResetPassword token password salt => reset_password rq token password salt
  | ValidateKey key => validate_key rq key
  | ListKeys => list_keys rq
  | GenerateKey label => generate_key rq label
  | RevokeKey key_id => revoke_key rq key_id
  | AdminSettings => admin_settings rq
  | Health => health
  end.

(** The hourly cleanup of the database, and that of the limiter. *)
Definition session_cleanup (now : Z) (s : App.t Ip) : App.t Ip :=
  if App.db_poisoned s then s
  else
    let d := (cleanup_expired_sessions now (App.db s)).2 in
    App.mk (cleanup_stale_email_tokens now d).2 false (App.limiter s).
Definition rate_limit_cleanup (instant : Z) (s : App.t Ip) : App.t Ip :=
  App.mk (App.db s) (App.db_poisoned s) (RateLimiter.cleanup instant (App.limiter s)).

Inductive app_step : App.t Ip -> App.t Ip -> Prop :=
| step_request rq r s : app_step s (handle rq r s).2
| step_session_cleanup now s : app_step s (session_cleanup now s)
| step_limiter_cleanup instant s : app_step s (rate_limit_cleanup instant s).
End Handlers.

(** * Properties *)

(** ** What the combinators keep *)

Definition k_spec (P : Db.t -> Prop) (k : K) (Q : Db.t -> Prop) : Prop := forall d, P d -> Q (k d).2.
Abbreviation k_keeps I k := (k_spec I k I).

Lemma k_reply (P Q : Db.t -> Prop) code body : (forall d, P d -> Q d) -> k_spec P (reply code body) Q.
Proof. intros HPQ d. apply HPQ. Qed.

Lemma k_mail P Q to subject body k : k_spec P k Q -> k_spec P (mail to subject body k) Q.
Proof. intros Hk d Hd. specialize (Hk d Hd). unfold mail. by destruct (k d) as [[r ms] d']. Qed.

Lemma k_on {A} P (m : M A) Q k R : spec P m Q -> (forall r, k_spec (Q r) (k r) R) -> k_spec P (on m k) R.
Proof.
  intros Hm Hk d Hd. specialize (Hm d Hd). unfold on. destruct (m d) as [r d']. by apply (Hk r d').
Qed.

(** The same from a stronger precondition. *)
Lemma k_on_pre {A} P P' (m : M A) Q k R : spec P m Q -> (forall d, P' d -> P d) ->
  (forall r, k_spec (Q r) (k r) R) -> k_spec P' (on m k) R.
Proof. intros Hm HP. apply k_on. intros d Hd. by apply Hm, HP. Qed.

Lemma k_on_keeps {A} I (m : M A) k : keeps I m -> (forall r, k_keeps I (k r)) -> k_keeps I (on m k).
Proof. intros Hm Hk. by eapply k_on. Qed.

(** Strip answers, mails and tests from a handler. *)
Ltac k_auto :=
  repeat first
    [ apply k_reply; intros ? ?; by (done || naive_solver)
    | apply k_mail
    | match goal with
      | |- k_spec _ (if ?b then _ else _) _ => destruct b
      | |- k_spec _ (match flat ?r with _ => _ end) _ => destruct (flat r)
      | |- k_spec _ (match ?r with _ => _ end) _ => destruct r
      | |- k_spec _ (fun d => (_, _, d)) _ => by intros ? ?
      end ].

(** The statements of a handler one by one, by what keeps a property. *)
Ltac sk_auto Hk :=
  repeat first
    [ progress k_auto
    | apply k_on_keeps;
      [ first [ eapply sk_insert_user; exact Hk | eapply sk_update_status; exact Hk
              | eapply sk_update_password; exact Hk | eapply sk_consume; exact Hk
              | eapply sk_insert_session; [exact Hk|done] | eapply sk_delete_session; [exact Hk|done]
              | eapply sk_delete_where; [exact Hk|done] | eapply sk_insert_license; exact Hk
              | eapply sk_revoke; exact Hk | eapply sk_insert_token; [exact Hk|done]
              | apply keeps_query; apply Hk ]
      | intros ? ] ].

Section Keeps.
Context {Ip : Type} `{IpOrder Ip} `{IpText Ip}.
Context `{Base64Crate} `{LicenseJson} `{Ed25519Crate} `{Sha256Crate} `{PasswordCrate} `{KeyOrder}.
Context (cfg : AuthConfig.t SigningKey).

Definition h_keeps (I : Db.t -> Prop) (h : App.t Ip -> handled (Ip := Ip)) : Prop :=
  forall s : App.t Ip, I (App.db s) -> I (App.db (h s).2).

Lemma h_answer I code body : h_keeps I (answer code body).
Proof. by intros s. Qed.

Lemma h_locked I body k : k_keeps I k -> h_keeps I (locked body k).
Proof.
  intros Hk s Hs. specialize (Hk (App.db s) Hs). unfold locked. destruct (App.db_poisoned s); [done|].
  by destruct (k (App.db s)) as [[r ms] d].
Qed.

Lemma h_limited I n body rq k : h_keeps I k -> h_keeps I (rate_guard cfg n body rq k).
Proof.
  intros Hk s Hs. unfold rate_guard. destruct (RateLimiter.check _ _ _ _) as [ok l]. destruct ok; [|done]. by apply Hk.
Qed.

Lemma h_if I (b : bool) h1 h2 : h_keeps I h1 -> h_keeps I h2 -> h_keeps I (fun s => if b then h1 s else h2 s).
Proof. by destruct b. Qed.

Lemma k_for_session I now token body k `{!FaultFree I} : (forall uid, k_keeps I (k uid)) ->
  k_keeps I (for_session now token body k).
Proof.
  intros Hk. apply k_on_keeps; [by apply validate_session_keeps|]. intros r. destruct (flat r); [apply Hk|by apply k_reply].
Qed.

Lemma h_with_session I rq k `{!FaultFree I} : (forall uid, k_keeps I (k uid)) -> h_keeps I (with_session rq k).
Proof.
  intros Hk s. unfold with_session. destruct (extract_bearer _); [|apply h_answer].
  apply h_locked. by apply k_for_session.
Qed.

Lemma k_consume_link P m bad failed k : spec db_ok m (fun r d => db_ok d /\ forall uid, r = Ok (Some uid) -> P uid d) ->
  (forall uid, k_spec (fun d => db_ok d /\ P uid d) (k uid) db_ok) -> k_keeps db_ok (consume_link m bad failed k).
Proof.
  intros Hm Hk. eapply k_on; [exact Hm|]. intros [[uid|]|e]; [|apply k_reply; naive_solver..].
  intros d [Hd Hu]. apply Hk. by split; [|apply Hu].
Qed.

Lemma register_ok now email name org hash random : k_keeps db_ok (register_account cfg now email name org hash random).
Proof.
  apply k_on_keeps; [apply get_user_by_email_keeps; apply _|]. intros r. destruct (flat r); [by k_auto|].
  apply k_on_keeps; [apply insert_user_keeps|]. intros [uid|]; [|by k_auto].
  eapply k_on_pre; [apply insert_email_token_keeps|intros d Hd; split; [done|by intros [?|?]]|].
  intros ?. apply k_mail, k_reply. by intros d [].
Qed.

Lemma verify_email_ok now token ra rd : k_keeps db_ok (verify_email_token cfg now token ra rd).
Proof.
  eapply k_consume_link; [apply consume_spec|]. intros uid.
  eapply k_on_pre; [apply update_pending_spec|by intros d [Hd [Hx _]]|]. intros [[]|e]; [|by k_auto].
  assert (FaultFree (fun d => db_ok d /\ is_verified uid d)) as Hff by apply _.
  eapply k_on_pre; [exact (@get_user_by_id_keeps (fun d => db_ok d /\ is_verified uid d) uid Hff)|intros d [Hd Hv]; by split; [|apply Hv]|].
  intros user. do 2 (eapply k_on_pre; [apply insert_email_token_keeps|intros d [Hd Hv]; by split; [|intros _; (apply Hv; auto) || apply Hv]|];
    intros ?).
  destruct (flat user); k_auto.
Qed.

Lemma decide_user_ok now token kind st bad subject body done_ :
  (kind = "approve"%string /\ st = status.APPROVED) \/ (kind = "deny"%string /\ st = status.DENIED) ->
  k_keeps db_ok (decide_user now token kind st bad subject body done_).
Proof.
  intros Hks. eapply k_consume_link; [apply consume_spec|]. intros uid.
  eapply k_on_pre; [apply (update_decided_keeps now uid st); naive_solver|intros d [Hd [_ Hv]]; split; [done|]; apply Hv; naive_solver|].
  intros [[]|e]; [|by k_auto].
  eapply k_on_keeps; [apply get_user_by_id_keeps; apply _|]. intros r. by k_auto.
Qed.

Lemma login_ok now email password random : k_keeps db_ok (login_account cfg now email password random).
Proof.
  apply k_on_keeps; [apply get_user_by_email_keeps; apply _|]. intros r. unfold open_session. k_auto.
  apply k_on_keeps; [apply insert_session_keeps|]. intros ?. by k_auto.
Qed.

Lemma forgot_ok now email random : k_keeps db_ok (forgot_account cfg now email random).
Proof.
  apply k_on_keeps; [apply get_user_by_email_keeps; apply _|]. intros r. k_auto.
  eapply k_on_pre; [apply insert_email_token_keeps|intros d Hd; split; [done|by intros [?|?]]|]. intros ?. by k_auto.
Qed.

Lemma reset_ok now token password salt : k_keeps db_ok (reset_account now token password salt).
Proof.
  eapply k_consume_link; [apply consume_spec|]. intros uid. k_auto.
  eapply k_on_pre; [apply update_password_keeps|by intros d [Hd _]|]. intros ?. k_auto.
  apply k_on_keeps; [apply delete_sessions_where_keeps|]. intros ?. by k_auto.
Qed.

Lemma issue_key_ok now label uid : k_keeps db_ok (issue_key cfg now label uid).
Proof.
  apply k_on_keeps; [apply get_user_by_id_keeps; apply _|]. intros r. k_auto.
  apply k_on_keeps; [apply insert_license_key_keeps|]. intros ?. by k_auto.
Qed.

Lemma handle_keeps_ok rq r : h_keeps db_ok (handle cfg rq r).
Proof.
  destruct r; cbn [handle].
  - apply h_limited. do 4 (apply h_if; [apply h_answer|]). intros s. destruct (password_hash _ _); [|apply h_answer].
    apply h_locked, register_ok.
  - apply h_limited, h_locked, verify_email_ok.
  - apply h_limited, h_locked, login_ok.
  - intros s. unfold logout. destruct (extract_bearer _); [|apply h_answer]. destruct (App.db_poisoned s); [done|].
    apply h_locked, k_on_keeps; [apply delete_session_keeps|]. intros ?. by k_auto.
  - intros s. unfold session_check. destruct (extract_bearer _); [|apply h_answer]. apply h_locked, k_for_session; [apply _|].
    intros uid. apply k_on_keeps; [apply get_user_by_id_keeps; apply _|]. intros ?. by k_auto.
  - apply h_answer.
  - apply h_limited, h_locked, decide_user_ok. auto.
  - apply h_answer.
  - apply h_limited, h_locked, decide_user_ok. auto.
  - apply h_limited. intros s. destruct (App.db_poisoned s); [done|]. apply h_locked, forgot_ok.
  - apply h_limited, h_if; [apply h_answer|]. apply h_locked, reset_ok.
  - apply h_limited. destruct key; [apply h_answer|]. destruct (verify_license_key _ _); [|apply h_answer].
    apply h_if; [apply h_answer|]. apply h_locked, k_on_keeps; [apply validate_license_key_keeps; apply _|]. intros ?. by k_auto.
  - apply h_with_session; [apply _|]. intros uid. apply k_on_keeps; [apply get_license_keys_keeps; apply _|]. intros ?. by k_auto.
  - apply h_with_session; [apply _|]. intros uid. apply issue_key_ok.
  - apply h_with_session; [apply _|]. intros uid. apply k_on_keeps; [apply revoke_license_key_keeps|]. intros ?. by k_auto.
  - apply h_with_session; [apply _|]. intros uid. apply k_on_keeps; [apply get_user_by_id_keeps; apply _|]. intros ?. by k_auto.
  - apply h_answer.
Qed.

Lemma step_keeps_ok s s' : db_ok (App.db s) -> app_step cfg s s' -> db_ok (App.db s').
Proof.
  intros Hs Hst. destruct Hst; [by apply handle_keeps_ok| |done]. unfold session_cleanup.
  destruct (App.db_poisoned s); [done|]. cbn [App.db]. apply cleanup_tokens_keeps, delete_sessions_where_keeps, Hs.
Qed.

(** C15 Whatever is requested, in whatever order and however many statements the storage lets fail,
    the tables of the account service stay consistent: addresses of accounts and license keys are
    unique, every session, mail link and license key belongs to an account that exists, no account has
    more than five active license keys, and an account that is past the verification of its address,
    or that the administrator holds a link for, has a verified address. *)
Theorem accounts_stay_consistent s s' : db_ok (App.db s) -> star (app_step cfg) s s' -> db_ok (App.db s').
Proof. intros Hs Hst. exact (star_invariant _ (fun s => db_ok (App.db s)) step_keeps_ok s s' Hst Hs). Qed.

(** ** Properties kept statement by statement *)

(** The tokens a request generates are [fresh]; it writes sessions only under [sess]. *)
Definition request_within (fresh : string -> Prop) (sess : Prop) (r : api_request) : Prop :=
  match r with
  | Register _ _ _ _ _ random | ForgotPassword _ random => fresh (generate_token random)
  | VerifyEmail _ ra rd => fresh (generate_token ra) /\ fresh (generate_token rd)
  | Login _ _ _ | Logout | ResetPassword _ _ _ => sess
  | _ => True
  end.

Section Generic.
Context (I : Db.t -> Prop) (fresh : string -> Prop) (sess : Prop) (Hk : statements_keep I fresh sess).

Lemma handle_keeps rq r : request_within fresh sess r -> h_keeps I (handle cfg rq r).
Proof.
  intros Hr. destruct r; cbn [handle request_within] in *.
  - apply h_limited. do 4 (apply h_if; [apply h_answer|]). intros s. destruct (password_hash _ _); [|apply h_answer].
    apply h_locked. unfold register_account. sk_auto Hk.
  - destruct Hr as [Ha Hd]. apply h_limited, h_locked. unfold verify_email_token, consume_link. sk_auto Hk.
  - apply h_limited, h_locked. unfold login_account, open_session. sk_auto Hk.
  - intros s. unfold logout. destruct (extract_bearer _); [|apply h_answer]. destruct (App.db_poisoned s); [done|].
    apply h_locked. sk_auto Hk.
  - intros s. unfold session_check. destruct (extract_bearer _); [|apply h_answer]. apply h_locked, k_for_session; [apply Hk|].
    intros uid. sk_auto Hk.
  - apply h_answer.
  - apply h_limited, h_locked. unfold decide_user, consume_link. sk_auto Hk.
  - apply h_answer.
  - apply h_limited, h_locked. unfold decide_user, consume_link. sk_auto Hk.
  - apply h_limited. intros s. destruct (App.db_poisoned s); [done|]. apply h_locked. unfold forgot_account. sk_auto Hk.
  - apply h_limited, h_if; [apply h_answer|]. apply h_locked. unfold reset_account, consume_link. sk_auto Hk.
  - apply h_limited. destruct key; [apply h_answer|]. destruct (verify_license_key _ _); [|apply h_answer].
    apply h_if; [apply h_answer|]. apply h_locked. sk_auto Hk.
  - apply h_with_session; [apply Hk|]. intros uid. sk_auto Hk.
  - apply h_with_session; [apply Hk|]. intros uid. unfold issue_key. sk_auto Hk.
  - apply h_with_session; [apply Hk|]. intros uid. sk_auto Hk.
  - apply h_with_session; [apply Hk|]. intros uid. sk_auto Hk.
  - apply h_answer.
Qed.
End Generic.
End Keeps.
