(* ===== verification/AuthTrace.v ===== *)
(** * Runs of the account service

    What holds over sequences of requests: mail links work once, sessions come from logins and end
    with logouts and password resets, the answers do not tell which addresses have accounts, and a
    license key lives from its generation to its expiry or revocation. *)

From S2P Require Import Prelude Crates Limits License AuthDb Auth.

(** ** Runs *)

Lemma rev_case {A} (l : list A) : l = [] \/ exists l' x, l = l' ++ [x].
Proof. induction l as [|x l _] using rev_ind; [by left|right; eauto]. Qed.

Inductive event (Ip : Type) : Type :=
| Ev (rq : Meta.t Ip) (r : api_request)
| CleanDb (now : Z)
| CleanLimiter (instant : Z).
Arguments Ev {Ip}.
Arguments CleanDb {Ip}.
Arguments CleanLimiter {Ip}.

Section Runs.
Context {Ip : Type} `{IpOrder Ip} `{IpText Ip}.
Context `{Base64Crate} `{LicenseJson} `{Ed25519Crate} `{Sha256Crate} `{PasswordCrate} `{KeyOrder}.
Context (cfg : AuthConfig.t SigningKey).

Definition exec (e : event Ip) (s : App.t Ip) : App.t Ip :=
  match e with
  | Ev rq r => (handle cfg rq r s).2
  | CleanDb now => session_cleanup now s
  | CleanLimiter instant => rate_limit_cleanup instant s
  end.
Definition run (evs : list (event Ip)) (s : App.t Ip) : App.t Ip := foldl (fun s e => exec e s) s evs.

Lemma run_app a b s : run (a ++ b) s = run b (run a s).
Proof. apply foldl_app. Qed.

Definition event_within (fresh : string -> Prop) (sess : Prop) (e : event Ip) : Prop :=
  match e with Ev _ r => request_within fresh sess r | _ => True end.

(** A property the statements keep, and that survives the cleanup, holds after every run. *)
Lemma run_keeps I fresh sess evs : statements_keep I fresh sess ->
  (forall now, keeps I (cleanup_stale_email_tokens now)) -> (forall now, keeps I (cleanup_expired_sessions now)) ->
  Forall (event_within fresh sess) evs -> forall s, I (App.db s) -> I (App.db (run evs s)).
Proof.
  intros Hk Ht He Hevs. induction Hevs as [|e evs Hin _ IH]; intros s Hs; [done|].
  apply IH. destruct e as [rq r|now|inst]; cbn [exec event_within] in *.
  - by eapply handle_keeps.
  - unfold session_cleanup. destruct (App.db_poisoned s); [done|]. by apply Ht, He.
  - done.
Qed.

Definition answered_ok (h : handled (Ip := Ip)) : Prop := exists b, h.1.1 = Returns (Response.mk OK b).

(** ** Mail links *)

(** The token of a request that follows a mail link. *)
Definition link_token (r : api_request) : option string :=
  match r with
  | VerifyEmail token _ _ | ApproveConfirm token | DenyConfirm token | ResetPassword token _ _ => Some token
  | _ => None
  end.

(** The token cannot be consumed any more. *)
Definition spent (tok : string) (d : Db.t) : Prop :=
  forall r, Db.email_tokens d !! tok = Some r -> EmailToken.used r = true.

Lemma spent_statements tok : statements_keep (spent tok) (fun t => t <> tok) True.
Proof.
  split; [by intros b fs d|by intros l n d| | |by intros m d|by intros l n d].
  - intros now token id kind Hne. apply keeps_stmt; [by intros b fs d|]. intros d Hd. repeat case_if; try done.
    intros r. cbn. rewrite lookup_insert_ne by done. apply Hd.
  - intros now token kind ttl. apply keeps_stmt; [by intros b fs d|]. intros d Hd.
    destruct (Db.email_tokens d !! token) as [r|] eqn:Er; [|done]. case_if; [|done].
    intros r'. cbn. destruct (decide (token = tok)) as [->|Hne].
    + rewrite lookup_insert_eq. by intros [= <-].
    + rewrite lookup_insert_ne by done. apply Hd.
Qed.

Lemma spent_cleanup tok now : keeps (spent tok) (cleanup_stale_email_tokens now).
Proof.
  apply keeps_stmt; [by intros b fs d|]. intros d Hd r. cbn. intros [Hr _]%map_lookup_filter_Some. by apply Hd.
Qed.

Lemma spent_expired tok now : keeps (spent tok) (cleanup_expired_sessions now).
Proof. apply keeps_stmt; [by intros b fs d|]. done. Qed.

(** A consumed token is spent, and a spent one is not consumed. *)
Lemma consume_spends now tok kind ttl uid d : (consume_with now tok kind ttl d).1 = Ok (Some uid) ->
  spent tok (consume_with now tok kind ttl d).2.
Proof.
  enough (spec (fun _ => True) (consume_with now tok kind ttl) (fun r d => forall u, r = Ok (Some u) -> spent tok d)) as Hs.
  { intros Hu. by apply (Hs d I uid). }
  eapply (spec_bind _ _ _ (fun r d => forall n, r = Ok n -> n = 0 \/ spent tok d)).
  - apply spec_stmt; [by intros b fs e|intros e _|done]. destruct (Db.email_tokens e !! tok) as [r|] eqn:Er.
    2:{ intros n [= <-]. by left. }
    case_if; [|intros n [= <-]; by left]. intros n _. right. intros r'. cbn. rewrite lookup_insert_eq. by intros [= <-].
  - intros n. destruct (n =? 0) eqn:En; [by apply spec_ret|]. z_bool.
    apply (spec_bind _ _ _ (fun _ => spent tok)).
    + intros e He. destruct (He n eq_refl) as [?|Hsp]; [lia|]. revert e He Hsp.
      enough (keeps (spent tok) (token_user tok)) as Hq by (intros e _ Hsp; by apply Hq).
      apply keeps_query. by intros b fs e.
    + intros u. by apply spec_ret.
    + done.
  - done.
Qed.

Lemma spent_not_consumed now tok kind ttl uid d : spent tok d -> (consume_with now tok kind ttl d).1 <> Ok (Some uid).
Proof.
  intros Hd. enough (spec (spent tok) (consume_with now tok kind ttl) (fun r d => r <> Ok (Some uid))) as Hs by exact (Hs d Hd).
  eapply (spec_bind _ _ _ (fun r d => forall n, r = Ok n -> n = 0)).
  - apply spec_stmt; [by intros b fs e|intros e He|done]. destruct (Db.email_tokens e !! tok) as [r|] eqn:Er.
    2:{ by intros n [= <-]. }
    rewrite (He r Er), andb_false_r. cbn [andb fst]. by intros n [= <-].
  - intros n e He. rewrite (He n eq_refl). done.
  - done.
Qed.

(** A link is answered with success only after its token was consumed. *)
Lemma consume_link_ok m bad failed k d b : (consume_link m bad failed k d).1.1 = Returns (Response.mk OK b) ->
  exists uid, (m d).1 = Ok (Some uid) /\ consume_link m bad failed k d = k uid (m d).2.
Proof. unfold consume_link, on. destruct (m d) as [[[uid|]|e] d']; cbn; [by eauto|done..]. Qed.

Lemma limited_ok n body rq k s : answered_ok (rate_guard cfg n body rq k s) ->
  exists s1, App.db s1 = App.db s /\ App.db_poisoned s1 = App.db_poisoned s /\ rate_guard cfg n body rq k s = k s1.
Proof.
  unfold rate_guard. destruct (RateLimiter.check _ _ _ _) as [[] l]; [|by intros [b Hb]]. intros _. exists (App.mk (App.db s) (App.db_poisoned s) l). done.
Qed.

Lemma locked_ok body k (s : App.t Ip) : answered_ok (locked body k s) ->
  App.db_poisoned s = false /\ (exists b, (k (App.db s)).1.1 = Returns (Response.mk OK b)) /\
  App.db (locked body k s).2 = (k (App.db s)).2.
Proof.
  unfold locked. destruct (App.db_poisoned s); [by intros [b Hb]|]. destruct (k (App.db s)) as [[r ms] d].
  intros [b Hb]. split; [done|]. split; [by exists b|done].
Qed.

(** The success of a link handler, statement by statement. *)
Lemma link_ok_consumed m bad failed k body (s : App.t Ip) : answered_ok (locked body (consume_link m bad failed k) s) ->
  exists uid, (m (App.db s)).1 = Ok (Some uid) /\
    App.db (locked body (consume_link m bad failed k) s).2 = (k uid (m (App.db s)).2).2.
Proof.
  intros Hok. destruct (locked_ok _ _ _ Hok) as (_ & [b Hb] & ->).
  destruct (consume_link_ok _ _ _ _ _ _ Hb) as (uid & Hu & ->). by exists uid.
Qed.

Lemma link_ok rq r tok s : link_token r = Some tok -> answered_ok (handle cfg rq r s) ->
  exists kind ttl uid k, (consume_with (Meta.now rq) tok kind ttl (App.db s)).1 = Ok (Some uid) /\
    App.db (handle cfg rq r s).2 = (k (consume_with (Meta.now rq) tok kind ttl (App.db s)).2).2 /\
    (forall I fresh, statements_keep I fresh True -> request_within fresh True r -> k_keeps I k).
Proof.
  intros Ht Hok. destruct r; cbn [link_token] in Ht; try discriminate Ht; apply (inj Some) in Ht as ->;
    cbn [handle] in *; unfold verify_email, approve_confirm, deny_confirm, reset_password in *;
    destruct (limited_ok _ _ _ _ _ Hok) as (s1 & Hdb & _ & Heq); rewrite Heq in *; cbn beta in *.
  1,2,3: destruct (link_ok_consumed _ _ _ _ _ _ Hok) as (uid & Hu & Hd); rewrite Hdb in *;
    do 4 eexists; (split; [exact Hu|]); (split; [exact Hd|]); intros I fresh Hk Hin; cbn [request_within] in Hin;
    destruct_and?; sk_auto Hk; cbv zeta; sk_auto Hk.
  destruct (negb (password_ok password)); [by destruct Hok as [b Hb]|].
  destruct (link_ok_consumed _ _ _ _ _ _ Hok) as (uid & Hu & Hd); rewrite Hdb in *;
    do 4 eexists; (split; [exact Hu|]); (split; [exact Hd|]); intros I fresh Hk Hin; sk_auto Hk.
Qed.

(** C13 A link in a mail works once. After a request that followed a link (verification of an
    address, approval or denial, password reset) was answered with success, no request with the same
    token succeeds again, of whichever of the four kinds, however late and whatever happens in
    between, failures of the storage included, as long as that token is not drawn again. *)
Theorem link_works_once s rq r tok evs rq' r' :
  link_token r = Some tok -> answered_ok (handle cfg rq r s) ->
  Forall (event_within (fun t => t <> tok) True) (Ev rq r :: evs) ->
  link_token r' = Some tok -> ~ answered_ok (handle cfg rq' r' (run (Ev rq r :: evs) s)).
Proof.
  intros Hl Hok [Hin Hevs]%Forall_cons Hl' Hok'.
  destruct (link_ok rq r tok s Hl Hok) as (kind & ttl & uid & k & Hu & Hd & Hkeep).
  assert (spent tok (App.db (exec (Ev rq r) s))) as Hsp.
  { cbn [exec]. rewrite Hd. eapply Hkeep; [apply spent_statements|done|by eapply consume_spends]. }
  pose proof (run_keeps (spent tok) _ _ evs (spent_statements tok) (spent_cleanup tok) (spent_expired tok) Hevs _ Hsp) as Hrun.
  destruct (link_ok rq' r' tok _ Hl' Hok') as (kind' & ttl' & uid' & k' & Hu' & _).
  by eapply spent_not_consumed in Hu'.
Qed.

(** ** Without failures of the storage *)

Lemma stmt_nil {A} (f : Db.t -> result A DbError * Db.t) d : Db.faults d = [] -> stmt f d = f d.
Proof. unfold stmt. by intros ->. Qed.

Lemma consume_nil now tok kind ttl d : Db.faults d = [] -> consume_with now tok kind ttl d =
  match Db.email_tokens d !! tok with
  | Some r =>
      if bool_decide (EmailToken.kind r = kind) && negb (EmailToken.used r) && still_before now (EmailToken.created_at r) ttl
      then (Ok (Some (EmailToken.user_id r)), Db.with_email_tokens (<[tok := EmailToken.mark_used r]> (Db.email_tokens d)) d)
      else (Ok None, d)
  | None => (Ok None, d)
  end.
Proof.
  intros Hf. unfold consume_with, mbind_db, mark_token. rewrite stmt_nil by done.
  destruct (Db.email_tokens d !! tok) as [r|] eqn:Er; [|done]. case_if; [|done]. cbn [Z.eqb].
  unfold token_user. rewrite stmt_nil by done. cbn. rewrite lookup_insert_eq. done.
Qed.

Lemma no_faults_statements : statements_keep (fun d => Db.faults d = []) (fun _ => True) True.
Proof.
  assert (FaultFree (fun d => Db.faults d = [])) as Hff by (intros b fs d Hb; rewrite Hb; done).
  split; [done|by intros l n d| | |by intros m d|by intros l n d].
  - intros now token id kind _. apply keeps_stmt; [done|]. intros d Hd. by repeat case_if.
  - intros now token kind ttl. apply keeps_stmt; [done|]. intros d Hd.
    destruct (Db.email_tokens d !! token); [by case_if|done].
Qed.

Lemma within_all (e : event Ip) : event_within (fun _ => True) True e.
Proof. destruct e as [rq []| |]; cbn; auto. Qed.

Lemma run_no_faults evs s : Db.faults (App.db s) = [] -> Db.faults (App.db (run evs s)) = [].
Proof.
  assert (FaultFree (fun d => Db.faults d = [])) as Hff by (intros b fs d Hb; rewrite Hb; done).
  apply (run_keeps (fun d => Db.faults d = []) (fun _ => True) True); [apply no_faults_statements|..].
  - intros now. by apply keeps_stmt.
  - intros now. by apply keeps_stmt.
  - apply Forall_forall. intros e _. apply within_all.
Qed.

(** ** Statements that fail *)

(** A statement runs, or fails; either way only the outcomes of the storage moved on. *)
Lemma stmt_cases {A} (f : Db.t -> result A DbError * Db.t) d :
  exists fs, stmt f d = f (Db.with_faults fs d) \/ stmt f d = (Err Storage, Db.with_faults fs d).
Proof.
  unfold stmt. destruct (Db.faults d) as [|[] fs] eqn:Hf; [exists []; left|exists fs; by right|exists fs; by left].
  f_equal. destruct d. cbn in Hf. by subst.
Qed.

(** None of the next [n] statements fails. *)
Definition undisturbed (n : nat) (d : Db.t) : Prop := Forall (eq false) (take n (Db.faults d)).

Lemma stmt_runs {A} n (f : Db.t -> result A DbError * Db.t) d : undisturbed (S n) d ->
  exists fs, stmt f d = f (Db.with_faults fs d) /\ undisturbed n (Db.with_faults fs d).
Proof.
  unfold undisturbed, stmt. destruct (Db.faults d) as [|b fs] eqn:Hf; cbn [take].
  - exists []. split; [|by destruct n; constructor]. f_equal. destruct d. cbn in Hf. by subst.
  - intros [<- Hfs]%Forall_cons. by exists fs.
Qed.

(** The first statement in the goal: its two outcomes, or its run where it is known not to fail. *)
Ltac stmt_case := match goal with |- context [stmt ?f ?d] =>
  let fs := fresh "fs" in let Hx := fresh in destruct (stmt_cases f d) as (fs & [Hx|Hx]); rewrite Hx; clear Hx end.
Ltac stmt_run H := match goal with |- context [stmt ?f ?d] =>
  let fs := fresh "fs" in let Hx := fresh in let Hu := fresh in
  destruct (stmt_runs _ f d H) as (fs & Hx & Hu); rewrite Hx; clear Hx H; rename Hu into H end.

(** ** Sessions *)

(** The event opens the session: a login with the password of an approved account. *)
Definition opens (h : string) (row : SessionRow.t) (e : event Ip) (s : App.t Ip) : Prop :=
  exists rq email password random u,
    e = Ev rq (Login email password random) /\ h = hash_token (generate_token random) /\
    find_user (fun u => bool_decide (User.email u = email)) (App.db s) = Some u /\
    password_verify password (User.password u) = Some true /\ User.status u = status.APPROVED /\
    row = SessionRow.mk (User.id u) (Meta.now rq) (Meta.now rq + AuthConfig.session_ttl_hours cfg * 3600).

(** The event closes it: a logout with a token of that hash while the database can be reached, or a
    password reset of its user that succeeds, where the storage performs the statements of the request
    (one of a logout, four of a reset). *)
Definition closes (h : string) (row : SessionRow.t) (e : event Ip) (s : App.t Ip) : Prop :=
  (exists rq token, e = Ev rq Logout /\ App.db_poisoned s = false /\ undisturbed 1 (App.db s) /\
     extract_bearer (Meta.authorization rq) = Some token /\ hash_token token = h) \/
  (exists rq token password salt r, e = Ev rq (ResetPassword token password salt) /\
     answered_ok (handle cfg rq (ResetPassword token password salt) s) /\ undisturbed 4 (App.db s) /\
     Db.email_tokens (App.db s) !! token = Some r /\ EmailToken.user_id r = SessionRow.user_id row).

Lemma sessions_statements m : statements_keep (fun d => Db.sessions d = m) (fun _ => True) False.
Proof.
  assert (FaultFree (fun d => Db.sessions d = m)) as Hff by (by intros b fs d).
  split; [done|by intros l n d| | |done|by intros l n d].
  - intros now token id kind _. apply keeps_stmt; [done|]. intros d Hd. by repeat case_if.
  - intros now token kind ttl. apply keeps_stmt; [done|]. intros d Hd.
    destruct (Db.email_tokens d !! token); [by case_if|done].
Qed.

Lemma login_sessions now email password random d h row :
  Db.sessions (login_account cfg now email password random d).2 !! h = Some row ->
  Db.sessions d !! h = Some row \/ exists u, h = hash_token (generate_token random) /\
    find_user (fun u => bool_decide (User.email u = email)) d = Some u /\
    password_verify password (User.password u) = Some true /\ User.status u = status.APPROVED /\
    row = SessionRow.mk (User.id u) now (now + AuthConfig.session_ttl_hours cfg * 3600).
Proof.
  unfold login_account, on at 1, get_user_by_email. stmt_case; [|by left]. cbn [flat].
  change (find_user ?p (Db.with_faults fs d)) with (find_user p d).
  destruct (find_user _ d) as [u|] eqn:Eu; [|by left].
  destruct (password_verify password (User.password u)) as [[]|] eqn:Ep; cbn [default id negb]; [|by left..].
  unfold open_session. destruct (bool_decide (User.status u = status.PENDING_VERIFICATION)); [by left|].
  destruct (bool_decide (User.status u = status.PENDING_APPROVAL)); [by left|].
  destruct (bool_decide (User.status u = status.DENIED)); [by left|].
  destruct (decide (User.status u = status.APPROVED)) as [Ha|Ha];
    [rewrite (bool_decide_true _ Ha)|rewrite (bool_decide_false _ Ha); by left].
  cbn [negb]. cbv zeta. unfold on, insert_session. stmt_case; [|by left].
  unfold datetime_add. destruct (now + _ <=? DATE_MAX); [|by left]. repeat case_if; [by left..|].
  cbn. destruct (decide (hash_token (generate_token random) = h)) as [<-|Hne].
  - rewrite lookup_insert_eq. intros [= <-]. right. by exists u.
  - rewrite lookup_insert_ne by done. by left.
Qed.

(** A deletion of sessions keeps no session that was not there. *)
Lemma delete_where_shrinks p m : keeps (fun d => Db.sessions d ⊆ m) (delete_sessions_where p).
Proof.
  apply keeps_stmt; [by intros b fs d|]. intros d Hd. cbn. etrans; [|exact Hd]. apply map_filter_subseteq.
Qed.

Lemma reset_shrinks now token password salt d h row :
  Db.sessions (reset_account now token password salt d).2 !! h = Some row -> Db.sessions d !! h = Some row.
Proof.
  set (m := Db.sessions d). assert (statements_keep (fun d => Db.sessions d ⊆ m) (fun _ => True) False) as Hk.
  { split; [by intros b fs e|by intros l n e| | |done|by intros l n e].
    - intros now' tok id kind _. apply keeps_stmt; [by intros b fs e|]. intros e He. by repeat case_if.
    - intros now' tok kind ttl. apply keeps_stmt; [by intros b fs e|]. intros e He.
      destruct (Db.email_tokens e !! tok); [by case_if|done]. }
  intros Hr. enough (k_keeps (fun d => Db.sessions d ⊆ m) (reset_account now token password salt)) as Hs
    by (eapply lookup_weaken; [exact Hr|by apply Hs]).
  unfold reset_account, consume_link. sk_auto Hk. apply k_on_keeps; [apply delete_where_shrinks|]. intros ?. k_auto.
Qed.

Lemma reset_closes now token password salt d h row b r : undisturbed 4 d ->
  (reset_account now token password salt d).1.1 = Returns (Response.mk OK b) ->
  Db.email_tokens d !! token = Some r -> EmailToken.user_id r = SessionRow.user_id row ->
  Db.sessions (reset_account now token password salt d).2 !! h <> Some row.
Proof.
  intros Hcalm Hok Hr Hu Hrow. revert Hok Hrow. unfold reset_account, consume_link, on at 1 4, consume_email_token_ttl, consume_with, mbind_db, mark_token.
  stmt_run Hcalm.
  change (Db.email_tokens (Db.with_faults fs d)) with (Db.email_tokens d). rewrite Hr. case_if; [|done]. cbn [Z.eqb].
  unfold token_user. stmt_run Hcalm. cbn. rewrite lookup_insert_eq. cbn.
  destruct (password_hash salt password) as [hash|]; [|done]. unfold on, update_password.
  stmt_run Hcalm. cbn beta iota.
  unfold delete_sessions_for_user, delete_sessions_where. stmt_run Hcalm. cbn.
  intros _ [_ Hn]%map_lookup_filter_Some. cbn in Hn. z_bool. done.
Qed.

Lemma other_request_sessions rq r s : request_within (fun _ => True) False r ->
  Db.sessions (App.db (handle cfg rq r s).2) = Db.sessions (App.db s).
Proof.
  intros Hr. by apply (handle_keeps cfg (fun d => Db.sessions d = Db.sessions (App.db s)) _ _ (sessions_statements _) rq r Hr s).
Qed.

Lemma not_closed_by h row rq r s : r <> Logout -> (forall t p q, r <> ResetPassword t p q) -> ~ closes h row (Ev rq r) s.
Proof. intros Hl Hp [(?&?&[=]&_)|(?&?&?&?&?&[=]&_)]; [done|by eapply Hp]. Qed.

Lemma login_step rq email password random s h row :
  Db.sessions (App.db (handle cfg rq (Login email password random) s).2) !! h = Some row ->
  Db.sessions (App.db s) !! h = Some row \/ opens h row (Ev rq (Login email password random)) s.
Proof.
  cbn [handle]. unfold login, rate_guard. destruct (RateLimiter.check _ _ _ _) as [[] l]; [|by left].
  unfold locked. cbn [App.db_poisoned App.db]. destruct (App.db_poisoned s); [by left|].
  pose proof (login_sessions (Meta.now rq) email password random (App.db s) h row) as Hl.
  destruct (login_account cfg _ _ _ _ _) as [[resp ms] d']. cbn [fst snd App.db] in *. intros Hr.
  destruct (Hl Hr) as [Hold|(u & Hh & Hu & Hp & Ha & Hrow)]; [by left|right]. by exists rq, email, password, random, u.
Qed.

Lemma logout_step rq s h row :
  Db.sessions (App.db (handle cfg rq Logout s).2) !! h = Some row ->
  Db.sessions (App.db s) !! h = Some row /\ ~ closes h row (Ev rq Logout) s.
Proof.
  cbn [handle]. unfold logout. intros Hr.
  assert (closes h row (Ev rq Logout) s -> exists token, App.db_poisoned s = false /\ undisturbed 1 (App.db s) /\
    extract_bearer (Meta.authorization rq) = Some token /\ hash_token token = h) as Hc.
  { intros [(rq' & token & [= <-] & Hp & Hu & Hb & Hh)|(?&?&?&?&?&[=]&_)]. by exists token. }
  destruct (extract_bearer (Meta.authorization rq)) as [token|] eqn:Eb.
  2:{ split; [done|]. by intros (token & _ & _ & [=] & _)%Hc. }
  destruct (App.db_poisoned s) eqn:Ep.
  { split; [done|]. by intros (? & [=] & _)%Hc. }
  unfold locked, on, delete_session in Hr. rewrite Ep in Hr. split.
  - revert Hr. stmt_case; cbn; [|done]. by intros [_ Hr]%lookup_delete_Some.
  - intros (token' & _ & Hu & [= <-] & Hh)%Hc. revert Hr. stmt_run Hu. cbn.
    by intros [Hne _]%lookup_delete_Some.
Qed.

Lemma reset_step rq token password salt s h row :
  Db.sessions (App.db (handle cfg rq (ResetPassword token password salt) s).2) !! h = Some row ->
  Db.sessions (App.db s) !! h = Some row /\ ~ closes h row (Ev rq (ResetPassword token password salt)) s.
Proof.
  intros Hr. assert (closes h row (Ev rq (ResetPassword token password salt)) s -> exists r,
    answered_ok (handle cfg rq (ResetPassword token password salt) s) /\ undisturbed 4 (App.db s) /\
    Db.email_tokens (App.db s) !! token = Some r /\ EmailToken.user_id r = SessionRow.user_id row) as Hc.
  { intros [(?&?&[=]&_)|(rq' & t & p & q & r & [= <- <- <- <-] & Hok & Hx & Ht & Hu)]. by exists r. }
  revert Hr Hc. cbn [handle]. unfold reset_password, rate_guard. destruct (RateLimiter.check _ _ _ _) as [[] l].
  2:{ intros Hr Hc. split; [done|]. by intros (r & [b [=]] & _)%Hc. }
  destruct (negb (password_ok password)).
  { intros Hr Hc. split; [done|]. by intros (r & [b [=]] & _)%Hc. }
  unfold locked. cbn [App.db_poisoned App.db]. destruct (App.db_poisoned s).
  { intros Hr Hc. split; [done|]. by intros (r & [b [=]] & _)%Hc. }
  pose proof (reset_shrinks (Meta.now rq) token password salt (App.db s) h row) as Hs.
  pose proof (fun b r => reset_closes (Meta.now rq) token password salt (App.db s) h row b r) as Hl.
  destruct (reset_account _ _ _ _ _) as [[resp ms] d']. cbn [fst snd App.db] in *. intros Hr Hc.
  split; [by apply Hs|]. intros (r & [b Hb] & Hx & Ht & Hu)%Hc. by eapply Hl.
Qed.

Lemma step_session e s h row : Db.sessions (App.db (exec e s)) !! h = Some row ->
  (Db.sessions (App.db s) !! h = Some row /\ ~ closes h row e s) \/ opens h row e s.
Proof.
  assert (forall rq r, request_within (fun _ => True) False r -> r <> Logout -> (forall t p q, r <> ResetPassword t p q) ->
    Db.sessions (App.db (exec (Ev rq r) s)) !! h = Some row ->
    (Db.sessions (App.db s) !! h = Some row /\ ~ closes h row (Ev rq r) s) \/ opens h row (Ev rq r) s) as Hother.
  { intros rq r Hin Hl Hp Hr. left. cbn [exec] in Hr. rewrite other_request_sessions in Hr by done. split; [done|].
    by apply not_closed_by. }
  destruct e as [rq r|now|inst].
  - destruct r; try (by apply Hother; cbn; auto).
    + intros [Hold|Hop]%login_step; [left|by right]. split; [done|]. by apply not_closed_by.
    + intros Hr%logout_step. by left.
    + intros Hr%reset_step. by left.
  - cbn [exec]. unfold session_cleanup. intros Hr. left. split; [|by intros [(?&?&[=]&_)|(?&?&?&?&?&[=]&_)]].
    destruct (App.db_poisoned s); [done|]. revert Hr. cbn [App.db]. intros Hr.
    assert (Db.sessions (cleanup_stale_email_tokens now (cleanup_expired_sessions now (App.db s)).2).2 ⊆ Db.sessions (App.db s)) as Hs.
    { enough (forall m, keeps (fun d => Db.sessions d ⊆ m) (cleanup_stale_email_tokens now)) as Hk
        by (apply Hk; exact (delete_where_shrinks _ _ (App.db s) (reflexivity _))).
      intros m. apply keeps_stmt; [by intros b fs d|done]. }
    by eapply lookup_weaken.
  - intros Hr. left. split; [done|]. by intros [(?&?&[=]&_)|(?&?&?&?&?&[=]&_)].
Qed.

(** A session that is there was opened, and not closed since. *)
Lemma session_origin s0 evs h row : Db.sessions (App.db s0) !! h = None ->
  Db.sessions (App.db (run evs s0)) !! h = Some row ->
  exists pre e post, evs = pre ++ e :: post /\ opens h row e (run pre s0) /\
    forall mid e' tail, post = mid ++ e' :: tail -> ~ closes h row e' (run (pre ++ e :: mid) s0).
Proof.
  intros Hn. induction evs as [|e evs IH] using rev_ind; intros Hr; [unfold run in Hr; cbn [foldl] in Hr; congruence|].
  rewrite run_app in Hr. destruct (step_session e _ h row Hr) as [[Hold Hnc]|Hop].
  - destruct (IH Hold) as (pre & o & post & -> & Ho & Hcl). exists pre, o, (post ++ [e]). rewrite <-app_assoc.
    split; [done|]. split; [done|]. intros mid e' tail Heq.
    destruct (rev_case tail) as [->|(tail' & x & ->)].
    + apply app_inj_tail in Heq as [-> ->]. done.
    + rewrite app_comm_cons, app_assoc in Heq. apply app_inj_tail in Heq as [-> ->]. by eapply Hcl.
  - exists evs, e, []. split; [done|]. split; [done|]. intros mid e' tail. by destruct mid.
Qed.

Lemma session_check_ok rq (s : App.t Ip) v :
  (session_check rq s).1.1 = Returns (Response.mk OK (SessionValid v)) ->
  exists token row u, extract_bearer (Meta.authorization rq) = Some token /\
    Db.sessions (App.db s) !! hash_token token = Some row /\ Meta.now rq < SessionRow.expires_at row /\
    find_user (fun u => User.id u =? SessionRow.user_id row) (App.db s) = Some u /\
    User.status u = status.APPROVED /\ v = UserView.of_user u.
Proof.
  unfold session_check. destruct (extract_bearer _) as [token|]; [|done].
  unfold locked. destruct (App.db_poisoned s); [done|]. unfold for_session, on at 1, validate_session.
  stmt_case; [|done]. cbn [flat].
  change (Db.sessions (Db.with_faults fs (App.db s))) with (Db.sessions (App.db s)).
  destruct (Db.sessions (App.db s) !! hash_token token) as [row|] eqn:Er; [|done].
  destruct (Meta.now rq <? SessionRow.expires_at row) eqn:Ex; [|done]. z_bool. unfold on, get_user_by_id.
  stmt_case; [|done]. cbn [flat].
  change (find_user ?p (Db.with_faults fs0 (Db.with_faults fs (App.db s)))) with (find_user p (App.db s)).
  destruct (find_user _ _) as [u|] eqn:Eu; [|done].
  destruct (decide (User.status u = status.APPROVED)) as [Ha|Ha];
    [rewrite (bool_decide_true _ Ha)|by rewrite (bool_decide_false _ Ha)].
  intros [= <-]. by exists token, row, u.
Qed.

(** C12 A session that is accepted was opened with the right password. From an empty table of
    sessions, whatever is requested and whichever statements of the storage fail, whenever the session
    check accepts a bearer's token, the token was drawn by a login earlier in the run, by an account
    that was approved and whose password the login had right; the session is within its lifetime
    counted from that login; since then there was neither a logout with the token nor a successful
    password reset of the account in which the storage performed the request's statements
    ([reset_keeps_session_on_fault] is a reset in which it did not); and the account is still approved. *)
Theorem accepted_session_is_genuine s0 evs rq v :
  Db.sessions (App.db s0) = ∅ ->
  (handle cfg rq SessionCheck (run evs s0)).1.1 = Returns (Response.mk OK (SessionValid v)) ->
  exists token row u pre e post,
    extract_bearer (Meta.authorization rq) = Some token /\ Meta.now rq < SessionRow.expires_at row /\
    find_user (fun u => User.id u =? SessionRow.user_id row) (App.db (run evs s0)) = Some u /\
    User.status u = status.APPROVED /\ v = UserView.of_user u /\
    evs = pre ++ e :: post /\ opens (hash_token token) row e (run pre s0) /\
    forall mid e' tail, post = mid ++ e' :: tail -> ~ closes (hash_token token) row e' (run (pre ++ e :: mid) s0).
Proof.
  intros Hs Hok. destruct (session_check_ok rq _ v Hok) as (token & row & u & Hb & Hr & Hx & Hu & Ha & Hv).
  assert (Db.sessions (App.db s0) !! hash_token token = None) as Hn by (by rewrite Hs, lookup_empty).
  destruct (session_origin s0 evs _ row Hn Hr) as (pre & e & post & Hevs & Hop & Hcl).
  by exists token, row, u, pre, e, post.
Qed.

(** ** What the answers tell about accounts *)

(** The login fails on its credentials. *)
Definition bad_credentials (email password : string) (d : Db.t) : Prop :=
  forall u, find_user (fun u => bool_decide (User.email u = email)) d = Some u ->
    default false (password_verify password (User.password u)) = false.

Lemma register_answer now email name org hash random d : Db.faults d = [] ->
  (register_account cfg now email name org hash random d).1.1 = Returns (Response.mk CREATED registered).
Proof.
  intros Hf. unfold register_account, on at 1, get_user_by_email. rewrite stmt_nil by done. cbn [flat].
  destruct (find_user _ d) as [u|] eqn:Eu; [done|]. unfold on, insert_user. rewrite stmt_nil by done.
  assert (existsb (fun u => bool_decide (User.email u = email)) (Db.users d) = false) as ->.
  { apply existsb_false_Forall, Forall_forall. intros u Hin. unfold find_user in Eu.
    destruct (bool_decide (User.email u = email)) eqn:Eb; [|done].
    assert (u ∈ List.filter (fun u => bool_decide (User.email u = email)) (Db.users d)) as Hu.
    { by rewrite list_elem_of_In, List.filter_In, <-list_elem_of_In. }
    destruct (List.filter _ _); [by apply not_elem_of_nil in Hu|done]. }
  unfold insert_email_token. rewrite stmt_nil by done. cbn. by repeat case_if.
Qed.

Lemma forgot_answer now email random d : (forgot_account cfg now email random d).1.1 = Returns (Response.mk OK reset_sent).
Proof.
  unfold forgot_account, on at 1. destruct (get_user_by_email email d) as [r d1]. destruct (flat r); [|done].
  unfold on. destruct (insert_email_token _ _ _ _ d1) as [[] d2]; done.
Qed.

Lemma login_answer now email password random d : Db.faults d = [] -> bad_credentials email password d ->
  (login_account cfg now email password random d).1.1 = Returns (Response.mk UNAUTHORIZED invalid_credentials).
Proof.
  intros Hf Hbad. unfold login_account, on, get_user_by_email. rewrite stmt_nil by done. cbn [flat].
  destruct (find_user _ d) as [u|] eqn:Eu; [|done]. by rewrite (Hbad u Eu).
Qed.

(** C31 The answers do not tell which addresses have accounts. On any two states of the database
    (under the same limiter, with storage that works), a registration and a request for a password
    reset are answered in the same way, whoever is registered; so is a login that fails on its
    credentials, whether the address is unknown in one of them and the password wrong in the other. *)
Theorem answers_hide_accounts rq d1 d2 l : Db.faults d1 = [] -> Db.faults d2 = [] ->
  let s1 : App.t Ip := App.mk d1 false l in
  let s2 : App.t Ip := App.mk d2 false l in
  (forall email name org password salt random, let r := Register email name org password salt random in
    (handle cfg rq r s1).1.1 = (handle cfg rq r s2).1.1) /\
  (forall email random, (handle cfg rq (ForgotPassword email random) s1).1.1 = (handle cfg rq (ForgotPassword email random) s2).1.1) /\
  (forall email password random, bad_credentials email password d1 -> bad_credentials email password d2 ->
    (handle cfg rq (Login email password random) s1).1.1 = (handle cfg rq (Login email password random) s2).1.1).
Proof.
  intros Hf1 Hf2 s1 s2.
  assert (forall n body k, (forall l', (k (App.mk d1 false l')).1.1 = (k (App.mk d2 false l') : handled (Ip := Ip)).1.1) ->
    (rate_guard cfg n body rq k s1).1.1 = (rate_guard cfg n body rq k s2).1.1) as Hlim.
  { intros n body k Hk. unfold rate_guard. subst s1 s2. cbn [App.limiter App.db App.db_poisoned].
    destruct (RateLimiter.check _ _ _ _) as [[] l']; [apply Hk|done]. }
  assert (forall body k l' r, (k d1).1.1 = Returns r -> (k d2).1.1 = Returns r ->
    (locked body k (App.mk d1 false l') : handled (Ip := Ip)).1.1 = (locked body k (App.mk d2 false l') : handled (Ip := Ip)).1.1) as Hlock.
  { intros body k l' r H1' H2'. unfold locked. cbn [App.db App.db_poisoned]. destruct (k d1) as [[r1 m1] e1], (k d2) as [[r2 m2] e2].
    cbn [fst snd] in *. congruence. }
  split_and!.
  - intros email name org password salt random. apply Hlim. intros l'. cbn beta. repeat (case_if; [done|]).
    destruct (password_hash salt password); [|done]. eapply Hlock; by apply register_answer.
  - intros email random. apply Hlim. intros l'. cbn beta. cbn [App.db_poisoned]. eapply Hlock; apply forgot_answer.
  - intros email password random Hb1 Hb2. apply Hlim. intros l'. eapply Hlock; by apply login_answer.
Qed.

(** ** The life of a license key *)

(** The rate limit of key validation admits the request. *)
Definition admitted (rq : Meta.t Ip) (s : App.t Ip) : Prop :=
  (RateLimiter.check (Meta.instant rq) (client_ip cfg rq) (20 * AuthConfig.rate_limit_multiplier cfg mod 2 ^ 32) (App.limiter s)).1 = true.

(** What a created key left in the database. *)
Record key_created (now id : Z) (key : bytes) (u : User.t) (d d' : Db.t) : Prop := {
  kc_approved : u ∈ Db.users d /\ User.status u = status.APPROVED;
  kc_key : key = sign_license_key now (AuthConfig.signing_key cfg) (User.org u) (User.tier u) (tier_features (User.tier u));
  kc_new : Forall (fun k => LicenseKey.key_value k <> key) (Db.license_keys d);
  kc_users : Db.users d' = Db.users d;
  kc_faults : Db.faults d' = [];
  kc_row : exists label, Db.license_keys d' =
    Db.license_keys d ++ [LicenseKey.mk id (User.id u) key label key_status.ACTIVE now None]
}.

Lemma issue_key_created now label uid d id key lab t st : Db.faults d = [] ->
  (issue_key cfg now label uid d).1.1 = Returns (Response.mk CREATED (KeyCreated id key lab t st)) ->
  exists u, User.tier u = t /\ User.id u = uid /\ key_created now id key u d (issue_key cfg now label uid d).2.
Proof.
  intros Hf. unfold issue_key, on at 1 3, get_user_by_id. rewrite stmt_nil by done. cbn [flat].
  destruct (find_user _ d) as [u|] eqn:Eu; [|done]. apply find_user_in in Eu as [Hin Hid]. z_bool.
  destruct (decide (User.status u = status.APPROVED)) as [Ha|Ha];
    [rewrite (bool_decide_true _ Ha)|by rewrite (bool_decide_false _ Ha)].
  cbn [negb]. cbv zeta. unfold on, insert_license_key, mbind_db. rewrite stmt_nil by done. cbn beta iota.
  destruct (_ >=? _); [done|]. rewrite stmt_nil by done.
  destruct (existsb _ _) eqn:Ex; [done|]. destruct (negb (user_exists uid d)); [done|]. cbn [fst snd].
  intros [= <- <- <- <- <-]. exists u. split; [done|]. split; [done|]. split; try done.
  - apply existsb_false_Forall in Ex. eapply Forall_impl; [exact Ex|]. intros k Hk Heq. cbn beta in Hk.
    by rewrite bool_decide_true in Hk.
  - exists (key_label label). by rewrite Hid.
Qed.

Lemma with_session_created rq k (s : App.t Ip) b : Db.faults (App.db s) = [] ->
  (with_session rq k s).1.1 = Returns (Response.mk CREATED b) ->
  exists uid, (k uid (App.db s)).1.1 = Returns (Response.mk CREATED b) /\
    App.db (with_session rq k s).2 = (k uid (App.db s)).2 /\ App.db_poisoned (with_session rq k s).2 = false.
Proof.
  intros Hf. unfold with_session. destruct (extract_bearer _) as [token|]; [|done]. unfold locked.
  destruct (App.db_poisoned s); [done|]. unfold for_session, on, validate_session. rewrite stmt_nil by done. cbn [flat].
  destruct (match Db.sessions (App.db s) !! hash_token token with Some _ => _ | None => _ end) as [uid|]; [|done].
  destruct (k uid (App.db s)) as [[r ms] d] eqn:Ek. cbn [fst snd App.db App.db_poisoned]. intros ->. exists uid. by rewrite Ek.
Qed.

Lemma validate_key_admitted rq key (s : App.t Ip) p : admitted rq s -> App.db_poisoned s = false -> Db.faults (App.db s) = [] ->
  key <> [] -> verify_license_key key (verifying_key (AuthConfig.signing_key cfg)) = Some p ->
  (handle cfg rq (ValidateKey key) s).1.1 = Returns (Response.mk OK
    (if LicensePayload.expires_at p <? Meta.now rq then KeyInvalid "key_expired"
     else if existsb (valid_key_row key (App.db s)) (Db.license_keys (App.db s))
          then KeyValid (LicensePayload.tier p) (LicensePayload.org_id p) else KeyInvalid "revoked_or_unknown")).
Proof.
  intros Ha Hp Hf Hne Hv. cbn [handle]. unfold validate_key, rate_guard, admitted in *.
  destruct (RateLimiter.check _ _ _ _) as [ok l]. cbn [fst] in Ha. subst ok. destruct key as [|c key]; [done|].
  rewrite Hv. destruct (LicensePayload.expires_at p <? Meta.now rq); [done|]. unfold locked. cbn [App.db_poisoned App.db].
  rewrite Hp. unfold on, validate_license_key. rewrite stmt_nil by done.
  assert (forall f (l : list LicenseKey.t), existsb f l = match List.filter f l with [] => false | _ => true end) as Hx.
  { intros f l'. induction l' as [|x l' IH]; [done|]. cbn. by destruct (f x). }
  rewrite Hx. by destruct (List.filter _ _).
Qed.

Lemma created_key_valid now id key u d d' : key_created now id key u d d' ->
  existsb (valid_key_row key d') (Db.license_keys d') = true.
Proof.
  intros [[Hin Ha] _ _ Hu _ [label Hl]]. rewrite Hl, existsb_app. apply orb_true_iff. right. cbn [existsb]. rewrite orb_false_r.
  unfold valid_key_row. cbn [LicenseKey.key_value LicenseKey.status LicenseKey.user_id].
  rewrite !bool_decide_true by done. cbn [andb]. apply existsb_exists. exists u. rewrite Hu, <-list_elem_of_In, Z.eqb_refl.
  by rewrite bool_decide_true.
Qed.

Lemma revoked_key_invalid now now' id key u d d' d'' : key_created now id key u d d' ->
  existsb (valid_key_row key d'')
    ((fun k => if revocable id (User.id u) k then LicenseKey.revoke now' k else k) <$> Db.license_keys d') = false.
Proof.
  intros [_ _ Hnew _ _ [label Hl]]. rewrite Hl, fmap_app, existsb_app. apply orb_false_iff. split.
  - apply existsb_false_Forall, Forall_fmap. eapply Forall_impl; [exact Hnew|]. intros k Hk. cbn [compose].
    unfold valid_key_row. case_if; rewrite bool_decide_false by done; done.
  - cbn [fmap list_fmap existsb]. assert (revocable id (User.id u)
      (LicenseKey.mk id (User.id u) key label key_status.ACTIVE now None) = true) as ->.
    { unfold revocable, active_key_of. cbn. by rewrite !Z.eqb_refl. }
    unfold valid_key_row. cbn. by rewrite andb_false_r.
Qed.

Lemma revoke_by_owner rq id uid (s : App.t Ip) : Db.faults (App.db s) = [] -> App.db_poisoned s = false ->
  (exists token row, extract_bearer (Meta.authorization rq) = Some token /\ SessionRow.user_id row = uid /\
    Db.sessions (App.db s) !! hash_token token = Some row /\ Meta.now rq < SessionRow.expires_at row) ->
  let s' := (handle cfg rq (RevokeKey id) s).2 in
  App.db_poisoned s' = false /\ Db.faults (App.db s') = [] /\ App.limiter s' = App.limiter s /\
  Db.license_keys (App.db s') =
    (fun k => if revocable id uid k then LicenseKey.revoke (Meta.now rq) k else k) <$> Db.license_keys (App.db s).
Proof.
  intros Hf Hp (token & row & Hb & Hu & Hr & Hx). cbn [handle]. unfold revoke_key, with_session. rewrite Hb. unfold locked. rewrite Hp.
  unfold for_session, on, validate_session. rewrite stmt_nil by done. rewrite Hr.
  assert (Meta.now rq <? SessionRow.expires_at row = true) as -> by (apply Z.ltb_lt; lia). cbn [flat].
  unfold revoke_license_key. rewrite stmt_nil by done. subst uid. cbn. by case_if.
Qed.

Context (Hb64 : Base64Laws) (Hjson : LicenseJsonLaws) (Hed : Ed25519Laws).

(** The life of a license key. A key that was generated for an account is valid from then on, with
    the account's tier and organisation, to the last second of its year and not after; and once its
    owner revoked it, in a session of the same account, it is not valid at any time. *)
Theorem generated_key_lives rq label s id key lab t st rq' rq2 token row :
  Db.faults (App.db s) = [] -> 0 <= Meta.now rq -> Meta.now rq + DEFAULT_LICENSE_DURATION_SECS < 2 ^ 64 ->
  (handle cfg rq (GenerateKey label) s).1.1 = Returns (Response.mk CREATED (KeyCreated id key lab t st)) ->
  let s' := (handle cfg rq (GenerateKey label) s).2 in
  admitted rq' s' ->
  exists u, u ∈ Db.users (App.db s) /\ User.tier u = t /\
    let expired := Meta.now rq + DEFAULT_LICENSE_DURATION_SECS <? Meta.now rq' in
    (handle cfg rq' (ValidateKey key) s').1.1 =
      Returns (Response.mk OK (if expired then KeyInvalid "key_expired" else KeyValid t (User.org u))) /\
    (extract_bearer (Meta.authorization rq2) = Some token -> SessionRow.user_id row = User.id u ->
     Db.sessions (App.db s') !! hash_token token = Some row -> Meta.now rq2 < SessionRow.expires_at row ->
     (handle cfg rq' (ValidateKey key) (handle cfg rq2 (RevokeKey id) s').2).1.1 =
       Returns (Response.mk OK (KeyInvalid (if expired then "key_expired" else "revoked_or_unknown")))).
Proof.
  intros Hf H0' Hmax Hok s' Hadm. cbn [handle] in Hok. destruct (with_session_created rq _ s _ Hf Hok) as (uid & Hc & Hdb & Hp).
  destruct (issue_key_created _ _ _ _ _ _ _ _ _ Hf Hc) as (u & Ht & Hid & Hkc). rewrite <-Hdb in Hkc.
  change (with_session rq (issue_key cfg (Meta.now rq) label) s).2 with s' in *.
  pose proof (kc_key _ _ _ _ _ _ Hkc) as Hk.
  set (p := issued_payload (Meta.now rq) (User.org u) (User.tier u) (tier_features (User.tier u)) DEFAULT_LICENSE_DURATION_SECS).
  assert (verify_license_key key (verifying_key (AuthConfig.signing_key cfg)) = Some p) as Hv.
  { rewrite Hk. unfold sign_license_key. rewrite sign_license_key_of.
    apply verify_license_key_of; [apply signature_length|apply signature_verifies]. }
  assert (LicensePayload.expires_at p = Meta.now rq + DEFAULT_LICENSE_DURATION_SECS) as Hexp.
  { unfold p, issued_payload, wrapping_add. cbn [LicensePayload.expires_at]. apply Z.mod_small. split; [|done].
    unfold DEFAULT_LICENSE_DURATION_SECS. lia. }
  assert (key <> []) as Hne by (rewrite Hk; discriminate).
  exists u. split; [apply (kc_approved _ _ _ _ _ _ Hkc)|]. split; [done|]. cbn zeta. rewrite <-Hexp. split.
  - rewrite (validate_key_admitted rq' key s' p Hadm Hp (kc_faults _ _ _ _ _ _ Hkc) Hne Hv).
    rewrite (created_key_valid _ _ _ _ _ _ Hkc). unfold p at 2 3, issued_payload. cbn. rewrite Ht. by case_if.
  - intros Hb Hu Hr Hx. destruct (revoke_by_owner rq2 id (User.id u) s' (kc_faults _ _ _ _ _ _ Hkc) Hp) as (Hp2 & Hf2 & Hl2 & Hk2).
    { by exists token, row. }
    assert (admitted rq' (handle cfg rq2 (RevokeKey id) s').2) as Hadm2 by (unfold admitted; by rewrite Hl2).
    rewrite (validate_key_admitted rq' key _ p Hadm2 Hp2 Hf2 Hne Hv), Hk2.
    rewrite (revoked_key_invalid _ _ _ _ _ _ _ _ Hkc). by case_if.
Qed.
End Runs.

(** ** A sample service *)

Module AuthSample.
Definition ip_order : IpOrder Z := {| ips_iter A (m : gmap Z A) := map_to_list m; ips_iter_perm A m := reflexivity _ |}.
Definition ip_text : IpText Z := {| parse_ip b := None |}.
Definition password : PasswordCrate := {|
  password_hash salt p := Some ("h:" +:+ p); password_verify p h := Some (bool_decide (h = "h:" +:+ p)) |}.
Definition key_order : KeyOrder := {| newest_first l := l; newest_first_perm l := reflexivity _ |}.
#[export] Existing Instances ip_order ip_text password key_order.
#[export] Existing Instances LicenseSample.base64 LicenseSample.json LicenseSample.ed25519 Sha256Sample.crate.
#[export] Existing Instances LicenseSample.base64_laws LicenseSample.json_laws LicenseSample.ed25519_laws.

Definition cfg : AuthConfig.t SigningKey := AuthConfig.mk "admin@x.org" "http://site" "http://auth" 168 100 false false LicenseSample.seed.
Definition start (faults : list bool) : App.t Z := App.mk (Db.empty faults) false RateLimiter.new.

(** A request at a second, with a bearer's token. *)
Definition at_ (now : Z) (token : option string) : Meta.t Z :=
  Meta.mk now (now * 1000000000) 7 None ((fun t => lit ("Bearer " +:+ t)) <$> token).
Definition random (n : Z) : bytes := Z_to_byte n :: replicate 31 x00.
Definition token (n : Z) : string := generate_token (random n).

(** An account is registered, verified, approved and logged in. *)
Definition joining : list (event Z) :=
  [ Ev (at_ 100 None) (Register "a@b.cd" "Ann" "acme" "password1" [] (random 1));
    Ev (at_ 110 None) (VerifyEmail (token 1) (random 2) (random 3));
    Ev (at_ 120 None) (ApproveConfirm (token 2));
    Ev (at_ 130 None) (Login "a@b.cd" "password1" (random 4)) ].
Definition joined : App.t Z := Eval vm_compute in run cfg joining (start []).
End AuthSample.

(** The status of the first account after a run. *)
Definition first_status (s : App.t Z) : option string := User.status <$> head (Db.users (App.db s)).

Module AuthWitness.
Import AuthSample.

Lemma accounts_stay_consistent_witness : db_ok (App.db joined).
Proof.
  apply (accounts_stay_consistent cfg (start []) joined (db_ok_empty [])).
  change joined with (run cfg joining (start [])). unfold joining, run. cbn [foldl exec].
  do 4 (eapply star_step; [apply step_request|]). apply star_refl.
Defined.

(** The account is verified, the administrator has not decided. *)
Definition verified : App.t Z := Eval vm_compute in run cfg (take 2 joining) (start []).

Lemma link_works_once_witness : let approve := Ev (at_ 120 None) (ApproveConfirm (token 2)) in
  answered_ok (handle cfg (at_ 120 None) (ApproveConfirm (token 2)) verified) /\
  ~ answered_ok (handle cfg (at_ 121 None) (ApproveConfirm (token 2)) (run cfg [approve] verified)).
Proof.
  intros approve. assert (answered_ok (handle cfg (at_ 120 None) (ApproveConfirm (token 2)) verified)) as Hok.
  { exists (OkJson "User approved. They can now log in."). vm_compute. reflexivity. }
  split; [exact Hok|].
  apply (link_works_once cfg verified (at_ 120 None) (ApproveConfirm (token 2)) (token 2) []
    (at_ 121 None) (ApproveConfirm (token 2)) eq_refl Hok).
  - constructor; [exact I|constructor].
  - exact eq_refl.
Defined.

Lemma accepted_session_is_genuine_witness : exists token row u pre e post,
  extract_bearer (Meta.authorization (at_ 140 (Some (AuthSample.token 4)))) = Some token /\ 140 < SessionRow.expires_at row /\
  find_user (fun u => User.id u =? SessionRow.user_id row) (App.db (run cfg joining (start []))) = Some u /\
  User.status u = status.APPROVED /\ UserView.mk 1 "Ann" "a@b.cd" "acme" "shadow" = UserView.of_user u /\
  joining = pre ++ e :: post /\ opens cfg (hash_token token) row e (run cfg pre (start [])) /\
  forall mid e' tail, post = mid ++ e' :: tail -> ~ closes cfg (hash_token token) row e' (run cfg (pre ++ e :: mid) (start [])).
Proof.
  apply (accepted_session_is_genuine cfg (start []) joining (at_ 140 (Some (AuthSample.token 4)))
    (UserView.mk 1 "Ann" "a@b.cd" "acme" "shadow")); [reflexivity|vm_compute; reflexivity].
Defined.

Lemma answers_hide_accounts_witness :
  (handle cfg (at_ 200 None) (ForgotPassword "a@b.cd" (random 9)) joined).1.1 =
  (handle cfg (at_ 200 None) (ForgotPassword "a@b.cd" (random 9)) (App.mk (Db.empty []) false (App.limiter joined))).1.1.
Proof.
  exact (proj1 (proj2 (answers_hide_accounts cfg (at_ 200 None) (App.db joined) (Db.empty []) (App.limiter joined) eq_refl eq_refl))
    "a@b.cd"%string (random 9)).
Defined.

(** The sample account's first key. *)
Definition with_key : App.t Z := Eval vm_compute in (handle cfg (at_ 140 (Some (token 4))) (GenerateKey []) joined).2.
Definition first_key : bytes := Eval vm_compute in default [] (LicenseKey.key_value <$> head (Db.license_keys (App.db with_key))).

Lemma generated_key_lives_witness :
  (handle cfg (at_ 200 None) (ValidateKey first_key) with_key).1.1 = Returns (Response.mk OK (KeyValid "shadow" "acme")).
Proof.
  destruct (generated_key_lives cfg LicenseSample.base64_laws LicenseSample.json_laws LicenseSample.ed25519_laws (at_ 140 (Some (token 4))) [] joined 1 first_key
    (lit "default") "shadow" "active" (at_ 200 None) (at_ 300 None) "" (SessionRow.mk 1 0 0)) as (u & Hin & _ & Hv & _).
  - reflexivity.
  - discriminate.
  - reflexivity.
  - vm_compute. reflexivity.
  - vm_compute. reflexivity.
  - change (handle cfg (at_ 140 (Some (token 4))) (GenerateKey []) joined).2 with with_key in Hv. rewrite Hv.
    apply list_elem_of_singleton in Hin. by subst u.
Defined.

(** ** What the service also does *)

(** Both links of the administrator stay good: a denial follows an approval, and the reverse. *)
Theorem both_decisions_apply :
  first_status (run cfg (joining ++ [Ev (at_ 150 None) (DenyConfirm (token 3))]) (start [])) = Some status.DENIED /\
  first_status (run cfg (take 2 joining ++ [Ev (at_ 120 None) (DenyConfirm (token 3)); Ev (at_ 130 None) (ApproveConfirm (token 2))])
    (start [])) = Some status.APPROVED.
Proof. split; vm_compute; reflexivity. Qed.

(** A denied account's session still lists its keys, in full, though the session check refuses it. *)
Theorem denied_session_lists_keys :
  let s := run cfg [Ev (at_ 150 None) (DenyConfirm (token 3))] with_key in
  (handle cfg (at_ 160 (Some (token 4))) SessionCheck s).1.1 = Returns (Response.mk UNAUTHORIZED SessionInvalid) /\
  exists k, (handle cfg (at_ 160 (Some (token 4))) ListKeys s).1.1 = Returns (Response.mk OK (KeysJson [k])) /\
    KeyView.key_value k = first_key.
Proof. split; [vm_compute; reflexivity|]. eexists. split; vm_compute; reflexivity. Qed.

(** A second key in the same second is the same key, which the table refuses. *)
Theorem second_key_same_second :
  (handle cfg (at_ 140 (Some (token 4))) (GenerateKey (lit "laptop")) with_key).1.1 =
    Returns (Response.mk INTERNAL_SERVER_ERROR (ErrJson "internal_error" "Failed to generate key")) /\
  (exists b, (handle cfg (at_ 141 (Some (token 4))) (GenerateKey (lit "laptop")) with_key).1.1 = Returns (Response.mk CREATED b)).
Proof. split; [vm_compute; reflexivity|]. eexists. vm_compute. reflexivity. Qed.

(** A password reset whose deletion of sessions fails reports success, and the old session is good. *)
Theorem reset_keeps_session_on_fault :
  let s := run cfg [Ev (at_ 150 None) (ForgotPassword "a@b.cd" (random 9))] joined in
  let s := App.mk (Db.with_faults [false; false; false; true] (App.db s)) false (App.limiter s) in
  let h := handle cfg (at_ 160 None) (ResetPassword (token 9) "password2" []) s in
  answered_ok h /\
  exists v, (handle cfg (at_ 170 (Some (token 4))) SessionCheck h.2).1.1 = Returns (Response.mk OK (SessionValid v)).
Proof. split; eexists; vm_compute; reflexivity. Qed.

(** Two at signs, and labels that begin and end with a hyphen, pass for an address. *)
Theorem email_check_is_lenient : is_valid_email "a@b@c.de" = true /\ is_valid_email "a@-b-.de" = true.
Proof. split; vm_compute; reflexivity. Qed.
End AuthWitness.
