(* ===== verification/Middleware.v ===== *)
(** * The HTTP middleware of the gateway

    Models [services/reservegrid-gateway/src]: the two modes of authentication
    ([middleware/auth.rs]), the cache of nonces behind the signed one ([protocol/nonce.rs]), the token
    buckets ([middleware/rate_limit.rs]), the bounds on requests ([middleware/input.rs]), the security
    headers, the TLS rule, readiness and drain, the padding of responses ([protocol/timing.rs]) and the
    order in which [middleware/mod.rs] stacks the layers.

    Texts are UTF-8 bytes. A request is its method, path, query, headers, body and peer address. Each
    reading of a clock is an argument; a poisoned lock is a flag; the iteration order of a hash map is
    an operation of a class. A bucket's tokens are an [f64]. *)

From S2P Require Import Prelude Crates Float64 Reason Limits License Auth.

(** ** Requests and answers *)

Module HttpRequest.
Record t (Ip : Type) : Type := mk {
  method : bytes; path : bytes; query : bytes; headers : list (string * bytes); body : bytes; peer : option Ip }.
Arguments mk {Ip}. Arguments method {Ip}. Arguments path {Ip}. Arguments query {Ip}.
Arguments headers {Ip}. Arguments body {Ip}. Arguments peer {Ip}.
End HttpRequest.

(** [headers.get(name)]: the first value. Names are in lower case. *)
Fixpoint get_header (name : string) (hs : list (string * bytes)) : option bytes :=
  match hs with
  | [] => None
  | (n, v) :: hs => if bool_decide (n = name) then Some v else get_header name hs
  end.

Module HttpAnswer.
Record t : Type := mk { code : Z; reason : option ReasonCode.t; detail : string; headers : list (string * string) }.
End HttpAnswer.

(** [header_str]. *)
Definition header_str (hs : list (string * bytes)) (name : string) : option bytes :=
  v ← get_header name hs; header_to_str v.

(** [str::parse::<u64>]: an optional plus sign, at least one digit, within range. *)
Fixpoint digits_value (s : bytes) (acc : Z) : option Z :=
  match s with
  | [] => Some acc
  | b :: s =>
      let n := byte_to_Z b in
      if (48 <=? n) && (n <=? 57)
      then (let acc := 10 * acc + (n - 48) in if acc <=? u64_max then digits_value s acc else None)
      else None
  end.
Definition parse_u64 (s : bytes) : option Z :=
  match s with
  | [] => None
  | x2b :: [] => None
  | x2b :: s => digits_value s 0
  | s => digits_value s 0
  end.

(** ** The nonce cache *)

Definition MAX_NONCE_LENGTH : Z := 256.

Inductive NonceResult : Type := NonceValid | NonceExpired | NonceReplayed.

(** The iteration order of a [HashMap] with text keys. *)
Class NonceOrder : Type := {
  nonces_iter : gmap bytes Z -> list (bytes * Z);
  nonces_iter_perm m : nonces_iter m ≡ₚ map_to_list m
}.

Module NonceCache.
Record t : Type := mk { entries : gmap bytes Z; max_entries : Z; window_secs : Z }.

Definition new (max_entries window_secs : Z) : t := mk ∅ max_entries window_secs.

Definition evict_expired (now : Z) (c : t) : t :=
  mk (filter (fun kt : bytes * Z => saturating_sub now kt.2 <=? window_secs c = true) (entries c)) (max_entries c) (window_secs c).

Definition evict_oldest `{NonceOrder} (c : t) : t :=
  match min_by_time (nonces_iter (entries c)) with
  | Some (oldest_key, _) => mk (delete oldest_key (entries c)) (max_entries c) (window_secs c)
  | None => c
  end.

Definition validate `{NonceOrder} (now : Z) (nonce : bytes) (request_timestamp : Z) (c : t) : NonceResult * t :=
  if lenZ nonce >? MAX_NONCE_LENGTH then (NonceExpired, c)
  else if Z.abs (now - request_timestamp) >? window_secs c then (NonceExpired, c)
  else
    let c := evict_expired now c in
    if bool_decide (is_Some (entries c !! nonce)) then (NonceReplayed, c)
    else
      let c := if Z.of_nat (size (entries c)) >=? max_entries c then evict_oldest c else c in
      (NonceValid, mk (<[nonce := request_timestamp]> (entries c)) (max_entries c) (window_secs c)).
End NonceCache.

(** ** Authentication *)

Inductive ApiAuthMode : Type := BearerToken | HmacSha256.

Definition DEFAULT_TIMESTAMP_MAX_AGE_SECS : Z := 300.

Module AuthState.
Record t : Type := mk {
  mode : ApiAuthMode; api_secret : option bytes; api_secret_previous : option bytes; hmac_key : option bytes;
  nonce_cache : option NonceCache.t; nonce_poisoned : bool; timestamp_max_age_secs : Z }.
Definition with_cache (c : option NonceCache.t) (s : t) : t :=
  mk (mode s) (api_secret s) (api_secret_previous s) (hmac_key s) c (nonce_poisoned s) (timestamp_max_age_secs s).
End AuthState.

Definition extract_bearer_token (hs : list (string * bytes)) : option bytes :=
  stripped ← header_str hs "authorization" ≫= strip_prefix (lit "Bearer ");
  match stripped with [] => None | _ => Some stripped end.

(** [constant_time_eq]: what it returns. *)
Definition constant_time_eq (a b : bytes) : bool :=
  if negb (length a =? length b)%nat then false else bool_decide (a = b).

Definition verify_bearer (hs : list (string * bytes)) (s : AuthState.t) : bool :=
  match extract_bearer_token hs with
  | None => false
  | Some token =>
      let matches secret := match secret with Some x => constant_time_eq token x | None => false end in
      matches (AuthState.api_secret s) || matches (AuthState.api_secret_previous s)
  end.

Definition timestamp_within_window (now ts max_age_secs : Z) : bool :=
  if ts >? now + 60 then false
  else if saturating_sub now ts >? max_age_secs then false
  else true.

Definition newline_byte : byte := x0a.

(** [METHOD\nPATH\nTIMESTAMP\nNONCE]. *)
Definition signing_payload (method path ts nonce : bytes) : bytes :=
  method ++ [newline_byte] ++ path ++ [newline_byte] ++ ts ++ [newline_byte] ++ nonce.

Section Hmac.
Context {Ip : Type} `{HexCrate} `{HmacCrate} `{NonceOrder}.

(** [verify_hmac]; [now] is the clock of the window, [now'] that of the cache. *)
Definition verify_hmac (now now' : Z) (rq : HttpRequest.t Ip) (s : AuthState.t) : bool * AuthState.t :=
  let hs := HttpRequest.headers rq in
  match AuthState.hmac_key s, header_str hs "x-signature", header_str hs "x-timestamp", header_str hs "x-nonce" with
  | Some key, Some sig_hex, Some ts_str, Some nonce =>
      match parse_u64 ts_str with
      | None => (false, s)
      | Some ts =>
          if negb (timestamp_within_window now ts (AuthState.timestamp_max_age_secs s)) then (false, s)
          else if lenZ nonce <? 8 then (false, s)
          else
            match hex_decode (String.string_of_list_byte sig_hex) with
            | Err _ => (false, s)
            | Ok sig_bytes =>
                if negb (length sig_bytes =? 32)%nat then (false, s)
                else
                  match hmac_sha256 key (signing_payload (HttpRequest.method rq) (HttpRequest.path rq) ts_str nonce) with
                  | None => (false, s)
                  | Some expected =>
                      if negb (bool_decide (expected = sig_bytes)) then (false, s)
                      else
                        match AuthState.nonce_cache s with
                        | None => (true, s)
                        | Some cache =>
                            if AuthState.nonce_poisoned s then (false, s)
                            else
                              let '(r, cache) := NonceCache.validate now' nonce ts cache in
                              (match r with NonceValid => true | _ => false end, AuthState.with_cache (Some cache) s)
                        end
                  end
            end
      end
  | _, _, _, _ => (false, s)
  end.

Definition reject_auth : HttpAnswer.t := HttpAnswer.mk 401 (Some ReasonCode.AuthFailed) "authentication required" [].

(** [auth_layer]: the refusal, if it does not run what is next. *)
Definition auth_layer (now now' : Z) (rq : HttpRequest.t Ip) (s : AuthState.t) : option HttpAnswer.t * AuthState.t :=
  match AuthState.mode s with
  | BearerToken => (if verify_bearer (HttpRequest.headers rq) s then None else Some reject_auth, s)
  | HmacSha256 =>
      let '(ok, s) := verify_hmac now now' rq s in
      (if ok then None else Some reject_auth, s)
  end.
End Hmac.

(** ** Bounds on requests *)

Definition MAX_HEADER_COUNT : Z := 64.
Definition MAX_HEADER_VALUE_BYTES : Z := 8192.
Definition DEFAULT_MAX_BODY_BYTES : Z := 1048576.

Definition reject (code : ReasonCode.t) (detail : string) : HttpAnswer.t :=
  HttpAnswer.mk (match code with
                 | ReasonCode.PayloadTooLarge => 413 | ReasonCode.InvalidContentType => 415 | _ => 400 end)
    (Some code) detail [].

Definition has_body (method : bytes) : bool :=
  bool_decide (method = lit "POST") || bool_decide (method = lit "PUT") || bool_decide (method = lit "PATCH").

(** [validate_request]: what it refuses. *)
Definition validate_request {Ip} (rq : HttpRequest.t Ip) (max_body_bytes : Z) : option HttpAnswer.t :=
  let hs := HttpRequest.headers rq in
  if lenZ hs >? MAX_HEADER_COUNT then Some (reject ReasonCode.PayloadTooLarge "too many headers")
  else if existsb (fun h => lenZ h.2 >? MAX_HEADER_VALUE_BYTES) hs
  then Some (reject ReasonCode.PayloadTooLarge "header value too large")
  else if match header_str hs "content-length" ≫= parse_u64 with Some cl => cl >? max_body_bytes | None => false end
  then Some (reject ReasonCode.PayloadTooLarge "request body too large")
  else if has_body (HttpRequest.method rq) then
    if match header_str hs "content-type" with
       | Some ct => bool_decide (is_Some (strip_prefix (lit "application/json") ct)) | None => false end
    then None
    else Some (reject ReasonCode.InvalidContentType "expected application/json")
  else None.
Definition input_validation_layer {Ip} (rq : HttpRequest.t Ip) : option HttpAnswer.t :=
  validate_request rq DEFAULT_MAX_BODY_BYTES.

(** ** Token buckets *)

Definition DEFAULT_MAX_IP_BUCKETS : Z := 10000.

Module TokenBucket.
Record t : Type := mk { tokens : f64; last_refill : Z }.
Definition new (now burst : Z) : t := mk (f64_of_Z burst) now.
Definition try_consume (now rate burst : Z) (b : t) : bool * t :=
  let elapsed := as_secs_f64 (saturating_sub now (last_refill b)) in
  let tokens := f64_min (f64_add (tokens b) (f64_mul elapsed (f64_of_Z rate))) (f64_of_Z burst) in
  if f64_ge tokens f64_one then (true, mk (f64_sub tokens f64_one) now) else (false, mk tokens now).
End TokenBucket.

Module RateLimitState.
Record t (Ip : Type) `{Countable Ip} : Type := mk {
  requests_per_sec : Z; burst : Z; max_entries : Z; buckets : gmap Ip TokenBucket.t }.
Arguments mk {Ip EqDecision0 H}. Arguments requests_per_sec {Ip EqDecision0 H}. Arguments burst {Ip EqDecision0 H}.
Arguments max_entries {Ip EqDecision0 H}. Arguments buckets {Ip EqDecision0 H}.
Section New.
Context {Ip : Type} `{Countable Ip}.
Definition with_max_entries (requests_per_sec burst max_entries : Z) : t Ip := mk requests_per_sec burst max_entries ∅.
Definition new (requests_per_sec burst : Z) : t Ip := with_max_entries requests_per_sec burst DEFAULT_MAX_IP_BUCKETS.
End New.
End RateLimitState.

Definition reject_rate_limited (rate : Z) : HttpAnswer.t :=
  HttpAnswer.mk 429 (Some ReasonCode.RateLimited) "rate limit exceeded"
    [("retry-after", if rate >? 0 then "1" else "60")]%string.

Section Buckets.
Context {Ip : Type} `{IpOrder Ip}.

(** The least recently used bucket leaves for a new address when the map is full. *)
Definition evict_bucket (ip : Ip) (s : RateLimitState.t Ip) : gmap Ip TokenBucket.t :=
  let m := RateLimitState.buckets s in
  if (Z.of_nat (size m) >=? RateLimitState.max_entries s) && negb (bool_decide (is_Some (m !! ip)))
  then match min_by_time ((fun kb : Ip * TokenBucket.t => (kb.1, TokenBucket.last_refill kb.2)) <$> ips_iter m) with
       | Some (oldest_ip, _) => delete oldest_ip m
       | None => m
       end
  else m.

(** [rate_limit_layer]; [now0] is read if the bucket is new, [now] by [try_consume]. *)
Definition rate_limit_layer (now0 now : Z) (rq : HttpRequest.t Ip) (s : RateLimitState.t Ip)
    : option HttpAnswer.t * RateLimitState.t Ip :=
  match HttpRequest.peer rq with
  | None => (None, s)
  | Some ip =>
      let m := evict_bucket ip s in
      let bucket := default (TokenBucket.new now0 (RateLimitState.burst s)) (m !! ip) in
      let '(ok, bucket) := TokenBucket.try_consume now (RateLimitState.requests_per_sec s) (RateLimitState.burst s) bucket in
      let s := RateLimitState.mk (RateLimitState.requests_per_sec s) (RateLimitState.burst s) (RateLimitState.max_entries s)
                 (<[ip := bucket]> m) in
      (if ok then None else Some (reject_rate_limited (RateLimitState.requests_per_sec s)), s)
  end.
End Buckets.

(** ** The other layers *)

Definition security_headers : list (string * string) :=
  [ ("x-content-type-options", "nosniff"); ("x-frame-options", "DENY");
    ("strict-transport-security", "max-age=63072000; includeSubDomains"); ("cache-control", "no-store");
    ("content-security-policy", "default-src 'none'"); ("referrer-policy", "no-referrer");
    ("permissions-policy", "camera=(), microphone=(), geolocation=(), interest-cohort=()") ]%string.

(** [HeaderMap::insert]: the name keeps one value. *)
Definition insert_header (hs : list (string * string)) (kv : string * string) : list (string * string) :=
  List.filter (fun h => negb (bool_decide (h.1 = kv.1))) hs ++ [kv].
Definition security_headers_layer (resp : HttpAnswer.t) : HttpAnswer.t :=
  HttpAnswer.mk (HttpAnswer.code resp) (HttpAnswer.reason resp) (HttpAnswer.detail resp)
    (foldl insert_header (HttpAnswer.headers resp) security_headers).

Inductive TlsMode : Type := TlsRequired | OptionalLocalOnly.
(** [validate_tls]: whether TLS is on, or the refusal of the address. *)
Definition validate_tls (mode : TlsMode) (bind_is_loopback : bool) : result bool unit :=
  match mode with
  | TlsRequired => Ok true
  | OptionalLocalOnly => if bind_is_loopback then Ok false else Err tt
  end.

(** [readyz] and [drain]: the flag, and the seconds of sleep. *)
Definition gateway_readyz (ready : bool) : Z * string * option string :=
  if ready then (200, "ok"%string, None)
  else (503, "not_ready"%string, Some (GatewayReason.as_str GatewayReason.ShutdownDrain)).
Definition drain_gateway (drain_secs : Z) (ready : bool) : bool * Z := (false, drain_secs).

(** [enforce_min_delay]: how long it sleeps. *)
Definition enforce_min_delay (elapsed min_delay : Z) : Z := if min_delay >=? elapsed then min_delay - elapsed else 0.

(** ** The stack *)

(** The readings of the clocks while a request passes: instants of the buckets, seconds of the rest. *)
Module Readings.
Record t : Type := mk { bucket_new : Z; bucket_use : Z; window_now : Z; cache_now : Z }.
End Readings.

Section Stack.
Context {Ip : Type} `{IpOrder Ip} `{HexCrate} `{HmacCrate} `{NonceOrder}.

(** From the outside in: headers on every answer, rate limit, authentication, input, the handler. *)
Definition gateway_stack (c : Readings.t) (rq : HttpRequest.t Ip) (handler : HttpRequest.t Ip -> HttpAnswer.t)
    (rl : RateLimitState.t Ip) (au : AuthState.t) : HttpAnswer.t * RateLimitState.t Ip * AuthState.t :=
  let '(limited, rl) := rate_limit_layer (Readings.bucket_new c) (Readings.bucket_use c) rq rl in
  match limited with
  | Some refusal => (security_headers_layer refusal, rl, au)
  | None =>
      let '(refused, au) := auth_layer (Readings.window_now c) (Readings.cache_now c) rq au in
      match refused with
      | Some refusal => (security_headers_layer refusal, rl, au)
      | None =>
          match input_validation_layer rq with
          | Some refusal => (security_headers_layer refusal, rl, au)
          | None => (security_headers_layer (handler rq), rl, au)
          end
      end
  end.
End Stack.

(** * Properties *)

(** ** Replay *)

(** The cache is full of requests that have not expired. *)
Definition crowded (now : Z) (c : NonceCache.t) : Prop :=
  NonceCache.max_entries c <= Z.of_nat (size (NonceCache.entries (NonceCache.evict_expired now c))).

(** The pair cannot be accepted: it is in the cache, or too old. *)
Definition used_up (now : Z) (nonce : bytes) (ts : Z) (c : NonceCache.t) : Prop :=
  NonceCache.entries c !! nonce = Some ts \/ NonceCache.window_secs c < now - ts.

Section Replay.
Context `{NonceOrder}.

Lemma evict_expired_lookup now c nonce ts : 0 <= NonceCache.window_secs c -> NonceCache.entries c !! nonce = Some ts ->
  NonceCache.entries (NonceCache.evict_expired now c) !! nonce = Some ts \/ NonceCache.window_secs c < now - ts.
Proof.
  intros Hw Hl. destruct (saturating_sub now ts <=? NonceCache.window_secs c) eqn:E.
  - left. unfold NonceCache.evict_expired. cbn [NonceCache.entries]. by apply map_lookup_filter_Some.
  - right. z_bool. unfold saturating_sub in E. lia.
Qed.

Lemma validate_window now nonce ts c : NonceCache.window_secs (NonceCache.validate now nonce ts c).2 = NonceCache.window_secs c /\
  NonceCache.max_entries (NonceCache.validate now nonce ts c).2 = NonceCache.max_entries c.
Proof.
  unfold NonceCache.validate, NonceCache.evict_oldest. repeat case_if; try done.
  by destruct (min_by_time _) as [[k t]|].
Qed.

(** What was used up stays so, unless a request is let in while the cache is crowded. *)
Lemma used_up_later now now' nonce ts n t c : 0 <= NonceCache.window_secs c -> now <= now' ->
  used_up now nonce ts c -> ~ crowded now' c -> used_up now' nonce ts (NonceCache.validate now' n t c).2.
Proof.
  intros Hw Hle Hu Hc. unfold used_up. rewrite (proj1 (validate_window now' n t c)).
  destruct Hu as [Hin|Hold]; [|right; lia].
  unfold NonceCache.validate. destruct (lenZ n >? MAX_NONCE_LENGTH); [by left|].
  destruct (Z.abs (now' - t) >? NonceCache.window_secs c); [by left|].
  destruct (evict_expired_lookup now' c nonce ts Hw Hin) as [He|He]; [|by right]. left.
  destruct (bool_decide (is_Some (NonceCache.entries (NonceCache.evict_expired now' c) !! n))) eqn:Eb; [done|].
  apply bool_decide_eq_false in Eb. unfold crowded in Hc. destruct (_ >=? _) eqn:Ef.
  { z_bool. exfalso. apply Hc. exact Ef. }
  cbn [snd NonceCache.entries]. rewrite lookup_insert_ne; [done|]. intros <-. apply Eb. by exists ts.
Qed.

Lemma used_up_refused now now' nonce ts c : 0 <= NonceCache.window_secs c -> now <= now' -> used_up now nonce ts c ->
  (NonceCache.validate now' nonce ts c).1 <> NonceValid.
Proof.
  intros Hw Hle Hu. unfold NonceCache.validate. destruct (lenZ nonce >? MAX_NONCE_LENGTH); [done|].
  destruct (Z.abs (now' - ts) >? NonceCache.window_secs c) eqn:Ea; [done|]. z_bool.
  destruct Hu as [Hin|Hold]; [|lia]. destruct (evict_expired_lookup now' c nonce ts Hw Hin) as [He|He]; [|lia].
  by rewrite bool_decide_true by (by exists ts).
Qed.

Lemma valid_used_up now nonce ts c : (NonceCache.validate now nonce ts c).1 = NonceValid ->
  used_up now nonce ts (NonceCache.validate now nonce ts c).2.
Proof.
  unfold NonceCache.validate. repeat case_if; try done; intros _; left; cbn [snd NonceCache.entries]; apply lookup_insert_eq.
Qed.

Context {Ip : Type} `{HexCrate} `{HmacCrate}.

(** The pair a request is signed with. *)
Definition signed_pair (rq : HttpRequest.t Ip) : option (bytes * Z) :=
  nonce ← header_str (HttpRequest.headers rq) "x-nonce";
  ts ← header_str (HttpRequest.headers rq) "x-timestamp" ≫= parse_u64;
  Some (nonce, ts).

(** What a signed request does to the cache: nothing, or one validation of its pair, which decides. *)
Lemma verify_hmac_cache now now' (rq : HttpRequest.t Ip) s c : AuthState.nonce_cache s = Some c ->
  (verify_hmac now now' rq s = (false, s)) \/
  exists nonce ts, signed_pair rq = Some (nonce, ts) /\
    verify_hmac now now' rq s =
      (match (NonceCache.validate now' nonce ts c).1 with NonceValid => true | _ => false end,
       AuthState.with_cache (Some (NonceCache.validate now' nonce ts c).2) s).
Proof.
  intros Hc. unfold verify_hmac, signed_pair. rewrite Hc.
  destruct (AuthState.hmac_key s); [|by left]. destruct (header_str _ "x-signature"); [|by left].
  destruct (header_str _ "x-timestamp") as [tss|]; [|by left]. destruct (header_str _ "x-nonce") as [n|]; [|by left].
  cbn [mbind option_bind]. destruct (parse_u64 tss) as [ts|]; [|by left]. case_if; [by left|]. case_if; [by left|].
  destruct (hex_decode _) as [sig|]; [|by left]. case_if; [by left|]. destruct (hmac_sha256 _ _); [|by left].
  case_if; [by left|]. destruct (AuthState.nonce_poisoned s); [by left|]. right. exists n, ts. split; [done|].
  by destruct (NonceCache.validate now' n ts c).
Qed.

(** A sequence of signed requests with the clocks they are handled at, in the order of the second. *)
Fixpoint hmac_run (steps : list (Z * Z * HttpRequest.t Ip)) (s : AuthState.t) : AuthState.t :=
  match steps with
  | [] => s
  | (now, now', rq) :: steps => hmac_run steps (verify_hmac now now' rq s).2
  end.
Fixpoint in_order (from : Z) (steps : list (Z * Z * HttpRequest.t Ip)) (to : Z) : Prop :=
  match steps with
  | [] => from <= to
  | (_, now', _) :: steps => from <= now' /\ in_order now' steps to
  end.
(** No request meets a crowded cache. *)
Fixpoint uncrowded (steps : list (Z * Z * HttpRequest.t Ip)) (s : AuthState.t) : Prop :=
  match steps with
  | [] => True
  | (now, now', rq) :: steps =>
      (forall c, AuthState.nonce_cache s = Some c -> ~ crowded now' c) /\ uncrowded steps (verify_hmac now now' rq s).2
  end.

Lemma hmac_run_used_up steps from to nonce ts s c : AuthState.nonce_cache s = Some c -> 0 <= NonceCache.window_secs c ->
  used_up from nonce ts c -> in_order from steps to -> uncrowded steps s ->
  exists c', AuthState.nonce_cache (hmac_run steps s) = Some c' /\ 0 <= NonceCache.window_secs c' /\ used_up to nonce ts c'.
Proof.
  revert from s c. induction steps as [|[[now now'] rq] steps IH]; intros from s c Hc Hw Hu Ho Hq; cbn [hmac_run in_order uncrowded] in *.
  - exists c. split; [done|]. split; [done|]. destruct Hu as [Hin|Hold]; [by left|right; lia].
  - destruct Ho as [Hle Ho], Hq as [Hnc Hq].
    destruct (verify_hmac_cache now now' rq s c Hc) as [Heq|(n & t & _ & Heq)]; rewrite Heq in *; cbn [snd] in *.
    + apply (IH now' s c); try done. destruct Hu as [Hin|Hold]; [by left|right; lia].
    + apply (IH now' _ (NonceCache.validate now' n t c).2); try done.
      * by rewrite (proj1 (validate_window now' n t c)).
      * apply (used_up_later from); try done. by apply Hnc.
Qed.

(** C24 A signed request is accepted once. After a request was accepted, a request with the same nonce
    and timestamp, the only ones its signature is good for, is refused, however many requests are
    handled in between, as long as the clock does not go back and the cache of nonces is not full of
    requests that are still within the window. *)
Theorem signed_request_accepted_once now0 now0' rq s c steps now now' rq' :
  AuthState.nonce_cache s = Some c -> 0 <= NonceCache.window_secs c ->
  (verify_hmac now0 now0' rq s).1 = true ->
  in_order now0' steps now' -> uncrowded steps (verify_hmac now0 now0' rq s).2 ->
  signed_pair rq' = signed_pair rq ->
  (verify_hmac now now' rq' (hmac_run steps (verify_hmac now0 now0' rq s).2)).1 = false.
Proof.
  intros Hc Hw Hok Ho Hq Hsame. destruct (verify_hmac_cache now0 now0' rq s c Hc) as [Heq|(n & t & Hp & Heq)]; rewrite Heq in *; [done|].
  cbn [fst snd] in *. destruct (NonceCache.validate now0' n t c).1 eqn:Ev; try done.
  pose proof (valid_used_up _ _ _ _ Ev) as Hu.
  destruct (hmac_run_used_up steps now0' now' n t
    (AuthState.with_cache (Some (NonceCache.validate now0' n t c).2) s) (NonceCache.validate now0' n t c).2 eq_refl) as (c' & Hc' & Hw' & Hu'); try done.
  { by rewrite (proj1 (validate_window now0' n t c)). }
  destruct (verify_hmac_cache now now' rq' _ c' Hc') as [->|(n' & t' & Hp' & ->)]; [done|]. cbn [fst].
  rewrite Hsame, Hp in Hp'. injection Hp' as <- <-. pose proof (used_up_refused now' now' n t c' Hw' (Z.le_refl _) Hu') as Hr.
  by destruct (NonceCache.validate now' n t c').1.
Qed.

(** The signature does not cover the query or the body: changing them changes nothing in the check. *)
Theorem signature_ignores_body now now' (rq rq' : HttpRequest.t Ip) s :
  HttpRequest.method rq = HttpRequest.method rq' -> HttpRequest.path rq = HttpRequest.path rq' ->
  HttpRequest.headers rq = HttpRequest.headers rq' -> verify_hmac now now' rq s = verify_hmac now now' rq' s.
Proof. intros Hm Hp Hh. unfold verify_hmac. by rewrite Hm, Hp, Hh. Qed.
End Replay.

(** ** The stack *)

Definition named (name : string) (hs : list (string * string)) : list (string * string) :=
  List.filter (fun h => bool_decide (h.1 = name)) hs.

Lemma named_insert_same hs kv : named kv.1 (insert_header hs kv) = [kv].
Proof.
  unfold named, insert_header. rewrite List.filter_app. cbn [List.filter]. rewrite bool_decide_true by done.
  assert (List.filter (fun h : string * string => bool_decide (h.1 = kv.1))
    (List.filter (fun h => negb (bool_decide (h.1 = kv.1))) hs) = []) as ->; [|done].
  induction hs as [|h hs IH]; [done|]. cbn [List.filter]. destruct (bool_decide (h.1 = kv.1)) eqn:E; cbn [negb]; [done|].
  cbn [List.filter]. by rewrite E.
Qed.

Lemma named_insert_other name hs kv : kv.1 <> name -> named name (insert_header hs kv) = named name hs.
Proof.
  intros Hne. unfold named, insert_header. rewrite List.filter_app. cbn [List.filter]. rewrite (bool_decide_false (kv.1 = name)) by done.
  rewrite app_nil_r. induction hs as [|h hs IH]; [done|]. cbn [List.filter].
  destruct (decide (h.1 = kv.1)) as [He|He].
  - rewrite (bool_decide_true (h.1 = kv.1)) by done. cbn [negb]. rewrite IH, bool_decide_false; [done|]. congruence.
  - rewrite (bool_decide_false (h.1 = kv.1)) by done. cbn [negb List.filter]. by rewrite IH.
Qed.

Lemma named_fold l hs kv : NoDup (fst <$> l) -> kv ∈ l -> named kv.1 (foldl insert_header hs l) = [kv].
Proof.
  induction l as [|x l IH] using rev_ind; intros Hnd Hin; [by apply not_elem_of_nil in Hin|].
  rewrite foldl_app. cbn [foldl]. rewrite fmap_app in Hnd. apply NoDup_app in Hnd as (Hnd & Hd & _).
  apply elem_of_app in Hin as [Hin|Hin%list_elem_of_singleton].
  - rewrite named_insert_other; [by apply IH|]. intros He. apply (Hd kv.1).
    + by apply list_elem_of_fmap_2.
    + cbn. rewrite He. by left.
  - subst x. apply named_insert_same.
Qed.

Section Gatekeeping.
Context {Ip : Type} `{IpOrder Ip} `{HexCrate} `{HmacCrate} `{NonceOrder}.

Lemma auth_refusal now now' (rq : HttpRequest.t Ip) s refusal : (auth_layer now now' rq s).1 = Some refusal -> refusal = reject_auth.
Proof.
  unfold auth_layer. destruct (AuthState.mode s); [|destruct (verify_hmac now now' rq s) as [[] s1]]; cbn; [case_if|..]; congruence.
Qed.

Lemma limit_refusal now0 now (rq : HttpRequest.t Ip) s refusal :
  (rate_limit_layer now0 now rq s).1 = Some refusal -> HttpAnswer.code refusal = 429.
Proof.
  unfold rate_limit_layer. destruct (HttpRequest.peer rq); [|done].
  destruct (TokenBucket.try_consume _ _ _ _) as [[] b]; [done|]. cbn. by intros [= <-].
Qed.

(** The stack lets nothing past. The answer to a request that the authentication refuses does not
    depend on the handler behind it and is 401, or 429 when the rate limit refused it before; and every
    answer, of the handler or of a layer, carries each of the security headers with its value, once. *)
Theorem stack_guards_handler c (rq : HttpRequest.t Ip) handler rl au :
  let answer h := (gateway_stack c rq h rl au).1.1 in
  (is_Some (auth_layer (Readings.window_now c) (Readings.cache_now c) rq au).1 ->
     (HttpAnswer.code (answer handler) = 401 \/ HttpAnswer.code (answer handler) = 429) /\
     forall handler', answer handler' = answer handler) /\
  Forall (fun kv => named kv.1 (HttpAnswer.headers (answer handler)) = [kv]) security_headers.
Proof.
  cbn zeta. split.
  - intros [refusal Hr]. unfold gateway_stack. destruct (rate_limit_layer _ _ _ _) as [[lr|] rl'] eqn:El; cbn [fst].
    + split; [|done]. right. cbn [security_headers_layer HttpAnswer.code]. apply (limit_refusal (Readings.bucket_new c) (Readings.bucket_use c) rq rl). by rewrite El.
    + destruct (auth_layer _ _ _ _) as [a au'] eqn:Ea. cbn [fst] in Hr. subst a. cbn [fst]. split; [left|done].
      by rewrite (auth_refusal (Readings.window_now c) (Readings.cache_now c) rq au refusal) by (by rewrite Ea).
  - assert (forall resp, Forall (fun kv => named kv.1 (HttpAnswer.headers (security_headers_layer resp)) = [kv]) security_headers) as Hs.
    { intros resp. apply Forall_forall. intros kv Hin. apply named_fold; [|done]. apply (bool_decide_unpack _). vm_compute. exact I. }
    unfold gateway_stack. destruct (rate_limit_layer _ _ _ _) as [[lr|] rl']; [apply Hs|].
    destruct (auth_layer _ _ _ _) as [[ar|] au']; [apply Hs|]. destruct (input_validation_layer rq); apply Hs.
Qed.

(** A bearer is let in exactly with one of the two secrets. *)
Theorem bearer_exact (rq : HttpRequest.t Ip) now now' s : AuthState.mode s = BearerToken ->
  (auth_layer now now' rq s).1 = None <->
  exists token, extract_bearer_token (HttpRequest.headers rq) = Some token /\
    (AuthState.api_secret s = Some token \/ AuthState.api_secret_previous s = Some token).
Proof.
  assert (forall a b, constant_time_eq a b = true <-> a = b) as Heq.
  { intros a b. unfold constant_time_eq. case_if; z_bool.
    - apply Nat.eqb_neq in E. split; [done|]. by intros ->.
    - by rewrite bool_decide_eq_true. }
  intros Hm. unfold auth_layer. rewrite Hm. cbn [fst]. unfold verify_bearer.
  destruct (extract_bearer_token _) as [token|]; [|split; [done|by intros (?&?&_)]].
  destruct (_ || _) eqn:Eo.
  - apply orb_true_iff in Eo. split; [intros _|done]. exists token. split; [done|].
    destruct Eo as [Eo|Eo]; [left; destruct (AuthState.api_secret s)|right; destruct (AuthState.api_secret_previous s)];
      try done; apply Heq in Eo; by subst.
  - apply orb_false_iff in Eo as [E1 E2]. split; [done|]. intros (t & [= <-] & [Hs|Hs]); rewrite Hs in *;
      rewrite (proj2 (Heq token token) eq_refl) in *; done.
Qed.
End Gatekeeping.

(** ** A sample gateway *)

Module MiddlewareSample.
Definition nonce_order : NonceOrder := {| nonces_iter m := map_to_list m; nonces_iter_perm m := reflexivity _ |}.
#[export] Existing Instances nonce_order HexSample.crate HmacSample.crate.
Definition ip_order : IpOrder Z := {| ips_iter A (m : gmap Z A) := map_to_list m; ips_iter_perm A m := reflexivity _ |}.
#[export] Existing Instance ip_order.

Definition key : bytes := lit "k".
(** A request signed at second 1000 under a nonce. *)
Definition signed (nonce : string) (body : bytes) : HttpRequest.t Z :=
  let mac := default [] (hmac_sha256 key (signing_payload (lit "GET") (lit "/a") (lit "1000") (lit nonce))) in
  HttpRequest.mk (lit "GET") (lit "/a") [] [("x-signature"%string, lit (hex_encode mac)); ("x-timestamp"%string, lit "1000");
    ("x-nonce"%string, lit nonce)] body None.
Definition state (max_entries : Z) : AuthState.t :=
  AuthState.mk HmacSha256 None None (Some key) (Some (NonceCache.new max_entries 300)) false DEFAULT_TIMESTAMP_MAX_AGE_SECS.

Lemma signed_request_accepted_once_witness :
  (verify_hmac 1010 1010 (signed "nonce-01" []) (state 10)).1 = true /\
  (verify_hmac 1030 1030 (signed "nonce-01" [])
    (hmac_run [(1020, 1020, signed "nonce-02" [])] (verify_hmac 1010 1010 (signed "nonce-01" []) (state 10)).2)).1 = false.
Proof.
  split; [vm_compute; reflexivity|].
  refine (signed_request_accepted_once 1010 1010 (signed "nonce-01" []) (state 10) (NonceCache.new 10 300)
    [(1020, 1020, signed "nonce-02" [])] 1030 1030 (signed "nonce-01" []) eq_refl _ _ _ _ eq_refl).
  - discriminate.
  - vm_compute. reflexivity.
  - cbn. lia.
  - split; [|exact I]. intros c Hc. vm_compute in Hc. injection Hc as <-. vm_compute. intros Hle. by apply Hle.
Defined.

(** Under a cache of one entry, another request makes room for the replay. *)
Theorem crowded_cache_replays :
  (verify_hmac 1030 1030 (signed "nonce-01" [])
    (hmac_run [(1010, 1010, signed "nonce-01" []); (1020, 1020, signed "nonce-02" [])] (state 1))).1 = true.
Proof. vm_compute. reflexivity. Qed.

Lemma signature_ignores_body_witness :
  (verify_hmac 1010 1010 (signed "nonce-01" (lit "pay 1")) (state 10)).1 = true /\
  (verify_hmac 1010 1010 (signed "nonce-01" (lit "pay 1000")) (state 10)).1 = true.
Proof.
  split; [vm_compute; reflexivity|].
  rewrite (signature_ignores_body 1010 1010 (signed "nonce-01" (lit "pay 1000")) (signed "nonce-01" (lit "pay 1"))
    (state 10) eq_refl eq_refl eq_refl). vm_compute. reflexivity.
Defined.

Lemma stack_guards_handler_witness : let c := Readings.mk 0 0 5000 5000 in
  HttpAnswer.code (gateway_stack c (signed "nonce-01" []) (fun _ => HttpAnswer.mk 200 None "" []) (RateLimitState.new 10 10) (state 10)).1.1 = 401
  \/ HttpAnswer.code (gateway_stack c (signed "nonce-01" []) (fun _ => HttpAnswer.mk 200 None "" []) (RateLimitState.new 10 10) (state 10)).1.1 = 429.
Proof.
  intros c. destruct (stack_guards_handler c (signed "nonce-01" []) (fun _ => HttpAnswer.mk 200 None "" []) (RateLimitState.new 10 10) (state 10))
    as [Hg _]. apply Hg. exists reject_auth. vm_compute. reflexivity.
Defined.

Lemma bearer_exact_witness : (auth_layer 0 0 (HttpRequest.mk [] [] [] [("authorization"%string, lit "Bearer x")] [] None : HttpRequest.t Z)
  (AuthState.mk BearerToken (Some (lit "y")) (Some (lit "x")) None None false 300)).1 = None.
Proof. apply bearer_exact; [reflexivity|]. exists (lit "x"). split; [reflexivity|by right]. Defined.
End MiddlewareSample.
