(* ===== verification/PolicyFile.v ===== *)
(** * The policy file

    Models [services/pool-verifier/src/state.rs] (loading the policy at start, the report of keys that
    nothing reads, the permissive fallback), the serde attributes of the policy structs in
    [policy.rs], and [bin/init_policy.rs], the wizard that writes a policy file.

    A TOML document is the tree of its values; a table is a map. The TOML crate turns text into trees
    and back; serde's deserialisation of the three structs from a table is spelled out field by
    field. A value that is neither a scalar nor a table (an array, a date) is opaque, and what serde
    makes of one in the place of a struct is an operation of the crate. *)

From stdpp Require Import sorting.
From S2P Require Import Prelude Crates Float64 Protocol Consensus Mempool Policy Codec Limits License Middleware.

Inductive toml : Type :=
| TomlInt (z : Z)
| TomlFloat (f : f64)
| TomlBool (b : bool)
| TomlStr (s : string)
| TomlTab (t : gmap string toml)
| TomlElse (text : string).

Definition is_table (v : toml) : bool := match v with TomlTab _ => true | _ => false end.

(** [toml::from_str] with its error text, [toml::to_string_pretty], and the structs from an opaque
    value. *)
Class TomlDocs : Type := {
  from_str : string -> result (gmap string toml) string;
  to_string_pretty : gmap string toml -> option string;
  safety_of_else : string -> option PolicySafety.t;
  mempool_of_else : string -> option PolicyMempool.t;
  policy_of_else : string -> option PolicyConfig.t
}.
(** ** Reading a struct from a table: an absent field takes its default *)

Definition field {A} (t : gmap string toml) (key : string) (dflt : A) (read : toml -> option A) : option A :=
  match t !! key with None => Some dflt | Some v => read v end.

Definition i64_max : Z := 2 ^ 63 - 1.

(** An unsigned integer of [w] bits; a TOML integer is an [i64]. *)
Definition as_uint (w : Z) (v : toml) : option Z :=
  match v with TomlInt z => if (0 <=? z) && (z <? 2 ^ w) && (z <=? i64_max) then Some z else None | _ => None end.
Definition as_f64 (v : toml) : option f64 :=
  match v with TomlFloat f => Some f | TomlInt z => Some (f64_of_Z z) | _ => None end.
Definition as_bool (v : toml) : option bool := match v with TomlBool b => Some b | _ => None end.
Definition as_str (v : toml) : option string := match v with TomlStr s => Some s | _ => None end.
Definition as_some {A} (read : toml -> option A) (v : toml) : option (option A) := Some <$> read v.

Definition default_protocol_version : Z := PROTOCOL_VERSION.
Definition default_required_prevhash_len : Z := 64.
Definition default_max_tx_count : Z := 10000.
Definition default_low_mempool_tx : Z := 50.
Definition default_high_mempool_tx : Z := 500.
Definition default_reject_empty_templates : bool := true.
Definition default_reject_coinbase_zero : bool := false.
Definition default_unknown_mempool_as_high : bool := true.

Definition safety_of_table (t : gmap string toml) : option PolicySafety.t :=
  max_weight_ratio ← field t "max_weight_ratio" default_max_weight_ratio as_f64;
  enforce_weight_ratio ← field t "enforce_weight_ratio" false as_bool;
  max_template_age_ms ← field t "max_template_age_ms" None (as_some (as_uint 64));
  enforce_template_age ← field t "enforce_template_age" false as_bool;
  warn_sigops_ratio ← field t "warn_sigops_ratio" default_warn_sigops_ratio as_f64;
  warn_coinbase_sigops_max ← field t "warn_coinbase_sigops_max" default_warn_coinbase_sigops_max (as_uint 32);
  Some (PolicySafety.mk max_weight_ratio enforce_weight_ratio max_template_age_ms enforce_template_age
          warn_sigops_ratio warn_coinbase_sigops_max).

Definition mempool_of_table (t : gmap string toml) : option PolicyMempool.t :=
  enforce ← field t "enforce" false as_bool;
  tolerance_pct ← field t "tolerance_pct" default_mempool_tolerance_pct as_f64;
  poll_interval_secs ← field t "poll_interval_secs" default_mempool_poll_interval_secs (as_uint 64);
  max_stale_secs ← field t "max_stale_secs" default_mempool_max_stale_secs (as_uint 64);
  per_tx_detail ← field t "per_tx_detail" false as_bool;
  rpc_url ← field t "rpc_url" ""%string as_str;
  rpc_user ← field t "rpc_user" ""%string as_str;
  rpc_pass ← field t "rpc_pass" ""%string as_str;
  Some (PolicyMempool.mk enforce tolerance_pct poll_interval_secs max_stale_secs per_tx_detail
          rpc_url rpc_user rpc_pass).

(** ** Writing a struct as a table: TOML integers are [i64], an absent option has no key *)

Definition of_uint (z : Z) : option toml := if z <=? i64_max then Some (TomlInt z) else None.
Definition of_some {A} (write : A -> option toml) (key : string) (v : option A) : option (list (string * toml)) :=
  match v with None => Some [] | Some x => w ← write x; Some [(key, w)] end.

Definition table_of_safety (s : PolicySafety.t) : option (gmap string toml) :=
  age ← of_some of_uint "max_template_age_ms" (PolicySafety.max_template_age_ms s);
  sigops ← of_uint (PolicySafety.warn_coinbase_sigops_max s);
  Some (list_to_map
    ([("max_weight_ratio", TomlFloat (PolicySafety.max_weight_ratio s));
      ("enforce_weight_ratio", TomlBool (PolicySafety.enforce_weight_ratio s));
      ("enforce_template_age", TomlBool (PolicySafety.enforce_template_age s));
      ("warn_sigops_ratio", TomlFloat (PolicySafety.warn_sigops_ratio s));
      ("warn_coinbase_sigops_max", sigops)]%string ++ age)).

Definition table_of_mempool (m : PolicyMempool.t) : option (gmap string toml) :=
  poll ← of_uint (PolicyMempool.poll_interval_secs m);
  stale ← of_uint (PolicyMempool.max_stale_secs m);
  Some (list_to_map
    [("enforce", TomlBool (PolicyMempool.enforce m));
     ("tolerance_pct", TomlFloat (PolicyMempool.tolerance_pct m));
     ("poll_interval_secs", poll);
     ("max_stale_secs", stale);
     ("per_tx_detail", TomlBool (PolicyMempool.per_tx_detail m));
     ("rpc_url", TomlStr (PolicyMempool.rpc_url m));
     ("rpc_user", TomlStr (PolicyMempool.rpc_user m));
     ("rpc_pass", TomlStr (PolicyMempool.rpc_pass m))]%string).

Definition table_of_policy (c : PolicyConfig.t) : option (gmap string toml) :=
  version ← of_uint (PolicyConfig.protocol_version c);
  prevhash_len ← of_uint (PolicyConfig.required_prevhash_len c);
  min_total_fees ← of_uint (PolicyConfig.min_total_fees c);
  max_tx_count ← of_uint (PolicyConfig.max_tx_count c);
  low ← of_uint (PolicyConfig.low_mempool_tx c);
  high ← of_uint (PolicyConfig.high_mempool_tx c);
  fee_lo ← of_uint (PolicyConfig.min_avg_fee_lo c);
  fee_mid ← of_uint (PolicyConfig.min_avg_fee_mid c);
  fee_hi ← of_uint (PolicyConfig.min_avg_fee_hi c);
  safety ← table_of_safety (PolicyConfig.safety c);
  mempool ← table_of_mempool (PolicyConfig.mempool c);
  Some (list_to_map
    [("protocol_version", version); ("required_prevhash_len", prevhash_len); ("min_total_fees", min_total_fees);
     ("max_tx_count", max_tx_count); ("low_mempool_tx", low); ("high_mempool_tx", high);
     ("min_avg_fee_lo", fee_lo); ("min_avg_fee_mid", fee_mid); ("min_avg_fee_hi", fee_hi);
     ("reject_empty_templates", TomlBool (PolicyConfig.reject_empty_templates c));
     ("reject_coinbase_zero", TomlBool (PolicyConfig.reject_coinbase_zero c));
     ("unknown_mempool_as_high", TomlBool (PolicyConfig.unknown_mempool_as_high c));
     ("safety", TomlTab safety); ("mempool", TomlTab mempool)]%string).

(** ** Keys that nothing reads *)

Definition dotted (prefix key : string) : string :=
  if String.eqb prefix "" then key else prefix +:+ "." +:+ key.

Fixpoint unknown_policy_keys (raw known : toml) (prefix : string) : list string :=
  match raw, known with
  | TomlTab raw_t, TomlTab known_t =>
      map_fold (fun key raw_child out =>
        let path := dotted prefix key in
        match known_t !! key with
        | None => path :: out
        | Some known_child =>
            if is_table raw_child && is_table known_child
            then unknown_policy_keys raw_child known_child path ++ out else out
        end) [] raw_t
  | _, _ => []
  end.

(** [sort] on strings. *)
Definition str_le (a b : string) : Prop := String.leb a b = true.
#[global] Instance str_le_dec a b : Decision (str_le a b).
Proof. unfold str_le. apply _. Defined.
Definition sort_keys (l : list string) : list string := merge_sort str_le l.

(** ** Loading *)

Module PolicyHolder.
Record t : Type := mk { config : PolicyConfig.t; toml_text : string }.
End PolicyHolder.

Inductive LoadError : Type :=
| ReadFailed
| BadToml (text : string)
| NoPolicyTable
| NotAPolicy
| PolicyInvalid (e : PolicyConfig.ValidateError)
| ProtocolMismatch (got : Z).

Section Loading.
Context `{TomlDocs}.

(** A nested struct. *)
Definition as_struct {A} (of_table : gmap string toml -> option A) (of_else : string -> option A) (v : toml) : option A :=
  match v with TomlTab t => of_table t | TomlElse x => of_else x | _ => None end.

Definition policy_of_table (t : gmap string toml) : option PolicyConfig.t :=
  protocol_version ← field t "protocol_version" default_protocol_version (as_uint 16);
  required_prevhash_len ← field t "required_prevhash_len" default_required_prevhash_len (as_uint 64);
  min_total_fees ← field t "min_total_fees" 0 (as_uint 64);
  max_tx_count ← field t "max_tx_count" default_max_tx_count (as_uint 32);
  low_mempool_tx ← field t "low_mempool_tx" default_low_mempool_tx (as_uint 64);
  high_mempool_tx ← field t "high_mempool_tx" default_high_mempool_tx (as_uint 64);
  min_avg_fee_lo ← field t "min_avg_fee_lo" 0 (as_uint 64);
  min_avg_fee_mid ← field t "min_avg_fee_mid" 0 (as_uint 64);
  min_avg_fee_hi ← field t "min_avg_fee_hi" 0 (as_uint 64);
  reject_empty_templates ← field t "reject_empty_templates" default_reject_empty_templates as_bool;
  reject_coinbase_zero ← field t "reject_coinbase_zero" default_reject_coinbase_zero as_bool;
  unknown_mempool_as_high ← field t "unknown_mempool_as_high" default_unknown_mempool_as_high as_bool;
  safety ← field t "safety" PolicySafety.default (as_struct safety_of_table safety_of_else);
  mempool ← field t "mempool" PolicyMempool.default (as_struct mempool_of_table mempool_of_else);
  Some (PolicyConfig.mk protocol_version required_prevhash_len min_total_fees max_tx_count low_mempool_tx
          high_mempool_tx min_avg_fee_lo min_avg_fee_mid min_avg_fee_hi reject_empty_templates
          reject_coinbase_zero unknown_mempool_as_high safety mempool).

Definition policy_of_value : toml -> option PolicyConfig.t := as_struct policy_of_table policy_of_else.

Definition enforce_protocol (c : PolicyConfig.t) : result unit LoadError :=
  if PolicyConfig.protocol_version c =? PROTOCOL_VERSION then Ok tt
  else Err (ProtocolMismatch (PolicyConfig.protocol_version c)).

(** The policy, and the keys that are warned about. *)
Definition parse_policy_from_policy_table (contents : string) : result (PolicyConfig.t * list string) LoadError :=
  let? v := map_err BadToml (from_str contents) in
  let? policy_v := ok_or (v !! "policy"%string) NoPolicyTable in
  let? cfg := ok_or (policy_of_value policy_v) NotAPolicy in
  let unknown :=
    match table_of_policy cfg with
    | Some known => sort_keys (unknown_policy_keys policy_v (TomlTab known) "policy")
    | None => []
    end in
  Ok (cfg, unknown).

(** [file] is what [read_to_string] gives. *)
Definition load_initial_policy (file : option string) : result (PolicyHolder.t * list string) LoadError :=
  let? contents := ok_or file ReadFailed in
  let? parsed := parse_policy_from_policy_table contents in
  let cfg := parsed.1 in
  let? _ := map_err PolicyInvalid (PolicyConfig.validate cfg) in
  let? _ := enforce_protocol cfg in
  Ok (PolicyHolder.mk cfg contents, parsed.2).

Definition degraded_text : string :=
  "# policy load failed; running with built-in defaults" +:+ String (Ascii.ascii_of_nat 10) EmptyString.

(** The fields the fallback overrides. *)
Definition permissive (c : PolicyConfig.t) : PolicyConfig.t :=
  PolicyConfig.mk (PolicyConfig.protocol_version c) 64 0 u32_max (PolicyConfig.low_mempool_tx c)
    (PolicyConfig.high_mempool_tx c) (PolicyConfig.min_avg_fee_lo c) (PolicyConfig.min_avg_fee_mid c)
    (PolicyConfig.min_avg_fee_hi c) false false true
    (let s := PolicyConfig.safety c in
     PolicySafety.mk (f64_lit 999 1000) (PolicySafety.enforce_weight_ratio s) (PolicySafety.max_template_age_ms s)
       (PolicySafety.enforce_template_age s) (PolicySafety.warn_sigops_ratio s) (PolicySafety.warn_coinbase_sigops_max s))
    (PolicyConfig.mempool c).
Definition zeroed_tiers (c : PolicyConfig.t) : PolicyConfig.t :=
  PolicyConfig.mk (PolicyConfig.protocol_version c) (PolicyConfig.required_prevhash_len c)
    (PolicyConfig.min_total_fees c) (PolicyConfig.max_tx_count c) 0 0 0 0 0
    (PolicyConfig.reject_empty_templates c) (PolicyConfig.reject_coinbase_zero c)
    (PolicyConfig.unknown_mempool_as_high c) (PolicyConfig.safety c) (PolicyConfig.mempool c).

Definition degraded_policy : PolicyConfig.t :=
  let cfg := permissive (PolicyConfig.default_with_protocol PROTOCOL_VERSION) in
  match PolicyConfig.validate cfg with Ok _ => cfg | Err _ => zeroed_tiers cfg end.

(** The holder and whether it is the degraded one. *)
Definition safe_initial_policy (file : option string) (allow_permissive_degrade : bool)
    : result (PolicyHolder.t * bool) LoadError :=
  match load_initial_policy file with
  | Ok (h, _) => Ok (h, false)
  | Err e =>
      if negb allow_permissive_degrade then Err e
      else Ok (PolicyHolder.mk degraded_policy degraded_text, true)
  end.
End Loading.

(** ** The wizard

    Standard input is its lines, without their line ends; past the last one every answer is empty. *)

Inductive WizardError : Type := InvalidNumber | WizardInvalid (e : PolicyConfig.ValidateError) | WizardSerialize.

Module Wizard.
(** The reader: a result and the lines that are left. *)
Definition M (A : Type) : Type := list string -> result (A * list string) WizardError.
Definition bind {A B} (m : M A) (k : A -> M B) : M B := fun lines =>
  match m lines with Ok (a, rest) => k a rest | Err e => Err e end.
Notation "x '<-w' m ';;' k" := (bind m (fun x => k)) (at level 100, m at next level, right associativity).

Definition read_line : M string := fun lines =>
  Ok (String.string_of_list_ascii (trim (String.list_ascii_of_string (default ""%string (head lines)))), tail lines).

(** [str::parse] for [u64] and [u32]. *)
Definition parse_uint (max : Z) (s : string) : option Z :=
  n ← parse_u64 (lit s); if n <=? max then Some n else None.

Definition read_uint_with_default (max dflt : Z) : M Z := fun lines =>
  match read_line lines with
  | Err e => Err e
  | Ok (s, rest) =>
      if String.eqb s "" then Ok (dflt, rest)
      else match parse_uint max s with Some n => Ok (n, rest) | None => Err InvalidNumber end
  end.
Definition read_u64_with_default : Z -> M Z := read_uint_with_default u64_max.
Definition read_u32_with_default : Z -> M Z := read_uint_with_default u32_max.

Definition to_ascii_lowercase (c : Ascii.ascii) : Ascii.ascii :=
  let n := Ascii.nat_of_ascii c in
  if ((65 <=? n) && (n <=? 90))%nat then Ascii.ascii_of_nat (n + 32) else c.

Definition read_bool_with_default (dflt : bool) : M bool := fun lines =>
  match read_line lines with
  | Err e => Err e
  | Ok (s, rest) =>
      let s := String.string_of_list_ascii (to_ascii_lowercase <$> String.list_ascii_of_string s) in
      Ok (if String.eqb s "" then dflt else bool_decide (s ∈ ["y"; "yes"; "true"; "1"]%string), rest)
  end.

(** The answers, as the policy they make. *)
Definition answers : M PolicyConfig.t :=
  min_total_fees <-w read_u64_with_default 0 ;;
  max_tx_raw <-w read_u32_with_default 0 ;;
  let max_tx_count := if max_tx_raw =? 0 then u32_max else max_tx_raw in
  low <-w read_u64_with_default 1000 ;;
  high <-w read_u64_with_default 5000 ;;
  let low_mempool_tx := if high <? low then high else low in
  let high_mempool_tx := if high <? low then low else high in
  min_avg_fee_lo <-w read_u64_with_default 0 ;;
  min_avg_fee_mid <-w read_u64_with_default 1000 ;;
  min_avg_fee_hi <-w read_u64_with_default 5000 ;;
  unknown_mempool_as_high <-w read_bool_with_default true ;;
  reject_coinbase_zero <-w read_bool_with_default false ;;
  reject_empty_templates <-w read_bool_with_default true ;;
  let cfg := PolicyConfig.default_with_protocol PROTOCOL_VERSION in
  fun rest => Ok (PolicyConfig.mk (PolicyConfig.protocol_version cfg) (PolicyConfig.required_prevhash_len cfg)
    min_total_fees max_tx_count low_mempool_tx high_mempool_tx min_avg_fee_lo min_avg_fee_mid min_avg_fee_hi
    reject_empty_templates reject_coinbase_zero unknown_mempool_as_high
    (PolicyConfig.safety cfg) (PolicyConfig.mempool cfg), rest).

(** [toml::to_string_pretty] of a policy under its table. *)
Definition policy_document `{TomlDocs} (c : PolicyConfig.t) : option string :=
  t ← table_of_policy c; to_string_pretty {[ "policy"%string := TomlTab t ]}.

(** The text that is written to [config/policy.toml]; [None] when the user does not confirm. *)
Definition run `{TomlDocs} (exists_already : bool) (lines : list string) : result (option string) WizardError :=
  match (if exists_already then read_line lines else Ok ("YES"%string, lines)) with
  | Err e => Err e
  | Ok (answer, lines) =>
      if negb (String.eqb answer "YES") then Ok None
      else
        match answers lines with
        | Err e => Err e
        | Ok (cfg, _) =>
            let? _ := map_err WizardInvalid (PolicyConfig.validate cfg) in
            let? text := ok_or (policy_document cfg) WizardSerialize in
            Ok (Some text)
        end
  end.
End Wizard.

(** * Properties *)

(** ** A policy survives its table *)

Fixpoint assoc (l : list (string * toml)) (key : string) : option toml :=
  match l with [] => None | (k, v) :: l => if String.eqb key k then Some v else assoc l key end.

Lemma lookup_assoc l key : (list_to_map l : gmap string toml) !! key = assoc l key.
Proof.
  induction l as [|[k v] l IH]; cbn [list_to_map assoc]; [done|]. cbn.
  destruct (String.eqb_spec key k) as [->|Hne]; [by rewrite lookup_insert_eq|by rewrite lookup_insert_ne].
Qed.

Definition uint (w z : Z) : Prop := 0 <= z < 2 ^ w.

Lemma of_uint_some z v : of_uint z = Some v -> v = TomlInt z /\ z <= i64_max.
Proof. unfold of_uint. case_if; [|done]. intros [= <-]. z_bool. done. Qed.

Lemma as_uint_int w z : uint w z -> z <= i64_max -> as_uint w (TomlInt z) = Some z.
Proof.
  intros [Hz1 Hz2] Hz3. cbn [as_uint]. by rewrite (proj2 (Z.leb_le _ _) Hz1), (proj2 (Z.ltb_lt _ _) Hz2), (proj2 (Z.leb_le _ _) Hz3).
Qed.

Lemma as_uint_some w v z : as_uint w v = Some z -> uint w z /\ z <= i64_max.
Proof. destruct v; try done. cbn [as_uint]. case_if; [|done]. intros [= <-]. z_bool. done. Qed.

Lemma field_uint w t key d z : field t key d (as_uint w) = Some z -> uint w d -> d <= i64_max -> uint w z /\ z <= i64_max.
Proof. unfold field. destruct (t !! key); [intros Hs _ _; by eapply as_uint_some|]. by intros [= <-]. Qed.

Definition safety_typed (s : PolicySafety.t) : Prop :=
  match PolicySafety.max_template_age_ms s with Some a => uint 64 a | None => True end /\
  uint 32 (PolicySafety.warn_coinbase_sigops_max s).
Definition mempool_typed (m : PolicyMempool.t) : Prop :=
  uint 64 (PolicyMempool.poll_interval_secs m) /\ uint 64 (PolicyMempool.max_stale_secs m).
Definition policy_typed (c : PolicyConfig.t) : Prop :=
  uint 16 (PolicyConfig.protocol_version c) /\ uint 64 (PolicyConfig.required_prevhash_len c) /\
  uint 64 (PolicyConfig.min_total_fees c) /\ uint 32 (PolicyConfig.max_tx_count c) /\
  uint 64 (PolicyConfig.low_mempool_tx c) /\ uint 64 (PolicyConfig.high_mempool_tx c) /\
  uint 64 (PolicyConfig.min_avg_fee_lo c) /\ uint 64 (PolicyConfig.min_avg_fee_mid c) /\
  uint 64 (PolicyConfig.min_avg_fee_hi c) /\
  safety_typed (PolicyConfig.safety c) /\ mempool_typed (PolicyConfig.mempool c).

(** What is relied on: printed text is UTF-8 and parses back, and whatever serde reads has the range of
    its types and of TOML's integers. *)
Class TomlDocsLaws `{TomlDocs} : Prop := {
  docs_round_trip t text : to_string_pretty t = Some text -> from_str text = Ok t;
  docs_utf8 t text : to_string_pretty t = Some text -> utf8_valid (lit text) = true;
  safety_else_typed x s : safety_of_else x = Some s -> safety_typed s /\ is_Some (table_of_safety s);
  mempool_else_typed x m : mempool_of_else x = Some m -> mempool_typed m /\ is_Some (table_of_mempool m);
  policy_else_typed x c : policy_of_else x = Some c -> policy_typed c /\ is_Some (table_of_policy c)
}.

(** Open the successful steps of a chain of options. *)
Ltac inv_some :=
  repeat match goal with
  | H : (_ ≫= _) = Some _ |- _ => apply bind_Some in H as (? & ? & H)
  | H : of_uint _ = Some _ |- _ => apply of_uint_some in H as [? ?]; subst
  | H : Some _ = Some _ |- _ => apply (inj Some) in H; try subst
  end.
(** Evaluate the fields of a table that is a list of entries. *)
Ltac read_entries :=
  unfold field, as_some; rewrite ?lookup_assoc; cbn -[as_uint Z.pow i64_max];
  rewrite ?as_uint_int by done; cbn -[as_uint Z.pow i64_max].

Lemma safety_round_trip s t : safety_typed s -> table_of_safety s = Some t -> safety_of_table t = Some s.
Proof.
  intros [Ha Hs] Ht. unfold table_of_safety in Ht. destruct s as [r er age ea sr cs]. cbn in Ha, Hs.
  unfold safety_of_table. destruct age as [a|]; cbn -[list_to_map of_uint] in Ht; inv_some; by read_entries.
Qed.

Lemma mempool_round_trip m t : mempool_typed m -> table_of_mempool m = Some t -> mempool_of_table t = Some m.
Proof.
  intros [Ha Hs] Ht. unfold table_of_mempool in Ht. destruct m. cbn -[list_to_map of_uint] in *.
  inv_some. unfold mempool_of_table. by read_entries.
Qed.

Section Facts.
Context `{TomlDocs}.

Lemma policy_round_trip c t : policy_typed c -> table_of_policy c = Some t -> policy_of_table t = Some c.
Proof.
  intros (?&?&?&?&?&?&?&?&?&Hs&Hm) Ht. unfold table_of_policy in Ht. destruct c. cbn -[list_to_map of_uint uint] in *.
  inv_some. unfold policy_of_table.
  match goal with Hx : table_of_safety _ = Some _ |- _ => pose proof (safety_round_trip _ _ Hs Hx) as Hs' end.
  match goal with Hx : table_of_mempool _ = Some _ |- _ => pose proof (mempool_round_trip _ _ Hm Hx) as Hm' end.
  read_entries. by rewrite Hs', Hm'.
Qed.

(** A policy that was read from a table can be written to one. *)
Lemma of_uint_le z : z <= i64_max -> of_uint z = Some (TomlInt z).
Proof. intros Hz. unfold of_uint. by rewrite (proj2 (Z.leb_le _ _) Hz). Qed.

Lemma safety_read t s : safety_of_table t = Some s -> safety_typed s /\ is_Some (table_of_safety s).
Proof.
  intros Hs. unfold safety_of_table in Hs. inv_some. unfold safety_typed, table_of_safety. cbn -[list_to_map of_uint uint].
  match goal with Hx : field t "warn_coinbase_sigops_max" _ _ = Some _ |- _ => apply field_uint in Hx as [Hc1 Hc2]; [|done..] end.
  match goal with Hx : field t "max_template_age_ms" _ _ = Some ?a |- _ =>
    assert (match a with Some a => uint 64 a /\ a <= i64_max | None => True end) as Ha
      by (unfold field, as_some in Hx; destruct (t !! _) as [v|]; [|by apply (inj Some) in Hx as <-];
          apply fmap_Some in Hx as (z & Hz & ->); by eapply as_uint_some) end.
  split; [split; [|done]; repeat case_match; naive_solver|].
  rewrite (of_uint_le _ Hc2). repeat case_match; cbn -[list_to_map of_uint]; [|eauto]. rewrite of_uint_le by naive_solver. cbn. eauto.
Qed.

Lemma mempool_read t m : mempool_of_table t = Some m -> mempool_typed m /\ is_Some (table_of_mempool m).
Proof.
  intros Hs. unfold mempool_of_table in Hs. inv_some. unfold mempool_typed, table_of_mempool. cbn -[list_to_map of_uint uint].
  repeat match goal with Hx : field t _ _ (as_uint _) = Some _ |- _ => apply field_uint in Hx as [? ?]; [|done..] end.
  split; [done|]. rewrite !of_uint_le by done. cbn. eauto.
Qed.

Lemma policy_read `{!TomlDocsLaws} t c : policy_of_table t = Some c -> policy_typed c /\ is_Some (table_of_policy c).
Proof.
  intros Hc. unfold policy_of_table in Hc. inv_some. unfold policy_typed, table_of_policy. cbn -[list_to_map of_uint uint].
  repeat match goal with Hx : field t _ _ (as_uint _) = Some _ |- _ => apply field_uint in Hx as [? ?]; [|done..] end.
  match goal with Hx : field t "safety" _ _ = Some ?s |- _ => assert (safety_typed s /\ is_Some (table_of_safety s)) as [Hs [ts Hs']] end.
  { unfold field in *. destruct (t !! "safety"%string) as [[]|] eqn:E; try done.
    - by eapply safety_read.
    - by eapply safety_else_typed.
    - inv_some. by split; [|eexists]. }
  match goal with Hx : field t "mempool" _ _ = Some ?s |- _ => assert (mempool_typed s /\ is_Some (table_of_mempool s)) as [Hm [tm Hm']] end.
  { unfold field in *. destruct (t !! "mempool"%string) as [[]|] eqn:E; try done.
    - by eapply mempool_read.
    - by eapply mempool_else_typed.
    - inv_some. by split; [|eexists]. }
  split; [done|]. rewrite !of_uint_le by done. cbn -[list_to_map]. rewrite Hs', Hm'. cbn. eauto.
Qed.

Lemma policy_value_read `{!TomlDocsLaws} v c : policy_of_value v = Some c -> policy_typed c /\ is_Some (table_of_policy c).
Proof. destruct v; try done; [apply policy_read|apply policy_else_typed]. Qed.

(** ** The report of unread keys *)

Lemma elem_of_unknown r k prefix p : p ∈ unknown_policy_keys (TomlTab r) (TomlTab k) prefix <->
  exists key child, r !! key = Some child /\
    match k !! key with
    | None => p = dotted prefix key
    | Some known_child => p ∈ unknown_policy_keys child known_child (dotted prefix key)
    end.
Proof.
  cbn [unknown_policy_keys]. refine (map_fold_weak_ind (fun out r => p ∈ out <-> exists key child, r !! key = Some child /\
    match k !! key with None => p = dotted prefix key | Some kc => p ∈ unknown_policy_keys child kc (dotted prefix key) end)
    _ [] _ _ r); clear r.
  - split; [by intros ?%not_elem_of_nil|]. by intros (?&?&?&_).
  - intros key child r out Hk IH.
    trans (match k !! key with None => p = dotted prefix key | Some kc => p ∈ unknown_policy_keys child kc (dotted prefix key) end \/ p ∈ out).
    + destruct (k !! key) as [kc|]; [|by rewrite elem_of_cons]. case_if; [by rewrite elem_of_app|].
      destruct child; try (split; [by right|by intros [?%not_elem_of_nil|]]).
      destruct kc; [..|done|]; (split; [by right|by intros [?%not_elem_of_nil|]]).
    + rewrite IH. split.
      * intros [Hp|(k' & c' & Hr & Hp)]; [exists key, child; by rewrite lookup_insert_eq|].
        exists k', c'. rewrite lookup_insert_ne; [done|congruence].
      * intros (k' & c' & Hr & Hp). destruct (decide (k' = key)) as [->|Hne].
        { rewrite lookup_insert_eq in Hr. injection Hr as ->. by left. }
        rewrite lookup_insert_ne in Hr by done. right. by exists k', c'.
Qed.

Definition SAFETY_FIELDS : list string :=
  ["max_weight_ratio"; "enforce_weight_ratio"; "max_template_age_ms"; "enforce_template_age"; "warn_sigops_ratio";
   "warn_coinbase_sigops_max"].
Definition MEMPOOL_FIELDS : list string :=
  ["enforce"; "tolerance_pct"; "poll_interval_secs"; "max_stale_secs"; "per_tx_detail"; "rpc_url"; "rpc_user"; "rpc_pass"].
Definition POLICY_FIELDS : list string :=
  ["protocol_version"; "required_prevhash_len"; "min_total_fees"; "max_tx_count"; "low_mempool_tx"; "high_mempool_tx";
   "min_avg_fee_lo"; "min_avg_fee_mid"; "min_avg_fee_hi"; "reject_empty_templates"; "reject_coinbase_zero";
   "unknown_mempool_as_high"; "safety"; "mempool"].

(** A key that no field of the structs has. *)
Definition stray (fields : list string) (t : gmap string toml) (prefix p : string) : Prop :=
  exists key, p = dotted prefix key /\ is_Some (t !! key) /\ key ∉ fields.
Definition unread (t : gmap string toml) (p : string) : Prop :=
  stray POLICY_FIELDS t "policy" p \/
  (exists s, t !! "safety"%string = Some (TomlTab s) /\ stray SAFETY_FIELDS s "policy.safety" p) \/
  (exists s, t !! "mempool"%string = Some (TomlTab s) /\ stray MEMPOOL_FIELDS s "policy.mempool" p).

(** The table without its stray keys. *)
Definition keep (fields : list string) (t : gmap string toml) : gmap string toml :=
  filter (fun kv => kv.1 ∈ fields) t.
Definition keep_in (fields : list string) (v : toml) : toml :=
  match v with TomlTab s => TomlTab (keep fields s) | v => v end.
Definition recognised (t : gmap string toml) : gmap string toml :=
  alter (keep_in SAFETY_FIELDS) "safety"%string (alter (keep_in MEMPOOL_FIELDS) "mempool"%string (keep POLICY_FIELDS t)).

Lemma keep_lookup fields t key : key ∈ fields -> keep fields t !! key = t !! key.
Proof.
  intros Hk. unfold keep. destruct (t !! key) as [v|] eqn:E; [by apply map_lookup_filter_Some_2|].
  apply map_lookup_filter_None. by left.
Qed.

Lemma keep_field {A} fields t key (d : A) read : key ∈ fields -> field (keep fields t) key d read = field t key d read.
Proof. intros Hk. unfold field. by rewrite keep_lookup. Qed.

Lemma recognised_scalar {A} t key (d : A) read : key ∈ POLICY_FIELDS -> key <> "safety"%string -> key <> "mempool"%string ->
  field (recognised t) key d read = field t key d read.
Proof.
  intros Hk Hs Hm. unfold field, recognised. by rewrite !lookup_alter_ne, keep_lookup by done.
Qed.

Ltac in_fields := apply (bool_decide_unpack _); vm_compute; exact I.

Lemma safety_keep s : safety_of_table (keep SAFETY_FIELDS s) = safety_of_table s.
Proof. unfold safety_of_table. by rewrite !keep_field by in_fields. Qed.
Lemma mempool_keep s : mempool_of_table (keep MEMPOOL_FIELDS s) = mempool_of_table s.
Proof. unfold mempool_of_table. by rewrite !keep_field by in_fields. Qed.

Lemma policy_recognised t : policy_of_table (recognised t) = policy_of_table t.
Proof.
  unfold policy_of_table. rewrite !(recognised_scalar (A:=Z)), !(recognised_scalar (A:=bool)) by (done || in_fields).
  assert (field (recognised t) "safety" PolicySafety.default (as_struct safety_of_table safety_of_else)
    = field t "safety" PolicySafety.default (as_struct safety_of_table safety_of_else)) as ->.
  { unfold field, recognised. rewrite lookup_alter_eq, lookup_alter_ne, keep_lookup by (done || in_fields).
    destruct (t !! "safety"%string) as [[]|]; cbn; try done. apply safety_keep. }
  assert (field (recognised t) "mempool" PolicyMempool.default (as_struct mempool_of_table mempool_of_else)
    = field t "mempool" PolicyMempool.default (as_struct mempool_of_table mempool_of_else)) as ->; [|done].
  unfold field, recognised. rewrite lookup_alter_ne, lookup_alter_eq, keep_lookup by (done || in_fields).
  destruct (t !! "mempool"%string) as [[]|]; cbn; try done. apply mempool_keep.
Qed.

(** [k] is the written form of what was read from [r]: it has a key for each field that [r] has. *)
Definition covers (fields : list string) (r k : gmap string toml) : Prop :=
  forall key, is_Some (r !! key) -> k !! key = None <-> key ∉ fields.

Lemma stray_level fields r k prefix p : covers fields r k -> (forall key v, k !! key = Some v -> is_table v = false) ->
  p ∈ unknown_policy_keys (TomlTab r) (TomlTab k) prefix <-> stray fields r prefix p.
Proof.
  intros Hc Hk. rewrite elem_of_unknown. split.
  - intros (key & child & Hr & Hp). destruct (k !! key) as [kc|] eqn:E.
    + pose proof (Hk _ _ E) as Hv. destruct child, kc; cbn in Hp; try done; by apply not_elem_of_nil in Hp.
    + exists key. rewrite <-(Hc key) by (by rewrite Hr). split; [done|]. split; [by rewrite Hr|done].
  - intros (key & -> & [child Hr] & Hf). exists key, child. split; [done|].
    rewrite (proj2 (Hc key (ex_intro _ _ Hr)) Hf). done.
Qed.

Lemma assoc_none l key : assoc l key = None <-> key ∉ l.*1.
Proof.
  rewrite <-lookup_assoc. symmetry. apply not_elem_of_list_to_map.
Qed.

Lemma covers_entries fields r l : l.*1 ⊆ fields ->
  (forall key, key ∈ fields -> is_Some (r !! key) -> key ∈ l.*1) -> covers fields r (list_to_map l).
Proof.
  intros H1 H2 key Hr. rewrite lookup_assoc, assoc_none. split; intros Hn Hin; apply Hn; [by apply H2|by apply H1].
Qed.

Lemma covers_all fields r l : l.*1 ⊆ fields -> fields ⊆ l.*1 -> covers fields r (list_to_map l).
Proof. intros H1 H2. apply covers_entries; [done|]. intros key Hk _. by apply H2. Qed.

Lemma safety_covers r s k : safety_of_table r = Some s -> table_of_safety s = Some k ->
  covers SAFETY_FIELDS r k /\ forall key v, k !! key = Some v -> is_table v = false.
Proof.
  intros Hr Hk. unfold table_of_safety in Hk. inv_some. unfold safety_of_table in Hr. inv_some. cbn [PolicySafety.max_template_age_ms] in *.
  match goal with Ha : of_some _ _ ?a = Some _, Hf : field r "max_template_age_ms" _ _ = Some ?a |- _ =>
    rename Ha into Hage; rename Hf into Hread; rename a into age end.
  split.
  - destruct age as [a|]; cbn in Hage; inv_some; [apply covers_all; in_fields|apply covers_entries; [in_fields|]].
    intros key Hk [v Hv]. unfold field in Hread. destruct (decide (key = "max_template_age_ms"%string)) as [->|]; [|set_solver].
    rewrite Hv in Hread. unfold as_some in Hread. by apply fmap_Some in Hread as (? & _ & ?).
  - intros key v Hv. rewrite lookup_assoc in Hv. cbn [assoc app] in Hv.
    repeat case_match; inv_some; try done. destruct age; cbn in Hage; inv_some; [|done].
    cbn [assoc] in Hv. case_match; [by inv_some|done].
Qed.

Lemma mempool_covers r m k : table_of_mempool m = Some k ->
  covers MEMPOOL_FIELDS r k /\ forall key v, k !! key = Some v -> is_table v = false.
Proof.
  intros Hk. unfold table_of_mempool in Hk. inv_some. split.
  - apply covers_all; in_fields.
  - intros key v Hv. rewrite lookup_assoc in Hv. cbn [assoc] in Hv. repeat case_match; by inv_some.
Qed.

Lemma policy_covers r c k : table_of_policy c = Some k -> covers POLICY_FIELDS r k.
Proof.
  intros Hk. unfold table_of_policy in Hk. inv_some. apply covers_all; in_fields.
Qed.

(** The only tables within the written form. *)
Lemma policy_subtables c k key s : table_of_policy c = Some k -> k !! key = Some (TomlTab s) ->
  key = "safety"%string /\ table_of_safety (PolicyConfig.safety c) = Some s \/
  key = "mempool"%string /\ table_of_mempool (PolicyConfig.mempool c) = Some s.
Proof.
  intros Hk Hs. unfold table_of_policy in Hk. inv_some. rewrite lookup_assoc in Hs. cbn [assoc] in Hs.
  repeat match type of Hs with (if String.eqb key ?x then _ else _) = _ => destruct (String.eqb_spec key x) as [->|]; [try done|] end; [..|done].
  - left. by simplify_eq.
  - right. by simplify_eq.
Qed.

Lemma policy_subtables_there c k : table_of_policy c = Some k -> exists s m,
  table_of_safety (PolicyConfig.safety c) = Some s /\ k !! "safety"%string = Some (TomlTab s) /\
  table_of_mempool (PolicyConfig.mempool c) = Some m /\ k !! "mempool"%string = Some (TomlTab m).
Proof.
  intros Hk. unfold table_of_policy in Hk. inv_some. do 2 eexists. split; [done|]. rewrite !lookup_assoc. done.
Qed.

Lemma policy_sub_read t c : policy_of_table t = Some c ->
  (forall s, t !! "safety"%string = Some (TomlTab s) -> safety_of_table s = Some (PolicyConfig.safety c)) /\
  (forall m, t !! "mempool"%string = Some (TomlTab m) -> mempool_of_table m = Some (PolicyConfig.mempool c)).
Proof.
  intros Hc. unfold policy_of_table in Hc. inv_some. unfold field in *.
  split; intros s Hs; rewrite Hs in *; done.
Qed.

Lemma unread_keys t c k : policy_of_table t = Some c -> table_of_policy c = Some k ->
  forall p, p ∈ unknown_policy_keys (TomlTab t) (TomlTab k) "policy" <-> unread t p.
Proof.
  intros Hc Hk p. pose proof (policy_covers t c k Hk) as Hcov. destruct (policy_sub_read t c Hc) as [Hsr Hmr].
  destruct (policy_subtables_there c k Hk) as (ks & km & Hks & Hls & Hkm & Hlm). rewrite elem_of_unknown. split.
  - intros (key & child & Hr & Hp). destruct (k !! key) as [kc|] eqn:E.
    + destruct child; [by apply not_elem_of_nil in Hp..| |by apply not_elem_of_nil in Hp].
      destruct kc; [by apply not_elem_of_nil in Hp..| |by apply not_elem_of_nil in Hp].
      right. destruct (policy_subtables _ _ _ _ Hk E) as [[-> Ht]|[-> Ht]]; [left|right]; eexists; (split; [done|]).
      * destruct (safety_covers _ _ _ (Hsr _ Hr) Ht) as [Hx1 Hx2]. by apply (stray_level SAFETY_FIELDS) in Hp.
      * destruct (mempool_covers t0 _ _ Ht) as [Hx1 Hx2]. by apply (stray_level MEMPOOL_FIELDS) in Hp.
    + left. exists key. split; [done|]. split; [by rewrite Hr|]. apply (Hcov key); [by rewrite Hr|done].
  - intros [(key & -> & [child Hr] & Hf)|[(s & Hs & Hp)|(s & Hs & Hp)]].
    + exists key, child. split; [done|]. by rewrite (proj2 (Hcov key (ex_intro _ _ Hr)) Hf).
    + eexists _, _. split; [exact Hs|]. rewrite Hls. destruct (safety_covers _ _ _ (Hsr _ Hs) Hks) as [Hx1 Hx2].
      by apply (stray_level SAFETY_FIELDS).
    + eexists _, _. split; [exact Hs|]. rewrite Hlm. destruct (mempool_covers s _ _ Hkm) as [Hx1 Hx2].
      by apply (stray_level MEMPOOL_FIELDS).
Qed.

(** No key is ignored in silence: when a policy document is read, the keys that are warned about are
    exactly those that no field of the structs has, at whichever level, and the policy is the one the
    document without them gives. *)
Theorem unread_keys_reported `{!TomlDocsLaws} contents doc t c warned : from_str contents = Ok doc ->
  doc !! "policy"%string = Some (TomlTab t) ->
  parse_policy_from_policy_table contents = Ok (c, warned) ->
  (forall p, p ∈ warned <-> unread t p) /\ policy_of_table (recognised t) = Some c.
Proof.
  intros Hd Ht Hr. unfold parse_policy_from_policy_table in Hr. rewrite Hd in Hr. cbn [map_err result_bind] in Hr.
  rewrite Ht in Hr. cbn [ok_or result_bind policy_of_value as_struct] in Hr.
  destruct (policy_of_table t) as [c'|] eqn:Hc; [|done]. cbn [ok_or result_bind] in Hr.
  destruct (policy_read t c' Hc) as [_ [k Hk]]. rewrite Hk in Hr. injection Hr as <- <-.
  rewrite policy_recognised. split; [|done]. intros p.
  unfold sort_keys. rewrite merge_sort_Permutation. by apply (unread_keys t c').
Qed.
End Facts.

(** ** What is written is loaded *)

Lemma validate_protocol c : PolicyConfig.validate c = Ok tt -> PolicyConfig.protocol_version c = PROTOCOL_VERSION.
Proof. unfold PolicyConfig.validate. case_if; [done|]. intros _. by apply Z.eqb_eq, negb_false_iff. Qed.

Lemma enforce_protocol_ok c : PolicyConfig.validate c = Ok tt -> enforce_protocol c = Ok tt.
Proof. intros Hv%validate_protocol. unfold enforce_protocol. by rewrite Hv. Qed.

Section Written.
Context `{TomlDocs, !TomlDocsLaws}.

(** A policy's own document has no key that is not read. *)
Lemma document_parses c text : policy_typed c -> Wizard.policy_document c = Some text ->
  parse_policy_from_policy_table text = Ok (c, []).
Proof.
  intros Hc Ht. unfold Wizard.policy_document in Ht. apply bind_Some in Ht as (k & Hk & Ht). apply docs_round_trip in Ht.
  pose proof (policy_round_trip c k Hc Hk) as Hr.
  unfold parse_policy_from_policy_table. rewrite Ht. cbn [map_err result_bind]. rewrite lookup_singleton_eq.
  cbn [ok_or result_bind policy_of_value as_struct]. rewrite Hr. cbn [ok_or result_bind]. rewrite Hk.
  assert (unknown_policy_keys (TomlTab k) (TomlTab k) "policy" = []) as ->; [|done].
  apply elem_of_nil_inv. intros p Hp. apply (unread_keys k c k Hr Hk) in Hp.
  assert (forall fields s prefix, covers fields s s -> ~ stray fields s prefix p) as Hno.
  { intros fields s prefix Hcov (key & _ & [v Hv] & Hf). apply (Hcov key) in Hf; [|by rewrite Hv]. congruence. }
  destruct (policy_subtables_there c k Hk) as (ks & km & Hks & Hls & Hkm & Hlm).
  destruct (policy_sub_read k c Hr) as [Hsr Hmr].
  destruct Hp as [Hp|[(s & Hs & Hp)|(s & Hs & Hp)]].
  - by apply (Hno _ _ _ (policy_covers k c k Hk)) in Hp.
  - rewrite Hls in Hs. injection Hs as <-. by apply (Hno _ _ _ (proj1 (safety_covers _ _ _ (Hsr _ Hls) Hks))) in Hp.
  - rewrite Hlm in Hs. injection Hs as <-. by apply (Hno _ _ _ (proj1 (mempool_covers km _ _ Hkm))) in Hp.
Qed.

Lemma document_loads c text : policy_typed c -> PolicyConfig.validate c = Ok tt -> Wizard.policy_document c = Some text ->
  load_initial_policy (Some text) = Ok (PolicyHolder.mk c text, []).
Proof.
  intros Hc Hv Ht. unfold load_initial_policy. cbn [ok_or result_bind]. rewrite (document_parses c text Hc Ht). cbn [result_bind fst snd].
  rewrite Hv. cbn [map_err result_bind]. by rewrite enforce_protocol_ok.
Qed.

Lemma digits_value_range s : forall acc n, uint 64 acc -> digits_value s acc = Some n -> uint 64 n.
Proof.
  induction s as [|b s IH]; intros acc n Ha; cbn [digits_value]; [by intros [= <-]|]. case_if; [|done]. case_if; [|done].
  z_bool. apply IH. unfold uint, u64_max in *. lia.
Qed.

Lemma parse_uint_range max s n : Wizard.parse_uint max s = Some n -> 0 <= n <= max.
Proof.
  unfold Wizard.parse_uint. intros (m & Hm & Hn)%bind_Some. case_if; [|done]. injection Hn as <-. z_bool. split; [|done].
  assert (uint 64 m) as [? _]; [|done]. unfold parse_u64 in Hm.
  repeat (case_match; try done); by eapply digits_value_range in Hm.
Qed.

Lemma read_uint_range max d lines n rest : 0 <= d <= max ->
  Wizard.read_uint_with_default max d lines = Ok (n, rest) -> 0 <= n <= max.
Proof.
  intros Hd. unfold Wizard.read_uint_with_default, Wizard.read_line. case_if; [by intros [= <- _]|].
  destruct (Wizard.parse_uint _ _) as [m|] eqn:Ep; [|done]. intros [= <- _]. by eapply parse_uint_range.
Qed.

Lemma wizard_bind {A B} (m : Wizard.M A) (k : A -> Wizard.M B) lines b rest :
  Wizard.bind m k lines = Ok (b, rest) -> exists a mid, m lines = Ok (a, mid) /\ k a mid = Ok (b, rest).
Proof. unfold Wizard.bind. destruct (m lines) as [[a mid]|]; [eauto|done]. Qed.

Lemma answers_typed lines c rest : Wizard.answers lines = Ok (c, rest) -> policy_typed c.
Proof.
  unfold Wizard.answers. intros Hr.
  repeat match goal with
  | Hb : Wizard.bind _ _ _ = Ok _ |- _ => apply wizard_bind in Hb as (? & ? & ? & Hb); cbv zeta in Hb
  end.
  injection Hr as <- _.
  repeat match goal with
  | Hu : Wizard.read_u64_with_default _ _ = Ok _ |- _ => apply read_uint_range in Hu; [|done]
  | Hu : Wizard.read_u32_with_default _ _ = Ok _ |- _ => apply read_uint_range in Hu; [|done]
  end.
  unfold policy_typed, uint. cbn. unfold u64_max, u32_max in *. repeat case_if; z_bool; repeat split; done || lia.
Qed.

(** The wizard writes only policies the verifier starts with: when it writes a file, the policy is the
    one its questions were answered with, and loading the file gives that policy, with no key reported
    as unread. *)
Theorem wizard_policy_loads exists_already lines text : Wizard.run exists_already lines = Ok (Some text) ->
  exists c asked rest, Wizard.answers asked = Ok (c, rest) /\
    load_initial_policy (Some text) = Ok (PolicyHolder.mk c text, []) /\
    PolicyConfig.low_mempool_tx c <= PolicyConfig.high_mempool_tx c.
Proof.
  unfold Wizard.run. destruct (if exists_already then _ else _) as [[answer asked]|]; [|done]. case_if; [done|].
  destruct (Wizard.answers asked) as [[c rest]|] eqn:Ea; [|done].
  destruct (PolicyConfig.validate c) as [[]|] eqn:Ev; [|done]. cbn [map_err result_bind].
  destruct (Wizard.policy_document c) as [text'|] eqn:Ed; [|done]. intros [= ->].
  exists c, asked, rest. split; [done|]. split; [apply document_loads; [by eapply answers_typed|done..]|].
  unfold PolicyConfig.validate in Ev. repeat (case_if; [done|]). z_bool. lia.
Qed.
End Written.

(** ** The permissive fallback *)

(** The fallback is announced to accept every template without enforcing fees. It keeps the fee tiers
    of the built-in policy: with an unknown mempool it rejects every template that pays less than 2000
    sats per transaction. *)
Theorem degraded_policy_enforces_fees `{HexCrate} `{BitcoinLib} template view now : 0 < TemplatePropose.tx_count template ->
  TemplatePropose.total_fees template < 2000 * TemplatePropose.tx_count template ->
  EvalResult.reason (evaluate_dynamic_inner template degraded_policy view None now) <> None.
Proof.
  intros Hn Hf. unfold evaluate_dynamic_inner. change (PolicyConfig.effective_min_avg_fee_dynamic degraded_policy None) with (2000, High).
  cbv beta iota.
  destruct (check_basic_validity template degraded_policy High 2000) as [r|] eqn:Eb;
    [apply basic_early in Eb as (? & ? & ? & -> & _); discriminate|].
  destruct (check_template_constraints template degraded_policy High 2000) as [r|] eqn:Ec;
    [apply constraints_early in Ec as (? & ? & ? & -> & _); discriminate|].
  apply check_template_constraints_none in Ec as (_ & _ & _ & _ & Hfee). lia.
Qed.

(** ** A sample TOML crate

    A document is printed as the bits of its code in [positive]; a text that is not one is refused. *)

Module PolicyFileSample.
Fixpoint tree_size (v : toml) : nat :=
  match v with TomlTab t => S (map_fold (fun _ v n => tree_size v + n)%nat 0%nat t) | _ => 0 end.

Lemma tree_ind (P : toml -> Prop) : (forall v, is_table v = false -> P v) ->
  (forall t, map_Forall (fun _ => P) t -> P (TomlTab t)) -> forall v, P v.
Proof.
  intros Hleaf Hnode v. remember (tree_size v) as n eqn:Hn. revert v Hn.
  induction (lt_wf n) as [n _ IH]. intros v ->. destruct v as [| | | |t|]; try by apply Hleaf.
  apply Hnode. cbn [tree_size] in IH.
  assert (forall k v, t !! k = Some v -> (tree_size v <= map_fold (fun _ v n => tree_size v + n)%nat 0%nat t)%nat) as Hle.
  { clear. refine (map_fold_weak_ind (fun n t => forall k v, t !! k = Some v -> (tree_size v <= n)%nat) _ 0%nat _ _ t); clear t.
    - intros k v. by rewrite lookup_empty.
    - intros k v t n Hk IH k' v'. destruct (decide (k = k')) as [->|]; [rewrite lookup_insert_eq; intros [= ->]; lia|].
      rewrite lookup_insert_ne by done. intros Hv%IH. lia. }
  intros k v Hv. apply (IH (tree_size v)); [|done]. pose proof (Hle k v Hv). lia.
Qed.

#[global] Instance f64_eq_dec : EqDecision f64.
Proof. unfold f64. intros [] []; solve_decision. Defined.
#[global] Instance f64_countable : Countable f64.
Proof.
  refine (inj_countable' (fun f : f64 => match f with
    | SpecFloat.S754_zero s => inl (inl s) | SpecFloat.S754_infinity s => inl (inr s)
    | SpecFloat.S754_nan => inr None | SpecFloat.S754_finite s m e => inr (Some (s, m, e)) end)
    (fun x : (bool + bool) + option (bool * positive * Z) => match x with
    | inl (inl s) => SpecFloat.S754_zero s | inl (inr s) => SpecFloat.S754_infinity s
    | inr None => SpecFloat.S754_nan | inr (Some (s, m, e)) => SpecFloat.S754_finite s m e end) _).
  by intros [].
Defined.

(** A leaf is a key or a scalar. *)
Abbreviation leaf := (string + (Z + f64 + bool + string + string))%type.
Fixpoint to_tree (v : toml) : gen_tree leaf :=
  match v with
  | TomlInt z => GenLeaf (inr (inl (inl (inl (inl z)))))
  | TomlFloat f => GenLeaf (inr (inl (inl (inl (inr f)))))
  | TomlBool b => GenLeaf (inr (inl (inl (inr b))))
  | TomlStr s => GenLeaf (inr (inl (inr s)))
  | TomlElse s => GenLeaf (inr (inr s))
  | TomlTab t => GenNode 0 (map_fold (fun k v l => GenLeaf (inl k) :: to_tree v :: l) [] t)
  end.
Definition to_trees (t : gmap string toml) : list (gen_tree leaf) :=
  map_fold (fun k v l => GenLeaf (inl k) :: to_tree v :: l) [] t.
Definition of_trees (dec : gen_tree leaf -> toml) : list (gen_tree leaf) -> gmap string toml :=
  fix go l := match l with GenLeaf (inl k) :: v :: l => <[k := dec v]> (go l) | _ => ∅ end.
Fixpoint of_tree (g : gen_tree leaf) : toml :=
  match g with
  | GenLeaf (inr (inl (inl (inl (inl z))))) => TomlInt z
  | GenLeaf (inr (inl (inl (inl (inr f))))) => TomlFloat f
  | GenLeaf (inr (inl (inl (inr b)))) => TomlBool b
  | GenLeaf (inr (inl (inr s))) => TomlStr s
  | GenLeaf (inr (inr s)) => TomlElse s
  | GenLeaf (inl _) => TomlElse ""
  | GenNode _ l => TomlTab (of_trees of_tree l)
  end.

Lemma of_to_trees t : map_Forall (fun _ v => of_tree (to_tree v) = v) t -> of_trees of_tree (to_trees t) = t.
Proof.
  unfold to_trees. refine (map_fold_weak_ind (fun l t => map_Forall (fun _ v => of_tree (to_tree v) = v) t ->
    of_trees of_tree l = t) _ [] _ _ t); clear t; [done|].
  intros k v t l Hk IH Hall. cbn [of_trees]. fold (of_trees of_tree l). rewrite IH.
  - f_equal. apply (Hall k). by rewrite lookup_insert_eq.
  - intros k' v' Hv. apply (Hall k'). rewrite lookup_insert_ne; [done|congruence].
Qed.

Lemma of_to_tree v : of_tree (to_tree v) = v.
Proof.
  induction v as [v Hv|t IH] using tree_ind; [by destruct v|]. cbn [to_tree of_tree]. f_equal. by apply of_to_trees.
Qed.

#[global] Instance toml_eq_dec : EqDecision toml.
Proof. refine (inj_eq_dec to_tree _). intros x y Hxy. by rewrite <-(of_to_tree x), Hxy, of_to_tree. Defined.
#[global] Instance toml_countable : Countable toml := inj_countable' to_tree of_tree of_to_tree.

(** The bits of a number as text. *)
Definition zero : Ascii.ascii := Ascii.ascii_of_nat 48.
Definition one : Ascii.ascii := Ascii.ascii_of_nat 49.
Fixpoint bits (p : positive) : string :=
  match p with xH => "" | xO p => String zero (bits p) | xI p => String one (bits p) end.
Fixpoint number (s : string) : positive :=
  match s with
  | EmptyString => xH
  | String c s => if bool_decide (c = zero) then xO (number s) else xI (number s)
  end.
Lemma number_bits p : number (bits p) = p.
Proof. induction p as [p IH|p IH|]; cbn; by rewrite ?IH. Qed.

Lemma bits_utf8 p : utf8_valid (lit (bits p)) = true.
Proof. induction p as [p IH|p IH|]; [exact IH|exact IH|reflexivity]. Qed.

Definition print (t : gmap string toml) : string := bits (encode t).
#[export] Instance docs : TomlDocs := {
  from_str s := ok_or (decode (number s)) "expected a document"%string;
  to_string_pretty t := Some (print t);
  safety_of_else _ := None; mempool_of_else _ := None; policy_of_else _ := None
}.
#[export] Instance docs_laws : TomlDocsLaws.
Proof.
  constructor; try done; intros t text [= <-]; cbn; unfold print; [by rewrite number_bits, decode_encode|]. apply bits_utf8.
Qed.

(** A strict policy with a misspelt key. *)
Definition misspelt : gmap string toml :=
  {[ "policy"%string := TomlTab (<["min_total_fee"%string := TomlInt 1000]> {[ "max_tx_count"%string := TomlInt 500 ]}) ]}.

Lemma unread_keys_reported_witness :
  match parse_policy_from_policy_table (print misspelt) with
  | Ok (c, warned) => warned = ["policy.min_total_fee"%string] /\
      policy_of_table (recognised (<["min_total_fee"%string := TomlInt 1000]> {[ "max_tx_count"%string := TomlInt 500 ]})) = Some c
  | Err _ => False
  end.
Proof.
  destruct (parse_policy_from_policy_table (print misspelt)) as [[c warned]|e] eqn:E; [|vm_compute in E; discriminate E].
  refine ((fun Hw => conj _ (proj2 Hw)) (unread_keys_reported (print misspelt) misspelt _ c warned _ _ E)).
  - vm_compute in E. injection E as _ <-. reflexivity.
  - vm_compute. reflexivity.
  - reflexivity.
Defined.

(** Defaults but for the first answer. *)
Definition typed_answers : list string := ["250000"]%string.
Lemma wizard_policy_loads_witness : match Wizard.run false typed_answers with
  | Ok (Some text) => exists c asked rest, Wizard.answers asked = Ok (c, rest) /\
      load_initial_policy (Some text) = Ok (PolicyHolder.mk c text, []) /\
      PolicyConfig.low_mempool_tx c <= PolicyConfig.high_mempool_tx c
  | _ => False
  end.
Proof.
  assert (match Wizard.run false typed_answers with Ok (Some _) => true | _ => false end = true) as Hr by (vm_compute; reflexivity).
  destruct (Wizard.run false typed_answers) as [[text|]|e] eqn:E; [|discriminate Hr..].
  exact (wizard_policy_loads false typed_answers text E).
Defined.
End PolicyFileSample.
