(* ===== verification/ConfigIo.v ===== *)
(** * Saving a configuration file

    Models [services/reservegrid-common/src/config_io.rs]: reading a TOML file and the write that goes
    through a temporary file and a rename.

    The file system has the three names of one configuration: the file, [.toml.tmp] and [.toml.bak]. A
    name points to an inode; an open file is an inode and a position, and stays with its inode when the
    name moves on. A save is a list of effects, one per system call; a crash or a failed call ends the
    list early, and another save of the same file may come in between. *)

From S2P Require Import Prelude Codec License PolicyFile.

Inductive Name : Type := File | Tmp | Bak.
#[global] Instance Name_eq_dec : EqDecision Name.
Proof. solve_decision. Defined.
#[global] Instance Name_countable : Countable Name.
Proof.
  refine (inj_countable' (fun n => match n with File => 0%nat | Tmp => 1%nat | Bak => 2%nat end)
    (fun n => match n with O => File | 1%nat => Tmp | _ => Bak end) _).
  by intros [].
Defined.

Module Fs.
Record t : Type := mk {
  dir : gmap Name nat;
  data : gmap nat bytes;
  fresh : nat;
  fds : gmap nat (nat * nat)   (* writer: inode and position *)
}.
Definition empty : t := mk ∅ ∅ 0 ∅.

(** [read_to_string], before the check that the bytes are text. *)
Definition contents (n : Name) (fs : t) : option bytes := dir fs !! n ≫= fun i => data fs !! i.

(** [File::create]: truncate the file of that name, or make one. *)
Definition create (n : Name) (fs : t) : nat * t :=
  match dir fs !! n with
  | Some i => (i, mk (dir fs) (<[i := []]> (data fs)) (fresh fs) (fds fs))
  | None => (fresh fs, mk (<[n := fresh fs]> (dir fs)) (<[fresh fs := []]> (data fs)) (S (fresh fs)) (fds fs))
  end.

(** A write at a position; a gap is filled with zero bytes. *)
Definition write_at (pos : nat) (b old : bytes) : bytes :=
  take pos old ++ replicate (pos - length old) x00 ++ b ++ drop (pos + length b) old.

Definition set_data (i : nat) (b : bytes) (fs : t) : t := mk (dir fs) (<[i := b]> (data fs)) (fresh fs) (fds fs).
Definition set_fd (w i pos : nat) (fs : t) : t := mk (dir fs) (data fs) (fresh fs) (<[w := (i, pos)]> (fds fs)).
End Fs.

Inductive effect : Type :=
| OpenTmp                            (* the open of [fs::write] *)
| PutTmp (b : bytes)                 (* one [write] of it *)
| CopyBak (copied : option bytes)    (* [fs::copy], with what it leaves in the backup *)
| RenameTmp.

(** One system call of writer [w]; [false] when it fails by itself. *)
Definition perform (w : nat) (e : effect) (fs : Fs.t) : bool * Fs.t :=
  match e with
  | OpenTmp => let '(i, fs) := Fs.create Tmp fs in (true, Fs.set_fd w i 0 fs)
  | PutTmp b =>
      match Fs.fds fs !! w with
      | Some (i, pos) =>
          let old := default [] (Fs.data fs !! i) in
          (true, Fs.set_fd w i (pos + length b) (Fs.set_data i (Fs.write_at pos b old) fs))
      | None => (false, fs)
      end
  | CopyBak None => (true, fs)
  | CopyBak (Some b) => let '(i, fs) := Fs.create Bak fs in (true, Fs.set_data i b fs)
  | RenameTmp =>
      match Fs.dir fs !! Tmp with
      | Some i => (true, Fs.mk (delete Tmp (<[File := i]> (Fs.dir fs))) (Fs.data fs) (Fs.fresh fs) (Fs.fds fs))
      | None => (false, fs)
      end
  end.

(** The system calls of one save: the text goes out in chunks, and the backup is made when there is a
    file to back up. *)
Definition save_effects (chunks : list bytes) (backup : option (option bytes)) : list effect :=
  OpenTmp :: (PutTmp <$> chunks) ++ match backup with Some c => [CopyBak c] | None => [] end ++ [RenameTmp].

Definition perform_all (w : nat) (es : list effect) (fs : Fs.t) : Fs.t := foldl (fun fs e => (perform w e fs).2) fs es.

Inductive ConfigIoError : Type := IoRead | IoParse | IoSerialize | IoWrite | IoRename.

(** The call of a save that fails: the open or the n-th write of the temporary file, or the rename. *)
Inductive failure : Type := FailWrite (n : nat) | FailRename.

(** The kernel's side of a save: how the text is cut, what the copy does, and the call that fails. *)
Module Disk.
Record t : Type := mk { chunks : list bytes; backup : option bytes; fails : option failure }.
End Disk.

Section ConfigIo.
Context `{TomlDocs}.

Definition read_toml {A} (of_table : gmap string toml -> option A) (fs : Fs.t) : result A ConfigIoError :=
  let? b := ok_or (Fs.contents File fs) IoRead in
  if negb (utf8_valid b) then Err IoRead
  else
    let? t := map_err (fun _ => IoParse) (from_str (String.string_of_list_byte b)) in
    ok_or (of_table t) IoParse.

(** [atomic_write_toml] of a value with the given table, by writer [w]. *)
Definition atomic_write_toml (w : nat) (table : option (gmap string toml)) (d : Disk.t) (fs : Fs.t)
    : result unit ConfigIoError * Fs.t :=
  match table ≫= to_string_pretty with
  | None => (Err IoSerialize, fs)
  | Some text =>
      let there := bool_decide (is_Some (Fs.dir fs !! File)) in
      let es := save_effects (Disk.chunks d) (if there then Some (Disk.backup d) else None) in
      match Disk.fails d with
      | Some (FailWrite n) => (Err IoWrite, perform_all w (take (Nat.min n (length (Disk.chunks d))) es) fs)
      | Some FailRename => (Err IoRename, perform_all w (take (length es - 1) es) fs)
      | None => (Ok tt, perform_all w es fs)
      end
  end.

(** The chunks are those of the text that is written. *)
Definition cut_of (table : option (gmap string toml)) (d : Disk.t) : Prop :=
  forall text, table ≫= to_string_pretty = Some text -> mjoin (Disk.chunks d) = lit text.
End ConfigIo.

(** * Properties *)

(** No two names share an inode, and the next one is unused. *)
Record fs_ok (fs : Fs.t) : Prop := {
  fs_fresh n i : Fs.dir fs !! n = Some i -> (i < Fs.fresh fs)%nat;
  fs_distinct n n' i : Fs.dir fs !! n = Some i -> Fs.dir fs !! n' = Some i -> n = n'
}.

Lemma fs_ok_empty : fs_ok Fs.empty.
Proof. by constructor. Qed.

Lemma contents_create n n' fs : fs_ok fs -> n <> n' ->
  Fs.contents n' (Fs.create n fs).2 = Fs.contents n' fs /\ fs_ok (Fs.create n fs).2.
Proof.
  intros Hok Hne. unfold Fs.create. destruct (Fs.dir fs !! n) as [i|] eqn:E; cbn [snd].
  - split.
    + unfold Fs.contents. cbn. destruct (Fs.dir fs !! n') as [j|] eqn:Ej; [|done]. cbn. rewrite lookup_insert_ne; [done|].
      intros ->. by apply Hne, (fs_distinct fs Hok n n' j).
    + destruct Hok. by constructor.
  - split.
    + unfold Fs.contents. cbn. rewrite lookup_insert_ne by done. destruct (Fs.dir fs !! n') as [j|] eqn:Ej; [|done]. cbn.
      rewrite lookup_insert_ne; [done|]. apply (fs_fresh fs Hok) in Ej. lia.
    + constructor; cbn.
      * intros m j. destruct (decide (m = n)) as [->|]; [rewrite lookup_insert_eq; intros [= <-]; lia|].
        rewrite lookup_insert_ne by done. intros Hj%(fs_fresh fs Hok). lia.
      * intros m m' j Hm Hm'. destruct (decide (m = n)) as [->|], (decide (m' = n)) as [->|]; [done|..].
        { rewrite lookup_insert_eq in Hm. rewrite lookup_insert_ne in Hm' by done. simplify_eq. apply (fs_fresh fs Hok) in Hm'. lia. }
        { rewrite lookup_insert_eq in Hm'. rewrite lookup_insert_ne in Hm by done. simplify_eq. apply (fs_fresh fs Hok) in Hm. lia. }
        rewrite lookup_insert_ne in Hm, Hm' by done. by eapply (fs_distinct fs Hok).
Qed.

Lemma perform_ok w e fs : fs_ok fs -> fs_ok (perform w e fs).2.
Proof.
  intros Hok. destruct e as [|b|[b|]|]; cbn [perform].
  - destruct (contents_create Tmp File fs Hok) as [_ Hok']; [done|]. destruct (Fs.create Tmp fs) as [i fs']. by destruct Hok'; constructor.
  - destruct (Fs.fds fs !! w) as [[i pos]|]; [|done]. by destruct Hok; constructor.
  - destruct (contents_create Bak File fs Hok) as [_ Hok']; [done|]. destruct (Fs.create Bak fs) as [i fs']. by destruct Hok'; constructor.
  - done.
  - destruct (Fs.dir fs !! Tmp) as [i|] eqn:Et; [|done].
    assert (forall n j, (delete Tmp (<[File := i]> (Fs.dir fs))) !! n = Some j -> exists m, Fs.dir fs !! m = Some j /\ (n = m \/ n = File /\ m = Tmp)) as Hd.
    { intros n j [Hn Hj]%lookup_delete_Some. apply lookup_insert_Some in Hj as [[<- <-]|[_ Hj]]; eauto. }
    constructor; cbn.
    + intros n j (m & Hm & _)%Hd. by apply (fs_fresh fs Hok) in Hm.
    + intros n n' j Hn Hn'. assert (n <> Tmp /\ n' <> Tmp) as [Hx Hx'] by (split; intros ->; by rewrite lookup_delete_eq in *).
      apply Hd in Hn as (m & Hm & Hnm), Hn' as (m' & Hm' & Hnm'). pose proof (fs_distinct fs Hok _ _ _ Hm Hm').
      destruct Hnm as [->|[-> ->]], Hnm' as [->|[-> ->]]; congruence.
Qed.

Lemma perform_all_ok w es : forall fs, fs_ok fs -> fs_ok (perform_all w es fs).
Proof. induction es as [|e es IH]; intros fs Hok; [done|]. by apply IH, perform_ok. Qed.

Lemma atomic_write_ok `{TomlDocs} w table d fs : fs_ok fs -> fs_ok (atomic_write_toml w table d fs).2.
Proof.
  intros Hok. unfold atomic_write_toml. destruct (table ≫= to_string_pretty); [|done]. cbv zeta.
  destruct (Disk.fails d) as [[]|]; by apply perform_all_ok.
Qed.

(** In the middle of a save by [w]: the file is as it was, the temporary one holds what was put. *)
Record saving (w : nat) (old : option bytes) (put : bytes) (fs : Fs.t) : Prop := {
  sv_ok : fs_ok fs;
  sv_old : Fs.contents File fs = old;
  sv_tmp : exists i, Fs.dir fs !! Tmp = Some i /\ Fs.data fs !! i = Some put /\ Fs.fds fs !! w = Some (i, length put)
}.

Lemma write_at_end put b : Fs.write_at (length put) b put = put ++ b.
Proof.
  unfold Fs.write_at. rewrite take_ge, Nat.sub_diag, drop_ge by lia. cbn. by rewrite app_nil_r.
Qed.

Lemma saving_open w fs : fs_ok fs -> saving w (Fs.contents File fs) [] (perform w OpenTmp fs).2.
Proof.
  intros Hok. destruct (contents_create Tmp File fs Hok) as [Hc Hok']; [done|]. cbn [perform].
  destruct (Fs.create Tmp fs) as [i fs'] eqn:E. cbn [snd] in *. constructor; [by destruct Hok'; constructor|done|].
  exists i. cbn [Fs.set_fd Fs.dir Fs.data Fs.fds length]. rewrite lookup_insert_eq. unfold Fs.create in E.
  destruct (Fs.dir fs !! Tmp) eqn:Et; injection E as <- <-; cbn; by rewrite ?lookup_insert_eq.
Qed.

Lemma saving_put w old put b fs : saving w old put fs -> saving w old (put ++ b) (perform w (PutTmp b) fs).2.
Proof.
  intros [Hok Hold (i & Ht & Hd & Hf)]. cbn [perform]. rewrite Hf, Hd. cbn [default snd id]. rewrite write_at_end.
  constructor.
  - by destruct Hok; constructor.
  - rewrite <-Hold. unfold Fs.contents. cbn. destruct (Fs.dir fs !! File) as [j|] eqn:Ej; [|done]. cbn.
    rewrite lookup_insert_ne; [done|]. intros ->. by pose proof (fs_distinct fs Hok _ _ _ Ht Ej).
  - exists i. cbn. by rewrite !lookup_insert_eq, length_app.
Qed.

Lemma saving_copy w old put c fs : saving w old put fs -> saving w old put (perform w (CopyBak c) fs).2.
Proof.
  intros Hs. destruct c as [b|]; [|done]. destruct Hs as [Hok Hold (i & Ht & Hd & Hf)]. cbn [perform].
  destruct (contents_create Bak File fs Hok) as [Hc Hok']; [done|].
  destruct (contents_create Bak Tmp fs Hok) as [Hct _]; [done|].
  assert (Fs.fds (Fs.create Bak fs).2 = Fs.fds fs /\ Fs.dir (Fs.create Bak fs).2 !! Bak = Some (Fs.create Bak fs).1 /\
    forall n, n <> Bak -> Fs.dir (Fs.create Bak fs).2 !! n = Fs.dir fs !! n) as (Hfd & Hb & Hn).
  { unfold Fs.create. destruct (Fs.dir fs !! Bak) eqn:E; cbn; [done|]. rewrite lookup_insert_eq. repeat split; try done.
    intros n Hne. by rewrite lookup_insert_ne. }
  destruct (Fs.create Bak fs) as [j fs'] eqn:E. cbn [fst snd] in *.
  assert (forall n k, n <> Bak -> Fs.dir fs' !! n = Some k -> j <> k) as Hj.
  { intros n k Hne Hk ->. by pose proof (fs_distinct fs' Hok' _ _ _ Hk Hb). }
  assert (forall n, n <> Bak -> Fs.contents n (Fs.set_data j b fs') = Fs.contents n fs') as Hcon.
  { intros n Hne. unfold Fs.contents. cbn. destruct (Fs.dir fs' !! n) as [k|] eqn:Ek; [|done]. cbn.
    rewrite lookup_insert_ne; [done|]. by eapply Hj. }
  constructor.
  - by destruct Hok'; constructor.
  - rewrite Hcon by done. by rewrite Hc.
  - exists i. cbn [Fs.set_data Fs.dir Fs.data Fs.fds]. rewrite Hn by done. split; [done|]. split; [|by rewrite Hfd].
    rewrite lookup_insert_ne; [|apply (Hj Tmp); [done|by rewrite Hn]].
    unfold Fs.contents in Hct. rewrite Hn, Ht in Hct by done. cbn in Hct. by rewrite Hct.
Qed.

Lemma saving_rename w old put fs : saving w old put fs -> Fs.contents File (perform w RenameTmp fs).2 = Some put.
Proof.
  intros [_ _ (i & Ht & Hd & _)]. cbn [perform]. rewrite Ht. cbn [snd]. unfold Fs.contents. cbn [Fs.dir Fs.data].
  rewrite lookup_delete_ne, lookup_insert_eq by done. done.
Qed.

Lemma perform_all_app w es es' fs : perform_all w (es ++ es') fs = perform_all w es' (perform_all w es fs).
Proof. apply foldl_app. Qed.

Lemma saving_puts w old chunks : forall put fs, saving w old put fs ->
  saving w old (put ++ mjoin chunks) (perform_all w (PutTmp <$> chunks) fs).
Proof.
  induction chunks as [|b chunks IH]; intros put fs Hs; cbn; [by rewrite app_nil_r|].
  rewrite app_assoc. by apply IH, saving_put.
Qed.

(** Everything up to the rename. *)
Definition before_rename (chunks : list bytes) (backup : option (option bytes)) : list effect :=
  OpenTmp :: (PutTmp <$> chunks) ++ match backup with Some c => [CopyBak c] | None => [] end.

Lemma save_effects_split chunks backup : save_effects chunks backup = before_rename chunks backup ++ [RenameTmp].
Proof. unfold save_effects, before_rename. cbn [app]. by rewrite app_assoc. Qed.

Lemma saving_before w chunks backup fs : fs_ok fs ->
  saving w (Fs.contents File fs) (mjoin chunks) (perform_all w (before_rename chunks backup) fs).
Proof.
  intros Hok. unfold before_rename, perform_all. cbn [foldl]. fold (perform_all w ((PutTmp <$> chunks) ++
    match backup with Some c => [CopyBak c] | None => [] end) (perform w OpenTmp fs).2). rewrite perform_all_app.
  pose proof (saving_puts w _ chunks [] _ (saving_open w fs Hok)) as Hs. cbn [app] in Hs.
  destruct backup as [c|]; [|done]. by apply saving_copy.
Qed.

(** A prefix of the effects before the rename leaves the file. *)
Lemma before_prefix_keeps w chunks backup n fs : fs_ok fs ->
  Fs.contents File (perform_all w (take n (before_rename chunks backup)) fs) = Fs.contents File fs.
Proof.
  intros Hok. destruct n as [|n]; [done|]. unfold before_rename. cbn [take].
  unfold perform_all. cbn [foldl]. fold (perform_all w (take n ((PutTmp <$> chunks) ++
    match backup with Some c => [CopyBak c] | None => [] end)) (perform w OpenTmp fs).2).
  rewrite take_app, perform_all_app, <-fmap_take.
  pose proof (saving_puts w _ (take n chunks) [] _ (saving_open w fs Hok)) as Hs.
  destruct backup as [c|]; [|by rewrite take_nil; apply (sv_old _ _ _ _ Hs)].
  destruct (n - length (PutTmp <$> chunks))%nat as [|k]; [by apply (sv_old _ _ _ _ Hs)|]. cbn [take].
  rewrite take_nil. apply (sv_old _ _ _ _ (saving_copy _ _ _ c _ Hs)).
Qed.

(** A crash at any point of a save leaves the old file or the new one, whole. *)
Lemma crash_leaves_either w chunks backup n fs : fs_ok fs ->
  let fs' := perform_all w (take n (save_effects chunks backup)) fs in
  Fs.contents File fs' = Fs.contents File fs \/ Fs.contents File fs' = Some (mjoin chunks).
Proof.
  intros Hok. cbv zeta. rewrite save_effects_split. destruct (decide (n <= length (before_rename chunks backup)))%nat as [Hn|Hn].
  - left. rewrite take_app_le by done. by apply before_prefix_keeps.
  - right. rewrite take_ge by (rewrite length_app; change (length [RenameTmp]) with 1%nat; lia). rewrite perform_all_app.
    apply (saving_rename w (Fs.contents File fs)). by apply saving_before.
Qed.

(** So does a save that ends, whatever its outcome. *)
Lemma atomic_write_either `{TomlDocs} w table text d fs : fs_ok fs -> table ≫= to_string_pretty = Some text -> cut_of table d ->
  let fs' := (atomic_write_toml w table d fs).2 in
  Fs.contents File fs' = Fs.contents File fs \/ Fs.contents File fs' = Some (lit text).
Proof.
  intros Hok Ht Hcut. cbv zeta. pose proof (fun n b => crash_leaves_either w (Disk.chunks d) b n fs Hok) as Heither. cbv zeta in Heither.
  rewrite (Hcut text Ht) in Heither. unfold atomic_write_toml. rewrite Ht. cbv zeta.
  destruct (Disk.fails d) as [[k|]|]; cbn [snd]; [apply Heither|apply Heither|].
  set (b := if bool_decide _ then _ else _). rewrite <-(firstn_all (save_effects (Disk.chunks d) b)). apply Heither.
Qed.

Section Round.
Context `{TomlDocs, !TomlDocsLaws}.

Lemma string_of_lit s : String.string_of_list_byte (lit s) = s.
Proof. apply String.string_of_list_byte_of_string. Qed.

(** A save that returns success is read back; one that fails has left the file alone. *)
Lemma atomic_write_toml_reads {A} (of_table : gmap string toml -> option A) w table d fs r fs' : fs_ok fs ->
  cut_of table d -> atomic_write_toml w table d fs = (r, fs') ->
  match r with
  | Ok _ => exists t, table = Some t /\ read_toml of_table fs' = ok_or (of_table t) IoParse
  | Err _ => Fs.contents File fs' = Fs.contents File fs
  end.
Proof.
  intros Hok Hcut. unfold atomic_write_toml. destruct (table ≫= to_string_pretty) as [text|] eqn:Et; [|by intros [= <- <-]].
  specialize (Hcut text Et). set (backup := if bool_decide _ then _ else _). apply bind_Some in Et as (t & -> & Ht).
  destruct (Disk.fails d) as [[n|]|]; intros [<- <-]%pair_equal_spec.
  - rewrite save_effects_split, take_app_le by (unfold before_rename; cbn [length]; rewrite length_app, length_fmap; lia).
    by apply before_prefix_keeps.
  - rewrite save_effects_split, length_app. change (length [RenameTmp]) with 1%nat. rewrite Nat.add_sub, take_app_le by lia.
    by apply before_prefix_keeps.
  - exists t. split; [done|]. unfold read_toml. rewrite save_effects_split, perform_all_app.
    pose proof (saving_rename w _ _ _ (saving_before w (Disk.chunks d) backup fs Hok)) as Hc.
    change (perform_all w [RenameTmp] ?x) with (perform w RenameTmp x).2. rewrite Hc.
    cbn [ok_or result_bind]. rewrite Hcut, (docs_utf8 _ _ Ht). cbn [negb]. rewrite string_of_lit, (docs_round_trip _ _ Ht). done.
Qed.

(** C29 A save is all or nothing: answered with success, the file reads back as the value; answered with an
    error, it is as it was; and when the process ends after any of the system calls, the file is the
    old one or the new one, whole. *)
Theorem save_is_atomic {A} (of_table : gmap string toml -> option A) w table d fs r fs' : fs_ok fs ->
  cut_of table d -> atomic_write_toml w table d fs = (r, fs') ->
  match r with
  | Ok _ => exists t, table = Some t /\ read_toml of_table fs' = ok_or (of_table t) IoParse
  | Err _ => Fs.contents File fs' = Fs.contents File fs
  end /\
  forall text backup n, table ≫= to_string_pretty = Some text ->
    let crashed := perform_all w (take n (save_effects (Disk.chunks d) backup)) fs in
    Fs.contents File crashed = Fs.contents File fs \/ Fs.contents File crashed = Some (lit text).
Proof.
  intros Hok Hcut Hw. split; [by eapply atomic_write_toml_reads|]. intros text backup n Ht. cbv zeta.
  rewrite <-(Hcut text Ht). by apply crash_leaves_either.
Qed.
End Round.

(** ** Two saves at the same time *)

(** The system calls of two writers, in the order they happen. *)
Definition interleave (es : list (nat * effect)) (fs : Fs.t) : Fs.t := foldl (fun fs we => (perform we.1 we.2 fs).2) fs es.

(** The two saves share the temporary file. When the second truncates it between the last write and the
    rename of the first, the first save reports success and the file is empty; the second then writes
    into the file itself and its own rename fails. *)
Theorem concurrent_saves_corrupt : let text := lit "log_level = 'info'" in
  let first := [(1%nat, OpenTmp); (1%nat, PutTmp text); (2%nat, OpenTmp); (1%nat, RenameTmp)] in
  Fs.contents File (interleave first Fs.empty) = Some [] /\
  Fs.contents File (interleave (first ++ [(2%nat, PutTmp text)]) Fs.empty) = Some text /\
  (perform 2 RenameTmp (interleave (first ++ [(2%nat, PutTmp text)]) Fs.empty)).1 = false.
Proof. split_and!; vm_compute; reflexivity. Qed.

Module ConfigIoSample.
Definition table : gmap string toml := {["log_level"%string := TomlStr "info"]}.
Definition text : string := default ""%string (to_string_pretty (TomlDocs := PolicyFileSample.docs) table).
Definition disk : Disk.t := Disk.mk [take 3 (lit text); drop 3 (lit text)] None None.

Lemma cut_of_disk : cut_of (H := PolicyFileSample.docs) (Some table) disk.
Proof. intros t Ht. unfold disk. cbn [Disk.chunks mjoin list_join]. rewrite app_nil_r, take_drop. unfold text. cbn [mbind option_bind] in Ht. by rewrite Ht. Qed.

(** The sample written in two chunks over no file, with a crash after the first of them. *)
Lemma save_is_atomic_witness : let fs' := (atomic_write_toml (H := PolicyFileSample.docs) 1 (Some table) disk Fs.empty).2 in
  read_toml (H := PolicyFileSample.docs) (fun t => t !! "log_level"%string) fs' = Ok (TomlStr "info") /\
  (Fs.contents File (perform_all 1 (take 2 (save_effects (Disk.chunks disk) None)) Fs.empty) = None \/
   Fs.contents File (perform_all 1 (take 2 (save_effects (Disk.chunks disk) None)) Fs.empty) = Some (lit text)).
Proof.
  cbv zeta.
  assert (atomic_write_toml (H := PolicyFileSample.docs) 1 (Some table) disk Fs.empty =
    (Ok tt, (atomic_write_toml (H := PolicyFileSample.docs) 1 (Some table) disk Fs.empty).2)) as Hw.
  { unfold atomic_write_toml. cbn [mbind option_bind]. reflexivity. }
  destruct (save_is_atomic (H := PolicyFileSample.docs) (H0 := PolicyFileSample.docs_laws) (fun t => t !! "log_level"%string) 1 (Some table) disk Fs.empty _ _ fs_ok_empty cut_of_disk Hw) as [(t & [= <-] & Hr) Hc].
  split; [exact Hr|]. apply (Hc text None 2%nat). reflexivity.
Defined.
End ConfigIoSample.
