(* ===== verification/Admin.v ===== *)
(** * Starting and administering the verifier

    Models the start of [services/pool-verifier/src/main.rs] (API secret, mode, policy, Class M wiring),
    the handlers of [handlers.rs] that change the policy and the settings, with the write throttle in
    front of them, readiness, the routes of [http.rs] and the key check of [ingress.rs].

    The handlers run side by side. [apply_policy] reads the policy under one lock and writes it under
    another: it is two steps here, with other requests in between. Locks recover from poisoning. The
    log filter and the disk are what they answer. *)

From S2P Require Import Prelude Crates Float64 Protocol Consensus Mempool Policy Codec Limits VerifierStream VerdictLog Ingress Manager License Middleware PolicyFile ConfigIo.

(** ** The requests *)

Module ApplyPolicyReq.
Record t : Type := mk {
  low_mempool_tx : option Z; high_mempool_tx : option Z;
  min_avg_fee_lo : option Z; min_avg_fee_mid : option Z; min_avg_fee_hi : option Z;
  min_total_fees : option Z; max_tx_count : option Z;
  reject_empty_templates : option bool; reject_coinbase_zero : option bool;
  enforce_weight_ratio : option bool; enforce_template_age : option bool;
  max_weight_ratio : option f64; max_template_age_ms : option Z;
  warn_sigops_ratio : option f64; warn_coinbase_sigops_max : option Z }.
Definition empty : t := mk None None None None None None None None None None None None None None None.

(** The policy with the fields of the request in it. *)
Definition patched (r : t) (c : PolicyConfig.t) : PolicyConfig.t :=
  let s := PolicyConfig.safety c in
  PolicyConfig.mk (PolicyConfig.protocol_version c) (PolicyConfig.required_prevhash_len c)
    (unwrap_or (min_total_fees r) (PolicyConfig.min_total_fees c))
    (unwrap_or (max_tx_count r) (PolicyConfig.max_tx_count c))
    (unwrap_or (low_mempool_tx r) (PolicyConfig.low_mempool_tx c))
    (unwrap_or (high_mempool_tx r) (PolicyConfig.high_mempool_tx c))
    (unwrap_or (min_avg_fee_lo r) (PolicyConfig.min_avg_fee_lo c))
    (unwrap_or (min_avg_fee_mid r) (PolicyConfig.min_avg_fee_mid c))
    (unwrap_or (min_avg_fee_hi r) (PolicyConfig.min_avg_fee_hi c))
    (unwrap_or (reject_empty_templates r) (PolicyConfig.reject_empty_templates c))
    (unwrap_or (reject_coinbase_zero r) (PolicyConfig.reject_coinbase_zero c))
    (PolicyConfig.unknown_mempool_as_high c)
    (PolicySafety.mk (unwrap_or (max_weight_ratio r) (PolicySafety.max_weight_ratio s))
       (unwrap_or (enforce_weight_ratio r) (PolicySafety.enforce_weight_ratio s))
       (match max_template_age_ms r with Some v => Some v | None => PolicySafety.max_template_age_ms s end)
       (unwrap_or (enforce_template_age r) (PolicySafety.enforce_template_age s))
       (unwrap_or (warn_sigops_ratio r) (PolicySafety.warn_sigops_ratio s))
       (unwrap_or (warn_coinbase_sigops_max r) (PolicySafety.warn_coinbase_sigops_max s)))
    (PolicyConfig.mempool c).
End ApplyPolicyReq.

Module ApplySettingsReq.
Record t : Type := mk { log_level : option string; mempool_url : option string }.
End ApplySettingsReq.

Module SaveSettingsReq.
Record t : Type := mk { log_level : option string; log_format : option string; mempool_url : option string }.
End SaveSettingsReq.

Module RuntimeSettings.
Record t : Type := mk { log_level : string; mempool_url : string }.
End RuntimeSettings.

Definition default_log_level : string := "info".
Definition default_log_format : string := "json".

Module VerifierDiskConfig.
Record t : Type := mk { log_level : string; log_format : string; mempool_url : string }.
Definition default_config : t := mk default_log_level default_log_format "".

Definition of_table (t : gmap string toml) : option VerifierDiskConfig.t :=
  log_level ← field t "log_level" default_log_level as_str;
  log_format ← field t "log_format" default_log_format as_str;
  mempool_url ← field t "mempool_url" ""%string as_str;
  Some (mk log_level log_format mempool_url).
Definition to_table (c : t) : gmap string toml :=
  list_to_map [("log_level", TomlStr (log_level c)); ("log_format", TomlStr (log_format c));
               ("mempool_url", TomlStr (mempool_url c))]%string.

Definition merge (r : SaveSettingsReq.t) (c : t) : t :=
  mk (unwrap_or (SaveSettingsReq.log_level r) (log_level c)) (unwrap_or (SaveSettingsReq.log_format r) (log_format c))
    (unwrap_or (SaveSettingsReq.mempool_url r) (mempool_url c)).
End VerifierDiskConfig.
#[global] Instance VerifierDiskConfig_eq_dec : EqDecision VerifierDiskConfig.t.
Proof. solve_decision. Defined.

Definition ALLOWED_LOG_LEVELS : list string := ["trace"; "debug"; "info"; "warn"; "error"].
Definition ALLOWED_LOG_FORMATS : list string := ["json"; "text"; "pretty"].

(** ** The state the handlers share *)

Module Admin.
Record t : Type := mk {
  policy : PolicyHolder.t; throttle : list Z; reloads_success : Z; reloads_failed : Z;
  runtime : RuntimeSettings.t; fs : Fs.t }.
Definition with_policy (h : PolicyHolder.t) (s : t) : t :=
  mk h (throttle s) (reloads_success s) (reloads_failed s) (runtime s) (fs s).
Definition with_throttle (ts : list Z) (s : t) : t :=
  mk (policy s) ts (reloads_success s) (reloads_failed s) (runtime s) (fs s).
Definition with_runtime (r : RuntimeSettings.t) (s : t) : t :=
  mk (policy s) (throttle s) (reloads_success s) (reloads_failed s) r (fs s).
Definition with_fs (f : Fs.t) (s : t) : t :=
  mk (policy s) (throttle s) (reloads_success s) (reloads_failed s) (runtime s) f.
Definition count_success (s : t) : t :=
  mk (policy s) (throttle s) (wrapping_add 64 (reloads_success s) 1) (reloads_failed s) (runtime s) (fs s).
Definition count_failed (s : t) : t :=
  mk (policy s) (throttle s) (reloads_success s) (wrapping_add 64 (reloads_failed s) 1) (runtime s) (fs s).
End Admin.

Inductive Answer : Type :=
| AnsOk
| AnsSaved                                  (* restart_required *)
| AnsThrottled
| AnsPolicyInvalid (e : PolicyConfig.ValidateError)
| AnsNotUtf8
| AnsTomlInvalid (detail : bytes)
| AnsBadLogLevel (level : string)
| AnsBadLogFormat (format : string)
| AnsBadFilter
| AnsReloadFailed
| AnsWriteFailed (e : ConfigIoError)
| AnsUnauthorized.

Definition answer_status (a : Answer) : Z :=
  match a with
  | AnsOk | AnsSaved => 200
  | AnsThrottled => 429
  | AnsPolicyInvalid _ | AnsNotUtf8 | AnsTomlInvalid _ | AnsBadLogLevel _ | AnsBadLogFormat _ | AnsBadFilter => 400
  | AnsReloadFailed | AnsWriteFailed _ => 500
  | AnsUnauthorized => 401
  end.

Module Writes.
Definition WRITE_THROTTLE_WINDOW_SECS : Z := 60.
Definition WRITE_THROTTLE_MAX : Z := 10.

(** [while front is older than the window { pop_front }]. *)
Fixpoint evict (now : Z) (ts : list Z) : list Z :=
  match ts with
  | t :: rest => if saturating_sub now t >? WRITE_THROTTLE_WINDOW_SECS * 1000000000 then evict now rest else ts
  | [] => []
  end.

(** Whether the write is let through; [now] is in nanoseconds. *)
Definition check_write_throttle (now : Z) (s : Admin.t) : bool * Admin.t :=
  let ts := evict now (Admin.throttle s) in
  if lenZ ts >=? WRITE_THROTTLE_MAX then (false, Admin.with_throttle ts s)
  else (true, Admin.with_throttle (ts ++ [now]) s).
End Writes.

(** What the logging layer answers: whether a level parses as a filter, and whether the reload works. *)
Module Logging.
Record t : Type := mk { parses : string -> bool; reloads : bool }.
End Logging.

(** ** Policy changes side by side *)

(** [running] are the policy changes that have read and not yet written. *)
Module Live.
Record t : Type := mk { admin : Admin.t; running : list (ApplyPolicyReq.t * PolicyConfig.t) }.
End Live.

(** The ranges of the fields of a request. *)
Definition in_range (w : Z) (o : option Z) : Prop := match o with Some z => uint w z | None => True end.
Definition request_typed (r : ApplyPolicyReq.t) : Prop :=
  in_range 64 (ApplyPolicyReq.low_mempool_tx r) /\ in_range 64 (ApplyPolicyReq.high_mempool_tx r) /\
  in_range 64 (ApplyPolicyReq.min_avg_fee_lo r) /\ in_range 64 (ApplyPolicyReq.min_avg_fee_mid r) /\
  in_range 64 (ApplyPolicyReq.min_avg_fee_hi r) /\ in_range 64 (ApplyPolicyReq.min_total_fees r) /\
  in_range 32 (ApplyPolicyReq.max_tx_count r) /\ in_range 64 (ApplyPolicyReq.max_template_age_ms r) /\
  in_range 32 (ApplyPolicyReq.warn_coinbase_sigops_max r).

Section Handlers.
Context `{TomlDocs}.
(** The message of serde for a document that is not a policy document. *)
Context (serde_error : gmap string toml -> string).

Definition serialization_failed : string :=
  "# policy serialization failed" +:+ String (Ascii.ascii_of_nat 10) EmptyString.

(** [apply_policy] up to the copy of the policy: [None] when throttled. *)
Definition apply_policy_begin (now : Z) (s : Admin.t) : option PolicyConfig.t * Admin.t :=
  let '(ok, s) := Writes.check_write_throttle now s in
  if negb ok then (None, s) else (Some (PolicyHolder.config (Admin.policy s)), s).

(** [apply_policy] from there on. *)
Definition apply_policy_finish (req : ApplyPolicyReq.t) (base : PolicyConfig.t) (s : Admin.t) : Answer * Admin.t :=
  let cfg := ApplyPolicyReq.patched req base in
  match PolicyConfig.validate cfg with
  | Err e => (AnsPolicyInvalid e, Admin.count_failed s)
  | Ok _ =>
      let toml_text := unwrap_or (Wizard.policy_document cfg) serialization_failed in
      (AnsOk, Admin.count_success (Admin.with_policy (PolicyHolder.mk cfg toml_text) s))
  end.

(** [apply_policy] with nothing in between. *)
Definition apply_policy (now : Z) (req : ApplyPolicyReq.t) (s : Admin.t) : Answer * Admin.t :=
  match apply_policy_begin now s with
  | (None, s) => (AnsThrottled, s)
  | (Some base, s) => apply_policy_finish req base s
  end.

(** [&detail[..200]] panics inside a character. *)
Definition sanitize (detail : bytes) : checked bytes :=
  if (200 <? length detail)%nat
  then if is_char_boundary detail 200 then Returns (take 200 detail ++ lit "...") else Panics
  else Returns detail.

(** [toml::from_str::<PolicyTomlWrapper>]. *)
Definition parse_wrapper (body : string) : result PolicyConfig.t string :=
  let? doc := from_str body in
  ok_or (doc !! "policy"%string ≫= policy_of_value) (serde_error doc).

Definition apply_policy_toml (now : Z) (body : bytes) (s : Admin.t) : checked Answer * Admin.t :=
  let '(ok, s) := Writes.check_write_throttle now s in
  if negb ok then (Returns AnsThrottled, s)
  else if negb (utf8_valid body) then (Returns AnsNotUtf8, s)
  else
    let text := String.string_of_list_byte body in
    match parse_wrapper text with
    | Err detail =>
        match sanitize (lit detail) with
        | Returns d => (Returns (AnsTomlInvalid d), s)
        | Panics => (Panics, s)
        end
    | Ok cfg =>
        match PolicyConfig.validate cfg with
        | Err e => (Returns (AnsPolicyInvalid e), s)
        | Ok _ => (Returns AnsOk, Admin.with_policy (PolicyHolder.mk cfg text) s)
        end
    end.

Definition level_allowed (level : string) : bool := bool_decide (level ∈ ALLOWED_LOG_LEVELS).
Definition set_level (level : string) (s : Admin.t) : Admin.t :=
  Admin.with_runtime (RuntimeSettings.mk level (RuntimeSettings.mempool_url (Admin.runtime s))) s.
Definition set_url (url : option string) (s : Admin.t) : Admin.t :=
  match url with
  | Some url => Admin.with_runtime (RuntimeSettings.mk (RuntimeSettings.log_level (Admin.runtime s)) url) s
  | None => s
  end.

Definition apply_settings (now : Z) (log : Logging.t) (req : ApplySettingsReq.t) (s : Admin.t) : Answer * Admin.t :=
  let '(ok, s) := Writes.check_write_throttle now s in
  if negb ok then (AnsThrottled, s)
  else
    let finish s := (AnsOk, set_url (ApplySettingsReq.mempool_url req) s) in
    match ApplySettingsReq.log_level req with
    | None => finish s
    | Some level =>
        if negb (level_allowed level) then (AnsBadLogLevel level, s)
        else if negb (Logging.parses log level) then (AnsBadFilter, s)
        else if negb (Logging.reloads log) then (AnsReloadFailed, s)
        else finish (set_level level s)
    end.

(** The first setting of the request that is not allowed. *)
Definition rejected_setting (req : SaveSettingsReq.t) : option Answer :=
  let bad_format :=
    match SaveSettingsReq.log_format req with
    | Some fmt => if bool_decide (fmt ∈ ALLOWED_LOG_FORMATS) then None else Some (AnsBadLogFormat fmt)
    | None => None
    end in
  match SaveSettingsReq.log_level req with
  | Some level => if level_allowed level then bad_format else Some (AnsBadLogLevel level)
  | None => bad_format
  end.

Definition current_config (fs : Fs.t) : VerifierDiskConfig.t :=
  match read_toml VerifierDiskConfig.of_table fs with Ok c => c | Err _ => VerifierDiskConfig.default_config end.

Definition save_settings (w : nat) (now : Z) (log : Logging.t) (disk : Disk.t) (req : SaveSettingsReq.t) (s : Admin.t)
    : Answer * Admin.t :=
  let '(ok, s) := Writes.check_write_throttle now s in
  if negb ok then (AnsThrottled, s)
  else
    match rejected_setting req with
    | Some a => (a, s)
    | None =>
        let disk_cfg := VerifierDiskConfig.merge req (current_config (Admin.fs s)) in
        let '(r, f) := atomic_write_toml w (Some (VerifierDiskConfig.to_table disk_cfg)) disk (Admin.fs s) in
        let s := Admin.with_fs f s in
        match r with
        | Err e => (AnsWriteFailed e, s)
        | Ok _ =>
            let s :=
              match SaveSettingsReq.log_level req with
              | Some level => if Logging.parses log level && Logging.reloads log then set_level level s else s
              | None => s
              end in
            (AnsSaved, set_url (SaveSettingsReq.mempool_url req) s)
        end
    end.

(** Whether the configuration on disk differs from that of the start. *)
Definition pending_restart (boot : VerifierDiskConfig.t) (s : Admin.t) : bool :=
  match read_toml VerifierDiskConfig.of_table (Admin.fs s) with
  | Ok disk_cfg => negb (bool_decide (boot = disk_cfg))
  | Err _ => false
  end.

(** ** The routes that change something *)

Inductive admin_request : Type :=
| ApplyPolicy (req : ApplyPolicyReq.t)
| ApplyPolicyToml (body : bytes)
| ApplySettings (log : Logging.t) (req : ApplySettingsReq.t)
| SaveSettings (w : nat) (log : Logging.t) (disk : Disk.t) (req : SaveSettingsReq.t).

(** [api_key_middleware] of the ingress: no secret lets everything through. *)
Definition verifier_api_key (api_secret header : option string) : bool := Guards.api_key_middleware api_secret header.

Definition admin_serve (api_secret header : option string) (now : Z) (r : admin_request) (s : Admin.t)
    : checked Answer * Admin.t :=
  if negb (verifier_api_key api_secret header) then (Returns AnsUnauthorized, s)
  else match r with
       | ApplyPolicy req => let '(a, s) := apply_policy now req s in (Returns a, s)
       | ApplyPolicyToml body => apply_policy_toml now body s
       | ApplySettings log req => let '(a, s) := apply_settings now log req s in (Returns a, s)
       | SaveSettings w log disk req => let '(a, s) := save_settings w now log disk req s in (Returns a, s)
       end.

Inductive admin_step : Live.t -> Live.t -> Prop :=
| step_begin now req s running base s' : request_typed req -> apply_policy_begin now s = (Some base, s') ->
    admin_step (Live.mk s running) (Live.mk s' ((req, base) :: running))
| step_refused now s running s' : apply_policy_begin now s = (None, s') ->
    admin_step (Live.mk s running) (Live.mk s' running)
| step_finish s before req base after :
    admin_step (Live.mk s (before ++ (req, base) :: after)) (Live.mk (apply_policy_finish req base s).2 (before ++ after))
| step_toml now body s running :
    admin_step (Live.mk s running) (Live.mk (apply_policy_toml now body s).2 running)
| step_settings now log req s running :
    admin_step (Live.mk s running) (Live.mk (apply_settings now log req s).2 running)
| step_save w now log disk req s running :
    admin_step (Live.mk s running) (Live.mk (save_settings w now log disk req s).2 running).
End Handlers.

(** ** Starting *)

Definition MIN_API_SECRET_LEN : Z := 32.
Inductive ApiSecretRejection : Type := Placeholder | TooShort (len : Z).

(** [chars().count()] of a text. *)
Definition char_count (s : chars) : Z := lenZ (List.filter (fun c => negb (is_continuation (Ascii.byte_of_ascii c))) s).

Definition classify_api_secret (raw : string) : result unit ApiSecretRejection :=
  if is_placeholder_value raw then Err Placeholder
  else
    let len := char_count (trim (String.list_ascii_of_string raw)) in
    if len <? MIN_API_SECRET_LEN then Err (TooShort len) else Ok tt.

(** [true] lets the process start. *)
Definition verifier_enforce_api_secret (raw optional : option string) : bool :=
  match raw with
  | Some value =>
      if String.eqb value "" then Guards.opt_out optional
      else is_ok (classify_api_secret value)
  | None => Guards.opt_out optional
  end.

(** Prefer [VELDRA_MODE], then the deprecated [VELDRA_DASH_MODE]; what does not parse is [shadow]. *)
Definition resolve_mode (cli_mode : string) (veldra_mode dash_mode : option string) : DeployMode.t :=
  let mode_str :=
    if negb (String.eqb cli_mode "shadow") || bool_decide (is_Some veldra_mode) then cli_mode
    else unwrap_or dash_mode cli_mode in
  match DeployMode.from_str mode_str with Ok m => m | Err _ => DeployMode.Shadow end.

(** Whether the view and the lookup are wired, both or neither. *)
Definition build_phase2_mempool_view (cfg : PolicyConfig.t) (env_pass : option string) : result bool CredentialError :=
  let mp := PolicyConfig.mempool cfg in
  if negb (PolicyMempool.enforce mp) then Ok false
  else
    let? _ := require_usable_credentials mp (unwrap_or env_pass (PolicyMempool.rpc_pass mp)) in
    Ok true.

(** The environment and the command line. *)
Module StartEnv.
Record t : Type := mk {
  api_secret : option string; api_secret_optional : option string; cli_mode : string; veldra_mode : option string;
  dash_mode : option string; allow_permissive_degrade : option string; rpc_pass : option string;
  log_filter : option string; log_format : option string; mempool_url : option string }.
End StartEnv.

Inductive StartError : Type :=
| SecretRefused | PolicyRefused (e : LoadError) | CredentialsRefused (e : CredentialError).

Module Started.
Record t : Type := mk {
  admin : Admin.t; boot_snapshot : VerifierDiskConfig.t; deploy_mode : DeployMode.t;
  policy_loaded_ok : bool; mempool_enforced : bool }.
End Started.

Definition start_verifier `{TomlDocs} (e : StartEnv.t) (policy_file : option string) (fs : Fs.t)
    : result Started.t StartError :=
  if negb (verifier_enforce_api_secret (StartEnv.api_secret e) (StartEnv.api_secret_optional e)) then Err SecretRefused
  else
    let? loaded := map_err PolicyRefused
                     (safe_initial_policy policy_file (Guards.opt_out (StartEnv.allow_permissive_degrade e))) in
    let holder := loaded.1 in
    let degraded := loaded.2 in
    let? wired := map_err CredentialsRefused (build_phase2_mempool_view (PolicyHolder.config holder) (StartEnv.rpc_pass e)) in
    let log_level := unwrap_or (StartEnv.log_filter e) "info"%string in
    let mempool_url := unwrap_or (StartEnv.mempool_url e) ""%string in
    let log_format := unwrap_or (StartEnv.log_format e) "json"%string in
    Ok (Started.mk
      (Admin.mk holder [] 0 0 (RuntimeSettings.mk log_level mempool_url) fs)
      (VerifierDiskConfig.mk log_level log_format mempool_url)
      (resolve_mode (StartEnv.cli_mode e) (StartEnv.veldra_mode e) (StartEnv.dash_mode e))
      (negb degraded) wired).

(** ** Readiness *)

Module Ready.
Record t : Type := mk {
  ready : bool; policy_loaded : bool; enforced : bool; mempool_reachable : bool; last_ok_age_secs : option Z }.
End Ready.

(** [last_mempool] is the second of the last answer of the mempool service, [0] before the first. *)
Definition readiness_check (policy_ok enforced : bool) (last_mempool now : Z) : Ready.t :=
  let mempool_age_secs := if last_mempool >? 0 then saturating_sub now last_mempool else u64_max in
  let mempool_fresh := mempool_age_secs <? 30 in
  let mempool_ok := negb enforced || mempool_fresh in
  Ready.mk (policy_ok && mempool_ok) policy_ok enforced mempool_ok
    (if last_mempool >? 0 then Some mempool_age_secs else None).

(** * Properties *)

Lemma throttle_keeps now s ok s' : Writes.check_write_throttle now s = (ok, s') ->
  Admin.policy s' = Admin.policy s /\ Admin.runtime s' = Admin.runtime s /\ Admin.fs s' = Admin.fs s.
Proof. unfold Writes.check_write_throttle. case_if; by intros [= _ <-]. Qed.

Section Facts.
Context `{TomlDocs, !TomlDocsLaws} (serde_error : gmap string toml -> string).

(** ** The policy in force *)

(** The policy passed validation, and the text kept with it reads back as that policy, but for two notes:
    the one of a degraded start, with the policy of that start, and the one for a policy that has no
    document. *)
Record holder_ok (degraded : bool) (h : PolicyHolder.t) : Prop := {
  ho_valid : PolicyConfig.validate (PolicyHolder.config h) = Ok tt;
  ho_typed : policy_typed (PolicyHolder.config h);
  ho_text : degraded = true /\ h = PolicyHolder.mk degraded_policy degraded_text \/
    PolicyHolder.toml_text h = serialization_failed /\ Wizard.policy_document (PolicyHolder.config h) = None \/
    exists unread, parse_policy_from_policy_table (PolicyHolder.toml_text h) = Ok (PolicyHolder.config h, unread)
}.

Lemma unwrap_in_range w o d : in_range w o -> uint w d -> uint w (unwrap_or o d).
Proof. by destruct o. Qed.

Lemma patched_typed r c : request_typed r -> policy_typed c -> policy_typed (ApplyPolicyReq.patched r c).
Proof.
  intros (?&?&?&?&?&?&?&Ha&?) (?&?&?&?&?&?&?&?&?&[Hs1 Hs2]&Hm). unfold policy_typed, safety_typed. cbn -[uint].
  split_and!; try done; try (by apply unwrap_in_range); [|by apply Hm..].
  by destruct (ApplyPolicyReq.max_template_age_ms r).
Qed.

Lemma finish_ok degraded req base s : request_typed req -> policy_typed base -> holder_ok degraded (Admin.policy s) ->
  holder_ok degraded (Admin.policy (apply_policy_finish req base s).2).
Proof.
  intros Hr Hb Hs. unfold apply_policy_finish. destruct (PolicyConfig.validate _) as [[]|] eqn:Ev; [|done].
  pose proof (patched_typed req base Hr Hb) as Ht. constructor; cbn; [done..|].
  right. destruct (Wizard.policy_document _) as [text|] eqn:Ed; [right|by left]. exists []. by apply document_parses.
Qed.

Lemma parse_wrapper_ok body cfg : parse_wrapper serde_error body = Ok cfg ->
  policy_typed cfg /\ exists unread, parse_policy_from_policy_table body = Ok (cfg, unread).
Proof.
  unfold parse_wrapper, parse_policy_from_policy_table. destruct (from_str body) as [doc|]; [|done]. cbn [result_bind map_err].
  intros (v & Hv & Hc)%ok_or_ok%bind_Some. rewrite Hv. cbn [ok_or result_bind]. rewrite Hc. cbn [ok_or result_bind].
  split; [by apply policy_value_read in Hc as [? _]|by eexists].
Qed.

Lemma toml_ok degraded now body s : holder_ok degraded (Admin.policy s) -> holder_ok degraded (Admin.policy (apply_policy_toml serde_error now body s).2).
Proof.
  intros Hs. unfold apply_policy_toml. destruct (Writes.check_write_throttle now s) as [ok s'] eqn:E.
  apply throttle_keeps in E as [Hp _]. rewrite <-Hp in Hs. destruct ok; [|done]. cbn [negb]. case_if; [done|].
  destruct (parse_wrapper _ _) as [cfg|detail] eqn:Ew; [|by destruct (sanitize _)].
  destruct (PolicyConfig.validate cfg) as [[]|] eqn:Ev; [|done]. apply parse_wrapper_ok in Ew as [Ht Hu].
  constructor; cbn; [done..|]. by right; right.
Qed.

Lemma settings_policy now log req s : Admin.policy (apply_settings now log req s).2 = Admin.policy s.
Proof.
  unfold apply_settings. destruct (Writes.check_write_throttle now s) as [ok s'] eqn:E. apply throttle_keeps in E as [<- _].
  unfold set_url. destruct ok; [|done]. cbn [negb]. destruct (ApplySettingsReq.log_level req); repeat case_if; try done;
    by destruct (ApplySettingsReq.mempool_url req).
Qed.

Lemma save_policy w now log disk req s : Admin.policy (save_settings w now log disk req s).2 = Admin.policy s.
Proof.
  unfold save_settings. destruct (Writes.check_write_throttle now s) as [ok s'] eqn:E. apply throttle_keeps in E as [<- _].
  destruct ok; [|done]. cbn [negb]. destruct (rejected_setting req); [done|].
  destruct (atomic_write_toml _ _ _ _) as [[]]; [|done]. unfold set_url, set_level.
  destruct (SaveSettingsReq.log_level req), (SaveSettingsReq.mempool_url req); repeat case_if; done.
Qed.

Definition live_ok (degraded : bool) (l : Live.t) : Prop :=
  holder_ok degraded (Admin.policy (Live.admin l)) /\ Forall (fun rb => request_typed rb.1 /\ policy_typed rb.2) (Live.running l).

Lemma begin_keeps now s o s' : apply_policy_begin now s = (o, s') ->
  Admin.policy s' = Admin.policy s /\ (forall base, o = Some base -> base = PolicyHolder.config (Admin.policy s)).
Proof.
  unfold apply_policy_begin. destruct (Writes.check_write_throttle now s) as [ok s1] eqn:E. apply throttle_keeps in E as [Hp _].
  destruct ok; intros [<- <-]%pair_equal_spec; (split; [done|]); [|done]. intros base [= <-]. by rewrite Hp.
Qed.

Lemma step_keeps_live degraded l l' : live_ok degraded l -> admin_step serde_error l l' -> live_ok degraded l'.
Proof.
  intros [Hh Hr] Hst. unfold live_ok. destruct Hst as [now req s running base s' Hreq Hb|now s running s' Hb|s before req base after|
    now body s running|now log req s running|w now log disk req s running]; cbn [Live.admin Live.running] in *.
  - apply begin_keeps in Hb as [-> Hbase]. split; [done|]. constructor; [|done]. split; [done|].
    cbn [snd]. rewrite (Hbase base eq_refl). apply Hh.
  - by apply begin_keeps in Hb as [-> _].
  - apply Forall_app in Hr as [Hr1 [[Hreq Hbase] Hr2]%Forall_cons]. split; [by apply finish_ok|by apply Forall_app].
  - split; [by apply toml_ok|done].
  - by rewrite settings_policy.
  - by rewrite save_policy.
Qed.

Lemma degraded_ok : holder_ok true (PolicyHolder.mk degraded_policy degraded_text).
Proof.
  constructor; cbn [PolicyHolder.config PolicyHolder.toml_text]; [vm_compute; reflexivity| |by left].
  assert (degraded_policy = permissive (PolicyConfig.default_with_protocol PROTOCOL_VERSION)) as -> by (vm_compute; reflexivity).
  unfold policy_typed, safety_typed, mempool_typed, uint. cbn. unfold u32_max. repeat split; done || lia.
Qed.

Lemma loaded_ok file h unread : load_initial_policy file = Ok (h, unread) ->
  holder_ok false h /\ file = Some (PolicyHolder.toml_text h).
Proof.
  unfold load_initial_policy. destruct file as [contents|]; [|done]. cbn [ok_or result_bind].
  destruct (parse_policy_from_policy_table contents) as [[cfg warned]|] eqn:Ep; [|done]. cbn [result_bind fst snd].
  destruct (PolicyConfig.validate cfg) as [[]|] eqn:Ev; [|done]. cbn [map_err result_bind].
  destruct (enforce_protocol cfg); [|done]. cbn [result_bind]. intros [= <- _]. split; [|done].
  constructor; cbn; [done| |by right; right; eexists].
  unfold parse_policy_from_policy_table in Ep. destruct (from_str contents) as [doc|]; [|done]. cbn [map_err result_bind] in Ep.
  destruct (doc !! "policy"%string) as [v|]; [|done]. cbn [ok_or result_bind] in Ep.
  destruct (policy_of_value v) as [c|] eqn:Ec; [|done]. cbn [ok_or result_bind] in Ep. injection Ep as <- _.
  by apply policy_value_read in Ec as [? _].
Qed.

(** What a start guarantees. *)
Record started_ok (e : StartEnv.t) (file : option string) (st : Started.t) : Prop := {
  so_secret : (exists v, StartEnv.api_secret e = Some v /\ classify_api_secret v = Ok tt) \/
    (StartEnv.api_secret e = None \/ StartEnv.api_secret e = Some ""%string) /\
    StartEnv.api_secret_optional e = Some "1"%string;
  so_holder : holder_ok (negb (Started.policy_loaded_ok st)) (Admin.policy (Started.admin st));
  so_source : if Started.policy_loaded_ok st then file = Some (PolicyHolder.toml_text (Admin.policy (Started.admin st)))
    else StartEnv.allow_permissive_degrade e = Some "1"%string /\ is_ok (load_initial_policy file) = false;
  so_class_m : let mp := PolicyConfig.mempool (PolicyHolder.config (Admin.policy (Started.admin st))) in
    Started.mempool_enforced st = PolicyMempool.enforce mp /\
    (PolicyMempool.enforce mp = true ->
       require_usable_credentials mp (unwrap_or (StartEnv.rpc_pass e) (PolicyMempool.rpc_pass mp)) = Ok tt)
}.

Lemma opt_out_iff v : Guards.opt_out v = true <-> v = Some "1"%string.
Proof. unfold Guards.opt_out. by rewrite bool_decide_eq_true. Qed.

Lemma start_sound e file fs st : start_verifier e file fs = Ok st -> started_ok e file st.
Proof.
  unfold start_verifier. case_if; [done|]. apply negb_false_iff in E.
  destruct (safe_initial_policy _ _) as [[h degraded]|] eqn:Es; [|done]. cbn [map_err result_bind fst snd].
  destruct (build_phase2_mempool_view _ _) as [wired|] eqn:Eb; [|done]. cbn [map_err result_bind]. intros [= <-].
  unfold safe_initial_policy in Es. constructor; cbn [Started.admin Started.policy_loaded_ok Started.mempool_enforced Admin.policy].
  - unfold verifier_enforce_api_secret in E. destruct (StartEnv.api_secret e) as [v|]; [|right; split; [by left|by apply opt_out_iff]].
    destruct (String.eqb v "") eqn:Ev; [apply String.eqb_eq in Ev; right; split; [right; by rewrite Ev|by apply opt_out_iff]|].
    left. exists v. split; [done|]. by destruct (classify_api_secret v) as [[]|].
  - destruct (load_initial_policy file) as [[h' unread]|] eqn:El; [injection Es as <- <-; by apply loaded_ok in El as [? _]|].
    destruct (Guards.opt_out _); [|done]. cbn in Es. injection Es as <- <-. apply degraded_ok.
  - destruct (load_initial_policy file) as [[h' unread]|] eqn:El.
    + injection Es as <- <-. by apply loaded_ok in El as [_ ?].
    + destruct (Guards.opt_out _) eqn:Eo; [|done]. cbn in Es. injection Es as _ <-. cbn. split; [by apply opt_out_iff|done].
  - unfold build_phase2_mempool_view in Eb. cbn zeta. destruct (PolicyMempool.enforce _) eqn:Ee; cbn [negb] in Eb.
    + destruct (require_usable_credentials _ _) as [[]|]; [|done]. cbn in Eb. by injection Eb as <-.
    + by injection Eb as <-.
Qed.

(** C16 The verifier never runs a policy that did not pass validation. From a start on, through any number
    of policy and settings changes side by side, the policy in force is valid, and the text kept with
    it reads back as that policy, but for two notes: after a degraded start, as long as the policy of
    that start is in force, the note that says so, and for a policy that cannot be written as a document
    the note that says that; and a start that succeeded had a usable secret or the explicit opt-out, the
    policy file or the explicit permission to degrade, and usable node credentials exactly when Class M
    is enforced. *)
Theorem policy_in_force_valid e file fs st s running : start_verifier e file fs = Ok st ->
  star (admin_step serde_error) (Live.mk (Started.admin st) []) (Live.mk s running) ->
  started_ok e file st /\ holder_ok (negb (Started.policy_loaded_ok st)) (Admin.policy s).
Proof.
  intros Hst%start_sound Hrun. split; [done|].
  assert (live_ok (negb (Started.policy_loaded_ok st)) (Live.mk s running)) as [Hl _]; [|exact Hl].
  refine (star_invariant _ _ (step_keeps_live _) _ _ Hrun _). split; [apply Hst|constructor].
Qed.

(** ** Settings *)

Lemma disk_config_round_trip c : VerifierDiskConfig.of_table (VerifierDiskConfig.to_table c) = Some c.
Proof. destruct c. unfold VerifierDiskConfig.of_table, VerifierDiskConfig.to_table. by read_entries. Qed.

Lemma write_keeps_readable w table d fs r fs' : fs_ok fs -> cut_of (Some (VerifierDiskConfig.to_table table)) d ->
  atomic_write_toml w (Some (VerifierDiskConfig.to_table table)) d fs = (r, fs') ->
  current_config fs' = match r with Ok _ => table | Err _ => current_config fs end.
Proof.
  intros Hok Hcut Hw. pose proof (atomic_write_toml_reads VerifierDiskConfig.of_table w _ d fs r fs' Hok Hcut Hw) as Hr.
  destruct r as [[]|]; unfold current_config.
  - destruct Hr as (t & [= <-] & ->). by rewrite disk_config_round_trip.
  - unfold read_toml. by rewrite Hr.
Qed.

(** A save that is answered with success is what the file holds: the settings of the request, and the
    others as they were, and the URL is in use at once; any other answer leaves the file's settings. *)
Theorem saved_settings_read_back w now log disk req s a s' : fs_ok (Admin.fs s) ->
  let merged := VerifierDiskConfig.merge req (current_config (Admin.fs s)) in
  cut_of (Some (VerifierDiskConfig.to_table merged)) disk -> save_settings w now log disk req s = (a, s') ->
  current_config (Admin.fs s') = (if bool_decide (answer_status a = 200) then merged else current_config (Admin.fs s)) /\
  (answer_status a = 200 -> forall url, SaveSettingsReq.mempool_url req = Some url -> RuntimeSettings.mempool_url (Admin.runtime s') = url).
Proof.
  intros Hok merged Hcut. unfold save_settings. destruct (Writes.check_write_throttle now s) as [ok s1] eqn:E.
  apply throttle_keeps in E as (_ & Hrt & Hfs). destruct ok; cbn [negb]; [|intros [= <- <-]; by rewrite Hfs].
  destruct (rejected_setting req) as [a'|] eqn:Ej.
  { intros [= <- <-]. rewrite Hfs. assert (answer_status a' <> 200) as Hn; [|by rewrite bool_decide_false].
    unfold rejected_setting in Ej. repeat case_match; simplify_eq; done. }
  rewrite Hfs. fold merged. destruct (atomic_write_toml _ _ _ _) as [r f] eqn:Ew.
  pose proof (write_keeps_readable _ _ _ _ _ _ Hok Hcut Ew) as Hr. destruct r as [[]|err]; intros [= <- <-].
  - unfold set_url, set_level. split; [rewrite <-Hr; repeat case_match; done|]. intros _ url ->. done.
  - done.
Qed.

(** Settings are saved for the next start, and the next start does not read them: with the same
    environment it runs the settings of the environment again, and reports the file as pending still. *)
Theorem restart_ignores_saved e file fs fs' st st' : start_verifier e file fs = Ok st -> start_verifier e file fs' = Ok st' ->
  Admin.runtime (Started.admin st') = Admin.runtime (Started.admin st) /\
  (forall c, read_toml VerifierDiskConfig.of_table fs' = Ok c -> c <> Started.boot_snapshot st ->
     pending_restart (Started.boot_snapshot st') (Started.admin st') = true).
Proof.
  unfold start_verifier. case_if; [done|]. destruct (safe_initial_policy _ _) as [[h degraded]|]; [|done]. cbn [map_err result_bind fst snd].
  destruct (build_phase2_mempool_view _ _) as [wired|]; [|done]. cbn [map_err result_bind]. intros [= <-] [= <-].
  split; [done|]. cbn. intros c Hc Hne. unfold pending_restart. cbn. rewrite Hc. by rewrite bool_decide_false by done.
Qed.

(** ** Access *)

(** With a secret configured, a request without it changes nothing. *)
Theorem unauthorized_changes_nothing key header now r s : key <> ""%string ->
  match header with Some v => Guards.strip_bearer v <> key | None => True end ->
  admin_serve serde_error (Some key) header now r s = (Returns AnsUnauthorized, s).
Proof.
  intros Hk Hh. unfold admin_serve, verifier_api_key, Guards.api_key_middleware. rewrite bool_decide_false by done.
  destruct header; [by rewrite bool_decide_false|done].
Qed.
End Facts.

(** ** The write throttle *)

(** The times at which writes were let through. *)
Fixpoint granted_writes (nows : list Z) (s : Admin.t) : list Z :=
  match nows with
  | [] => []
  | now :: nows =>
      match Writes.check_write_throttle now s with
      | (true, s) => now :: granted_writes nows s
      | (false, s) => granted_writes nows s
      end
  end.

Lemma evict_drop_old now ts : Writes.evict now ts = Guards.drop_old now ts.
Proof. induction ts as [|t ts IH]; [done|]. cbn [Writes.evict Guards.drop_old]. by rewrite IH. Qed.

Lemma granted_writes_same nows : forall s, granted_writes nows s = granted nows (Admin.throttle s).
Proof.
  induction nows as [|now nows IH]; intros s; [done|]. cbn [granted_writes granted].
  unfold Writes.check_write_throttle, Guards.check_write_throttle. rewrite evict_drop_old.
  change Writes.WRITE_THROTTLE_MAX with Guards.WRITE_THROTTLE_MAX. case_if; by rewrite IH.
Qed.

(** ** Readiness follows the mempool service, not the view *)

Section Readiness.
Context `{StreamJson} `{IngressJson} `{HexCrate} `{BitcoinLib} (max_log : Z).

(** A verifier that enforces Class M without a mempool service configured is never ready, whatever its
    view holds and whatever proposals it judges: only that service's answers move the clock that
    readiness looks at. *)
Theorem enforced_without_url_never_ready env propose sv p now :
  Env.fetched env = None -> Service.last_mempool_ok sv = 0 ->
  Service.last_mempool_ok (on_proposal max_log env propose sv p).1.2 = 0 /\
  Ready.ready (readiness_check true true (Service.last_mempool_ok sv) now) = false.
Proof.
  intros Hf Hl. split; [|by rewrite Hl]. unfold on_proposal. rewrite Hf.
  destruct (Env.policy env) as [cfg|].
  - destruct (evaluate_proposal _ _ _ _) as [eval sc]. destruct (reply_json _ _) as [j|]; [destruct (send _ _ _)|]; exact Hl.
  - destruct (reply_json _ _) as [j|]; [destruct (send _ _ _)|]; exact Hl.
Qed.
End Readiness.

(** ** A sample verifier *)

Module AdminSample.
Import PolicyFileSample.

Definition policy : PolicyConfig.t := PolicyConfig.default_with_protocol PROTOCOL_VERSION.
Definition settings : VerifierDiskConfig.t := VerifierDiskConfig.mk "warn" "json" "http://127.0.0.1:8082/mempool".

(** A TOML crate for two documents. *)
Definition policy_doc : gmap string toml := {[ "policy"%string := TomlTab (default ∅ (table_of_policy policy)) ]}.
Definition settings_doc : gmap string toml := VerifierDiskConfig.to_table settings.
#[export] Instance two_docs : TomlDocs := {
  from_str s := if bool_decide (s = "policy"%string) then Ok policy_doc
    else if bool_decide (s = "settings"%string) then Ok settings_doc else Err "expected a document"%string;
  to_string_pretty t := if bool_decide (t = policy_doc) then Some "policy"%string
    else if bool_decide (t = settings_doc) then Some "settings"%string else None;
  safety_of_else _ := None; mempool_of_else _ := None; policy_of_else _ := None
}.
#[export] Instance two_docs_laws : TomlDocsLaws.
Proof.
  constructor; try done; intros t text; cbn [to_string_pretty two_docs].
  - case_bool_decide; [intros [= <-]; by subst|]. case_bool_decide; [intros [= <-]; by subst|done].
  - case_bool_decide; [by intros [= <-]|]. case_bool_decide; [by intros [= <-]|done].
Qed.

Definition env : StartEnv.t :=
  StartEnv.mk (Some "0123456789abcdef0123456789abcdef"%string) None "inline" None None None None None None None.
Definition error (t : gmap string toml) : string := "not a policy".
Definition admin : Admin.t :=
  Admin.mk (PolicyHolder.mk policy "policy") [] 0 0 (RuntimeSettings.mk "info" "") Fs.empty.
Definition started : Started.t :=
  Started.mk admin (VerifierDiskConfig.mk "info" "json" "") DeployMode.Inline true false.

Definition fees (n : Z) : ApplyPolicyReq.t :=
  ApplyPolicyReq.mk None None None None None (Some n) None None None None None None None None None.
Definition count (n : Z) : ApplyPolicyReq.t :=
  ApplyPolicyReq.mk None None None None None None (Some n) None None None None None None None None.

Lemma policy_in_force_valid_witness : exists s, started_ok env (Some "policy"%string) started /\ holder_ok false (Admin.policy s) /\
  PolicyConfig.min_total_fees (PolicyHolder.config (Admin.policy s)) = 1000.
Proof.
  assert (start_verifier env (Some "policy"%string) Fs.empty = Ok started) as Hst by (vm_compute; reflexivity).
  set (s1 := Admin.with_throttle [0] admin). exists (apply_policy_finish (fees 1000) policy s1).2.
  destruct (policy_in_force_valid error env (Some "policy"%string) Fs.empty started
    (apply_policy_finish (fees 1000) policy s1).2 [] Hst) as [Hs Hh].
  - eapply star_step; [apply (step_begin error 0 (fees 1000) admin [] policy s1); [cbn; unfold in_range, uint; repeat split; try done; lia|reflexivity]|].
    eapply star_step; [apply (step_finish error s1 [] (fees 1000) policy [])|apply star_refl].
  - split; [exact Hs|]. split; [exact Hh|]. vm_compute. reflexivity.
Defined.

Definition disk : Disk.t := Disk.mk [lit "set"; lit "tings"] None None.
Definition save : SaveSettingsReq.t :=
  SaveSettingsReq.mk (Some "warn"%string) None (Some "http://127.0.0.1:8082/mempool"%string).

Lemma saved_settings_read_back_witness :
  match save_settings 1 0 (Logging.mk (fun _ => true) true) disk save admin with
  | (a, s') => a = AnsSaved /\ current_config (Admin.fs s') = settings
  end.
Proof.
  destruct (save_settings 1 0 (Logging.mk (fun _ => true) true) disk save admin) as [a s'] eqn:E.
  assert (a = AnsSaved) as -> by (vm_compute in E; by injection E as <- _). split; [reflexivity|].
  destruct (saved_settings_read_back 1 0 (Logging.mk (fun _ => true) true) disk save admin AnsSaved s') as [Hc _].
  - exact fs_ok_empty.
  - intros text Ht. vm_compute in Ht. injection Ht as <-. vm_compute. reflexivity.
  - exact E.
  - rewrite Hc. vm_compute. reflexivity.
Defined.

(** Two policy changes read the same policy; both are answered with success, and the first is undone by
    the second. *)
Theorem concurrent_apply_loses_update : exists base s1 s2,
  apply_policy_begin 0 admin = (Some base, s1) /\ apply_policy_begin 1 s1 = (Some base, s2) /\
  let '(a1, s3) := apply_policy_finish (fees 1000) base s2 in
  let '(a2, s4) := apply_policy_finish (count 500) base s3 in
  a1 = AnsOk /\ a2 = AnsOk /\ PolicyConfig.min_total_fees (PolicyHolder.config (Admin.policy s3)) = 1000 /\
  PolicyConfig.max_tx_count (PolicyHolder.config (Admin.policy s4)) = 500 /\
  PolicyConfig.min_total_fees (PolicyHolder.config (Admin.policy s4)) = 0.
Proof.
  do 3 eexists. split; [reflexivity|]. split; [reflexivity|]. vm_compute. repeat split.
Qed.

(** An error message with a two-byte character at byte 200 makes the handler panic. *)
Theorem long_error_panics : sanitize (replicate 199 x61 ++ [xc3; xa9]) = Panics.
Proof. vm_compute. reflexivity. Qed.
End AdminSample.
