(* ===== verification/VerdictCsv.v ===== *)
(** * The verdict log as CSV

    Models [get_verdicts_csv] of [services/pool-verifier/src/handlers.rs]. The reader it is held against
    is the grammar of RFC 4180: cells separated by commas, rows ended by a line feed, a cell in quotes
    may hold anything with its quotes doubled. *)

From stdpp Require Import pretty.
From S2P Require Import Prelude Crates Protocol Consensus Mempool Policy VerifierStream VerdictLog Ingress License.

Definition comma : byte := x2c.
Definition quote : byte := x22.
Definition semicolon : byte := x3b.

(** ** Writing *)

(** [replace] of each quote by two. *)
Definition escape (s : bytes) : bytes := s ≫= fun b => if bool_decide (b = quote) then [quote; quote] else [b].
Definition quoted (s : bytes) : bytes := quote :: s ++ [quote].

(** The separators between cells and the line end. *)
Fixpoint join_cells (cells : list bytes) : bytes :=
  match cells with
  | [] => []
  | [c] => c ++ [newline]
  | c :: cells => c ++ comma :: join_cells cells
  end.

(** [join] with semicolons. *)
Fixpoint join_warnings (ws : list bytes) : bytes :=
  match ws with [] => [] | [w] => w | w :: ws => w ++ semicolon :: join_warnings ws end.

Definition num (z : Z) : bytes := lit (pretty z).
(** [map(to_string).unwrap_or_default()]. *)
Definition opt_num (o : option Z) : bytes := match o with Some z => num z | None => [] end.

(** The texts of a row, before quoting. *)
Module Row.
Record t : Type := mk {
  reason_code : bytes; reason_detail : bytes; reason : bytes; warnings : bytes; second_chance : bytes;
  still_absent : bytes }.
Definition texts (v : LoggedVerdict.t) : t :=
  mk (lit (unwrap_or (LoggedVerdict.reason_code v) (if LoggedVerdict.accepted v then "ok" else "")%string))
     (lit (unwrap_or (LoggedVerdict.reason_detail v) ""%string))
     (lit (unwrap_or (LoggedVerdict.reason v) "ok"%string))
     (join_warnings (lit <$> LoggedVerdict.safety_warnings v))
     (match LoggedVerdict.mempool_adjudication v with Some a => lit (MempoolAdjudicationRecord.outcome a) | None => [] end)
     (match LoggedVerdict.mempool_adjudication v with Some a => num (MempoolAdjudicationRecord.still_absent a) | None => [] end).
End Row.

Definition csv_row (v : LoggedVerdict.t) : bytes :=
  let r := Row.texts v in
  join_cells
    [num (LoggedVerdict.log_id v); num (LoggedVerdict.template_id v); num (LoggedVerdict.height v);
     num (LoggedVerdict.total_fees v); num (LoggedVerdict.tx_count v); lit (bool_str (LoggedVerdict.accepted v));
     lit (LoggedVerdict.fee_tier v); lit (LoggedVerdict.tier_source v); num (LoggedVerdict.min_avg_fee_used v);
     num (LoggedVerdict.avg_fee_sats_per_tx v); quoted (escape (Row.reason_code r)); quoted (escape (Row.reason_detail r));
     quoted (escape (Row.reason r)); num (LoggedVerdict.timestamp v); opt_num (LoggedVerdict.template_weight v);
     opt_num (LoggedVerdict.total_sigops v); opt_num (LoggedVerdict.coinbase_sigops v);
     opt_num (LoggedVerdict.created_at_unix_ms v); quoted (Row.warnings r); Row.second_chance r; Row.still_absent r].

Definition CSV_COLUMNS : list string :=
  ["log_id"; "template_id"; "height"; "total_fees"; "tx_count"; "accepted"; "fee_tier"; "tier_source"; "min_avg_fee_used";
   "avg_fee_sats_per_tx"; "reason_code"; "reason_detail"; "reason"; "timestamp"; "template_weight"; "total_sigops";
   "coinbase_sigops"; "created_at_unix_ms"; "safety_warnings"; "second_chance"; "second_chance_still_absent"].
Definition csv_header : bytes := join_cells (lit <$> CSV_COLUMNS).

(** The rows that are served. *)
Definition csv_tail (limit : option Z) (log : list LoggedVerdict.t) : list LoggedVerdict.t :=
  let limit := Z.min (unwrap_or limit 1000) 10000 in
  drop (Z.to_nat (saturating_sub (lenZ log) limit)) log.

Definition get_verdicts_csv (limit : option Z) (log : list LoggedVerdict.t) : bytes :=
  csv_header ++ mjoin (csv_row <$> csv_tail limit log).

(** ** Reading *)

Inductive place : Type := CellStart | InPlain | InQuotes | AfterQuote.

(** The cell and the row being read are kept in order; rows that are complete come out. *)
Fixpoint csv_read (at_ : place) (cell : bytes) (row : list bytes) (s : bytes) : option (list (list bytes)) :=
  match s with
  | [] => match at_, row with CellStart, [] => Some [] | _, _ => None end
  | b :: s =>
      let end_cell := csv_read CellStart [] (row ++ [cell]) s in
      let end_row := rows ← csv_read CellStart [] [] s; Some ((row ++ [cell]) :: rows) in
      match at_ with
      | InQuotes =>
          if bool_decide (b = quote) then csv_read AfterQuote cell row s
          else csv_read InQuotes (cell ++ [b]) row s
      | AfterQuote =>
          if bool_decide (b = quote) then csv_read InQuotes (cell ++ [quote]) row s
          else if bool_decide (b = comma) then end_cell
          else if bool_decide (b = newline) then end_row
          else None
      | _ =>
          if bool_decide (b = comma) then end_cell
          else if bool_decide (b = newline) then end_row
          else if bool_decide (b = quote) then (if match at_ with CellStart => true | _ => false end
                                               then csv_read InQuotes cell row s else None)
          else csv_read InPlain (cell ++ [b]) row s
      end
  end.

(** * Properties *)

(** A cell that needs no quotes. *)
Definition plain (s : bytes) : Prop := comma ∉ s /\ quote ∉ s /\ newline ∉ s.

(** What a row says, cell by cell. *)
Definition csv_fields (v : LoggedVerdict.t) : list bytes :=
  let r := Row.texts v in
  [num (LoggedVerdict.log_id v); num (LoggedVerdict.template_id v); num (LoggedVerdict.height v);
   num (LoggedVerdict.total_fees v); num (LoggedVerdict.tx_count v); lit (bool_str (LoggedVerdict.accepted v));
   lit (LoggedVerdict.fee_tier v); lit (LoggedVerdict.tier_source v); num (LoggedVerdict.min_avg_fee_used v);
   num (LoggedVerdict.avg_fee_sats_per_tx v); Row.reason_code r; Row.reason_detail r; Row.reason r;
   num (LoggedVerdict.timestamp v); opt_num (LoggedVerdict.template_weight v); opt_num (LoggedVerdict.total_sigops v);
   opt_num (LoggedVerdict.coinbase_sigops v); opt_num (LoggedVerdict.created_at_unix_ms v); Row.warnings r;
   Row.second_chance r; Row.still_absent r].

(** The texts of a record that go out unquoted or unescaped. *)
Definition clean (v : LoggedVerdict.t) : Prop :=
  plain (lit (LoggedVerdict.fee_tier v)) /\ plain (lit (LoggedVerdict.tier_source v)) /\
  quote ∉ Row.warnings (Row.texts v) /\ plain (Row.second_chance (Row.texts v)).

(** [written] is how a cell with content [c] stands in the text: up to the separator it is read as [c]. *)
Definition reads_as (written c : bytes) : Prop :=
  forall row s b, b = comma \/ b = newline ->
    csv_read CellStart [] row (written ++ b :: s) =
      if bool_decide (b = comma) then csv_read CellStart [] (row ++ [c]) s
      else rows ← csv_read CellStart [] [] s; Some ((row ++ [c]) :: rows).

Lemma reads_plain c : plain c -> reads_as c c.
Proof.
  intros (Hc & Hq & Hn) row s b Hb.
  assert (forall c cell, comma ∉ c -> quote ∉ c -> newline ∉ c -> csv_read InPlain cell row (c ++ b :: s) =
    if bool_decide (b = comma) then csv_read CellStart [] (row ++ [cell ++ c]) s
    else rows ← csv_read CellStart [] [] s; Some ((row ++ [cell ++ c]) :: rows)) as Hin.
  { clear Hc Hq Hn c. intros c. induction c as [|x c IH]; intros cell Hc Hq Hn; cbn [app csv_read].
    - rewrite app_nil_r. destruct Hb as [-> | ->]; done.
    - apply not_elem_of_cons in Hc as [Hc Hc'], Hq as [Hq Hq'], Hn as [Hn Hn'].
      rewrite !bool_decide_false by done. rewrite IH by done. by rewrite <-app_assoc. }
  destruct c as [|x c]; cbn [app csv_read]; [by destruct Hb as [-> | ->]|].
  apply not_elem_of_cons in Hc as [Hc Hc'], Hq as [Hq Hq'], Hn as [Hn Hn'].
  rewrite !bool_decide_false by done. by rewrite Hin.
Qed.

Lemma reads_quoted c : reads_as (quoted (escape c)) c.
Proof.
  intros row s b Hb. unfold quoted. cbn [app csv_read]. rewrite bool_decide_false by done. rewrite bool_decide_false by done.
  rewrite bool_decide_true by done. cbv beta iota.
  assert (forall c cell, csv_read InQuotes cell row ((escape c ++ [quote]) ++ b :: s) =
    if bool_decide (b = comma) then csv_read CellStart [] (row ++ [cell ++ c]) s
    else rows ← csv_read CellStart [] [] s; Some ((row ++ [cell ++ c]) :: rows)) as Hin.
  { clear c. intros c. induction c as [|x c IH]; intros cell.
    - cbn [escape mbind list_bind app csv_read]. rewrite bool_decide_true by done. rewrite app_nil_r. by destruct Hb as [-> | ->].
    - unfold escape. cbn [mbind list_bind]. fold (escape c). destruct (decide (x = quote)) as [->|Hx].
      + rewrite (bool_decide_true (quote = quote)) by done. cbn [app csv_read]. rewrite !(bool_decide_true (quote = quote)) by done.
        rewrite IH. by rewrite <-app_assoc.
      + rewrite (bool_decide_false (x = quote)) by done. cbn [app csv_read]. rewrite bool_decide_false by done.
        rewrite IH. by rewrite <-app_assoc. }
  apply (Hin c []).
Qed.

Lemma escape_clean c : quote ∉ c -> escape c = c.
Proof.
  induction c as [|x c IH]; [done|]. intros [Hx Hc]%not_elem_of_cons. unfold escape. cbn [mbind list_bind].
  rewrite bool_decide_false by done. fold (escape c). by rewrite IH.
Qed.

(** A row of cells is read as their contents. *)
Lemma reads_row written cells : Forall2 reads_as written cells -> written <> [] -> forall row s,
  csv_read CellStart [] row (join_cells written ++ s) = rows ← csv_read CellStart [] [] s; Some ((row ++ cells) :: rows).
Proof.
  intros Hf. induction Hf as [|w c written cells Hw Hf IH]; [done|]. intros _ row s.
  destruct written as [|w' written].
  - apply Forall2_nil_inv_l in Hf as ->. cbn [join_cells]. rewrite <-app_assoc. cbn [app]. by rewrite Hw by (by right).
  - change (join_cells (w :: w' :: written)) with (w ++ comma :: join_cells (w' :: written)).
    rewrite <-app_assoc. cbn [app]. rewrite Hw by (by left). rewrite bool_decide_true by done. rewrite IH by done.
    by rewrite <-app_assoc.
Qed.

(** ** The plain cells *)

#[global] Instance plain_dec s : Decision (plain s).
Proof. unfold plain. apply _. Defined.

Lemma plain_nil : plain [].
Proof. apply (bool_decide_unpack _). vm_compute. exact I. Qed.

Lemma plain_cons b s : plain [b] -> plain s -> plain (b :: s).
Proof. unfold plain. set_solver. Qed.

Lemma plain_digits x : forall s, plain (lit s) -> plain (lit (pretty_N_go x s)).
Proof.
  induction (N.lt_wf_0 x) as [x _ IH]; intros s Hs. assert (x = 0 \/ 0 < x)%N as [->|Hx] by lia; [by rewrite pretty_N_go_0|].
  rewrite pretty_N_go_step by done. apply IH; [by apply N.div_lt|].
  change (lit (String ?c s)) with (Ascii.byte_of_ascii c :: lit s). apply plain_cons; [|done].
  unfold pretty_N_char. repeat case_match; apply (bool_decide_unpack _); vm_compute; exact I.
Qed.

Lemma plain_N n : plain (lit (pretty (n : N))).
Proof. unfold pretty, pretty_N. case_decide; [apply (bool_decide_unpack _); vm_compute; exact I|]. apply plain_digits, plain_nil. Qed.

Lemma plain_num z : plain (num z).
Proof.
  unfold num. destruct z as [|p|p].
  - apply (bool_decide_unpack _). vm_compute. exact I.
  - apply (plain_N (Npos p)).
  - change (lit (pretty (Z.neg p))) with (x2d :: lit (pretty (Npos p))).
    apply plain_cons; [apply (bool_decide_unpack _); vm_compute; exact I|apply plain_N].
Qed.

Lemma plain_opt_num o : plain (opt_num o).
Proof. destruct o; [apply plain_num|apply plain_nil]. Qed.

#[local] Hint Resolve reads_plain reads_quoted plain_num plain_opt_num plain_nil : rg.

Lemma csv_row_reads v : clean v -> forall s,
  csv_read CellStart [] [] (csv_row v ++ s) = rows ← csv_read CellStart [] [] s; Some (csv_fields v :: rows).
Proof.
  intros (Ht & Hsrc & Hw & Hsc) s. unfold csv_row. cbv zeta. apply (reads_row _ (csv_fields v)); [|done].
  assert (plain (Row.still_absent (Row.texts v))) as Habs.
  { cbn. destruct (LoggedVerdict.mempool_adjudication v); auto with rg. }
  assert (plain (lit (bool_str (LoggedVerdict.accepted v)))) as Hb.
  { destruct (LoggedVerdict.accepted v); apply (bool_decide_unpack _); vm_compute; exact I. }
  unfold csv_fields. cbv zeta. repeat constructor; auto with rg.
  rewrite <-(escape_clean (Row.warnings (Row.texts v))) at 1 by done. apply reads_quoted.
Qed.

(** The export is lossless: an RFC 4180 reader gets the header and, for each of the last records up to
    the limit, its cells as they are in the record, whatever commas, quotes and line ends the texts of
    the rejection hold. *)
Theorem csv_round_trip limit log : Forall clean log ->
  csv_read CellStart [] [] (get_verdicts_csv limit log) = Some ((lit <$> CSV_COLUMNS) :: (csv_fields <$> csv_tail limit log)).
Proof.
  intros Hc. unfold get_verdicts_csv, csv_header. rewrite (reads_row _ (lit <$> CSV_COLUMNS)).
  - assert (forall l, Forall clean l -> csv_read CellStart [] [] (mjoin (csv_row <$> l)) = Some (csv_fields <$> l)) as ->; [|done|].
    { intros l Hl. induction Hl as [|v l Hv Hl IH]; [done|].
      change (mjoin (csv_row <$> v :: l)) with (csv_row v ++ mjoin (csv_row <$> l)). rewrite (csv_row_reads v Hv). by rewrite IH. }
    unfold csv_tail. cbv zeta. by apply Forall_drop.
  - apply Forall_Forall2_diag, Forall_forall. intros c Hin. apply reads_plain. revert c Hin. apply Forall_forall.
    apply (bool_decide_unpack _). vm_compute. exact I.
  - done.
Qed.

(** ** The records of the verifier are clean *)

Lemma warnings_clean ws : Forall (fun w => quote ∉ w) ws -> quote ∉ join_warnings ws.
Proof.
  induction 1 as [|w ws Hw Hws IH]; [by apply not_elem_of_nil|]. destruct ws as [|w' ws]; [done|].
  change (join_warnings (w :: w' :: ws)) with (w ++ semicolon :: join_warnings (w' :: ws)).
  rewrite elem_of_app, elem_of_cons. by intros [?|[?|?]].
Qed.

Lemma reason_no_quote r : quote ∉ lit (VerdictReason_as_str r).
Proof. destruct r; apply (bool_decide_unpack _); vm_compute; exact I. Qed.

Ltac plain_text := apply (bool_decide_unpack _); vm_compute; exact I.

(** Every record the ingress makes is clean, so that the export of a log it filled is lossless. *)
Theorem ingress_records_clean `{HexCrate} log_id env mempool_tx eval second_chance propose :
  clean (record_of log_id env mempool_tx eval second_chance propose) /\ clean (poisoned_record log_id env propose).
Proof.
  split; unfold clean, record_of, poisoned_record; cbn [LoggedVerdict.fee_tier LoggedVerdict.tier_source Row.texts Row.warnings
    Row.second_chance LoggedVerdict.safety_warnings LoggedVerdict.mempool_adjudication].
  - split_and!.
    + destruct (EvalResult.fee_tier eval); plain_text.
    + destruct mempool_tx; plain_text.
    + apply warnings_clean. rewrite !Forall_fmap. apply Forall_true. intros w. apply reason_no_quote.
    + destruct second_chance as [[]|]; cbn; plain_text.
  - split_and!; plain_text.
Qed.

Module VerdictCsvSample.
(** A rejection whose message has a comma, a quote and a line end. *)
Definition rejection : LoggedVerdict.t :=
  LoggedVerdict.mk 7 12 840000 100 2 false (Some "avg_fee_below_minimum"%string) (Some "avg_fee_below_minimum"%string)
    (Some (String.string_of_list_byte (lit "a, " ++ [quote; newline; quote] ++ lit " b"))) 1700000000 500 "mid" "measured" 50
    (Some 4000) None None None ["sigops_budget_warning"%string] None.

Lemma csv_round_trip_witness :
  csv_read CellStart [] [] (get_verdicts_csv (Some 1) [rejection; rejection]) =
    Some [lit <$> CSV_COLUMNS; csv_fields rejection].
Proof.
  rewrite (csv_round_trip (Some 1) [rejection; rejection]); [vm_compute; reflexivity|].
  assert (clean rejection) as Hc by (unfold clean; split_and!; plain_text).
  constructor; [exact Hc|]. constructor; [exact Hc|constructor].
Defined.
End VerdictCsvSample.
