(* ===== verification/NetAddr.v ===== *)
(** * Addresses as text

    Models [is_loopback_addr] of [services/sv2-gateway/src/config.rs] and what it uses of the standard
    library: the parsers of [SocketAddr] and [IpAddr], byte for byte. A reader returns what it read and
    what is left; [None] leaves the position where it was. *)

From S2P Require Import Prelude License.

Inductive IpAddr : Type := V4 (octets : list Z) | V6 (groups : list Z).

Definition reader (A : Type) : Type := bytes -> option (A * bytes).

(** [char::to_digit]. *)
Definition to_digit (radix : Z) (b : byte) : option Z :=
  let n := byte_to_Z b in
  let d := if (48 <=? n) && (n <=? 57) then n - 48
           else if (97 <=? n) && (n <=? 122) then n - 87
           else if (65 <=? n) && (n <=? 90) then n - 55 else 36 in
  if d <? radix then Some d else None.

Definition read_given_char (target : byte) : reader unit :=
  fun s => match s with b :: s => if bool_decide (b = target) then Some (tt, s) else None | [] => None end.

Definition read_separator {A} (sep : byte) (index : nat) (inner : reader A) : reader A :=
  fun s => match index with
           | O => inner s
           | S _ => match read_given_char sep s with Some (_, s) => inner s | None => None end
           end.

(** The loop over the digits: the value and the number of digits. *)
Fixpoint number_loop (radix : Z) (over : Z -> nat -> bool) (s : bytes) (result : Z) (count : nat)
    : option (Z * nat * bytes) :=
  match s with
  | b :: rest =>
      match to_digit radix b with
      | Some d =>
          let result := result * radix + d in
          if over result (S count) then None else number_loop radix over rest result (S count)
      | None => Some (result, count, s)
      end
  | [] => Some (result, count, s)
  end.

(** [read_number]: with a limit on the digits the value is checked at the end, without one at every
    digit. *)
Definition read_number (radix max : Z) (max_digits : option nat) (allow_zero_prefix : bool) : reader Z :=
  fun s =>
    let has_leading_zero := match s with b :: _ => bool_decide (b = x30) | [] => false end in
    let over result count :=
      match max_digits with Some m => (m <? count)%nat | None => result >? max end in
    match number_loop radix over s 0 0 with
    | Some (result, count, rest) =>
        if (count =? 0)%nat then None
        else if negb allow_zero_prefix && has_leading_zero && (1 <? count)%nat then None
        else if result >? max then None else Some (result, rest)
    | None => None
    end.

(** [n] groups with the separator between them, from group [i] on. *)
Fixpoint read_octets (n i : nat) : reader (list Z) :=
  fun s => match n with
           | O => Some ([], s)
           | S n =>
               match read_separator x2e i (read_number 10 255 (Some 3%nat) false) s with
               | Some (o, s) => match read_octets n (S i) s with Some (os, s) => Some (o :: os, s) | None => None end
               | None => None
               end
           end.
Definition read_ipv4_addr : reader (list Z) := read_octets 4 0.

(** [read_groups] with [n] places left of [i + n]: the groups, whether the last two are an IPv4 address,
    and what is left. *)
Fixpoint read_groups (n i : nat) (s : bytes) : list Z * bool * bytes :=
  match n with
  | O => ([], false, s)
  | S n =>
      let ipv4 := if (0 <? n)%nat then read_separator x3a i read_ipv4_addr s else None in
      match ipv4 with
      | Some ([one; two; three; four], s) => ([one * 256 + two; three * 256 + four], true, s)
      | _ =>
          match read_separator x3a i (read_number 16 65535 (Some 4%nat) true) s with
          | Some (g, s) => let '(gs, v4, s) := read_groups n (S i) s in (g :: gs, v4, s)
          | None => ([], false, s)
          end
      end
  end.

Definition read_ipv6_addr : reader (list Z) :=
  fun s =>
    let '(head, head_ipv4, s) := read_groups 8 0 s in
    if (length head =? 8)%nat then Some (head, s)
    else if head_ipv4 then None
    else match read_given_char x3a s with
         | Some (_, s) =>
             match read_given_char x3a s with
             | Some (_, s) =>
                 let '(tail, _, s) := read_groups (8 - (length head + 1)) 0 s in
                 Some (head ++ replicate (8 - length head - length tail) 0 ++ tail, s)
             | None => None
             end
         | None => None
         end.

Definition read_ip_addr : reader IpAddr :=
  fun s => match read_ipv4_addr s with
           | Some (o, s) => Some (V4 o, s)
           | None => match read_ipv6_addr s with Some (g, s) => Some (V6 g, s) | None => None end
           end.

Definition read_port : reader Z :=
  fun s => match read_given_char x3a s with Some (_, s) => read_number 10 65535 None true s | None => None end.
Definition read_scope_id : reader Z :=
  fun s => match read_given_char x25 s with Some (_, s) => read_number 10 (2 ^ 32 - 1) None true s | None => None end.

Definition read_socket_addr_v4 : reader IpAddr :=
  fun s => match read_ipv4_addr s with
           | Some (o, s) => match read_port s with Some (_, s) => Some (V4 o, s) | None => None end
           | None => None
           end.
Definition read_socket_addr_v6 : reader IpAddr :=
  fun s => match read_given_char x5b s with
           | Some (_, s) =>
               match read_ipv6_addr s with
               | Some (g, s) =>
                   let s := match read_scope_id s with Some (_, s) => s | None => s end in
                   match read_given_char x5d s with
                   | Some (_, s) => match read_port s with Some (_, s) => Some (V6 g, s) | None => None end
                   | None => None
                   end
               | None => None
               end
           | None => None
           end.
(** The address of a [SocketAddr]. *)
Definition read_socket_addr : reader IpAddr :=
  fun s => match read_socket_addr_v4 s with Some r => Some r | None => read_socket_addr_v6 s end.

(** [parse_with]: nothing may be left. *)
Definition parse_with {A} (r : reader A) (s : bytes) : option A :=
  match r s with Some (a, []) => Some a | _ => None end.

Definition is_loopback (ip : IpAddr) : bool :=
  match ip with
  | V4 (o :: _) => o =? 127
  | V4 [] => false
  | V6 g => bool_decide (g = [0; 0; 0; 0; 0; 0; 0; 1])
  end.

(** [rsplit_once(':')], the part before the last colon. *)
Fixpoint before_last_colon (s : bytes) : option bytes :=
  match s with
  | [] => None
  | b :: s =>
      match before_last_colon s with
      | Some h => Some (b :: h)
      | None => if bool_decide (b = x3a) then Some [] else None
      end
  end.

Definition is_loopback_addr (addr : bytes) : bool :=
  match parse_with read_socket_addr addr with
  | Some ip => is_loopback ip
  | None =>
      match parse_with read_ip_addr addr with
      | Some ip => is_loopback ip
      | None =>
          let host := match addr with
                      | x5b :: _ => addr
                      | _ => unwrap_or (before_last_colon addr) addr
                      end in
          bool_decide (host = lit "localhost")
      end
  end.

Example loopback_forms :
  forallb (fun s => is_loopback_addr (lit s))
    ["127.0.0.1:9100"; "127.5.6.7"; "[::1]:9100"; "::1"; "[::1%3]:80"; "0:0::1"; "localhost"; "localhost:x"; "::0.0.0.1"]%string = true /\
  existsb (fun s => is_loopback_addr (lit s))
    ["128.0.0.1:9100"; "0127.0.0.1"; "[::1]"; "::1:9100"; "::ffff:127.0.0.1"; "127.0.0.1:99999"; "127.0.0"; "[localhost]:1";
     "localhost.evil:1"; ""; "127.0.0.1 "; "1:2:3:4:5:6:7:8:9"]%string = false.
Proof. by vm_compute. Qed.

(** * Properties *)

(** ** Numbers are read back *)

(** [Display] of an unsigned integer. *)
Fixpoint dec_go (fuel : nat) (n : Z) (acc : list Z) : list Z :=
  match fuel with
  | O => acc
  | S fuel => if n <? 10 then n :: acc else dec_go fuel (n / 10) (n mod 10 :: acc)
  end.
Definition digit_char (d : Z) : byte := Z_to_byte (48 + d).
Definition dec (n : Z) : bytes := digit_char <$> dec_go 10 n [].

Definition value (r : Z) (ds : list Z) : Z := foldl (fun r d => r * 10 + d) r ds.

Abbreviation is_digit := (fun d : Z => 0 <= d < 10).

Lemma to_digit_char d : is_digit d -> to_digit 10 (digit_char d) = Some d.
Proof.
  cbv beta. intros Hd. unfold to_digit, digit_char. rewrite byte_to_Z_to_byte. rewrite Z.mod_small by lia. cbv zeta.
  assert ((48 <=? 48 + d) && (48 + d <=? 57) = true) as -> by (apply andb_true_intro; lia).
  assert (48 + d - 48 <? 10 = true) as -> by lia. f_equal. lia.
Qed.

Lemma dec_go_digits fuel : forall n acc, 0 <= n -> Forall is_digit acc -> Forall is_digit (dec_go fuel n acc).
Proof.
  induction fuel as [|fuel IH]; intros n acc Hn Ha; [done|]. cbn [dec_go]. case_if; z_bool; [by constructor|].
  apply IH; [apply Z.div_pos; lia|]. constructor; [apply Z.mod_pos_bound; lia|done].
Qed.

Lemma dec_go_value fuel : forall n acc, 0 <= n < 10 ^ Z.of_nat fuel -> value 0 (dec_go fuel n acc) = value n acc.
Proof.
  induction fuel as [|fuel IH]; intros n acc Hn; [change (10 ^ Z.of_nat 0) with 1 in Hn; replace n with 0 by lia; done|].
  cbn [dec_go]. case_if; z_bool; [done|]. rewrite IH.
  - cbn. f_equal. pose proof (Z.div_mod n 10). lia.
  - rewrite Nat2Z.inj_succ, Z.pow_succ_r in Hn by lia. split; [apply Z.div_pos; lia|]. apply Z.div_lt_upper_bound; lia.
Qed.

Lemma value_grows r ds : 0 <= r -> Forall is_digit ds -> r <= value r ds.
Proof.
  intros Hr Hd. revert r Hr. induction Hd as [|d ds Hd Hds IH]; intros r Hr; [done|]. cbv beta in Hd. cbn.
  transitivity (r * 10 + d); [lia|]. apply IH. lia.
Qed.

Definition stops (s : bytes) : Prop := match s with b :: _ => to_digit 10 b = None | [] => True end.

Lemma number_loop_digits over ds rest : Forall is_digit ds -> stops rest -> forall r c,
  (forall pre post, ds = pre ++ post -> pre <> [] -> over (value r pre) (c + length pre)%nat = false) ->
  number_loop 10 over ((digit_char <$> ds) ++ rest) r c = Some (value r ds, (c + length ds)%nat, rest).
Proof.
  intros Hd Hs. induction Hd as [|d ds Hd Hds IH]; intros r c Ho.
  - rewrite Nat.add_0_r. destruct rest as [|b rest]; [done|]. cbn in *. by rewrite Hs.
  - cbn [fmap list_fmap app number_loop]. rewrite to_digit_char by done. cbv zeta.
    pose proof (Ho [d] ds eq_refl ltac:(done)) as H1. cbn in H1. rewrite Nat.add_1_r in H1. rewrite H1.
    rewrite IH; [cbn; repeat f_equal; lia|]. intros pre post -> Hne.
    specialize (Ho (d :: pre) post eq_refl ltac:(done)). cbn in Ho. by rewrite Nat.add_succ_r in Ho.
Qed.

Definition octet (n : Z) : Prop := 0 <= n < 256.

(** At most three digits, and no zero in front of another digit. *)
Lemma dec_octet n : octet n -> (length (dec_go 10 n []) <= 3)%nat /\
  (match dec n with b :: _ => bool_decide (b = x30) | [] => false end && (1 <? length (dec_go 10 n []))%nat) = false.
Proof.
  intros Hn. set (ok := fun n => (length (dec_go 10 n []) <=? 3)%nat &&
    negb (match dec n with b :: _ => bool_decide (b = x30) | [] => false end && (1 <? length (dec_go 10 n []))%nat)).
  assert (forallb ok (Z.of_nat <$> seq 0 256) = true) as Hall by (vm_compute; reflexivity).
  rewrite forallb_forall in Hall. specialize (Hall n). unfold ok in Hall.
  assert (In n (Z.of_nat <$> seq 0 256)) as Hin.
  { apply list_elem_of_In, list_elem_of_fmap. exists (Z.to_nat n). split; [unfold octet in Hn; lia|]. apply elem_of_seq. unfold octet in Hn. lia. }
  apply Hall, andb_prop in Hin as [H1 H2]. split; [by apply Nat.leb_le|]. by destruct (_ && _) in H2 |- *.
Qed.

Lemma dec_go_nonempty fuel : forall n acc, (0 < fuel)%nat -> (0 < length (dec_go fuel n acc))%nat.
Proof.
  assert (forall f n acc, (length acc <= length (dec_go f n acc))%nat) as Hg.
  { induction f as [|f IH]; intros n acc; [done|]. cbn [dec_go]. case_if; [cbn; lia|]. pose proof (IH (n / 10) (n mod 10 :: acc)). cbn in *. lia. }
  destruct fuel as [|fuel]; [lia|]. intros n acc _. cbn [dec_go]. case_if; [cbn; lia|].
  pose proof (Hg fuel (n / 10) (n mod 10 :: acc)). cbn in *. lia.
Qed.

Lemma read_octet n rest : octet n -> stops rest -> read_number 10 255 (Some 3%nat) false (dec n ++ rest) = Some (n, rest).
Proof.
  intros Hn Hs. destruct (dec_octet n Hn) as [Hl Hz]. pose proof (dec_go_nonempty 10 n [] ltac:(lia)) as Hne.
  unfold read_number. cbv zeta. unfold dec in *. unfold octet in Hn.
  rewrite number_loop_digits; [|apply dec_go_digits; [lia|done]|done|].
  - rewrite dec_go_value by lia. cbn [plus]. assert ((length (dec_go 10 n []) =? 0)%nat = false) as -> by (apply Nat.eqb_neq; lia).
    assert (match (digit_char <$> dec_go 10 n []) ++ rest with b :: _ => bool_decide (b = x30) | [] => false end =
      match digit_char <$> dec_go 10 n [] with b :: _ => bool_decide (b = x30) | [] => false end) as ->.
    { destruct (dec_go 10 n []); [cbn in Hne; lia|done]. }
    cbn [negb andb]. rewrite Hz. change (value n []) with n. assert (n >? 255 = false) as -> by lia. done.
  - intros pre post E _. apply Nat.ltb_ge. apply (f_equal length) in E. rewrite length_app in E. lia.
Qed.

Lemma read_dec_port p : 0 <= p < 65536 -> read_port (x3a :: dec p) = Some (p, []).
Proof.
  intros Hp. unfold read_port, read_given_char. rewrite bool_decide_eq_true_2 by done. unfold read_number. cbv zeta.
  rewrite <-(app_nil_r (dec p)). unfold dec. pose proof (dec_go_nonempty 10 p [] ltac:(lia)) as Hne.
  assert (Forall is_digit (dec_go 10 p [])) as Hd by (apply dec_go_digits; [lia|done]).
  rewrite number_loop_digits; [|done|done|].
  - rewrite dec_go_value by lia. cbn [plus]. assert ((length (dec_go 10 p []) =? 0)%nat = false) as -> by (apply Nat.eqb_neq; lia).
    cbn [negb andb]. change (value p []) with p. assert (p >? 65535 = false) as -> by lia. done.
  - intros pre post E _. pose proof (dec_go_value 10 p [] ltac:(lia)) as Hv. rewrite E in Hv, Hd. unfold value in Hv. rewrite foldl_app in Hv.
    apply Forall_app in Hd as [Hpre Hpost]. pose proof (value_grows 0 pre ltac:(lia) Hpre). unfold value in *.
    pose proof (value_grows (foldl (fun r d => r * 10 + d) 0 pre) post ltac:(lia) Hpost) as Hg. unfold value in Hg. cbn in Hv. lia.
Qed.

(** ** IPv4 addresses *)

(** [Display] of an IPv4 address. *)
Definition show_v4 (a b c d : Z) : bytes := dec a ++ x2e :: dec b ++ x2e :: dec c ++ x2e :: dec d.

Lemma read_v4 a b c d rest : octet a -> octet b -> octet c -> octet d -> stops rest ->
  read_ipv4_addr (show_v4 a b c d ++ rest) = Some ([a; b; c; d], rest).
Proof.
  intros Ha Hb Hc Hd Hs. unfold read_ipv4_addr, show_v4.
  assert (forall t, stops (x2e :: t)) as Hdot by reflexivity.
  repeat (rewrite <-app_assoc || rewrite <-app_comm_cons).
  cbn [read_octets read_separator]. rewrite read_octet by done.
  repeat (cbn [read_octets read_separator read_given_char]; rewrite bool_decide_eq_true_2 by done; rewrite read_octet by done). done.
Qed.

(** An IPv4 address in its usual form, with or without a port, is loopback exactly when it is in
    127.0.0.0/8. *)
Lemma v4_loopback a b c d p : octet a -> octet b -> octet c -> octet d -> 0 <= p < 65536 ->
  is_loopback_addr (show_v4 a b c d) = (a =? 127) /\
  is_loopback_addr (show_v4 a b c d ++ x3a :: dec p) = (a =? 127).
Proof.
  intros Ha Hb Hc Hd Hp. unfold is_loopback_addr, parse_with. split.
  - assert (read_socket_addr (show_v4 a b c d) = None) as ->.
    { unfold read_socket_addr, read_socket_addr_v4. rewrite <-(app_nil_r (show_v4 a b c d)), read_v4 by done. cbn [read_port read_given_char].
      unfold read_socket_addr_v6, show_v4, dec. pose proof (dec_go_nonempty 10 a [] ltac:(lia)) as Hne.
      assert (Forall is_digit (dec_go 10 a [])) as Hdg by (apply dec_go_digits; [unfold octet in Ha; lia|done]).
      destruct (dec_go 10 a []) as [|x l]; [cbn in Hne; lia|]. apply Forall_cons in Hdg as [Hx _]. cbn [fmap list_fmap app read_given_char].
      rewrite bool_decide_false; [done|]. intros E. apply (f_equal byte_to_Z) in E. unfold digit_char in E.
      cbv beta in Hx. rewrite byte_to_Z_to_byte in E. rewrite Z.mod_small in E by lia. change (byte_to_Z x5b) with 91 in E. lia. }
    unfold read_ip_addr. rewrite <-(app_nil_r (show_v4 a b c d)), read_v4 by done. done.
  - unfold read_socket_addr, read_socket_addr_v4. rewrite read_v4 by done. by rewrite read_dec_port.
Qed.
