(* ===== verification/GatewayConf.v ===== *)
(** * The gateway's configuration

    Models [services/sv2-gateway/src/config.rs]: the structs with their serde attributes (defaults,
    required fields, unknown keys refused) and [validate] with its parts.

    A document is a tree of TOML values as in [PolicyFile]; what serde makes of an array in the place of
    a struct or of a list, and of a table in the place of an enum, is an operation of the TOML crate.
    The environment is the map that [std::env::var] reads. Errors and warnings are kept as their kind
    with the values they report. *)

From S2P Require Import Prelude Crates Float64 Protocol Difficulty Shares Gateway Codec License PolicyFile NetAddr.

Inductive QueueDropPolicy : Type := DropNew | DropOld.
#[global] Instance QueueDropPolicy_eq_dec : EqDecision QueueDropPolicy.
Proof. solve_decision. Defined.

Module PrefixMapping.
Record t : Type := mk { prefix : string; account : string }.
End PrefixMapping.

Inductive MinerAuthMode : Type :=
| OpenAuth
| Allowlist (identities : list string)
| PrefixMap (mappings : list PrefixMapping.t).

Module GatewaySection.
Record t : Type := mk {
  listen_addr : string; health_addr : string; noise_keypair_path : string; noise_cert_path : string;
  authority_pubkey : string; max_connections : Z; max_connections_per_ip : Z; max_channels_per_conn : Z;
  channel_open_timeout_ms : Z; max_worker_id_bytes : Z; noise_cert_validity_secs : Z;
  noise_handshake_timeout_ms : Z; template_poll_interval_ms : Z; max_template_age_ms : Z;
  prevhash_verdict_timeout_ms : Z; prevhash_stale_hold_ms : Z; upstream_stale_max_ms : Z;
  upstream_failure_policy : UpstreamFailurePolicy; share_dedup_window_size : Z;
  ntime_elapsed_slack_seconds : Z; max_future_block_time_seconds : Z; miner_auth : MinerAuthMode;
  job_retention_ms : Z; channel_target_hex : option string; max_shares_per_second_per_channel : Z;
  extranonce_prefix_len : Z; extended_channels_enabled : bool; vardiff_enabled : bool;
  vardiff_target_shares_per_min : f64; vardiff_retarget_interval_secs : Z; vardiff_min_difficulty : Z;
  vardiff_max_difficulty : Z; vardiff_max_adjustment_factor : f64; noise_keypair_reload_sighup : bool;
  noise_keypair_poll_interval_secs : Z; wal_path : string; wal_compaction_threshold : Z;
  gateway_instance_id : string; template_url : string; auto_degrade : bool; auto_degrade_after_ms : Z }.

Definition FIELDS : list string :=
  ["listen_addr"; "health_addr"; "noise_keypair_path"; "noise_cert_path"; "authority_pubkey";
   "max_connections"; "max_connections_per_ip"; "max_channels_per_conn"; "channel_open_timeout_ms";
   "max_worker_id_bytes"; "noise_cert_validity_secs"; "noise_handshake_timeout_ms";
   "template_poll_interval_ms"; "max_template_age_ms"; "prevhash_verdict_timeout_ms"; "prevhash_stale_hold_ms";
   "upstream_stale_max_ms"; "upstream_failure_policy"; "share_dedup_window_size";
   "ntime_elapsed_slack_seconds"; "max_future_block_time_seconds"; "miner_auth"; "job_retention_ms";
   "channel_target_hex"; "max_shares_per_second_per_channel"; "extranonce_prefix_len";
   "extended_channels_enabled"; "vardiff_enabled"; "vardiff_target_shares_per_min";
   "vardiff_retarget_interval_secs"; "vardiff_min_difficulty"; "vardiff_max_difficulty";
   "vardiff_max_adjustment_factor"; "noise_keypair_reload_sighup"; "noise_keypair_poll_interval_secs";
   "wal_path"; "wal_compaction_threshold"; "gateway_instance_id"; "template_url"; "auto_degrade";
   "auto_degrade_after_ms"]%string.
End GatewaySection.

Module VerifierSection.
Record t : Type := mk {
  addr : string; health_probe_staleness_ms : Z; reconnect_delay_ms : Z; heartbeat_interval_ms : Z;
  tls_ca_cert : option string; tls_client_cert : option string; tls_client_key : option string;
  tls_server_name : string }.

Definition FIELDS : list string :=
  ["addr"; "health_probe_staleness_ms"; "reconnect_delay_ms"; "heartbeat_interval_ms"; "tls_ca_cert";
   "tls_client_cert"; "tls_client_key"; "tls_server_name"]%string.
End VerifierSection.

Module ShareUpstreamSection.
Record t : Type := mk {
  url : string; secret : option string; retries : Z; forward_queue_size : Z; forward_max_in_flight : Z;
  forward_queue_drop_policy : QueueDropPolicy; rate_limit_per_conn_per_sec : option Z }.

Definition FIELDS : list string :=
  ["url"; "retries"; "forward_queue_size"; "forward_max_in_flight"; "forward_queue_drop_policy";
   "rate_limit_per_conn_per_sec"]%string.
End ShareUpstreamSection.

Module Defaults.
Definition tls_server_name : string := "localhost".
Definition health_addr : string := "127.0.0.1:8080".
Definition max_connections : Z := 1024.
Definition max_connections_per_ip : Z := 16.
Definition max_channels_per_conn : Z := 256.
Definition max_worker_id_bytes : Z := 128.
Definition noise_cert_validity_secs : Z := 3600.
Definition noise_handshake_timeout_ms : Z := 5000.
Definition template_poll_interval_ms : Z := 3000.
Definition max_template_age_ms : Z := 30000.
Definition prevhash_verdict_timeout_ms : Z := 2000.
Definition prevhash_stale_hold_ms : Z := 5000.
Definition upstream_stale_max_ms : Z := 30000.
Definition upstream_failure_policy : UpstreamFailurePolicy := FailClosed.
Definition share_dedup_window_size : Z := 10000.
Definition ntime_elapsed_slack_seconds : Z := 2.
Definition max_future_block_time_seconds : Z := MAX_FUTURE_BLOCK_TIME_SECONDS.
Definition health_probe_staleness_ms : Z := 10000.
Definition verifier_reconnect_delay_ms : Z := 2000.
Definition verifier_heartbeat_interval_ms : Z := 2000.
Definition channel_open_timeout_ms : Z := 30000.
Definition share_upstream_retries : Z := 2.
Definition share_forward_queue_size : Z := 50000.
Definition share_forward_max_in_flight : Z := 256.
Definition job_retention_ms : Z := 300000.
Definition noise_keypair_reload_sighup : bool := true.
Definition wal_compaction_threshold : Z := 1000.
Definition extranonce_prefix_len : Z := 4.
Definition extended_channels_enabled : bool := true.
Definition vardiff_target_shares_per_min : f64 := f64_of_Z 20.
Definition vardiff_retarget_interval_secs : Z := 90.
Definition vardiff_min_difficulty : Z := 1.
Definition vardiff_max_difficulty : Z := u64_max.
Definition vardiff_max_adjustment_factor : f64 := f64_of_Z 4.
Definition auto_degrade : bool := true.
Definition auto_degrade_after_ms : Z := 10000.
Definition gateway_instance_id (env : gmap string string) : string :=
  match env !! "HOSTNAME"%string with
  | Some h => h
  | None => unwrap_or (env !! "VELDRA_GATEWAY_INSTANCE_ID"%string) "unknown"%string
  end.
End Defaults.

Module GatewayConfig.
Record t : Type := mk {
  mode : GatewayMode; gateway : GatewaySection.t; verifier : VerifierSection.t;
  share_upstream : option ShareUpstreamSection.t }.

Definition FIELDS : list string := ["mode"; "gateway"; "verifier"; "share_upstream"]%string.
Definition with_mode (m : GatewayMode) (c : t) : t := mk m (gateway c) (verifier c) (share_upstream c).
End GatewayConfig.

(** ** Reading the structs *)

(** What the TOML crate and serde make of values that are opaque here: the variant named by a value that
    is not a string, a list of strings or of mappings, a struct from an array. *)
Class GatewayDocs : Type := {
  variant_of_else : toml -> option string;
  strings_of_else : string -> option (list string);
  mappings_of_else : string -> option (list PrefixMapping.t);
  miner_auth_of_else : string -> option MinerAuthMode;
  gateway_of_else : gmap string string -> string -> option GatewaySection.t;
  verifier_of_else : string -> option VerifierSection.t;
  share_upstream_of_else : string -> option ShareUpstreamSection.t
}.

(** [deny_unknown_fields]. *)
Definition known_only (fields : list string) (t : gmap string toml) : bool :=
  forallb (fun kv => bool_decide (kv.1 ∈ fields)) (map_to_list t).

(** A field without a default. *)
Definition need {A} (t : gmap string toml) (key : string) (read : toml -> option A) : option A := t !! key ≫= read.

Section Reading.
Context `{GatewayDocs}.

Definition as_variant {A} (variants : list (string * A)) (v : toml) : option A :=
  name ← match v with TomlStr s => Some s | _ => variant_of_else v end;
  snd <$> find (fun nv => String.eqb (fst nv) name) variants.

Definition as_mode : toml -> option GatewayMode :=
  as_variant [("inline", Inline); ("observe", Observe); ("shadow", Shadow)]%string.
Definition as_upstream_failure_policy : toml -> option UpstreamFailurePolicy :=
  as_variant [("fail_closed", FailClosed); ("fail_open", FailOpen)]%string.
Definition as_queue_drop_policy : toml -> option QueueDropPolicy :=
  as_variant [("drop_new", DropNew); ("drop_old", DropOld)]%string.

Definition as_else {A} (read : string -> option A) (v : toml) : option A :=
  match v with TomlElse x => read x | _ => None end.

(** Tagged by the key [type]. *)
Definition as_miner_auth : toml -> option MinerAuthMode :=
  as_struct (fun t =>
    name ← need t "type" as_str;
    if String.eqb name "open" then Some OpenAuth
    else if String.eqb name "allowlist" then Allowlist <$> need t "identities" (as_else strings_of_else)
    else if String.eqb name "prefix_map" then PrefixMap <$> need t "mappings" (as_else mappings_of_else)
    else None) miner_auth_of_else.

Definition gateway_of_table (env : gmap string string) (t : gmap string toml) : option GatewaySection.t :=
  if negb (known_only GatewaySection.FIELDS t) then None else
  listen_addr ← need t "listen_addr" as_str;
  health_addr ← field t "health_addr" Defaults.health_addr as_str;
  noise_keypair_path ← need t "noise_keypair_path" as_str;
  noise_cert_path ← field t "noise_cert_path" ""%string as_str;
  authority_pubkey ← need t "authority_pubkey" as_str;
  max_connections ← field t "max_connections" Defaults.max_connections (as_uint 32);
  max_connections_per_ip ← field t "max_connections_per_ip" Defaults.max_connections_per_ip (as_uint 32);
  max_channels_per_conn ← field t "max_channels_per_conn" Defaults.max_channels_per_conn (as_uint 32);
  channel_open_timeout_ms ← field t "channel_open_timeout_ms" Defaults.channel_open_timeout_ms (as_uint 64);
  max_worker_id_bytes ← field t "max_worker_id_bytes" Defaults.max_worker_id_bytes (as_uint 64);
  noise_cert_validity_secs ← field t "noise_cert_validity_secs" Defaults.noise_cert_validity_secs (as_uint 32);
  noise_handshake_timeout_ms ← field t "noise_handshake_timeout_ms" Defaults.noise_handshake_timeout_ms (as_uint 64);
  template_poll_interval_ms ← field t "template_poll_interval_ms" Defaults.template_poll_interval_ms (as_uint 64);
  max_template_age_ms ← field t "max_template_age_ms" Defaults.max_template_age_ms (as_uint 64);
  prevhash_verdict_timeout_ms ← field t "prevhash_verdict_timeout_ms" Defaults.prevhash_verdict_timeout_ms (as_uint 64);
  prevhash_stale_hold_ms ← field t "prevhash_stale_hold_ms" Defaults.prevhash_stale_hold_ms (as_uint 64);
  upstream_stale_max_ms ← field t "upstream_stale_max_ms" Defaults.upstream_stale_max_ms (as_uint 64);
  upstream_failure_policy ← field t "upstream_failure_policy" Defaults.upstream_failure_policy as_upstream_failure_policy;
  share_dedup_window_size ← field t "share_dedup_window_size" Defaults.share_dedup_window_size (as_uint 64);
  ntime_elapsed_slack_seconds ← field t "ntime_elapsed_slack_seconds" Defaults.ntime_elapsed_slack_seconds (as_uint 32);
  max_future_block_time_seconds ← field t "max_future_block_time_seconds" Defaults.max_future_block_time_seconds (as_uint 32);
  miner_auth ← field t "miner_auth" OpenAuth as_miner_auth;
  job_retention_ms ← field t "job_retention_ms" Defaults.job_retention_ms (as_uint 64);
  channel_target_hex ← field t "channel_target_hex" None (as_some as_str);
  max_shares_per_second_per_channel ← field t "max_shares_per_second_per_channel" 0 (as_uint 32);
  extranonce_prefix_len ← field t "extranonce_prefix_len" Defaults.extranonce_prefix_len (as_uint 64);
  extended_channels_enabled ← field t "extended_channels_enabled" Defaults.extended_channels_enabled as_bool;
  vardiff_enabled ← field t "vardiff_enabled" false as_bool;
  vardiff_target_shares_per_min ← field t "vardiff_target_shares_per_min" Defaults.vardiff_target_shares_per_min as_f64;
  vardiff_retarget_interval_secs ← field t "vardiff_retarget_interval_secs" Defaults.vardiff_retarget_interval_secs (as_uint 64);
  vardiff_min_difficulty ← field t "vardiff_min_difficulty" Defaults.vardiff_min_difficulty (as_uint 64);
  vardiff_max_difficulty ← field t "vardiff_max_difficulty" Defaults.vardiff_max_difficulty (as_uint 64);
  vardiff_max_adjustment_factor ← field t "vardiff_max_adjustment_factor" Defaults.vardiff_max_adjustment_factor as_f64;
  noise_keypair_reload_sighup ← field t "noise_keypair_reload_sighup" Defaults.noise_keypair_reload_sighup as_bool;
  noise_keypair_poll_interval_secs ← field t "noise_keypair_poll_interval_secs" 0 (as_uint 64);
  wal_path ← field t "wal_path" ""%string as_str;
  wal_compaction_threshold ← field t "wal_compaction_threshold" Defaults.wal_compaction_threshold (as_uint 64);
  gateway_instance_id ← field t "gateway_instance_id" (Defaults.gateway_instance_id env) as_str;
  template_url ← field t "template_url" ""%string as_str;
  auto_degrade ← field t "auto_degrade" Defaults.auto_degrade as_bool;
  auto_degrade_after_ms ← field t "auto_degrade_after_ms" Defaults.auto_degrade_after_ms (as_uint 64);
  Some (GatewaySection.mk
    listen_addr health_addr noise_keypair_path noise_cert_path authority_pubkey max_connections
    max_connections_per_ip max_channels_per_conn channel_open_timeout_ms max_worker_id_bytes
    noise_cert_validity_secs noise_handshake_timeout_ms template_poll_interval_ms max_template_age_ms
    prevhash_verdict_timeout_ms prevhash_stale_hold_ms upstream_stale_max_ms upstream_failure_policy
    share_dedup_window_size ntime_elapsed_slack_seconds max_future_block_time_seconds miner_auth
    job_retention_ms channel_target_hex max_shares_per_second_per_channel extranonce_prefix_len
    extended_channels_enabled vardiff_enabled vardiff_target_shares_per_min vardiff_retarget_interval_secs
    vardiff_min_difficulty vardiff_max_difficulty vardiff_max_adjustment_factor noise_keypair_reload_sighup
    noise_keypair_poll_interval_secs wal_path wal_compaction_threshold gateway_instance_id template_url
    auto_degrade auto_degrade_after_ms).

Definition verifier_of_table (t : gmap string toml) : option VerifierSection.t :=
  if negb (known_only VerifierSection.FIELDS t) then None else
  addr ← need t "addr" as_str;
  health_probe_staleness_ms ← field t "health_probe_staleness_ms" Defaults.health_probe_staleness_ms (as_uint 64);
  reconnect_delay_ms ← field t "reconnect_delay_ms" Defaults.verifier_reconnect_delay_ms (as_uint 64);
  heartbeat_interval_ms ← field t "heartbeat_interval_ms" Defaults.verifier_heartbeat_interval_ms (as_uint 64);
  tls_ca_cert ← field t "tls_ca_cert" None (as_some as_str);
  tls_client_cert ← field t "tls_client_cert" None (as_some as_str);
  tls_client_key ← field t "tls_client_key" None (as_some as_str);
  tls_server_name ← field t "tls_server_name" Defaults.tls_server_name as_str;
  Some (VerifierSection.mk
    addr health_probe_staleness_ms reconnect_delay_ms heartbeat_interval_ms tls_ca_cert tls_client_cert
    tls_client_key tls_server_name).

Definition share_upstream_of_table (t : gmap string toml) : option ShareUpstreamSection.t :=
  if negb (known_only ShareUpstreamSection.FIELDS t) then None else
  url ← need t "url" as_str;
  retries ← field t "retries" Defaults.share_upstream_retries (as_uint 32);
  forward_queue_size ← field t "forward_queue_size" Defaults.share_forward_queue_size (as_uint 64);
  forward_max_in_flight ← field t "forward_max_in_flight" Defaults.share_forward_max_in_flight (as_uint 64);
  forward_queue_drop_policy ← field t "forward_queue_drop_policy" DropNew as_queue_drop_policy;
  rate_limit_per_conn_per_sec ← field t "rate_limit_per_conn_per_sec" None (as_some (as_uint 32));
  Some (ShareUpstreamSection.mk
    url None retries forward_queue_size forward_max_in_flight forward_queue_drop_policy
    rate_limit_per_conn_per_sec).

(** [toml::from_str::<GatewayConfig>] on a parsed document. *)
Definition config_of_doc (env : gmap string string) (t : gmap string toml) : option GatewayConfig.t :=
  if negb (known_only GatewayConfig.FIELDS t) then None else
  mode ← need t "mode" as_mode;
  gateway ← need t "gateway" (as_struct (gateway_of_table env) (gateway_of_else env));
  verifier ← need t "verifier" (as_struct verifier_of_table verifier_of_else);
  share_upstream ← field t "share_upstream" None (as_some (as_struct share_upstream_of_table share_upstream_of_else));
  Some (GatewayConfig.mk mode gateway verifier share_upstream).
End Reading.

(** ** Validation *)

Inductive ConfigRefusal : Type :=
| DropOldUnsupported | InlineWithoutUpstream
| TargetUnreadable (e : HexError) | TargetZero | TargetTooHard | TargetMissing (mode : GatewayMode)
| HandshakeTimeoutZero | TemplatePollZero | StaleHoldZero | UpstreamStaleTooShort
| VerdictTimeoutZero | VerdictTimeoutTooLong (timeout hold : Z) | StaleHoldTooLong (hold stale : Z)
| RetentionTooShort (retention stale : Z) | ProbeStalenessZero
| TlsIncomplete | InsecureVerifier (addr : string)
| DegradeBelowHeartbeat (after interval : Z).

Inductive Warning : Type :=
| ShadowWithUpstream | FutureBlockTime (seconds : Z) | EasyTarget | VardiffOn | SlowHandshake
| ShortVerdictTimeout (ms : Z) | InsecureOverride (addr : string) | DegradeAfterSweep (after age : Z).

(** [std::env::var(k).map(|v| v == "1").unwrap_or(false)]. *)
Definition env_is_1 (env : gmap string string) (key : string) : bool := bool_decide (env !! key = Some "1"%string).

Section Validation.
Context `{HexCrate}.
Variable config : GatewayConfig.t.
Let gateway : GatewaySection.t := GatewayConfig.gateway config.
Let verifier : VerifierSection.t := GatewayConfig.verifier config.

Definition tls_enabled : bool := match VerifierSection.tls_ca_cert verifier with Some _ => true | None => false end.

Definition validate_timing_chain (warnings : list Warning) : result (list Warning) ConfigRefusal :=
  let timeout := GatewaySection.prevhash_verdict_timeout_ms gateway in
  let hold := GatewaySection.prevhash_stale_hold_ms gateway in
  let stale := GatewaySection.upstream_stale_max_ms gateway in
  let retention := GatewaySection.job_retention_ms gateway in
  if timeout =? 0 then Err VerdictTimeoutZero
  else if timeout >=? hold then Err (VerdictTimeoutTooLong timeout hold)
  else if hold >=? stale then Err (StaleHoldTooLong hold stale)
  else if retention <? stale then Err (RetentionTooShort retention stale)
  else if VerifierSection.health_probe_staleness_ms verifier =? 0 then Err ProbeStalenessZero
  else Ok (if timeout <? 1000 then warnings ++ [ShortVerdictTimeout timeout] else warnings).

Definition validate_verifier_security (env : gmap string string) (warnings : list Warning) : result (list Warning) ConfigRefusal :=
  let addr := VerifierSection.addr verifier in
  if tls_enabled && (bool_decide (VerifierSection.tls_client_cert verifier = None)
                     || bool_decide (VerifierSection.tls_client_key verifier = None)) then Err TlsIncomplete
  else if negb (is_loopback_addr (lit addr)) then
    if tls_enabled then Ok warnings
    else
      let allow_insecure := env_is_1 env "VELDRA_ALLOW_INSECURE_VERIFIER" in
      let allow_legacy := env_is_1 env "VELDRA_ALLOW_REMOTE_VERIFIER" in
      if negb allow_insecure && negb allow_legacy then Err (InsecureVerifier addr)
      else Ok (warnings ++ [InsecureOverride addr])
  else Ok warnings.

Definition validate_channel_target (warnings : list Warning) : result (list Warning) ConfigRefusal :=
  let serves := accepts_miners (GatewayConfig.mode config) in
  let? warnings :=
    match GatewaySection.channel_target_hex gateway with
    | Some hex =>
        let? target := map_err TargetUnreadable (display_hex_to_wire_bytes hex) in
        if forallb (fun b => byte_to_Z b =? 0) target then Err TargetZero
        else
          let difficulty := target_to_difficulty_u64 target in
          if difficulty =? u64_max then Err TargetTooHard
          else if ((difficulty =? 0) || (difficulty =? 1)) && serves then Ok (warnings ++ [EasyTarget])
          else Ok warnings
    | None => Ok warnings
    end in
  let warnings := if serves && GatewaySection.vardiff_enabled gateway then warnings ++ [VardiffOn] else warnings in
  if serves && bool_decide (GatewaySection.channel_target_hex gateway = None)
  then Err (TargetMissing (GatewayConfig.mode config)) else Ok warnings.

Definition validate (env : gmap string string) : result (list Warning) ConfigRefusal :=
  let mode := GatewayConfig.mode config in
  let upstream := GatewayConfig.share_upstream config in
  let after := GatewaySection.auto_degrade_after_ms gateway in
  let degrades := GatewaySection.auto_degrade gateway && enforces_verdicts mode in
  let w1 := match mode, upstream with Shadow, Some _ => [ShadowWithUpstream] | _, _ => [] end in
  let future := GatewaySection.max_future_block_time_seconds gateway in
  let w2 := if future =? MAX_FUTURE_BLOCK_TIME_SECONDS then w1 else w1 ++ [FutureBlockTime future] in
  if match upstream with
     | Some u => bool_decide (ShareUpstreamSection.forward_queue_drop_policy u = DropOld)
     | None => false
     end then Err DropOldUnsupported
  else if match mode, upstream with Inline, None => true | _, _ => false end then Err InlineWithoutUpstream
  else
    let? w3 := validate_channel_target w2 in
    if GatewaySection.noise_handshake_timeout_ms gateway =? 0 then Err HandshakeTimeoutZero
    else if GatewaySection.template_poll_interval_ms gateway =? 0 then Err TemplatePollZero
    else if GatewaySection.prevhash_stale_hold_ms gateway =? 0 then Err StaleHoldZero
    else if GatewaySection.upstream_stale_max_ms gateway <? 1000 then Err UpstreamStaleTooShort
    else
      let w4 := if GatewaySection.noise_handshake_timeout_ms gateway >? 120000 then w3 ++ [SlowHandshake] else w3 in
      let? w5 := validate_timing_chain w4 in
      let? w6 := validate_verifier_security env w5 in
      if degrades && (after <? VerifierSection.heartbeat_interval_ms verifier)
      then Err (DegradeBelowHeartbeat after (VerifierSection.heartbeat_interval_ms verifier))
      else if degrades && (after >=? GatewaySection.max_template_age_ms gateway)
      then Ok (w6 ++ [DegradeAfterSweep after (GatewaySection.max_template_age_ms gateway)])
      else Ok w6.
End Validation.

(** * Properties *)

(** ** The channel target *)

(** The target the text stands for, as a number. *)
Definition target_value `{HexCrate} (hex : string) : option Z :=
  match display_hex_to_wire_bytes hex with Ok t => Some (from_le_bytes t) | Err _ => None end.

Lemma wire_bytes_length `{HexCrate} hex t : display_hex_to_wire_bytes hex = Ok t -> length t = 32%nat.
Proof.
  unfold display_hex_to_wire_bytes. destruct (hex_decode hex) as [b|]; [|done]. cbn [map_err result_bind].
  destruct (length b =? 32)%nat eqn:E; [|done]. intros [= <-]. rewrite length_reverse. by apply Nat.eqb_eq.
Qed.

(** The checks on a target come to one comparison. *)
Lemma target_usable t : length t = 32%nat ->
  (forallb (fun b => byte_to_Z b =? 0) t || (target_to_difficulty_u64 t =? u64_max)) = (from_le_bytes t <? 2 ^ 160).
Proof.
  intros Hl. rewrite all_zero_value, target_to_difficulty_eq by done. cbv zeta. set (d := from_le_bytes t).
  pose proof (from_le_bytes_range t) as Hr. fold d in Hr. destruct (d =? 0) eqn:E0; z_bool; [rewrite E0; reflexivity|].
  assert (0 < d) as Hd by lia. cbn [orb]. destruct (Z.log2 d <? 160) eqn:El; z_bool.
  - rewrite Z.eqb_refl. symmetry. apply Z.ltb_lt. by apply Z.log2_lt_pow2.
  - assert (2 ^ 160 <= d) as Hb by (destruct (Z.log2_spec d Hd); pose proof (Z.pow_le_mono_r 2 160 (Z.log2 d)); lia).
    assert (d <? 2 ^ 160 = false) as -> by lia. apply Z.eqb_neq. assert (DIFF1 / d < u64_max); [|lia].
    apply Z.div_lt_upper_bound; [lia|]. unfold DIFF1, u64_max. lia.
Qed.

Lemma easy_target t : length t = 32%nat -> 2 ^ 160 <= from_le_bytes t ->
  ((target_to_difficulty_u64 t =? 0) || (target_to_difficulty_u64 t =? 1)) = (DIFF1 <? 2 * from_le_bytes t).
Proof.
  intros Hl Hb. rewrite target_to_difficulty_eq by done. cbv zeta. set (d := from_le_bytes t) in *.
  assert (d =? 0 = false) as -> by lia. assert (160 <= Z.log2 d) as Hlog by (apply Z.log2_le_pow2; lia).
  assert (Z.log2 d <? 160 = false) as -> by lia. assert (0 <= DIFF1 / d) by (apply Z.div_pos; unfold DIFF1; lia).
  pose proof (Z.div_mod DIFF1 d ltac:(lia)) as He. pose proof (Z.mod_pos_bound DIFF1 d ltac:(lia)).
  apply Bool.eq_iff_eq_true. rewrite orb_true_iff, !Z.eqb_eq, Z.ltb_lt. nia.
Qed.

(** ** What is accepted, and what is warned about *)

Definition when (b : bool) (w : Warning) : list Warning := if b then [w] else [].

Section Accepted.
Context `{HexCrate}.
Variable env : gmap string string.
Variable c : GatewayConfig.t.
Let g : GatewaySection.t := GatewayConfig.gateway c.
Let v : VerifierSection.t := GatewayConfig.verifier c.
Let serves : bool := accepts_miners (GatewayConfig.mode c).

(** Verdict enforcement is suspended when the verifier is silent. *)
Definition degrades : bool := GatewaySection.auto_degrade g && enforces_verdicts (GatewayConfig.mode c).
Definition plaintext_allowed : bool :=
  env_is_1 env "VELDRA_ALLOW_INSECURE_VERIFIER" || env_is_1 env "VELDRA_ALLOW_REMOTE_VERIFIER".
Definition remote : bool := negb (is_loopback_addr (lit (VerifierSection.addr v))).

Definition timing_ok : Prop :=
  0 <> GatewaySection.prevhash_verdict_timeout_ms g /\
  GatewaySection.prevhash_verdict_timeout_ms g < GatewaySection.prevhash_stale_hold_ms g /\
  GatewaySection.prevhash_stale_hold_ms g < GatewaySection.upstream_stale_max_ms g /\
  GatewaySection.upstream_stale_max_ms g <= GatewaySection.job_retention_ms g /\
  VerifierSection.health_probe_staleness_ms v <> 0.

Definition security_ok : Prop :=
  (tls_enabled c = true -> is_Some (VerifierSection.tls_client_cert v) /\ is_Some (VerifierSection.tls_client_key v)) /\
  (remote = true -> tls_enabled c = true \/ plaintext_allowed = true).

(** A target a share can meet, and one at all where there are miners. *)
Definition target_ok : Prop :=
  match GatewaySection.channel_target_hex g with
  | Some hex => exists t, target_value hex = Some t /\ 2 ^ 160 <= t
  | None => serves = false
  end.

Record admissible : Prop := {
  adm_drop_new u : GatewayConfig.share_upstream c = Some u -> ShareUpstreamSection.forward_queue_drop_policy u = DropNew;
  adm_upstream : GatewayConfig.mode c = Inline -> is_Some (GatewayConfig.share_upstream c);
  adm_target : target_ok;
  adm_handshake : GatewaySection.noise_handshake_timeout_ms g <> 0;
  adm_poll : GatewaySection.template_poll_interval_ms g <> 0;
  adm_hold : GatewaySection.prevhash_stale_hold_ms g <> 0;
  adm_stale : 1000 <= GatewaySection.upstream_stale_max_ms g;
  adm_timing : timing_ok;
  adm_security : security_ok;
  adm_degrade : degrades = true -> VerifierSection.heartbeat_interval_ms v <= GatewaySection.auto_degrade_after_ms g
}.

Definition target_warnings : list Warning :=
  when (match GatewaySection.channel_target_hex g ≫= target_value with Some t => DIFF1 <? 2 * t | None => false end && serves) EasyTarget
  ++ when (serves && GatewaySection.vardiff_enabled g) VardiffOn.

Definition warnings_of : list Warning :=
  when (match GatewayConfig.mode c, GatewayConfig.share_upstream c with Shadow, Some _ => true | _, _ => false end) ShadowWithUpstream
  ++ when (negb (GatewaySection.max_future_block_time_seconds g =? MAX_FUTURE_BLOCK_TIME_SECONDS))
       (FutureBlockTime (GatewaySection.max_future_block_time_seconds g))
  ++ target_warnings
  ++ when (GatewaySection.noise_handshake_timeout_ms g >? 120000) SlowHandshake
  ++ when (GatewaySection.prevhash_verdict_timeout_ms g <? 1000) (ShortVerdictTimeout (GatewaySection.prevhash_verdict_timeout_ms g))
  ++ when (remote && negb (tls_enabled c)) (InsecureOverride (VerifierSection.addr v))
  ++ when (degrades && (GatewaySection.auto_degrade_after_ms g >=? GatewaySection.max_template_age_ms g))
       (DegradeAfterSweep (GatewaySection.auto_degrade_after_ms g) (GatewaySection.max_template_age_ms g)).

Lemma timing_spec ws ws' : validate_timing_chain c ws = Ok ws' <-> timing_ok /\
  ws' = ws ++ when (GatewaySection.prevhash_verdict_timeout_ms g <? 1000) (ShortVerdictTimeout (GatewaySection.prevhash_verdict_timeout_ms g)).
Proof.
  unfold validate_timing_chain, timing_ok, when. cbv zeta. fold g v.
  destruct (_ =? 0) eqn:E1; [split; [done|intros [Hx _]; z_bool; lia]|]. destruct (_ >=? _) eqn:E2; [split; [done|intros [Hx _]; z_bool; lia]|].
  destruct (_ >=? _) eqn:E3 in |- *; [split; [done|intros [Hx _]; z_bool; lia]|].
  destruct (_ <? _) eqn:E4 at 1; [split; [done|intros [Hx _]; z_bool; lia]|].
  destruct (_ =? 0) eqn:E5 in |- *; [split; [done|intros [Hx _]; z_bool; lia]|]. z_bool.
  split; [intros [= <-]|intros [_ ->]]; [split; [lia|]|]; by case_if; rewrite ?app_nil_r.
Qed.

Lemma security_spec ws ws' : validate_verifier_security c env ws = Ok ws' <-> security_ok /\
  ws' = ws ++ when (remote && negb (tls_enabled c)) (InsecureOverride (VerifierSection.addr v)).
Proof.
  unfold validate_verifier_security, security_ok, plaintext_allowed, when, remote. cbv zeta. fold v.
  destruct (tls_enabled c), (VerifierSection.tls_client_cert v), (VerifierSection.tls_client_key v), (is_loopback_addr _),
    (env_is_1 env "VELDRA_ALLOW_INSECURE_VERIFIER"), (env_is_1 env "VELDRA_ALLOW_REMOTE_VERIFIER"); cbn; rewrite ?app_nil_r; naive_solver.
Qed.

Lemma target_spec ws ws' : validate_channel_target c ws = Ok ws' <-> target_ok /\ ws' = ws ++ target_warnings.
Proof.
  unfold validate_channel_target, target_ok, target_warnings, target_value, when. cbv zeta. fold g serves.
  destruct (GatewaySection.channel_target_hex g) as [hex|]; cbn [mbind option_bind].
  - rewrite bool_decide_false, andb_false_r by done. destruct (display_hex_to_wire_bytes hex) as [t|e] eqn:Ed; cbn [map_err result_bind].
    2:{ split; [done|]. intros [(t & [=] & _) _]. }
    apply wire_bytes_length in Ed. pose proof (target_usable t Ed) as Hu.
    destruct (from_le_bytes t <? 2 ^ 160) eqn:Eb; [apply Z.ltb_lt in Eb|apply Z.ltb_ge in Eb].
    + split; [|intros [(t' & [= <-] & Ht) _]; lia]. destruct (forallb _ _); [done|]. cbn [orb] in Hu. by rewrite Hu.
    + apply orb_false_elim in Hu as [-> ->]. rewrite easy_target by done.
      assert (exists x, Some (from_le_bytes t) = Some x /\ 2 ^ 160 <= x) as Hx by eauto.
      destruct (DIFF1 <? _), serves, (GatewaySection.vardiff_enabled g); cbn [andb result_bind]; rewrite <-?app_assoc, ?app_nil_r;
        split; [intros [= <-]|intros [_ ->]| ..]; naive_solver.
  - rewrite bool_decide_true, andb_true_r by done. cbn [result_bind]. destruct serves; [naive_solver|]. cbn. rewrite app_nil_r. naive_solver.
Qed.

Lemma accepted_admissible ws : validate c env = Ok ws -> admissible.
Proof.
  unfold validate. cbv zeta. fold g v. intros Hv.
  destruct (match GatewayConfig.share_upstream c with Some _ => _ | None => _ end) eqn:Edrop; [done|].
  destruct (match GatewayConfig.mode c with Inline => _ | _ => _ end) eqn:Einl; [done|].
  destruct (validate_channel_target c _) as [w3|] eqn:Et; [|done]. apply target_spec in Et as [Ht ->]. cbn [result_bind] in Hv.
  destruct (_ =? 0) eqn:E1 in Hv; [done|]. destruct (_ =? 0) eqn:E2 in Hv; [done|]. destruct (_ =? 0) eqn:E3 in Hv; [done|].
  destruct (_ <? 1000) eqn:E4 in Hv; [done|]. destruct (validate_timing_chain c _) as [w5|] eqn:E5; [|done]. apply timing_spec in E5 as [Htm ->].
  cbn [result_bind] in Hv. destruct (validate_verifier_security c env _) as [w6|] eqn:E6; [|done]. apply security_spec in E6 as [Hs ->].
  cbn [result_bind] in Hv. fold degrades in Hv. destruct (degrades && (_ <? _)) eqn:E7; [done|]. z_bool. constructor; try done.
  - intros u Hu. rewrite Hu in Edrop. apply bool_decide_eq_false in Edrop. by destruct (ShareUpstreamSection.forward_queue_drop_policy u).
  - intros Hm. rewrite Hm in Einl. by destruct (GatewayConfig.share_upstream c).
  - intros Hd. rewrite Hd in E7. cbn in E7. z_bool. lia.
Qed.

Lemma admissible_accepted : admissible -> validate c env = Ok warnings_of.
Proof.
  intros [Hdrop Hup Ht H1 H2 H3 H4 Htm Hs Hdeg]. unfold validate. cbv zeta. fold g v degrades.
  assert (match GatewayConfig.share_upstream c with
     | Some u => bool_decide (ShareUpstreamSection.forward_queue_drop_policy u = DropOld) | None => false end = false) as ->.
  { destruct (GatewayConfig.share_upstream c) as [u|]; [|done]. by rewrite (Hdrop u eq_refl). }
  assert (match GatewayConfig.mode c, GatewayConfig.share_upstream c with Inline, None => true | _, _ => false end = false) as ->.
  { clear -Hup. destruct (GatewayConfig.mode c); [|done..]. by destruct Hup as [? ->]. }
  rewrite (proj2 (target_spec _ _) (conj Ht eq_refl)). cbn [result_bind].
  rewrite (proj2 (Z.eqb_neq _ _) H1), (proj2 (Z.eqb_neq _ _) H2), (proj2 (Z.eqb_neq _ _) H3), (proj2 (Z.ltb_ge _ _) H4).
  rewrite (proj2 (timing_spec _ _) (conj Htm eq_refl)). cbn [result_bind].
  rewrite (proj2 (security_spec _ _) (conj Hs eq_refl)). cbn [result_bind].
  assert (degrades && (GatewaySection.auto_degrade_after_ms g <? VerifierSection.heartbeat_interval_ms v) = false) as ->.
  { destruct degrades; [|done]. cbn. apply Z.ltb_ge. auto. }
  assert (match GatewayConfig.mode c, GatewayConfig.share_upstream c with Shadow, Some _ => [ShadowWithUpstream] | _, _ => [] end =
    when (match GatewayConfig.mode c, GatewayConfig.share_upstream c with Shadow, Some _ => true | _, _ => false end) ShadowWithUpstream) as ->.
  { clear. by destruct (GatewayConfig.mode c), (GatewayConfig.share_upstream c). }
  unfold warnings_of, when. repeat case_if; cbn; rewrite ?app_nil_r, <-?app_assoc; done.
Qed.

(** C19 The configurations that pass are exactly the admissible ones: the policies that are implemented,
    a target that a share can meet wherever there are miners, the timing chain, a verifier that is
    local or reached over TLS with a client certificate or explicitly allowed in the clear, and a
    degrade threshold that a heartbeat can meet; and the warnings are exactly those that apply. *)
Theorem validate_accepts_iff ws : validate c env = Ok ws <-> admissible /\ ws = warnings_of.
Proof.
  split; [|intros [Ha ->]; by apply admissible_accepted]. intros Hv. pose proof (accepted_admissible ws Hv) as Ha. split; [done|].
  rewrite (admissible_accepted Ha) in Hv. by injection Hv.
Qed.
End Accepted.
