(* ===== verification/GatewayAdmin.v ===== *)
(** * Settings, start and key rotation of the gateway

    Models the administrative part of [services/sv2-gateway/src/main.rs]: the settings endpoints, the
    start from [main] to the main loop with every refusal and panic on the way, and the task that
    reloads the Noise key.

    The configuration file is the file of [ConfigIo]; reads and saves of it go through that file system.
    What the start meets outside (the TLS files, the listener, the key file) is an argument. *)

From S2P Require Import Prelude Crates Float64 Protocol Shares Channels Gateway Handler Transport Codec License PolicyFile ConfigIo Manager NetAddr GatewayConf.

(** ** Saving settings *)

(** [val as i64] of an unsigned value. *)
Definition as_i64 (z : Z) : Z := if z <=? i64_max then z else z - 2 ^ 64.
Definition patch_int (v : option Z) : option toml := TomlInt ∘ as_i64 <$> v.
Definition patch_str (v : option string) : option toml := TomlStr <$> v.
Definition patch_bool (v : option bool) : option toml := TomlBool <$> v.

Module GwSaveSettingsReq.
Record t : Type := mk {
  max_connections : option Z; max_channels_per_conn : option Z; max_worker_id_bytes : option Z;
  template_poll_interval_ms : option Z; max_template_age_ms : option Z; prevhash_verdict_timeout_ms : option Z;
  prevhash_stale_hold_ms : option Z; upstream_stale_max_ms : option Z; upstream_failure_policy : option string;
  share_dedup_window_size : option Z; ntime_elapsed_slack_seconds : option Z;
  max_future_block_time_seconds : option Z; job_retention_ms : option Z; channel_target_hex : option string;
  max_shares_per_second_per_channel : option Z; noise_cert_validity_secs : option Z;
  noise_handshake_timeout_ms : option Z; noise_keypair_reload_sighup : option bool;
  noise_keypair_poll_interval_secs : option Z; wal_compaction_threshold : option Z }.

(** The keys in the order they are patched. *)
Definition entries (r : t) : list (string * option toml) :=
  [("max_connections"%string, patch_int (max_connections r));
   ("max_channels_per_conn"%string, patch_int (max_channels_per_conn r));
   ("max_worker_id_bytes"%string, patch_int (max_worker_id_bytes r));
   ("template_poll_interval_ms"%string, patch_int (template_poll_interval_ms r));
   ("max_template_age_ms"%string, patch_int (max_template_age_ms r));
   ("prevhash_verdict_timeout_ms"%string, patch_int (prevhash_verdict_timeout_ms r));
   ("prevhash_stale_hold_ms"%string, patch_int (prevhash_stale_hold_ms r));
   ("upstream_stale_max_ms"%string, patch_int (upstream_stale_max_ms r));
   ("share_dedup_window_size"%string, patch_int (share_dedup_window_size r));
   ("ntime_elapsed_slack_seconds"%string, patch_int (ntime_elapsed_slack_seconds r));
   ("max_future_block_time_seconds"%string, patch_int (max_future_block_time_seconds r));
   ("job_retention_ms"%string, patch_int (job_retention_ms r));
   ("max_shares_per_second_per_channel"%string, patch_int (max_shares_per_second_per_channel r));
   ("noise_cert_validity_secs"%string, patch_int (noise_cert_validity_secs r));
   ("noise_handshake_timeout_ms"%string, patch_int (noise_handshake_timeout_ms r));
   ("noise_keypair_poll_interval_secs"%string, patch_int (noise_keypair_poll_interval_secs r));
   ("wal_compaction_threshold"%string, patch_int (wal_compaction_threshold r));
   ("upstream_failure_policy"%string, patch_str (upstream_failure_policy r));
   ("channel_target_hex"%string, patch_str (channel_target_hex r));
   ("noise_keypair_reload_sighup"%string, patch_bool (noise_keypair_reload_sighup r))].

Definition patch (r : t) (gw : gmap string toml) : gmap string toml :=
  foldl (fun gw kv => match kv.2 with Some v => <[kv.1 := v]> gw | None => gw end) gw (entries r).
End GwSaveSettingsReq.

(** The write throttle; [checked_sub] gives the cutoff, a time before boot is representable. *)
Module Throttle.
Definition WRITE_THROTTLE_MAX : Z := 10.
Definition WRITE_THROTTLE_WINDOW : Z := 60 * 1000000000.

Definition admits (now : Z) (ts : list Z) : bool * list Z :=
  let kept := List.filter (fun t => t >? now - WRITE_THROTTLE_WINDOW) ts in
  if lenZ kept >=? WRITE_THROTTLE_MAX then (false, kept) else (true, kept ++ [now]).
End Throttle.

Inductive GwAnswer : Type :=
| GwThrottled | GwReadFailed | GwParseFailed | GwSerializeFailed | GwNotAConfig | GwInvalid (e : ConfigRefusal)
| GwWriteFailed | GwSaved (warnings : list Warning).

Module GwAdmin.
Record t : Type := mk { throttle : list Z; fs : Fs.t }.
End GwAdmin.

(** [doc.get_mut("gateway")] as a table, with the fields of the request. *)
Definition patch_doc (r : GwSaveSettingsReq.t) (doc : gmap string toml) : gmap string toml :=
  match doc !! "gateway"%string with
  | Some (TomlTab gw) => <["gateway"%string := TomlTab (GwSaveSettingsReq.patch r gw)]> doc
  | _ => doc
  end.

(** [read_to_string]. *)
Definition read_text (fs : Fs.t) : option string :=
  b ← Fs.contents File fs; if utf8_valid b then Some (String.string_of_list_byte b) else None.

Section Saving.
Context `{TomlDocs, GatewayDocs, HexCrate}.
Variable env : gmap string string.

(** [toml::from_str::<GatewayConfig>]. *)
Definition config_of_text (text : string) : option GatewayConfig.t :=
  match from_str text with Ok doc => config_of_doc env doc | Err _ => None end.

Definition gw_save_settings (w : nat) (now : Z) (disk : Disk.t) (r : GwSaveSettingsReq.t) (s : GwAdmin.t) : GwAnswer * GwAdmin.t :=
  let '(ok, ts) := Throttle.admits now (GwAdmin.throttle s) in
  let s := GwAdmin.mk ts (GwAdmin.fs s) in
  if negb ok then (GwThrottled, s)
  else match read_text (GwAdmin.fs s) with
  | None => (GwReadFailed, s)
  | Some toml_text =>
      match from_str toml_text with
      | Err _ => (GwParseFailed, s)
      | Ok doc =>
          let doc := patch_doc r doc in
          match to_string_pretty doc with
          | None => (GwSerializeFailed, s)
          | Some patched_text =>
              match config_of_text patched_text with
              | None => (GwNotAConfig, s)
              | Some patched_cfg =>
                  match validate patched_cfg env with
                  | Err e => (GwInvalid e, s)
                  | Ok warnings =>
                      match atomic_write_toml w (Some doc) disk (GwAdmin.fs s) with
                      | (Err _, fs) => (GwWriteFailed, GwAdmin.mk ts fs)
                      | (Ok _, fs) => (GwSaved warnings, GwAdmin.mk ts fs)
                      end
                  end
              end
          end
      end
  end.

(** ** Loading *)

Inductive LoadRefusal : Type := ConfigUnreadable | ConfigMalformed | ModeUnknown (value : string) | ConfigRefused (e : ConfigRefusal).

(** [VELDRA_GATEWAY_MODE]. The lower case of a character outside ASCII is none of the letters of the
    three words. *)
Definition mode_of_env (value : string) : result GatewayMode LoadRefusal :=
  let lower := String.string_of_list_ascii (Wizard.to_ascii_lowercase <$> String.list_ascii_of_string value) in
  if String.eqb lower "inline" then Ok Inline
  else if String.eqb lower "observe" then Ok Observe
  else if String.eqb lower "shadow" then Ok Shadow
  else Err (ModeUnknown lower).

Definition mode_override (c : GatewayConfig.t) : result GatewayConfig.t LoadRefusal :=
  match env !! "VELDRA_GATEWAY_MODE"%string with
  | Some value => let? m := mode_of_env value in Ok (GatewayConfig.with_mode m c)
  | None => Ok c
  end.

(** The configuration a start runs with, and its warnings. *)
Definition load_gateway_config (file : option string) : result (GatewayConfig.t * list Warning) LoadRefusal :=
  let? text := ok_or file ConfigUnreadable in
  let? c := ok_or (config_of_text text) ConfigMalformed in
  let? c := mode_override c in
  let? warnings := map_err ConfigRefused (validate c env) in
  Ok (c, warnings).
End Saving.

(** ** Showing settings *)

Inductive json : Type := JStr (s : string) | JInt (z : Z) | JBool (b : bool) | JNull.
#[global] Instance json_eq_dec : EqDecision json.
Proof. solve_decision. Defined.
Definition json_opt (v : option Z) : json := match v with Some z => JInt z | None => JNull end.

(** The [Debug] texts of a TOML value and of a string. *)
Class DebugText : Type := { debug_toml : toml -> string; debug_str : string -> string }.

Section Shown.
Context `{DebugText}.

Definition debug_list (l : list string) : string := "[" +:+ String.concat ", " l +:+ "]".
Definition debug_mapping (m : PrefixMapping.t) : string :=
  "PrefixMapping { prefix: " +:+ debug_str (PrefixMapping.prefix m) +:+ ", account: " +:+ debug_str (PrefixMapping.account m) +:+ " }".
Definition debug_auth (a : MinerAuthMode) : string :=
  match a with
  | OpenAuth => "Open"
  | Allowlist l => "Allowlist { identities: " +:+ debug_list (debug_str <$> l) +:+ " }"
  | PrefixMap l => "PrefixMap { mappings: " +:+ debug_list (debug_mapping <$> l) +:+ " }"
  end%string.

(** [format!("{:?}")] of a variant in lower case. *)
Definition lower_policy (p : UpstreamFailurePolicy) : string := match p with FailClosed => "failclosed" | FailOpen => "failopen" end%string.
Definition lower_drop (p : QueueDropPolicy) : string := match p with DropNew => "dropnew" | DropOld => "dropold" end%string.

(** The snapshot of the start. *)
Definition settings_snapshot (env : gmap string string) (c : GatewayConfig.t) : list (string * json) :=
  let g := GatewayConfig.gateway c in
  let v := GatewayConfig.verifier c in
  let from_upstream {A} (f : ShareUpstreamSection.t -> A) (none : A) : A :=
    match GatewayConfig.share_upstream c with Some s => f s | None => none end in
  [("log_level"%string, JStr (unwrap_or (env !! "VELDRA_LOG_FILTER"%string) "info"%string));
   ("log_format"%string, JStr (unwrap_or (env !! "VELDRA_LOG_FORMAT"%string) "json"%string));
   ("gateway_mode"%string, JStr (GatewayMode_as_str (GatewayConfig.mode c)));
   ("listen_addr"%string, JStr (GatewaySection.listen_addr g));
   ("health_addr"%string, JStr (GatewaySection.health_addr g));
   ("max_connections"%string, JInt (GatewaySection.max_connections g));
   ("max_connections_per_ip"%string, JInt (GatewaySection.max_connections_per_ip g));
   ("max_channels_per_conn"%string, JInt (GatewaySection.max_channels_per_conn g));
   ("max_worker_id_bytes"%string, JInt (GatewaySection.max_worker_id_bytes g));
   ("template_poll_interval_ms"%string, JInt (GatewaySection.template_poll_interval_ms g));
   ("max_template_age_ms"%string, JInt (GatewaySection.max_template_age_ms g));
   ("prevhash_verdict_timeout_ms"%string, JInt (GatewaySection.prevhash_verdict_timeout_ms g));
   ("prevhash_stale_hold_ms"%string, JInt (GatewaySection.prevhash_stale_hold_ms g));
   ("upstream_stale_max_ms"%string, JInt (GatewaySection.upstream_stale_max_ms g));
   ("upstream_failure_policy"%string, JStr (lower_policy (GatewaySection.upstream_failure_policy g)));
   ("share_dedup_window_size"%string, JInt (GatewaySection.share_dedup_window_size g));
   ("ntime_elapsed_slack_seconds"%string, JInt (GatewaySection.ntime_elapsed_slack_seconds g));
   ("max_future_block_time_seconds"%string, JInt (GatewaySection.max_future_block_time_seconds g));
   ("miner_auth"%string, JStr (debug_auth (GatewaySection.miner_auth g)));
   ("job_retention_ms"%string, JInt (GatewaySection.job_retention_ms g));
   ("channel_target_hex"%string, JStr (unwrap_or (GatewaySection.channel_target_hex g) ""%string));
   ("max_shares_per_second_per_channel"%string, JInt (GatewaySection.max_shares_per_second_per_channel g));
   ("noise_cert_validity_secs"%string, JInt (GatewaySection.noise_cert_validity_secs g));
   ("noise_handshake_timeout_ms"%string, JInt (GatewaySection.noise_handshake_timeout_ms g));
   ("noise_keypair_path"%string, JStr (GatewaySection.noise_keypair_path g));
   ("noise_keypair_reload_sighup"%string, JBool (GatewaySection.noise_keypair_reload_sighup g));
   ("noise_keypair_poll_interval_secs"%string, JInt (GatewaySection.noise_keypair_poll_interval_secs g));
   ("wal_path"%string, JStr (GatewaySection.wal_path g));
   ("wal_compaction_threshold"%string, JInt (GatewaySection.wal_compaction_threshold g));
   ("template_url"%string, JStr (GatewaySection.template_url g));
   ("gateway_instance_id"%string, JStr (GatewaySection.gateway_instance_id g));
   ("verifier_addr"%string, JStr (VerifierSection.addr v));
   ("verifier_tls_enabled"%string, JBool (tls_enabled c));
   ("verifier_tls_server_name"%string, JStr (VerifierSection.tls_server_name v));
   ("verifier_health_probe_staleness_ms"%string, JInt (VerifierSection.health_probe_staleness_ms v));
   ("share_upstream_url"%string, JStr (from_upstream ShareUpstreamSection.url ""%string));
   ("share_upstream_secret_set"%string, JBool (bool_decide (is_Some (env !! "VELDRA_SHARE_UPSTREAM_SECRET"%string))));
   ("share_upstream_retries"%string, JInt (from_upstream ShareUpstreamSection.retries 0));
   ("share_upstream_queue_size"%string, JInt (from_upstream ShareUpstreamSection.forward_queue_size 0));
   ("share_upstream_max_in_flight"%string, JInt (from_upstream ShareUpstreamSection.forward_max_in_flight 0));
   ("share_upstream_drop_policy"%string, JStr (from_upstream (fun s => lower_drop (ShareUpstreamSection.forward_queue_drop_policy s)) "none"%string));
   ("share_upstream_rate_limit"%string, json_opt (from_upstream ShareUpstreamSection.rate_limit_per_conn_per_sec None))].

Definition entry (section : option toml) (key : string) : option toml :=
  match section with Some (TomlTab t) => t !! key | _ => None end.
Definition as_integer (v : toml) : option Z := match v with TomlInt z => Some z | _ => None end.
Definition get_str (section : option toml) (key : string) : string := unwrap_or (entry section key ≫= as_str) ""%string.
(** [i as u64]. *)
Definition get_u64 (section : option toml) (key : string) (dflt : Z) : Z :=
  match entry section key ≫= as_integer with Some i => i mod 2 ^ 64 | None => dflt end.
Definition get_bool (section : option toml) (key : string) (dflt : bool) : bool := unwrap_or (entry section key ≫= as_bool) dflt.

Definition build_settings_snapshot_from_toml (env : gmap string string) (doc : gmap string toml) : list (string * json) :=
  let gw := doc !! "gateway"%string in
  let ver := doc !! "verifier"%string in
  let su := doc !! "share_upstream"%string in
  [("log_level"%string, JStr (unwrap_or (env !! "VELDRA_LOG_FILTER"%string) "info"%string));
   ("log_format"%string, JStr (unwrap_or (env !! "VELDRA_LOG_FORMAT"%string) "json"%string));
   ("gateway_mode"%string, JStr (unwrap_or (doc !! "mode"%string ≫= as_str) "observe"%string));
   ("listen_addr"%string, JStr (get_str gw "listen_addr"));
   ("health_addr"%string, JStr (get_str gw "health_addr"));
   ("max_connections"%string, JInt (get_u64 gw "max_connections" 1024));
   ("max_connections_per_ip"%string, JInt (get_u64 gw "max_connections_per_ip" 0));
   ("max_channels_per_conn"%string, JInt (get_u64 gw "max_channels_per_conn" 256));
   ("max_worker_id_bytes"%string, JInt (get_u64 gw "max_worker_id_bytes" 128));
   ("template_poll_interval_ms"%string, JInt (get_u64 gw "template_poll_interval_ms" 3000));
   ("max_template_age_ms"%string, JInt (get_u64 gw "max_template_age_ms" 30000));
   ("prevhash_verdict_timeout_ms"%string, JInt (get_u64 gw "prevhash_verdict_timeout_ms" 2000));
   ("prevhash_stale_hold_ms"%string, JInt (get_u64 gw "prevhash_stale_hold_ms" 5000));
   ("upstream_stale_max_ms"%string, JInt (get_u64 gw "upstream_stale_max_ms" 30000));
   ("upstream_failure_policy"%string, JStr (get_str gw "upstream_failure_policy"));
   ("share_dedup_window_size"%string, JInt (get_u64 gw "share_dedup_window_size" 10000));
   ("ntime_elapsed_slack_seconds"%string, JInt (get_u64 gw "ntime_elapsed_slack_seconds" 2));
   ("max_future_block_time_seconds"%string, JInt (get_u64 gw "max_future_block_time_seconds" 7200));
   ("miner_auth"%string, JStr (match entry gw "miner_auth" with Some x => debug_toml x | None => "Open"%string end));
   ("job_retention_ms"%string, JInt (get_u64 gw "job_retention_ms" 300000));
   ("channel_target_hex"%string, JStr (get_str gw "channel_target_hex"));
   ("max_shares_per_second_per_channel"%string, JInt (get_u64 gw "max_shares_per_second_per_channel" 0));
   ("noise_cert_validity_secs"%string, JInt (get_u64 gw "noise_cert_validity_secs" 3600));
   ("noise_handshake_timeout_ms"%string, JInt (get_u64 gw "noise_handshake_timeout_ms" 5000));
   ("noise_keypair_path"%string, JStr (get_str gw "noise_keypair_path"));
   ("noise_keypair_reload_sighup"%string, JBool (get_bool gw "noise_keypair_reload_sighup" true));
   ("noise_keypair_poll_interval_secs"%string, JInt (get_u64 gw "noise_keypair_poll_interval_secs" 0));
   ("wal_path"%string, JStr (get_str gw "wal_path"));
   ("wal_compaction_threshold"%string, JInt (get_u64 gw "wal_compaction_threshold" 1000));
   ("template_url"%string, JStr (get_str gw "template_url"));
   ("gateway_instance_id"%string, JStr (get_str gw "gateway_instance_id"));
   ("verifier_addr"%string, JStr (get_str ver "addr"));
   ("verifier_tls_enabled"%string, JBool (bool_decide (is_Some (entry ver "tls_ca_cert"))));
   ("verifier_tls_server_name"%string, JStr (get_str ver "tls_server_name"));
   ("verifier_health_probe_staleness_ms"%string, JInt (get_u64 ver "health_probe_staleness_ms" 10000));
   ("share_upstream_url"%string, JStr (unwrap_or (entry su "url" ≫= as_str) ""%string));
   ("share_upstream_secret_set"%string, JBool (bool_decide (is_Some (env !! "VELDRA_SHARE_UPSTREAM_SECRET"%string))));
   ("share_upstream_retries"%string, JInt (get_u64 su "retries" 0));
   ("share_upstream_queue_size"%string, JInt (get_u64 su "forward_queue_size" 0));
   ("share_upstream_max_in_flight"%string, JInt (get_u64 su "forward_max_in_flight" 0));
   ("share_upstream_drop_policy"%string, JStr (get_str su "forward_queue_drop_policy"));
   ("share_upstream_rate_limit"%string, json_opt (entry su "rate_limit_per_conn_per_sec" ≫= as_integer))].

(** [gw_get_settings]. *)
Definition gw_get_settings `{TomlDocs} (env : gmap string string) (snapshot : list (string * json)) (fs : Fs.t) : list (string * json) :=
  let pending_restart :=
    match read_text fs with
    | Some text =>
        match from_str text with
        | Ok doc => negb (bool_decide (build_settings_snapshot_from_toml env doc = snapshot))
        | Err _ => false
        end
    | None => false
    end in
  snapshot ++ [("pending_restart"%string, JBool pending_restart)].
End Shown.

(** ** Starting *)

Inductive StartRefusal : Type :=
| NoCryptoProvider | LoadRefused (e : LoadRefusal) | ApiSecretMissing | HmacSecretMissing | NoRuntime | NoStopSignal
| TlsRefused | NoHttpClient | NoTemplateUrl | KeyRefused (e : KeyLoadError) | ListenerRefused | TargetRefused.

(** What the start meets outside the process. *)
Module Boot.
Record t : Type := mk {
  provider : bool; runtime : bool; stop_signal : bool; http_client : bool; listener : bool;
  tls : string -> string -> string -> string -> bool; keypair_file : option bytes }.
End Boot.

(** What runs: the configuration and what is derived of it. Intervals are in milliseconds. *)
Module Running.
Record t {creds : Type} : Type := mk {
  config : GatewayConfig.t; template_base_url : string; forward_queue : Z; extranonce : ExtranonceAllocator.t;
  miners : option (creds * HandlerConfig.t); loop : LoopConfig.t;
  pending_sweep : Z; upstream_stale_check : Z; degrade_check : Z }.
Arguments t : clear implicits.
End Running.

Section Start.
Context `{TomlDocs, GatewayDocs, HexCrate, Secp256k1}.
Variable env : gmap string string.

Definition enforce_gateway_api_secret : bool :=
  Guards.enforce_api_secret (env !! "VELDRA_API_SECRET"%string) (env !! "VELDRA_API_SECRET_OPTIONAL"%string).
Definition enforce_share_hmac_secret (has_share_upstream : bool) : bool :=
  negb has_share_upstream
  || Guards.enforce_hmac_secret (env !! "VELDRA_SHARE_UPSTREAM_SECRET"%string) (env !! "VELDRA_SHARE_HMAC_OPTIONAL"%string).

Definition build_verifier_tls (tls : string -> string -> string -> string -> bool) (c : GatewayConfig.t) : bool :=
  let v := GatewayConfig.verifier c in
  match VerifierSection.tls_ca_cert v, VerifierSection.tls_client_cert v, VerifierSection.tls_client_key v with
  | Some ca, Some cert, Some key => tls ca cert key (VerifierSection.tls_server_name v)
  | _, _, _ => false
  end.

Definition resolve_template_url (g : GatewaySection.t) : option string :=
  if bool_decide (GatewaySection.template_url g = ""%string) then
    match env !! "VELDRA_TEMPLATE_URL"%string with
    | Some v => if bool_decide (v = ""%string) then None else Some v
    | None => None
    end
  else Some (GatewaySection.template_url g).

(** [mpsc::channel] panics without room, and beyond the permits of its semaphore. *)
Definition MAX_PERMITS : Z := 2 ^ 61 - 1.
Definition channel_panics (buffer : Z) : bool := (buffer =? 0) || (buffer >? MAX_PERMITS).

Definition forward_queue_size (c : GatewayConfig.t) : Z :=
  match GatewayConfig.share_upstream c with Some u => ShareUpstreamSection.forward_queue_size u | None => 1000 end.

Definition share_secret : bytes := lit (unwrap_or (env !! "VELDRA_SHARE_UPSTREAM_SECRET"%string) ""%string).

Definition handler_config (g : GatewaySection.t) (channel_target : bytes) : HandlerConfig.t :=
  HandlerConfig.mk (GatewaySection.max_channels_per_conn g) channel_target
    (from_millis (GatewaySection.channel_open_timeout_ms g)) (GatewaySection.ntime_elapsed_slack_seconds g)
    (GatewaySection.max_future_block_time_seconds g) (GatewaySection.share_dedup_window_size g)
    (GatewaySection.max_shares_per_second_per_channel g) (GatewaySection.gateway_instance_id g) share_secret
    (GatewaySection.extended_channels_enabled g) (Z.to_nat (GatewaySection.extranonce_prefix_len g))
    (GatewaySection.vardiff_enabled g) (GatewaySection.vardiff_target_shares_per_min g)
    (GatewaySection.vardiff_retarget_interval_secs g * 1000000000) (GatewaySection.vardiff_min_difficulty g)
    (GatewaySection.vardiff_max_difficulty g) (GatewaySection.vardiff_max_adjustment_factor g).

(** The listener of the modes with miners. *)
Definition start_miners (b : Boot.t) (c : GatewayConfig.t) : result (option (AuthorityCredentials * HandlerConfig.t)) StartRefusal :=
  let g := GatewayConfig.gateway c in
  if accepts_miners (GatewayConfig.mode c) then
    let? creds := map_err KeyRefused (load_authority_credentials (Boot.keypair_file b) (GatewaySection.authority_pubkey g)
                                        (GatewaySection.noise_cert_validity_secs g)) in
    if negb (Boot.listener b) then Err ListenerRefused
    else match GatewaySection.channel_target_hex g with
         | Some hex_str =>
             let? channel_target := map_err (fun _ => TargetRefused) (display_hex_to_wire_bytes hex_str) in
             Ok (Some (creds, handler_config g channel_target))
         | None => Err TargetRefused
         end
  else Ok None.

Definition loop_config (c : GatewayConfig.t) : LoopConfig.t :=
  let g := GatewayConfig.gateway c in
  LoopConfig.mk (GatewayConfig.mode c) (GatewaySection.auto_degrade g) (GatewaySection.auto_degrade_after_ms g)
    (GatewaySection.max_template_age_ms g) (GatewaySection.prevhash_stale_hold_ms g) (GatewaySection.upstream_stale_max_ms g)
    (GatewaySection.upstream_failure_policy g) (GatewaySection.gateway_instance_id g).

Definition run_gateway (b : Boot.t) (c : GatewayConfig.t) : checked (result (Running.t AuthorityCredentials) StartRefusal) :=
  let g := GatewayConfig.gateway c in
  if negb (Boot.stop_signal b) then Returns (Err NoStopSignal)
  else if tls_enabled c && negb (build_verifier_tls (Boot.tls b) c) then Returns (Err TlsRefused)
  else if negb (Boot.http_client b) then Returns (Err NoHttpClient)
  else match resolve_template_url g with
  | None => Returns (Err NoTemplateUrl)
  | Some url =>
      if channel_panics (forward_queue_size c) then Panics
      else match ExtranonceAllocator.with_prefix_len (Z.to_nat (GatewaySection.extranonce_prefix_len g)) with
      | None => Panics
      | Some alloc =>
          match start_miners b c with
          | Err e => Returns (Err e)
          | Ok miners =>
              Returns (Ok (Running.mk _ c url (forward_queue_size c) alloc miners (loop_config c)
                (Z.max (GatewaySection.max_template_age_ms g) 1000)
                (Z.max (GatewaySection.upstream_stale_max_ms g) 1000 / 2)
                (Z.max (GatewaySection.auto_degrade_after_ms g) 2000 / 2)))
          end
      end
  end.

(** [main]; [file] is the configuration file as [read_to_string] gives it. *)
Definition start_gateway (b : Boot.t) (file : option string) : checked (result (Running.t AuthorityCredentials) StartRefusal) :=
  if negb (Boot.provider b) then Returns (Err NoCryptoProvider)
  else match load_gateway_config env file with
  | Err e => Returns (Err (LoadRefused e))
  | Ok (c, _) =>
      if negb enforce_gateway_api_secret then Returns (Err ApiSecretMissing)
      else if negb (enforce_share_hmac_secret (bool_decide (is_Some (GatewayConfig.share_upstream c)))) then Returns (Err HmacSecretMissing)
      else if negb (Boot.runtime b) then Returns (Err NoRuntime)
      else run_gateway b c
  end.
End Start.

(** The path the settings endpoints read and write, and the one of the start: an argument of the command
    line goes ahead of the environment. *)
Definition gw_config_path (env : gmap string string) : string := unwrap_or (env !! "VELDRA_GATEWAY_CONFIG"%string) "config/gateway.toml"%string.
Definition cli_config (arg : option string) (env : gmap string string) : option string :=
  match arg with Some p => Some p | None => env !! "VELDRA_GATEWAY_CONFIG"%string end.

(** [tokio::time::interval] panics on a period of zero; the stream of the verifier makes one of the
    heartbeat interval. *)
Definition heartbeat_panics (c : GatewayConfig.t) : bool := VerifierSection.heartbeat_interval_ms (GatewayConfig.verifier c) =? 0.

(** ** Reloading the key *)

Inductive KeyReloadTrigger : Type := Sighup | FilePoll.

(** The key file as one turn of the task sees it: its time of change when the poll fires, its contents
    when it is read, and its time of change after it was loaded. *)
Module KeyFile.
Record t : Type := mk { mtime_polled : option Z; contents : option bytes; mtime_after : option Z }.
End KeyFile.

Module Reload.
Record t {creds : Type} : Type := mk { last_mtime : option Z; credentials : creds; hmac_secret : bytes }.
Arguments t : clear implicits.
End Reload.

Section KeyReload.
Context `{HexCrate, Secp256k1}.
Variable env : gmap string string.
Variable authority_pubkey : string.
Variable cert_validity_secs : Z.

(** One turn of [run_key_reload_task]; [poisoned] is the state of the lock of the secret. *)
Definition reload_turn (trigger : KeyReloadTrigger) (file : KeyFile.t) (poisoned : bool) (s : Reload.t AuthorityCredentials)
    : Reload.t AuthorityCredentials :=
  if match trigger with FilePoll => bool_decide (KeyFile.mtime_polled file = Reload.last_mtime s) | Sighup => false end then s
  else
    let s :=
      match load_authority_credentials (KeyFile.contents file) authority_pubkey cert_validity_secs with
      | Ok new_creds => Reload.mk _ (KeyFile.mtime_after file) new_creds (Reload.hmac_secret s)
      | Err _ => s
      end in
    match trigger with
    | FilePoll => s
    | Sighup =>
        let new_secret := share_secret env in
        let changed := poisoned || negb (bool_decide (Reload.hmac_secret s = new_secret)) in
        if changed && negb poisoned then Reload.mk _ (Reload.last_mtime s) (Reload.credentials s) new_secret else s
    end.
End KeyReload.

(** * Properties *)

(** ** A saved file starts *)

Lemma patch_lookup_ne r gw key : key ∉ (GwSaveSettingsReq.entries r).*1 -> GwSaveSettingsReq.patch r gw !! key = gw !! key.
Proof.
  unfold GwSaveSettingsReq.patch. revert gw. induction (GwSaveSettingsReq.entries r) as [|[k o] l IH]; intros gw; [done|].
  cbn. intros [Hk Hl]%not_elem_of_cons. rewrite IH by done. destruct o; [by rewrite lookup_insert_ne|done].
Qed.

(** The settings of automatic degradation, the authority's key, the source of templates and the length of
    the extranonce prefix are not among the keys of a request. *)
Definition fixed_keys : list string :=
  ["auto_degrade"; "auto_degrade_after_ms"; "authority_pubkey"; "template_url"; "extranonce_prefix_len"]%string.

Lemma fixed_not_patched r : Forall (fun k => k ∉ (GwSaveSettingsReq.entries r).*1) fixed_keys.
Proof. apply (bool_decide_unpack _). vm_compute. exact I. Qed.

Lemma patch_keeps_some r gw key : is_Some (gw !! key) -> is_Some (GwSaveSettingsReq.patch r gw !! key).
Proof.
  unfold GwSaveSettingsReq.patch. revert gw. induction (GwSaveSettingsReq.entries r) as [|[k o] l IH]; intros gw Hk; [done|].
  cbn. apply IH. destruct o; [|done]. destruct (decide (k = key)) as [->|]; [by rewrite lookup_insert_eq|by rewrite lookup_insert_ne].
Qed.

Lemma bind_elim {A B} (o : option A) (k : A -> option B) b (P : Prop) :
  (forall a, o = Some a -> k a = Some b -> P) -> o ≫= k = Some b -> P.
Proof. intros HP (a & Ho & Hk)%bind_Some. by eapply HP. Qed.

Lemma need_ext {A} (t t' : gmap string toml) k (read : toml -> option A) : t !! k = t' !! k -> need t k read = need t' k read.
Proof. unfold need. by intros ->. Qed.
Lemma field_ext {A} (t t' : gmap string toml) k (d : A) read : t !! k = t' !! k -> field t k d read = field t' k d read.
Proof. unfold field. by intros ->. Qed.

Lemma field_present {A} (t : gmap string toml) k (d : A) read v : t !! k = Some v -> field t k d read = read v.
Proof. unfold field. by intros ->. Qed.
Lemma field_absent {A} (t : gmap string toml) k (d : A) read : t !! k = None -> field t k d read = Some d.
Proof. unfold field. by intros ->. Qed.

(** The fields of the section that bear on the mode are read from their keys. *)
Lemma gateway_fields `{GatewayDocs} env t g : gateway_of_table env t = Some g ->
  field t "auto_degrade" Defaults.auto_degrade as_bool = Some (GatewaySection.auto_degrade g) /\
  field t "auto_degrade_after_ms" Defaults.auto_degrade_after_ms (as_uint 64) = Some (GatewaySection.auto_degrade_after_ms g) /\
  field t "channel_target_hex" None (as_some as_str) = Some (GatewaySection.channel_target_hex g) /\
  field t "upstream_failure_policy" Defaults.upstream_failure_policy as_upstream_failure_policy = Some (GatewaySection.upstream_failure_policy g) /\
  need t "authority_pubkey" as_str = Some (GatewaySection.authority_pubkey g) /\
  field t "template_url" EmptyString as_str = Some (GatewaySection.template_url g) /\
  field t "extranonce_prefix_len" Defaults.extranonce_prefix_len (as_uint 64) = Some (GatewaySection.extranonce_prefix_len g).
Proof.
  unfold gateway_of_table. destruct (known_only _ _); [|done]. change (negb true) with false. cbv iota.
  repeat (refine (bind_elim _ _ _ _ _); intros ? ?). intros [= <-].
  cbn [GatewaySection.auto_degrade GatewaySection.auto_degrade_after_ms GatewaySection.channel_target_hex GatewaySection.upstream_failure_policy
    GatewaySection.authority_pubkey GatewaySection.template_url GatewaySection.extranonce_prefix_len].
  split_and!; assumption.
Qed.

Section Saves.
Context `{TomlDocs, !TomlDocsLaws, GatewayDocs, HexCrate, Secp256k1}.
Variable env : gmap string string.
Variable boot : Boot.t.

(** What a save cannot change in the section. *)
Record same_fixed (g g' : GatewaySection.t) : Prop := {
  sf_auto : GatewaySection.auto_degrade g' = GatewaySection.auto_degrade g;
  sf_after : GatewaySection.auto_degrade_after_ms g' = GatewaySection.auto_degrade_after_ms g;
  sf_pubkey : GatewaySection.authority_pubkey g' = GatewaySection.authority_pubkey g;
  sf_url : GatewaySection.template_url g' = GatewaySection.template_url g;
  sf_prefix : GatewaySection.extranonce_prefix_len g' = GatewaySection.extranonce_prefix_len g;
  sf_target : GatewaySection.channel_target_hex g' = None -> GatewaySection.channel_target_hex g = None
}.

(** And in the configuration: nothing that the mode or the start has a say in gets worse. *)
Record no_worse (c c' : GatewayConfig.t) : Prop := {
  nw_mode : GatewayConfig.mode c' = GatewayConfig.mode c;
  nw_upstream : GatewayConfig.share_upstream c' = GatewayConfig.share_upstream c;
  nw_verifier : GatewayConfig.verifier c' = GatewayConfig.verifier c;
  nw_section : same_fixed (GatewayConfig.gateway c) (GatewayConfig.gateway c')
}.

Lemma patched_section r gw g g' : gateway_of_table env gw = Some g -> gateway_of_table env (GwSaveSettingsReq.patch r gw) = Some g' ->
  same_fixed g g'.
Proof.
  intros (Ha & Hb & Ht & _ & Hk & Hu & Hx)%gateway_fields (Ha' & Hb' & Ht' & _ & Hk' & Hu' & Hx')%gateway_fields.
  pose proof (fixed_not_patched r) as Hf. unfold fixed_keys in Hf. rewrite !Forall_cons in Hf. destruct Hf as (F1 & F2 & F3 & F4 & F5 & _).
  rewrite (field_ext _ gw _ _ _ (patch_lookup_ne r gw _ F1)), Ha in Ha'. rewrite (field_ext _ gw _ _ _ (patch_lookup_ne r gw _ F2)), Hb in Hb'.
  rewrite (need_ext _ gw _ _ (patch_lookup_ne r gw _ F3)), Hk in Hk'. rewrite (field_ext _ gw _ _ _ (patch_lookup_ne r gw _ F4)), Hu in Hu'.
  rewrite (field_ext _ gw _ _ _ (patch_lookup_ne r gw _ F5)), Hx in Hx'. apply (inj Some) in Ha', Hb', Hk', Hu', Hx'. constructor; try done.
  intros Hn. rewrite Hn in Ht'. destruct (gw !! "channel_target_hex"%string) as [y|] eqn:Ey.
  - destruct (patch_keeps_some r gw "channel_target_hex" (mk_is_Some _ _ Ey)) as [z Hz]. rewrite (field_present _ _ _ _ _ Hz) in Ht'.
    unfold as_some in Ht'. by destruct (as_str z).
  - rewrite (field_absent _ _ _ _ Ey) in Ht. by apply (inj Some) in Ht.
Qed.

Lemma patched_gateway r doc g g' : need doc "gateway" (as_struct (gateway_of_table env) (gateway_of_else env)) = Some g ->
  need (patch_doc r doc) "gateway" (as_struct (gateway_of_table env) (gateway_of_else env)) = Some g' -> same_fixed g g'.
Proof.
  unfold need. intros (x & Hx & Hg)%bind_Some (x' & Hx' & Hg')%bind_Some. unfold patch_doc in Hx'. rewrite Hx in Hx'.
  destruct x as [| | | |gw|]; try (rewrite Hx in Hx'; apply (inj Some) in Hx'; subst x'; rewrite Hg in Hg'; apply (inj Some) in Hg'; by subst g').
  rewrite lookup_insert_eq in Hx'. apply (inj Some) in Hx'. subst x'. exact (patched_section r gw g g' Hg Hg').
Qed.

Lemma patch_doc_others r doc k : k <> "gateway"%string -> patch_doc r doc !! k = doc !! k.
Proof. intros Hne. unfold patch_doc. repeat case_match; rewrite ?lookup_insert_ne by done; done. Qed.

Lemma patched_no_worse r doc c c' : config_of_doc env doc = Some c -> config_of_doc env (patch_doc r doc) = Some c' -> no_worse c c'.
Proof.
  unfold config_of_doc. destruct (known_only _ doc); [|done]. destruct (known_only _ (patch_doc r doc)); [|done].
  change (negb true) with false. cbv iota.
  refine (bind_elim _ _ _ _ _); intros m Hm. refine (bind_elim _ _ _ _ _); intros g Hg. refine (bind_elim _ _ _ _ _); intros v Hv.
  refine (bind_elim _ _ _ _ _); intros u Hu. intros Hc. apply (inj Some) in Hc. subst c.
  refine (bind_elim _ _ _ _ _); intros m' Hm'. refine (bind_elim _ _ _ _ _); intros g' Hg'. refine (bind_elim _ _ _ _ _); intros v' Hv'.
  refine (bind_elim _ _ _ _ _); intros u' Hu'. intros Hc. apply (inj Some) in Hc. subst c'.
  rewrite (need_ext _ doc) in Hv' by (by apply patch_doc_others). rewrite (field_ext _ doc) in Hu' by (by apply patch_doc_others).
  rewrite (need_ext _ doc) in Hm' by (by apply patch_doc_others).
  rewrite Hv in Hv'. rewrite Hu in Hu'. rewrite Hm in Hm'. apply (inj Some) in Hv', Hu', Hm'. subst v' u' m'.
  constructor; try done. exact (patched_gateway r doc g g' Hg Hg').
Qed.

(** A configuration that passes in the file's mode passes in another one in which the old file passed. *)
Lemma override_admissible m c c' : no_worse c c' -> admissible env (GatewayConfig.with_mode m c) -> admissible env c' ->
  admissible env (GatewayConfig.with_mode m c').
Proof.
  intros [_ Hu Hv [Ha Hb _ _ _ Ht]] [D1 D2 D3 D4 D5 D6 D7 D8 D9 D10] [E1 E2 E3 E4 E5 E6 E7 E8 E9 E10].
  constructor; try done.
  - cbn in *. by rewrite Hu.
  - unfold target_ok in *. cbn in *. destruct (GatewaySection.channel_target_hex (GatewayConfig.gateway c')); [done|]. by rewrite Ht in D3.
  - unfold degrades in *. cbn in *. by rewrite Hv, Ha, Hb.
Qed.

(** The file is one the gateway starts with, in this environment and with what [boot] says of the rest of
    the machine, and whose heartbeats to the verifier can be timed. *)
Definition startable (fs : Fs.t) : Prop :=
  exists r, start_gateway env boot (read_text fs) = Returns (Ok r) /\ heartbeat_panics (Running.config r) = false.

(** What the start asks of a configuration that loaded. *)
Definition starts (c : GatewayConfig.t) : Prop :=
  Boot.provider boot = true /\ enforce_gateway_api_secret env = true /\
  enforce_share_hmac_secret env (bool_decide (is_Some (GatewayConfig.share_upstream c))) = true /\ Boot.runtime boot = true /\
  heartbeat_panics c = false /\ exists r, run_gateway env boot c = Returns (Ok r).

Lemma run_gateway_config c r : run_gateway env boot c = Returns (Ok r) -> Running.config r = c.
Proof. unfold run_gateway. intros Hr. repeat case_match; try done. by injection Hr as <-. Qed.

Lemma startable_loads fs : startable fs <-> exists c ws, load_gateway_config env (read_text fs) = Ok (c, ws) /\ starts c.
Proof.
  unfold startable, starts, start_gateway. destruct (Boot.provider boot); cbn [negb];
    [|split; [by intros (? & [=] & _)|by intros (? & ? & _ & [=] & _)]].
  destruct (load_gateway_config env (read_text fs)) as [[c ws]|];
    [|split; [by intros (? & [=] & _)|by intros (? & ? & [=] & _)]].
  split.
  - intros (r & Hr & Hh). exists c, ws. destruct (enforce_gateway_api_secret env); [|done]. destruct (enforce_share_hmac_secret env _); [|done].
    destruct (Boot.runtime boot); [|done]. cbn [negb] in Hr. rewrite (run_gateway_config _ _ Hr) in Hh. eauto 10.
  - intros (c' & ws' & [= <- <-] & _ & -> & -> & -> & Hh & r & Hr). cbn [negb]. exists r. by rewrite (run_gateway_config _ _ Hr).
Qed.

(** The validity of the certificates has no part in loading the key. *)
Lemma load_any_validity file hex v v' creds : load_authority_credentials file hex v = Ok creds ->
  exists creds', load_authority_credentials file hex v' = Ok creds'.
Proof.
  unfold load_authority_credentials. destruct file as [sk|]; [|done]. cbn [ok_or result_bind]. case_if; [done|].
  destruct (secret_key_from_slice sk); [|done]. cbn [map_err result_bind]. case_if; [done|].
  destruct (hex_decode hex); [|done]. cbn [map_err result_bind]. destruct (x_only_from_slice _); [|done]. cbn [map_err result_bind].
  case_bool_decide; [by eexists|done].
Qed.

Lemma miners_no_worse c c' m : no_worse c c' -> admissible env c' -> start_miners env boot c = Ok m ->
  exists m', start_miners env boot c' = Ok m'.
Proof.
  intros [Hm Hu Hv Hs] Ha. unfold start_miners. rewrite Hm, (sf_pubkey _ _ Hs).
  destruct (accepts_miners (GatewayConfig.mode c)) eqn:Em; [|by eexists].
  destruct (load_authority_credentials _ _ _) as [creds|] eqn:El; [|done]. intros Hc.
  destruct (load_any_validity _ _ _ (GatewaySection.noise_cert_validity_secs (GatewayConfig.gateway c')) _ El) as [creds' ->].
  cbn [map_err result_bind] in *. destruct (Boot.listener boot); [|done]. cbn [negb] in *.
  pose proof (adm_target _ _ Ha) as Ht. unfold target_ok, target_value in Ht.
  destruct (GatewaySection.channel_target_hex (GatewayConfig.gateway c')) as [hex|] eqn:Eh.
  - destruct Ht as (t & Ht & _). destruct (display_hex_to_wire_bytes hex); [by eexists|done].
  - by rewrite (sf_target _ _ Hs Eh) in Hc.
Qed.

(** A save takes no start away. *)
Lemma starts_no_worse c c' : no_worse c c' -> admissible env c' -> starts c -> starts c'.
Proof.
  intros Hnw Ha (Hp & Hapi & Hhmac & Hrt & Hh & r & Hr). pose proof Hnw as [Hm Hu Hv Hs]. unfold starts. rewrite Hu. split_and!; try done.
  { unfold heartbeat_panics in *. by rewrite Hv. }
  assert (tls_enabled c' = tls_enabled c) as Htls by (unfold tls_enabled; by rewrite Hv).
  assert (build_verifier_tls (Boot.tls boot) c' = build_verifier_tls (Boot.tls boot) c) as Hb by (unfold build_verifier_tls; by rewrite Hv).
  assert (resolve_template_url env (GatewayConfig.gateway c') = resolve_template_url env (GatewayConfig.gateway c)) as Hurl
    by (unfold resolve_template_url; by rewrite (sf_url _ _ Hs)).
  assert (forward_queue_size c' = forward_queue_size c) as Hq by (unfold forward_queue_size; by rewrite Hu).
  revert Hr. unfold run_gateway. rewrite Htls, Hb, Hurl, Hq, (sf_prefix _ _ Hs). cbv zeta. do 3 (case_if; [done|]).
  destruct (resolve_template_url env (GatewayConfig.gateway c)) as [url|]; [|done]. case_if; [done|]. destruct (ExtranonceAllocator.with_prefix_len _); [|done].
  destruct (start_miners env boot c) as [m|] eqn:Em; [|done]. destruct (miners_no_worse c c' m Hnw Ha Em) as [m' ->]. by eexists.
Qed.

Lemma reads_config fs c : read_toml (config_of_doc env) fs = Ok c <-> read_text fs ≫= config_of_text env = Some c.
Proof.
  unfold read_toml, read_text. destruct (Fs.contents File fs) as [b|]; [|split; intros Hx; discriminate Hx].
  change (Some b ≫= ?f) with (f b). cbv beta. cbn [ok_or result_bind].
  destruct (utf8_valid b); cbn [negb]; [|split; intros Hx; discriminate Hx].
  change (Some ?t ≫= ?f) with (f t). unfold config_of_text.
  destruct (from_str _) as [doc|]; cbn [map_err result_bind]; [|split; intros Hx; discriminate Hx].
  destruct (config_of_doc env doc); cbn [ok_or]; split; intros Hx; (discriminate Hx || by injection Hx as ->).
Qed.

Lemma startable_iff fs : startable fs <->
  exists c c2, read_toml (config_of_doc env) fs = Ok c /\ mode_override env c = Ok c2 /\ admissible env c2 /\ starts c2.
Proof.
  rewrite startable_loads. unfold load_gateway_config. setoid_rewrite reads_config. destruct (read_text fs) as [text|]; cbn [ok_or result_bind mbind option_bind];
    [|split; [intros (? & ? & Hx & _)|intros (? & ? & Hx & _)]; discriminate Hx].
  change (Some text ≫= config_of_text env) with (config_of_text env text).
  destruct (config_of_text env text) as [c|]; cbn [ok_or result_bind]; [|split; [intros (? & ? & Hx & _)|intros (? & ? & Hx & _)]; discriminate Hx].
  split.
  - intros (c2 & ws & Hl & Hst). destruct (mode_override env c) as [c'|] eqn:Em; [|done]. cbn [result_bind] in Hl.
    destruct (validate c' env) as [ws'|] eqn:Ev; [|done]. cbn [map_err result_bind] in Hl. injection Hl as <- _.
    exists c, c'. split_and!; [done|done|by eapply accepted_admissible|done].
  - intros (c1 & c2 & Hc & Hm & Ha & Hst). apply (inj Some) in Hc. subst c1. rewrite Hm. cbn [result_bind].
    rewrite (admissible_accepted env c2 Ha). cbn [map_err result_bind]. eauto.
Qed.

Lemma override_patched r doc c c' c2 : config_of_doc env doc = Some c -> config_of_doc env (patch_doc r doc) = Some c' ->
  admissible env c' -> mode_override env c = Ok c2 -> admissible env c2 -> starts c2 ->
  exists c2', mode_override env c' = Ok c2' /\ admissible env c2' /\ starts c2'.
Proof.
  intros Hc Hc' Ha' Hm Ha Hst. pose proof (patched_no_worse r doc c c' Hc Hc') as Hnw. unfold mode_override in *.
  destruct (env !! _) as [value|].
  - destruct (mode_of_env value) as [m|]; [|done]. cbn [result_bind] in *.
    injection Hm as <-. eexists. split; [done|]. pose proof (override_admissible m c c' Hnw Ha Ha') as Ha2. split; [done|].
    eapply starts_no_worse; [|done..]. by destruct Hnw; constructor.
  - injection Hm as <-. exists c'. split_and!; [done|done|]. by eapply starts_no_worse.
Qed.

(** The document a save writes. *)
Definition patched_doc (r : GwSaveSettingsReq.t) (fs : Fs.t) : option (gmap string toml) :=
  text ← read_text fs; match from_str text with Ok doc => Some (patch_doc r doc) | Err _ => None end.

(** A save one after the other; and the end of the process after any of the system calls of one that was
    on its way to succeed, with a new start. *)
Inductive save_step : GwAdmin.t -> GwAdmin.t -> Prop :=
| step_saved w now disk r s : cut_of (patched_doc r (GwAdmin.fs s)) disk ->
    save_step s (gw_save_settings env w now disk r s).2
| step_crashed w now disk r s ws n backup : cut_of (patched_doc r (GwAdmin.fs s)) disk ->
    (gw_save_settings env w now disk r s).1 = GwSaved ws ->
    save_step s (GwAdmin.mk [] (perform_all w (take n (save_effects (Disk.chunks disk) backup)) (GwAdmin.fs s))).

(** How far a save gets before it writes: a configuration that passes. *)
Definition save_ready (r : GwSaveSettingsReq.t) (fs : Fs.t) (doc : gmap string toml) : Prop :=
  exists text c', patched_doc r fs = Some (patch_doc r doc) /\ read_text fs ≫= (fun t => match from_str t with Ok d => Some d | Err _ => None end) = Some doc /\
    to_string_pretty (patch_doc r doc) = Some text /\ config_of_doc env (patch_doc r doc) = Some c' /\ admissible env c'.

Lemma save_cases w now disk r s :
  let '(a, s') := gw_save_settings env w now disk r s in
  GwAdmin.fs s' = GwAdmin.fs s /\ (forall ws, a <> GwSaved ws) \/
  exists doc, save_ready r (GwAdmin.fs s) doc /\ GwAdmin.fs s' = (atomic_write_toml w (Some (patch_doc r doc)) disk (GwAdmin.fs s)).2.
Proof.
  unfold gw_save_settings. destruct (Throttle.admits _ _) as [ok ts]. cbn [GwAdmin.fs]. destruct ok; [|by left]. cbn [negb].
  destruct (read_text (GwAdmin.fs s)) as [text|] eqn:Er; [|by left]. destruct (from_str text) as [doc|] eqn:Ed; [|by left]. cbv zeta.
  destruct (to_string_pretty (patch_doc r doc)) as [ptext|] eqn:Et; [|by left].
  destruct (config_of_text env ptext) as [c'|] eqn:Ec; [|by left]. destruct (validate c' env) as [ws|] eqn:Ev; [|by left].
  assert (save_ready r (GwAdmin.fs s) doc) as Hr.
  { exists ptext, c'. unfold patched_doc. rewrite Er. do 2 change (Some text ≫= ?f) with (f text). cbv beta. rewrite Ed. split_and!; try done; [|by eapply accepted_admissible].
    unfold config_of_text in Ec. by rewrite (docs_round_trip _ _ Et) in Ec. }
  destruct (atomic_write_toml _ _ _ _) as [[[]|] fs'] eqn:Ew; right; exists doc; by rewrite Ew.
Qed.

(** Whichever of the two files is there, the old or the new one, the gateway starts with it. *)
Lemma either_startable r fs fs' doc text : save_ready r fs doc -> startable fs -> to_string_pretty (patch_doc r doc) = Some text ->
  Fs.contents File fs' = Fs.contents File fs \/ Fs.contents File fs' = Some (lit text) -> startable fs'.
Proof.
  intros (text' & c' & Hp & Hd & Ht & Hc' & Ha') Hs Htext [Ho|Hn].
  { apply startable_iff in Hs as (c & c2 & Hr & Hm & Ha & Hst). apply startable_iff. exists c, c2. split; [|done]. rewrite <-Hr. unfold read_toml. by rewrite Ho. }
  apply startable_iff in Hs as (c & c2 & Hr & Hm & Ha & Hst). apply reads_config in Hr.
  assert (config_of_doc env doc = Some c) as Hc.
  { destruct (read_text fs) as [t|]; [|done]. change (Some t ≫= ?f) with (f t) in Hr. change (Some t ≫= ?f) with (f t) in Hd. cbv beta in *.
    unfold config_of_text in Hr. destruct (from_str t); [|done]. by injection Hd as ->. }
  destruct (override_patched r doc c c' c2 Hc Hc' Ha' Hm Ha Hst) as (c2' & Hm' & Ha2' & Hst'). apply startable_iff. exists c', c2'. split; [|done].
  unfold read_toml. rewrite Hn. cbn [ok_or result_bind]. rewrite (docs_utf8 _ _ Htext). cbn [negb]. rewrite string_of_lit, (docs_round_trip _ _ Htext).
  cbn [map_err result_bind]. by rewrite Hc'.
Qed.

Lemma save_step_keeps s s' : save_step s s' -> fs_ok (GwAdmin.fs s) /\ startable (GwAdmin.fs s) -> fs_ok (GwAdmin.fs s') /\ startable (GwAdmin.fs s').
Proof.
  intros [w now disk r s0 Hcut|w now disk r s0 ws n backup Hcut Ha] [Hok Hs]; pose proof (save_cases w now disk r s0) as Hc;
    destruct (gw_save_settings env w now disk r s0) as [a s1]; cbn [fst snd] in *.
  - destruct Hc as [[-> _]|(doc & Hr & ->)]; [done|]. split; [by apply atomic_write_ok|].
    destruct Hr as (text & c' & Hp & Hd & Ht & Hrest). assert (save_ready r (GwAdmin.fs s0) doc) as Hr by (by exists text, c'). rewrite Hp in Hcut.
    apply (either_startable r (GwAdmin.fs s0) _ doc text Hr Hs Ht). by apply atomic_write_either.
  - cbn [GwAdmin.fs]. destruct Hc as [[_ Hn]|(doc & Hr & _)]; [by apply Hn in Ha|]. split; [by apply perform_all_ok|].
    destruct Hr as (text & c' & Hp & Hd & Ht & Hrest). assert (save_ready r (GwAdmin.fs s0) doc) as Hr by (by exists text, c').
    rewrite Hp in Hcut. apply (either_startable r (GwAdmin.fs s0) _ doc text Hr Hs Ht). rewrite <-(Hcut text Ht). by apply crash_leaves_either.
Qed.

(** C17 A gateway that starts keeps starting: take a file from which the start reaches the main loop, past
    every refusal and panic on the way, and whose heartbeat interval is not zero. Whatever settings are
    saved one after the other through the interface, with failed writes and with the process stopped in
    the middle of a write, the file is always one from which it does, in the same environment and with
    the same key, TLS files and listener, also when the environment sets another mode than the file,
    which the check of a save does not look at. *)
Theorem saves_keep_startable s s' : fs_ok (GwAdmin.fs s) -> startable (GwAdmin.fs s) -> star save_step s s' -> startable (GwAdmin.fs s').
Proof.
  intros Hok Hs Hrun.
  refine (proj2 (star_invariant save_step (fun s => fs_ok (GwAdmin.fs s) /\ startable (GwAdmin.fs s)) _ _ _ Hrun (conj Hok Hs))).
  intros s1 s2 Hx Hstep. by eapply save_step_keeps.
Qed.
End Saves.

(** ** What runs, and what stops a start *)

Section Started.
Context `{TomlDocs, GatewayDocs, HexCrate, Secp256k1}.
Variable env : gmap string string.

Lemma load_admissible file c ws : load_gateway_config env file = Ok (c, ws) -> admissible env c /\ ws = warnings_of c.
Proof.
  unfold load_gateway_config. destruct file as [text|]; [|done]. cbn [ok_or result_bind].
  destruct (config_of_text env text) as [c0|]; [|done]. cbn [ok_or result_bind]. destruct (mode_override env c0) as [c1|]; [|done]. cbn [result_bind].
  destruct (validate c1 env) as [ws'|] eqn:Ev; [|done]. cbn [map_err result_bind]. intros [= <- <-].
  pose proof (accepted_admissible env c1 ws' Ev) as Ha. split; [done|]. rewrite (admissible_accepted env c1 Ha) in Ev. by injection Ev.
Qed.

(** The miners are served with a key of the configured authority and a target that a share can meet. *)
Definition miners_ok (c : GatewayConfig.t) (miners : option (AuthorityCredentials * HandlerConfig.t)) : Prop :=
  match miners with
  | Some (creds, h) =>
      accepts_miners (GatewayConfig.mode c) = true /\
      length (HandlerConfig.channel_target h) = 32%nat /\ 2 ^ 160 <= from_le_bytes (HandlerConfig.channel_target h) /\
      exists pubkey, hex_decode (GatewaySection.authority_pubkey (GatewayConfig.gateway c)) = Ok pubkey /\
        x_only_from_slice pubkey = Ok (keypair_x_only (cred_keypair creds))
  | None => accepts_miners (GatewayConfig.mode c) = false
  end.

Lemma start_miners_ok b c miners : admissible env c -> start_miners env b c = Ok miners -> miners_ok c miners.
Proof.
  intros Ha. unfold start_miners, miners_ok. cbv zeta. destruct (accepts_miners _); [|by intros [= <-]].
  destruct (load_authority_credentials _ _ _) as [creds|] eqn:El; [|done]. cbn [map_err result_bind].
  destruct (Boot.listener b); [|done]. cbn [negb].
  destruct (GatewaySection.channel_target_hex _) as [hex|] eqn:Eh; [|done].
  destruct (display_hex_to_wire_bytes hex) as [t|] eqn:Ed; [|done]. cbn [map_err result_bind]. intros [= <-].
  cbn [HandlerConfig.channel_target handler_config]. split; [done|]. split; [by eapply wire_bytes_length|].
  pose proof (adm_target _ _ Ha) as Ht. unfold target_ok, target_value in Ht. rewrite Eh, Ed in Ht.
  destruct Ht as (x & [= <-] & Hx). split; [done|].
  apply load_authority_credentials_matches in El as (? & ? & pk & _ & _ & _ & _ & _ & Hd & Hp). eauto.
Qed.

Record running_ok (r : Running.t AuthorityCredentials) : Prop := {
  run_admissible : admissible env (Running.config r);
  run_secret : enforce_gateway_api_secret env = true;
  run_hmac : is_Some (GatewayConfig.share_upstream (Running.config r)) ->
    Guards.enforce_hmac_secret (env !! "VELDRA_SHARE_UPSTREAM_SECRET"%string) (env !! "VELDRA_SHARE_HMAC_OPTIONAL"%string) = true;
  run_url : Running.template_base_url r <> ""%string;
  run_miners : miners_ok (Running.config r) (Running.miners r);
  run_prefix : (2 <= ExtranonceAllocator.prefix_len (Running.extranonce r) <= 8)%nat;
  run_mode : LoopConfig.mode (Running.loop r) = GatewayConfig.mode (Running.config r);
  run_intervals : 1000 <= Running.pending_sweep r /\ 500 <= Running.upstream_stale_check r /\ 1000 <= Running.degrade_check r
}.

(** The settings that [validate] lets pass and the start does not survive. *)
Definition unstartable (c : GatewayConfig.t) : Prop :=
  let len := Z.to_nat (GatewaySection.extranonce_prefix_len (GatewayConfig.gateway c)) in
  forward_queue_size c = 0 \/ MAX_PERMITS < forward_queue_size c \/ (len < 2)%nat \/ (8 < len)%nat.

Lemma run_gateway_spec b c : admissible env c -> enforce_gateway_api_secret env = true ->
  enforce_share_hmac_secret env (bool_decide (is_Some (GatewayConfig.share_upstream c))) = true ->
  match run_gateway env b c with
  | Returns (Ok r) => Running.config r = c /\ running_ok r /\ ~ unstartable c
  | Returns (Err _) => True
  | Panics => unstartable c
  end.
Proof.
  intros Ha Hs Hh. unfold run_gateway. cbv zeta. destruct (negb (Boot.stop_signal b)); [done|]. destruct (tls_enabled c && _); [done|].
  destruct (negb (Boot.http_client b)); [done|]. destruct (resolve_template_url env _) as [url|] eqn:Eu; [|done].
  destruct (channel_panics (forward_queue_size c)) eqn:Eq.
  { unfold channel_panics in Eq. unfold unstartable. apply orb_prop in Eq as [Eq|Eq]; z_bool; auto. }
  unfold channel_panics in Eq. apply orb_false_elim in Eq as [Eq1 Eq2]. z_bool. unfold ExtranonceAllocator.with_prefix_len.
  destruct (_ && _) eqn:Ep.
  2:{ unfold unstartable. apply andb_false_elim in Ep as [Ep|Ep]; apply Nat.leb_gt in Ep; lia. }
  apply andb_prop in Ep as [Ep1 Ep2]. apply Nat.leb_le in Ep1, Ep2.
  destruct (start_miners env b c) as [miners|e] eqn:Em; [|done]. split; [done|]. split; [|unfold unstartable; lia]. constructor; cbn.
  - done.
  - done.
  - intros Hu. rewrite bool_decide_true in Hh by done. done.
  - unfold resolve_template_url in Eu. destruct (bool_decide (GatewaySection.template_url _ = _)) eqn:E1.
    + destruct (env !! _) as [u|]; [|done]. destruct (bool_decide (u = _)) eqn:E2; [done|]. apply (inj Some) in Eu. subst u. by apply bool_decide_eq_false in E2.
    + apply (inj Some) in Eu. subst url. by apply bool_decide_eq_false in E1.
  - by eapply start_miners_ok.
  - done.
  - done.
  - pose proof (adm_stale _ _ Ha). split_and!; [lia|apply Z.div_le_lower_bound; lia|apply Z.div_le_lower_bound; lia].
Qed.

(** What runs is what was checked: a gateway that starts has an admissible configuration in the mode of
    its environment, its secrets or the explicit opt-outs, a source of templates, an extranonce
    allocator, timers that tick, and, where it serves miners, a key of the configured authority and
    a target that a share can meet. The start does not return only for a queue of shares without room
    or an extranonce prefix outside its range, which the check of the configuration lets pass. *)
Theorem start_gateway_sound b file :
  match start_gateway env b file with
  | Returns (Ok r) => running_ok r /\ exists ws, load_gateway_config env file = Ok (Running.config r, ws)
  | Returns (Err _) => True
  | Panics => exists c ws, load_gateway_config env file = Ok (c, ws) /\ admissible env c /\ unstartable c
  end.
Proof.
  unfold start_gateway. destruct (negb (Boot.provider b)); [done|]. destruct (load_gateway_config env file) as [[c ws]|] eqn:El; [|done].
  pose proof (load_admissible file c ws El) as [Ha _]. destruct (enforce_gateway_api_secret env) eqn:Es; [|done]. cbn [negb].
  destruct (enforce_share_hmac_secret env _) eqn:Eh; [|done]. cbn [negb]. destruct (negb (Boot.runtime b)); [done|].
  pose proof (run_gateway_spec b c Ha Es Eh) as Hr. destruct (run_gateway env b c) as [[r|]|]; [|done|eauto].
  destruct Hr as (<- & Hr & _). split; [done|]. by exists ws.
Qed.
End Started.

(** ** What the settings show *)

Section Pending.
Context `{TomlDocs, GatewayDocs, DebugText}.
Variable env : gmap string string.

Lemma variant_text {A} (variants : list (string * A)) v x s : as_variant variants v = Some x -> as_str v = Some s ->
  s ∈ variants.*1.
Proof.
  destruct v; try done. intros Hv [= ->]. unfold as_variant in Hv. change (Some s ≫= ?f) with (f s) in Hv. cbv beta in Hv.
  destruct (find _ variants) as [[n y]|] eqn:Ef; [|done]. apply find_some in Ef as [Hin Hn]. apply String.eqb_eq in Hn. cbn in Hn. subst n.
  apply list_elem_of_fmap. exists (s, y). split; [done|]. by apply list_elem_of_In.
Qed.

(** The text of the policy in a configuration is never the lower case of a variant's name. *)
Lemma policy_text doc c p : config_of_doc env doc = Some c ->
  get_str (doc !! "gateway"%string) "upstream_failure_policy" <> lower_policy p.
Proof.
  unfold config_of_doc. destruct (known_only _ doc); [|done]. change (negb true) with false. cbv iota.
  refine (bind_elim _ _ _ _ _); intros m _. refine (bind_elim _ _ _ _ _); intros g Hg _. unfold need in Hg.
  apply bind_Some in Hg as (x & -> & Hg). unfold get_str, entry. destruct x as [| | | |gw|]; try (by destruct p).
  apply gateway_fields in Hg as (_ & _ & _ & Hp & _). destruct (gw !! "upstream_failure_policy"%string) as [v|] eqn:Ev; [|by destruct p].
  rewrite (field_present _ _ _ _ _ Ev) in Hp. change (Some v ≫= as_str) with (as_str v).
  destruct (as_str v) as [s|] eqn:Es; [|by destruct p]. cbn [unwrap_or]. pose proof (variant_text _ v _ s Hp Es) as Hin.
  cbn [fmap list_fmap fst] in Hin. intros ->. destruct p; revert Hin; apply (bool_decide_unpack _); vm_compute; exact I.
Qed.

(** A restart is shown as pending all the time: the snapshot of the start has the failure policy as the
    lower case of its variant, the one of the file as it is written there, and the two never agree. *)
Theorem restart_always_pending fs text doc c0 c : read_text fs = Some text -> from_str text = Ok doc -> config_of_doc env doc = Some c0 ->
  gw_get_settings env (settings_snapshot env c) fs = settings_snapshot env c ++ [("pending_restart"%string, JBool true)].
Proof.
  intros Ht Hd Hc. unfold gw_get_settings. rewrite Ht, Hd. rewrite bool_decide_false; [done|]. intros Heq.
  apply (f_equal (fun l => l !! 14%nat)) in Heq. cbn in Heq. injection Heq as Heq. by eapply policy_text in Heq.
Qed.
End Pending.

(** With the path on the command line the settings are read from and saved to another file. *)
Example settings_of_another_file : cli_config (Some "/etc/gateway.toml"%string) ∅ = Some "/etc/gateway.toml"%string /\
  gw_config_path ∅ = "config/gateway.toml"%string.
Proof. by vm_compute. Qed.

(** ** Key rotation *)

Section Rotation.
Context `{HexCrate, Secp256k1}.
Variable env : gmap string string.
Variable authority_pubkey : string.
Variable cert_validity_secs : Z.

Abbreviation turn := (reload_turn env authority_pubkey cert_validity_secs).

(** The key in force is one of the configured authority. *)
Definition authorised (s : Reload.t AuthorityCredentials) : Prop :=
  exists pubkey, hex_decode authority_pubkey = Ok pubkey /\ x_only_from_slice pubkey = Ok (keypair_x_only (cred_keypair (Reload.credentials s))).

Lemma turn_authorised trigger file poisoned s : authorised s -> authorised (turn trigger file poisoned s).
Proof.
  intros Hs. unfold reload_turn. destruct (match trigger with FilePoll => _ | Sighup => _ end); [done|].
  set (s1 := match load_authority_credentials _ _ _ with Ok _ => _ | Err _ => _ end).
  assert (authorised s1) as Hs1.
  { unfold s1. destruct (load_authority_credentials _ _ _) as [creds|] eqn:El; [|done].
    apply load_authority_credentials_matches in El as (? & ? & pk & _ & _ & _ & _ & _ & Hd & Hp). by exists pk. }
  destruct trigger; [|done]. cbv zeta. by destruct (_ && _).
Qed.

(** Through any signals and polls, whatever is in the file, the key in force is one of the configured
    authority, and the secret for shares stays what the environment of the process says. *)
Theorem rotation_keeps_authority turns s : authorised s -> Reload.hmac_secret s = share_secret env ->
  let s' := foldl (fun s t => turn t.1.1 t.1.2 t.2 s) s turns in
  authorised s' /\ Reload.hmac_secret s' = share_secret env.
Proof.
  revert s. induction turns as [|[[trigger file] poisoned] turns IH]; intros s Ha Hs; [done|]. cbn. apply IH; [by apply turn_authorised|].
  unfold reload_turn. destruct (match trigger with FilePoll => _ | Sighup => _ end); [done|].
  destruct (load_authority_credentials _ _ _); destruct trigger; cbn; rewrite ?Hs, ?bool_decide_true by done; by destruct poisoned.
Qed.

(** A key that replaces the one being loaded is missed: the time of change is taken after the load, so
    that it is the time of the newer file, and no poll looks at that file again. *)
Theorem rotation_during_load_missed file creds s : KeyFile.mtime_polled file <> Reload.last_mtime s ->
  load_authority_credentials (KeyFile.contents file) authority_pubkey cert_validity_secs = Ok creds ->
  let s' := turn FilePoll file false s in
  Reload.credentials s' = creds /\
  forall newer poisoned, turn FilePoll (KeyFile.mk (KeyFile.mtime_after file) newer (KeyFile.mtime_after file)) poisoned s' = s'.
Proof.
  intros Hne Hl. cbv zeta. unfold reload_turn. rewrite bool_decide_false by done. rewrite Hl.
  split; [done|]. intros newer poisoned. cbn [KeyFile.mtime_polled Reload.last_mtime]. by rewrite bool_decide_true.
Qed.
End Rotation.

(** ** A sample gateway *)

Module GatewaySample.
Import PolicyFileSample.

#[export] Instance no_else : GatewayDocs := {
  variant_of_else _ := None; strings_of_else _ := None; mappings_of_else _ := None; miner_auth_of_else _ := None;
  gateway_of_else _ _ := None; verifier_of_else _ := None; share_upstream_of_else _ := None
}.
#[export] Existing Instance HexSample.crate.

Definition target : string := "000000000003fffc000000000000000000000000000000000000000000000000".

(** A document with the given size of the queue and interval of heartbeats. *)
Definition doc (queue heartbeat : Z) : gmap string toml := list_to_map
  [("mode", TomlStr "shadow");
   ("gateway", TomlTab (list_to_map
     [("listen_addr", TomlStr "0.0.0.0:3333"); ("noise_keypair_path", TomlStr "/etc/key"); ("authority_pubkey", TomlStr target);
      ("channel_target_hex", TomlStr target); ("template_url", TomlStr "http://127.0.0.1:8082")]));
   ("verifier", TomlTab (list_to_map [("addr", TomlStr "127.0.0.1:9100"); ("heartbeat_interval_ms", TomlInt heartbeat)]));
   ("share_upstream", TomlTab (list_to_map [("url", TomlStr "http://127.0.0.1/s"); ("forward_queue_size", TomlInt queue)]))]%string.

Definition req : GwSaveSettingsReq.t :=
  GwSaveSettingsReq.mk (Some 2048) None None None None None None None None None None None None None None None None None None None.

Definition before : gmap string toml := doc 50000 2000.
Definition after : gmap string toml := patch_doc req before.

(** A TOML crate for two documents. *)
#[export] Instance two_docs : TomlDocs := {
  from_str s := if bool_decide (s = "before"%string) then Ok before
    else if bool_decide (s = "after"%string) then Ok after else Err "expected a document"%string;
  to_string_pretty t := if bool_decide (t = before) then Some "before"%string
    else if bool_decide (t = after) then Some "after"%string else None;
  safety_of_else _ := None; mempool_of_else _ := None; policy_of_else _ := None
}.
#[export] Instance two_docs_laws : TomlDocsLaws.
Proof.
  constructor; try done; intros t text; cbn [to_string_pretty two_docs].
  - case_bool_decide; [intros [= <-]; by subst|]. case_bool_decide; [intros [= <-]; by subst|done].
  - case_bool_decide; [by intros [= <-]|]. case_bool_decide; [by intros [= <-]|done].
Qed.

(** A curve on which every key is its own public key. *)
#[export] Existing Instance TransportSample.noise.
#[export] Instance responder : @NoiseResponder TransportSample.noise := {| keypair := bytes; step_1 _ _ _ := None |}.
#[export] Instance curve : @Secp256k1 TransportSample.noise responder := {|
  secret_key := bytes; x_only_public_key := bytes;
  secret_key_from_slice b := Ok b; keypair_from_secret_key k := (k : @keypair _ responder); keypair_x_only (k : @keypair _ responder) := (k : bytes);
  x_only_from_slice b := Ok b; x_only_serialize k := k |}.

(** The environment turns the file's shadow mode into inline, and has the two secrets. *)
Definition env : gmap string string :=
  {["VELDRA_GATEWAY_MODE" := "Inline"; "VELDRA_API_SECRET" := "s"; "VELDRA_SHARE_UPSTREAM_SECRET" := "t"]}%string.
Definition boot : Boot.t := Boot.mk true true true true true (fun _ _ _ _ => false) (match hex_decode target with Ok k => Some k | Err _ => None end).
Definition s0 : GwAdmin.t := GwAdmin.mk [] (perform_all 1 (save_effects [lit "before"] None) Fs.empty).
Definition disk : Disk.t := Disk.mk [lit "af"; lit "ter"] None None.

Definition started_with (fs : Fs.t) : bool :=
  match start_gateway env boot (read_text fs) with
  | Returns (Ok r) => negb (heartbeat_panics (Running.config r))
  | _ => false
  end.

Lemma started_startable fs : started_with fs = true -> startable env boot fs.
Proof.
  unfold started_with, startable. destruct (start_gateway env boot (read_text fs)) as [[r|]|]; [|done..].
  intros Hh%negb_true_iff. by exists r.
Qed.

Lemma saves_keep_startable_witness :
  (gw_save_settings env 1 0 disk req s0).1 = GwSaved [ShadowWithUpstream] /\
  startable env boot (GwAdmin.fs (gw_save_settings env 1 0 disk req s0).2) /\
  read_text (GwAdmin.fs (gw_save_settings env 1 0 disk req s0).2) = Some "after"%string.
Proof.
  split; [vm_compute; reflexivity|]. split; [|vm_compute; reflexivity].
  apply (saves_keep_startable env boot s0).
  - apply perform_all_ok, fs_ok_empty.
  - apply started_startable. vm_compute. reflexivity.
  - eapply star_step; [apply (step_saved env 1 0 disk req s0)|apply star_refl].
    intros text Ht. vm_compute in Ht. injection Ht as <-. vm_compute. reflexivity.
Defined.

(** A queue without room passes the check and makes the start panic. *)
Theorem zero_queue_panics `{Secp256k1} : exists c, config_of_doc ∅ (doc 0 2000) = Some c /\ validate c ∅ = Ok [ShadowWithUpstream] /\
  forall b, Boot.stop_signal b = true -> Boot.http_client b = true -> run_gateway ∅ b c = Panics.
Proof.
  destruct (config_of_doc ∅ (doc 0 2000)) as [c|] eqn:E; [|vm_compute in E; discriminate E]. exists c. split; [done|].
  vm_compute in E. injection E as <-. split; [vm_compute; reflexivity|]. intros b Hb Hh. unfold run_gateway. rewrite Hb, Hh. vm_compute. reflexivity.
Qed.

(** So does an interval of zero between heartbeats, which makes the stream to the verifier panic. *)
Theorem zero_heartbeat_panics : exists c, config_of_doc ∅ (doc 50000 0) = Some c /\ validate c ∅ = Ok [ShadowWithUpstream] /\
  heartbeat_panics c = true.
Proof.
  destruct (config_of_doc ∅ (doc 50000 0)) as [c|] eqn:E; [|vm_compute in E; discriminate E]. exists c. split; [done|].
  vm_compute in E. injection E as <-. split; vm_compute; reflexivity.
Qed.
End GatewaySample.
