(* ===== verification/BitcoindRpc.v ===== *)
(** * The client of the node

    Models [services/pool-verifier/src/bitcoind_rpc.rs]: single JSON-RPC calls with the precedence of
    their errors, batches with their replies matched by id, transaction ids between the byte order of the
    code and the one of the node, and the probe verdicts, as the implementation of the client that the
    second chance of [Mempool] works with.

    What a POST gives (the body sent, the status checked and the reply decoded by reqwest and serde) is an
    operation of a class, one per method. *)

From stdpp Require Import pretty.
From S2P Require Import Prelude Crates Mempool.

Module JsonRpcError.
Record t : Type := mk { code : Z; message : string }.
End JsonRpcError.

Module JsonRpcResponse.
Record t {R : Type} : Type := mk { result : option R; error : option JsonRpcError.t }.
Arguments t : clear implicits.
Arguments mk {R} _ _.
End JsonRpcResponse.

Module BatchRequest.
Record t {P : Type} : Type := mk { id : Z; method : string; params : P }.
Arguments t : clear implicits.
Arguments mk {P} _ _ _.
End BatchRequest.

Module BatchResponse.
Record t {R : Type} : Type := mk { id : option Z; result : option R; error : option JsonRpcError.t }.
Arguments t : clear implicits.
Arguments mk {R} _ _ _.
End BatchResponse.

Inductive BatchItem (R : Type) : Type :=
| ItemOk (r : R)
| ItemFailed (code : Z) (message : string)
| NoResponse.
Arguments ItemOk {R} _.
Arguments ItemFailed {R} _ _.
Arguments NoResponse {R}.

Module GetBlockVerbosity1.
Record t : Type := mk { height : Z; tx : list string; previousblockhash : option string }.
End GetBlockVerbosity1.

(** The node as the HTTP client sees it; an entry of the mempool is not looked at. *)
Class BitcoindHttp : Type := {
  HttpError : Type;
  http_error_to_string : HttpError -> string;
  json_value : Type;
  post_getmempoolinfo : result (JsonRpcResponse.t MempoolInfo.t) HttpError;
  post_getbestblockhash : result (JsonRpcResponse.t string) HttpError;
  post_getblock : string -> Z -> result (JsonRpcResponse.t GetBlockVerbosity1.t) HttpError;
  post_getrawmempool : bool -> result (JsonRpcResponse.t (list string)) HttpError;
  post_batch : list (BatchRequest.t string) -> result (list (BatchResponse.t json_value)) HttpError;
  hash_set_iter : gset txid_t -> list txid_t
}.

Definition MEMPOOL_MISSING_ENTRY_CODE : Z := -5.

(** ** Replies of a batch *)

(** The error first. *)
Definition item_of {R} (r : BatchResponse.t R) : BatchItem R :=
  match BatchResponse.error r, BatchResponse.result r with
  | Some e, _ => ItemFailed (JsonRpcError.code e) (JsonRpcError.message e)
  | None, Some x => ItemOk x
  | None, None => NoResponse
  end.

Definition resolve_step {R} (request_count : nat) (acc : list (option (BatchItem R)) * list bool) (resp : BatchResponse.t R)
    : list (option (BatchItem R)) * list bool :=
  let '(slots, duplicated) := acc in
  match BatchResponse.id resp with
  | None => acc
  | Some id =>
      let idx := Z.to_nat id in
      if (request_count <=? idx)%nat then acc
      else match slots !! idx with
           | Some (Some _) => (slots, <[idx := true]> duplicated)
           | _ => (<[idx := Some (item_of resp)]> slots, duplicated)
           end
  end.

Definition resolve_batch {R} (responses : list (BatchResponse.t R)) (request_count : nat) : list (BatchItem R) :=
  let '(slots, duplicated) :=
    foldl (resolve_step request_count) (replicate request_count None, replicate request_count false) responses in
  zip_with (fun slot dup => if (dup : bool) then NoResponse else unwrap_or slot NoResponse) slots duplicated.

(** ** Calls *)

Section Client.
Context `{HexCrate, BitcoindHttp}.

Inductive ClientError : Type :=
| Http (e : HttpError)
| RpcFailed (code : Z) (message : string)
| MissingResult
| InvalidTxidHex (text : string).

Definition client_error_to_string (e : ClientError) : string :=
  match e with
  | Http e => "bitcoind RPC HTTP error: " +:+ http_error_to_string e
  | RpcFailed code message => "bitcoind RPC returned an error: code=" +:+ pretty code +:+ " message=" +:+ message
  | MissingResult => "bitcoind RPC response missing result field"
  | InvalidTxidHex s => "invalid txid hex returned by bitcoind: " +:+ s
  end%string.

(** [call] on what the POST gave. *)
Definition call {R} (posted : result (JsonRpcResponse.t R) HttpError) : result R ClientError :=
  let? resp := map_err Http posted in
  match JsonRpcResponse.error resp with
  | Some e => Err (RpcFailed (JsonRpcError.code e) (JsonRpcError.message e))
  | None => ok_or (JsonRpcResponse.result resp) MissingResult
  end.

Definition parse_txid_hex (hex_str : string) : result txid_t ClientError :=
  if negb (String.length hex_str =? 64)%nat then Err (InvalidTxidHex hex_str)
  else
    let? decoded := map_err (fun _ => InvalidTxidHex hex_str) (hex_decode hex_str) in
    if (length decoded =? 32)%nat then Ok decoded else Err (InvalidTxidHex hex_str).

Fixpoint txids_to_internal_order (hex_txids : list string) : result (list txid_t) ClientError :=
  match hex_txids with
  | [] => Ok []
  | h :: rest =>
      let? b := parse_txid_hex h in
      let? out := txids_to_internal_order rest in
      Ok (reverse b :: out)
  end.

(** The id in display order, as the node writes it. *)
Definition display_id (t : txid_t) : string := hex_encode (reverse t).
Definition probe_params (txids : list txid_t) : list string := display_id <$> txids.

(** The requests of a batch, numbered from 0. *)
Definition batch_requests (method : string) (params_per_item : list string) : list (BatchRequest.t string) :=
  imap (fun i p => BatchRequest.mk (Z.min (Z.of_nat i) u32_max) method p) params_per_item.

Definition call_batch (method : string) (params_per_item : list string) : result (list (BatchItem json_value)) ClientError :=
  match params_per_item with
  | [] => Ok []
  | _ =>
      let? responses := map_err Http (post_batch (batch_requests method params_per_item)) in
      Ok (resolve_batch responses (length params_per_item))
  end.

Definition probe_from_item {R} (item : BatchItem R) : MempoolProbe :=
  match item with
  | ItemOk _ => Present
  | ItemFailed code message =>
      if (code =? MEMPOOL_MISSING_ENTRY_CODE)%Z then ProbeAbsent
      else ProbeUnadjudicated ("getmempoolentry returned code " +:+ pretty code +:+ ": " +:+ message)
  | NoResponse => ProbeUnadjudicated "no batch reply could be attributed to this request id"
  end%string.

Definition rpc_probe_mempool (txids : list txid_t) : result (list MempoolProbe) ClientError :=
  let? items := call_batch "getmempoolentry" (probe_params txids) in
  Ok (probe_from_item <$> items).

Definition get_raw_mempool : result (list txid_t) ClientError :=
  let? hex_txids := call (post_getrawmempool false) in
  txids_to_internal_order hex_txids.

Definition rpc_get_block_txids (block_hash : string) : result BlockTxids.t ClientError :=
  let? raw := call (post_getblock block_hash 1) in
  let? txids := txids_to_internal_order (GetBlockVerbosity1.tx raw) in
  Ok (BlockTxids.mk (GetBlockVerbosity1.height raw) txids (GetBlockVerbosity1.previousblockhash raw)).

(** The client of the second chance. *)
Definition rpc_client : BitcoindClient := {|
  RpcError := ClientError;
  rpc_error_to_string := client_error_to_string;
  get_mempool_info := call post_getmempoolinfo;
  get_best_block_hash := call post_getbestblockhash;
  get_block_txids := rpc_get_block_txids;
  probe_mempool := rpc_probe_mempool;
  set_iter := hash_set_iter
|}.
End Client.

(** * Properties *)

(** ** Replies are matched by their number *)

Section Batch.
Context {R : Type}.

Definition addressed (i : nat) (r : BatchResponse.t R) : Prop := Z.to_nat <$> BatchResponse.id r = Some i.
#[global] Instance addressed_dec i r : Decision (addressed i r) := ltac:(unfold addressed; apply _).

(** What becomes of request [i]: its only reply, and nothing when there is none or more than one. *)
Definition reply_to (responses : list (BatchResponse.t R)) (i : nat) : BatchItem R :=
  match filter (addressed i) responses with [r] => item_of r | _ => NoResponse end.

(** What the two vectors hold after some replies. *)
Definition slots_of (n : nat) (seen : list (BatchResponse.t R)) : list (option (BatchItem R)) * list bool :=
  ((fun i => item_of <$> head (filter (addressed i) seen)) <$> seq 0 n,
   (fun i => (1 <? length (filter (addressed i) seen))%nat) <$> seq 0 n).

Lemma insert_seq {A} (f g : nat -> A) n i x : (i < n)%nat -> g i = x -> (forall j, j <> i -> g j = f j) ->
  <[i := x]> (f <$> seq 0 n) = g <$> seq 0 n.
Proof.
  intros Hi Hx Hj. apply list_eq. intros j. rewrite list_lookup_insert, !list_lookup_fmap, length_fmap, length_seq.
  destruct (decide (j < n)%nat) as [Hl|Hl].
  - rewrite lookup_seq_lt by done. cbn. case_decide as Hc; [by destruct Hc as [<- _]; subst x|]. f_equal. symmetry. apply Hj. intros ->. by apply Hc.
  - rewrite lookup_seq_ge by lia. cbn. case_decide; [lia|done].
Qed.

Lemma resolve_step_slots n seen r : resolve_step n (slots_of n seen) r = slots_of n (seen ++ [r]).
Proof.
  unfold resolve_step, slots_of. destruct (BatchResponse.id r) as [id|] eqn:Eid.
  2:{ f_equal; apply list_fmap_ext; intros i j _; rewrite filter_app, filter_cons_False, app_nil_r by (unfold addressed; by rewrite Eid); done. }
  assert (forall j, addressed j r <-> Z.to_nat id = j) as Ha by (intros j; unfold addressed; rewrite Eid; cbn; naive_solver).
  assert (forall j, j <> Z.to_nat id -> filter (addressed j) (seen ++ [r]) = filter (addressed j) seen) as Hne.
  { intros j Hj. rewrite filter_app, filter_cons_False, app_nil_r; [done|]. rewrite Ha. by intros <-. }
  assert (filter (addressed (Z.to_nat id)) (seen ++ [r]) = filter (addressed (Z.to_nat id)) seen ++ [r]) as He.
  { rewrite filter_app, filter_cons_True; [done|]. by rewrite Ha. }
  destruct (n <=? Z.to_nat id)%nat eqn:En.
  { apply Nat.leb_le in En. f_equal; apply list_fmap_ext; intros i j [-> Hj]%lookup_seq; rewrite Hne by lia; done. }
  apply Nat.leb_gt in En. rewrite list_lookup_fmap, lookup_seq_lt by done. cbn [fmap option_fmap option_map plus].
  destruct (filter (addressed (Z.to_nat id)) seen) as [|x l] eqn:Ef; cbn [head fmap option_fmap option_map].
  - f_equal; [|apply list_fmap_ext; intros i j [-> Hj]%lookup_seq].
    + apply insert_seq; [done|by rewrite He|]. intros j Hj. by rewrite Hne.
    + cbn. destruct (decide (i = Z.to_nat id)) as [->|]; [by rewrite He, Ef|by rewrite Hne].
  - f_equal; [apply list_fmap_ext; intros i j [-> Hj]%lookup_seq|].
    + cbn. destruct (decide (i = Z.to_nat id)) as [->|]; [by rewrite He, Ef|by rewrite Hne].
    + apply insert_seq; [done| |]; [rewrite He; cbn; by rewrite length_app; destruct l|]. intros j Hj. by rewrite Hne.
Qed.

Lemma resolve_slots n responses : foldl (resolve_step n) (replicate n None, replicate n false) responses = slots_of n responses.
Proof.
  induction responses as [|r rs IH] using rev_ind.
  - unfold slots_of. cbn. f_equal; apply list_eq; intros i; rewrite list_lookup_fmap; destruct (decide (i < n)%nat);
      rewrite ?lookup_replicate_2, ?lookup_seq_lt by done; rewrite ?(lookup_replicate_None n), ?lookup_seq_ge by lia; try done;
      rewrite (proj1 (lookup_replicate_None _ _ _)) by lia; done.
  - rewrite foldl_app. cbn [foldl]. by rewrite IH, resolve_step_slots.
Qed.

(** Replies are matched by number, whatever their order and whatever else is among them. *)
Lemma resolve_batch_eq responses n : resolve_batch responses n = reply_to responses <$> seq 0 n.
Proof.
  unfold resolve_batch. rewrite resolve_slots. unfold slots_of. rewrite zip_with_fmap_l, zip_with_fmap_r, zip_with_diag.
  apply list_fmap_ext. intros i j _. unfold reply_to. destruct (filter (addressed j) responses) as [|x [|y l]]; done.
Qed.
End Batch.

(** ** What the node said *)

(** A lookup over any client whose probes are about the ids they were asked for. *)
Section Evidence.
Context `{BitcoindClient} (held : txid_t -> Prop).

Record truthful_client : Prop := {
  tc_probes c ps : (length c <= MEMPOOL_PROBE_CHUNK)%nat -> probe_mempool c = Ok ps -> length ps = length c;
  tc_present c ps i t : (length c <= MEMPOOL_PROBE_CHUNK)%nat -> probe_mempool c = Ok ps -> c !! i = Some t -> ps !! i = Some Present -> held t;
  tc_absent c ps i t : (length c <= MEMPOOL_PROBE_CHUNK)%nat -> probe_mempool c = Ok ps -> c !! i = Some t -> ps !! i = Some ProbeAbsent -> ~ held t;
  tc_iter s t : t ∈ set_iter s <-> t ∈ s
}.
Hypothesis Htruth : truthful_client.

(** A probe of the zipped lists is at one place in both. *)
Lemma absorb_spec c : forall ps acc t,
  let r := foldl absorb_probe acc (zip c ps) in
  (t ∈ r.1 <-> t ∈ acc.1 \/ exists i, c !! i = Some t /\ ps !! i = Some Present) /\
  (t ∈ r.2 <-> t ∈ acc.2 \/ exists i w, c !! i = Some t /\ ps !! i = Some (ProbeUnadjudicated w)).
Proof.
  induction c as [|x c IH]; intros [|p ps] acc t; cbn; [naive_solver..|].
  destruct (IH ps (absorb_probe acc (x, p)) t) as [H1 H2]. rewrite H1, H2. clear IH H1 H2. split.
  - assert (t ∈ (absorb_probe acc (x, p)).1 <-> t ∈ acc.1 \/ x = t /\ p = Present) as ->.
    { destruct p; cbn; set_solver. }
    split; [intros [[Ha|[-> ->]]|(i & Hc & Hp)]; [by left|right; by exists 0%nat|right; by exists (S i)]|].
    intros [Ha|([|i] & Hc & Hp)]; [by left; left|left; right; by simplify_eq/=|right; by exists i].
  - assert (t ∈ (absorb_probe acc (x, p)).2 <-> t ∈ acc.2 \/ x = t /\ exists w, p = ProbeUnadjudicated w) as ->.
    { destruct p; cbn; set_solver. }
    split; [intros [[Ha|[-> [w ->]]]|(i & w & Hc & Hp)]; [by left|right; by exists 0%nat, w|right; by exists (S i), w]|].
    intros [Ha|([|i] & w & Hc & Hp)]; [by left; left|left; right; simplify_eq/=; eauto|right; by exists i, w].
Qed.

Lemma probe_chunks_short (l : list txid_t) : Forall (fun c => (length c <= MEMPOOL_PROBE_CHUNK)%nat) (chunks MEMPOOL_PROBE_CHUNK l).
Proof. eapply Forall_impl; [apply chunks_bounded; unfold MEMPOOL_PROBE_CHUNK; lia|]. intros c Hc. apply Hc. Qed.

Lemma probe_chunks_sound cs : Forall (fun c => (length c <= MEMPOOL_PROBE_CHUNK)%nat) cs -> forall acc r, probe_chunks cs acc = Ok r -> forall t,
  (t ∈ r.1 -> t ∈ acc.1 \/ held t) /\ (t ∈ acc.2 -> t ∈ r.2) /\ (t ∈ acc.1 -> t ∈ r.1) /\
  (t ∈ concat cs -> t ∉ r.1 -> t ∉ r.2 -> ~ held t).
Proof.
  intros Hcs. induction Hcs as [|c cs Hlen Hcs IH]; intros acc r; cbn [probe_chunks].
  { intros [= <-] t. split_and!; try done; [by left|]. intros []%not_elem_of_nil. }
  destruct (probe_mempool c) as [ps|] eqn:Ep; [|done]. cbn [map_err result_bind]. intros Hr t.
  destruct (IH _ _ Hr t) as (H1 & H2 & H3 & H4). destruct (absorb_spec c ps acc t) as [A1 A2]. split_and!.
  - intros [Ha|Hh]%H1; [|by right]. apply A1 in Ha as [Ha|(i & Hc & Hp)]; [by left|right]. by eapply (tc_present Htruth).
  - intros Ha. apply H2, A2. by left.
  - intros Ha. apply H3, A1. by left.
  - cbn. intros [Hc|Hc]%elem_of_app Hn1 Hn2; [|by apply H4]. apply list_elem_of_lookup_1 in Hc as [i Hi].
    pose proof (tc_probes Htruth c ps Hlen Ep) as Hl. destruct (ps !! i) as [p|] eqn:Epi.
    2:{ apply lookup_ge_None in Epi. apply lookup_lt_Some in Hi. lia. }
    destruct p as [| |w]; [|by eapply (tc_absent Htruth)|].
    + exfalso. apply Hn1, H3, A1. right. by exists i.
    + exfalso. apply Hn2, H2, A2. right. by exists i, w.
Qed.

(** The ids of the walk are ids of blocks that the node returned. *)
Lemma walk_ids fuel : forall th hash col sc tip c, walk fuel th hash col sc tip = Some c ->
  forall t, t ∈ (walk_parts c).1.1.1 -> t ∈ col \/ exists h b, get_block_txids h = Ok b /\ t ∈ BlockTxids.txids b.
Proof.
  induction fuel as [|fuel IH]; intros th hash col sc tip c; [done|]. cbn [walk].
  destruct (get_block_txids hash) as [b|] eqn:Eb; [|intros [= <-] t Ht; by left]. cbv zeta.
  assert (forall t, t ∈ col ∪ list_to_set (BlockTxids.txids b) -> t ∈ col \/ exists h b, get_block_txids h = Ok b /\ t ∈ BlockTxids.txids b) as Hu.
  { intros t [Ht|Ht%elem_of_list_to_set]%elem_of_union; [by left|right; by exists hash, b]. }
  case_if; [intros [= <-] t Ht; by left|]. case_if; [intros [= <-] t Ht; by apply Hu|].
  destruct (BlockTxids.previous_block_hash b); [|intros [= <-] t Ht; by apply Hu]. case_if; [intros [= <-] t Ht; by apply Hu|].
  intros Hw t Ht. destruct (IH _ _ _ _ _ _ Hw t Ht) as [Hc|Hc]; [by apply Hu|by right].
Qed.

Lemma recent_ids th c : recent_blocks th = Some c -> forall t, t ∈ (walk_parts c).1.1.1 ->
  exists h b, get_block_txids h = Ok b /\ t ∈ BlockTxids.txids b.
Proof.
  unfold recent_blocks. destruct get_best_block_hash as [hash|]; [|intros [= <-] t Ht; by apply not_elem_of_empty in Ht].
  intros Hw t Ht. destruct (walk_ids _ _ _ _ _ _ _ Hw t Ht) as [Hc|Hc]; [by apply not_elem_of_empty in Hc|done].
Qed.

Lemma gather_evidence th unknown answer : gather th unknown = Ok answer -> forall t, t ∈ unknown ->
  match classify t answer with
  | InMempool => held t
  | Mined => exists h b, get_block_txids h = Ok b /\ t ∈ BlockTxids.txids b
  | Absent => ~ held t
  | Unadjudicated => True
  end.
Proof.
  unfold gather. destruct get_mempool_info as [info|]; [|done]. cbn [map_err result_bind]. case_if; [done|]. case_if; [done|].
  destruct (recent_blocks_total th) as [cov Hcov]. rewrite Hcov. cbv zeta.
  pose proof (recent_ids th cov Hcov) as Hmined.
  destruct (walk_parts cov) as [[[mined scanned] tiph] trunc]. cbn [fst snd] in Hmined. set (l := set_iter _).
  destruct (probe_chunks _ _) as [r|] eqn:Er; [|done]. cbn [result_bind]. intros [= <-] t Ht.
  destruct (probe_chunks_sound _ (probe_chunks_short _) _ _ Er t) as (H1 & _ & _ & H4). unfold classify.
  cbn [BitcoindAnswer.present_in_mempool BitcoindAnswer.recent_block_txids BitcoindAnswer.unadjudicated fst snd].
  case_bool_decide as Hp; [by apply H1 in Hp as [Hp%not_elem_of_empty|]|]. case_bool_decide as Hm; [by apply Hmined|].
  case_bool_decide as Hu; [done|]. apply H4; [|done|done]. rewrite concat_chunks by (unfold MEMPOOL_PROBE_CHUNK; lia).
  unfold l. rewrite (tc_iter Htruth), elem_of_list_to_set, list_elem_of_filter. done.
Qed.
End Evidence.

(** ** From the node's replies to the evidence *)

Section Truth.
Context `{HexCrate, BitcoindHttp}.
Variable core_mempool : gset string.

(** The node answers batches of [getmempoolentry] truthfully: a reply with the number of a request of
    a batch numbered without repetition is about that request, an entry means that the node has the transaction, and the code for a missing
    entry that it has not. Nothing is said on the order of the replies, on replies without a number or
    with one that was not asked, on lost and on repeated replies, and on other errors. *)
Record truthful_node : Prop := {
  tn_entry reqs resps q r v : NoDup (BatchRequest.id <$> reqs) -> post_batch reqs = Ok resps -> q ∈ reqs -> r ∈ resps -> BatchResponse.id r = Some (BatchRequest.id q) ->
    BatchRequest.method q = "getmempoolentry"%string -> BatchResponse.error r = None -> BatchResponse.result r = Some v ->
    BatchRequest.params q ∈ core_mempool;
  tn_missing reqs resps q r e : NoDup (BatchRequest.id <$> reqs) -> post_batch reqs = Ok resps -> q ∈ reqs -> r ∈ resps -> BatchResponse.id r = Some (BatchRequest.id q) ->
    BatchRequest.method q = "getmempoolentry"%string -> BatchResponse.error r = Some e -> JsonRpcError.code e = MEMPOOL_MISSING_ENTRY_CODE ->
    BatchRequest.params q ∉ core_mempool;
  tn_ids reqs resps r id : post_batch reqs = Ok resps -> r ∈ resps -> BatchResponse.id r = Some id -> 0 <= id;
  tn_iter s t : t ∈ hash_set_iter s <-> t ∈ s
}.
Hypothesis Hnode : truthful_node.

Lemma batch_ids_NoDup method params : (length params <= MEMPOOL_PROBE_CHUNK)%nat -> NoDup (BatchRequest.id <$> batch_requests method params).
Proof.
  unfold MEMPOOL_PROBE_CHUNK, batch_requests. intros Hl. apply NoDup_alt. intros i j x. rewrite !list_lookup_fmap, !list_lookup_imap.
  destruct (params !! i) as [a|] eqn:Ei; [|done]. destruct (params !! j) as [b|] eqn:Ej; [|done]. cbn.
  apply lookup_lt_Some in Ei, Ej. intros [= Hi] [= Hj]. unfold u32_max in *. lia.
Qed.

(** A resolved item comes of the one reply with its number. *)
Lemma item_from_reply txids resps i t x : (length txids <= MEMPOOL_PROBE_CHUNK)%nat ->
  post_batch (batch_requests "getmempoolentry" (probe_params txids)) = Ok resps -> txids !! i = Some t ->
  resolve_batch resps (length (probe_params txids)) !! i = Some x -> x <> NoResponse ->
  exists r q, q ∈ batch_requests "getmempoolentry" (probe_params txids) /\ r ∈ resps /\ BatchResponse.id r = Some (BatchRequest.id q) /\
    BatchRequest.method q = "getmempoolentry"%string /\ BatchRequest.params q = display_id t /\ item_of r = x.
Proof.
  intros Hlen Hp Ht Hx Hne. pose proof (lookup_lt_Some _ _ _ Ht) as Hi. unfold MEMPOOL_PROBE_CHUNK in Hlen.
  rewrite resolve_batch_eq, list_lookup_fmap, lookup_seq_lt in Hx by (unfold probe_params; by rewrite length_fmap).
  cbn in Hx. injection Hx as Hx. unfold reply_to in Hx. destruct (filter (addressed i) resps) as [|r [|y l]] eqn:Ef; [by subst x| |by subst x].
  assert (r ∈ filter (addressed i) resps) as [Ha Hr]%list_elem_of_filter by (rewrite Ef; set_solver).
  unfold addressed in Ha. destruct (BatchResponse.id r) as [id|] eqn:Eid; [|done]. cbn in Ha. injection Ha as Ha.
  pose proof (tn_ids Hnode _ _ _ _ Hp Hr Eid) as Hid.
  exists r, (BatchRequest.mk (Z.min (Z.of_nat i) u32_max) "getmempoolentry" (display_id t)). split_and!; try done.
  - apply list_elem_of_lookup. exists i. unfold batch_requests, probe_params. rewrite list_lookup_imap, list_lookup_fmap, Ht. done.
  - cbn. rewrite Eid. f_equal. unfold u32_max. lia.
Qed.

Lemma rpc_client_truthful : @truthful_client rpc_client (fun t => display_id t ∈ core_mempool).
Proof.
  assert (forall c ps, rpc_probe_mempool c = Ok ps -> c = [] /\ ps = [] \/ exists resps,
    post_batch (batch_requests "getmempoolentry" (probe_params c)) = Ok resps /\
    ps = probe_from_item <$> resolve_batch resps (length (probe_params c))) as Hcases.
  { intros c ps. unfold rpc_probe_mempool, call_batch. destruct c as [|t c]; [intros [= <-]; by left|]. cbn [probe_params fmap list_fmap].
    destruct (post_batch _) as [resps|] eqn:Ep; [|done]. cbn [map_err result_bind]. intros [= <-]. right. by exists resps. }
  constructor; cbn [probe_mempool rpc_client set_iter].
  - intros c ps _ [[-> ->]|(resps & _ & ->)]%Hcases; [done|]. rewrite length_fmap, resolve_batch_eq, length_fmap, length_seq.
    unfold probe_params. by rewrite length_fmap.
  - intros c ps i t Hlen [[-> ->]|(resps & Hp & ->)]%Hcases Ht Hpr; [done|]. rewrite list_lookup_fmap in Hpr.
    destruct (resolve_batch resps _ !! i) as [x|] eqn:Ex; [|done]. cbn in Hpr. injection Hpr as Hpr.
    destruct x as [v|code msg|]; cbn in Hpr; [|by case_if|done].
    destruct (item_from_reply c resps i t (ItemOk v) Hlen Hp Ht Ex) as (r & q & Hq & Hr & Hid & Hm & <- & Hit); [done|].
    unfold item_of in Hit. destruct (BatchResponse.error r) eqn:Ee; [done|]. destruct (BatchResponse.result r) as [w|] eqn:Er; [|done].
    eapply (tn_entry Hnode); try done. apply batch_ids_NoDup. unfold probe_params. by rewrite length_fmap.
  - intros c ps i t Hlen [[-> ->]|(resps & Hp & ->)]%Hcases Ht Hpr; [done|]. rewrite list_lookup_fmap in Hpr.
    destruct (resolve_batch resps _ !! i) as [x|] eqn:Ex; [|done]. cbn in Hpr. injection Hpr as Hpr.
    destruct x as [v|code msg|]; cbn in Hpr; [done| |done]. destruct (code =? MEMPOOL_MISSING_ENTRY_CODE) eqn:Ec; [|done]. z_bool.
    destruct (item_from_reply c resps i t (ItemFailed code msg) Hlen Hp Ht Ex) as (r & q & Hq & Hr & Hid & Hm & <- & Hit); [done|].
    unfold item_of in Hit. destruct (BatchResponse.error r) as [e|] eqn:Ee; [|by destruct (BatchResponse.result r)].
    eapply (tn_missing Hnode); try done; [|by injection Hit as ->]. apply batch_ids_NoDup. unfold probe_params. by rewrite length_fmap.
  - apply (tn_iter Hnode).
Qed.

(** The ids of a block are those the node lists, in the byte order of the code. *)
Lemma internal_display l : forall out, txids_to_internal_order l = Ok out -> forall t, t ∈ out ->
  exists h b, h ∈ l /\ hex_decode h = Ok b /\ length b = 32%nat /\ t = reverse b.
Proof.
  induction l as [|h l IH]; intros out; cbn [txids_to_internal_order]; [by intros [= <-] t []%not_elem_of_nil|].
  unfold parse_txid_hex. case_if; [done|]. destruct (hex_decode h) as [b|] eqn:Eb; [|done]. cbn [map_err result_bind].
  destruct (length b =? 32)%nat eqn:El; [|done]. cbn [result_bind]. destruct (txids_to_internal_order l) as [out'|]; [|done]. cbn [result_bind].
  intros [= <-] t [->|Ht]%elem_of_cons; [exists h, b; apply Nat.eqb_eq in El; set_solver|]. destruct (IH out' eq_refl t Ht) as (h' & b' & Hin & Hd).
  exists h', b'. set_solver.
Qed.

(** C11 A second chance is decided on evidence. With a node that answers truthfully, in whatever order the
    replies of a batch come and whichever of them are lost, repeated or unnumbered, every unknown
    transaction that a finished lookup counts as held is in the node's mempool, every one it counts
    as absent is not, and every one it counts as mined is listed in a block the node returned. *)
Theorem lookup_evidence th unknown answer : @gather rpc_client th unknown = Ok answer -> forall t, t ∈ unknown ->
  match classify t answer with
  | InMempool => display_id t ∈ core_mempool
  | Mined => exists block_hash resp raw h, post_getblock block_hash 1 = Ok resp /\ JsonRpcResponse.result resp = Some raw /\
      h ∈ GetBlockVerbosity1.tx raw /\ hex_decode h = Ok (reverse t)
  | Absent => display_id t ∉ core_mempool
  | Unadjudicated => True
  end.
Proof.
  intros Hg t Ht. pose proof (@gather_evidence rpc_client _ rpc_client_truthful th unknown answer Hg t Ht) as He.
  destruct (classify t answer); try done. destruct He as (bh & b & Hb & Hin). cbn [get_block_txids rpc_client] in Hb.
  unfold rpc_get_block_txids, call in Hb. destruct (post_getblock bh 1) as [resp|] eqn:Ep; [|done]. cbn [map_err result_bind] in Hb.
  destruct (JsonRpcResponse.error resp); [done|]. destruct (JsonRpcResponse.result resp) as [raw|] eqn:Er; [|done]. cbn [ok_or result_bind] in Hb.
  destruct (txids_to_internal_order _) as [out|] eqn:Eo; [|done]. cbn [result_bind] in Hb. injection Hb as <-.
  destruct (internal_display _ _ Eo t Hin) as (h & bb & Hh & Hd & _ & ->). exists bh, resp, raw, h. by rewrite reverse_involutive.
Qed.
End Truth.


(** ** A sample node *)

Module RpcSample.
#[export] Existing Instance HexSample.crate.

Definition mempool : gset string := {[ display_id [x07; x01] ]}.

Definition reply (q : BatchRequest.t string) : BatchResponse.t unit :=
  if bool_decide (BatchRequest.params q ∈ mempool)
  then BatchResponse.mk (Some (BatchRequest.id q)) (Some tt) None
  else BatchResponse.mk (Some (BatchRequest.id q)) None (Some (JsonRpcError.mk MEMPOOL_MISSING_ENTRY_CODE "not in mempool")).

(** The replies come last first, behind one without a number; there is one block. *)
#[export] Instance node : BitcoindHttp := {|
  HttpError := unit;
  http_error_to_string := fun _ => "connection refused"%string;
  json_value := unit;
  post_getmempoolinfo := Ok (JsonRpcResponse.mk (Some (MempoolInfo.mk 1 true)) None);
  post_getbestblockhash := Ok (JsonRpcResponse.mk (Some "tip"%string) None);
  post_getblock := fun _ _ => Ok (JsonRpcResponse.mk (Some (GetBlockVerbosity1.mk 1 [display_id (replicate 32 x05)] None)) None);
  post_getrawmempool := fun _ => Err tt;
  post_batch := fun reqs => Ok (BatchResponse.mk None (Some tt) None :: reverse (reply <$> List.filter (fun q => 0 <=? BatchRequest.id q) reqs));
  hash_set_iter := elements
|}.

Lemma node_truthful : truthful_node mempool.
Proof.
  assert (forall reqs resps q (r : BatchResponse.t unit), NoDup (BatchRequest.id <$> reqs) -> post_batch reqs = Ok resps -> q ∈ reqs -> r ∈ resps ->
    BatchResponse.id r = Some (BatchRequest.id q) -> r = reply q) as Hr.
  { intros reqs resps q r Hnd [= <-] Hq [->|Hin]%elem_of_cons Hid; [done|].
    rewrite elem_of_reverse, list_elem_of_fmap in Hin. destruct Hin as (q' & -> & Hq'). f_equal.
    apply list_elem_of_In, filter_In in Hq' as [Hq'%list_elem_of_In _].
    assert (BatchRequest.id q' = BatchRequest.id q) as E by (unfold reply in Hid; case_bool_decide; by injection Hid).
    apply list_elem_of_lookup in Hq as [i Hi], Hq' as [j Hj].
    assert (i = j) as ->; [|congruence]. apply (NoDup_lookup _ i j (BatchRequest.id q) Hnd); rewrite list_lookup_fmap; [by rewrite Hi|by rewrite Hj, <-E]. }
  constructor.
  - intros reqs resps q r v Hnd Hp Hq Hin Hid _ He _. rewrite (Hr _ _ _ _ Hnd Hp Hq Hin Hid) in He. unfold reply in He. by case_bool_decide.
  - intros reqs resps q r e Hnd Hp Hq Hin Hid _ He _. rewrite (Hr _ _ _ _ Hnd Hp Hq Hin Hid) in He. unfold reply in He. by case_bool_decide.
  - intros reqs resps r id [= <-] [->|Hin]%elem_of_cons; [done|]. rewrite elem_of_reverse, list_elem_of_fmap in Hin.
    destruct Hin as (q & -> & Hq). apply list_elem_of_In, filter_In in Hq as [_ Hq]. z_bool. unfold reply. case_bool_decide; intros [= <-]; done.
  - intros s t. apply elem_of_elements.
Qed.

(** Three unknown transactions: one held, one in the block, one nowhere. *)
Lemma lookup_evidence_witness : exists answer, @gather rpc_client 1 [[x07; x01]; replicate 32 x05; [x09]] = Ok answer /\
  classify [x07; x01] answer = InMempool /\ display_id [x07; x01] ∈ mempool /\
  classify (replicate 32 x05) answer = Mined /\ classify [x09] answer = Absent /\ display_id [x09] ∉ mempool.
Proof.
  assert (match @gather rpc_client 1 [[x07; x01]; replicate 32 x05; [x09]] with
    | Ok a => Some (classify [x07; x01] a, classify (replicate 32 x05) a, classify [x09] a) | Err _ => None end
    = Some (InMempool, Mined, Absent)) as Hclass by (vm_compute; reflexivity).
  destruct (@gather rpc_client 1 [[x07; x01]; replicate 32 x05; [x09]]) as [answer|e] eqn:Eg; [|discriminate Hclass].
  exists answer. split; [reflexivity|]. injection Hclass as H1 H2 H3.
  pose proof (lookup_evidence mempool node_truthful 1 _ answer Eg [x07; x01]) as He1. rewrite H1 in He1.
  pose proof (lookup_evidence mempool node_truthful 1 _ answer Eg [x09]) as He3. rewrite H3 in He3.
  split_and!; [exact H1|apply He1, list_elem_of_here|exact H2|exact H3|apply He3; do 2 apply list_elem_of_further; apply list_elem_of_here].
Defined.
End RpcSample.
