(* ===== verification/IpText.v ===== *)
(** * Addresses: canonical form, display, ordering keys

    What [services/rg-dashboard/src/rate_limit.rs] and [proxy.rs] use of the standard library's
    addresses: [IpAddr::to_canonical], the [u128] of an IPv6 address, and [Display], with the theorem
    that an address is read back from what it prints by the parser of [NetAddr]. *)

From S2P Require Import Prelude License NetAddr.

#[global] Instance IpAddr_eq_dec : EqDecision IpAddr.
Proof. solve_decision. Defined.
#[global] Instance IpAddr_countable : Countable IpAddr.
Proof.
  refine (inj_countable' (fun a => match a with V4 o => inl o | V6 g => inr g end)
    (fun s => match s with inl o => V4 o | inr g => V6 g end) _). by intros [].
Defined.

(** An address as the type has it: four octets or eight groups. *)
Definition ip_ok (a : IpAddr) : Prop :=
  match a with
  | V4 o => length o = 4%nat /\ Forall (in_u 8) o
  | V6 g => length g = 8%nat /\ Forall (in_u 16) g
  end.

(** [Ipv6Addr::to_ipv4_mapped]. *)
Definition to_ipv4_mapped (g : list Z) : option (list Z) :=
  match g with
  | [a; b; c; d; e; f; hi; lo] =>
      if (a =? 0) && (b =? 0) && (c =? 0) && (d =? 0) && (e =? 0) && (f =? 65535)
      then Some [hi / 256; hi mod 256; lo / 256; lo mod 256] else None
  | _ => None
  end.
Definition to_canonical (a : IpAddr) : IpAddr :=
  match a with
  | V4 _ => a
  | V6 g => match to_ipv4_mapped g with Some o => V4 o | None => a end
  end.

(** [u128::from] and [Ipv6Addr::from]. *)
Definition to_bits (g : list Z) : Z := foldl (fun r x => r * 65536 + x) 0 g.
Definition from_bits (n : Z) : list Z :=
  (fun i => (n / 65536 ^ i) mod 65536) <$> [7; 6; 5; 4; 3; 2; 1; 0].

(** ** Display *)

(** [{:x}] of a group. *)
Fixpoint hex_go (fuel : nat) (n : Z) (acc : list Z) : list Z :=
  match fuel with
  | O => acc
  | S fuel => if n <? 16 then n :: acc else hex_go fuel (n / 16) (n mod 16 :: acc)
  end.
Definition hex_char (d : Z) : byte := Z_to_byte (if d <? 10 then 48 + d else 87 + d).
Definition hex (n : Z) : bytes := hex_char <$> hex_go 4 n [].

(** The loop for the longest run of zeros: index, longest run and current run, each a start and a
    length. *)
Definition span_step (st : nat * (nat * nat) * (nat * nat)) (segment : Z) : nat * (nat * nat) * (nat * nat) :=
  let '(i, longest, current) := st in
  if segment =? 0 then
    let start := if (current.2 =? 0)%nat then i else current.1 in
    let current := (start, S current.2) in
    (S i, if (longest.2 <? current.2)%nat then current else longest, current)
  else (S i, longest, (0, 0)%nat).
Definition zeroes (g : list Z) : nat * nat := (foldl span_step (0%nat, (0, 0)%nat, (0, 0)%nat) g).1.2.

Definition colon_hex (l : list Z) : bytes := mjoin ((fun s => x3a :: hex s) <$> l).
Definition fmt_subslice (chunk : list Z) : bytes :=
  match chunk with [] => [] | first :: tail => hex first ++ colon_hex tail end.

Definition show_octets (o : list Z) : bytes :=
  match o with [a; b; c; d] => show_v4 a b c d | _ => [] end.
Definition show_v6 (g : list Z) : bytes :=
  match to_ipv4_mapped g with
  | Some o => lit "::ffff:" ++ show_octets o
  | None =>
      let '(start, len) := zeroes g in
      if (1 <? len)%nat
      then fmt_subslice (take start g) ++ x3a :: x3a :: fmt_subslice (drop (start + len) g)
      else fmt_subslice g
  end.
(** [IpAddr::to_string]. *)
Definition to_string (a : IpAddr) : bytes := match a with V4 o => show_octets o | V6 g => show_v6 g end.

(** [str::parse::<IpAddr>]. *)
Definition parse_addr (s : bytes) : option IpAddr := parse_with read_ip_addr s.

Example display_forms :
  (to_string <$> [V4 [127; 0; 0; 1]; V6 [0; 0; 0; 0; 0; 0; 0; 1]; V6 [8193; 3512; 0; 1; 0; 0; 0; 255]; V6 [0; 0; 0; 0; 0; 65535; 2570; 1];
    V6 [1; 0; 2; 0; 3; 0; 4; 0]; V6 [0; 0; 0; 0; 0; 0; 0; 0]; V6 [65152; 0; 0; 1; 0; 0; 2; 3]]) =
  lit <$> ["127.0.0.1"; "::1"; "2001:db8:0:1::ff"; "::ffff:10.10.0.1"; "1:0:2:0:3:0:4:0"; "::"; "fe80::1:0:0:2:3"]%string.
Proof. by vm_compute. Qed.

(** * Properties *)

(** ** Groups are read back *)

Lemma to_digit_hex_char d : 0 <= d < 16 -> to_digit 16 (hex_char d) = Some d.
Proof.
  intros Hd. assert (d ∈ [0; 1; 2; 3; 4; 5; 6; 7; 8; 9; 10; 11; 12; 13; 14; 15]) as Hin by (repeat (rewrite elem_of_cons); lia).
  repeat (apply elem_of_cons in Hin as [->|Hin]; [by vm_compute|]). by apply elem_of_nil in Hin.
Qed.

Lemma hex_go_digits fuel : forall n acc, 0 <= n -> Forall (fun d => 0 <= d < 16) acc -> Forall (fun d => 0 <= d < 16) (hex_go fuel n acc).
Proof.
  induction fuel as [|fuel IH]; intros n acc Hn Ha; [done|]. cbn [hex_go]. case_if; z_bool; [by constructor|].
  apply IH; [apply Z.div_pos; lia|]. constructor; [apply Z.mod_pos_bound; lia|done].
Qed.

Definition value16 (r : Z) (ds : list Z) : Z := foldl (fun r d => r * 16 + d) r ds.

Lemma hex_go_value fuel : forall n acc, 0 <= n < 16 ^ Z.of_nat fuel -> value16 0 (hex_go fuel n acc) = value16 n acc.
Proof.
  induction fuel as [|fuel IH]; intros n acc Hn; [change (16 ^ Z.of_nat 0) with 1 in Hn; replace n with 0 by lia; done|].
  cbn [hex_go]. case_if; z_bool; [done|]. rewrite IH.
  - cbn. f_equal. pose proof (Z.div_mod n 16). lia.
  - rewrite Nat2Z.inj_succ, Z.pow_succ_r in Hn by lia. split; [apply Z.div_pos; lia|]. apply Z.div_lt_upper_bound; lia.
Qed.

Lemma hex_go_length fuel : forall n acc, (length acc <= length (hex_go fuel n acc) <= fuel + length acc)%nat.
Proof.
  induction fuel as [|fuel IH]; intros n acc; [cbn; lia|]. cbn [hex_go]. case_if; [cbn; lia|].
  pose proof (IH (n / 16) (n mod 16 :: acc)). cbn in *. lia.
Qed.

Lemma hex_nonempty n : exists d ds, hex_go 4 n [] = d :: ds.
Proof.
  cbn [hex_go]. repeat case_if; eauto.
Qed.

(** What follows a group: no hexadecimal digit. *)
Definition stops16 (s : bytes) : Prop := match s with b :: _ => to_digit 16 b = None | [] => True end.

Lemma number_loop_hex ds rest : Forall (fun d => 0 <= d < 16) ds -> stops16 rest -> forall r c, (c + length ds <= 4)%nat ->
  number_loop 16 (fun _ count => (4 <? count)%nat) ((hex_char <$> ds) ++ rest) r c = Some (value16 r ds, (c + length ds)%nat, rest).
Proof.
  intros Hd Hs. induction Hd as [|d ds Hd Hds IH]; intros r c Hc.
  - rewrite Nat.add_0_r. destruct rest as [|b rest]; [done|]. cbn in *. by rewrite Hs.
  - cbn [fmap list_fmap app number_loop length] in *. rewrite to_digit_hex_char by done. cbv zeta.
    rewrite (proj2 (Nat.ltb_ge _ _)) by lia. rewrite IH by lia. cbn. repeat f_equal. lia.
Qed.

Lemma read_group n rest : in_u 16 n -> stops16 rest -> read_number 16 65535 (Some 4%nat) true (hex n ++ rest) = Some (n, rest).
Proof.
  unfold in_u. intros Hn Hs. unfold read_number. cbv zeta. unfold hex. pose proof (hex_go_length 4 n []) as Hl. cbn [length] in Hl.
  rewrite number_loop_hex; [|apply hex_go_digits; [lia|done]|done|lia].
  rewrite hex_go_value by (cbn; lia). destruct (hex_nonempty n) as (d & ds & E). rewrite E. cbn [Nat.add length negb andb Nat.eqb].
  change (value16 n []) with n. rewrite Z.gtb_ltb, (proj2 (Z.ltb_ge _ _)) by lia. done.
Qed.

(** ** No dot, no IPv4 address *)

Lemma number_loop_suffix radix over s : forall r c v n rest, number_loop radix over s r c = Some (v, n, rest) -> rest `suffix_of` s.
Proof.
  induction s as [|b s IH]; intros r c v n rest; cbn [number_loop]; [by intros [= _ _ <-]|].
  destruct (to_digit radix b); [|by intros [= _ _ <-]]. cbv zeta. case_if; [done|]. intros Hr%IH.
  etrans; [exact Hr|]. by apply suffix_cons_r.
Qed.

Lemma read_number_suffix radix max md z s v rest : read_number radix max md z s = Some (v, rest) -> rest `suffix_of` s.
Proof.
  unfold read_number. cbv zeta. destruct (number_loop _ _ _ _ _) as [[[r c] rest']|] eqn:E; [|done].
  repeat (case_if; [done|]). intros [= _ <-]. by eapply number_loop_suffix.
Qed.

Lemma no_dot_no_v4 s : x2e ∉ s -> read_ipv4_addr s = None.
Proof.
  intros Hn. unfold read_ipv4_addr. cbn [read_octets read_separator]. destruct (read_number _ _ _ _ s) as [[o s']|] eqn:E; [|done].
  apply read_number_suffix in E as [l ->]. destruct s' as [|b s']; [done|]. cbn [read_given_char].
  rewrite bool_decide_false; [done|]. intros ->. apply Hn. set_solver.
Qed.

Definition hex_digits : bytes := lit "0123456789abcdef".

Lemma hex_chars n : 0 <= n -> Forall (fun b => b ∈ hex_digits) (hex n).
Proof.
  intros Hn. unfold hex. pose proof (hex_go_digits 4 n [] Hn (Forall_nil_2 _)) as Hd. apply Forall_fmap. eapply Forall_impl; [exact Hd|].
  intros d Hd'. cbv beta in Hd'. cbn. assert (d ∈ [0; 1; 2; 3; 4; 5; 6; 7; 8; 9; 10; 11; 12; 13; 14; 15]) as Hin by (repeat (rewrite elem_of_cons); lia).
  repeat (apply elem_of_cons in Hin as [->|Hin]; [apply (bool_decide_eq_true_1 _); by vm_compute|]). by apply elem_of_nil in Hin.
Qed.

(** The text of groups: hexadecimal digits and colons. *)
Definition group_chars : bytes := x3a :: hex_digits.

Lemma colon_hex_chars l : Forall (in_u 16) l -> Forall (fun b => b ∈ group_chars) (colon_hex l).
Proof.
  intros Hl. unfold colon_hex. induction Hl as [|n l Hn Hl IH]; [by constructor|]. cbn [fmap list_fmap mjoin list_join].
  rewrite <-app_comm_cons. constructor; [by left|]. apply Forall_app. split; [|exact IH].
  eapply Forall_impl; [apply hex_chars; unfold in_u in Hn; lia|]. intros b Hb. by right.
Qed.

Lemma fmt_chars l : Forall (in_u 16) l -> Forall (fun b => b ∈ group_chars) (fmt_subslice l).
Proof.
  intros Hl. destruct Hl as [|n l Hn Hl]; [by constructor|]. cbn [fmt_subslice]. apply Forall_app. split; [|by apply colon_hex_chars].
  eapply Forall_impl; [apply hex_chars; unfold in_u in Hn; lia|]. intros b Hb. by right.
Qed.

Lemma group_chars_no_dot s : Forall (fun b => b ∈ group_chars) s -> x2e ∉ s.
Proof.
  intros Hs Hin. rewrite Forall_forall in Hs. apply Hs in Hin. revert Hin. apply (bool_decide_eq_false_1 _). by vm_compute.
Qed.

(** ** Groups with colons *)

Lemma read_same c s : read_given_char c (c :: s) = Some (tt, s).
Proof. cbn [read_given_char]. by rewrite bool_decide_eq_true_2. Qed.

(** What can follow the groups read: the end, or a pair of colons. *)
Definition ends (s : bytes) : Prop := match s with [] => True | [_] => False | b :: c :: _ => b = x3a /\ c = x3a end.

Lemma ends_fails i s : ends s -> read_separator x3a (S i) (read_number 16 65535 (Some 4%nat) true) s = None.
Proof. destruct s as [|b [|c s]]; [done|done|]. by intros [-> ->]. Qed.

Lemma ends_stops s : ends s -> stops16 s.
Proof. destruct s as [|b [|c s]]; [done|done|]. by intros [-> ->]. Qed.

Lemma colon_hex_stops l rest : ends rest -> stops16 (colon_hex l ++ rest).
Proof. intros Hr. destruct l as [|n l]; [by apply ends_stops|]. done. Qed.

Lemma no_v4_group s i n : x2e ∉ s -> (if (0 <? n)%nat then read_separator x3a i read_ipv4_addr s else None) = None.
Proof.
  intros Hs. case_if; [|done]. destruct i as [|i]; cbn [read_separator]; [by apply no_dot_no_v4|].
  destruct s as [|b s]; [done|]. cbn [read_given_char]. case_bool_decide; [|done]. apply no_dot_no_v4. set_solver.
Qed.

Lemma read_colon_hex l : forall n i rest, Forall (in_u 16) l -> (length l <= n)%nat -> ends rest -> x2e ∉ rest ->
  read_groups n (S i) (colon_hex l ++ rest) = (l, false, rest).
Proof.
  induction l as [|g l IH]; intros n i rest Hl Hn He Hd.
  - destruct n as [|n]; [done|]. cbn [read_groups]. cbv zeta. change (colon_hex [] ++ rest) with rest.
    rewrite (no_v4_group rest (S i) n Hd). by rewrite ends_fails.
  - destruct n as [|n]; [cbn in Hn; lia|]. apply Forall_cons in Hl as [Hg Hl]. cbn [length] in Hn. cbn [read_groups]. cbv zeta.
    assert (x2e ∉ colon_hex (g :: l) ++ rest) as Hnd.
    { rewrite elem_of_app. intros [H|H]; [|done]. revert H. apply group_chars_no_dot, colon_hex_chars. by constructor. }
    rewrite (no_v4_group _ (S i) n Hnd).
    change (colon_hex (g :: l)) with ((x3a :: hex g) ++ colon_hex l). rewrite <-app_assoc, <-app_comm_cons.
    cbn [read_separator]. rewrite read_same.
    rewrite read_group by (done || by apply colon_hex_stops). rewrite IH by (done || lia). done.
Qed.

Lemma read_subslice l n rest : Forall (in_u 16) l -> (length l <= n)%nat -> ends rest -> x2e ∉ rest ->
  read_groups n 0 (fmt_subslice l ++ rest) = (l, false, rest).
Proof.
  intros Hl Hn He Hd. destruct n as [|n]; [destruct l; [done|cbn in Hn; lia]|]. cbn [read_groups]. cbv zeta.
  assert (x2e ∉ fmt_subslice l ++ rest) as Hnd.
  { rewrite elem_of_app. intros [H|H]; [|done]. revert H. by apply group_chars_no_dot, fmt_chars. }
  rewrite (no_v4_group _ 0 n Hnd). destruct Hl as [|g l Hg Hl].
  - cbn [fmt_subslice app read_separator]. destruct rest as [|b [|c rest]]; [done|done|]. by destruct He as [-> ->].
  - cbn [fmt_subslice read_separator]. rewrite <-app_assoc. cbn [length] in Hn.
    rewrite read_group by (done || by apply colon_hex_stops). rewrite read_colon_hex by (done || lia). done.
Qed.

(** ** The run of zeros *)

Definition zero_run (g : list Z) (run : nat * nat) : Prop :=
  g = take run.1 g ++ replicate run.2 0 ++ drop (run.1 + run.2) g /\ (run.1 + run.2 <= length g)%nat.

Lemma zero_run_later g x run : zero_run g run -> zero_run (g ++ [x]) run.
Proof.
  intros [Hg Hl]. split; [|rewrite length_app; lia]. rewrite take_app_le, drop_app_le by lia. rewrite !app_assoc, <-(app_assoc (take _ _)), <-Hg. done.
Qed.

Lemma zero_run_snoc g start len : zero_run g (start, len) -> (start + len = length g)%nat -> zero_run (g ++ [0]) (start, S len).
Proof.
  intros [Hg _] Hl. cbn in *. split; cbn [fst snd]; [|rewrite length_app; cbn; lia].
  rewrite drop_ge in Hg by lia. rewrite app_nil_r in Hg.
  rewrite drop_ge by (rewrite length_app; cbn; lia). rewrite app_nil_r, take_app_le by lia. rewrite replicate_S_end, app_assoc, <-Hg. done.
Qed.

Lemma zeroes_run g : zero_run g (zeroes g).
Proof.
  assert (let '(i, longest, current) := foldl span_step (0%nat, (0, 0)%nat, (0, 0)%nat) g in
    i = length g /\ zero_run g longest /\ (current.2 = 0%nat \/ zero_run g current /\ (current.1 + current.2 = length g)%nat)) as H.
  { induction g as [|x g IH] using rev_ind; [split_and!; [done|split; [done|cbn; lia]|by left]|].
    rewrite foldl_app. cbn [foldl]. destruct (foldl span_step _ g) as [[i longest] [cs cl]]. destruct IH as (-> & Hl & Hc).
    unfold span_step. destruct (x =? 0) eqn:Ex; z_bool; [|split_and!; [rewrite length_app; cbn; lia|by apply zero_run_later|by left]].
    subst x. cbn [fst snd]. set (start := if (cl =? 0)%nat then length g else cs).
    assert (zero_run (g ++ [0]) (start, S cl) /\ (start + S cl = S (length g))%nat) as [Hz He].
    { subst start. destruct (Nat.eqb_spec cl 0) as [->|Hne].
      - split; [|lia]. split; cbn [fst snd]; [|rewrite length_app; cbn; lia]. rewrite take_app_length. rewrite drop_ge by (rewrite length_app; cbn; lia). done.
      - destruct Hc as [Hc|[Hc Hc']]; [done|]. cbn [fst snd] in Hc'. split; [|lia]. by apply zero_run_snoc. }
    cbn [fst snd]. split_and!; [rewrite length_app; cbn; lia| |right; split; [done|rewrite length_app; cbn; lia]]. case_if; [done|by apply zero_run_later]. }
  unfold zeroes. destruct (foldl _ _ _) as [[i longest] current]. by destruct H as (_ & H & _).
Qed.

(** ** Addresses are read back *)

Lemma octets_split (o : list Z) : length o = 4%nat -> Forall (in_u 8) o ->
  exists a b c d, o = [a; b; c; d] /\ octet a /\ octet b /\ octet c /\ octet d.
Proof.
  destruct o as [|a [|b [|c [|d [|e o]]]]]; try done. intros _ Ho. repeat (apply Forall_cons in Ho as [? Ho]). eauto 10.
Qed.

Lemma show_v6_read g : length g = 8%nat -> Forall (in_u 16) g -> to_ipv4_mapped g = None -> read_ipv6_addr (show_v6 g) = Some (g, []).
Proof.
  intros Hl Hg Hm. unfold show_v6. rewrite Hm. destruct (zeroes_run g) as [Hz Hle]. destruct (zeroes g) as [start len]. cbn [fst snd] in *.
  unfold read_ipv6_addr. case_if.
  - apply Nat.ltb_lt in E. set (tail := drop (start + len) g) in *. assert (length tail = 8 - (start + len))%nat as Ht by (subst tail; rewrite length_drop; lia).
    assert (length (take start g) = start) as Hh by (rewrite length_take; lia).
    assert (Forall (in_u 16) (take start g) /\ Forall (in_u 16) tail) as [Hh16 Ht16] by (split; [by apply Forall_take|by apply Forall_drop]).
    rewrite read_subslice; [|done|lia|by destruct tail|].
    2: { rewrite !elem_of_cons. intros [?|[?|H]]; [done|done|]. revert H. by apply group_chars_no_dot, fmt_chars. }
    rewrite Hh. rewrite (proj2 (Nat.eqb_neq _ _)) by lia. rewrite !read_same. rewrite <-(app_nil_r (fmt_subslice tail)). rewrite read_subslice by (done || lia || set_solver).
    replace (8 - start - length tail)%nat with len by lia. by rewrite <-Hz.
  - rewrite <-(app_nil_r (fmt_subslice g)), read_subslice by (done || lia || set_solver). by rewrite Hl.
Qed.

Lemma read_first_group n s g rest : read_ipv4_addr s = None -> read_number 16 65535 (Some 4%nat) true s = Some (g, rest) ->
  read_groups (S n) 0 s = (let '(gs, v4, s) := read_groups n 1 rest in (g :: gs, v4, s)).
Proof. intros Hv Hg. cbn [read_groups read_separator]. rewrite Hv. cbv zeta. rewrite Hg. by destruct (0 <? n)%nat. Qed.

Lemma read_v4_groups n i s a b c d rest : read_ipv4_addr s = Some ([a; b; c; d], rest) ->
  read_groups (S (S n)) (S i) (x3a :: s) = ([a * 256 + b; c * 256 + d], true, rest).
Proof.
  intros Hv. remember (S n) as m eqn:Em. cbn [read_groups read_separator]. rewrite read_same, Hv. cbv zeta.
  by rewrite (proj2 (Nat.ltb_lt 0 m)) by lia.
Qed.

Lemma mapped_read a b c d : octet a -> octet b -> octet c -> octet d ->
  read_ipv6_addr (lit "::ffff:" ++ show_v4 a b c d) = Some ([0; 0; 0; 0; 0; 65535; a * 256 + b; c * 256 + d], []).
Proof.
  intros Ha Hb Hc Hd. unfold read_ipv6_addr. change (lit "::ffff:") with (x3a :: x3a :: hex 65535 ++ [x3a]).
  rewrite <-!app_comm_cons, <-app_assoc. change ([x3a] ++ show_v4 a b c d) with (x3a :: show_v4 a b c d).
  assert (read_ipv4_addr (hex 65535 ++ x3a :: show_v4 a b c d) = None) as Hv by reflexivity.
  pose proof (read_group 65535 (x3a :: show_v4 a b c d) ltac:(by apply (bool_decide_eq_true_1 _)) eq_refl) as Hg.
  pose proof (read_v4 a b c d [] Ha Hb Hc Hd I) as H4. rewrite app_nil_r in H4.
  pose proof (read_first_group 6 _ _ _ Hv Hg) as E. rewrite (read_v4_groups 4 0 _ _ _ _ _ _ H4) in E.
  set (t := hex 65535 ++ _) in *. clearbody t.
  assert (read_groups 8 0 (x3a :: x3a :: t) = ([], false, x3a :: x3a :: t)) as -> by reflexivity.
  cbn [length Nat.eqb]. rewrite !read_same. change (8 - (0 + 1))%nat with 7%nat. by rewrite E.
Qed.

(** An address is read back from what it prints. *)
Lemma parse_to_string a : ip_ok a -> parse_addr (to_string a) = Some a.
Proof.
  unfold parse_addr, parse_with, read_ip_addr. destruct a as [o|g]; intros [Hl Ha].
  - destruct (octets_split o Hl Ha) as (a & b & c & d & -> & ? & ? & ? & ?). cbn [to_string show_octets].
    rewrite <-(app_nil_r (show_v4 a b c d)), read_v4 by done. done.
  - cbn [to_string]. destruct (to_ipv4_mapped g) as [o|] eqn:Hm.
    + unfold show_v6. rewrite Hm. unfold to_ipv4_mapped in Hm. destruct g as [|g0 [|g1 [|g2 [|g3 [|g4 [|g5 [|g6 [|g7 [|g8 g]]]]]]]]]; try done.
      case_if; [|done]. injection Hm as <-. z_bool. subst. repeat (apply Forall_cons in Ha as [? Ha]). unfold in_u in *.
      assert (forall n, 0 <= n < 2 ^ 16 -> octet (n / 256) /\ octet (n mod 256) /\ n / 256 * 256 + n mod 256 = n) as Hn.
      { intros n Hn. unfold octet. pose proof (Z.div_mod n 256). pose proof (Z.mod_pos_bound n 256). split_and!; lia. }
      destruct (Hn g6) as (? & ? & E6); [done|]. destruct (Hn g7) as (? & ? & E7); [done|]. cbn [show_octets].
      assert (read_ipv4_addr (lit "::ffff:" ++ show_v4 (g6 / 256) (g6 mod 256) (g7 / 256) (g7 mod 256)) = None) as -> by done.
      rewrite mapped_read by done. by rewrite E6, E7.
    + rewrite no_dot_no_v4; [by rewrite show_v6_read|]. unfold show_v6. rewrite Hm. apply group_chars_no_dot.
      destruct (zeroes g) as [start len]. case_if; [|by apply fmt_chars]. apply Forall_app. split; [by apply fmt_chars, Forall_take|].
      do 2 (constructor; [by left|]). by apply fmt_chars, Forall_drop.
Qed.

(** The text of an address: digits, colons and dots, and not empty. *)
Definition addr_chars : bytes := x2e :: group_chars.

Lemma dec_chars n : octet n -> Forall (fun b => b ∈ addr_chars) (dec n).
Proof.
  intros Hn. unfold octet in Hn. unfold dec. apply Forall_fmap. eapply Forall_impl; [apply dec_go_digits; [lia|constructor]|].
  intros d Hd. cbn. assert (d ∈ [0; 1; 2; 3; 4; 5; 6; 7; 8; 9]) as Hin by (cbv beta in Hd; repeat (rewrite elem_of_cons); lia).
  repeat (apply elem_of_cons in Hin as [->|Hin]; [apply (bool_decide_eq_true_1 _); by vm_compute|]). by apply elem_of_nil in Hin.
Qed.

Lemma show_octets_chars o : Forall (in_u 8) o -> Forall (fun b => b ∈ addr_chars) (show_octets o).
Proof.
  intros Ho. destruct o as [|a [|b [|c [|d [|e o]]]]]; try by constructor. repeat (apply Forall_cons in Ho as [? Ho]).
  unfold show_octets, show_v4. repeat (apply Forall_app; split; [by apply dec_chars|constructor; [by left|]]). by apply dec_chars.
Qed.

Lemma group_addr_chars s : Forall (fun b => b ∈ group_chars) s -> Forall (fun b => b ∈ addr_chars) s.
Proof. intros Hs. eapply Forall_impl; [exact Hs|]. intros b Hb. by right. Qed.

Lemma to_string_chars a : ip_ok a -> Forall (fun b => b ∈ addr_chars) (to_string a).
Proof.
  destruct a as [o|g]; intros [_ Ha]; [by apply show_octets_chars|]. cbn [to_string]. unfold show_v6. destruct (to_ipv4_mapped g) as [o|] eqn:Hm.
  - apply Forall_app. split; [apply (bool_decide_eq_true_1 _); by vm_compute|]. apply show_octets_chars. unfold to_ipv4_mapped in Hm.
    destruct g as [|g0 [|g1 [|g2 [|g3 [|g4 [|g5 [|g6 [|g7 [|g8 g]]]]]]]]]; try done. case_if; [|done]. injection Hm as <-.
    repeat (apply Forall_cons in Ha as [? Ha]). unfold in_u in *.
    repeat (constructor; [first [apply Z.mod_pos_bound; lia|split; [apply Z.div_pos; lia|apply Z.div_lt_upper_bound; lia]]|]). constructor.
  - apply group_addr_chars. destruct (zeroes g) as [start len]. case_if; [|by apply fmt_chars]. apply Forall_app. split; [by apply fmt_chars, Forall_take|].
    do 2 (constructor; [by left|]). by apply fmt_chars, Forall_drop.
Qed.

(** ** What is read is an address *)

Lemma to_digit_nonneg radix b d : to_digit radix b = Some d -> 0 <= d.
Proof.
  unfold to_digit. cbv zeta. case_if; [|done]. intros [= <-]. repeat case_if; z_bool; lia.
Qed.

Lemma number_loop_nonneg radix over s : 0 <= radix -> forall r c v n rest, 0 <= r -> number_loop radix over s r c = Some (v, n, rest) -> 0 <= v.
Proof.
  intros Hr. induction s as [|b s IH]; intros r c v n rest Hn; cbn [number_loop]; [by intros [= <- _ _]|].
  destruct (to_digit radix b) as [d|] eqn:E; [|by intros [= <- _ _]]. cbv zeta. case_if; [done|]. apply IH. apply to_digit_nonneg in E. nia.
Qed.

Lemma read_number_range radix max md z s v rest : 0 <= radix -> read_number radix max md z s = Some (v, rest) -> 0 <= v <= max.
Proof.
  intros Hr. unfold read_number. cbv zeta. destruct (number_loop _ _ _ _ _) as [[[r c] rest']|] eqn:E; [|done].
  case_if; [done|]. case_if; [done|]. case_if; [done|]. intros [= <- _]. apply number_loop_nonneg in E; [|done|done]. z_bool. lia.
Qed.

Lemma read_separator_some {A} c i (inner : reader A) s r : read_separator c i inner s = Some r -> exists s', inner s' = Some r.
Proof. destruct i as [|i]; cbn [read_separator]; [by exists s|]. destruct (read_given_char c s) as [[u s']|]; [by exists s'|done]. Qed.

Lemma read_octets_ok n : forall i s o rest, read_octets n i s = Some (o, rest) -> length o = n /\ Forall (in_u 8) o.
Proof.
  induction n as [|n IH]; intros i s o rest; cbn [read_octets]; [by intros [= <- _]|].
  destruct (read_separator _ _ _ s) as [[x s']|] eqn:Ex; [|done]. destruct (read_octets n (S i) s') as [[os s'']|] eqn:Eo; [|done].
  intros [= <- _]. apply read_separator_some in Ex as [s0 Ex]. apply read_number_range in Ex; [|done]. apply IH in Eo as [Hl Ho].
  cbn [length]. split; [lia|]. constructor; [unfold in_u; lia|done].
Qed.

Lemma read_groups_ok n : forall i s gs v4 rest, read_groups n i s = (gs, v4, rest) -> (length gs <= n)%nat /\ Forall (in_u 16) gs.
Proof.
  induction n as [|n IH]; intros i s gs v4 rest; cbn [read_groups]; [by intros [= <- _ _]|]. cbv zeta.
  set (ipv4 := if (0 <? n)%nat then _ else None).
  assert (forall os r, ipv4 = Some (os, r) -> (0 < n)%nat /\ Forall (in_u 8) os) as H4.
  { intros os r. unfold ipv4. destruct (Nat.ltb_spec 0 n) as [Hn|Hn]; [|done]. intros [s0 E]%read_separator_some. by apply read_octets_ok in E as [_ E]. }
  set (other := match read_separator x3a i (read_number 16 65535 (Some 4%nat) true) s with Some _ => _ | None => _ end).
  assert (other = (gs, v4, rest) -> (length gs <= S n)%nat /\ Forall (in_u 16) gs) as Ho.
  { unfold other. destruct (read_separator x3a i (read_number 16 65535 (Some 4%nat) true) s) as [[g s']|] eqn:Eg;
      [|intros [[<- _]%pair_equal_spec _]%pair_equal_spec; split; [cbn; lia|constructor]].
    destruct (read_groups n (S i) s') as [[gs' v4'] s''] eqn:Er. intros [= <- _ _]. apply IH in Er as [Hl Hf].
    apply read_separator_some in Eg as [s0 Eg]. apply read_number_range in Eg; [|done]. cbn [length]. split; [lia|]. constructor; [unfold in_u; lia|done]. }
  destruct ipv4 as [[os r]|]; [|exact Ho]. destruct (H4 os r eq_refl) as [Hn Hf]. clearbody other. clear H4.
  destruct os as [|a [|b [|c [|d [|e os]]]]]; try exact Ho. intros [= <- _ _]. cbn [length]. split; [lia|].
  repeat (apply Forall_cons in Hf as [? Hf]). unfold in_u in *. repeat constructor; lia.
Qed.

Lemma read_ipv6_ok s g rest : read_ipv6_addr s = Some (g, rest) -> length g = 8%nat /\ Forall (in_u 16) g.
Proof.
  unfold read_ipv6_addr. destruct (read_groups 8 0 s) as [[hd v4] s1] eqn:Eh. apply read_groups_ok in Eh as [Hl Hf].
  destruct (Nat.eqb_spec (length hd) 8) as [H8|H8]; [by intros [= <- _]|]. destruct v4; [done|].
  destruct (read_given_char x3a s1) as [[u s2]|]; [|done]. destruct (read_given_char x3a s2) as [[u' s3]|]; [|done].
  destruct (read_groups (8 - (length hd + 1)) 0 s3) as [[tl v4'] s4] eqn:Et. apply read_groups_ok in Et as [Hlt Hft].
  intros [= <- _]. rewrite !length_app, length_replicate. split; [lia|]. apply Forall_app. split; [done|]. apply Forall_app. split; [|done].
  apply Forall_replicate. unfold in_u. lia.
Qed.

Lemma parse_addr_ok s a : parse_addr s = Some a -> ip_ok a.
Proof.
  unfold parse_addr, parse_with, read_ip_addr. destruct (read_ipv4_addr s) as [[o r]|] eqn:E4.
  - destruct r; [|done]. intros [= <-]. exact (read_octets_ok _ _ _ _ _ E4).
  - destruct (read_ipv6_addr s) as [[g r]|] eqn:E6; [|done]. destruct r; [|done]. intros [= <-]. exact (read_ipv6_ok _ _ _ E6).
Qed.

Lemma to_canonical_ok a : ip_ok a -> ip_ok (to_canonical a).
Proof.
  destruct a as [o|g]; [done|]. intros [Hl Hg]. cbn [to_canonical]. unfold to_ipv4_mapped.
  destruct g as [|g0 [|g1 [|g2 [|g3 [|g4 [|g5 [|g6 [|g7 [|g8 g]]]]]]]]]; try done. case_if; [|done]. clear Hl.
  repeat (apply Forall_cons in Hg as [? Hg]). unfold in_u in *. split; [done|].
  repeat (constructor; [first [apply Z.mod_pos_bound; lia|split; [apply Z.div_pos; lia|apply Z.div_lt_upper_bound; lia]]|]). constructor.
Qed.
