(* ===== verification/DashboardLimit.v ===== *)
(** * Request limits of the dashboard

    Models [services/rg-dashboard/src/rate_limit.rs]: which client a request is from ([ClientAddr]),
    the key it is counted under, the two limited classes over the limiter of [Limits], the middleware
    [enforce] and the sweep.

    Header names are in lower case and a name can have several values, in the order they came. A
    [Duration] and an [Instant] are nanoseconds. *)

From S2P Require Import Prelude Policy VerdictLog Limits License Auth Middleware NetAddr IpText.

Definition FANOUT_PER_MINUTE : Z := 120.
Definition MAX_TRACKED_CLIENTS : Z := 10000.
Definition SWEEP_EVERY : Z := 60 * 1000000000.
Definition FORWARDING_HEADERS : list string := ["x-forwarded-for"; "cf-connecting-ip"; "forwarded"]%string.

Abbreviation HeaderMap := (list (string * bytes)).

(** [HeaderMap::get_all]. *)
Definition get_all (name : string) (hs : HeaderMap) : list bytes := (filter (fun h => h.1 = name) hs).*2.
Definition contains_key (hs : HeaderMap) (name : string) : bool := bool_decide (is_Some (get_header name hs)).

Inductive ClientIpHeader : Type := CfConnectingIp | XForwardedFor.

Module RateLimitConfig.
Record t : Type := mk { api_per_minute : Z; trusted_proxies : list IpAddr; client_ip_header : option ClientIpHeader }.
End RateLimitConfig.

Module Unattributed.
Record t : Type := mk { last_peer : IpAddr; requests : Z }.
End Unattributed.

(** ** The client of a request *)

Module ClientAddr.
Record t : Type := mk {
  trusted_proxies : list IpAddr; header : option ClientIpHeader; unattributed : option Unattributed.t }.

Definition from_config (cfg : RateLimitConfig.t) : t :=
  mk (to_canonical <$> RateLimitConfig.trusted_proxies cfg) (RateLimitConfig.client_ip_header cfg) None.

Definition trusts (c : t) (ip : IpAddr) : bool := bool_decide (ip ∈ trusted_proxies c).

(** [entries]: the pieces of every line; a line that is not visible ASCII gives no answer. *)
Fixpoint xff_entries (lines : list bytes) : option (list bytes) :=
  match lines with
  | [] => Some []
  | line :: lines => s ← header_to_str line; rest ← xff_entries lines; Some (split_str x2c s ++ rest)
  end.

(** The loop over the entries, last first. *)
Fixpoint walk (c : t) (entries : list bytes) : option IpAddr :=
  match entries with
  | [] => None
  | entry :: entries =>
      match to_canonical <$> parse_addr (trim_str entry) with
      | None => None
      | Some ip => if trusts c ip then walk c entries else Some ip
      end
  end.
Definition rightmost_untrusted (c : t) (hs : HeaderMap) : option IpAddr :=
  entries ← xff_entries (get_all "x-forwarded-for" hs); walk c (reverse entries).

Definition resolve (c : t) (peer : IpAddr) (hs : HeaderMap) : IpAddr :=
  match header c with
  | None => peer
  | Some h =>
      if negb (trusts c (to_canonical peer)) then peer
      else
        let named :=
          match h with
          | CfConnectingIp => v ← get_header "cf-connecting-ip" hs; s ← header_to_str v; parse_addr (trim_str s)
          | XForwardedFor => rightmost_untrusted c hs
          end in
        match named with Some ip => to_canonical ip | None => peer end
  end.

Definition note_unattributed (peer client : IpAddr) (hs : HeaderMap) (c : t) : t :=
  if negb (bool_decide (to_canonical client = to_canonical peer)) || negb (existsb (contains_key hs) FORWARDING_HEADERS) then c
  else
    let seen := unwrap_or (unattributed c) (Unattributed.mk (to_canonical peer) 0) in
    mk (trusted_proxies c) (header c)
      (Some (Unattributed.mk (to_canonical peer) (saturating_add 64 (Unattributed.requests seen) 1))).

Definition take_unattributed (c : t) : option Unattributed.t * t :=
  (unattributed c, mk (trusted_proxies c) (header c) None).
End ClientAddr.

(** ** The limited classes *)

Definition bucket_key (client : IpAddr) : IpAddr :=
  match to_canonical client with
  | V6 v6 => V6 (from_bits (Z.land (to_bits v6) (Z.shiftl u128_max 64 mod 2 ^ 128)))
  | V4 o => V4 o
  end.

Definition retry_after_secs (wait : Z) : Z :=
  Z.max 1 (Z.min 60 (wait / 1000000000 + (if wait mod 1000000000 >? 0 then 1 else 0))).

Module LimitClass.
Record t : Type := mk { name : string; limiter : RateLimiter.t IpAddr; per_minute : Z; rejected : Z }.

Section Ops.
Context `{!IpOrder IpAddr}.

Definition new (name : string) (per_minute : Z) : t :=
  mk name (RateLimiter.with_config MAX_TRACKED_CLIENTS None) per_minute 0.

(** [sweep], with the refusals it logged, and the requests whose header went unused. *)
Definition sweep (now : Z) (c : ClientAddr.t) (k : t) : Z * option Unattributed.t * ClientAddr.t * t :=
  let '(seen, c) := ClientAddr.take_unattributed c in
  (rejected k, seen, c, mk (name k) (RateLimiter.cleanup now (limiter k)) (per_minute k) 0).

(** [enforce]: whether the request goes on to its handler, or the seconds of [Retry-After]. *)
Definition enforce (now : Z) (peer : IpAddr) (hs : HeaderMap) (c : ClientAddr.t) (k : t) : result unit Z * ClientAddr.t * t :=
  let client := ClientAddr.resolve c peer hs in
  let c := ClientAddr.note_unattributed peer client hs c in
  match RateLimiter.admit_at now (bucket_key client) (per_minute k) (limiter k) with
  | (Ok _, l) => (Ok tt, c, mk (name k) l (per_minute k) (rejected k))
  | (Err wait, l) => (Err (retry_after_secs wait), c, mk (name k) l (per_minute k) (wrapping_add 64 (rejected k) 1))
  end.
End Ops.
End LimitClass.

(** * Properties *)

(** ** Keys *)

Lemma digit_at n d p q r x : 0 <= r < d -> 0 <= x < 65536 -> n = d * p + r -> p = 65536 * q + x -> (n / d) mod 65536 = x.
Proof.
  intros Hr Hx Hn Hp. rewrite <-(Z.div_unique n d p r) by (done || by left). symmetry. apply (Z.mod_unique p 65536 q); [by left|done].
Qed.

(** The key of an IPv6 address is its /64. *)
Lemma bucket_key_v6 g : ip_ok (V6 g) -> to_ipv4_mapped g = None -> bucket_key (V6 g) = V6 (take 4 g ++ [0; 0; 0; 0]).
Proof.
  intros [Hl Hg] Hm. unfold bucket_key, to_canonical. rewrite Hm. f_equal.
  destruct g as [|g0 [|g1 [|g2 [|g3 [|g4 [|g5 [|g6 [|g7 [|g8 g]]]]]]]]]; try done. clear Hl Hm.
  repeat (apply Forall_cons in Hg as [? Hg]). unfold in_u in *. change (2 ^ 16) with 65536 in *.
  set (n := to_bits _). set (hi := ((g0 * 65536 + g1) * 65536 + g2) * 65536 + g3). set (lo := ((g4 * 65536 + g5) * 65536 + g6) * 65536 + g7).
  assert (n = hi * 2 ^ 64 + lo) as Hn by (subst n hi lo; unfold to_bits; cbn [foldl]; lia).
  assert (0 <= lo < 2 ^ 64) as Hlo by (subst lo; lia). assert (0 <= hi < 2 ^ 64) as Hhi by (subst hi; lia).
  assert (Z.land n (Z.shiftl u128_max 64 mod 2 ^ 128) = hi * 2 ^ 64) as ->.
  { change (Z.shiftl u128_max 64 mod 2 ^ 128) with (Z.shiftl (Z.ones 64) 64).
    replace (Z.land n (Z.shiftl (Z.ones 64) 64)) with (Z.shiftl (Z.land (Z.shiftr n 64) (Z.ones 64)) 64).
    - rewrite Z.land_ones, Z.shiftl_mul_pow2, Z.shiftr_div_pow2 by lia. rewrite Hn, Z.div_add_l, Z.div_small, Z.add_0_r, Z.mod_small by lia. done.
    - apply Z.bits_inj'. intros i Hi. rewrite Z.land_spec, !Z.shiftl_spec by lia. destruct (Z.lt_ge_cases i 64).
      + rewrite !(Z.testbit_neg_r _ (i - 64)) by lia. by rewrite andb_false_r.
      + rewrite Z.land_spec, Z.shiftr_spec by lia. f_equal. f_equal. lia. }
  unfold from_bits. cbn [fmap list_fmap take app]. subst hi. clear Hn Hlo lo Hhi n.
  set (h1 := g0 * 65536 + g1). set (h2 := h1 * 65536 + g2). set (h3 := h2 * 65536 + g3).
  rewrite (digit_at _ _ g0 0 (((g1 * 65536 + g2) * 65536 + g3) * 2 ^ 64) g0) by lia.
  rewrite (digit_at _ _ h1 g0 ((g2 * 65536 + g3) * 2 ^ 64) g1) by lia.
  rewrite (digit_at _ _ h2 h1 (g3 * 2 ^ 64) g2) by lia. rewrite (digit_at _ _ h3 h2 0 g3) by lia.
  rewrite (digit_at _ (65536 ^ 3) (h3 * 65536) h3 0 0) by lia. rewrite (digit_at _ (65536 ^ 2) (h3 * 65536 ^ 2) (h3 * 65536) 0 0) by lia.
  rewrite (digit_at _ (65536 ^ 1) (h3 * 65536 ^ 3) (h3 * 65536 ^ 2) 0 0) by lia. rewrite (digit_at _ (65536 ^ 0) (h3 * 65536 ^ 4) (h3 * 65536 ^ 3) 0 0) by lia.
  done.
Qed.

(** Two addresses of one /64 share a key, and an IPv4 address has the key of its mapped form. *)
Lemma bucket_key_canonical a : bucket_key (to_canonical a) = bucket_key a.
Proof.
  unfold bucket_key. assert (to_canonical (to_canonical a) = to_canonical a) as ->; [|done].
  destruct a as [o|g]; [done|]. cbn. destruct (to_ipv4_mapped g) eqn:E; [done|]. cbn. by rewrite E.
Qed.

(** ** Texts of addresses in headers *)

Lemma strip_addr_char b s : b ∈ addr_chars ->
  strip_first white_space (Ascii.ascii_of_byte b :: s) = None /\ strip_first (reverse <$> white_space) (Ascii.ascii_of_byte b :: s) = None.
Proof.
  intros Hin. change addr_chars with [x2e; x3a; x30; x31; x32; x33; x34; x35; x36; x37; x38; x39; x61; x62; x63; x64; x65; x66] in Hin.
  repeat (apply elem_of_cons in Hin as [->|Hin]; [by vm_compute|]). by apply elem_of_nil in Hin.
Qed.

Lemma trim_addr_chars (s : bytes) : s <> [] -> Forall (fun b => b ∈ addr_chars) s ->
  forall fuel, reverse (trim_start_fuel fuel (reverse <$> white_space) (reverse (Ascii.ascii_of_byte <$> s))) = Ascii.ascii_of_byte <$> s.
Proof.
  intros Hne Hs fuel. destruct s as [|b s _] using rev_ind; [done|]. apply Forall_app in Hs as [_ Hb]. apply Forall_cons in Hb as [Hb _].
  rewrite fmap_app, reverse_app. cbn [fmap list_fmap reverse rev_append app]. rewrite trim_fuel_none by exact (proj2 (strip_addr_char _ _ Hb)).
  rewrite reverse_cons, reverse_involutive. done.
Qed.

Lemma bytes_of_ascii (s : bytes) : Ascii.byte_of_ascii <$> (Ascii.ascii_of_byte <$> s) = s.
Proof. rewrite <-list_fmap_compose. rewrite (list_fmap_ext _ id s), list_fmap_id; [done|]. intros i x _. apply Ascii.byte_of_ascii_of_byte. Qed.

(** Spaces around the text of an address do not matter. *)
Lemma trim_address s : s <> [] -> Forall (fun b => b ∈ addr_chars) s -> trim_str s = s /\ trim_str (x20 :: s) = s.
Proof.
  intros Hne Hs. assert (forall fuel, trim_start_fuel fuel white_space (Ascii.ascii_of_byte <$> s) = Ascii.ascii_of_byte <$> s) as Hf.
  { intros fuel. destruct Hs as [|b s Hb Hs]; [done|]. cbn [fmap list_fmap]. apply trim_fuel_none. exact (proj1 (strip_addr_char _ _ Hb)). }
  unfold trim_str, trim. split.
  - rewrite Hf, trim_addr_chars by done. apply bytes_of_ascii.
  - cbn [fmap list_fmap length trim_start_fuel].
    assert (forall t, strip_first white_space (Ascii.ascii_of_byte x20 :: t) = Some t) as -> by reflexivity.
    rewrite Hf, trim_addr_chars by done. apply bytes_of_ascii.
Qed.

Lemma to_string_nonempty a : ip_ok a -> to_string a <> [].
Proof. intros Ha E. pose proof (parse_to_string a Ha) as Hp. by rewrite E in Hp. Qed.

Lemma parse_entry a : ip_ok a -> parse_addr (trim_str (to_string a)) = Some a /\ parse_addr (trim_str (x20 :: to_string a)) = Some a.
Proof.
  intros Ha. destruct (trim_address (to_string a)) as [E1 E2]; [by apply to_string_nonempty|by apply to_string_chars|].
  rewrite E1, E2. by rewrite parse_to_string.
Qed.

Definition visible (b : byte) : Prop := byte_to_Z b = 9 \/ 32 <= byte_to_Z b <= 126.

Lemma header_to_str_visible v : header_to_str v = Some v <-> Forall visible v.
Proof.
  unfold header_to_str. rewrite Forall_forall. destruct (forallb _ v) eqn:E.
  - split; [intros _|done]. intros b Hb. rewrite forallb_forall in E. apply list_elem_of_In, E in Hb. unfold visible. cbv zeta in Hb. lia.
  - split; [done|]. intros Hv. apply not_true_iff_false in E. destruct E. apply forallb_forall. intros b Hb%list_elem_of_In. apply Hv in Hb.
    unfold visible in Hb. cbv zeta. lia.
Qed.

Lemma address_visible s : Forall (fun b => b ∈ addr_chars) s -> Forall visible s.
Proof.
  intros Hs. eapply Forall_impl; [exact Hs|]. intros b Hb. cbv beta in Hb.
  change addr_chars with [x2e; x3a; x30; x31; x32; x33; x34; x35; x36; x37; x38; x39; x61; x62; x63; x64; x65; x66] in Hb.
  repeat (apply elem_of_cons in Hb as [->|Hb]; [right; by vm_compute|]). by apply elem_of_nil in Hb.
Qed.

Lemma address_no_comma s : Forall (fun b => b ∈ addr_chars) s -> x2c ∉ s.
Proof. intros Hs Hin. rewrite Forall_forall in Hs. apply Hs in Hin. revert Hin. apply (bool_decide_eq_false_1 _). by vm_compute. Qed.

Lemma split_from_app c l : forall r cur, split_from c (l ++ c :: r) cur = split_from c l cur ++ split_from c r [].
Proof.
  induction l as [|x l IH]; intros r cur; cbn [app split_from]; [by rewrite bool_decide_eq_true_2|]. case_bool_decide; rewrite IH; done.
Qed.

Lemma split_from_one c s : forall cur, c ∉ s -> split_from c s cur = [reverse cur ++ s].
Proof.
  induction s as [|x s IH]; intros cur Hn; cbn [split_from]; [by rewrite app_nil_r|].
  rewrite bool_decide_false by set_solver. rewrite IH by set_solver. by rewrite reverse_cons, <-app_assoc.
Qed.

(** ** What the proxies write *)

(** A proxy appends the address it was connected from: on a line of its own, or to the last line. *)
Inductive appends (text : bytes) : list bytes -> list bytes -> Prop :=
| appends_line lines : appends text lines (lines ++ [text])
| appends_entry lines l : appends text (lines ++ [l]) (lines ++ [l ++ lit ", " ++ text]).

(** The lines after a chain of proxies, the first nearest to the client. *)
Inductive chain (client_lines : list bytes) : list IpAddr -> list bytes -> Prop :=
| chain_start : chain client_lines [] client_lines
| chain_hop addrs l a l' : chain client_lines addrs l -> ip_ok a -> appends (to_string a) l l' -> chain client_lines (addrs ++ [a]) l'.

Lemma xff_entries_app l1 l2 es1 es2 : ClientAddr.xff_entries l1 = Some es1 -> ClientAddr.xff_entries l2 = Some es2 ->
  ClientAddr.xff_entries (l1 ++ l2) = Some (es1 ++ es2).
Proof.
  revert es1. induction l1 as [|x l1 IH]; intros es1; cbn [ClientAddr.xff_entries app]; [by intros [= <-]|].
  destruct (header_to_str x) as [s|]; [|done]. cbn [mbind option_bind]. destruct (ClientAddr.xff_entries l1) as [r|]; [|done].
  cbn [mbind option_bind]. intros [= <-] H2. by rewrite (IH r eq_refl H2), <-app_assoc.
Qed.

Lemma xff_entries_split l1 l2 es : ClientAddr.xff_entries (l1 ++ l2) = Some es ->
  exists es1 es2, ClientAddr.xff_entries l1 = Some es1 /\ ClientAddr.xff_entries l2 = Some es2 /\ es = es1 ++ es2.
Proof.
  revert es. induction l1 as [|x l1 IH]; intros es; cbn [ClientAddr.xff_entries app]; [by exists [], es|].
  destruct (header_to_str x) as [s|]; [|done]. cbn [mbind option_bind].
  destruct (ClientAddr.xff_entries (l1 ++ l2)) as [r|]; [|done]. cbn [mbind option_bind]. intros [= <-].
  destruct (IH r eq_refl) as (es1 & es2 & -> & -> & ->). cbn [mbind option_bind]. eexists _, es2. by rewrite app_assoc.
Qed.

Lemma header_to_str_some v s : header_to_str v = Some s -> s = v.
Proof. unfold header_to_str. case_if; congruence. Qed.

Lemma appends_entries a l l' es : ip_ok a -> appends (to_string a) l l' -> ClientAddr.xff_entries l = Some es ->
  exists e, ClientAddr.xff_entries l' = Some (es ++ [e]) /\ parse_addr (trim_str e) = Some a.
Proof.
  intros Ha Hap Hes. pose proof (to_string_chars a Ha) as Hc. destruct (parse_entry a Ha) as [Hp1 Hp2].
  pose proof (address_no_comma _ Hc) as Hn. destruct Hap as [lines|lines l].
  - exists (to_string a). split; [|done]. apply xff_entries_app; [done|]. cbn [ClientAddr.xff_entries].
    rewrite (proj2 (header_to_str_visible _) (address_visible _ Hc)). cbn. unfold split_str. by rewrite split_from_one.
  - exists (x20 :: to_string a). split; [|done]. apply xff_entries_split in Hes as (es1 & es2 & H1 & H2 & ->).
    rewrite <-app_assoc. apply xff_entries_app; [done|]. cbn [ClientAddr.xff_entries] in *.
    destruct (header_to_str l) as [s|] eqn:Hl; [|done]. pose proof (header_to_str_some _ _ Hl) as ->. cbn [mbind option_bind] in H2. injection H2 as <-.
    rewrite app_nil_r.
    assert (header_to_str (l ++ lit ", " ++ to_string a) = Some (l ++ lit ", " ++ to_string a)) as ->.
    { apply header_to_str_visible. apply Forall_app. split; [by apply header_to_str_visible|]. apply Forall_app.
      split; [by repeat (constructor; [right; by vm_compute|])|by apply address_visible]. }
    cbn [mbind option_bind]. rewrite app_nil_r. f_equal.
    change (lit ", ") with [x2c; x20]. cbn [app]. unfold split_str. rewrite split_from_app.
    by rewrite (split_from_one x2c (x20 :: _)) by set_solver.
Qed.

Lemma chain_entries client_lines es addrs l : ClientAddr.xff_entries client_lines = Some es -> chain client_lines addrs l ->
  exists written, ClientAddr.xff_entries l = Some (es ++ written) /\ Forall2 (fun e a => parse_addr (trim_str e) = Some a) written addrs.
Proof.
  intros Hes Hch. induction Hch as [|addrs l a l' Hch (written & Hw & HF) Ha Hap].
  - exists []. by rewrite app_nil_r.
  - destruct (appends_entries a l l' _ Ha Hap Hw) as (e & He & Hp). exists (written ++ [e]). split; [by rewrite app_assoc|].
    apply Forall2_app; [done|]. by repeat constructor.
Qed.

Lemma walk_trusted c es addrs rest : Forall2 (fun e a => parse_addr (trim_str e) = Some a) es addrs ->
  Forall (fun a => ClientAddr.trusts c (to_canonical a) = true) addrs -> ClientAddr.walk c (es ++ rest) = ClientAddr.walk c rest.
Proof.
  intros HF. induction HF as [|e a es addrs Hp HF IH]; intros Ht; [done|]. apply Forall_cons in Ht as [Ht Hts].
  cbn [app ClientAddr.walk]. rewrite Hp. cbn. rewrite Ht. by apply IH.
Qed.

Lemma to_canonical_idem a : to_canonical (to_canonical a) = to_canonical a.
Proof. destruct a as [o|g]; [done|]. cbn. destruct (to_ipv4_mapped g) eqn:E; [done|]. cbn. by rewrite E. Qed.

(** Behind proxies that append to [x-forwarded-for], the answer is the first address before the trusted
    ones, whatever the client wrote on the lines it sent itself. *)
Lemma resolve_behind_proxies c peer hs client_lines spoofed a hops :
  ClientAddr.header c = Some XForwardedFor -> ClientAddr.trusts c (to_canonical peer) = true ->
  ClientAddr.xff_entries client_lines = Some spoofed -> chain client_lines (a :: hops) (get_all "x-forwarded-for" hs) ->
  ClientAddr.trusts c (to_canonical a) = false -> Forall (fun p => ClientAddr.trusts c (to_canonical p) = true) hops ->
  ClientAddr.resolve c peer hs = to_canonical a.
Proof.
  intros Hh Hp Hsp Hch Ha Hhops. destruct (chain_entries _ _ _ _ Hsp Hch) as (written & Hw & HF).
  unfold ClientAddr.resolve. rewrite Hh, Hp. cbn [negb]. unfold ClientAddr.rightmost_untrusted. rewrite Hw. cbn [mbind option_bind].
  apply Forall2_cons_inv_r in HF as (e & es & He & HF & ->).
  rewrite reverse_app, reverse_cons, <-app_assoc.
  rewrite (walk_trusted c (reverse es) (reverse hops)); [|by apply Forall2_reverse|by apply Forall_reverse].
  cbn [app ClientAddr.walk]. rewrite He. cbn. rewrite Ha. apply to_canonical_idem.
Qed.

(** An entry of the client that is not visible ASCII hides the client behind the proxy's own address. *)
Lemma opaque_line_hides_client c peer hs line :
  ClientAddr.header c = Some XForwardedFor -> line ∈ get_all "x-forwarded-for" hs -> header_to_str line = None ->
  ClientAddr.resolve c peer hs = peer.
Proof.
  intros Hh Hin Hl. unfold ClientAddr.resolve. rewrite Hh. case_if; [done|]. unfold ClientAddr.rightmost_untrusted.
  assert (ClientAddr.xff_entries (get_all "x-forwarded-for" hs) = None) as ->; [|done].
  induction Hin as [lines|line x lines Hin IH]; cbn [ClientAddr.xff_entries]; [by rewrite Hl|].
  destruct (header_to_str x); [|done]. cbn [mbind option_bind]. by rewrite IH.
Qed.

(** ** Who a request is from *)

(** A request from the client at [a]: over a direct connection, or through trusted proxies that name it
    in the configured header. What the client writes itself is arbitrary visible text. *)
Inductive came_from (c : ClientAddr.t) (a peer : IpAddr) (hs : HeaderMap) : Prop :=
| came_directly : peer = a -> ClientAddr.header c = None \/ ClientAddr.trusts c (to_canonical peer) = false -> came_from c a peer hs
| came_through_cloudflare : ClientAddr.header c = Some CfConnectingIp -> ClientAddr.trusts c (to_canonical peer) = true ->
    ip_ok a -> get_header "cf-connecting-ip" hs = Some (to_string a) -> came_from c a peer hs
| came_through_proxies client_lines hops : ClientAddr.header c = Some XForwardedFor -> ClientAddr.trusts c (to_canonical peer) = true ->
    Forall (Forall visible) client_lines -> chain client_lines (a :: hops) (get_all "x-forwarded-for" hs) ->
    ClientAddr.trusts c (to_canonical a) = false -> Forall (fun p => ClientAddr.trusts c (to_canonical p) = true) hops ->
    came_from c a peer hs.

Lemma visible_entries lines : Forall (Forall visible) lines -> is_Some (ClientAddr.xff_entries lines).
Proof.
  intros Hl. induction Hl as [|l lines Hl Hls [es IH]]; [by eexists|]. cbn [ClientAddr.xff_entries].
  apply header_to_str_visible in Hl. rewrite Hl, IH. by eexists.
Qed.

Lemma resolve_client c a peer hs : came_from c a peer hs -> to_canonical (ClientAddr.resolve c peer hs) = to_canonical a.
Proof.
  intros [-> Hd|Hh Hp Ha Hg|client_lines hops Hh Hp Hv Hch Ha Hhops].
  - unfold ClientAddr.resolve. destruct Hd as [->| ->]; [done|]. by destruct (ClientAddr.header c).
  - unfold ClientAddr.resolve. rewrite Hh, Hp, Hg. cbn [negb mbind option_bind].
    rewrite (proj2 (header_to_str_visible _) (address_visible _ (to_string_chars a Ha))). cbn [mbind option_bind].
    rewrite (proj1 (parse_entry a Ha)). apply to_canonical_idem.
  - destruct (visible_entries client_lines Hv) as [es Hes]. rewrite (resolve_behind_proxies c peer hs client_lines es a hops) by done.
    apply to_canonical_idem.
Qed.

(** ** Budgets *)

Section Budget.
Context `{!IpOrder IpAddr}.

(** What happens to one class: requests, its sweeps, and the other class's use of the shared record of
    requests whose header went unused. *)
Inductive event : Type :=
| Request (now : Z) (peer : IpAddr) (hs : HeaderMap)
| Sweep (now : Z)
| Elsewhere (now : Z) (seen : option Unattributed.t).

Definition class_step (e : event) (s : ClientAddr.t * LimitClass.t) : ClientAddr.t * LimitClass.t :=
  match e with
  | Request now peer hs => let '(_, c, k) := LimitClass.enforce now peer hs s.1 s.2 in (c, k)
  | Sweep now => let '(_, _, c, k) := LimitClass.sweep now s.1 s.2 in (c, k)
  | Elsewhere _ seen => (ClientAddr.mk (ClientAddr.trusted_proxies s.1) (ClientAddr.header s.1) seen, s.2)
  end.

(** The requests that were let through, with the key each was counted under. *)
Fixpoint passed (evs : list event) (s : ClientAddr.t * LimitClass.t) : list (Z * IpAddr) :=
  match evs with
  | [] => []
  | e :: evs =>
      match e with
      | Request now peer hs =>
          if is_ok (LimitClass.enforce now peer hs s.1 s.2).1.1 then [(now, bucket_key (ClientAddr.resolve s.1 peer hs))] else []
      | _ => []
      end ++ passed evs (class_step e s)
  end.

Definition event_op (c : ClientAddr.t) (max : Z) (e : event) : list limiter_op :=
  match e with
  | Request now peer hs => [Admit now (bucket_key (ClientAddr.resolve c peer hs)) max]
  | Sweep now => [Cleanup now]
  | Elsewhere _ _ => []
  end.

Definition same_trust (c c' : ClientAddr.t) : Prop :=
  ClientAddr.trusted_proxies c' = ClientAddr.trusted_proxies c /\ ClientAddr.header c' = ClientAddr.header c.

Lemma same_trust_walk c c' l : same_trust c c' -> ClientAddr.walk c' l = ClientAddr.walk c l.
Proof.
  intros [Ht _]. induction l as [|x l IH]; [done|]. cbn [ClientAddr.walk]. unfold ClientAddr.trusts. by rewrite Ht, IH.
Qed.

Lemma same_trust_resolve c c' peer hs : same_trust c c' -> ClientAddr.resolve c' peer hs = ClientAddr.resolve c peer hs.
Proof.
  intros Hs. pose proof Hs as [Ht Hh]. unfold ClientAddr.resolve, ClientAddr.trusts, ClientAddr.rightmost_untrusted. rewrite Ht, Hh.
  destruct (ClientAddr.xff_entries _); [|done]. cbn [mbind option_bind]. by rewrite (same_trust_walk c c').
Qed.

Lemma class_step_trust e s : same_trust s.1 (class_step e s).1 /\ LimitClass.per_minute (class_step e s).2 = LimitClass.per_minute s.2.
Proof.
  destruct s as [c k]. destruct e as [now peer hs|now|now seen]; [|done|done]. cbn [class_step fst snd]. unfold LimitClass.enforce.
  destruct (RateLimiter.admit_at _ _ _ _) as [[u|w] l]; cbn [fst snd]; unfold ClientAddr.note_unattributed; by case_if.
Qed.

Lemma passed_admitted evs : forall c s, same_trust c s.1 ->
  passed evs s = admitted (evs ≫= event_op c (LimitClass.per_minute s.2)) (LimitClass.limiter s.2).
Proof.
  induction evs as [|e evs IH]; intros c s Hc; [done|]. cbn [passed]. destruct (class_step_trust e s) as [Ht Hm].
  assert (same_trust c (class_step e s).1) as Hc' by (destruct Hc, Ht; split; congruence).
  rewrite (IH c _ Hc'), Hm. cbn [mbind list_bind]. change (list_bind _ _ ?f ?l) with (l ≫= f). destruct s as [ca k]. cbn [fst snd] in *.
  destruct e as [now peer hs|now|now seen]; cbn [event_op app class_step]; [|done|done].
  rewrite (same_trust_resolve c ca) by done. cbn [admitted fst snd]. unfold LimitClass.enforce. rewrite (same_trust_resolve c ca) by done.
  by destruct (RateLimiter.admit_at _ _ _ _) as [[u|w] l].
Qed.

Definition event_time (e : event) : Z := match e with Request now _ _ | Sweep now | Elsewhere now _ => now end.
(** Times that do not run back, from [clock] on. *)
Fixpoint timed (clock : Z) (evs : list event) : Prop :=
  match evs with [] => True | e :: evs => clock <= event_time e /\ timed (event_time e) evs end.

Lemma ordered_weaken (ops : list (@limiter_op IpAddr)) : forall a b, a <= b -> ordered b ops -> ordered a ops.
Proof. destruct ops as [|o ops]; [done|]. intros a b Hab [H1 H2]. split; [lia|done]. Qed.

Lemma timed_ordered c m evs : forall clock, timed clock evs -> ordered clock (evs ≫= event_op c m).
Proof.
  induction evs as [|e evs IH]; intros clock; [done|]. intros [Hle Ht%IH]. change ((e :: evs) ≫= event_op c m) with (event_op c m e ++ (evs ≫= event_op c m)).
  destruct e as [now peer hs|now|now seen]; cbn [event_op app event_time] in *; [by split|by split|by eapply ordered_weaken].
Qed.

(** The keys of the requests. *)
Definition keys (c : ClientAddr.t) (evs : list event) : list IpAddr :=
  evs ≫= fun e => match e with Request _ peer hs => [bucket_key (ClientAddr.resolve c peer hs)] | _ => [] end.

Lemma keys_limited c m K evs (S : gset IpAddr) : Forall (fun k => k ∈ S) (keys c evs) -> Forall (limited S K m) (evs ≫= event_op c m).
Proof.
  intros Hk. induction evs as [|e evs IH]; [constructor|].
  change (keys c (e :: evs)) with ((match e with Request _ peer hs => [bucket_key (ClientAddr.resolve c peer hs)] | _ => [] end) ++ keys c evs) in Hk.
  apply Forall_app in Hk as [He Hk]. change ((e :: evs) ≫= event_op c m) with (event_op c m e ++ (evs ≫= event_op c m)). apply Forall_app. split; [|by apply IH].
  destruct e as [now peer hs|now|now seen]; cbn [event_op]; repeat constructor. by apply Forall_cons in He as [He _].
Qed.

Lemma budget cfg name m evs K i t1 t2 :
  timed 0 evs -> Z.of_nat (size (list_to_set (keys (ClientAddr.from_config cfg) evs) : gset IpAddr)) <= MAX_TRACKED_CLIENTS ->
  let r := of_ip K (passed evs (ClientAddr.from_config cfg, LimitClass.new name m)) in
  r !! i = Some t1 -> r !! (i + Z.to_nat m)%nat = Some t2 -> t2 - t1 >= 60 * 1000000000.
Proof.
  cbv zeta. intros Ht Hs. set (c := ClientAddr.from_config cfg) in *. rewrite (passed_admitted evs c) by done. cbn [fst snd LimitClass.per_minute LimitClass.limiter LimitClass.new].
  set (ops := evs ≫= event_op c m). set (S := list_to_set (keys c evs) : gset IpAddr) in *.
  assert (Forall (limited S K m) ops) as Hlim.
  { apply keys_limited. apply Forall_forall. intros k Hk. subst S. by apply elem_of_list_to_set. }
  assert (spaced (window_expired (60 * 1000000000)) m (of_ip K (admitted ops (RateLimiter.with_config MAX_TRACKED_CLIENTS None)))) as Hsp.
  { apply (ip_run S K m ops 0 [] (RateLimiter.with_config MAX_TRACKED_CLIENTS None)); try done; [by apply timed_ordered|].
    cbn. rewrite lookup_empty. apply window_empty. }
  intros Ha Hb. exact (Hsp i t1 t2 Ha Hb).
Qed.

(** ** Refusals *)

(** A window that holds no more than the budget, and nothing later than the clock. *)
Definition stamps_ok (max clock : Z) (ts : list Z) : Prop := lenZ ts <= max /\ Forall (fun t => t <= clock) ts.

(** What holds of a class at any time. *)
Definition class_ok (clock : Z) (k : LimitClass.t) : Prop :=
  RateLimiter.poisoned (LimitClass.limiter k) = false /\ RateLimiter.global_ceiling (LimitClass.limiter k) = None /\
  RateLimiter.window (LimitClass.limiter k) = 60 * 1000000000 /\
  map_Forall (fun _ ts => stamps_ok (LimitClass.per_minute k) clock ts) (RateLimiter.ips (LimitClass.limiter k)).

Lemma prune_length w now ts : lenZ (prune_window w now ts) <= lenZ ts.
Proof. induction ts as [|t ts IH]; [done|]. cbn [prune_window]. case_if; [|done]. unfold lenZ in *. cbn [length]. lia. Qed.

Lemma prune_stamps max clock w now ts : 0 < w -> stamps_ok max clock ts -> stamps_ok max clock (prune_window w now ts).
Proof.
  intros Hw [Hl Hf]. split; [etrans; [apply prune_length|done]|]. destruct (prune_window_split w now ts Hw) as (old & E & _).
  rewrite E in Hf. by apply Forall_app in Hf as [_ Hf].
Qed.

Lemma class_later clock clock' k : clock <= clock' -> class_ok clock k -> class_ok clock' k.
Proof.
  intros Hle (Hp & Hg & Hw & Hf). split_and!; [done|done|done|]. eapply map_Forall_impl; [exact Hf|]. intros ip ts [Hl Ht].
  split; [done|]. eapply Forall_impl; [exact Ht|]. cbv beta. lia.
Qed.

Lemma stamps_bound clock k ip now : 0 <= LimitClass.per_minute k -> class_ok clock k ->
  stamps_ok (LimitClass.per_minute k) clock
    (prune_window (RateLimiter.window (LimitClass.limiter k)) now (default [] (RateLimiter.ips (LimitClass.limiter k) !! ip))).
Proof.
  intros Hm (_ & _ & Hw & Hf). apply prune_stamps; [lia|]. destruct (RateLimiter.ips (LimitClass.limiter k) !! ip) as [ts|] eqn:E; [|by split].
  exact (Hf ip ts E).
Qed.

Lemma evict_subset (m : gmap IpAddr (list Z)) : RateLimiter.evict_oldest m ⊆ m.
Proof. unfold RateLimiter.evict_oldest. destruct (min_by_time _) as [[ip t]|]; [apply delete_subseteq|done]. Qed.

Lemma enforce_ok now peer hs c k : 0 <= LimitClass.per_minute k -> class_ok now k -> class_ok now (LimitClass.enforce now peer hs c k).2.
Proof.
  intros Hm Hk. unfold LimitClass.enforce. set (ip := bucket_key _). pose proof (stamps_bound now k ip now Hm Hk) as Hb.
  destruct Hk as (Hp & Hg & Hw & Hf). unfold RateLimiter.admit_at. rewrite Hp, Hg. set (stamps := prune_window _ now _) in *.
  case_if; z_bool; cbn [snd]; (split_and!; [done|done|done|]); cbn [LimitClass.limiter LimitClass.per_minute RateLimiter.ips].
  - by apply map_Forall_insert_2.
  - assert (map_Forall (fun _ ts => stamps_ok (LimitClass.per_minute k) now ts) (<[ip:=stamps ++ [now]]> (RateLimiter.ips (LimitClass.limiter k)))) as Hi.
    { apply map_Forall_insert_2; [|done]. destruct Hb as [Hl Ht]. split; [unfold lenZ in *; rewrite length_app; cbn [length]; lia|].
      apply Forall_app. split; [done|]. by repeat constructor. }
    case_if; [|done]. intros ip' ts Hl. apply (Hi ip'). eapply lookup_weaken; [exact Hl|apply evict_subset].
Qed.

Lemma sweep_ok clock now c k : class_ok clock k -> class_ok clock (LimitClass.sweep now c k).2.
Proof.
  intros (Hp & Hg & Hw & Hf). unfold LimitClass.sweep. cbn [ClientAddr.take_unattributed snd]. unfold class_ok.
  cbn [LimitClass.limiter LimitClass.per_minute]. unfold RateLimiter.cleanup. rewrite Hp. split_and!; [done|done|done|].
  cbn [RateLimiter.ips]. intros ip ts Hl%map_lookup_filter_Some. exact (Hf ip ts (proj1 Hl)).
Qed.

Definition after (evs : list event) (s : ClientAddr.t * LimitClass.t) : ClientAddr.t * LimitClass.t := foldl (fun s e => class_step e s) s evs.
Definition last_time (clock : Z) (evs : list event) : Z := foldl (fun _ e => event_time e) clock evs.

Lemma class_always_ok evs : forall clock s, timed clock evs -> 0 <= LimitClass.per_minute s.2 -> class_ok clock s.2 ->
  class_ok (last_time clock evs) (after evs s).2 /\ LimitClass.per_minute (after evs s).2 = LimitClass.per_minute s.2.
Proof.
  induction evs as [|e evs IH]; intros clock [c k] Ht Hm Hk; [done|]. destruct Ht as [Hle Ht]. cbn [after last_time foldl].
  rewrite <-(proj2 (class_step_trust e (c, k))). apply IH; [done|by rewrite (proj2 (class_step_trust e (c, k)))|].
  apply (class_later _ _ _ Hle) in Hk. destruct e as [now peer hs|now|now seen]; cbn [class_step fst snd event_time] in *; [|by apply (sweep_ok now now c k)|done].
  pose proof (enforce_ok now peer hs c k Hm Hk). by destruct (LimitClass.enforce now peer hs c k) as [[r c'] k'].
Qed.

Lemma retry_after_range wait : 0 < wait <= 60 * 1000000000 -> 1 <= retry_after_secs wait <= 60 /\ wait <= retry_after_secs wait * 1000000000.
Proof.
  intros Hw. unfold retry_after_secs. pose proof (Z.div_mod wait 1000000000). pose proof (Z.mod_pos_bound wait 1000000000).
  assert (wait / 1000000000 <= 60) by (apply Z.div_le_upper_bound; lia). case_if; z_bool; lia.
Qed.

(** A key has room from [since] on: whatever time its window is looked at from then, there is a place. *)
Definition room (since : Z) (key : IpAddr) (k : LimitClass.t) : Prop :=
  forall t, since <= t ->
    lenZ (prune_window (60 * 1000000000) t (default [] (RateLimiter.ips (LimitClass.limiter k) !! key))) < LimitClass.per_minute k.

Lemma prune_prune w now t ts : now <= t -> prune_window w t (prune_window w now ts) = prune_window w t ts.
Proof.
  intros Hle. induction ts as [|x ts IH]; [done|]. cbn [prune_window]. destruct (saturating_sub now x >=? w) eqn:E; [|done].
  rewrite IH. z_bool. unfold saturating_sub in *. by rewrite Z.geb_leb, (proj2 (Z.leb_le _ _)) by lia.
Qed.

(** What the window of a key may become while no request under it is let through. *)
Lemma room_shrinks since key k k' : 0 < LimitClass.per_minute k -> LimitClass.per_minute k' = LimitClass.per_minute k ->
  room since key k ->
  (let ts := RateLimiter.ips (LimitClass.limiter k) !! key in let ts' := RateLimiter.ips (LimitClass.limiter k') !! key in
   ts' = ts \/ ts' = None \/ exists now, ts' = Some (prune_window (60 * 1000000000) now (default [] ts))) ->
  room since key k'.
Proof.
  cbv zeta. intros Hm Hpm Hr Hts t Ht. rewrite Hpm. destruct Hts as [->|[->|[now ->]]]; [by apply Hr|done|].
  cbn [default id]. destruct (Z.le_gt_cases now t) as [Hle|Hgt]; [rewrite prune_prune by done; by apply Hr|].
  pose proof (prune_length (60 * 1000000000) t (prune_window (60 * 1000000000) now (default [] (RateLimiter.ips (LimitClass.limiter k) !! key)))).
  specialize (Hr now ltac:(lia)). lia.
Qed.

Lemma enforce_window key now peer hs c k : class_ok now k ->
  let '(r, _, k') := LimitClass.enforce now peer hs c k in
  (bucket_key (ClientAddr.resolve c peer hs) = key -> is_ok r = false) ->
  let ts := RateLimiter.ips (LimitClass.limiter k) !! key in let ts' := RateLimiter.ips (LimitClass.limiter k') !! key in
  ts' = ts \/ ts' = None \/ exists now, ts' = Some (prune_window (60 * 1000000000) now (default [] ts)).
Proof.
  intros (Hp & Hg & Hw & _). unfold LimitClass.enforce, RateLimiter.admit_at. rewrite Hp, Hg. set (ip := bucket_key _).
  case_if; cbn [LimitClass.limiter RateLimiter.ips is_ok].
  - intros _. rewrite lookup_insert. case_decide as Heq; [|by left]. subst key. right. right. exists now. by rewrite Hw.
  - intros Hne. assert (ip <> key) as Hk by (intros Heq; by specialize (Hne Heq)).
    case_if; [|left; by rewrite lookup_insert_ne].
    match goal with |- ?m !! key = _ \/ _ => destruct (m !! key) as [ts|] eqn:Ek; [left|by right; left] end.
    eapply lookup_weaken in Ek; [|apply evict_subset]. by rewrite lookup_insert_ne in Ek.
Qed.

Lemma of_ip_app key (l l' : list (Z * IpAddr)) : of_ip key (l ++ l') = of_ip key l ++ of_ip key l'.
Proof. unfold of_ip. by rewrite filter_app, fmap_app. Qed.

(** The room is kept by everything but a request under the key that is let through. *)
Lemma room_kept since key evs : forall clock s, timed clock evs -> 0 < LimitClass.per_minute s.2 -> class_ok clock s.2 ->
  of_ip key (passed evs s) = [] -> room since key s.2 -> room since key (after evs s).2.
Proof.
  induction evs as [|e evs IH]; intros clock [c k] Ht Hm Hk Hp Hr; [done|]. destruct Ht as [Hle Ht]. cbn [passed fst snd] in Hp.
  rewrite of_ip_app in Hp. apply app_nil in Hp as [Hp0 Hp]. cbn [after foldl].
  destruct (class_always_ok [e] clock (c, k)) as [Hk' Hm']; [done|cbn in *; lia|done|]. cbn [after foldl last_time fst snd] in Hk', Hm'.
  apply (IH (event_time e)); [done|rewrite Hm'; exact Hm|exact Hk'|exact Hp|].
  apply (room_shrinks since key k); [exact Hm|exact Hm'|exact Hr|]. destruct e as [now peer hs|now|now seen]; [| |by left].
  - pose proof (enforce_window key now peer hs c k (class_later _ _ _ Hle Hk)) as Hw. cbn [class_step fst snd] in *.
    destruct (LimitClass.enforce now peer hs c k) as [[r c'] k']. cbn [fst snd] in *. apply Hw. intros Hkey.
    destruct r; [|done]. exfalso. cbn [is_ok] in Hp0. unfold of_ip in Hp0. rewrite filter_cons, decide_True in Hp0 by done. done.
  - destruct Hk as (Hpo & _). cbn [snd] in Hpo. cbn [class_step]. unfold LimitClass.sweep, RateLimiter.cleanup. cbn [ClientAddr.take_unattributed fst snd LimitClass.limiter]. rewrite Hpo.
    cbn [RateLimiter.ips]. cbv zeta. match goal with |- ?m !! key = _ \/ _ => destruct (m !! key) as [ts|] eqn:E; [left|by right; left] end.
    by apply map_lookup_filter_Some in E as [-> _].
Qed.

(** A refused key has room once its [Retry-After] is over. *)
Lemma refused_has_room now peer hs c k ra c' k' : 0 < LimitClass.per_minute k -> class_ok now k ->
  LimitClass.enforce now peer hs c k = (Err ra, c', k') ->
  1 <= ra <= 60 /\ room (now + ra * 1000000000) (bucket_key (ClientAddr.resolve c peer hs)) k'.
Proof.
  intros Hm Hk. pose proof (stamps_bound now k (bucket_key (ClientAddr.resolve c peer hs)) now ltac:(lia) Hk) as Hb.
  destruct Hk as (Hp & Hg & Hw & Hf). unfold LimitClass.enforce at 1. unfold RateLimiter.admit_at. rewrite Hp, Hg. set (ip := bucket_key _) in *.
  pose proof (prune_window_wait (RateLimiter.window (LimitClass.limiter k)) now (default [] (RateLimiter.ips (LimitClass.limiter k) !! ip)) ltac:(lia)) as Hwait.
  set (stamps := prune_window _ now _) in *. case_if; z_bool; [|done]. intros [= <- <- <-]. rewrite Hw in Hwait.
  destruct (retry_after_range _ Hwait) as [Hr Hra]. rewrite Hw. split; [done|]. intros t Hle.
  cbn [LimitClass.limiter LimitClass.per_minute RateLimiter.ips]. rewrite lookup_insert_eq.
  change (default [] (Some stamps)) with stamps. clearbody stamps. destruct Hb as [Hb Ht].
  destruct stamps as [|x ts]; [exact Hm|]. apply Forall_cons in Ht as [Ht _]. cbv beta in Ht.
  cbn [until_front_expires] in *. cbn [prune_window]. unfold saturating_sub in *.
  rewrite Z.geb_leb, (proj2 (Z.leb_le _ _)) by lia. pose proof (prune_length (60 * 1000000000) t ts). unfold lenZ in *. cbn [length] in *. lia.
Qed.

Lemma room_admits since now peer hs c k : class_ok now k -> since <= now ->
  room since (bucket_key (ClientAddr.resolve c peer hs)) k -> (LimitClass.enforce now peer hs c k).1.1 = Ok tt.
Proof.
  intros (Hp & Hg & Hw & _) Hle Hr. specialize (Hr now Hle). unfold LimitClass.enforce, RateLimiter.admit_at. rewrite Hp, Hg, Hw.
  by rewrite Z.geb_leb, (proj2 (Z.leb_gt _ _)).
Qed.

(** C26 Budgets of the dashboard: the requests of one client fall under one key, over a direct connection
    or through trusted proxies that append to [x-forwarded-for] or set [cf-connecting-ip], whatever
    visible text the client puts in those headers itself. Of the requests let through under a key, any
    [m + 1] in a row span at least a minute, as long as the requests come under no more than the
    [MAX_TRACKED_CLIENTS] (10 000) keys that are tracked. A refusal names between 1 and 60 seconds, and
    whatever requests and sweeps come in between, a client that comes back after them is let through if
    no other request under its key was. *)
Theorem client_budget cfg name m evs a :
  let c := ClientAddr.from_config cfg in
  let s := (c, LimitClass.new name m) in
  0 < m -> timed 0 evs ->
  (forall peer hs, came_from c a peer hs -> bucket_key (ClientAddr.resolve c peer hs) = bucket_key a) /\
  (Z.of_nat (size (list_to_set (keys c evs) : gset IpAddr)) <= MAX_TRACKED_CLIENTS ->
   forall i t1 t2, of_ip (bucket_key a) (passed evs s) !! i = Some t1 ->
     of_ip (bucket_key a) (passed evs s) !! (i + Z.to_nat m)%nat = Some t2 -> t2 - t1 >= 60 * 1000000000) /\
  (forall now peer hs ra c' k', last_time 0 evs <= now -> LimitClass.enforce now peer hs (after evs s).1 (after evs s).2 = (Err ra, c', k') ->
     1 <= ra <= 60 /\
     forall between now2 peer2 hs2,
       let key := bucket_key (ClientAddr.resolve (after evs s).1 peer hs) in
       let s2 := after between (c', k') in
       timed now between -> last_time now between <= now2 -> now + ra * 1000000000 <= now2 ->
       of_ip key (passed between (c', k')) = [] -> bucket_key (ClientAddr.resolve s2.1 peer2 hs2) = key ->
       (LimitClass.enforce now2 peer2 hs2 s2.1 s2.2).1.1 = Ok tt).
Proof.
  cbv zeta. intros Hm Ht. split_and!.
  - intros peer hs Hc%resolve_client. by rewrite <-bucket_key_canonical, Hc, bucket_key_canonical.
  - intros Hs i t1 t2. by apply (budget cfg name m evs).
  - intros now peer hs ra c' k' Hn He. set (s := (ClientAddr.from_config cfg, LimitClass.new name m)) in *.
    destruct (class_always_ok evs 0 s Ht) as [Hk Hmk]; [cbn; lia|by split_and!|]. change (LimitClass.per_minute (after evs s).2 = m) in Hmk.
    apply (class_later _ _ _ Hn) in Hk.
    destruct (refused_has_room now peer hs (after evs s).1 (after evs s).2 ra c' k' ltac:(lia) Hk He) as [Hr Hroom].
    split; [done|]. intros between now2 peer2 hs2 Htb Hlast Hle Hnone Hkey.
    assert (class_ok now k') as Hk' by (pose proof (enforce_ok now peer hs (after evs s).1 (after evs s).2 ltac:(lia) Hk) as Ho; by rewrite He in Ho).
    assert (LimitClass.per_minute k' = m) as Hmk'.
    { pose proof (proj2 (class_step_trust (Request now peer hs) (after evs s))) as Hx. cbn [class_step] in Hx. rewrite He in Hx. by rewrite <-Hmk. }
    destruct (class_always_ok between now (c', k') Htb ltac:(cbn; lia) Hk') as [Hk2 _].
    apply (room_admits (now + ra * 1000000000)); [exact (class_later _ _ _ Hlast Hk2)|done|]. rewrite Hkey.
    apply (room_kept _ _ between now (c', k')); [done|cbn; lia|done|done|done].
Qed.
End Budget.

(** A proxy on the loopback, a client that writes an address of its own, and two requests. *)
Module DashboardLimitSample.
#[local] Instance order : IpOrder IpAddr := {| ips_iter A m := map_to_list m; ips_iter_perm A m := reflexivity _ |}.

Definition proxy : IpAddr := V4 [127; 0; 0; 1].
Definition client : IpAddr := V4 [10; 0; 0; 9].
Definition cfg : RateLimitConfig.t := RateLimitConfig.mk 600 [V6 [0; 0; 0; 0; 0; 65535; 32512; 1]] (Some XForwardedFor).
Definition spoofing (spoof : string) : HeaderMap := [("host"%string, lit "x"); ("x-forwarded-for"%string, lit spoof ++ lit ", " ++ to_string client)].
Definition evs : list event :=
  [Request 5 proxy (spoofing "1.2.3.4"); Request 6 proxy (spoofing "5.6.7.8, ::1"); Sweep 7; Elsewhere 8 None;
   Request 60000000005 proxy (spoofing "not an address")].

Lemma spoofed_request_from spoof : header_to_str (lit spoof) = Some (lit spoof) -> came_from (ClientAddr.from_config cfg) client proxy (spoofing spoof).
Proof.
  intros Hv%header_to_str_visible. apply (came_through_proxies _ _ _ _ [lit spoof] []); [reflexivity|by vm_compute|by constructor| |by vm_compute|constructor].
  apply (chain_hop _ [] [lit spoof] client); [constructor|split; [done|by repeat constructor]|]. exact (appends_entry (to_string client) [] (lit spoof)).
Qed.

Definition budget_passed : list Z := of_ip client (passed evs (ClientAddr.from_config cfg, LimitClass.new "api" 1)).

Lemma client_budget_witness :
  budget_passed = [5; 60000000005] /\
  bucket_key (ClientAddr.resolve (ClientAddr.from_config cfg) proxy (spoofing "1.2.3.4")) = client /\
  60000000005 - 5 >= 60 * 1000000000.
Proof.
  assert (budget_passed = [5; 60000000005]) as Hp by (vm_compute; reflexivity). split; [exact Hp|].
  destruct (client_budget cfg "api" 1 evs client) as (Hc & Hb & _); [done|by cbn; lia|]. specialize (Hb ltac:(by vm_compute)). split.
  - apply Hc. apply spoofed_request_from. vm_compute; reflexivity.
  - apply (Hb 0%nat); change (bucket_key client) with client; change (of_ip client _) with budget_passed; rewrite Hp; done.
Defined.

(** The same client with a byte that is no visible ASCII is counted against the proxy. *)
Lemma opaque_byte_changes_bucket :
  ClientAddr.resolve (ClientAddr.from_config cfg) proxy [("x-forwarded-for"%string, [xff] ++ lit ", " ++ to_string client)] = proxy.
Proof. by vm_compute. Qed.
End DashboardLimitSample.
