(* ===== verification/Dashboard.v ===== *)
(** * The dashboard

    Models [services/rg-dashboard/src]: the configuration ([config.rs]), the proxies and the aggregated
    health ([proxy.rs]), the router with its two limited classes, the settings, the embedded pages and
    the start ([main.rs]).

    axum's matching of paths is not modelled: a request comes with the route it matched. The HTTP client
    and the embedded files are arguments. *)

From S2P Require Import Prelude Crates Reason Policy VerdictLog Limits License Auth Middleware PolicyFile GatewayConf GatewayAdmin NetAddr IpText DashboardLimit.

(** ** Configuration *)

Module HealthProbe.
Record t : Type := mk { name : string; url : string }.
End HealthProbe.

Module DashboardConfig.
Record t : Type := mk {
  listen : string; verifier_url : string; template_url : string; auth_url : string;
  gateway_url : option string; feed_adapter_url : option string; health_probes : list HealthProbe.t;
  rate_limit : RateLimitConfig.t }.
End DashboardConfig.

Definition default_listen : string := "127.0.0.1:8084".
Definition default_api_per_minute : Z := 600.
Definition rate_limit_default : RateLimitConfig.t := RateLimitConfig.mk default_api_per_minute [] None.

Inductive ConfigError : Type := ConfigIo | ConfigParse | ConfigMissing (field : string) | ConfigInvalid (why : string).

Definition config_error_text (e : ConfigError) : string :=
  match e with
  | ConfigIo => "cannot read config file"
  | ConfigParse => "invalid config file"
  | ConfigMissing field => "missing required config field: " +:+ field
  | ConfigInvalid why => "invalid config: " +:+ why
  end%string.

(** The elements of an array, and structs from arrays. *)
Class DashboardDocs : Type := {
  array_of_else : string -> option (list toml);
  probe_of_else : string -> option HealthProbe.t;
  rate_limit_of_else : string -> option RateLimitConfig.t
}.

Section Config.
Context `{TomlDocs, GatewayDocs, DashboardDocs}.

Definition as_array {A} (read : toml -> option A) (v : toml) : option (list A) :=
  l ← as_else array_of_else v; mapM read l.
Definition as_ip (v : toml) : option IpAddr := s ← as_str v; parse_addr (lit s).
Definition as_client_ip_header : toml -> option ClientIpHeader :=
  as_variant [("cf-connecting-ip", CfConnectingIp); ("x-forwarded-for", XForwardedFor)]%string.

Definition RATE_LIMIT_FIELDS : list string := ["api_per_minute"; "trusted_proxies"; "client_ip_header"]%string.
Definition rate_limit_of_table (t : gmap string toml) : option RateLimitConfig.t :=
  if negb (known_only RATE_LIMIT_FIELDS t) then None
  else
    api_per_minute ← field t "api_per_minute" default_api_per_minute (as_uint 32);
    trusted_proxies ← field t "trusted_proxies" [] (as_array as_ip);
    client_ip_header ← field t "client_ip_header" None (as_some as_client_ip_header);
    Some (RateLimitConfig.mk api_per_minute trusted_proxies client_ip_header).

Definition probe_of_table (t : gmap string toml) : option HealthProbe.t :=
  name ← need t "name" as_str; url ← need t "url" as_str; Some (HealthProbe.mk name url).

Definition dashboard_of_doc (t : gmap string toml) : option DashboardConfig.t :=
  listen ← field t "listen" default_listen as_str;
  verifier_url ← need t "verifier_url" as_str;
  template_url ← need t "template_url" as_str;
  auth_url ← need t "auth_url" as_str;
  gateway_url ← field t "gateway_url" None (as_some as_str);
  feed_adapter_url ← field t "feed_adapter_url" None (as_some as_str);
  health_probes ← field t "health_probes" [] (as_array (as_struct probe_of_table probe_of_else));
  rate_limit ← field t "rate_limit" rate_limit_default (as_struct rate_limit_of_table rate_limit_of_else);
  Some (DashboardConfig.mk listen verifier_url template_url auth_url gateway_url feed_adapter_url health_probes rate_limit).

Definition is_empty (s : string) : bool := String.eqb s "".

Definition dashboard_validate (c : DashboardConfig.t) : result unit ConfigError :=
  let rl := DashboardConfig.rate_limit c in
  if is_empty (DashboardConfig.verifier_url c) then Err (ConfigMissing "verifier_url")
  else if is_empty (DashboardConfig.template_url c) then Err (ConfigMissing "template_url")
  else if is_empty (DashboardConfig.auth_url c) then Err (ConfigMissing "auth_url")
  else if RateLimitConfig.api_per_minute rl =? 0 then Err (ConfigInvalid "rate_limit.api_per_minute must be at least 1")
  else
    match RateLimitConfig.trusted_proxies rl, RateLimitConfig.client_ip_header rl with
    | _ :: _, None => Err (ConfigInvalid "rate_limit.trusted_proxies is set but rate_limit.client_ip_header is not")
    | [], Some _ => Err (ConfigInvalid "rate_limit.client_ip_header is set but rate_limit.trusted_proxies is empty, so it would never be read")
    | _, _ => Ok tt
    end.

(** [DashboardConfig::load] on what [read_to_string] gives. *)
Definition dashboard_load (file : option string) : result DashboardConfig.t ConfigError :=
  let? contents := ok_or file ConfigIo in
  let? doc := map_err (fun _ => ConfigParse) (from_str contents) in
  let? cfg := ok_or (dashboard_of_doc doc) ConfigParse in
  let? _ := dashboard_validate cfg in
  Ok cfg.
End Config.

(** ** Requests and answers *)

Inductive Route : Type :=
| RVerifier (path : string) | RTemplates (path : string) | RAuth (path : string) | RKeys (path : string) | RGateway (path : string)
| RSettings | RHealth | RHealthz | RSpa (path : string).

Module DashRequest.
Record t : Type := mk {
  route : Route; method : string; query : option string; headers : HeaderMap; body : option bytes; peer : IpAddr }.
End DashRequest.

(** A request to a backend, and what came back; [None] for the body is a failed read. *)
Module OutRequest.
Record t : Type := mk { method : string; url : string; headers : HeaderMap; body : option bytes; timeout_secs : Z }.
End OutRequest.
Module OutResponse.
Record t : Type := mk { status : Z; content_type : option bytes; body : option bytes }.
End OutResponse.

Inductive DashBody : Type :=
| Raw (b : bytes) | TooMany (reason : ReasonCode.t) (detail : string) | Settings (fields : list (string * json))
| HealthReport (services : list (string * string)) (deploy_mode : string).

Module DashResponse.
Record t : Type := mk { status : Z; headers : HeaderMap; body : DashBody }.
End DashResponse.

Definition text_response (status : Z) (text : string) : DashResponse.t :=
  DashResponse.mk status [("content-type"%string, lit "text/plain; charset=utf-8")] (Raw (lit text)).

Section Proxying.
(** [reqwest]: what a request gets. *)
Variable send : OutRequest.t -> option OutResponse.t.

Definition PROXY_BODY_LIMIT : Z := 1024 * 1024.
Definition CLIENT_TIMEOUT : Z := 30.

(** The headers a proxied request carries. *)
Definition forward_headers (hs : HeaderMap) (forwarded_ip : option IpAddr) : HeaderMap :=
  omap (fun key => (fun val => (key, val)) <$> get_header key hs) ["content-type"; "authorization"; "accept"]%string
  ++ match forwarded_ip with Some ip => [("x-forwarded-for"%string, to_string ip)] | None => [] end.

Definition upstream_url (base_url path : string) (query : option string) : string :=
  match query with Some q => base_url +:+ "/" +:+ path +:+ "?" +:+ q | None => base_url +:+ "/" +:+ path end%string.

(** [proxy_to], with the requests it sent. *)
Definition proxy_to (base_url path : string) (rq : DashRequest.t) (forwarded_ip : option IpAddr) : DashResponse.t * list OutRequest.t :=
  match DashRequest.body rq with
  | None => (text_response 400 "request body too large", [])
  | Some body_bytes =>
      if lenZ body_bytes >? PROXY_BODY_LIMIT then (text_response 400 "request body too large", [])
      else
        let out := OutRequest.mk (DashRequest.method rq) (upstream_url base_url path (DashRequest.query rq))
                     (forward_headers (DashRequest.headers rq) forwarded_ip)
                     (match body_bytes with [] => None | _ => Some body_bytes end) CLIENT_TIMEOUT in
        (match send out with
         | None => text_response 502 "upstream unavailable"
         | Some resp =>
             let status := if (100 <=? OutResponse.status resp) && (OutResponse.status resp <=? 999) then OutResponse.status resp else 502 in
             match OutResponse.body resp with
             | None => text_response 502 "upstream read error"
             | Some b =>
                 DashResponse.mk status
                   [("content-type"%string, unwrap_or (OutResponse.content_type resp) (lit "application/octet-stream"))] (Raw b)
             end
         end, [out])
  end.

(** *** Health *)

Definition HEALTH_TIMEOUT : Z := 5.

(** [probe_health]: the status shown, without the latency. *)
Definition probe_health (name url : string) : (string * string) * OutRequest.t :=
  let out := OutRequest.mk "GET" url [] None HEALTH_TIMEOUT in
  ((name, match send out with
          | Some resp => if (200 <=? OutResponse.status resp) && (OutResponse.status resp <? 300) then "ok"%string else "degraded"%string
          | None => "down"%string
          end), out).

Definition health_checks (c : DashboardConfig.t) : list (string * string) :=
  [("pool-verifier", DashboardConfig.verifier_url c +:+ "/health");
   ("template-manager", DashboardConfig.template_url c +:+ "/health");
   ("rg-auth", DashboardConfig.auth_url c +:+ "/auth/health")]%string
  ++ match DashboardConfig.feed_adapter_url c with Some url => [("rg-feed-adapter", url +:+ "/health")%string] | None => [] end
  ++ match DashboardConfig.gateway_url c with Some url => [("sv2-gateway", url +:+ "/healthz")%string] | None => [] end
  ++ ((fun p => (HealthProbe.name p, HealthProbe.url p +:+ "/healthz")%string) <$> DashboardConfig.health_probes c).

Definition health_aggregate (env : gmap string string) (c : DashboardConfig.t) : DashResponse.t * list OutRequest.t :=
  let results := (fun check => probe_health check.1 check.2) <$> health_checks c in
  (DashResponse.mk 200 [("content-type"%string, lit "application/json")]
     (HealthReport results.*1 (unwrap_or (env !! "VELDRA_MODE"%string) "shadow"%string)), results.*2).
End Proxying.

(** ** Pages *)

Definition dashboard_get_settings (env : gmap string string) (c : DashboardConfig.t) : DashResponse.t :=
  DashResponse.mk 200 [("content-type"%string, lit "application/json")] (Settings
    [("log_level"%string, JStr (unwrap_or (env !! "VELDRA_LOG_FILTER"%string) "info"%string));
     ("log_format"%string, JStr (unwrap_or (env !! "VELDRA_LOG_FORMAT"%string) "pretty"%string));
     ("deploy_mode"%string, JStr (unwrap_or (env !! "VELDRA_MODE"%string) "shadow"%string));
     ("listen"%string, JStr (DashboardConfig.listen c));
     ("gateway_configured"%string, JBool (bool_decide (is_Some (DashboardConfig.gateway_url c))))]).

Definition healthz : DashResponse.t := text_response 200 "ok".

(** [trim_start_matches('/')]. *)
Definition slash : Ascii.ascii := Ascii.ascii_of_byte x2f.
Fixpoint trim_slashes (s : string) : string :=
  match s with
  | String.String c s' => if bool_decide (c = slash) then trim_slashes s' else s
  | String.EmptyString => s
  end.

(** [serve_spa] with the embedded files, and the content type guessed of a path. *)
Definition serve_spa (assets : string -> option bytes) (mime : string -> bytes) (path : string) : DashResponse.t :=
  let path := trim_slashes path in
  match (if is_empty path then None else assets path) with
  | Some file => DashResponse.mk 200 [("content-type"%string, mime path)] (Raw file)
  | None =>
      match assets "index.html" with
      | Some file => DashResponse.mk 200 [("content-type"%string, lit "text/html")] (Raw file)
      | None => text_response 404 "dashboard assets not found"
      end
  end.

Definition too_many_requests (retry_after_secs : Z) : DashResponse.t :=
  DashResponse.mk 429 [("content-type"%string, lit "application/json"); ("retry-after"%string, dec retry_after_secs)]
    (TooMany ReasonCode.RateLimited "rate limit exceeded").

(** ** The router *)

Module Dash.
Record t : Type := mk { config : DashboardConfig.t; client_addr : ClientAddr.t; api : LimitClass.t; fanout : LimitClass.t }.
End Dash.

Section Serving.
Context `{!IpOrder IpAddr}.
Variable send : OutRequest.t -> option OutResponse.t.
Variable assets : string -> option bytes.
Variable mime : string -> bytes.
Variable env : gmap string string.

(** The handler of a route. *)
Definition handle (rq : DashRequest.t) (s : Dash.t) : DashResponse.t * list OutRequest.t :=
  let c := Dash.config s in
  let client := ClientAddr.resolve (Dash.client_addr s) (DashRequest.peer rq) (DashRequest.headers rq) in
  match DashRequest.route rq with
  | RVerifier path => proxy_to send (DashboardConfig.verifier_url c) path rq None
  | RTemplates path => proxy_to send (DashboardConfig.template_url c) path rq None
  | RAuth path => proxy_to send (DashboardConfig.auth_url c) ("auth/" +:+ path) rq (Some client)
  | RKeys path => proxy_to send (DashboardConfig.auth_url c) ("keys/" +:+ path) rq (Some client)
  | RGateway path =>
      match DashboardConfig.gateway_url c with
      | Some url => proxy_to send url path rq None
      | None => (text_response 503 "gateway_url not configured", [])
      end
  | RSettings => (dashboard_get_settings env c, [])
  | RHealth => health_aggregate send env c
  | RHealthz => (healthz, [])
  | RSpa path => (serve_spa assets mime path, [])
  end.

(** [router]: the class of a route, if it is limited. *)
Inductive Limit : Type := ApiLimit | FanoutLimit | Unlimited.
Definition limit_of (r : Route) : Limit :=
  match r with
  | RHealth => FanoutLimit
  | RHealthz | RSpa _ => Unlimited
  | _ => ApiLimit
  end.

Definition serve (now : Z) (rq : DashRequest.t) (s : Dash.t) : DashResponse.t * list OutRequest.t * Dash.t :=
  let limited (k : LimitClass.t) (put : LimitClass.t -> ClientAddr.t -> Dash.t) :=
    let '(r, c, k) := LimitClass.enforce now (DashRequest.peer rq) (DashRequest.headers rq) (Dash.client_addr s) k in
    let s := put k c in
    match r with
    | Ok _ => (handle rq s, s)
    | Err retry_after_secs => ((too_many_requests retry_after_secs, []), s)
    end in
  match limit_of (DashRequest.route rq) with
  | ApiLimit => limited (Dash.api s) (fun k c => Dash.mk (Dash.config s) c k (Dash.fanout s))
  | FanoutLimit => limited (Dash.fanout s) (fun k c => Dash.mk (Dash.config s) c (Dash.api s) k)
  | Unlimited => (handle rq s, s)
  end.

(** A tick of a sweeper. *)
Definition sweep_api (now : Z) (s : Dash.t) : Dash.t :=
  let '(_, _, c, k) := LimitClass.sweep now (Dash.client_addr s) (Dash.api s) in Dash.mk (Dash.config s) c k (Dash.fanout s).
Definition sweep_fanout (now : Z) (s : Dash.t) : Dash.t :=
  let '(_, _, c, k) := LimitClass.sweep now (Dash.client_addr s) (Dash.fanout s) in Dash.mk (Dash.config s) c (Dash.api s) k.

(** ** Starting *)

Inductive DashRefusal : Type := LoadFailed (e : ConfigError) | NoClient | BadListen | BindFailed | NonLoopback.

(** What was done to the listener, and the refusal or the state that serves. *)
Definition dashboard_main `{TomlDocs, GatewayDocs, DashboardDocs} (file : option string) (http_client : bool) (bind : IpAddr -> bool)
    : option IpAddr * result Dash.t DashRefusal :=
  match dashboard_load file with
  | Err e => (None, Err (LoadFailed e))
  | Ok cfg =>
      if negb http_client then (None, Err NoClient)
      else
        let rl := DashboardConfig.rate_limit cfg in
        let state := Dash.mk cfg (ClientAddr.from_config rl) (LimitClass.new "api" (RateLimitConfig.api_per_minute rl))
                       (LimitClass.new "fanout" FANOUT_PER_MINUTE) in
        match parse_with read_socket_addr (lit (DashboardConfig.listen cfg)) with
        | None => (None, Err BadListen)
        | Some addr =>
            if negb (bind addr) then (None, Err BindFailed)
            else if negb (is_loopback addr) && negb (bool_decide (env !! "VELDRA_ALLOW_NON_LOOPBACK"%string = Some "1"%string))
            then (Some addr, Err NonLoopback)
            else (Some addr, Ok state)
        end
  end.
End Serving.

(** * Properties *)

(** ** Configuration *)

(** A configuration that loads can admit requests, and names a header exactly when it trusts a proxy. *)
Lemma dashboard_load_sound `{TomlDocs, GatewayDocs, DashboardDocs} file cfg : dashboard_load file = Ok cfg ->
  let rl := DashboardConfig.rate_limit cfg in
  DashboardConfig.verifier_url cfg <> ""%string /\ DashboardConfig.template_url cfg <> ""%string /\ DashboardConfig.auth_url cfg <> ""%string /\
  RateLimitConfig.api_per_minute rl <> 0 /\
  (RateLimitConfig.trusted_proxies rl = [] <-> RateLimitConfig.client_ip_header rl = None).
Proof.
  cbv zeta. unfold dashboard_load. destruct file as [text|]; [|done]. cbn [ok_or result_bind]. destruct (from_str text) as [doc|]; [|done].
  cbn [map_err result_bind]. destruct (dashboard_of_doc doc) as [c|]; [|done]. cbn [ok_or result_bind].
  destruct (dashboard_validate c) as [u|e] eqn:Hv; [|done]. cbn [result_bind]. intros [= <-]. revert Hv.
  unfold dashboard_validate, is_empty. cbv zeta. repeat (case_if; [done|]). rewrite ->!String.eqb_neq in *. z_bool. intros Hm.
  split_and!; [done|done|done|done|].
  destruct (RateLimitConfig.trusted_proxies _), (RateLimitConfig.client_ip_header _); split; congruence.
Qed.

Section Facts.
Context `{!IpOrder IpAddr}.

(** A dashboard that serves loaded its configuration, and listens on the loopback unless it was told
    otherwise. One that is refused for its address has bound the listener all the same. *)
Lemma dashboard_start_sound `{TomlDocs, GatewayDocs, DashboardDocs} env file client bind bound r :
  dashboard_main env file client bind = (bound, r) ->
  (forall s, r = Ok s ->
     exists addr, bound = Some addr /\ dashboard_load file = Ok (Dash.config s) /\
       parse_with read_socket_addr (lit (DashboardConfig.listen (Dash.config s))) = Some addr /\
       (is_loopback addr = true \/ env !! "VELDRA_ALLOW_NON_LOOPBACK"%string = Some "1"%string) /\
       Dash.client_addr s = ClientAddr.from_config (DashboardConfig.rate_limit (Dash.config s)) /\
       0 <> LimitClass.per_minute (Dash.api s) /\ LimitClass.per_minute (Dash.fanout s) = FANOUT_PER_MINUTE) /\
  (r = Err NonLoopback -> is_Some bound).
Proof.
  unfold dashboard_main. destruct (dashboard_load file) as [cfg|e] eqn:El; [|by intros [= <- <-]].
  pose proof (dashboard_load_sound file cfg El) as (_ & _ & _ & Hm & _).
  case_if; [by intros [= <- <-]|]. destruct (parse_with _ _) as [addr|] eqn:Ea; [|by intros [= <- <-]].
  case_if; [by intros [= <- <-]|]. case_if; intros [= <- <-]; (split; [|by eauto]); [done|]. intros s [= <-]. exists addr. split_and!; try done.
  apply andb_false_iff in E1 as [E1|E1]; z_bool; [by left|right]. by apply bool_decide_eq_true in E1.
Qed.

(** ** What the backends see *)

Lemma walk_ok c l ip : ClientAddr.walk c l = Some ip -> ip_ok ip.
Proof.
  induction l as [|e l IH]; [done|]. cbn [ClientAddr.walk]. destruct (parse_addr (trim_str e)) as [a|] eqn:E; [|done]. cbn.
  case_if; [done|]. intros [= <-]. by apply to_canonical_ok, (parse_addr_ok (trim_str e)).
Qed.

Lemma resolve_ok c peer hs : ip_ok peer -> ip_ok (ClientAddr.resolve c peer hs).
Proof.
  intros Hp. unfold ClientAddr.resolve. destruct (ClientAddr.header c) as [h|]; [|done]. case_if; [done|]. destruct h.
  - destruct (get_header _ hs) as [v|]; [|done]. cbn [mbind option_bind]. destruct (header_to_str v) as [s|]; [|done]. cbn [mbind option_bind].
    destruct (parse_addr (trim_str s)) as [a|] eqn:Ep; [|done]. by apply to_canonical_ok, (parse_addr_ok (trim_str s)).
  - destruct (ClientAddr.rightmost_untrusted c hs) as [a|] eqn:Ew; [|done]. apply to_canonical_ok. unfold ClientAddr.rightmost_untrusted in Ew.
    destruct (ClientAddr.xff_entries _); [|done]. by apply walk_ok in Ew.
Qed.

Definition FORWARDED : list string := ["content-type"; "authorization"; "accept"; "x-forwarded-for"]%string.

Lemma get_all_other name (l : HeaderMap) : Forall (fun h => h.1 <> name) l -> get_all name l = [].
Proof. intros Hl. unfold get_all. induction Hl as [|h l Hh Hl IH]; [done|]. by rewrite filter_cons_False. Qed.

Lemma selected_headers keys hs : Forall (fun h : string * bytes => h.1 ∈ keys) (omap (fun key => (fun val => (key, val)) <$> get_header key hs) keys).
Proof.
  apply Forall_forall. intros [n v] Hin. apply list_elem_of_omap in Hin as (key & Hk & E). destruct (get_header key hs); [|done].
  by injection E as <- <-.
Qed.

Lemma get_header_app name (a b : HeaderMap) : Forall (fun h => h.1 <> name) a -> get_header name (a ++ b) = get_header name b.
Proof. intros Ha. induction Ha as [|[n v] a Hn Ha IH]; [done|]. cbn [app get_header]. by rewrite bool_decide_false. Qed.

Lemma forward_headers_spec hs ip :
  Forall (fun h => h.1 ∈ FORWARDED) (forward_headers hs ip) /\
  get_all "x-forwarded-for" (forward_headers hs ip) = match ip with Some ip => [to_string ip] | None => [] end /\
  get_header "x-forwarded-for" (forward_headers hs ip) = (to_string <$> ip).
Proof.
  unfold forward_headers. pose proof (selected_headers ["content-type"; "authorization"; "accept"]%string hs) as Hs. set (l := omap _ _) in *.
  assert (Forall (fun h => h.1 <> "x-forwarded-for"%string) l) as Hn.
  { eapply Forall_impl; [exact Hs|]. intros h Hh. cbv beta in Hh. rewrite !elem_of_cons, elem_of_nil in Hh. intros E. rewrite E in Hh. by destruct Hh as [|[|[|]]]. }
  split_and!.
  - apply Forall_app. split; [|destruct ip; [|constructor]; constructor; [apply (bool_decide_eq_true_1 _); by vm_compute|constructor]].
    eapply Forall_impl; [exact Hs|]. intros h Hh. cbv beta in Hh. unfold FORWARDED. rewrite !elem_of_cons, elem_of_nil in *. tauto.
  - unfold get_all. rewrite filter_app, fmap_app. fold (get_all "x-forwarded-for" l). rewrite get_all_other by done. by destruct ip.
  - rewrite get_header_app by done. by destruct ip.
Qed.

Lemma proxy_to_out send base path rq ip out : out ∈ (proxy_to send base path rq ip).2 ->
  OutRequest.headers out = forward_headers (DashRequest.headers rq) ip /\ OutRequest.method out = DashRequest.method rq.
Proof.
  unfold proxy_to. destruct (DashRequest.body rq) as [b|]; [|by intros ?%elem_of_nil]. case_if; [by intros ?%elem_of_nil|].
  cbn [snd]. by intros ->%list_elem_of_singleton.
Qed.

(** rg-auth reads addresses with the same parser. *)
#[export] Instance auth_ip_text : IpText IpAddr := {| parse_ip := parse_addr |}.

(** rg-auth finds in a forwarded address the address that was forwarded. *)
Lemma auth_reads_forwarded `{Ed25519Crate} (cfg : AuthConfig.t SigningKey) now instant dash ip authorization :
  AuthConfig.trust_proxy cfg = true -> ip_ok ip ->
  client_ip cfg (Meta.mk now instant dash (Some (to_string ip)) authorization) = ip.
Proof.
  intros Ht Hip. unfold client_ip. rewrite Ht. cbn [Meta.forwarded_for Meta.addr mbind option_bind].
  pose proof (to_string_chars ip Hip) as Hc. rewrite (proj2 (header_to_str_visible _) (address_visible _ Hc)). cbn [mbind option_bind].
  unfold split_str. rewrite split_from_one by by apply address_no_comma. cbn [reverse rev_append app head mbind option_bind].
  unfold parse_ip, auth_ip_text. by rewrite (proj1 (parse_entry ip Hip)).
Qed.

Definition to_auth (r : Route) : bool := match r with RAuth _ | RKeys _ => true | _ => false end.

Lemma handle_out send assets mime env rq s out : out ∈ (handle send assets mime env rq s).2 ->
  OutRequest.headers out =
    if to_auth (DashRequest.route rq)
    then forward_headers (DashRequest.headers rq) (Some (ClientAddr.resolve (Dash.client_addr s) (DashRequest.peer rq) (DashRequest.headers rq)))
    else match DashRequest.route rq with RHealth => [] | _ => forward_headers (DashRequest.headers rq) None end.
Proof.
  unfold handle. destruct (DashRequest.route rq) as [p|p|p|p|p| | | |p]; cbn [to_auth]; try by intros [? _]%proxy_to_out.
  - destruct (DashboardConfig.gateway_url _); [by intros [? _]%proxy_to_out|by intros ?%elem_of_nil].
  - by intros ?%elem_of_nil.
  - unfold health_aggregate. cbn [snd]. rewrite <-list_fmap_compose. by intros ([name url] & -> & _)%list_elem_of_fmap.
  - by intros ?%elem_of_nil.
  - by intros ?%elem_of_nil.
Qed.

Lemma serve_out send assets mime env now rq s out : out ∈ (serve send assets mime env now rq s).1.2 ->
  exists s', out ∈ (handle send assets mime env rq s').2 /\ same_trust (Dash.client_addr s) (Dash.client_addr s').
Proof.
  unfold serve. assert (forall k, let '(r, c, k') := LimitClass.enforce now (DashRequest.peer rq) (DashRequest.headers rq) (Dash.client_addr s) k in
    same_trust (Dash.client_addr s) c) as He.
  { intros k. pose proof (class_step_trust (Request now (DashRequest.peer rq) (DashRequest.headers rq)) (Dash.client_addr s, k)) as [Ht _].
    cbn [class_step fst snd] in Ht. by destruct (LimitClass.enforce _ _ _ _ _) as [[r c] k']. }
  destruct (limit_of _); cbv zeta beta.
  - specialize (He (Dash.api s)). destruct (LimitClass.enforce _ _ _ _ _) as [[[u|ra] c] k]; cbn [fst snd]; [|by intros ?%elem_of_nil]. intros Hin. by eexists.
  - specialize (He (Dash.fanout s)). destruct (LimitClass.enforce _ _ _ _ _) as [[[u|ra] c] k]; cbn [fst snd]; [|by intros ?%elem_of_nil]. intros Hin. by eexists.
  - cbn [fst]. intros Hin. by exists s.
Qed.

(** C14 What the backends see of a client: a request that the dashboard passes on carries no header of the
    client but its content type, authorization and accepted types. To the other backends it carries no
    [x-forwarded-for]; to rg-auth exactly one, and an rg-auth that is told to trust its proxy counts the
    request against the address the dashboard resolved. For a client that came directly or through
    trusted proxies that address is its own, whatever visible text it wrote in the header itself (text
    that is not visible ASCII hides it behind the proxy, [opaque_line_hides_client]). *)
Theorem auth_sees_the_client send assets mime env now rq s out `{Ed25519Crate} (cfg : AuthConfig.t SigningKey) a :
  ip_ok (DashRequest.peer rq) -> out ∈ (serve send assets mime env now rq s).1.2 ->
  let c := Dash.client_addr s in
  let client := ClientAddr.resolve c (DashRequest.peer rq) (DashRequest.headers rq) in
  Forall (fun h => h.1 ∈ FORWARDED) (OutRequest.headers out) /\
  get_all "x-forwarded-for" (OutRequest.headers out) = (if to_auth (DashRequest.route rq) then [to_string client] else []) /\
  (to_auth (DashRequest.route rq) = true -> AuthConfig.trust_proxy cfg = true ->
   forall instant dash authorization,
     let meta := Meta.mk now instant dash (get_header "x-forwarded-for" (OutRequest.headers out)) authorization in
     client_ip cfg meta = client /\
     (came_from c a (DashRequest.peer rq) (DashRequest.headers rq) -> to_canonical (client_ip cfg meta) = to_canonical a)).
Proof.
  cbv zeta. intros Hp (s' & Hin & Hs)%serve_out. apply handle_out in Hin. rewrite (same_trust_resolve _ _ _ _ Hs) in Hin.
  set (client := ClientAddr.resolve _ _ _) in *. destruct (to_auth (DashRequest.route rq)) eqn:Ea.
  - rewrite Hin. destruct (forward_headers_spec (DashRequest.headers rq) (Some client)) as (Hf & Hall & Hget). split_and!; [done|done|].
    intros _ Ht instant dash authorization. rewrite Hget. cbn [fmap option_fmap option_map].
    rewrite auth_reads_forwarded by (done || by apply resolve_ok). split; [done|]. apply resolve_client.
  - split_and!; [| |done]; rewrite Hin; destruct (forward_headers_spec (DashRequest.headers rq) None) as (Hf & Hall & Hget);
      destruct (DashRequest.route rq); try done; constructor.
Qed.
End Facts.

(** A login through the proxy, from a client that writes an address of its own. *)
Module DashboardSample.
Import DashboardLimitSample.
#[local] Existing Instance DashboardLimitSample.order.
#[local] Existing Instance LicenseSample.ed25519.

Definition config : DashboardConfig.t :=
  DashboardConfig.mk default_listen "http://v" "http://t" "http://a" None None [] cfg.
Definition started : Dash.t :=
  Dash.mk config (ClientAddr.from_config cfg) (LimitClass.new "api" 600) (LimitClass.new "fanout" FANOUT_PER_MINUTE).
Definition login : DashRequest.t :=
  DashRequest.mk (RAuth "login") "POST" None (("cookie"%string, lit "c") :: ("accept"%string, lit "*") :: spoofing "1.2.3.4") (Some (lit "x")) proxy.
Definition send (out : OutRequest.t) : option OutResponse.t := Some (OutResponse.mk 200 None (Some (lit "ok"))).
Definition sent : OutRequest.t :=
  OutRequest.mk "POST" "http://a/auth/login" [("accept"%string, lit "*"); ("x-forwarded-for"%string, lit "10.0.0.9")] (Some (lit "x")) 30.
Definition auth_config : AuthConfig.t SigningKey :=
  AuthConfig.mk "admin@x.org" "http://site" "http://auth" 168 100 true false LicenseSample.seed.

Lemma auth_sees_the_client_witness :
  (serve send (fun _ => None) (fun _ => []) ∅ 5 login started).1.2 = [sent] /\
  client_ip auth_config (Meta.mk 5 0 (V4 [127; 0; 0; 1]) (get_header "x-forwarded-for" (OutRequest.headers sent)) None) = client.
Proof.
  assert ((serve send (fun _ => None) (fun _ => []) ∅ 5 login started).1.2 = [sent]) as Hs by (vm_compute; reflexivity).
  split; [exact Hs|].
  destruct (auth_sees_the_client send (fun _ => None) (fun _ => []) ∅ 5 login started sent auth_config client) as (_ & _ & Hc).
  - split; [done|by repeat constructor].
  - rewrite Hs. by left.
  - destruct (Hc eq_refl eq_refl 0 (V4 [127; 0; 0; 1]) None) as [E _]. rewrite E. by vm_compute.
Defined.

(** A start on every interface without the override is refused, with the listener bound. *)
Lemma refused_after_bind `{TomlDocs, GatewayDocs, DashboardDocs} text doc :
  from_str text = Ok doc ->
  dashboard_of_doc doc = Some (DashboardConfig.mk "0.0.0.0:8084" "http://v" "http://t" "http://a" None None [] rate_limit_default) ->
  dashboard_main ∅ (Some text) true (fun _ => true) = (Some (V4 [0; 0; 0; 0]), Err NonLoopback).
Proof.
  intros Ht Hd. unfold dashboard_main, dashboard_load. cbn [ok_or result_bind]. rewrite Ht. cbn [map_err result_bind]. rewrite Hd. by vm_compute.
Qed.
End DashboardSample.
