(* ===== verification/ManagerConfig.v ===== *)
(** * Configuration, settings and start of the template manager

    Models [services/template-manager/src/config.rs] and, of [main.rs], the settings endpoints, the
    RPC client's parameters and the start.

    A save goes through four phases with the file system between them: it patches the document it read,
    writes the text to [.toml.validate], loads that file back, and replaces the configuration. The name of
    the temporary file is shared by all saves, so the phases are separate steps here. *)

From S2P Require Import Prelude Crates Protocol Codec Policy VerifierStream License Limits Middleware PolicyFile ConfigIo Manager GatewayConf GatewayAdmin.

(** ** The configuration *)

Module BitcoindNested.
Record t : Type := mk { rpc_url : string; rpc_user : string; rpc_pass : string }.
End BitcoindNested.
Module StratumNested.
Record t : Type := mk { addr : string; auth : option string }.
End StratumNested.

Module ManagerTable.
Record t : Type := mk {
  backend : string; poll_interval_secs : option Z; verifier_tcp_addr : option string; http_listen_addr : option string;
  rpc_url : option string; rpc_user : option string; rpc_pass : option string; coinbase_output_script_hex : option string;
  extranonce_size : option Z; stratum_addr : option string; stratum_auth : option string;
  bitcoind : option BitcoindNested.t; stratum : option StratumNested.t }.
End ManagerTable.

Module TemplateManagerConfig.
Record t : Type := mk {
  backend : string; poll_interval_secs : option Z; verifier_tcp_addr : option string; http_listen_addr : option string;
  rpc_url : option string; rpc_user : option string; rpc_pass : option string; stratum_addr : option string;
  stratum_auth : option string; coinbase_output_script_hex : string; extranonce_size : Z }.
End TemplateManagerConfig.

(** What serde makes of values that are opaque here. *)
Class ManagerDocs : Type := {
  bitcoind_of_else : string -> option BitcoindNested.t;
  stratum_of_else : string -> option StratumNested.t;
  manager_of_else : string -> option ManagerTable.t
}.

Definition blank (s : string) : bool := match trim (String.list_ascii_of_string s) with [] => true | _ => false end.

Definition normalize (m : ManagerTable.t) : TemplateManagerConfig.t :=
  let '(rpc_url, rpc_user, rpc_pass) :=
    match ManagerTable.bitcoind m with
    | Some b => (Some (BitcoindNested.rpc_url b), Some (BitcoindNested.rpc_user b), Some (BitcoindNested.rpc_pass b))
    | None => (ManagerTable.rpc_url m, ManagerTable.rpc_user m, ManagerTable.rpc_pass m)
    end in
  let '(stratum_addr, stratum_auth) :=
    match ManagerTable.stratum m with
    | Some s => (Some (StratumNested.addr s), StratumNested.auth s)
    | None => (ManagerTable.stratum_addr m, ManagerTable.stratum_auth m)
    end in
  TemplateManagerConfig.mk (ManagerTable.backend m) (ManagerTable.poll_interval_secs m) (ManagerTable.verifier_tcp_addr m)
    (ManagerTable.http_listen_addr m) rpc_url rpc_user rpc_pass stratum_addr stratum_auth
    (unwrap_or (ManagerTable.coinbase_output_script_hex m) "51"%string) (unwrap_or (ManagerTable.extranonce_size m) 4).

Inductive MgrRefusal : Type :=
| PollZero | NoStratumAddr | BackendUnsupported (other : string) | ScriptNotHex (text : string) | ExtranonceSize (n : Z).
Inductive MgrLoadError : Type := MgrUnreadable | MgrUnparsable | MgrRefused (e : MgrRefusal).

(** [format!("{e}")] of the error: its outermost context. *)
Definition load_error_text (path : string) (e : MgrLoadError) : string :=
  match e with
  | MgrUnreadable => "failed to read manager config file " +:+ path
  | MgrUnparsable => "failed to parse manager config in " +:+ path
  | MgrRefused _ => "invalid manager config in " +:+ path
  end%string.

Section Loading.
Context `{TomlDocs, ManagerDocs, HexCrate}.

Definition bitcoind_of_table (t : gmap string toml) : option BitcoindNested.t :=
  rpc_url ← need t "rpc_url" as_str; rpc_user ← need t "rpc_user" as_str; rpc_pass ← need t "rpc_pass" as_str;
  Some (BitcoindNested.mk rpc_url rpc_user rpc_pass).
Definition stratum_of_table (t : gmap string toml) : option StratumNested.t :=
  addr ← need t "addr" as_str; auth ← field t "auth" None (as_some as_str); Some (StratumNested.mk addr auth).

Definition manager_of_table (t : gmap string toml) : option ManagerTable.t :=
  backend ← need t "backend" as_str;
  poll_interval_secs ← field t "poll_interval_secs" None (as_some (as_uint 64));
  verifier_tcp_addr ← field t "verifier_tcp_addr" None (as_some as_str);
  http_listen_addr ← field t "http_listen_addr" None (as_some as_str);
  rpc_url ← field t "rpc_url" None (as_some as_str);
  rpc_user ← field t "rpc_user" None (as_some as_str);
  rpc_pass ← field t "rpc_pass" None (as_some as_str);
  coinbase_output_script_hex ← field t "coinbase_output_script_hex" None (as_some as_str);
  extranonce_size ← field t "extranonce_size" None (as_some (as_uint 64));
  stratum_addr ← field t "stratum_addr" None (as_some as_str);
  stratum_auth ← field t "stratum_auth" None (as_some as_str);
  bitcoind ← field t "bitcoind" None (as_some (as_struct bitcoind_of_table bitcoind_of_else));
  stratum ← field t "stratum" None (as_some (as_struct stratum_of_table stratum_of_else));
  Some (ManagerTable.mk backend poll_interval_secs verifier_tcp_addr http_listen_addr rpc_url rpc_user rpc_pass
          coinbase_output_script_hex extranonce_size stratum_addr stratum_auth bitcoind stratum).
Definition manager_of_value : toml -> option ManagerTable.t := as_struct manager_of_table manager_of_else.

(** [toml::from_str::<RootWrapper>], and [manager_table_from_value]. *)
Definition root_wrapper (contents : string) : option ManagerTable.t :=
  match from_str contents with Ok doc => need doc "manager" manager_of_value | Err _ => None end.
Definition manager_table_from_value (contents : string) : option ManagerTable.t :=
  match from_str contents with
  | Ok v => match v !! "manager"%string with Some mgr_v => manager_of_value mgr_v | None => None end
  | Err _ => None
  end.

Definition mgr_validate (c : TemplateManagerConfig.t) : result unit MgrRefusal :=
  let backend := TemplateManagerConfig.backend c in
  let? _ :=
    if String.eqb backend "bitcoind" then
      match TemplateManagerConfig.poll_interval_secs c with Some p => if p =? 0 then Err PollZero else Ok tt | None => Ok tt end
    else if String.eqb backend "stratum" then
      if blank (unwrap_or (TemplateManagerConfig.stratum_addr c) ""%string) then Err NoStratumAddr else Ok tt
    else Err (BackendUnsupported backend) in
  let? _ := map_err (fun _ => ScriptNotHex (TemplateManagerConfig.coinbase_output_script_hex c)) (hex_decode (TemplateManagerConfig.coinbase_output_script_hex c)) in
  if (TemplateManagerConfig.extranonce_size c =? 0) || (TemplateManagerConfig.extranonce_size c >? 32)
  then Err (ExtranonceSize (TemplateManagerConfig.extranonce_size c)) else Ok tt.

(** [from_path] on what [read_to_string] gives. *)
Definition from_path (file : option string) : result TemplateManagerConfig.t MgrLoadError :=
  let? contents := ok_or file MgrUnreadable in
  let? mgr := match root_wrapper contents with
              | Some m => Ok m
              | None => ok_or (manager_table_from_value contents) MgrUnparsable
              end in
  let cfg := normalize mgr in
  let? _ := map_err MgrRefused (mgr_validate cfg) in
  Ok cfg.
End Loading.

(** ** Saving settings *)

Module MgrSaveSettingsReq.
Record t : Type := mk {
  backend : option string; poll_interval_secs : option Z; coinbase_output_script_hex : option string;
  extranonce_size : option Z; rpc_url : option string; rpc_user : option string; stratum_addr : option string }.

(** The keys in the order they are patched. *)
Definition entries (r : t) : list (string * option toml) :=
  [("backend"%string, patch_str (backend r));
   ("poll_interval_secs"%string, patch_int (poll_interval_secs r));
   ("coinbase_output_script_hex"%string, patch_str (coinbase_output_script_hex r));
   ("extranonce_size"%string, patch_int (extranonce_size r));
   ("rpc_url"%string, patch_str (rpc_url r));
   ("rpc_user"%string, patch_str (rpc_user r));
   ("stratum_addr"%string, patch_str (stratum_addr r))].
End MgrSaveSettingsReq.

Definition patch_entries (l : list (string * option toml)) (t : gmap string toml) : gmap string toml :=
  foldl (fun t kv => match kv.2 with Some v => <[kv.1 := v]> t | None => t end) t l.
Definition mgr_patch_doc (r : MgrSaveSettingsReq.t) (doc : gmap string toml) : gmap string toml :=
  match doc !! "manager"%string with
  | Some (TomlTab t) => <["manager"%string := TomlTab (patch_entries (MgrSaveSettingsReq.entries r) t)]> doc
  | _ => doc
  end.

Inductive MgrAnswer : Type :=
| MgrThrottled | MgrBadBackend (shown : bytes) | MgrBadExtranonce (size : Z) | MgrBadHex (shown : bytes) | MgrReadFailed
| MgrParseFailed (shown : bytes) | MgrSerializeFailed | MgrTempFailed | MgrInvalid (shown : bytes) | MgrWriteFailed | MgrSaved.

(** [if s.len() > n { &s[..n] } else { s }]. *)
Definition shortened (n : nat) (s : bytes) : checked bytes :=
  if (n <? length s)%nat then (if is_char_boundary s n then Returns (take n s) else Panics) else Returns s.
Definition showing (answer : bytes -> MgrAnswer) (c : checked bytes) : checked MgrAnswer :=
  match c with Returns s => Returns (answer s) | Panics => Panics end.

Module MgrAdmin.
Record t : Type := mk { throttle : list Z; fs : Fs.t; validate_file : option string }.
End MgrAdmin.

(** The kernel's side of a save: [Disk] for the configuration; the write of the temporary file can fail
    and leave something. *)
Module MgrDisk.
Record t : Type := mk { disk : Disk.t; temp_fails : option (option string) }.
End MgrDisk.

Inductive Phase : Type :=
| Asked | Patched (doc : gmap string toml) (text : string) | Staged (doc : gmap string toml) | Approved (doc : gmap string toml)
| Answered (a : checked MgrAnswer).

Section Saving.
Context `{TomlDocs, ManagerDocs, HexCrate}.
(** The path of the temporary file. *)
Variable tmp_path : string.

(** The checks before the file is read. *)
Definition check_request (r : MgrSaveSettingsReq.t) : option (checked MgrAnswer) :=
  let bad_backend :=
    match MgrSaveSettingsReq.backend r with
    | Some backend =>
        match shortened 64 (lit backend) with
        | Panics => Some Panics
        | Returns safe_backend =>
            if String.eqb backend "bitcoind" || String.eqb backend "stratum" then None else Some (Returns (MgrBadBackend safe_backend))
        end
    | None => None
    end in
  match bad_backend with
  | Some a => Some a
  | None =>
      match MgrSaveSettingsReq.extranonce_size r with
      | Some size => if (size =? 0) || (size >? 32) then Some (Returns (MgrBadExtranonce size)) else None
      | None => None
      end
  end.
Definition check_hex (r : MgrSaveSettingsReq.t) : option (checked MgrAnswer) :=
  match MgrSaveSettingsReq.coinbase_output_script_hex r with
  | Some hex_str => if is_ok (hex_decode hex_str) then None else Some (showing MgrBadHex (shortened 64 (lit hex_str)))
  | None => None
  end.

Definition begin_save (now : Z) (r : MgrSaveSettingsReq.t) (s : MgrAdmin.t) : Phase * MgrAdmin.t :=
  let '(ok, ts) := Guards.check_write_throttle now (MgrAdmin.throttle s) in
  let s := MgrAdmin.mk ts (MgrAdmin.fs s) (MgrAdmin.validate_file s) in
  if negb ok then (Answered (Returns MgrThrottled), s)
  else match check_request r with
  | Some a => (Answered a, s)
  | None =>
      match check_hex r with
      | Some a => (Answered a, s)
      | None =>
          match read_text (MgrAdmin.fs s) with
          | None => (Answered (Returns MgrReadFailed), s)
          | Some toml_text =>
              match from_str toml_text with
              | Err e => (Answered (showing MgrParseFailed (shortened 200 (lit e))), s)
              | Ok doc =>
                  let doc := mgr_patch_doc r doc in
                  match to_string_pretty doc with
                  | None => (Answered (Returns MgrSerializeFailed), s)
                  | Some patched_text => (Patched doc patched_text, s)
                  end
              end
          end
      end
  end.

(** The next phase of a save. *)
Definition advance (w : nat) (now : Z) (d : MgrDisk.t) (r : MgrSaveSettingsReq.t) (p : Phase) (s : MgrAdmin.t) : Phase * MgrAdmin.t :=
  match p with
  | Asked => begin_save now r s
  | Patched doc text =>
      match MgrDisk.temp_fails d with
      | Some remains => (Answered (Returns MgrTempFailed), MgrAdmin.mk (MgrAdmin.throttle s) (MgrAdmin.fs s) remains)
      | None => (Staged doc, MgrAdmin.mk (MgrAdmin.throttle s) (MgrAdmin.fs s) (Some text))
      end
  | Staged doc =>
      let s' := MgrAdmin.mk (MgrAdmin.throttle s) (MgrAdmin.fs s) None in
      match from_path (MgrAdmin.validate_file s) with
      | Ok _ => (Approved doc, s')
      | Err e => (Answered (showing MgrInvalid (shortened 200 (lit (load_error_text tmp_path e)))), s')
      end
  | Approved doc =>
      let '(res, fs) := atomic_write_toml w (Some doc) (MgrDisk.disk d) (MgrAdmin.fs s) in
      (Answered (Returns (match res with Ok _ => MgrSaved | Err _ => MgrWriteFailed end)), MgrAdmin.mk (MgrAdmin.throttle s) fs (MgrAdmin.validate_file s))
  | Answered _ => (p, s)
  end.

(** [save_settings] without another save in between: four phases reach the answer. *)
Fixpoint advances (n : nat) (w : nat) (now : Z) (d : MgrDisk.t) (r : MgrSaveSettingsReq.t) (p : Phase) (s : MgrAdmin.t) : Phase * MgrAdmin.t :=
  match n with
  | O => (p, s)
  | S n => let '(p, s) := advance w now d r p s in advances n w now d r p s
  end.
Definition save_settings (w : nat) (now : Z) (d : MgrDisk.t) (r : MgrSaveSettingsReq.t) (s : MgrAdmin.t) : Phase * MgrAdmin.t :=
  advances 4 w now d r Asked s.
End Saving.

(** ** Starting *)

(** [env::var(key).ok().filter(|s| !s.trim().is_empty())], and the same of a setting. *)
Definition not_blank (v : option string) : option string := s ← v; if blank s then None else Some s.

Module MgrStarted.
Record t : Type := mk {
  config : TemplateManagerConfig.t; verifier_addr : string; poll_secs : Z; http_addr : string; backend_name : string;
  coinbase_script : bytes; share_log_path : option string; share_hmac_secret : bytes }.
End MgrStarted.

Inductive MgrStartError : Type :=
| MgrApiSecret | MgrHmacSecret | MgrLoad (e : MgrLoadError) | MgrBind (addr : string) | MgrNoRpcPass | MgrNoRpcClient
| MgrScript | MgrUnsupported | MgrShareLogPath.

Section Starting.
Context `{TomlDocs, ManagerDocs, HexCrate}.
Variable env : gmap string string.
(** [bitcoincore_rpc::Client::new] on a URL, a user and a password. *)
Variable client_new : string -> string -> string -> bool.
Variable bind : string -> bool.

Definition build_bitcoind_client (c : TemplateManagerConfig.t) : result unit MgrStartError :=
  let url := unwrap_or (TemplateManagerConfig.rpc_url c) "http://127.0.0.1:18443"%string in
  let user := unwrap_or (TemplateManagerConfig.rpc_user c) (unwrap_or (env !! "VELDRA_BITCOIND_RPC_USER"%string) "reservegrid"%string) in
  let pass := match TemplateManagerConfig.rpc_pass c with Some p => Some p | None => env !! "VELDRA_BITCOIND_RPC_PASS"%string end in
  match pass with
  | None => Err MgrNoRpcPass
  | Some pass => if client_new url user pass then Ok tt else Err MgrNoRpcClient
  end.

Definition to_ascii_lowercase (s : string) : string :=
  String.string_of_list_ascii (Wizard.to_ascii_lowercase <$> String.list_ascii_of_string s).
Definition trimmed (s : string) : string := String.string_of_list_ascii (trim (String.list_ascii_of_string s)).

Definition manager_main (file : option string) : result MgrStarted.t MgrStartError :=
  if negb (Guards.enforce_api_secret (env !! "VELDRA_API_SECRET"%string) (env !! "VELDRA_API_SECRET_OPTIONAL"%string)) then Err MgrApiSecret
  else if negb (Guards.enforce_hmac_secret (env !! "VELDRA_SHARE_UPSTREAM_SECRET"%string) (env !! "VELDRA_SHARE_HMAC_OPTIONAL"%string)) then Err MgrHmacSecret
  else
    let? cfg := map_err MgrLoad (from_path file) in
    let verifier_addr := unwrap_or (match not_blank (env !! "VELDRA_VERIFIER_ADDR"%string) with
                                    | Some a => Some a
                                    | None => not_blank (TemplateManagerConfig.verifier_tcp_addr cfg)
                                    end) "127.0.0.1:5001"%string in
    let poll_secs := Z.max (unwrap_or (TemplateManagerConfig.poll_interval_secs cfg) 5) 1 in
    let http_addr := unwrap_or (match not_blank (env !! "VELDRA_MANAGER_HTTP_ADDR"%string) with
                                | Some a => Some a
                                | None => not_blank (TemplateManagerConfig.http_listen_addr cfg)
                                end) "127.0.0.1:8081"%string in
    if negb (bind http_addr) then Err (MgrBind http_addr)
    else
      let backend := to_ascii_lowercase (trimmed (TemplateManagerConfig.backend cfg)) in
      let? source :=
        if String.eqb backend "bitcoind" then
          let? _ := build_bitcoind_client cfg in
          let? cb_script := map_err (fun _ => MgrScript) (hex_decode (TemplateManagerConfig.coinbase_output_script_hex cfg)) in
          Ok ("bitcoind"%string, cb_script)
        else if String.eqb backend "stratum" then Ok ("stratum"%string, [])
        else Err MgrUnsupported in
      let share_log_path := s ← env !! "VELDRA_SHARE_LOG_PATH"%string; if String.eqb s "" then None else Some s in
      if match share_log_path with Some p => negb (Guards.validate_share_log_path p) | None => false end then Err MgrShareLogPath
      else Ok (MgrStarted.mk cfg verifier_addr poll_secs http_addr source.1 source.2 share_log_path
                 (lit (unwrap_or (env !! "VELDRA_SHARE_UPSTREAM_SECRET"%string) ""%string))).
End Starting.

(** ** Showing settings *)

Section Shown.
Variable env : gmap string string.

(** The snapshot of the start. *)
Definition mgr_boot_snapshot (s : MgrStarted.t) : list (string * json) :=
  let cfg := MgrStarted.config s in
  [("log_level"%string, JStr (unwrap_or (env !! "VELDRA_LOG_FILTER"%string) "info"%string));
   ("log_format"%string, JStr (unwrap_or (env !! "VELDRA_LOG_FORMAT"%string) "json"%string));
   ("backend"%string, JStr (TemplateManagerConfig.backend cfg));
   ("poll_interval_secs"%string, JInt (MgrStarted.poll_secs s));
   ("coinbase_output_script_hex"%string, JStr (TemplateManagerConfig.coinbase_output_script_hex cfg));
   ("extranonce_size"%string, JInt (TemplateManagerConfig.extranonce_size cfg));
   ("http_listen_addr"%string, JStr (MgrStarted.http_addr s));
   ("verifier_tcp_addr"%string, JStr (MgrStarted.verifier_addr s));
   ("rpc_url"%string, JStr (unwrap_or (TemplateManagerConfig.rpc_url cfg) ""%string));
   ("rpc_user"%string, JStr (unwrap_or (TemplateManagerConfig.rpc_user cfg) ""%string));
   ("rpc_pass_set"%string, JBool (bool_decide (is_Some (TemplateManagerConfig.rpc_pass cfg))));
   ("stratum_addr"%string, JStr (unwrap_or (TemplateManagerConfig.stratum_addr cfg) ""%string));
   ("stratum_auth_set"%string, JBool (bool_decide (is_Some (TemplateManagerConfig.stratum_auth cfg))))].

Definition build_mgr_settings_snapshot (doc : gmap string toml) : list (string * json) :=
  let mgr := doc !! "manager"%string in
  [("log_level"%string, JStr (unwrap_or (env !! "VELDRA_LOG_FILTER"%string) "info"%string));
   ("log_format"%string, JStr (unwrap_or (env !! "VELDRA_LOG_FORMAT"%string) "json"%string));
   ("backend"%string, JStr (get_str mgr "backend"));
   ("poll_interval_secs"%string, JInt (get_u64 mgr "poll_interval_secs" 5));
   ("coinbase_output_script_hex"%string, JStr (unwrap_or (entry mgr "coinbase_output_script_hex" ≫= as_str) "51"%string));
   ("extranonce_size"%string, JInt (get_u64 mgr "extranonce_size" 4));
   ("http_listen_addr"%string, JStr (unwrap_or (env !! "VELDRA_MANAGER_HTTP_ADDR"%string) (get_str mgr "http_listen_addr")));
   ("verifier_tcp_addr"%string, JStr (unwrap_or (env !! "VELDRA_VERIFIER_ADDR"%string) (get_str mgr "verifier_tcp_addr")));
   ("rpc_url"%string, JStr (get_str mgr "rpc_url"));
   ("rpc_user"%string, JStr (get_str mgr "rpc_user"));
   ("rpc_pass_set"%string, JBool (bool_decide (is_Some (entry mgr "rpc_pass"))));
   ("stratum_addr"%string, JStr (get_str mgr "stratum_addr"));
   ("stratum_auth_set"%string, JBool (bool_decide (is_Some (entry mgr "stratum_auth"))))].

Definition mgr_get_settings `{TomlDocs} (snapshot : list (string * json)) (fs : Fs.t) : list (string * json) :=
  let pending_restart :=
    match read_text fs with
    | Some disk_text =>
        match from_str disk_text with
        | Ok disk_toml => negb (bool_decide (build_mgr_settings_snapshot disk_toml = snapshot))
        | Err _ => false
        end
    | None => false
    end in
  snapshot ++ [("pending_restart"%string, JBool pending_restart)].
End Shown.

(** * Properties *)

Section LoadFacts.
Context `{TomlDocs, ManagerDocs, HexCrate}.

(** The two ways to read the table agree. *)
Lemma wrapper_agrees contents : root_wrapper contents = manager_table_from_value contents.
Proof. unfold root_wrapper, manager_table_from_value, need. destruct (from_str contents); [|done]. by destruct (_ !! _). Qed.

Lemma from_path_iff text doc c : from_str text = Ok doc ->
  from_path (Some text) = Ok c <-> exists m, need doc "manager" manager_of_value = Some m /\ c = normalize m /\ mgr_validate c = Ok tt.
Proof.
  intros Hd. unfold from_path. cbn [ok_or result_bind]. pose proof (wrapper_agrees text) as Hw. unfold root_wrapper in *. rewrite Hd in *. rewrite <-Hw.
  destruct (need doc "manager" manager_of_value) as [m|]; cbn [ok_or result_bind]; [|split; [done|by intros (? & [=] & _)]].
  destruct (mgr_validate (normalize m)) as [[]|e] eqn:Ev; cbn [map_err result_bind].
  - split; [intros [= <-]; by exists m|by intros (m' & [= <-] & -> & _)].
  - split; [done|]. intros (m' & [= <-] & -> & Hv). congruence.
Qed.

(** A configuration that loads is one the source can be built of, but for the password of the node. *)
Lemma loaded_sound file c : from_path file = Ok c ->
  (TemplateManagerConfig.backend c = "bitcoind"%string /\ TemplateManagerConfig.poll_interval_secs c <> Some 0 \/
   TemplateManagerConfig.backend c = "stratum"%string /\ exists a, TemplateManagerConfig.stratum_addr c = Some a /\ blank a = false) /\
  is_ok (hex_decode (TemplateManagerConfig.coinbase_output_script_hex c)) = true /\
  TemplateManagerConfig.extranonce_size c <> 0 /\ TemplateManagerConfig.extranonce_size c <= 32.
Proof.
  destruct file as [text|]; [|done]. destruct (from_str text) as [doc|e] eqn:Hd.
  2: { unfold from_path. cbn [ok_or result_bind]. unfold root_wrapper, manager_table_from_value. by rewrite Hd. }
  rewrite (from_path_iff text doc c Hd). intros (m & _ & _ & Hv). unfold mgr_validate in Hv. cbv zeta in Hv.
  apply result_bind_ok in Hv as ([] & Hb & Hv). apply result_bind_ok in Hv as (script & Hh & Hv).
  split; [|split].
  - destruct (String.eqb_spec (TemplateManagerConfig.backend c) "bitcoind") as [E|_].
    + left. split; [done|]. intros Ep. by rewrite Ep in Hb.
    + destruct (String.eqb_spec (TemplateManagerConfig.backend c) "stratum") as [E|_]; [|done]. right. split; [done|].
      destruct (TemplateManagerConfig.stratum_addr c) as [a|]; [|done]. exists a. split; [done|]. cbn [unwrap_or] in Hb. by destruct (blank a).
  - by destruct (hex_decode _).
  - case_if; [done|]. z_bool. done.
Qed.
End LoadFacts.

(** ** Patches *)

Lemma patch_out l key : forall t, key ∉ l.*1 -> patch_entries l t !! key = t !! key.
Proof.
  unfold patch_entries. induction l as [|[k o] l IH]; intros t; [done|]. cbn [foldl fst snd fmap list_fmap]. intros [Hk Hl]%not_elem_of_cons.
  rewrite IH by done. destruct o; [by rewrite lookup_insert_ne|done].
Qed.

Lemma patch_in l key o : forall t, NoDup l.*1 -> (key, o) ∈ l -> patch_entries l t !! key = match o with Some v => Some v | None => t !! key end.
Proof.
  induction l as [|[k o'] l IH]; intros t Hnd Hin; [by apply elem_of_nil in Hin|]. cbn [fmap list_fmap fst] in Hnd. apply NoDup_cons in Hnd as [Hk Hnd].
  change (patch_entries ((k, o') :: l) t) with (patch_entries l (match o' with Some v => <[k:=v]> t | None => t end)).
  apply elem_of_cons in Hin as [[= <- <-]|Hin].
  - rewrite patch_out by done. destruct o; [by rewrite lookup_insert_eq|done].
  - rewrite IH by done. destruct o; [done|]. destruct o'; [|done]. rewrite lookup_insert_ne; [done|]. intros ->.
    apply Hk. by apply (list_elem_of_fmap_2 fst l (key, None)).
Qed.

Definition or_else {A} (a b : option A) : option A := match a with Some _ => a | None => b end.

Lemma patched_str t t' key o f f' : t' !! key = match patch_str o with Some v => Some v | None => t !! key end ->
  field t key None (as_some as_str) = Some f -> field t' key None (as_some as_str) = Some f' -> f' = or_else o f.
Proof.
  intros Hl Hf Hf'. destruct o as [s|]; cbn [or_else].
  - rewrite (field_present t' key None _ _ Hl) in Hf'. by injection Hf' as <-.
  - rewrite (field_ext t' t key None _ Hl) in Hf'. congruence.
Qed.

(** A value that does not fit a TOML integer turns negative and is not read back. *)
Lemma as_uint_as_i64 v : 0 <= v < 2 ^ 64 -> as_uint 64 (TomlInt (as_i64 v)) = if v <=? i64_max then Some v else None.
Proof.
  unfold as_uint, as_i64, i64_max. intros Hv. destruct (v <=? 2 ^ 63 - 1) eqn:E; z_bool.
  - rewrite (proj2 (Z.leb_le 0 v)), (proj2 (Z.ltb_lt v (2 ^ 64))), (proj2 (Z.leb_le v (2 ^ 63 - 1))) by lia. done.
  - by rewrite (proj2 (Z.leb_gt 0 (v - 2 ^ 64))) by lia.
Qed.

Lemma patched_int t t' key o f f' : (forall v, o = Some v -> 0 <= v < 2 ^ 64) ->
  t' !! key = match patch_int o with Some v => Some v | None => t !! key end ->
  field t key None (as_some (as_uint 64)) = Some f -> field t' key None (as_some (as_uint 64)) = Some f' -> f' = or_else o f.
Proof.
  intros Hr Hl Hf Hf'. destruct o as [v|]; cbn [or_else].
  - rewrite (field_present t' key None _ _ Hl) in Hf'. unfold as_some, compose in Hf'. rewrite (as_uint_as_i64 v (Hr v eq_refl)) in Hf'.
    destruct (v <=? i64_max); [by injection Hf' as <-|discriminate Hf'].
  - rewrite (field_ext t' t key None _ Hl) in Hf'. congruence.
Qed.

(** The fields of a request as JSON gives them. *)
Definition req_ok (r : MgrSaveSettingsReq.t) : Prop :=
  (forall v, MgrSaveSettingsReq.poll_interval_secs r = Some v -> 0 <= v < 2 ^ 64) /\
  (forall v, MgrSaveSettingsReq.extranonce_size r = Some v -> 0 <= v < 2 ^ 64).

(** A table with the requested values. *)
Definition requested (r : MgrSaveSettingsReq.t) (m : ManagerTable.t) : ManagerTable.t :=
  ManagerTable.mk (unwrap_or (MgrSaveSettingsReq.backend r) (ManagerTable.backend m))
    (or_else (MgrSaveSettingsReq.poll_interval_secs r) (ManagerTable.poll_interval_secs m))
    (ManagerTable.verifier_tcp_addr m) (ManagerTable.http_listen_addr m)
    (or_else (MgrSaveSettingsReq.rpc_url r) (ManagerTable.rpc_url m)) (or_else (MgrSaveSettingsReq.rpc_user r) (ManagerTable.rpc_user m))
    (ManagerTable.rpc_pass m) (or_else (MgrSaveSettingsReq.coinbase_output_script_hex r) (ManagerTable.coinbase_output_script_hex m))
    (or_else (MgrSaveSettingsReq.extranonce_size r) (ManagerTable.extranonce_size m))
    (or_else (MgrSaveSettingsReq.stratum_addr r) (ManagerTable.stratum_addr m)) (ManagerTable.stratum_auth m)
    (ManagerTable.bitcoind m) (ManagerTable.stratum m).

(** What a save makes of a configuration: the requested values, but for those of the node and of the
    bridge where the file has them in a nested table, which goes ahead of the flat keys. *)
Definition with_requested (r : MgrSaveSettingsReq.t) (m : ManagerTable.t) (c : TemplateManagerConfig.t) : TemplateManagerConfig.t :=
  let node {A} (o kept : option A) := match ManagerTable.bitcoind m with Some _ => kept | None => or_else o kept end in
  let bridge {A} (o kept : option A) := match ManagerTable.stratum m with Some _ => kept | None => or_else o kept end in
  TemplateManagerConfig.mk
    (unwrap_or (MgrSaveSettingsReq.backend r) (TemplateManagerConfig.backend c))
    (or_else (MgrSaveSettingsReq.poll_interval_secs r) (TemplateManagerConfig.poll_interval_secs c))
    (TemplateManagerConfig.verifier_tcp_addr c) (TemplateManagerConfig.http_listen_addr c)
    (node (MgrSaveSettingsReq.rpc_url r) (TemplateManagerConfig.rpc_url c))
    (node (MgrSaveSettingsReq.rpc_user r) (TemplateManagerConfig.rpc_user c)) (TemplateManagerConfig.rpc_pass c)
    (bridge (MgrSaveSettingsReq.stratum_addr r) (TemplateManagerConfig.stratum_addr c)) (TemplateManagerConfig.stratum_auth c)
    (unwrap_or (MgrSaveSettingsReq.coinbase_output_script_hex r) (TemplateManagerConfig.coinbase_output_script_hex c))
    (unwrap_or (MgrSaveSettingsReq.extranonce_size r) (TemplateManagerConfig.extranonce_size c)).

Lemma normalize_requested r m : normalize (requested r m) = with_requested r m (normalize m).
Proof.
  unfold normalize, with_requested, requested. cbn [ManagerTable.bitcoind ManagerTable.stratum].
  destruct (ManagerTable.bitcoind m), (ManagerTable.stratum m); cbn; f_equal;
    try (by destruct (MgrSaveSettingsReq.coinbase_output_script_hex r)); by destruct (MgrSaveSettingsReq.extranonce_size r).
Qed.

Section PatchFacts.
Context `{ManagerDocs}.

Lemma manager_patched r t m m' : req_ok r -> manager_of_table t = Some m ->
  manager_of_table (patch_entries (MgrSaveSettingsReq.entries r) t) = Some m' -> m' = requested r m.
Proof.
  intros [Hp He]. set (l := MgrSaveSettingsReq.entries r). set (t' := patch_entries l t).
  assert (NoDup l.*1) as Hnd by (apply (bool_decide_eq_true_1 _); vm_compute; reflexivity).
  assert (forall key, key ∉ l.*1 -> t' !! key = t !! key) as Hout by (intros key Hk; by apply patch_out).
  assert (forall key o, (key, o) ∈ l -> t' !! key = match o with Some v => Some v | None => t !! key end) as Hin by (intros key o; by apply patch_in).
  assert (forall A key (read : toml -> option (option A)) f f', field t key None read = Some f -> field t' key None read = Some f' ->
    bool_decide (key ∉ l.*1) = true -> f' = f) as Hkept.
  { intros A key read f f' Hf Hf' Hk%bool_decide_eq_true_1. rewrite (field_ext t' t key None read (Hout key Hk)) in Hf'. congruence. }
  assert (forall key o f f', (key, patch_str o) ∈ l -> field t key None (as_some as_str) = Some f ->
    field t' key None (as_some as_str) = Some f' -> f' = or_else o f) as Hstr by (intros key o f f' Hk; by apply (patched_str t t' key), Hin).
  assert (forall key o f f', (forall v, o = Some v -> 0 <= v < 2 ^ 64) -> (key, patch_int o) ∈ l -> field t key None (as_some (as_uint 64)) = Some f ->
    field t' key None (as_some (as_uint 64)) = Some f' -> f' = or_else o f) as Hint by (intros key o f f' Hr Hk; by apply (patched_int t t' key), Hin).
  assert (t' !! "backend"%string = match patch_str (MgrSaveSettingsReq.backend r) with Some v => Some v | None => t !! "backend"%string end) as Hb
    by (apply Hin; by left).
  clearbody t'. clear Hin Hout. unfold manager_of_table. intros Hm Hm'.
  revert Hm. repeat (refine (bind_elim _ _ _ _ _); let x := fresh "a" in let Hx := fresh "F" in intros x Hx). intros [= <-].
  revert Hm'. repeat (refine (bind_elim _ _ _ _ _); let x := fresh "b" in let Hx := fresh "G" in intros x Hx). intros [= <-].
  unfold requested. cbn [ManagerTable.backend ManagerTable.poll_interval_secs ManagerTable.verifier_tcp_addr ManagerTable.http_listen_addr ManagerTable.rpc_url
    ManagerTable.rpc_user ManagerTable.rpc_pass ManagerTable.coinbase_output_script_hex ManagerTable.extranonce_size ManagerTable.stratum_addr
    ManagerTable.stratum_auth ManagerTable.bitcoind ManagerTable.stratum].
  rewrite (Hint _ _ _ _ Hp ltac:(right; by left) F0 G0), (Hkept _ _ _ _ _ F1 G1 eq_refl), (Hkept _ _ _ _ _ F2 G2 eq_refl),
    (Hstr _ _ _ _ ltac:(do 4 right; by left) F3 G3), (Hstr _ _ _ _ ltac:(do 5 right; by left) F4 G4), (Hkept _ _ _ _ _ F5 G5 eq_refl),
    (Hstr _ _ _ _ ltac:(do 2 right; by left) F6 G6), (Hint _ _ _ _ He ltac:(do 3 right; by left) F7 G7),
    (Hstr _ _ _ _ ltac:(do 6 right; by left) F8 G8), (Hkept _ _ _ _ _ F9 G9 eq_refl), (Hkept _ _ _ _ _ F10 G10 eq_refl),
    (Hkept _ _ _ _ _ F11 G11 eq_refl).
  f_equal.
  unfold need in *. rewrite Hb in G. destruct (MgrSaveSettingsReq.backend r) as [s|]; [by injection G as <-|]. cbn [patch_str fmap option_fmap option_map unwrap_or] in *. congruence.
Qed.
End PatchFacts.

(** ** Saves one after the other *)

Section Saves.
Context `{TomlDocs, ManagerDocs, HexCrate} `{!TomlDocsLaws}.
Variable tmp_path : string.

Definition loadable (fs : Fs.t) : Prop := exists c, from_path (read_text fs) = Ok c.

(** The document of the file. *)
Definition file_doc (fs : Fs.t) : option (gmap string toml) :=
  text ← read_text fs; match from_str text with Ok doc => Some doc | Err _ => None end.

Definition finished (p : Phase) : bool := match p with Answered _ => true | _ => false end.

(** A save: answered in four phases, with the file as it was, or as the write of a document that loads
    left it. *)
Lemma save_settings_cases w now d r s :
  let '(p, s') := save_settings tmp_path w now d r s in
  finished p = true /\
  (MgrAdmin.fs s' = MgrAdmin.fs s /\ p <> Answered (Returns MgrSaved) \/
   exists doc text c, file_doc (MgrAdmin.fs s) = Some doc /\ to_string_pretty (mgr_patch_doc r doc) = Some text /\ from_path (Some text) = Ok c /\
     let '(res, fs) := atomic_write_toml w (Some (mgr_patch_doc r doc)) (MgrDisk.disk d) (MgrAdmin.fs s) in
     MgrAdmin.fs s' = fs /\ (p = Answered (Returns MgrSaved) <-> res = Ok tt)).
Proof.
  unfold save_settings. cbn [advances advance]. unfold begin_save, file_doc. destruct (Guards.check_write_throttle now _) as [[|] ts]; cbn [negb];
    [|cbn [advances advance MgrAdmin.fs]; by split; [|left]].
  assert (forall answer c, (forall x, answer x <> MgrSaved) -> Answered (showing answer c) <> Answered (Returns MgrSaved)) as Hsh.
  { intros answer [x|] Hne; cbn [showing]; [|congruence]. intros E. injection E as E. by apply (Hne x). }
  destruct (check_request r) as [a|] eqn:Ec.
  { cbn [advances advance MgrAdmin.fs]. split; [done|]. left. split; [done|]. intros [= ->]. unfold check_request in Ec.
    destruct (MgrSaveSettingsReq.backend r) as [b|]; [destruct (shortened 64 (lit b)); [destruct (_ || _)|]|]; cbn in Ec; try done;
      destruct (MgrSaveSettingsReq.extranonce_size r); try done; by destruct (_ || _). }
  destruct (check_hex r) as [a|] eqn:Eh.
  { cbn [advances advance MgrAdmin.fs]. split; [done|]. left. split; [done|]. intros [= ->]. unfold check_hex in Eh.
    destruct (MgrSaveSettingsReq.coinbase_output_script_hex r) as [h|]; [|done]. destruct (is_ok _); [done|]. injection Eh as E. by apply (Hsh MgrBadHex (shortened 64 (lit h))); [|rewrite E]. }
  cbn [MgrAdmin.fs]. destruct (read_text (MgrAdmin.fs s)) as [text|]; [|cbn [advances advance MgrAdmin.fs]; by split; [|left]].
  change (Some text ≫= ?f) with (f text). cbv beta. destruct (from_str text) as [doc|e] eqn:Ed.
  2: { cbn [advances advance MgrAdmin.fs]. split; [done|]. left. split; [done|]. by apply Hsh. }
  destruct (to_string_pretty (mgr_patch_doc r doc)) as [ptext|] eqn:Et; [|cbn [advances advance MgrAdmin.fs]; by split; [|left]].
  cbn [advance]. destruct (MgrDisk.temp_fails d) as [remains|]; [cbn [advance MgrAdmin.fs]; by split; [|left]|].
  cbn [advance MgrAdmin.validate_file MgrAdmin.fs MgrAdmin.throttle]. destruct (from_path (Some ptext)) as [c|e] eqn:Ep.
  2: { cbn [advance MgrAdmin.fs]. split; [done|]. left. split; [done|]. by apply Hsh. }
  cbn [advance MgrAdmin.fs]. destruct (atomic_write_toml w (Some (mgr_patch_doc r doc)) (MgrDisk.disk d) (MgrAdmin.fs s)) as [[[]|e] fs'] eqn:Ew;
    (split; [done|]); right; exists doc, ptext, c; (split_and!; [done|done|done|]); rewrite Ew; cbn [MgrAdmin.fs]; (split; [done|]); by split.
Qed.

(** A save one after the other; and the end of the process in any phase of one, with a new start. *)
Inductive mgr_step : MgrAdmin.t -> MgrAdmin.t -> Prop :=
| mgr_saved w now d r s : cut_of (mgr_patch_doc r <$> file_doc (MgrAdmin.fs s)) (MgrDisk.disk d) ->
    mgr_step s (save_settings tmp_path w now d r s).2
| mgr_crashed_early s temp : mgr_step s (MgrAdmin.mk [] (MgrAdmin.fs s) temp)
| mgr_crashed w now d r s n backup : cut_of (mgr_patch_doc r <$> file_doc (MgrAdmin.fs s)) (MgrDisk.disk d) ->
    (save_settings tmp_path w now d r s).1 = Answered (Returns MgrSaved) ->
    mgr_step s (MgrAdmin.mk [] (perform_all w (take n (save_effects (Disk.chunks (MgrDisk.disk d)) backup)) (MgrAdmin.fs s)) None).

Lemma written_reads fs doc text : Fs.contents File fs = Some (lit text) -> to_string_pretty doc = Some text -> read_text fs = Some text.
Proof.
  intros Hc Ht. unfold read_text. rewrite Hc. change (Some ?b ≫= ?f) with (f b). cbv beta. by rewrite (docs_utf8 _ _ Ht), string_of_lit.
Qed.

Lemma same_reads fs fs' : Fs.contents File fs' = Fs.contents File fs -> read_text fs' = read_text fs.
Proof. intros Hc. unfold read_text. by rewrite Hc. Qed.

Lemma read_toml_text fs doc : read_toml Some fs = Ok doc -> exists text, read_text fs = Some text /\ from_str text = Ok doc.
Proof.
  unfold read_toml, read_text. destruct (Fs.contents File fs) as [b|]; [|done]. cbn [ok_or result_bind]. change (Some b ≫= ?f) with (f b). cbv beta.
  destruct (utf8_valid b); [|done]. cbn [negb]. destruct (from_str _) as [x|] eqn:E; [|done]. cbn. intros [= <-]. eauto.
Qed.

Lemma either_loadable fs fs' doc text c : loadable fs -> to_string_pretty doc = Some text -> from_path (Some text) = Ok c ->
  Fs.contents File fs' = Fs.contents File fs \/ Fs.contents File fs' = Some (lit text) -> loadable fs'.
Proof.
  intros [c0 Hl] Ht Hp [Ho|Hn]; unfold loadable; [rewrite (same_reads fs fs' Ho); eauto|rewrite (written_reads fs' doc text Hn Ht); eauto].
Qed.

Lemma mgr_step_keeps s s' : mgr_step s s' -> fs_ok (MgrAdmin.fs s) /\ loadable (MgrAdmin.fs s) -> fs_ok (MgrAdmin.fs s') /\ loadable (MgrAdmin.fs s').
Proof.
  intros [w now d r s0 Hcut|s0 temp|w now d r s0 n backup Hcut Ha] [Hok Hl]; [| done |];
    pose proof (save_settings_cases w now d r s0) as Hc; destruct (save_settings tmp_path w now d r s0) as [p s1]; cbn [fst snd] in *; destruct Hc as [_ Hc].
  - destruct Hc as [[-> _]|(doc & text & c & Hd & Ht & Hp & Hw)]; [done|]. rewrite Hd in Hcut. change (mgr_patch_doc r <$> Some doc) with (Some (mgr_patch_doc r doc)) in Hcut.
    pose proof (atomic_write_either w (Some (mgr_patch_doc r doc)) text (MgrDisk.disk d) (MgrAdmin.fs s0) Hok Ht Hcut) as He.
    pose proof (atomic_write_ok w (Some (mgr_patch_doc r doc)) (MgrDisk.disk d) (MgrAdmin.fs s0) Hok) as Hok'.
    destruct (atomic_write_toml _ _ _ _) as [res fs']. destruct Hw as [-> _]. split; [done|]. by eapply either_loadable.
  - destruct Hc as [[_ Hn]|(doc & text & c & Hd & Ht & Hp & _)]; [done|]. rewrite Hd in Hcut. cbn [MgrAdmin.fs]. split; [by apply perform_all_ok|].
    apply (either_loadable (MgrAdmin.fs s0) _ _ text c Hl Ht Hp). rewrite <-(Hcut text Ht). by apply crash_leaves_either.
Qed.

(** The save that is answered with success: what it read, and what loads afterwards. *)
Lemma saved_loads w now d r s s' t : fs_ok (MgrAdmin.fs s) -> req_ok r -> loadable (MgrAdmin.fs s) ->
  cut_of (mgr_patch_doc r <$> file_doc (MgrAdmin.fs s)) (MgrDisk.disk d) ->
  file_doc (MgrAdmin.fs s) ≫= (fun doc => doc !! "manager"%string) = Some (TomlTab t) ->
  save_settings tmp_path w now d r s = (Answered (Returns MgrSaved), s') ->
  exists m c, manager_of_table t = Some m /\ from_path (read_text (MgrAdmin.fs s)) = Ok c /\
    from_path (read_text (MgrAdmin.fs s')) = Ok (with_requested r m c).
Proof.
  intros Hok Hr [c0 Hl] Hcut Ht Hs. pose proof (save_settings_cases w now d r s) as Hc. rewrite Hs in Hc.
  destruct Hc as [_ [[_ Hn]|(doc & text & c & Hd & Htext & Hp & Hw)]]; [done|]. rewrite Hd in Hcut, Ht. change (Some doc ≫= ?f) with (f doc) in Ht. cbv beta in Ht.
  pose proof (atomic_write_toml_reads Some w (Some (mgr_patch_doc r doc)) (MgrDisk.disk d) (MgrAdmin.fs s)) as Hread.
  destruct (atomic_write_toml _ _ _ _) as [res fs']. destruct Hw as [-> Hw]. rewrite (proj1 Hw eq_refl) in Hread.
  destruct (Hread _ _ Hok Hcut eq_refl) as (x & [= <-] & Hr'). apply read_toml_text in Hr' as (text' & Ht' & Hd').
  unfold file_doc in Hd. destruct (read_text (MgrAdmin.fs s)) as [t0|] eqn:Et0; [|discriminate Hd]. change (Some t0 ≫= ?f) with (f t0) in Hd. cbv beta in Hd.
  destruct (from_str t0) as [doc0|] eqn:E0; [|discriminate Hd]. injection Hd as ->.
  destruct (proj1 (from_path_iff t0 doc c0 E0) Hl) as (m & Hm & Hc0 & _). unfold need in Hm. rewrite Ht in Hm. change (manager_of_table t = Some m) in Hm.
  exists m, c0. split; [done|]. split; [done|]. rewrite Ht', Hc0, <-normalize_requested. destruct (proj1 (from_path_iff text (mgr_patch_doc r doc) c (docs_round_trip _ _ Htext)) Hp) as (m' & Hm' & -> & Hv).
  apply (from_path_iff text' _ _ Hd'). unfold need, mgr_patch_doc in Hm' |- *. rewrite Ht in Hm' |- *. rewrite lookup_insert_eq in Hm' |- *.
  pose proof Hm' as Hm2. change (manager_of_table (patch_entries (MgrSaveSettingsReq.entries r) t) = Some m') in Hm2.
  apply (manager_patched r t m m' Hr Hm) in Hm2 as ->. by exists (requested r m).
Qed.

(** C18 Settings of the template manager: a configuration that loads keeps loading, whatever settings are
    saved one after the other, with failed writes and with the process ending in any phase of a save;
    and after a save that is answered with success the configuration that loads is the one before with
    the requested values and nothing else changed, except that where the file has a nested table for the
    node or the bridge, its values stay and the requested ones are not read. *)
Theorem manager_saves s s' : fs_ok (MgrAdmin.fs s) -> loadable (MgrAdmin.fs s) -> star mgr_step s s' ->
  loadable (MgrAdmin.fs s') /\
  forall w now d r s'' t, req_ok r -> cut_of (mgr_patch_doc r <$> file_doc (MgrAdmin.fs s')) (MgrDisk.disk d) ->
    file_doc (MgrAdmin.fs s') ≫= (fun doc => doc !! "manager"%string) = Some (TomlTab t) ->
    save_settings tmp_path w now d r s' = (Answered (Returns MgrSaved), s'') ->
    exists m c, manager_of_table t = Some m /\ from_path (read_text (MgrAdmin.fs s')) = Ok c /\
      from_path (read_text (MgrAdmin.fs s'')) = Ok (with_requested r m c).
Proof.
  intros Hok Hl Hrun.
  destruct (star_invariant mgr_step (fun s => fs_ok (MgrAdmin.fs s) /\ loadable (MgrAdmin.fs s))
    (fun a b Ha Hab => mgr_step_keeps a b Hab Ha) _ _ Hrun (conj Hok Hl)) as [Hok' Hl']. split; [done|].
  intros w now d r s'' t Hr Hcut Ht Hs. by eapply saved_loads.
Qed.
End Saves.

(** ** What a save does not do *)

(** With a nested table the flat keys that a save writes are not read. *)
Lemma nested_goes_ahead r m b : ManagerTable.bitcoind m = Some b ->
  TemplateManagerConfig.rpc_url (normalize (requested r m)) = Some (BitcoindNested.rpc_url b) /\
  TemplateManagerConfig.rpc_user (normalize (requested r m)) = Some (BitcoindNested.rpc_user b).
Proof. intros Hb. unfold normalize. cbn [requested ManagerTable.bitcoind]. rewrite Hb. by destruct (ManagerTable.stratum _) as [[]|]. Qed.

(** A text of more than 64 bytes whose 65th is inside a character ends the request with a panic. *)
Lemma long_backend_panics `{HexCrate} r backend : MgrSaveSettingsReq.backend r = Some backend ->
  (64 < length (lit backend))%nat -> is_char_boundary (lit backend) 64 = false -> check_request r = Some Panics.
Proof.
  intros Hb Hl Hc. unfold check_request. rewrite Hb. unfold shortened. rewrite (proj2 (Nat.ltb_lt _ _) Hl), Hc. done.
Qed.

Section Concurrent.
Context `{TomlDocs, ManagerDocs, HexCrate}.
Variable tmp_path : string.

(** Two saves at once, phase by phase. *)
Inductive two_step (r1 r2 : MgrSaveSettingsReq.t) (d1 d2 : MgrDisk.t) : Phase * Phase * MgrAdmin.t -> Phase * Phase * MgrAdmin.t -> Prop :=
| first_moves now p q s p' s' : advance tmp_path 1 now d1 r1 p s = (p', s') -> two_step r1 r2 d1 d2 (p, q, s) (p', q, s')
| second_moves now p q s q' s' : advance tmp_path 2 now d2 r2 q s = (q', s') -> two_step r1 r2 d1 d2 (p, q, s) (p, q', s').
End Concurrent.

Lemma not_blank_nonempty v s : not_blank v = Some s -> s <> ""%string.
Proof. unfold not_blank. destruct v as [x|]; [|done]. cbn [mbind option_bind]. destruct (blank x) eqn:E; [done|]. intros [= <-] ->. discriminate E. Qed.

Lemma started_http_addr `{TomlDocs, ManagerDocs, HexCrate} env client_new bind file s :
  manager_main env client_new bind file = Ok s -> MgrStarted.http_addr s <> ""%string.
Proof.
  unfold manager_main. do 2 (case_if; [done|]). destruct (from_path file) as [cfg|]; [|done]. cbn [map_err result_bind].
  set (http := unwrap_or (match not_blank (env !! "VELDRA_MANAGER_HTTP_ADDR"%string) with Some a => Some a | None => _ end) "127.0.0.1:8081"%string).
  assert (http <> ""%string) as Hn.
  { subst http. destruct (not_blank (env !! _)) as [a|] eqn:E1; [by apply not_blank_nonempty in E1|].
    destruct (not_blank (TemplateManagerConfig.http_listen_addr cfg)) as [a|] eqn:E2; [by apply not_blank_nonempty in E2|done]. }
  clearbody http. case_if; [done|]. destruct (if String.eqb _ "bitcoind" then _ else _) as [source|]; [|done]. cbn [result_bind].
  case_if; [done|]. by intros [= <-].
Qed.

(** A start without the address of the listener in file or environment shows a restart as pending at
    once. *)
Lemma restart_pending_at_once `{TomlDocs, ManagerDocs, HexCrate} env client_new bind s fs text doc :
  read_text fs = Some text -> from_str text = Ok doc -> manager_main env client_new bind (Some text) = Ok s ->
  env !! "VELDRA_MANAGER_HTTP_ADDR"%string = None -> entry (doc !! "manager"%string) "http_listen_addr" = None ->
  ("pending_restart"%string, JBool true) ∈ mgr_get_settings env (mgr_boot_snapshot env s) fs.
Proof.
  intros Hr Hd Hm He Hn. unfold mgr_get_settings. rewrite Hr, Hd. apply elem_of_app. right. apply list_elem_of_singleton.
  rewrite bool_decide_false; [done|]. unfold build_mgr_settings_snapshot, mgr_boot_snapshot. cbv zeta. intros E.
  apply (f_equal (fun l => l !! 6%nat)) in E. cbn [lookup list_lookup] in E. injection E as E. rewrite He in E. cbn [unwrap_or] in E.
  unfold get_str in E. rewrite Hn in E. cbn [mbind option_bind unwrap_or] in E.
  by apply (started_http_addr _ _ _ _ _ Hm).
Qed.

(** The configuration of a node without a password loads, and does not start. *)
Lemma no_password_no_start `{TomlDocs, ManagerDocs, HexCrate} env client_new bind file c :
  from_path file = Ok c -> TemplateManagerConfig.backend c = "bitcoind"%string -> TemplateManagerConfig.rpc_pass c = None ->
  env !! "VELDRA_BITCOIND_RPC_PASS"%string = None -> ~ exists s, manager_main env client_new bind file = Ok s.
Proof.
  intros Hl Hb Hp He [s Hs]. revert Hs. unfold manager_main. repeat (case_if; [done|]). cbv zeta. rewrite Hl. cbn [map_err result_bind].
  case_if; [done|]. rewrite Hb. change (String.eqb (to_ascii_lowercase (trimmed "bitcoind")) "bitcoind") with true. cbv iota.
  unfold build_bitcoind_client. by rewrite Hp, He.
Qed.

(** ** A sample manager *)

Module ManagerConfigSample.
Import PolicyFileSample.
#[export] Instance no_manager_else : ManagerDocs := {| bitcoind_of_else _ := None; stratum_of_else _ := None; manager_of_else _ := None |}.
#[local] Existing Instance HexSample.crate.

Definition before : gmap string toml := {["manager"%string := TomlTab {["backend"%string := TomlStr "bitcoind"]}]}.
Definition poll (secs : Z) : MgrSaveSettingsReq.t := MgrSaveSettingsReq.mk None (Some secs) None None None None None.
Definition good : gmap string toml := mgr_patch_doc (poll 7) before.
Definition bad : gmap string toml := mgr_patch_doc (poll 0) before.

(** A TOML crate for the three documents. *)
#[export] Instance three_docs : TomlDocs := {
  from_str s := if bool_decide (s = "before"%string) then Ok before
    else if bool_decide (s = "good"%string) then Ok good else if bool_decide (s = "bad"%string) then Ok bad else Err "expected a document"%string;
  to_string_pretty t := if bool_decide (t = before) then Some "before"%string
    else if bool_decide (t = good) then Some "good"%string else if bool_decide (t = bad) then Some "bad"%string else None;
  safety_of_else _ := None; mempool_of_else _ := None; policy_of_else _ := None
}.
#[export] Instance three_docs_laws : TomlDocsLaws.
Proof.
  constructor; try done; intros t text; cbn [to_string_pretty three_docs];
    (case_bool_decide; [intros [= <-]; by subst|]); (case_bool_decide; [intros [= <-]; by subst|]); (case_bool_decide; [intros [= <-]; by subst|done]).
Qed.

Definition s0 : MgrAdmin.t := MgrAdmin.mk [] (perform_all 1 (save_effects [lit "before"] None) Fs.empty) None.
Definition disk (text : string) : MgrDisk.t := MgrDisk.mk (Disk.mk [lit text] None None) None.

Lemma poll_ok : req_ok (poll 7).
Proof. split; intros v Hv; cbn in Hv; [injection Hv as <-; lia|discriminate Hv]. Qed.

Lemma s0_loads : loadable (MgrAdmin.fs s0).
Proof. unfold loadable. eexists. vm_compute. reflexivity. Qed.

Definition saved : Phase * MgrAdmin.t := save_settings "t" 1 5 (disk "good") (poll 7) s0.

Lemma manager_saves_witness :
  saved.1 = Answered (Returns MgrSaved) /\ loadable (MgrAdmin.fs saved.2) /\
  exists c, from_path (read_text (MgrAdmin.fs saved.2)) = Ok c /\ TemplateManagerConfig.poll_interval_secs c = Some 7.
Proof.
  assert (saved = (Answered (Returns MgrSaved), saved.2)) as Hs by (vm_compute; reflexivity). split; [by rewrite Hs|].
  assert (fs_ok (MgrAdmin.fs s0)) as Hok by apply perform_all_ok, fs_ok_empty.
  assert (cut_of (mgr_patch_doc (poll 7) <$> file_doc (MgrAdmin.fs s0)) (MgrDisk.disk (disk "good"))) as Hcut.
  { intros text Ht. vm_compute in Ht. injection Ht as <-. vm_compute. reflexivity. }
  split.
  - apply (manager_saves "t" s0 _ Hok s0_loads). eapply star_step; [|apply star_refl]. by apply (mgr_saved "t" 1 5 (disk "good") (poll 7) s0).
  - destruct (proj2 (manager_saves "t" s0 s0 Hok s0_loads (star_refl _ _)) 1%nat 5 (disk "good") (poll 7) saved.2 {["backend"%string := TomlStr "bitcoind"]})
      as (m & c & Hm & _ & Hl).
    + exact poll_ok.
    + exact Hcut.
    + vm_compute. reflexivity.
    + exact Hs.
    + eexists. split; [exact Hl|]. reflexivity.
Defined.

(** Two saves at once: the second overwrites the temporary file before the first checks it. The first is
    answered with success, and leaves a file that does not load. *)
Theorem concurrent_saves_unloadable : exists s' shown,
  star (two_step "t" (poll 0) (poll 7) (disk "bad") (disk "good")) (Asked, Asked, s0) (Answered (Returns MgrSaved), Answered (Returns (MgrInvalid shown)), s') /\
  ~ loadable (MgrAdmin.fs s').
Proof.
  eexists _, _. split.
  - eapply star_step; [apply (first_moves _ _ _ _ _ 1); vm_compute; reflexivity|].
    eapply star_step; [apply (second_moves _ _ _ _ _ 1); vm_compute; reflexivity|].
    eapply star_step; [apply (first_moves _ _ _ _ _ 1); vm_compute; reflexivity|].
    eapply star_step; [apply (second_moves _ _ _ _ _ 1); vm_compute; reflexivity|].
    eapply star_step; [apply (first_moves _ _ _ _ _ 1); vm_compute; reflexivity|].
    eapply star_step; [apply (second_moves _ _ _ _ _ 1); vm_compute; reflexivity|].
    eapply star_step; [apply (first_moves _ _ _ _ _ 1); vm_compute; reflexivity|]. apply star_refl.
  - intros [c Hc]. vm_compute in Hc. discriminate Hc.
Qed.
End ManagerConfigSample.
