(* ===== verification/Feed.v ===== *)
(** * The template feed

    Models [services/rg-feed-server/src] (configuration, poller, heartbeats, the accept loop, the
    authenticated connection) and [services/rg-feed-adapter/src] (configuration, the reader of the feed
    with its reconnects, the JSON-RPC endpoint that stands in for a node, its limit per peer).

    A broadcast channel keeps, for each receiver, the last frames up to its capacity and how many it has
    missed. What serde_json makes of a frame and of a request is a class. A reply of the node is its
    status and its body as JSON, when it is JSON. *)

From S2P Require Import Prelude Crates Reason Float64 Mempool Policy VerdictLog Limits License Auth Middleware PolicyFile GatewayConf NetAddr IpText DashboardLimit BitcoindRpc.

(** ** JSON *)

Inductive jvalue : Type :=
| VNull | VBool (b : bool) | VNum (z : Z) | VElse (text : string) | VText (s : string) | VArr (l : list jvalue) | VObj (l : list (string * jvalue)).

Fixpoint assoc_get (key : string) (l : list (string * jvalue)) : option jvalue :=
  match l with
  | [] => None
  | (k, v) :: l => if String.eqb k key then Some v else assoc_get key l
  end.
(** [Value::get], [as_u64], [as_str], [as_array]. *)
Definition jget (v : jvalue) (key : string) : option jvalue := match v with VObj l => assoc_get key l | _ => None end.
Definition jas_u64 (v : jvalue) : option Z := match v with VNum z => if (0 <=? z) && (z <=? u64_max) then Some z else None | _ => None end.
Definition jas_str (v : jvalue) : option string := match v with VText s => Some s | _ => None end.
Definition jas_array (v : jvalue) : option (list jvalue) := match v with VArr l => Some l | _ => None end.

Module Frame.
Record t : Type := mk { frame_type : string; ts : Z; data : jvalue }.
End Frame.
Module FeedFrame.
Record t : Type := mk { frame_type : string; ts : option Z; data : option jvalue }.
End FeedFrame.
Module RpcRequest.
Record t : Type := mk { id : jvalue; method : string }.
End RpcRequest.

(** [serde_json] on frames and requests. *)
Class FeedJson : Type := {
  frame_to_string : Frame.t -> option bytes;
  frame_from_str : bytes -> option FeedFrame.t;
  request_from_str : bytes -> option RpcRequest.t
}.
(** Frames serialize, and one is read back; [Option<Value>] reads [null] as no data. *)
Definition some_value (v : jvalue) : option jvalue := match v with VNull => None | _ => Some v end.
Class FeedJsonLaws `{FeedJson} : Prop := {
  frame_serializes f : is_Some (frame_to_string f);
  frame_round_trip f b : frame_to_string f = Some b ->
    frame_from_str b = Some (FeedFrame.mk (Frame.frame_type f) (Some (Frame.ts f)) (some_value (Frame.data f)))
}.

(** ** The poller *)

Module HttpReply.
Record t : Type := mk { status : Z; json : option jvalue }.
End HttpReply.

Inductive RpcCallError : Type := RequestFailed | HttpStatus (status : Z) | ParseFailed | RpcErrorObject (e : jvalue) | MissingResult.

Definition rpc_call (reply : option HttpReply.t) : result jvalue RpcCallError :=
  let? resp := ok_or reply RequestFailed in
  if negb ((200 <=? HttpReply.status resp) && (HttpReply.status resp <? 300)) then Err (HttpStatus (HttpReply.status resp))
  else
    let? envelope := ok_or (HttpReply.json resp) ParseFailed in
    match jget envelope "error" with
    | Some VNull | None => ok_or (jget envelope "result") MissingResult
    | Some err => Err (RpcErrorObject err)
    end.

Module FeedState.
Record t : Type := mk { rpc_ok : bool; last_poll_ts : Z; last_height : Z }.
Definition new : t := mk false 0 0.
End FeedState.

Definition template_frame (ts : Z) (data : jvalue) : Frame.t := Frame.mk "blocktemplate" ts data.
Definition mempool_frame (ts : Z) (data : jvalue) : Frame.t := Frame.mk "mempoolinfo" ts data.
Definition heartbeat_frame (ts : Z) : Frame.t := Frame.mk "heartbeat" ts (VObj []).

(** A turn of [run_poller] is its two calls, one after the other: the frame of each and the state. *)
Definition poll_template (ts : Z) (gbt : option HttpReply.t) (s : FeedState.t) : option Frame.t * FeedState.t :=
  match rpc_call gbt with
  | Ok data =>
      (Some (template_frame ts data),
       FeedState.mk true ts (match jget data "height" ≫= jas_u64 with Some h => h | None => FeedState.last_height s end))
  | Err _ => (None, FeedState.mk false (FeedState.last_poll_ts s) (FeedState.last_height s))
  end.
Definition poll_mempool (ts : Z) (reply : option HttpReply.t) : option Frame.t :=
  match rpc_call reply with Ok data => Some (mempool_frame ts data) | Err _ => None end.

(** [redact_url_credentials]; [find] on bytes. *)
Fixpoint find_bytes (p s : bytes) : option nat :=
  if bool_decide (take (length p) s = p) then Some 0%nat
  else match s with [] => None | _ :: s => S <$> find_bytes p s end.
Definition redact_url_credentials (url : bytes) : bytes :=
  match find_bytes (lit "://") url with
  | Some scheme_end =>
      let after_scheme := drop (scheme_end + 3) url in
      match find_bytes (lit "@") after_scheme with
      | Some at_pos => take scheme_end url ++ lit "://***@" ++ drop (at_pos + 1) after_scheme
      | None => url
      end
  | None => url
  end.

(** ** The broadcast channel *)

Fixpoint next_power_of_two (fuel : nat) (p n : Z) : Z :=
  match fuel with O => p | S fuel => if n <=? p then p else next_power_of_two fuel (2 * p) n end.
(** [broadcast::channel]: the slots, or a panic. *)
Definition broadcast_channel (capacity : Z) : checked Z :=
  if (capacity <=? 0) || (capacity >? 2 ^ 63 - 1) then Panics else Returns (next_power_of_two 64 1 capacity).

Module Receiver.
Record t : Type := mk { missed : Z; pending : list bytes }.
Definition new : t := mk 0 [].
(** A frame is sent: the oldest one makes room. The accept loop keeps a sender, so the channel is never
    closed. *)
Definition push (slots : Z) (frame : bytes) (r : t) : t :=
  if lenZ (pending r) >=? slots then mk (missed r + 1) (tail (pending r) ++ [frame]) else mk (missed r) (pending r ++ [frame]).
Inductive recv_result : Type := Lagged (n : Z) | Got (frame : bytes) | Closed | WouldWait.
Definition recv (r : t) : recv_result * t :=
  if missed r >? 0 then (Lagged (missed r), mk 0 (pending r))
  else match pending r with
       | f :: rest => (Got f, mk 0 rest)
       | [] => (WouldWait, r)
       end.
End Receiver.

Section Server.
Context `{FeedJson}.

(** A frame that serializes reaches every receiver. *)
Definition broadcast (slots : Z) (frame : option Frame.t) (r : Receiver.t) : Receiver.t :=
  match frame ≫= frame_to_string with Some line => Receiver.push slots line r | None => r end.

(** ** A connection *)

Definition MAX_TOKEN_LENGTH : nat := 512.

(** [on_request]: the token of the header. *)
Definition token_of (authorization : option bytes) : bytes :=
  let auth_header := default [] (v ← authorization; header_to_str v) in
  match strip_prefix (lit "Bearer ") auth_header with
  | Some stripped => let trimmed := trim_str stripped in if (MAX_TOKEN_LENGTH <? length trimmed)%nat then [] else trimmed
  | None => []
  end.
Definition on_request `{Base64Crate, LicenseJson, Ed25519Crate} (validator : option VerifyingKey) (now : Z) (authorization : option bytes)
    : option ValidatedKey.t := validate_feed_key validator now (token_of authorization).

Inductive Message : Type := MText (b : bytes) | MPing (b : bytes) | MPong (b : bytes) | MClose | MOther.

(** The first frame of a connection. *)
Definition status_frame (ts : Z) (s : FeedState.t) : option Frame.t :=
  if FeedState.rpc_ok s
  then Some (Frame.mk "status" ts (VObj [("height"%string, VNum (FeedState.last_height s)); ("rpc_ok"%string, VBool true)]))
  else None.

(** One turn of the relay loop: a frame of the channel or a message of the client ([None] for an error or
    the end); [writable] says whether a send succeeds. What is sent, and whether the loop goes on. *)
Inductive RelayEvent : Type := FromChannel (r : Receiver.recv_result) | FromClient (m : option Message).
Definition relay_turn (writable : bool) (e : RelayEvent) : list Message * bool :=
  match e with
  | FromChannel (Receiver.Got frame) => if writable then ([MText frame], true) else ([], false)
  | FromChannel Receiver.Closed => ([], false)
  | FromChannel (Receiver.Lagged _) | FromChannel Receiver.WouldWait => ([], true)
  | FromClient (Some (MPing data)) => if writable then ([MPong data], true) else ([], false)
  | FromClient (Some MClose) | FromClient None => ([], false)
  | FromClient (Some _) => ([], true)
  end.

(** [handle_connection]: the messages sent to the client. *)
Fixpoint relay (evs : list (bool * RelayEvent)) : list Message :=
  match evs with
  | [] => []
  | (writable, e) :: evs => let '(out, go_on) := relay_turn writable e in out ++ if go_on then relay evs else []
  end.
Definition handle_connection `{Base64Crate, LicenseJson, Ed25519Crate} (validator : option VerifyingKey) (now : Z) (authorization : option bytes)
    (s : FeedState.t) (first_writable : bool) (evs : list (bool * RelayEvent)) : list Message :=
  match on_request validator now authorization with
  | None => []
  | Some _ =>
      match status_frame now s ≫= frame_to_string with
      | Some msg => if first_writable then MText msg :: relay evs else []
      | None => relay evs
      end
  end.
End Server.

(** ** The accept loop *)

(** Connections in flight with their addresses, the count of active ones and the tracker. *)
Module Accepting.
Record t : Type := mk { active_conns : Z; tracker : PerIp.t IpAddr; live : list (Admission.conn IpAddr) }.

Definition new (max_connections_per_ip : Z) : t := mk 0 (PerIp.new (Z.min max_connections_per_ip (2 ^ 32 - 1))) [].

Definition accept (max_conns : Z) (i : nat) (peer_ip : IpAddr) (s : t) : t :=
  if (max_conns >? 0) && (active_conns s >=? max_conns) then s
  else
    let '(ok, tracker') := PerIp.try_accept peer_ip (tracker s) in
    if negb ok then mk (active_conns s) tracker' (live s)
    else mk (wrapping_add 64 (active_conns s) 1) tracker' (Admission.Conn i peer_ip true :: live s).

(** The task of a connection ends, or unwinds: the permit goes back either way, the count only goes down
    after the call returned. *)
Definition task_ends (unwinds : bool) (i : nat) (s : t) : t :=
  match head (filter (fun c => Admission.id c = i) (live s)) with
  | None => s
  | Some c =>
      mk (if unwinds then active_conns s else wrapping_sub 64 (active_conns s) 1)
        (PerIp.drop_permit (Admission.ip c) (tracker s)) (filter (fun c => Admission.id c <> i) (live s))
  end.
End Accepting.

(** ** The adapter *)

Definition MAX_BACKOFF_SECS : Z := 10.

Module FeedBuffer.
Record t : Type := mk {
  block_template : option jvalue; mempool_info : option jvalue; last_template_ts : option Z; feed_connected : bool }.
Definition empty : t := mk None None None false.
Definition set_connected (b : bool) (buf : t) : t := mk (block_template buf) (mempool_info buf) (last_template_ts buf) b.
End FeedBuffer.

Module RpcResponse.
Record t : Type := mk { result : option jvalue; error : option (Z * string); id : jvalue }.
End RpcResponse.

Section Adapter.
Context `{FeedJson}.

(** [process_frame] at the time [now]. *)
Definition process_frame (now : Z) (text : bytes) (buf : FeedBuffer.t) : FeedBuffer.t :=
  match frame_from_str text with
  | None => buf
  | Some frame =>
      if String.eqb (FeedFrame.frame_type frame) "blocktemplate" then
        match FeedFrame.data frame with
        | Some data => FeedBuffer.mk (Some data) (FeedBuffer.mempool_info buf) (Some now) (FeedBuffer.feed_connected buf)
        | None => buf
        end
      else if String.eqb (FeedFrame.frame_type frame) "mempoolinfo" then
        match FeedFrame.data frame with
        | Some data => FeedBuffer.mk (FeedBuffer.block_template buf) (Some data) (FeedBuffer.last_template_ts buf) (FeedBuffer.feed_connected buf)
        | None => buf
        end
      else buf
  end.

(** The header with the key; [None] for a key that no header can carry. *)
Definition header_byte (c : byte) : bool :=
  let z := Byte.to_N c in ((32 <=? z)%N && negb (z =? 127)%N) || (z =? 9)%N.
Definition feed_authorization (license_key : bytes) : option (option bytes) :=
  match license_key with
  | [] => Some None
  | _ => let val := lit "Bearer " ++ license_key in if forallb header_byte val then Some (Some val) else None
  end.

(** A message of the connection, [None] for an error of the stream: the buffer, and whether to read on. *)
Definition read_message (now : Z) (msg : option Message) (buf : FeedBuffer.t) : FeedBuffer.t * bool :=
  match msg with
  | Some (MText text) => (process_frame now text buf, true)
  | Some MClose | None => (buf, false)
  | Some (MPing _) | Some (MPong _) | Some MOther => (buf, true)
  end.
Fixpoint read_messages (msgs : list (Z * option Message)) (buf : FeedBuffer.t) : FeedBuffer.t :=
  match msgs with
  | [] => buf
  | (now, msg) :: msgs => let '(buf, go_on) := read_message now msg buf in if go_on then read_messages msgs buf else buf
  end.

(** One round of [run_feed_loop]: the connection, if one is made, then the wait. *)
Definition feed_round (conn : option (list (Z * option Message))) (st : FeedBuffer.t * Z) : FeedBuffer.t * Z :=
  let '(buf, backoff_secs) := st in
  let buf := match conn with Some msgs => read_messages msgs (FeedBuffer.set_connected true buf) | None => buf end in
  (FeedBuffer.set_connected false buf, Z.min (backoff_secs * 2) MAX_BACKOFF_SECS).

(** *** The stand-in for a node *)

Definition answered (v : jvalue) (id : jvalue) : RpcResponse.t := RpcResponse.mk (Some v) None id.
Definition refused (code : Z) (message : string) (id : jvalue) : RpcResponse.t := RpcResponse.mk None (Some (code, message)) id.

Definition respond_getblocktemplate (buf : FeedBuffer.t) (id : jvalue) : RpcResponse.t :=
  match FeedBuffer.block_template buf with
  | Some tpl => answered tpl id
  | None => refused (-28) "feed adapter: no template received yet" id
  end.
Definition respond_getmempoolinfo (buf : FeedBuffer.t) (id : jvalue) : RpcResponse.t :=
  match FeedBuffer.mempool_info buf with
  | Some info => answered info id
  | None => refused (-28) "feed adapter: no mempool info received yet" id
  end.
(** The ids of the transactions of a template that have one. *)
Definition template_ids (tpl : jvalue) : list string :=
  match jget tpl "transactions" ≫= jas_array with
  | Some arr => omap (fun tx => jget tx "txid" ≫= jas_str) arr
  | None => []
  end.
Definition respond_getrawmempool (buf : FeedBuffer.t) (id : jvalue) : RpcResponse.t :=
  match FeedBuffer.block_template buf with
  | Some tpl => answered (VArr (VText <$> template_ids tpl)) id
  | None => refused (-28) "feed adapter: no template received yet" id
  end.

Definition handle_jsonrpc (buf : FeedBuffer.t) (body : bytes) : Z * RpcResponse.t :=
  match request_from_str body with
  | None => (400, refused (-32700) "parse error" VNull)
  | Some req =>
      let id := RpcRequest.id req in
      let method := RpcRequest.method req in
      (200, if String.eqb method "getblocktemplate" then respond_getblocktemplate buf id
            else if String.eqb method "getmempoolinfo" then respond_getmempoolinfo buf id
            else if String.eqb method "getrawmempool" then respond_getrawmempool buf id
            else refused (-32601) "method not found" id)
  end.

(** [health]: the status and the age of the template in milliseconds. *)
Definition adapter_health (now : Z) (buf : FeedBuffer.t) : string * bool * option Z :=
  (if FeedBuffer.feed_connected buf then "ok"%string else "degraded"%string, FeedBuffer.feed_connected buf,
   (fun ts => clamp_u 64 (saturating_sub now ts / 1000000)) <$> FeedBuffer.last_template_ts buf).
End Adapter.

(** *** Its limit *)

Module RpcLimit.
Record t : Type := mk { limiter : RateLimiter.t IpAddr; per_minute : Z; rejected : Z }.
Definition MAX_TRACKED_PEERS : Z := 10000.
Definition RPC_SERVER_ERROR : Z := -32000.

Section Ops.
Context `{!IpOrder IpAddr}.
Definition new (per_minute : Z) : t := mk (RateLimiter.with_config MAX_TRACKED_PEERS None) per_minute 0.
Definition sweep (now : Z) (k : t) : Z * t := (rejected k, mk (RateLimiter.cleanup now (limiter k)) (per_minute k) 0).
(** [enforce]; the seconds of a refusal are those of the dashboard's. *)
Definition enforce (now : Z) (peer : IpAddr) (k : t) : result unit Z * t :=
  match RateLimiter.admit_at now (to_canonical peer) (per_minute k) (limiter k) with
  | (Ok _, l) => (Ok tt, mk l (per_minute k) (rejected k))
  | (Err wait, l) => (Err (retry_after_secs wait), mk l (per_minute k) (wrapping_add 64 (rejected k) 1))
  end.
End Ops.
End RpcLimit.

(** The JSON-RPC route and its limit, and the route of the health check. *)
Definition too_many_calls (retry_after : Z) : Z * Z * RpcResponse.t :=
  (429, retry_after, refused RpcLimit.RPC_SERVER_ERROR (ReasonCode.as_str ReasonCode.RateLimited) VNull).
Definition serve_rpc `{FeedJson, !IpOrder IpAddr} (now : Z) (peer : IpAddr) (body : bytes) (buf : FeedBuffer.t) (k : RpcLimit.t)
    : sum (Z * RpcResponse.t) (Z * Z * RpcResponse.t) * RpcLimit.t :=
  match RpcLimit.enforce now peer k with
  | (Ok _, k) => (inl (handle_jsonrpc buf body), k)
  | (Err secs, k) => (inr (too_many_calls secs), k)
  end.

(** ** Configurations and starts *)

Module FeedSection.
Record t : Type := mk {
  listen : string; rpc_url : string; rpc_user : string; rpc_pass : string; poll_interval_ms : Z; heartbeat_interval_ms : Z;
  channel_capacity : Z; max_connections : Z; max_connections_per_ip : Z }.
End FeedSection.
Module FeedServerConfig.
Record t : Type := mk { feed : FeedSection.t; license_pubkey : string }.
End FeedServerConfig.
Module AdapterSection.
Record t : Type := mk { listen : option string; feed_url : option string; license_key : option string; rate_limit_per_minute : option Z }.
Definition default : t := mk None None None None.
End AdapterSection.
Module AdapterConfig.
Record t : Type := mk { listen : string; feed_url : string; license_key : string; rate_limit_per_minute : Z }.
End AdapterConfig.

(** Structs from arrays. *)
Class FeedDocs : Type := {
  feed_of_else : string -> option FeedSection.t;
  auth_of_else : string -> option string;
  adapter_of_else : string -> option AdapterSection.t
}.

Inductive FeedConfigError : Type := CannotRead | CannotParse | NoRpcUrl | BadLimit.

(** [std::env::var]. *)
Inductive EnvVar : Type := EnvText (v : string) | NotPresent | NotUnicode.
Definition env_text (v : EnvVar) : option string := match v with EnvText s => Some s | _ => None end.

Definition feed_default_listen : string := "127.0.0.1:9200".
Definition default_poll_interval : Z := 3000.
Definition default_heartbeat_interval : Z := 15000.
Definition default_channel_capacity : Z := 64.
Definition feed_default_max_connections : Z := 256.
Definition feed_default_max_per_ip : Z := 16.
Definition ENV_RATE_LIMIT : string := "VELDRA_ADAPTER_RATE_LIMIT_PER_MINUTE".
Definition DEFAULT_RATE_LIMIT_PER_MINUTE : Z := 1200.

Section Config.
Context `{TomlDocs, FeedDocs}.
Variable env : string -> EnvVar.

Definition feed_of_table (t : gmap string toml) : option FeedSection.t :=
  listen ← field t "listen" feed_default_listen as_str;
  rpc_url ← need t "rpc_url" as_str;
  rpc_user ← field t "rpc_user" ""%string as_str;
  rpc_pass ← field t "rpc_pass" ""%string as_str;
  poll_interval_ms ← field t "poll_interval_ms" default_poll_interval (as_uint 64);
  heartbeat_interval_ms ← field t "heartbeat_interval_ms" default_heartbeat_interval (as_uint 64);
  channel_capacity ← field t "channel_capacity" default_channel_capacity (as_uint 64);
  max_connections ← field t "max_connections" feed_default_max_connections (as_uint 64);
  max_connections_per_ip ← field t "max_connections_per_ip" feed_default_max_per_ip (as_uint 64);
  Some (FeedSection.mk listen rpc_url rpc_user rpc_pass poll_interval_ms heartbeat_interval_ms channel_capacity max_connections
          max_connections_per_ip).

Definition auth_of_table (t : gmap string toml) : option string := field t "license_pubkey" ""%string as_str.

Definition feed_config_of_doc (t : gmap string toml) : option FeedServerConfig.t :=
  feed ← need t "feed" (as_struct feed_of_table feed_of_else);
  license_pubkey ← field t "auth" ""%string (as_struct auth_of_table auth_of_else);
  Some (FeedServerConfig.mk feed license_pubkey).

(** An override with a text, or with a number that parses. *)
Definition env_or (key : string) (v : string) : string := default v (env_text (env key)).
Definition env_u64_or (key : string) (n : Z) : Z := default n (v ← env_text (env key); parse_u64 (lit v)).

Definition feed_load (file : option string) : result FeedServerConfig.t FeedConfigError :=
  let? text := ok_or file CannotRead in
  let? doc := map_err (fun _ => CannotParse) (from_str text) in
  let? cfg := ok_or (feed_config_of_doc doc) CannotParse in
  let f := FeedServerConfig.feed cfg in
  let f := FeedSection.mk
    (env_or "VELDRA_FEED_LISTEN" (FeedSection.listen f))
    (env_or "VELDRA_FEED_RPC_URL" (FeedSection.rpc_url f))
    (env_or "VELDRA_FEED_RPC_USER" (FeedSection.rpc_user f))
    (env_or "VELDRA_FEED_RPC_PASS" (FeedSection.rpc_pass f))
    (env_u64_or "VELDRA_FEED_POLL_INTERVAL_MS" (FeedSection.poll_interval_ms f))
    (FeedSection.heartbeat_interval_ms f) (FeedSection.channel_capacity f)
    (env_u64_or "VELDRA_FEED_MAX_CONNECTIONS" (FeedSection.max_connections f))
    (env_u64_or "VELDRA_FEED_MAX_CONNECTIONS_PER_IP" (FeedSection.max_connections_per_ip f)) in
  let license_pubkey := env_or "VELDRA_LICENSE_PUBKEY" (FeedServerConfig.license_pubkey cfg) in
  if String.eqb (FeedSection.rpc_url f) "" then Err NoRpcUrl else Ok (FeedServerConfig.mk f license_pubkey).

Definition adapter_of_table (t : gmap string toml) : option AdapterSection.t :=
  listen ← field t "listen" None (as_some as_str);
  feed_url ← field t "feed_url" None (as_some as_str);
  license_key ← field t "license_key" None (as_some as_str);
  rate_limit_per_minute ← field t "rate_limit_per_minute" None (as_some (as_uint 32));
  Some (AdapterSection.mk listen feed_url license_key rate_limit_per_minute).

Definition rate_limit_per_minute (v : EnvVar) (file : option Z) : result Z FeedConfigError :=
  let? limit :=
    match v with
    | EnvText s => ok_or (Wizard.parse_uint (2 ^ 32 - 1) s) BadLimit
    | NotPresent => Ok (default DEFAULT_RATE_LIMIT_PER_MINUTE file)
    | NotUnicode => Err BadLimit
    end in
  if limit =? 0 then Err BadLimit else Ok limit.

(** [AdapterConfig::load]; [None] for no such file, [Some None] for one that cannot be read. *)
Definition adapter_load (file : option (option string)) : result AdapterConfig.t FeedConfigError :=
  let? sec :=
    match file with
    | Some contents =>
        let? text := ok_or contents CannotRead in
        let? doc := map_err (fun _ => CannotParse) (from_str text) in
        let? adapter := ok_or (field doc "adapter" None (as_some (as_struct adapter_of_table adapter_of_else))) CannotParse in
        Ok (default AdapterSection.default adapter)
    | None => Ok AdapterSection.default
    end in
  let? limit := rate_limit_per_minute (env ENV_RATE_LIMIT) (AdapterSection.rate_limit_per_minute sec) in
  let pick key dflt file := default dflt (match env_text (env key) with Some v => Some v | None => file end) in
  Ok (AdapterConfig.mk
        (pick "VELDRA_ADAPTER_LISTEN" "127.0.0.1:18444" (AdapterSection.listen sec))
        (pick "VELDRA_FEED_URL" "ws://127.0.0.1:9100/ws" (AdapterSection.feed_url sec))
        (pick "VELDRA_FEED_LICENSE_KEY" "" (AdapterSection.license_key sec)) limit)%string.

Inductive FeedRefusal : Type := FeedLoadFailed (e : FeedConfigError) | FeedBadListen | ChannelPanic | FeedNonLoopback | FeedBindFailed | NoCryptoProvider.

(** The guard on addresses that are not loopback, then the bind. *)
Definition bind_listener (bind : IpAddr -> bool) (addr : IpAddr) : result IpAddr FeedRefusal :=
  if negb (is_loopback addr) && negb (bool_decide (env_text (env "VELDRA_ALLOW_NON_LOOPBACK"%string) = Some "1"%string))
  then Err FeedNonLoopback
  else if bind addr then Ok addr else Err FeedBindFailed.

(** [tokio::time::interval] panics on zero, in the task that calls it. *)
Definition interval_runs (ms : Z) : bool := negb (ms =? 0).

(** What serves: the slots of the channel, whether the poller and the heartbeats are running, and the
    accept loop. *)
Definition feed_main (bind : IpAddr -> bool) (file : option string) : result (FeedServerConfig.t * IpAddr * Z * bool * bool * Accepting.t) FeedRefusal :=
  let? cfg := map_err FeedLoadFailed (feed_load file) in
  let f := FeedServerConfig.feed cfg in
  let? addr := ok_or (parse_with read_socket_addr (lit (FeedSection.listen f))) FeedBadListen in
  match broadcast_channel (FeedSection.channel_capacity f) with
  | Panics => Err ChannelPanic
  | Returns slots =>
      let? addr := bind_listener bind addr in
      Ok (cfg, addr, slots, interval_runs (FeedSection.poll_interval_ms f), interval_runs (FeedSection.heartbeat_interval_ms f),
          Accepting.new (FeedSection.max_connections_per_ip f))
  end.

(** [provider] says whether rustls has its provider. *)
Definition adapter_main `{!IpOrder IpAddr} (provider : bool) (bind : IpAddr -> bool) (file : option (option string))
    : result (AdapterConfig.t * IpAddr * FeedBuffer.t * RpcLimit.t) FeedRefusal :=
  let? _ := if provider then Ok tt else Err NoCryptoProvider in
  let? cfg := map_err FeedLoadFailed (adapter_load file) in
  let? addr := ok_or (parse_with read_socket_addr (lit (AdapterConfig.listen cfg))) FeedBadListen in
  let? addr := bind_listener bind addr in
  Ok (cfg, addr, FeedBuffer.empty, RpcLimit.new (AdapterConfig.rate_limit_per_minute cfg)).
End Config.

(** ** The two together *)

(** One adapter on one server: the poller's state, the subscription, whether the upgrade was made, what
    is on the way, and the adapter's buffer. *)
Module Link.
Record t : Type := mk { server : FeedState.t; chan : option Receiver.t; upgraded : bool; wire : list bytes; buf : FeedBuffer.t }.
Definition start : t := mk FeedState.new None false [] FeedBuffer.empty.
End Link.

Inductive feed_event : Type :=
| TemplatePolled (ts : Z) (reply : option HttpReply.t) | MempoolPolled (ts : Z) (reply : option HttpReply.t) | HeartbeatDue (ts : Z)
| Accepts | Handshakes (now : Z) | Relays | Delivers (now : Z) | Breaks.

Section Together.
Context `{FeedJson, Base64Crate, LicenseJson, Ed25519Crate}.
Variables (slots : Z) (validator : option VerifyingKey) (license_key : bytes).

(** The adapter's header as the server sees it. *)
Definition let_in (now : Z) : bool :=
  match feed_authorization license_key with
  | Some header => if on_request validator now header then true else false
  | None => false
  end.

Definition text_of (m : Message) : option bytes := match m with MText b => Some b | _ => None end.

Definition link_step (e : feed_event) (s : Link.t) : Link.t :=
  let sent frame server := Link.mk server (broadcast slots frame <$> Link.chan s) (Link.upgraded s) (Link.wire s) (Link.buf s) in
  match e with
  | TemplatePolled ts reply => let '(frame, server) := poll_template ts reply (Link.server s) in sent frame server
  | MempoolPolled ts reply => sent (poll_mempool ts reply) (Link.server s)
  | HeartbeatDue ts => sent (Some (heartbeat_frame ts)) (Link.server s)
  | Accepts =>
      match Link.chan s with
      | None => Link.mk (Link.server s) (Some Receiver.new) false [] (Link.buf s)
      | Some _ => s
      end
  | Handshakes now =>
      match Link.chan s with
      | Some r =>
          if Link.upgraded s then s
          else if let_in now
          then Link.mk (Link.server s) (Some r) true
                 (Link.wire s ++ match status_frame now (Link.server s) ≫= frame_to_string with Some msg => [msg] | None => [] end)
                 (FeedBuffer.set_connected true (Link.buf s))
          else Link.mk (Link.server s) None false [] (FeedBuffer.set_connected false (Link.buf s))
      | None => s
      end
  | Relays =>
      match Link.chan s with
      | Some r =>
          if Link.upgraded s
          then let '(got, r) := Receiver.recv r in
               Link.mk (Link.server s) (Some r) true (Link.wire s ++ omap text_of (relay_turn true (FromChannel got)).1) (Link.buf s)
          else s
      | None => s
      end
  | Delivers now =>
      match Link.wire s with
      | text :: rest => Link.mk (Link.server s) (Link.chan s) (Link.upgraded s) rest (read_message now (Some (MText text)) (Link.buf s)).1
      | [] => s
      end
  | Breaks => Link.mk (Link.server s) None false [] (FeedBuffer.set_connected false (Link.buf s))
  end.

Definition link_run (evs : list feed_event) (s : Link.t) : Link.t := foldl (fun s e => link_step e s) s evs.
End Together.

(** * Properties *)

(** ** What the adapter serves *)

(** The two answers a feed carries. *)
Inductive part : Type := Template | PoolInfo.
Definition part_type (p : part) : string := match p with Template => "blocktemplate" | PoolInfo => "mempoolinfo" end.
Definition held (p : part) (buf : FeedBuffer.t) : option jvalue :=
  match p with Template => FeedBuffer.block_template buf | PoolInfo => FeedBuffer.mempool_info buf end.

(** What the node gave for a part, poll by poll; [null] is no answer. *)
Definition answer_of (p : part) (e : feed_event) : option jvalue :=
  match p, e with
  | Template, TemplatePolled _ reply | PoolInfo, MempoolPolled _ reply =>
      match rpc_call reply with Ok d => some_value d | Err _ => None end
  | _, _ => None
  end.
Definition node_answers (p : part) (evs : list feed_event) : list jvalue := omap (answer_of p) evs.

(** The subscription stands and nothing was dropped from it, now and after each event. *)
Definition keeping (s : Link.t) : bool := match Link.chan s with Some r => Receiver.missed r =? 0 | None => false end.

Section Delivery.
Context `{FeedJsonLaws, Base64Crate, LicenseJson, Ed25519Crate}.
Variables (slots : Z) (validator : option VerifyingKey) (license_key : bytes).
#[local] Notation step := (link_step slots validator license_key).
#[local] Notation run := (link_run slots validator license_key).

Fixpoint steady (evs : list feed_event) (s : Link.t) : bool :=
  keeping s && match evs with [] => true | e :: evs => steady evs (step e s) end.

(** What a line of the feed says of a part, and the part once everything on the way has arrived. *)
Definition line_says (p : part) (line : bytes) : option jvalue :=
  f ← frame_from_str line; if String.eqb (FeedFrame.frame_type f) (part_type p) then FeedFrame.data f else None.
Definition newer (p : part) (v : option jvalue) (line : bytes) : option jvalue :=
  match line_says p line with Some d => Some d | None => v end.
Definition on_the_way (s : Link.t) : list bytes := Link.wire s ++ match Link.chan s with Some r => Receiver.pending r | None => [] end.
Definition caught_up (p : part) (s : Link.t) : option jvalue := foldl (newer p) (held p (Link.buf s)) (on_the_way s).

Lemma process_held p now line buf : held p (process_frame now line buf) = newer p (held p buf) line.
Proof.
  unfold process_frame, newer, line_says. destruct (frame_from_str line) as [f|]; [|done]. cbn [mbind option_bind].
  destruct f as [ty ts d]. cbn [FeedFrame.frame_type FeedFrame.data].
  destruct (String.eqb ty "blocktemplate") eqn:E1; [apply String.eqb_eq in E1 as ->; by destruct p, d|].
  destruct (String.eqb ty "mempoolinfo") eqn:E2; [apply String.eqb_eq in E2 as ->; by destruct p, d|].
  destruct p; cbn [part_type]; by rewrite ?E1, ?E2.
Qed.

Lemma frame_line p f line : frame_to_string f = Some line ->
  line_says p line = (if String.eqb (Frame.frame_type f) (part_type p) then some_value (Frame.data f) else None).
Proof. intros Hf%frame_round_trip. unfold line_says. by rewrite Hf. Qed.

(** A frame sent to a subscription that keeps up is the last on the way. *)
Lemma push_keeps line r : Receiver.missed r = 0 -> Receiver.missed (Receiver.push slots line r) = 0 ->
  Receiver.pending (Receiver.push slots line r) = Receiver.pending r ++ [line].
Proof. unfold Receiver.push. case_if; cbn [Receiver.missed Receiver.pending]; [lia|done]. Qed.

Lemma broadcast_caught_up p f r w v : Receiver.missed r = 0 -> Receiver.missed (broadcast slots (Some f) r) = 0 ->
  foldl (newer p) v (w ++ Receiver.pending (broadcast slots (Some f) r)) =
    (if String.eqb (Frame.frame_type f) (part_type p) then
       match some_value (Frame.data f) with Some d => Some d | None => foldl (newer p) v (w ++ Receiver.pending r) end
     else foldl (newer p) v (w ++ Receiver.pending r)).
Proof.
  unfold broadcast. cbn [mbind option_bind]. destruct (frame_serializes f) as [line Hl]. rewrite Hl. intros Hm Hp.
  rewrite (push_keeps line r Hm Hp), app_assoc, foldl_snoc. unfold newer at 1. rewrite (frame_line p f line Hl). by case_if.
Qed.

(** An event of a subscription that keeps up changes what will be held exactly when the node answered. *)
Lemma step_caught_up p e s : keeping s = true -> keeping (step e s) = true ->
  caught_up p (step e s) = match answer_of p e with Some d => Some d | None => caught_up p s end.
Proof.
  unfold keeping, caught_up, on_the_way. destruct s as [srv [r|] up w buf]; cbn [Link.chan]; [|done]. intros Hm%Z.eqb_eq.
  destruct e as [ts reply|ts reply|ts| |now| |now|]; cbn [link_step Link.chan Link.wire Link.buf Link.server Link.upgraded].
  - unfold poll_template, answer_of. destruct (rpc_call reply) as [d|] eqn:Hr; cbn [Link.chan Link.wire Link.buf fmap option_fmap option_map].
    + intros Hk%Z.eqb_eq. rewrite (broadcast_caught_up p _ _ _ _ Hm Hk). destruct p; cbn; by rewrite ?Hr.
    + intros _. by destruct p; rewrite ?Hr.
  - unfold poll_mempool, answer_of. destruct (rpc_call reply) as [d|] eqn:Hr; cbn [Link.chan Link.wire Link.buf fmap option_fmap option_map].
    + intros Hk%Z.eqb_eq. rewrite (broadcast_caught_up p _ _ _ _ Hm Hk). destruct p; cbn; by rewrite ?Hr.
    + intros _. by destruct p; rewrite ?Hr.
  - cbn [fmap option_fmap option_map]. intros Hk%Z.eqb_eq. rewrite (broadcast_caught_up p _ _ _ _ Hm Hk). by destruct p.
  - intros _. by destruct p.
  - destruct up; [by destruct p|]. case_if; [|done]. intros _. cbn [Link.chan Link.wire Link.buf].
    assert (held p (FeedBuffer.set_connected true buf) = held p buf) as -> by by destruct p.
    assert (answer_of p (Handshakes now) = None) as -> by by destruct p. rewrite <-app_assoc, !foldl_app. f_equal.
    unfold status_frame. destruct (FeedState.rpc_ok srv); [|done]. cbn [mbind option_bind].
    destruct (frame_to_string _) as [line|] eqn:Hf; [|done]. cbn [foldl]. unfold newer. rewrite (frame_line p _ _ Hf). by destruct p.
  - destruct up; [|by destruct p]. unfold Receiver.recv. rewrite Hm. cbn [Z.gtb Z.compare].
    destruct (Receiver.pending r) as [|line rest] eqn:Hp; cbn [relay_turn fst omap list_omap text_of Link.chan Link.wire Link.buf Receiver.pending]; intros _.
    + rewrite Hp, !app_nil_r. by destruct p.
    + rewrite <-app_assoc. by destruct p.
  - destruct w as [|line w]; cbn [Link.chan Link.wire Link.buf read_message fst]; intros _; [by destruct p|].
    rewrite process_held. by destruct p.
  - done.
Qed.

Lemma steady_caught_up p evs : forall s, steady evs s = true ->
  caught_up p (run evs s) = match last (node_answers p evs) with Some d => Some d | None => caught_up p s end.
Proof.
  induction evs as [|e evs IH]; intros s; cbn [steady]; intros [Hk Hs]%andb_prop; [done|]. change (run (e :: evs) s) with (run evs (step e s)).
  assert (keeping (step e s) = true) as Hk' by (destruct evs; cbn [steady] in Hs; by apply andb_prop in Hs as [? _]).
  rewrite (IH _ Hs), (step_caught_up p e s Hk Hk'). unfold node_answers. cbn [omap list_omap]. destruct (answer_of p e) as [d|] eqn:Ha.
  - rewrite last_cons. by destruct (last _).
  - done.
Qed.

(** Whatever is held or on the way came from the node, over an upgrade with a key. *)
Definition sourced (evs : list feed_event) (s : Link.t) : Prop :=
  (forall p d, held p (Link.buf s) = Some d -> d ∈ node_answers p evs) /\
  (forall p line d, line ∈ on_the_way s -> line_says p line = Some d -> d ∈ node_answers p evs) /\
  (Link.upgraded s = true \/ Link.wire s <> [] \/ (exists p, is_Some (held p (Link.buf s))) ->
     exists now, Handshakes now ∈ evs /\ let_in validator license_key now = true).

Lemma answers_snoc p evs e d : d ∈ node_answers p evs \/ answer_of p e = Some d -> d ∈ node_answers p (evs ++ [e]).
Proof.
  intros Hd. unfold node_answers. rewrite omap_app. apply elem_of_app. destruct Hd as [Hd|Hd]; [by left|right]. cbn [omap list_omap].
  rewrite Hd. by apply list_elem_of_singleton.
Qed.

(** What a frame adds to the way. *)
Lemma broadcast_pending f r line : line ∈ Receiver.pending (broadcast slots f r) ->
  line ∈ Receiver.pending r \/ exists f', f = Some f' /\ frame_to_string f' = Some line.
Proof.
  unfold broadcast. destruct f as [f|]; cbn [mbind option_bind]; [|by left]. destruct (frame_to_string f) as [l|] eqn:Hf; [|by left].
  unfold Receiver.push. case_if; cbn [Receiver.pending].
  - intros [Hl|Hl%list_elem_of_singleton]%elem_of_app; [left|right; subst; by eexists]. destruct (Receiver.pending r); [done|by right].
  - intros [Hl|Hl%list_elem_of_singleton]%elem_of_app; [by left|right; subst; by eexists].
Qed.

Lemma sent_sourced evs e f srv srv' ch up w buf : sourced evs (Link.mk srv ch up w buf) ->
  (forall p f' d, f = Some f' -> String.eqb (Frame.frame_type f') (part_type p) = true -> some_value (Frame.data f') = Some d -> answer_of p e = Some d) ->
  sourced (evs ++ [e]) (Link.mk srv' (broadcast slots f <$> ch) up w buf).
Proof.
  intros (Hh & Hw & Hu) Hf. split_and!.
  - intros p d Hd. apply answers_snoc. left. by apply Hh.
  - intros p line d [Hl|Hl]%elem_of_app Hd; cbn [Link.chan Link.wire] in Hl.
    + apply answers_snoc. left. apply (Hw p line d); [|done]. apply elem_of_app. by left.
    + destruct ch as [r|]; [|by apply not_elem_of_nil in Hl]. cbn [fmap option_fmap option_map] in Hl.
      apply answers_snoc. destruct (broadcast_pending f r line Hl) as [Hp|(f' & -> & Hs)].
      * left. apply (Hw p line d); [|done]. apply elem_of_app. by right.
      * right. rewrite (frame_line p f' line Hs) in Hd. case_if; [|done]. by apply (Hf p f').
  - intros Hc. destruct (Hu Hc) as (now & Hin & Hl). exists now. split; [|done]. apply elem_of_app. by left.
Qed.

(** Events that send nothing keep what is held and on the way, or lose it. *)
Lemma quiet_sourced evs e s s' : sourced evs s ->
  (forall p, held p (Link.buf s') = held p (Link.buf s)) -> (forall line p, line ∈ on_the_way s' -> line ∈ on_the_way s \/ line_says p line = None) ->
  (Link.upgraded s' = true \/ Link.wire s' <> [] -> (Link.upgraded s = true \/ Link.wire s <> []) \/ exists now, e = Handshakes now /\ let_in validator license_key now = true) ->
  sourced (evs ++ [e]) s'.
Proof.
  intros (Hh & Hw & Hu) Hb Hl Hup. split_and!.
  - intros p d. rewrite Hb. intros Hd. apply answers_snoc. left. by apply Hh.
  - intros p line d Hin Hd. destruct (Hl line p Hin) as [Ho|Hn]; [|congruence]. apply answers_snoc. left. by apply (Hw p line).
  - intros Hc. assert ((Link.upgraded s = true \/ Link.wire s <> [] \/ (exists p, is_Some (held p (Link.buf s)))) \/
      exists now, e = Handshakes now /\ let_in validator license_key now = true) as [Hs|(now & -> & Hn)].
    { destruct Hc as [Hc|[Hc|[p Hc]]]; [destruct (Hup (or_introl Hc)); tauto|destruct (Hup (or_intror Hc)); tauto|].
      left. right. right. exists p. by rewrite <-Hb. }
    + destruct (Hu Hs) as (now & Hin & Hn). exists now. split; [|done]. apply elem_of_app. by left.
    + exists now. split; [|done]. apply elem_of_app. right. by apply list_elem_of_singleton.
Qed.

Lemma handshake_sourced evs now s : sourced evs s -> sourced (evs ++ [Handshakes now]) (step (Handshakes now) s).
Proof.
  intros Hs. destruct s as [srv [r|] up w buf]; cbn [link_step Link.chan Link.upgraded]; [|by eapply quiet_sourced; eauto].
  destruct up; [by eapply quiet_sourced; eauto|]. case_if.
  - apply (quiet_sourced _ _ _ _ Hs); cbn [Link.buf Link.upgraded Link.wire Link.server]; [by intros []| |eauto].
    unfold on_the_way. cbn [Link.chan Link.wire Link.server]. intros line p. rewrite <-app_assoc.
    intros [Hl|[Hl|Hl]%elem_of_app]%elem_of_app; [left; apply elem_of_app; by left|right|left; apply elem_of_app; by right].
    unfold status_frame in Hl. destruct (FeedState.rpc_ok srv); [|by apply not_elem_of_nil in Hl]. cbn [mbind option_bind] in Hl.
    destruct (frame_to_string _) as [l|] eqn:Hf; [|by apply not_elem_of_nil in Hl]. apply list_elem_of_singleton in Hl as ->.
    rewrite (frame_line p _ _ Hf). by destruct p.
  - apply (quiet_sourced _ _ _ _ Hs); [by intros []|by intros line p ?%not_elem_of_nil|by intros [|]].
Qed.

Lemma relay_sourced evs s : sourced evs s -> sourced (evs ++ [Relays]) (step Relays s).
Proof.
  intros Hs. destruct s as [srv [r|] up w buf]; cbn [link_step Link.chan Link.upgraded]; [|by eapply quiet_sourced; eauto].
  destruct up; [|by eapply quiet_sourced; eauto]. unfold Receiver.recv. case_if; [|destruct (Receiver.pending r) as [|line rest] eqn:Hp];
    apply (quiet_sourced _ _ _ _ Hs); try (by intros []); try (by left; left);
    unfold on_the_way; cbn [relay_turn fst omap list_omap text_of Link.chan Link.wire Receiver.pending]; intros l p; rewrite ?app_nil_r; try by left.
  rewrite Hp, <-app_assoc. by left.
Qed.

Lemma deliver_sourced evs now s : sourced evs s -> sourced (evs ++ [Delivers now]) (step (Delivers now) s).
Proof.
  destruct s as [srv ch up [|line w] buf]; cbn [link_step Link.wire]; [by intros Hs; eapply quiet_sourced; eauto|].
  intros (Hh & Hw & Hu). cbn [Link.buf Link.upgraded Link.wire] in Hh, Hu. split_and!; cbn [Link.buf Link.upgraded Link.wire read_message fst].
  - intros p d. rewrite process_held. unfold newer. intros Hd. apply answers_snoc. left. destruct (line_says p line) as [d'|] eqn:Hl.
    + apply (inj Some) in Hd as <-. apply (Hw p line); [|done]. apply elem_of_app. left. by left.
    + by apply Hh.
  - intros p l d [Hl|Hl]%elem_of_app Hd; apply answers_snoc; left; apply (Hw p l); try done; apply elem_of_app; [left; by right|by right].
  - intros _. destruct Hu as (t & Hin & Ht); [by right; left|]. exists t. split; [|done]. apply elem_of_app. by left.
Qed.

Lemma step_sourced evs e s : sourced evs s -> sourced (evs ++ [e]) (step e s).
Proof.
  intros Hs. destruct e as [ts reply|ts reply|ts| |now| |now|].
  - destruct s as [srv ch up w buf]. cbn [link_step Link.server Link.chan Link.upgraded Link.wire Link.buf]. unfold poll_template, template_frame.
    destruct (rpc_call reply) as [d|] eqn:Hr; apply (sent_sourced evs _ _ _ _ _ _ _ _ Hs); [|done].
    intros p f' x [= <-]. cbn [Frame.frame_type Frame.data]. destruct p; [|done]. intros _ Hx. cbn [answer_of]. by rewrite Hr.
  - destruct s as [srv ch up w buf]. cbn [link_step Link.server Link.chan Link.upgraded Link.wire Link.buf]. unfold poll_mempool, mempool_frame.
    destruct (rpc_call reply) as [d|] eqn:Hr; apply (sent_sourced evs _ _ _ _ _ _ _ _ Hs); [|done].
    intros p f' x [= <-]. cbn [Frame.frame_type Frame.data]. destruct p; [done|]. intros _ Hx. cbn [answer_of]. by rewrite Hr.
  - destruct s as [srv ch up w buf]. apply (sent_sourced evs _ _ _ _ _ _ _ _ Hs). intros p f' x [= <-]. by destruct p.
  - cbn [link_step]. destruct (Link.chan s); [by eapply quiet_sourced; eauto|].
    apply (quiet_sourced _ _ _ _ Hs); [done|by intros line p ?%not_elem_of_nil|by intros [|]].
  - by apply handshake_sourced.
  - by apply relay_sourced.
  - by apply deliver_sourced.
  - apply (quiet_sourced _ _ _ _ Hs); [by intros []|by intros line p ?%not_elem_of_nil|by intros [|]].
Qed.

Lemma run_sourced evs : sourced evs (run evs Link.start).
Proof.
  induction evs as [|e evs IH] using rev_ind.
  - split_and!; [by intros []|by intros p line d ?%not_elem_of_nil|by intros [|[|[[] []]]]].
  - unfold link_run in *. rewrite foldl_snoc. by apply step_sourced.
Qed.

(** C8 The feed, from the node to the stand-in for one. Whatever the adapter holds, as a template or as
    information on the mempool, is an answer the node gave to the server's poller, and came over a
    connection that was let in with the adapter's key. A connection whose subscription dropped no frame,
    once everything sent on it was read, leaves the adapter with the node's last answer since the
    connection was accepted, or with what it held before when the node gave none; [getblocktemplate]
    then answers that template and [getrawmempool] exactly its ids. *)
Theorem feed_serves_the_node before after :
  let s0 := run before Link.start in
  let s := run (before ++ Accepts :: after) Link.start in
  (forall p d, held p (Link.buf s) = Some d ->
     d ∈ node_answers p (before ++ Accepts :: after) /\
     exists now, Handshakes now ∈ before ++ Accepts :: after /\ let_in validator license_key now = true) /\
  (Link.chan s0 = None -> steady after (step Accepts s0) = true -> on_the_way s = [] ->
     (forall p, held p (Link.buf s) = match last (node_answers p after) with Some d => Some d | None => held p (Link.buf s0) end) /\
     forall d body id, last (node_answers Template after) = Some d ->
       (request_from_str body = Some (RpcRequest.mk id "getblocktemplate") -> handle_jsonrpc (Link.buf s) body = (200, answered d id)) /\
       (request_from_str body = Some (RpcRequest.mk id "getrawmempool") ->
          handle_jsonrpc (Link.buf s) body = (200, answered (VArr (VText <$> template_ids d)) id))).
Proof.
  cbv zeta. set (s0 := run before Link.start). set (s := run (before ++ Accepts :: after) Link.start).
  destruct (run_sourced (before ++ Accepts :: after)) as (Hh & _ & Hu). split.
  - intros p d Hd. split; [by apply Hh|]. apply Hu. right. right. exists p. by eexists.
  - intros Hc Hs Hw.
    assert (s = run after (step Accepts s0)) as Hrun by (unfold s, s0, link_run; by rewrite foldl_app).
    assert (forall p, held p (Link.buf s) = match last (node_answers p after) with Some d => Some d | None => held p (Link.buf s0) end) as Ha.
    { intros p. pose proof (steady_caught_up p after _ Hs) as Hp. rewrite <-Hrun in Hp. unfold caught_up at 1 in Hp. rewrite Hw in Hp.
      cbn [foldl] in Hp. rewrite Hp. destruct (last _); [done|]. cbn [link_step]. by rewrite Hc. }
    split; [done|]. intros d body id Hd. pose proof (Ha Template) as Ht. rewrite Hd in Ht. cbn [held] in Ht.
    split; intros Hq; unfold handle_jsonrpc; rewrite Hq; cbn [RpcRequest.id RpcRequest.method String.eqb Ascii.eqb Bool.eqb];
      unfold respond_getblocktemplate, respond_getrawmempool; by rewrite Ht.
Qed.
End Delivery.

(** ** The accept loop *)

Section AcceptFacts.
Import Accepting.
Implicit Types s : Accepting.t.

(** Connections come, and their tasks return. *)
Inductive accept_step (max_conns : Z) : Accepting.t -> Accepting.t -> Prop :=
| accepting_comes i ip s : i ∉ Admission.id <$> live s -> accept_step max_conns s (accept max_conns i ip s)
| accepting_ends unwinds i s : accept_step max_conns s (task_ends unwinds i s).

Record accepting_ok (mpi : Z) s : Prop := {
  ac_config : PerIp.max_per_ip (tracker s) = mpi;
  ac_lock : PerIp.poisoned (tracker s) = false;
  ac_ids : NoDup (Admission.id <$> live s);
  ac_counts : counts_ok mpi (PerIp.counts (tracker s)) (live s);
  ac_per_ip : mpi <> 0 -> forall a, live_from a (live s) <= mpi
}.

Lemma accepting_new max_per_ip : accepting_ok (Z.min max_per_ip (2 ^ 32 - 1)) (Accepting.new max_per_ip) \/ max_per_ip < 0.
Proof.
  destruct (decide (max_per_ip < 0)) as [Hn|Hn]; [by right|left]. unfold Accepting.new, PerIp.new. split; cbn [tracker live PerIp.max_per_ip PerIp.poisoned PerIp.counts].
  - done.
  - done.
  - apply NoDup_nil_2.
  - unfold counts_ok. case_if; [done|]. intros a. by rewrite lookup_empty.
  - intros _ a. unfold live_from, lenZ. cbn. lia.
Qed.

Lemma accepting_step_ok mc mpi s s' : 0 <= mpi < 2 ^ 32 -> accept_step mc s s' -> accepting_ok mpi s -> accepting_ok mpi s'.
Proof.
  intros Hmpi [i a s0 Hi|unwinds i s0] Hok; destruct Hok as [Hc Hl Hid Hcnt Hper].
  - unfold accept. case_if; [done|]. pose proof (try_accept_spec mpi a (tracker s0) (live s0) Hmpi Hc Hl Hcnt) as Ht.
    destruct (PerIp.try_accept a (tracker s0)) as [[|] t']; destruct Ht as (Hm' & Hp' & Ht); cbn [negb]; [|by subst t'].
    destruct Ht as [Hcnt' Hlt]. split; cbn [tracker live]; try done.
    + rewrite fmap_cons. by constructor.
    + intros Hn b. rewrite live_from_cons. cbn [Admission.ip]. specialize (Hper Hn b). specialize (Hlt Hn). case_decide; [subst|]; lia.
  - unfold task_ends. destruct (head _) as [c|] eqn:Hh; [|done]. destruct (remove_conn i c (live s0) Hid Hh) as [Hr1 Hr2].
    destruct (drop_permit_config (Admission.ip c) (tracker s0)) as [Hx Hy]. split; cbn [tracker live].
    + by rewrite Hx.
    + by rewrite Hy.
    + by apply nodup_ids_filter.
    + by apply (drop_permit_spec mpi (Admission.ip c) (tracker s0) (live s0)).
    + intros Hn b. specialize (Hper Hn b). rewrite Hr1 in Hper. case_decide; lia.
Qed.

(** The count is what is live and what unwound. *)
Definition counts_active (mc leaked : Z) s : Prop :=
  0 <= leaked /\ active_conns s = lenZ (live s) + leaked /\ active_conns s <= mc /\ NoDup (Admission.id <$> live s).

Lemma accept_active mc leaked i ip s : 0 < mc < 2 ^ 64 -> i ∉ Admission.id <$> live s ->
  counts_active mc leaked s -> counts_active mc leaked (accept mc i ip s).
Proof.
  intros Hmc Hi (Hl & Ha & Hm & Hn). unfold accept. case_if; [done|]. destruct (PerIp.try_accept ip (tracker s)) as [[|] t']; cbn [negb]; [|done].
  unfold counts_active. cbn [active_conns live]. pose proof (lenZ_nonneg (live s)).
  assert (active_conns s < mc) by (apply andb_false_iff in E as [E|E]; z_bool; lia). unfold wrapping_add. rewrite Z.mod_small by lia.
  assert (lenZ (Admission.Conn i ip true :: live s) = lenZ (live s) + 1) as -> by (unfold lenZ; cbn [length]; lia).
  split_and!; [done|lia|lia|]. rewrite fmap_cons. by constructor.
Qed.

Lemma end_active mc leaked unwinds i s : 0 < mc < 2 ^ 64 -> counts_active mc leaked s ->
  exists leaked', counts_active mc leaked' (task_ends unwinds i s) /\ (unwinds = false -> leaked' = leaked).
Proof.
  intros Hmc (Hl & Ha & Hm & Hn). unfold task_ends. destruct (head _) as [c|] eqn:Hh; [|by exists leaked].
  destruct (remove_conn i c (live s) Hn Hh) as [_ Hr]. pose proof (lenZ_nonneg (filter (fun c => Admission.id c <> i) (live s))).
  exists (if unwinds then leaked + 1 else leaked). split; [|by destruct unwinds]. unfold counts_active. cbn [active_conns live].
  unfold wrapping_sub. destruct unwinds; [|rewrite Z.mod_small by lia]; (split_and!; [lia|lia|lia|by apply nodup_ids_filter]).
Qed.

(** Through any sequence of connections and ends, unwinding or not, the loop serves at most
    [max_connections] and, with a limit per address, at most that many from one. *)
Lemma feed_connections_bounded mc per_ip s : 0 < mc < 2 ^ 64 -> 0 <= per_ip -> rtc (accept_step mc) (Accepting.new per_ip) s ->
  lenZ (live s) <= mc /\ (per_ip <> 0 -> forall a, live_from a (live s) <= per_ip).
Proof.
  intros Hmc Hp Hr. set (mpi := Z.min per_ip (2 ^ 32 - 1)).
  assert (accepting_ok mpi s /\ exists leaked, counts_active mc leaked s) as [[_ _ _ _ Hper] [leaked (Hl & Ha & Hm & _)]].
  { eapply (rtc_invariant _ (fun s => accepting_ok mpi s /\ exists leaked, counts_active mc leaked s)); [|exact Hr|].
    - intros s1 s2 Hs [Hok [leaked Hact]]. split; [by eapply accepting_step_ok; [|exact Hs|]; [lia|]|]. destruct Hs as [i a s0 Hi|u i s0].
      + exists leaked. by apply accept_active.
      + destruct (end_active mc leaked u i s0 Hmc Hact) as (leaked' & Hact' & _). by exists leaked'.
    - split; [destruct (accepting_new per_ip); [done|lia]|]. exists 0. split_and!; [done|done|cbn; lia|apply NoDup_nil_2]. }
  split; [lia|]. intros Hn a. specialize (Hper ltac:(lia) a). lia.
Qed.

(** As long as no task unwinds, the count is the number served, so that room comes back. *)
Lemma returned_tasks_free mc per_ip s : 0 < mc < 2 ^ 64 ->
  rtc (fun s s' => (exists i ip, i ∉ Admission.id <$> live s /\ s' = accept mc i ip s) \/ exists i, s' = task_ends false i s) (Accepting.new per_ip) s ->
  active_conns s = lenZ (live s).
Proof.
  intros Hmc Hr. assert (counts_active mc 0 s) as (_ & Ha & _); [|lia]. eapply (rtc_invariant _ (counts_active mc 0)); [|exact Hr|].
  - intros s1 s2 [(i & ip & Hi & ->)|(i & ->)] Hact; [by apply accept_active|].
    destruct (end_active mc 0 false i s1 Hmc Hact) as (l & Hact' & Hl). by rewrite (Hl eq_refl) in Hact'.
  - split_and!; [done|done|cbn; lia|apply NoDup_nil_2].
Qed.
End AcceptFacts.

(** ** What can go wrong *)

(** The cap on the wait is reached after four rounds and is never left, however long a connection held. *)
Lemma backoff_never_resets `{FeedJson} conns buf b : 1 <= b -> 4 <= lenZ conns ->
  (foldl (fun st c => feed_round c st) (buf, b) conns).2 = MAX_BACKOFF_SECS.
Proof.
  intros Hb Hc. assert (forall l st, (foldl (fun st c => feed_round c st) st l).2 = foldl (fun b _ => Z.min (b * 2) MAX_BACKOFF_SECS) st.2 l) as Hf.
  { intros l. induction l as [|c l IH]; intros [bf w]; [done|]. cbn [foldl]. by rewrite IH. }
  rewrite Hf. cbn [snd]. unfold lenZ in Hc. destruct conns as [|c1 [|c2 [|c3 [|c4 l]]]]; cbn [length] in Hc; try lia. cbn [foldl].
  assert (Z.min (Z.min (Z.min (Z.min (b * 2) MAX_BACKOFF_SECS * 2) MAX_BACKOFF_SECS * 2) MAX_BACKOFF_SECS * 2) MAX_BACKOFF_SECS = MAX_BACKOFF_SECS) as ->
    by (unfold MAX_BACKOFF_SECS; lia).
  induction l as [|c l IH]; [done|]. apply IH. cbn [length] in *. lia.
Qed.

(** A feed without a public key lets nobody in, and nobody hears anything without a key. *)
Lemma no_key_no_feed `{FeedJson, Base64Crate, LicenseJson, Ed25519Crate} validator now header s w evs :
  handle_connection validator now header s w evs <> [] -> exists vk v, validator = Some vk /\ validate_signed now (token_of header) vk = Some v.
Proof.
  unfold handle_connection, on_request, validate_feed_key. destruct (token_of header) as [|c t]; [done|].
  destruct validator as [vk|]; [|done]. cbn [mbind option_bind]. destruct (validate_signed now (c :: t) vk) as [v|] eqn:Hv; [|done].
  intros _. by exists vk, v.
Qed.

(** What starts: a server has a channel and listens where it may; an adapter admits calls. *)
Lemma feed_main_sound `{TomlDocs, FeedDocs} env bind file cfg addr slots poller beats acc : feed_main env bind file = Ok (cfg, addr, slots, poller, beats, acc) ->
  bind addr = true /\ (is_loopback addr = true \/ env_text (env "VELDRA_ALLOW_NON_LOOPBACK"%string) = Some "1"%string) /\
  0 < FeedSection.channel_capacity (FeedServerConfig.feed cfg) /\ FeedSection.rpc_url (FeedServerConfig.feed cfg) <> ""%string.
Proof.
  unfold feed_main. destruct (feed_load env file) as [c|] eqn:Hl; [|done]. cbn [map_err result_bind].
  destruct (parse_with _ _) as [a|]; [|done]. cbn [ok_or result_bind]. unfold broadcast_channel. case_if; [done|].
  unfold bind_listener. destruct (is_loopback a) eqn:Hlo; cbn [negb andb]; [|case_bool_decide as Hg; cbn [negb]; [|done]];
    (destruct (bind a) eqn:Hb; [|done]); cbn [result_bind]; intros [= <- <- _ _ _ _]; apply orb_false_iff in E as [E _]; z_bool.
  all: split_and!; [done|tauto|lia|].
  all: unfold feed_load in Hl; repeat (match type of Hl with result_bind ?x _ = _ => destruct x; [cbn [result_bind] in Hl|done] end).
  all: match type of Hl with (if ?b then _ else _) = _ => destruct b eqn:Hu; [done|] end.
  all: injection Hl as <-; by apply String.eqb_neq.
Qed.

Lemma adapter_limit_positive `{TomlDocs, FeedDocs} env file cfg : adapter_load env file = Ok cfg ->
  AdapterConfig.rate_limit_per_minute cfg <> 0.
Proof.
  unfold adapter_load. destruct (match file with Some _ => _ | None => _ end) as [sec|]; [|done]. cbn [result_bind].
  unfold rate_limit_per_minute. destruct (match env ENV_RATE_LIMIT with EnvText _ => _ | _ => _ end) as [n|]; [|done]. cbn [result_bind].
  destruct (n =? 0) eqn:Hn; [done|]. cbn [result_bind]. intros [= <-]. cbn [AdapterConfig.rate_limit_per_minute]. by apply Z.eqb_neq.
Qed.

(** ** The adapter's limit *)

Section AdapterLimit.
Context `{!IpOrder IpAddr}.

(** Calls and sweeps at their times; the calls that were let through. *)
Inductive limit_event : Type := Calls (now : Z) (peer : IpAddr) | Sweeps (now : Z).
Definition limit_op (m : Z) (e : limit_event) : @limiter_op IpAddr :=
  match e with Calls now peer => Admit now (to_canonical peer) m | Sweeps now => Cleanup now end.
Fixpoint let_through (evs : list limit_event) (k : RpcLimit.t) : list (Z * IpAddr) :=
  match evs with
  | [] => []
  | Calls now peer :: evs =>
      match RpcLimit.enforce now peer k with
      | (Ok _, k) => (now, to_canonical peer) :: let_through evs k
      | (Err _, k) => let_through evs k
      end
  | Sweeps now :: evs => let_through evs (RpcLimit.sweep now k).2
  end.

Lemma let_through_admitted evs : forall k, let_through evs k = admitted (limit_op (RpcLimit.per_minute k) <$> evs) (RpcLimit.limiter k).
Proof.
  induction evs as [|[now peer|now] evs IH]; intros k; [done| |]; rewrite fmap_cons; cbn [let_through limit_op admitted]; [|apply IH].
  unfold RpcLimit.enforce. destruct (RateLimiter.admit_at _ _ _ _) as [[u|w] l]; by rewrite IH.
Qed.

(** Of the calls of a peer that are answered, any [m + 1] in a row span a minute, as long as no more
    peers call than are tracked; an address written as IPv4-mapped is the peer it maps. *)
Lemma peer_budget (S : gset IpAddr) m evs peer i t1 t2 : Z.of_nat (size S) <= RpcLimit.MAX_TRACKED_PEERS ->
  Limits.in_order (limit_op m <$> evs) -> (forall now p, Calls now p ∈ evs -> to_canonical p ∈ S) ->
  of_ip (to_canonical peer) (let_through evs (RpcLimit.new m)) !! i = Some t1 ->
  of_ip (to_canonical peer) (let_through evs (RpcLimit.new m)) !! (i + Z.to_nat m)%nat = Some t2 -> t2 - t1 >= 60 * 1000000000.
Proof.
  intros Hs Ho Hc. rewrite (let_through_admitted evs). apply (per_ip_rate S); [done|done|]. apply Forall_fmap, Forall_forall.
  intros [now p|now] Hin; cbn; [|done]. split; [by apply (Hc now)|done].
Qed.
End AdapterLimit.

(** * A feed of two templates *)

Module FeedSample.
(** Frames as the number of their contents. *)
#[local] Notation tree := (gen_tree (string + Z)).
Fixpoint to_tree (v : jvalue) : tree :=
  match v with
  | VNull => GenNode 0 []
  | VBool b => GenNode 1 [GenLeaf (inr (if b then 1 else 0))]
  | VNum z => GenNode 2 [GenLeaf (inr z)]
  | VElse s => GenNode 3 [GenLeaf (inl s)]
  | VText s => GenNode 4 [GenLeaf (inl s)]
  | VArr l => GenNode 5 (map to_tree l)
  | VObj l => GenNode 6 (map (fun kv => GenNode 0 [GenLeaf (inl kv.1); to_tree kv.2]) l)
  end.
Fixpoint of_tree (t : tree) : jvalue :=
  match t with
  | GenNode 1 [GenLeaf (inr z)] => VBool (z =? 1)
  | GenNode 2 [GenLeaf (inr z)] => VNum z
  | GenNode 3 [GenLeaf (inl s)] => VElse s
  | GenNode 4 [GenLeaf (inl s)] => VText s
  | GenNode 5 l => VArr (map of_tree l)
  | GenNode 6 l => VObj (map (fun t => match t with GenNode _ [GenLeaf (inl k); v] => (k, of_tree v) | _ => (""%string, VNull) end) l)
  | _ => VNull
  end.
Fixpoint of_to_tree (v : jvalue) : of_tree (to_tree v) = v.
Proof.
  destruct v as [|[]| | | |l|l]; try reflexivity; cbn [to_tree of_tree]; f_equal; rewrite map_map.
  - induction l as [|v l IH]; [reflexivity|]. cbn [map]. f_equal; [apply of_to_tree|exact IH].
  - induction l as [|[k v] l IH]; [reflexivity|]. cbn [map fst snd]. f_equal; [f_equal; apply of_to_tree|exact IH].
Qed.

Definition json : FeedJson := {|
  frame_to_string f := Some (LicenseSample.bits_of (encode (Frame.frame_type f, Frame.ts f, to_tree (Frame.data f))));
  frame_from_str b :=
    match decode (LicenseSample.of_bits b) with
    | Some (ty, ts, t) => Some (FeedFrame.mk ty (Some ts) (some_value (of_tree t)))
    | None => None
    end;
  request_from_str b := Some (RpcRequest.mk (VNum 1) (String.string_of_list_byte b)) |}.
Lemma feed_json_laws : @FeedJsonLaws json.
Proof.
  split; cbn [frame_to_string frame_from_str json]; [by eexists|]. intros f b [= <-].
  by rewrite LicenseSample.of_bits_of, decode_encode, of_to_tree.
Qed.
#[local] Existing Instances json feed_json_laws LicenseSample.base64 LicenseSample.json LicenseSample.ed25519.

Definition template (ids : list string) : jvalue :=
  VObj [("height"%string, VNum 800000); ("transactions"%string, VArr ((fun id => VObj [("txid"%string, VText id)]) <$> ids))].
Definition reply (v : jvalue) : option HttpReply.t := Some (HttpReply.mk 200 (Some (VObj [("result"%string, v); ("error"%string, VNull)]))).
Definition first : jvalue := template ["aa"]%string.
Definition second : jvalue := template ["bb"; "cc"]%string.

Definition before : list feed_event := [TemplatePolled 5 (reply first)].
Definition after : list feed_event :=
  [MempoolPolled 6 (reply (VObj [])); Handshakes 2000; Relays; TemplatePolled 7 None; Delivers 1; TemplatePolled 8 (reply second);
   HeartbeatDue 9; Relays; Delivers 2; Relays; Delivers 3; Delivers 4; Relays].

#[local] Notation link evs := (link_run 64 (Some LicenseSample.seed) LicenseSample.issued evs Link.start).

Lemma feed_serves_the_node_witness :
  held Template (Link.buf (link (before ++ Accepts :: after))) = Some second /\
  held PoolInfo (Link.buf (link (before ++ Accepts :: after))) = Some (VObj []) /\
  handle_jsonrpc (Link.buf (link (before ++ Accepts :: after))) (lit "getrawmempool") =
    (200, answered (VArr [VText "bb"; VText "cc"]) (VNum 1)) /\
  second ∈ node_answers Template (before ++ Accepts :: after).
Proof.
  destruct (feed_serves_the_node (H3 := LicenseSample.ed25519) 64 (Some LicenseSample.seed) LicenseSample.issued before after) as [Hs Hl].
  destruct Hl as [Hh Hr]; [vm_compute; reflexivity..|].
  assert (last (node_answers Template after) = Some second) as Ht by (vm_compute; reflexivity).
  assert (last (node_answers PoolInfo after) = Some (VObj [])) as Hp by (vm_compute; reflexivity).
  pose proof (Hh Template) as HT. pose proof (Hh PoolInfo) as HP. rewrite Ht in HT. rewrite Hp in HP. split_and!; [exact HT|exact HP| |].
  - refine (proj2 (Hr second (lit "getrawmempool") (VNum 1) Ht) _). vm_compute; reflexivity.
  - exact (proj1 (Hs Template second HT)).
Defined.

(** A full channel drops a template: with one slot, the frame on the mempool takes its place. *)
Lemma full_channel_loses_template :
  held Template (Link.buf (link_run 1 (Some LicenseSample.seed) LicenseSample.issued
    [Accepts; Handshakes 2000; TemplatePolled 5 (reply first); MempoolPolled 5 (reply (VObj [])); Relays; Relays; Delivers 1; Relays] Link.start)) = None.
Proof. vm_compute; reflexivity. Qed.

(** The first frame of a connection carries no template: an adapter that connects between two polls
    answers that it has none, though the server had one. *)
Lemma first_frame_is_no_template :
  let s := link [TemplatePolled 5 (reply first); MempoolPolled 5 None; Accepts; Handshakes 2000; Delivers 1; Relays] in
  FeedState.rpc_ok (Link.server s) = true /\
  handle_jsonrpc (Link.buf s) (lit "getblocktemplate") = (200, refused (-28) "feed adapter: no template received yet" (VNum 1)).
Proof. split; vm_compute; reflexivity. Qed.

(** The synthetic mempool is that of the template held when it is asked for: a template taken from the
    same adapter after the next frame is not within it, and the check of the mempool refuses it. *)
Definition hex_template (c : byte) : jvalue := template [String.string_of_list_byte (replicate 64 c)].
#[local] Existing Instances HexSample.crate RpcSample.node.
Definition polled (v : jvalue) : result (list txid_t) ClientError := txids_to_internal_order (template_ids v).
Lemma polled_older : polled (hex_template x61) = Ok [replicate 32 xaa].
Proof. vm_compute; reflexivity. Qed.
Lemma polled_later : polled (hex_template x62) = Ok [replicate 32 xbb].
Proof. vm_compute; reflexivity. Qed.
Lemma mempool_behind_template :
  let view := MempoolView.poll_once (MempoolView.new 60) (polled (hex_template x61)) 1000 in
  exists ids, polled (hex_template x62) = Ok ids /\
  mempool_evaluate (MempoolView.snapshot 1500 view) ids default_mempool_tolerance_pct = ToleranceExceeded ids 1.
Proof. cbv zeta. exists [replicate 32 xbb]. split; [exact polled_later|]. rewrite polled_older. vm_compute; reflexivity. Qed.

(** A task that unwinds keeps its place among the active ones: the only one of a server that allows one,
    after which nobody is served. *)
Lemma unwinding_leaks :
  let s := Accepting.accept 1 2 (V4 [10; 0; 0; 2]) (Accepting.task_ends true 1 (Accepting.accept 1 1 (V4 [10; 0; 0; 1]) (Accepting.new 16))) in
  Accepting.live s = [] /\ Accepting.active_conns s = 1 /\ PerIp.count_for (V4 [10; 0; 0; 1]) (Accepting.tracker s) = 0.
Proof. split_and!; vm_compute; reflexivity. Qed.

(** An at sign in the password ends the redaction there. *)
Lemma redaction_leaks_password :
  redact_url_credentials (lit "http://rpc:p@ssword@10.0.0.1:8332") = lit "http://***@ssword@10.0.0.1:8332".
Proof. vm_compute; reflexivity. Qed.
End FeedSample.
