(* ===== verification/CommonConfig.v ===== *)
(** * The shared configuration of the HTTP middleware

    Models [services/reservegrid-common/src/config.rs]: the policy table with its defaults, validation
    and overrides, the secrets of the environment, and the scan of a document for secrets; and
    [redacted.rs]. The base 2 logarithm of the platform, on which the entropy of a text is reckoned, is
    an argument. *)

From S2P Require Import Prelude Crates Float64 Policy Limits License Auth Middleware PolicyFile GatewayConf DashboardLimit.

(** ** The policy table *)

Module CommonPolicy.
Record t : Type := mk {
  max_template_age_secs : Z; max_sigops : Z; max_weight : Z; rate_limit_requests_per_sec : Z; rate_limit_burst : Z;
  tls_mode : TlsMode; api_auth_mode : ApiAuthMode; max_request_body_bytes : Z; max_connections : Z; request_timeout_secs : Z;
  handler_deadline_secs : Z; max_panics_per_minute : Z; shutdown_drain_secs : Z; upstream_health_interval_secs : Z;
  request_timestamp_window_secs : Z; nonce_cache_size : Z; min_response_delay_ms : Z; data_dir : string }.
End CommonPolicy.

Definition default_max_request_body_bytes : Z := 1048576.
Definition common_default_max_connections : Z := 1024.
Definition default_request_timeout_secs : Z := 30.
Definition default_handler_deadline_secs : Z := 10.
Definition default_max_panics_per_minute : Z := 5.
Definition default_shutdown_drain_secs : Z := 30.
Definition default_upstream_health_interval_secs : Z := 30.
Definition default_request_timestamp_window_secs : Z := 30.
Definition default_nonce_cache_size : Z := 100000.
Definition default_min_response_delay_ms : Z := 50.

Inductive CommonError : Type :=
| MaxTemplateAgeZero (n : Z) | MaxSigopsZero (n : Z) | MaxWeightZero (n : Z) | RateLimitZero (n : Z) | BurstBelowRate (rps burst : Z)
| RequestTimeoutZero (n : Z) | DeadlineExceedsTimeout (deadline timeout : Z) | DataDirInvalid (path : string) | MaxRequestBodyZero (n : Z)
| NonceCacheZero (n : Z) | TomlParse | SecretInToml (key : string).

(** The table from an array. *)
Class CommonDocs : Type := { common_of_else : string -> option CommonPolicy.t }.

Definition COMMON_FIELDS : list string :=
  ["max_template_age_secs"; "max_sigops"; "max_weight"; "rate_limit_requests_per_sec"; "rate_limit_burst"; "tls_mode"; "api_auth_mode";
   "max_request_body_bytes"; "max_connections"; "request_timeout_secs"; "handler_deadline_secs"; "max_panics_per_minute";
   "shutdown_drain_secs"; "upstream_health_interval_secs"; "request_timestamp_window_secs"; "nonce_cache_size";
   "min_response_delay_ms"; "data_dir"]%string.

Section Reading.
Context `{TomlDocs, GatewayDocs, CommonDocs}.

Definition as_tls_mode : toml -> option TlsMode :=
  as_variant [("required", TlsRequired); ("optional_local_only", OptionalLocalOnly)]%string.
Definition as_api_auth_mode : toml -> option ApiAuthMode :=
  as_variant [("bearer_token", BearerToken); ("hmac_sha256", HmacSha256)]%string.

Definition common_of_table (t : gmap string toml) : option CommonPolicy.t :=
  if negb (known_only COMMON_FIELDS t) then None
  else
    max_template_age_secs ← need t "max_template_age_secs" (as_uint 64);
    max_sigops ← need t "max_sigops" (as_uint 32);
    max_weight ← need t "max_weight" (as_uint 64);
    rate_limit_requests_per_sec ← need t "rate_limit_requests_per_sec" (as_uint 32);
    rate_limit_burst ← need t "rate_limit_burst" (as_uint 32);
    tls_mode ← field t "tls_mode" TlsRequired as_tls_mode;
    api_auth_mode ← need t "api_auth_mode" as_api_auth_mode;
    max_request_body_bytes ← field t "max_request_body_bytes" default_max_request_body_bytes (as_uint 64);
    max_connections ← field t "max_connections" common_default_max_connections (as_uint 32);
    request_timeout_secs ← field t "request_timeout_secs" default_request_timeout_secs (as_uint 32);
    handler_deadline_secs ← field t "handler_deadline_secs" default_handler_deadline_secs (as_uint 32);
    max_panics_per_minute ← field t "max_panics_per_minute" default_max_panics_per_minute (as_uint 32);
    shutdown_drain_secs ← field t "shutdown_drain_secs" default_shutdown_drain_secs (as_uint 32);
    upstream_health_interval_secs ← field t "upstream_health_interval_secs" default_upstream_health_interval_secs (as_uint 32);
    request_timestamp_window_secs ← field t "request_timestamp_window_secs" default_request_timestamp_window_secs (as_uint 32);
    nonce_cache_size ← field t "nonce_cache_size" default_nonce_cache_size (as_uint 32);
    min_response_delay_ms ← field t "min_response_delay_ms" default_min_response_delay_ms (as_uint 32);
    data_dir ← need t "data_dir" as_str;
    Some (CommonPolicy.mk max_template_age_secs max_sigops max_weight rate_limit_requests_per_sec rate_limit_burst tls_mode api_auth_mode
            max_request_body_bytes max_connections request_timeout_secs handler_deadline_secs max_panics_per_minute shutdown_drain_secs
            upstream_health_interval_secs request_timestamp_window_secs nonce_cache_size min_response_delay_ms data_dir).

Definition from_toml (toml_text : string) : result CommonPolicy.t CommonError :=
  let? doc := map_err (fun _ => TomlParse) (from_str toml_text) in
  ok_or (need doc "policy" (as_struct common_of_table common_of_else)) TomlParse.
End Reading.

(** [validate]; [is_dir] is the file system. *)
Definition common_validate (is_dir : string -> bool) (c : CommonPolicy.t) : result unit CommonError :=
  if CommonPolicy.max_template_age_secs c =? 0 then Err (MaxTemplateAgeZero (CommonPolicy.max_template_age_secs c))
  else if CommonPolicy.max_sigops c =? 0 then Err (MaxSigopsZero (CommonPolicy.max_sigops c))
  else if CommonPolicy.max_weight c =? 0 then Err (MaxWeightZero (CommonPolicy.max_weight c))
  else if CommonPolicy.rate_limit_requests_per_sec c =? 0 then Err (RateLimitZero (CommonPolicy.rate_limit_requests_per_sec c))
  else if CommonPolicy.rate_limit_burst c <? CommonPolicy.rate_limit_requests_per_sec c
  then Err (BurstBelowRate (CommonPolicy.rate_limit_requests_per_sec c) (CommonPolicy.rate_limit_burst c))
  else if CommonPolicy.request_timeout_secs c =? 0 then Err (RequestTimeoutZero (CommonPolicy.request_timeout_secs c))
  else if CommonPolicy.handler_deadline_secs c >? CommonPolicy.request_timeout_secs c
  then Err (DeadlineExceedsTimeout (CommonPolicy.handler_deadline_secs c) (CommonPolicy.request_timeout_secs c))
  else if CommonPolicy.max_request_body_bytes c =? 0 then Err (MaxRequestBodyZero (CommonPolicy.max_request_body_bytes c))
  else if CommonPolicy.nonce_cache_size c =? 0 then Err (NonceCacheZero (CommonPolicy.nonce_cache_size c))
  else if negb (is_dir (CommonPolicy.data_dir c)) then Err (DataDirInvalid (CommonPolicy.data_dir c))
  else Ok tt.

(** [apply_env_overrides]; a variable that is no number of the field's width is passed over. *)
Definition override (max : Z) (env : gmap string string) (key : string) (n : Z) : Z :=
  default n (v ← env !! key; Wizard.parse_uint max v).
Definition apply_env_overrides (env : gmap string string) (c : CommonPolicy.t) : CommonPolicy.t :=
  let u64 := override (2 ^ 64 - 1) env in
  let u32 := override (2 ^ 32 - 1) env in
  CommonPolicy.mk
    (u64 "VELDRA_MAX_TEMPLATE_AGE_SECS" (CommonPolicy.max_template_age_secs c))
    (u32 "VELDRA_MAX_SIGOPS" (CommonPolicy.max_sigops c))
    (u64 "VELDRA_MAX_WEIGHT" (CommonPolicy.max_weight c))
    (u32 "VELDRA_RATE_LIMIT_RPS" (CommonPolicy.rate_limit_requests_per_sec c))
    (u32 "VELDRA_RATE_LIMIT_BURST" (CommonPolicy.rate_limit_burst c))
    (CommonPolicy.tls_mode c) (CommonPolicy.api_auth_mode c)
    (u64 "VELDRA_MAX_REQUEST_BODY_BYTES" (CommonPolicy.max_request_body_bytes c))
    (u32 "VELDRA_MAX_CONNECTIONS" (CommonPolicy.max_connections c))
    (u32 "VELDRA_REQUEST_TIMEOUT_SECS" (CommonPolicy.request_timeout_secs c))
    (u32 "VELDRA_HANDLER_DEADLINE_SECS" (CommonPolicy.handler_deadline_secs c))
    (u32 "VELDRA_MAX_PANICS_PER_MINUTE" (CommonPolicy.max_panics_per_minute c))
    (u32 "VELDRA_SHUTDOWN_DRAIN_SECS" (CommonPolicy.shutdown_drain_secs c))
    (u32 "VELDRA_UPSTREAM_HEALTH_INTERVAL_SECS" (CommonPolicy.upstream_health_interval_secs c))
    (u32 "VELDRA_REQUEST_TIMESTAMP_WINDOW_SECS" (CommonPolicy.request_timestamp_window_secs c))
    (u32 "VELDRA_NONCE_CACHE_SIZE" (CommonPolicy.nonce_cache_size c))
    (u32 "VELDRA_MIN_RESPONSE_DELAY_MS" (CommonPolicy.min_response_delay_ms c))
    (default (CommonPolicy.data_dir c) (env !! "VELDRA_DATA_DIR"))%string.

(** ** Secrets *)

(** [Redacted]: both texts of a value are the same whatever it is. *)
Module Redacted.
Record t (A : Type) : Type := new { inner : A }.
Arguments new {A} inner.
Arguments inner {A} _.
Definition debug {A} (_ : t A) : string := "[REDACTED]".
Definition display {A} (_ : t A) : string := "[REDACTED]".
End Redacted.

Definition MIN_API_KEY_BYTES : Z := 32.
Definition MIN_API_KEY_HEX_LEN : Z := MIN_API_KEY_BYTES * 2.

Module Secrets.
Record t : Type := mk {
  api_secret : option (Redacted.t string); api_secret_previous : option (Redacted.t string); hmac_key : option (Redacted.t string) }.
Definition debug (s : t) : list (string * option string) :=
  [("api_secret", (fun _ => "[REDACTED]") <$> api_secret s); ("api_secret_previous", (fun _ => "[REDACTED]") <$> api_secret_previous s);
   ("hmac_key", (fun _ => "[REDACTED]") <$> hmac_key s)]%string.
End Secrets.

Inductive SecretName : Type := ApiSecret | ApiSecretPrevious | HmacKey.
Inductive SecretError : Type :=
| TooShort (name : SecretName) (got min : Z) | NotHex (name : SecretName) | BearerTokenMissingSecret | HmacMissingKey.

Definition validate_hex_key (val : string) (min_hex_len : Z) : result unit (Z * bool) :=
  if strlen val <? min_hex_len then Err (strlen val, true)
  else if negb (is_hex val) then Err (strlen val, false)
  else Ok tt.

(** A variable that is set has to hold a key. *)
Definition check_key_of (name : SecretName) (v : option string) : result unit SecretError :=
  match v with
  | Some val =>
      map_err (fun e : Z * bool => if snd e then TooShort name (fst e) MIN_API_KEY_HEX_LEN else NotHex name) (validate_hex_key val MIN_API_KEY_HEX_LEN)
  | None => Ok tt
  end.

Definition from_env (auth_mode : ApiAuthMode) (env : gmap string string) : result Secrets.t SecretError :=
  let api_secret := env !! "VELDRA_API_SECRET"%string in
  let api_secret_previous := env !! "VELDRA_API_SECRET_PREVIOUS"%string in
  let hmac_key := env !! "VELDRA_HMAC_KEY"%string in
  let? _ := check_key_of ApiSecret api_secret in
  let? _ := check_key_of ApiSecretPrevious api_secret_previous in
  let? _ := check_key_of HmacKey hmac_key in
  let? _ :=
    match auth_mode with
    | BearerToken => if api_secret then Ok tt else Err BearerTokenMissingSecret
    | HmacSha256 => if hmac_key then Ok tt else Err HmacMissingKey
    end in
  Ok (Secrets.mk (Redacted.new <$> api_secret) (Redacted.new <$> api_secret_previous) (Redacted.new <$> hmac_key)).

(** ** Secrets in a document *)

Section Scan.
(** [f64::log2]. *)
Variable log2 : f64 -> f64.

Definition f64_neg (a : f64) : f64 := SpecFloat.SFopp a.

(** The sum over the bytes that occur, in their order. *)
Definition entropy (value : bytes) : f64 :=
  foldl (fun sum b =>
    let count := lenZ (filter (fun c => byte_to_Z c = Z.of_nat b) value) in
    if count >? 0 then let p := f64_div (f64_of_Z count) (f64_of_Z (lenZ value)) in f64_add sum (f64_mul (f64_neg p) (log2 p)) else sum)
    (f64_neg f64_zero) (seq 0 256).

Definition looks_like_secret (value : string) : bool :=
  if strlen value <? 32 then false
  else if (strlen value >=? MIN_API_KEY_HEX_LEN) && is_hex value then true
  else f64_gt (entropy (lit value)) (f64_lit 9 2).

Definition suspect_names : list string := ["key"; "secret"; "token"; "password"; "credential"]%string.
Definition suspect (key : string) : bool :=
  let lower := DeployMode.to_ascii_lowercase key in
  existsb (fun n => contains (String.list_ascii_of_string n) (String.list_ascii_of_string lower)) suspect_names.

(** The entries that give the refusal, with the keys that lead to them. *)
Fixpoint toml_secrets (v : toml) (path : list string) : list (list string) :=
  match v with
  | TomlTab t =>
      map_fold (fun key child out =>
        match child with
        | TomlStr s => (if suspect key && looks_like_secret s then [path ++ [key]] else []) ++ out
        | TomlTab _ => toml_secrets child (path ++ [key]) ++ out
        | _ => out
        end) [] t
  | _ => []
  end.

(** A table is walked in the order of its keys: the first entry is the least path. *)
Fixpoint path_le (a b : list string) : bool :=
  match a, b with
  | [], _ => true
  | _ :: _, [] => false
  | x :: a, y :: b => if String.eqb x y then path_le a b else String.leb x y
  end.
Fixpoint least_path (l : list (list string)) : option (list string) :=
  match l with
  | [] => None
  | p :: l => match least_path l with Some q => Some (if path_le p q then p else q) | None => Some p end
  end.

Definition walk_toml_for_secrets (table : gmap string toml) : result unit CommonError :=
  match least_path (toml_secrets (TomlTab table) []) with
  | Some path => Err (SecretInToml (foldl dotted ""%string path))
  | None => Ok tt
  end.

Definition check_toml_for_secrets `{TomlDocs} (toml_text : string) : result unit CommonError :=
  let? table := map_err (fun _ => TomlParse) (from_str toml_text) in
  walk_toml_for_secrets table.
End Scan.

(** * Properties *)

(** ** Validation *)

(** The configurations that pass. *)
Definition common_admissible (is_dir : string -> bool) (c : CommonPolicy.t) : Prop :=
  CommonPolicy.max_template_age_secs c <> 0 /\ CommonPolicy.max_sigops c <> 0 /\ CommonPolicy.max_weight c <> 0 /\
  CommonPolicy.rate_limit_requests_per_sec c <> 0 /\ CommonPolicy.rate_limit_requests_per_sec c <= CommonPolicy.rate_limit_burst c /\
  CommonPolicy.request_timeout_secs c <> 0 /\ CommonPolicy.handler_deadline_secs c <= CommonPolicy.request_timeout_secs c /\
  CommonPolicy.max_request_body_bytes c <> 0 /\ CommonPolicy.nonce_cache_size c <> 0 /\ is_dir (CommonPolicy.data_dir c) = true.

Lemma common_validate_iff is_dir c : common_validate is_dir c = Ok tt <-> common_admissible is_dir c.
Proof.
  unfold common_validate, common_admissible.
  repeat (case_if; z_bool; [split; [done|intros Hc; decompose [and] Hc; first [lia|congruence]]|]).
  split; [intros _|done]. split_and!; try done; lia.
Qed.

(** ** Secrets *)

(** A key: at least 64 hexadecimal digits. *)
Definition key_text (val : string) : Prop := MIN_API_KEY_HEX_LEN <= strlen val /\ is_hex val = true.

Lemma check_key_ok name v : check_key_of name v = Ok tt <-> forall val, v = Some val -> key_text val.
Proof.
  unfold check_key_of, validate_hex_key, key_text. destruct v as [val|]; [|by split].
  case_if; z_bool; [split; [done|intros Hk; destruct (Hk val eq_refl); lia]|].
  destruct (is_hex val) eqn:Hh; cbn [negb map_err]; [|split; [done|intros Hk; destruct (Hk val eq_refl); congruence]].
  split; [|done]. intros _ val' [= <-]. split; [lia|done].
Qed.

Definition required_key (mode : ApiAuthMode) : string := match mode with BearerToken => "VELDRA_API_SECRET" | HmacSha256 => "VELDRA_HMAC_KEY" end.
Definition SECRET_VARS : list string := ["VELDRA_API_SECRET"; "VELDRA_API_SECRET_PREVIOUS"; "VELDRA_HMAC_KEY"]%string.

Lemma from_env_iff mode env s : from_env mode env = Ok s <->
  (forall var val, var ∈ SECRET_VARS -> env !! var = Some val -> key_text val) /\ is_Some (env !! required_key mode) /\
  s = Secrets.mk (Redacted.new <$> env !! "VELDRA_API_SECRET"%string) (Redacted.new <$> env !! "VELDRA_API_SECRET_PREVIOUS"%string)
        (Redacted.new <$> env !! "VELDRA_HMAC_KEY"%string).
Proof.
  assert ((forall var val, var ∈ SECRET_VARS -> env !! var = Some val -> key_text val) <->
    check_key_of ApiSecret (env !! "VELDRA_API_SECRET"%string) = Ok tt /\ check_key_of ApiSecretPrevious (env !! "VELDRA_API_SECRET_PREVIOUS"%string) = Ok tt /\
    check_key_of HmacKey (env !! "VELDRA_HMAC_KEY"%string) = Ok tt) as ->.
  { rewrite !check_key_ok. unfold SECRET_VARS. split.
    - intros Hk. split_and!; intros val Hv; (eapply Hk; [|exact Hv]); set_solver.
    - intros (H1 & H2 & H3) var val Hin. rewrite !elem_of_cons in Hin. destruct Hin as [->|[->|[->|Hin]]]; [apply H1|apply H2|apply H3|by apply not_elem_of_nil in Hin]. }
  unfold from_env. destruct (check_key_of ApiSecret _) as [[]|]; cbn [result_bind]; [|naive_solver].
  destruct (check_key_of ApiSecretPrevious _) as [[]|]; cbn [result_bind]; [|naive_solver].
  destruct (check_key_of HmacKey _) as [[]|]; cbn [result_bind]; [|naive_solver].
  destruct mode; cbn [required_key].
  - destruct (env !! "VELDRA_API_SECRET"%string) as [k|]; cbn [result_bind]; [|split; [done|by intros (_ & [? ?] & _)]].
    split; [intros [= <-]; split_and!; [..|by eexists|]; done|by intros (_ & _ & ->)].
  - destruct (env !! "VELDRA_HMAC_KEY"%string) as [k|]; cbn [result_bind]; [|split; [done|by intros (_ & [? ?] & _)]].
    split; [intros [= <-]; split_and!; [..|by eexists|]; done|by intros (_ & _ & ->)].
Qed.

(** ** Keys at the middleware *)

Lemma hex_visible (c : Ascii.ascii) : is_ascii_hexdigit c = true -> visible (Ascii.byte_of_ascii c).
Proof. destruct c as [[] [] [] [] [] [] [] []]; vm_compute; intros Hc; try discriminate Hc; right; split; discriminate. Qed.

Lemma lit_hex_visible s : is_hex s = true -> Forall visible (lit s).
Proof.
  unfold is_hex, lit, String.list_byte_of_string. intros Hs. apply Forall_map, Forall_forall. intros c Hc.
  apply hex_visible. eapply forallb_forall in Hs; [exact Hs|]. by apply list_elem_of_In.
Qed.

Lemma constant_time_refl a : constant_time_eq a a = true.
Proof. unfold constant_time_eq. rewrite Nat.eqb_refl. by apply bool_decide_true. Qed.

(** The state of the middleware holds the secrets that were loaded. *)
Definition holds_secrets (s : Secrets.t) (a : AuthState.t) : Prop :=
  AuthState.api_secret a = (fun r => lit (Redacted.inner r)) <$> Secrets.api_secret s /\
  AuthState.api_secret_previous a = (fun r => lit (Redacted.inner r)) <$> Secrets.api_secret_previous s.

(** A request with one of the two keys in its header passes, in the form the middleware reads it. *)
Lemma bearer_with_key s a env hs key : from_env BearerToken env = Ok s -> holds_secrets s a ->
  env !! "VELDRA_API_SECRET"%string = Some key \/ env !! "VELDRA_API_SECRET_PREVIOUS"%string = Some key ->
  get_header "authorization" hs = Some (lit "Bearer " ++ lit key) -> verify_bearer hs a = true.
Proof.
  intros (Hk & _ & ->)%from_env_iff [Ha Hp] Hkey Hh. cbn [Secrets.api_secret Secrets.api_secret_previous] in Ha, Hp.
  assert (key_text key) as [Hl Hx] by (destruct Hkey as [Hv|Hv]; (eapply Hk; [|exact Hv]); unfold SECRET_VARS; set_solver).
  unfold verify_bearer, extract_bearer_token, header_str. rewrite Hh. cbn [mbind option_bind].
  rewrite (proj2 (header_to_str_visible _)).
  2: { apply Forall_app. split; [|by apply lit_hex_visible]. apply header_to_str_visible. vm_compute; reflexivity. }
  cbn [mbind option_bind]. rewrite strip_prefix_app. cbn [mbind option_bind].
  destruct (lit key) as [|b t] eqn:El.
  { exfalso. unfold strlen, MIN_API_KEY_HEX_LEN, MIN_API_KEY_BYTES in Hl. destruct key; [cbn in Hl; lia|discriminate El]. }
  rewrite <-El. rewrite Ha, Hp. destruct Hkey as [->| ->]; cbn [fmap option_fmap option_map Redacted.inner]; rewrite constant_time_refl; [done|apply orb_true_r].
Qed.

(** Nothing else passes. *)
Lemma bearer_only_keys s a env hs : from_env BearerToken env = Ok s -> holds_secrets s a -> verify_bearer hs a = true ->
  exists key, (env !! "VELDRA_API_SECRET"%string = Some key \/ env !! "VELDRA_API_SECRET_PREVIOUS"%string = Some key) /\ key_text key /\
    extract_bearer_token hs = Some (lit key).
Proof.
  intros (Hk & _ & ->)%from_env_iff [Ha Hp]. cbn [Secrets.api_secret Secrets.api_secret_previous] in Ha, Hp. unfold verify_bearer.
  destruct (extract_bearer_token hs) as [token|]; [|done]. rewrite Ha, Hp.
  assert (forall v : option string, match (fun r => lit (Redacted.inner r)) <$> (Redacted.new <$> v) with Some x => constant_time_eq token x | None => false end = true ->
    exists key, v = Some key /\ token = lit key) as Hm.
  { intros [v|]; [|done]. cbn [fmap option_fmap option_map Redacted.inner]. unfold constant_time_eq. case_if; [done|]. intros Ht%bool_decide_eq_true. by exists v. }
  intros [(key & Hv & ->)%Hm|(key & Hv & ->)%Hm]%orb_prop; exists key; (split_and!; [tauto| |done]); (eapply Hk; [|exact Hv]); unfold SECRET_VARS; set_solver.
Qed.

(** Keys of the HTTP middleware, from the environment to a request. Loading succeeds exactly when each
    of the three variables that is set holds at least 64 hexadecimal digits and the one that the mode
    needs is set. With what was loaded a request passes the bearer check exactly when the token of its
    header is one of the two keys, the previous one included, and the header a client writes with such a
    key is read so; and neither the debug text of the secrets
    nor that of one of them depends on its value. *)
Theorem bearer_keys mode env :
  (is_Some (match from_env mode env with Ok s => Some s | Err _ => None end) <->
   (forall var val, var ∈ SECRET_VARS -> env !! var = Some val -> key_text val) /\ is_Some (env !! required_key mode)) /\
  (forall s a hs, from_env BearerToken env = Ok s -> holds_secrets s a ->
     (verify_bearer hs a = true <->
      exists key, (env !! "VELDRA_API_SECRET"%string = Some key \/ env !! "VELDRA_API_SECRET_PREVIOUS"%string = Some key) /\
        extract_bearer_token hs = Some (lit key)) /\
     forall key, env !! "VELDRA_API_SECRET"%string = Some key \/ env !! "VELDRA_API_SECRET_PREVIOUS"%string = Some key ->
       get_header "authorization" hs = Some (lit "Bearer " ++ lit key) -> verify_bearer hs a = true) /\
  (forall env' s s', from_env mode env = Ok s -> from_env mode env' = Ok s' ->
     (forall var, var ∈ SECRET_VARS -> is_Some (env !! var) <-> is_Some (env' !! var)) -> Secrets.debug s = Secrets.debug s').
Proof.
  split_and!.
  - split.
    + destruct (from_env mode env) as [s|] eqn:Hf; [|by intros [? ?]]. intros _. apply from_env_iff in Hf as (Hk & Hr & _). done.
    + intros [Hk Hr]. rewrite (proj2 (from_env_iff mode env _) (conj Hk (conj Hr eq_refl))). by eexists.
  - intros s a hs Hf Ha. split; [split|intros key Hv Hh; by eapply bearer_with_key].
    + intros (key & Hv & _ & He)%(bearer_only_keys s a env); [by exists key|done|done].
    + intros (key & Hv & He). unfold verify_bearer. rewrite He. apply from_env_iff in Hf as (_ & _ & ->). destruct Ha as [-> ->].
      cbn [Secrets.api_secret Secrets.api_secret_previous]. destruct Hv as [->| ->]; cbn [fmap option_fmap option_map Redacted.inner]; rewrite constant_time_refl; [done|apply orb_true_r].
  - intros env' s s' (_ & _ & ->)%from_env_iff (_ & _ & ->)%from_env_iff Hs. unfold Secrets.debug. cbn [Secrets.api_secret Secrets.api_secret_previous Secrets.hmac_key].
    assert (forall var, var ∈ SECRET_VARS -> (fun _ : Redacted.t string => "[REDACTED]"%string) <$> (Redacted.new <$> env !! var) =
      (fun _ => "[REDACTED]"%string) <$> (Redacted.new <$> env' !! var)) as Hd.
    { intros var Hin%Hs. destruct (env !! var), (env' !! var); try done; destruct Hin as [H1 H2];
        [destruct (H1 ltac:(by eexists)); done|destruct (H2 ltac:(by eexists)); done]. }
    rewrite !Hd by (unfold SECRET_VARS; set_solver). done.
Qed.

(** ** The scan *)

Section ScanFacts.
Variable log2 : f64 -> f64.

(** A text at a path of tables. *)
Inductive text_at : toml -> list string -> string -> Prop :=
| text_here t key s : t !! key = Some (TomlStr s) -> text_at (TomlTab t) [key] s
| text_below t key child path s : t !! key = Some child -> text_at child path s -> text_at (TomlTab t) (key :: path) s.

(** One that is taken for a secret. *)
Definition secret_at (v : toml) (path : list string) : Prop :=
  exists s key, text_at v path s /\ last path = Some key /\ suspect key = true /\ looks_like_secret log2 s = true.

Definition secret_child (path p : list string) (key : string) (child : toml) : Prop :=
  match child with
  | TomlStr s => suspect key = true /\ looks_like_secret log2 s = true /\ p = path ++ [key]
  | TomlTab _ => p ∈ toml_secrets log2 child (path ++ [key])
  | _ => False
  end.

Lemma elem_of_secrets t path p : p ∈ toml_secrets log2 (TomlTab t) path <-> exists key child, t !! key = Some child /\ secret_child path p key child.
Proof.
  cbn [toml_secrets]. refine (map_fold_weak_ind (fun out t => p ∈ out <-> exists key child, t !! key = Some child /\ secret_child path p key child) _ [] _ _ t); clear t.
  - split; [by intros ?%not_elem_of_nil|]. by intros (?&?&?&_).
  - intros key child t out Hk IH. trans (secret_child path p key child \/ p ∈ out).
    + unfold secret_child. destruct child; try tauto; rewrite elem_of_app; [|tauto]. destruct (suspect key), (looks_like_secret log2 s); cbn [andb];
        rewrite ?list_elem_of_singleton, ?elem_of_nil; naive_solver.
    + rewrite IH. split.
      * intros [Hp|(k' & c' & Hr & Hp)]; [exists key, child; by rewrite lookup_insert_eq|].
        exists k', c'. rewrite lookup_insert_ne; [done|congruence].
      * intros (k' & c' & Hr & Hp). destruct (decide (k' = key)) as [->|Hne].
        { rewrite lookup_insert_eq in Hr. injection Hr as ->. by left. }
        rewrite lookup_insert_ne in Hr by done. right. by exists k', c'.
Qed.

Lemma secrets_spec v : forall path p, p ∈ toml_secrets log2 v path <-> exists rest, p = path ++ rest /\ secret_at v rest.
Proof.
  induction v as [v Hv|t IH] using PolicyFileSample.tree_ind; intros path p.
  - destruct v; try done; (split; [by intros ?%not_elem_of_nil|]; intros (rest & _ & s' & key & Ht & _); inversion Ht).
  - rewrite elem_of_secrets. split.
    + intros (key & child & Hk & Hp). destruct child as [| | |s|t'|]; try done; cbn [secret_child] in Hp.
      * destruct Hp as (Hs & Hl & ->). exists [key]. split; [done|]. exists s, key. split_and!; [by constructor|done..].
      * apply (IH key _ Hk) in Hp as (rest & -> & s & k & Ht & Hlast & Hx). exists (key :: rest). split; [by rewrite <-app_assoc|].
        exists s, k. split_and!; [by econstructor| |apply Hx..]. rewrite last_cons, Hlast. done.
    + intros (rest & -> & s & k & Ht & Hlast & Hsus & Hlook). inversion Ht as [? key ? Hk|? key child r ? Hk Hr]; subst.
      * exists key, (TomlStr s). split; [done|]. cbn in Hlast. injection Hlast as <-. by split_and!.
      * exists key, child. split; [done|]. destruct child as [| | | |t'|]; try (by inversion Hr). cbn [secret_child].
        apply (IH key _ Hk). exists r. split; [by rewrite <-app_assoc|]. exists s, k. split_and!; try done.
        rewrite last_cons in Hlast. destruct (last r) eqn:El; [done|]. apply last_None in El as ->. inversion Hr.
Qed.

Lemma least_path_elem l : match least_path l with Some p => p ∈ l | None => l = [] end.
Proof.
  induction l as [|p l IH]; [done|]. cbn [least_path]. destruct (least_path l) as [q|]; [|by left]. case_if; [by left|by right].
Qed.

(** A document passes exactly when no text, however deep in its tables, is taken for a secret; a refusal
    names one that is. *)
Lemma secret_scan_spec t :
  (walk_toml_for_secrets log2 t = Ok tt <-> forall path, ~ secret_at (TomlTab t) path) /\
  (forall key, walk_toml_for_secrets log2 t = Err (SecretInToml key) -> exists path, secret_at (TomlTab t) path /\ key = foldl dotted ""%string path).
Proof.
  unfold walk_toml_for_secrets. pose proof (least_path_elem (toml_secrets log2 (TomlTab t) [])) as Hl. destruct (least_path _) as [path|].
  - apply secrets_spec in Hl as (rest & -> & Hs). split; [split; [done|intros Hn; by destruct (Hn rest)]|]. intros key [= <-]. by exists rest.
  - split; [|done]. split; [|done]. intros _ path Hs. assert (path ∈ toml_secrets log2 (TomlTab t) []) as Hin by (apply secrets_spec; by exists path).
    rewrite Hl in Hin. by apply not_elem_of_nil in Hin.
Qed.

(** A list of keys is no text: nothing in it is looked at. *)
Lemma list_of_keys_passes key text : walk_toml_for_secrets log2 {[ key := TomlElse text ]} = Ok tt.
Proof.
  apply secret_scan_spec. intros path (s & k & Ht & _). inversion Ht as [? key' ? Hk|? key' child r ? Hk Hr]; subst; apply lookup_singleton_Some in Hk as [<- Hk].
  - discriminate Hk.
  - subst child. inversion Hr.
Qed.
End ScanFacts.

(** ** Keys of a small environment *)

Module CommonConfigSample.
Definition key64 : string := String.string_of_list_byte (replicate 64 x61).
Definition key65 : string := String.string_of_list_byte (replicate 65 x62).
Definition env : gmap string string := {[ "VELDRA_API_SECRET"%string := key64; "VELDRA_API_SECRET_PREVIOUS"%string := key65 ]}.
Definition secrets : Secrets.t := Secrets.mk (Some (Redacted.new key64)) (Some (Redacted.new key65)) None.
Definition state : AuthState.t := AuthState.mk BearerToken (Some (lit key64)) (Some (lit key65)) None None false 300.

Lemma bearer_keys_witness :
  from_env BearerToken env = Ok secrets /\
  verify_bearer [("authorization"%string, lit "Bearer " ++ lit key65)] state = true.
Proof.
  assert (from_env BearerToken env = Ok secrets) as Hf by (vm_compute; reflexivity). split; [exact Hf|].
  destruct (bearer_keys BearerToken env) as (_ & Hb & _).
  apply (proj2 (Hb secrets state [("authorization"%string, lit "Bearer " ++ lit key65)] Hf ltac:(split; reflexivity)) key65); [|reflexivity].
  right. vm_compute; reflexivity.
Defined.

(** An odd number of digits is a key, and no bytes: a signing key of such a length cannot be decoded. *)
Lemma odd_key_loads : key_text key65 /\ hex_decode (HexCrate := HexSample.crate) key65 = Err "Odd number of digits"%string.
Proof. split; [split; [vm_compute; discriminate|]|]; vm_compute; reflexivity. Qed.
End CommonConfigSample.
