(* ===== verification/Bridge.v ===== *)
(** * The bridge

    Models [services/sv2-bridge/src/main.rs]: the configuration from the environment, the limit on
    clients, and the stream of synthetic proposals to one client, read by the source of the template
    manager ([Manager.bridge_connection]). *)

From S2P Require Import Prelude Crates Protocol Policy VerifierStream TemplateBlock Manager Limits License Middleware PolicyFile.

Definition BRIDGE_MAX_CONNECTIONS : Z := 64.

Module BridgeConfig.
Record t : Type := mk {
  listen_addr : string; interval_secs : Z; start_height : Z; tx_count : Z; total_fees : Z; subsidy_override_sats : option Z }.

(** [from_env]: a number that does not parse is passed over. *)
Definition from_env (env : gmap string string) : t :=
  let num max key := v ← env !! key; Wizard.parse_uint max v in
  mk (default "127.0.0.1:3333" (env !! "VELDRA_BRIDGE_ADDR"))%string
    (Z.max (default 5 (num (2 ^ 64 - 1) "VELDRA_BRIDGE_INTERVAL_SECS"%string)) 1)
    (default 500 (num (2 ^ 32 - 1) "VELDRA_BRIDGE_START_HEIGHT"%string))
    (default 5 (num (2 ^ 32 - 1) "VELDRA_BRIDGE_TX_COUNT"%string))
    (default 100 (num (2 ^ 64 - 1) "VELDRA_BRIDGE_TOTAL_FEES"%string))
    (num (2 ^ 64 - 1) "VELDRA_BRIDGE_SUBSIDY_SATS"%string).
End BridgeConfig.

(** The schedule of the bridge, which is the template manager's. *)
Definition bridge_subsidy_sats (height : Z) : Z :=
  let halvings := height / 210000 in
  if halvings >=? 64 then 0 else Z.shiftr (50 * 100000000) halvings.

(** The accept loop: the clients that are served. *)
Definition bridge_accept (client : nat) (served : list nat) : list nat :=
  if lenZ served <? BRIDGE_MAX_CONNECTIONS then client :: served else served.
Definition bridge_done (client : nat) (served : list nat) : list nat := filter (fun c => c <> client) served.

Definition zero_hash : string := String.string_of_list_byte (replicate 64 x30).

Definition bridge_template (cfg : BridgeConfig.t) (now_ms id height : Z) : TemplatePropose.t :=
  let subsidy_sats := match BridgeConfig.subsidy_override_sats cfg with Some s => s | None => bridge_subsidy_sats height end in
  TemplatePropose.mk PROTOCOL_VERSION id height zero_hash (saturating_add 64 subsidy_sats (BridgeConfig.total_fees cfg))
    (BridgeConfig.tx_count cfg) (BridgeConfig.total_fees cfg) None (Some (now_ms mod 2 ^ 64)) None None None None None.

(** One client: at each turn the time in milliseconds and whether the line was written; the proposals
    written. *)
Fixpoint client_turns (cfg : BridgeConfig.t) (id height : Z) (turns : list (Z * bool)) : list TemplatePropose.t :=
  match turns with
  | [] => []
  | (now_ms, written) :: turns =>
      if negb written then []
      else bridge_template cfg now_ms id height :: client_turns cfg (wrapping_add 64 id 1) (saturating_add 32 height 1) turns
  end.
Definition handle_client (cfg : BridgeConfig.t) (turns : list (Z * bool)) : list TemplatePropose.t :=
  client_turns cfg 1 (BridgeConfig.start_height cfg) turns.

(** * Properties *)

Lemma bridge_subsidy_same h : bridge_subsidy_sats h = block_subsidy_sats h.
Proof. done. Qed.

Lemma client_turn_at cfg turns : forall id height i tpl, 0 <= id -> id + lenZ turns < 2 ^ 64 -> 0 <= height < 2 ^ 32 ->
  client_turns cfg id height turns !! i = Some tpl ->
  exists now_ms, tpl = bridge_template cfg now_ms (id + Z.of_nat i) (Z.min (height + Z.of_nat i) (2 ^ 32 - 1)).
Proof.
  induction turns as [|[now w] turns IH]; intros id height i tpl Hid Hl Hh; [done|]. cbn [client_turns]. destruct w; [|done]. cbn [negb].
  unfold lenZ in *. cbn [length] in Hl. destruct i as [|i]; cbn [lookup list_lookup].
  - intros [= <-]. exists now. f_equal; lia.
  - unfold wrapping_add, saturating_add. rewrite Z.mod_small by lia. intros Hi.
    destruct (IH (id + 1) (Z.min (height + 1) (2 ^ 32 - 1)) i tpl ltac:(lia) ltac:(lia) ltac:(lia) Hi) as (now' & ->). exists now'. f_equal; lia.
Qed.

Section Heard.
(** [serde_json] on a proposal, which reads back what it writes. *)
Variables (print : TemplatePropose.t -> bytes) (parse : bytes -> option TemplatePropose.t).
Hypothesis parse_print : forall tpl, parse (print tpl) = Some tpl.

(** What the template manager hears of a client is what the bridge wrote, in order: ids that count from 1,
    heights that count from the configured one and stay at the last a [u32] has, each with the subsidy of
    its height and the fees as its value, and the fees as declared. *)
Lemma bridge_heard cfg turns ending : lenZ turns < 2 ^ 64 - 1 -> 0 <= BridgeConfig.start_height cfg < 2 ^ 32 ->
  match ending with BridgeLine _ _ => False | _ => True end ->
  let heard := bridge_connection (((fun tpl => BridgeLine false (parse (print tpl))) <$> handle_client cfg turns) ++ [ending]) in
  heard = handle_client cfg turns /\
  forall i tpl, heard !! i = Some tpl ->
    let height := Z.min (BridgeConfig.start_height cfg + Z.of_nat i) (2 ^ 32 - 1) in
    TemplatePropose.id tpl = 1 + Z.of_nat i /\ TemplatePropose.block_height tpl = height /\
    TemplatePropose.total_fees tpl = BridgeConfig.total_fees cfg /\
    (BridgeConfig.subsidy_override_sats cfg = None ->
       TemplatePropose.coinbase_value tpl = Z.min (block_subsidy_sats height + BridgeConfig.total_fees cfg) (2 ^ 64 - 1)).
Proof.
  cbv zeta. intros Hl Hh He.
  assert (forall l, bridge_connection (((fun tpl => BridgeLine false (parse (print tpl))) <$> l) ++ [ending]) = l) as Hb.
  { induction l as [|tpl l IH]; [by destruct ending|]. rewrite fmap_cons. cbn [app bridge_connection]. by rewrite parse_print, IH. }
  rewrite Hb. split; [done|]. intros i tpl Hi.
  destruct (client_turn_at cfg turns 1 _ i tpl ltac:(lia) ltac:(lia) Hh Hi) as (now & ->). split_and!; try done.
  intros Hn. unfold bridge_template. cbn [TemplatePropose.coinbase_value]. rewrite Hn, bridge_subsidy_same. done.
Qed.
End Heard.

(** A client that connects again hears the ids again. *)
Lemma reconnect_repeats_ids cfg t1 t2 l1 l2 :
  TemplatePropose.id <$> head (handle_client cfg ((t1, true) :: l1)) = TemplatePropose.id <$> head (handle_client cfg ((t2, true) :: l2)).
Proof. done. Qed.

(** No more clients than the limit. *)
Lemma bridge_served_bounded served client : lenZ served <= BRIDGE_MAX_CONNECTIONS ->
  lenZ (bridge_accept client served) <= BRIDGE_MAX_CONNECTIONS /\ lenZ (bridge_done client served) <= BRIDGE_MAX_CONNECTIONS.
Proof.
  intros Hs. unfold bridge_accept, bridge_done. split.
  - case_if; z_bool; [|done]. unfold lenZ in *. cbn [length]. lia.
  - unfold lenZ in *. pose proof (length_filter (fun c => c <> client) served). lia.
Qed.
