(* ===== verification/MempoolClient.v ===== *)
(** * The size of the mempool

    Models [services/pool-verifier/src/mempool_client.rs], the verifier's reading of how many transactions
    wait, joined to the endpoint of the template manager that answers it ([Manager.get_mempool]) and to
    the fee tier it decides ([PolicyConfig.effective_min_avg_fee_dynamic]). A JSON object is its entries
    in the order of the text. *)

From S2P Require Import Prelude Crates Float64 Mempool Policy Manager Limits License Middleware PolicyFile Feed.

Definition DEFAULT_MEMPOOL_TIMEOUT_MS : Z := 900.
Definition mempool_timeout_ms (env : gmap string string) : Z :=
  default DEFAULT_MEMPOOL_TIMEOUT_MS (v ← env !! "VELDRA_MEMPOOL_TIMEOUT_MS"%string; parse_u64 (lit v)).

(** The values of a field under its names: serde refuses a field that comes twice. *)
Definition named (names : list string) (entries : list (string * jvalue)) : list jvalue :=
  (filter (fun e => e.1 ∈ names) entries).*2.

Module TxCountReply.
Record t : Type := mk { tx_count : Z; timestamp : option Z }.
End TxCountReply.

Definition reply_of (v : jvalue) : option TxCountReply.t :=
  match v with
  | VObj entries =>
      tx_count ← match named ["tx_count"; "count"; "size"]%string entries with [] => Some 0 | [v] => jas_u64 v | _ => None end;
      timestamp ← match named ["timestamp"]%string entries with
                  | [] | [VNull] => Some None
                  | [v] => Some <$> jas_u64 v
                  | _ => None
                  end;
      Some (TxCountReply.mk tx_count timestamp)
  | _ => None
  end.

(** [None] for a request that failed, a status that is no success, or a body that is no such object. An
    old answer is logged and used. *)
Definition fetch_mempool_tx_count (reply : option HttpReply.t) : option Z :=
  resp ← reply;
  if negb ((200 <=? HttpReply.status resp) && (HttpReply.status resp <? 300)) then None
  else snapshot ← HttpReply.json resp ≫= reply_of; Some (TxCountReply.tx_count snapshot).

(** ** The template manager's answer *)

Definition stats_json (s : MempoolStats.t) : jvalue :=
  VObj [("loaded_from", VText (MempoolStats.loaded_from s)); ("tx_count", VNum (MempoolStats.tx_count s)); ("bytes", VNum (MempoolStats.bytes s));
        ("usage", VNum (MempoolStats.usage s)); ("max", VNum (MempoolStats.max s)); ("min_relay_fee", VNum (MempoolStats.min_relay_fee s));
        ("timestamp", VNum (MempoolStats.timestamp s))]%string.
Definition manager_reply (now_secs : Z) (m : Manager.t) : option HttpReply.t :=
  Some (HttpReply.mk 200 (Some (stats_json (Manager.get_mempool now_secs m)))).

(** * Properties *)

Definition stats_ok (s : MempoolStats.t) : Prop := 0 <= MempoolStats.tx_count s <= u64_max /\ 0 <= MempoolStats.timestamp s <= u64_max.

Lemma fetch_stats s : stats_ok s -> fetch_mempool_tx_count (Some (HttpReply.mk 200 (Some (stats_json s)))) = Some (MempoolStats.tx_count s).
Proof.
  intros [[H1 H2] [H3 H4]]. unfold fetch_mempool_tx_count. cbn [mbind option_bind HttpReply.status HttpReply.json].
  change (negb _) with false. cbv iota. unfold reply_of, stats_json.
  change (named ["tx_count"; "count"; "size"]%string _) with [VNum (MempoolStats.tx_count s)].
  change (named ["timestamp"]%string _) with [VNum (MempoolStats.timestamp s)]. cbv iota. unfold jas_u64.
  rewrite (proj2 (andb_true_iff _ _)) by (rewrite !Z.leb_le; lia). rewrite (proj2 (andb_true_iff _ _)) by (rewrite !Z.leb_le; lia). done.
Qed.

(** The iterations of a manager on a node: when, and what [getmempoolinfo] gave at each attempt. *)
Definition turn : Type := Z * Manager.polled * list (option (Z * Z * Z * Z * Z)).
Definition iterate_all (backend instance_id : string) (turns : list turn) (m : Manager.t) : Manager.t :=
  foldl (fun m '(now, p, attempts) => Manager.iterate backend instance_id now p attempts m) m turns.
Definition node_size (t : turn) : option Z := (fun i : Z * Z * Z * Z * Z => i.1.1.1.1) <$> Manager.fetch_mempool_info 3 t.2.
Definition turn_ok (t : turn) : Prop :=
  0 <= t.1.1 <= u64_max /\ forall i, Manager.fetch_mempool_info 3 t.2 = Some i -> 0 <= i.1.1.1.1 <= u64_max.

Lemma iterate_log instance_id now p attempts m :
  Manager.mempool_log (Manager.iterate "bitcoind" instance_id now p attempts m) =
    match Manager.fetch_mempool_info 3 attempts with
    | Some (size, bytes, usage, max, min_fee) => Some (MempoolStats.mk "bitcoind" size bytes usage max min_fee now)
    | None => Manager.mempool_log m
    end.
Proof.
  unfold Manager.iterate, Manager.handle_mempool. rewrite bool_decide_true by done. cbn [negb].
  assert (Manager.mempool_log (Manager.handle_template "bitcoind" instance_id now p m) = Manager.mempool_log m) as Hm by by destruct p.
  destruct (Manager.fetch_mempool_info 3 attempts) as [[[[[? ?] ?] ?] ?]|]; [done|]. cbn [Manager.mempool_log]. exact Hm.
Qed.

Lemma log_after instance_id turns m : Forall turn_ok turns -> (forall s, Manager.mempool_log m = Some s -> stats_ok s) ->
  (forall s, Manager.mempool_log (iterate_all "bitcoind" instance_id turns m) = Some s -> stats_ok s) /\
  MempoolStats.tx_count <$> Manager.mempool_log (iterate_all "bitcoind" instance_id turns m) =
    match last (omap node_size turns) with Some n => Some n | None => MempoolStats.tx_count <$> Manager.mempool_log m end.
Proof.
  revert m. induction turns as [|[[now p] attempts] turns IH]; intros m Hok Hm; [done|]. apply Forall_cons in Hok as [[Hn Hi] Hok].
  unfold iterate_all. cbn [foldl]. fold (iterate_all "bitcoind" instance_id turns (Manager.iterate "bitcoind" instance_id now p attempts m)).
  assert (forall s, Manager.mempool_log (Manager.iterate "bitcoind" instance_id now p attempts m) = Some s -> stats_ok s) as Hm'.
  { rewrite iterate_log. cbn [snd fst] in Hn, Hi. destruct (Manager.fetch_mempool_info 3 attempts) as [[[[[n ?] ?] ?] ?]|] eqn:Hf; [|done].
    intros s [= <-]. split; [exact (Hi _ eq_refl)|exact Hn]. }
  destruct (IH _ Hok Hm') as [H1 H2]. split; [done|]. rewrite H2, iterate_log. cbn [omap list_omap]. unfold node_size at 2. cbn [snd].
  destruct (Manager.fetch_mempool_info 3 attempts) as [[[[[n ?] ?] ?] ?]|]; cbn [fmap option_fmap option_map fst MempoolStats.tx_count]; [|done].
  rewrite last_cons. by destruct (last _).
Qed.

(** C9 The fee tier, from the node to the verdict: when the verifier asks a template manager on a node, the
    tier it applies is that of the size the node gave last, however long ago that was. A manager whose
    node gave none yet, and a manager on another source at any time, is answered with a mempool of no
    transactions, and the tier is the one of an empty mempool: the lowest where [low_mempool_tx] is
    positive (a policy that sets it to 0, as policy-prod.toml does, has no lowest tier), whatever the
    policy says of an unknown mempool in [unknown_mempool_as_high]. *)
Theorem tier_of_the_node instance_id turns now c :
  Forall turn_ok turns -> 0 <= now <= u64_max ->
  let tier m := PolicyConfig.effective_min_avg_fee_dynamic c (fetch_mempool_tx_count (manager_reply now m)) in
  tier (iterate_all "bitcoind" instance_id turns Manager.new) =
    PolicyConfig.effective_min_avg_fee_dynamic c (Some (default 0 (last (omap node_size turns)))) /\
  (forall backend turns', backend <> "bitcoind"%string ->
     tier (iterate_all backend instance_id turns' Manager.new) = PolicyConfig.effective_min_avg_fee_dynamic c (Some 0)) /\
  (0 < PolicyConfig.low_mempool_tx c ->
     PolicyConfig.effective_min_avg_fee_dynamic c (Some 0) = (PolicyConfig.min_avg_fee_lo c, Low)).
Proof.
  cbv zeta. intros Hok Hn.
  assert (forall m, (forall s, Manager.mempool_log m = Some s -> stats_ok s) ->
    fetch_mempool_tx_count (manager_reply now m) = Some (default 0 (MempoolStats.tx_count <$> Manager.mempool_log m))) as Hf.
  { intros m Hm. unfold manager_reply, Manager.get_mempool. destruct (Manager.mempool_log m) as [s|]; cbn [unwrap_or]; rewrite fetch_stats; [done|by apply Hm|done|].
    split; cbn [MempoolStats.tx_count MempoolStats.timestamp]; [unfold u64_max|]; lia. }
  split_and!.
  - destruct (log_after instance_id turns Manager.new Hok) as [H1 H2]; [done|]. rewrite (Hf _ H1), H2. by destruct (last _).
  - intros backend turns' Hb.
    assert (forall m, Manager.mempool_log m = None -> Manager.mempool_log (iterate_all backend instance_id turns' m) = None) as Hnone.
    { induction turns' as [|[[t p] attempts] turns' IH]; intros m Hm; [done|]. unfold iterate_all. cbn [foldl]. apply IH.
      unfold Manager.iterate, Manager.handle_mempool. rewrite bool_decide_false by done. cbn [negb]. by destruct p. }
    rewrite Hf by (intros s; rewrite Hnone by done; done). by rewrite Hnone.
  - intros Hlow. cbn. by rewrite (proj2 (Z.ltb_lt _ _) Hlow).
Qed.

Module MempoolClientSample.
Definition turns : list turn :=
  [(1000, Manager.PolledNothing, [None; Some (600, 1, 1, 1, 1)]); (1030, Manager.PolledError, [None; None; None; Some (7, 1, 1, 1, 1)])].

(** The node gave 600, then failed three times; and a manager on the bridge. *)
Lemma tier_of_the_node_witness : let c := PolicyConfig.default_with_protocol 2 in
  PolicyConfig.effective_min_avg_fee_dynamic c
    (fetch_mempool_tx_count (manager_reply 2000 (iterate_all "bitcoind" "i" turns Manager.new))) = (PolicyConfig.min_avg_fee_hi c, High) /\
  PolicyConfig.effective_min_avg_fee_dynamic c
    (fetch_mempool_tx_count (manager_reply 2000 (iterate_all "stratum" "i" turns Manager.new))) = (PolicyConfig.min_avg_fee_lo c, Low).
Proof.
  cbv zeta. destruct (tier_of_the_node "i" turns 2000 (PolicyConfig.default_with_protocol 2)) as (H1 & H2 & H3).
  - repeat apply Forall_cons_2; [..|apply Forall_nil_2]; (split; [vm_compute; split; discriminate|]); intros i Hi; vm_compute in Hi; [injection Hi as <-; vm_compute; split; discriminate|discriminate Hi].
  - vm_compute; split; discriminate.
  - split; [exact H1|]. rewrite H2 by discriminate. apply H3. vm_compute; reflexivity.
Defined.
End MempoolClientSample.
